(* ===== verification/_CoqProject ===== *)
-Q . S2P
Prelude.v
Platform.v
Uuid.v
TransactionState.v
Inventory.v
Horizon.v
RowVersion.v
Snapshot.v
CopyOnWrite.v
Savepoint.v
LockTable.v
LockLifecycle.v
InventoryEvolution.v
InventoryTheorems.v
Recovery.v
InventorySteps.v
Samples.v
UuidFacts.v
SnapshotFacts.v
SnapshotWorld.v
CleanupHorizon.v
Cleanup.v
CleanupFacts.v
PageFinality.v
VisibilityCache.v
Bytes.v
PageFrame.v
InventoryPage.v
InventoryPageFacts.v
NativeInventoryPage.v
BorrowedFacts.v
PageFrameFacts.v
NativeInventoryPageFacts.v
FilespacePageZero.v
FilespacePageZeroFacts.v
FilespaceGrowth.v
FilespaceGrowthFacts.v
TipPage.v
TipPageFacts.v
TipEdits.v
TipRestart.v
TransactionHeader.v
TransactionHeaderFacts.v
InventoryChain.v
InventoryChainFacts.v
TableContent.v
Manager.v
CurrentRowMap.v
SupportServices.v
MemoryGovernance.v
OptimizerPressure.v
Isolation.v
InventoryClaims.v
RecoveryClaims.v
VisibilityClaims.v
IsolationClaims.v
CleanupClaims.v
VisibilityCacheClaims.v
InventoryPageClaims.v
SnapshotClaims.v
LockClaims.v
LockLifecycleClaims.v
CowClaims.v
SavepointClaims.v
TableContentClaims.v
ManagerClaims.v
Evidence.v
CurrentRowMapClaims.v
HistoricalSnapshot.v
SupportClaims.v
MemoryGovernanceClaims.v
NativeInventoryPageClaims.v
FilespaceClaims.v
InventoryChainClaims.v
TipClaims.v
TipRestartClaims.v
TransactionHeaderClaims.v
InventoryReader.v
InventoryReaderFacts.v
InventoryReaderClaims.v
