(* ===== verification/Prelude.v ===== *)
(** * ScratchBird: the transaction core

    ScratchBird is a database engine with multi-generational (MGA) concurrency
    control: an update writes a new version of a row, a reader sees the versions its
    snapshot admits, and old versions are reclaimed once no reader can need them.
    This library models the transaction core of the engine, the package
    [src/project/src/transaction/mga], with the platform vocabulary and UUIDs it is
    written in ([src/project/src/core/platform], [src/project/src/core/uuid]) and the
    storage code that makes its central table durable and finds it again: under
    [src/project/src/storage/page] the codecs and the chain reader of
    [transaction_inventory_page.cpp] and the in-place inventory (state pages, header
    pages, restart and reader), under [src/project/src/storage/disk] the page header,
    the filespace preamble and page zero.

    ** How the parts interact

    The local transaction inventory holds one entry for each transaction: number,
    UUID, state, commit sequence, evidence flags.  Transactions begin, prepare,
    commit, roll back and are archived by pure transforms of the inventory, each
    checked against a table of legal state transitions; two validators recheck a
    whole inventory and a pair of successive ones.  Startup recovery classifies and
    completes interrupted transactions.  Horizons (oldest interesting, active and
    snapshot numbers) are computed from the inventory.  A reader's snapshot is
    derived from its entry and the horizons; row versions are judged visible against
    it; statement snapshots are published in a registry whose pins hold horizons
    back.  Cleanup asks a horizon service, which reads the inventory and the
    registry, and reclaims versions below the horizon.  Page finality maps and the
    visibility cache may answer in place of the inventory when their stamps are
    current.  Locks, savepoints, isolation tracking and copy-on-write plans order
    the writers.  A manager object owns an inventory and its counters; a governor
    accounts for the memory of transactions; smaller services resolve a table's
    content generation, map current rows, open audit snapshots and keep evidence.

    On disk, page zero of each file of the database holds the preamble, the counters
    of the filespace and the directory of roots.  The transaction root leads to a
    chain of inventory pages across the files; the chain reader checks the files,
    follows the chain and returns the inventory with its horizons.  The in-place form
    of the inventory is a chain of state pages, one four-byte word for each number,
    and a chain of header pages, one 256-byte record for each number, both edited one
    512-byte unit at a time.  After an open, restart marks what a crash left in
    progress as dead; the reader brings both chains in, checks them against each other
    and builds the inventory from them.  Growing a
    filespace replaces 384 bytes of page zero; after an interruption a repair
    completes it, and a probe finds the roots without those bytes.

    ** Files

    A file named after a component holds its definitions, and short components their
    lemmas and theorems too; [Facts] files hold lemmas, [Claims] files the theorems of a
    component with their witnesses.

    - [Prelude]: machine words, shared lemmas, tactics and hint databases.
      [Platform]: [runtime_platform.{hpp,cpp}].  [Samples]: values on which the
      witnesses evaluate the theorems.
    - [Uuid], [UuidFacts]: [uuid.{hpp,cpp}], text and byte forms, orders, versions 7
      and 3.
    - [TransactionState]: [transaction_state.{hpp,cpp}] and
      [transaction_identity_observation.hpp].
    - [Inventory], [InventoryEvolution], [InventoryTheorems], [InventorySteps],
      [InventoryClaims]: [transaction_inventory.{hpp,cpp}] and
      [transaction_inventory_validation.hpp]; [InventorySteps] composes the
      transforms and the recovery entry points into executions.
    - [Recovery], [RecoveryClaims]: [transaction_recovery.{hpp,cpp}].
    - [Horizon]: [transaction_horizon.{hpp,cpp}], [transaction_horizon_projection.hpp].
      [RowVersion]: [row_version.{hpp,cpp}], [row_version_observation.hpp].
      [VisibilityClaims] is about both.
    - [Snapshot], [SnapshotFacts], [SnapshotWorld], [SnapshotClaims]:
      [transaction_snapshot.{hpp,cpp}], with the shared registry as an explicit store.
    - [LockTable], [LockClaims]: [transaction_lock.{hpp,cpp}].  [LockLifecycle],
      [LockLifecycleClaims]: [lock_wait_lifecycle.{hpp,cpp}].
    - [Isolation], [IsolationClaims]: [isolation.{hpp,cpp}].
      [CopyOnWrite], [CowClaims]: [copy_on_write.{hpp,cpp}].
      [Savepoint], [SavepointClaims]: [savepoint.{hpp,cpp}].
    - [CleanupHorizon]: [transaction_cleanup_horizon_service.{hpp,cpp}].
      [Cleanup], [CleanupFacts], [CleanupClaims]: [transaction_cleanup.{hpp,cpp}].
    - [PageFinality]: [page_finality_evidence.{hpp,cpp}].  [VisibilityCache],
      [VisibilityCacheClaims]: [visibility_status_cache.{hpp,cpp}].
    - [TableContent], [TableContentClaims]: [table_content_generation.{hpp,cpp}].
      [CurrentRowMap], [CurrentRowMapClaims]: [current_row_map.{hpp,cpp}].
      [HistoricalSnapshot]: [historical_snapshot_locator.{hpp,cpp}].
    - [Manager], [ManagerClaims]: [transaction_manager], [transaction_metrics],
      [transaction_prepare], [transaction_policy] and
      [cluster_transaction_fail_closed].  [Evidence]: [transaction_evidence.{hpp,cpp}].
    - [SupportServices], [SupportClaims]: [transaction_support_services.{hpp,cpp}].
      [MemoryGovernance], [MemoryGovernanceClaims]: [transaction_memory_governance]
      and [transaction_memory_hooks].  [OptimizerPressure]:
      [optimizer_mga_pressure_metrics.{hpp,cpp}].
    - [Bytes]: buffers, and images as sequences of fields.  [InventoryPage],
      [InventoryPageFacts], [InventoryPageClaims]: the page body codec of
      [transaction_inventory_page.{hpp,cpp}] and the entry point of [hash_digest.cpp].
    - [PageFrame], [PageFrameFacts]: [native_common_page_header.{hpp,cpp}] and
      [filespace_bootstrap.{hpp,cpp}].
    - [NativeInventoryPage], [NativeInventoryPageFacts], [BorrowedFacts],
      [NativeInventoryPageClaims]: the native page of
      [transaction_inventory_page.{hpp,cpp}], owning and in borrowed memory.
    - [FilespacePageZero], [FilespacePageZeroFacts]: the codec and the guarded reads of
      [filespace_page_zero.{hpp,cpp}].  [FilespaceGrowth], [FilespaceGrowthFacts]: its
      growth actuator and its recovery probe.  [FilespaceClaims] is about all three.
    - [InventoryChain], [InventoryChainFacts], [InventoryChainClaims]: the chain reader
      of [transaction_inventory_page.{hpp,cpp}], with [ReadNativeMetadataPageZero] of
      [native_metadata_memory.hpp].
    - [TipPage], [TipPageFacts], [TipEdits], [TipClaims]:
      [transaction_state_page.{hpp,cpp}] and [transaction_state_code_map.{hpp,cpp}].
      [TipRestart], [TipRestartClaims]: [transaction_state_restart.{hpp,cpp}].
    - [TransactionHeader], [TransactionHeaderFacts], [TransactionHeaderClaims]:
      [transaction_header_record.{hpp,cpp}] and [transaction_header_page.{hpp,cpp}].
    - [InventoryReader], [InventoryReaderFacts], [InventoryReaderClaims]:
      [transaction_inventory_reader.{hpp,cpp}].

    A struct of the source is a record with a field prefix, an enum an inductive type
    with a constructor prefix, a function a definition of the same name; a method
    [C::f] that changes its object takes the object and returns it.  Where two files
    use one name for different functions, the model's name carries the component.
    A result struct with a status stays a record: an error is a value with its
    diagnostic, as in the source.

    ** What the theorems show

    - The inventory: every accepted operation is a legal step; outcomes are final;
      numbers are not reused; both validators decide their declarative readings;
      begin, commit and compaction do what their contracts say.
    - Recovery: when it is accepted, what it gives every entry, and that running it
      again changes nothing.
    - Visibility: the evaluation equals its declarative reading; snapshot isolation;
      repeatable reads along every later execution; exact horizons that do not move
      backwards; pins keep their snapshots alive.
    - Cleanup: an accepted sweep splits its versions into kept and reclaimed ones,
      reclaims exactly the eligible ones, and no active reader needs a reclaimed one.
    - Accelerators: cached answers refine the inventory through any interleaving of
      operations; page finality authorises index cleanup only below every active
      transaction; a refusal always leads back to the inventory.
    - Locks: exclusion after any history in both lock managers, the deadlock search
      is reachability, released owners leave nothing behind, and in the lifecycle
      every waiter is served as holders let go, in boundedly many steps.
    - Savepoints, copy-on-write and isolation: rollback is all or nothing, a mutation
      is published only after all its phases, conflicting serializable writes are
      refused.
    - Services: the manager refines the inventory; content selection, the row map,
      audit snapshots and the acceleration probe answer exactly what the inventory
      says; a transaction reads its own writes; the governor's ledgers add up.
    - Durable form: page bodies round trip when the supplied horizons name the
      inventory's next number (and only then), neither direction of a codec leaves its
      buffer, and an accepted page is authentic.  Page headers, preambles, native
      inventory pages and page zero are canonical: one record, one image.  The forms
      that work in borrowed memory answer what the owning forms answer.
    - The chain: reading ends, and its answer is exactly the chain on the files, one
      consistent inventory.
    - Growth: no run of the actuator touches another byte or writes over a valid page
      that is not the retained one; a write that stopped anywhere can be completed by the
      repair, unless two pages share a digest; and the roots stay findable.
    - The in-place inventory: the edits of state and header pages are edits of abstract
      pages inside one unit, and no history of them takes back a number, an outcome or
      a completed record.  Restart marks exactly what was in progress, and may itself be
      interrupted.  The check of the two chains decides their declarative agreement,
      survives a restart that got only part of the way, and the inventory read from
      the files is entry by entry the one the slots and headers describe.
    - UUIDs: text round trips, index order is byte order, generation follows its
      layout.

    ** Bounds, fuel and parameters

    [u64], [u32] and bytes are [N]; arithmetic that can wrap in the source is written
    with [u64_add] and [u64_sub], and theorems that need a counter not to wrap say so
    (for instance histories shorter than 2^64 calls).  Recursion that is not
    structural carries fuel: MD5 padding 64 (one block at most), the deadlock search
    of the lock table [size locks + 2] (the source's own depth guard), UUID
    generation 32 attempts (the source's constant), the cycle search of the lock
    lifecycle [size graph + 2] ([LockLifecycleClaims.cycle_fuel_enough]), draining the
    wait queue [length + 1] passes ([LockLifecycleClaims.drain_spec]: the result is
    drained), the batches of table content [length + 1]
    ([TableContentClaims]), the acceleration probe [length entries + 1]
    ([SupportClaims]), the walk along the chain [maximum / 8192 + 1] pages, since
    each page takes at least 8192 bytes of the allowance
    ([InventoryChainFacts.walk_chain_total]), the units of a page [length / 512 + 1]
    ([TipRestart.changed_units_spec]), the walk of the in-place reader
    [backing / page size + 1] pages, since the backing has no room for more.  Theorems
    about chains of state pages ask for fewer than 2^48 pages, and those about the runs
    of images the reader fills for fewer than 2^48 bytes, so that page numbers times
    slots stay below 2^64.  In the page codecs [None] stands for an access outside a buffer.  Code
    outside the modelled files is an argument: the random bytes and the clock of UUID
    generation, the undo executor of savepoints, the answers of the allocator to the
    governor, the SHA-256 provider, what a file answers to a read or a request for its
    size, which operations of a growth fail and what a failed write leaves, whether
    regions a caller supplies overlap.  [std::sort]
    is [merge_sort]; maps and sets are finite maps, taken in key order where the
    order shows.

    ** What is not modelled

    Metric publication, memory arenas and mutexes (each public method is one step);
    allocation failure and other exceptions of the host; the latency batches and byte
    counters of device reads.  The file does not change between the
    operations of one growth, and a write that succeeds stores its bytes.  Beyond the
    modelled files: the other page kinds, the devices, data types, indexes, the query
    engine, parsers, server and wire protocols, which use the transaction core through
    the interfaces modelled here. *)

From stdpp Require Export base tactics numbers list gmap strings sorting.
From Stdlib Require Export ZifyBool.
From Stdlib Require Import DecimalN DecimalPos.
From Stdlib Require DecimalString.

#[global] Open Scope N_scope.
#[export] Set Warnings "-clear-no-such-hyp".

(** ** Machine words

    [u64] values are [N]; every arithmetic operation of the source that can
    wrap is written with [u64_add] / [u64_sub]. *)

Definition u64_modulus : N := 2 ^ 64.
Definition u64_max : N := 2 ^ 64 - 1.
Definition u64_add (a b : N) : N := (a + b) mod u64_modulus.
Definition u64_sub (a b : N) : N := (a + (u64_modulus - b)) mod u64_modulus.
Definition is_u64 (a : N) : Prop := a < u64_modulus.
Definition is_u32 (a : N) : Prop := a < 2 ^ 32.
#[global] Arguments u64_modulus : simpl never.
#[global] Arguments u64_max : simpl never.
#[global] Arguments u64_add : simpl never.
#[global] Arguments u64_sub : simpl never.

Lemma u64_modulus_val : u64_modulus = 18446744073709551616.
Proof. reflexivity. Qed.

Lemma u64_max_val : u64_max = 18446744073709551615.
Proof. reflexivity. Qed.

(** Exposes the width constants to [lia]. *)
Ltac u64_unfold :=
  unfold is_u64 in *; rewrite ?u64_modulus_val, ?u64_max_val in *.

Lemma u64_add_small a b : a + b < u64_modulus -> u64_add a b = a + b.
Proof. intros. unfold u64_add. by apply N.mod_small. Qed.

Lemma u64_add_lt a b : is_u64 (u64_add a b).
Proof. unfold u64_add, is_u64. apply N.mod_lt. by rewrite u64_modulus_val. Qed.

Lemma u64_sub_small a b : b <= a -> a < u64_modulus -> u64_sub a b = a - b.
Proof.
  intros. unfold u64_sub.
  replace (a + (u64_modulus - b)) with (a - b + 1 * u64_modulus) by (u64_unfold; lia).
  rewrite N.Div0.mod_add, N.mod_small; [done | lia].
Qed.

Lemma u64_sub_lt a b : is_u64 (u64_sub a b).
Proof. unfold u64_sub, is_u64. apply N.mod_lt. by rewrite u64_modulus_val. Qed.

(** [std::to_string] of an unsigned value. *)
Definition to_string (n : N) : string :=
  DecimalString.NilZero.string_of_uint (N.to_uint n).

(** ** Hint databases and tactics of the development *)

Create HintDb sbird.
#[export] Hint Resolve u64_add_lt u64_sub_lt : sbird.

(** Splits every guard of a chain of early returns, keeps the branch facts. *)
Ltac split_guards :=
  repeat (case_match || case_decide); simplify_eq/=.

(** Removes the boolean reading of a guard. *)
Ltac bool_prop :=
  repeat match goal with
  | H : bool_decide _ = true |- _ => apply bool_decide_eq_true_1 in H
  | H : bool_decide _ = false |- _ => apply bool_decide_eq_false_1 in H
  | H : negb _ = true |- _ => apply negb_true_iff in H
  | H : negb _ = false |- _ => apply negb_false_iff in H
  | H : _ && _ = true |- _ => apply andb_true_iff in H as [??]
  | H : _ || _ = false |- _ => apply orb_false_iff in H as [??]
  | H : ¬ (_ ∨ _) |- _ => apply Decidable.not_or in H as [??]
  end.

(** ** Lists *)

(** [std::min] folded over a list of candidates. *)
Definition min_over (init : N) (l : list N) : N := foldl N.min init l.

Lemma min_over_le_init init l : min_over init l <= init.
Proof.
  revert init. induction l as [|x l IH]; intros init; simpl; [lia|].
  specialize (IH (N.min init x)). unfold min_over in *. simpl. lia.
Qed.

Lemma min_over_le_elem init l x : x ∈ l -> min_over init l <= x.
Proof.
  intros Hx. revert init. induction Hx as [x l|x y l Hx IH]; intros init; simpl.
  - pose proof (min_over_le_init (N.min init x) l). unfold min_over in *. simpl. lia.
  - apply IH.
Qed.

Lemma min_over_in init l : min_over init l = init \/ min_over init l ∈ l.
Proof.
  revert init. induction l as [|x l IH]; intros init; [by left|].
  unfold min_over in *. simpl.
  destruct (IH (N.min init x)) as [->|H]; [|set_solver].
  destruct (N.min_spec init x) as [[_ ->]|[_ ->]]; set_solver.
Qed.

Lemma min_over_glb init l b :
  b <= init -> (forall x, x ∈ l -> b <= x) -> b <= min_over init l.
Proof.
  intros Hi Hl. destruct (min_over_in init l) as [->|H]; auto.
Qed.

(** ** Duplicate detection with an accumulator

    The pattern of a loop that inserts a key of every element into a
    [std::set] and fails when the key was already there. *)

Section acc_fresh.
Context {A K : Type} `{Countable K} (key : A -> K).

Definition acc_fresh (acc : gset K) (l : list A) : Prop :=
  NoDup (key <$> l) /\ forall x, x ∈ l -> key x ∉ acc.

Lemma acc_fresh_nil acc : acc_fresh acc [].
Proof. split; [constructor | set_solver]. Qed.

Lemma acc_fresh_cons acc x l :
  acc_fresh acc (x :: l) <-> (key x ∉ acc) /\ acc_fresh ({[key x]} ∪ acc) l.
Proof.
  unfold acc_fresh. rewrite fmap_cons, NoDup_cons. split.
  - intros [[Hx Hl] Hacc]. split; [set_solver|]. split; [done|].
    intros y Hy. pose proof (list_elem_of_fmap_2 key l y Hy).
    pose proof (Hacc y). set_solver.
  - intros [Hx [Hl Hacc]]. split; [|set_solver]. split; [|done].
    intros (y & Hy & Hin)%list_elem_of_fmap. specialize (Hacc y Hin). set_solver.
Qed.

Lemma acc_fresh_empty l : acc_fresh ∅ l <-> NoDup (key <$> l).
Proof. unfold acc_fresh. set_solver. Qed.
End acc_fresh.

(** Two elements of a list without duplicate keys that share a key are equal. *)
Lemma NoDup_fmap_inj {A K} (key : A -> K) (l : list A) x y :
  NoDup (key <$> l) -> x ∈ l -> y ∈ l -> key x = key y -> x = y.
Proof.
  intros Hnd (i & Hi)%list_elem_of_lookup (j & Hj)%list_elem_of_lookup Hk.
  assert (i = j) as ->; [|congruence].
  eapply NoDup_lookup; [done| |]; rewrite list_lookup_fmap.
  - by rewrite Hi.
  - by rewrite Hj; simpl; rewrite Hk.
Qed.

(** Replacing an element by one with the same key keeps the list of keys. *)
Lemma fmap_insert_same {A K} (key : A -> K) (l : list A) (i : nat) x y :
  l !! i = Some x -> key y = key x -> key <$> <[i := y]> l = key <$> l.
Proof.
  intros Hi Hk. rewrite list_fmap_insert. apply list_insert_id.
  by rewrite list_lookup_fmap, Hi, Hk.
Qed.

(** Keys of the selected elements are pairwise distinct exactly when equal keys
    of selected elements only occur at one position. *)
Lemma NoDup_fmap_filter_alt {A K} (key : A -> K) (P : A -> Prop)
    `{forall x, Decision (P x)} (l : list A) :
  NoDup (key <$> filter P l) <->
  forall (i j : nat) x y, l !! i = Some x -> l !! j = Some y -> P x -> P y ->
    key x = key y -> i = j.
Proof.
  induction l as [|a l IH]; [split; [set_solver|constructor]|].
  rewrite filter_cons. split.
  - intros Hnd i j x y Hi Hj Hx Hy Hk.
    assert (Htail : NoDup (key <$> filter P l)).
    { case_decide; [|done]. rewrite fmap_cons, NoDup_cons in Hnd. tauto. }
    assert (Hhead : P a -> forall n z, l !! n = Some z -> P z -> key a <> key z).
    { intros Ha n z Hn Hz Heq. rewrite decide_True in Hnd by done.
      rewrite fmap_cons, NoDup_cons in Hnd. destruct Hnd as [Hnd _]. apply Hnd.
      rewrite Heq. apply list_elem_of_fmap_2, list_elem_of_filter.
      split; [done|]. by eapply list_elem_of_lookup_2. }
    destruct i as [|i], j as [|j]; simplify_eq/=; [done| | |].
    + by destruct (Hhead Hx j y).
    + by destruct (Hhead Hy i x).
    + f_equal. by eapply IH.
  - intros Hinj. assert (Htail : NoDup (key <$> filter P l)).
    { apply IH. intros i j x y Hi Hj Hx Hy Hk.
      specialize (Hinj (S i) (S j) x y Hi Hj Hx Hy Hk). congruence. }
    case_decide as Ha; [|done]. rewrite fmap_cons, NoDup_cons. split; [|done].
    intros (y & Hy & [Hp Hin]%list_elem_of_filter)%list_elem_of_fmap.
    apply list_elem_of_lookup in Hin as (j & Hj).
    by specialize (Hinj 0%nat (S j) a y eq_refl Hj Ha Hp Hy).
Qed.

(** ** The order of strings *)

(** [std::string] and [String.compare] both compare by unsigned bytes. *)
Definition string_lt (a b : string) : Prop := String.compare a b = Lt.

Lemma ascii_compare_lt_trans a b c :
  Ascii.compare a b = Lt -> Ascii.compare b c = Lt -> Ascii.compare a c = Lt.
Proof. unfold Ascii.compare. rewrite !N.compare_lt_iff. lia. Qed.

Lemma ascii_compare_refl a : Ascii.compare a a = Eq.
Proof. unfold Ascii.compare. apply N.compare_refl. Qed.

Lemma string_compare_refl a : String.compare a a = Eq.
Proof. induction a as [|x a IH]; simpl; [done|]. by rewrite ascii_compare_refl. Qed.

Lemma string_lt_trans a b c : string_lt a b -> string_lt b c -> string_lt a c.
Proof.
  unfold string_lt. revert b c. induction a as [|x a IH]; intros [|y b] [|z c] H1 H2; try done; simpl in *.
  destruct (Ascii.compare x y) eqn:E1; try done.
  - apply Ascii.compare_eq_iff in E1 as ->. destruct (Ascii.compare y z); try done. by eapply IH.
  - destruct (Ascii.compare y z) eqn:E2; try done.
    + apply Ascii.compare_eq_iff in E2 as ->. by rewrite E1.
    + by rewrite (ascii_compare_lt_trans _ _ _ E1 E2).
Qed.

Lemma string_lt_irrefl a : ~ string_lt a a.
Proof. unfold string_lt. by rewrite string_compare_refl. Qed.

Lemma string_ltb_lt a b : String.ltb a b = true <-> string_lt a b.
Proof. unfold String.ltb, string_lt. by destruct (String.compare a b). Qed.

(** ** Maps in key order *)

(** [std::sort] of strings, and the iteration order of a map or a set of strings. *)
Definition string_le (a b : string) : Prop := String.leb a b = true.
#[export] Instance string_le_dec : RelDecision string_le.
Proof. intros a b. unfold string_le. apply _. Defined.

Definition string_sort (l : list string) : list string := merge_sort string_le l.

Definition map_in_order {A} (m : gmap string A) : list (string * A) :=
  omap (fun k => (fun v => (k, v)) <$> m !! k) (string_sort (map_to_list m).*1).

Lemma elem_of_map_in_order {A} (m : gmap string A) k v :
  (k, v) ∈ map_in_order m <-> m !! k = Some v.
Proof.
  unfold map_in_order, string_sort. rewrite list_elem_of_omap. setoid_rewrite merge_sort_Permutation. split.
  - intros (k' & _ & H). destruct (m !! k') eqn:Hk; simpl in H; simplify_eq. done.
  - intros H. exists k. rewrite H. split; [|done]. apply list_elem_of_fmap. exists (k, v).
    split; [done|]. by apply elem_of_map_to_list.
Qed.

(** Decimal text determines the number. *)
Lemma to_uint_not_nil n : N.to_uint n <> Decimal.Nil.
Proof. destruct n as [|p]; [done|]. apply DecimalPos.Unsigned.to_uint_nonnil. Qed.

Lemma to_string_inj a b : to_string a = to_string b -> a = b.
Proof.
  unfold to_string. intros H. apply (f_equal DecimalString.NilZero.uint_of_string) in H.
  rewrite !DecimalString.NilZero.usu in H by apply to_uint_not_nil. injection H as H. by apply DecimalN.Unsigned.to_uint_inj.
Qed.
