(* ===== verification/Platform.v ===== *)
(** * Core platform and UUID vocabulary

    Models [src/project/src/core/platform/runtime_platform.{hpp,cpp}]: status
    triples, diagnostic records and their validation, UUID values and typed
    UUIDs.  Enumerations keep the source's constructors under a short prefix
    ([sc_] StatusCode, [sev_] Severity, [sub_] Subsystem, [uk_] UuidKind). *)

From Stdlib Require Import Ascii.
From S2P Require Import Prelude.

Inductive Severity := sev_trace | sev_info | sev_warning | sev_error | sev_fatal.

Inductive Subsystem :=
| sub_platform | sub_diagnostics | sub_uuid | sub_time | sub_memory
| sub_storage_disk | sub_storage_page | sub_datatypes | sub_transaction_mga
| sub_catalog | sub_engine | sub_parser | sub_cluster_private.

Inductive StatusCode :=
| sc_ok | sc_platform_compile_gate_failed | sc_platform_unknown_endian
| sc_platform_required_feature_missing | sc_diagnostic_invalid_record
| sc_uuid_invalid | sc_time_source_unavailable | sc_memory_invalid_request
| sc_memory_allocation_failed | sc_memory_limit_exceeded
| sc_memory_unknown_pointer
| sc_mga_cow_invalid_kind | sc_mga_cow_invalid_transaction_identity
| sc_mga_cow_invalid_row_identity | sc_mga_cow_insert_has_base
| sc_mga_cow_base_required | sc_mga_cow_invalid_base_sequence
| sc_mga_cow_invalid_new_sequence | sc_mga_cow_nonincreasing_sequence
| sc_mga_cow_invalid_phase | sc_mga_cow_invalid_row_state
| sc_mga_cow_evidence_required | sc_mga_cow_illegal_transition
| sc_mga_cow_transaction_not_writable | sc_mga_cow_invalid_row_metadata
| sc_mga_cow_read_only_transaction.

Inductive UuidKind :=
| uk_database | uk_cluster | uk_filespace | uk_schema | uk_object | uk_row
| uk_page | uk_transaction | uk_session | uk_principal | uk_unknown.

#[export] Instance Severity_eq_dec : EqDecision Severity.
Proof. solve_decision. Defined.
#[export] Instance Subsystem_eq_dec : EqDecision Subsystem.
Proof. solve_decision. Defined.
#[export] Instance StatusCode_eq_dec : EqDecision StatusCode.
Proof. solve_decision. Defined.
#[export] Instance UuidKind_eq_dec : EqDecision UuidKind.
Proof. solve_decision. Defined.

Record Status := mkStatus {
  st_code : StatusCode; st_severity : Severity; st_subsystem : Subsystem }.

Definition Status_default : Status := mkStatus sc_ok sev_info sub_platform.

(** [Status::ok] *)
Definition status_ok (s : Status) : bool := bool_decide (st_code s = sc_ok).

(** A UUID is its sixteen canonical bytes. *)
Record Uuid := mkUuid { uuid_bytes : list N }.

#[export] Instance Uuid_eq_dec : EqDecision Uuid.
Proof. solve_decision. Defined.

Definition Uuid_nil : Uuid := mkUuid (replicate 16 0).
Definition uuid_byte (u : Uuid) (i : nat) : N := nth i (uuid_bytes u) 0.

(** The values a [std::array<byte, 16>] can hold. *)
Definition uuid_wf (u : Uuid) : Prop :=
  length (uuid_bytes u) = 16%nat /\ Forall (fun b => b < 256) (uuid_bytes u).

(** [Uuid::is_nil] *)
Definition uuid_is_nil (u : Uuid) : bool := forallb (fun b => b =? 0) (uuid_bytes u).

Record TypedUuid := mkTypedUuid { tu_kind : UuidKind; tu_value : Uuid }.

Definition TypedUuid_default : TypedUuid := mkTypedUuid uk_unknown Uuid_nil.

#[export] Instance TypedUuid_eq_dec : EqDecision TypedUuid.
Proof. solve_decision. Defined.

(** [TypedUuid::valid] *)
Definition typed_uuid_valid (t : TypedUuid) : bool :=
  bool_decide (tu_kind t <> uk_unknown) && negb (uuid_is_nil (tu_value t)).

(** [IsValidUuidVariant], [UuidVersion] and [IsEngineIdentityUuid] of uuid.cpp. *)
Definition IsValidUuidVariant (u : Uuid) : bool :=
  N.land (uuid_byte u 8) 192 =? 128.
Definition UuidVersion (u : Uuid) : N :=
  N.land (N.shiftr (uuid_byte u 6) 4) 15.
Definition IsEngineIdentityUuid (u : Uuid) : bool :=
  negb (uuid_is_nil u) && IsValidUuidVariant u && (UuidVersion u =? 7).

(** ** Diagnostics *)

(** [DiagnosticArgumentValue] is [std::variant<std::string, Uuid>]. *)
Inductive DiagnosticArgumentValue :=
| dav_text (s : string)
| dav_uuid (u : Uuid).

Record DiagnosticArgument := mkDiagnosticArgument {
  da_key : string; da_value : DiagnosticArgumentValue }.

Record DiagnosticRecord := mkDiagnosticRecord {
  dr_status : Status;
  dr_diagnostic_code : string;
  dr_message_key : string;
  dr_arguments : list DiagnosticArgument;
  dr_trace_id : string;
  dr_source_component : string;
  dr_remediation_hint : string }.

Definition DiagnosticRecord_default : DiagnosticRecord :=
  mkDiagnosticRecord Status_default "" "" [] "" "" "".

Definition MakeDiagnostic (code : StatusCode) (severity : Severity)
    (subsystem : Subsystem) (diagnostic_code message_key : string)
    (arguments : list DiagnosticArgument)
    (trace_id source_component remediation_hint : string) : DiagnosticRecord :=
  mkDiagnosticRecord (mkStatus code severity subsystem) diagnostic_code
    message_key arguments trace_id source_component remediation_hint.

(** Every package of the transaction layer builds its records this way: an
    optional [detail] argument, no trace id and no remediation hint. *)
Definition MakeComponentDiagnostic (component : string) (status : Status)
    (diagnostic_code message_key detail : string) : DiagnosticRecord :=
  let arguments :=
    if decide (detail = ""%string) then []
    else [mkDiagnosticArgument "detail" (dav_text detail)] in
  MakeDiagnostic (st_code status) (st_severity status) (st_subsystem status)
    diagnostic_code message_key arguments "" component "".

Definition MgaOkStatus : Status := mkStatus sc_ok sev_info sub_transaction_mga.
Definition MgaErrorStatus : Status :=
  mkStatus sc_platform_required_feature_missing sev_error sub_transaction_mga.

(** ** Diagnostic validation ([runtime_platform.cpp]) *)

(** The C-locale classification used by [std::isalnum] and [std::tolower]. *)
Definition is_digit (c : ascii) : bool :=
  (48 <=? N_of_ascii c) && (N_of_ascii c <=? 57).
Definition is_upper (c : ascii) : bool :=
  (65 <=? N_of_ascii c) && (N_of_ascii c <=? 90).
Definition is_lower (c : ascii) : bool :=
  (97 <=? N_of_ascii c) && (N_of_ascii c <=? 122).
Definition is_alpha (c : ascii) : bool := is_upper c || is_lower c.
Definition is_alnum (c : ascii) : bool := is_alpha c || is_digit c.
Definition to_lower (c : ascii) : ascii :=
  if is_upper c then ascii_of_N (N_of_ascii c + 32) else c.

Fixpoint string_map (f : ascii -> ascii) (s : string) : string :=
  match s with
  | EmptyString => EmptyString
  | String c s => String (f c) (string_map f s)
  end.

Fixpoint string_forallb (f : ascii -> bool) (s : string) : bool :=
  match s with
  | EmptyString => true
  | String c s => f c && string_forallb f s
  end.

Fixpoint string_existsb (f : ascii -> bool) (s : string) : bool :=
  match s with
  | EmptyString => false
  | String c s => f c || string_existsb f s
  end.

Definition ContainsInsensitive (value needle : string) : bool :=
  match String.index 0 (string_map to_lower needle) (string_map to_lower value) with
  | Some _ => true
  | None => false
  end.

Definition is_separator (c : ascii) : bool :=
  bool_decide (c = "-"%char) || bool_decide (c = "_"%char) || bool_decide (c = "."%char).

Definition IsCanonicalDiagnosticCodeChar (c : ascii) : bool :=
  is_alnum c || is_separator c.

(** The source's scan returns at the first foreign character and otherwise
    accumulates the two flags, which is the conjunction below. *)
Definition DiagnosticCodeLooksCanonical (code : string) : bool :=
  if decide (code = ""%string) then false
  else if decide (code = "OK"%string \/ code = "SB_OK"%string) then false
  else string_forallb IsCanonicalDiagnosticCodeChar code &&
       string_existsb is_alpha code && string_existsb is_separator code.

Definition DiagnosticMessageKeyLooksCanonical (key : string) : bool :=
  if decide (key = ""%string) then false
  else string_forallb
         (fun c => is_alnum c || bool_decide (c = "_"%char) || bool_decide (c = "."%char)) key &&
       string_existsb (fun c => bool_decide (c = "."%char)) key.

Definition DiagnosticRecordHasPlaceholderText (r : DiagnosticRecord) : bool :=
  let combined := (dr_diagnostic_code r +:+ " " +:+ dr_message_key r +:+ " " +:+
                   dr_source_component r +:+ " " +:+ dr_remediation_hint r)%string in
  ContainsInsensitive combined "placeholder" || ContainsInsensitive combined "stub" ||
  ContainsInsensitive combined "todo" || ContainsInsensitive combined "fixme" ||
  ContainsInsensitive combined "generic_error" ||
  ContainsInsensitive combined "unknown_error".

Record DiagnosticValidationResult := mkDiagnosticValidationResult {
  dvr_status : Status;
  dvr_diagnostic : DiagnosticRecord;
  dvr_failures : list DiagnosticArgument }.

Definition dvr_ok (r : DiagnosticValidationResult) : bool :=
  status_ok (dvr_status r) && bool_decide (length (dvr_failures r) = 0%nat).

Definition failure_if (cond : bool) (key value : string) : list DiagnosticArgument :=
  if cond then [mkDiagnosticArgument key (dav_text value)] else [].

(** [valueless_by_exception] cannot hold of a value that exists, so the
    argument loop of the source adds no failure. *)
Definition ValidateDiagnosticRecord (r : DiagnosticRecord) : DiagnosticValidationResult :=
  let code := st_code (dr_status r) in
  let severity := st_severity (dr_status r) in
  let failures :=
    failure_if (negb (DiagnosticCodeLooksCanonical (dr_diagnostic_code r)))
      "diagnostic_code" "not_canonical" ++
    failure_if (negb (DiagnosticMessageKeyLooksCanonical (dr_message_key r)))
      "message_key" "not_canonical" ++
    failure_if (bool_decide (dr_source_component r = ""%string))
      "source_component" "required" ++
    failure_if (bool_decide (code <> sc_ok) && bool_decide (dr_remediation_hint r = ""%string))
      "remediation_hint" "required_for_non_ok_status" ++
    failure_if (bool_decide (code = sc_ok) && bool_decide (severity <> sev_info) &&
                bool_decide (severity <> sev_trace))
      "severity" "ok_status_must_be_info_or_trace" ++
    failure_if (bool_decide (code <> sc_ok) && bool_decide (severity = sev_info))
      "severity" "non_ok_status_must_not_be_info" ++
    failure_if (DiagnosticRecordHasPlaceholderText r)
      "placeholder_text" "forbidden" in
  match failures with
  | [] => mkDiagnosticValidationResult (mkStatus sc_ok sev_info sub_diagnostics) r []
  | _ =>
    mkDiagnosticValidationResult
      (mkStatus sc_diagnostic_invalid_record sev_error sub_diagnostics)
      (MakeDiagnostic sc_diagnostic_invalid_record sev_error sub_diagnostics
         "SB-DIAGNOSTIC-INVALID-RECORD" "diagnostics.record.invalid" failures ""
         "core.platform.diagnostics"
         "Fix the diagnostic record so it has a canonical code, canonical message key, source component, and remediation hint when non-OK.")
      failures
  end.

(** ** Facts *)

Lemma status_ok_true s : status_ok s = true <-> st_code s = sc_ok.
Proof. unfold status_ok. by rewrite bool_decide_eq_true. Qed.

Lemma uuid_is_nil_spec u :
  uuid_is_nil u = true <-> Forall (fun b => b = 0) (uuid_bytes u).
Proof.
  unfold uuid_is_nil. rewrite forallb_forall, List.Forall_forall. split; intros H x Hx; specialize (H x Hx); lia.
Qed.

Lemma engine_identity_not_nil u : IsEngineIdentityUuid u = true -> uuid_is_nil u = false.
Proof. unfold IsEngineIdentityUuid. intros. bool_prop. done. Qed.
