(* ===== verification/Uuid.v ===== *)
(** * UUID text, ordering, layouts and generation

    Models [src/project/src/core/uuid/uuid.{hpp,cpp}].  A [byte] is an [N] below
    256 and an array of sixteen is the list inside [Uuid]; [u32] arithmetic is
    taken modulo 2^32.  The cryptographic random source is outside the file: the
    generators take what [RandomBytes16] delivered as an argument. *)

From Stdlib Require Import Ascii.
From S2P Require Import Prelude Platform.

(** ** Results and policies *)

Record UuidResult := mkUuidResult {
  ur_status : Status; ur_value : Uuid; ur_diagnostic : DiagnosticRecord }.
Record UuidParseResult := mkUuidParseResult {
  upr_status : Status; upr_value : Uuid; upr_diagnostic : DiagnosticRecord }.
Record TypedUuidResult := mkTypedUuidResult {
  tur_status : Status; tur_value : TypedUuid; tur_diagnostic : DiagnosticRecord }.

Definition ur_ok (r : UuidResult) : bool := status_ok (ur_status r).
Definition upr_ok (r : UuidParseResult) : bool := status_ok (upr_status r).
Definition tur_ok (r : TypedUuidResult) : bool := status_ok (tur_status r).

Record UuidVersionPolicy := mkUuidVersionPolicy {
  allow_v1 : bool; allow_v2 : bool; allow_v3 : bool; allow_v4 : bool;
  allow_v5 : bool; allow_v6 : bool; allow_v7 : bool }.

Record UuidV7TimePrefixResult := mkTimePrefix {
  tp_ok : bool;
  tp_fallback_to_uncompressed_uuid : bool;
  tp_unix_epoch_millis : N;
  tp_refusal_reason : string }.

Record UuidV7IndexCompareResult := mkIndexCompare {
  ic_ok : bool;
  ic_specialized_comparator_used : bool;
  ic_fallback_to_uncompressed_uuid : bool;
  ic_comparison : Z;
  ic_refusal_reason : string }.

Definition UuidErrorStatus : Status := mkStatus sc_uuid_invalid sev_error sub_uuid.
Definition UuidOkStatus : Status := mkStatus sc_ok sev_info sub_uuid.

Definition MakeUuidDiagnostic : Status -> string -> string -> string -> DiagnosticRecord :=
  MakeComponentDiagnostic "core.uuid".

(** ** Text helpers *)

Definition code (c : ascii) : Z := Z.of_N (N_of_ascii c).

Definition HexValue (c : ascii) : Z :=
  (if (48 <=? code c) && (code c <=? 57) then code c - 48
   else if (97 <=? code c) && (code c <=? 102) then 10 + (code c - 97)
   else if (65 <=? code c) && (code c <=? 70) then 10 + (code c - 65)
   else -1)%Z.

Fixpoint StripUuidDashes (text : string) : string :=
  match text with
  | EmptyString => EmptyString
  | String c text =>
    if decide (c = "-"%char) then StripUuidDashes text else String c (StripUuidDashes text)
  end.

Definition is_dash_at (i : nat) (text : string) : bool :=
  bool_decide (String.get i text = Some "-"%char).

Definition HasCanonicalDashPositions (text : string) : bool :=
  if decide (String.length text = 32%nat) then true
  else if decide (String.length text <> 36%nat) then false
  else is_dash_at 8 text && is_dash_at 13 text && is_dash_at 18 text && is_dash_at 23 text.

(** [kHex[v]] *)
Definition kHex (v : N) : ascii :=
  match String.get (N.to_nat v) "0123456789abcdef" with Some c => c | None => "0"%char end.

(** ** Byte layouts *)

(** [static_cast<byte>] of a value, the low eight bits. *)
Definition to_byte (n : N) : N := N.land n 255.

Definition set_byte (i : nat) (v : N) (u : Uuid) : Uuid := mkUuid (<[i := v]> (uuid_bytes u)).

Fixpoint set_bytes (i : nat) (vs : list N) (u : Uuid) : Uuid :=
  match vs with
  | [] => u
  | v :: vs => set_bytes (S i) vs (set_byte i v u)
  end.

Definition StoreBe16 (offset : nat) (value : N) (u : Uuid) : Uuid :=
  set_byte (offset + 1) (N.land value 255)
    (set_byte offset (N.land (N.shiftr value 8) 255) u).

Definition StoreBe32 (offset : nat) (value : N) (u : Uuid) : Uuid :=
  set_byte (offset + 3) (N.land value 255)
    (set_byte (offset + 2) (N.land (N.shiftr value 8) 255)
       (set_byte (offset + 1) (N.land (N.shiftr value 16) 255)
          (set_byte offset (N.land (N.shiftr value 24) 255) u))).

Definition SetVariantAndClockSequence (clock_sequence : N) (u : Uuid) : Uuid :=
  let clock_sequence := N.land clock_sequence 16383 in
  set_byte 9 (N.land clock_sequence 255)
    (set_byte 8 (N.lor 128 (N.land (N.shiftr clock_sequence 8) 63)) u).

Definition SetVersion (version : N) (u : Uuid) : Uuid :=
  let u := set_byte 6
    (to_byte (N.lor (N.land (uuid_byte u 6) 15) (N.shiftl (N.land version 15) 4))) u in
  set_byte 8 (N.lor (N.land (uuid_byte u 8) 63) 128) u.

Definition kUuid60BitMask : N := 1152921504606846975.

Definition MakeV1Layout (version gregorian_100ns_timestamp clock_sequence : N) (node : list N) : Uuid :=
  let timestamp := N.land gregorian_100ns_timestamp kUuid60BitMask in
  let u := StoreBe32 0 (N.land timestamp 4294967295) Uuid_nil in
  let u := StoreBe16 4 (N.land (N.shiftr timestamp 32) 65535) u in
  let u := StoreBe16 6 (N.lor (N.shiftl (N.land version 15) 12)
                              (N.land (N.shiftr timestamp 48) 4095)) u in
  let u := SetVariantAndClockSequence clock_sequence u in
  set_bytes 10 node u.

Definition GenerationFailure (diagnostic_code message_key : string) : UuidResult :=
  mkUuidResult UuidErrorStatus Uuid_nil
    (MakeUuidDiagnostic UuidErrorStatus diagnostic_code message_key "").

(** ** Digests *)

Definition u32_mask : N := 4294967295.
Definition u32 (n : N) : N := N.land n u32_mask.
Definition u32_add (a b : N) : N := u32 (a + b).
Definition u32_not (a : N) : N := N.lxor a u32_mask.

Definition LeftRotate32 (value count : N) : N :=
  N.lor (u32 (N.shiftl value count)) (N.shiftr value (32 - count)).

(** The [while] loop that pads to 56 modulo 64; it ends within 64 rounds. *)
Fixpoint pad_to_56 (fuel : nat) (msg : list N) : list N :=
  match fuel with
  | O => msg
  | S fuel =>
    if decide (N.of_nat (length msg) mod 64 <> 56) then pad_to_56 fuel (msg ++ [0]) else msg
  end.

Definition length_byte (bit_length : N) (i : nat) : N :=
  N.land (N.shiftr bit_length (8 * N.of_nat i)) 255.

Definition bit_length_of (msg : list N) : N := (N.of_nat (length msg) * 8) mod u64_modulus.

Definition md5_padded (input : list N) : list N :=
  pad_to_56 64 (input ++ [128]) ++ (length_byte (bit_length_of input) <$> seq 0 8).
Definition sha1_padded (input : list N) : list N :=
  pad_to_56 64 (input ++ [128]) ++ (length_byte (bit_length_of input) <$> rev (seq 0 8)).

Definition at_ (l : list N) (i : nat) : N := nth i l 0.

Definition md5_s : list N :=
  [7;12;17;22; 7;12;17;22; 7;12;17;22; 7;12;17;22;
   5;9;14;20; 5;9;14;20; 5;9;14;20; 5;9;14;20;
   4;11;16;23; 4;11;16;23; 4;11;16;23; 4;11;16;23;
   6;10;15;21; 6;10;15;21; 6;10;15;21; 6;10;15;21].

Definition md5_k : list N :=
  [0xd76aa478;0xe8c7b756;0x242070db;0xc1bdceee;0xf57c0faf;0x4787c62a;0xa8304613;0xfd469501;
   0x698098d8;0x8b44f7af;0xffff5bb1;0x895cd7be;0x6b901122;0xfd987193;0xa679438e;0x49b40821;
   0xf61e2562;0xc040b340;0x265e5a51;0xe9b6c7aa;0xd62f105d;0x02441453;0xd8a1e681;0xe7d3fbc8;
   0x21e1cde6;0xc33707d6;0xf4d50d87;0x455a14ed;0xa9e3e905;0xfcefa3f8;0x676f02d9;0x8d2a4c8a;
   0xfffa3942;0x8771f681;0x6d9d6122;0xfde5380c;0xa4beea44;0x4bdecfa9;0xf6bb4b60;0xbebfbc70;
   0x289b7ec6;0xeaa127fa;0xd4ef3085;0x04881d05;0xd9d4d039;0xe6db99e5;0x1fa27cf8;0xc4ac5665;
   0xf4292244;0x432aff97;0xab9423a7;0xfc93a039;0x655b59c3;0x8f0ccc92;0xffeff47d;0x85845dd1;
   0x6fa87e4f;0xfe2ce6e0;0xa3014314;0x4e0811a1;0xf7537e82;0xbd3af235;0x2ad7d2bb;0xeb86d391].

Record md5_state := mkMd5 { md5_a : N; md5_b : N; md5_c : N; md5_d : N }.

Definition md5_init : md5_state := mkMd5 0x67452301 0xefcdab89 0x98badcfe 0x10325476.

Definition word_le (msg : list N) (p : nat) : N :=
  N.lor (N.lor (N.lor (at_ msg p) (N.shiftl (at_ msg (p + 1)) 8))
               (N.shiftl (at_ msg (p + 2)) 16)) (N.shiftl (at_ msg (p + 3)) 24).
Definition word_be (msg : list N) (p : nat) : N :=
  N.lor (N.lor (N.lor (N.shiftl (at_ msg p) 24) (N.shiftl (at_ msg (p + 1)) 16))
               (N.shiftl (at_ msg (p + 2)) 8)) (at_ msg (p + 3)).

Definition md5_round (m : list N) (st : md5_state) (i : nat) : md5_state :=
  let '(mkMd5 a b c d) := st in
  let '(f, g) :=
    if decide (i < 16)%nat then (N.lor (N.land b c) (N.land (u32_not b) d), i)
    else if decide (i < 32)%nat then
      (N.lor (N.land d b) (N.land (u32_not d) c), ((5 * i + 1) mod 16)%nat)
    else if decide (i < 48)%nat then (N.lxor (N.lxor b c) d, ((3 * i + 5) mod 16)%nat)
    else (N.lxor c (N.lor b (u32_not d)), ((7 * i) mod 16)%nat) in
  mkMd5 d
    (u32_add b (LeftRotate32 (u32_add (u32_add (u32_add a f) (at_ md5_k i)) (at_ m g)) (at_ md5_s i)))
    b c.

Definition md5_block (msg : list N) (st : md5_state) (block : nat) : md5_state :=
  let offset := (block * 64)%nat in
  let m := (fun i => word_le msg (offset + i * 4)) <$> seq 0 16 in
  let r := foldl (md5_round m) st (seq 0 64) in
  mkMd5 (u32_add (md5_a st) (md5_a r)) (u32_add (md5_b st) (md5_b r))
        (u32_add (md5_c st) (md5_c r)) (u32_add (md5_d st) (md5_d r)).

Definition bytes_le (w : N) : list N :=
  [N.land w 255; N.land (N.shiftr w 8) 255; N.land (N.shiftr w 16) 255; N.land (N.shiftr w 24) 255].
Definition bytes_be (w : N) : list N := rev (bytes_le w).

Definition Md5 (input : list N) : list N :=
  let msg := md5_padded input in
  let st := foldl (md5_block msg) md5_init (seq 0 (length msg / 64)) in
  bytes_le (md5_a st) ++ bytes_le (md5_b st) ++ bytes_le (md5_c st) ++ bytes_le (md5_d st).

Record sha1_state := mkSha1 { sha1_a : N; sha1_b : N; sha1_c : N; sha1_d : N; sha1_e : N }.

Definition sha1_init : sha1_state :=
  mkSha1 0x67452301 0xefcdab89 0x98badcfe 0x10325476 0xc3d2e1f0.

(** [w[0..79]]: sixteen message words, then the rotated recurrence. *)
Definition sha1_schedule (msg : list N) (offset : nat) : list N :=
  foldl (fun w i =>
    w ++ [LeftRotate32 (N.lxor (N.lxor (N.lxor (at_ w (i - 3)) (at_ w (i - 8))) (at_ w (i - 14)))
                               (at_ w (i - 16))) 1])
    ((fun i => word_be msg (offset + i * 4)) <$> seq 0 16) (seq 16 64).

Definition sha1_round (w : list N) (st : sha1_state) (i : nat) : sha1_state :=
  let '(mkSha1 a b c d e) := st in
  let '(f, k) :=
    if decide (i < 20)%nat then (N.lor (N.land b c) (N.land (u32_not b) d), 0x5a827999)
    else if decide (i < 40)%nat then (N.lxor (N.lxor b c) d, 0x6ed9eba1)
    else if decide (i < 60)%nat then
      (N.lor (N.lor (N.land b c) (N.land b d)) (N.land c d), 0x8f1bbcdc)
    else (N.lxor (N.lxor b c) d, 0xca62c1d6) in
  let temp := u32_add (u32_add (u32_add (u32_add (LeftRotate32 a 5) f) e) k) (at_ w i) in
  mkSha1 temp a (LeftRotate32 b 30) c d.

Definition sha1_block (msg : list N) (st : sha1_state) (block : nat) : sha1_state :=
  let w := sha1_schedule msg (block * 64)%nat in
  let r := foldl (sha1_round w) st (seq 0 80) in
  mkSha1 (u32_add (sha1_a st) (sha1_a r)) (u32_add (sha1_b st) (sha1_b r))
         (u32_add (sha1_c st) (sha1_c r)) (u32_add (sha1_d st) (sha1_d r))
         (u32_add (sha1_e st) (sha1_e r)).

Definition Sha1 (input : list N) : list N :=
  let msg := sha1_padded input in
  let st := foldl (sha1_block msg) sha1_init (seq 0 (length msg / 64)) in
  bytes_be (sha1_a st) ++ bytes_be (sha1_b st) ++ bytes_be (sha1_c st) ++
  bytes_be (sha1_d st) ++ bytes_be (sha1_e st).

Fixpoint string_bytes (s : string) : list N :=
  match s with
  | EmptyString => []
  | String c s => N_of_ascii c :: string_bytes s
  end.

Definition NamespaceNameBytes (namespace_uuid : Uuid) (name : string) : list N :=
  uuid_bytes namespace_uuid ++ string_bytes name.

(** ** Names and kinds *)

Definition UuidKindName (kind : UuidKind) : string :=
  match kind with
  | uk_database => "database" | uk_cluster => "cluster" | uk_filespace => "filespace"
  | uk_schema => "schema" | uk_object => "object" | uk_row => "row" | uk_page => "page"
  | uk_transaction => "transaction" | uk_session => "session" | uk_principal => "principal"
  | uk_unknown => "unknown"
  end.

Definition UuidVersionName (version : N) : string :=
  match version with
  | 1 => "time_node_v1" | 2 => "dce_security_v2" | 3 => "name_md5_v3" | 4 => "random_v4"
  | 5 => "name_sha1_v5" | 6 => "reordered_time_v6" | 7 => "unix_time_v7" | _ => "unknown"
  end.

Definition UuidKindAllowsDurableIdentity (kind : UuidKind) : bool :=
  match kind with
  | uk_database | uk_cluster | uk_filespace | uk_schema | uk_object | uk_row | uk_page
  | uk_transaction | uk_principal => true
  | uk_session | uk_unknown => false
  end.

Definition IsEngineIdentityKind (kind : UuidKind) : bool :=
  UuidKindAllowsDurableIdentity kind || bool_decide (kind = uk_session).

Definition IsDurableEngineIdentityKind (kind : UuidKind) : bool := UuidKindAllowsDurableIdentity kind.

Definition NilUuid : Uuid := Uuid_nil.
Definition IsNilUuid (u : Uuid) : bool := uuid_is_nil u.

Definition UuidVersionAllowed (u : Uuid) (policy : UuidVersionPolicy) : bool :=
  match UuidVersion u with
  | 1 => allow_v1 policy | 2 => allow_v2 policy | 3 => allow_v3 policy | 4 => allow_v4 policy
  | 5 => allow_v5 policy | 6 => allow_v6 policy | 7 => allow_v7 policy | _ => false
  end.

(** ** Ordering *)

(** [std::memcmp], as the sign of the first differing byte. *)
Fixpoint memcmp (ls rs : list N) : Z :=
  match ls, rs with
  | l :: ls, r :: rs =>
    if decide (l < r) then (-1)%Z else if decide (r < l) then 1%Z else memcmp ls rs
  | _, _ => 0%Z
  end.

Definition CompareUuid128 (left right : Uuid) : Z :=
  let result := memcmp (uuid_bytes left) (uuid_bytes right) in
  (Z.b2z (0 <? result)%Z - Z.b2z (result <? 0)%Z)%Z.

Definition time_prefix (u : Uuid) : N :=
  N.lor (N.lor (N.lor (N.lor (N.lor
    (N.shiftl (uuid_byte u 0) 40) (N.shiftl (uuid_byte u 1) 32)) (N.shiftl (uuid_byte u 2) 24))
    (N.shiftl (uuid_byte u 3) 16)) (N.shiftl (uuid_byte u 4) 8)) (uuid_byte u 5).

Definition ExtractUuidV7TimePrefix (u : Uuid) : UuidV7TimePrefixResult :=
  if uuid_is_nil u then mkTimePrefix false true 0 "nil_uuid"
  else if negb (IsValidUuidVariant u) then mkTimePrefix false true 0 "invalid_variant"
  else if decide (UuidVersion u <> 7) then mkTimePrefix false true 0 "not_uuid_v7"
  else mkTimePrefix true false (time_prefix u) "".

Definition CompareUuidV7ForIndex (left right : TypedUuid) (expected_kind : UuidKind)
    : UuidV7IndexCompareResult :=
  let fallback reason :=
    mkIndexCompare false false true (CompareUuid128 (tu_value left) (tu_value right)) reason in
  if negb (IsEngineIdentityKind expected_kind) then fallback "unsupported_kind"%string
  else if decide (tu_kind left <> expected_kind \/ tu_kind right <> expected_kind) then
    fallback "kind_mismatch"%string
  else
  let left_time := ExtractUuidV7TimePrefix (tu_value left) in
  let right_time := ExtractUuidV7TimePrefix (tu_value right) in
  if negb (tp_ok left_time) || negb (tp_ok right_time) then
    fallback (if tp_ok left_time then tp_refusal_reason right_time else tp_refusal_reason left_time)
  else
    mkIndexCompare true true false
      (if decide (tp_unix_epoch_millis left_time < tp_unix_epoch_millis right_time) then (-1)%Z
       else if decide (tp_unix_epoch_millis right_time < tp_unix_epoch_millis left_time) then 1%Z
       else CompareUuid128 (tu_value left) (tu_value right)) "".

(** ** Text *)

Definition byte_text (b : N) : string :=
  String (kHex (N.land (N.shiftr b 4) 15)) (String (kHex (N.land b 15)) EmptyString).

Definition dash_before (i : nat) : bool := bool_decide (i ∈ [4; 6; 8; 10]%nat).

Fixpoint uuid_text_from (i : nat) (bytes : list N) : string :=
  match bytes with
  | [] => EmptyString
  | b :: bytes =>
    ((if dash_before i then "-" else "") +:+ byte_text b +:+ uuid_text_from (S i) bytes)%string
  end.

Definition UuidToString (u : Uuid) : string := uuid_text_from 0 (uuid_bytes u).

Definition EngineIdentityPathComponent (u : Uuid) : option string :=
  if negb (IsEngineIdentityUuid u) then None else Some (UuidToString u).

Definition char_at (s : string) (i : nat) : ascii :=
  match String.get i s with Some c => c | None => Ascii.zero end.

(** The conversion loop, rounds [i .. i + n - 1]; a bad digit leaves the bytes
    written so far in the result. *)
Fixpoint parse_hex_pairs (stripped : string) (n i : nat) (u : Uuid) : Uuid + Uuid :=
  match n with
  | O => inr u
  | S n =>
    let high := HexValue (char_at stripped (i * 2)) in
    let low := HexValue (char_at stripped (i * 2 + 1)) in
    if ((high <? 0) || (low <? 0))%Z then inl u
    else parse_hex_pairs stripped n (S i)
           (set_byte i (Z.to_N (Z.lor (Z.shiftl high 4) low)) u)
  end.

Definition parse_error (value : Uuid) (diagnostic_code message_key text : string) : UuidParseResult :=
  mkUuidParseResult UuidErrorStatus value
    (MakeUuidDiagnostic UuidErrorStatus diagnostic_code message_key text).

Definition ParseUuid (text : string) : UuidParseResult :=
  if negb (HasCanonicalDashPositions text) then
    parse_error Uuid_nil "SB-UUID-PARSE-SHAPE" "uuid.parse.invalid_shape" text
  else
  let stripped := StripUuidDashes text in
  if decide (String.length stripped <> 32%nat) then
    parse_error Uuid_nil "SB-UUID-PARSE-LENGTH" "uuid.parse.invalid_length" text
  else
  match parse_hex_pairs stripped 16 0 Uuid_nil with
  | inl partial => parse_error partial "SB-UUID-PARSE-HEX" "uuid.parse.invalid_hex" text
  | inr value =>
    if uuid_is_nil value then
      parse_error value "SB-UUID-PARSE-NIL" "uuid.parse.nil_not_allowed" text
    else if negb (IsValidUuidVariant value) then
      parse_error value "SB-UUID-PARSE-VARIANT" "uuid.parse.invalid_variant" text
    else mkUuidParseResult UuidOkStatus value DiagnosticRecord_default
  end.

(** ** Typed identities *)

Definition typed_error (value : TypedUuid) (diagnostic_code message_key detail : string)
    : TypedUuidResult :=
  mkTypedUuidResult UuidErrorStatus value
    (MakeUuidDiagnostic UuidErrorStatus diagnostic_code message_key detail).

Definition MakeTypedUuid (kind : UuidKind) (value : Uuid) : TypedUuidResult :=
  let typed := mkTypedUuid kind value in
  if negb (IsEngineIdentityKind kind) then
    typed_error typed "SB-UUID-TYPED-UNKNOWN-KIND" "uuid.typed.unknown_kind" ""
  else if uuid_is_nil value then
    typed_error typed "SB-UUID-TYPED-NIL" "uuid.typed.nil_not_allowed" (UuidKindName kind)
  else if negb (IsValidUuidVariant value) then
    typed_error typed "SB-UUID-TYPED-VARIANT" "uuid.typed.invalid_variant" (UuidKindName kind)
  else if decide (UuidVersion value <> 7) then
    typed_error typed "SB-UUID-TYPED-ENGINE-IDENTITY-NOT-V7"
      "uuid.typed.engine_identity_requires_v7" (UuidKindName kind)
  else mkTypedUuidResult UuidOkStatus typed DiagnosticRecord_default.

Definition MakeUuidWithVersion (kind : UuidKind) (u : Uuid) (version : N) : TypedUuidResult :=
  MakeTypedUuid kind (SetVersion version u).

Definition ParseTypedUuid (kind : UuidKind) (text : string) : TypedUuidResult :=
  let parsed := ParseUuid text in
  if negb (upr_ok parsed) then
    mkTypedUuidResult (upr_status parsed) TypedUuid_default (upr_diagnostic parsed)
  else MakeTypedUuid kind (upr_value parsed).

Definition MakeDurableEngineIdentityUuid (kind : UuidKind) (value : Uuid) : TypedUuidResult :=
  if negb (UuidKindAllowsDurableIdentity kind) then
    typed_error TypedUuid_default "SB-UUID-DURABLE-IDENTITY-KIND"
      "uuid.durable_identity.kind_not_allowed" (UuidKindName kind)
  else MakeTypedUuid kind value.

Definition ParseDurableEngineIdentityUuid (kind : UuidKind) (text : string) : TypedUuidResult :=
  let parsed := ParseUuid text in
  if negb (upr_ok parsed) then
    mkTypedUuidResult (upr_status parsed) TypedUuid_default (upr_diagnostic parsed)
  else MakeDurableEngineIdentityUuid kind (upr_value parsed).

(** ** Generators *)

Definition v2_layout (timestamp clock_sequence : N) (node : list N) (local_domain local_identifier : N)
    : Uuid :=
  set_byte 9 local_domain
    (StoreBe32 0 local_identifier (MakeV1Layout 2 timestamp clock_sequence node)).

Definition v6_layout (gregorian_100ns_timestamp clock_sequence : N) (node : list N) : Uuid :=
  let timestamp := N.land gregorian_100ns_timestamp kUuid60BitMask in
  let u := set_bytes 0
    [N.land (N.shiftr timestamp 52) 255; N.land (N.shiftr timestamp 44) 255;
     N.land (N.shiftr timestamp 36) 255; N.land (N.shiftr timestamp 28) 255;
     N.land (N.shiftr timestamp 20) 255; N.land (N.shiftr timestamp 12) 255;
     N.lor 96 (N.land (N.shiftr timestamp 8) 15); N.land timestamp 255] Uuid_nil in
  set_bytes 10 node (SetVariantAndClockSequence clock_sequence u).

Definition GenerateTimeNodeV1 (kind : UuidKind) (timestamp clock_sequence : N) (node : list N) :=
  MakeTypedUuid kind (MakeV1Layout 1 timestamp clock_sequence node).
Definition GenerateDceSecurityV2 (kind : UuidKind) (timestamp clock_sequence : N) (node : list N)
    (local_domain local_identifier : N) :=
  MakeTypedUuid kind (v2_layout timestamp clock_sequence node local_domain local_identifier).
Definition GenerateNameBasedV3 (kind : UuidKind) (namespace_uuid : Uuid) (name : string) :=
  MakeUuidWithVersion kind (mkUuid (Md5 (NamespaceNameBytes namespace_uuid name))) 3.
Definition GenerateNameBasedV5 (kind : UuidKind) (namespace_uuid : Uuid) (name : string) :=
  MakeUuidWithVersion kind (mkUuid (take 16 (Sha1 (NamespaceNameBytes namespace_uuid name)))) 5.
Definition GenerateReorderedTimeV6 (kind : UuidKind) (timestamp clock_sequence : N) (node : list N) :=
  MakeTypedUuid kind (v6_layout timestamp clock_sequence node).

Definition MakeCompatibilityUuidResult (u : Uuid) (expected_version : N) : UuidResult :=
  let failure diagnostic_code message_key detail :=
    mkUuidResult UuidErrorStatus u
      (MakeUuidDiagnostic UuidErrorStatus diagnostic_code message_key detail) in
  if uuid_is_nil u then
    failure "SB-UUID-COMPATIBILITY-NIL"%string "uuid.compatibility.nil_not_allowed"%string ""%string
  else if negb (IsValidUuidVariant u) then
    failure "SB-UUID-COMPATIBILITY-VARIANT"%string "uuid.compatibility.invalid_variant"%string ""%string
  else if decide (UuidVersion u <> expected_version) then
    failure "SB-UUID-COMPATIBILITY-VERSION"%string "uuid.compatibility.invalid_version"%string
      (UuidVersionName (UuidVersion u))
  else mkUuidResult UuidOkStatus u DiagnosticRecord_default.

Definition GenerateCompatibilityTimeNodeV1 (timestamp clock_sequence : N) (node : list N) :=
  MakeCompatibilityUuidResult (MakeV1Layout 1 timestamp clock_sequence node) 1.
Definition GenerateCompatibilityDceSecurityV2 (timestamp clock_sequence : N) (node : list N)
    (local_domain local_identifier : N) :=
  MakeCompatibilityUuidResult
    (v2_layout timestamp clock_sequence node local_domain local_identifier) 2.
Definition GenerateCompatibilityNameBasedV3 (namespace_uuid : Uuid) (name : string) :=
  MakeCompatibilityUuidResult
    (SetVersion 3 (mkUuid (Md5 (NamespaceNameBytes namespace_uuid name)))) 3.
Definition GenerateCompatibilityNameBasedV5 (namespace_uuid : Uuid) (name : string) :=
  MakeCompatibilityUuidResult
    (SetVersion 5 (mkUuid (take 16 (Sha1 (NamespaceNameBytes namespace_uuid name))))) 5.
Definition GenerateCompatibilityReorderedTimeV6 (timestamp clock_sequence : N) (node : list N) :=
  MakeCompatibilityUuidResult (v6_layout timestamp clock_sequence node) 6.

(** [random] is what [RandomBytes16] delivered. *)
Definition GenerateCompatibilityRandomV4 (random : option (list N)) : UuidResult :=
  match random with
  | None => GenerationFailure "TIME.UUID_RANDOMNESS_UNAVAILABLE" "uuid.randomness.unavailable"
  | Some bytes => MakeCompatibilityUuidResult (SetVersion 4 (mkUuid bytes)) 4
  end.

Definition v7_max_millis : N := 281474976710655.

Definition v7_layout (ms : N) (bytes : list N) : Uuid :=
  SetVersion 7 (set_bytes 0
    [N.land (N.shiftr ms 40) 255; N.land (N.shiftr ms 32) 255; N.land (N.shiftr ms 24) 255;
     N.land (N.shiftr ms 16) 255; N.land (N.shiftr ms 8) 255; N.land ms 255] (mkUuid bytes)).

Definition GenerateCompatibilityUnixTimeV7 (unix_epoch_millis : N) (random : option (list N))
    : UuidResult :=
  if decide (v7_max_millis < unix_epoch_millis) then
    GenerationFailure "TIME.UUID_TIMESTAMP_OUT_OF_RANGE" "uuid.timestamp.out_of_range"
  else match random with
  | None => GenerationFailure "TIME.UUID_RANDOMNESS_UNAVAILABLE" "uuid.randomness.unavailable"
  | Some bytes => MakeCompatibilityUuidResult (v7_layout unix_epoch_millis bytes) 7
  end.

Definition GenerateDurableEngineIdentityV7 (kind : UuidKind) (unix_epoch_millis : N)
    (random : option (list N)) : TypedUuidResult :=
  let raw := GenerateCompatibilityUnixTimeV7 unix_epoch_millis random in
  if negb (ur_ok raw) then
    mkTypedUuidResult (ur_status raw) TypedUuid_default (ur_diagnostic raw)
  else MakeDurableEngineIdentityUuid kind (ur_value raw).

Definition GenerateEngineIdentityV7 (kind : UuidKind) (unix_epoch_millis : N)
    (random : option (list N)) : TypedUuidResult :=
  GenerateDurableEngineIdentityV7 kind unix_epoch_millis random.

(** ** Published test vectors *)

Example md5_empty :
  Md5 [] = [0xd4;0x1d;0x8c;0xd9;0x8f;0x00;0xb2;0x04;0xe9;0x80;0x09;0x98;0xec;0xf8;0x42;0x7e].
Proof. vm_compute. reflexivity. Qed.
Example sha1_abc :
  Sha1 (string_bytes "abc") =
  [0xa9;0x99;0x3e;0x36;0x47;0x06;0x81;0x6a;0xba;0x3e;0x25;0x71;0x78;0x50;0xc2;0x6c;0x9c;0xd0;0xd8;0x9d].
Proof. vm_compute. reflexivity. Qed.

Definition namespace_dns : Uuid :=
  mkUuid [0x6b;0xa7;0xb8;0x10;0x9d;0xad;0x11;0xd1;0x80;0xb4;0x00;0xc0;0x4f;0xd4;0x30;0xc8].
Example v3_python_org :
  UuidToString (ur_value (GenerateCompatibilityNameBasedV3 namespace_dns "python.org")) =
  "6fa459ea-ee8a-3ca4-894e-db77e160355e"%string.
Proof. vm_compute. reflexivity. Qed.
Example v5_python_org :
  UuidToString (ur_value (GenerateCompatibilityNameBasedV5 namespace_dns "python.org")) =
  "886313e1-3b8a-5372-9b90-0c9aee199e5d"%string.
Proof. vm_compute. reflexivity. Qed.
