(* ===== verification/TransactionState.v ===== *)
(** * Transaction identity, states and the legal transition table

    Models [transaction_state.{hpp,cpp}] and [transaction_identity_observation.hpp]
    of [src/project/src/transaction/mga]. *)

From S2P Require Import Prelude Platform.

Definition kInvalidLocalTransactionId : N := 0.

Inductive TransactionScope := scope_local_node | scope_cluster_global | scope_unknown.

Inductive TransactionState :=
| ts_none | ts_created | ts_active | ts_preparing | ts_prepared | ts_committing
| ts_committed | ts_rolling_back | ts_rolled_back | ts_limbo | ts_recovering
| ts_failed_terminal | ts_archived | ts_read_only_active.

Inductive TransactionTransitionClass :=
| ttc_user | ttc_coordinator | ttc_recovery | ttc_cleanup | ttc_invalid.

#[export] Instance TransactionScope_eq_dec : EqDecision TransactionScope.
Proof. solve_decision. Defined.
#[export] Instance TransactionState_eq_dec : EqDecision TransactionState.
Proof. solve_decision. Defined.
#[export] Instance TransactionTransitionClass_eq_dec : EqDecision TransactionTransitionClass.
Proof. solve_decision. Defined.

(** [LocalTransactionId] wraps its [u64] value; [valid] excludes zero. *)
Definition LocalTransactionId : Type := N.
Definition local_id_valid (id : LocalTransactionId) : bool :=
  bool_decide (id <> kInvalidLocalTransactionId).
Definition MakeLocalTransactionId (value : N) : LocalTransactionId := value.

Record TransactionIdentity := mkTransactionIdentity {
  ti_local_id : LocalTransactionId;
  ti_transaction_uuid : TypedUuid;
  ti_scope : TransactionScope }.

Definition TransactionIdentity_default : TransactionIdentity :=
  mkTransactionIdentity kInvalidLocalTransactionId TypedUuid_default scope_unknown.

(** [TransactionIdentity::valid] *)
Definition transaction_identity_valid (i : TransactionIdentity) : bool :=
  local_id_valid (ti_local_id i) &&
  bool_decide (tu_kind (ti_transaction_uuid i) = uk_transaction) &&
  typed_uuid_valid (ti_transaction_uuid i) &&
  bool_decide (ti_scope i <> scope_unknown).

Record TransactionStateTransition := mkTransition {
  tr_from : TransactionState;
  tr_to : TransactionState;
  tr_class : TransactionTransitionClass;
  tr_recovery_only : bool;
  tr_stable_name : string }.

Definition TransactionStateTransition_default : TransactionStateTransition :=
  mkTransition ts_none ts_none ttc_invalid false "invalid".

Record TransactionIdentityResult := mkTransactionIdentityResult {
  tir_status : Status;
  tir_identity : TransactionIdentity;
  tir_diagnostic : DiagnosticRecord }.

Record TransactionTransitionResult := mkTransactionTransitionResult {
  ttr_status : Status;
  ttr_allowed : bool;
  ttr_transition : TransactionStateTransition;
  ttr_diagnostic : DiagnosticRecord }.

(** [TransactionTransitionResult::ok] *)
Definition ttr_ok (r : TransactionTransitionResult) : bool :=
  status_ok (ttr_status r) && ttr_allowed r.

Definition TransactionScopeName (s : TransactionScope) : string :=
  match s with
  | scope_local_node => "local_node"
  | scope_cluster_global => "cluster_global"
  | scope_unknown => "unknown"
  end.

Definition TransactionStateName (s : TransactionState) : string :=
  match s with
  | ts_none => "none"
  | ts_created => "created"
  | ts_active => "active"
  | ts_preparing => "preparing"
  | ts_prepared => "prepared"
  | ts_committing => "committing"
  | ts_committed => "committed"
  | ts_rolling_back => "rolling_back"
  | ts_rolled_back => "rolled_back"
  | ts_limbo => "limbo"
  | ts_recovering => "recovering"
  | ts_failed_terminal => "failed_terminal"
  | ts_archived => "archived"
  | ts_read_only_active => "read_only_active"
  end.

Definition TransactionTransitionClassName (c : TransactionTransitionClass) : string :=
  match c with
  | ttc_user => "user"
  | ttc_coordinator => "coordinator"
  | ttc_recovery => "recovery"
  | ttc_cleanup => "cleanup"
  | ttc_invalid => "invalid"
  end.

Definition IsTerminalTransactionState (s : TransactionState) : bool :=
  bool_decide (s = ts_committed) || bool_decide (s = ts_rolled_back) ||
  bool_decide (s = ts_failed_terminal) || bool_decide (s = ts_archived).

Definition BuiltinTransactionStateTransitionView : list TransactionStateTransition :=
  [ mkTransition ts_none ts_created ttc_coordinator false "allocate_transaction";
    mkTransition ts_created ts_active ttc_user false "begin_transaction";
    mkTransition ts_created ts_read_only_active ttc_user false "begin_read_only_transaction";
    mkTransition ts_created ts_rolling_back ttc_user false "abort_created_transaction";
    mkTransition ts_read_only_active ts_committing ttc_coordinator false "commit_read_only_transaction";
    mkTransition ts_read_only_active ts_rolling_back ttc_user false "rollback_read_only_transaction";
    mkTransition ts_active ts_preparing ttc_coordinator false "enter_prepare";
    mkTransition ts_preparing ts_prepared ttc_coordinator false "finish_prepare";
    mkTransition ts_prepared ts_committing ttc_coordinator false "commit_decision_known";
    mkTransition ts_committing ts_committed ttc_coordinator false "publish_commit";
    mkTransition ts_active ts_rolling_back ttc_user false "rollback_active";
    mkTransition ts_preparing ts_rolling_back ttc_coordinator false "rollback_preparing";
    mkTransition ts_prepared ts_rolling_back ttc_coordinator false "rollback_prepared";
    mkTransition ts_rolling_back ts_rolled_back ttc_coordinator false "publish_rollback";
    mkTransition ts_prepared ts_limbo ttc_recovery false "prepared_enter_limbo";
    mkTransition ts_committing ts_limbo ttc_recovery false "committing_enter_limbo";
    mkTransition ts_limbo ts_recovering ttc_recovery true "recover_limbo";
    mkTransition ts_recovering ts_committed ttc_recovery true "recovered_commit";
    mkTransition ts_recovering ts_rolled_back ttc_recovery true "recovered_rollback";
    mkTransition ts_recovering ts_failed_terminal ttc_recovery true "recovery_failed_terminal";
    mkTransition ts_committed ts_archived ttc_cleanup false "archive_committed_transaction";
    mkTransition ts_rolled_back ts_archived ttc_cleanup false "archive_rolled_back_transaction";
    mkTransition ts_failed_terminal ts_archived ttc_cleanup false "archive_failed_terminal_transaction" ].

Definition MakeTransactionDiagnostic : Status -> string -> string -> string -> DiagnosticRecord :=
  MakeComponentDiagnostic "transaction.mga.state".

(** ** Fixed-vocabulary observations ([transaction_identity_observation.hpp]) *)

Inductive MgaObservationOrigin := origin_transaction_state | origin_row_version.

Record MgaObservationStatus := mkObservation {
  obs_status : Status;
  obs_diagnostic_code : string;
  obs_message_key : string;
  obs_detail : string;
  obs_origin : MgaObservationOrigin }.

Definition MgaObservationStatus_default : MgaObservationStatus :=
  mkObservation MgaOkStatus "" "" "" origin_row_version.

Definition obs_ok (o : MgaObservationStatus) : bool := status_ok (obs_status o).

Definition identity_failure (code key : string) : MgaObservationStatus :=
  mkObservation MgaErrorStatus code key "" origin_transaction_state.

Definition ObserveTransactionIdentity (i : TransactionIdentity) : MgaObservationStatus :=
  if negb (local_id_valid (ti_local_id i)) then
    identity_failure "SB-TXN-INVALID-LOCAL-TRANSACTION-ID" "transaction.invalid_local_transaction_id"
  else if bool_decide (tu_kind (ti_transaction_uuid i) <> uk_transaction) ||
          negb (typed_uuid_valid (ti_transaction_uuid i)) then
    identity_failure "SB-TXN-INVALID-TRANSACTION-UUID-KIND" "transaction.invalid_transaction_uuid_kind"
  else if negb (IsEngineIdentityUuid (tu_value (ti_transaction_uuid i))) then
    identity_failure "SB-TXN-UUID-MUST-BE-V7" "transaction.transaction_uuid_must_be_v7"
  else if decide (ti_scope i = scope_unknown) then
    identity_failure "SB-TXN-UNKNOWN-TRANSACTION-SCOPE" "transaction.unknown_transaction_scope"
  else MgaObservationStatus_default.

Definition MaterializeMgaObservationDiagnostic (o : MgaObservationStatus) : DiagnosticRecord :=
  if decide (obs_diagnostic_code o = ""%string) then DiagnosticRecord_default
  else MakeComponentDiagnostic
         (match obs_origin o with
          | origin_transaction_state => "transaction.mga.state"
          | origin_row_version => "transaction.mga.row_version"
          end)
         (obs_status o) (obs_diagnostic_code o) (obs_message_key o) (obs_detail o).

Definition ValidateTransactionIdentity (i : TransactionIdentity) : TransactionIdentityResult :=
  let observed := ObserveTransactionIdentity i in
  mkTransactionIdentityResult (obs_status observed) i
    (MaterializeMgaObservationDiagnostic observed).

Definition MakeTransactionIdentity (local_id : LocalTransactionId)
    (transaction_uuid : TypedUuid) (scope : TransactionScope) : TransactionIdentityResult :=
  ValidateTransactionIdentity (mkTransactionIdentity local_id transaction_uuid scope).

(** The scan stops at the first row of the table with the requested ends. *)
Fixpoint check_transition_in (table : list TransactionStateTransition)
    (from to : TransactionState) (recovery_context : bool) : TransactionTransitionResult :=
  match table with
  | [] =>
    mkTransactionTransitionResult MgaErrorStatus false TransactionStateTransition_default
      (MakeTransactionDiagnostic MgaErrorStatus "SB-TXN-STATE-INVALID-TRANSITION"
         "transaction.illegal_state_transition"
         (TransactionStateName from +:+ "->" +:+ TransactionStateName to))
  | t :: table =>
    if decide (tr_from t = from /\ tr_to t = to) then
      if tr_recovery_only t && negb recovery_context then
        mkTransactionTransitionResult MgaErrorStatus false t
          (MakeTransactionDiagnostic MgaErrorStatus
             "SB-TXN-TRANSITION-REQUIRES-RECOVERY-CONTEXT"
             "transaction.transition_requires_recovery_context" (tr_stable_name t))
      else mkTransactionTransitionResult MgaOkStatus true t DiagnosticRecord_default
    else check_transition_in table from to recovery_context
  end.

Definition CheckTransactionStateTransition (from to : TransactionState)
    (recovery_context : bool) : TransactionTransitionResult :=
  check_transition_in BuiltinTransactionStateTransitionView from to recovery_context.

(** ** The transition system *)

Definition all_states : list TransactionState :=
  [ts_none; ts_created; ts_active; ts_preparing; ts_prepared; ts_committing;
   ts_committed; ts_rolling_back; ts_rolled_back; ts_limbo; ts_recovering;
   ts_failed_terminal; ts_archived; ts_read_only_active].

(** One step the checker admits, in or out of a recovery context. *)
Definition state_step (recovery_context : bool) (from to : TransactionState) : Prop :=
  ttr_ok (CheckTransactionStateTransition from to recovery_context) = true.

#[export] Instance state_step_dec rc from to : Decision (state_step rc from to).
Proof. unfold state_step. apply _. Defined.

(** The lifecycle the package documents, written independently of the table:
    user and coordinator moves, resolution of in-doubt work under recovery, and
    archival of outcomes. *)
Inductive lifecycle : bool -> TransactionState -> TransactionState -> Prop :=
| lc_allocate rc : lifecycle rc ts_none ts_created
| lc_begin rc : lifecycle rc ts_created ts_active
| lc_begin_read_only rc : lifecycle rc ts_created ts_read_only_active
| lc_commit_read_only rc : lifecycle rc ts_read_only_active ts_committing
| lc_enter_prepare rc : lifecycle rc ts_active ts_preparing
| lc_finish_prepare rc : lifecycle rc ts_preparing ts_prepared
| lc_decide_commit rc : lifecycle rc ts_prepared ts_committing
| lc_publish_commit rc : lifecycle rc ts_committing ts_committed
| lc_start_rollback rc s :
    s ∈ [ts_created; ts_read_only_active; ts_active; ts_preparing; ts_prepared] ->
    lifecycle rc s ts_rolling_back
| lc_publish_rollback rc : lifecycle rc ts_rolling_back ts_rolled_back
| lc_enter_limbo rc s : s ∈ [ts_prepared; ts_committing] -> lifecycle rc s ts_limbo
| lc_recover : lifecycle true ts_limbo ts_recovering
| lc_resolve s : s ∈ [ts_committed; ts_rolled_back; ts_failed_terminal] ->
    lifecycle true ts_recovering s
| lc_archive rc s : s ∈ [ts_committed; ts_rolled_back; ts_failed_terminal] ->
    lifecycle rc s ts_archived.

(** ** Theorems *)

Lemma all_states_complete s : s ∈ all_states.
Proof. destruct s; set_solver. Qed.

(** Case analysis on a pair of states, each case decided by computation. *)
Lemma states_forall_2 (P : TransactionState -> TransactionState -> Prop)
    `{!forall a b, Decision (P a b)} :
  forallb (fun a => forallb (fun b => bool_decide (P a b)) all_states) all_states = true ->
  forall a b, P a b.
Proof.
  intros Hall a b. rewrite forallb_forall in Hall.
  specialize (Hall a (proj1 (list_elem_of_In _ _) (all_states_complete a))).
  rewrite forallb_forall in Hall.
  specialize (Hall b (proj1 (list_elem_of_In _ _) (all_states_complete b))).
  by apply bool_decide_eq_true_1 in Hall.
Qed.

Lemma check_transition_to_none from rc : ~ state_step rc from ts_none.
Proof. destruct from, rc; vm_compute; congruence. Qed.

Lemma transition_table_correct rc from to :
  state_step rc from to <-> lifecycle rc from to.
Proof.
  split.
  - destruct rc, from, to; intros H; first [discriminate H | constructor; set_solver].
  - destruct 1; decompose_list_elem_of; subst; try destruct rc; reflexivity.
Qed.

Lemma terminal_only_archives rc from to :
  IsTerminalTransactionState from = true -> state_step rc from to -> to = ts_archived.
Proof. destruct rc, from, to; vm_compute; congruence. Qed.

Lemma archived_is_final rc to : ~ state_step rc ts_archived to.
Proof. destruct rc, to; vm_compute; congruence. Qed.

Lemma observe_identity_ok i :
  obs_ok (ObserveTransactionIdentity i) = true <->
  transaction_identity_valid i = true /\
  IsEngineIdentityUuid (tu_value (ti_transaction_uuid i)) = true.
Proof.
  unfold ObserveTransactionIdentity, transaction_identity_valid.
  destruct (local_id_valid _), (typed_uuid_valid _), (IsEngineIdentityUuid _);
    simpl; repeat case_bool_decide; repeat case_decide; simpl; naive_solver.
Qed.

Lemma observe_identity_ok_status i :
  obs_ok (ObserveTransactionIdentity i) = true ->
  ObserveTransactionIdentity i = MgaObservationStatus_default.
Proof. unfold ObserveTransactionIdentity. intros H. repeat case_match; naive_solver. Qed.
