(* ===== verification/Inventory.v ===== *)
(** * Local transaction inventory

    Models [transaction_inventory.{hpp,cpp}] and
    [transaction_inventory_validation.hpp] of [src/project/src/transaction/mga]:
    the inventory, its begin / prepare / commit / archive / rollback / mark /
    lookup / compaction transforms, the structural validator and the successor
    validator with its state-reachability closure. *)

From S2P Require Import Prelude Platform TransactionState.

(** ** Data *)

Record TransactionInventoryEntry := mkEntry {
  e_identity : TransactionIdentity;
  e_state : TransactionState;
  e_archived_from_state : TransactionState;
  e_begin_unix_epoch_millis : N;
  e_final_unix_epoch_millis : N;
  e_begin_visible_through_local_transaction_id : N;
  e_begin_visible_through_commit_sequence : N;
  e_commit_sequence : N;
  e_evidence_record_required : bool;
  e_evidence_record_written : bool;
  e_rollback_only : bool;
  e_stable_snapshot : bool }.

Definition TransactionInventoryEntry_default : TransactionInventoryEntry :=
  mkEntry TransactionIdentity_default ts_none ts_none 0 0
    kInvalidLocalTransactionId 0 0 true false false false.

Record TransactionInventoryPublicationBase := mkPublicationBase {
  pb_database_uuid : Uuid; pb_inventory_sha256 : list N; pb_generation : N }.

Record LocalTransactionInventory := mkInventory {
  inv_next_local_transaction_id : N;
  inv_next_commit_sequence : N;
  inv_entries : list TransactionInventoryEntry;
  inv_publication_base : option TransactionInventoryPublicationBase }.

Definition LocalTransactionInventory_default : LocalTransactionInventory :=
  mkInventory 1 1 [] None.

Definition e_local_id (e : TransactionInventoryEntry) : N := ti_local_id (e_identity e).
Definition e_uuid (e : TransactionInventoryEntry) : Uuid :=
  tu_value (ti_transaction_uuid (e_identity e)).

(** Field assignments the operations perform on an entry. *)
Definition set_state (s : TransactionState) (e : TransactionInventoryEntry) :=
  mkEntry (e_identity e) s (e_archived_from_state e) (e_begin_unix_epoch_millis e)
    (e_final_unix_epoch_millis e) (e_begin_visible_through_local_transaction_id e)
    (e_begin_visible_through_commit_sequence e) (e_commit_sequence e)
    (e_evidence_record_required e) (e_evidence_record_written e)
    (e_rollback_only e) (e_stable_snapshot e).
Definition set_archived_from (s : TransactionState) (e : TransactionInventoryEntry) :=
  mkEntry (e_identity e) (e_state e) s (e_begin_unix_epoch_millis e)
    (e_final_unix_epoch_millis e) (e_begin_visible_through_local_transaction_id e)
    (e_begin_visible_through_commit_sequence e) (e_commit_sequence e)
    (e_evidence_record_required e) (e_evidence_record_written e)
    (e_rollback_only e) (e_stable_snapshot e).
Definition set_finality (final_millis commit_sequence : N) (e : TransactionInventoryEntry) :=
  mkEntry (e_identity e) (e_state e) (e_archived_from_state e) (e_begin_unix_epoch_millis e)
    final_millis (e_begin_visible_through_local_transaction_id e)
    (e_begin_visible_through_commit_sequence e) commit_sequence
    (e_evidence_record_required e) true (e_rollback_only e) (e_stable_snapshot e).
Definition set_rollback_only (e : TransactionInventoryEntry) :=
  mkEntry (e_identity e) (e_state e) (e_archived_from_state e) (e_begin_unix_epoch_millis e)
    (e_final_unix_epoch_millis e) (e_begin_visible_through_local_transaction_id e)
    (e_begin_visible_through_commit_sequence e) (e_commit_sequence e)
    (e_evidence_record_required e) (e_evidence_record_written e) true (e_stable_snapshot e).
Definition set_entries (es : list TransactionInventoryEntry) (inv : LocalTransactionInventory) :=
  mkInventory (inv_next_local_transaction_id inv) (inv_next_commit_sequence inv) es
    (inv_publication_base inv).

Record TransactionInventoryResult := mkInventoryResult {
  ir_status : Status;
  ir_inventory : LocalTransactionInventory;
  ir_entry : TransactionInventoryEntry;
  ir_diagnostic : DiagnosticRecord }.

Record TransactionInventoryLookupResult := mkLookupResult {
  lr_status : Status;
  lr_entry : TransactionInventoryEntry;
  lr_diagnostic : DiagnosticRecord }.

Record TransactionInventoryCompactionRequest := mkCompactionRequest {
  cr_inventory : LocalTransactionInventory;
  cr_inventory_authoritative : bool;
  cr_oldest_required_local_transaction_id : LocalTransactionId;
  cr_drop_archived_entries : bool }.

Record TransactionInventoryCompactionResult := mkCompactionResult {
  cres_status : Status;
  cres_inventory : LocalTransactionInventory;
  cres_compacted_entry_count : N;
  cres_diagnostic : DiagnosticRecord }.

Definition ir_ok (r : TransactionInventoryResult) : bool := status_ok (ir_status r).
Definition lr_ok (r : TransactionInventoryLookupResult) : bool := status_ok (lr_status r).
Definition cres_ok (r : TransactionInventoryCompactionResult) : bool := status_ok (cres_status r).

(** ** Derived outcome *)

Definition InventoryVisibilityState (e : TransactionInventoryEntry) : TransactionState :=
  if decide (e_state e <> ts_archived) then
    if decide (e_archived_from_state e = ts_none) then e_state e else ts_none
  else match e_archived_from_state e with
       | ts_committed | ts_rolled_back | ts_failed_terminal => e_archived_from_state e
       | _ => ts_none
       end.

Definition HasCommittedInventoryOutcome (e : TransactionInventoryEntry) : bool :=
  bool_decide (InventoryVisibilityState e = ts_committed).

#[global] Arguments InventoryVisibilityState : simpl never.
#[global] Arguments HasCommittedInventoryOutcome : simpl never.

(** ** Structural validation *)

(** The three [std::set]s the validator fills while it scans. *)
Record seen_sets := mkSeen {
  seen_commits : gset N; seen_locals : gset N; seen_identities : gset (list N) }.

Definition no_seen : seen_sets := mkSeen ∅ ∅ ∅.

Definition mark_seen (s : seen_sets) (e : TransactionInventoryEntry) : seen_sets :=
  mkSeen
    (if HasCommittedInventoryOutcome e then {[e_commit_sequence e]} ∪ seen_commits s
     else seen_commits s)
    ({[e_local_id e]} ∪ seen_locals s)
    ({[uuid_bytes (e_uuid e)]} ∪ seen_identities s).

(** The checks one entry goes through, in order; the empty string admits it. *)
Definition validate_entry (inv : LocalTransactionInventory) (s : seen_sets)
    (e : TransactionInventoryEntry) : string :=
  let committed := HasCommittedInventoryOutcome e in
  if decide (inv_next_commit_sequence inv <= e_begin_visible_through_commit_sequence e)
  then "begin_commit_sequence_invalid"
  else if decide (e_state e = ts_archived /\
                  e_archived_from_state e <> ts_committed /\
                  e_archived_from_state e <> ts_rolled_back /\
                  e_archived_from_state e <> ts_failed_terminal)
  then "archive_origin_invalid"
  else if decide (e_state e <> ts_archived /\ e_archived_from_state e <> ts_none)
  then "nonarchived_origin"
  else if decide (committed = true /\
                  (e_commit_sequence e = 0 \/
                   inv_next_commit_sequence inv <= e_commit_sequence e \/
                   e_commit_sequence e <= e_begin_visible_through_commit_sequence e))
  then "commit_sequence_invalid"
  else if decide (committed = true /\ e_commit_sequence e ∈ seen_commits s)
  then "duplicate_commit_sequence"
  else if decide (committed = false /\ e_commit_sequence e <> 0)
  then "noncommitted_commit_sequence"
  else if negb (transaction_identity_valid (e_identity e)) ||
          negb (IsEngineIdentityUuid (e_uuid e))
  then "invalid_transaction_identity"
  else if decide (ti_scope (e_identity e) = scope_unknown)
  then "invalid_transaction_scope"
  else if decide (inv_next_local_transaction_id inv <= e_local_id e)
  then "future_transaction_in_inventory"
  else if decide (e_local_id e ∈ seen_locals s)
  then "duplicate_local_transaction_id"
  else if decide (uuid_bytes (e_uuid e) ∈ seen_identities s)
  then "duplicate_transaction_uuid"
  else if decide (e_state e = ts_none)
  then "invalid_transaction_state"
  else "".

Fixpoint validate_entries (inv : LocalTransactionInventory) (s : seen_sets)
    (es : list TransactionInventoryEntry) : string :=
  match es with
  | [] => ""
  | e :: es =>
    let reason := validate_entry inv s e in
    if decide (reason = ""%string) then validate_entries inv (mark_seen s e) es
    else reason
  end.

Definition ValidateLocalTransactionInventoryStructure (inv : LocalTransactionInventory) : string :=
  if decide (inv_next_local_transaction_id inv = kInvalidLocalTransactionId)
  then "next_transaction_invalid"
  else if decide (inv_next_commit_sequence inv = 0) then "next_commit_sequence_invalid"
  else validate_entries inv no_seen (inv_entries inv).

(** ** Operations ([transaction_inventory.cpp]) *)

Definition MakeTransactionInventoryDiagnostic : Status -> string -> string -> string -> DiagnosticRecord :=
  MakeComponentDiagnostic "transaction.mga.inventory".

Definition InventoryError (code key detail : string) : TransactionInventoryResult :=
  mkInventoryResult MgaErrorStatus LocalTransactionInventory_default
    TransactionInventoryEntry_default
    (MakeTransactionInventoryDiagnostic MgaErrorStatus code key detail).

Definition LookupError (code key detail : string) : TransactionInventoryLookupResult :=
  mkLookupResult MgaErrorStatus TransactionInventoryEntry_default
    (MakeTransactionInventoryDiagnostic MgaErrorStatus code key detail).

Definition CompactionError (code key detail : string) : TransactionInventoryCompactionResult :=
  mkCompactionResult MgaErrorStatus LocalTransactionInventory_default 0
    (MakeTransactionInventoryDiagnostic MgaErrorStatus code key detail).

(** A failed transition: default inventory and entry, the checker's diagnostic. *)
Definition inventory_refusal (status : Status) (d : DiagnosticRecord) : TransactionInventoryResult :=
  mkInventoryResult status LocalTransactionInventory_default
    TransactionInventoryEntry_default d.

Definition inventory_success (inv : LocalTransactionInventory)
    (e : TransactionInventoryEntry) : TransactionInventoryResult :=
  mkInventoryResult MgaOkStatus inv e DiagnosticRecord_default.

(** [FindEntry] returns a pointer into the vector: position and value. *)
Definition FindEntry (inv : LocalTransactionInventory) (id : LocalTransactionId)
    : option (nat * TransactionInventoryEntry) :=
  list_find (fun e => e_local_id e = id) (inv_entries inv).

(** Writing through that pointer. *)
Definition write_entry (i : nat) (e : TransactionInventoryEntry)
    (inv : LocalTransactionInventory) : LocalTransactionInventory :=
  set_entries (<[i := e]> (inv_entries inv)) inv.

Definition ContainsTransactionUuid (inv : LocalTransactionInventory) (u : TypedUuid) : bool :=
  existsb (fun e => bool_decide (e_uuid e = tu_value u)) (inv_entries inv).

Definition TransitionOrFail (e : TransactionInventoryEntry) (next : TransactionState)
    : DiagnosticRecord + TransactionInventoryEntry :=
  let transition := CheckTransactionStateTransition (e_state e) next false in
  if ttr_ok transition then inr (set_state next e) else inl (ttr_diagnostic transition).

(** Successive [TransitionOrFail] calls joined by the source's [||]. *)
Fixpoint TransitionsOrFail (e : TransactionInventoryEntry) (nexts : list TransactionState)
    : DiagnosticRecord + TransactionInventoryEntry :=
  match nexts with
  | [] => inr e
  | next :: nexts =>
    match TransitionOrFail e next with
    | inl d => inl d
    | inr e => TransitionsOrFail e nexts
    end
  end.

Definition MakeEmptyLocalTransactionInventory : LocalTransactionInventory :=
  mkInventory 1 1 [] None.

Definition BeginLocalTransactionWithState (inv : LocalTransactionInventory)
    (transaction_uuid : TypedUuid) (begin_unix_epoch_millis : N)
    (active_state : TransactionState) : TransactionInventoryResult :=
  if decide (inv_next_local_transaction_id inv = kInvalidLocalTransactionId) then
    InventoryError "SB-TXN-INVENTORY-NEXT-ID-INVALID" "transaction.inventory.next_id_invalid" ""
  else
  let reason := ValidateLocalTransactionInventoryStructure inv in
  if decide (reason <> ""%string) then
    InventoryError "CATALOG.INVALID_INPUT" "transaction.inventory.structure_invalid" reason
  else if decide (inv_next_local_transaction_id inv = u64_max) then
    InventoryError "CATALOG.INVALID_INPUT" "transaction.inventory.number_exhausted" ""
  else
  let local_id := MakeLocalTransactionId (inv_next_local_transaction_id inv) in
  if ContainsTransactionUuid inv transaction_uuid then
    InventoryError "SB-TXN-DUPLICATE-TRANSACTION-UUID"
      "transaction.inventory.duplicate_transaction_uuid" ""
  else
  let identity := MakeTransactionIdentity local_id transaction_uuid scope_local_node in
  if negb (status_ok (tir_status identity)) then
    inventory_refusal (tir_status identity) (tir_diagnostic identity)
  else
  let entry :=
    mkEntry (tir_identity identity) ts_none ts_none begin_unix_epoch_millis 0
      (u64_sub local_id 1) (u64_sub (inv_next_commit_sequence inv) 1) 0
      true false false false in
  match TransitionsOrFail entry [ts_created; active_state] with
  | inl diagnostic => inventory_refusal MgaErrorStatus diagnostic
  | inr entry =>
    inventory_success
      (mkInventory (u64_add (inv_next_local_transaction_id inv) 1)
         (inv_next_commit_sequence inv) (inv_entries inv ++ [entry])
         (inv_publication_base inv))
      entry
  end.

Definition BeginLocalTransaction (inv : LocalTransactionInventory)
    (transaction_uuid : TypedUuid) (begin_unix_epoch_millis : N) : TransactionInventoryResult :=
  BeginLocalTransactionWithState inv transaction_uuid begin_unix_epoch_millis ts_active.

Definition BeginLocalReadOnlyTransaction (inv : LocalTransactionInventory)
    (transaction_uuid : TypedUuid) (begin_unix_epoch_millis : N) : TransactionInventoryResult :=
  BeginLocalTransactionWithState inv transaction_uuid begin_unix_epoch_millis ts_read_only_active.

Definition PrepareLocalTransaction (inv : LocalTransactionInventory)
    (local_id : LocalTransactionId) : TransactionInventoryResult :=
  if negb (local_id_valid local_id) then
    InventoryError "SB-TXN-LOCAL-ID-NOT-FOUND" "transaction.inventory.prepare_id_invalid" ""
  else match FindEntry inv local_id with
  | None =>
    InventoryError "SB-TXN-LOCAL-ID-NOT-FOUND" "transaction.inventory.prepare_id_not_found"
      (to_string local_id)
  | Some (i, entry) =>
    if decide (ti_scope (e_identity entry) <> scope_local_node) then
      InventoryError "CATALOG.INVALID_INPUT" "transaction.inventory.local_scope_required" ""
    else match TransitionsOrFail entry [ts_preparing; ts_prepared] with
    | inl diagnostic => inventory_refusal MgaErrorStatus diagnostic
    | inr entry => inventory_success (write_entry i entry inv) entry
    end
  end.

(** An active transaction is carried through prepare on the way. *)
Definition commit_path (s : TransactionState) : list TransactionState :=
  (if decide (s = ts_active) then [ts_preparing; ts_prepared] else []) ++
  [ts_committing; ts_committed].

Definition CommitLocalTransaction (inv : LocalTransactionInventory)
    (local_id : LocalTransactionId) (final_unix_epoch_millis : N) : TransactionInventoryResult :=
  let reason := ValidateLocalTransactionInventoryStructure inv in
  if decide (reason <> ""%string) then
    InventoryError "CATALOG.INVALID_INPUT" "transaction.inventory.structure_invalid" reason
  else if decide (inv_next_commit_sequence inv = u64_max) then
    InventoryError "CATALOG.INVALID_INPUT" "transaction.inventory.commit_sequence_exhausted" ""
  else if negb (local_id_valid local_id) then
    InventoryError "SB-TXN-LOCAL-ID-NOT-FOUND" "transaction.inventory.commit_id_invalid" ""
  else match FindEntry inv local_id with
  | None =>
    InventoryError "SB-TXN-LOCAL-ID-NOT-FOUND" "transaction.inventory.commit_id_not_found"
      (to_string local_id)
  | Some (i, entry) =>
    if decide (ti_scope (e_identity entry) <> scope_local_node) then
      InventoryError "CATALOG.INVALID_INPUT" "transaction.inventory.local_scope_required" ""
    else if e_rollback_only entry then
      InventoryError "SB-MGA-ROLLBACK-ONLY-COMMIT-REFUSED"
        "transaction.inventory.rollback_only_commit_refused" (to_string local_id)
    else match TransitionsOrFail entry (commit_path (e_state entry)) with
    | inl diagnostic => inventory_refusal MgaErrorStatus diagnostic
    | inr entry =>
      let committed_entry :=
        set_finality final_unix_epoch_millis (inv_next_commit_sequence inv) entry in
      let inv := write_entry i committed_entry inv in
      inventory_success
        (mkInventory (inv_next_local_transaction_id inv)
           (u64_add (inv_next_commit_sequence inv) 1) (inv_entries inv)
           (inv_publication_base inv))
        committed_entry
    end
  end.

Definition ArchiveLocalTransaction (inv : LocalTransactionInventory)
    (local_id : LocalTransactionId) : TransactionInventoryResult :=
  let reason := ValidateLocalTransactionInventoryStructure inv in
  if decide (reason <> ""%string) then
    InventoryError "CATALOG.INVALID_INPUT" "transaction.inventory.structure_invalid" reason
  else if negb (local_id_valid local_id) then
    InventoryError "SB-TXN-LOCAL-ID-NOT-FOUND" "transaction.inventory.archive_id_invalid" ""
  else match FindEntry inv local_id with
  | None =>
    InventoryError "SB-TXN-LOCAL-ID-NOT-FOUND" "transaction.inventory.archive_id_not_found"
      (to_string local_id)
  | Some (i, entry) =>
    if negb (e_evidence_record_written entry) then
      InventoryError "SB-MGA-ARCHIVE-FINALITY-EVIDENCE-REQUIRED"
        "transaction.inventory.archive_finality_evidence_required" (to_string local_id)
    else
    let origin := e_state entry in
    match TransitionOrFail entry ts_archived with
    | inl diagnostic => inventory_refusal MgaErrorStatus diagnostic
    | inr entry =>
      let archived_entry := set_archived_from origin entry in
      inventory_success (write_entry i archived_entry inv) archived_entry
    end
  end.

Definition RollbackLocalTransaction (inv : LocalTransactionInventory)
    (local_id : LocalTransactionId) (final_unix_epoch_millis : N) : TransactionInventoryResult :=
  if negb (local_id_valid local_id) then
    InventoryError "SB-TXN-LOCAL-ID-NOT-FOUND" "transaction.inventory.rollback_id_invalid" ""
  else match FindEntry inv local_id with
  | None =>
    InventoryError "SB-TXN-LOCAL-ID-NOT-FOUND" "transaction.inventory.rollback_id_not_found"
      (to_string local_id)
  | Some (i, entry) =>
    if decide (ti_scope (e_identity entry) <> scope_local_node) then
      InventoryError "CATALOG.INVALID_INPUT" "transaction.inventory.local_scope_required" ""
    else match TransitionsOrFail entry [ts_rolling_back; ts_rolled_back] with
    | inl diagnostic => inventory_refusal MgaErrorStatus diagnostic
    | inr entry =>
      let rolled_back_entry := set_finality final_unix_epoch_millis (e_commit_sequence entry) entry in
      inventory_success (write_entry i rolled_back_entry inv) rolled_back_entry
    end
  end.

Definition AbortLocalTransaction (inv : LocalTransactionInventory)
    (local_id : LocalTransactionId) (final_unix_epoch_millis : N) : TransactionInventoryResult :=
  RollbackLocalTransaction inv local_id final_unix_epoch_millis.

Definition MarkLocalTransactionRollbackOnly (inv : LocalTransactionInventory)
    (local_id : LocalTransactionId) : TransactionInventoryResult :=
  if negb (local_id_valid local_id) then
    InventoryError "SB-TXN-LOCAL-ID-NOT-FOUND" "transaction.inventory.rollback_only_id_invalid" ""
  else match FindEntry inv local_id with
  | None =>
    InventoryError "SB-TXN-LOCAL-ID-NOT-FOUND" "transaction.inventory.rollback_only_id_not_found"
      (to_string local_id)
  | Some (i, entry) =>
    if decide (e_state entry = ts_committed \/ e_state entry = ts_archived) then
      InventoryError "SB-MGA-ROLLBACK-ONLY-MARK-REFUSED"
        "transaction.inventory.rollback_only_mark_refused" (to_string local_id)
    else inventory_success (write_entry i (set_rollback_only entry) inv) (set_rollback_only entry)
  end.

Definition LookupLocalTransaction (inv : LocalTransactionInventory)
    (local_id : LocalTransactionId) : TransactionInventoryLookupResult :=
  if negb (local_id_valid local_id) then
    LookupError "SB-TXN-LOCAL-ID-NOT-FOUND" "transaction.inventory.lookup_id_invalid" ""
  else match FindEntry inv local_id with
  | Some (_, entry) => mkLookupResult MgaOkStatus entry DiagnosticRecord_default
  | None =>
    LookupError "SB-TXN-LOCAL-ID-NOT-FOUND" "transaction.inventory.lookup_id_not_found"
      (to_string local_id)
  end.

(** [can_drop] of the compaction loop. *)
Definition compaction_can_drop (r : TransactionInventoryCompactionRequest)
    (e : TransactionInventoryEntry) : bool :=
  cr_drop_archived_entries r &&
  bool_decide (e_state e = ts_archived) &&
  bool_decide (e_archived_from_state e <> ts_failed_terminal) &&
  local_id_valid (e_local_id e) &&
  bool_decide (e_local_id e < cr_oldest_required_local_transaction_id r).

Definition CompactLocalTransactionInventory (r : TransactionInventoryCompactionRequest)
    : TransactionInventoryCompactionResult :=
  if negb (cr_inventory_authoritative r) then
    CompactionError "SB-TXN-INVENTORY-COMPACTION-NOT-AUTHORITATIVE"
      "transaction.inventory.compaction_not_authoritative" ""
  else if negb (local_id_valid (cr_oldest_required_local_transaction_id r)) then
    CompactionError "SB-TXN-INVENTORY-COMPACTION-HORIZON-INVALID"
      "transaction.inventory.compaction_horizon_invalid" ""
  else
  let reason := ValidateLocalTransactionInventoryStructure (cr_inventory r) in
  if decide (reason <> ""%string) then
    CompactionError "CATALOG.INVALID_INPUT" "transaction.inventory.structure_invalid" reason
  else
  let kept := filter (fun e => compaction_can_drop r e = false) (inv_entries (cr_inventory r)) in
  let dropped := filter (fun e => compaction_can_drop r e = true) (inv_entries (cr_inventory r)) in
  mkCompactionResult MgaOkStatus (set_entries kept (cr_inventory r))
    (N.of_nat (length dropped)) DiagnosticRecord_default.

(** ** Declarative well-formedness *)

Record entry_ok (inv : LocalTransactionInventory) (e : TransactionInventoryEntry) : Prop := {
  eo_begin : e_begin_visible_through_commit_sequence e < inv_next_commit_sequence inv;
  eo_state : e_state e <> ts_none;
  eo_archived : e_state e = ts_archived ->
    e_archived_from_state e ∈ [ts_committed; ts_rolled_back; ts_failed_terminal];
  eo_not_archived : e_state e <> ts_archived -> e_archived_from_state e = ts_none;
  eo_committed : HasCommittedInventoryOutcome e = true ->
    e_begin_visible_through_commit_sequence e < e_commit_sequence e < inv_next_commit_sequence inv;
  eo_uncommitted : HasCommittedInventoryOutcome e = false -> e_commit_sequence e = 0;
  eo_identity : transaction_identity_valid (e_identity e) = true;
  eo_engine : IsEngineIdentityUuid (e_uuid e) = true;
  eo_local : e_local_id e < inv_next_local_transaction_id inv }.

Definition committed_entries (es : list TransactionInventoryEntry) :=
  filter (fun e => HasCommittedInventoryOutcome e = true) es.

Record structure_ok (inv : LocalTransactionInventory) : Prop := {
  so_next_local : inv_next_local_transaction_id inv <> 0;
  so_next_commit : inv_next_commit_sequence inv <> 0;
  so_entries : Forall (entry_ok inv) (inv_entries inv);
  so_commits : NoDup (e_commit_sequence <$> committed_entries (inv_entries inv));
  so_locals : NoDup (e_local_id <$> inv_entries inv);
  so_uuids : NoDup ((uuid_bytes ∘ e_uuid) <$> inv_entries inv) }.

(** The values the two [u64] counters can hold. *)
Definition counters_u64 (inv : LocalTransactionInventory) : Prop :=
  is_u64 (inv_next_local_transaction_id inv) /\ is_u64 (inv_next_commit_sequence inv).

(** ** The validator decides well-formedness *)

Lemma identity_valid_scope i : transaction_identity_valid i = true -> ti_scope i <> scope_unknown.
Proof. unfold transaction_identity_valid. intros. by bool_prop. Qed.

Lemma identity_valid_local i : transaction_identity_valid i = true -> ti_local_id i <> 0.
Proof. unfold transaction_identity_valid, local_id_valid. intros. by bool_prop. Qed.

Lemma validate_entry_spec inv s e :
  validate_entry inv s e = ""%string <->
  entry_ok inv e /\
  (HasCommittedInventoryOutcome e = true -> e_commit_sequence e ∉ seen_commits s) /\
  (e_local_id e ∉ seen_locals s) /\
  uuid_bytes (e_uuid e) ∉ seen_identities s.
Proof.
  unfold validate_entry. split.
  - intros H. repeat (case_decide; [discriminate H|]).
    destruct (negb _ || negb _) eqn:Hid; [discriminate H|].
    repeat (case_decide; [discriminate H|]). bool_prop.
    split_and!; [split| | |]; try done; try lia.
    + intros Ha. destruct (decide (e_archived_from_state e ∈
        [ts_committed; ts_rolled_back; ts_failed_terminal])) as [|Hn]; [done|]. set_solver.
    + intros Ha. destruct (decide (e_archived_from_state e = ts_none)); [done|tauto].
    + tauto.
  - intros ([Hb Hs Ha Hna Hc Hu Hi He Hl] & Hdc & Hdl & Hdu).
    case_decide; [lia|].
    case_decide as Hx; [destruct Hx as (Hx & ?); specialize (Ha Hx); set_solver|clear Hx].
    case_decide as Hx; [naive_solver|clear Hx].
    case_decide as Hx; [destruct Hx as (Hx & ?); specialize (Hc Hx); lia|clear Hx].
    case_decide; [naive_solver|].
    case_decide; [naive_solver|].
    rewrite Hi, He. simpl.
    case_decide; [by apply identity_valid_scope in Hi|].
    case_decide; [lia|]. repeat (case_decide; [done|]). done.
Qed.

Lemma validate_entries_spec inv s es :
  validate_entries inv s es = ""%string <->
  Forall (entry_ok inv) es /\
  acc_fresh e_commit_sequence (seen_commits s) (committed_entries es) /\
  acc_fresh e_local_id (seen_locals s) es /\
  acc_fresh (uuid_bytes ∘ e_uuid) (seen_identities s) es.
Proof.
  revert s. induction es as [|e es IH]; intros s; cbn [validate_entries].
  { split; [|done]. intros _. split_and!; [constructor|..]; apply acc_fresh_nil. }
  unfold committed_entries in *. rewrite filter_cons, Forall_cons.
  rewrite !(acc_fresh_cons _ _ e es).
  assert (Hcommit :
    acc_fresh e_commit_sequence (seen_commits s)
      (if decide (HasCommittedInventoryOutcome e = true)
       then e :: filter (fun e => HasCommittedInventoryOutcome e = true) es
       else filter (fun e => HasCommittedInventoryOutcome e = true) es) <->
    (HasCommittedInventoryOutcome e = true -> e_commit_sequence e ∉ seen_commits s) /\
    acc_fresh e_commit_sequence (seen_commits (mark_seen s e))
      (filter (fun e => HasCommittedInventoryOutcome e = true) es)).
  { unfold mark_seen; simpl. destruct (HasCommittedInventoryOutcome e); case_decide; try done.
    - rewrite acc_fresh_cons. naive_solver.
    - naive_solver. }
  rewrite Hcommit. clear Hcommit. case_decide as Hv.
  - rewrite IH. apply validate_entry_spec in Hv. simpl. tauto.
  - rewrite validate_entry_spec in *. simpl. tauto.
Qed.

Lemma validate_structure_iff inv :
  ValidateLocalTransactionInventoryStructure inv = ""%string <-> structure_ok inv.
Proof.
  unfold ValidateLocalTransactionInventoryStructure.
  case_decide as Hl; [split; [done|intros [? _ _ _ _ _]; done]|].
  case_decide as Hc; [split; [done|intros [_ ? _ _ _ _]; done]|].
  rewrite validate_entries_spec. unfold no_seen; simpl. rewrite !acc_fresh_empty. split.
  - intros (? & ? & ? & ?). by constructor.
  - by intros [_ _ ? ? ? ?].
Qed.
