(* ===== verification/Horizon.v ===== *)
(** * Transaction horizons

    Models [transaction_horizon.{hpp,cpp}] and
    [transaction_horizon_projection.hpp]: the oldest interesting, oldest active
    and oldest snapshot numbers computed from a validated inventory.  Metric
    publication is not modelled. *)

From S2P Require Import Prelude Platform TransactionState Inventory.

Record LocalTransactionHorizons := mkHorizons {
  h_oldest_interesting_transaction : LocalTransactionId;
  h_oldest_active_transaction : LocalTransactionId;
  h_oldest_snapshot_transaction : LocalTransactionId;
  h_next_transaction_id : LocalTransactionId;
  h_valid : bool }.

Definition LocalTransactionHorizons_default : LocalTransactionHorizons :=
  mkHorizons 0 0 0 0 false.

Record LocalTransactionHorizonRequest := mkHorizonRequest {
  hr_inventory : LocalTransactionInventory;
  hr_active_snapshot_horizons : list LocalTransactionId }.

Record TransactionHorizonResult := mkHorizonResult {
  hres_status : Status;
  hres_horizons : LocalTransactionHorizons;
  hres_diagnostic : DiagnosticRecord }.

Definition hres_ok (r : TransactionHorizonResult) : bool :=
  status_ok (hres_status r) && h_valid (hres_horizons r).

Definition MakeTransactionHorizonDiagnostic : Status -> string -> string -> string -> DiagnosticRecord :=
  MakeComponentDiagnostic "transaction.mga.horizon".

Definition IsInteresting (s : TransactionState) : bool :=
  bool_decide (s ∈ [ts_created; ts_active; ts_read_only_active; ts_preparing; ts_prepared;
                    ts_committing; ts_rolling_back; ts_limbo; ts_recovering;
                    ts_failed_terminal]).

Definition IsActiveForOat (s : TransactionState) : bool :=
  bool_decide (s ∈ [ts_active; ts_read_only_active]).

Definition ids_where (P : TransactionInventoryEntry -> Prop) `{!forall e, Decision (P e)}
    (inv : LocalTransactionInventory) : list N :=
  e_local_id <$> filter P (inv_entries inv).

(** The loop over caller-supplied snapshot horizons. *)
Fixpoint apply_snapshot_horizons (next : N) (ost : N) (hs : list LocalTransactionId)
    : string + N :=
  match hs with
  | [] => inr ost
  | h :: hs =>
    if negb (local_id_valid h) then inl "transaction.horizon.invalid_snapshot_horizon"%string
    else if decide (next < h) then inl "transaction.horizon.future_snapshot_horizon"%string
    else apply_snapshot_horizons next (N.min ost h) hs
  end.

(** Smallest begin boundary of a stable active reader, or the commit counter. *)
Definition stable_commit_boundary (inv : LocalTransactionInventory) : N :=
  min_over (inv_next_commit_sequence inv)
    (e_begin_visible_through_commit_sequence <$>
     filter (fun e => e_stable_snapshot e = true /\ IsActiveForOat (e_state e) = true)
       (inv_entries inv)).

Definition oldest_interesting (inv : LocalTransactionInventory) : N :=
  min_over (inv_next_local_transaction_id inv)
    (ids_where (fun e => IsInteresting (InventoryVisibilityState e) = true) inv).

Definition oldest_active (inv : LocalTransactionInventory) : N :=
  min_over (inv_next_local_transaction_id inv)
    (ids_where (fun e => IsActiveForOat (e_state e) = true) inv).

Definition ProjectValidatedLocalHorizons (inv : LocalTransactionInventory)
    (snapshot_horizons : list LocalTransactionId) : string + LocalTransactionHorizons :=
  let next := inv_next_local_transaction_id inv in
  let oit := oldest_interesting inv in
  let oat := oldest_active inv in
  let ost := if decide (snapshot_horizons = []) then oat else next in
  match apply_snapshot_horizons next ost snapshot_horizons with
  | inl error => inl error
  | inr ost =>
    let boundary := stable_commit_boundary inv in
    let ost :=
      if decide (boundary <> inv_next_commit_sequence inv) then
        min_over (N.min ost oit)
          (ids_where (fun e => HasCommittedInventoryOutcome e = true /\
                               boundary < e_commit_sequence e) inv)
      else ost in
    inr (mkHorizons oit oat ost next true)
  end.

Definition CalculateLocalHorizons (inv : LocalTransactionInventory)
    (snapshot_horizons : list LocalTransactionId) : TransactionHorizonResult :=
  let reason := ValidateLocalTransactionInventoryStructure inv in
  if decide (reason <> ""%string) then
    mkHorizonResult MgaErrorStatus LocalTransactionHorizons_default
      (MakeTransactionHorizonDiagnostic MgaErrorStatus "SB-TXN-HORIZON-INVALID"
         "transaction.horizon.inventory_invalid" reason)
  else match ProjectValidatedLocalHorizons inv snapshot_horizons with
  | inl error =>
    mkHorizonResult MgaErrorStatus LocalTransactionHorizons_default
      (MakeTransactionHorizonDiagnostic MgaErrorStatus "SB-TXN-HORIZON-INVALID" error "")
  | inr horizons => mkHorizonResult MgaOkStatus horizons DiagnosticRecord_default
  end.

(** The two overloads of [ComputeLocalTransactionHorizons]. *)
Definition ComputeLocalTransactionHorizons (inv : LocalTransactionInventory) :=
  CalculateLocalHorizons inv [].
Definition ComputeLocalTransactionHorizonsFor (r : LocalTransactionHorizonRequest) :=
  CalculateLocalHorizons (hr_inventory r) (hr_active_snapshot_horizons r).

(** ** Facts *)

Lemma ids_where_in P `{!forall e, Decision (P e)} inv e :
  e ∈ inv_entries inv -> P e -> e_local_id e ∈ ids_where P inv.
Proof. intros. apply list_elem_of_fmap_2, list_elem_of_filter. done. Qed.

Lemma ids_where_elim P `{!forall e, Decision (P e)} inv x :
  x ∈ ids_where P inv -> exists e, e ∈ inv_entries inv /\ P e /\ x = e_local_id e.
Proof. intros (e & -> & [? ?]%list_elem_of_filter)%list_elem_of_fmap. eauto. Qed.

Lemma apply_snapshot_horizons_spec next ost hs ost' :
  apply_snapshot_horizons next ost hs = inr ost' ->
  ost' = min_over ost hs /\ forall h, h ∈ hs -> h <> 0 /\ h <= next.
Proof.
  revert ost. induction hs as [|h hs IH]; intros ost H; simpl in H.
  { simplify_eq. split; [done|set_solver]. }
  case_match eqn:Hv; [done|]. case_decide; [done|].
  apply IH in H as [-> Hh]. split; [done|].
  intros x [->|Hx]%elem_of_cons; [|auto]. unfold local_id_valid, kInvalidLocalTransactionId in Hv.
  bool_prop. split; [done|lia].
Qed.

(** The projection, as bounds: each horizon lies below the allocation counter
    and below every entry that must hold it back. *)
Lemma projection_bounds inv hs h :
  ProjectValidatedLocalHorizons inv hs = inr h ->
  let next := inv_next_local_transaction_id inv in
  h_next_transaction_id h = next /\ h_valid h = true /\
  h_oldest_interesting_transaction h <= next /\
  h_oldest_active_transaction h <= next /\
  h_oldest_snapshot_transaction h <= next /\
  (forall e, e ∈ inv_entries inv -> IsInteresting (InventoryVisibilityState e) = true ->
     h_oldest_interesting_transaction h <= e_local_id e) /\
  (forall e, e ∈ inv_entries inv -> IsActiveForOat (e_state e) = true ->
     h_oldest_active_transaction h <= e_local_id e) /\
  (forall x, x ∈ hs -> h_oldest_snapshot_transaction h <= x) /\
  (hs = [] -> h_oldest_snapshot_transaction h <= h_oldest_active_transaction h) /\
  (forall r e, r ∈ inv_entries inv -> e ∈ inv_entries inv ->
     e_stable_snapshot r = true -> IsActiveForOat (e_state r) = true ->
     e_begin_visible_through_commit_sequence r < inv_next_commit_sequence inv ->
     HasCommittedInventoryOutcome e = true ->
     e_begin_visible_through_commit_sequence r < e_commit_sequence e ->
     h_oldest_snapshot_transaction h <= e_local_id e).
Proof.
  intros H. unfold ProjectValidatedLocalHorizons in H. cbv zeta in *.
  set (next := inv_next_local_transaction_id inv) in *.
  set (oit := oldest_interesting inv) in H. set (oat := oldest_active inv) in H.
  destruct (apply_snapshot_horizons _ _ hs) as [|ost] eqn:Ha; [done|].
  apply apply_snapshot_horizons_spec in Ha as [-> Hhs]. simplify_eq. simpl.
  set (start := if decide (hs = []) then oat else next) in *.
  assert (Hoit : oit <= next) by apply min_over_le_init.
  assert (Hoat : oat <= next) by apply min_over_le_init.
  assert (Hstart : start <= next) by (subst start; case_decide; lia).
  pose proof (min_over_le_init start hs) as Hle.
  set (final := if decide _ then _ else _).
  assert (Hfinal : final <= min_over start hs).
  { subst final. case_decide; [|lia].
    etrans; [apply min_over_le_init|]. lia. }
  split_and!; try done; try lia.
  - intros e He Hi. apply min_over_le_elem, ids_where_in; done.
  - intros e He Hi. apply min_over_le_elem, ids_where_in; done.
  - intros x Hx. pose proof (min_over_le_elem start hs x Hx). lia.
  - intros ->. subst start. rewrite decide_True in * by done. lia.
  - intros r e Hr He Hst Hact Hb Hc Hlt. subst final.
    assert (Hbound : stable_commit_boundary inv <= e_begin_visible_through_commit_sequence r).
    { apply min_over_le_elem, list_elem_of_fmap_2, list_elem_of_filter. done. }
    rewrite decide_True by lia. apply min_over_le_elem, ids_where_in; [done|].
    split; [done|lia].
Qed.

Lemma compute_horizons_ok inv hs :
  hres_ok (CalculateLocalHorizons inv hs) = true ->
  structure_ok inv /\
  ProjectValidatedLocalHorizons inv hs = inr (hres_horizons (CalculateLocalHorizons inv hs)).
Proof.
  unfold CalculateLocalHorizons. case_decide as Hv; [done|]. apply validate_structure_iff in Hv.
  by case_match.
Qed.

Lemma compute_horizons_no_snapshots inv :
  structure_ok inv -> hres_ok (ComputeLocalTransactionHorizons inv) = true.
Proof.
  intros Hs. unfold ComputeLocalTransactionHorizons, CalculateLocalHorizons.
  apply validate_structure_iff in Hs. rewrite decide_False by (rewrite Hs; naive_solver). done.
Qed.

Lemma projection_values inv hs h :
  ProjectValidatedLocalHorizons inv hs = inr h ->
  h_oldest_interesting_transaction h = oldest_interesting inv /\
  h_oldest_active_transaction h = oldest_active inv.
Proof. unfold ProjectValidatedLocalHorizons. case_match; [done|]. intros. by simplify_eq. Qed.

Lemma ids_where_attained P `{!forall e, Decision (P e)} inv init :
  min_over init (ids_where P inv) = init \/
  exists e, e ∈ inv_entries inv /\ P e /\ min_over init (ids_where P inv) = e_local_id e.
Proof.
  destruct (min_over_in init (ids_where P inv)) as [Hm|Hm]; [by left|right].
  by apply ids_where_elim in Hm.
Qed.

Lemma oldest_interesting_attained inv :
  oldest_interesting inv = inv_next_local_transaction_id inv \/
  exists e, e ∈ inv_entries inv /\ IsInteresting (InventoryVisibilityState e) = true /\
    oldest_interesting inv = e_local_id e.
Proof. apply (ids_where_attained _). Qed.

Lemma oldest_active_attained inv :
  oldest_active inv = inv_next_local_transaction_id inv \/
  exists e, e ∈ inv_entries inv /\ IsActiveForOat (e_state e) = true /\
    oldest_active inv = e_local_id e.
Proof. apply (ids_where_attained _). Qed.

Lemma oldest_interesting_le_next inv : oldest_interesting inv <= inv_next_local_transaction_id inv.
Proof. apply min_over_le_init. Qed.

Lemma oldest_interesting_le inv e :
  e ∈ inv_entries inv -> IsInteresting (InventoryVisibilityState e) = true ->
  oldest_interesting inv <= e_local_id e.
Proof. intros. by apply min_over_le_elem, ids_where_in. Qed.

(** A transaction without an outcome is interesting. *)
Lemma unresolved_interesting inv e :
  entry_ok inv e -> IsTerminalTransactionState (InventoryVisibilityState e) = false ->
  IsInteresting (InventoryVisibilityState e) = true.
Proof.
  intros [_ Hs Ha Hna _ _ _ _ _]. unfold InventoryVisibilityState. case_decide as Hd.
  - rewrite decide_True by auto. destruct (e_state e); vm_compute; congruence.
  - specialize (Ha Hd).
    decompose_list_elem_of; match goal with H : e_archived_from_state e = _ |- _ => rewrite H end;
      vm_compute; congruence.
Qed.
