(* ===== verification/RowVersion.v ===== *)
(** * Row versions and visibility

    Models [row_version.{hpp,cpp}] and [row_version_observation.hpp]: row and
    version identities, version metadata, the visibility evaluation of a version
    against a snapshot and the hot-row-head admission decision. *)

From S2P Require Import Prelude Platform TransactionState.

Definition kInvalidRowVersionSequence : N := 0.

Inductive RowVersionState :=
| rvs_unknown | rvs_uncommitted | rvs_prepared | rvs_committed | rvs_rolled_back
| rvs_delete_marker | rvs_limbo | rvs_recovery_required.

Inductive VisibilityDecision :=
| vd_visible | vd_invisible | vd_wait_for_transaction | vd_requires_recovery | vd_unknown.

Inductive HotStableRowHeadDecisionKind :=
| hsd_refused | hsd_page_local_hot | hsd_stable_row_head_indirection
| hsd_ordinary_index_rewrite.

#[export] Instance RowVersionState_eq_dec : EqDecision RowVersionState.
Proof. solve_decision. Defined.
#[export] Instance VisibilityDecision_eq_dec : EqDecision VisibilityDecision.
Proof. solve_decision. Defined.
#[export] Instance HotStableRowHeadDecisionKind_eq_dec : EqDecision HotStableRowHeadDecisionKind.
Proof. solve_decision. Defined.

Record RowIdentity := mkRowIdentity { ri_row_uuid : TypedUuid }.

Definition row_identity_valid (r : RowIdentity) : bool :=
  bool_decide (tu_kind (ri_row_uuid r) = uk_row) && typed_uuid_valid (ri_row_uuid r).

Record RowVersionChainLinks := mkChain {
  ch_previous_version_uuid : TypedUuid;
  ch_next_version_uuid : TypedUuid;
  ch_previous_version_sequence : N;
  ch_next_version_sequence : N }.

Definition chain_has_previous (c : RowVersionChainLinks) : bool :=
  bool_decide (ch_previous_version_sequence c <> kInvalidRowVersionSequence).
Definition chain_has_next (c : RowVersionChainLinks) : bool :=
  bool_decide (ch_next_version_sequence c <> kInvalidRowVersionSequence).

Record RowVersionIdentity := mkRowVersionIdentity {
  rvi_row : RowIdentity;
  rvi_creator_transaction : TransactionIdentity;
  rvi_version_sequence : N;
  rvi_version_uuid : Uuid }.

Record RowVersionMetadata := mkRowVersionMetadata {
  rvm_identity : RowVersionIdentity;
  rvm_chain : RowVersionChainLinks;
  rvm_successor_transaction_local_id : LocalTransactionId;
  rvm_state : RowVersionState;
  rvm_creator_transaction_state : TransactionState;
  rvm_payload_present : bool;
  rvm_creator_commit_sequence : N }.

(** [VisibilitySnapshotView] borrows the same fields. *)
Record VisibilitySnapshot := mkVisibilitySnapshot {
  vs_reader_transaction : LocalTransactionId;
  vs_visible_through_local_transaction_id : N;
  vs_visible_through_local_transaction_id_is_boundary : bool;
  vs_allow_reader_own_uncommitted : bool;
  vs_recovery_context : bool;
  vs_active_excluded_local_transaction_ids : list N;
  vs_in_doubt_excluded_local_transaction_ids : list N;
  vs_visible_through_commit_sequence : N;
  vs_visible_through_commit_sequence_is_boundary : bool }.

Definition VisibilitySnapshot_default : VisibilitySnapshot :=
  mkVisibilitySnapshot 0 0 false true false [] [] 0 false.

Record RowIdentityResult := mkRowIdentityResult {
  rir_status : Status; rir_identity : RowIdentity; rir_diagnostic : DiagnosticRecord }.
Record RowVersionIdentityResult := mkRowVersionIdentityResult {
  rvir_status : Status; rvir_identity : RowVersionIdentity; rvir_diagnostic : DiagnosticRecord }.
Record RowVersionMetadataResult := mkRowVersionMetadataResult {
  rvmr_status : Status; rvmr_metadata : RowVersionMetadata; rvmr_diagnostic : DiagnosticRecord }.
Record VisibilityResult := mkVisibilityResult {
  vr_status : Status; vr_decision : VisibilityDecision; vr_diagnostic : DiagnosticRecord }.

Record HotStableRowHeadProofInput := mkHotInput {
  hi_old_visible_version : RowVersionMetadata;
  hi_new_version : RowVersionMetadata;
  hi_old_version_uuid : TypedUuid;
  hi_new_previous_version_uuid : TypedUuid;
  hi_visibility_snapshot : VisibilitySnapshot;
  hi_exact_index_keys_unchanged : bool;
  hi_same_page_budget_available : bool;
  hi_parser_or_reference_authority : bool }.

Record HotStableRowHeadDecisionResult := mkHotResult {
  hdr_status : Status;
  hdr_decision : HotStableRowHeadDecisionKind;
  hdr_proof_accepted : bool;
  hdr_diagnostic : DiagnosticRecord }.

Definition RowVersionStateName (s : RowVersionState) : string :=
  match s with
  | rvs_unknown => "unknown"
  | rvs_uncommitted => "uncommitted"
  | rvs_prepared => "prepared"
  | rvs_committed => "committed"
  | rvs_rolled_back => "rolled_back"
  | rvs_delete_marker => "delete_marker"
  | rvs_limbo => "limbo"
  | rvs_recovery_required => "recovery_required"
  end.

Definition VisibilityDecisionName (d : VisibilityDecision) : string :=
  match d with
  | vd_visible => "visible"
  | vd_invisible => "invisible"
  | vd_wait_for_transaction => "wait_for_transaction"
  | vd_requires_recovery => "requires_recovery"
  | vd_unknown => "unknown"
  end.

Definition HotStableRowHeadDecisionName (d : HotStableRowHeadDecisionKind) : string :=
  match d with
  | hsd_refused => "refused"
  | hsd_page_local_hot => "page_local_hot"
  | hsd_stable_row_head_indirection => "stable_row_head_indirection"
  | hsd_ordinary_index_rewrite => "ordinary_index_rewrite"
  end.

Definition MakeRowVersionDiagnostic : Status -> string -> string -> string -> DiagnosticRecord :=
  MakeComponentDiagnostic "transaction.mga.row_version".

(** ** Observations *)

Definition row_error (code key detail : string) : MgaObservationStatus :=
  mkObservation MgaErrorStatus code key detail origin_row_version.

Definition ObserveRowIdentity (r : RowIdentity) : MgaObservationStatus :=
  if bool_decide (tu_kind (ri_row_uuid r) <> uk_row) || negb (typed_uuid_valid (ri_row_uuid r)) then
    row_error "SB-ROW-INVALID-ROW-UUID-KIND" "row_version.invalid_row_uuid_kind" ""
  else if negb (IsEngineIdentityUuid (tu_value (ri_row_uuid r))) then
    row_error "SB-ROW-ROW-UUID-MUST-BE-V7" "row_version.row_uuid_must_be_v7" ""
  else MgaObservationStatus_default.

Definition ObserveRowVersionIdentity (i : RowVersionIdentity) : MgaObservationStatus :=
  if negb (IsEngineIdentityUuid (rvi_version_uuid i)) ||
     bool_decide (rvi_version_uuid i = tu_value (ri_row_uuid (rvi_row i))) then
    row_error "CATALOG.INVALID_INPUT" "row_version.invalid_version_uuid" ""
  else
  let row := ObserveRowIdentity (rvi_row i) in
  if negb (obs_ok row) then row
  else
  let tx := ObserveTransactionIdentity (rvi_creator_transaction i) in
  if negb (obs_ok tx) then tx
  else if decide (rvi_version_sequence i = kInvalidRowVersionSequence) then
    row_error "SB-ROW-INVALID-VERSION-SEQUENCE" "row_version.invalid_version_sequence" ""
  else MgaObservationStatus_default.

Definition ObserveRowVersionMetadata (m : RowVersionMetadata) : MgaObservationStatus :=
  let identity := ObserveRowVersionIdentity (rvm_identity m) in
  if negb (obs_ok identity) then identity
  else if decide (rvm_state m = rvs_unknown) then
    row_error "SB-ROW-UNKNOWN-VERSION-STATE" "row_version.unknown_version_state" ""
  else if decide (rvm_creator_transaction_state m = ts_none \/
                  rvm_creator_transaction_state m = ts_archived) then
    row_error "SB-ROW-UNKNOWN-CREATOR-TRANSACTION-STATE"
      "row_version.unknown_creator_transaction_state" ""
  else if decide (rvm_payload_present m = false /\ rvm_state m <> rvs_delete_marker /\
                  rvm_state m <> rvs_rolled_back) then
    row_error "SB-ROW-MISSING-VERSION-PAYLOAD" "row_version.missing_version_payload"
      (RowVersionStateName (rvm_state m))
  else if decide (chain_has_previous (rvm_chain m) = true /\
                  rvi_version_sequence (rvm_identity m) <= ch_previous_version_sequence (rvm_chain m)) then
    row_error "SB-ROW-INVALID-PREVIOUS-VERSION-LINK" "row_version.invalid_previous_version_link" ""
  else if decide (chain_has_next (rvm_chain m) = true /\
                  ch_next_version_sequence (rvm_chain m) <= rvi_version_sequence (rvm_identity m)) then
    row_error "SB-ROW-INVALID-NEXT-VERSION-LINK" "row_version.invalid_next_version_link" ""
  else MgaObservationStatus_default.

Record VisibilityObservation := mkVisibilityObservation {
  vo_outcome : MgaObservationStatus; vo_decision : VisibilityDecision }.

Definition vo_ok (o : VisibilityObservation) : bool := obs_ok (vo_outcome o).

(** A refusal carried at warning severity. *)
Definition visibility_warning (d : VisibilityDecision) (code key detail : string)
    : VisibilityObservation :=
  mkVisibilityObservation
    (mkObservation (mkStatus sc_platform_required_feature_missing sev_warning sub_transaction_mga)
       code key detail origin_row_version) d.

Definition visibility_ok (d : VisibilityDecision) : VisibilityObservation :=
  mkVisibilityObservation MgaObservationStatus_default d.

(** The state a delete marker is judged by: its creator's. *)
Definition delete_effect_state (s : TransactionState) : option RowVersionState :=
  match s with
  | ts_committed => Some rvs_committed
  | ts_rolled_back | ts_failed_terminal => Some rvs_rolled_back
  | ts_prepared => Some rvs_prepared
  | ts_limbo => Some rvs_limbo
  | ts_recovering => Some rvs_recovery_required
  | ts_created | ts_active | ts_preparing | ts_committing | ts_rolling_back
  | ts_read_only_active => Some rvs_uncommitted
  | ts_none | ts_archived => None
  end.

(** The part of [Evaluate] after the state is settled. *)
Definition evaluate_state (m : RowVersionMetadata) (s : VisibilitySnapshot)
    (state : RowVersionState) : VisibilityObservation :=
  let creator := ti_local_id (rvi_creator_transaction (rvm_identity m)) in
  if decide (state = rvs_recovery_required \/ state = rvs_limbo) then
    visibility_warning vd_requires_recovery "SB-ROW-VISIBILITY-REQUIRES-RECOVERY"
      "row_version.visibility_requires_recovery" (RowVersionStateName (rvm_state m))
  else if decide (state = rvs_prepared \/ state = rvs_uncommitted) then
    if vs_allow_reader_own_uncommitted s && local_id_valid (vs_reader_transaction s) &&
       bool_decide (creator = vs_reader_transaction s)
    then visibility_ok vd_visible
    else visibility_warning vd_wait_for_transaction "SB-ROW-VISIBILITY-WAITS-FOR-TRANSACTION"
           "row_version.visibility_waits_for_transaction" (RowVersionStateName (rvm_state m))
  else if decide (state = rvs_rolled_back \/ state = rvs_delete_marker) then
    visibility_ok vd_invisible
  else if negb (bool_decide (state = rvs_committed) &&
                bool_decide (rvm_creator_transaction_state m = ts_committed)) then
    visibility_warning vd_wait_for_transaction "SB-ROW-CREATOR-NOT-COMMITTED"
      "row_version.creator_not_committed" (TransactionStateName (rvm_creator_transaction_state m))
  else if (vs_visible_through_local_transaction_id_is_boundary s ||
           bool_decide (vs_visible_through_local_transaction_id s <> kInvalidLocalTransactionId)) &&
          bool_decide (vs_visible_through_local_transaction_id s < creator) then
    visibility_ok vd_invisible
  else if vs_visible_through_commit_sequence_is_boundary s &&
          bool_decide (rvm_creator_commit_sequence m = 0) then
    mkVisibilityObservation
      (row_error "CATALOG.INVALID_INPUT" "row_version.creator_commit_sequence_missing" "")
      vd_unknown
  else if vs_visible_through_commit_sequence_is_boundary s &&
          bool_decide (vs_visible_through_commit_sequence s < rvm_creator_commit_sequence m) then
    visibility_ok vd_invisible
  else if decide (creator ∈ vs_active_excluded_local_transaction_ids s \/
                  creator ∈ vs_in_doubt_excluded_local_transaction_ids s) then
    visibility_ok vd_invisible
  else visibility_ok vd_visible.

(** [row_observation_detail::Evaluate] *)
Definition Evaluate (m : RowVersionMetadata) (s : VisibilitySnapshot)
    (delete_effect : bool) : VisibilityObservation :=
  let validated := ObserveRowVersionMetadata m in
  if negb (obs_ok validated) then mkVisibilityObservation validated vd_unknown
  else if delete_effect && bool_decide (rvm_state m = rvs_delete_marker) then
    match delete_effect_state (rvm_creator_transaction_state m) with
    | Some state => evaluate_state m s state
    | None =>
      mkVisibilityObservation
        (row_error "SB-ROW-UNKNOWN-CREATOR-TRANSACTION-STATE"
           "row_version.unknown_creator_transaction_state" "") vd_unknown
    end
  else evaluate_state m s (rvm_state m).

Definition ObserveVisibility (m : RowVersionMetadata) (s : VisibilitySnapshot) :=
  Evaluate m s false.
Definition ObserveVersionEffectVisibility (m : RowVersionMetadata) (s : VisibilitySnapshot) :=
  Evaluate m s true.

(** ** The materialised interface ([row_version.cpp]) *)

Definition ValidateRowIdentity (r : RowIdentity) : RowIdentityResult :=
  let observed := ObserveRowIdentity r in
  mkRowIdentityResult (obs_status observed) r (MaterializeMgaObservationDiagnostic observed).

Definition MakeRowIdentity (row_uuid : TypedUuid) : RowIdentityResult :=
  ValidateRowIdentity (mkRowIdentity row_uuid).

Definition ValidateRowVersionIdentity (i : RowVersionIdentity) : RowVersionIdentityResult :=
  let observed := ObserveRowVersionIdentity i in
  mkRowVersionIdentityResult (obs_status observed) i
    (MaterializeMgaObservationDiagnostic observed).

Definition MakeRowVersionIdentity (row : RowIdentity) (creator : TransactionIdentity)
    (version_sequence : N) (version_uuid : Uuid) : RowVersionIdentityResult :=
  ValidateRowVersionIdentity (mkRowVersionIdentity row creator version_sequence version_uuid).

Definition ValidateRowVersionMetadata (m : RowVersionMetadata) : RowVersionMetadataResult :=
  let observed := ObserveRowVersionMetadata m in
  mkRowVersionMetadataResult (obs_status observed) m
    (MaterializeMgaObservationDiagnostic observed).

Definition EvaluateVisibility (m : RowVersionMetadata) (s : VisibilitySnapshot) : VisibilityResult :=
  let observed := ObserveVisibility m s in
  mkVisibilityResult (obs_status (vo_outcome observed)) (vo_decision observed)
    (MaterializeMgaObservationDiagnostic (vo_outcome observed)).

Definition EvaluateVersionEffectVisibility (m : RowVersionMetadata) (s : VisibilitySnapshot)
    : VisibilityResult :=
  let observed := ObserveVersionEffectVisibility m s in
  mkVisibilityResult (obs_status (vo_outcome observed)) (vo_decision observed)
    (MaterializeMgaObservationDiagnostic (vo_outcome observed)).

(** ** Hot stable row head *)

Definition IsValidRowTypedUuid (t : TypedUuid) : bool :=
  bool_decide (tu_kind t = uk_row) && typed_uuid_valid t && IsEngineIdentityUuid (tu_value t).

Definition TypedUuidMatches (left right : TypedUuid) : bool :=
  bool_decide (tu_kind left = tu_kind right) && bool_decide (tu_value left = tu_value right).

Definition HotStableRowHeadRefusal (code key detail : string) : HotStableRowHeadDecisionResult :=
  mkHotResult MgaErrorStatus hsd_refused false
    (MakeRowVersionDiagnostic MgaErrorStatus code key detail).

Definition EvaluateHotStableRowHeadDecision (i : HotStableRowHeadProofInput)
    : HotStableRowHeadDecisionResult :=
  let old := hi_old_visible_version i in
  let new := hi_new_version i in
  if hi_parser_or_reference_authority i then
    HotStableRowHeadRefusal "SB-MGA-HOT-STABLE-HEAD-PARSER-REFERENCE-REFUSED"
      "row_version.hot_stable_head.parser_reference_refused" ""
  else if negb (hi_exact_index_keys_unchanged i) then
    mkHotResult MgaOkStatus hsd_ordinary_index_rewrite false DiagnosticRecord_default
  else if negb (IsValidRowTypedUuid (hi_old_version_uuid i)) then
    HotStableRowHeadRefusal "SB-MGA-HOT-STABLE-HEAD-OLD-VERSION-UUID-INVALID"
      "row_version.hot_stable_head.old_version_uuid_invalid" ""
  else if negb (IsValidRowTypedUuid (hi_new_previous_version_uuid i)) then
    HotStableRowHeadRefusal "SB-MGA-HOT-STABLE-HEAD-PREVIOUS-UUID-INVALID"
      "row_version.hot_stable_head.previous_uuid_invalid" ""
  else
  let old_metadata := ValidateRowVersionMetadata old in
  if negb (status_ok (rvmr_status old_metadata)) then
    HotStableRowHeadRefusal "SB-MGA-HOT-STABLE-HEAD-OLD-METADATA-INVALID"
      "row_version.hot_stable_head.old_metadata_invalid"
      (dr_diagnostic_code (rvmr_diagnostic old_metadata))
  else
  let new_metadata := ValidateRowVersionMetadata new in
  if negb (status_ok (rvmr_status new_metadata)) then
    HotStableRowHeadRefusal "SB-MGA-HOT-STABLE-HEAD-NEW-METADATA-INVALID"
      "row_version.hot_stable_head.new_metadata_invalid"
      (dr_diagnostic_code (rvmr_diagnostic new_metadata))
  else if decide (rvi_version_uuid (rvm_identity old) <> tu_value (hi_old_version_uuid i) \/
                  rvi_version_uuid (rvm_identity new) = rvi_version_uuid (rvm_identity old)) then
    HotStableRowHeadRefusal "CATALOG.INVALID_INPUT"
      "row_version.hot_stable_head.version_identity_mismatch" ""
  else if negb (TypedUuidMatches (ri_row_uuid (rvi_row (rvm_identity old)))
                                 (ri_row_uuid (rvi_row (rvm_identity new)))) then
    HotStableRowHeadRefusal "SB-MGA-HOT-STABLE-HEAD-ROW-UUID-CHANGED"
      "row_version.hot_stable_head.row_uuid_changed" ""
  else if negb (TypedUuidMatches (hi_old_version_uuid i) (hi_new_previous_version_uuid i)) then
    HotStableRowHeadRefusal "SB-MGA-HOT-STABLE-HEAD-PREVIOUS-UUID-MISMATCH"
      "row_version.hot_stable_head.previous_uuid_mismatch" ""
  else if decide (ch_previous_version_sequence (rvm_chain new) = kInvalidRowVersionSequence) then
    HotStableRowHeadRefusal "SB-MGA-HOT-STABLE-HEAD-PREVIOUS-SEQUENCE-MISSING"
      "row_version.hot_stable_head.previous_sequence_missing" ""
  else if decide (ch_previous_version_sequence (rvm_chain new) <>
                  rvi_version_sequence (rvm_identity old)) then
    HotStableRowHeadRefusal "SB-MGA-HOT-STABLE-HEAD-PREVIOUS-SEQUENCE-MISMATCH"
      "row_version.hot_stable_head.previous_sequence_mismatch" ""
  else if negb (TypedUuidMatches (ch_previous_version_uuid (rvm_chain new))
                                 (hi_old_version_uuid i)) then
    HotStableRowHeadRefusal "SB-MGA-HOT-STABLE-HEAD-CHAIN-PREVIOUS-UUID-MISMATCH"
      "row_version.hot_stable_head.chain_previous_uuid_mismatch" ""
  else if decide (ti_local_id (rvi_creator_transaction (rvm_identity new)) <>
                  vs_reader_transaction (hi_visibility_snapshot i)) then
    HotStableRowHeadRefusal "SB-MGA-HOT-STABLE-HEAD-CREATOR-NOT-READER"
      "row_version.hot_stable_head.creator_not_reader" ""
  else if decide (rvm_creator_transaction_state new <> ts_active \/
                  rvm_state new <> rvs_uncommitted) then
    HotStableRowHeadRefusal "SB-MGA-HOT-STABLE-HEAD-CREATOR-NOT-ACTIVE"
      "row_version.hot_stable_head.creator_not_active"
      (TransactionStateName (rvm_creator_transaction_state new))
  else
  let old_visibility := EvaluateVisibility old (hi_visibility_snapshot i) in
  if negb (status_ok (vr_status old_visibility)) ||
     bool_decide (vr_decision old_visibility <> vd_visible) then
    HotStableRowHeadRefusal "SB-MGA-HOT-STABLE-HEAD-OLD-VISIBILITY-REFUSED"
      "row_version.hot_stable_head.old_visibility_refused"
      (VisibilityDecisionName (vr_decision old_visibility))
  else
  let new_visibility := EvaluateVisibility new (hi_visibility_snapshot i) in
  if negb (status_ok (vr_status new_visibility)) ||
     bool_decide (vr_decision new_visibility <> vd_visible) then
    HotStableRowHeadRefusal "SB-MGA-HOT-STABLE-HEAD-NEW-VISIBILITY-REFUSED"
      "row_version.hot_stable_head.new_visibility_refused"
      (VisibilityDecisionName (vr_decision new_visibility))
  else
    mkHotResult MgaOkStatus
      (if hi_same_page_budget_available i then hsd_page_local_hot
       else hsd_stable_row_head_indirection) true DiagnosticRecord_default.

#[global] Arguments ObserveRowVersionMetadata : simpl never.
#[global] Arguments evaluate_state : simpl never.

(** ** What visibility means *)

Definition creator_id (m : RowVersionMetadata) : N :=
  ti_local_id (rvi_creator_transaction (rvm_identity m)).

Definition own_version (m : RowVersionMetadata) (s : VisibilitySnapshot) : Prop :=
  vs_allow_reader_own_uncommitted s = true /\ vs_reader_transaction s <> 0 /\
  creator_id m = vs_reader_transaction s.

(** A committed creator the snapshot has not excluded. *)
Definition within_snapshot (m : RowVersionMetadata) (s : VisibilitySnapshot) : Prop :=
  ((vs_visible_through_local_transaction_id_is_boundary s = true \/
    vs_visible_through_local_transaction_id s <> 0) ->
   creator_id m <= vs_visible_through_local_transaction_id s) /\
  (vs_visible_through_commit_sequence_is_boundary s = true ->
   0 < rvm_creator_commit_sequence m <= vs_visible_through_commit_sequence s) /\
  (creator_id m ∉ vs_active_excluded_local_transaction_ids s) /\
  (creator_id m ∉ vs_in_doubt_excluded_local_transaction_ids s).

Lemma evaluate_state_visible m s state :
  vo_decision (evaluate_state m s state) = vd_visible <->
  ((state = rvs_prepared \/ state = rvs_uncommitted) /\ own_version m s) \/
  (state = rvs_committed /\ rvm_creator_transaction_state m = ts_committed /\ within_snapshot m s).
Proof.
  unfold evaluate_state, own_version, within_snapshot, creator_id, local_id_valid,
    kInvalidLocalTransactionId.
  destruct state; simpl; try (split; [done|naive_solver]).
  - destruct (vs_allow_reader_own_uncommitted s); simpl; [|split; [done|naive_solver]].
    repeat case_bool_decide; simpl; naive_solver.
  - destruct (vs_allow_reader_own_uncommitted s); simpl; [|split; [done|naive_solver]].
    repeat case_bool_decide; simpl; naive_solver.
  - destruct (vs_visible_through_local_transaction_id_is_boundary s) eqn:H1,
      (vs_visible_through_commit_sequence_is_boundary s) eqn:H2;
      repeat case_bool_decide; repeat case_decide; simpl;
      (split; [intros; try done; right; split_and!; try done; naive_solver lia
              |intros [[[?|?] _]|(_ & ? & Hl & Hc & Ha & Hd)]; try done;
               try specialize (Hc eq_refl); try specialize (Hl (or_introl eq_refl)); naive_solver lia]).
Qed.

(** What [ObserveRowVersionMetadata] demands, read declaratively. *)
Record metadata_ok (m : RowVersionMetadata) : Prop := {
  mo_version_uuid : IsEngineIdentityUuid (rvi_version_uuid (rvm_identity m)) = true;
  mo_version_not_row : rvi_version_uuid (rvm_identity m) <>
    tu_value (ri_row_uuid (rvi_row (rvm_identity m)));
  mo_row : row_identity_valid (rvi_row (rvm_identity m)) = true;
  mo_row_engine : IsEngineIdentityUuid (tu_value (ri_row_uuid (rvi_row (rvm_identity m)))) = true;
  mo_creator : transaction_identity_valid (rvi_creator_transaction (rvm_identity m)) = true;
  mo_creator_engine : IsEngineIdentityUuid
    (tu_value (ti_transaction_uuid (rvi_creator_transaction (rvm_identity m)))) = true;
  mo_sequence : rvi_version_sequence (rvm_identity m) <> 0;
  mo_state : rvm_state m <> rvs_unknown;
  mo_creator_state : (rvm_creator_transaction_state m ∉ [ts_none; ts_archived]);
  mo_payload : rvm_payload_present m = true \/ rvm_state m ∈ [rvs_delete_marker; rvs_rolled_back];
  mo_previous : ch_previous_version_sequence (rvm_chain m) <> 0 ->
    ch_previous_version_sequence (rvm_chain m) < rvi_version_sequence (rvm_identity m);
  mo_next : ch_next_version_sequence (rvm_chain m) <> 0 ->
    rvi_version_sequence (rvm_identity m) < ch_next_version_sequence (rvm_chain m) }.

Lemma observe_row_identity_ok r :
  obs_ok (ObserveRowIdentity r) = true <->
  row_identity_valid r = true /\ IsEngineIdentityUuid (tu_value (ri_row_uuid r)) = true.
Proof.
  unfold ObserveRowIdentity, row_identity_valid.
  destruct (typed_uuid_valid _), (IsEngineIdentityUuid _); repeat case_bool_decide; naive_solver.
Qed.

Lemma observe_version_identity_ok i :
  obs_ok (ObserveRowVersionIdentity i) = true <->
  IsEngineIdentityUuid (rvi_version_uuid i) = true /\
  rvi_version_uuid i <> tu_value (ri_row_uuid (rvi_row i)) /\
  obs_ok (ObserveRowIdentity (rvi_row i)) = true /\
  obs_ok (ObserveTransactionIdentity (rvi_creator_transaction i)) = true /\
  rvi_version_sequence i <> 0.
Proof.
  unfold ObserveRowVersionIdentity, kInvalidRowVersionSequence.
  destruct (IsEngineIdentityUuid _); simpl; [|naive_solver].
  case_bool_decide; [naive_solver|].
  destruct (obs_ok (ObserveRowIdentity _)) eqn:Hr; simpl; [|rewrite Hr; naive_solver].
  destruct (obs_ok (ObserveTransactionIdentity _)) eqn:Ht; simpl; [|rewrite Ht; naive_solver].
  case_decide; simpl; naive_solver.
Qed.

Lemma observe_metadata_ok m : obs_ok (ObserveRowVersionMetadata m) = true <-> metadata_ok m.
Proof.
  unfold ObserveRowVersionMetadata.
  destruct (obs_ok (ObserveRowVersionIdentity (rvm_identity m))) eqn:Hi; simpl; rewrite ?Hi.
  - apply observe_version_identity_ok in Hi as
      (? & ? & [? ?]%observe_row_identity_ok & [? ?]%observe_identity_ok & ?).
    unfold chain_has_previous, chain_has_next, kInvalidRowVersionSequence. split.
    + intros Hobs. repeat (case_decide; [discriminate Hobs|]). split; try done.
      * set_solver.
      * destruct (rvm_payload_present m); [by left|right].
        destruct (decide (rvm_state m ∈ [rvs_delete_marker; rvs_rolled_back])); [done|set_solver].
      * intros Hp. rewrite bool_decide_eq_true_2 in * by done. naive_solver lia.
      * intros Hp. rewrite bool_decide_eq_true_2 in * by done. naive_solver lia.
    + intros [_ _ _ _ _ _ _ Hs Hc Hp Hprev Hnext].
      rewrite decide_False by done.
      rewrite decide_False by (intros [Hx|Hx]; apply Hc; rewrite Hx; set_solver).
      rewrite decide_False.
      2: { intros (Hp0 & Hp1 & Hp2). destruct Hp as [Hp|Hp]; [congruence|].
           rewrite !elem_of_cons in Hp. destruct Hp as [?|[?|?%elem_of_nil]]; done. }
      rewrite !decide_False; [done| |];
        rewrite bool_decide_eq_true; intros [Hx ?]; first [specialize (Hprev Hx)|specialize (Hnext Hx)]; lia.
  - split; [done|]. intros [? ? ? ? ? ? ? _ _ _ _ _]. exfalso.
    apply not_true_iff_false in Hi. apply Hi. apply observe_version_identity_ok.
    rewrite observe_row_identity_ok, observe_identity_ok. done.
Qed.

Lemma evaluate_state_visible_ok m s state :
  vo_decision (evaluate_state m s state) = vd_visible -> vo_ok (evaluate_state m s state) = true.
Proof. unfold evaluate_state. repeat case_match; done. Qed.

Lemma evaluate_visibility_visible m s :
  vr_decision (EvaluateVisibility m s) = vd_visible <->
  metadata_ok m /\ vo_decision (evaluate_state m s (rvm_state m)) = vd_visible.
Proof.
  unfold EvaluateVisibility, ObserveVisibility, Evaluate. simpl. rewrite <- observe_metadata_ok.
  destruct (obs_ok (ObserveRowVersionMetadata m)); simpl; naive_solver.
Qed.

Lemma effect_visibility_visible m s :
  rvm_state m = rvs_delete_marker ->
  vr_decision (EvaluateVersionEffectVisibility m s) = vd_visible <->
  metadata_ok m /\ exists state,
    delete_effect_state (rvm_creator_transaction_state m) = Some state /\
    vo_decision (evaluate_state m s state) = vd_visible.
Proof.
  intros Hd. unfold EvaluateVersionEffectVisibility, ObserveVersionEffectVisibility, Evaluate. simpl.
  rewrite <- observe_metadata_ok, Hd.
  destruct (obs_ok (ObserveRowVersionMetadata m)); simpl; [|naive_solver].
  destruct (delete_effect_state _); naive_solver.
Qed.
