(* ===== verification/Snapshot.v ===== *)
(** * Transaction snapshots and the published snapshot registry

    Models [transaction_snapshot.{hpp,cpp}]: the visibility snapshot of a reader,
    the statement-stable snapshot descriptors published in a process-wide
    registry, and the pins that retain them.

    The registry is a [std::map] from identity bytes to shared objects that the
    registry and the pins alias; it is modelled with an explicit store
    ([snapshot_world]): objects by address, the registry from key to address, and
    live leases from lease number to address.  Every function body runs under the
    registry mutex, so each is one step of the world.  An object that lost its
    last owner stays in the store, unreachable. *)

From S2P Require Import Prelude Platform Uuid TransactionState Inventory Horizon RowVersion.

(** ** Data *)

Record LocalTransactionSnapshot := mkLocalSnapshot {
  ls_reader_transaction : LocalTransactionId;
  ls_visible_through_local_transaction : LocalTransactionId;
  ls_transaction_start_visible_through_local_transaction : LocalTransactionId;
  ls_oldest_active_transaction : LocalTransactionId;
  ls_oldest_snapshot_transaction : LocalTransactionId;
  ls_allow_reader_own_uncommitted : bool;
  ls_visible_through_commit_sequence : N;
  ls_transaction_start_visible_through_commit_sequence : N }.

Definition LocalTransactionSnapshot_default : LocalTransactionSnapshot :=
  mkLocalSnapshot 0 0 0 0 0 true 0 0.

Record TransactionSnapshotResult := mkSnapshotResult {
  tsr_status : Status;
  tsr_snapshot : LocalTransactionSnapshot;
  tsr_visibility_snapshot : VisibilitySnapshot;
  tsr_diagnostic : DiagnosticRecord }.

Definition tsr_ok (r : TransactionSnapshotResult) : bool :=
  status_ok (tsr_status r) && local_id_valid (ls_reader_transaction (tsr_snapshot r)).

Inductive SnapshotVectorKind := svk_unknown | svk_statement_stable.

#[export] Instance SnapshotVectorKind_eq_dec : EqDecision SnapshotVectorKind.
Proof. solve_decision. Defined.

Record SnapshotVectorDescriptor := mkDescriptor {
  sd_snapshot_uuid : TypedUuid;
  sd_owning_transaction_uuid : TypedUuid;
  sd_owning_transaction : LocalTransactionId;
  sd_visible_committed_high_watermark : N;
  sd_oldest_active_transaction : LocalTransactionId;
  sd_oldest_interesting_transaction : LocalTransactionId;
  sd_oldest_snapshot_transaction : LocalTransactionId;
  sd_retention_horizon_transaction : LocalTransactionId;
  sd_active_excluded_local_transaction_ids : list N;
  sd_in_doubt_excluded_local_transaction_ids : list N;
  sd_snapshot_kind : SnapshotVectorKind;
  sd_publication_inventory_next_local_transaction_id : N;
  sd_inventory_authoritative : bool;
  sd_complete : bool }.

Definition SnapshotVectorDescriptor_default : SnapshotVectorDescriptor :=
  mkDescriptor TypedUuid_default TypedUuid_default 0 kInvalidLocalTransactionId 0 0 0 0 [] []
    svk_unknown 0 false false.

Record SnapshotVectorResult := mkVectorResult {
  svr_status : Status;
  svr_descriptor : SnapshotVectorDescriptor;
  svr_diagnostic : DiagnosticRecord }.

Definition svr_ok (r : SnapshotVectorResult) : bool :=
  status_ok (svr_status r) && sd_complete (svr_descriptor r) &&
  sd_inventory_authoritative (svr_descriptor r) &&
  typed_uuid_valid (sd_snapshot_uuid (svr_descriptor r)).

Inductive PublishedSnapshotObservationError :=
| psoe_none | psoe_unknown | psoe_revoked | psoe_lock_failure.

(** [descriptor] is a pointer into the shared object or null. *)
Record PublishedSnapshotObservation := mkPsObservation {
  pso_error : PublishedSnapshotObservationError;
  pso_descriptor : option SnapshotVectorDescriptor }.

Definition pso_ok (o : PublishedSnapshotObservation) : bool :=
  match pso_error o, pso_descriptor o with psoe_none, Some _ => true | _, _ => false end.

Record PublishedSnapshotHorizonResult := mkPsHorizons {
  phr_status : Status;
  phr_horizons : list LocalTransactionId;
  phr_diagnostic : DiagnosticRecord }.

Definition phr_ok (r : PublishedSnapshotHorizonResult) : bool := status_ok (phr_status r).

(** The shared object behind a registry slot and its leases. *)
Record PublishedSnapshotVector := mkPublished {
  pv_descriptor : SnapshotVectorDescriptor;
  pv_revoked : bool;
  pv_publication_released : bool;
  pv_pins : N }.

Definition set_revoked (o : PublishedSnapshotVector) :=
  mkPublished (pv_descriptor o) true (pv_publication_released o) (pv_pins o).
Definition set_released (o : PublishedSnapshotVector) :=
  mkPublished (pv_descriptor o) (pv_revoked o) true (pv_pins o).
Definition set_pins (n : N) (o : PublishedSnapshotVector) :=
  mkPublished (pv_descriptor o) (pv_revoked o) (pv_publication_released o) n.

Record snapshot_world := mkWorld {
  w_objects : gmap N PublishedSnapshotVector;
  w_registry : gmap (list N) N;
  w_leases : gmap N N;
  w_next_object : N;
  w_next_lease : N }.

Definition empty_world : snapshot_world := mkWorld ∅ ∅ ∅ 0 0.

Definition set_object (a : N) (o : PublishedSnapshotVector) (w : snapshot_world) :=
  mkWorld (<[a := o]> (w_objects w)) (w_registry w) (w_leases w) (w_next_object w) (w_next_lease w).
Definition erase_key (key : list N) (w : snapshot_world) :=
  mkWorld (w_objects w) (delete key (w_registry w)) (w_leases w) (w_next_object w) (w_next_lease w).

(** [SnapshotVectorRegistry().find(key)] followed to the shared object. *)
Definition find_published (w : snapshot_world) (key : list N) : option (N * PublishedSnapshotVector) :=
  match w_registry w !! key with
  | Some a => match w_objects w !! a with Some o => Some (a, o) | None => None end
  | None => None
  end.

(** Map iteration order: canonical byte order of the keys. *)
Definition key_le (x y : list N * N) : Prop := (memcmp x.1 y.1 <= 0)%Z.
#[export] Instance key_le_dec : RelDecision key_le.
Proof. intros x y. unfold key_le. apply _. Defined.

Definition registry_in_order (w : snapshot_world) : list (list N * N) :=
  merge_sort key_le (map_to_list (w_registry w)).

(** ** Local helpers of the file *)

Definition MakeTransactionSnapshotDiagnostic : Status -> string -> string -> string -> DiagnosticRecord :=
  MakeComponentDiagnostic "transaction.mga.snapshot".

Definition SnapshotVectorError (diagnostic_code message_key detail : string) : SnapshotVectorResult :=
  mkVectorResult MgaErrorStatus SnapshotVectorDescriptor_default
    (MakeTransactionSnapshotDiagnostic MgaErrorStatus diagnostic_code message_key detail).

Definition IsSnapshotOwnerEligible (s : TransactionState) : bool :=
  bool_decide (s = ts_active) || bool_decide (s = ts_read_only_active).

Definition IsActiveSnapshotExclusion (s : TransactionState) : bool :=
  bool_decide (s = ts_active) || bool_decide (s = ts_read_only_active).

Definition IsInDoubtSnapshotExclusion (s : TransactionState) : bool :=
  bool_decide (s = ts_created) || bool_decide (s = ts_preparing) || bool_decide (s = ts_prepared) ||
  bool_decide (s = ts_committing) || bool_decide (s = ts_rolling_back) ||
  bool_decide (s = ts_limbo) || bool_decide (s = ts_recovering).

Fixpoint is_sorted (l : list N) : bool :=
  match l with
  | x :: (y :: _) as l' => (x <=? y) && is_sorted l'
  | _ => true
  end.

(** [std::adjacent_find(...) == end()] *)
Fixpoint no_adjacent_equal (l : list N) : bool :=
  match l with
  | x :: (y :: _) as l' => negb (x =? y) && no_adjacent_equal l'
  | _ => true
  end.

Definition IsCanonicalExclusionVector (values : list N) (publication_ceiling : N) : bool :=
  is_sorted values && no_adjacent_equal values &&
  forallb (fun value => negb (value =? kInvalidLocalTransactionId) &&
                        (value <=? publication_ceiling)) values.

Definition SnapshotRetentionBoundary (d : SnapshotVectorDescriptor) : N :=
  let boundary := N.min (sd_oldest_interesting_transaction d) (sd_owning_transaction d) in
  let boundary := min_over boundary (sd_active_excluded_local_transaction_ids d) in
  min_over boundary (sd_in_doubt_excluded_local_transaction_ids d).

(** [std::binary_search] and [std::set_intersection] run after both vectors
    passed the canonical test, where they are membership and intersection. *)
Definition SnapshotVectorStructurallyComplete (d : SnapshotVectorDescriptor) : bool :=
  let next := sd_publication_inventory_next_local_transaction_id d in
  if negb (typed_uuid_valid (sd_snapshot_uuid d)) ||
     bool_decide (tu_kind (sd_snapshot_uuid d) <> uk_object) ||
     bool_decide (UuidVersion (tu_value (sd_snapshot_uuid d)) <> 7) ||
     negb (typed_uuid_valid (sd_owning_transaction_uuid d)) ||
     bool_decide (tu_kind (sd_owning_transaction_uuid d) <> uk_transaction) ||
     bool_decide (UuidVersion (tu_value (sd_owning_transaction_uuid d)) <> 7) ||
     negb (local_id_valid (sd_owning_transaction d)) ||
     bool_decide (sd_snapshot_kind d <> svk_statement_stable) ||
     bool_decide (next = 0) ||
     bool_decide (next <= sd_visible_committed_high_watermark d) ||
     bool_decide (next <= sd_owning_transaction d) ||
     negb (local_id_valid (sd_oldest_active_transaction d)) ||
     negb (local_id_valid (sd_oldest_interesting_transaction d)) ||
     negb (local_id_valid (sd_oldest_snapshot_transaction d)) ||
     negb (local_id_valid (sd_retention_horizon_transaction d)) ||
     negb (sd_inventory_authoritative d) || negb (sd_complete d) ||
     bool_decide (next <= sd_oldest_active_transaction d) ||
     bool_decide (next <= sd_oldest_interesting_transaction d) ||
     bool_decide (next <= sd_oldest_snapshot_transaction d) ||
     bool_decide (next <= sd_retention_horizon_transaction d) ||
     bool_decide (sd_oldest_snapshot_transaction d <> sd_retention_horizon_transaction d) ||
     bool_decide (sd_oldest_snapshot_transaction d <> SnapshotRetentionBoundary d) ||
     negb (IsCanonicalExclusionVector (sd_active_excluded_local_transaction_ids d) (u64_sub next 1)) ||
     negb (IsCanonicalExclusionVector (sd_in_doubt_excluded_local_transaction_ids d) (u64_sub next 1)) ||
     negb (bool_decide (sd_owning_transaction d ∈ sd_active_excluded_local_transaction_ids d))
  then false
  else
    match filter (fun x => x ∈ sd_in_doubt_excluded_local_transaction_ids d)
            (sd_active_excluded_local_transaction_ids d) with
    | [] => true
    | _ => false
    end.

(** ** Pins *)

(** The lease handed out is its number; no lease is the empty pin. *)
Definition RetainPublishedSnapshotVector (w : snapshot_world) (snapshot_uuid : TypedUuid)
    : snapshot_world * option N :=
  if negb (typed_uuid_valid snapshot_uuid) || bool_decide (tu_kind snapshot_uuid <> uk_object)
  then (w, None)
  else match find_published w (uuid_bytes (tu_value snapshot_uuid)) with
  | None => (w, None)
  | Some (a, o) =>
    if pv_revoked o || pv_publication_released o || bool_decide (pv_pins o = u64_max) ||
       negb (SnapshotVectorStructurallyComplete (pv_descriptor o))
    then (w, None)
    else
      let lease := w_next_lease w in
      (mkWorld (<[a := set_pins (u64_add (pv_pins o) 1) o]> (w_objects w)) (w_registry w)
         (<[lease := a]> (w_leases w)) (w_next_object w) (lease + 1), Some lease)
  end.

(** The object a live lease owns. *)
Definition leased_object (w : snapshot_world) (lease : N) : option (N * PublishedSnapshotVector) :=
  match w_leases w !! lease with
  | Some a => match w_objects w !! a with Some o => Some (a, o) | None => None end
  | None => None
  end.

(** [~Lease], run by [PublishedSnapshotPin::Release] and the pin's destructor. *)
Definition destroy_lease (w : snapshot_world) (lease : N) : snapshot_world :=
  match leased_object w lease with
  | None => w
  | Some (a, o) =>
    let o := set_pins (u64_sub (pv_pins o) 1) o in
    let w := mkWorld (<[a := o]> (w_objects w)) (w_registry w) (delete lease (w_leases w))
               (w_next_object w) (w_next_lease w) in
    if pv_publication_released o && bool_decide (pv_pins o = 0)
    then erase_key (uuid_bytes (tu_value (sd_snapshot_uuid (pv_descriptor o)))) w
    else w
  end.

Definition pin_Release (w : snapshot_world) (pin : option N) : snapshot_world :=
  match pin with Some lease => destroy_lease w lease | None => w end.

Definition pin_Resolve (w : snapshot_world) (pin : option N) : SnapshotVectorResult :=
  match pin with
  | None => SnapshotVectorError "SB-MGA-SNAPSHOT-VECTOR-UNKNOWN" "transaction.snapshot_vector.unknown" ""
  | Some lease =>
    match leased_object w lease with
    | None => SnapshotVectorError "SB-MGA-SNAPSHOT-VECTOR-UNKNOWN" "transaction.snapshot_vector.unknown" ""
    | Some (_, o) =>
      if pv_revoked o then
        SnapshotVectorError "SB-MGA-SNAPSHOT-VECTOR-REVOKED" "transaction.snapshot_vector.revoked" ""
      else mkVectorResult MgaOkStatus (pv_descriptor o) DiagnosticRecord_default
    end
  end.

(** [lock_acquired] tells whether taking the mutex threw. *)
Definition pin_Observe (w : snapshot_world) (pin : option N) (lock_acquired : bool)
    : PublishedSnapshotObservation :=
  match pin with
  | None => mkPsObservation psoe_unknown None
  | Some lease =>
    if negb lock_acquired then mkPsObservation psoe_lock_failure None
    else match leased_object w lease with
    | None => mkPsObservation psoe_unknown None
    | Some (_, o) =>
      if pv_revoked o then mkPsObservation psoe_revoked None
      else mkPsObservation psoe_none (Some (pv_descriptor o))
    end
  end.

Definition ReleasePublishedSnapshotVector (w : snapshot_world) (snapshot_uuid : TypedUuid)
    : snapshot_world :=
  if negb (typed_uuid_valid snapshot_uuid) || bool_decide (tu_kind snapshot_uuid <> uk_object) then w
  else
  let key := uuid_bytes (tu_value snapshot_uuid) in
  match find_published w key with
  | None => w
  | Some (a, o) =>
    let w := set_object a (set_released o) w in
    if decide (pv_pins o = 0) then erase_key key w else w
  end.

(** ** Retention horizons *)

Definition owner_in_inventory (inv : LocalTransactionInventory) (d : SnapshotVectorDescriptor) : bool :=
  existsb (fun e => bool_decide (e_local_id e = sd_owning_transaction d) &&
                    bool_decide (tu_kind (ti_transaction_uuid (e_identity e)) = uk_transaction) &&
                    bool_decide (e_uuid e = tu_value (sd_owning_transaction_uuid d)))
    (inv_entries inv).

(** The loop over the registry; [inl] is the stale early return. *)
Fixpoint collect_horizons (w : snapshot_world) (inv : LocalTransactionInventory)
    (slots : list (list N * N)) : SnapshotVectorResult + list LocalTransactionId :=
  match slots with
  | [] => inr []
  | (_, a) :: slots =>
    match w_objects w !! a with
    | None => collect_horizons w inv slots
    | Some o =>
      let d := pv_descriptor o in
      if pv_revoked o then collect_horizons w inv slots
      else if negb (owner_in_inventory inv d) then collect_horizons w inv slots
      else if decide (inv_next_local_transaction_id inv <
                      sd_publication_inventory_next_local_transaction_id d) then
        inl (SnapshotVectorError "SB-MGA-SNAPSHOT-VECTOR-STALE"
               "transaction.snapshot_vector.stale_inventory_generation" "")
      else match collect_horizons w inv slots with
           | inl e => inl e
           | inr hs => inr (sd_retention_horizon_transaction d :: hs)
           end
    end
  end.

Definition PublishedSnapshotRetentionHorizons (w : snapshot_world) (inv : LocalTransactionInventory)
    : PublishedSnapshotHorizonResult :=
  let reason := ValidateLocalTransactionInventoryStructure inv in
  if decide (reason <> ""%string) then
    let invalid := SnapshotVectorError "SB-MGA-SNAPSHOT-VECTOR-INVENTORY-INVALID"
                     "transaction.snapshot_vector.inventory_invalid" reason in
    mkPsHorizons (svr_status invalid) [] (svr_diagnostic invalid)
  else match collect_horizons w inv (registry_in_order w) with
  | inl stale => mkPsHorizons (svr_status stale) [] (svr_diagnostic stale)
  | inr horizons => mkPsHorizons MgaOkStatus horizons DiagnosticRecord_default
  end.

(** ** A reader's snapshot *)

Definition supported_reader_state (s : TransactionState) : bool :=
  bool_decide (s ∈ [ts_active; ts_read_only_active; ts_preparing; ts_prepared]).

Definition commit_boundary (inv : LocalTransactionInventory) (reader : TransactionInventoryEntry) : N :=
  if e_stable_snapshot reader then e_begin_visible_through_commit_sequence reader
  else u64_sub (inv_next_commit_sequence inv) 1.

Definition visible_high_watermark (inv : LocalTransactionInventory) (boundary : N) : N :=
  foldl (fun acc e => if HasCommittedInventoryOutcome e && (e_commit_sequence e <=? boundary)
                      then N.max acc (e_local_id e) else acc)
    kInvalidLocalTransactionId (inv_entries inv).

(** The two arms of the exclusion loop. *)
Definition excluded_active (boundary : N) (e : TransactionInventoryEntry) : bool :=
  IsActiveSnapshotExclusion (e_state e) ||
  (HasCommittedInventoryOutcome e && (boundary <? e_commit_sequence e)).
Definition excluded_in_doubt (boundary : N) (e : TransactionInventoryEntry) : bool :=
  negb (excluded_active boundary e) && IsInDoubtSnapshotExclusion (e_state e).

Definition sorted_ids (p : TransactionInventoryEntry -> bool) (inv : LocalTransactionInventory) : list N :=
  merge_sort N.le (e_local_id <$> filter (fun e => p e = true) (inv_entries inv)).

Definition CreateLocalTransactionSnapshot (inv : LocalTransactionInventory)
    (reader_transaction : LocalTransactionId) : TransactionSnapshotResult :=
  let fail status diagnostic :=
    mkSnapshotResult status LocalTransactionSnapshot_default VisibilitySnapshot_default diagnostic in
  let reason := ValidateLocalTransactionInventoryStructure inv in
  if decide (reason <> ""%string) then
    let invalid := SnapshotVectorError "SB-MGA-SNAPSHOT-VECTOR-INVENTORY-INVALID"
                     "transaction.snapshot_vector.inventory_invalid" reason in
    fail (svr_status invalid) (svr_diagnostic invalid)
  else
  let lookup := LookupLocalTransaction inv reader_transaction in
  if negb (lr_ok lookup) then fail (lr_status lookup) (lr_diagnostic lookup)
  else
  let entry := lr_entry lookup in
  if negb (supported_reader_state (e_state entry)) then
    fail MgaErrorStatus
      (MakeTransactionSnapshotDiagnostic MgaErrorStatus "SB-TXN-SNAPSHOT-UNSUPPORTED-STATE"
         "transaction.snapshot.unsupported_state" (TransactionStateName (e_state entry)))
  else
  let horizons := ComputeLocalTransactionHorizons inv in
  if negb (hres_ok horizons) then fail (hres_status horizons) (hres_diagnostic horizons)
  else
  let boundary := commit_boundary inv entry in
  let high := visible_high_watermark inv boundary in
  mkSnapshotResult MgaOkStatus
    (mkLocalSnapshot reader_transaction (MakeLocalTransactionId high)
       (MakeLocalTransactionId (e_begin_visible_through_local_transaction_id entry))
       (h_oldest_active_transaction (hres_horizons horizons))
       (h_oldest_snapshot_transaction (hres_horizons horizons)) true boundary
       (e_begin_visible_through_commit_sequence entry))
    (mkVisibilitySnapshot reader_transaction high true true false
       (sorted_ids (excluded_active boundary) inv) (sorted_ids (excluded_in_doubt boundary) inv)
       boundary true)
    DiagnosticRecord_default.

Definition SnapshotVectorKindName (k : SnapshotVectorKind) : string :=
  match k with svk_statement_stable => "statement_stable" | svk_unknown => "unknown" end.

(** Field by field, as the source compares. *)
Definition SnapshotVectorDescriptorEqual (l r : SnapshotVectorDescriptor) : bool :=
  bool_decide (tu_kind (sd_snapshot_uuid l) = tu_kind (sd_snapshot_uuid r)) &&
  bool_decide (tu_value (sd_snapshot_uuid l) = tu_value (sd_snapshot_uuid r)) &&
  bool_decide (tu_kind (sd_owning_transaction_uuid l) = tu_kind (sd_owning_transaction_uuid r)) &&
  bool_decide (tu_value (sd_owning_transaction_uuid l) = tu_value (sd_owning_transaction_uuid r)) &&
  bool_decide ((sd_owning_transaction l : N) = sd_owning_transaction r) &&
  bool_decide (sd_visible_committed_high_watermark l = sd_visible_committed_high_watermark r) &&
  bool_decide ((sd_oldest_active_transaction l : N) = sd_oldest_active_transaction r) &&
  bool_decide ((sd_oldest_interesting_transaction l : N) = sd_oldest_interesting_transaction r) &&
  bool_decide ((sd_oldest_snapshot_transaction l : N) = sd_oldest_snapshot_transaction r) &&
  bool_decide ((sd_retention_horizon_transaction l : N) = sd_retention_horizon_transaction r) &&
  bool_decide (sd_active_excluded_local_transaction_ids l = sd_active_excluded_local_transaction_ids r) &&
  bool_decide (sd_in_doubt_excluded_local_transaction_ids l =
               sd_in_doubt_excluded_local_transaction_ids r) &&
  bool_decide (sd_snapshot_kind l = sd_snapshot_kind r) &&
  bool_decide (sd_publication_inventory_next_local_transaction_id l =
               sd_publication_inventory_next_local_transaction_id r) &&
  bool_decide (sd_inventory_authoritative l = sd_inventory_authoritative r) &&
  bool_decide (sd_complete l = sd_complete r).

(** ** Publication *)

Definition kGenerationAttempts : nat := 32.

Definition with_publication (uuid : TypedUuid) (d : SnapshotVectorDescriptor) :=
  mkDescriptor uuid (sd_owning_transaction_uuid d) (sd_owning_transaction d)
    (sd_visible_committed_high_watermark d) (sd_oldest_active_transaction d)
    (sd_oldest_interesting_transaction d) (sd_oldest_snapshot_transaction d)
    (sd_retention_horizon_transaction d) (sd_active_excluded_local_transaction_ids d)
    (sd_in_doubt_excluded_local_transaction_ids d) (sd_snapshot_kind d)
    (sd_publication_inventory_next_local_transaction_id d) true true.

(** The descriptor as filled in before an identity is drawn. *)
Definition draft_descriptor (inv : LocalTransactionInventory) (owner : TransactionInventoryEntry)
    (owning_transaction : LocalTransactionId) (established : TransactionSnapshotResult)
    (horizons : LocalTransactionHorizons) : SnapshotVectorDescriptor :=
  let fill boundary :=
    mkDescriptor TypedUuid_default (ti_transaction_uuid (e_identity owner)) owning_transaction
      (ls_visible_through_local_transaction (tsr_snapshot established))
      (ls_oldest_active_transaction (tsr_snapshot established))
      (h_oldest_interesting_transaction horizons) boundary boundary
      (vs_active_excluded_local_transaction_ids (tsr_visibility_snapshot established))
      (vs_in_doubt_excluded_local_transaction_ids (tsr_visibility_snapshot established))
      svk_statement_stable (inv_next_local_transaction_id inv) false false in
  fill (SnapshotRetentionBoundary (fill 0)).

(** The generation loop: [n] attempts left, [attempt] made; [entropy attempt] is
    what the random source delivers then. *)
Fixpoint publish_attempts (entropy : N -> option (list N)) (w : snapshot_world)
    (d : SnapshotVectorDescriptor) (millis : N) (n : nat) (attempt : N)
    : snapshot_world * SnapshotVectorResult :=
  match n with
  | O => (w, SnapshotVectorError "SB-MGA-SNAPSHOT-VECTOR-UUID-COLLISION"
               "transaction.snapshot_vector.uuid_collision" "")
  | S n =>
    let generated :=
      GenerateDurableEngineIdentityV7 uk_object (u64_add millis attempt) (entropy attempt) in
    if negb (tur_ok generated) then
      (w, mkVectorResult (tur_status generated) SnapshotVectorDescriptor_default
            (tur_diagnostic generated))
    else
    let key := uuid_bytes (tu_value (tur_value generated)) in
    match w_registry w !! key with
    | Some _ => publish_attempts entropy w d millis n (attempt + 1)
    | None =>
      let d := with_publication (tur_value generated) d in
      if negb (SnapshotVectorStructurallyComplete d) then
        (w, SnapshotVectorError "SB-MGA-SNAPSHOT-VECTOR-INCOMPLETE"
              "transaction.snapshot_vector.incomplete" "")
      else
        let a := w_next_object w in
        (mkWorld (<[a := mkPublished d false false 0]> (w_objects w)) (<[key := a]> (w_registry w))
           (w_leases w) (a + 1) (w_next_lease w),
         mkVectorResult MgaOkStatus d DiagnosticRecord_default)
    end
  end.

Definition PublishStatementStableSnapshotVector (entropy : N -> option (list N)) (w : snapshot_world)
    (inv : LocalTransactionInventory) (owning_transaction : LocalTransactionId) (millis : N)
    : snapshot_world * SnapshotVectorResult :=
  let reason := ValidateLocalTransactionInventoryStructure inv in
  if decide (reason <> ""%string) then
    (w, SnapshotVectorError "SB-MGA-SNAPSHOT-VECTOR-INVENTORY-INVALID"
          "transaction.snapshot_vector.inventory_invalid" reason)
  else if decide (millis = 0 \/ inv_next_local_transaction_id inv = 0) then
    (w, SnapshotVectorError "SB-MGA-SNAPSHOT-VECTOR-INVENTORY-INVALID"
          "transaction.snapshot_vector.inventory_invalid" "")
  else
  let owner := LookupLocalTransaction inv owning_transaction in
  if negb (lr_ok owner) || negb (IsSnapshotOwnerEligible (e_state (lr_entry owner))) then
    (w, SnapshotVectorError "SB-MGA-SNAPSHOT-VECTOR-OWNER-INELIGIBLE"
          "transaction.snapshot_vector.owner_ineligible"
          (if lr_ok owner then TransactionStateName (e_state (lr_entry owner))
           else to_string owning_transaction))
  else
  let uuid := ti_transaction_uuid (e_identity (lr_entry owner)) in
  if bool_decide (tu_kind uuid <> uk_transaction) || negb (typed_uuid_valid uuid) ||
     bool_decide (UuidVersion (tu_value uuid) <> 7) ||
     bool_decide (inv_next_local_transaction_id inv <= owning_transaction) then
    (w, SnapshotVectorError "SB-MGA-SNAPSHOT-VECTOR-OWNER-MISMATCH"
          "transaction.snapshot_vector.owner_mismatch" "")
  else
  let established := CreateLocalTransactionSnapshot inv owning_transaction in
  if negb (tsr_ok established) then
    (w, mkVectorResult (tsr_status established) SnapshotVectorDescriptor_default
          (tsr_diagnostic established))
  else
  let horizons := ComputeLocalTransactionHorizons inv in
  if negb (hres_ok horizons) then
    (w, mkVectorResult (hres_status horizons) SnapshotVectorDescriptor_default (hres_diagnostic horizons))
  else
  publish_attempts entropy w
    (draft_descriptor inv (lr_entry owner) owning_transaction established (hres_horizons horizons))
    millis kGenerationAttempts 0.

(** ** Resolution *)

Definition ResolvePublishedSnapshotVector (w : snapshot_world) (snapshot_uuid : TypedUuid)
    : SnapshotVectorResult :=
  if negb (typed_uuid_valid snapshot_uuid) || bool_decide (tu_kind snapshot_uuid <> uk_object) then
    SnapshotVectorError "SB-MGA-SNAPSHOT-VECTOR-UUID-INVALID" "transaction.snapshot_vector.uuid_invalid" ""
  else match find_published w (uuid_bytes (tu_value snapshot_uuid)) with
  | None =>
    SnapshotVectorError "SB-MGA-SNAPSHOT-VECTOR-UNKNOWN" "transaction.snapshot_vector.unknown" ""
  | Some (_, o) =>
    if pv_revoked o || pv_publication_released o then
      SnapshotVectorError "SB-MGA-SNAPSHOT-VECTOR-REVOKED" "transaction.snapshot_vector.revoked" ""
    else if negb (SnapshotVectorStructurallyComplete (pv_descriptor o)) then
      SnapshotVectorError "SB-MGA-SNAPSHOT-VECTOR-INCOMPLETE" "transaction.snapshot_vector.incomplete" ""
    else mkVectorResult MgaOkStatus (pv_descriptor o) DiagnosticRecord_default
  end.

Definition ResolveCurrentStatementStableSnapshotVector (w : snapshot_world)
    (inv : LocalTransactionInventory) (snapshot_uuid expected_owning_transaction_uuid : TypedUuid)
    (expected_owning_transaction : LocalTransactionId) : SnapshotVectorResult :=
  let reason := ValidateLocalTransactionInventoryStructure inv in
  if decide (reason <> ""%string) then
    SnapshotVectorError "SB-MGA-SNAPSHOT-VECTOR-INVENTORY-INVALID"
      "transaction.snapshot_vector.inventory_invalid" reason
  else
  let resolved := ResolvePublishedSnapshotVector w snapshot_uuid in
  if negb (svr_ok resolved) then resolved
  else
  let d := svr_descriptor resolved in
  let next := inv_next_local_transaction_id inv in
  if bool_decide (sd_snapshot_kind d <> svk_statement_stable) ||
     bool_decide (tu_kind expected_owning_transaction_uuid <> uk_transaction) ||
     negb (typed_uuid_valid expected_owning_transaction_uuid) ||
     bool_decide (tu_value (sd_owning_transaction_uuid d) <> tu_value expected_owning_transaction_uuid) ||
     bool_decide ((sd_owning_transaction d : N) <> expected_owning_transaction) then
    SnapshotVectorError "SB-MGA-SNAPSHOT-VECTOR-OWNER-MISMATCH"
      "transaction.snapshot_vector.owner_mismatch" ""
  else if decide (next = 0 \/ next <= expected_owning_transaction \/
                  next < sd_publication_inventory_next_local_transaction_id d) then
    SnapshotVectorError "SB-MGA-SNAPSHOT-VECTOR-STALE"
      "transaction.snapshot_vector.stale_inventory_generation" ""
  else
  let owner := LookupLocalTransaction inv expected_owning_transaction in
  if negb (lr_ok owner) || negb (IsSnapshotOwnerEligible (e_state (lr_entry owner))) ||
     bool_decide (e_uuid (lr_entry owner) <> tu_value expected_owning_transaction_uuid) then
    SnapshotVectorError "SB-MGA-SNAPSHOT-VECTOR-STALE" "transaction.snapshot_vector.stale_owner" ""
  else resolved.

(** ** Revocation *)

Definition revoked_by (uuid : TypedUuid) (id : LocalTransactionId) (o : PublishedSnapshotVector) : bool :=
  bool_decide ((sd_owning_transaction (pv_descriptor o) : N) = id) &&
  bool_decide (tu_value (sd_owning_transaction_uuid (pv_descriptor o)) = tu_value uuid).

(** The loop body for one registry slot. *)
Definition revoke_slot (uuid : TypedUuid) (id : LocalTransactionId) (w : snapshot_world)
    (slot : list N * N) : snapshot_world :=
  match w_objects w !! slot.2 with
  | Some o => if revoked_by uuid id o then set_object slot.2 (set_revoked o) w else w
  | None => w
  end.

Definition RevokePublishedSnapshotVectorsForTransaction (w : snapshot_world)
    (owning_transaction_uuid : TypedUuid) (owning_transaction : LocalTransactionId) : snapshot_world :=
  if negb (typed_uuid_valid owning_transaction_uuid) ||
     bool_decide (tu_kind owning_transaction_uuid <> uk_transaction) ||
     negb (local_id_valid owning_transaction) then w
  else foldl (revoke_slot owning_transaction_uuid owning_transaction) w (registry_in_order w).

Definition RevokePublishedSnapshotVector (w : snapshot_world) (snapshot_uuid : TypedUuid)
    : snapshot_world :=
  if negb (typed_uuid_valid snapshot_uuid) || bool_decide (tu_kind snapshot_uuid <> uk_object) then w
  else match find_published w (uuid_bytes (tu_value snapshot_uuid)) with
  | None => w
  | Some (a, o) => set_object a (set_revoked o) w
  end.
