(* ===== verification/CopyOnWrite.v ===== *)
(** * Copy-on-write mutations and cleanup eligibility

    Models [copy_on_write.{hpp,cpp}]: planning and phase progression of a row
    mutation, the admission of a writing transaction, and the assessment whether a
    row version may be cleaned up under a vector of horizons.  Enumerations hold
    only their declared values, so a test such as [kind >= unknown] is equality
    with [unknown] and [state > recovery_required] never holds. *)

From S2P Require Import Prelude Platform TransactionState Inventory RowVersion.

Inductive CopyOnWriteMutationKind :=
| ck_insert | ck_update | ck_delete_row | ck_system_catalog_update | ck_unknown.

Inductive CopyOnWriteMutationPhase :=
| cp_planned | cp_base_version_locked | cp_new_version_allocated | cp_payload_written_unpublished
| cp_publish_pending_transaction | cp_published | cp_rollback_pending | cp_rollback_complete
| cp_recovery_required | cp_unknown.

Inductive CleanupHoldKind :=
| hk_none | hk_oldest_interesting_transaction | hk_oldest_active_transaction
| hk_oldest_snapshot_transaction | hk_limbo_transaction | hk_recovery_required | hk_archive_required
| hk_backup_required | hk_management_operation | hk_legal_hold | hk_admin_hold | hk_unknown.

Inductive CleanupEligibilityDecision :=
| ce_eligible_requires_authority | ce_eligible_authoritative | ce_blocked_by_horizon
| ce_blocked_by_limbo | ce_blocked_by_recovery | ce_blocked_by_archive_or_backup | ce_unknown.

#[export] Instance CopyOnWriteMutationKind_eq_dec : EqDecision CopyOnWriteMutationKind.
Proof. solve_decision. Defined.
#[export] Instance CopyOnWriteMutationPhase_eq_dec : EqDecision CopyOnWriteMutationPhase.
Proof. solve_decision. Defined.
#[export] Instance CleanupHoldKind_eq_dec : EqDecision CleanupHoldKind.
Proof. solve_decision. Defined.
#[export] Instance CleanupEligibilityDecision_eq_dec : EqDecision CleanupEligibilityDecision.
Proof. solve_decision. Defined.

Record CopyOnWriteMutationIntent := mkIntent {
  ci_kind : CopyOnWriteMutationKind;
  ci_transaction : TransactionIdentity;
  ci_row : RowIdentity;
  ci_base_version_sequence : N;
  ci_new_version_sequence : N;
  ci_has_base_version : bool;
  ci_payload_required : bool;
  ci_system_catalog_mutation : bool }.

Record CopyOnWriteMutationState := mkMutation {
  cm_intent : CopyOnWriteMutationIntent;
  cm_phase : CopyOnWriteMutationPhase;
  cm_resulting_row_state : RowVersionState;
  cm_evidence_record_required : bool;
  cm_evidence_record_written : bool }.

Definition CopyOnWriteMutationState_default : CopyOnWriteMutationState :=
  mkMutation (mkIntent ck_unknown TransactionIdentity_default (mkRowIdentity TypedUuid_default)
    kInvalidRowVersionSequence kInvalidRowVersionSequence false true false)
    cp_unknown rvs_unknown true false.

Record CleanupHorizon := mkCleanupHorizon {
  chz_hold_kind : CleanupHoldKind;
  chz_horizon_transaction : LocalTransactionId;
  chz_authoritative : bool;
  chz_stable_name : string }.

(** [CleanupHorizonVector] *)
Definition CleanupHorizonVector : Type := list CleanupHorizon.

Record CopyOnWriteMutationResult := mkCowResult {
  cwr_status : Status; cwr_mutation : CopyOnWriteMutationState; cwr_diagnostic : DiagnosticRecord }.
Record CopyOnWriteTransactionStateResult := mkCowTxResult {
  cwt_status : Status; cwt_diagnostic : DiagnosticRecord }.
Record CleanupEligibilityResult := mkEligibility {
  cer_status : Status;
  cer_decision : CleanupEligibilityDecision;
  cer_blocking_hold : CleanupHoldKind;
  cer_diagnostic : DiagnosticRecord }.

Definition cwr_ok (r : CopyOnWriteMutationResult) : bool := status_ok (cwr_status r).
Definition cwt_ok (r : CopyOnWriteTransactionStateResult) : bool := status_ok (cwt_status r).
Definition cer_ok (r : CleanupEligibilityResult) : bool := status_ok (cer_status r).

(** ** Diagnostics *)

Inductive CowCondition :=
| cc_invalid_kind | cc_invalid_transaction_identity | cc_invalid_row_identity | cc_insert_has_base
| cc_base_required | cc_invalid_base_sequence | cc_invalid_new_sequence | cc_nonincreasing_sequence
| cc_invalid_phase | cc_invalid_row_state | cc_evidence_required | cc_illegal_transition
| cc_transaction_not_writable | cc_invalid_row_metadata | cc_read_only_transaction | cc_cleanup_held
| cc_cleanup_authority_required.

(** The row of [kCowDiagnostics] the condition indexes. *)
Definition kCowDiagnostics (c : CowCondition) : StatusCode * string * string :=
  match c with
  | cc_invalid_kind => (sc_mga_cow_invalid_kind, "MGA.COW.INVALID_KIND", "copy_on_write.invalid_kind")
  | cc_invalid_transaction_identity =>
    (sc_mga_cow_invalid_transaction_identity, "MGA.COW.INVALID_TRANSACTION_IDENTITY",
     "copy_on_write.invalid_transaction_identity")
  | cc_invalid_row_identity =>
    (sc_mga_cow_invalid_row_identity, "MGA.COW.INVALID_ROW_IDENTITY", "copy_on_write.invalid_row_identity")
  | cc_insert_has_base =>
    (sc_mga_cow_insert_has_base, "MGA.COW.INSERT_HAS_BASE", "copy_on_write.insert_has_base")
  | cc_base_required =>
    (sc_mga_cow_base_required, "MGA.COW.BASE_REQUIRED", "copy_on_write.base_required")
  | cc_invalid_base_sequence =>
    (sc_mga_cow_invalid_base_sequence, "MGA.COW.INVALID_BASE_SEQUENCE",
     "copy_on_write.invalid_base_sequence")
  | cc_invalid_new_sequence =>
    (sc_mga_cow_invalid_new_sequence, "MGA.COW.INVALID_NEW_SEQUENCE", "copy_on_write.invalid_new_sequence")
  | cc_nonincreasing_sequence =>
    (sc_mga_cow_nonincreasing_sequence, "MGA.COW.NONINCREASING_SEQUENCE",
     "copy_on_write.nonincreasing_sequence")
  | cc_invalid_phase =>
    (sc_mga_cow_invalid_phase, "MGA.COW.INVALID_PHASE", "copy_on_write.invalid_phase")
  | cc_invalid_row_state =>
    (sc_mga_cow_invalid_row_state, "MGA.COW.INVALID_ROW_STATE", "copy_on_write.invalid_row_state")
  | cc_evidence_required =>
    (sc_mga_cow_evidence_required, "MGA.COW.EVIDENCE_REQUIRED", "copy_on_write.evidence_required")
  | cc_illegal_transition =>
    (sc_mga_cow_illegal_transition, "MGA.COW.ILLEGAL_TRANSITION", "copy_on_write.illegal_transition")
  | cc_transaction_not_writable =>
    (sc_mga_cow_transaction_not_writable, "MGA.COW.TRANSACTION_NOT_WRITABLE",
     "copy_on_write.transaction_not_writable")
  | cc_invalid_row_metadata =>
    (sc_mga_cow_invalid_row_metadata, "MGA.COW.INVALID_ROW_METADATA", "copy_on_write.invalid_row_metadata")
  | cc_read_only_transaction =>
    (sc_mga_cow_read_only_transaction, "MGA.COW.READ_ONLY_TRANSACTION",
     "copy_on_write.read_only_transaction")
  | cc_cleanup_held => (sc_ok, "MGA.COW.CLEANUP_HELD", "copy_on_write.cleanup_held")
  | cc_cleanup_authority_required =>
    (sc_ok, "MGA.COW.CLEANUP_AUTHORITY_REQUIRED", "copy_on_write.cleanup_authority_required")
  end%string.

(** [SetCowDiagnostic]: the status and the diagnostic it writes into a result. *)
Definition SetCowDiagnostic (c : CowCondition) (detail : string) : Status * DiagnosticRecord :=
  let '(code, diagnostic_code, message) := kCowDiagnostics c in
  let status := mkStatus code (if decide (code = sc_ok) then sev_info else sev_error)
                  sub_transaction_mga in
  (status, MakeComponentDiagnostic "transaction.mga.copy_on_write" status diagnostic_code message detail).

Definition cow_result (m : CopyOnWriteMutationState) (c : CowCondition) (detail : string) :=
  let '(status, diagnostic) := SetCowDiagnostic c detail in mkCowResult status m diagnostic.

(** ** Names *)

Definition CopyOnWriteMutationKindName (k : CopyOnWriteMutationKind) : string :=
  match k with
  | ck_insert => "insert" | ck_update => "update" | ck_delete_row => "delete_row"
  | ck_system_catalog_update => "system_catalog_update" | ck_unknown => "unknown"
  end.

Definition CopyOnWriteMutationPhaseName (p : CopyOnWriteMutationPhase) : string :=
  match p with
  | cp_planned => "planned" | cp_base_version_locked => "base_version_locked"
  | cp_new_version_allocated => "new_version_allocated"
  | cp_payload_written_unpublished => "payload_written_unpublished"
  | cp_publish_pending_transaction => "publish_pending_transaction" | cp_published => "published"
  | cp_rollback_pending => "rollback_pending" | cp_rollback_complete => "rollback_complete"
  | cp_recovery_required => "recovery_required" | cp_unknown => "unknown"
  end.

Definition CleanupHoldKindName (k : CleanupHoldKind) : string :=
  match k with
  | hk_none => "none" | hk_oldest_interesting_transaction => "oldest_interesting_transaction"
  | hk_oldest_active_transaction => "oldest_active_transaction"
  | hk_oldest_snapshot_transaction => "oldest_snapshot_transaction"
  | hk_limbo_transaction => "limbo_transaction" | hk_recovery_required => "recovery_required"
  | hk_archive_required => "archive_required" | hk_backup_required => "backup_required"
  | hk_management_operation => "management_operation" | hk_legal_hold => "legal_hold"
  | hk_admin_hold => "admin_hold" | hk_unknown => "unknown"
  end.

Definition CleanupEligibilityDecisionName (d : CleanupEligibilityDecision) : string :=
  match d with
  | ce_eligible_requires_authority => "eligible_requires_authority"
  | ce_eligible_authoritative => "eligible_authoritative"
  | ce_blocked_by_horizon => "blocked_by_horizon" | ce_blocked_by_limbo => "blocked_by_limbo"
  | ce_blocked_by_recovery => "blocked_by_recovery"
  | ce_blocked_by_archive_or_backup => "blocked_by_archive_or_backup" | ce_unknown => "unknown"
  end.

(** ** Mutations *)

Definition IsLegalPhaseTransition (from to : CopyOnWriteMutationPhase) : bool :=
  match from with
  | cp_planned =>
    bool_decide (to ∈ [cp_base_version_locked; cp_new_version_allocated; cp_rollback_pending])
  | cp_base_version_locked =>
    bool_decide (to ∈ [cp_new_version_allocated; cp_rollback_pending; cp_recovery_required])
  | cp_new_version_allocated =>
    bool_decide (to ∈ [cp_payload_written_unpublished; cp_rollback_pending; cp_recovery_required])
  | cp_payload_written_unpublished =>
    bool_decide (to ∈ [cp_publish_pending_transaction; cp_rollback_pending; cp_recovery_required])
  | cp_publish_pending_transaction =>
    bool_decide (to ∈ [cp_published; cp_rollback_pending; cp_recovery_required])
  | cp_rollback_pending => bool_decide (to ∈ [cp_rollback_complete; cp_recovery_required])
  | cp_published | cp_rollback_complete | cp_recovery_required | cp_unknown => false
  end.

Definition ResultingStateForMutation (k : CopyOnWriteMutationKind) : RowVersionState :=
  match k with
  | ck_insert | ck_update | ck_system_catalog_update => rvs_uncommitted
  | ck_delete_row => rvs_delete_marker
  | ck_unknown => rvs_unknown
  end.

Definition ValidateCopyOnWriteMutationState (m : CopyOnWriteMutationState) : CopyOnWriteMutationResult :=
  let intent := cm_intent m in
  let scope := ti_scope (ci_transaction intent) in
  if decide (ci_kind intent = ck_unknown) then cow_result m cc_invalid_kind ""
  else if negb (status_ok (tir_status (ValidateTransactionIdentity (ci_transaction intent)))) ||
          (bool_decide (scope <> scope_local_node) && bool_decide (scope <> scope_cluster_global)) then
    cow_result m cc_invalid_transaction_identity ""
  else if negb (status_ok (rir_status (ValidateRowIdentity (ci_row intent)))) then
    cow_result m cc_invalid_row_identity ""
  else if decide (ci_kind intent = ck_insert /\ ci_has_base_version intent = true) then
    cow_result m cc_insert_has_base ""
  else if decide (ci_kind intent <> ck_insert /\ ci_has_base_version intent = false) then
    cow_result m cc_base_required (CopyOnWriteMutationKindName (ci_kind intent))
  else if decide (ci_has_base_version intent = true /\
                  ci_base_version_sequence intent = kInvalidRowVersionSequence) then
    cow_result m cc_invalid_base_sequence ""
  else if decide (ci_new_version_sequence intent = kInvalidRowVersionSequence) then
    cow_result m cc_invalid_new_sequence ""
  else if decide (ci_has_base_version intent = true /\
                  ci_new_version_sequence intent <= ci_base_version_sequence intent) then
    cow_result m cc_nonincreasing_sequence ""
  else if decide (cm_phase m = cp_unknown) then cow_result m cc_invalid_phase ""
  else if decide (cm_resulting_row_state m = rvs_unknown) then cow_result m cc_invalid_row_state ""
  else if decide (cm_evidence_record_required m = true /\ cm_phase m = cp_published /\
                  cm_evidence_record_written m = false) then
    cow_result m cc_evidence_required ""
  else mkCowResult MgaOkStatus m DiagnosticRecord_default.

Definition PlanCopyOnWriteMutation (intent : CopyOnWriteMutationIntent) : CopyOnWriteMutationResult :=
  ValidateCopyOnWriteMutationState
    (mkMutation intent cp_planned (ResultingStateForMutation (ci_kind intent)) true false).

Definition ValidateCopyOnWriteTransactionState (e : TransactionInventoryEntry)
    : CopyOnWriteTransactionStateResult :=
  if decide (e_state e = ts_read_only_active) then
    let '(status, diagnostic) := SetCowDiagnostic cc_read_only_transaction "" in
    mkCowTxResult status diagnostic
  else if decide (e_state e <> ts_active \/ e_rollback_only e = true) then
    let '(status, diagnostic) :=
      SetCowDiagnostic cc_transaction_not_writable (TransactionStateName (e_state e)) in
    mkCowTxResult status diagnostic
  else mkCowTxResult MgaOkStatus DiagnosticRecord_default.

Definition PlanLocalCopyOnWriteMutationForTransaction (e : TransactionInventoryEntry) (row : RowIdentity)
    (kind : CopyOnWriteMutationKind) (base_version_sequence new_version_sequence : N)
    : CopyOnWriteMutationResult :=
  let admission := ValidateCopyOnWriteTransactionState e in
  if negb (cwt_ok admission) then
    mkCowResult (cwt_status admission) CopyOnWriteMutationState_default (cwt_diagnostic admission)
  else
    PlanCopyOnWriteMutation
      (mkIntent kind (e_identity e) row base_version_sequence new_version_sequence
         (bool_decide (kind <> ck_insert)) (bool_decide (kind <> ck_delete_row))
         (bool_decide (kind = ck_system_catalog_update))).

Definition with_phase (p : CopyOnWriteMutationPhase) (m : CopyOnWriteMutationState) :=
  mkMutation (cm_intent m) p (cm_resulting_row_state m) (cm_evidence_record_required m)
    (cm_evidence_record_written m).

Definition AdvanceCopyOnWriteMutationPhase (m : CopyOnWriteMutationState)
    (next_phase : CopyOnWriteMutationPhase) : CopyOnWriteMutationResult :=
  let validation := ValidateCopyOnWriteMutationState m in
  if negb (cwr_ok validation) then validation
  else if negb (IsLegalPhaseTransition (cm_phase m) next_phase) then
    cow_result (cwr_mutation validation) cc_illegal_transition
      (CopyOnWriteMutationPhaseName (cm_phase m) +:+ "->" +:+ CopyOnWriteMutationPhaseName next_phase)
  else
  let advanced := ValidateCopyOnWriteMutationState (with_phase next_phase m) in
  if negb (cwr_ok advanced) then
    mkCowResult (cwr_status advanced) (cwr_mutation validation) (cwr_diagnostic advanced)
  else advanced.

(** ** Cleanup eligibility *)

Definition BlockedCleanup (d : CleanupEligibilityDecision) (hold_kind : CleanupHoldKind)
    (detail : string) : CleanupEligibilityResult :=
  let '(status, diagnostic) := SetCowDiagnostic cc_cleanup_held detail in
  mkEligibility status d hold_kind diagnostic.

Definition hold_decision (k : CleanupHoldKind) : CleanupEligibilityDecision :=
  match k with
  | hk_limbo_transaction => ce_blocked_by_limbo
  | hk_recovery_required => ce_blocked_by_recovery
  | hk_archive_required | hk_backup_required => ce_blocked_by_archive_or_backup
  | hk_legal_hold | hk_admin_hold | hk_none | hk_oldest_interesting_transaction
  | hk_oldest_active_transaction | hk_oldest_snapshot_transaction | hk_management_operation
  | hk_unknown => ce_blocked_by_horizon
  end.

(** The loop over the horizons; [None] when no horizon holds the version. *)
Fixpoint cleanup_hold (creator : N) (horizons : CleanupHorizonVector) : option CleanupEligibilityResult :=
  match horizons with
  | [] => None
  | h :: horizons =>
    let kind := chz_hold_kind h in
    if decide (kind = hk_unknown) then
      Some (BlockedCleanup ce_blocked_by_horizon hk_unknown "unknown_hold_kind")
    else if negb (chz_authoritative h) then
      Some (BlockedCleanup ce_blocked_by_horizon kind "non_authoritative_horizon")
    else if negb (local_id_valid (chz_horizon_transaction h)) then
      Some (BlockedCleanup ce_blocked_by_horizon kind "invalid_horizon")
    else if decide (chz_horizon_transaction h <= creator) then
      Some (BlockedCleanup (hold_decision kind) kind (CleanupHoldKindName kind))
    else cleanup_hold creator horizons
  end.

Definition EvaluateCleanupEligibility (m : RowVersionMetadata) (horizons : CleanupHorizonVector)
    : CleanupEligibilityResult :=
  let scope := ti_scope (rvi_creator_transaction (rvm_identity m)) in
  if negb (status_ok (rvmr_status (ValidateRowVersionMetadata m))) ||
     (bool_decide (scope <> scope_local_node) && bool_decide (scope <> scope_cluster_global)) then
    let '(status, diagnostic) := SetCowDiagnostic cc_invalid_row_metadata "" in
    mkEligibility status ce_unknown hk_unknown diagnostic
  else if decide (rvm_state m = rvs_limbo) then
    BlockedCleanup ce_blocked_by_limbo hk_limbo_transaction (RowVersionStateName (rvm_state m))
  else if decide (rvm_state m = rvs_recovery_required) then
    BlockedCleanup ce_blocked_by_recovery hk_recovery_required (RowVersionStateName (rvm_state m))
  else match cleanup_hold (ti_local_id (rvi_creator_transaction (rvm_identity m))) horizons with
  | Some blocked => blocked
  | None =>
    let '(status, diagnostic) := SetCowDiagnostic cc_cleanup_authority_required "" in
    mkEligibility status ce_eligible_requires_authority hk_none diagnostic
  end.
