(* ===== verification/Savepoint.v ===== *)
(** * Savepoints

    Models [savepoint.{hpp,cpp}]: the savepoint stack, the recorded mutations, and
    rollback to a savepoint through a physical undo executor.  The executor is an
    interface without an implementation in the package: it is the record
    [undo_executor], a state-passing [ApplyUndo] over an arbitrary state.
    [std::sort] is not stable; [merge_sort] picks one of the orders it allows, and
    the theorems only use that the result is a sorted permutation.  Metric
    publication is not modelled. *)

From S2P Require Import Prelude Platform TransactionState.

Record SavepointRecord := mkSavepoint {
  sp_local_id : LocalTransactionId;
  sp_name : string;
  sp_ordinal : N;
  sp_mutation_sequence : N }.

Definition SavepointRecord_default : SavepointRecord := mkSavepoint 0 "" 0 0.

Inductive SavepointMutationKind :=
| smk_data_page | smk_catalog | smk_index | smk_overflow | smk_metrics | smk_unknown.

Inductive SavepointRollbackDecision :=
| srd_rollback_actions_ready | srd_rollback_refused_missing_undo
| srd_rollback_refused_executor_missing | srd_rollback_refused_executor_unavailable
| srd_rollback_refused_executor_failed | srd_savepoint_not_found | srd_invalid_request.

#[export] Instance SavepointMutationKind_eq_dec : EqDecision SavepointMutationKind.
Proof. solve_decision. Defined.
#[export] Instance SavepointRollbackDecision_eq_dec : EqDecision SavepointRollbackDecision.
Proof. solve_decision. Defined.

Record SavepointMutationRecord := mkSpMutation {
  sm_local_id : LocalTransactionId;
  sm_mutation_sequence : N;
  sm_kind : SavepointMutationKind;
  sm_stable_operation_id : string;
  sm_durable_evidence_written : bool;
  sm_undo_evidence_available : bool;
  sm_rolled_back : bool }.

Definition SavepointMutationRecord_default : SavepointMutationRecord :=
  mkSpMutation 0 0 smk_unknown "" false false false.

Record SavepointResult := mkSavepointResult {
  spr_status : Status; spr_savepoint : SavepointRecord; spr_diagnostic : DiagnosticRecord }.
Record SavepointMutationResult := mkSpMutationResult {
  smr_status : Status; smr_mutation : SavepointMutationRecord; smr_diagnostic : DiagnosticRecord }.
Record SavepointRollbackPlan := mkRollbackPlan {
  rp_status : Status;
  rp_decision : SavepointRollbackDecision;
  rp_savepoint : SavepointRecord;
  rp_rollback_actions : list SavepointMutationRecord;
  rp_affected_mutation_count : N;
  rp_diagnostic : DiagnosticRecord }.
Record SavepointUndoResult := mkUndoResult {
  un_status : Status;
  un_mutation : SavepointMutationRecord;
  un_applied : bool;
  un_already_applied : bool;
  un_executor_id : string;
  un_durable_evidence_id : string;
  un_diagnostic : DiagnosticRecord }.
Record SavepointRollbackExecutionResult := mkRollbackExecution {
  re_status : Status;
  re_decision : SavepointRollbackDecision;
  re_savepoint : SavepointRecord;
  re_undo_results : list SavepointUndoResult;
  re_affected_mutation_count : N;
  re_diagnostic : DiagnosticRecord }.

Definition spr_ok (r : SavepointResult) : bool := status_ok (spr_status r).
Definition smr_ok (r : SavepointMutationResult) : bool := status_ok (smr_status r).
Definition rp_ok (r : SavepointRollbackPlan) : bool :=
  status_ok (rp_status r) && bool_decide (rp_decision r = srd_rollback_actions_ready).
Definition un_ok (r : SavepointUndoResult) : bool :=
  status_ok (un_status r) && (un_applied r || un_already_applied r).
Definition re_ok (r : SavepointRollbackExecutionResult) : bool :=
  status_ok (re_status r) && bool_decide (re_decision r = srd_rollback_actions_ready).

(** [SavepointPhysicalUndoExecutor] over a state [E]. *)
Record undo_executor (E : Type) := mkExecutor {
  ex_Supports : SavepointMutationKind -> bool;
  ex_ApplyUndo : E -> SavepointMutationRecord -> E * SavepointUndoResult }.
Arguments ex_Supports {E}.
Arguments ex_ApplyUndo {E}.

Record SavepointStack := mkStack {
  ss_savepoints : list SavepointRecord;
  ss_mutations : list SavepointMutationRecord;
  ss_next_ordinal : N }.

Definition SavepointStack_default : SavepointStack := mkStack [] [] 1.

Definition set_savepoints (l : list SavepointRecord) (s : SavepointStack) :=
  mkStack l (ss_mutations s) (ss_next_ordinal s).

(** ** Results *)

Definition MakeSavepointDiagnostic : Status -> string -> string -> string -> DiagnosticRecord :=
  MakeComponentDiagnostic "transaction.mga.savepoint".

Definition SavepointError (diagnostic_code message_key detail : string) : SavepointResult :=
  mkSavepointResult MgaErrorStatus SavepointRecord_default
    (MakeSavepointDiagnostic MgaErrorStatus diagnostic_code message_key detail).

Definition SavepointMutationError (diagnostic_code message_key detail : string) : SavepointMutationResult :=
  mkSpMutationResult MgaErrorStatus SavepointMutationRecord_default
    (MakeSavepointDiagnostic MgaErrorStatus diagnostic_code message_key detail).

Definition SavepointRollbackError (d : SavepointRollbackDecision)
    (diagnostic_code message_key detail : string) : SavepointRollbackPlan :=
  mkRollbackPlan MgaErrorStatus d SavepointRecord_default [] 0
    (MakeSavepointDiagnostic MgaErrorStatus diagnostic_code message_key detail).

Definition SavepointExecutionError (d : SavepointRollbackDecision)
    (diagnostic_code message_key detail : string) : SavepointRollbackExecutionResult :=
  mkRollbackExecution MgaErrorStatus d SavepointRecord_default [] 0
    (MakeSavepointDiagnostic MgaErrorStatus diagnostic_code message_key detail).

Definition SavepointMutationKindName (k : SavepointMutationKind) : string :=
  match k with
  | smk_data_page => "data_page" | smk_catalog => "catalog" | smk_index => "index"
  | smk_overflow => "overflow" | smk_metrics => "metrics" | smk_unknown => "unknown"
  end.

Definition SavepointRollbackDecisionName (d : SavepointRollbackDecision) : string :=
  match d with
  | srd_rollback_actions_ready => "rollback_actions_ready"
  | srd_rollback_refused_missing_undo => "rollback_refused_missing_undo"
  | srd_rollback_refused_executor_missing => "rollback_refused_executor_missing"
  | srd_rollback_refused_executor_unavailable => "rollback_refused_executor_unavailable"
  | srd_rollback_refused_executor_failed => "rollback_refused_executor_failed"
  | srd_savepoint_not_found => "savepoint_not_found"
  | srd_invalid_request => "invalid_request"
  end.

(** ** The stack *)

Definition is_savepoint (local_id : LocalTransactionId) (name : string) (r : SavepointRecord) : Prop :=
  (sp_local_id r : N) = local_id /\ sp_name r = name.
#[export] Instance is_savepoint_dec id name r : Decision (is_savepoint id name r).
Proof. unfold is_savepoint. apply _. Defined.

(** Reverse scan: the last record with the name. *)
Definition FindSavepoint (savepoints : list SavepointRecord) (local_id : LocalTransactionId)
    (name : string) : option SavepointRecord :=
  last (filter (is_savepoint local_id name) savepoints).

Definition stack_Create (s : SavepointStack) (local_id : LocalTransactionId) (name : string)
    (mutation_sequence : N) : SavepointStack * SavepointResult :=
  if negb (local_id_valid local_id) || bool_decide (name = ""%string) then
    (s, SavepointError "SB-SNTXN-SAVEPOINT-UNSUPPORTED" "transaction.savepoint.invalid_request" "")
  else
  let kept := filter (fun r => ~ is_savepoint local_id name r) (ss_savepoints s) in
  let record := mkSavepoint local_id name (ss_next_ordinal s) mutation_sequence in
  (mkStack (kept ++ [record]) (ss_mutations s) (u64_add (ss_next_ordinal s) 1),
   mkSavepointResult MgaOkStatus record DiagnosticRecord_default).

(** Forward scan to the first record with the name; [keep] is how much of the
    stack before and at the match survives the erasure of the tail. *)
Definition cut_stack (s : SavepointStack) (local_id : LocalTransactionId) (name : string)
    (keep : nat -> nat) : SavepointStack * SavepointResult :=
  match list_find (is_savepoint local_id name) (ss_savepoints s) with
  | Some (i, record) =>
    (set_savepoints (take (keep i) (ss_savepoints s)) s,
     mkSavepointResult MgaOkStatus record DiagnosticRecord_default)
  | None =>
    (s, SavepointError "SB-SNTXN-SAVEPOINT-UNSUPPORTED" "transaction.savepoint.not_found" name)
  end.

Definition stack_Release (s : SavepointStack) (local_id : LocalTransactionId) (name : string) :=
  cut_stack s local_id name (fun i => i).
Definition stack_RollbackTo (s : SavepointStack) (local_id : LocalTransactionId) (name : string) :=
  cut_stack s local_id name S.

Definition stack_RecordMutation (s : SavepointStack) (m : SavepointMutationRecord)
    : SavepointStack * SavepointMutationResult :=
  if negb (local_id_valid (sm_local_id m)) || bool_decide (sm_mutation_sequence m = 0) ||
     bool_decide (sm_kind m = smk_unknown) || bool_decide (sm_stable_operation_id m = ""%string) ||
     negb (sm_durable_evidence_written m) then
    (s, SavepointMutationError "SB-SNTXN-SAVEPOINT-MUTATION-INVALID"
          "transaction.savepoint.mutation_invalid" (sm_stable_operation_id m))
  else
    (mkStack (ss_savepoints s) (ss_mutations s ++ [m]) (ss_next_ordinal s),
     mkSpMutationResult MgaOkStatus m DiagnosticRecord_default).

(** ** Planning a rollback *)

Definition pending_after (local_id : LocalTransactionId) (sequence : N) (m : SavepointMutationRecord) : Prop :=
  (sm_local_id m : N) = local_id /\ sequence < sm_mutation_sequence m /\ sm_rolled_back m = false.
#[export] Instance pending_after_dec id seq m : Decision (pending_after id seq m).
Proof. unfold pending_after. apply _. Defined.

(** The collecting loop; it stops at the first pending mutation without undo. *)
Fixpoint collect_actions (local_id : LocalTransactionId) (sequence : N)
    (ms : list SavepointMutationRecord)
    : SavepointMutationRecord + list SavepointMutationRecord :=
  match ms with
  | [] => inr []
  | m :: ms =>
    if negb (bool_decide (pending_after local_id sequence m)) then collect_actions local_id sequence ms
    else if negb (sm_undo_evidence_available m) then inl m
    else match collect_actions local_id sequence ms with
         | inl e => inl e
         | inr l => inr (m :: l)
         end
  end.

Definition later_first (l r : SavepointMutationRecord) : Prop :=
  sm_mutation_sequence r <= sm_mutation_sequence l.
#[export] Instance later_first_dec : RelDecision later_first.
Proof. intros l r. unfold later_first. apply _. Defined.

Definition stack_PlanRollbackTo (s : SavepointStack) (local_id : LocalTransactionId) (name : string)
    : SavepointRollbackPlan :=
  if negb (local_id_valid local_id) || bool_decide (name = ""%string) then
    SavepointRollbackError srd_invalid_request "SB-SNTXN-SAVEPOINT-ROLLBACK-INVALID"
      "transaction.savepoint.rollback_invalid" ""
  else match FindSavepoint (ss_savepoints s) local_id name with
  | None =>
    SavepointRollbackError srd_savepoint_not_found "SB-SNTXN-SAVEPOINT-NOT-FOUND"
      "transaction.savepoint.not_found" name
  | Some marker =>
    match collect_actions local_id (sp_mutation_sequence marker) (ss_mutations s) with
    | inl m =>
      SavepointRollbackError srd_rollback_refused_missing_undo "SB-SNTXN-SAVEPOINT-ROLLBACK-MISSING-UNDO"
        "transaction.savepoint.rollback_missing_undo" (sm_stable_operation_id m)
    | inr actions =>
      mkRollbackPlan MgaOkStatus srd_rollback_actions_ready marker (merge_sort later_first actions)
        (N.of_nat (length actions)) DiagnosticRecord_default
    end
  end.

(** ** Applying a rollback *)

Definition mark_rolled_back (local_id : LocalTransactionId) (sequence : N) (m : SavepointMutationRecord) :=
  if decide ((sm_local_id m : N) = local_id /\ sequence < sm_mutation_sequence m) then
    mkSpMutation (sm_local_id m) (sm_mutation_sequence m) (sm_kind m) (sm_stable_operation_id m)
      (sm_durable_evidence_written m) (sm_undo_evidence_available m) true
  else m.

Definition stack_MarkRollbackApplied (s : SavepointStack) (local_id : LocalTransactionId)
    (savepoint_mutation_sequence : N) : SavepointStack :=
  mkStack
    (filter (fun r => ~ ((sp_local_id r : N) = local_id /\
                         savepoint_mutation_sequence < sp_mutation_sequence r)) (ss_savepoints s))
    (mark_rolled_back local_id savepoint_mutation_sequence <$> ss_mutations s)
    (ss_next_ordinal s).

Definition stack_ApplyRollbackTo (s : SavepointStack) (local_id : LocalTransactionId) (name : string)
    : SavepointStack * SavepointRollbackPlan :=
  let plan := stack_PlanRollbackTo s local_id name in
  if negb (rp_ok plan) then (s, plan)
  else if negb (bool_decide (rp_rollback_actions plan = [])) then
    (s, SavepointRollbackError srd_rollback_refused_executor_missing
          "SB-SNTXN-SAVEPOINT-UNDO-EXECUTOR-MISSING" "transaction.savepoint.undo_executor_missing"
          (sp_name (rp_savepoint plan)))
  else (stack_MarkRollbackApplied s local_id (sp_mutation_sequence (rp_savepoint plan)), plan).

Section execute.
Context {E : Type} (executor : undo_executor E).

(** The undo loop: the executor's state, the results so far, and how it stopped. *)
Fixpoint run_undo (state : E) (actions : list SavepointMutationRecord)
    : E * list SavepointUndoResult * option (Status * SavepointRollbackDecision * DiagnosticRecord) :=
  match actions with
  | [] => (state, [], None)
  | m :: actions =>
    if negb (ex_Supports executor (sm_kind m)) then
      (state, [],
       Some (MgaErrorStatus, srd_rollback_refused_executor_unavailable,
             MakeSavepointDiagnostic MgaErrorStatus "SB-SNTXN-SAVEPOINT-UNDO-EXECUTOR-UNAVAILABLE"
               "transaction.savepoint.undo_executor_unavailable"
               (SavepointMutationKindName (sm_kind m) +:+ ":" +:+ sm_stable_operation_id m)))
    else
    let '(state, undo) := ex_ApplyUndo executor state m in
    if negb (un_ok undo) then
      let status := if status_ok (un_status undo) then MgaErrorStatus else un_status undo in
      (state, [undo],
       Some (status, srd_rollback_refused_executor_failed,
             if decide (dr_diagnostic_code (un_diagnostic undo) = ""%string) then
               MakeSavepointDiagnostic status "SB-SNTXN-SAVEPOINT-UNDO-EXECUTOR-FAILED"
                 "transaction.savepoint.undo_executor_failed" (sm_stable_operation_id m)
             else un_diagnostic undo))
    else
    let '(state, results, stop) := run_undo state actions in (state, undo :: results, stop)
  end.
End execute.

(** [executor = None] is the null pointer. *)
Definition stack_ExecuteRollbackTo {E : Type} (s : SavepointStack) (local_id : LocalTransactionId)
    (name : string) (executor : option (undo_executor E)) (state : E)
    : SavepointStack * E * SavepointRollbackExecutionResult :=
  let plan := stack_PlanRollbackTo s local_id name in
  if negb (rp_ok plan) then
    (s, state, mkRollbackExecution (rp_status plan) (rp_decision plan) (rp_savepoint plan) []
                 (rp_affected_mutation_count plan) (rp_diagnostic plan))
  else match executor with
  | None =>
    let r := SavepointExecutionError srd_rollback_refused_executor_missing
               "SB-SNTXN-SAVEPOINT-UNDO-EXECUTOR-MISSING" "transaction.savepoint.undo_executor_missing"
               (sp_name (rp_savepoint plan)) in
    (s, state, mkRollbackExecution (re_status r) (re_decision r) (rp_savepoint plan) (re_undo_results r)
                 (re_affected_mutation_count r) (re_diagnostic r))
  | Some executor =>
    match run_undo executor state (rp_rollback_actions plan) with
    | (state, results, Some (status, decision, diagnostic)) =>
      (s, state, mkRollbackExecution status decision (rp_savepoint plan) results
                   (rp_affected_mutation_count plan) diagnostic)
    | (state, results, None) =>
      (stack_MarkRollbackApplied s local_id (sp_mutation_sequence (rp_savepoint plan)), state,
       mkRollbackExecution MgaOkStatus srd_rollback_actions_ready (rp_savepoint plan) results
         (rp_affected_mutation_count plan) DiagnosticRecord_default)
    end
  end.

Definition stack_size (s : SavepointStack) : N := N.of_nat (length (ss_savepoints s)).
Definition stack_mutation_count (s : SavepointStack) : N := N.of_nat (length (ss_mutations s)).
