(* ===== verification/LockTable.v ===== *)
(** * The local transaction lock table

    Models [transaction_lock.{hpp,cpp}]: shared and exclusive locks by resource
    key, the waiting records, admission, fairness among waiters and deadlock
    detection.  The table mutex makes every method one step of the table.  The
    two [std::map]s are finite maps; [HasDeadlockPath]'s depth guard
    [depth > locks.size() + 1] is the fuel [size locks + 2] of the recursion.
    Metric publication is not modelled. *)

From S2P Require Import Prelude Platform TransactionState.

Inductive TransactionLockMode := lm_shared | lm_exclusive | lm_unknown.

Inductive TransactionLockDecision :=
| ld_granted | ld_already_owned | ld_wait_required | ld_timeout | ld_deadlock_detected
| ld_admission_refused | ld_invalid_request.

#[export] Instance TransactionLockMode_eq_dec : EqDecision TransactionLockMode.
Proof. solve_decision. Defined.
#[export] Instance TransactionLockDecision_eq_dec : EqDecision TransactionLockDecision.
Proof. solve_decision. Defined.

Record TransactionWaitPolicy := mkWaitPolicy {
  wp_timeout_millis : N;
  wp_no_wait : bool;
  wp_wait_start_unix_epoch_millis : N;
  wp_now_unix_epoch_millis : N }.

Record TransactionLockRequest := mkLockRequest {
  lq_requester : LocalTransactionId;
  lq_resource_key : string;
  lq_mode : TransactionLockMode;
  lq_wait_policy : TransactionWaitPolicy;
  lq_transaction_active : bool }.

Record TransactionLockResult := mkLockResult {
  lres_status : Status;
  lres_decision : TransactionLockDecision;
  lres_blocking_transaction : LocalTransactionId;
  lres_retry_after_millis : N;
  lres_wait_elapsed_millis : N;
  lres_diagnostic : DiagnosticRecord }.

(** [TransactionLockResult::ok] *)
Definition lres_ok (r : TransactionLockResult) : bool :=
  status_ok (lres_status r) &&
  (bool_decide (lres_decision r = ld_granted) || bool_decide (lres_decision r = ld_already_owned)).

Record LockRecord := mkLockRecord {
  lk_owners : list LocalTransactionId; lk_mode : TransactionLockMode }.

Record AdmissionPolicy := mkAdmissionPolicy {
  ap_accepting_new_waits : bool; ap_max_held_locks : N; ap_max_waiters : N }.

Record WaitingRecord := mkWaiting {
  wr_request : TransactionLockRequest;
  wr_blocking_transaction : LocalTransactionId;
  wr_wait_sequence : N;
  wr_retry_count : N }.

Record LocalTransactionLockTable := mkLockTable {
  lt_locks : gmap string LockRecord;
  lt_waiting : gmap N WaitingRecord;
  lt_admission_policy : AdmissionPolicy;
  lt_next_wait_sequence : N }.

Definition LockTable_default : LocalTransactionLockTable :=
  mkLockTable ∅ ∅ (mkAdmissionPolicy true 0 0) 1.

Definition set_locks (locks : gmap string LockRecord) (t : LocalTransactionLockTable) :=
  mkLockTable locks (lt_waiting t) (lt_admission_policy t) (lt_next_wait_sequence t).
Definition set_waiting (waiting : gmap N WaitingRecord) (t : LocalTransactionLockTable) :=
  mkLockTable (lt_locks t) waiting (lt_admission_policy t) (lt_next_wait_sequence t).

(** ** Results *)

Definition TransactionLockDecisionName (d : TransactionLockDecision) : string :=
  match d with
  | ld_granted => "granted" | ld_already_owned => "already_owned"
  | ld_wait_required => "wait_required" | ld_timeout => "timeout"
  | ld_deadlock_detected => "deadlock_detected" | ld_admission_refused => "admission_refused"
  | ld_invalid_request => "invalid_request"
  end.

Definition MakeTransactionLockDiagnostic : Status -> string -> string -> string -> DiagnosticRecord :=
  MakeComponentDiagnostic "transaction.mga.lock".

Definition LockError (d : TransactionLockDecision) (diagnostic_code message_key detail : string)
    : TransactionLockResult :=
  mkLockResult MgaErrorStatus d 0 0 0
    (MakeTransactionLockDiagnostic MgaErrorStatus diagnostic_code message_key detail).

Definition with_blocker (blocker elapsed : N) (r : TransactionLockResult) : TransactionLockResult :=
  mkLockResult (lres_status r) (lres_decision r) blocker (lres_retry_after_millis r) elapsed
    (lres_diagnostic r).

Definition lock_success (d : TransactionLockDecision) : TransactionLockResult :=
  mkLockResult MgaOkStatus d 0 0 0 DiagnosticRecord_default.

(** ** Lock records *)

Definition OwnsLock (r : LockRecord) (owner : LocalTransactionId) : bool :=
  bool_decide (owner ∈ lk_owners r).

Definition AddOwner (r : LockRecord) (owner : LocalTransactionId) : LockRecord :=
  if negb (OwnsLock r owner) then mkLockRecord (lk_owners r ++ [owner]) (lk_mode r) else r.

Definition RemoveOwner (r : LockRecord) (owner : LocalTransactionId) : LockRecord :=
  mkLockRecord (filter (fun held : N => held <> owner) (lk_owners r)) (lk_mode r).

(** The assignment made when an exclusive request is satisfied. *)
Definition raise_mode (mode : TransactionLockMode) (r : LockRecord) : LockRecord :=
  if decide (mode = lm_exclusive) then mkLockRecord (lk_owners r) lm_exclusive else r.

Definition CompatibleWithExisting (r : LockRecord) (requester : LocalTransactionId)
    (requested_mode : TransactionLockMode) : bool :=
  match lk_owners r with
  | [] => true
  | owner :: rest =>
    if bool_decide (lk_mode r = lm_shared) && bool_decide (requested_mode = lm_shared) then true
    else bool_decide (rest = []) && bool_decide (owner = requester)
  end.

Fixpoint first_other (requester : LocalTransactionId) (owners : list LocalTransactionId) : option N :=
  match owners with
  | [] => None
  | owner :: owners => if decide (owner <> requester) then Some owner else first_other requester owners
  end.

Definition FirstBlockingOwner (r : LockRecord) (requester : LocalTransactionId) : LocalTransactionId :=
  match first_other requester (lk_owners r) with
  | Some owner => owner
  | None => match lk_owners r with [] => 0 | owner :: _ => owner end
  end.

(** ** Deadlock detection *)

Fixpoint deadlock_path (locks : gmap string LockRecord) (waiting : gmap N WaitingRecord)
    (fuel : nat) (from target : N) : bool :=
  match fuel with
  | O => false
  | S fuel =>
    if negb (local_id_valid from) || negb (local_id_valid target) then false
    else if decide (from = target) then true
    else match waiting !! from with
    | None => false
    | Some wait =>
      match locks !! lq_resource_key (wr_request wait) with
      | None => false
      | Some lock => existsb (fun owner => deadlock_path locks waiting fuel owner target) (lk_owners lock)
      end
    end
  end.

Definition HasDeadlockPath (locks : gmap string LockRecord) (waiting : gmap N WaitingRecord)
    (from target : LocalTransactionId) : bool :=
  deadlock_path locks waiting (size locks + 2) from target.

(** ** Waiters *)

Definition waiter_le (x y : N * WaitingRecord) : Prop := x.1 <= y.1.
#[export] Instance waiter_le_dec : RelDecision waiter_le.
Proof. intros x y. unfold waiter_le. apply _. Defined.

Definition waiting_in_order (waiting : gmap N WaitingRecord) : list (N * WaitingRecord) :=
  merge_sort waiter_le (map_to_list waiting).

(** The loop body: keep the candidate with the smallest wait sequence. *)
Definition earlier_waiter (resource_key : string) (requester : LocalTransactionId)
    (requester_wait_sequence : N) (earliest : option WaitingRecord) (slot : N * WaitingRecord)
    : option WaitingRecord :=
  let wait := slot.2 in
  if decide (lq_resource_key (wr_request wait) <> resource_key \/
             lq_requester (wr_request wait) = requester) then earliest
  else if decide (requester_wait_sequence <> 0 /\ requester_wait_sequence <= wr_wait_sequence wait)
  then earliest
  else match earliest with
  | None => Some wait
  | Some e => if decide (wr_wait_sequence wait < wr_wait_sequence e) then Some wait else Some e
  end.

Definition EarliestPriorWaiterForResource (waiting : gmap N WaitingRecord) (resource_key : string)
    (requester : LocalTransactionId) (requester_wait_sequence : N) : option WaitingRecord :=
  foldl (earlier_waiter resource_key requester requester_wait_sequence) None
    (waiting_in_order waiting).

Definition DeadlineExpired (p : TransactionWaitPolicy) : bool :=
  if wp_no_wait p || (wp_timeout_millis p =? 0) then true
  else if (wp_wait_start_unix_epoch_millis p =? 0) || (wp_now_unix_epoch_millis p =? 0) then false
  else if wp_now_unix_epoch_millis p <=? wp_wait_start_unix_epoch_millis p then false
  else wp_timeout_millis p <=?
       u64_sub (wp_now_unix_epoch_millis p) (wp_wait_start_unix_epoch_millis p).

Definition WaitElapsedMillis (p : TransactionWaitPolicy) : N :=
  if (wp_wait_start_unix_epoch_millis p =? 0) || (wp_now_unix_epoch_millis p =? 0) ||
     (wp_now_unix_epoch_millis p <=? wp_wait_start_unix_epoch_millis p) then 0
  else u64_sub (wp_now_unix_epoch_millis p) (wp_wait_start_unix_epoch_millis p).

Definition RetryAfterMillis (p : TransactionWaitPolicy) : N :=
  if wp_timeout_millis p =? 0 then 0
  else
  let elapsed := WaitElapsedMillis p in
  if wp_timeout_millis p <=? elapsed then 0 else u64_sub (wp_timeout_millis p) elapsed.

(** ** Methods *)

Definition SetAdmissionPolicy (t : LocalTransactionLockTable) (policy : AdmissionPolicy) :=
  mkLockTable (lt_locks t) (lt_waiting t) policy (lt_next_wait_sequence t).

Definition wait_admission_refused (t : LocalTransactionLockTable) : bool :=
  let p := lt_admission_policy t in
  negb (ap_accepting_new_waits p) ||
  (negb (ap_max_waiters p =? 0) && (ap_max_waiters p <=? N.of_nat (size (lt_waiting t)))).

(** Records the wait under the preserved sequence, or under the next one. *)
Definition enqueue (t : LocalTransactionLockTable) (request : TransactionLockRequest)
    (blocker preserved_wait_sequence retry_count : N) : LocalTransactionLockTable :=
  let fresh := preserved_wait_sequence =? 0 in
  let wait_sequence := if fresh then lt_next_wait_sequence t else preserved_wait_sequence in
  mkLockTable (lt_locks t)
    (<[lq_requester request := mkWaiting request blocker wait_sequence retry_count]> (lt_waiting t))
    (lt_admission_policy t)
    (if fresh then u64_add (lt_next_wait_sequence t) 1 else lt_next_wait_sequence t).

Definition wait_result (request : TransactionLockRequest) (blocker : N)
    (diagnostic_code message_key : string) : TransactionLockResult :=
  mkLockResult MgaErrorStatus ld_wait_required blocker (RetryAfterMillis (lq_wait_policy request))
    (WaitElapsedMillis (lq_wait_policy request))
    (MakeTransactionLockDiagnostic MgaErrorStatus diagnostic_code message_key
       (lq_resource_key request)).

(** The fairness branch: an earlier waiter of the same resource goes first. *)
Definition fairness_wait (t : LocalTransactionLockTable) (request : TransactionLockRequest)
    (preserved_wait_sequence : N) (prior_waiter : WaitingRecord)
    : LocalTransactionLockTable * TransactionLockResult :=
  let policy := lq_wait_policy request in
  let blocker := lq_requester (wr_request prior_waiter) in
  if DeadlineExpired policy then
    (t, with_blocker blocker (WaitElapsedMillis policy)
          (if wp_no_wait policy then
             LockError ld_timeout "SB-SNTXN-LOCK-TIMEOUT" "transaction.lock.timeout"
               (lq_resource_key request)
           else
             LockError ld_timeout "SB-SNTXN-LOCK-FAIRNESS-TIMEOUT" "transaction.lock.fairness_timeout"
               (lq_resource_key request)))
  else if wait_admission_refused t then
    (t, with_blocker blocker 0
          (LockError ld_admission_refused "SB-SNTXN-LOCK-ADMISSION-REFUSED"
             "transaction.lock.admission_refused" "fairness_wait_admission"))
  else
    (enqueue t request blocker preserved_wait_sequence
       (if preserved_wait_sequence =? 0 then 0 else u64_add (wr_retry_count prior_waiter) 1),
     wait_result request blocker "SB-SNTXN-LOCK-FAIRNESS-WAIT" "transaction.lock.fairness_wait").

(** The branch of a request that conflicts with the owners. *)
Definition conflict_wait (t : LocalTransactionLockTable) (request : TransactionLockRequest)
    (preserved_wait_sequence : N) (record : LockRecord)
    : LocalTransactionLockTable * TransactionLockResult :=
  let policy := lq_wait_policy request in
  let blocker := FirstBlockingOwner record (lq_requester request) in
  if HasDeadlockPath (lt_locks t) (lt_waiting t) blocker (lq_requester request) then
    (t, with_blocker blocker 0
          (LockError ld_deadlock_detected "SB-SNTXN-DEADLOCK-DETECTED"
             "transaction.lock.deadlock_detected" (lq_resource_key request)))
  else if DeadlineExpired policy then
    (t, with_blocker blocker (WaitElapsedMillis policy)
          (LockError ld_timeout "SB-SNTXN-LOCK-TIMEOUT" "transaction.lock.timeout"
             (lq_resource_key request)))
  else if wait_admission_refused t then
    (t, with_blocker blocker 0
          (LockError ld_admission_refused "SB-SNTXN-LOCK-ADMISSION-REFUSED"
             "transaction.lock.admission_refused" "wait_admission"))
  else
    (enqueue t request blocker preserved_wait_sequence (if preserved_wait_sequence =? 0 then 0 else 1),
     wait_result request blocker "SB-SNTXN-LOCK-WAIT-REQUIRED" "transaction.lock.wait_required").

Definition AcquireInternal (t : LocalTransactionLockTable) (request : TransactionLockRequest)
    (preserved_wait_sequence : N) : LocalTransactionLockTable * TransactionLockResult :=
  let requester := lq_requester request in
  let key := lq_resource_key request in
  let policy := lt_admission_policy t in
  if negb (local_id_valid requester) || bool_decide (key = ""%string) ||
     bool_decide (lq_mode request = lm_unknown) || negb (lq_transaction_active request) then
    (t, LockError ld_invalid_request "SB-SNTXN-LOCK-INVALID-REQUEST" "transaction.lock.invalid_request" "")
  else if negb (ap_max_held_locks policy =? 0) &&
          (ap_max_held_locks policy <=? N.of_nat (size (lt_locks t))) &&
          bool_decide (lt_locks t !! key = None) then
    (t, LockError ld_admission_refused "SB-SNTXN-LOCK-ADMISSION-REFUSED"
          "transaction.lock.admission_refused" "max_held_locks")
  else match lt_locks t !! key with
  | None =>
    (set_waiting (delete requester (lt_waiting t))
       (set_locks (<[key := mkLockRecord [requester] (lq_mode request)]> (lt_locks t)) t),
     lock_success ld_granted)
  | Some record =>
    if OwnsLock record requester &&
       (bool_decide (lk_mode record = lm_exclusive) || bool_decide (lk_mode record = lq_mode request) ||
        CompatibleWithExisting record requester (lq_mode request)) then
      (set_waiting (delete requester (lt_waiting t))
         (set_locks (<[key := raise_mode (lq_mode request) record]> (lt_locks t)) t),
       lock_success ld_already_owned)
    else
    match (if OwnsLock record requester then None
           else EarliestPriorWaiterForResource (lt_waiting t) key requester preserved_wait_sequence) with
    | Some prior_waiter => fairness_wait t request preserved_wait_sequence prior_waiter
    | None =>
      if CompatibleWithExisting record requester (lq_mode request) then
        (set_waiting (delete requester (lt_waiting t))
           (set_locks (<[key := AddOwner (raise_mode (lq_mode request) record) requester]> (lt_locks t)) t),
         lock_success ld_granted)
      else conflict_wait t request preserved_wait_sequence record
    end
  end.

Definition Acquire (t : LocalTransactionLockTable) (request : TransactionLockRequest) :=
  AcquireInternal t request 0.

Definition Retry (t : LocalTransactionLockTable) (requester : LocalTransactionId)
    : LocalTransactionLockTable * TransactionLockResult :=
  match lt_waiting t !! requester with
  | None =>
    (t, LockError ld_invalid_request "SB-SNTXN-LOCK-INVALID-RETRY" "transaction.lock.invalid_retry" "")
  | Some wait =>
    AcquireInternal (set_waiting (delete requester (lt_waiting t)) t) (wr_request wait)
      (wr_wait_sequence wait)
  end.

Definition Release (t : LocalTransactionLockTable) (owner : LocalTransactionId) (resource_key : string)
    : LocalTransactionLockTable * TransactionLockResult :=
  let refused :=
    (t, LockError ld_invalid_request "SB-SNTXN-LOCK-INVALID-RELEASE" "transaction.lock.invalid_release"
          resource_key) in
  match lt_locks t !! resource_key with
  | None => refused
  | Some record =>
    if negb (OwnsLock record owner) then refused
    else
    let record := RemoveOwner record owner in
    let locks := if bool_decide (lk_owners record = []) then delete resource_key (lt_locks t)
                 else <[resource_key := record]> (lt_locks t) in
    (set_waiting (delete owner (lt_waiting t)) (set_locks locks t), lock_success ld_granted)
  end.

(** The map loop of [ReleaseAll]: what stays of a record. *)
Definition release_record (owner : LocalTransactionId) (r : LockRecord) : option LockRecord :=
  let r := if OwnsLock r owner then RemoveOwner r owner else r in
  if bool_decide (lk_owners r = []) then None else Some r.

Definition ReleaseAll (t : LocalTransactionLockTable) (owner : LocalTransactionId)
    : LocalTransactionLockTable * N :=
  (set_waiting (delete owner (lt_waiting t)) (set_locks (omap (release_record owner) (lt_locks t)) t),
   N.of_nat (size (filter (fun p => OwnsLock p.2 owner = true) (lt_locks t)))).

Definition held_lock_count (t : LocalTransactionLockTable) : N := N.of_nat (size (lt_locks t)).
Definition waiting_lock_count (t : LocalTransactionLockTable) : N := N.of_nat (size (lt_waiting t)).
