(* ===== verification/LockLifecycle.v ===== *)
(** * Lock and wait lifecycle

    Models [lock_wait_lifecycle.{hpp,cpp}] of [src/project/src/transaction/mga]: the
    grants and waits of named owners on named resources in nineteen lock modes,
    with wait queues, draining after a release, timeouts, cancellation, disconnect,
    deadlock resolution and shutdown.  The two [std::map]s are finite maps; where
    their iteration order shows, the keys are taken in string order. *)

From Stdlib Require Import Ascii.
From S2P Require Import Prelude Platform.

(** ** Enumerations *)

Inductive MGAWaitResourceKind := wk_logical_lock | wk_physical_latch | wk_unknown.

Inductive MGALockOwnerKind :=
| ok_transaction | ok_statement | ok_cursor | ok_operation | ok_recovery | ok_cleanup | ok_archive
| ok_backup_restore | ok_cluster_participant | ok_engine_coordinator | ok_unknown.

Inductive MGALockScopeKind :=
| sk_database | sk_filespace | sk_page | sk_relation | sk_record_lineage | sk_record_version | sk_index
| sk_index_key | sk_index_key_range | sk_predicate_guard | sk_catalog_object_uuid
| sk_metadata_name_binding | sk_domain_object | sk_udr_package | sk_security_policy_generation
| sk_archive_descriptor | sk_backup_boundary | sk_cluster_transaction_identifier
| sk_cluster_member_epoch | sk_cluster_routing_or_placement_unit | sk_unknown.

Inductive MGALockMode :=
| md_intent_shared | md_intent_exclusive | md_shared_read | md_shared_stability | md_update_intent
| md_exclusive_write | md_schema_stability | md_schema_modify | md_range_shared | md_range_update
| md_range_insert_guard | md_range_exclusive | md_maintenance_shared | md_maintenance_exclusive
| md_recovery_exclusive | md_archive_shared | md_archive_exclusive | md_cluster_prepare
| md_cluster_decision | md_unknown.

Inductive MGAWaitPolicy :=
| wp_no_wait_policy | wp_wait_forever | wp_wait_timeout | wp_wait_until_statement_end
| wp_wait_until_transaction_end | wp_wait_with_deadlock_detection | wp_wait_with_priority
| wp_reference_compatible_wait | wp_maintenance_window_wait | wp_unknown.

Inductive MGAPriorityClass :=
| pr_normal | pr_foreground | pr_maintenance | pr_recovery | pr_emergency | pr_cluster_decision | pr_unknown.

Inductive MGALockReleaseCondition :=
| rc_statement_end | rc_transaction_end | rc_operation_phase_end | rc_operation_end | rc_recovery_end
| rc_explicit_release | rc_unknown.

Inductive MGADurableRecoverySource :=
| ds_transaction_inventory | ds_operation_envelope | ds_cluster_decision | ds_none | ds_unknown.

Inductive MGALockLifecycleDecision :=
| lc_granted | lc_already_owned | lc_wait_queued | lc_lock_refused | lc_wait_timeout | lc_wait_cancelled
| lc_owner_disconnected | lc_deadlock_detected | lc_deadlock_victim | lc_released | lc_shutdown_cleanup
| lc_admission_rejected | lc_cluster_absent | lc_cluster_decision_required | lc_invalid_request.

#[export] Instance MGAWaitResourceKind_eq_dec : EqDecision MGAWaitResourceKind.
Proof. solve_decision. Defined.
#[export] Instance MGALockOwnerKind_eq_dec : EqDecision MGALockOwnerKind.
Proof. solve_decision. Defined.
#[export] Instance MGALockScopeKind_eq_dec : EqDecision MGALockScopeKind.
Proof. solve_decision. Defined.
#[export] Instance MGALockMode_eq_dec : EqDecision MGALockMode.
Proof. solve_decision. Defined.
#[export] Instance MGAWaitPolicy_eq_dec : EqDecision MGAWaitPolicy.
Proof. solve_decision. Defined.
#[export] Instance MGAPriorityClass_eq_dec : EqDecision MGAPriorityClass.
Proof. solve_decision. Defined.
#[export] Instance MGALockLifecycleDecision_eq_dec : EqDecision MGALockLifecycleDecision.
Proof. solve_decision. Defined.

(** ** Data *)

Record MGALockRequest := mkMGARequest {
  mq_request_id : string;
  mq_owner_kind : MGALockOwnerKind;
  mq_owner_uuid : string;
  mq_transaction_uuid : string;
  mq_statement_uuid : string;
  mq_operation_id : string;
  mq_resource_kind : MGAWaitResourceKind;
  mq_scope_kind : MGALockScopeKind;
  mq_scope_uuid : string;
  mq_record_uuid : string;
  mq_table_uuid : string;
  mq_database_uuid : string;
  mq_cluster_uuid : string;
  mq_route_generation : N;
  mq_route_generation_present : bool;
  mq_route_owner_token : string;
  mq_mode : MGALockMode;
  mq_wait_policy : MGAWaitPolicy;
  mq_timeout_millis : N;
  mq_priority_class : MGAPriorityClass;
  mq_reference_profile : string;
  mq_policy_epoch : N;
  mq_requested_at_millis : N;
  mq_cluster_exists : bool;
  mq_distributed_wait : bool;
  mq_recovery_critical : bool;
  mq_durable_work_completed : N;
  mq_transaction_age_millis : N;
  mq_locks_held_hint : N;
  mq_retry_cost : N;
  mq_release_condition : MGALockReleaseCondition;
  mq_durable_recovery_source : MGADurableRecoverySource }.

Definition MGALockRequest_default : MGALockRequest :=
  mkMGARequest "" ok_unknown "" "none" "none" "none" wk_logical_lock sk_unknown "none" "none" "none" ""
    "none" 0 false "none" md_unknown wp_wait_timeout 0 pr_normal "none" 0 0 false false false 0 0 0 0
    rc_transaction_end ds_none.

Definition set_request_id (v : string) (r : MGALockRequest) : MGALockRequest :=
  mkMGARequest v (mq_owner_kind r) (mq_owner_uuid r) (mq_transaction_uuid r)
    (mq_statement_uuid r) (mq_operation_id r) (mq_resource_kind r) (mq_scope_kind r) (mq_scope_uuid r)
    (mq_record_uuid r) (mq_table_uuid r) (mq_database_uuid r) (mq_cluster_uuid r) (mq_route_generation r)
    (mq_route_generation_present r) (mq_route_owner_token r) (mq_mode r) (mq_wait_policy r)
    (mq_timeout_millis r) (mq_priority_class r) (mq_reference_profile r) (mq_policy_epoch r)
    (mq_requested_at_millis r) (mq_cluster_exists r) (mq_distributed_wait r) (mq_recovery_critical r)
    (mq_durable_work_completed r) (mq_transaction_age_millis r) (mq_locks_held_hint r) (mq_retry_cost r)
    (mq_release_condition r) (mq_durable_recovery_source r).

Definition set_scope_uuid (v : string) (r : MGALockRequest) : MGALockRequest :=
  mkMGARequest (mq_request_id r) (mq_owner_kind r) (mq_owner_uuid r) (mq_transaction_uuid r)
    (mq_statement_uuid r) (mq_operation_id r) (mq_resource_kind r) (mq_scope_kind r) v
    (mq_record_uuid r) (mq_table_uuid r) (mq_database_uuid r) (mq_cluster_uuid r) (mq_route_generation r)
    (mq_route_generation_present r) (mq_route_owner_token r) (mq_mode r) (mq_wait_policy r)
    (mq_timeout_millis r) (mq_priority_class r) (mq_reference_profile r) (mq_policy_epoch r)
    (mq_requested_at_millis r) (mq_cluster_exists r) (mq_distributed_wait r) (mq_recovery_critical r)
    (mq_durable_work_completed r) (mq_transaction_age_millis r) (mq_locks_held_hint r) (mq_retry_cost r)
    (mq_release_condition r) (mq_durable_recovery_source r).

Record MGALockGrant := mkMGAGrant {
  mg_grant_id : string;
  mg_request_id : string;
  mg_owner_uuid : string;
  mg_owner_kind : MGALockOwnerKind;
  mg_resource_kind : MGAWaitResourceKind;
  mg_scope_kind : MGALockScopeKind;
  mg_scope_uuid : string;
  mg_database_uuid : string;
  mg_granted_mode : MGALockMode;
  mg_granted_at_millis : N;
  mg_grant_generation : N;
  mg_release_condition : MGALockReleaseCondition;
  mg_durable_recovery_source : MGADurableRecoverySource }.

Definition MGALockGrant_default : MGALockGrant :=
  mkMGAGrant "" "" "" ok_unknown wk_logical_lock sk_unknown "none" "" md_unknown 0 0 rc_unknown ds_unknown.

Record MGALockWait := mkMGAWait {
  mw_wait_id : string;
  mw_request_id : string;
  mw_owner_uuid : string;
  mw_resource_kind : MGAWaitResourceKind;
  mw_scope_kind : MGALockScopeKind;
  mw_scope_uuid : string;
  mw_database_uuid : string;
  mw_mode : MGALockMode;
  mw_blocked_by_grant_ids : list string;
  mw_wait_started_at_millis : N;
  mw_deadline_millis : N;
  mw_wait_policy : MGAWaitPolicy;
  mw_deadlock_detection_required : bool;
  mw_distributed_wait : bool;
  mw_public_summary : string;
  mw_protected_summary : string }.

Definition MGALockWait_default : MGALockWait :=
  mkMGAWait "" "" "" wk_logical_lock sk_unknown "none" "" md_unknown [] 0 0 wp_unknown false false "" "".

Definition set_blockers (ids : list string) (w : MGALockWait) : MGALockWait :=
  mkMGAWait (mw_wait_id w) (mw_request_id w) (mw_owner_uuid w) (mw_resource_kind w) (mw_scope_kind w)
    (mw_scope_uuid w) (mw_database_uuid w) (mw_mode w) ids (mw_wait_started_at_millis w)
    (mw_deadline_millis w) (mw_wait_policy w) (mw_deadlock_detection_required w) (mw_distributed_wait w)
    (mw_public_summary w) (mw_protected_summary w).

Record MGADeadlockRecord := mkDeadlockRecord {
  dl_cycle_owner_uuids : list string;
  dl_victim_owner_uuid : string;
  dl_victim_wait_id : string;
  dl_distributed : bool;
  dl_diagnostic : DiagnosticRecord }.

Record MGALockLifecycleMetrics := mkLifecycleMetrics {
  lmx_lock_requests : N;
  lmx_lock_grants : N;
  lmx_lock_waits : N;
  lmx_lock_timeouts : N;
  lmx_lock_cancellations : N;
  lmx_disconnect_cleanups : N;
  lmx_deadlocks_detected : N;
  lmx_deadlock_victims : N;
  lmx_shutdown_cleanups : N;
  lmx_cluster_state_records : N }.

Record MGALockLifecycleResult := mkLifecycleResult {
  lcr_status : Status;
  lcr_decision : MGALockLifecycleDecision;
  lcr_grant : MGALockGrant;
  lcr_wait : MGALockWait;
  lcr_victim_owner_uuid : string;
  lcr_victim_wait_id : string;
  lcr_cleanup_count : N;
  lcr_diagnostic : DiagnosticRecord }.

Definition lcr_ok (r : MGALockLifecycleResult) : bool :=
  status_ok (lcr_status r) &&
  bool_decide (lcr_decision r ∈ [lc_granted; lc_already_owned; lc_released; lc_owner_disconnected;
                                 lc_shutdown_cleanup]).

Record GrantRecord := mkGrantRecord {
  gr_grant : MGALockGrant; gr_request : MGALockRequest; gr_resource_key : string }.

Record WaitRecord := mkWaitRecord {
  wtr_wait : MGALockWait; wtr_request : MGALockRequest; wtr_resource_key : string; wtr_queue_sequence : N }.

Record MGALockWaitLifecycle := mkLifecycle {
  lf_grants : gmap string GrantRecord;
  lf_waits : gmap string WaitRecord;
  lf_wait_order : list string;
  lf_deadlock_history : list MGADeadlockRecord;
  lf_metrics : MGALockLifecycleMetrics;
  lf_generation : N;
  lf_wait_sequence : N;
  lf_accepting_new_requests : bool }.

Definition MGALockWaitLifecycle_default : MGALockWaitLifecycle :=
  mkLifecycle ∅ ∅ [] [] (mkLifecycleMetrics 0 0 0 0 0 0 0 0 0 0) 0 0 true.

(** ** Names *)

Definition MGAWaitResourceKindName (k : MGAWaitResourceKind) : string :=
  match k with wk_logical_lock => "logical_lock" | wk_physical_latch => "physical_latch" | wk_unknown => "unknown" end.

Definition MGALockOwnerKindName (k : MGALockOwnerKind) : string :=
  match k with
  | ok_transaction => "transaction" | ok_statement => "statement" | ok_cursor => "cursor"
  | ok_operation => "operation" | ok_recovery => "recovery" | ok_cleanup => "cleanup"
  | ok_archive => "archive" | ok_backup_restore => "backup_restore"
  | ok_cluster_participant => "cluster_participant" | ok_engine_coordinator => "engine_coordinator"
  | ok_unknown => "unknown"
  end.

Definition MGALockScopeKindName (k : MGALockScopeKind) : string :=
  match k with
  | sk_database => "database" | sk_filespace => "filespace" | sk_page => "page" | sk_relation => "relation"
  | sk_record_lineage => "record_lineage" | sk_record_version => "record_version" | sk_index => "index"
  | sk_index_key => "index_key" | sk_index_key_range => "index_key_range"
  | sk_predicate_guard => "predicate_guard" | sk_catalog_object_uuid => "catalog_object_uuid"
  | sk_metadata_name_binding => "metadata_name_binding" | sk_domain_object => "domain_object"
  | sk_udr_package => "udr_package" | sk_security_policy_generation => "security_policy_generation"
  | sk_archive_descriptor => "archive_descriptor" | sk_backup_boundary => "backup_boundary"
  | sk_cluster_transaction_identifier => "cluster_transaction_identifier"
  | sk_cluster_member_epoch => "cluster_member_epoch"
  | sk_cluster_routing_or_placement_unit => "cluster_routing_or_placement_unit"
  | sk_unknown => "unknown"
  end.

Definition MGALockModeName (m : MGALockMode) : string :=
  match m with
  | md_intent_shared => "intent_shared" | md_intent_exclusive => "intent_exclusive"
  | md_shared_read => "shared_read" | md_shared_stability => "shared_stability"
  | md_update_intent => "update_intent" | md_exclusive_write => "exclusive_write"
  | md_schema_stability => "schema_stability" | md_schema_modify => "schema_modify"
  | md_range_shared => "range_shared" | md_range_update => "range_update"
  | md_range_insert_guard => "range_insert_guard" | md_range_exclusive => "range_exclusive"
  | md_maintenance_shared => "maintenance_shared" | md_maintenance_exclusive => "maintenance_exclusive"
  | md_recovery_exclusive => "recovery_exclusive" | md_archive_shared => "archive_shared"
  | md_archive_exclusive => "archive_exclusive" | md_cluster_prepare => "cluster_prepare"
  | md_cluster_decision => "cluster_decision" | md_unknown => "unknown"
  end.

Definition MGAWaitPolicyName (p : MGAWaitPolicy) : string :=
  match p with
  | wp_no_wait_policy => "no_wait" | wp_wait_forever => "wait_forever" | wp_wait_timeout => "wait_timeout"
  | wp_wait_until_statement_end => "wait_until_statement_end"
  | wp_wait_until_transaction_end => "wait_until_transaction_end"
  | wp_wait_with_deadlock_detection => "wait_with_deadlock_detection"
  | wp_wait_with_priority => "wait_with_priority"
  | wp_reference_compatible_wait => "reference_compatible_wait"
  | wp_maintenance_window_wait => "maintenance_window_wait" | wp_unknown => "unknown"
  end.

Definition MGAPriorityClassName (p : MGAPriorityClass) : string :=
  match p with
  | pr_normal => "normal" | pr_foreground => "foreground" | pr_maintenance => "maintenance"
  | pr_recovery => "recovery" | pr_emergency => "emergency" | pr_cluster_decision => "cluster_decision"
  | pr_unknown => "unknown"
  end.

Definition MGALockLifecycleDecisionName (d : MGALockLifecycleDecision) : string :=
  match d with
  | lc_granted => "granted" | lc_already_owned => "already_owned" | lc_wait_queued => "wait_queued"
  | lc_lock_refused => "lock_refused" | lc_wait_timeout => "wait_timeout"
  | lc_wait_cancelled => "wait_cancelled" | lc_owner_disconnected => "owner_disconnected"
  | lc_deadlock_detected => "deadlock_detected" | lc_deadlock_victim => "deadlock_victim"
  | lc_released => "released" | lc_shutdown_cleanup => "shutdown_cleanup"
  | lc_admission_rejected => "admission_rejected" | lc_cluster_absent => "cluster_absent"
  | lc_cluster_decision_required => "cluster_decision_required" | lc_invalid_request => "invalid_request"
  end.

(** ** Compatibility of modes *)

Definition ModeIndex (m : MGALockMode) : nat :=
  match m with
  | md_intent_shared => 0 | md_intent_exclusive => 1 | md_shared_read => 2 | md_shared_stability => 3
  | md_update_intent => 4 | md_exclusive_write => 5 | md_schema_stability => 6 | md_schema_modify => 7
  | md_range_shared => 8 | md_range_update => 9 | md_range_insert_guard => 10 | md_range_exclusive => 11
  | md_maintenance_shared => 12 | md_maintenance_exclusive => 13 | md_recovery_exclusive => 14
  | md_archive_shared => 15 | md_archive_exclusive => 16 | md_cluster_prepare => 17
  | md_cluster_decision => 18 | md_unknown => 19
  end.

Definition kMatrix : list (list bool) :=
  let T := true in let F := false in
  [[T;T;T;T;T;F;T;F;T;T;T;F;T;F;F;T;F;T;F];
   [T;T;F;T;T;F;T;F;F;T;T;F;T;F;F;T;F;T;F];
   [T;F;T;T;F;F;T;F;T;F;T;F;T;F;F;T;F;F;F];
   [T;T;T;T;T;F;T;F;T;T;T;F;T;F;F;T;F;T;F];
   [T;T;F;T;F;F;T;F;F;F;T;F;T;F;F;T;F;T;F];
   [F;F;F;F;F;F;F;F;F;F;F;F;F;F;F;F;F;F;F];
   [T;T;T;T;T;F;T;F;T;T;T;F;T;F;F;T;F;T;F];
   [F;F;F;F;F;F;F;F;F;F;F;F;F;F;F;F;F;F;F];
   [T;F;T;T;F;F;T;F;T;F;T;F;T;F;F;T;F;F;F];
   [T;T;F;T;F;F;T;F;F;F;T;F;T;F;F;T;F;T;F];
   [T;T;T;T;T;F;T;F;T;T;T;F;T;F;F;T;F;T;F];
   [F;F;F;F;F;F;F;F;F;F;F;F;F;F;F;F;F;F;F];
   [T;T;T;T;T;F;T;F;T;T;T;F;T;F;F;T;F;T;F];
   [F;F;F;F;F;F;F;F;F;F;F;F;F;F;F;F;F;F;F];
   [F;F;F;F;F;F;F;F;F;F;F;F;F;F;F;F;F;F;F];
   [T;T;T;T;T;F;T;F;T;T;T;F;T;F;F;T;F;T;F];
   [F;F;F;F;F;F;F;F;F;F;F;F;F;F;F;F;F;F;F];
   [T;T;F;T;T;F;T;F;F;T;T;F;T;F;F;T;F;T;F];
   [F;F;F;F;F;F;F;F;F;F;F;F;F;F;F;F;F;F;F]].

Definition MGALockModesCompatible (requested existing : MGALockMode) : bool :=
  if bool_decide (requested = md_unknown) || bool_decide (existing = md_unknown) then false
  else nth (ModeIndex existing) (nth (ModeIndex requested) kMatrix []) false.

(** ** Diagnostics and results *)

Definition SeverityName (s : Severity) : string :=
  match s with
  | sev_trace => "trace" | sev_info => "info" | sev_warning => "warning" | sev_error => "error"
  | sev_fatal => "fatal"
  end.

Definition LifecycleErrorStatus (severity : Severity) : Status :=
  mkStatus sc_platform_required_feature_missing severity sub_transaction_mga.

Definition MakeMGALockLifecycleDiagnostic (status : Status) (diagnostic_code message_key : string)
    (request : option MGALockRequest) (wait : option MGALockWait) (required_action : string)
    (protected_detail : bool) : DiagnosticRecord :=
  let arg key value := mkDiagnosticArgument key (dav_text value) in
  let from_request (f : MGALockRequest -> string) := match request with None => "none"%string | Some r => f r end in
  MakeDiagnostic (st_code status) (st_severity status) (st_subsystem status) diagnostic_code message_key
    [arg "diag_code" diagnostic_code; arg "severity" (SeverityName (st_severity status));
     arg "request_id" (from_request mq_request_id); arg "owner_uuid" (from_request mq_owner_uuid);
     arg "resource_kind" (from_request (fun r => MGAWaitResourceKindName (mq_resource_kind r)));
     arg "scope_kind" (from_request (fun r => MGALockScopeKindName (mq_scope_kind r)));
     arg "scope_uuid" (from_request mq_scope_uuid);
     arg "mode" (from_request (fun r => MGALockModeName (mq_mode r)));
     arg "wait_id" (match wait with None => "none" | Some w => mw_wait_id w end);
     arg "cluster_epoch" "none";
     arg "route_generation"
       (from_request (fun r => if mq_route_generation_present r then to_string (mq_route_generation r) else "none"%string));
     arg "required_action" (if decide (required_action = ""%string) then "operator_review" else required_action);
     arg "protected" (if protected_detail then "true" else "false")]%string
    "" "transaction.mga.lock_wait_lifecycle" "".

Definition LifecycleResult (decision : MGALockLifecycleDecision) (status : Status)
    (diagnostic : DiagnosticRecord) : MGALockLifecycleResult :=
  mkLifecycleResult status decision MGALockGrant_default MGALockWait_default "" "" 0 diagnostic.

Definition lifecycle_success (decision : MGALockLifecycleDecision) : MGALockLifecycleResult :=
  LifecycleResult decision MgaOkStatus DiagnosticRecord_default.

Definition ErrorResult (decision : MGALockLifecycleDecision) (diagnostic_code message_key : string)
    (request : option MGALockRequest) (wait : option MGALockWait) (required_action : string)
    (severity : Severity) : MGALockLifecycleResult :=
  let status := LifecycleErrorStatus severity in
  LifecycleResult decision status
    (MakeMGALockLifecycleDiagnostic status diagnostic_code message_key request wait required_action true).

Definition result_grant (g : MGALockGrant) (r : MGALockLifecycleResult) : MGALockLifecycleResult :=
  mkLifecycleResult (lcr_status r) (lcr_decision r) g (lcr_wait r) (lcr_victim_owner_uuid r)
    (lcr_victim_wait_id r) (lcr_cleanup_count r) (lcr_diagnostic r).
Definition result_wait (w : MGALockWait) (r : MGALockLifecycleResult) : MGALockLifecycleResult :=
  mkLifecycleResult (lcr_status r) (lcr_decision r) (lcr_grant r) w (lcr_victim_owner_uuid r)
    (lcr_victim_wait_id r) (lcr_cleanup_count r) (lcr_diagnostic r).
Definition result_victim (owner wait_id : string) (r : MGALockLifecycleResult) : MGALockLifecycleResult :=
  mkLifecycleResult (lcr_status r) (lcr_decision r) (lcr_grant r) (lcr_wait r) owner wait_id
    (lcr_cleanup_count r) (lcr_diagnostic r).
Definition result_count (n : N) (r : MGALockLifecycleResult) : MGALockLifecycleResult :=
  mkLifecycleResult (lcr_status r) (lcr_decision r) (lcr_grant r) (lcr_wait r) (lcr_victim_owner_uuid r)
    (lcr_victim_wait_id r) n (lcr_diagnostic r).
Definition result_decision (d : MGALockLifecycleDecision) (r : MGALockLifecycleResult) : MGALockLifecycleResult :=
  mkLifecycleResult (lcr_status r) d (lcr_grant r) (lcr_wait r) (lcr_victim_owner_uuid r)
    (lcr_victim_wait_id r) (lcr_cleanup_count r) (lcr_diagnostic r).

(** ** Request validation *)

Definition IsNone (value : string) : bool :=
  bool_decide (value = ""%string) || bool_decide (value = "none"%string).

Definition is_hex_char (c : ascii) : bool :=
  let n := Ascii.N_of_ascii c in
  (48 <=? n) && (n <=? 57) || (97 <=? n) && (n <=? 102) || (65 <=? n) && (n <=? 70).

Fixpoint uuid_chars (index : nat) (value : string) : bool :=
  match value with
  | EmptyString => true
  | String c value =>
    (if bool_decide (index ∈ [8; 13; 18; 23]%nat) then bool_decide (c = "-"%char) else is_hex_char c) &&
    uuid_chars (S index) value
  end.

Definition LooksLikeUuidText (value : string) : bool :=
  bool_decide (String.length value = 36%nat) && uuid_chars 0 value.

Definition LooksLikeUuidV7Text (value : string) : bool :=
  LooksLikeUuidText value && bool_decide (String.get 14 value = Some "7"%char).

Definition IsClusterScope (k : MGALockScopeKind) : bool :=
  bool_decide (k ∈ [sk_cluster_transaction_identifier; sk_cluster_member_epoch;
                    sk_cluster_routing_or_placement_unit]).

Definition IsClusterMode (m : MGALockMode) : bool :=
  bool_decide (m ∈ [md_cluster_prepare; md_cluster_decision]).

Definition IsTransactionScopedWrite (r : MGALockRequest) : bool :=
  bool_decide (mq_owner_kind r = ok_transaction) &&
  bool_decide (mq_mode r ∈ [md_exclusive_write; md_update_intent; md_range_update; md_range_exclusive;
                            md_schema_modify]).

Definition missing_uuid (value : string) : bool := IsNone value || negb (LooksLikeUuidText value).

(** [ValidateRequestShape]: [None] is [true], [Some reason] is [false] with its reason. *)
Definition ValidateRequestShape (r : MGALockRequest) : option string :=
  if negb (LooksLikeUuidV7Text (mq_request_id r)) then Some "request_id"%string
  else if bool_decide (mq_owner_kind r = ok_unknown) || negb (LooksLikeUuidText (mq_owner_uuid r)) then
    Some "owner_uuid"%string
  else if decide (mq_resource_kind r = wk_unknown) then Some "resource_kind"%string
  else if negb (LooksLikeUuidText (mq_database_uuid r)) then Some "database_uuid"%string
  else if decide (mq_scope_kind r = sk_unknown) then Some "scope_kind"%string
  else if decide (mq_mode r = md_unknown) then Some "mode"%string
  else if decide (mq_wait_policy r = wp_unknown) then Some "wait_policy"%string
  else if decide (mq_priority_class r = pr_unknown) then Some "priority_class"%string
  else if IsTransactionScopedWrite r && missing_uuid (mq_transaction_uuid r) then Some "transaction_uuid"%string
  else if bool_decide (mq_scope_kind r = sk_record_lineage) && missing_uuid (mq_record_uuid r) then
    Some "record_uuid"%string
  else if bool_decide (mq_scope_kind r ∈ [sk_record_lineage; sk_index; sk_index_key; sk_index_key_range]) &&
          missing_uuid (mq_table_uuid r) then Some "table_uuid"%string
  else None.

(** ** Resources, owners and deadlines *)

Definition ResourceKey (r : MGALockRequest) : string :=
  (MGAWaitResourceKindName (mq_resource_kind r) +:+ "|" +:+ mq_database_uuid r +:+ "|" +:+
   MGALockScopeKindName (mq_scope_kind r) +:+ "|" +:+
   (if negb (IsNone (mq_record_uuid r)) then "record:" +:+ mq_record_uuid r
    else if negb (IsNone (mq_scope_uuid r)) then "scope:" +:+ mq_scope_uuid r
    else if negb (IsNone (mq_table_uuid r)) then "table:" +:+ mq_table_uuid r
    else "database"))%string.

Definition SameOwner (r : MGALockRequest) (g : MGALockGrant) : bool :=
  bool_decide (mq_owner_uuid r = mg_owner_uuid g) && bool_decide (mq_owner_kind r = mg_owner_kind g).

Definition RequestDeadlineExpired (r : MGALockRequest) (now_millis : N) : bool :=
  if decide (mq_wait_policy r = wp_no_wait_policy) then true
  else if negb (bool_decide (mq_wait_policy r ∈ [wp_wait_timeout; wp_reference_compatible_wait;
                                                 wp_maintenance_window_wait])) then false
  else if decide (mq_timeout_millis r = 0) then true
  else bool_decide (mq_requested_at_millis r <= now_millis) &&
       bool_decide (mq_timeout_millis r <= u64_sub now_millis (mq_requested_at_millis r)).

Definition DeadlineMillis (r : MGALockRequest) : N :=
  if decide (mq_timeout_millis r = 0) then 0 else u64_add (mq_requested_at_millis r) (mq_timeout_millis r).

Definition WaitDeadlineExpired (w : MGALockWait) (now_millis : N) : bool :=
  bool_decide (mw_deadline_millis w <> 0) && bool_decide (mw_deadline_millis w <= now_millis).

(** A grant that stands in the way of a request. *)
Definition blocks (r : MGALockRequest) (resource_key : string) (g : GrantRecord) : bool :=
  bool_decide (gr_resource_key g = resource_key) && negb (SameOwner r (gr_grant g)) &&
  negb (MGALockModesCompatible (mq_mode r) (mg_granted_mode (gr_grant g))).

Definition BlockingGrants (grants : gmap string GrantRecord) (r : MGALockRequest) (resource_key : string)
    : list string :=
  string_sort ((fun p => mg_grant_id (gr_grant p.2)) <$>
               filter (fun p => blocks r resource_key p.2 = true) (map_in_order grants)).

Definition OwnerHasGrantOnResource (grants : gmap string GrantRecord) (r : MGALockRequest)
    (resource_key : string) : bool :=
  existsb (fun p => bool_decide (gr_resource_key p.2 = resource_key) && SameOwner r (gr_grant p.2))
    (map_in_order grants).

Definition HeldLocksForOwner (grants : gmap string GrantRecord) (owner_uuid : string) : N :=
  N.of_nat (length (filter (fun p => mg_owner_uuid (gr_grant p.2) = owner_uuid) (map_in_order grants))).

Definition MakeGrantId (request_id : string) (generation : N) : string :=
  ("grant:" +:+ request_id +:+ ":" +:+ to_string generation)%string.
Definition MakeWaitId (request_id : string) (sequence : N) : string :=
  ("wait:" +:+ request_id +:+ ":" +:+ to_string sequence)%string.

Definition MakeGrant (r : MGALockRequest) (now_millis generation : N) : MGALockGrant :=
  mkMGAGrant (MakeGrantId (mq_request_id r) generation) (mq_request_id r) (mq_owner_uuid r) (mq_owner_kind r)
    (mq_resource_kind r) (mq_scope_kind r) (mq_scope_uuid r) (mq_database_uuid r) (mq_mode r) now_millis
    generation (mq_release_condition r) (mq_durable_recovery_source r).

Definition MakeWait (r : MGALockRequest) (blockers : list string) (now_millis sequence : N) : MGALockWait :=
  let public_summary := (MGAWaitResourceKindName (mq_resource_kind r) +:+ ":" +:+
                         MGALockScopeKindName (mq_scope_kind r) +:+ ":" +:+ MGALockModeName (mq_mode r))%string in
  mkMGAWait (MakeWaitId (mq_request_id r) sequence) (mq_request_id r) (mq_owner_uuid r) (mq_resource_kind r)
    (mq_scope_kind r) (mq_scope_uuid r) (mq_database_uuid r) (mq_mode r) blockers now_millis
    (DeadlineMillis r) (mq_wait_policy r)
    (bool_decide (mq_wait_policy r = wp_wait_with_deadlock_detection) ||
     bool_decide (mq_wait_policy r = wp_wait_with_priority) || mq_distributed_wait r)
    (mq_distributed_wait r) public_summary (mq_owner_uuid r +:+ " waits on " +:+ public_summary)%string.

Definition RemoveWaitOrder (order : list string) (wait_id : string) : list string :=
  filter (fun id => id <> wait_id) order.

(** ** Deadlock detection *)

Definition wait_graph : Type := gmap string (gset string).

(** The owners whose grants a wait names, other than its own owner. *)
Definition wait_edges (grants : gmap string GrantRecord) (w : MGALockWait) : gset string :=
  list_to_set (omap (fun id => g ← grants !! id;
                               if decide (mg_owner_uuid (gr_grant g) = mw_owner_uuid w) then None
                               else Some (mg_owner_uuid (gr_grant g))) (mw_blocked_by_grant_ids w)).

Definition BuildWaitForGraph (grants : gmap string GrantRecord) (waits : gmap string WaitRecord) : wait_graph :=
  foldl (fun graph p =>
           let w := wtr_wait p.2 in
           <[mw_owner_uuid w := default ∅ (graph !! mw_owner_uuid w) ∪ wait_edges grants w]> graph)
    ∅ (map_in_order waits).

(** [FindCycleFrom]: the cycle if one is found, and the visited set.  A node is
    expanded at most once, so the recursion is at most one deeper than the number
    of nodes with edges; running out of fuel is reported as no cycle. *)
Fixpoint FindCycleFrom (fuel : nat) (graph : wait_graph) (current : string) (path : list string)
    (visited : gset string) : option (list string) * gset string :=
  match fuel with
  | O => (None, visited)
  | S fuel =>
    match list_find (fun x => x = current) path with
    | Some (i, _) => (Some (drop i path), visited)
    | None =>
      if decide (current ∈ visited) then (None, visited)
      else
        foldl (fun acc next =>
                 match acc with
                 | (Some cycle, visited) => (Some cycle, visited)
                 | (None, visited) => FindCycleFrom fuel graph next (path ++ [current]) visited
                 end)
          (None, {[current]} ∪ visited)
          (string_sort (elements (default ∅ (graph !! current))))
    end
  end.

Definition cycle_fuel (graph : wait_graph) : nat := S (S (size graph)).

Fixpoint first_cycle (graph : wait_graph) (roots : list string) : list string :=
  match roots with
  | [] => []
  | root :: roots =>
    match fst (FindCycleFrom (cycle_fuel graph) graph root [] ∅) with
    | Some cycle => string_sort cycle
    | None => first_cycle graph roots
    end
  end.

Definition FindFirstCycle (graph : wait_graph) : list string := first_cycle graph (map_in_order graph).*1.

Definition WaitForOwner (waits : gmap string WaitRecord) (owner_uuid : string) : option WaitRecord :=
  foldl (fun best p =>
           if decide (mw_owner_uuid (wtr_wait p.2) <> owner_uuid) then best
           else match best with
                | None => Some p.2
                | Some b => if decide (wtr_queue_sequence p.2 < wtr_queue_sequence b) then Some p.2 else best
                end)
    None (map_in_order waits).

Definition priority_index (p : MGAPriorityClass) : N :=
  match p with
  | pr_normal => 0 | pr_foreground => 1 | pr_maintenance => 2 | pr_recovery => 3 | pr_emergency => 4
  | pr_cluster_decision => 5 | pr_unknown => 6
  end.

Definition VictimLess (grants : gmap string GrantRecord) (waits : gmap string WaitRecord)
    (left right : string) : bool :=
  let request owner := match WaitForOwner waits owner with
                       | None => MGALockRequest_default | Some w => wtr_request w end in
  let l := request left in
  let r := request right in
  let locks q owner := if decide (mq_locks_held_hint q = 0) then HeldLocksForOwner grants owner
                       else mq_locks_held_hint q in
  if decide (mq_recovery_critical l <> mq_recovery_critical r) then negb (mq_recovery_critical l)
  else if decide (mq_priority_class l <> mq_priority_class r) then
    bool_decide (priority_index (mq_priority_class l) < priority_index (mq_priority_class r))
  else if decide (mq_durable_work_completed l <> mq_durable_work_completed r) then
    bool_decide (mq_durable_work_completed l < mq_durable_work_completed r)
  else if decide (mq_transaction_age_millis l <> mq_transaction_age_millis r) then
    bool_decide (mq_transaction_age_millis l < mq_transaction_age_millis r)
  else if decide (locks l left <> locks r right) then bool_decide (locks l left < locks r right)
  else if decide (mq_retry_cost l <> mq_retry_cost r) then bool_decide (mq_retry_cost l < mq_retry_cost r)
  else String.ltb left right.

Definition CycleContainsDistributedWait (waits : gmap string WaitRecord) (cycle : list string) : bool :=
  existsb (fun owner => match WaitForOwner waits owner with
                        | Some w => mw_distributed_wait (wtr_wait w) | None => false end) cycle.

Fixpoint HasEarlierWaitForResource (order : list string) (waits : gmap string WaitRecord)
    (candidate : WaitRecord) : bool :=
  match order with
  | [] => false
  | wait_id :: order =>
    if decide (wait_id = mw_wait_id (wtr_wait candidate)) then false
    else match waits !! wait_id with
    | Some w => if decide (wtr_resource_key w = wtr_resource_key candidate) then true
                else HasEarlierWaitForResource order waits candidate
    | None => HasEarlierWaitForResource order waits candidate
    end
  end.

(** ** State updates *)

Definition metrics_add (a b : MGALockLifecycleMetrics) : MGALockLifecycleMetrics :=
  mkLifecycleMetrics (u64_add (lmx_lock_requests a) (lmx_lock_requests b))
    (u64_add (lmx_lock_grants a) (lmx_lock_grants b)) (u64_add (lmx_lock_waits a) (lmx_lock_waits b))
    (u64_add (lmx_lock_timeouts a) (lmx_lock_timeouts b))
    (u64_add (lmx_lock_cancellations a) (lmx_lock_cancellations b))
    (u64_add (lmx_disconnect_cleanups a) (lmx_disconnect_cleanups b))
    (u64_add (lmx_deadlocks_detected a) (lmx_deadlocks_detected b))
    (u64_add (lmx_deadlock_victims a) (lmx_deadlock_victims b))
    (u64_add (lmx_shutdown_cleanups a) (lmx_shutdown_cleanups b))
    (u64_add (lmx_cluster_state_records a) (lmx_cluster_state_records b)).

Definition one_request := mkLifecycleMetrics 1 0 0 0 0 0 0 0 0 0.
Definition one_grant := mkLifecycleMetrics 0 1 0 0 0 0 0 0 0 0.
Definition one_wait := mkLifecycleMetrics 0 0 1 0 0 0 0 0 0 0.
Definition one_timeout := mkLifecycleMetrics 0 0 0 1 0 0 0 0 0 0.
Definition one_cancellation := mkLifecycleMetrics 0 0 0 0 1 0 0 0 0 0.
Definition one_disconnect := mkLifecycleMetrics 0 0 0 0 0 1 0 0 0 0.
Definition one_deadlock := mkLifecycleMetrics 0 0 0 0 0 0 1 0 0 0.
Definition one_victim := mkLifecycleMetrics 0 0 0 0 0 0 0 1 0 0.
Definition one_shutdown := mkLifecycleMetrics 0 0 0 0 0 0 0 0 1 0.

Definition count (m : MGALockLifecycleMetrics) (s : MGALockWaitLifecycle) : MGALockWaitLifecycle :=
  mkLifecycle (lf_grants s) (lf_waits s) (lf_wait_order s) (lf_deadlock_history s) (metrics_add (lf_metrics s) m)
    (lf_generation s) (lf_wait_sequence s) (lf_accepting_new_requests s).

Definition set_waits (waits : gmap string WaitRecord) (order : list string) (s : MGALockWaitLifecycle)
    : MGALockWaitLifecycle :=
  mkLifecycle (lf_grants s) waits order (lf_deadlock_history s) (lf_metrics s) (lf_generation s)
    (lf_wait_sequence s) (lf_accepting_new_requests s).

(** Erases a wait from the map and from the queue. *)
Definition erase_wait (wait_id : string) (s : MGALockWaitLifecycle) : MGALockWaitLifecycle :=
  set_waits (delete wait_id (lf_waits s)) (RemoveWaitOrder (lf_wait_order s) wait_id) s.

Definition set_grants (grants : gmap string GrantRecord) (s : MGALockWaitLifecycle) : MGALockWaitLifecycle :=
  mkLifecycle grants (lf_waits s) (lf_wait_order s) (lf_deadlock_history s) (lf_metrics s) (lf_generation s)
    (lf_wait_sequence s) (lf_accepting_new_requests s).

(** [emplace]: an existing key is kept. *)
Definition emplace {A} (k : string) (v : A) (m : gmap string A) : gmap string A :=
  match m !! k with Some _ => m | None => <[k := v]> m end.

(** Grants [request] with the next generation. *)
Definition add_grant (request : MGALockRequest) (resource_key : string) (now_millis : N)
    (s : MGALockWaitLifecycle) : MGALockGrant * MGALockWaitLifecycle :=
  let generation := u64_add (lf_generation s) 1 in
  let grant := MakeGrant request now_millis generation in
  (grant,
   mkLifecycle (emplace (mg_grant_id grant) (mkGrantRecord grant request resource_key) (lf_grants s))
     (lf_waits s) (lf_wait_order s) (lf_deadlock_history s) (metrics_add (lf_metrics s) one_grant) generation
     (lf_wait_sequence s) (lf_accepting_new_requests s)).

(** ** Draining *)

(** One pass of the [for] loop over a copy of the queue: the state it leaves, and
    the grant that ended it early. *)
Fixpoint drain_pass (order : list string) (now_millis : N) (s : MGALockWaitLifecycle)
    : MGALockWaitLifecycle * option MGALockGrant :=
  match order with
  | [] => (s, None)
  | wait_id :: order =>
    match lf_waits s !! wait_id with
    | None => drain_pass order now_millis s
    | Some w =>
      if HasEarlierWaitForResource (lf_wait_order s) (lf_waits s) w then drain_pass order now_millis s
      else
        let blockers := BlockingGrants (lf_grants s) (wtr_request w) (wtr_resource_key w) in
        if decide (blockers <> []) then
          drain_pass order now_millis
            (set_waits (<[wait_id := mkWaitRecord (set_blockers blockers (wtr_wait w)) (wtr_request w)
                                       (wtr_resource_key w) (wtr_queue_sequence w)]> (lf_waits s))
               (lf_wait_order s) s)
        else
          let '(grant, s) := add_grant (wtr_request w) (wtr_resource_key w) now_millis s in
          (erase_wait wait_id s, Some grant)
    end
  end.

(** The [while] loop: a pass that grants erases one queue entry. *)
Fixpoint drain_loop (fuel : nat) (now_millis : N) (s : MGALockWaitLifecycle) (granted : list MGALockGrant)
    : MGALockWaitLifecycle * list MGALockGrant :=
  match fuel with
  | O => (s, granted)
  | S fuel =>
    match drain_pass (lf_wait_order s) now_millis s with
    | (s, None) => (s, granted)
    | (s, Some grant) => drain_loop fuel now_millis s (granted ++ [grant])
    end
  end.

Definition DrainGrantableWaits (now_millis : N) (s : MGALockWaitLifecycle)
    : MGALockWaitLifecycle * list MGALockGrant :=
  drain_loop (S (length (lf_wait_order s))) now_millis s [].

(** ** The operations *)

Definition push_deadlock (r : MGADeadlockRecord) (s : MGALockWaitLifecycle) : MGALockWaitLifecycle :=
  mkLifecycle (lf_grants s) (lf_waits s) (lf_wait_order s) (lf_deadlock_history s ++ [r]) (lf_metrics s)
    (lf_generation s) (lf_wait_sequence s) (lf_accepting_new_requests s).

Definition choose_victim (grants : gmap string GrantRecord) (waits : gmap string WaitRecord)
    (front : string) (cycle : list string) : string :=
  foldl (fun victim owner => if VictimLess grants waits owner victim then owner else victim) front cycle.

Definition lifecycle_DetectAndResolveDeadlock (s : MGALockWaitLifecycle)
    : MGALockLifecycleResult * MGALockWaitLifecycle :=
  match FindFirstCycle (BuildWaitForGraph (lf_grants s) (lf_waits s)) with
  | [] => (result_count 0 (lifecycle_success lc_deadlock_detected), s)
  | front :: rest =>
    let cycle := front :: rest in
    let s := count one_deadlock s in
    if CycleContainsDistributedWait (lf_waits s) cycle then
      let wait := WaitForOwner (lf_waits s) front in
      (ErrorResult lc_cluster_decision_required "diag.mga.lock.cluster_decision_required"
         "mga.lock.cluster_decision_required" (wtr_request <$> wait) (wtr_wait <$> wait)
         "request_cluster_distributed_deadlock_victim" sev_fatal, s)
    else
      let victim := choose_victim (lf_grants s) (lf_waits s) front cycle in
      match WaitForOwner (lf_waits s) victim with
      | None =>
        (ErrorResult lc_deadlock_detected "diag.mga.lock.deadlock_detected" "mga.lock.deadlock_detected" None None
           "operator_review_deadlock_without_wait_record" sev_fatal, s)
      | Some w =>
        let wait := wtr_wait w in
        let wait_id := mw_wait_id wait in
        let request := wtr_request w in
        let s := count one_victim (erase_wait wait_id s) in
        let result := ErrorResult lc_deadlock_victim "diag.mga.lock.deadlock_victim" "mga.lock.deadlock_victim"
                        (Some request) (Some wait) "return_deadlock_victim_transaction_state_unchanged" sev_error in
        let record := mkDeadlockRecord cycle victim wait_id false
          (MakeMGALockLifecycleDiagnostic (LifecycleErrorStatus sev_fatal) "diag.mga.lock.deadlock_detected"
             "mga.lock.deadlock_detected" (Some request) (Some wait) "selected_deterministic_local_victim" true) in
        (result_victim victim wait_id (result_wait wait result), push_deadlock record s)
      end
  end.

(** Queues a request that found [blockers]. *)
Definition queue_wait (request : MGALockRequest) (resource_key : string) (blockers : list string)
    (now_millis : N) (s : MGALockWaitLifecycle) : MGALockWait * MGALockWaitLifecycle :=
  let sequence := u64_add (lf_wait_sequence s) 1 in
  let wait := MakeWait request blockers now_millis sequence in
  (wait,
   mkLifecycle (lf_grants s)
     (<[mw_wait_id wait := mkWaitRecord wait request resource_key sequence]> (lf_waits s))
     (lf_wait_order s ++ [mw_wait_id wait]) (lf_deadlock_history s) (metrics_add (lf_metrics s) one_wait)
     (lf_generation s) sequence (lf_accepting_new_requests s)).

(** The end of [Acquire], once the request is queued and not a victim itself.
    [waits_[id]] would add a default record for an absent key. *)
Definition queued_result (request : MGALockRequest) (wait_id : string) (s : MGALockWaitLifecycle)
    : MGALockLifecycleResult * MGALockWaitLifecycle :=
  let record := default (mkWaitRecord MGALockWait_default MGALockRequest_default "" 0) (lf_waits s !! wait_id) in
  let status := LifecycleErrorStatus sev_error in
  let wait := wtr_wait record in
  (result_wait wait
     (LifecycleResult lc_wait_queued status
        (MakeMGALockLifecycleDiagnostic status "diag.mga.lock.write_intent_conflict" "mga.lock.wait_queued"
           (Some request) (Some wait) "wait_for_incompatible_owner_release" true)),
   set_waits (<[wait_id := record]> (lf_waits s)) (lf_wait_order s) s).

Definition lifecycle_Acquire (request : MGALockRequest) (now_millis : N) (s : MGALockWaitLifecycle)
    : MGALockLifecycleResult * MGALockWaitLifecycle :=
  let s := count one_request s in
  match ValidateRequestShape request with
  | Some reason =>
    (ErrorResult lc_invalid_request "diag.mga.lock.invalid_request" "mga.lock.invalid_request"
       (Some (set_scope_uuid reason request)) None "reject_request_shape" sev_fatal, s)
  | None =>
    if (IsClusterScope (mq_scope_kind request) || IsClusterMode (mq_mode request)) &&
       (negb (mq_cluster_exists request) || IsNone (mq_cluster_uuid request)) then
      (ErrorResult lc_cluster_absent "diag.mga.lock.cluster_absent" "mga.lock.cluster_absent" (Some request) None
         "reject_without_cluster_state" sev_fatal, s)
    else if negb (lf_accepting_new_requests s) then
      (ErrorResult lc_admission_rejected "diag.mga.lock.admission_rejected_policy"
         "mga.lock.admission_rejected_policy" (Some request) None "retry_after_shutdown_or_reopen" sev_error, s)
    else
    let resource_key := ResourceKey request in
    if OwnerHasGrantOnResource (lf_grants s) request resource_key then (lifecycle_success lc_already_owned, s)
    else
    let blockers := BlockingGrants (lf_grants s) request resource_key in
    if decide (blockers = []) then
      let '(grant, s) := add_grant request resource_key now_millis s in
      (result_grant grant (lifecycle_success lc_granted), s)
    else if decide (mq_wait_policy request = wp_no_wait_policy) then
      (ErrorResult lc_lock_refused "diag.mga.lock.write_intent_conflict" "mga.lock.write_intent_conflict"
         (Some request) None "return_lock_refusal_without_wait" sev_error, s)
    else if RequestDeadlineExpired request now_millis then
      (ErrorResult lc_wait_timeout "diag.mga.lock.wait_timeout" "mga.lock.wait_timeout" (Some request) None
         "return_timeout_transaction_state_unchanged" sev_error, count one_timeout s)
    else
    let '(wait, s) := queue_wait request resource_key blockers now_millis s in
    if mw_deadlock_detection_required wait then
      let '(deadlock, s) := lifecycle_DetectAndResolveDeadlock s in
      if bool_decide (lcr_decision deadlock = lc_deadlock_victim) &&
         bool_decide (lcr_victim_owner_uuid deadlock = mq_owner_uuid request) then (deadlock, s)
      else if decide (lcr_decision deadlock = lc_cluster_decision_required) then (deadlock, s)
      else queued_result request (mw_wait_id wait) s
    else queued_result request (mw_wait_id wait) s
  end.

Definition unknown_result (message_key required_action : string) : MGALockLifecycleResult :=
  ErrorResult lc_invalid_request "diag.mga.lock.invalid_request" message_key
    (Some (set_request_id "none" MGALockRequest_default)) None required_action sev_error.

Definition lifecycle_ReleaseGrant (grant_id : string) (now_millis : N) (s : MGALockWaitLifecycle)
    : MGALockLifecycleResult * MGALockWaitLifecycle :=
  match lf_grants s !! grant_id with
  | None => (unknown_result "mga.lock.invalid_release" "reject_unknown_grant", s)
  | Some _ =>
    (result_count 1 (lifecycle_success lc_released),
     fst (DrainGrantableWaits now_millis (set_grants (delete grant_id (lf_grants s)) s)))
  end.

(** Erases every wait named in [ids]. *)
Definition erase_waits (ids : list string) (s : MGALockWaitLifecycle) : MGALockWaitLifecycle :=
  foldl (fun s id => erase_wait id s) s ids.

Definition owned_waits (owner_uuid : string) (s : MGALockWaitLifecycle) : list string :=
  (filter (fun p => mw_owner_uuid (wtr_wait p.2) = owner_uuid) (map_in_order (lf_waits s))).*1.

Definition lifecycle_ReleaseOwner (owner_uuid : string) (now_millis : N) (s : MGALockWaitLifecycle)
    : MGALockLifecycleResult * MGALockWaitLifecycle :=
  let kept := filter (fun p => mg_owner_uuid (gr_grant p.2) <> owner_uuid) (lf_grants s) in
  let waits := owned_waits owner_uuid s in
  let cleaned := N.of_nat (size (lf_grants s) - size kept + length waits) in
  (result_count cleaned (lifecycle_success lc_released),
   fst (DrainGrantableWaits now_millis (erase_waits waits (set_grants kept s)))).

Definition lifecycle_CancelWait (wait_id : string) (s : MGALockWaitLifecycle)
    : MGALockLifecycleResult * MGALockWaitLifecycle :=
  match lf_waits s !! wait_id with
  | None => (unknown_result "mga.lock.invalid_cancel" "reject_unknown_wait", s)
  | Some w =>
    (result_wait (wtr_wait w)
       (ErrorResult lc_wait_cancelled "diag.mga.lock.admission_rejected_policy" "mga.lock.wait_cancelled"
          (Some (wtr_request w)) (Some (wtr_wait w)) "return_cancelled_transaction_state_unchanged" sev_error),
     count one_cancellation (erase_wait wait_id s))
  end.

Definition lifecycle_DisconnectOwner (owner_uuid : string) (now_millis : N) (s : MGALockWaitLifecycle)
    : MGALockLifecycleResult * MGALockWaitLifecycle :=
  let '(result, s) := lifecycle_ReleaseOwner owner_uuid now_millis s in
  (result_decision lc_owner_disconnected result, count one_disconnect s).

Definition expired_waits (now_millis : N) (s : MGALockWaitLifecycle) : list (string * WaitRecord) :=
  filter (fun p => WaitDeadlineExpired (wtr_wait p.2) now_millis = true) (map_in_order (lf_waits s)).

Definition lifecycle_ProcessTimeouts (now_millis : N) (s : MGALockWaitLifecycle)
    : list MGALockLifecycleResult * MGALockWaitLifecycle :=
  let expired := expired_waits now_millis s in
  ((fun p => result_wait (wtr_wait p.2)
       (ErrorResult lc_wait_timeout "diag.mga.lock.wait_timeout" "mga.lock.wait_timeout" (Some (wtr_request p.2))
          (Some (wtr_wait p.2)) "return_timeout_transaction_state_unchanged" sev_error)) <$> expired,
   fst (DrainGrantableWaits now_millis
          (foldl (fun s id => count one_timeout (erase_wait id s)) s expired.*1))).

Definition lifecycle_Shutdown (s : MGALockWaitLifecycle) : MGALockLifecycleResult * MGALockWaitLifecycle :=
  (result_count (N.of_nat (size (lf_grants s) + size (lf_waits s))) (lifecycle_success lc_shutdown_cleanup),
   mkLifecycle ∅ ∅ [] (lf_deadlock_history s) (metrics_add (lf_metrics s) one_shutdown) (lf_generation s)
     (lf_wait_sequence s) false).

(** ** Observers *)

Definition grant_count (s : MGALockWaitLifecycle) : N := N.of_nat (size (lf_grants s)).
Definition wait_count (s : MGALockWaitLifecycle) : N := N.of_nat (size (lf_waits s)).
Definition lifecycle_grants (s : MGALockWaitLifecycle) : list MGALockGrant :=
  (fun p => gr_grant p.2) <$> map_in_order (lf_grants s).
Definition lifecycle_waits (s : MGALockWaitLifecycle) : list MGALockWait :=
  omap (fun id => wtr_wait <$> lf_waits s !! id) (lf_wait_order s).
