(* ===== verification/InventoryEvolution.v ===== *)
(** * Successor validation of the transaction inventory

    Models [ValidateInventoryEvolutionValues] and
    [ValidateLocalTransactionInventoryEvolution] of
    [transaction_inventory_validation.hpp], with the Warshall closure of the
    transition table they consult, and shows what they decide. *)

From S2P Require Import Prelude Platform TransactionState Inventory.

(** ** The reachability table *)

Definition matrix : Type := list (list bool).

Definition state_index (s : TransactionState) : nat :=
  match s with
  | ts_none => 0 | ts_created => 1 | ts_active => 2 | ts_preparing => 3
  | ts_prepared => 4 | ts_committing => 5 | ts_committed => 6 | ts_rolling_back => 7
  | ts_rolled_back => 8 | ts_limbo => 9 | ts_recovering => 10
  | ts_failed_terminal => 11 | ts_archived => 12 | ts_read_only_active => 13
  end%nat.

Definition state_count : nat := S (state_index ts_read_only_active).

Definition cell (m : matrix) (i j : nat) : bool :=
  match m !! i with
  | Some row => default false (row !! j)
  | None => false
  end.

Definition set_cell (i j : nat) (b : bool) (m : matrix) : matrix :=
  alter (fun row => <[j := b]> row) i m.

Definition empty_paths : matrix := replicate state_count (replicate state_count false).

(** The three loops of the lambda that initialises [reachable]. *)
Definition diagonal_paths (m : matrix) : matrix :=
  foldl (fun m i => set_cell i i true m) m (seq 0 state_count).

Definition edge_paths (m : matrix) : matrix :=
  foldl (fun m t => set_cell (state_index (tr_from t)) (state_index (tr_to t)) true m)
    m BuiltinTransactionStateTransitionView.

Definition warshall_cell (k i : nat) (m : matrix) (j : nat) : matrix :=
  set_cell i j (cell m i j || (cell m i k && cell m k j)) m.

Definition warshall (m : matrix) : matrix :=
  foldl (fun m k =>
    foldl (fun m i => foldl (warshall_cell k i) m (seq 0 state_count)) m (seq 0 state_count))
    m (seq 0 state_count).

Definition reachable_paths : matrix := warshall (edge_paths (diagonal_paths empty_paths)).

Definition reachable (from to : TransactionState) : bool :=
  cell reachable_paths (state_index from) (state_index to).

(** ** The successor validator *)

Definition resolved_outcome (e : TransactionInventoryEntry) : Prop :=
  InventoryVisibilityState e = ts_committed \/ InventoryVisibilityState e = ts_rolled_back.
#[export] Instance resolved_outcome_dec e : Decision (resolved_outcome e).
Proof. unfold resolved_outcome. apply _. Defined.

(** Checks on an entry whose local number [before] holds as [old]. *)
Definition retained_entry_error (before : LocalTransactionInventory)
    (old entry : TransactionInventoryEntry) : string :=
  let old_outcome := InventoryVisibilityState old in
  let new_outcome := InventoryVisibilityState entry in
  if decide (e_uuid old <> e_uuid entry \/
             ti_scope (e_identity old) <> ti_scope (e_identity entry))
  then "transaction_identity_changed"
  else if decide (e_begin_unix_epoch_millis old <> e_begin_unix_epoch_millis entry \/
                  e_begin_visible_through_local_transaction_id old <>
                    e_begin_visible_through_local_transaction_id entry \/
                  e_begin_visible_through_commit_sequence old <>
                    e_begin_visible_through_commit_sequence entry \/
                  e_stable_snapshot old <> e_stable_snapshot entry)
  then "transaction_begin_changed"
  else if (e_evidence_record_required old && negb (e_evidence_record_required entry)) ||
          (e_evidence_record_written old && negb (e_evidence_record_written entry))
  then "transaction_evidence_regressed"
  else if decide (IsTerminalTransactionState old_outcome = true /\
                  (old_outcome <> new_outcome \/
                   e_final_unix_epoch_millis old <> e_final_unix_epoch_millis entry \/
                   e_commit_sequence old <> e_commit_sequence entry))
  then "transaction_finality_changed"
  else if decide (reachable (e_state old) (e_state entry) = false \/
                  (e_state entry = ts_archived /\ e_state old <> ts_archived /\
                   reachable (e_state old) new_outcome = false))
  then "transaction_state_regressed"
  else if decide (HasCommittedInventoryOutcome old = false /\
                  HasCommittedInventoryOutcome entry = true /\
                  e_commit_sequence entry < inv_next_commit_sequence before)
  then "commit_sequence_reused"
  else "".

(** Checks on an entry [before] does not hold. *)
Definition new_entry_error (before : LocalTransactionInventory)
    (old_uuids : gset (list N)) (entry : TransactionInventoryEntry) : string :=
  if decide (e_local_id entry < inv_next_local_transaction_id before)
  then "local_number_reused"
  else if decide (uuid_bytes (e_uuid entry) ∈ old_uuids)
  then "transaction_uuid_reused"
  else if decide (HasCommittedInventoryOutcome entry = true /\
                  e_commit_sequence entry < inv_next_commit_sequence before)
  then "commit_sequence_reused"
  else "".

(** The loop over [after.entries]; [old_entries] shrinks as entries are retained. *)
Fixpoint evolution_loop (before : LocalTransactionInventory) (old_uuids : gset (list N))
    (old_entries : gmap N TransactionInventoryEntry)
    (es : list TransactionInventoryEntry) : string :=
  match es with
  | [] =>
    if decide (map_Forall (fun _ e => resolved_outcome e) old_entries) then ""
    else "unresolved_transaction_removed"
  | entry :: es =>
    match old_entries !! e_local_id entry with
    | None =>
      let reason := new_entry_error before old_uuids entry in
      if decide (reason = ""%string)
      then evolution_loop before old_uuids old_entries es else reason
    | Some old =>
      let reason := retained_entry_error before old entry in
      if decide (reason = ""%string)
      then evolution_loop before old_uuids (delete (e_local_id entry) old_entries) es
      else reason
    end
  end.

(** [std::map::emplace] keeps the first binding. *)
Definition emplace_entry (m : gmap N TransactionInventoryEntry)
    (e : TransactionInventoryEntry) : gmap N TransactionInventoryEntry :=
  match m !! e_local_id e with
  | Some _ => m
  | None => <[e_local_id e := e]> m
  end.

Definition index_entries (es : list TransactionInventoryEntry)
    : gmap N TransactionInventoryEntry := foldl emplace_entry ∅ es.

Definition index_uuids (es : list TransactionInventoryEntry) : gset (list N) :=
  list_to_set ((uuid_bytes ∘ e_uuid) <$> es).

Definition ValidateLocalTransactionInventoryEvolution
    (before after : LocalTransactionInventory) : string :=
  let why_before := ValidateLocalTransactionInventoryStructure before in
  let why_after := ValidateLocalTransactionInventoryStructure after in
  if decide (why_before <> ""%string) then why_before
  else if decide (why_after <> ""%string) then why_after
  else if decide (inv_next_local_transaction_id after < inv_next_local_transaction_id before \/
                  inv_next_commit_sequence after < inv_next_commit_sequence before)
  then "counter_regression"
  else evolution_loop before (index_uuids (inv_entries before))
         (index_entries (inv_entries before)) (inv_entries after).

(** ** What a legal successor is *)

(** A row of the transition table, whatever its recovery flag. *)
Definition edge (a b : TransactionState) : Prop :=
  exists t, t ∈ BuiltinTransactionStateTransitionView /\ tr_from t = a /\ tr_to t = b.

Record entry_evolves (before : LocalTransactionInventory)
    (old new : TransactionInventoryEntry) : Prop := {
  ev_uuid : e_uuid old = e_uuid new;
  ev_scope : ti_scope (e_identity old) = ti_scope (e_identity new);
  ev_begin_millis : e_begin_unix_epoch_millis old = e_begin_unix_epoch_millis new;
  ev_begin_local : e_begin_visible_through_local_transaction_id old =
                   e_begin_visible_through_local_transaction_id new;
  ev_begin_commit : e_begin_visible_through_commit_sequence old =
                    e_begin_visible_through_commit_sequence new;
  ev_stable : e_stable_snapshot old = e_stable_snapshot new;
  ev_required : e_evidence_record_required old = true -> e_evidence_record_required new = true;
  ev_written : e_evidence_record_written old = true -> e_evidence_record_written new = true;
  ev_final : IsTerminalTransactionState (InventoryVisibilityState old) = true ->
    InventoryVisibilityState old = InventoryVisibilityState new /\
    e_final_unix_epoch_millis old = e_final_unix_epoch_millis new /\
    e_commit_sequence old = e_commit_sequence new;
  ev_state : rtc edge (e_state old) (e_state new);
  ev_archive : e_state new = ts_archived -> e_state old <> ts_archived ->
    rtc edge (e_state old) (InventoryVisibilityState new);
  ev_commit : HasCommittedInventoryOutcome old = false ->
    HasCommittedInventoryOutcome new = true ->
    inv_next_commit_sequence before <= e_commit_sequence new }.

Record entry_fresh (before : LocalTransactionInventory)
    (new : TransactionInventoryEntry) : Prop := {
  fr_local : inv_next_local_transaction_id before <= e_local_id new;
  fr_uuid : forall old, old ∈ inv_entries before -> e_uuid old <> e_uuid new;
  fr_commit : HasCommittedInventoryOutcome new = true ->
    inv_next_commit_sequence before <= e_commit_sequence new }.

Record evolves (before after : LocalTransactionInventory) : Prop := {
  evo_before : structure_ok before;
  evo_after : structure_ok after;
  evo_local : inv_next_local_transaction_id before <= inv_next_local_transaction_id after;
  evo_commit : inv_next_commit_sequence before <= inv_next_commit_sequence after;
  evo_retained : forall old new, old ∈ inv_entries before -> new ∈ inv_entries after ->
    e_local_id old = e_local_id new -> entry_evolves before old new;
  evo_fresh : forall new, new ∈ inv_entries after ->
    (e_local_id new ∉ e_local_id <$> inv_entries before) -> entry_fresh before new;
  evo_removed : forall old, old ∈ inv_entries before ->
    (e_local_id old ∉ e_local_id <$> inv_entries after) -> resolved_outcome old }.

(** ** The closure computed by the three loops is [rtc edge] *)

Lemma state_index_inj a b : state_index a = state_index b -> a = b.
Proof. destruct a, b; simpl; congruence. Qed.

(** Every marked cell is backed by a path of the table. *)
Definition paths_sound (m : matrix) : Prop :=
  forall a b, cell m (state_index a) (state_index b) = true -> rtc edge a b.

Lemma cell_set_cell i j v m i' j' :
  cell (set_cell i j v m) i' j' = true ->
  cell m i' j' = true \/ (i' = i /\ j' = j /\ v = true).
Proof.
  unfold cell, set_cell, matrix in *. rewrite list_lookup_alter.
  case_decide as Hi; [subst i'|naive_solver].
  destruct (m !! i) as [row|]; simpl; [|naive_solver].
  destruct (decide (j' = j)) as [->|Hj].
  - destruct (decide (j < length row)%nat).
    + rewrite list_lookup_insert_eq by done. simpl. naive_solver.
    + rewrite list_insert_ge by lia. naive_solver.
  - rewrite list_lookup_insert_ne by done. naive_solver.
Qed.

Lemma set_cell_sound m i j v :
  (v = true -> forall a b, state_index a = i -> state_index b = j -> rtc edge a b) ->
  paths_sound m -> paths_sound (set_cell i j v m).
Proof. intros Hv Hm a b [H|(?&?&?)]%cell_set_cell; eauto. Qed.

Lemma foldl_sound {A} (f : matrix -> A -> matrix) (l : list A) m :
  (forall m x, x ∈ l -> paths_sound m -> paths_sound (f m x)) ->
  paths_sound m -> paths_sound (foldl f m l).
Proof.
  revert m. induction l as [|x l IH]; intros m Hf Hm; simpl; [done|].
  apply IH; [set_solver|]. apply Hf; set_solver.
Qed.

Lemma index_is_state i : i ∈ seq 0 state_count -> exists s, state_index s = i.
Proof.
  intros Hi. assert (i ∈ state_index <$> all_states) as H by exact Hi.
  apply list_elem_of_fmap in H as (s & -> & _). by exists s.
Qed.

Lemma diagonal_paths_sound m : paths_sound m -> paths_sound (diagonal_paths m).
Proof.
  apply foldl_sound. intros m' i _. apply set_cell_sound.
  intros _ a b Ha Hb. rewrite <- Hb in Ha. apply state_index_inj in Ha as ->. constructor.
Qed.

Lemma edge_paths_sound m : paths_sound m -> paths_sound (edge_paths m).
Proof.
  apply foldl_sound. intros m' t Ht. apply set_cell_sound.
  intros _ a b Ha%state_index_inj Hb%state_index_inj. apply rtc_once. exists t. auto.
Qed.

Lemma warshall_sound m : paths_sound m -> paths_sound (warshall m).
Proof.
  apply foldl_sound. intros m1 k Hk. apply foldl_sound. intros m2 i _.
  apply foldl_sound. intros m3 j _ Hm3. apply set_cell_sound; [|done].
  intros Hv a b <- <-. apply index_is_state in Hk as (c & <-).
  apply orb_true_iff in Hv as [Hv|Hv]; [by apply Hm3|].
  apply andb_true_iff in Hv as [H1 H2]. by etrans; apply Hm3.
Qed.

Lemma empty_paths_sound : paths_sound empty_paths.
Proof. intros [] []; discriminate. Qed.

Lemma reachable_sound a b : reachable a b = true -> rtc edge a b.
Proof.
  unfold reachable, reachable_paths.
  apply warshall_sound, edge_paths_sound, diagonal_paths_sound, empty_paths_sound.
Qed.

(** The finished table is closed under prefixing an edge. *)
Definition reachable_prefix_closed : bool :=
  forallb (fun t =>
    forallb (fun a => implb (reachable (tr_to t) a) (reachable (tr_from t) a)) all_states)
  BuiltinTransactionStateTransitionView.

Lemma reachable_prefix_closed_true : reachable_prefix_closed = true.
Proof. vm_compute. reflexivity. Qed.

Lemma reachable_refl a : reachable a a = true.
Proof. destruct a; vm_compute; reflexivity. Qed.

#[global] Opaque reachable.

Lemma reachable_closed t a :
  t ∈ BuiltinTransactionStateTransitionView ->
  reachable (tr_to t) a = true -> reachable (tr_from t) a = true.
Proof.
  intros Ht%list_elem_of_In Hr. pose proof reachable_prefix_closed_true as Hall.
  unfold reachable_prefix_closed in Hall. rewrite forallb_forall in Hall.
  specialize (Hall t Ht). cbv beta in Hall. rewrite forallb_forall in Hall.
  specialize (Hall a (proj1 (list_elem_of_In _ _) (all_states_complete a))).
  rewrite Hr in Hall. exact Hall.
Qed.

Lemma reachable_complete a b : rtc edge a b -> reachable a b = true.
Proof.
  induction 1 as [a|a b c (t & Ht & <- & <-) _ IH]; [apply reachable_refl|].
  by apply reachable_closed.
Qed.

Lemma reachable_iff_rtc a b : reachable a b = true <-> rtc edge a b.
Proof. split; [apply reachable_sound | apply reachable_complete]. Qed.

Lemma reachable_false a b : reachable a b = false <-> ~ rtc edge a b.
Proof. rewrite <- reachable_iff_rtc. by destruct (reachable a b). Qed.

(** ** The entry checks decide the declarative relations *)

Lemma retained_entry_error_spec before old new :
  retained_entry_error before old new = ""%string <-> entry_evolves before old new.
Proof.
  unfold retained_entry_error. split.
  - intros H. case_decide as H1; [discriminate H|]. case_decide as H2; [discriminate H|].
    destruct (_ || _) eqn:H3; [discriminate H|].
    case_decide as H4; [discriminate H|]. case_decide as H5; [discriminate H|].
    case_decide as H6; [discriminate H|]. clear H.
    apply orb_false_iff in H3 as [H3 H3'].
    apply Decidable.not_or in H1 as [U1 U2]. apply Decidable.not_or in H2 as [B1 H2].
    apply Decidable.not_or in H2 as [B2 H2]. apply Decidable.not_or in H2 as [B3 B4].
    split; try by apply dec_stable.
    + intros Hr. rewrite Hr in H3. by apply negb_false_iff in H3.
    + intros Hr. rewrite Hr in H3'. by apply negb_false_iff in H3'.
    + intros Ht. split_and!; apply dec_stable; clear -H4 Ht; tauto.
    + apply reachable_iff_rtc, not_false_is_true. clear -H5; tauto.
    + intros Ha Hna. apply reachable_iff_rtc, not_false_is_true. clear -H5 Ha Hna; tauto.
    + intros Ho Hn. apply N.nlt_ge. clear -H6 Ho Hn; tauto.
  - intros [? ? ? ? ? ? Hreq Hwr Hfin Hst Har Hco].
    case_decide as H1; [destruct H1; congruence|].
    case_decide as H2; [destruct H2 as [H2|[H2|[H2|H2]]]; congruence|].
    replace (_ || _) with false.
    2:{ symmetry. destruct (e_evidence_record_required old), (e_evidence_record_written old);
        try rewrite Hreq by done; try rewrite Hwr by done; done. }
    case_decide as H3; [destruct H3 as [Ht H3]; destruct (Hfin Ht) as (? & ? & ?);
      destruct H3 as [H3|[H3|H3]]; congruence|].
    case_decide as H4.
    { rewrite !reachable_false in H4. naive_solver. }
    case_decide as H5; [|done]. destruct H5 as (H5 & H6 & H7). specialize (Hco H5 H6).
    clear -Hco H7; lia.
Qed.

Lemma new_entry_error_spec before new :
  new_entry_error before (index_uuids (inv_entries before)) new = ""%string <->
  entry_fresh before new.
Proof.
  assert (Hu : (uuid_bytes (e_uuid new) ∉ index_uuids (inv_entries before)) <->
    forall old, old ∈ inv_entries before -> e_uuid old <> e_uuid new).
  { unfold index_uuids. rewrite elem_of_list_to_set, list_elem_of_fmap. split.
    - intros Hn old Hold Heq. apply Hn. exists old. simpl. by rewrite Heq.
    - intros Hn (old & Heq & Hold). apply (Hn old Hold). simpl in Heq.
      destruct (e_uuid old), (e_uuid new). simpl in *. congruence. }
  unfold new_entry_error. split.
  - intros H. case_decide; [discriminate H|]. case_decide; [discriminate H|].
    case_decide as Hc; [discriminate H|]. split; [lia|by apply Hu|].
    intros Hn. apply N.nlt_ge. naive_solver.
  - intros [Hl Hn Hc]. rewrite decide_False by lia.
    rewrite decide_False by (by apply Hu). rewrite decide_False; [done|].
    intros [H1 H2]. specialize (Hc H1). lia.
Qed.

(** ** The index built by [emplace] finds the first entry of a number *)

Lemma index_entries_from m es id :
  foldl emplace_entry m es !! id =
  match m !! id with
  | Some e => Some e
  | None => snd <$> list_find (fun e => e_local_id e = id) es
  end.
Proof.
  revert m. induction es as [|e es IH]; intros m; simpl; [by destruct (m !! id)|].
  rewrite IH. unfold emplace_entry.
  destruct (decide (e_local_id e = id)) as [<-|Hne].
  - destruct (m !! e_local_id e) eqn:Hm; rewrite ?Hm; [done|].
    by rewrite lookup_insert_eq.
  - assert ((match m !! e_local_id e with Some _ => m | None => <[e_local_id e:=e]> m end) !! id
      = m !! id) as -> by (destruct (m !! e_local_id e); [done|by rewrite lookup_insert_ne]).
    destruct (m !! id); [done|].
    destruct (list_find _ es) as [[]|] eqn:Hf; done.
Qed.

Lemma index_entries_lookup es id :
  index_entries es !! id = snd <$> list_find (fun e => e_local_id e = id) es.
Proof. unfold index_entries. by rewrite index_entries_from, lookup_empty. Qed.

Lemma index_entries_Some es id e :
  NoDup (e_local_id <$> es) ->
  index_entries es !! id = Some e <-> e ∈ es /\ e_local_id e = id.
Proof.
  intros Hnd. rewrite index_entries_lookup. split.
  - intros ([i e'] & Hf & Heq)%fmap_Some. simpl in Heq. subst e'.
    apply list_find_Some in Hf as (Hi & Hid & _). split; [|done].
    by eapply list_elem_of_lookup_2.
  - intros [Hin Hid]. destruct (list_find (fun e => e_local_id e = id) es) as [[i e']|] eqn:Hf.
    + apply list_find_Some in Hf as (Hi & Hid' & _). simpl. f_equal.
      eapply (NoDup_fmap_inj e_local_id); [done| |done|congruence]. by eapply list_elem_of_lookup_2.
    + apply list_find_None in Hf. rewrite Forall_forall in Hf. by destruct (Hf e).
Qed.

Lemma index_entries_None es id :
  NoDup (e_local_id <$> es) ->
  index_entries es !! id = None <-> id ∉ e_local_id <$> es.
Proof.
  intros Hnd. rewrite eq_None_not_Some. split; intros H1 H2; apply H1.
  - apply list_elem_of_fmap in H2 as (e & -> & He). exists e. by apply index_entries_Some.
  - destruct H2 as [e He]. apply index_entries_Some in He as [He <-]; [|done].
    by apply list_elem_of_fmap_2.
Qed.

Definition evolution_entry_ok before uuids (m : gmap N TransactionInventoryEntry) e : Prop :=
  match m !! e_local_id e with
  | None => new_entry_error before uuids e = ""%string
  | Some old => retained_entry_error before old e = ""%string
  end.

Lemma evolution_loop_spec before uuids m es :
  NoDup (e_local_id <$> es) ->
  evolution_loop before uuids m es = ""%string <->
  (forall e, e ∈ es -> evolution_entry_ok before uuids m e) /\
  (forall id old, m !! id = Some old -> (id ∉ e_local_id <$> es) -> resolved_outcome old).
Proof.
  revert m. induction es as [|e es IH]; intros m Hnd; cbn [evolution_loop].
  { case_decide as Hf; split; try done.
    - intros _. split; [set_solver|]. intros id old Hid _. by apply (Hf id old).
    - intros [_ Hr]. destruct Hf. intros id old Hid. apply (Hr id old Hid). set_solver. }
  rewrite fmap_cons in *. apply NoDup_cons in Hnd as [He Hnd].
  destruct (m !! e_local_id e) as [old|] eqn:Hm.
  - case_decide as Hr.
    + rewrite IH by done. split.
      * intros [H1 H2]. split.
        -- intros e' [->|He']%elem_of_cons; [by unfold evolution_entry_ok; rewrite Hm|].
           specialize (H1 e' He'). unfold evolution_entry_ok in *.
           rewrite lookup_delete_ne in H1; [done|].
           intros Heq. apply He. rewrite Heq. by apply list_elem_of_fmap_2.
        -- intros id old' Hid Hn. apply (H2 id); [|set_solver].
           rewrite lookup_delete_ne; [done|set_solver].
      * intros [H1 H2]. split.
        -- intros e' He'. specialize (H1 e'). unfold evolution_entry_ok in *.
           rewrite lookup_delete_ne; [apply H1; set_solver|].
           intros Heq. apply He. rewrite Heq. by apply list_elem_of_fmap_2.
        -- intros id old' [Hne Hid]%lookup_delete_Some Hn. apply (H2 id); [done|set_solver].
    + split; [done|]. intros [H1 _]. specialize (H1 e ltac:(set_solver)).
      unfold evolution_entry_ok in H1. by rewrite Hm in H1.
  - case_decide as Hr.
    + rewrite IH by done. split.
      * intros [H1 H2]. split.
        -- intros e' [->|He']%elem_of_cons; [by unfold evolution_entry_ok; rewrite Hm|auto].
        -- intros id old' Hid Hn. apply (H2 id); [done|set_solver].
      * intros [H1 H2]. split; [set_solver|].
        intros id old' Hid Hn. apply (H2 id); [done|].
        intros [->|?]%elem_of_cons; [congruence|done].
    + split; [done|]. intros [H1 _]. specialize (H1 e ltac:(set_solver)).
      unfold evolution_entry_ok in H1. by rewrite Hm in H1.
Qed.

Lemma evolution_iff before after :
  ValidateLocalTransactionInventoryEvolution before after = ""%string <-> evolves before after.
Proof.
  unfold ValidateLocalTransactionInventoryEvolution.
  case_decide as Hb.
  { split; [done|]. intros [Hs _ _ _ _ _ _]. by apply validate_structure_iff in Hs. }
  apply validate_structure_iff in Hb. 
  case_decide as Ha.
  { split; [done|]. intros [_ Hs _ _ _ _ _]. by apply validate_structure_iff in Hs. }
  apply validate_structure_iff in Ha.
  case_decide as Hc; [split; [done|]; intros [_ _ ? ? _ _ _]; destruct Hc; lia|].
  pose proof (so_locals _ Hb) as Hnb. pose proof (so_locals _ Ha) as Hna.
  rewrite evolution_loop_spec by done. split.
  - intros [H1 H2]. split; try done; try lia.
    + intros old new Ho Hn Hid. apply retained_entry_error_spec. specialize (H1 new Hn).
      unfold evolution_entry_ok in H1.
      by rewrite (proj2 (index_entries_Some _ _ old Hnb)) in H1.
    + intros new Hn Hid. apply new_entry_error_spec. specialize (H1 new Hn).
      unfold evolution_entry_ok in H1. by rewrite (proj2 (index_entries_None _ _ Hnb)) in H1.
    + intros old Ho Hid. eapply H2; [|done]. by apply index_entries_Some.
  - intros [_ _ _ _ Hr Hf Hrm]. split.
    + intros e He. unfold evolution_entry_ok.
      destruct (index_entries _ !! _) as [old|] eqn:Hi.
      * apply index_entries_Some in Hi as [Ho Hid]; [|done].
        apply retained_entry_error_spec. eauto.
      * apply index_entries_None in Hi; [|done]. apply new_entry_error_spec. auto.
    + intros id old [Ho <-]%index_entries_Some Hid; [auto|done].
Qed.
