(* ===== verification/InventoryTheorems.v ===== *)
(** * The inventory transforms are legal

    Every transform of [transaction_inventory.cpp] that succeeds on a
    structurally valid inventory yields a successor that both validators of
    [transaction_inventory_validation.hpp] accept. *)

From S2P Require Import Prelude Platform TransactionState Inventory InventoryEvolution.

(** ** Transitions *)

Lemma step_edge rc a b : state_step rc a b -> edge a b.
Proof.
  unfold state_step, CheckTransactionStateTransition, edge.
  induction BuiltinTransactionStateTransitionView as [|t l IH]; simpl; [done|].
  case_decide as Ht.
  - intros _. exists t. set_solver.
  - intros H. destruct (IH H) as (t' & ? & ?). exists t'. set_solver.
Qed.

Lemma transition_inr e s e' :
  TransitionOrFail e s = inr e' -> e' = set_state s e /\ state_step false (e_state e) s.
Proof. unfold TransitionOrFail, state_step. case_match; naive_solver. Qed.

Lemma transitions_inr e l e' :
  TransitionsOrFail e l = inr e' ->
  e' = set_state (default (e_state e) (last l)) e /\ rtc edge (e_state e) (e_state e').
Proof.
  revert e. induction l as [|s l IH]; intros e H; simpl in H.
  { simplify_eq. split; [by destruct e'|constructor]. }
  destruct (TransitionOrFail e s) as [|e1] eqn:H1; [done|].
  apply transition_inr in H1 as [-> Hs]. apply IH in H as [-> Hr]. simpl in Hr. split.
  - rewrite last_cons. by destruct (last l).
  - simpl. eapply rtc_l; [by eapply step_edge|]. exact Hr.
Qed.

(** Only archival leaves a terminal state. *)
Lemma transitions_not_terminal e s l e' :
  TransitionsOrFail e (s :: l) = inr e' -> s <> ts_archived ->
  IsTerminalTransactionState (e_state e) = false.
Proof.
  simpl. intros H Hs. destruct (TransitionOrFail e s) as [|e1] eqn:H1; [done|].
  apply transition_inr in H1 as [_ Hstep].
  destruct (IsTerminalTransactionState (e_state e)) eqn:Ht; [|done].
  by apply terminal_only_archives in Hstep.
Qed.

Lemma visibility_not_archived inv e :
  entry_ok inv e -> e_state e <> ts_archived -> InventoryVisibilityState e = e_state e.
Proof.
  intros Hok Hs. unfold InventoryVisibilityState. rewrite decide_True by done.
  by rewrite decide_True by by apply (eo_not_archived _ _ Hok).
Qed.

Lemma nonterminal_visibility inv e :
  entry_ok inv e -> IsTerminalTransactionState (e_state e) = false ->
  InventoryVisibilityState e = e_state e.
Proof. intros Hok Ht. eapply visibility_not_archived; [done|]. by intros Ha; rewrite Ha in Ht. Qed.

Lemma not_terminal_not_committed e :
  IsTerminalTransactionState (InventoryVisibilityState e) = false ->
  HasCommittedInventoryOutcome e = false.
Proof.
  unfold HasCommittedInventoryOutcome. intros H. apply bool_decide_eq_false_2.
  intros Hc. by rewrite Hc in H.
Qed.

(** ** Replacing one entry *)

Lemma entry_ok_mono inv inv' e :
  inv_next_local_transaction_id inv <= inv_next_local_transaction_id inv' ->
  inv_next_commit_sequence inv <= inv_next_commit_sequence inv' ->
  entry_ok inv e -> entry_ok inv' e.
Proof.
  intros Hl Hc [? ? ? ? Hco ? ? ? ?]. split; try done; [lia| |lia].
  intros H. specialize (Hco H). lia.
Qed.

Lemma entry_evolves_refl inv e : entry_evolves inv e e.
Proof. split; try done. all: intros; congruence. Qed.

(** A commit sequence shared with an untouched entry would be a reused one. *)
Lemma evolves_commit_unique inv old new other :
  entry_ok inv other -> entry_evolves inv old new ->
  HasCommittedInventoryOutcome new = true -> HasCommittedInventoryOutcome other = true ->
  e_commit_sequence new = e_commit_sequence other ->
  HasCommittedInventoryOutcome old = true /\ e_commit_sequence old = e_commit_sequence other.
Proof.
  intros Ho He Hn Hc Heq. destruct (HasCommittedInventoryOutcome old) eqn:Hold.
  - split; [done|]. destruct (ev_final _ _ _ He) as (_ & _ & ->); [|done].
    unfold HasCommittedInventoryOutcome in Hold. apply bool_decide_eq_true_1 in Hold.
    by rewrite Hold.
  - pose proof (ev_commit _ _ _ He Hold Hn). pose proof (eo_committed _ _ Ho Hc). lia.
Qed.

Lemma replace_entry_evolves inv inv' i old new :
  structure_ok inv -> inv_entries inv !! i = Some old ->
  inv_entries inv' = <[i := new]> (inv_entries inv) ->
  inv_next_local_transaction_id inv' = inv_next_local_transaction_id inv ->
  inv_next_commit_sequence inv <= inv_next_commit_sequence inv' ->
  e_identity new = e_identity old ->
  entry_ok inv' new -> entry_evolves inv old new -> evolves inv inv'.
Proof.
  intros Hs Hi Hes Hl Hc Hid Hnew Hev.
  assert (Hlen : (i < length (inv_entries inv))%nat) by (by eapply lookup_lt_Some).
  assert (Hloc : e_local_id <$> inv_entries inv' = e_local_id <$> inv_entries inv).
  { rewrite Hes. eapply fmap_insert_same; [done|]. unfold e_local_id. by rewrite Hid. }
  assert (Hback : forall e, e ∈ inv_entries inv' -> e = new \/ e ∈ inv_entries inv).
  { intros e He. rewrite Hes in He. apply list_elem_of_lookup in He as (j & Hj).
    apply list_lookup_insert_Some in Hj as [(_ & -> & _)|[_ Hj]]; [by left|right].
    by eapply list_elem_of_lookup_2. }
  assert (Hold : old ∈ inv_entries inv) by by eapply list_elem_of_lookup_2.
  pose proof (so_entries _ Hs) as Hok. rewrite Forall_forall in Hok.
  assert (Hs' : structure_ok inv').
  { split.
    - rewrite Hl. apply Hs.
    - pose proof (so_next_commit _ Hs). lia.
    - apply Forall_forall. intros e [->|He]%Hback; [done|].
      eapply entry_ok_mono; [| |by apply Hok]; lia.
    - rewrite Hes. pose proof (so_commits _ Hs) as Hnd. unfold committed_entries in *.
      rewrite NoDup_fmap_filter_alt in Hnd |- *. intros a b x y Ha Hb Hx Hy Hxy.
      rewrite list_lookup_insert_Some in Ha. rewrite list_lookup_insert_Some in Hb.
      destruct Ha as [(<- & <- & _)|[Hia Ha]], Hb as [(<- & <- & _)|[Hib Hb]]; [done| | |by eauto].
      + destruct (evolves_commit_unique inv old new y) as [Hoc Heq]; try done.
        { apply Hok. by eapply list_elem_of_lookup_2. }
        by eapply Hnd.
      + destruct (evolves_commit_unique inv old new x) as [Hoc Heq]; try done.
        { apply Hok. by eapply list_elem_of_lookup_2. }
        symmetry. by eapply Hnd.
    - rewrite Hloc. apply Hs.
    - rewrite Hes. erewrite (fmap_insert_same (uuid_bytes ∘ e_uuid)); [apply Hs|done|].
      unfold compose, e_uuid. by rewrite Hid. }
  split; try done; try lia.
  - intros o n Ho Hn Heq. destruct (Hback n Hn) as [->|Hn'].
    + assert (o = old) as ->; [|done].
      eapply (NoDup_fmap_inj e_local_id); [apply Hs|done|done|].
      rewrite Heq. unfold e_local_id. by rewrite Hid.
    + assert (o = n) as -> by (eapply (NoDup_fmap_inj e_local_id); [apply Hs|done..]).
      apply entry_evolves_refl.
  - intros n Hn Hnot. destruct Hnot. rewrite <- Hloc. by apply list_elem_of_fmap_2.
  - intros o Ho Hnot. destruct Hnot. rewrite Hloc. by apply list_elem_of_fmap_2.
Qed.

(** ** Each operation, on success *)

Lemma find_entry_lookup inv id i e :
  FindEntry inv id = Some (i, e) -> inv_entries inv !! i = Some e /\ e_local_id e = id.
Proof. unfold FindEntry. intros (? & ? & _)%list_find_Some. done. Qed.

Lemma find_entry_ok inv id i e :
  structure_ok inv -> FindEntry inv id = Some (i, e) -> entry_ok inv e.
Proof.
  intros Hs [Hi _]%find_entry_lookup. pose proof (so_entries _ Hs) as H.
  rewrite Forall_forall in H. apply H. by eapply list_elem_of_lookup_2.
Qed.

(** An entry that moved out of a non-terminal state by legal transitions. *)
Lemma nonterminal_evolves inv old s final seq written :
  entry_ok inv old -> IsTerminalTransactionState (e_state old) = false ->
  rtc edge (e_state old) s -> s <> ts_archived ->
  (s = ts_committed -> inv_next_commit_sequence inv <= seq) ->
  entry_evolves inv old
    (mkEntry (e_identity old) s (e_archived_from_state old) (e_begin_unix_epoch_millis old)
       final (e_begin_visible_through_local_transaction_id old)
       (e_begin_visible_through_commit_sequence old) seq
       (e_evidence_record_required old) (e_evidence_record_written old || written)
       (e_rollback_only old) (e_stable_snapshot old)).
Proof.
  intros Hok Ht Hr Hs Hc. pose proof (nonterminal_visibility _ _ Hok Ht) as Hv.
  split; try done; simpl.
  - intros ->. done.
  - by rewrite Hv, Ht.
  - intros _ Hn. apply Hc. unfold HasCommittedInventoryOutcome, InventoryVisibilityState in Hn.
    simpl in Hn. rewrite decide_True in Hn by done. apply bool_decide_eq_true_1 in Hn.
    case_decide; done.
Qed.

Lemma nonterminal_entry_ok inv inv' old s final seq written rb :
  entry_ok inv old -> IsTerminalTransactionState (e_state old) = false ->
  s <> ts_none -> s <> ts_archived ->
  inv_next_local_transaction_id inv <= inv_next_local_transaction_id inv' ->
  inv_next_commit_sequence inv <= inv_next_commit_sequence inv' ->
  (s = ts_committed -> inv_next_commit_sequence inv <= seq < inv_next_commit_sequence inv') ->
  (s <> ts_committed -> seq = e_commit_sequence old) ->
  entry_ok inv'
    (mkEntry (e_identity old) s (e_archived_from_state old) (e_begin_unix_epoch_millis old)
       final (e_begin_visible_through_local_transaction_id old)
       (e_begin_visible_through_commit_sequence old) seq
       (e_evidence_record_required old) written rb (e_stable_snapshot old)).
Proof.
  intros Hok Ht Hn Ha Hl Hc Hcs Hns.
  assert (Hna : e_state old <> ts_archived) by (by intros H; rewrite H in Ht).
  pose proof (nonterminal_visibility _ _ Hok Ht) as Hv.
  assert (Hseq : e_commit_sequence old = 0).
  { apply (eo_uncommitted _ _ Hok), not_terminal_not_committed. by rewrite Hv. }
  pose proof (eo_not_archived _ _ Hok Hna) as Hfrom.
  assert (Hvis : HasCommittedInventoryOutcome
    (mkEntry (e_identity old) s (e_archived_from_state old) (e_begin_unix_epoch_millis old)
       final (e_begin_visible_through_local_transaction_id old)
       (e_begin_visible_through_commit_sequence old) seq
       (e_evidence_record_required old) written rb (e_stable_snapshot old)) = bool_decide (s = ts_committed)).
  { unfold HasCommittedInventoryOutcome, InventoryVisibilityState. simpl.
    rewrite decide_True by done. by rewrite decide_True. }
  destruct Hok as [Hb ? ? ? ? ? ? ? Hloc]. split; simpl; try done; try (unfold e_local_id in *; simpl; lia).
  - rewrite Hvis. intros H. bool_prop. specialize (Hcs H). lia.
  - rewrite Hvis. intros H. bool_prop. specialize (Hns H). lia.
Qed.

Lemma begin_ok inv uuid t s r :
  r = BeginLocalTransactionWithState inv uuid t s -> ir_ok r = true ->
  structure_ok inv /\ inv_next_local_transaction_id inv <> u64_max /\
  ContainsTransactionUuid inv uuid = false /\
  let identity := mkTransactionIdentity (inv_next_local_transaction_id inv) uuid scope_local_node in
  obs_ok (ObserveTransactionIdentity identity) = true /\
  rtc edge ts_created s /\ s <> ts_none /\ s <> ts_archived /\ s <> ts_committed /\
  ir_entry r = mkEntry identity s ts_none t 0 (u64_sub (inv_next_local_transaction_id inv) 1)
    (u64_sub (inv_next_commit_sequence inv) 1) 0 true false false false /\
  ir_inventory r = mkInventory (u64_add (inv_next_local_transaction_id inv) 1)
    (inv_next_commit_sequence inv) (inv_entries inv ++ [ir_entry r]) (inv_publication_base inv).
Proof.
  intros -> H. unfold BeginLocalTransactionWithState in *.
  case_decide; [discriminate H|]. case_decide as Hv; [discriminate H|].
  case_decide; [discriminate H|]. case_match eqn:Hu; [discriminate H|].
  case_match eqn:Hi; [by apply negb_true_iff in Hi; unfold ir_ok in H; cbn [ir_status inventory_refusal] in H; rewrite Hi in H|].
  destruct (TransitionsOrFail _ _) as [|e] eqn:Ht; [discriminate H|]. clear H.
  apply validate_structure_iff in Hv.
  simpl in Ht. destruct (TransitionOrFail _ s) as [|e1] eqn:Hto; [done|].
  apply transition_inr in Hto as [-> Hstep]. simplify_eq. cbn in Hstep.
  split_and!; try done.
  - unfold ValidateTransactionIdentity in Hi. simpl in Hi. bool_prop. done.
  - by eapply rtc_once, step_edge.
  - by intros ->.
  - by intros ->.
  - by intros ->.
Qed.

Lemma prepare_ok inv id r :
  r = PrepareLocalTransaction inv id -> ir_ok r = true ->
  exists i old, FindEntry inv id = Some (i, old) /\
    TransitionsOrFail old [ts_preparing; ts_prepared] = inr (set_state ts_prepared old) /\
    ir_inventory r = write_entry i (set_state ts_prepared old) inv.
Proof.
  intros -> H. unfold PrepareLocalTransaction in *.
  case_match; [discriminate H|]. destruct (FindEntry inv id) as [[i old]|]; [|discriminate H].
  case_decide; [discriminate H|]. case_match eqn:Ht; [discriminate H|].
  pose proof (transitions_inr _ _ _ Ht) as [-> _]. exists i, old. auto.
Qed.

Lemma commit_ok inv id t r :
  r = CommitLocalTransaction inv id t -> ir_ok r = true ->
  structure_ok inv /\ inv_next_commit_sequence inv <> u64_max /\
  exists i old, FindEntry inv id = Some (i, old) /\
    e_rollback_only old = false /\
    ti_scope (e_identity old) = scope_local_node /\
    TransitionsOrFail old (commit_path (e_state old)) = inr (set_state ts_committed old) /\
    ir_entry r = set_finality t (inv_next_commit_sequence inv) (set_state ts_committed old) /\
    ir_inventory r = mkInventory (inv_next_local_transaction_id inv)
      (u64_add (inv_next_commit_sequence inv) 1) (<[i := ir_entry r]> (inv_entries inv))
      (inv_publication_base inv).
Proof.
  intros -> H. unfold CommitLocalTransaction in *.
  case_decide as Hv; [discriminate H|]. apply validate_structure_iff in Hv.
  case_decide; [discriminate H|]. case_match; [discriminate H|].
  destruct (FindEntry inv id) as [[i old]|]; [|discriminate H].
  case_decide; [discriminate H|]. case_match; [discriminate H|].
  case_match eqn:Ht; [discriminate H|].
  pose proof (transitions_inr _ _ _ Ht) as [-> _].
  assert (default (e_state old) (last (commit_path (e_state old))) = ts_committed) as Hl.
  { unfold commit_path. by case_decide. }
  rewrite Hl in *. split_and!; [done..|]. exists i, old. split_and!; try done.
Qed.

Lemma archive_ok inv id r :
  r = ArchiveLocalTransaction inv id -> ir_ok r = true ->
  structure_ok inv /\
  exists i old, FindEntry inv id = Some (i, old) /\
    e_evidence_record_written old = true /\
    state_step false (e_state old) ts_archived /\
    ir_inventory r =
      write_entry i (set_archived_from (e_state old) (set_state ts_archived old)) inv.
Proof.
  intros -> H. unfold ArchiveLocalTransaction in *.
  case_decide as Hv; [discriminate H|]. apply validate_structure_iff in Hv.
  case_match; [discriminate H|].
  destruct (FindEntry inv id) as [[i old]|]; [|discriminate H].
  case_match; [discriminate H|]. case_match eqn:Ht; [discriminate H|].
  apply transition_inr in Ht as [-> Hs]. split; [done|]. exists i, old. bool_prop. auto.
Qed.

Lemma rollback_ok inv id t r :
  r = RollbackLocalTransaction inv id t -> ir_ok r = true ->
  exists i old, FindEntry inv id = Some (i, old) /\
    TransitionsOrFail old [ts_rolling_back; ts_rolled_back] = inr (set_state ts_rolled_back old) /\
    ir_inventory r =
      write_entry i (set_finality t (e_commit_sequence old) (set_state ts_rolled_back old)) inv.
Proof.
  intros -> H. unfold RollbackLocalTransaction in *.
  case_match; [discriminate H|]. destruct (FindEntry inv id) as [[i old]|]; [|discriminate H].
  case_decide; [discriminate H|]. case_match eqn:Ht; [discriminate H|].
  pose proof (transitions_inr _ _ _ Ht) as [-> _]. exists i, old. auto.
Qed.

Lemma mark_ok inv id r :
  r = MarkLocalTransactionRollbackOnly inv id -> ir_ok r = true ->
  exists i old, FindEntry inv id = Some (i, old) /\
    e_state old <> ts_committed /\ e_state old <> ts_archived /\
    ir_inventory r = write_entry i (set_rollback_only old) inv.
Proof.
  intros -> H. unfold MarkLocalTransactionRollbackOnly in *.
  case_match; [discriminate H|]. destruct (FindEntry inv id) as [[i old]|]; [|discriminate H].
  case_decide as Hd; [discriminate H|]. exists i, old. naive_solver.
Qed.

(** ** Every accepted operation is a legal evolution *)

Lemma append_entry_evolves inv inv' new :
  structure_ok inv -> inv_entries inv' = inv_entries inv ++ [new] ->
  inv_next_local_transaction_id inv <= inv_next_local_transaction_id inv' ->
  inv_next_commit_sequence inv' = inv_next_commit_sequence inv ->
  entry_ok inv' new -> entry_fresh inv new ->
  HasCommittedInventoryOutcome new = false -> evolves inv inv'.
Proof.
  intros Hs Hes Hl Hc Hok [Hfl Hfu _] Hnc.
  pose proof (so_entries _ Hs) as Hall.
  assert (Hlt : forall e, e ∈ inv_entries inv -> e_local_id e < inv_next_local_transaction_id inv).
  { rewrite Forall_forall in Hall. intros e He. apply Hall, He. }
  assert (Hs' : structure_ok inv').
  { split; rewrite ?Hes.
    - pose proof (so_next_local _ Hs). lia.
    - rewrite Hc. apply Hs.
    - apply Forall_app; split; [|by apply Forall_singleton].
      eapply Forall_impl; [done|]. intros e. apply entry_ok_mono; lia.
    - unfold committed_entries. rewrite filter_app, filter_cons, filter_nil.
      rewrite decide_False by (by rewrite Hnc). rewrite app_nil_r. apply Hs.
    - rewrite fmap_app, NoDup_app. split_and!; [apply Hs| |apply NoDup_singleton].
      intros x (e & -> & He)%list_elem_of_fmap Hx. apply list_elem_of_singleton in Hx.
      specialize (Hlt e He). lia.
    - rewrite fmap_app, NoDup_app. split_and!; [apply Hs| |apply NoDup_singleton].
      intros x (e & -> & He)%list_elem_of_fmap Hx. apply list_elem_of_singleton in Hx.
      apply (Hfu e He). simpl in Hx. destruct (e_uuid e), (e_uuid new). simpl in *. congruence. }
  split; try done; try lia.
  - intros o n Ho Hn Heq. rewrite Hes in Hn. apply elem_of_app in Hn as [Hn|Hn].
    + assert (o = n) as -> by (eapply (NoDup_fmap_inj e_local_id); [apply Hs|done..]).
      apply entry_evolves_refl.
    + apply list_elem_of_singleton in Hn as ->. specialize (Hlt o Ho). lia.
  - intros n Hn Hnot. rewrite Hes in Hn. apply elem_of_app in Hn as [Hn|Hn].
    + destruct Hnot. by apply list_elem_of_fmap_2.
    + apply list_elem_of_singleton in Hn as ->. split; [done|done|by rewrite Hnc].
  - intros o Ho Hnot. destruct Hnot. rewrite Hes. apply list_elem_of_fmap_2. set_solver.
Qed.

Lemma contains_uuid_false inv u :
  ContainsTransactionUuid inv u = false ->
  forall e, e ∈ inv_entries inv -> e_uuid e <> tu_value u.
Proof.
  unfold ContainsTransactionUuid. intros H e He Heq.
  assert (existsb (fun e => bool_decide (e_uuid e = tu_value u)) (inv_entries inv) = true); [|congruence].
  apply existsb_exists. exists e. rewrite <- list_elem_of_In. split; [done|]. by apply bool_decide_eq_true_2.
Qed.

Lemma begin_evolves inv uuid t s :
  counters_u64 inv ->
  ir_ok (BeginLocalTransactionWithState inv uuid t s) = true ->
  evolves inv (ir_inventory (BeginLocalTransactionWithState inv uuid t s)) /\
  counters_u64 (ir_inventory (BeginLocalTransactionWithState inv uuid t s)).
Proof.
  intros [Hul Huc] Hr. remember (BeginLocalTransactionWithState inv uuid t s) as r eqn:Er.
  destruct (begin_ok _ _ _ _ _ Er Hr) as (Hs & Hmax & Hcu & Hid & _ & Hn & Ha & Hcm & He & Hi).
  apply observe_identity_ok in Hid as [Hval Heng].
  assert (Hadd : u64_add (inv_next_local_transaction_id inv) 1 = inv_next_local_transaction_id inv + 1)
    by (apply u64_add_small; u64_unfold; lia).
  assert (Hsub : u64_sub (inv_next_commit_sequence inv) 1 = inv_next_commit_sequence inv - 1)
    by (pose proof (so_next_commit _ Hs); apply u64_sub_small; [lia|done]).
  assert (Hnc : HasCommittedInventoryOutcome (ir_entry r) = false).
  { rewrite He. unfold HasCommittedInventoryOutcome, InventoryVisibilityState. simpl.
    by rewrite decide_True, bool_decide_eq_false_2. }
  split; [|rewrite Hi; split; simpl; [apply u64_add_lt|done]].
  apply (append_entry_evolves inv _ (ir_entry r)); rewrite ?Hi; simpl; try done; try lia.
  - rewrite He in Hnc |- *. split; simpl; try done; try lia.
    all: first [pose proof (so_next_commit _ Hs); lia | unfold e_local_id; simpl; lia].
  - rewrite He in Hnc |- *. split; simpl; [done| |by rewrite Hnc].
    intros o Ho. by apply (contains_uuid_false _ _ Hcu).
Qed.

Lemma prepare_evolves inv id :
  structure_ok inv -> ir_ok (PrepareLocalTransaction inv id) = true ->
  evolves inv (ir_inventory (PrepareLocalTransaction inv id)).
Proof.
  intros Hs Hr. destruct (prepare_ok _ _ _ eq_refl Hr) as (i & old & Hf & Ht & ->).
  pose proof (find_entry_ok _ _ _ _ Hs Hf) as Hok.
  pose proof (transitions_not_terminal _ _ _ _ Ht ltac:(done)) as Hnt.
  apply transitions_inr in Ht as [_ Hrtc]. simpl in Hrtc.
  apply find_entry_lookup in Hf as [Hi _].
  apply (replace_entry_evolves inv _ i old (set_state ts_prepared old)); try done.
  - apply (nonterminal_entry_ok inv); try done.
  - pose proof (nonterminal_evolves inv old ts_prepared (e_final_unix_epoch_millis old)
      (e_commit_sequence old) false Hok Hnt Hrtc) as H.
    rewrite orb_false_r in H. by apply H.
Qed.

Lemma commit_evolves inv id t :
  counters_u64 inv -> ir_ok (CommitLocalTransaction inv id t) = true ->
  evolves inv (ir_inventory (CommitLocalTransaction inv id t)) /\
  counters_u64 (ir_inventory (CommitLocalTransaction inv id t)).
Proof.
  intros [Hul Huc] Hr. remember (CommitLocalTransaction inv id t) as r eqn:Er.
  destruct (commit_ok _ _ _ _ Er Hr) as (Hs & Hmax & i & old & Hf & _ & _ & Ht & He & Hi).
  assert (Hadd : u64_add (inv_next_commit_sequence inv) 1 = inv_next_commit_sequence inv + 1)
    by (apply u64_add_small; u64_unfold; lia).
  pose proof (find_entry_ok _ _ _ _ Hs Hf) as Hok.
  assert (Hnt : IsTerminalTransactionState (e_state old) = false).
  { unfold commit_path in Ht. case_decide; eapply transitions_not_terminal; done. }
  apply transitions_inr in Ht as [_ Hrtc]. simpl in Hrtc.
  apply find_entry_lookup in Hf as [Hi' _].
  split; [|rewrite Hi; split; simpl; [done|apply u64_add_lt]].
  apply (replace_entry_evolves inv _ i old (ir_entry r)); rewrite ?Hi; simpl; try done; try lia.
  - by rewrite He.
  - rewrite He. apply (nonterminal_entry_ok inv _ old ts_committed); simpl; try done; lia.
  - rewrite He. pose proof (nonterminal_evolves inv old ts_committed t
      (inv_next_commit_sequence inv) true Hok Hnt Hrtc) as H.
    rewrite orb_true_r in H. apply H; [done|lia].
Qed.

Lemma rollback_evolves inv id t :
  structure_ok inv -> ir_ok (RollbackLocalTransaction inv id t) = true ->
  evolves inv (ir_inventory (RollbackLocalTransaction inv id t)).
Proof.
  intros Hs Hr. destruct (rollback_ok _ _ _ _ eq_refl Hr) as (i & old & Hf & Ht & ->).
  pose proof (find_entry_ok _ _ _ _ Hs Hf) as Hok.
  pose proof (transitions_not_terminal _ _ _ _ Ht ltac:(done)) as Hnt.
  apply transitions_inr in Ht as [_ Hrtc]. simpl in Hrtc.
  apply find_entry_lookup in Hf as [Hi _].
  apply (replace_entry_evolves inv _ i old
    (set_finality t (e_commit_sequence old) (set_state ts_rolled_back old))); try done.
  - apply (nonterminal_entry_ok inv _ old ts_rolled_back); try done.
  - pose proof (nonterminal_evolves inv old ts_rolled_back t
      (e_commit_sequence old) true Hok Hnt Hrtc) as H.
    rewrite orb_true_r in H. by apply H.
Qed.

Lemma mark_evolves inv id :
  structure_ok inv -> ir_ok (MarkLocalTransactionRollbackOnly inv id) = true ->
  evolves inv (ir_inventory (MarkLocalTransactionRollbackOnly inv id)).
Proof.
  intros Hs Hr. destruct (mark_ok _ _ _ eq_refl Hr) as (i & old & Hf & Hc & Ha & ->).
  pose proof (find_entry_ok _ _ _ _ Hs Hf) as Hok.
  apply find_entry_lookup in Hf as [Hi _].
  apply (replace_entry_evolves inv _ i old (set_rollback_only old)); try done.
  - destruct Hok. by split.
  - split; try done; simpl.
    change (HasCommittedInventoryOutcome (set_rollback_only old))
      with (HasCommittedInventoryOutcome old). congruence.
Qed.

Lemma archive_evolves inv id :
  ir_ok (ArchiveLocalTransaction inv id) = true ->
  evolves inv (ir_inventory (ArchiveLocalTransaction inv id)).
Proof.
  intros Hr. destruct (archive_ok _ _ _ eq_refl Hr) as (Hs & i & old & Hf & Hw & Hst & ->).
  pose proof (find_entry_ok _ _ _ _ Hs Hf) as Hok.
  apply find_entry_lookup in Hf as [Hi _].
  set (new := set_archived_from (e_state old) (set_state ts_archived old)).
  assert (Hold : e_state old ∈ [ts_committed; ts_rolled_back; ts_failed_terminal]).
  { destruct (e_state old); try discriminate Hst; set_solver. }
  assert (Hvis : InventoryVisibilityState new = InventoryVisibilityState old).
  { rewrite (visibility_not_archived inv old) by (try done; intros E; rewrite E in Hold; set_solver).
    unfold InventoryVisibilityState, new. simpl. destruct (e_state old); set_solver. }
  assert (Hcom : HasCommittedInventoryOutcome new = HasCommittedInventoryOutcome old)
    by (unfold HasCommittedInventoryOutcome; by rewrite Hvis).
  assert (Hvo : InventoryVisibilityState old = e_state old).
  { apply (visibility_not_archived inv); [done|]. intros E; rewrite E in Hold; set_solver. }
  apply (replace_entry_evolves inv _ i old new); try done.
  - destruct Hok as [? ? ? ? Hco Huc ? ? ?].
    split; try done; rewrite ?Hcom; done.
  - split; try done.
    + by apply rtc_once, (step_edge false).
    + intros _ _. rewrite Hvis, Hvo. constructor.
    + rewrite Hcom. congruence.
Qed.

Lemma compact_evolves r :
  cres_ok (CompactLocalTransactionInventory r) = true ->
  evolves (cr_inventory r) (cres_inventory (CompactLocalTransactionInventory r)).
Proof.
  intros H. unfold CompactLocalTransactionInventory in *.
  case_match; [discriminate H|]. case_match; [discriminate H|].
  case_decide as Hv; [discriminate H|]. apply validate_structure_iff in Hv. clear H. simpl.
  set (inv := cr_inventory r) in *.
  set (keep := fun e => compaction_can_drop r e = false).
  assert (Hsub : forall e, e ∈ filter keep (inv_entries inv) -> e ∈ inv_entries inv).
  { intros e [_ He]%list_elem_of_filter. done. }
  assert (Hsl : sublist (filter keep (inv_entries inv)) (inv_entries inv)) by apply sublist_filter.
  pose proof (so_entries _ Hv) as Hall. rewrite Forall_forall in Hall.
  split; simpl; try done.
  - split; simpl; try apply Hv.
    + apply Forall_forall. intros e He. specialize (Hall e (Hsub e He)).
      eapply entry_ok_mono; [| |exact Hall]; simpl; lia.
    + eapply sublist_NoDup; [apply (so_commits _ Hv)|]. apply fmap_sublist. unfold committed_entries.
      rewrite list_filter_filter. erewrite list_filter_iff; [|intros; apply and_comm].
      rewrite <- list_filter_filter. apply sublist_filter.
    + eapply sublist_NoDup; [apply (so_locals _ Hv)|]. by apply fmap_sublist.
    + eapply sublist_NoDup; [apply (so_uuids _ Hv)|]. by apply fmap_sublist.
  - intros o n Ho Hn Heq.
    assert (o = n) as -> by (eapply (NoDup_fmap_inj e_local_id); [apply Hv|done|by apply Hsub|done]).
    apply entry_evolves_refl.
  - intros n Hn Hnot. destruct Hnot. apply list_elem_of_fmap_2. by apply Hsub.
  - intros o Ho Hnot. specialize (Hall o Ho).
    assert (Hd : compaction_can_drop r o = true).
    { destruct (compaction_can_drop r o) eqn:E; [done|]. destruct Hnot.
      apply list_elem_of_fmap_2, list_elem_of_filter. done. }
    unfold compaction_can_drop in Hd. bool_prop.
    pose proof (eo_archived _ _ Hall ltac:(done)) as Hfrom.
    unfold resolved_outcome, InventoryVisibilityState. rewrite decide_False by naive_solver.
    destruct (e_archived_from_state o); set_solver.
Qed.
