(* ===== verification/Recovery.v ===== *)
(** * Startup recovery of the local transaction inventory

    Models [transaction_recovery.{hpp,cpp}] of [src/project/src/transaction/mga]:
    the classification of every entry, the pass that completes interrupted commits
    and rollbacks, and the operator's resolution of a limbo transaction. *)

From S2P Require Import Prelude Platform TransactionState Inventory InventoryEvolution InventoryTheorems.

Inductive TransactionRecoveryAction :=
| ra_no_action | ra_complete_commit | ra_complete_rollback
| ra_prepared_waiting_local_decision | ra_limbo_requires_operator
| ra_fail_closed_ambiguous | ra_unknown | ra_cluster_provider_required.

Inductive LimboOperatorDecision := lod_commit | lod_rollback | lod_fail_terminal | lod_unknown.

#[export] Instance TransactionRecoveryAction_eq_dec : EqDecision TransactionRecoveryAction.
Proof. solve_decision. Defined.
#[export] Instance LimboOperatorDecision_eq_dec : EqDecision LimboOperatorDecision.
Proof. solve_decision. Defined.

Record LimboOperatorResolutionPolicy := mkLimboPolicy {
  lp_operator_decision_authoritative : bool;
  lp_operator_evidence_reference : string }.

Record TransactionRecoveryClassification := mkClassification {
  rc_local_id : LocalTransactionId;
  rc_observed_state : TransactionState;
  rc_action : TransactionRecoveryAction;
  rc_fail_closed : bool;
  rc_stable_reason : string }.

Record TransactionRecoveryResult := mkRecoveryResult {
  rr_status : Status;
  rr_classifications : list TransactionRecoveryClassification;
  rr_recovered_inventory : LocalTransactionInventory;
  rr_diagnostic : DiagnosticRecord;
  rr_inventory_changed : bool;
  rr_write_admission_must_remain_fenced : bool }.

Definition rr_ok (r : TransactionRecoveryResult) : bool := status_ok (rr_status r).

Definition TransactionRecoveryActionName (a : TransactionRecoveryAction) : string :=
  match a with
  | ra_no_action => "no_action"
  | ra_complete_commit => "complete_commit"
  | ra_complete_rollback => "complete_rollback"
  | ra_prepared_waiting_local_decision => "prepared_waiting_local_decision"
  | ra_limbo_requires_operator => "limbo_requires_operator"
  | ra_fail_closed_ambiguous => "fail_closed_ambiguous"
  | ra_cluster_provider_required => "cluster_provider_required"
  | ra_unknown => "unknown"
  end.

Definition LimboOperatorDecisionName (d : LimboOperatorDecision) : string :=
  match d with
  | lod_commit => "commit"
  | lod_rollback => "rollback"
  | lod_fail_terminal => "fail_terminal"
  | lod_unknown => "unknown"
  end.

Definition MakeTransactionRecoveryDiagnostic : Status -> string -> string -> string -> DiagnosticRecord :=
  MakeComponentDiagnostic "transaction.mga.recovery".

(** ** Transitions applied in place

    The helpers mutate the entry they are given and report failure through the
    [diagnostic] argument: the entry after the call, with [Some] diagnostic when
    the C++ function returns [false]. *)

Definition set_evidence_required (e : TransactionInventoryEntry) :=
  mkEntry (e_identity e) (e_state e) (e_archived_from_state e) (e_begin_unix_epoch_millis e)
    (e_final_unix_epoch_millis e) (e_begin_visible_through_local_transaction_id e)
    (e_begin_visible_through_commit_sequence e) (e_commit_sequence e)
    true (e_evidence_record_written e) (e_rollback_only e) (e_stable_snapshot e).
Definition set_commit_sequence (seq : N) (e : TransactionInventoryEntry) :=
  mkEntry (e_identity e) (e_state e) (e_archived_from_state e) (e_begin_unix_epoch_millis e)
    (e_final_unix_epoch_millis e) (e_begin_visible_through_local_transaction_id e)
    (e_begin_visible_through_commit_sequence e) seq
    (e_evidence_record_required e) (e_evidence_record_written e)
    (e_rollback_only e) (e_stable_snapshot e).

Definition TransitionForRecovery (e : TransactionInventoryEntry) (next : TransactionState)
    (recovery_unix_epoch_millis : N) : TransactionInventoryEntry * option DiagnosticRecord :=
  let transition := CheckTransactionStateTransition (e_state e) next true in
  if negb (ttr_ok transition) then (e, Some (ttr_diagnostic transition))
  else
    let e := set_state next e in
    match next with
    | ts_committed | ts_rolled_back | ts_failed_terminal =>
      (set_finality recovery_unix_epoch_millis (e_commit_sequence e) e, None)
    | _ => (e, None)
    end.

Definition ApplyRecoveryAction (e : TransactionInventoryEntry) (action : TransactionRecoveryAction)
    (recovery_unix_epoch_millis : N) : TransactionInventoryEntry * option DiagnosticRecord :=
  match action with
  | ra_no_action => (e, None)
  | ra_complete_commit => TransitionForRecovery e ts_committed recovery_unix_epoch_millis
  | ra_complete_rollback =>
    let '(e, failure) :=
      if decide (e_state e <> ts_rolling_back)
      then TransitionForRecovery e ts_rolling_back recovery_unix_epoch_millis
      else (e, None) in
    match failure with
    | Some _ => (e, failure)
    | None => TransitionForRecovery e ts_rolled_back recovery_unix_epoch_millis
    end
  | ra_prepared_waiting_local_decision | ra_limbo_requires_operator
  | ra_fail_closed_ambiguous | ra_cluster_provider_required | ra_unknown => (e, None)
  end.

Definition FindRecoveryEntry (inv : LocalTransactionInventory) (local_id : LocalTransactionId)
    : option (nat * TransactionInventoryEntry) :=
  list_find (fun e => e_local_id e = local_id) (inv_entries inv).

Definition RecoveryInventoryError (code key detail : string) : TransactionInventoryResult :=
  mkInventoryResult MgaErrorStatus LocalTransactionInventory_default
    TransactionInventoryEntry_default
    (MakeTransactionRecoveryDiagnostic MgaErrorStatus code key detail).

Definition TerminalStateForLimboDecision (d : LimboOperatorDecision) : TransactionState :=
  match d with
  | lod_commit => ts_committed
  | lod_rollback => ts_rolled_back
  | lod_fail_terminal => ts_failed_terminal
  | lod_unknown => ts_none
  end.

(** ** Classification *)

(** The states a cluster-global entry has not been decided in. *)
Definition cluster_unresolved (s : TransactionState) : bool :=
  match s with
  | ts_created | ts_active | ts_read_only_active | ts_preparing | ts_prepared
  | ts_committing | ts_rolling_back | ts_limbo | ts_recovering => true
  | _ => false
  end.

Definition ClassifyLocalTransactionForRecovery (e : TransactionInventoryEntry)
    : TransactionRecoveryClassification :=
  let classified action fail_closed reason :=
    mkClassification (e_local_id e) (e_state e) action fail_closed reason in
  let scope := ti_scope (e_identity e) in
  let outcome := InventoryVisibilityState e in
  if decide (scope <> scope_local_node /\ scope <> scope_cluster_global) then
    classified ra_fail_closed_ambiguous true "invalid_transaction_scope"
  else if decide ((e_state e = ts_archived /\ outcome = ts_none) \/
                  (e_state e <> ts_archived /\ e_archived_from_state e <> ts_none)) then
    classified ra_fail_closed_ambiguous true "invalid_archived_transaction_origin"
  else if decide (outcome = ts_failed_terminal) then
    classified ra_fail_closed_ambiguous true "failed_terminal_requires_review"
  else if bool_decide (scope = scope_cluster_global) && cluster_unresolved (e_state e) then
    classified ra_cluster_provider_required true "cluster_recovery_requires_provider_decision"
  else if e_rollback_only e && negb (bool_decide (e_state e ∈
            [ts_committed; ts_committing; ts_rolled_back; ts_archived])) then
    classified ra_complete_rollback false "rollback_only_local_state"
  else match e_state e with
  | ts_none => classified ra_fail_closed_ambiguous true "missing_transaction_state"
  | ts_created | ts_active | ts_read_only_active | ts_preparing =>
    classified ra_complete_rollback false "uncommitted_local_state"
  | ts_prepared =>
    classified ra_prepared_waiting_local_decision true "prepared_requires_local_decision"
  | ts_committing =>
    if e_evidence_record_required e && negb (e_evidence_record_written e)
    then classified ra_fail_closed_ambiguous true "committing_without_durable_evidence"
    else classified ra_complete_commit false "commit_publication_incomplete"
  | ts_rolling_back => classified ra_complete_rollback false "rollback_publication_incomplete"
  | ts_committed | ts_rolled_back | ts_archived =>
    classified ra_no_action false "terminal_or_archived"
  | ts_limbo | ts_recovering =>
    classified ra_limbo_requires_operator true "limbo_or_recovering_without_cluster_authority"
  | ts_failed_terminal => classified ra_fail_closed_ambiguous true "failed_terminal_requires_review"
  end.

(** The loop over the entries: the classifications pushed, the fence they raise,
    and whether an invalid identity stopped the loop. *)
Fixpoint classify_entries (es : list TransactionInventoryEntry)
    : list TransactionRecoveryClassification * bool * bool :=
  match es with
  | [] => ([], false, false)
  | e :: es =>
    if negb (transaction_identity_valid (e_identity e)) then ([], false, true)
    else
      let c := ClassifyLocalTransactionForRecovery e in
      let '(cs, fenced, stopped) := classify_entries es in
      (c :: cs, rc_fail_closed c || fenced, stopped)
  end.

Definition ClassifyLocalTransactionInventoryForRecovery (inv : LocalTransactionInventory)
    : TransactionRecoveryResult :=
  let reason := ValidateLocalTransactionInventoryStructure inv in
  if decide (reason <> ""%string) then
    mkRecoveryResult MgaErrorStatus [] LocalTransactionInventory_default
      (MakeTransactionRecoveryDiagnostic MgaErrorStatus "SB-SNTXN-RECOVERY-STATE-AMBIGUOUS"
         "transaction.recovery.inventory_invalid" reason) false true
  else
    let '(cs, fenced, stopped) := classify_entries (inv_entries inv) in
    if stopped : bool then
      mkRecoveryResult MgaErrorStatus cs inv
        (MakeTransactionRecoveryDiagnostic MgaErrorStatus "SB-SNTXN-RECOVERY-STATE-AMBIGUOUS"
           "transaction.recovery.invalid_identity" "") false fenced
    else mkRecoveryResult MgaOkStatus cs inv DiagnosticRecord_default false fenced.

(** ** The recovery pass *)

(** What the loop over [recovered_inventory.entries] leaves behind: the entries
    and the commit counter as they are after it, the flags it set, and the
    diagnostic of the transition that stopped it. *)
Record recovery_pass := mkPass {
  rp_entries : list TransactionInventoryEntry;
  rp_next_commit_sequence : N;
  rp_fenced : bool;
  rp_changed : bool;
  rp_failure : option DiagnosticRecord }.

(** The commit sequence assignment after a state change. *)
Definition publish_recovered (next_commit_sequence : N) (e : TransactionInventoryEntry)
    : TransactionInventoryEntry * N :=
  if decide (e_state e = ts_committed)
  then (set_commit_sequence next_commit_sequence e, u64_add next_commit_sequence 1)
  else (e, next_commit_sequence).

Fixpoint recover_entries (t next_commit_sequence : N) (es : list TransactionInventoryEntry)
    : recovery_pass :=
  match es with
  | [] => mkPass [] next_commit_sequence false false None
  | e :: es =>
    let c := ClassifyLocalTransactionForRecovery e in
    if rc_fail_closed c then
      let p := recover_entries t next_commit_sequence es in
      mkPass (e :: rp_entries p) (rp_next_commit_sequence p) true (rp_changed p) (rp_failure p)
    else
      let '(e', failure) := ApplyRecoveryAction e (rc_action c) t in
      match failure with
      | Some d => mkPass (e' :: es) next_commit_sequence true false (Some d)
      | None =>
        let changed := bool_decide (e_state e' <> e_state e) in
        let '(e', next) :=
          if changed then publish_recovered next_commit_sequence e' else (e', next_commit_sequence) in
        let p := recover_entries t next es in
        mkPass (e' :: rp_entries p) (rp_next_commit_sequence p) (rp_fenced p)
          (changed || rp_changed p) (rp_failure p)
      end
  end.

Definition completes_commit (c : TransactionRecoveryClassification) : bool :=
  negb (rc_fail_closed c) && bool_decide (rc_action c = ra_complete_commit).

Definition recovery_commit_count (cs : list TransactionRecoveryClassification) : N :=
  N.of_nat (length (filter (fun c => completes_commit c = true) cs)).

Definition ApplyLocalTransactionInventoryRecovery (inv : LocalTransactionInventory)
    (recovery_unix_epoch_millis : N) : TransactionRecoveryResult :=
  let classified := ClassifyLocalTransactionInventoryForRecovery inv in
  if negb (rr_ok classified) then classified
  else if decide (u64_sub u64_max (inv_next_commit_sequence inv) <
                  recovery_commit_count (rr_classifications classified)) then
    mkRecoveryResult MgaErrorStatus (rr_classifications classified)
      (rr_recovered_inventory classified)
      (MakeTransactionRecoveryDiagnostic MgaErrorStatus "CATALOG.INVALID_INPUT"
         "transaction.recovery.commit_sequence_exhausted" "")
      (rr_inventory_changed classified) true
  else
    let p := recover_entries recovery_unix_epoch_millis (inv_next_commit_sequence inv) (inv_entries inv) in
    let recovered := mkInventory (inv_next_local_transaction_id inv) (rp_next_commit_sequence p)
                       (rp_entries p) (inv_publication_base inv) in
    let fenced := rr_write_admission_must_remain_fenced classified || rp_fenced p in
    match rp_failure p with
    | Some d => mkRecoveryResult MgaErrorStatus (rr_classifications classified) recovered d
                  (rp_changed p) true
    | None => mkRecoveryResult (rr_status classified) (rr_classifications classified) recovered
                (rr_diagnostic classified) (rp_changed p) fenced
    end.

(** ** Operator resolution of a limbo transaction *)

Definition ResolveLimboLocalTransactionWithOperatorDecision (inv : LocalTransactionInventory)
    (local_id : LocalTransactionId) (decision : LimboOperatorDecision)
    (final_unix_epoch_millis : N) (policy : LimboOperatorResolutionPolicy)
    : TransactionInventoryResult :=
  let reason := ValidateLocalTransactionInventoryStructure inv in
  if decide (reason <> ""%string) then
    RecoveryInventoryError "CATALOG.INVALID_INPUT" "transaction.recovery.inventory_invalid" reason
  else if decide (decision = lod_commit /\ inv_next_commit_sequence inv = u64_max) then
    RecoveryInventoryError "CATALOG.INVALID_INPUT" "transaction.recovery.commit_sequence_exhausted" ""
  else if negb (local_id_valid local_id) then
    RecoveryInventoryError "SB-SNTXN-LIMBO-LOCAL-ID-INVALID"
      "transaction.recovery.limbo_local_id_invalid" ""
  else if decide (decision = lod_unknown \/ TerminalStateForLimboDecision decision = ts_none) then
    RecoveryInventoryError "SB-SNTXN-LIMBO-OPERATOR-DECISION-INVALID"
      "transaction.recovery.limbo_operator_decision_invalid" (LimboOperatorDecisionName decision)
  else if negb (lp_operator_decision_authoritative policy) ||
          bool_decide (lp_operator_evidence_reference policy = ""%string) then
    RecoveryInventoryError "SB-SNTXN-LIMBO-OPERATOR-AUTHORITY-REQUIRED"
      "transaction.recovery.limbo_operator_authority_required"
      "authoritative operator evidence is required"
  else match FindRecoveryEntry inv local_id with
  | None =>
    RecoveryInventoryError "SB-SNTXN-LIMBO-LOCAL-ID-NOT-FOUND"
      "transaction.recovery.limbo_local_id_not_found" (to_string local_id)
  | Some (i, entry) =>
    if decide (e_state entry <> ts_limbo) then
      RecoveryInventoryError "SB-SNTXN-LIMBO-STATE-REQUIRED"
        "transaction.recovery.limbo_state_required" (TransactionStateName (e_state entry))
    else if decide (ti_scope (e_identity entry) = scope_cluster_global) then
      RecoveryInventoryError "SB-SNTXN-LIMBO-EXTERNAL-PROVIDER-REQUIRED"
        "transaction.recovery.limbo_external_provider_required"
        "cluster-scope limbo resolution requires external cluster provider authority"
    else match TransitionForRecovery entry ts_recovering final_unix_epoch_millis with
    | (_, Some diagnostic) => inventory_refusal MgaErrorStatus diagnostic
    | (entry, None) =>
      match TransitionForRecovery (set_evidence_required entry)
              (TerminalStateForLimboDecision decision) final_unix_epoch_millis with
      | (_, Some diagnostic) => inventory_refusal MgaErrorStatus diagnostic
      | (entry, None) =>
        let '(entry, next) := publish_recovered (inv_next_commit_sequence inv) entry in
        let inv := write_entry i entry inv in
        mkInventoryResult MgaOkStatus
          (mkInventory (inv_next_local_transaction_id inv) next (inv_entries inv)
             (inv_publication_base inv)) entry DiagnosticRecord_default
      end
    end
  end.

(** ** Facts about startup recovery *)

(** An entry whose rollback the pass is asked to complete from a state that has
    no transition to [rolling_back]. *)
Definition recovery_blocked (e : TransactionInventoryEntry) : Prop :=
  ti_scope (e_identity e) = scope_local_node /\ e_rollback_only e = true /\
  (e_state e = ts_limbo \/ e_state e = ts_recovering).

#[export] Instance recovery_blocked_dec e : Decision (recovery_blocked e).
Proof. unfold recovery_blocked. apply _. Defined.

(** What the pass does to one admitted entry. *)
Inductive entry_recovery (t : N) (e : TransactionInventoryEntry)
    : TransactionInventoryEntry * option DiagnosticRecord -> Prop :=
| er_blocked d : recovery_blocked e ->
    rc_action (ClassifyLocalTransactionForRecovery e) = ra_complete_rollback ->
    entry_recovery t e (e, Some d)
| er_decided : IsTerminalTransactionState (InventoryVisibilityState e) = true ->
    rc_action (ClassifyLocalTransactionForRecovery e) = ra_no_action ->
    ~ recovery_blocked e -> entry_recovery t e (e, None)
| er_completed s : IsTerminalTransactionState (e_state e) = false ->
    (s = ts_committed /\ rc_action (ClassifyLocalTransactionForRecovery e) = ra_complete_commit \/
     s = ts_rolled_back /\ rc_action (ClassifyLocalTransactionForRecovery e) = ra_complete_rollback) ->
    rtc edge (e_state e) s -> ~ recovery_blocked e ->
    entry_recovery t e (set_finality t (e_commit_sequence e) (set_state s e), None).

Lemma entry_recovery_exact inv e t :
  entry_ok inv e -> rc_fail_closed (ClassifyLocalTransactionForRecovery e) = false ->
  entry_recovery t e (ApplyRecoveryAction e (rc_action (ClassifyLocalTransactionForRecovery e)) t).
Proof.
  intros Hok Hc. pose proof (eo_state _ _ Hok) as Hn. pose proof (eo_archived _ _ Hok) as Ha.
  pose proof (eo_not_archived _ _ Hok) as Hna. clear Hok.
  destruct e as [i s a b f v c q r w k st]. simpl in Hn, Ha, Hna.
  destruct i as [l u sc].
  assert (Hr : forall x y, reachable x y = true -> rtc edge x y) by (intros; by apply reachable_iff_rtc).
  destruct s; try (specialize (Hna ltac:(done)); subst a); try done.
  all: try (specialize (Ha eq_refl); clear Hna Hn; decompose_list_elem_of; subst a).
  all: destruct sc; try discriminate Hc.
  all: destruct k; try discriminate Hc.
  all: try (destruct r, w; discriminate Hc).
  all: try (by refine (er_decided t _ _ _ _); [..|intros (_ & _ & [?|?])]).
  all: try (refine (er_blocked t _ _ _ _); [split_and!; simpl; tauto|done]).
  all: try (refine (er_completed t _ ts_rolled_back _ _ _ _);
    [done|by right|apply Hr; vm_compute; reflexivity|intros (_ & ? & [?|?]); done]).
  all: destruct r, w; try discriminate Hc;
    (refine (er_completed t _ ts_committed _ _ _ _);
     [done|by left|apply Hr; vm_compute; reflexivity|intros (_ & ? & [?|?]); done]).
Qed.

(** ** Composing legal successors *)

Lemma evolves_refl inv : structure_ok inv -> evolves inv inv.
Proof.
  intros Hs. split; try done; try lia.
  - intros o n Ho Hn Heq.
    assert (o = n) as -> by (eapply (NoDup_fmap_inj e_local_id); [apply Hs|done..]).
    apply entry_evolves_refl.
  - intros n Hn Hnot. destruct Hnot. by apply list_elem_of_fmap_2.
  - intros o Ho Hnot. destruct Hnot. by apply list_elem_of_fmap_2.
Qed.

Lemma committed_is_terminal e :
  HasCommittedInventoryOutcome e = true -> IsTerminalTransactionState (InventoryVisibilityState e) = true.
Proof. unfold HasCommittedInventoryOutcome. intros H. bool_prop. by rewrite H. Qed.

Lemma archived_outcome_terminal inv e :
  entry_ok inv e -> e_state e = ts_archived ->
  IsTerminalTransactionState (InventoryVisibilityState e) = true.
Proof.
  intros Hok Ha. pose proof (eo_archived _ _ Hok Ha) as Ho. unfold InventoryVisibilityState.
  rewrite decide_False by tauto. decompose_list_elem_of; by case_match.
Qed.

Lemma entry_evolves_trans a b x y z :
  inv_next_commit_sequence a <= inv_next_commit_sequence b -> entry_ok b y ->
  entry_evolves a x y -> entry_evolves b y z -> entry_evolves a x z.
Proof.
  intros Hc Hy [U1 S1 M1 L1 C1 T1 R1 W1 F1 E1 A1 K1] [U2 S2 M2 L2 C2 T2 R2 W2 F2 E2 A2 K2].
  split; [by etrans..|by eauto|by eauto| | | |].
  - intros Ht. destruct (F1 Ht) as (Hv & -> & ->). rewrite Hv in Ht |- *.
    destruct (F2 Ht) as (-> & -> & ->). done.
  - by etrans.
  - intros Hz Hx. destruct (decide (e_state y = ts_archived)) as [Hay|Hay].
    + destruct (F2 (archived_outcome_terminal _ _ Hy Hay)) as (<- & _). by apply A1.
    + etrans; [exact E1|]. by apply A2.
  - intros Hx Hz. destruct (HasCommittedInventoryOutcome y) eqn:Hcy.
    + destruct (F2 (committed_is_terminal _ Hcy)) as (_ & _ & <-). by apply K1.
    + etrans; [exact Hc|by apply K2].
Qed.

(** Legal successors compose as long as no entry is dropped. *)
Lemma evolves_trans a b c :
  e_local_id <$> inv_entries b = e_local_id <$> inv_entries a ->
  e_local_id <$> inv_entries c = e_local_id <$> inv_entries b ->
  evolves a b -> evolves b c -> evolves a c.
Proof.
  intros Hids Hids' Hab Hbc. pose proof (so_entries _ (evo_after _ _ Hab)) as Hall. rewrite Forall_forall in Hall.
  assert (Hmid : forall i, i ∈ e_local_id <$> inv_entries a -> exists y, y ∈ inv_entries b /\ i = e_local_id y).
  { intros i Hi. rewrite <- Hids in Hi. apply list_elem_of_fmap in Hi as (y & -> & ?). eauto. }
  split.
  - apply Hab.
  - apply Hbc.
  - pose proof (evo_local _ _ Hab). pose proof (evo_local _ _ Hbc). lia.
  - pose proof (evo_commit _ _ Hab). pose proof (evo_commit _ _ Hbc). lia.
  - intros x z Hx Hz Heq. destruct (Hmid (e_local_id x)) as (y & Hy & Hxy); [by apply list_elem_of_fmap_2|].
    eapply entry_evolves_trans; [apply (evo_commit _ _ Hab)|by apply Hall|by apply Hab|].
    apply Hbc; [done..|congruence].
  - intros z Hz Hnin. rewrite <- Hids in Hnin. destruct (evo_fresh _ _ Hbc z Hz Hnin) as [Hl Hu Hk].
    pose proof (evo_local _ _ Hab). pose proof (evo_commit _ _ Hab). split; [lia| |intros H'; specialize (Hk H'); lia].
    intros x Hx. destruct (Hmid (e_local_id x)) as (y & Hy & Hxy); [by apply list_elem_of_fmap_2|].
    rewrite (ev_uuid _ _ _ (evo_retained _ _ Hab x y Hx Hy Hxy)). by apply Hu.
  - intros x Hx Hnin. destruct Hnin. rewrite Hids', Hids. by apply list_elem_of_fmap_2.
Qed.

(** ** One entry of the pass *)

Definition with_entries (inv : LocalTransactionInventory) (next : N)
    (es : list TransactionInventoryEntry) : LocalTransactionInventory :=
  mkInventory (inv_next_local_transaction_id inv) next es (inv_publication_base inv).

Definition recovers_commit (e : TransactionInventoryEntry) : bool :=
  completes_commit (ClassifyLocalTransactionForRecovery e).

Definition commit_total (es : list TransactionInventoryEntry) : N :=
  recovery_commit_count (ClassifyLocalTransactionForRecovery <$> es).

Lemma commit_total_cons e es :
  commit_total (e :: es) = (if recovers_commit e then 1 else 0) + commit_total es.
Proof.
  unfold commit_total, recovery_commit_count, recovers_commit. rewrite fmap_cons, filter_cons.
  case_decide as H; [rewrite H|apply not_true_is_false in H; rewrite H]; simpl; lia.
Qed.

(** The entry and the counter after the pass went over [e]. *)
Definition recover_entry (t next : N) (e : TransactionInventoryEntry) : TransactionInventoryEntry * N :=
  if rc_fail_closed (ClassifyLocalTransactionForRecovery e) then (e, next)
  else match IsTerminalTransactionState (e_state e) with
  | true => (e, next)
  | false =>
    if recovers_commit e then (set_finality t next (set_state ts_committed e), u64_add next 1)
    else (set_finality t (e_commit_sequence e) (set_state ts_rolled_back e), next)
  end.

Lemma terminal_of_outcome inv e :
  entry_ok inv e -> IsTerminalTransactionState (InventoryVisibilityState e) = true ->
  IsTerminalTransactionState (e_state e) = true.
Proof.
  intros Hok H. destruct (IsTerminalTransactionState (e_state e)) eqn:Ht; [done|].
  by rewrite (nonterminal_visibility _ _ Hok Ht), Ht in H.
Qed.

Lemma recover_entries_cons inv t next e es :
  entry_ok inv e ->
  recover_entries t next (e :: es) =
    if rc_fail_closed (ClassifyLocalTransactionForRecovery e) then
      let p := recover_entries t next es in
      mkPass (e :: rp_entries p) (rp_next_commit_sequence p) true (rp_changed p) (rp_failure p)
    else if decide (recovery_blocked e) then
      mkPass (e :: es) next true false
        (snd (ApplyRecoveryAction e (rc_action (ClassifyLocalTransactionForRecovery e)) t))
    else
      let '(e', next') := recover_entry t next e in
      let p := recover_entries t next' es in
      mkPass (e' :: rp_entries p) (rp_next_commit_sequence p) (rp_fenced p)
        (negb (IsTerminalTransactionState (e_state e)) || rp_changed p) (rp_failure p).
Proof.
  intros Hok. cbn [recover_entries]. unfold recover_entry.
  destruct (rc_fail_closed _) eqn:Hc; [done|].
  destruct (entry_recovery_exact _ _ t Hok Hc) as [d Hb Ha|Ht Ha Hb|s Ht Hs _ Hb].
  - by rewrite decide_True.
  - rewrite decide_False by done. rewrite (terminal_of_outcome _ _ Hok Ht).
    by rewrite bool_decide_eq_false_2 by tauto.
  - rewrite decide_False by done. rewrite Ht. unfold recovers_commit, completes_commit. rewrite Hc.
    rewrite bool_decide_eq_true_2.
    2:{ simpl. intros E. rewrite <- E in Ht. by destruct Hs as [[-> _]|[-> _]]. }
    unfold publish_recovered. simpl. destruct Hs as [[-> ->]|[-> ->]]; simpl; done.
Qed.

Lemma recover_entry_identity t next e : e_identity (fst (recover_entry t next e)) = e_identity e.
Proof. unfold recover_entry. by repeat case_match. Qed.

Lemma recovers_commit_live inv e :
  entry_ok inv e -> recovers_commit e = true ->
  rc_fail_closed (ClassifyLocalTransactionForRecovery e) = false /\
  IsTerminalTransactionState (e_state e) = false.
Proof.
  unfold recovers_commit, completes_commit. intros Hok H. bool_prop. split; [done|].
  destruct (entry_recovery_exact _ _ 0 Hok H) as [d Hb Ha|Ht Ha Hb|s Ht Hs _ Hb]; first [done|congruence].
Qed.

(** Going over one entry is a legal successor on its own. *)
Lemma recover_entry_evolves inv t next pre e es :
  structure_ok (with_entries inv next (pre ++ e :: es)) ->
  next + (if recovers_commit e then 1 else 0) <= u64_max ->
  ~ recovery_blocked e ->
  evolves (with_entries inv next (pre ++ e :: es))
    (with_entries inv (snd (recover_entry t next e)) (pre ++ fst (recover_entry t next e) :: es)) /\
  snd (recover_entry t next e) = next + (if recovers_commit e then 1 else 0).
Proof.
  intros Hs Hmax Hb. set (a := with_entries inv next (pre ++ e :: es)) in *.
  assert (Hi : inv_entries a !! length pre = Some e) by (by apply list_lookup_middle).
  assert (Hok : entry_ok a e).
  { pose proof (so_entries _ Hs) as F. rewrite Forall_forall in F. apply F. by eapply list_elem_of_lookup_2. }
  assert (Hins : forall e', pre ++ e' :: es = <[length pre := e']> (inv_entries a)).
  { intros e'. unfold a. simpl. by rewrite insert_app_r_alt, Nat.sub_diag. }
  assert (Hadd : recovers_commit e = true -> u64_add next 1 = next + 1).
  { intros E. rewrite E in Hmax. apply u64_add_small. u64_unfold; lia. }
  pose proof (recovers_commit_live _ _ Hok) as Hlive.
  pose proof (entry_recovery_exact a e t Hok) as Hex.
  unfold recover_entry.
  destruct (rc_fail_closed _) eqn:Hc; [|destruct (IsTerminalTransactionState (e_state e)) eqn:Ht].
  1,2: destruct (recovers_commit e); [by destruct Hlive|]; split; [by apply evolves_refl|simpl; lia].
  destruct (Hex eq_refl) as [d Hbl _|Hter _ _|s _ Hsd Hr _]; [done| |].
  { by rewrite (terminal_of_outcome _ _ Hok Hter) in Ht. }
  assert (Hrc : recovers_commit e = bool_decide (s = ts_committed)).
  { unfold recovers_commit, completes_commit. rewrite Hc. by destruct Hsd as [[-> ->]|[-> ->]]. }
  destruct (recovers_commit e); simpl; symmetry in Hrc; bool_prop.
  - rewrite Hadd by done. split; [|done]. subst s.
    pose proof (nonterminal_evolves a e ts_committed t next true Hok Ht Hr ltac:(done)) as Hev.
    rewrite orb_true_r in Hev.
    eapply (replace_entry_evolves a _ (length pre) e); [done|done|apply Hins|done|simpl; lia|done| |apply Hev; simpl; lia].
    apply (nonterminal_entry_ok a _ e ts_committed); try done; unfold a; simpl; lia.
  - assert (s = ts_rolled_back) as -> by (by destruct Hsd as [[-> _]|[-> _]]).
    split; [|lia].
    pose proof (nonterminal_evolves a e ts_rolled_back t (e_commit_sequence e) true Hok Ht Hr
      ltac:(done)) as Hev. rewrite orb_true_r in Hev.
    eapply (replace_entry_evolves a _ (length pre) e); [done|done|apply Hins|done|simpl; lia|done| |by apply Hev].
    by apply (nonterminal_entry_ok a _ e ts_rolled_back).
Qed.

(** ** The whole pass *)

Lemma blocked_not_fenced inv e :
  entry_ok inv e -> recovery_blocked e ->
  rc_fail_closed (ClassifyLocalTransactionForRecovery e) = false.
Proof.
  intros Hok (Hsc & Hro & Hst).
  assert (Hna : e_state e <> ts_archived) by (by destruct Hst as [-> | ->]).
  pose proof (eo_not_archived _ _ Hok Hna) as Hfrom.
  destruct e as [[l u sc] s a b f v c q r w k st]. simpl in *. subst.
  by destruct Hst as [-> | ->].
Qed.

Lemma recover_entries_complete t es : forall inv pre next,
  structure_ok (with_entries inv next (pre ++ es)) ->
  next + commit_total es <= u64_max ->
  Forall (fun e => ~ recovery_blocked e) es ->
  rp_failure (recover_entries t next es) = None /\
  rp_next_commit_sequence (recover_entries t next es) = next + commit_total es /\
  e_identity <$> rp_entries (recover_entries t next es) = e_identity <$> es /\
  (forall i e, es !! i = Some e ->
     rp_entries (recover_entries t next es) !! i =
       Some (fst (recover_entry t (next + commit_total (take i es)) e))) /\
  evolves (with_entries inv next (pre ++ es))
    (with_entries inv (next + commit_total es) (pre ++ rp_entries (recover_entries t next es))).
Proof.
  induction es as [|e es IH]; intros inv pre next Hs Hmax Hnb.
  { split_and!; try done; rewrite ?N.add_0_r; try done. by apply evolves_refl. }
  apply Forall_cons in Hnb as [Hb Hnb]. rewrite commit_total_cons in Hmax.
  destruct (recover_entry_evolves inv t next pre e es Hs ltac:(lia) Hb) as [Hev Hnext].
  assert (Hok : entry_ok (with_entries inv next (pre ++ e :: es)) e).
  { pose proof (so_entries _ Hs) as F. rewrite Forall_forall in F. apply F. simpl. set_solver. }
  set (e' := fst (recover_entry t next e)) in *.
  set (next' := snd (recover_entry t next e)) in *.
  pose proof (evo_after _ _ Hev) as Hs'. rewrite cons_middle, app_assoc in Hs'.
  destruct (IH inv (pre ++ [e']) next' Hs' ltac:(lia) Hnb) as (Hf & Hn & Hid & Hl & Hev').
  assert (Heq : rp_failure (recover_entries t next (e :: es)) = rp_failure (recover_entries t next' es) /\
    rp_next_commit_sequence (recover_entries t next (e :: es)) = rp_next_commit_sequence (recover_entries t next' es) /\
    rp_entries (recover_entries t next (e :: es)) = e' :: rp_entries (recover_entries t next' es)).
  { rewrite (recover_entries_cons _ _ _ _ _ Hok). unfold e', next', recover_entry in *.
    destruct (rc_fail_closed _); [done|]. rewrite decide_False by done.
    by repeat case_match. }
  destruct Heq as (-> & -> & ->). rewrite commit_total_cons.
  replace (next + ((if recovers_commit e then 1 else 0) + commit_total es))
    with (next' + commit_total es) by lia.
  split_and!; try done.
  - rewrite !fmap_cons, Hid. f_equal. apply recover_entry_identity.
  - intros [|i] x Hx; simpl in *.
    + simplify_eq. by rewrite N.add_0_r.
    + rewrite (Hl _ _ Hx), commit_total_cons. do 3 f_equal. lia.
  - rewrite <- !app_assoc in Hev'. simpl in Hev'.
    assert (Hids : forall l l' : list TransactionInventoryEntry,
      e_identity <$> l = e_identity <$> l' -> e_local_id <$> l = e_local_id <$> l').
    { intros l l' H. unfold e_local_id. change (fun e => ti_local_id (e_identity e)) with (ti_local_id ∘ e_identity).
      by rewrite !list_fmap_compose, H. }
    eapply evolves_trans; [| |exact Hev|exact Hev']; apply Hids; simpl; rewrite !fmap_app, !fmap_cons.
    + do 2 f_equal. apply recover_entry_identity.
    + by rewrite Hid.
Qed.

Lemma recover_entries_blocked t es : forall inv next,
  Forall (entry_ok inv) es -> Exists recovery_blocked es ->
  rp_failure (recover_entries t next es) <> None.
Proof.
  induction es as [|e es IH]; intros inv next Hall Hex; [by inversion Hex|].
  apply Forall_cons in Hall as [Hok Hall]. rewrite (recover_entries_cons _ _ _ _ _ Hok).
  destruct (rc_fail_closed _) eqn:Hc.
  - simpl. apply (IH inv); [done|]. apply Exists_cons in Hex as [Hb|?]; [|done].
    by rewrite (blocked_not_fenced _ _ Hok Hb) in Hc.
  - destruct (decide (recovery_blocked e)) as [Hb|Hb].
    + simpl. by destruct (entry_recovery_exact _ _ t Hok Hc).
    + apply Exists_cons in Hex as [?|Hex]; [done|].
      destruct (recover_entry t next e) as [e' next']. simpl. by apply (IH inv).
Qed.

Definition fenced_entry (e : TransactionInventoryEntry) : bool :=
  rc_fail_closed (ClassifyLocalTransactionForRecovery e).

(** The pass changes exactly the admitted entries without an outcome. *)
Definition pending_entry (e : TransactionInventoryEntry) : bool :=
  negb (fenced_entry e) && negb (IsTerminalTransactionState (e_state e)).

Lemma classify_entries_valid es :
  Forall (fun e => transaction_identity_valid (e_identity e) = true) es ->
  classify_entries es = (ClassifyLocalTransactionForRecovery <$> es, existsb fenced_entry es, false).
Proof. induction 1 as [|e es Hv _ IH]; [done|]. simpl. by rewrite Hv, IH. Qed.

Lemma recover_entries_flags inv t es : forall next,
  Forall (entry_ok inv) es -> Forall (fun e => ~ recovery_blocked e) es ->
  rp_fenced (recover_entries t next es) = existsb fenced_entry es /\
  rp_changed (recover_entries t next es) = existsb pending_entry es.
Proof.
  induction es as [|e es IH]; intros next Hall Hnb; [done|].
  apply Forall_cons in Hall as [Hok Hall]. apply Forall_cons in Hnb as [Hb Hnb].
  rewrite (recover_entries_cons _ _ _ _ _ Hok). simpl. unfold pending_entry at 1, fenced_entry at 1 3.
  destruct (rc_fail_closed _) eqn:Hc; simpl; [by destruct (IH next Hall Hnb)|].
  rewrite decide_False by done. destruct (recover_entry t next e) as [e' next']. simpl.
  destruct (IH next' Hall Hnb) as [-> ->]. done.
Qed.

Lemma structure_identities inv :
  structure_ok inv -> Forall (fun e => transaction_identity_valid (e_identity e) = true) (inv_entries inv).
Proof. intros Hs. eapply Forall_impl; [apply Hs|]. intros e He. apply He. Qed.

(** [ApplyLocalTransactionInventoryRecovery] on a valid inventory, its branches
    spelled out. *)
Lemma apply_recovery_valid inv t :
  structure_ok inv -> is_u64 (inv_next_commit_sequence inv) ->
  rr_ok (ApplyLocalTransactionInventoryRecovery inv t) =
    bool_decide (inv_next_commit_sequence inv + commit_total (inv_entries inv) <= u64_max) &&
    bool_decide (Forall (fun e => ~ recovery_blocked e) (inv_entries inv)) /\
  (rr_ok (ApplyLocalTransactionInventoryRecovery inv t) = true ->
   rr_recovered_inventory (ApplyLocalTransactionInventoryRecovery inv t) =
     with_entries inv (inv_next_commit_sequence inv + commit_total (inv_entries inv))
       (rp_entries (recover_entries t (inv_next_commit_sequence inv) (inv_entries inv))) /\
   rr_inventory_changed (ApplyLocalTransactionInventoryRecovery inv t) =
     existsb pending_entry (inv_entries inv)) /\
  (rr_write_admission_must_remain_fenced (ApplyLocalTransactionInventoryRecovery inv t) =
     existsb fenced_entry (inv_entries inv) ||
     negb (rr_ok (ApplyLocalTransactionInventoryRecovery inv t))).
Proof.
  intros Hs Hu. unfold ApplyLocalTransactionInventoryRecovery, ClassifyLocalTransactionInventoryForRecovery.
  rewrite (decide_False (P := _ <> _)) by (rewrite (proj2 (validate_structure_iff inv) Hs); tauto).
  rewrite (classify_entries_valid _ (structure_identities _ Hs)). simpl.
  fold (commit_total (inv_entries inv)).
  rewrite u64_sub_small by (u64_unfold; lia).
  destruct (decide (u64_max - inv_next_commit_sequence inv < commit_total (inv_entries inv))) as [Hx|Hx].
  { rewrite bool_decide_eq_false_2 by (u64_unfold; lia). simpl. by rewrite orb_true_r. }
  rewrite bool_decide_eq_true_2 by (u64_unfold; lia). simpl.
  destruct (decide (Forall (fun e => ~ recovery_blocked e) (inv_entries inv))) as [Hb|Hb].
  - rewrite bool_decide_eq_true_2 by done.
    destruct (recover_entries_complete t (inv_entries inv) inv [] (inv_next_commit_sequence inv))
      as (-> & -> & _); [by destruct inv|u64_unfold; lia|done|].
    destruct (recover_entries_flags inv t _ (inv_next_commit_sequence inv) (so_entries _ Hs) Hb) as [-> ->].
    simpl. by rewrite orb_diag, orb_false_r.
  - rewrite bool_decide_eq_false_2 by done.
    destruct (rp_failure _) eqn:Hf; [by rewrite orb_true_r|].
    destruct (recover_entries_blocked t _ inv (inv_next_commit_sequence inv) (so_entries _ Hs)) as []; [|done].
    apply not_Forall_Exists in Hb; [|apply _]. eapply Exists_impl; [exact Hb|]. simpl.
    intros e He. by apply dec_stable.
Qed.

Lemma apply_recovery_invalid inv t :
  ~ structure_ok inv -> rr_ok (ApplyLocalTransactionInventoryRecovery inv t) = false.
Proof.
  intros Hs. unfold ApplyLocalTransactionInventoryRecovery, ClassifyLocalTransactionInventoryForRecovery.
  by rewrite (decide_True (P := _ <> _)) by (intros H; apply Hs; by apply validate_structure_iff).
Qed.

Lemma with_entries_self inv : with_entries inv (inv_next_commit_sequence inv) (inv_entries inv) = inv.
Proof. by destruct inv. Qed.

(** Everything an accepted pass guarantees, from which the claims follow. *)
Lemma recovery_accepted inv t :
  counters_u64 inv -> rr_ok (ApplyLocalTransactionInventoryRecovery inv t) = true ->
  structure_ok inv /\
  inv_next_commit_sequence inv + commit_total (inv_entries inv) <= u64_max /\
  Forall (fun e => ~ recovery_blocked e) (inv_entries inv) /\
  evolves inv (rr_recovered_inventory (ApplyLocalTransactionInventoryRecovery inv t)) /\
  counters_u64 (rr_recovered_inventory (ApplyLocalTransactionInventoryRecovery inv t)).
Proof.
  intros [Hul Hu] Hok. destruct (decide (ValidateLocalTransactionInventoryStructure inv = ""%string)) as [Hs|Hs].
  2:{ rewrite apply_recovery_invalid in Hok; [done|]. by rewrite <- validate_structure_iff. }
  apply validate_structure_iff in Hs.
  destruct (apply_recovery_valid inv t Hs Hu) as (Heq & Hres & _).
  destruct (Hres Hok) as [Hinv _]. rewrite Hok in Heq. symmetry in Heq. bool_prop.
  split_and!; try done.
  - destruct (recover_entries_complete t (inv_entries inv) inv [] (inv_next_commit_sequence inv))
      as (_ & _ & _ & _ & Hev); [by destruct inv|done..|].
    rewrite Hinv. simpl in Hev. by rewrite with_entries_self in Hev.
  - rewrite Hinv. split; [done|]. u64_unfold; simpl in *; lia.
Qed.

(** ** A second pass finds nothing to do *)

Lemma decided_not_fenced e :
  ti_scope (e_identity e) <> scope_unknown ->
  e_state e ∈ [ts_committed; ts_rolled_back] -> e_archived_from_state e = ts_none ->
  fenced_entry e = false.
Proof.
  destruct e as [[l u sc] s a b f v c q r w k st]. simpl. intros Hsc Hst ->.
  decompose_list_elem_of; subst s; by destruct sc, k.
Qed.

Lemma recovered_entry_settled inv t next e :
  entry_ok inv e ->
  fenced_entry (fst (recover_entry t next e)) = fenced_entry e /\
  pending_entry (fst (recover_entry t next e)) = false.
Proof.
  intros Hok. unfold pending_entry, recover_entry. fold (fenced_entry e).
  destruct (fenced_entry e) eqn:Hf; [simpl; by rewrite Hf|].
  destruct (IsTerminalTransactionState (e_state e)) eqn:Ht; [simpl; by rewrite Hf, Ht|].
  assert (Hfrom : e_archived_from_state e = ts_none).
  { apply (eo_not_archived _ _ Hok). intros E. by rewrite E in Ht. }
  pose proof (identity_valid_scope _ (eo_identity _ _ Hok)) as Hsc.
  destruct (recovers_commit e); simpl.
  all: split; [by apply decided_not_fenced; [done|set_solver|done]|by rewrite andb_false_r].
Qed.

Lemma settled_not_blocked inv e : entry_ok inv e -> pending_entry e = false -> ~ recovery_blocked e.
Proof.
  unfold pending_entry. intros Hok Hp Hb. unfold fenced_entry in Hp. rewrite (blocked_not_fenced _ _ Hok Hb) in Hp.
  by destruct Hb as (_ & _ & [Hst|Hst]); rewrite Hst in Hp.
Qed.

Lemma settled_no_commits inv es :
  Forall (entry_ok inv) es -> Forall (fun e => pending_entry e = false) es -> commit_total es = 0.
Proof.
  induction 1 as [|e es Hok _ IH]; intros Hp; [done|]. apply Forall_cons in Hp as [Hp Hps].
  rewrite commit_total_cons, (IH Hps). destruct (recovers_commit e) eqn:Hc; [|done].
  destruct (recovers_commit_live _ _ Hok Hc) as [Hf Ht]. unfold pending_entry, fenced_entry in Hp.
  by rewrite Hf, Ht in Hp.
Qed.

Lemma settled_pass inv t next es :
  Forall (entry_ok inv) es -> Forall (fun e => pending_entry e = false) es ->
  rp_entries (recover_entries t next es) = es.
Proof.
  induction 1 as [|e es Hok _ IH]; intros Hp; [done|]. apply Forall_cons in Hp as [Hp Hps].
  rewrite (recover_entries_cons _ _ _ _ _ Hok).
  destruct (rc_fail_closed _) eqn:Hc; [simpl; by rewrite IH|].
  rewrite decide_False by by eapply settled_not_blocked. unfold recover_entry. rewrite Hc.
  unfold pending_entry, fenced_entry in Hp. rewrite Hc in Hp. apply negb_false_iff in Hp.
  rewrite Hp. simpl. by rewrite IH.
Qed.

Lemma existsb_pointwise {A} (f : A -> bool) (l l' : list A) :
  length l = length l' -> (forall i x, l !! i = Some x -> exists y, l' !! i = Some y /\ f y = f x) ->
  existsb f l' = existsb f l.
Proof.
  revert l'. induction l as [|x l IH]; intros [|y l'] Hlen H; try done. simpl.
  destruct (H 0%nat x eq_refl) as (y' & [= <-] & ->). f_equal. apply IH; [simpl in Hlen; lia|].
  intros i z Hz. apply (H (S i) z Hz).
Qed.

Lemma recovered_settled inv t :
  counters_u64 inv -> rr_ok (ApplyLocalTransactionInventoryRecovery inv t) = true ->
  let inv' := rr_recovered_inventory (ApplyLocalTransactionInventoryRecovery inv t) in
  Forall (fun e => pending_entry e = false) (inv_entries inv') /\
  existsb fenced_entry (inv_entries inv') = existsb fenced_entry (inv_entries inv).
Proof.
  intros Hu Hok inv'. destruct (recovery_accepted inv t Hu Hok) as (Hs & Hmax & Hb & _ & _).
  destruct (apply_recovery_valid inv t Hs (proj2 Hu)) as (_ & Hres & _). destruct (Hres Hok) as [Hinv _].
  subst inv'. rewrite Hinv. simpl.
  destruct (recover_entries_complete t (inv_entries inv) inv [] (inv_next_commit_sequence inv))
    as (_ & _ & Hid & Hl & _); [by destruct inv|done..|].
  apply (f_equal length) in Hid. rewrite !length_fmap in Hid.
  pose proof (so_entries _ Hs) as Hall. rewrite Forall_lookup in Hall. split.
  - apply Forall_lookup. intros i e' He'.
    destruct (lookup_lt_is_Some_2 (inv_entries inv) i) as [e He]; [rewrite <- Hid; by eapply lookup_lt_Some|].
    rewrite (Hl _ _ He) in He'. simplify_eq. by apply (recovered_entry_settled inv), (Hall i).
  - apply existsb_pointwise; [done|]. intros i e He. eexists. split; [by apply Hl|].
    by apply (recovered_entry_settled inv), (Hall i).
Qed.

(** ** Operator resolution *)

Lemma entry_evolves_require inv old new :
  entry_evolves inv old new -> entry_evolves inv old (set_evidence_required new).
Proof. intros []. by split. Qed.

Lemma entry_ok_require inv e : entry_ok inv e -> entry_ok inv (set_evidence_required e).
Proof. intros []. by split. Qed.

Definition limbo_resolved (inv : LocalTransactionInventory) (d : LimboOperatorDecision) (t : N)
    (e : TransactionInventoryEntry) : TransactionInventoryEntry :=
  set_finality t (if decide (d = lod_commit) then inv_next_commit_sequence inv else e_commit_sequence e)
    (set_evidence_required (set_state (TerminalStateForLimboDecision d) e)).

Lemma resolve_limbo_ok inv id d t p r :
  r = ResolveLimboLocalTransactionWithOperatorDecision inv id d t p -> ir_ok r = true ->
  structure_ok inv /\ (d = lod_commit -> inv_next_commit_sequence inv <> u64_max) /\ d <> lod_unknown /\
  lp_operator_decision_authoritative p = true /\ lp_operator_evidence_reference p <> ""%string /\
  exists i e, FindRecoveryEntry inv id = Some (i, e) /\ e_state e = ts_limbo /\
    ti_scope (e_identity e) <> scope_cluster_global /\ local_id_valid id = true /\
    ir_entry r = limbo_resolved inv d t e /\
    ir_inventory r = with_entries inv
      (if decide (d = lod_commit) then u64_add (inv_next_commit_sequence inv) 1
       else inv_next_commit_sequence inv)
      (<[i := limbo_resolved inv d t e]> (inv_entries inv)).
Proof.
  intros -> Hr. unfold ResolveLimboLocalTransactionWithOperatorDecision in *.
  destruct (decide (ValidateLocalTransactionInventoryStructure inv <> _)) as [|Hv]; [discriminate Hr|].
  destruct (decide (d = lod_commit /\ _)) as [|Hm]; [discriminate Hr|].
  destruct (local_id_valid id) eqn:Hid; [|discriminate Hr]. simpl in *.
  destruct (decide (d = lod_unknown \/ _)) as [|Hd]; [discriminate Hr|].
  destruct (_ || _) eqn:Hp; [discriminate Hr|].
  destruct (FindRecoveryEntry inv id) as [[i e]|]; [|discriminate Hr].
  destruct (decide (e_state e <> ts_limbo)) as [|Hst]; [discriminate Hr|]. apply dec_stable in Hst.
  destruct (decide (ti_scope (e_identity e) = _)) as [|Hsc]; [discriminate Hr|].
  bool_prop. apply dec_stable, validate_structure_iff in Hv.
  split_and!; try tauto. exists i, e.
  destruct e as [i0 s a b f v c q r w k st]. simpl in Hst. subst s.
  by destruct d; [..|tauto].
Qed.

Lemma resolve_limbo_evolves inv id d t p :
  counters_u64 inv ->
  ir_ok (ResolveLimboLocalTransactionWithOperatorDecision inv id d t p) = true ->
  evolves inv (ir_inventory (ResolveLimboLocalTransactionWithOperatorDecision inv id d t p)) /\
  counters_u64 (ir_inventory (ResolveLimboLocalTransactionWithOperatorDecision inv id d t p)).
Proof.
  intros [Hul Hu] Hr.
  destruct (resolve_limbo_ok _ _ _ _ _ _ eq_refl Hr)
    as (Hs & Hmax & Hd & _ & _ & i & e & Hf & Hst & Hsc & _ & _ & ->).
  pose proof (find_entry_ok _ _ _ _ Hs Hf) as Hok. apply find_entry_lookup in Hf as [Hi _].
  assert (Ht : IsTerminalTransactionState (e_state e) = false) by by rewrite Hst.
  assert (Hrtc : rtc edge (e_state e) (TerminalStateForLimboDecision d)).
  { rewrite Hst. apply reachable_iff_rtc. destruct d; [vm_compute; reflexivity..|done]. }
  assert (Hna : TerminalStateForLimboDecision d <> ts_archived) by by destruct d.
  assert (Hadd : d = lod_commit -> u64_add (inv_next_commit_sequence inv) 1 = inv_next_commit_sequence inv + 1).
  { intros E. specialize (Hmax E). apply u64_add_small. u64_unfold; lia. }
  assert (Hcommit : TerminalStateForLimboDecision d = ts_committed <-> d = lod_commit) by by destruct d.
  split.
  - eapply (replace_entry_evolves inv _ i e); [done|done|reflexivity|done| |done| |].
    + simpl. case_decide as E; [rewrite (Hadd E)|]; lia.
    + refine (entry_ok_require _ (set_finality t _ (set_state _ e)) _).
      apply (nonterminal_entry_ok inv _ e (TerminalStateForLimboDecision d)); try done; simpl.
      * intros E. apply Hd. by destruct d.
      * case_decide as E; [rewrite (Hadd E)|]; lia.
      * rewrite Hcommit. intros E. specialize (Hadd E). subst d. simpl. lia.
      * intros E. destruct d; [by destruct E|done..].
    + pose proof (nonterminal_evolves inv e (TerminalStateForLimboDecision d) t
        (if decide (d = lod_commit) then inv_next_commit_sequence inv else e_commit_sequence e) true Hok Ht Hrtc Hna) as H.
      rewrite orb_true_r in H. refine (entry_evolves_require inv e _ (H _)).
      rewrite Hcommit. intros E. rewrite decide_True by done. lia.
  - split; [done|]. simpl. case_decide; [apply u64_add_lt|done].
Qed.
