(* ===== verification/InventorySteps.v ===== *)
(** * Executions of the inventory

    The transforms of [transaction_inventory.cpp] and the two recovery entry
    points of [transaction_recovery.cpp] as one labelled step; reachable
    inventories are valid, and an outcome once recorded never changes. *)

From S2P Require Import Prelude Platform TransactionState Inventory InventoryEvolution InventoryTheorems.
From S2P Require Import Recovery.

(** ** The operations as one labelled step *)

Inductive inventory_op :=
| op_begin (uuid : TypedUuid) (millis : N)
| op_begin_read_only (uuid : TypedUuid) (millis : N)
| op_prepare (id : LocalTransactionId)
| op_commit (id : LocalTransactionId) (millis : N)
| op_archive (id : LocalTransactionId)
| op_rollback (id : LocalTransactionId) (millis : N)
| op_abort (id : LocalTransactionId) (millis : N)
| op_mark_rollback_only (id : LocalTransactionId)
| op_compact (authoritative : bool) (oldest_required : LocalTransactionId) (drop : bool)
| op_recover (millis : N)
| op_resolve_limbo (id : LocalTransactionId) (decision : LimboOperatorDecision) (millis : N)
    (policy : LimboOperatorResolutionPolicy).

Definition accepted (r : TransactionInventoryResult) : option LocalTransactionInventory :=
  if ir_ok r then Some (ir_inventory r) else None.

Definition run_op (inv : LocalTransactionInventory) (op : inventory_op)
    : option LocalTransactionInventory :=
  match op with
  | op_begin u t => accepted (BeginLocalTransaction inv u t)
  | op_begin_read_only u t => accepted (BeginLocalReadOnlyTransaction inv u t)
  | op_prepare id => accepted (PrepareLocalTransaction inv id)
  | op_commit id t => accepted (CommitLocalTransaction inv id t)
  | op_archive id => accepted (ArchiveLocalTransaction inv id)
  | op_rollback id t => accepted (RollbackLocalTransaction inv id t)
  | op_abort id t => accepted (AbortLocalTransaction inv id t)
  | op_mark_rollback_only id => accepted (MarkLocalTransactionRollbackOnly inv id)
  | op_compact a h d =>
    let r := CompactLocalTransactionInventory (mkCompactionRequest inv a h d) in
    if cres_ok r then Some (cres_inventory r) else None
  | op_recover t =>
    let r := ApplyLocalTransactionInventoryRecovery inv t in
    if rr_ok r then Some (rr_recovered_inventory r) else None
  | op_resolve_limbo id d t p =>
    accepted (ResolveLimboLocalTransactionWithOperatorDecision inv id d t p)
  end.

Definition inventory_step (inv inv' : LocalTransactionInventory) : Prop :=
  exists op, run_op inv op = Some inv'.

(** ** Executions *)

Lemma run_op_evolves inv op inv' :
  structure_ok inv -> counters_u64 inv -> run_op inv op = Some inv' ->
  evolves inv inv' /\ counters_u64 inv'.
Proof.
  intros Hs Hu. unfold run_op, accepted. destruct op; intros H; case_match eqn:Hr; simplify_eq.
  - by apply begin_evolves.
  - by apply begin_evolves.
  - split; [by apply prepare_evolves|].
    by destruct (prepare_ok _ _ _ eq_refl Hr) as (? & ? & _ & _ & ->).
  - by apply commit_evolves.
  - split; [by apply archive_evolves|].
    by destruct (archive_ok _ _ _ eq_refl Hr) as (_ & ? & ? & _ & _ & _ & ->).
  - split; [by apply rollback_evolves|].
    by destruct (rollback_ok _ _ _ _ eq_refl Hr) as (? & ? & _ & _ & ->).
  - unfold AbortLocalTransaction in *. split; [by apply rollback_evolves|].
    by destruct (rollback_ok _ _ _ _ eq_refl Hr) as (? & ? & _ & _ & ->).
  - split; [by apply mark_evolves|].
    by destruct (mark_ok _ _ _ eq_refl Hr) as (? & ? & _ & _ & _ & ->).
  - split; [by apply (compact_evolves (mkCompactionRequest inv authoritative oldest_required drop))|].
    unfold CompactLocalTransactionInventory in *. simpl in *. split_guards; done.
  - apply (recovery_accepted inv millis Hu Hr).
  - by apply resolve_limbo_evolves.
Qed.

Lemma steps_evolve inv inv' :
  structure_ok inv -> counters_u64 inv -> rtc inventory_step inv inv' ->
  structure_ok inv' /\ counters_u64 inv' /\
  inv_next_local_transaction_id inv <= inv_next_local_transaction_id inv' /\
  inv_next_commit_sequence inv <= inv_next_commit_sequence inv'.
Proof.
  intros Hs Hu. induction 1 as [inv|inv mid inv' (op & Hop) _ IH]; [done|].
  destruct (run_op_evolves _ _ _ Hs Hu Hop) as [[_ Hs' ? ? _ _ _] Hu'].
  destruct (IH Hs' Hu') as (? & ? & ? & ?). split_and!; try done; lia.
Qed.

Lemma empty_structure_ok : structure_ok MakeEmptyLocalTransactionInventory.
Proof. split; simpl; try done; constructor. Qed.

Lemma empty_counters : counters_u64 MakeEmptyLocalTransactionInventory.
Proof. split; u64_unfold; simpl; lia. Qed.

(** An entry of a later inventory whose number was already allocated comes from
    the entry that held the number before. *)
Lemma steps_entry_origin inv inv' :
  structure_ok inv -> counters_u64 inv -> rtc inventory_step inv inv' ->
  forall e', e' ∈ inv_entries inv' -> e_local_id e' < inv_next_local_transaction_id inv ->
  exists e, e ∈ inv_entries inv /\ e_local_id e = e_local_id e' /\
    e_identity e = e_identity e' /\
    e_begin_visible_through_commit_sequence e = e_begin_visible_through_commit_sequence e' /\
    e_stable_snapshot e = e_stable_snapshot e' /\
    (IsTerminalTransactionState (InventoryVisibilityState e) = true ->
     InventoryVisibilityState e = InventoryVisibilityState e' /\
     e_final_unix_epoch_millis e = e_final_unix_epoch_millis e' /\
     e_commit_sequence e = e_commit_sequence e') /\
    (HasCommittedInventoryOutcome e = false -> HasCommittedInventoryOutcome e' = true ->
     inv_next_commit_sequence inv <= e_commit_sequence e').
Proof.
  intros Hs Hu. revert inv'. refine (rtc_ind_r _ _ _ _); [|intros mid inv' Hmid (op & Hop) IH].
  { intros e' He' Hlt. exists e'. repeat split; try done. congruence. }
  intros e' He' Hlt. destruct (steps_evolve _ _ Hs Hu Hmid) as (Hsm & Hum & Hml & Hmc).
  destruct (run_op_evolves _ _ _ Hsm Hum Hop) as [Hev _].
  destruct (decide (e_local_id e' ∈ e_local_id <$> inv_entries mid)) as [Hin|Hnin].
  2:{ destruct (evo_fresh _ _ Hev e' He' Hnin). lia. }
  apply list_elem_of_fmap in Hin as (m & Hm & Hmin).
  pose proof (evo_retained _ _ Hev m e' Hmin He' (eq_sym Hm)) as He.
  destruct (IH m Hmin) as (e & Hein & Hel & Hid & Hb & Hst & Hfin & Hcom); [by rewrite <- Hm|].
  exists e. split_and!; try done; try congruence.
  - rewrite Hid. destruct (e_identity m) as [ml mu ms] eqn:Em, (e_identity e') as [el eu es] eqn:Ee.
    unfold e_local_id in Hm. rewrite Em, Ee in Hm. simpl in Hm. subst ml.
    pose proof (ev_uuid _ _ _ He) as Hu1. pose proof (ev_scope _ _ _ He) as Hs1.
    unfold e_uuid in Hu1. rewrite Em, Ee in *. simpl in *. subst es. f_equal.
    assert (tu_kind mu = uk_transaction /\ tu_kind eu = uk_transaction) as [Hk1 Hk2].
    { pose proof (so_entries _ Hsm) as F1. pose proof (so_entries _ (evo_after _ _ Hev)) as F2.
      rewrite Forall_forall in F1, F2.
      pose proof (eo_identity _ _ (F1 m Hmin)) as I1. pose proof (eo_identity _ _ (F2 e' He')) as I2.
      unfold transaction_identity_valid in I1, I2. rewrite Em in I1. rewrite Ee in I2.
      bool_prop. done. }
    destruct mu, eu. simpl in *. congruence.
  - rewrite Hb. apply (ev_begin_commit _ _ _ He).
  - rewrite Hst. apply (ev_stable _ _ _ He).
  - intros Ht. destruct (Hfin Ht) as (H1 & H2 & H3). rewrite H1, H2, H3.
    apply (ev_final _ _ _ He). by rewrite <- H1.
  - intros H1 H2. destruct (HasCommittedInventoryOutcome m) eqn:Hcm.
    + specialize (Hcom H1 eq_refl). destruct (ev_final _ _ _ He) as (_ & _ & <-); [|done].
      unfold HasCommittedInventoryOutcome in Hcm. apply bool_decide_eq_true_1 in Hcm. by rewrite Hcm.
    + pose proof (ev_commit _ _ _ He Hcm H2). lia.
Qed.
