(* ===== verification/Samples.v ===== *)
(** * Concrete values used by the witnesses *)

From S2P Require Import Prelude Platform TransactionState Inventory InventoryTheorems InventorySteps.

(** A version 7 UUID with the RFC variant, distinguished by [n]. *)
Definition sample_uuid (n : N) : Uuid :=
  mkUuid [1; 2; 3; 4; 5; n; 112; 0; 128; 0; 0; 0; 0; 0; 0; n].
Definition sample_txn_uuid (n : N) : TypedUuid := mkTypedUuid uk_transaction (sample_uuid n).

Definition run_ops (inv : LocalTransactionInventory) (ops : list inventory_op)
    : option LocalTransactionInventory :=
  foldl (fun r op => match r with Some inv => run_op inv op | None => None end) (Some inv) ops.

Definition sample_run (ops : list inventory_op) : LocalTransactionInventory :=
  default LocalTransactionInventory_default (run_ops MakeEmptyLocalTransactionInventory ops).

(** One: committed.  Two: active.  Three: rolled back and archived.  Four: read only. *)
Definition sample_ops : list inventory_op :=
             [op_begin (sample_txn_uuid 1) 10; op_begin (sample_txn_uuid 2) 11;
              op_commit 1 20; op_begin (sample_txn_uuid 3) 21; op_rollback 3 22; op_archive 3;
              op_begin_read_only (sample_txn_uuid 4) 23].

Definition sample_inventory : LocalTransactionInventory := sample_run sample_ops.

Definition sample_after_commit : LocalTransactionInventory :=
  default LocalTransactionInventory_default (run_op sample_inventory (op_commit 2 30)).

Lemma run_ops_steps inv ops inv' :
  run_ops inv ops = Some inv' -> rtc inventory_step inv inv'.
Proof.
  unfold run_ops. revert inv. induction ops as [|op ops IH]; intros inv; simpl.
  - intros; simplify_eq. constructor.
  - destruct (run_op inv op) as [mid|] eqn:Hop.
    + intros H. eapply rtc_l; [by exists op|]. by apply IH.
    + intros H. exfalso. clear -H. induction ops as [|op' ops IH]; simpl in H; [done|auto].
Qed.
