(* ===== verification/UuidFacts.v ===== *)
(** * Correctness of UUID bytes, text and layouts *)

From Stdlib Require Import Ascii.
From S2P Require Import Prelude Platform Uuid Samples.

#[global] Arguments kHex : simpl never.
#[global] Arguments HexValue : simpl never.

(** ** Case analysis over the values of a byte *)

Definition all_bytes : list N := N.of_nat <$> seq 0 256.

Lemma byte_forall (P : N -> bool) :
  forallb P all_bytes = true -> forall b, b < 256 -> P b = true.
Proof.
  intros H b Hb. rewrite forallb_forall in H. apply H, list_elem_of_In.
  apply list_elem_of_fmap. exists (N.to_nat b). split; [lia|]. apply elem_of_seq. lia.
Qed.

(** Proves a boolean or decidable fact about a byte by trying all of them. *)
Ltac by_bytes b Hb :=
  revert b Hb;
  match goal with |- forall b, _ -> @?P b =>
    let H := fresh in
    intros b Hb; apply (bool_decide_eq_true_1 (P b)); revert b Hb;
    apply (byte_forall (fun b => bool_decide (P b))); vm_compute; reflexivity
  end.

Lemma uuid_wf_bytes u :
  uuid_wf u -> exists b0 b1 b2 b3 b4 b5 b6 b7 b8 b9 b10 b11 b12 b13 b14 b15,
    u = mkUuid [b0; b1; b2; b3; b4; b5; b6; b7; b8; b9; b10; b11; b12; b13; b14; b15] /\
    b0 < 256 /\ b1 < 256 /\ b2 < 256 /\ b3 < 256 /\ b4 < 256 /\ b5 < 256 /\ b6 < 256 /\ b7 < 256 /\
    b8 < 256 /\ b9 < 256 /\ b10 < 256 /\ b11 < 256 /\ b12 < 256 /\ b13 < 256 /\ b14 < 256 /\ b15 < 256.
Proof.
  destruct u as [l]. intros [Hlen Hall]. simpl in *.
  do 16 (destruct l as [|? l]; [done|]). destruct l; [|done].
  rewrite !Forall_cons in Hall. do 16 eexists. split; [reflexivity|]. tauto.
Qed.

(** ** Hexadecimal text *)

Lemma nibble_cases v : v < 16 -> v ∈ N.of_nat <$> seq 0 16.
Proof.
  intros. apply list_elem_of_fmap. exists (N.to_nat v). split; [lia|]. apply elem_of_seq. lia.
Qed.

Lemma kHex_value v : v < 16 -> HexValue (kHex v) = Z.of_N v.
Proof.
  intros Hv%nibble_cases. simpl in Hv. decompose_list_elem_of; subst; reflexivity.
Qed.

Lemma kHex_not_dash v : kHex v <> "-"%char.
Proof.
  destruct (decide (v < 16)) as [Hv%nibble_cases|Hv].
  - simpl in Hv. decompose_list_elem_of; subst; vm_compute; congruence.
  - unfold kHex. destruct (String.get _ _) eqn:E; [|done].
    exfalso. revert E. replace (N.to_nat v) with (16 + (N.to_nat v - 16))%nat by lia. done.
Qed.

Lemma byte_nibbles b :
  b < 256 ->
  Z.to_N (Z.lor (Z.shiftl (Z.of_N (N.land (N.shiftr b 4) 15)) 4) (Z.of_N (N.land b 15))) = b.
Proof. intros Hb. by_bytes b Hb. Qed.

Lemma nibble_lt a : N.land a 15 < 16.
Proof. change 15 with (N.ones 4). rewrite N.land_ones. apply N.mod_lt. done. Qed.

(** Two digits per byte, no dashes. *)
Fixpoint hex_text (bytes : list N) : string :=
  match bytes with
  | [] => EmptyString
  | b :: bytes => (byte_text b +:+ hex_text bytes)%string
  end.

Lemma strip_digit v s : StripUuidDashes (String (kHex v) s) = String (kHex v) (StripUuidDashes s).
Proof. simpl. by rewrite decide_False by apply kHex_not_dash. Qed.

Lemma strip_uuid_text i bytes : StripUuidDashes (uuid_text_from i bytes) = hex_text bytes.
Proof.
  revert i. induction bytes as [|b bytes IH]; intros i; [done|].
  cbn [uuid_text_from hex_text]. rewrite <- (IH (S i)).
  destruct (dash_before i); unfold byte_text.
  - change (StripUuidDashes ("-" +:+ ?s)) with (StripUuidDashes s).
    change (String ?a (String ?b "") +:+ ?s) with (String a (String b s)). by rewrite !strip_digit.
  - change ("" +:+ ?s) with s.
    change (String ?a (String ?b "") +:+ ?s) with (String a (String b s)). by rewrite !strip_digit.
Qed.

Lemma parse_hex_step s n i u b :
  char_at s (i * 2) = kHex (N.land (N.shiftr b 4) 15) ->
  char_at s (i * 2 + 1) = kHex (N.land b 15) -> b < 256 ->
  parse_hex_pairs s (S n) i u = parse_hex_pairs s n (S i) (set_byte i b u).
Proof.
  intros Hh Hl Hb. cbn [parse_hex_pairs]. rewrite Hh, Hl, !kHex_value by apply nibble_lt.
  rewrite !(proj2 (Z.ltb_ge _ _)) by lia. cbn [orb]. by rewrite byte_nibbles.
Qed.

Lemma parse_hex_text u : uuid_wf u -> parse_hex_pairs (hex_text (uuid_bytes u)) 16 0 Uuid_nil = inr u.
Proof.
  intros Hu. destruct (uuid_wf_bytes u Hu) as
    (b0 & b1 & b2 & b3 & b4 & b5 & b6 & b7 & b8 & b9 & b10 & b11 & b12 & b13 & b14 & b15 & -> & Hb).
  destruct Hb as (? & ? & ? & ? & ? & ? & ? & ? & ? & ? & ? & ? & ? & ? & ? & ?).
  do 16 (erewrite parse_hex_step; [|reflexivity|reflexivity|assumption]). reflexivity.
Qed.

Lemma uuid_text_dashes u : uuid_wf u -> HasCanonicalDashPositions (UuidToString u) = true.
Proof.
  intros Hu. destruct (uuid_wf_bytes u Hu) as
    (b0 & b1 & b2 & b3 & b4 & b5 & b6 & b7 & b8 & b9 & b10 & b11 & b12 & b13 & b14 & b15 & -> & _).
  reflexivity.
Qed.

Lemma hex_text_length bytes : String.length (hex_text bytes) = (2 * length bytes)%nat.
Proof.
  induction bytes as [|b bytes IH]; [done|]. cbn [hex_text]. unfold byte_text.
  change (String ?a (String ?b "") +:+ ?s) with (String a (String b s)).
  cbn [String.length length]. lia.
Qed.

Lemma parse_uuid_text u :
  uuid_wf u -> uuid_is_nil u = false -> IsValidUuidVariant u = true ->
  ParseUuid (UuidToString u) = mkUuidParseResult UuidOkStatus u DiagnosticRecord_default.
Proof.
  intros Hu Hnil Hvar. unfold ParseUuid. rewrite uuid_text_dashes by done. cbn [negb].
  unfold UuidToString. rewrite strip_uuid_text, hex_text_length.
  rewrite (proj1 Hu). rewrite decide_False by (intros Hx; by apply Hx).
  by rewrite parse_hex_text, Hnil, Hvar.
Qed.

(** ** Bytes a successful parse can deliver *)

Lemma hex_value_range c : (HexValue c < 0 \/ 0 <= HexValue c < 16)%Z.
Proof. unfold HexValue. repeat case_match; lia. Qed.

Lemma nibbles_byte h l :
  (0 <= h < 16)%Z -> (0 <= l < 16)%Z -> Z.to_N (Z.lor (Z.shiftl h 4) l) < 256.
Proof.
  intros Hh Hl. assert (Hlt : (Z.lor (Z.shiftl h 4) l < 2 ^ 8)%Z).
  { apply Z.log2_lt_cancel. change (Z.log2 (2 ^ 8)) with 8%Z.
    rewrite Z.log2_lor by (try apply Z.shiftl_nonneg; lia).
    apply Z.max_lub_lt.
    - destruct (decide (h = 0%Z)) as [->|]; [done|].
      rewrite Z.log2_shiftl by lia.
      assert (Z.log2 h < 4)%Z by (apply Z.log2_lt_pow2; simpl; lia). lia.
    - destruct (decide (l = 0%Z)) as [->|]; [done|].
      assert (Z.log2 l < 4)%Z by (apply Z.log2_lt_pow2; simpl; lia). lia. }
  assert (0 <= Z.lor (Z.shiftl h 4) l)%Z by (apply Z.lor_nonneg; rewrite Z.shiftl_nonneg; lia).
  change (2 ^ 8)%Z with 256%Z in Hlt. lia.
Qed.

Lemma set_byte_wf i v u : v < 256 -> uuid_wf u -> uuid_wf (set_byte i v u).
Proof.
  intros Hv [Hl Ha]. split; simpl; [by rewrite length_insert|]. by apply Forall_insert.
Qed.

Lemma parse_hex_wf s n i u u' : uuid_wf u -> parse_hex_pairs s n i u = inr u' -> uuid_wf u'.
Proof.
  revert i u. induction n as [|n IH]; intros i u Hu H; simpl in H; [by simplify_eq|].
  destruct (_ || _)%Z eqn:Hneg; [done|]. apply IH in H; [done|].
  apply orb_false_iff in Hneg as [?%Z.ltb_ge ?%Z.ltb_ge].
  apply set_byte_wf; [|done].
  pose proof (hex_value_range (char_at s (i + (i + 0)))).
  pose proof (hex_value_range (char_at s (i * 2))).
  pose proof (hex_value_range (char_at s (i * 2 + 1))). apply nibbles_byte; lia.
Qed.

Lemma nil_wf : uuid_wf Uuid_nil.
Proof. split; [done|]. by apply Forall_replicate. Qed.

Lemma parse_ok text :
  upr_ok (ParseUuid text) = true ->
  uuid_wf (upr_value (ParseUuid text)) /\ uuid_is_nil (upr_value (ParseUuid text)) = false /\
  IsValidUuidVariant (upr_value (ParseUuid text)) = true.
Proof.
  unfold ParseUuid. case_match; [done|]. case_decide; [done|].
  destruct (parse_hex_pairs _ _ _ _) as [|u] eqn:Hp; [done|].
  apply parse_hex_wf in Hp; [|apply nil_wf].
  destruct (uuid_is_nil u) eqn:?; [done|]. destruct (IsValidUuidVariant u) eqn:?; done.
Qed.

(** ** Ordering *)

Lemma memcmp_values l r : memcmp l r = (-1)%Z \/ memcmp l r = 0%Z \/ memcmp l r = 1%Z.
Proof. revert r. induction l as [|x l IH]; intros [|y r]; simpl; auto. repeat case_decide; auto. Qed.

Lemma compare_memcmp u v : CompareUuid128 u v = memcmp (uuid_bytes u) (uuid_bytes v).
Proof. unfold CompareUuid128. by destruct (memcmp_values (uuid_bytes u) (uuid_bytes v)) as [-> | [-> | ->]]. Qed.

Lemma memcmp_eq l r : length l = length r -> memcmp l r = 0%Z <-> l = r.
Proof.
  revert r. induction l as [|x l IH]; intros [|y r] Hlen; simplify_eq/=; [done|].
  repeat case_decide; [split; [done|intros; simplify_eq; lia]..|].
  rewrite IH by done. assert (x = y) as -> by lia. split; congruence.
Qed.

Lemma memcmp_antisym l r : memcmp r l = (- memcmp l r)%Z.
Proof.
  revert r. induction l as [|x l IH]; intros [|y r]; simpl; try done.
  repeat case_decide; try done; lia.
Qed.

Lemma memcmp_trans l m r :
  length l = length m -> length m = length r ->
  memcmp l m = (-1)%Z -> memcmp m r = (-1)%Z -> memcmp l r = (-1)%Z.
Proof.
  revert m r. induction l as [|x l IH]; intros [|y m] [|z r] H1 H2; simplify_eq/=; try done.
  repeat case_decide; try done; try lia. eauto.
Qed.

(** ** Time prefix *)

Lemma land_shifted_byte a b : b < 256 -> N.land (N.shiftl a 8) b = 0.
Proof.
  intros Hb. apply N.bits_inj. intros n. rewrite N.land_spec, N.bits_0.
  destruct (decide (n < 8)); [by rewrite N.shiftl_spec_low|].
  destruct (decide (b = 0)) as [->|]; [by rewrite N.bits_0, andb_false_r|].
  rewrite (N.bits_above_log2 b), andb_false_r; [done|].
  assert (N.log2 b < 8) by (apply N.log2_lt_pow2; lia). lia.
Qed.

Lemma horner_step a b k :
  b < 256 -> N.lor (N.shiftl a (k + 8)) (N.shiftl b k) = N.shiftl (a * 256 + b) k.
Proof.
  intros Hb. rewrite N.add_comm, <- N.shiftl_shiftl, <- N.shiftl_lor. f_equal.
  pose proof (land_shifted_byte a b Hb) as Hd.
  rewrite <- N.lxor_lor, <- N.add_nocarry_lxor by done. by rewrite N.shiftl_mul_pow2.
Qed.

Lemma time_prefix_value b0 b1 b2 b3 b4 b5 rest :
  b1 < 256 -> b2 < 256 -> b3 < 256 -> b4 < 256 -> b5 < 256 ->
  time_prefix (mkUuid (b0 :: b1 :: b2 :: b3 :: b4 :: b5 :: rest)) =
  ((((b0 * 256 + b1) * 256 + b2) * 256 + b3) * 256 + b4) * 256 + b5.
Proof.
  intros. unfold time_prefix, uuid_byte. cbn [uuid_bytes nth].
  change 40 with (32 + 8). rewrite horner_step by done.
  change (N.shiftl ?a 32) with (N.shiftl a (24 + 8)). rewrite horner_step by done.
  change (N.shiftl ?a 24) with (N.shiftl a (16 + 8)). rewrite horner_step by done.
  change (N.shiftl ?a 16) with (N.shiftl a (8 + 8)). rewrite horner_step by done.
  change (N.shiftl ?a 8) with (N.shiftl a (0 + 8)).
  rewrite <- (N.shiftl_0_r b5) at 1. rewrite horner_step by done. by rewrite N.shiftl_0_r.
Qed.

Lemma low_byte n : N.land n 255 = n mod 256.
Proof. change 255 with (N.ones 8). by rewrite N.land_ones. Qed.

Lemma low_byte_lt n : N.land n 255 < 256.
Proof. rewrite low_byte. by apply N.mod_lt. Qed.
#[export] Hint Resolve low_byte_lt : sbird.

(** ** The version 7 layout *)

Lemma v7_layout_bytes ms b0 b1 b2 b3 b4 b5 b6 b7 rest :
  v7_layout ms (b0 :: b1 :: b2 :: b3 :: b4 :: b5 :: b6 :: b7 :: rest) =
  mkUuid (N.land (N.shiftr ms 40) 255 :: N.land (N.shiftr ms 32) 255 ::
    N.land (N.shiftr ms 24) 255 :: N.land (N.shiftr ms 16) 255 :: N.land (N.shiftr ms 8) 255 ::
    N.land ms 255 :: to_byte (N.lor (N.land b6 15) 112) :: b7 ::
    match rest with [] => [] | b8 :: rest => N.lor (N.land b8 63) 128 :: rest end).
Proof. by destruct rest. Qed.

Lemma version_byte_7 b :
  b < 256 -> N.land (N.shiftr (to_byte (N.lor (N.land b 15) 112)) 4) 15 = 7 /\
    to_byte (N.lor (N.land b 15) 112) < 256 /\ to_byte (N.lor (N.land b 15) 112) <> 0.
Proof. intros Hb. by_bytes b Hb. Qed.

Lemma variant_byte b :
  b < 256 -> N.land (N.lor (N.land b 63) 128) 192 = 128 /\ N.lor (N.land b 63) 128 < 256.
Proof. intros Hb. by_bytes b Hb. Qed.

Lemma v7_time_prefix ms u : uuid_wf u -> ms <= v7_max_millis -> time_prefix (v7_layout ms (uuid_bytes u)) = ms.
Proof.
  intros Hu Hms. destruct (uuid_wf_bytes u Hu) as
    (b0 & b1 & b2 & b3 & b4 & b5 & b6 & b7 & b8 & b9 & b10 & b11 & b12 & b13 & b14 & b15 & -> & _).
  cbn [uuid_bytes]. rewrite v7_layout_bytes, time_prefix_value by apply low_byte_lt.
  rewrite !low_byte, !N.shiftr_div_pow2. unfold v7_max_millis in Hms.
  change (2 ^ 40) with (256 * 256 * 256 * 256 * 256). change (2 ^ 32) with (256 * 256 * 256 * 256).
  change (2 ^ 24) with (256 * 256 * 256). change (2 ^ 16) with (256 * 256). change (2 ^ 8) with 256.
  rewrite <- !N.Div0.div_div.
  assert (Hstep : forall n, n / 256 * 256 + n mod 256 = n).
  { intros n. pose proof (N.div_mod n 256). lia. }
  rewrite (N.mod_small (ms / 256 / 256 / 256 / 256 / 256)), !Hstep; [done|].
  rewrite !N.Div0.div_div. apply N.Div0.div_lt_upper_bound. lia.
Qed.

Lemma v7_layout_identity ms u :
  uuid_wf u -> uuid_wf (v7_layout ms (uuid_bytes u)) /\
  IsEngineIdentityUuid (v7_layout ms (uuid_bytes u)) = true.
Proof.
  intros Hu. destruct (uuid_wf_bytes u Hu) as
    (b0 & b1 & b2 & b3 & b4 & b5 & b6 & b7 & b8 & b9 & b10 & b11 & b12 & b13 & b14 & b15 & -> & Hb).
  destruct Hb as (_ & _ & _ & _ & _ & _ & H6 & H7 & H8 & H9 & H10 & H11 & H12 & H13 & H14 & H15).
  cbn [uuid_bytes]. rewrite v7_layout_bytes.
  destruct (version_byte_7 b6 H6) as (Hv & Hvl & Hv0), (variant_byte b8 H8) as [Hvar Hvarl]. split.
  - split; [done|]. cbn [uuid_bytes]. rewrite !Forall_cons. split_and!; auto with sbird.
  - unfold IsEngineIdentityUuid, IsValidUuidVariant, UuidVersion, uuid_byte.
    cbn [uuid_bytes nth]. rewrite Hv, Hvar, !N.eqb_refl, !andb_true_r.
    apply negb_true_iff, not_true_iff_false. rewrite uuid_is_nil_spec. cbn [uuid_bytes].
    rewrite !Forall_cons. naive_solver.
Qed.

Lemma extract_engine u :
  IsEngineIdentityUuid u = true -> ExtractUuidV7TimePrefix u = mkTimePrefix true false (time_prefix u) "".
Proof.
  unfold IsEngineIdentityUuid, ExtractUuidV7TimePrefix. intros. bool_prop.
  match goal with H : uuid_is_nil u = false |- _ => rewrite H end.
  match goal with H : IsValidUuidVariant u = true |- _ => rewrite H end. cbn [negb].
  rewrite decide_False; [done|]. intros Hx. apply Hx. by apply N.eqb_eq.
Qed.

Lemma extract_ok u : tp_ok (ExtractUuidV7TimePrefix u) = true ->
  IsEngineIdentityUuid u = true /\ tp_unix_epoch_millis (ExtractUuidV7TimePrefix u) = time_prefix u.
Proof.
  unfold ExtractUuidV7TimePrefix, IsEngineIdentityUuid.
  destruct (uuid_is_nil u), (IsValidUuidVariant u); simpl; try done.
  case_decide as Hv; [done|]. intros _. split; [|done].
  by apply N.eqb_eq.
Qed.

Lemma time_prefix_order u v :
  uuid_wf u -> uuid_wf v -> time_prefix u < time_prefix v -> CompareUuid128 u v = (-1)%Z.
Proof.
  intros Hu Hv Hlt. rewrite compare_memcmp.
  destruct (uuid_wf_bytes u Hu) as
    (b0 & b1 & b2 & b3 & b4 & b5 & b6 & b7 & b8 & b9 & b10 & b11 & b12 & b13 & b14 & b15 & -> & Hb).
  destruct (uuid_wf_bytes v Hv) as
    (c0 & c1 & c2 & c3 & c4 & c5 & c6 & c7 & c8 & c9 & c10 & c11 & c12 & c13 & c14 & c15 & -> & Hc).
  destruct Hb as (? & ? & ? & ? & ? & ? & _). destruct Hc as (? & ? & ? & ? & ? & ? & _).
  rewrite !time_prefix_value in Hlt by done. cbn [uuid_bytes memcmp].
  do 6 (case_decide; [done|]; case_decide; [lia|]). lia.
Qed.

Lemma make_typed_ok kind u :
  tur_ok (MakeTypedUuid kind u) = true <-> IsEngineIdentityKind kind = true /\ IsEngineIdentityUuid u = true.
Proof.
  unfold MakeTypedUuid, IsEngineIdentityUuid.
  destruct (IsEngineIdentityKind kind), (uuid_is_nil u), (IsValidUuidVariant u); simpl; try (by split; [|intros []]).
  case_decide as Hx; simpl; rewrite N.eqb_eq; naive_solver.
Qed.

Lemma make_typed_value kind u : tu_value (tur_value (MakeTypedUuid kind u)) = u.
Proof. unfold MakeTypedUuid. by repeat case_match. Qed.

(** The generators that stamp another version cannot pass the version 7 check. *)
Lemma typed_version_refused kind u : UuidVersion u <> 7 -> tur_ok (MakeTypedUuid kind u) = false.
Proof.
  intros Hv. apply not_true_iff_false. rewrite make_typed_ok. unfold IsEngineIdentityUuid.
  intros [_ H]. bool_prop. by apply N.eqb_eq in H0.
Qed.

(** Without the identity checks the parser still returns the printed bytes. *)
Lemma parse_uuid_value u : uuid_wf u -> upr_value (ParseUuid (UuidToString u)) = u.
Proof.
  intros Hu. unfold ParseUuid. rewrite uuid_text_dashes by done. cbn [negb].
  unfold UuidToString. rewrite strip_uuid_text, hex_text_length.
  rewrite (proj1 Hu). rewrite decide_False by (intros Hx; by apply Hx).
  rewrite parse_hex_text by done. by repeat case_match.
Qed.

Lemma v7_layout_tail ms u : uuid_wf u -> drop 9 (uuid_bytes (v7_layout ms (uuid_bytes u))) = drop 9 (uuid_bytes u).
Proof.
  intros Hu. destruct (uuid_wf_bytes u Hu) as
    (b0 & b1 & b2 & b3 & b4 & b5 & b6 & b7 & b8 & b9 & b10 & b11 & b12 & b13 & b14 & b15 & -> & _).
  reflexivity.
Qed.

(** Durable generation from delivered random bytes, as three cases. *)
Lemma generate_durable_cases kind ms bytes :
  uuid_wf (mkUuid bytes) ->
  GenerateDurableEngineIdentityV7 kind ms (Some bytes) =
    if decide (v7_max_millis < ms) then
      mkTypedUuidResult UuidErrorStatus TypedUuid_default
        (MakeUuidDiagnostic UuidErrorStatus "TIME.UUID_TIMESTAMP_OUT_OF_RANGE"
           "uuid.timestamp.out_of_range" "")
    else if UuidKindAllowsDurableIdentity kind then
      mkTypedUuidResult UuidOkStatus (mkTypedUuid kind (v7_layout ms bytes)) DiagnosticRecord_default
    else typed_error TypedUuid_default "SB-UUID-DURABLE-IDENTITY-KIND"
           "uuid.durable_identity.kind_not_allowed" (UuidKindName kind).
Proof.
  intros Hwf. destruct (v7_layout_identity ms _ Hwf) as [_ He]. cbn [uuid_bytes] in He.
  unfold IsEngineIdentityUuid in He. apply andb_true_iff in He as [[Hn Hv]%andb_true_iff H7%N.eqb_eq].
  apply negb_true_iff in Hn.
  unfold GenerateDurableEngineIdentityV7, GenerateCompatibilityUnixTimeV7.
  case_decide; [done|]. revert Hn Hv H7. generalize (v7_layout ms bytes). intros v Hn Hv H7.
  assert (Hc : MakeCompatibilityUuidResult v 7 = mkUuidResult UuidOkStatus v DiagnosticRecord_default).
  { unfold MakeCompatibilityUuidResult. rewrite Hn, Hv, H7. cbn [negb].
    by rewrite decide_False by (intros Hx; by apply Hx). }
  rewrite Hc. change (ur_ok (mkUuidResult UuidOkStatus v DiagnosticRecord_default)) with true.
  cbn [negb ur_value]. unfold MakeDurableEngineIdentityUuid, MakeTypedUuid, IsEngineIdentityKind.
  destruct (UuidKindAllowsDurableIdentity kind); cbn [negb orb]; [|done].
  rewrite Hn, Hv, H7. cbn [negb]. by rewrite decide_False by (intros Hx; by apply Hx).
Qed.

(** Writing the node bytes leaves the version byte alone. *)
Lemma version_after_tail i node u : (6 < i)%nat -> UuidVersion (set_bytes i node u) = UuidVersion u.
Proof.
  revert i u. induction node as [|v node IH]; intros i u Hi; [done|]. simpl. rewrite IH by lia.
  unfold UuidVersion, uuid_byte, set_byte. simpl. f_equal. f_equal.
  by rewrite !nth_lookup, list_lookup_insert_ne by lia.
Qed.

Lemma version_field x : N.land (N.shiftr (N.land (N.shiftr (N.lor 4096 (N.land x 4095)) 8) 255) 4) 15 = 1.
Proof.
  apply N.bits_inj. intros n.
  rewrite N.land_spec, N.shiftr_spec', N.land_spec, N.shiftr_spec', N.lor_spec, N.land_spec.
  destruct (decide (n < 4)) as [Hn|Hn].
  - assert (n ∈ [0; 1; 2; 3]) as Hin.
    { assert (n = 0 \/ n = 1 \/ n = 2 \/ n = 3) as Hc by lia. set_solver. }
    decompose_list_elem_of; subst; cbn; by rewrite ?andb_false_r, ?andb_true_r.
  - assert (N.testbit 15 n = false) as -> by (apply N.bits_above_log2; cbn; lia).
    rewrite andb_false_r. symmetry. apply N.bits_above_log2. cbn. lia.
Qed.

Lemma version_field_6 x : N.land (N.shiftr (N.lor 96 (N.land x 15)) 4) 15 = 6.
Proof.
  apply N.bits_inj. intros n.
  rewrite N.land_spec, N.shiftr_spec', N.lor_spec, N.land_spec.
  destruct (decide (n < 4)) as [Hn|Hn].
  - assert (n ∈ [0; 1; 2; 3]) as Hin.
    { assert (n = 0 \/ n = 1 \/ n = 2 \/ n = 3) as Hc by lia. set_solver. }
    decompose_list_elem_of; subst; cbn; by rewrite ?andb_false_r, ?andb_true_r.
  - assert (N.testbit 15 n = false) as -> by (apply N.bits_above_log2; cbn; lia).
    rewrite andb_false_r. symmetry. apply N.bits_above_log2. cbn. lia.
Qed.

(** ** Properties of UUID text, ordering and generation *)

(** Printing then parsing returns the same UUID for every 16-byte value the
    parser admits (not nil, RFC variant); every text the parser accepts denotes
    such a value, and printing it yields text that parses to the same value. *)
Theorem uuid_text_round_trip u text :
  uuid_wf u ->
  (upr_ok (ParseUuid (UuidToString u)) = true <->
     uuid_is_nil u = false /\ IsValidUuidVariant u = true) /\
  (upr_ok (ParseUuid (UuidToString u)) = true -> upr_value (ParseUuid (UuidToString u)) = u) /\
  (upr_ok (ParseUuid text) = true ->
     uuid_wf (upr_value (ParseUuid text)) /\
     upr_value (ParseUuid (UuidToString (upr_value (ParseUuid text)))) = upr_value (ParseUuid text)).
Proof.
  intros Hu.
  assert (Hval : upr_value (ParseUuid (UuidToString u)) = u) by by apply parse_uuid_value.
  split_and!; [split|done|].
  - intros Hok. apply parse_ok in Hok as (_ & Hn & Hv). by rewrite Hval in *.
  - intros [Hn Hv]. by rewrite parse_uuid_text.
  - intros (Hwf & Hn & Hv)%parse_ok. split; [done|]. by rewrite parse_uuid_text.
Qed.

Lemma uuid_text_round_trip_witness :
  upr_value (ParseUuid (UuidToString (sample_uuid 7))) = sample_uuid 7.
Proof.
  apply (uuid_text_round_trip (sample_uuid 7) ""%string).
  - split; [reflexivity|]. repeat constructor.
  - vm_compute. reflexivity.
Defined.

(** The index comparator, whichever path it takes, returns the canonical
    byte order, and that order is total: zero exactly on equal values,
    antisymmetric and transitive. *)
Theorem index_comparison_canonical left right third kind :
  uuid_wf (tu_value left) -> uuid_wf (tu_value right) -> uuid_wf (tu_value third) ->
  ic_comparison (CompareUuidV7ForIndex left right kind) =
    CompareUuid128 (tu_value left) (tu_value right) /\
  (CompareUuid128 (tu_value left) (tu_value right) = 0%Z <-> tu_value left = tu_value right) /\
  CompareUuid128 (tu_value right) (tu_value left) =
    (- CompareUuid128 (tu_value left) (tu_value right))%Z /\
  (CompareUuid128 (tu_value left) (tu_value right) = (-1)%Z ->
   CompareUuid128 (tu_value right) (tu_value third) = (-1)%Z ->
   CompareUuid128 (tu_value left) (tu_value third) = (-1)%Z).
Proof.
  intros Hl Hr Ht. split_and!.
  - unfold CompareUuidV7ForIndex. case_match; [done|]. case_decide; [done|].
    destruct (tp_ok (ExtractUuidV7TimePrefix (tu_value left))) eqn:E1; [|done].
    destruct (tp_ok (ExtractUuidV7TimePrefix (tu_value right))) eqn:E2; [|done].
    apply extract_ok in E1 as [_ ->]. apply extract_ok in E2 as [_ ->]. cbn [negb orb ic_comparison].
    case_decide; [by rewrite time_prefix_order|]. case_decide as Hgt; [|done].
    apply time_prefix_order in Hgt; [|done..]. rewrite !compare_memcmp in *.
    rewrite memcmp_antisym, Hgt. done.
  - rewrite compare_memcmp, memcmp_eq by (by rewrite (proj1 Hl), (proj1 Hr)).
    destruct (tu_value left), (tu_value right). simpl. split; congruence.
  - rewrite !compare_memcmp. apply memcmp_antisym.
  - rewrite !compare_memcmp. apply memcmp_trans; by rewrite ?(proj1 Hl), ?(proj1 Hr), ?(proj1 Ht).
Qed.

Lemma index_comparison_canonical_witness :
  ic_comparison (CompareUuidV7ForIndex (sample_txn_uuid 1) (sample_txn_uuid 2) uk_transaction) =
  CompareUuid128 (sample_uuid 1) (sample_uuid 2).
Proof.
  apply (index_comparison_canonical (sample_txn_uuid 1) (sample_txn_uuid 2) (sample_txn_uuid 3)
    uk_transaction); split; first [reflexivity | repeat constructor].
Defined.

(** Durable version 7 generation succeeds exactly when the kind may carry a
    durable identity, the timestamp fits in 48 bits and the random source
    delivered; the value is then an engine identity of that kind, its prefix reads
    back as the timestamp, its remaining payload is the random bytes, and an
    identity with a later timestamp sorts after it. *)
Theorem v7_generation_contract kind ms random :
  (forall bytes, random = Some bytes -> uuid_wf (mkUuid bytes)) ->
  (tur_ok (GenerateDurableEngineIdentityV7 kind ms random) = true <->
   UuidKindAllowsDurableIdentity kind = true /\ ms <= v7_max_millis /\ is_Some random) /\
  (forall bytes, random = Some bytes ->
   tur_ok (GenerateDurableEngineIdentityV7 kind ms random) = true ->
   let t := tur_value (GenerateDurableEngineIdentityV7 kind ms random) in
   tu_kind t = kind /\ uuid_wf (tu_value t) /\ IsEngineIdentityUuid (tu_value t) = true /\
   ExtractUuidV7TimePrefix (tu_value t) = mkTimePrefix true false ms "" /\
   drop 9 (uuid_bytes (tu_value t)) = drop 9 bytes /\
   forall later, uuid_wf later -> ms < time_prefix later -> CompareUuid128 (tu_value t) later = (-1)%Z).
Proof.
  intros Hwf. destruct random as [bytes|].
  - specialize (Hwf bytes eq_refl). rewrite generate_durable_cases by done. split.
    + case_decide; [split; [done|intros (_ & ? & _); lia]|].
      destruct (UuidKindAllowsDurableIdentity kind) eqn:Hk; [|naive_solver].
      split; [|done]. intros _. split_and!; [done|lia|done].
    + intros bytes' [= <-]. case_decide; [done|].
      destruct (UuidKindAllowsDurableIdentity kind) eqn:Hk; [|done]. intros _.
      destruct (v7_layout_identity ms (mkUuid bytes) Hwf) as [Hw He].
      pose proof (v7_time_prefix ms (mkUuid bytes) Hwf ltac:(lia)) as Htp. cbn [uuid_bytes] in *.
      split_and!; cbn [tur_value tu_kind tu_value]; try done.
      * by rewrite extract_engine, Htp.
      * by apply (v7_layout_tail ms (mkUuid bytes)).
      * intros later Hlater Hlt. apply time_prefix_order; [done..|]. by rewrite Htp.
  - split; [|naive_solver]. unfold GenerateDurableEngineIdentityV7, GenerateCompatibilityUnixTimeV7.
    case_decide; (split; [done|intros (_ & _ & [??]); done]).
Qed.

Lemma v7_generation_contract_witness :
  ExtractUuidV7TimePrefix (tu_value (tur_value
    (GenerateDurableEngineIdentityV7 uk_object 1700000000000 (Some (replicate 16 170))))) =
  mkTimePrefix true false 1700000000000 "".
Proof.
  apply (v7_generation_contract uk_object 1700000000000 (Some (replicate 16 170)))
    with (bytes := replicate 16 170); [|reflexivity|vm_compute; reflexivity].
  intros bytes [= <-]. split; [reflexivity|]. repeat constructor.
Defined.

(** The typed generators of versions 1, 3 and 6 refuse every input: their result
    goes through the version 7 check. *)
Lemma typed_non_v7_generators_refuse kind timestamp clock node :
  tur_ok (GenerateTimeNodeV1 kind timestamp clock node) = false /\
  tur_ok (GenerateReorderedTimeV6 kind timestamp clock node) = false.
Proof.
  split; apply typed_version_refused.
  - unfold MakeV1Layout. rewrite version_after_tail by lia. intros H7.
    pose proof (version_field (N.shiftr (N.land timestamp kUuid60BitMask) 48)) as H1.
    assert (1 = 7); [|done]. etrans; [symmetry; exact H1|exact H7].
  - unfold v6_layout. rewrite version_after_tail by lia. intros H7.
    pose proof (version_field_6 (N.shiftr (N.land timestamp kUuid60BitMask) 8)) as H6.
    assert (6 = 7); [|done]. etrans; [symmetry; exact H6|exact H7].
Qed.
