(* ===== verification/SnapshotFacts.v ===== *)
(** * Facts about reader snapshots and published descriptors *)

From S2P Require Import Prelude Platform Uuid TransactionState Inventory Horizon RowVersion Snapshot.
From S2P Require Import InventoryEvolution InventoryTheorems InventorySteps UuidFacts.

(** ** Lookup *)

Lemma lookup_ok inv id :
  lr_ok (LookupLocalTransaction inv id) = true ->
  lr_entry (LookupLocalTransaction inv id) ∈ inv_entries inv /\
  e_local_id (lr_entry (LookupLocalTransaction inv id)) = id /\ id <> 0.
Proof.
  unfold LookupLocalTransaction, local_id_valid, kInvalidLocalTransactionId.
  case_match eqn:Hv; [done|]. destruct (FindEntry inv id) as [[i e]|] eqn:Hf; [|done]. intros _. simpl.
  apply find_entry_lookup in Hf as [Hi He]. bool_prop.
  split_and!; [by eapply list_elem_of_lookup_2|done|done].
Qed.

Lemma structure_entry inv e : structure_ok inv -> e ∈ inv_entries inv -> entry_ok inv e.
Proof. intros Hs. pose proof (so_entries _ Hs) as H. rewrite Forall_forall in H. auto. Qed.

Lemma structure_entry_unique inv e e' :
  structure_ok inv -> e ∈ inv_entries inv -> e' ∈ inv_entries inv ->
  e_local_id e = e_local_id e' -> e = e'.
Proof. intros Hs. apply NoDup_fmap_inj, (so_locals _ Hs). Qed.

(** ** Exclusion lists and the high watermark *)

Lemma sorted_ids_elem p inv x :
  x ∈ sorted_ids p inv <-> exists e, e ∈ inv_entries inv /\ p e = true /\ x = e_local_id e.
Proof.
  unfold sorted_ids. rewrite merge_sort_Permutation, list_elem_of_fmap.
  setoid_rewrite list_elem_of_filter. naive_solver.
Qed.

Lemma sorted_ids_id p inv e :
  structure_ok inv -> e ∈ inv_entries inv -> e_local_id e ∈ sorted_ids p inv <-> p e = true.
Proof.
  intros Hs He. rewrite sorted_ids_elem. split; [|naive_solver].
  intros (e' & He' & Hp & Hid). by rewrite (structure_entry_unique _ _ _ Hs He He' Hid).
Qed.

Lemma high_watermark_bounds b init :
  let step := fun acc e => if HasCommittedInventoryOutcome e && (e_commit_sequence e <=? b)
                           then N.max acc (e_local_id e) else acc in
  forall es, init <= foldl step init es /\
    (forall e, e ∈ es -> HasCommittedInventoryOutcome e = true -> e_commit_sequence e <= b ->
       e_local_id e <= foldl step init es) /\
    (forall bound, init < bound -> (forall e, e ∈ es -> e_local_id e < bound) ->
       foldl step init es < bound).
Proof.
  intros step es. revert init. induction es as [|x es IH]; intros init; simpl.
  { split_and!; [lia|set_solver|done]. }
  destruct (IH (step init x)) as (H1 & H2 & H3).
  assert (Hx : init <= step init x) by (unfold step; case_match; lia).
  split_and!; [lia| |].
  - intros e [->|He]%elem_of_cons Hc Hb; [|auto].
    etrans; [|exact H1]. unfold step. rewrite Hc, (proj2 (N.leb_le _ _)) by done. simpl. lia.
  - intros bound Hi Hall. apply H3; [|set_solver].
    assert (e_local_id x < bound) by set_solver. unfold step. case_match; lia.
Qed.

Lemma high_watermark_covers inv b e :
  e ∈ inv_entries inv -> HasCommittedInventoryOutcome e = true -> e_commit_sequence e <= b ->
  e_local_id e <= visible_high_watermark inv b.
Proof. intros. by apply (high_watermark_bounds b 0 (inv_entries inv)). Qed.

Lemma high_watermark_lt inv b :
  structure_ok inv -> visible_high_watermark inv b < inv_next_local_transaction_id inv.
Proof.
  intros Hs. apply (high_watermark_bounds b 0 (inv_entries inv)).
  - pose proof (so_next_local _ Hs). lia.
  - intros e He. apply (eo_local _ _ (structure_entry _ _ Hs He)).
Qed.

(** ** A created snapshot *)

Lemma create_snapshot_ok inv reader :
  tsr_ok (CreateLocalTransactionSnapshot inv reader) = true ->
  let e := lr_entry (LookupLocalTransaction inv reader) in
  let b := commit_boundary inv e in
  structure_ok inv /\ e ∈ inv_entries inv /\ e_local_id e = reader /\
  supported_reader_state (e_state e) = true /\
  tsr_visibility_snapshot (CreateLocalTransactionSnapshot inv reader) =
    mkVisibilitySnapshot reader (visible_high_watermark inv b) true true false
      (sorted_ids (excluded_active b) inv) (sorted_ids (excluded_in_doubt b) inv) b true.
Proof.
  unfold CreateLocalTransactionSnapshot. intros H. cbv zeta in *.
  case_decide as Hv; [done|]. apply validate_structure_iff in Hv.
  destruct (lr_ok (LookupLocalTransaction inv reader)) eqn:Hl; cbn [negb] in *; [|].
  2:{ exfalso. unfold tsr_ok in H. simpl in H. unfold lr_ok in Hl. rewrite Hl in H. done. }
  destruct (lookup_ok _ _ Hl) as (Hin & Hid & _).
  destruct (supported_reader_state _) eqn:Hst; cbn [negb] in *; [|done].
  destruct (hres_ok _) eqn:Hh; cbn [negb] in *; [done|].
  by rewrite compute_horizons_no_snapshots in Hh.
Qed.

Lemma create_snapshot_local inv reader :
  tsr_ok (CreateLocalTransactionSnapshot inv reader) = true ->
  ls_visible_through_local_transaction (tsr_snapshot (CreateLocalTransactionSnapshot inv reader)) =
    visible_high_watermark inv (commit_boundary inv (lr_entry (LookupLocalTransaction inv reader))) /\
  ls_oldest_active_transaction (tsr_snapshot (CreateLocalTransactionSnapshot inv reader)) =
    h_oldest_active_transaction (hres_horizons (ComputeLocalTransactionHorizons inv)).
Proof.
  intros Hok. pose proof (create_snapshot_ok _ _ Hok) as (Hs & _ & _ & Hst & _).
  revert Hok. unfold CreateLocalTransactionSnapshot. cbv zeta.
  case_decide as Hv; [done|]. intros Hok.
  destruct (lr_ok (LookupLocalTransaction inv reader)) eqn:Hl; cbn [negb] in *.
  2:{ exfalso. unfold tsr_ok in Hok. simpl in Hok. unfold lr_ok in Hl. rewrite Hl in Hok. done. }
  rewrite Hst, (compute_horizons_no_snapshots inv Hs). done.
Qed.

(** What a version records about its creator agrees with the inventory. *)
Record version_of (m : RowVersionMetadata) (e : TransactionInventoryEntry) : Prop := {
  vo_creator : creator_id m = e_local_id e;
  vo_state : rvm_creator_transaction_state m = InventoryVisibilityState e;
  vo_sequence : rvm_creator_commit_sequence m = e_commit_sequence e }.

Lemma committed_not_in_doubt inv e :
  entry_ok inv e -> HasCommittedInventoryOutcome e = true ->
  IsActiveSnapshotExclusion (e_state e) = false /\ IsInDoubtSnapshotExclusion (e_state e) = false.
Proof.
  intros [_ _ Ha Hna _ _ _ _ _]. unfold HasCommittedInventoryOutcome, InventoryVisibilityState.
  intros Hc%bool_decide_eq_true_1. case_decide as Hd; [case_decide; [by rewrite Hc|done]|].
  by rewrite Hd.
Qed.

(** A version the inventory can vouch for lies within a reader's snapshot exactly
    when its creator committed no later than the boundary. *)
Lemma within_created_snapshot inv reader m e :
  tsr_ok (CreateLocalTransactionSnapshot inv reader) = true ->
  e ∈ inv_entries inv -> version_of m e -> HasCommittedInventoryOutcome e = true ->
  within_snapshot m (tsr_visibility_snapshot (CreateLocalTransactionSnapshot inv reader)) <->
  e_commit_sequence e <= commit_boundary inv (lr_entry (LookupLocalTransaction inv reader)).
Proof.
  intros Hok He [Hc _ Hseq] Hcom. destruct (create_snapshot_ok _ _ Hok) as (Hs & _ & _ & _ & ->).
  set (b := commit_boundary _ _). unfold within_snapshot. simpl. rewrite Hc, Hseq.
  pose proof (structure_entry _ _ Hs He) as Heok.
  pose proof (eo_committed _ _ Heok Hcom) as Hpos.
  destruct (committed_not_in_doubt _ _ Heok Hcom) as [Hna Hnd].
  rewrite !sorted_ids_id by done. unfold excluded_in_doubt, excluded_active. rewrite Hna, Hnd, Hcom. simpl.
  split; [intros (_ & Hb & _); specialize (Hb eq_refl); lia|]. intros Hb. split_and!.
  - intros _. by apply high_watermark_covers.
  - intros _. lia.
  - rewrite N.ltb_lt. lia.
  - by rewrite andb_false_r.
Qed.

(** ** Commits below a boundary were there before *)

Lemma steps_commit_origin inv inv' :
  structure_ok inv -> counters_u64 inv -> rtc inventory_step inv inv' ->
  forall e', e' ∈ inv_entries inv' -> HasCommittedInventoryOutcome e' = true ->
  e_commit_sequence e' < inv_next_commit_sequence inv ->
  exists e, e ∈ inv_entries inv /\ e_local_id e = e_local_id e' /\
    InventoryVisibilityState e = InventoryVisibilityState e' /\
    e_commit_sequence e = e_commit_sequence e'.
Proof.
  intros Hs Hu. revert inv'. refine (rtc_ind_r _ _ _ _); [|intros mid inv' Hmid (op & Hop) IH].
  { intros e' He' _ _. eauto. }
  intros e' He' Hc Hlt. destruct (steps_evolve _ _ Hs Hu Hmid) as (Hsm & Hum & _ & Hmc).
  destruct (run_op_evolves _ _ _ Hsm Hum Hop) as [Hev _].
  destruct (decide (e_local_id e' ∈ e_local_id <$> inv_entries mid)) as [Hin|Hnin].
  2:{ pose proof (fr_commit _ _ (evo_fresh _ _ Hev e' He' Hnin) Hc). lia. }
  apply list_elem_of_fmap in Hin as (m & Hm & Hmin).
  pose proof (evo_retained _ _ Hev m e' Hmin He' (eq_sym Hm)) as He.
  destruct (HasCommittedInventoryOutcome m) eqn:Hcm.
  - assert (Hvm : InventoryVisibilityState m = ts_committed) by by apply bool_decide_eq_true_1 in Hcm.
    destruct (ev_final _ _ _ He) as (Hv1 & _ & Hseq); [by rewrite Hvm|].
    destruct (IH m Hmin Hcm) as (e & ? & ? & ? & ?); [congruence|].
    exists e. split_and!; congruence.
  - pose proof (ev_commit _ _ _ He Hcm Hc). lia.
Qed.

Lemma stable_boundary inv inv' reader :
  structure_ok inv -> counters_u64 inv -> rtc inventory_step inv inv' ->
  tsr_ok (CreateLocalTransactionSnapshot inv reader) = true ->
  tsr_ok (CreateLocalTransactionSnapshot inv' reader) = true ->
  e_stable_snapshot (lr_entry (LookupLocalTransaction inv reader)) = true ->
  let b := e_begin_visible_through_commit_sequence (lr_entry (LookupLocalTransaction inv reader)) in
  commit_boundary inv (lr_entry (LookupLocalTransaction inv reader)) = b /\
  commit_boundary inv' (lr_entry (LookupLocalTransaction inv' reader)) = b /\
  b < inv_next_commit_sequence inv.
Proof.
  intros Hs Hu Hst Hok Hok' Hstable. cbv zeta.
  destruct (create_snapshot_ok _ _ Hok) as (_ & Hin & Hid & _).
  destruct (create_snapshot_ok _ _ Hok') as (_ & Hin' & Hid' & _).
  pose proof (structure_entry _ _ Hs Hin) as Heok.
  destruct (steps_entry_origin _ _ Hs Hu Hst _ Hin') as (o & Ho & Hoid & _ & Hb & Hsn & _).
  { rewrite Hid', <- Hid. apply (eo_local _ _ Heok). }
  assert (o = lr_entry (LookupLocalTransaction inv reader)) as ->.
  { apply (structure_entry_unique inv); [done..|congruence]. }
  unfold commit_boundary. rewrite <- Hsn, Hstable, Hb. split_and!; [done|done|].
  rewrite <- Hb. apply (eo_begin _ _ Heok).
Qed.

(** ** Canonical exclusion vectors *)

Lemma is_sorted_Sorted l : Sorted N.le l -> is_sorted l = true.
Proof.
  induction 1 as [|x l Hl IH Hr]; [done|]. destruct l as [|y l]; [done|]. inv Hr.
  cbn [is_sorted]. apply andb_true_iff. split; [by apply N.leb_le|done].
Qed.

Lemma no_adjacent_NoDup l : NoDup l -> no_adjacent_equal l = true.
Proof.
  induction 1 as [|x l Hx Hl IH]; [done|]. destruct l as [|y l]; [done|].
  cbn [no_adjacent_equal]. apply andb_true_iff. split; [|done].
  apply negb_true_iff, N.eqb_neq. intros ->. apply Hx. by left.
Qed.

Lemma sorted_ids_canonical p inv c :
  structure_ok inv -> inv_next_local_transaction_id inv = c + 1 ->
  IsCanonicalExclusionVector (sorted_ids p inv) c = true.
Proof.
  intros Hs Hc. unfold IsCanonicalExclusionVector. rewrite is_sorted_Sorted.
  2:{ apply Sorted_merge_sort. intros x y. lia. }
  rewrite no_adjacent_NoDup.
  2:{ unfold sorted_ids. rewrite merge_sort_Permutation.
      eapply sublist_NoDup; [apply (so_locals _ Hs)|]. apply fmap_sublist, sublist_filter. }
  simpl. apply forallb_forall. intros x Hx%list_elem_of_In. apply sorted_ids_elem in Hx as (e & He & _ & ->).
  pose proof (structure_entry _ _ Hs He) as Hok. pose proof (eo_local _ _ Hok).
  pose proof (identity_valid_local _ (eo_identity _ _ Hok)) as Hnz. unfold e_local_id in *.
  unfold kInvalidLocalTransactionId.
  rewrite (proj2 (N.eqb_neq _ _)) by done. simpl. apply N.leb_le. lia.
Qed.

(** ** The draft descriptor is complete *)

Lemma min_over_pos init l : 0 < init -> (forall x, x ∈ l -> 0 < x) -> 0 < min_over init l.
Proof. intros Hi Hl. destruct (min_over_in init l) as [->|Hin]; auto. Qed.

Lemma sorted_ids_pos p inv x : structure_ok inv -> x ∈ sorted_ids p inv -> 0 < x.
Proof.
  intros Hs (e & He & _ & ->)%sorted_ids_elem.
  pose proof (identity_valid_local _ (eo_identity _ _ (structure_entry _ _ Hs He))).
  unfold e_local_id. lia.
Qed.

Lemma ids_where_pos P `{!forall e, Decision (P e)} inv x :
  structure_ok inv -> x ∈ ids_where P inv -> 0 < x.
Proof.
  intros Hs (e & He & _ & ->)%ids_where_elim.
  pose proof (identity_valid_local _ (eo_identity _ _ (structure_entry _ _ Hs He))).
  unfold e_local_id. lia.
Qed.

Lemma oldest_pos inv : structure_ok inv -> 0 < oldest_interesting inv /\ 0 < oldest_active inv.
Proof.
  intros Hs. pose proof (so_next_local _ Hs).
  split; apply min_over_pos; [lia| |lia|]; intros x Hx; by eapply ids_where_pos.
Qed.

(** The completeness test, as the facts it establishes. *)
Record descriptor_complete (d : SnapshotVectorDescriptor) : Prop := {
  dc_uuid : typed_uuid_valid (sd_snapshot_uuid d) = true;
  dc_kind : tu_kind (sd_snapshot_uuid d) = uk_object;
  dc_version : UuidVersion (tu_value (sd_snapshot_uuid d)) = 7;
  dc_owner_uuid : typed_uuid_valid (sd_owning_transaction_uuid d) = true;
  dc_owner_kind : tu_kind (sd_owning_transaction_uuid d) = uk_transaction;
  dc_owner_version : UuidVersion (tu_value (sd_owning_transaction_uuid d)) = 7;
  dc_stable : sd_snapshot_kind d = svk_statement_stable;
  dc_owner : 0 < sd_owning_transaction d < sd_publication_inventory_next_local_transaction_id d;
  dc_watermark : sd_visible_committed_high_watermark d < sd_publication_inventory_next_local_transaction_id d;
  dc_active : 0 < sd_oldest_active_transaction d < sd_publication_inventory_next_local_transaction_id d;
  dc_interesting :
    0 < sd_oldest_interesting_transaction d < sd_publication_inventory_next_local_transaction_id d;
  dc_snapshot : 0 < sd_oldest_snapshot_transaction d < sd_publication_inventory_next_local_transaction_id d;
  dc_horizon : sd_retention_horizon_transaction d = sd_oldest_snapshot_transaction d;
  dc_boundary : sd_oldest_snapshot_transaction d = SnapshotRetentionBoundary d;
  dc_flags : sd_inventory_authoritative d = true /\ sd_complete d = true;
  dc_active_ids : IsCanonicalExclusionVector (sd_active_excluded_local_transaction_ids d)
    (u64_sub (sd_publication_inventory_next_local_transaction_id d) 1) = true;
  dc_in_doubt_ids : IsCanonicalExclusionVector (sd_in_doubt_excluded_local_transaction_ids d)
    (u64_sub (sd_publication_inventory_next_local_transaction_id d) 1) = true;
  dc_owner_excluded : sd_owning_transaction d ∈ sd_active_excluded_local_transaction_ids d;
  dc_disjoint : forall x, x ∈ sd_active_excluded_local_transaction_ids d ->
    x ∉ sd_in_doubt_excluded_local_transaction_ids d }.

Lemma structurally_complete_intro d :
  descriptor_complete d -> SnapshotVectorStructurallyComplete d = true.
Proof.
  intros [H1 H2 H3 H4 H5 H6 H7 H8 H9 H10 H11 H12 H13 H14 [H15 H15'] H16 H17 H18 H19].
  unfold SnapshotVectorStructurallyComplete. rewrite H1, H2, H3, H4, H5, H6, H7, H15, H15', H16, H17, H13.
  rewrite <- H14. unfold local_id_valid, kInvalidLocalTransactionId.
  rewrite !(bool_decide_eq_true_2 (_ <> 0)) by lia.
  rewrite !(bool_decide_eq_false_2 (_ <= _)) by lia.
  rewrite (bool_decide_eq_false_2 (_ = 0)) by lia.
  rewrite (bool_decide_eq_true_2 (_ ∈ _)) by done.
  rewrite !bool_decide_eq_false_2 by (intros Hx; by apply Hx). simpl.
  destruct (filter _ _) as [|x l] eqn:Hf; [done|]. exfalso.
  assert (Hx : x ∈ x :: l) by (by left). rewrite <- Hf in Hx.
  apply list_elem_of_filter in Hx as [Hx2 Hx1]. by apply (H19 x).
Qed.

Lemma structurally_complete_elim d :
  SnapshotVectorStructurallyComplete d = true ->
  0 < sd_retention_horizon_transaction d /\
  sd_retention_horizon_transaction d <= sd_owning_transaction d /\
  (forall x, x ∈ sd_active_excluded_local_transaction_ids d \/
             x ∈ sd_in_doubt_excluded_local_transaction_ids d ->
     sd_retention_horizon_transaction d <= x) /\
  sd_inventory_authoritative d = true /\ sd_complete d = true /\
  typed_uuid_valid (sd_snapshot_uuid d) = true /\ tu_kind (sd_snapshot_uuid d) = uk_object /\
  sd_owning_transaction d ∈ sd_active_excluded_local_transaction_ids d.
Proof.
  unfold SnapshotVectorStructurallyComplete, local_id_valid, kInvalidLocalTransactionId. intros H.
  destruct (_ || _) eqn:Hb in H; [done|]. clear H. bool_prop.
  repeat match goal with H : ~ (_ <> _) |- _ => apply dec_stable in H end.
  match goal with H : sd_oldest_snapshot_transaction d = SnapshotRetentionBoundary d |- _ =>
    unfold SnapshotRetentionBoundary in H; rename H into Hbd end.
  set (A := sd_active_excluded_local_transaction_ids d) in *.
  set (D := sd_in_doubt_excluded_local_transaction_ids d) in *.
  set (m0 := N.min _ _) in *.
  pose proof (min_over_le_init m0 A). pose proof (min_over_le_init (min_over m0 A) D).
  split_and!; try done; [lia|lia|].
  intros x [Hx|Hx]; [pose proof (min_over_le_elem m0 A x Hx)|pose proof (min_over_le_elem (min_over m0 A) D x Hx)]; lia.
Qed.

Lemma identity_valid_kind i :
  transaction_identity_valid i = true ->
  tu_kind (ti_transaction_uuid i) = uk_transaction /\ typed_uuid_valid (ti_transaction_uuid i) = true.
Proof. unfold transaction_identity_valid. intros. by bool_prop. Qed.

Lemma engine_identity_parts u : IsEngineIdentityUuid u = true -> uuid_is_nil u = false /\ UuidVersion u = 7.
Proof. unfold IsEngineIdentityUuid. intros. bool_prop. split; [done|by apply N.eqb_eq]. Qed.

Section draft.
Context (inv : LocalTransactionInventory) (id : LocalTransactionId) (uuid : TypedUuid).
Context (Hu : counters_u64 inv).
Context (Hok : tsr_ok (CreateLocalTransactionSnapshot inv id) = true).
Abbreviation owner := (lr_entry (LookupLocalTransaction inv id)).
Context (Howner : IsSnapshotOwnerEligible (e_state owner) = true).
Context (Hkind : tu_kind uuid = uk_object) (Huuid : IsEngineIdentityUuid (tu_value uuid) = true).
Abbreviation draft := (draft_descriptor inv owner id (CreateLocalTransactionSnapshot inv id)
  (hres_horizons (ComputeLocalTransactionHorizons inv))).

Lemma draft_fields :
  structure_ok inv /\ owner ∈ inv_entries inv /\ e_local_id owner = id /\
  sd_oldest_interesting_transaction draft = oldest_interesting inv /\
  sd_oldest_active_transaction draft = oldest_active inv /\
  sd_visible_committed_high_watermark draft = visible_high_watermark inv (commit_boundary inv owner) /\
  sd_active_excluded_local_transaction_ids draft =
    sorted_ids (excluded_active (commit_boundary inv owner)) inv /\
  sd_in_doubt_excluded_local_transaction_ids draft =
    sorted_ids (excluded_in_doubt (commit_boundary inv owner)) inv.
Proof.
  destruct (create_snapshot_ok _ _ Hok) as (Hs & Hin & Hid & _ & Hvs).
  destruct (create_snapshot_local _ _ Hok) as [Hhw Hoa].
  destruct (compute_horizons_ok _ _ (compute_horizons_no_snapshots _ Hs)) as [_ Hp].
  apply projection_values in Hp as [Ho Ha]. unfold draft_descriptor. simpl.
  rewrite Hvs, Hhw, Hoa. unfold ComputeLocalTransactionHorizons. rewrite Ho, Ha. split_and!; done.
Qed.

(** The owner bounds the retention boundary from above, the entries' positive
    numbers from below. *)
Lemma draft_boundary :
  let b := SnapshotRetentionBoundary draft in
  0 < b /\ b <= id /\ id < inv_next_local_transaction_id inv /\
  sd_oldest_snapshot_transaction draft = b /\ sd_retention_horizon_transaction draft = b /\
  oldest_active inv <= id /\ oldest_interesting inv <= id.
Proof.
  destruct draft_fields as (Hs & Hin & Hid & Hoi & _ & _ & Ha & Hd).
  pose proof (structure_entry _ _ Hs Hin) as He. pose proof (eo_local _ _ He) as Hlt.
  pose proof (identity_valid_local _ (eo_identity _ _ He)) as Hnz.
  change (ti_local_id (e_identity owner)) with (e_local_id owner) in Hnz. rewrite Hid in Hlt, Hnz.
  assert (Hstate : e_state owner = ts_active \/ e_state owner = ts_read_only_active).
  { unfold IsSnapshotOwnerEligible in Howner. apply orb_true_iff in Howner. by rewrite !bool_decide_eq_true in Howner. }
  cbv zeta. unfold SnapshotRetentionBoundary. rewrite Hoi, Ha, Hd.
  change (sd_owning_transaction draft) with id.
  destruct (oldest_pos _ Hs) as [Hp1 Hp2].
  pose proof (min_over_le_init (N.min (oldest_interesting inv) id)
    (sorted_ids (excluded_active (commit_boundary inv owner)) inv)) as Hle1.
  pose proof (min_over_le_init (min_over (N.min (oldest_interesting inv) id)
    (sorted_ids (excluded_active (commit_boundary inv owner)) inv))
    (sorted_ids (excluded_in_doubt (commit_boundary inv owner)) inv)) as Hle2.
  split_and!; try lia.
  - apply min_over_pos; [apply min_over_pos; [lia|]|]; intros x Hx; by eapply sorted_ids_pos.
  - unfold draft_descriptor, SnapshotRetentionBoundary in *. simpl in *. by rewrite Hoi, Ha, Hd.
  - unfold draft_descriptor, SnapshotRetentionBoundary in *. simpl in *. by rewrite Hoi, Ha, Hd.
  - rewrite <- Hid. apply min_over_le_elem, ids_where_in; [done|]. by destruct Hstate as [-> | ->].
  - rewrite <- Hid. apply oldest_interesting_le; [done|]. rewrite (visibility_not_archived inv) by
      (try done; destruct Hstate as [-> | ->]; done). by destruct Hstate as [-> | ->].
Qed.

Lemma draft_complete : SnapshotVectorStructurallyComplete (with_publication uuid draft) = true.
Proof.
  destruct draft_fields as (Hs & Hin & Hid & Hoi & Hoa & Hhw & Ha & Hd).
  destruct draft_boundary as (Hb0 & Hbid & Hlt & Hos & Hrh & Hoal & Hoil).
  destruct (oldest_pos _ Hs) as [Hp1 Hp2].
  pose proof (high_watermark_lt inv (commit_boundary inv owner) Hs) as Hhwlt.
  pose proof (structure_entry _ _ Hs Hin) as He.
  pose proof (eo_identity _ _ He) as Hval. pose proof (eo_engine _ _ He) as Heng.
  pose proof (identity_valid_kind _ Hval) as [Hk Hv].
  assert (Hsub : u64_sub (inv_next_local_transaction_id inv) 1 = inv_next_local_transaction_id inv - 1).
  { destruct Hu as [Hul _]. apply u64_sub_small; [lia|done]. }
  pose proof (engine_identity_parts _ Huuid) as [Hnil H7].
  pose proof (engine_identity_parts _ Heng) as [_ Ho7].
  assert (Hcan : forall p, IsCanonicalExclusionVector (sorted_ids p inv)
      (u64_sub (inv_next_local_transaction_id inv) 1) = true).
  { intros p. rewrite Hsub. apply sorted_ids_canonical; [done|]. clear - Hlt. lia. }
  assert (Hmem : id ∈ sorted_ids (excluded_active (commit_boundary inv owner)) inv).
  { rewrite <- Hid at 1. apply sorted_ids_id; [done..|]. unfold excluded_active, IsActiveSnapshotExclusion.
    unfold IsSnapshotOwnerEligible in Howner. by rewrite Howner. }
  apply structurally_complete_intro.
  rewrite <- Ha in Hmem. pose proof (Hcan (excluded_active (commit_boundary inv owner))) as Hc1.
  pose proof (Hcan (excluded_in_doubt (commit_boundary inv owner))) as Hc2.
  rewrite <- Ha in Hc1. rewrite <- Hd in Hc2. rewrite <- Hhw in Hhwlt. rewrite <- Hoa in Hp2, Hoal.
  rewrite <- Hoi in Hp1, Hoil. rewrite <- Hos in Hb0, Hbid. rewrite <- Hos in Hrh.
  assert (Hdis : forall x, x ∈ sd_active_excluded_local_transaction_ids draft ->
    x ∉ sd_in_doubt_excluded_local_transaction_ids draft).
  { rewrite Ha, Hd. intros x (e & Hein & Hea & ->)%sorted_ids_elem Hx2. apply sorted_ids_id in Hx2; [|done..].
    unfold excluded_in_doubt in Hx2. by rewrite Hea in Hx2. }
  split; unfold with_publication; cbn -[draft_descriptor]; try done.
  - unfold typed_uuid_valid. by rewrite Hkind, Hnil.
  - clear - Hb0 Hbid Hlt. unfold LocalTransactionId in *. simpl in *. lia.
  - clear - Hp2 Hoal Hlt. unfold LocalTransactionId in *. simpl in *. lia.
  - clear - Hp1 Hoil Hlt. unfold LocalTransactionId in *. simpl in *. lia.
  - clear - Hb0 Hbid Hlt. unfold LocalTransactionId in *. simpl in *. lia.
Qed.
End draft.

(** ** Publication *)

Lemma owner_creates_snapshot inv owner :
  structure_ok inv -> lr_ok (LookupLocalTransaction inv owner) = true ->
  IsSnapshotOwnerEligible (e_state (lr_entry (LookupLocalTransaction inv owner))) = true ->
  tsr_ok (CreateLocalTransactionSnapshot inv owner) = true.
Proof.
  intros Hs Hl He. unfold CreateLocalTransactionSnapshot.
  rewrite decide_False by (rewrite (proj2 (validate_structure_iff _) Hs); naive_solver).
  rewrite Hl. cbn [negb].
  assert (supported_reader_state (e_state (lr_entry (LookupLocalTransaction inv owner))) = true) as ->.
  { unfold IsSnapshotOwnerEligible in He. apply orb_true_iff in He. rewrite !bool_decide_eq_true in He.
    destruct He as [-> | ->]; done. }
  rewrite compute_horizons_no_snapshots by done. cbn [negb].
  unfold tsr_ok. cbn. apply bool_decide_eq_true_2.
  by destruct (lookup_ok _ _ Hl) as (_ & _ & Hnz).
Qed.

(** The draft a valid owner's publication enters the generation loop with. *)
Definition owner_draft (inv : LocalTransactionInventory) (owner : LocalTransactionId) :=
  draft_descriptor inv (lr_entry (LookupLocalTransaction inv owner)) owner
    (CreateLocalTransactionSnapshot inv owner) (hres_horizons (ComputeLocalTransactionHorizons inv)).

Lemma publish_reaches_loop entropy w inv owner millis :
  structure_ok inv -> lr_ok (LookupLocalTransaction inv owner) = true ->
  IsSnapshotOwnerEligible (e_state (lr_entry (LookupLocalTransaction inv owner))) = true ->
  0 < millis ->
  PublishStatementStableSnapshotVector entropy w inv owner millis =
  publish_attempts entropy w (owner_draft inv owner) millis kGenerationAttempts 0.
Proof.
  intros Hs Hl He Hm. unfold PublishStatementStableSnapshotVector.
  rewrite decide_False by (rewrite (proj2 (validate_structure_iff _) Hs); naive_solver).
  pose proof (so_next_local _ Hs) as Hnl. rewrite decide_False by lia.
  rewrite Hl, He. cbn [negb orb].
  destruct (lookup_ok _ _ Hl) as (Hin & Hid & _). pose proof (structure_entry _ _ Hs Hin) as Hok.
  destruct (identity_valid_kind _ (eo_identity _ _ Hok)) as [Hk Hv].
  destruct (engine_identity_parts _ (eo_engine _ _ Hok)) as [_ H7].
  pose proof (eo_local _ _ Hok) as Hlt. rewrite Hid in Hlt.
  unfold e_uuid in H7. rewrite Hk, Hv, H7.
  rewrite !(bool_decide_eq_false_2 (_ <> _)) by (intros Hx; by apply Hx).
  rewrite bool_decide_eq_false_2 by lia. cbn [negb orb].
  rewrite owner_creates_snapshot by done. rewrite compute_horizons_no_snapshots by done. done.
Qed.

Lemma publish_attempts_free entropy w d millis n i k :
  (forall uuid, tu_kind uuid = uk_object -> IsEngineIdentityUuid (tu_value uuid) = true ->
     SnapshotVectorStructurallyComplete (with_publication uuid d) = true) ->
  (forall j, exists bytes, entropy j = Some bytes /\ uuid_wf (mkUuid bytes)) ->
  millis + i + N.of_nat n <= v7_max_millis + 1 ->
  k < N.of_nat n ->
  w_registry w !! uuid_bytes (tu_value (tur_value
    (GenerateDurableEngineIdentityV7 uk_object (millis + (i + k)) (entropy (i + k))))) = None ->
  exists uuid, w_registry w !! uuid_bytes (tu_value uuid) = None /\
    SnapshotVectorStructurallyComplete (with_publication uuid d) = true /\
    publish_attempts entropy w d millis n i =
      (mkWorld (<[w_next_object w := mkPublished (with_publication uuid d) false false 0]> (w_objects w))
         (<[uuid_bytes (tu_value uuid) := w_next_object w]> (w_registry w))
         (w_leases w) (w_next_object w + 1) (w_next_lease w),
       mkVectorResult MgaOkStatus (with_publication uuid d) DiagnosticRecord_default).
Proof.
  intros Hcomp Hent. revert i k. induction n as [|n IH]; intros i k Hms Hk Hfree; [lia|].
  destruct (Hent i) as (bytes & He & Hwf).
  assert (Hadd : u64_add millis i = millis + i).
  { apply u64_add_small. unfold v7_max_millis in Hms. u64_unfold. lia. }
  cbn [publish_attempts]. rewrite Hadd, He.
  assert (Hgen : GenerateDurableEngineIdentityV7 uk_object (millis + i) (Some bytes) =
    mkTypedUuidResult UuidOkStatus (mkTypedUuid uk_object (v7_layout (millis + i) bytes))
      DiagnosticRecord_default).
  { rewrite generate_durable_cases by done. rewrite decide_False by lia. done. }
  rewrite Hgen. change (tur_ok (mkTypedUuidResult UuidOkStatus ?t ?r)) with true.
  cbn [negb tur_value tu_value].
  destruct (w_registry w !! uuid_bytes (v7_layout (millis + i) bytes)) eqn:Hr.
  - apply (IH (i + 1) (k - 1)); [lia| |].
    + destruct (decide (k = 0)) as [->|]; [|lia]. exfalso.
      rewrite N.add_0_r, He, Hgen in Hfree. cbn [tur_value tu_value] in Hfree. congruence.
    + destruct (decide (k = 0)) as [->|].
      * exfalso. rewrite N.add_0_r, He, Hgen in Hfree. cbn [tur_value tu_value] in Hfree. congruence.
      * by replace (i + 1 + (k - 1)) with (i + k) by lia.
  - destruct (v7_layout_identity (millis + i) _ Hwf) as [_ Hid]. cbn [uuid_bytes] in Hid.
    rewrite Hcomp by done. cbn [negb].
    exists (mkTypedUuid uk_object (v7_layout (millis + i) bytes)).
    split; [exact Hr|]. split; [by apply Hcomp|reflexivity].
Qed.

Lemma publish_loop_succeeds entropy w inv owner millis k :
  structure_ok inv -> counters_u64 inv -> lr_ok (LookupLocalTransaction inv owner) = true ->
  IsSnapshotOwnerEligible (e_state (lr_entry (LookupLocalTransaction inv owner))) = true ->
  millis + 31 <= v7_max_millis ->
  (forall i, exists bytes, entropy i = Some bytes /\ uuid_wf (mkUuid bytes)) ->
  k < 32 ->
  w_registry w !! uuid_bytes (tu_value (tur_value
    (GenerateDurableEngineIdentityV7 uk_object (millis + k) (entropy k)))) = None ->
  exists uuid, w_registry w !! uuid_bytes (tu_value uuid) = None /\
    SnapshotVectorStructurallyComplete (with_publication uuid (owner_draft inv owner)) = true /\
    publish_attempts entropy w (owner_draft inv owner) millis kGenerationAttempts 0 =
      (mkWorld (<[w_next_object w := mkPublished (with_publication uuid (owner_draft inv owner)) false false 0]>
           (w_objects w))
         (<[uuid_bytes (tu_value uuid) := w_next_object w]> (w_registry w))
         (w_leases w) (w_next_object w + 1) (w_next_lease w),
       mkVectorResult MgaOkStatus (with_publication uuid (owner_draft inv owner)) DiagnosticRecord_default).
Proof.
  intros Hs Hu Hl He Hms Hent Hk Hfree.
  apply (publish_attempts_free entropy w (owner_draft inv owner) millis kGenerationAttempts 0 k).
  - intros uuid Hkind Hid. apply draft_complete; try done. by apply owner_creates_snapshot.
  - done.
  - unfold kGenerationAttempts. lia.
  - unfold kGenerationAttempts. lia.
  - by rewrite N.add_0_l.
Qed.
