(* ===== verification/SnapshotWorld.v ===== *)
(** * The published snapshot registry: invariant and retention *)

From S2P Require Import Prelude Platform Uuid TransactionState Inventory Horizon RowVersion Snapshot.
From S2P Require Import InventoryTheorems InventorySteps UuidFacts SnapshotFacts.

(** ** Runs of the registry *)

Inductive snapshot_op :=
| sop_publish (entropy : N -> option (list N)) (inv : LocalTransactionInventory)
    (owner : LocalTransactionId) (millis : N)
| sop_retain (uuid : TypedUuid)
| sop_release_pin (lease : N)
| sop_release (uuid : TypedUuid)
| sop_revoke (uuid : TypedUuid)
| sop_revoke_transaction (uuid : TypedUuid) (id : LocalTransactionId).

Definition run_snapshot_op (w : snapshot_world) (op : snapshot_op) : snapshot_world :=
  match op with
  | sop_publish entropy inv owner millis =>
    (PublishStatementStableSnapshotVector entropy w inv owner millis).1
  | sop_retain uuid => (RetainPublishedSnapshotVector w uuid).1
  | sop_release_pin lease => pin_Release w (Some lease)
  | sop_release uuid => ReleasePublishedSnapshotVector w uuid
  | sop_revoke uuid => RevokePublishedSnapshotVector w uuid
  | sop_revoke_transaction uuid id => RevokePublishedSnapshotVectorsForTransaction w uuid id
  end.

Definition run_snapshot_ops (w : snapshot_world) (ops : list snapshot_op) : snapshot_world :=
  foldl run_snapshot_op w ops.

(** ** The invariant *)

Definition key_of (o : PublishedSnapshotVector) : list N :=
  uuid_bytes (tu_value (sd_snapshot_uuid (pv_descriptor o))).

(** Number of live leases on an object. *)
Definition lease_count (leases : gmap N N) (a : N) : N :=
  N.of_nat (size (filter (fun p : N * N => p.2 = a) leases)).

Record world_ok (w : snapshot_world) : Prop := {
  wo_registry : forall key a, w_registry w !! key = Some a ->
    exists o, w_objects w !! a = Some o /\ key_of o = key /\
      SnapshotVectorStructurallyComplete (pv_descriptor o) = true /\
      (pv_publication_released o = true -> pv_pins o <> 0);
  wo_leases : forall l a, w_leases w !! l = Some a ->
    exists o, w_objects w !! a = Some o /\ w_registry w !! key_of o = Some a;
  wo_pins : forall a o, w_objects w !! a = Some o ->
    pv_pins o = lease_count (w_leases w) a /\ pv_pins o <= u64_max;
  wo_fresh_object : forall a, w_next_object w <= a -> w_objects w !! a = None;
  wo_fresh_lease : forall l, w_next_lease w <= l -> w_leases w !! l = None }.

Lemma lease_count_insert leases l a a' :
  leases !! l = None ->
  lease_count (<[l := a]> leases) a' = lease_count leases a' + (if decide (a = a') then 1 else 0).
Proof.
  intros Hl. unfold lease_count. case_decide as Ha.
  - rewrite map_filter_insert_True by done. rewrite map_size_insert_None; [lia|].
    apply map_lookup_filter_None. by left.
  - rewrite map_filter_insert_False by done. rewrite delete_id by done. lia.
Qed.

Lemma lease_count_delete leases l a a' :
  leases !! l = Some a ->
  lease_count leases a' = lease_count (delete l leases) a' + (if decide (a = a') then 1 else 0).
Proof.
  intros Hl. rewrite <- (insert_delete_id leases l a Hl) at 1.
  apply lease_count_insert, lookup_delete_eq.
Qed.

Lemma empty_world_ok : world_ok empty_world.
Proof.
  split; simpl; intros *; try (intros H; by rewrite lookup_empty in H); intros; apply lookup_empty.
Qed.

(** Updating one object without touching its descriptor or pins. *)
Lemma set_object_ok w a o o' :
  world_ok w -> w_objects w !! a = Some o -> pv_descriptor o' = pv_descriptor o ->
  pv_pins o' = pv_pins o ->
  (pv_publication_released o' = true -> w_registry w !! key_of o = Some a -> pv_pins o <> 0) ->
  world_ok (set_object a o' w).
Proof.
  intros Hw Ho Hd Hp Hr. assert (Hk : key_of o' = key_of o) by (unfold key_of; by rewrite Hd).
  split; simpl.
  - intros key b Hb. destruct (wo_registry _ Hw key b Hb) as (x & Hx & Hkx & Hc & Hrel).
    destruct (decide (a = b)) as [<-|Hne].
    + simplify_eq. exists o'. rewrite lookup_insert_eq, Hk, Hd, Hp. split_and!; auto.
    + exists x. rewrite lookup_insert_ne by done. auto.
  - intros l b Hb. destruct (wo_leases _ Hw l b Hb) as (x & Hx & Hkx).
    destruct (decide (a = b)) as [<-|Hne].
    + simplify_eq. exists o'. by rewrite lookup_insert_eq, Hk.
    + exists x. by rewrite lookup_insert_ne.
  - intros b x. destruct (decide (a = b)) as [<-|Hne].
    + rewrite lookup_insert_eq. intros; simplify_eq. rewrite Hp. by apply (wo_pins _ Hw).
    + rewrite lookup_insert_ne by done. apply (wo_pins _ Hw).
  - intros b Hb. rewrite lookup_insert_ne; [by apply (wo_fresh_object _ Hw)|].
    intros <-. by rewrite (wo_fresh_object _ Hw) in Ho.
  - apply (wo_fresh_lease _ Hw).
Qed.

(** Erasing the slot of an object nobody pins. *)
Lemma erase_key_ok w key a o :
  world_ok w -> w_registry w !! key = Some a -> w_objects w !! a = Some o -> pv_pins o = 0 ->
  world_ok (erase_key key w).
Proof.
  intros Hw Hk Ho Hp. destruct (wo_registry _ Hw key a Hk) as (o' & Ho' & Hkey & _). simplify_eq.
  split; simpl; try apply Hw.
  - intros k b [_ Hb]%lookup_delete_Some. by apply (wo_registry _ Hw).
  - intros l b Hl. destruct (wo_leases _ Hw l b Hl) as (x & Hx & Hkx). exists x. split; [done|].
    apply lookup_delete_Some. split; [|done]. intros Heq.
    assert (a = b) as <- by congruence.
    destruct (wo_pins _ Hw a o Ho) as [Hc _]. rewrite (lease_count_delete _ _ _ a Hl) in Hc.
    rewrite decide_True in Hc by done. lia.
Qed.

Lemma find_published_Some w key a o :
  find_published w key = Some (a, o) -> w_registry w !! key = Some a /\ w_objects w !! a = Some o.
Proof.
  unfold find_published. destruct (w_registry w !! key) as [b|]; [|done].
  destruct (w_objects w !! b) eqn:Hb; [|done]. by intros [= <- <-].
Qed.

Lemma leased_object_Some w l a o :
  leased_object w l = Some (a, o) -> w_leases w !! l = Some a /\ w_objects w !! a = Some o.
Proof.
  unfold leased_object. destruct (w_leases w !! l) as [b|]; [|done].
  destruct (w_objects w !! b) eqn:Hb; [|done]. by intros [= <- <-].
Qed.

(** ** Every operation keeps the invariant *)

Lemma retain_ok w uuid : world_ok w -> world_ok (RetainPublishedSnapshotVector w uuid).1.
Proof.
  intros Hw. unfold RetainPublishedSnapshotVector. case_match eqn:Huuid; [done|]. clear Huuid.
  destruct (find_published _ _) as [[a o]|] eqn:Hf; [|done]. apply find_published_Some in Hf as [Hr Ho].
  destruct (_ || _) eqn:Hg; [done|]. cbn [fst]. bool_prop.
  pose proof (wo_fresh_lease _ Hw (w_next_lease w) ltac:(lia)) as Hl.
  destruct (wo_registry _ Hw _ _ Hr) as (x & Hx & Hkey & Hcomp & _).
  assert (x = o) as -> by congruence. clear Hx.
  destruct (wo_pins _ Hw a o Ho) as [Hc Hmax].
  assert (Hadd : u64_add (pv_pins o) 1 = pv_pins o + 1) by (apply u64_add_small; u64_unfold; lia).
  split; simpl.
  - intros key b Hb. destruct (wo_registry _ Hw key b Hb) as (y & Hy & Hky & Hcy & Hry).
    destruct (decide (a = b)) as [<-|Hne]; [|exists y; rewrite lookup_insert_ne by done; auto].
    simplify_eq. eexists. rewrite lookup_insert_eq. split_and!; try done. simpl. rewrite Hadd. lia.
  - intros l b. destruct (decide (w_next_lease w = l)) as [<-|Hne].
    + rewrite lookup_insert_eq. intros; simplify_eq. eexists. rewrite lookup_insert_eq. split; [done|].
      unfold key_of in *. simpl. congruence.
    + rewrite lookup_insert_ne by done. intros Hb. destruct (wo_leases _ Hw l b Hb) as (y & Hy & Hky).
      destruct (decide (a = b)) as [<-|Hne']; [|exists y; by rewrite lookup_insert_ne].
      simplify_eq. eexists. rewrite lookup_insert_eq. by split.
  - intros b y. rewrite lease_count_insert by done.
    destruct (decide (a = b)) as [<-|Hne].
    + rewrite lookup_insert_eq. intros; simplify_eq. simpl. rewrite Hadd. u64_unfold. split; lia.
    + rewrite lookup_insert_ne by done. intros Hy. destruct (wo_pins _ Hw b y Hy). split; [lia|done].
  - intros b Hb. rewrite lookup_insert_ne; [by apply (wo_fresh_object _ Hw)|].
    intros <-. by rewrite (wo_fresh_object _ Hw) in Ho.
  - intros l Hb. rewrite lookup_insert_ne by lia. apply (wo_fresh_lease _ Hw). lia.
Qed.

(** The state between the decrement and the erasure of [~Lease]. *)
Definition drop_lease (w : snapshot_world) (l a : N) (o : PublishedSnapshotVector) : snapshot_world :=
  mkWorld (<[a := set_pins (u64_sub (pv_pins o) 1) o]> (w_objects w)) (w_registry w)
    (delete l (w_leases w)) (w_next_object w) (w_next_lease w).

Lemma destroy_lease_ok w l : world_ok w -> world_ok (destroy_lease w l).
Proof.
  intros Hw. unfold destroy_lease.
  destruct (leased_object w l) as [[a o]|] eqn:Hf; [|done]. apply leased_object_Some in Hf as [Hl Ho].
  destruct (wo_leases _ Hw l a Hl) as (x & Hx & Hkx).
  assert (x = o) as -> by congruence. clear Hx.
  destruct (wo_pins _ Hw a o Ho) as [Hc Hmax].
  pose proof (lease_count_delete _ _ _ a Hl) as Hdel. rewrite decide_True in Hdel by done.
  assert (Hsub : u64_sub (pv_pins o) 1 = pv_pins o - 1) by (apply u64_sub_small; u64_unfold; lia).
  set (o' := set_pins (u64_sub (pv_pins o) 1) o). cbv zeta.
  change (world_ok (if pv_publication_released o' && bool_decide (pv_pins o' = 0)
    then erase_key (key_of o) (drop_lease w l a o) else drop_lease w l a o)).
  assert (Hcount : forall b y, w_objects (drop_lease w l a o) !! b = Some y ->
    pv_pins y = lease_count (w_leases (drop_lease w l a o)) b /\ pv_pins y <= u64_max).
  { intros b y. simpl. destruct (decide (a = b)) as [<-|Hne].
    - rewrite lookup_insert_eq. intros; simplify_eq. simpl. rewrite Hsub. split; lia.
    - rewrite lookup_insert_ne by done. intros Hy. destruct (wo_pins _ Hw b y Hy) as [Hcy ?].
      rewrite (lease_count_delete _ _ _ b Hl) in Hcy. rewrite decide_False in Hcy by done. split; [lia|done]. }
  assert (Hleft : forall m b, delete l (w_leases w) !! m = Some b ->
    exists y, w_objects (drop_lease w l a o) !! b = Some y /\ w_registry w !! key_of y = Some b).
  { intros m b [_ Hb]%lookup_delete_Some. destruct (wo_leases _ Hw m b Hb) as (y & Hy & Hky). simpl.
    destruct (decide (a = b)) as [<-|Hne]; [|exists y; by rewrite lookup_insert_ne].
    simplify_eq. eexists. by rewrite lookup_insert_eq. }
  assert (Hother : forall b, w_next_object w <= b -> w_objects (drop_lease w l a o) !! b = None).
  { intros b Hb. simpl. rewrite lookup_insert_ne; [by apply (wo_fresh_object _ Hw)|].
    intros <-. by rewrite (wo_fresh_object _ Hw) in Ho. }
  assert (Hfl : forall m, w_next_lease w <= m -> delete l (w_leases w) !! m = None).
  { intros m Hm. apply lookup_delete_None. right. by apply (wo_fresh_lease _ Hw). }
  destruct (pv_publication_released o' && bool_decide (pv_pins o' = 0)) eqn:Herase.
  - bool_prop. split; simpl; try done.
    + intros k b [Hne Hb]%lookup_delete_Some. destruct (wo_registry _ Hw k b Hb) as (y & Hy & Hky & Hr).
      assert (a <> b) by (intros <-; simplify_eq). exists y. rewrite lookup_insert_ne by done. auto.
    + intros m b Hb. destruct (Hleft m b Hb) as (y & Hy & Hky). exists y. split; [done|].
      apply lookup_delete_Some. split; [|done]. intros Heq.
      assert (a = b) as <- by congruence.
      pose proof (lease_count_delete _ _ _ a Hb) as Hd2. rewrite decide_True in Hd2 by done.
      destruct (Hcount a o') as [Hcc _]; [simpl; by rewrite lookup_insert_eq|]. simpl in Hcc. subst o'. simpl in *. lia.
  - split; simpl; try done. intros k b Hb. destruct (wo_registry _ Hw k b Hb) as (y & Hy & Hky & Hcy & Hr).
    destruct (decide (a = b)) as [<-|Hne]; [|exists y; rewrite lookup_insert_ne by done; auto].
    simplify_eq. exists o'. rewrite lookup_insert_eq. split_and!; try done.
    intros Hrel. rewrite Hrel in Herase. simpl in Herase. by bool_prop.
Qed.

Lemma release_ok w uuid : world_ok w -> world_ok (ReleasePublishedSnapshotVector w uuid).
Proof.
  intros Hw. unfold ReleasePublishedSnapshotVector. case_match eqn:Hg; [done|]. clear Hg.
  destruct (find_published _ _) as [[a o]|] eqn:Hf; [|done]. apply find_published_Some in Hf as [Hr Ho].
  destruct (wo_registry _ Hw _ _ Hr) as (x & Hx & Hkey & Hcomp & Hrel).
  assert (x = o) as -> by congruence.
  case_decide as Hp; [|by apply (set_object_ok w a o)].
  (* erasing first and marking afterwards gives the same world *)
  change (world_ok (set_object a (set_released o) (erase_key (uuid_bytes (tu_value uuid)) w))).
  apply (set_object_ok _ a o); try done; [by eapply erase_key_ok|].
  intros _. simpl. rewrite Hkey, lookup_delete_eq. done.
Qed.

Lemma revoke_object_ok w a o :
  world_ok w -> w_objects w !! a = Some o -> world_ok (set_object a (set_revoked o) w).
Proof.
  intros Hw Ho. apply (set_object_ok w a o); try done. simpl. intros Hr Hreg.
  destruct (wo_registry _ Hw _ _ Hreg) as (x & Hx & _ & _ & Hrel). simplify_eq. auto.
Qed.

Lemma revoke_ok w uuid : world_ok w -> world_ok (RevokePublishedSnapshotVector w uuid).
Proof.
  intros Hw. unfold RevokePublishedSnapshotVector. case_match eqn:Hg; [done|]. clear Hg.
  destruct (find_published _ _) as [[a o]|] eqn:Hf; [|done]. apply find_published_Some in Hf as [_ Ho].
  by apply revoke_object_ok.
Qed.

Lemma revoke_slot_ok uuid id w slot : world_ok w -> world_ok (revoke_slot uuid id w slot).
Proof.
  intros Hw. unfold revoke_slot. destruct (w_objects w !! slot.2) eqn:Ho; [|done].
  case_match; [by apply revoke_object_ok|done].
Qed.

Lemma revoke_transaction_ok w uuid id :
  world_ok w -> world_ok (RevokePublishedSnapshotVectorsForTransaction w uuid id).
Proof.
  intros Hw. unfold RevokePublishedSnapshotVectorsForTransaction. case_match eqn:Hg; [done|]. clear Hg.
  generalize (registry_in_order w). intros slots. revert w Hw.
  induction slots as [|s slots IH]; intros w Hw; [done|]. simpl. by apply IH, revoke_slot_ok.
Qed.

(** What a publication attempt can return. *)
Lemma publish_attempts_cases entropy w d millis n attempt :
  let r := publish_attempts entropy w d millis n attempt in
  (r.1 = w /\ svr_ok r.2 = false) \/
  exists uuid, let d' := with_publication uuid d in
    w_registry w !! uuid_bytes (tu_value uuid) = None /\
    SnapshotVectorStructurallyComplete d' = true /\
    r = (mkWorld (<[w_next_object w := mkPublished d' false false 0]> (w_objects w))
           (<[uuid_bytes (tu_value uuid) := w_next_object w]> (w_registry w))
           (w_leases w) (w_next_object w + 1) (w_next_lease w),
         mkVectorResult MgaOkStatus d' DiagnosticRecord_default).
Proof.
  revert attempt. induction n as [|n IH]; intros attempt; cbn -[GenerateDurableEngineIdentityV7]; [by left|].
  destruct (tur_ok _) eqn:Hg; cbn [negb].
  2:{ left. split; [done|]. unfold tur_ok in Hg. unfold svr_ok. simpl. by rewrite Hg. }
  destruct (w_registry w !! _) eqn:Hr; [apply IH|].
  destruct (SnapshotVectorStructurallyComplete _) eqn:Hc; cbn [negb]; [|by left].
  right. eexists. split_and!; [exact Hr|exact Hc|reflexivity].
Qed.

Lemma publish_cases entropy w inv owner millis :
  let r := PublishStatementStableSnapshotVector entropy w inv owner millis in
  (r.1 = w /\ svr_ok r.2 = false) \/
  exists d uuid, let d' := with_publication uuid d in
    w_registry w !! uuid_bytes (tu_value uuid) = None /\
    SnapshotVectorStructurallyComplete d' = true /\
    r = (mkWorld (<[w_next_object w := mkPublished d' false false 0]> (w_objects w))
           (<[uuid_bytes (tu_value uuid) := w_next_object w]> (w_registry w))
           (w_leases w) (w_next_object w + 1) (w_next_lease w),
         mkVectorResult MgaOkStatus d' DiagnosticRecord_default).
Proof.
  unfold PublishStatementStableSnapshotVector. cbv zeta.
  repeat (match goal with |- context [if ?b then _ else _] => destruct b eqn:? end;
    [left; split; [done|]; unfold svr_ok; simpl; by rewrite ?andb_false_r|]).
  destruct (publish_attempts_cases entropy w (draft_descriptor inv (lr_entry (LookupLocalTransaction inv owner))
    owner (CreateLocalTransactionSnapshot inv owner)
    (hres_horizons (ComputeLocalTransactionHorizons inv))) millis kGenerationAttempts 0) as [H|(uuid & H)].
  - by left.
  - right. eauto.
Qed.

Lemma publish_ok entropy w inv owner millis :
  world_ok w -> world_ok (PublishStatementStableSnapshotVector entropy w inv owner millis).1.
Proof.
  intros Hw. destruct (publish_cases entropy w inv owner millis) as [[-> _]|(d & uuid & Hr & Hc & ->)]; [done|].
  pose proof (wo_fresh_object _ Hw (w_next_object w) ltac:(lia)) as Hfresh.
  assert (Hnolease : lease_count (w_leases w) (w_next_object w) = 0).
  { unfold lease_count.
    assert (filter (fun p : N * N => p.2 = w_next_object w) (w_leases w) = ∅) as ->; [|by rewrite map_size_empty].
    apply map_empty. intros l. apply map_lookup_filter_None. right. intros a Hl Ha. simpl in *. subst a.
    destruct (wo_leases _ Hw l _ Hl) as (o & Ho & _). congruence. }
  split; simpl.
  - intros key a. destruct (decide (uuid_bytes (tu_value uuid) = key)) as [<-|Hne].
    + rewrite lookup_insert_eq. intros [= <-]. eexists. rewrite lookup_insert_eq. split_and!; try done.
    + rewrite lookup_insert_ne by done. intros Ha. destruct (wo_registry _ Hw key a Ha) as (o & Ho & ?).
      exists o. rewrite lookup_insert_ne by congruence. done.
  - intros l a Hl. destruct (wo_leases _ Hw l a Hl) as (o & Ho & Hk). exists o.
    rewrite lookup_insert_ne by congruence. split; [done|].
    rewrite lookup_insert_ne by congruence. done.
  - intros a o. destruct (decide (w_next_object w = a)) as [<-|Hne].
    + rewrite lookup_insert_eq. intros [= <-]. simpl. rewrite Hnolease. u64_unfold. split; [done|lia].
    + rewrite lookup_insert_ne by done. apply (wo_pins _ Hw).
  - intros a Ha. rewrite lookup_insert_ne by lia. apply (wo_fresh_object _ Hw). lia.
  - apply (wo_fresh_lease _ Hw).
Qed.

Lemma run_snapshot_op_ok w op : world_ok w -> world_ok (run_snapshot_op w op).
Proof.
  intros Hw. destruct op; simpl.
  - by apply publish_ok.
  - by apply retain_ok.
  - by apply destroy_lease_ok.
  - by apply release_ok.
  - by apply revoke_ok.
  - by apply revoke_transaction_ok.
Qed.

Lemma run_snapshot_ops_ok w ops : world_ok w -> world_ok (run_snapshot_ops w ops).
Proof.
  revert w. induction ops as [|op ops IH]; intros w Hw; [done|]. simpl. by apply IH, run_snapshot_op_ok.
Qed.

(** ** What a step can do to a pinned object *)

(** The operation invalidates descriptor [d] explicitly. *)
Definition op_revokes (op : snapshot_op) (d : SnapshotVectorDescriptor) : Prop :=
  match op with
  | sop_revoke uuid => uuid_bytes (tu_value uuid) = uuid_bytes (tu_value (sd_snapshot_uuid d))
  | sop_revoke_transaction uuid id =>
    sd_owning_transaction d = id /\ tu_value (sd_owning_transaction_uuid d) = tu_value uuid
  | _ => False
  end.

(** Object [a] keeps its descriptor, and is newly revoked only if [P] allows. *)
Definition object_kept (P : SnapshotVectorDescriptor -> Prop) (w w' : snapshot_world) : Prop :=
  forall a o, w_objects w !! a = Some o ->
  exists o', w_objects w' !! a = Some o' /\ pv_descriptor o' = pv_descriptor o /\
    (pv_revoked o' = true -> pv_revoked o = true \/ P (pv_descriptor o)).

Lemma object_kept_refl P w : object_kept P w w.
Proof. intros a o Ho. eauto. Qed.

Lemma object_kept_trans P w w' w'' : object_kept P w w' -> object_kept P w' w'' -> object_kept P w w''.
Proof.
  intros H1 H2 a o Ho. destruct (H1 a o Ho) as (o1 & Ho1 & Hd1 & Hr1).
  destruct (H2 a o1 Ho1) as (o2 & Ho2 & Hd2 & Hr2). exists o2. rewrite Hd2, Hd1. rewrite Hd1 in Hr2.
  naive_solver.
Qed.

Lemma object_kept_set P w w' a o o' :
  w_objects w !! a = Some o -> w_objects w' = <[a := o']> (w_objects w) ->
  pv_descriptor o' = pv_descriptor o ->
  (pv_revoked o' = true -> pv_revoked o = true \/ P (pv_descriptor o)) -> object_kept P w w'.
Proof.
  intros Ho Hw Hd Hr b x Hx. rewrite Hw. destruct (decide (a = b)) as [<-|Hne].
  - simplify_eq. exists o'. by rewrite lookup_insert_eq.
  - exists x. rewrite lookup_insert_ne by done. auto.
Qed.

Lemma revoke_slots_kept uuid id slots w :
  object_kept (op_revokes (sop_revoke_transaction uuid id)) w (foldl (revoke_slot uuid id) w slots) /\
  w_leases (foldl (revoke_slot uuid id) w slots) = w_leases w.
Proof.
  revert w. induction slots as [|s slots IH]; intros w; simpl; [split; [apply object_kept_refl|done]|].
  destruct (IH (revoke_slot uuid id w s)) as [Hk ->].
  assert (Hs : object_kept (op_revokes (sop_revoke_transaction uuid id)) w (revoke_slot uuid id w s) /\
               w_leases (revoke_slot uuid id w s) = w_leases w).
  { unfold revoke_slot. destruct (w_objects w !! s.2) as [o|] eqn:Ho; [|split; [apply object_kept_refl|done]].
    destruct (revoked_by uuid id o) eqn:Hb; [|split; [apply object_kept_refl|done]].
    unfold revoked_by in Hb. bool_prop. split; [|done].
    eapply object_kept_set; [done|reflexivity|done|]. intros _. right. by split. }
  destruct Hs as [Hs ->]. split; [by eapply object_kept_trans|done].
Qed.

Lemma run_op_kept w op :
  world_ok w ->
  object_kept (op_revokes op) w (run_snapshot_op w op) /\
  (forall l a, w_leases w !! l = Some a -> op <> sop_release_pin l ->
     w_leases (run_snapshot_op w op) !! l = Some a).
Proof.
  intros Hw. destruct op as [entropy inv owner millis|uuid|l|uuid|uuid|uuid id]; simpl.
  - destruct (publish_cases entropy w inv owner millis) as [[-> _]|(d & uuid & _ & _ & ->)];
      [split; [apply object_kept_refl|done]|]. split; [|done].
    intros a o Ho. exists o. simpl. rewrite lookup_insert_ne; [auto|].
    intros <-. by rewrite (wo_fresh_object _ Hw) in Ho.
  - unfold RetainPublishedSnapshotVector. case_match eqn:Hg; [split; [apply object_kept_refl|done]|]. clear Hg.
    destruct (find_published _ _) as [[a o]|] eqn:Hf; [|split; [apply object_kept_refl|done]].
    apply find_published_Some in Hf as [_ Ho]. case_match; [split; [apply object_kept_refl|done]|]. split.
    + eapply object_kept_set; [exact Ho|reflexivity|done|by left].
    + intros l b Hl _. simpl. rewrite lookup_insert_ne; [done|]. intros <-.
      by rewrite (wo_fresh_lease _ Hw) in Hl.
  - unfold destroy_lease. destruct (leased_object w l) as [[a o]|] eqn:Hf; [|split; [apply object_kept_refl|done]].
    apply leased_object_Some in Hf as [_ Ho]. split.
    + apply (object_kept_set _ w _ a o (set_pins (u64_sub (pv_pins o) 1) o));
        [done|by case_match|done|by left].
    + intros m b Hm Hne. assert (l <> m) by congruence.
      case_match; simpl; by rewrite lookup_delete_ne.
  - unfold ReleasePublishedSnapshotVector. case_match eqn:Hg; [split; [apply object_kept_refl|done]|]. clear Hg.
    destruct (find_published _ _) as [[a o]|] eqn:Hf; [|split; [apply object_kept_refl|done]].
    apply find_published_Some in Hf as [_ Ho]. split; [|intros m b Hm _; by case_decide].
    apply (object_kept_set _ w _ a o (set_released o)); [done|by case_decide|done|by left].
  - unfold RevokePublishedSnapshotVector. case_match eqn:Hg; [split; [apply object_kept_refl|done]|]. clear Hg.
    destruct (find_published _ _) as [[a o]|] eqn:Hf; [|split; [apply object_kept_refl|done]].
    apply find_published_Some in Hf as [Hr Ho]. split; [|done].
    apply (object_kept_set _ w _ a o (set_revoked o)); [done..|]. intros _. right. simpl.
    destruct (wo_registry _ Hw _ _ Hr) as (x & Hx & Hk & _). simplify_eq. symmetry. exact Hk.
  - unfold RevokePublishedSnapshotVectorsForTransaction. case_match eqn:Hg; [split; [apply object_kept_refl|done]|]. clear Hg.
    destruct (revoke_slots_kept uuid id (registry_in_order w) w) as [Hk ->]. by split.
Qed.

(** A lease left alone still reaches its descriptor. *)
Lemma pin_survives w ops l a o :
  world_ok w -> leased_object w l = Some (a, o) -> pv_revoked o = false ->
  (forall op, op ∈ ops -> op <> sop_release_pin l /\ ~ op_revokes op (pv_descriptor o)) ->
  exists o', leased_object (run_snapshot_ops w ops) l = Some (a, o') /\
    pv_descriptor o' = pv_descriptor o /\ pv_revoked o' = false.
Proof.
  revert w o. induction ops as [|op ops IH]; intros w o Hw Hl Hr Hops; [eauto|]. simpl.
  destruct (Hops op ltac:(by left)) as [Hne Hnr].
  destruct (run_op_kept w op Hw) as [Hkept Hlease]. apply leased_object_Some in Hl as [Hla Ho].
  destruct (Hkept a o Ho) as (o1 & Ho1 & Hd1 & Hr1).
  destruct (IH (run_snapshot_op w op) o1) as (o2 & Hl2 & Hd2 & Hr2).
  - by apply run_snapshot_op_ok.
  - unfold leased_object. by rewrite (Hlease l a Hla Hne), Ho1.
  - destruct (pv_revoked o1); [|done]. destruct (Hr1 eq_refl) as [?|?]; [congruence|done].
  - rewrite Hd1. intros op' Hop'. apply Hops. by right.
  - exists o2. rewrite Hd2, Hd1. done.
Qed.

(** ** Retention horizons *)

Lemma collect_horizons_in w inv slots hs key a o :
  collect_horizons w inv slots = inr hs -> (key, a) ∈ slots -> w_objects w !! a = Some o ->
  pv_revoked o = false -> owner_in_inventory inv (pv_descriptor o) = true ->
  sd_retention_horizon_transaction (pv_descriptor o) ∈ hs.
Proof.
  revert hs. induction slots as [|[k b] slots IH]; intros hs H Hin Ho Hr Hown; [by apply elem_of_nil in Hin|].
  simpl in H. apply elem_of_cons in Hin as [Heq|Hin].
  - simplify_eq. rewrite Ho, Hr, Hown in H. simpl in H. case_decide; [done|].
    destruct (collect_horizons w inv slots); simplify_eq. by left.
  - destruct (w_objects w !! b) as [x|]; [|by apply IH].
    destruct (pv_revoked x); [by apply IH|]. destruct (owner_in_inventory inv (pv_descriptor x)); simpl in H; [|by apply IH].
    case_decide; [done|]. destruct (collect_horizons w inv slots) eqn:E; simplify_eq. right. by apply IH.
Qed.

Lemma collect_horizons_error w inv slots e :
  collect_horizons w inv slots = inl e -> status_ok (svr_status e) = false.
Proof.
  revert e. induction slots as [|[k b] slots IH]; intros e H; simpl in H; [done|].
  destruct (w_objects w !! b) as [x|]; [|auto]. destruct (pv_revoked x); [auto|].
  destruct (negb _); [auto|]. case_decide; [by simplify_eq|].
  destruct (collect_horizons w inv slots) eqn:E; simplify_eq. auto.
Qed.

Lemma registry_in_order_elem w key a : w_registry w !! key = Some a -> (key, a) ∈ registry_in_order w.
Proof. intros H. unfold registry_in_order. rewrite merge_sort_Permutation. by apply elem_of_map_to_list. Qed.

Lemma horizons_cover w inv l a o :
  world_ok w -> leased_object w l = Some (a, o) -> pv_revoked o = false ->
  owner_in_inventory inv (pv_descriptor o) = true ->
  phr_ok (PublishedSnapshotRetentionHorizons w inv) = true ->
  sd_retention_horizon_transaction (pv_descriptor o) ∈ phr_horizons (PublishedSnapshotRetentionHorizons w inv).
Proof.
  intros Hw Hl Hr Hown. unfold PublishedSnapshotRetentionHorizons.
  case_decide; [done|]. apply leased_object_Some in Hl as [Hla Ho].
  destruct (wo_leases _ Hw l a Hla) as (x & Hx & Hk). simplify_eq.
  destruct (collect_horizons _ _ _) as [e|hs] eqn:Hc.
  - unfold phr_ok. simpl. by rewrite (collect_horizons_error _ _ _ _ Hc).
  - intros _. simpl. eapply collect_horizons_in; [done| |done..]. by apply registry_in_order_elem.
Qed.
