(* ===== verification/CleanupHorizon.v ===== *)
(** * The authoritative cleanup horizon service

    Models [transaction_cleanup_horizon_service.{hpp,cpp}] of
    [src/project/src/transaction/mga]: the horizon below which storage may reclaim
    row versions, with the blockers and evidence it reports.  The published
    snapshot registry the service consults is the [snapshot_world] argument. *)

From S2P Require Import Prelude Platform TransactionState Inventory Horizon RowVersion Snapshot.

Inductive CleanupHorizonBlockerKind :=
| bk_active_transaction | bk_active_snapshot | bk_unresolved_outcome | bk_always_active_session
| bk_inventory_authority | bk_unknown.

Record CleanupHorizonEvidenceField := mkEvidenceField { ef_key : string; ef_value : string }.

Record CleanupHorizonBlocker := mkBlocker {
  bl_kind : CleanupHorizonBlockerKind;
  bl_local_transaction_id : LocalTransactionId;
  bl_stable_name : string;
  bl_observed_state : string;
  bl_authoritative : bool }.

Record AlwaysActiveSessionTransactionBinding := mkBinding {
  ab_stable_session_id : string;
  ab_current_local_transaction_id : LocalTransactionId;
  ab_authoritative : bool }.

Record AuthoritativeCleanupHorizonRequest := mkCleanupHorizonRequest {
  chr_inventory : LocalTransactionInventory;
  chr_inventory_authoritative : bool;
  chr_inventory_complete : bool;
  chr_active_snapshot_horizons : list LocalTransactionId;
  chr_active_snapshot_inventory_authoritative : bool;
  chr_always_in_transaction_policy : bool;
  chr_always_active_session_inventory_authoritative : bool;
  chr_always_active_sessions : list AlwaysActiveSessionTransactionBinding }.

Record AuthoritativeCleanupHorizonResult := mkCleanupHorizonResult {
  chs_status : Status;
  chs_horizons : LocalTransactionHorizons;
  chs_cleanup_horizon : LocalTransactionId;
  chs_blockers : list CleanupHorizonBlocker;
  chs_evidence : list CleanupHorizonEvidenceField;
  chs_diagnostic : DiagnosticRecord;
  chs_cleanup_horizon_authoritative : bool }.

Definition chs_ok (r : AuthoritativeCleanupHorizonResult) : bool :=
  status_ok (chs_status r) && chs_cleanup_horizon_authoritative r.

Definition CleanupHorizonBlockerKindName (k : CleanupHorizonBlockerKind) : string :=
  match k with
  | bk_active_transaction => "active_transaction"
  | bk_active_snapshot => "active_snapshot"
  | bk_unresolved_outcome => "unresolved_outcome"
  | bk_always_active_session => "always_active_session"
  | bk_inventory_authority => "inventory_authority"
  | bk_unknown => "unknown"
  end.

Definition MakeCleanupHorizonServiceDiagnostic : Status -> string -> string -> string -> DiagnosticRecord :=
  MakeComponentDiagnostic "transaction.mga.cleanup_horizon".

Definition BoolText (value : bool) : string := if value then "true" else "false".

(** The fields [AddBaseEvidence] pushes, in order. *)
Definition AddBaseEvidence (r : AuthoritativeCleanupHorizonRequest) : list CleanupHorizonEvidenceField :=
  [mkEvidenceField "cleanup_horizon_service" "dpc030_authoritative_cleanup_horizon_v1";
   mkEvidenceField "authority_source" "durable_mga_transaction_inventory";
   mkEvidenceField "inventory_authoritative" (BoolText (chr_inventory_authoritative r));
   mkEvidenceField "inventory_complete" (BoolText (chr_inventory_complete r));
   mkEvidenceField "active_snapshot_inventory_authoritative"
     (BoolText (chr_active_snapshot_inventory_authoritative r));
   mkEvidenceField "always_in_transaction_policy" (BoolText (chr_always_in_transaction_policy r));
   mkEvidenceField "always_active_session_inventory_authoritative"
     (BoolText (chr_always_active_session_inventory_authoritative r));
   mkEvidenceField "parser_finality_authority" "false";
   mkEvidenceField "client_state_authority" "false";
   mkEvidenceField "timestamp_ordering_authority" "false";
   mkEvidenceField "uuid_ordering_authority" "false";
   mkEvidenceField "crud_event_stream_authority" "false";
   mkEvidenceField "cluster_private_implementation" "false"].

(** A fail-closed result: the given status and diagnostic, base evidence. *)
Definition fail_closed (r : AuthoritativeCleanupHorizonRequest) (status : Status) (d : DiagnosticRecord)
    : AuthoritativeCleanupHorizonResult :=
  mkCleanupHorizonResult status LocalTransactionHorizons_default kInvalidLocalTransactionId []
    (AddBaseEvidence r ++ [mkEvidenceField "fail_closed" "true";
                           mkEvidenceField "diagnostic_code" (dr_diagnostic_code d)]) d false.

Definition ServiceError (r : AuthoritativeCleanupHorizonRequest) (code key detail : string)
    : AuthoritativeCleanupHorizonResult :=
  fail_closed r MgaErrorStatus (MakeCleanupHorizonServiceDiagnostic MgaErrorStatus code key detail).

Definition IsActiveInventoryState (s : TransactionState) : bool :=
  bool_decide (s = ts_active) || bool_decide (s = ts_read_only_active).

Definition IsAlwaysActiveSessionState (s : TransactionState) : bool :=
  bool_decide (s = ts_active) || bool_decide (s = ts_read_only_active).

Definition IsUnresolvedOutcomeState (s : TransactionState) : bool :=
  bool_decide (s ∈ [ts_created; ts_preparing; ts_prepared; ts_committing; ts_rolling_back; ts_limbo;
                    ts_recovering; ts_failed_terminal]).

(** [ValidateInventory]: the refusal, if any. *)
Definition ValidateInventory (r : AuthoritativeCleanupHorizonRequest)
    : option AuthoritativeCleanupHorizonResult :=
  if negb (chr_inventory_authoritative r) then
    Some (ServiceError r "SB-MGA-CLEANUP-HORIZON-NOT-AUTHORITATIVE"
            "transaction.cleanup_horizon.inventory_not_authoritative"
            "durable MGA transaction inventory authority is required")
  else if negb (chr_inventory_complete r) then
    Some (ServiceError r "SB-MGA-CLEANUP-HORIZON-INVENTORY-MISSING"
            "transaction.cleanup_horizon.inventory_missing"
            "complete durable transaction inventory is required")
  else
  let reason := ValidateLocalTransactionInventoryStructure (chr_inventory r) in
  if decide (reason <> ""%string) then
    Some (ServiceError r "SB-MGA-CLEANUP-HORIZON-INVENTORY-INVALID"
            ("transaction.cleanup_horizon." +:+ reason) "")
  else None.

Definition session_binding_error (r : AuthoritativeCleanupHorizonRequest)
    (b : AlwaysActiveSessionTransactionBinding) : option AuthoritativeCleanupHorizonResult :=
  if negb (ab_authoritative b) then
    Some (ServiceError r "SB-MGA-CLEANUP-HORIZON-SESSION-BINDING-NOT-AUTHORITATIVE"
            "transaction.cleanup_horizon.session_binding_not_authoritative" (ab_stable_session_id b))
  else if decide (ab_stable_session_id b = ""%string) then
    Some (ServiceError r "SB-MGA-CLEANUP-HORIZON-SESSION-BINDING-INVALID"
            "transaction.cleanup_horizon.session_binding_missing_stable_id" "")
  else if negb (local_id_valid (ab_current_local_transaction_id b)) then
    Some (ServiceError r "SB-MGA-CLEANUP-HORIZON-SESSION-BINDING-INVALID"
            "transaction.cleanup_horizon.session_binding_missing_transaction" (ab_stable_session_id b))
  else match FindEntry (chr_inventory r) (ab_current_local_transaction_id b) with
  | None =>
    Some (ServiceError r "SB-MGA-CLEANUP-HORIZON-SESSION-TX-MISSING"
            "transaction.cleanup_horizon.session_transaction_missing" (ab_stable_session_id b))
  | Some (_, entry) =>
    if negb (IsAlwaysActiveSessionState (e_state entry)) then
      Some (ServiceError r "SB-MGA-CLEANUP-HORIZON-SESSION-TX-NOT-ACTIVE"
              "transaction.cleanup_horizon.session_transaction_not_active"
              (ab_stable_session_id b +:+ ":" +:+ TransactionStateName (e_state entry)))
    else None
  end.

Fixpoint first_refusal {A B} (f : A -> option B) (l : list A) : option B :=
  match l with
  | [] => None
  | x :: l => match f x with Some refusal => Some refusal | None => first_refusal f l end
  end.

Definition ValidateAlwaysActiveSessions (r : AuthoritativeCleanupHorizonRequest)
    : option AuthoritativeCleanupHorizonResult :=
  if negb (chr_always_in_transaction_policy r) then None
  else if negb (chr_always_active_session_inventory_authoritative r) then
    Some (ServiceError r "SB-MGA-CLEANUP-HORIZON-SESSION-INVENTORY-NOT-AUTHORITATIVE"
            "transaction.cleanup_horizon.session_inventory_not_authoritative"
            "always-in-transaction sessions require authoritative active binding inventory")
  else first_refusal (session_binding_error r) (chr_always_active_sessions r).

Definition AddInventoryBlockers (inv : LocalTransactionInventory) : list CleanupHorizonBlocker :=
  (fun e =>
     mkBlocker
       (if IsUnresolvedOutcomeState (InventoryVisibilityState e) then bk_unresolved_outcome
        else bk_active_transaction)
       (e_local_id e) ("local_transaction:" +:+ to_string (e_local_id e))
       (TransactionStateName (e_state e)) true) <$>
  filter (fun e => IsActiveInventoryState (e_state e) ||
                   IsUnresolvedOutcomeState (InventoryVisibilityState e) = true) (inv_entries inv).

Definition AddSnapshotBlockers (snapshots : list LocalTransactionId) : list CleanupHorizonBlocker :=
  (fun s : LocalTransactionId =>
     mkBlocker bk_active_snapshot s ("active_snapshot:" +:+ to_string s) "active_snapshot" true) <$>
  snapshots.

Definition AddAlwaysActiveSessionBlockers (r : AuthoritativeCleanupHorizonRequest)
    : list CleanupHorizonBlocker :=
  if negb (chr_always_in_transaction_policy r) then []
  else (fun b =>
     mkBlocker bk_always_active_session (ab_current_local_transaction_id b) (ab_stable_session_id b)
       match FindEntry (chr_inventory r) (ab_current_local_transaction_id b) with
       | None => "missing"
       | Some (_, entry) => TransactionStateName (e_state entry)
       end (ab_authoritative b)) <$> chr_always_active_sessions r.

(** The smallest of the three horizons. *)
Definition smallest_horizon (h : LocalTransactionHorizons) : LocalTransactionId :=
  N.min (N.min (h_oldest_interesting_transaction h) (h_oldest_active_transaction h))
    (h_oldest_snapshot_transaction h).

Definition ComputeAuthoritativeCleanupHorizon (w : snapshot_world)
    (r : AuthoritativeCleanupHorizonRequest) : AuthoritativeCleanupHorizonResult :=
  match ValidateInventory r with
  | Some refusal => refusal
  | None =>
  if negb (chr_active_snapshot_inventory_authoritative r) then
    ServiceError r "SB-MGA-CLEANUP-HORIZON-SNAPSHOT-INVENTORY-NOT-AUTHORITATIVE"
      "transaction.cleanup_horizon.snapshot_inventory_not_authoritative"
      "active snapshot registry must be authoritative"
  else match ValidateAlwaysActiveSessions r with
  | Some refusal => refusal
  | None =>
  let published := PublishedSnapshotRetentionHorizons w (chr_inventory r) in
  if negb (phr_ok published) then fail_closed r (phr_status published) (phr_diagnostic published)
  else
  let snapshots := chr_active_snapshot_horizons r ++ phr_horizons published in
  let computed := ComputeLocalTransactionHorizonsFor (mkHorizonRequest (chr_inventory r) snapshots) in
  if negb (hres_ok computed) then fail_closed r (hres_status computed) (hres_diagnostic computed)
  else
  let h := hres_horizons computed in
  let horizon := MakeLocalTransactionId (smallest_horizon h) in
  let blockers := AddInventoryBlockers (chr_inventory r) ++ AddSnapshotBlockers snapshots ++
                  AddAlwaysActiveSessionBlockers r in
  let diagnostic :=
    MakeCleanupHorizonServiceDiagnostic MgaOkStatus "SB-MGA-CLEANUP-HORIZON-AUTHORITATIVE"
      "transaction.cleanup_horizon.authoritative" (to_string horizon) in
  mkCleanupHorizonResult MgaOkStatus h horizon blockers
    (AddBaseEvidence r ++
     [mkEvidenceField "fail_closed" "false";
      mkEvidenceField "oit_local_transaction_id" (to_string (h_oldest_interesting_transaction h));
      mkEvidenceField "oat_local_transaction_id" (to_string (h_oldest_active_transaction h));
      mkEvidenceField "ost_local_transaction_id" (to_string (h_oldest_snapshot_transaction h));
      mkEvidenceField "cleanup_horizon_local_transaction_id" (to_string horizon);
      mkEvidenceField "next_local_transaction_id" (to_string (h_next_transaction_id h));
      mkEvidenceField "inventory_entry_count"
        (to_string (N.of_nat (length (inv_entries (chr_inventory r)))));
      mkEvidenceField "active_snapshot_count" (to_string (N.of_nat (length snapshots)));
      mkEvidenceField "always_active_session_count"
        (to_string (N.of_nat (length (chr_always_active_sessions r))));
      mkEvidenceField "blocker_count" (to_string (N.of_nat (length blockers)));
      mkEvidenceField "diagnostic_code" (dr_diagnostic_code diagnostic)]) diagnostic true
  end
  end.
