(* ===== verification/Cleanup.v ===== *)
(** * Row version cleanup

    Models [transaction_cleanup.{hpp,cpp}] of [src/project/src/transaction/mga]:
    the eligibility of a row version under horizons, holds and retention, the
    workset pass that splits row versions into reclaimed and retained, and the
    bounded sweep around it.  Metric publication is left out. *)

From S2P Require Import Prelude Platform TransactionState Inventory Horizon RowVersion Snapshot.
From S2P Require Import CopyOnWrite CleanupHorizon.

Inductive LocalCleanupSweepFamily :=
| sf_cooperative | sf_background | sf_explicit_request | sf_maintenance | sf_emergency | sf_unknown.

#[export] Instance LocalCleanupSweepFamily_eq_dec : EqDecision LocalCleanupSweepFamily.
Proof. solve_decision. Defined.

Record TransactionCleanupDecisionResult := mkDecision {
  cd_status : Status;
  cd_decision : CleanupEligibilityDecision;
  cd_blocking_hold : CleanupHoldKind;
  cd_diagnostic : DiagnosticRecord }.

Definition cd_ok (r : TransactionCleanupDecisionResult) : bool := status_ok (cd_status r).

Record AuthoritativeCleanupHold := mkHold {
  ah_hold_kind : CleanupHoldKind;
  ah_horizon_transaction : LocalTransactionId;
  ah_authoritative : bool;
  ah_stable_name : string }.

Record HistoryRetentionHorizon := mkRetention {
  rh_horizon_transaction : LocalTransactionId;
  rh_authoritative : bool;
  rh_stable_name : string }.

Record LocalCleanupReclaimEvidenceRecord := mkReclaimEvidence {
  re_row_version_identity : RowVersionIdentity;
  re_row_version_state : RowVersionState;
  re_creator_transaction : LocalTransactionId;
  re_successor_transaction : LocalTransactionId;
  re_authoritative_cleanup_horizon_local_transaction_id : N;
  re_stable_evidence_id : string }.

Record LocalCleanupWorksetRequest := mkWorksetRequest {
  wr_inventory : LocalTransactionInventory;
  wr_inventory_authoritative : bool;
  wr_inventory_complete : bool;
  wr_active_snapshot_horizons : list LocalTransactionId;
  wr_active_snapshot_inventory_authoritative : bool;
  wr_always_in_transaction_policy : bool;
  wr_always_active_session_inventory_authoritative : bool;
  wr_always_active_sessions : list AlwaysActiveSessionTransactionBinding;
  wr_additional_holds : list AuthoritativeCleanupHold;
  wr_history_retention_horizons : list HistoryRetentionHorizon;
  wr_row_versions : list RowVersionMetadata;
  wr_max_retained_row_versions : N;
  wr_retain_row_versions_in_result : bool;
  wr_emit_reclaim_evidence_records : bool;
  wr_max_reclaim_evidence_records : N;
  wr_reclaim_rolled_back_versions : bool;
  wr_reclaim_delete_markers : bool;
  wr_reclaim_obsolete_committed_versions : bool }.

Record LocalCleanupWorksetResult := mkWorksetResult {
  wres_status : Status;
  wres_horizons : LocalTransactionHorizons;
  wres_retained_row_versions : list RowVersionMetadata;
  wres_reclaim_evidence_records : list LocalCleanupReclaimEvidenceRecord;
  wres_reclaimed_row_version_count : N;
  wres_retained_row_version_count : N;
  wres_horizon_blocked_row_version_count : N;
  wres_backup_archive_blocked_row_version_count : N;
  wres_retention_blocked_row_version_count : N;
  wres_limbo_or_unknown_outcome_blocked_row_version_count : N;
  wres_oldest_retained_row_version_local_transaction_id : N;
  wres_authoritative_cleanup_horizon_local_transaction_id : N;
  wres_cleanup_horizon_authoritative : bool;
  wres_bounded_memory_limit_hit : bool;
  wres_physical_storage_mutated : bool;
  wres_diagnostic : DiagnosticRecord }.

Definition wres_ok (r : LocalCleanupWorksetResult) : bool :=
  status_ok (wres_status r) && wres_cleanup_horizon_authoritative r.

Record LocalGarbageCollectionSweepRequest := mkSweepRequest {
  sr_workset : LocalCleanupWorksetRequest;
  sr_family : LocalCleanupSweepFamily;
  sr_engine_mga_authoritative : bool;
  sr_max_candidate_row_versions : N;
  sr_max_retained_row_versions : N;
  sr_retain_row_versions_in_result : bool }.

Definition LocalCleanupWorksetResult_default : LocalCleanupWorksetResult :=
  mkWorksetResult Status_default LocalTransactionHorizons_default [] [] 0 0 0 0 0 0 0 0
    false false false DiagnosticRecord_default.

Record LocalGarbageCollectionSweepResult := mkSweepResult {
  sres_status : Status;
  sres_cleanup : LocalCleanupWorksetResult;
  sres_family : LocalCleanupSweepFamily;
  sres_scanned_row_version_count : N;
  sres_bounded_memory_enforced : bool;
  sres_diagnostic : DiagnosticRecord }.

Definition sres_ok (r : LocalGarbageCollectionSweepResult) : bool :=
  status_ok (sres_status r) && wres_ok (sres_cleanup r) && sres_bounded_memory_enforced r.

Definition LocalCleanupSweepFamilyName (f : LocalCleanupSweepFamily) : string :=
  match f with
  | sf_cooperative => "cooperative"
  | sf_background => "background"
  | sf_explicit_request => "explicit_request"
  | sf_maintenance => "maintenance"
  | sf_emergency => "emergency"
  | sf_unknown => "unknown"
  end.

Definition MakeTransactionCleanupDiagnostic : Status -> string -> string -> string -> DiagnosticRecord :=
  MakeComponentDiagnostic "transaction.mga.cleanup".

Definition CleanupWarningStatus : Status :=
  mkStatus sc_platform_required_feature_missing sev_warning sub_transaction_mga.

Definition RetentionHorizonStableName (h : HistoryRetentionHorizon) : string :=
  if decide (rh_stable_name h = ""%string) then "history_retention_horizon" else rh_stable_name h.

Definition IsCleanupReclaimableByKind (m : RowVersionMetadata) (r : LocalCleanupWorksetRequest) : bool :=
  if decide (rvm_state m = rvs_rolled_back) then wr_reclaim_rolled_back_versions r
  else if decide (rvm_state m = rvs_delete_marker) then wr_reclaim_delete_markers r
  else if bool_decide (rvm_state m = rvs_committed) && chain_has_next (rvm_chain m)
  then wr_reclaim_obsolete_committed_versions r
  else false.

(** ** Decisions *)

Definition CleanupStatusForDecision (d : CleanupEligibilityDecision) : Status :=
  if decide (d = ce_eligible_authoritative) then MgaOkStatus else CleanupWarningStatus.

Definition DecisionForHoldKind (k : CleanupHoldKind) : CleanupEligibilityDecision :=
  match k with
  | hk_limbo_transaction => ce_blocked_by_limbo
  | hk_recovery_required => ce_blocked_by_recovery
  | hk_archive_required | hk_backup_required => ce_blocked_by_archive_or_backup
  | hk_none | hk_oldest_interesting_transaction | hk_oldest_active_transaction
  | hk_oldest_snapshot_transaction | hk_management_operation | hk_legal_hold | hk_admin_hold
  | hk_unknown => ce_blocked_by_horizon
  end.

Definition MakeBlockedDecisionWithCode (hold_kind : CleanupHoldKind) (code key detail : string)
    : TransactionCleanupDecisionResult :=
  let decision := DecisionForHoldKind hold_kind in
  let status := CleanupStatusForDecision decision in
  mkDecision status decision hold_kind (MakeTransactionCleanupDiagnostic status code key detail).

Definition MakeBlockedDecision (hold_kind : CleanupHoldKind) (key detail : string)
    : TransactionCleanupDecisionResult :=
  MakeBlockedDecisionWithCode hold_kind "SB-SNTXN-CLEANUP-BLOCKED-BY-HORIZON" key detail.

Definition MakeEligibleDecision : TransactionCleanupDecisionResult :=
  mkDecision MgaOkStatus ce_eligible_authoritative hk_none
    (MakeTransactionCleanupDiagnostic MgaOkStatus "SB-SNTXN-CLEANUP-ELIGIBLE-AUTHORITATIVE"
       "transaction.cleanup.eligible_authoritative" "").

Definition HorizonBlocks (horizon : LocalTransactionId) (m : RowVersionMetadata) : bool :=
  negb (local_id_valid horizon) || bool_decide (horizon <= creator_id m).

Definition EvaluateHold (m : RowVersionMetadata) (hold_kind : CleanupHoldKind)
    (horizon : LocalTransactionId) (authoritative : bool) (stable_name : string)
    : TransactionCleanupDecisionResult :=
  if negb authoritative then
    MakeBlockedDecision hold_kind "transaction.cleanup.non_authoritative_hold"
      ("non_authoritative_hold:" +:+ stable_name)
  else if negb (local_id_valid horizon) then
    MakeBlockedDecision hold_kind "transaction.cleanup.invalid_hold" ("invalid_hold:" +:+ stable_name)
  else if HorizonBlocks horizon m then
    MakeBlockedDecision hold_kind "transaction.cleanup.blocked_by_hold" stable_name
  else MakeEligibleDecision.

Definition IsKnownFinalCreatorOutcome (m : RowVersionMetadata) : bool :=
  let creator := rvm_creator_transaction_state m in
  if decide (rvm_state m = rvs_delete_marker)
  then bool_decide (creator = ts_committed) || bool_decide (creator = ts_rolled_back)
  else if decide (rvm_state m = rvs_committed) then bool_decide (creator = ts_committed)
  else if decide (rvm_state m = rvs_rolled_back) then bool_decide (creator = ts_rolled_back)
  else false.

Definition CreatorOutcomeCanBecomeKnown (s : TransactionState) : bool :=
  bool_decide (s ∈ [ts_created; ts_active; ts_read_only_active; ts_preparing; ts_prepared;
                    ts_committing; ts_rolling_back; ts_recovering; ts_limbo; ts_failed_terminal]).

Definition outcome_text (m : RowVersionMetadata) : string :=
  RowVersionStateName (rvm_state m) +:+ ":" +:+ TransactionStateName (rvm_creator_transaction_state m).

Definition EvaluateCreatorOutcomeForCleanup (m : RowVersionMetadata) : TransactionCleanupDecisionResult :=
  let creator := rvm_creator_transaction_state m in
  if decide (rvm_state m = rvs_limbo \/ creator = ts_limbo) then
    MakeBlockedDecision hk_limbo_transaction "transaction.cleanup.blocked_by_limbo"
      (RowVersionStateName (rvm_state m))
  else if decide (rvm_state m = rvs_recovery_required \/ creator = ts_recovering) then
    MakeBlockedDecision hk_recovery_required "transaction.cleanup.blocked_by_recovery"
      (TransactionStateName creator)
  else if IsKnownFinalCreatorOutcome m then MakeEligibleDecision
  else if CreatorOutcomeCanBecomeKnown creator || bool_decide (rvm_state m = rvs_uncommitted) ||
          bool_decide (rvm_state m = rvs_prepared) then
    MakeBlockedDecisionWithCode hk_recovery_required "SB-SNTXN-CLEANUP-BLOCKED-BY-UNKNOWN-OUTCOME"
      "transaction.cleanup.blocked_by_unknown_outcome" (outcome_text m)
  else
    MakeBlockedDecisionWithCode hk_recovery_required "SB-SNTXN-CLEANUP-BLOCKED-BY-UNKNOWN-OUTCOME"
      "transaction.cleanup.creator_outcome_mismatch" (outcome_text m).

Definition EvaluateRetentionHorizon (m : RowVersionMetadata) (h : HistoryRetentionHorizon)
    : TransactionCleanupDecisionResult :=
  let blocked := MakeBlockedDecisionWithCode hk_legal_hold
                   "SB-SNTXN-CLEANUP-BLOCKED-BY-RETENTION-HORIZON" in
  if negb (rh_authoritative h) then
    blocked "transaction.cleanup.retention_horizon_not_authoritative"
      ("non_authoritative_retention_horizon:" +:+ RetentionHorizonStableName h)
  else if negb (local_id_valid (rh_horizon_transaction h)) then
    blocked "transaction.cleanup.retention_horizon_invalid"
      ("invalid_retention_horizon:" +:+ RetentionHorizonStableName h)
  else if HorizonBlocks (rh_horizon_transaction h) m then
    blocked "transaction.cleanup.blocked_by_retention_horizon" (RetentionHorizonStableName h)
  else MakeEligibleDecision.

Definition IsRetentionBlockedDecision (d : TransactionCleanupDecisionResult) : bool :=
  bool_decide (dr_diagnostic_code (cd_diagnostic d) =
               "SB-SNTXN-CLEANUP-BLOCKED-BY-RETENTION-HORIZON"%string).

Definition IsUnknownOutcomeDecision (d : TransactionCleanupDecisionResult) : bool :=
  bool_decide (dr_diagnostic_code (cd_diagnostic d) =
               "SB-SNTXN-CLEANUP-BLOCKED-BY-UNKNOWN-OUTCOME"%string).

Definition IsBackupOrArchiveHold (k : CleanupHoldKind) : bool :=
  bool_decide (k = hk_archive_required) || bool_decide (k = hk_backup_required).

Definition StableReclaimEvidenceId (m : RowVersionMetadata) (cleanup_horizon : N) : string :=
  "mga-cleanup-reclaim:" +:+ to_string (creator_id m) +:+ ":" +:+
  to_string (rvi_version_sequence (rvm_identity m)) +:+ ":" +:+ to_string cleanup_horizon.

Definition MakeReclaimEvidenceRecord (m : RowVersionMetadata) (cleanup_horizon : N)
    : LocalCleanupReclaimEvidenceRecord :=
  mkReclaimEvidence (rvm_identity m) (rvm_state m) (creator_id m)
    (rvm_successor_transaction_local_id m) cleanup_horizon (StableReclaimEvidenceId m cleanup_horizon).

Definition IsKnownSweepFamily (f : LocalCleanupSweepFamily) : bool := bool_decide (f <> sf_unknown).

Definition CleanupSweepError (family : LocalCleanupSweepFamily) (scanned : N)
    (code key detail : string) : LocalGarbageCollectionSweepResult :=
  mkSweepResult MgaErrorStatus LocalCleanupWorksetResult_default family scanned false
    (MakeTransactionCleanupDiagnostic MgaErrorStatus code key detail).

Definition InventoryContainsCreator (inv : LocalTransactionInventory) (m : RowVersionMetadata) : bool :=
  existsb (fun e => bool_decide (e_local_id e = creator_id m) &&
                    bool_decide (e_uuid e = tu_value (ti_transaction_uuid
                                   (rvi_creator_transaction (rvm_identity m)))))
    (inv_entries inv).

Definition FindInventoryEntry (inv : LocalTransactionInventory) (local_id : LocalTransactionId)
    : option TransactionInventoryEntry :=
  snd <$> list_find (fun e => e_local_id e = local_id) (inv_entries inv).

Definition IsActiveCleanupBlockerState (s : TransactionState) : bool :=
  bool_decide (s = ts_active) || bool_decide (s = ts_read_only_active).

Definition IsUnresolvedCleanupBlockerState (s : TransactionState) : bool :=
  bool_decide (s ∈ [ts_preparing; ts_prepared; ts_committing; ts_limbo; ts_recovering;
                    ts_failed_terminal]).

Definition EvaluateSuccessorTransactionForCleanup (m : RowVersionMetadata)
    (inv : LocalTransactionInventory) (cleanup_horizon : LocalTransactionId)
    : TransactionCleanupDecisionResult :=
  let successor_id := rvm_successor_transaction_local_id m in
  let unknown_successor := MakeBlockedDecisionWithCode hk_recovery_required
                             "SB-SNTXN-CLEANUP-BLOCKED-BY-UNKNOWN-SUCCESSOR" in
  if negb (bool_decide (rvm_state m = rvs_committed)) || negb (chain_has_next (rvm_chain m)) then
    MakeEligibleDecision
  else if negb (local_id_valid successor_id) then
    unknown_successor "transaction.cleanup.successor_transaction_missing" (to_string (creator_id m))
  else if negb (local_id_valid cleanup_horizon) || bool_decide (cleanup_horizon <= successor_id) then
    MakeBlockedDecision hk_oldest_active_transaction
      "transaction.cleanup.successor_not_below_cleanup_horizon" (to_string successor_id)
  else match FindInventoryEntry inv successor_id with
  | None =>
    unknown_successor "transaction.cleanup.successor_transaction_not_in_inventory" (to_string successor_id)
  | Some successor =>
    if IsActiveCleanupBlockerState (e_state successor) then
      MakeBlockedDecision hk_oldest_active_transaction
        "transaction.cleanup.successor_transaction_active" (to_string (e_local_id successor))
    else if IsUnresolvedCleanupBlockerState (e_state successor) then
      unknown_successor "transaction.cleanup.successor_transaction_unresolved"
        (TransactionStateName (e_state successor))
    else if decide (e_state successor <> ts_committed) then
      unknown_successor "transaction.cleanup.successor_transaction_not_committed"
        (TransactionStateName (e_state successor))
    else MakeEligibleDecision
  end.

(** The decision that follows, unless an earlier one blocks. *)
Definition and_then (first : TransactionCleanupDecisionResult)
    (next : TransactionCleanupDecisionResult) : TransactionCleanupDecisionResult :=
  if decide (cd_decision first <> ce_eligible_authoritative) then first else next.

Definition EvaluateLocalCleanupWithHorizons (m : RowVersionMetadata) (h : LocalTransactionHorizons)
    : TransactionCleanupDecisionResult :=
  if negb (h_valid h) then
    mkDecision CleanupWarningStatus ce_blocked_by_horizon hk_oldest_interesting_transaction
      (MakeTransactionCleanupDiagnostic CleanupWarningStatus "SB-SNTXN-CLEANUP-BLOCKED-BY-HORIZON"
         "transaction.cleanup.invalid_horizons" "")
  else
  let metadata_result := ValidateRowVersionMetadata m in
  if negb (status_ok (rvmr_status metadata_result)) then
    mkDecision (rvmr_status metadata_result) ce_unknown hk_unknown (rvmr_diagnostic metadata_result)
  else
    and_then (EvaluateCreatorOutcomeForCleanup m)
      (and_then (EvaluateHold m hk_oldest_interesting_transaction
                   (h_oldest_interesting_transaction h) true "local_oit")
         (and_then (EvaluateHold m hk_oldest_active_transaction
                      (h_oldest_active_transaction h) true "local_oat")
            (and_then (EvaluateHold m hk_oldest_snapshot_transaction
                         (h_oldest_snapshot_transaction h) true "local_ost")
               MakeEligibleDecision))).

(** The loops over further holds: the first blocking decision, or the last one. *)
Fixpoint evaluate_each {A} (f : A -> TransactionCleanupDecisionResult)
    (result : TransactionCleanupDecisionResult) (l : list A) : TransactionCleanupDecisionResult :=
  match l with
  | [] => result
  | x :: l => and_then (f x) (evaluate_each f (f x) l)
  end.

Definition EvaluateLocalCleanupWithAuthoritativeHolds (m : RowVersionMetadata)
    (h : LocalTransactionHorizons) (additional_holds : list AuthoritativeCleanupHold)
    : TransactionCleanupDecisionResult :=
  let result := EvaluateLocalCleanupWithHorizons m h in
  and_then result
    (evaluate_each (fun hold => EvaluateHold m (ah_hold_kind hold) (ah_horizon_transaction hold)
                                  (ah_authoritative hold) (ah_stable_name hold))
       result additional_holds).

Definition EvaluateLocalCleanupWithRetentionHolds (m : RowVersionMetadata)
    (h : LocalTransactionHorizons) (additional_holds : list AuthoritativeCleanupHold)
    (history_retention_horizons : list HistoryRetentionHorizon) : TransactionCleanupDecisionResult :=
  let result := EvaluateLocalCleanupWithAuthoritativeHolds m h additional_holds in
  and_then result (evaluate_each (EvaluateRetentionHorizon m) result history_retention_horizons).

(** ** The workset pass *)

(** The decision the loop acts on, the successor's included. *)
Definition workset_decision (r : LocalCleanupWorksetRequest) (h : LocalTransactionHorizons)
    (effective : LocalTransactionId) (m : RowVersionMetadata) : TransactionCleanupDecisionResult :=
  let decision := EvaluateLocalCleanupWithRetentionHolds m h (wr_additional_holds r)
                    (wr_history_retention_horizons r) in
  and_then decision (EvaluateSuccessorTransactionForCleanup m (wr_inventory r) effective).

Definition is_retained (r : LocalCleanupWorksetRequest) (d : TransactionCleanupDecisionResult)
    (m : RowVersionMetadata) : bool :=
  negb (cd_ok d) || bool_decide (cd_decision d <> ce_eligible_authoritative) ||
  negb (IsCleanupReclaimableByKind m r).

Definition bump (n : N) (condition : bool) : N := if condition then n + 1 else n.

(** The bookkeeping of a retained version after the result limit was passed. *)
Definition retain_version (r : LocalCleanupWorksetRequest) (d : TransactionCleanupDecisionResult)
    (m : RowVersionMetadata) (acc : LocalCleanupWorksetResult) : LocalCleanupWorksetResult :=
  let decision := cd_decision d in
  let creator := creator_id m in
  let oldest := wres_oldest_retained_row_version_local_transaction_id acc in
  mkWorksetResult (wres_status acc) (wres_horizons acc)
    (if wr_retain_row_versions_in_result r then wres_retained_row_versions acc ++ [m]
     else wres_retained_row_versions acc)
    (wres_reclaim_evidence_records acc) (wres_reclaimed_row_version_count acc)
    (wres_retained_row_version_count acc + 1)
    (bump (wres_horizon_blocked_row_version_count acc)
       (bool_decide (decision ∈ [ce_blocked_by_horizon; ce_blocked_by_limbo; ce_blocked_by_recovery;
                                 ce_blocked_by_archive_or_backup])))
    (bump (wres_backup_archive_blocked_row_version_count acc)
       (bool_decide (decision = ce_blocked_by_archive_or_backup) ||
        IsBackupOrArchiveHold (cd_blocking_hold d)))
    (bump (wres_retention_blocked_row_version_count acc) (IsRetentionBlockedDecision d))
    (bump (wres_limbo_or_unknown_outcome_blocked_row_version_count acc)
       (bool_decide (decision = ce_blocked_by_limbo) || IsUnknownOutcomeDecision d ||
        bool_decide (dr_diagnostic_code (cd_diagnostic d) =
                     "SB-SNTXN-CLEANUP-BLOCKED-BY-UNKNOWN-SUCCESSOR"%string)))
    (if bool_decide (creator <> 0) && (bool_decide (oldest = 0) || bool_decide (creator < oldest))
     then creator else oldest)
    (wres_authoritative_cleanup_horizon_local_transaction_id acc)
    (wres_cleanup_horizon_authoritative acc) (wres_bounded_memory_limit_hit acc)
    (wres_physical_storage_mutated acc) (wres_diagnostic acc).

Definition limit_exceeded (code key : string) (limit : N) (acc : LocalCleanupWorksetResult)
    : LocalCleanupWorksetResult :=
  mkWorksetResult MgaErrorStatus (wres_horizons acc) (wres_retained_row_versions acc)
    (wres_reclaim_evidence_records acc) (wres_reclaimed_row_version_count acc)
    (wres_retained_row_version_count acc) (wres_horizon_blocked_row_version_count acc)
    (wres_backup_archive_blocked_row_version_count acc)
    (wres_retention_blocked_row_version_count acc)
    (wres_limbo_or_unknown_outcome_blocked_row_version_count acc)
    (wres_oldest_retained_row_version_local_transaction_id acc)
    (wres_authoritative_cleanup_horizon_local_transaction_id acc)
    (wres_cleanup_horizon_authoritative acc) true (wres_physical_storage_mutated acc)
    (MakeTransactionCleanupDiagnostic MgaErrorStatus code key (to_string limit)).

Definition count_reclaimed (acc : LocalCleanupWorksetResult)
    (records : list LocalCleanupReclaimEvidenceRecord) : LocalCleanupWorksetResult :=
  mkWorksetResult (wres_status acc) (wres_horizons acc) (wres_retained_row_versions acc) records
    (wres_reclaimed_row_version_count acc + 1) (wres_retained_row_version_count acc)
    (wres_horizon_blocked_row_version_count acc) (wres_backup_archive_blocked_row_version_count acc)
    (wres_retention_blocked_row_version_count acc)
    (wres_limbo_or_unknown_outcome_blocked_row_version_count acc)
    (wres_oldest_retained_row_version_local_transaction_id acc)
    (wres_authoritative_cleanup_horizon_local_transaction_id acc)
    (wres_cleanup_horizon_authoritative acc) (wres_bounded_memory_limit_hit acc)
    (wres_physical_storage_mutated acc) (wres_diagnostic acc).

(** The loop over the row versions; [inl] is the early return of a limit. *)
Fixpoint workset_loop (r : LocalCleanupWorksetRequest) (h : LocalTransactionHorizons)
    (acc : LocalCleanupWorksetResult) (rows : list RowVersionMetadata)
    : LocalCleanupWorksetResult + LocalCleanupWorksetResult :=
  match rows with
  | [] => inr acc
  | m :: rows =>
    let effective := wres_authoritative_cleanup_horizon_local_transaction_id acc in
    let d := workset_decision r h (MakeLocalTransactionId effective) m in
    if is_retained r d m then
      if wr_retain_row_versions_in_result r && bool_decide (wr_max_retained_row_versions r <> 0) &&
         bool_decide (wr_max_retained_row_versions r <= N.of_nat (length (wres_retained_row_versions acc)))
      then inl (limit_exceeded "SB-SNTXN-CLEANUP-RESULT-LIMIT-EXCEEDED"
                  "transaction.cleanup.result_limit_exceeded" (wr_max_retained_row_versions r) acc)
      else workset_loop r h (retain_version r d m acc) rows
    else if wr_emit_reclaim_evidence_records r then
      let records := wres_reclaim_evidence_records acc in
      if bool_decide (wr_max_reclaim_evidence_records r = 0) ||
         bool_decide (wr_max_reclaim_evidence_records r <= N.of_nat (length records))
      then inl (limit_exceeded "SB-SNTXN-CLEANUP-RECLAIM-EVIDENCE-LIMIT-EXCEEDED"
                  "transaction.cleanup.reclaim_evidence_limit_exceeded"
                  (wr_max_reclaim_evidence_records r) (count_reclaimed acc records))
      else workset_loop r h
             (count_reclaimed acc (records ++ [MakeReclaimEvidenceRecord m effective])) rows
    else workset_loop r h (count_reclaimed acc (wres_reclaim_evidence_records acc)) rows
  end.

Definition workset_error (status : Status) (diagnostic : DiagnosticRecord) : LocalCleanupWorksetResult :=
  mkWorksetResult status LocalTransactionHorizons_default [] [] 0 0 0 0 0 0 0 0 false false false diagnostic.

Definition hold_refusal (hold : AuthoritativeCleanupHold) : option LocalCleanupWorksetResult :=
  let refuse code key := workset_error MgaErrorStatus
    (MakeTransactionCleanupDiagnostic MgaErrorStatus code key (ah_stable_name hold)) in
  if negb (ah_authoritative hold) then
    Some (refuse "SB-SNTXN-CLEANUP-HOLD-NOT-AUTHORITATIVE" "transaction.cleanup.hold_not_authoritative")%string
  else if negb (local_id_valid (ah_horizon_transaction hold)) then
    Some (refuse "SB-SNTXN-CLEANUP-HOLD-INVALID" "transaction.cleanup.hold_invalid")%string
  else None.

Definition retention_refusal (h : HistoryRetentionHorizon) : option LocalCleanupWorksetResult :=
  let refuse code key := workset_error MgaErrorStatus
    (MakeTransactionCleanupDiagnostic MgaErrorStatus code key (RetentionHorizonStableName h)) in
  if negb (rh_authoritative h) then
    Some (refuse "SB-SNTXN-CLEANUP-RETENTION-HORIZON-NOT-AUTHORITATIVE"
            "transaction.cleanup.retention_horizon_not_authoritative")%string
  else if negb (local_id_valid (rh_horizon_transaction h)) then
    Some (refuse "SB-SNTXN-CLEANUP-RETENTION-HORIZON-INVALID"
            "transaction.cleanup.retention_horizon_invalid")%string
  else None.

Definition workset_horizon_request (r : LocalCleanupWorksetRequest) : AuthoritativeCleanupHorizonRequest :=
  mkCleanupHorizonRequest (wr_inventory r) (wr_inventory_authoritative r) (wr_inventory_complete r)
    (wr_active_snapshot_horizons r) (wr_active_snapshot_inventory_authoritative r)
    (wr_always_in_transaction_policy r) (wr_always_active_session_inventory_authoritative r)
    (wr_always_active_sessions r).

(** The service's horizon lowered to every hold and retention horizon. *)
Definition effective_horizon (horizon : N) (r : LocalCleanupWorksetRequest) : N :=
  min_over (min_over horizon (ah_horizon_transaction <$> wr_additional_holds r))
    (rh_horizon_transaction <$> wr_history_retention_horizons r).

Definition ApplyLocalCleanupWithAuthoritativeInventory (w : snapshot_world)
    (r : LocalCleanupWorksetRequest) : LocalCleanupWorksetResult :=
  if negb (wr_inventory_authoritative r) then
    workset_error MgaErrorStatus
      (MakeTransactionCleanupDiagnostic MgaErrorStatus "SB-SNTXN-CLEANUP-HORIZON-NOT-AUTHORITATIVE"
         "transaction.cleanup.horizon_not_authoritative"
         "destructive cleanup requires durable local inventory authority")
  else match first_refusal hold_refusal (wr_additional_holds r) with
  | Some refusal => refusal
  | None =>
  match first_refusal retention_refusal (wr_history_retention_horizons r) with
  | Some refusal => refusal
  | None =>
  let authoritative := ComputeAuthoritativeCleanupHorizon w (workset_horizon_request r) in
  if negb (chs_ok authoritative) then
    workset_error (chs_status authoritative) (chs_diagnostic authoritative)
  else
  let start :=
    mkWorksetResult Status_default (chs_horizons authoritative) [] [] 0 0 0 0 0 0 0
      (effective_horizon (chs_cleanup_horizon authoritative) r) true false false
      DiagnosticRecord_default in
  match workset_loop r (chs_horizons authoritative) start (wr_row_versions r) with
  | inl stopped => stopped
  | inr acc =>
    mkWorksetResult MgaOkStatus (wres_horizons acc) (wres_retained_row_versions acc)
      (wres_reclaim_evidence_records acc) (wres_reclaimed_row_version_count acc)
      (wres_retained_row_version_count acc) (wres_horizon_blocked_row_version_count acc)
      (wres_backup_archive_blocked_row_version_count acc)
      (wres_retention_blocked_row_version_count acc)
      (wres_limbo_or_unknown_outcome_blocked_row_version_count acc)
      (wres_oldest_retained_row_version_local_transaction_id acc)
      (wres_authoritative_cleanup_horizon_local_transaction_id acc)
      (wres_cleanup_horizon_authoritative acc) (wres_bounded_memory_limit_hit acc)
      (wres_physical_storage_mutated acc)
      (MakeTransactionCleanupDiagnostic MgaOkStatus "SB-SNTXN-CLEANUP-APPLIED"
         "transaction.cleanup.applied" (to_string (wres_reclaimed_row_version_count acc)))
  end
  end
  end.

(** ** The bounded sweep *)

Definition sweep_workset (r : LocalGarbageCollectionSweepRequest) : LocalCleanupWorksetRequest :=
  let s := sr_workset r in
  mkWorksetRequest (wr_inventory s) (wr_inventory_authoritative s) (wr_inventory_complete s)
    (wr_active_snapshot_horizons s) (wr_active_snapshot_inventory_authoritative s)
    (wr_always_in_transaction_policy s) (wr_always_active_session_inventory_authoritative s)
    (wr_always_active_sessions s) (wr_additional_holds s) (wr_history_retention_horizons s)
    (wr_row_versions s) (sr_max_retained_row_versions r) (sr_retain_row_versions_in_result r)
    (wr_emit_reclaim_evidence_records s) (wr_max_reclaim_evidence_records s)
    (wr_reclaim_rolled_back_versions s) (wr_reclaim_delete_markers s)
    (wr_reclaim_obsolete_committed_versions s).

Definition RunLocalGarbageCollectionSweep (w : snapshot_world) (r : LocalGarbageCollectionSweepRequest)
    : LocalGarbageCollectionSweepResult :=
  let scanned := N.of_nat (length (wr_row_versions (sr_workset r))) in
  if negb (sr_engine_mga_authoritative r) then
    CleanupSweepError (sr_family r) scanned "SB-SNTXN-CLEANUP-SWEEP-NOT-ENGINE-AUTHORITATIVE"
      "transaction.cleanup.sweep_not_engine_authoritative" "local MGA engine authority is required"
  else if negb (IsKnownSweepFamily (sr_family r)) then
    CleanupSweepError (sr_family r) scanned "SB-SNTXN-CLEANUP-SWEEP-FAMILY-UNKNOWN"
      "transaction.cleanup.sweep_family_unknown" ""
  else if bool_decide (sr_max_candidate_row_versions r = 0) ||
          bool_decide (sr_max_candidate_row_versions r < scanned) then
    CleanupSweepError (sr_family r) scanned "SB-SNTXN-CLEANUP-BOUNDED-SCAN-REQUIRED"
      "transaction.cleanup.bounded_scan_required" (to_string (sr_max_candidate_row_versions r))
  else if sr_retain_row_versions_in_result r && bool_decide (sr_max_retained_row_versions r = 0) then
    CleanupSweepError (sr_family r) scanned "SB-SNTXN-CLEANUP-BOUNDED-RESULT-REQUIRED"
      "transaction.cleanup.bounded_result_required" ""
  else match list_find (fun m => InventoryContainsCreator (wr_inventory (sr_workset r)) m = false)
               (wr_row_versions (sr_workset r)) with
  | Some (_, m) =>
    CleanupSweepError (sr_family r) scanned "SB-SNTXN-CLEANUP-CREATOR-NOT-IN-INVENTORY"
      "transaction.cleanup.creator_not_in_inventory" (to_string (creator_id m))
  | None =>
    let cleanup := ApplyLocalCleanupWithAuthoritativeInventory w (sweep_workset r) in
    mkSweepResult (wres_status cleanup) cleanup (sr_family r) scanned true (wres_diagnostic cleanup)
  end.
