(* ===== verification/CleanupFacts.v ===== *)
(** * Facts about cleanup decisions and the workset pass *)

From S2P Require Import Prelude Platform TransactionState Inventory Horizon RowVersion Snapshot.
From S2P Require Import CopyOnWrite SnapshotFacts CleanupHorizon Cleanup.

Definition eligible (d : TransactionCleanupDecisionResult) : Prop :=
  cd_decision d = ce_eligible_authoritative.

(** ** Single decisions *)

Lemma and_then_eligible a b : eligible (and_then a b) <-> eligible a /\ eligible b.
Proof. unfold eligible, and_then. case_decide; tauto. Qed.

Lemma evaluate_each_eligible {A} (f : A -> TransactionCleanupDecisionResult) d l :
  eligible (evaluate_each f d l) <-> (l = [] -> eligible d) /\ Forall (fun x => eligible (f x)) l.
Proof.
  revert d. induction l as [|x l IH]; intros d; simpl.
  { split; [by intros; split; [|constructor]|intros [H _]; by apply H]. }
  rewrite and_then_eligible, IH, Forall_cons. split; [|tauto]. intros (? & _ & ?). by split.
Qed.

Lemma blocked_not_eligible k code key detail : ~ eligible (MakeBlockedDecisionWithCode k code key detail).
Proof. by destruct k. Qed.

Lemma evaluate_hold_eligible m k horizon auth name :
  eligible (EvaluateHold m k horizon auth name) <-> auth = true /\ creator_id m < horizon.
Proof.
  unfold EvaluateHold, HorizonBlocks, MakeBlockedDecision, local_id_valid, kInvalidLocalTransactionId.
  destruct auth; simpl; [|split; [intros []%blocked_not_eligible|by intros []]].
  destruct (decide (horizon = 0)) as [->|Hh]; simpl.
  { split; [intros []%blocked_not_eligible|]. lia. }
  rewrite (bool_decide_eq_true_2 (horizon <> 0)) by done. simpl. case_bool_decide as Hb.
  - split; [intros []%blocked_not_eligible|]. lia.
  - split; [intros _; split; [done|lia]|done].
Qed.

Lemma evaluate_retention_eligible m h :
  eligible (EvaluateRetentionHorizon m h) <->
  rh_authoritative h = true /\ creator_id m < rh_horizon_transaction h.
Proof.
  unfold EvaluateRetentionHorizon, HorizonBlocks, local_id_valid, kInvalidLocalTransactionId.
  destruct (rh_authoritative h); simpl; [|split; [intros []%blocked_not_eligible|by intros []]].
  destruct (decide ((rh_horizon_transaction h : N) = 0)) as [E|Hh]; simpl.
  { rewrite E. split; [intros []%blocked_not_eligible|]. lia. }
  rewrite (bool_decide_eq_true_2 (rh_horizon_transaction h <> 0)) by done. simpl. case_bool_decide as Hb.
  - split; [intros []%blocked_not_eligible|]. lia.
  - split; [intros _; split; [done|lia]|done].
Qed.

Lemma creator_outcome_eligible m :
  eligible (EvaluateCreatorOutcomeForCleanup m) <-> IsKnownFinalCreatorOutcome m = true.
Proof.
  unfold EvaluateCreatorOutcomeForCleanup, MakeBlockedDecision, IsKnownFinalCreatorOutcome.
  destruct (rvm_state m), (rvm_creator_transaction_state m); by vm_compute.
Qed.

Lemma horizons_eligible m h :
  h_valid h = true ->
  eligible (EvaluateLocalCleanupWithHorizons m h) <->
  metadata_ok m /\ IsKnownFinalCreatorOutcome m = true /\
  creator_id m < h_oldest_interesting_transaction h /\
  creator_id m < h_oldest_active_transaction h /\
  creator_id m < h_oldest_snapshot_transaction h.
Proof.
  intros Hv. unfold EvaluateLocalCleanupWithHorizons. rewrite Hv. simpl.
  rewrite <- observe_metadata_ok. unfold obs_ok.
  destruct (status_ok (obs_status (ObserveRowVersionMetadata m))) eqn:Ho; simpl.
  2:{ split; [done|]. intros []. congruence. }
  rewrite !and_then_eligible, !evaluate_hold_eligible, creator_outcome_eligible.
  intuition done.
Qed.

(** ** Eligibility of a row version *)

Definition holds_passed (r : LocalCleanupWorksetRequest) (m : RowVersionMetadata) : Prop :=
  Forall (fun hold => ah_authoritative hold = true /\ creator_id m < ah_horizon_transaction hold)
    (wr_additional_holds r) /\
  Forall (fun h => rh_authoritative h = true /\ creator_id m < rh_horizon_transaction h)
    (wr_history_retention_horizons r).

Lemma retention_holds_eligible r m h :
  h_valid h = true ->
  eligible (EvaluateLocalCleanupWithRetentionHolds m h (wr_additional_holds r)
              (wr_history_retention_horizons r)) <->
  eligible (EvaluateLocalCleanupWithHorizons m h) /\ holds_passed r m.
Proof.
  intros Hv. unfold EvaluateLocalCleanupWithRetentionHolds, EvaluateLocalCleanupWithAuthoritativeHolds, holds_passed.
  rewrite !and_then_eligible, !evaluate_each_eligible, !and_then_eligible, !evaluate_each_eligible.
  setoid_rewrite evaluate_hold_eligible. setoid_rewrite evaluate_retention_eligible. tauto.
Qed.

(** A committed version with a successor needs that successor committed below
    the horizon. *)
Definition successor_done (inv : LocalTransactionInventory) (effective : N) (m : RowVersionMetadata) : Prop :=
  rvm_successor_transaction_local_id m <> 0 /\ rvm_successor_transaction_local_id m < effective /\
  exists e, FindInventoryEntry inv (rvm_successor_transaction_local_id m) = Some e /\ e_state e = ts_committed.

Definition obsolete (m : RowVersionMetadata) : Prop :=
  rvm_state m = rvs_committed /\ chain_has_next (rvm_chain m) = true.

Lemma successor_eligible m inv effective :
  eligible (EvaluateSuccessorTransactionForCleanup m inv effective) <->
  (obsolete m -> successor_done inv effective m).
Proof.
  unfold EvaluateSuccessorTransactionForCleanup, MakeBlockedDecision, obsolete, successor_done,
    local_id_valid, kInvalidLocalTransactionId.
  destruct (decide (rvm_state m = rvs_committed)) as [Hs|Hs].
  2:{ rewrite bool_decide_eq_false_2 by done. simpl. split; [intros _ [? _]; done|done]. }
  rewrite bool_decide_eq_true_2 by done. simpl.
  destruct (chain_has_next (rvm_chain m)); simpl; [|split; [intros _ []; done|done]].
  set (sid := rvm_successor_transaction_local_id m).
  destruct (decide ((sid : N) = 0)) as [E|E]; simpl.
  { rewrite E. split; [intros []%blocked_not_eligible|]. intros H. destruct (H (conj Hs eq_refl)). done. }
  rewrite (bool_decide_eq_true_2 (sid <> 0)) by done. simpl.
  destruct (decide (effective <= sid)) as [Hle|Hlt].
  { rewrite (bool_decide_eq_true_2 (effective <= sid)), orb_true_r by done.
    split; [intros []%blocked_not_eligible|]. intros H. destruct (H (conj Hs eq_refl)) as (_ & ? & _). lia. }
  rewrite (bool_decide_eq_true_2 (effective <> 0)) by lia. rewrite (bool_decide_eq_false_2 (effective <= sid)) by done.
  simpl. destruct (FindInventoryEntry inv sid) as [e|] eqn:Hf.
  2:{ split; [intros []%blocked_not_eligible|]. intros H. destruct (H (conj Hs eq_refl)) as (_ & _ & e & ? & _). done. }
  assert (Hiff : (sid <> 0 /\ sid < effective /\ (exists e0, Some e = Some e0 /\ e_state e0 = ts_committed)) <->
                 e_state e = ts_committed).
  { split; [intros (_ & _ & e0 & [= <-] & ?); done|]. intros. split_and!; [done|lia|eauto]. }
  rewrite Hiff. destruct (e_state e); vm_compute; intuition congruence.
Qed.

Definition reclaimable (r : LocalCleanupWorksetRequest) (h : LocalTransactionHorizons) (effective : N)
    (m : RowVersionMetadata) : Prop :=
  metadata_ok m /\ IsKnownFinalCreatorOutcome m = true /\
  creator_id m < h_oldest_interesting_transaction h /\
  creator_id m < h_oldest_active_transaction h /\
  creator_id m < h_oldest_snapshot_transaction h /\
  holds_passed r m /\ (obsolete m -> successor_done (wr_inventory r) effective m) /\
  IsCleanupReclaimableByKind m r = true.

(** An eligible decision carries a success status. *)
Definition sound (d : TransactionCleanupDecisionResult) : Prop := eligible d -> cd_ok d = true.

Lemma blocked_sound k code key detail : sound (MakeBlockedDecisionWithCode k code key detail).
Proof. intros []%blocked_not_eligible. Qed.

Lemma blocked_by_horizon_sound k key detail : sound (MakeBlockedDecision k key detail).
Proof. apply blocked_sound. Qed.

Lemma eligible_sound : sound MakeEligibleDecision.
Proof. done. Qed.

Lemma and_then_sound a b : sound a -> sound b -> sound (and_then a b).
Proof. unfold and_then. by case_decide. Qed.

Create HintDb cleanup.
#[local] Hint Resolve blocked_sound blocked_by_horizon_sound eligible_sound and_then_sound : cleanup.

Lemma hold_sound m k horizon auth name : sound (EvaluateHold m k horizon auth name).
Proof. unfold EvaluateHold. repeat case_match; auto with cleanup. Qed.

Lemma retention_sound m h : sound (EvaluateRetentionHorizon m h).
Proof. unfold EvaluateRetentionHorizon. repeat case_match; auto with cleanup. Qed.

Lemma creator_outcome_sound m : sound (EvaluateCreatorOutcomeForCleanup m).
Proof. unfold EvaluateCreatorOutcomeForCleanup. repeat case_match; auto with cleanup. Qed.

Lemma successor_sound m inv effective : sound (EvaluateSuccessorTransactionForCleanup m inv effective).
Proof. unfold EvaluateSuccessorTransactionForCleanup. repeat case_match; auto with cleanup. Qed.

Lemma evaluate_each_sound {A} (f : A -> TransactionCleanupDecisionResult) d l :
  sound d -> (forall x, sound (f x)) -> sound (evaluate_each f d l).
Proof. intros Hd Hf. revert d Hd. induction l; intros d Hd; simpl; auto using and_then_sound. Qed.

#[local] Hint Resolve hold_sound retention_sound creator_outcome_sound successor_sound
  evaluate_each_sound : cleanup.

Lemma horizons_sound m h : sound (EvaluateLocalCleanupWithHorizons m h).
Proof. unfold EvaluateLocalCleanupWithHorizons. repeat case_match; try done; auto 10 with cleanup. Qed.

#[local] Hint Resolve horizons_sound : cleanup.

Lemma workset_decision_sound r h effective m : sound (workset_decision r h effective m).
Proof.
  unfold workset_decision, EvaluateLocalCleanupWithRetentionHolds, EvaluateLocalCleanupWithAuthoritativeHolds.
  auto 10 with cleanup.
Qed.

Definition reclaims (r : LocalCleanupWorksetRequest) (h : LocalTransactionHorizons) (effective : N)
    (m : RowVersionMetadata) : bool :=
  negb (is_retained r (workset_decision r h effective m) m).

Lemma reclaims_iff r h effective m :
  h_valid h = true -> reclaims r h effective m = true <-> reclaimable r h effective m.
Proof.
  intros Hv. unfold reclaims, is_retained. rewrite negb_true_iff, !orb_false_iff, !negb_false_iff, bool_decide_eq_false.
  assert (Hel : ~ cd_decision (workset_decision r h effective m) <> ce_eligible_authoritative <->
                eligible (workset_decision r h effective m)).
  { split; [apply dec_stable|]. unfold eligible. tauto. }
  rewrite Hel. pose proof (workset_decision_sound r h effective m) as Hs. unfold sound in Hs.
  assert (Hr : eligible (workset_decision r h effective m) <->
               metadata_ok m /\ IsKnownFinalCreatorOutcome m = true /\
               creator_id m < h_oldest_interesting_transaction h /\
               creator_id m < h_oldest_active_transaction h /\
               creator_id m < h_oldest_snapshot_transaction h /\
               holds_passed r m /\ (obsolete m -> successor_done (wr_inventory r) effective m)).
  { unfold workset_decision. rewrite and_then_eligible, retention_holds_eligible, horizons_eligible, successor_eligible by done.
    tauto. }
  unfold reclaimable. tauto.
Qed.

(** ** The pass over the row versions *)

Lemma workset_loop_done r h acc rows acc' :
  workset_loop r h acc rows = inr acc' ->
  let eff := wres_authoritative_cleanup_horizon_local_transaction_id acc in
  wres_horizons acc' = wres_horizons acc /\
  wres_authoritative_cleanup_horizon_local_transaction_id acc' = eff /\
  wres_cleanup_horizon_authoritative acc' = wres_cleanup_horizon_authoritative acc /\
  wres_reclaimed_row_version_count acc' = wres_reclaimed_row_version_count acc +
    N.of_nat (length (filter (fun m => reclaims r h eff m = true) rows)) /\
  wres_retained_row_version_count acc' = wres_retained_row_version_count acc +
    N.of_nat (length (filter (fun m => reclaims r h eff m = false) rows)) /\
  wres_retained_row_versions acc' = wres_retained_row_versions acc ++
    (if wr_retain_row_versions_in_result r then filter (fun m => reclaims r h eff m = false) rows else []) /\
  wres_reclaim_evidence_records acc' = wres_reclaim_evidence_records acc ++
    (if wr_emit_reclaim_evidence_records r
     then (fun m => MakeReclaimEvidenceRecord m eff) <$> filter (fun m => reclaims r h eff m = true) rows else []).
Proof.
  revert acc. induction rows as [|m rows IH]; intros acc H eff.
  { simpl in H. simplify_eq. simpl. rewrite !N.add_0_r.
    split_and!; try done; case_match; by rewrite ?app_nil_r. }
  cbn [workset_loop] in H. unfold MakeLocalTransactionId in H. fold eff in H.
  rewrite !filter_cons.
  assert (Hrec : reclaims r h eff m = negb (is_retained r (workset_decision r h eff m) m)) by done.
  destruct (is_retained r (workset_decision r h eff m) m); rewrite Hrec; simpl negb; simpl.
  - destruct (_ && _ && _); [done|]. apply IH in H. cbv zeta in H. simpl in H. fold eff in H.
    destruct H as (-> & -> & -> & -> & -> & -> & ->). split_and!; try done; try lia.
    destruct (wr_retain_row_versions_in_result r); [|done]. by rewrite <- app_assoc.
  - destruct (wr_emit_reclaim_evidence_records r).
    + destruct (_ || _); [done|]. apply IH in H. cbv zeta in H. simpl in H. fold eff in H.
      destruct H as (-> & -> & -> & -> & -> & -> & ->). split_and!; try done; try lia.
      by rewrite <- app_assoc.
    + apply IH in H. cbv zeta in H. simpl in H. fold eff in H.
      destruct H as (-> & -> & -> & -> & -> & -> & ->). split_and!; try done; lia.
Qed.

(** ** The horizon the pass works with *)

Definition snapshot_horizons (w : snapshot_world) (r : AuthoritativeCleanupHorizonRequest)
    : list LocalTransactionId :=
  chr_active_snapshot_horizons r ++ phr_horizons (PublishedSnapshotRetentionHorizons w (chr_inventory r)).

Lemma first_refusal_none {A B} (f : A -> option B) l :
  first_refusal f l = None <-> Forall (fun x => f x = None) l.
Proof.
  induction l as [|x l IH]; simpl; [done|]. rewrite Forall_cons. destruct (f x); [|tauto].
  split; [done|by intros []].
Qed.

Lemma fail_closed_not_ok r status d : chs_ok (fail_closed r status d) = false.
Proof. unfold chs_ok. simpl. apply andb_false_r. Qed.

Lemma first_refusal_some {A B} (f : A -> option B) l y :
  first_refusal f l = Some y -> exists x, f x = Some y.
Proof. induction l as [|x l IH]; simpl; [done|]. destruct (f x) eqn:E; [|done]. intros [= <-]. eauto. Qed.

Lemma cleanup_horizon_ok w r :
  chs_ok (ComputeAuthoritativeCleanupHorizon w r) = true ->
  structure_ok (chr_inventory r) /\
  phr_ok (PublishedSnapshotRetentionHorizons w (chr_inventory r)) = true /\
  chr_inventory_authoritative r = true /\ chr_inventory_complete r = true /\
  chr_active_snapshot_inventory_authoritative r = true /\
  ProjectValidatedLocalHorizons (chr_inventory r) (snapshot_horizons w r) =
    inr (chs_horizons (ComputeAuthoritativeCleanupHorizon w r)) /\
  chs_cleanup_horizon (ComputeAuthoritativeCleanupHorizon w r) =
    smallest_horizon (chs_horizons (ComputeAuthoritativeCleanupHorizon w r)).
Proof.
  unfold ComputeAuthoritativeCleanupHorizon, ServiceError. intros H.
  destruct (ValidateInventory r) as [x|] eqn:Hi.
  { exfalso. unfold ValidateInventory, ServiceError in Hi.
    repeat case_match; simplify_eq; by rewrite fail_closed_not_ok in H. }
  assert (Hpre : chr_inventory_authoritative r = true /\ chr_inventory_complete r = true /\
    structure_ok (chr_inventory r)).
  { unfold ValidateInventory in Hi. destruct (chr_inventory_authoritative r), (chr_inventory_complete r); try done.
    simpl in Hi. case_decide as Hv; [done|]. by apply validate_structure_iff in Hv. }
  destruct (chr_active_snapshot_inventory_authoritative r); simpl in *; [|by rewrite fail_closed_not_ok in H].
  destruct (ValidateAlwaysActiveSessions r) as [x|] eqn:Hs.
  { exfalso. unfold ValidateAlwaysActiveSessions, ServiceError in Hs. repeat case_match; simplify_eq;
      try (by rewrite fail_closed_not_ok in H).
    apply first_refusal_some in Hs as (b & Hb). unfold session_binding_error, ServiceError in Hb.
    repeat case_match; simplify_eq; by rewrite fail_closed_not_ok in H. }
  destruct (phr_ok _) eqn:Hp; simpl in *; [|by rewrite fail_closed_not_ok in H].
  fold (snapshot_horizons w r) in H |- *.
  destruct (hres_ok _) eqn:Hh; simpl in *; [|by rewrite fail_closed_not_ok in H].
  destruct (compute_horizons_ok _ _ Hh) as [_ Hproj]. tauto.
Qed.

Lemma workset_loop_stopped r h acc rows res :
  workset_loop r h acc rows = inl res -> wres_ok res = false.
Proof.
  revert acc. induction rows as [|m rows IH]; intros acc Hl; [done|].
  cbn [workset_loop] in Hl. repeat case_match; simplify_eq; try done; by eapply IH.
Qed.

(** The state the pass starts from. *)
Definition workset_start (r : LocalCleanupWorksetRequest) (h : LocalTransactionHorizons)
    (horizon : N) : LocalCleanupWorksetResult :=
  mkWorksetResult Status_default h [] [] 0 0 0 0 0 0 0 (effective_horizon horizon r) true false false
    DiagnosticRecord_default.

Lemma apply_cleanup_inv w r :
  wres_ok (ApplyLocalCleanupWithAuthoritativeInventory w r) = true ->
  let service := ComputeAuthoritativeCleanupHorizon w (workset_horizon_request r) in
  let res := ApplyLocalCleanupWithAuthoritativeInventory w r in
  chs_ok service = true /\
  exists acc, workset_loop r (chs_horizons service)
      (workset_start r (chs_horizons service) (chs_cleanup_horizon service)) (wr_row_versions r) = inr acc /\
    wres_horizons res = wres_horizons acc /\
    wres_authoritative_cleanup_horizon_local_transaction_id res =
      wres_authoritative_cleanup_horizon_local_transaction_id acc /\
    wres_reclaimed_row_version_count res = wres_reclaimed_row_version_count acc /\
    wres_retained_row_version_count res = wres_retained_row_version_count acc /\
    wres_retained_row_versions res = wres_retained_row_versions acc /\
    wres_reclaim_evidence_records res = wres_reclaim_evidence_records acc.
Proof.
  unfold ApplyLocalCleanupWithAuthoritativeInventory. intros H. cbv zeta in *.
  fold (workset_start r (chs_horizons (ComputeAuthoritativeCleanupHorizon w (workset_horizon_request r)))
    (chs_cleanup_horizon (ComputeAuthoritativeCleanupHorizon w (workset_horizon_request r)))) in H |- *.
  generalize dependent (ComputeAuthoritativeCleanupHorizon w (workset_horizon_request r)).
  intros service H.
  destruct (negb (wr_inventory_authoritative r)); [discriminate H|].
  destruct (first_refusal hold_refusal _) as [x|] eqn:H1.
  { apply first_refusal_some in H1 as (b & Hb). unfold hold_refusal in Hb. repeat case_match; by simplify_eq. }
  destruct (first_refusal retention_refusal _) as [x|] eqn:H2.
  { apply first_refusal_some in H2 as (b & Hb). unfold retention_refusal in Hb. repeat case_match; by simplify_eq. }
  destruct (chs_ok service); cbn [negb] in *.
  2:{ unfold wres_ok, workset_error in H. cbn [wres_cleanup_horizon_authoritative] in H.
      by rewrite andb_false_r in H. }
  split; [done|].
  destruct (workset_loop _ _ _ _) as [stopped|acc] eqn:Hl.
  { by rewrite (workset_loop_stopped _ _ _ _ _ Hl) in H. }
  exists acc. done.
Qed.

Lemma apply_cleanup_ok w r :
  wres_ok (ApplyLocalCleanupWithAuthoritativeInventory w r) = true ->
  let res := ApplyLocalCleanupWithAuthoritativeInventory w r in
  let h := wres_horizons res in
  let eff := wres_authoritative_cleanup_horizon_local_transaction_id res in
  let snapshots := snapshot_horizons w (workset_horizon_request r) in
  structure_ok (wr_inventory r) /\
  ProjectValidatedLocalHorizons (wr_inventory r) snapshots = inr h /\
  eff = effective_horizon (smallest_horizon h) r /\
  wres_reclaimed_row_version_count res =
    N.of_nat (length (filter (fun m => reclaims r h eff m = true) (wr_row_versions r))) /\
  wres_retained_row_version_count res =
    N.of_nat (length (filter (fun m => reclaims r h eff m = false) (wr_row_versions r))) /\
  wres_retained_row_versions res =
    (if wr_retain_row_versions_in_result r
     then filter (fun m => reclaims r h eff m = false) (wr_row_versions r) else []) /\
  wres_reclaim_evidence_records res =
    (if wr_emit_reclaim_evidence_records r
     then (fun m => MakeReclaimEvidenceRecord m eff) <$>
          filter (fun m => reclaims r h eff m = true) (wr_row_versions r) else []).
Proof.
  intros H. cbv zeta. destruct (apply_cleanup_inv w r H) as (Hc & acc & Hl & -> & -> & -> & -> & -> & ->). clear H.
  destruct (cleanup_horizon_ok _ _ Hc) as (Hs & _ & _ & _ & _ & Hproj & Heq). rewrite Heq in Hl.
  apply workset_loop_done in Hl. unfold workset_start in Hl. cbn -[smallest_horizon effective_horizon] in Hl.
  destruct Hl as (-> & -> & _ & -> & -> & -> & ->). split_and!; done.
Qed.
