(* ===== verification/PageFinality.v ===== *)
(** * Page finality evidence

    Models [page_finality_evidence.{hpp,cpp}] of [src/project/src/transaction/mga]:
    when the persisted finality map of a page or extent may stand in for a
    visibility recheck, and what an accepted map guarantees. *)

From S2P Require Import Prelude Platform TransactionState Inventory Horizon Samples.

Inductive PageFinalityScope := ps_page | ps_extent | ps_unknown.
Inductive PageFinalityConsumer :=
| pc_index_only_scan | pc_dml_recheck | pc_cleanup | pc_summary_pruning | pc_unknown.
Inductive PageFinalityMapStatus :=
| ms_current | ms_missing | ms_stale | ms_uncertain | ms_incompatible | ms_corrupt.
Inductive PageFinalityProvenance :=
| pp_engine_mga_transaction_inventory | pp_engine_mga_cleanup_horizon | pp_parser_claim
| pp_reference_claim | pp_timestamp_claim | pp_uuid_order_claim | pp_external_log_claim | pp_unknown.

#[export] Instance PageFinalityScope_eq_dec : EqDecision PageFinalityScope.
Proof. solve_decision. Defined.
#[export] Instance PageFinalityConsumer_eq_dec : EqDecision PageFinalityConsumer.
Proof. solve_decision. Defined.
#[export] Instance PageFinalityMapStatus_eq_dec : EqDecision PageFinalityMapStatus.
Proof. solve_decision. Defined.
#[export] Instance PageFinalityProvenance_eq_dec : EqDecision PageFinalityProvenance.
Proof. solve_decision. Defined.

Record PageFinalityMapEntry := mkMapEntry {
  me_scope : PageFinalityScope;
  me_status : PageFinalityMapStatus;
  me_provenance : PageFinalityProvenance;
  me_relation_uuid : Uuid;
  me_page_number : N;
  me_page_generation : N;
  me_extent_id : N;
  me_extent_epoch : N;
  me_relation_epoch : N;
  me_catalog_epoch : N;
  me_final_through_local_transaction_id : LocalTransactionId;
  me_map_generation : N;
  me_persisted_record_present : bool;
  me_checksum_valid : bool;
  me_all_visible : bool;
  me_all_final : bool }.

Record PageFinalityObservedFacts := mkObservedFacts {
  of_requested_scope : PageFinalityScope;
  of_relation_uuid : Uuid;
  of_page_number : N;
  of_page_generation : N;
  of_extent_id : N;
  of_extent_epoch : N;
  of_relation_epoch : N;
  of_catalog_epoch : N;
  of_reader_visible_through_local_transaction_id : LocalTransactionId;
  of_oldest_active_local_transaction_id : LocalTransactionId;
  of_transaction_horizon_authoritative : bool;
  of_transaction_inventory_authoritative : bool;
  of_normal_mga_visibility_authority_available : bool }.

Record PageFinalityEvidenceField := mkFinalityField { ff_name : string; ff_value : string }.

Record PageFinalityDecisionCounters := mkFinalityCounters {
  fc_evidence_examined : N;
  fc_accepted : N;
  fc_refused : N;
  fc_stale_refusals : N;
  fc_epoch_refusals : N;
  fc_horizon_refusals : N;
  fc_provenance_refusals : N }.

Record PageFinalityEvidenceDecision := mkFinalityDecision {
  fd_bound_entry : option PageFinalityMapEntry;
  fd_accepted : bool;
  fd_all_visible : bool;
  fd_all_final : bool;
  fd_map_is_transaction_finality_authority : bool;
  fd_durable_mga_inventory_remains_authority : bool;
  fd_normal_mga_recheck_required : bool;
  fd_evidence_name : string;
  fd_refusal_reason : string;
  fd_evidence : list PageFinalityEvidenceField;
  fd_counters : PageFinalityDecisionCounters }.

Record ExactIndexCleanupAuthorityDecision := mkCleanupAuthority {
  ca_accepted : bool;
  ca_cleanup_horizon_authoritative : bool;
  ca_transaction_inventory_authoritative : bool;
  ca_page_finality_authoritative : bool;
  ca_cleanup_horizon_local_transaction_id : N;
  ca_authority_source : string;
  ca_refusal_reason : string;
  ca_evidence : list PageFinalityEvidenceField;
  ca_counters : PageFinalityDecisionCounters }.

Definition PageFinalityScopeName (s : PageFinalityScope) : string :=
  match s with ps_page => "page" | ps_extent => "extent" | ps_unknown => "unknown" end.

Definition PageFinalityConsumerName (c : PageFinalityConsumer) : string :=
  match c with
  | pc_index_only_scan => "index_only_scan"
  | pc_dml_recheck => "dml_recheck"
  | pc_cleanup => "cleanup"
  | pc_summary_pruning => "summary_pruning"
  | pc_unknown => "unknown"
  end.

Definition PageFinalityMapStatusName (s : PageFinalityMapStatus) : string :=
  match s with
  | ms_current => "current"
  | ms_missing => "missing"
  | ms_stale => "stale"
  | ms_uncertain => "uncertain"
  | ms_incompatible => "incompatible"
  | ms_corrupt => "corrupt"
  end.

Definition PageFinalityProvenanceName (p : PageFinalityProvenance) : string :=
  match p with
  | pp_engine_mga_transaction_inventory => "engine_mga_transaction_inventory"
  | pp_engine_mga_cleanup_horizon => "engine_mga_cleanup_horizon"
  | pp_parser_claim => "parser_claim"
  | pp_reference_claim => "reference_claim"
  | pp_timestamp_claim => "timestamp_claim"
  | pp_uuid_order_claim => "uuid_order_claim"
  | pp_external_log_claim => "external_log_claim"
  | pp_unknown => "unknown"
  end.

Definition RequiresAllVisible (c : PageFinalityConsumer) : bool :=
  bool_decide (c = pc_index_only_scan) || bool_decide (c = pc_dml_recheck).

Definition RequiresAllFinal (c : PageFinalityConsumer) : bool :=
  bool_decide (c = pc_cleanup) || bool_decide (c = pc_summary_pruning).

(** The same predicate guards the visibility status cache. *)
Definition IsEngineMgaProvenance (p : PageFinalityProvenance) : bool :=
  bool_decide (p = pp_engine_mga_transaction_inventory) || bool_decide (p = pp_engine_mga_cleanup_horizon).

(** ** Counters and refusals *)

Definition no_finality_counters : PageFinalityDecisionCounters := mkFinalityCounters 0 0 0 0 0 0 0.

Definition finality_counters_add (a b : PageFinalityDecisionCounters) : PageFinalityDecisionCounters :=
  mkFinalityCounters (fc_evidence_examined a + fc_evidence_examined b) (fc_accepted a + fc_accepted b)
    (fc_refused a + fc_refused b) (fc_stale_refusals a + fc_stale_refusals b)
    (fc_epoch_refusals a + fc_epoch_refusals b) (fc_horizon_refusals a + fc_horizon_refusals b)
    (fc_provenance_refusals a + fc_provenance_refusals b).

Definition one_examined := mkFinalityCounters 1 0 0 0 0 0 0.
Definition one_accepted := mkFinalityCounters 0 1 0 0 0 0 0.
Definition one_refused := mkFinalityCounters 0 0 1 0 0 0 0.
Definition one_stale := mkFinalityCounters 0 0 0 1 0 0 0.
Definition one_epoch := mkFinalityCounters 0 0 0 0 1 0 0.
Definition one_horizon := mkFinalityCounters 0 0 0 0 0 1 0.
Definition one_provenance := mkFinalityCounters 0 0 0 0 0 0 1.

(** [Refuse], after the caller's counter increment [extra]. *)
Definition RefuseFinality (evidence : list PageFinalityEvidenceField) (extra : PageFinalityDecisionCounters)
    (reason : string) : PageFinalityEvidenceDecision :=
  mkFinalityDecision None false false false false true true "mga_page_finality.refused" reason evidence
    (finality_counters_add one_examined (finality_counters_add extra one_refused)).

Definition finality_evidence (entry : PageFinalityMapEntry) (observed : PageFinalityObservedFacts)
    (consumer : PageFinalityConsumer) : list PageFinalityEvidenceField :=
  [mkFinalityField "consumer" (PageFinalityConsumerName consumer);
   mkFinalityField "requested_scope" (PageFinalityScopeName (of_requested_scope observed));
   mkFinalityField "entry_scope" (PageFinalityScopeName (me_scope entry));
   mkFinalityField "entry_status" (PageFinalityMapStatusName (me_status entry));
   mkFinalityField "provenance" (PageFinalityProvenanceName (me_provenance entry));
   mkFinalityField "authority_source" "durable_mga_transaction_inventory";
   mkFinalityField "map_transaction_finality_authority" "false"].

Definition EvaluatePageFinalityEvidence (entry : PageFinalityMapEntry)
    (observed : PageFinalityObservedFacts) (consumer : PageFinalityConsumer)
    : PageFinalityEvidenceDecision :=
  let evidence := finality_evidence entry observed consumer in
  let refuse := RefuseFinality evidence in
  if (negb (RequiresAllVisible consumer) && negb (RequiresAllFinal consumer)) ||
     (negb (bool_decide (me_scope entry = ps_page)) && negb (bool_decide (me_scope entry = ps_extent))) ||
     bool_decide (of_requested_scope observed <> me_scope entry) then
    refuse no_finality_counters "scope_or_consumer_incompatible"
  else if negb (me_persisted_record_present entry) || bool_decide (me_status entry = ms_missing) then
    refuse one_stale "finality_map_missing"
  else if negb (me_checksum_valid entry) || bool_decide (me_status entry = ms_corrupt) then
    refuse one_stale "finality_map_corrupt"
  else if decide (me_status entry <> ms_current) then refuse one_stale "finality_map_not_current"
  else if negb (IsEngineMgaProvenance (me_provenance entry)) then
    refuse one_provenance "finality_map_external_provenance_refused"
  else if negb (IsEngineIdentityUuid (of_relation_uuid observed)) ||
          negb (IsEngineIdentityUuid (me_relation_uuid entry)) ||
          bool_decide (of_relation_uuid observed <> me_relation_uuid entry) then
    refuse no_finality_counters "relation_mismatch_or_missing"
  else if decide (me_page_generation entry = 0 \/ of_page_generation observed = 0 \/
                  me_extent_epoch entry = 0 \/ of_extent_epoch observed = 0 \/
                  me_relation_epoch entry = 0 \/ of_relation_epoch observed = 0 \/
                  me_catalog_epoch entry = 0 \/ of_catalog_epoch observed = 0 \/
                  me_map_generation entry = 0) then
    refuse one_epoch "generation_or_epoch_missing"
  else if decide (me_scope entry = ps_page /\
                  (me_page_number entry <> of_page_number observed \/
                   me_page_generation entry <> of_page_generation observed)) then
    refuse one_epoch "page_generation_mismatch"
  else if decide (me_extent_id entry <> of_extent_id observed \/
                  me_extent_epoch entry <> of_extent_epoch observed) then
    refuse one_epoch "extent_epoch_mismatch"
  else if decide (me_relation_epoch entry <> of_relation_epoch observed \/
                  me_catalog_epoch entry <> of_catalog_epoch observed) then
    refuse one_epoch "relation_or_catalog_epoch_mismatch"
  else if negb (local_id_valid (me_final_through_local_transaction_id entry)) ||
          negb (local_id_valid (of_reader_visible_through_local_transaction_id observed)) ||
          negb (local_id_valid (of_oldest_active_local_transaction_id observed)) ||
          negb (of_transaction_horizon_authoritative observed) ||
          negb (of_transaction_inventory_authoritative observed) then
    refuse one_horizon "transaction_horizon_or_inventory_uncertain"
  else if decide (of_oldest_active_local_transaction_id observed <=
                  me_final_through_local_transaction_id entry) then
    refuse one_horizon "active_transaction_overlaps_finality_map"
  else if decide (of_reader_visible_through_local_transaction_id observed <
                  me_final_through_local_transaction_id entry) then
    refuse one_horizon "reader_horizon_behind_finality_map"
  else if negb (of_normal_mga_visibility_authority_available observed) then
    refuse no_finality_counters "normal_mga_visibility_authority_missing"
  else if RequiresAllVisible consumer && negb (me_all_visible entry) then
    refuse no_finality_counters "page_all_visible_evidence_missing"
  else if RequiresAllFinal consumer && negb (me_all_final entry) then
    refuse no_finality_counters "extent_all_final_evidence_missing"
  else
    mkFinalityDecision (Some entry) true (me_all_visible entry) (me_all_final entry) false true false
      (if decide (me_scope entry = ps_page) then "mga_page_finality.page_all_visible.accepted"
       else "mga_page_finality.extent_all_final.accepted") "none"
      (evidence ++
       [mkFinalityField "final_through_local_transaction_id"
          (to_string (me_final_through_local_transaction_id entry));
        mkFinalityField "map_generation" (to_string (me_map_generation entry))])
      (finality_counters_add one_examined one_accepted).

Definition EvaluateExactIndexCleanupAuthority (page_finality : PageFinalityEvidenceDecision)
    (cleanup_horizon : LocalTransactionId)
    (cleanup_horizon_authoritative transaction_inventory_authoritative : bool)
    : ExactIndexCleanupAuthorityDecision :=
  let horizon_id := if local_id_valid cleanup_horizon then cleanup_horizon else 0 in
  let bool_text (b : bool) := (if b then "true" else "false")%string in
  let evidence := fd_evidence page_finality ++
    [mkFinalityField "authority_consumer" "exact_index_cleanup";
     mkFinalityField "cleanup_horizon_authoritative" (bool_text cleanup_horizon_authoritative);
     mkFinalityField "transaction_inventory_authoritative" (bool_text transaction_inventory_authoritative);
     mkFinalityField "cleanup_horizon_local_transaction_id" (to_string horizon_id)] in
  let refuse reason extra :=
    mkCleanupAuthority false cleanup_horizon_authoritative transaction_inventory_authoritative false
      horizon_id "none" reason evidence (finality_counters_add (fd_counters page_finality) extra) in
  if negb (local_id_valid cleanup_horizon) || negb cleanup_horizon_authoritative ||
     negb transaction_inventory_authoritative then
    refuse "cleanup_horizon_or_transaction_inventory_uncertain"%string one_horizon
  else if negb (fd_accepted page_finality) then
    refuse (if decide (fd_refusal_reason page_finality = ""%string) then "page_finality_refused"%string
            else fd_refusal_reason page_finality) one_refused
  else if negb (fd_all_final page_finality) then
    refuse "page_finality_all_final_required"%string one_horizon
  else if fd_map_is_transaction_finality_authority page_finality ||
          negb (fd_durable_mga_inventory_remains_authority page_finality) then
    refuse "durable_mga_inventory_authority_required"%string one_provenance
  else
    mkCleanupAuthority true cleanup_horizon_authoritative transaction_inventory_authoritative true
      horizon_id "durable_mga_transaction_inventory" "none"
      (evidence ++ [mkFinalityField "authority_source" "durable_mga_transaction_inventory";
                    mkFinalityField "page_finality_all_final" "true"])
      (fd_counters page_finality).

(** ** Correctness of page finality evidence

    What an accepted finality map guarantees when the observed oldest active
    transaction is the one the inventory's horizons report. *)

(** Everything [EvaluatePageFinalityEvidence] has checked once it accepts. *)
Record finality_accepted (entry : PageFinalityMapEntry) (observed : PageFinalityObservedFacts)
    (consumer : PageFinalityConsumer) : Prop := {
  fa_stored : me_persisted_record_present entry = true /\ me_checksum_valid entry = true /\
    me_status entry = ms_current /\ IsEngineMgaProvenance (me_provenance entry) = true;
  fa_relation : me_relation_uuid entry = of_relation_uuid observed /\
    me_relation_epoch entry = of_relation_epoch observed /\
    me_catalog_epoch entry = of_catalog_epoch observed;
  fa_place : me_scope entry = of_requested_scope observed /\ me_extent_id entry = of_extent_id observed /\
    me_extent_epoch entry = of_extent_epoch observed /\
    (me_scope entry = ps_page -> me_page_number entry = of_page_number observed /\
                                 me_page_generation entry = of_page_generation observed);
  fa_horizons : (me_final_through_local_transaction_id entry : N) <
                  of_oldest_active_local_transaction_id observed /\
    (me_final_through_local_transaction_id entry : N) <=
      of_reader_visible_through_local_transaction_id observed;
  fa_visible : RequiresAllVisible consumer = true -> me_all_visible entry = true;
  fa_final : RequiresAllFinal consumer = true -> me_all_final entry = true }.

Lemma implb_guard a b : a && negb b = false -> a = true -> b = true.
Proof. by destruct a, b. Qed.

Lemma evaluate_finality_accepted entry observed consumer :
  fd_accepted (EvaluatePageFinalityEvidence entry observed consumer) = true ->
  finality_accepted entry observed consumer /\
  fd_all_final (EvaluatePageFinalityEvidence entry observed consumer) = me_all_final entry /\
  fd_all_visible (EvaluatePageFinalityEvidence entry observed consumer) = me_all_visible entry.
Proof.
  unfold EvaluatePageFinalityEvidence. cbv zeta.
  destruct (_ || _ || _) eqn:H1; [done|]. destruct (negb (me_persisted_record_present entry) || _) eqn:H2; [done|].
  destruct (negb (me_checksum_valid entry) || _) eqn:H3; [done|].
  destruct (decide (me_status entry <> ms_current)) as [|H4]; [done|].
  destruct (negb (IsEngineMgaProvenance _)) eqn:H5; [done|].
  destruct (negb (IsEngineIdentityUuid _) || _ || _) eqn:H6; [done|].
  destruct (decide (me_page_generation entry = 0 \/ _)) as [|_]; [done|].
  destruct (decide (me_scope entry = ps_page /\ _)) as [|H8]; [done|].
  destruct (decide (me_extent_id entry <> _ \/ _)) as [|H9]; [done|].
  destruct (decide (me_relation_epoch entry <> _ \/ _)) as [|H10]; [done|].
  destruct (negb (local_id_valid _) || _ || _ || _ || _) eqn:H11; [done|].
  destruct (decide (of_oldest_active_local_transaction_id observed <= _)) as [|H12]; [done|].
  destruct (decide (of_reader_visible_through_local_transaction_id observed < _)) as [|H13]; [done|].
  destruct (negb (of_normal_mga_visibility_authority_available _)); [done|].
  destruct (RequiresAllVisible consumer && _) eqn:H14; [done|].
  destruct (RequiresAllFinal consumer && _) eqn:H15; [done|].
  intros _. split; [|done]. clear H11. bool_prop.
  repeat match goal with H : ¬ (_ <> _) |- _ => apply dec_stable in H end. split.
  - by split_and!.
  - split_and!; [by symmetry|done..].
  - split_and!; [by symmetry|done..|]. intros Hs.
    destruct (decide (me_page_number entry = of_page_number observed)) as [Hn|Hn];
      destruct (decide (me_page_generation entry = of_page_generation observed)) as [Hg|Hg]; tauto.
  - clear -H12 H13. lia.
  - by apply implb_guard.
  - by apply implb_guard.
Qed.

(** Index cleanup is authorised only over finished work.  When the map entry
    of a page or extent is judged against the oldest active transaction of the
    inventory, and the resulting authority accepts, then the stored map is
    current, uncorrupted and written by the engine for exactly the observed
    relation, extent and (for a page) page generation, it marks everything final,
    the cleanup horizon is present and authoritative, the reader sees all the map
    is final through, and no transaction of the inventory that is still active
    has a number at or below that boundary. *)
Theorem index_cleanup_authority_safe inv entry observed consumer horizon ha ia :
  ValidateLocalTransactionInventoryStructure inv = ""%string ->
  (of_oldest_active_local_transaction_id observed : N) =
    h_oldest_active_transaction (hres_horizons (ComputeLocalTransactionHorizons inv)) ->
  ca_accepted (EvaluateExactIndexCleanupAuthority
    (EvaluatePageFinalityEvidence entry observed consumer) horizon ha ia) = true ->
  finality_accepted entry observed consumer /\ me_all_final entry = true /\
  horizon <> 0 /\ ha = true /\ ia = true /\
  (forall e, e ∈ inv_entries inv -> e_local_id e <= me_final_through_local_transaction_id entry ->
   IsActiveForOat (e_state e) = false).
Proof.
  rewrite validate_structure_iff. intros Hs Hobs.
  pose proof (evaluate_finality_accepted entry observed consumer) as Hacc.
  revert Hacc. generalize (EvaluatePageFinalityEvidence entry observed consumer) as d. intros d Hacc.
  unfold EvaluateExactIndexCleanupAuthority. cbv zeta.
  destruct (negb (local_id_valid horizon) || negb ha || negb ia) eqn:Hh; [done|].
  destruct (fd_accepted d); cbn [negb]; [|done]. destruct (Hacc eq_refl) as (Ha & Hf & _).
  destruct (fd_all_final d) eqn:Hd; cbn [negb]; [|done].
  destruct (fd_map_is_transaction_finality_authority d || _); [done|]. intros _. bool_prop.
  unfold local_id_valid, kInvalidLocalTransactionId in *. bool_prop. split_and!; try done.
  intros e He Hle. destruct (IsActiveForOat (e_state e)) eqn:Hoat; [|done]. exfalso.
  pose proof (compute_horizons_no_snapshots _ Hs) as Hok. unfold ComputeLocalTransactionHorizons in *.
  destruct (compute_horizons_ok _ _ Hok) as [_ Hp].
  destruct (projection_bounds _ _ _ Hp) as (_ & _ & _ & _ & _ & _ & Hoa & _).
  specialize (Hoa e He Hoat). destruct (fa_horizons _ _ _ Ha) as [Hlt _]. rewrite Hobs in Hlt. lia.
Qed.

Definition sample_map : PageFinalityMapEntry :=
  mkMapEntry ps_page ms_current pp_engine_mga_cleanup_horizon (sample_uuid 50) 7 3 4 5 1 1 1 9
    true true true true.

Definition sample_observed : PageFinalityObservedFacts :=
  mkObservedFacts ps_page (sample_uuid 50) 7 3 4 5 1 1 1 2 true true true.

Lemma index_cleanup_authority_safe_witness :
  finality_accepted sample_map sample_observed pc_cleanup /\ me_all_final sample_map = true.
Proof.
  destruct (index_cleanup_authority_safe sample_inventory sample_map sample_observed pc_cleanup 2 true true)
    as (H & Hf & _).
  - vm_compute. reflexivity.
  - vm_compute. reflexivity.
  - vm_compute. reflexivity.
  - split; assumption.
Defined.
