(* ===== verification/VisibilityCache.v ===== *)
(** * Visibility status cache

    Models [visibility_status_cache.{hpp,cpp}] of [src/project/src/transaction/mga]:
    a cache of three kinds of answers (a range of transactions is committed, a
    page is visible or committed, a relation has no older reader), each stamped
    with generations and epochs and validated before use.  The cache argument is a
    pointer in the source: [None] is the null pointer, and every operation returns
    the cache it leaves behind with its decision. *)

From S2P Require Import Prelude Platform TransactionState Inventory PageFinality.

Inductive VisibilityStatusCacheEntryStatus :=
| cs_current | cs_missing | cs_stale | cs_uncertain | cs_incompatible.

Inductive VisibilityStatusCacheProbe :=
| cp_txid_range_all_committed | cp_page_all_visible | cp_page_all_committed
| cp_relation_no_older_reader | cp_unknown.

#[export] Instance VisibilityStatusCacheEntryStatus_eq_dec : EqDecision VisibilityStatusCacheEntryStatus.
Proof. solve_decision. Defined.
#[export] Instance VisibilityStatusCacheProbe_eq_dec : EqDecision VisibilityStatusCacheProbe.
Proof. solve_decision. Defined.

Record VisibilityStatusCacheFacts := mkCacheFacts {
  vf_cache_generation : N;
  vf_invalidation_generation : N;
  vf_horizon_epoch : N;
  vf_snapshot_epoch : N;
  vf_relation_epoch : N;
  vf_catalog_epoch : N;
  vf_reader_visible_through_local_transaction_id : LocalTransactionId;
  vf_oldest_active_local_transaction_id : LocalTransactionId;
  vf_oldest_snapshot_local_transaction_id : LocalTransactionId;
  vf_transaction_inventory_authoritative : bool;
  vf_transaction_horizon_authoritative : bool;
  vf_normal_mga_visibility_authority_available : bool }.

Record VisibilityStatusCacheEvidenceField := mkCacheField { cf_name : string; cf_value : string }.

Record VisibilityStatusCacheCounters := mkCacheCounters {
  vc_probes : N;
  vc_accepted : N;
  vc_refused : N;
  vc_stale_refusals : N;
  vc_epoch_refusals : N;
  vc_horizon_refusals : N;
  vc_authority_refusals : N }.

Record VisibilityStatusCacheDecision := mkCacheDecision {
  vd_accepted : bool;
  vd_all_committed : bool;
  vd_all_visible : bool;
  vd_no_older_reader : bool;
  vd_cache_is_transaction_finality_authority : bool;
  vd_durable_mga_inventory_remains_authority : bool;
  vd_authoritative_path_required : bool;
  vd_probe : VisibilityStatusCacheProbe;
  vd_evidence_name : string;
  vd_refusal_reason : string;
  vd_counters : VisibilityStatusCacheCounters;
  vd_evidence : list VisibilityStatusCacheEvidenceField }.

Record TransactionStatusRangeCacheRequest := mkRangeRequest {
  rq_first_local_transaction_id : LocalTransactionId;
  rq_last_local_transaction_id : LocalTransactionId;
  rq_facts : VisibilityStatusCacheFacts }.

(** The stamp every kind of entry carries and [ValidateEntryFreshness] reads. *)
Record CacheEntryStamp := mkStamp {
  st_status : VisibilityStatusCacheEntryStatus;
  st_provenance : PageFinalityProvenance;
  st_cache_generation : N;
  st_invalidation_generation : N;
  st_horizon_epoch : N;
  st_snapshot_epoch : N }.

Record TransactionStatusRangeCacheEntry := mkRangeEntry {
  re_stamp : CacheEntryStamp;
  re_first_local_transaction_id : LocalTransactionId;
  re_last_local_transaction_id : LocalTransactionId;
  re_all_committed : bool }.

Record PageVisibilityStatusCacheRequest := mkPageRequest {
  pq_relation_uuid : Uuid;
  pq_page_number : N;
  pq_page_generation : N;
  pq_extent_id : N;
  pq_extent_epoch : N;
  pq_final_through_local_transaction_id : LocalTransactionId;
  pq_facts : VisibilityStatusCacheFacts }.

Record PageVisibilityStatusCacheEntry := mkPageEntry {
  pe_stamp : CacheEntryStamp;
  pe_relation_uuid : Uuid;
  pe_page_number : N;
  pe_page_generation : N;
  pe_extent_id : N;
  pe_extent_epoch : N;
  pe_relation_epoch : N;
  pe_catalog_epoch : N;
  pe_final_through_local_transaction_id : LocalTransactionId;
  pe_all_visible : bool;
  pe_all_committed : bool }.

Record RelationNoOlderReaderCacheRequest := mkReaderRequest {
  nq_relation_uuid : Uuid;
  nq_no_reader_older_than_local_transaction_id : LocalTransactionId;
  nq_facts : VisibilityStatusCacheFacts }.

Record RelationNoOlderReaderCacheEntry := mkReaderEntry {
  ne_stamp : CacheEntryStamp;
  ne_relation_uuid : Uuid;
  ne_relation_epoch : N;
  ne_catalog_epoch : N;
  ne_no_reader_older_than_local_transaction_id : LocalTransactionId }.

Record MgaVisibilityStatusCache := mkCache {
  ca_cache_generation : N;
  ca_invalidation_generation : N;
  ca_transaction_status_ranges : list TransactionStatusRangeCacheEntry;
  ca_page_visibility_entries : list PageVisibilityStatusCacheEntry;
  ca_relation_reader_entries : list RelationNoOlderReaderCacheEntry;
  ca_cache_counters : VisibilityStatusCacheCounters }.

Definition VisibilityStatusCacheEntryStatusName (s : VisibilityStatusCacheEntryStatus) : string :=
  match s with
  | cs_current => "current" | cs_missing => "missing" | cs_stale => "stale"
  | cs_uncertain => "uncertain" | cs_incompatible => "incompatible"
  end.

Definition VisibilityStatusCacheProbeName (p : VisibilityStatusCacheProbe) : string :=
  match p with
  | cp_txid_range_all_committed => "txid_range_all_committed"
  | cp_page_all_visible => "page_all_visible"
  | cp_page_all_committed => "page_all_committed"
  | cp_relation_no_older_reader => "relation_no_older_reader"
  | cp_unknown => "unknown"
  end.

(** ** Decisions and counters *)

Definition no_cache_counters : VisibilityStatusCacheCounters := mkCacheCounters 0 0 0 0 0 0 0.

Definition MergeCounters (target source : VisibilityStatusCacheCounters) : VisibilityStatusCacheCounters :=
  mkCacheCounters (u64_add (vc_probes target) (vc_probes source))
    (u64_add (vc_accepted target) (vc_accepted source))
    (u64_add (vc_refused target) (vc_refused source))
    (u64_add (vc_stale_refusals target) (vc_stale_refusals source))
    (u64_add (vc_epoch_refusals target) (vc_epoch_refusals source))
    (u64_add (vc_horizon_refusals target) (vc_horizon_refusals source))
    (u64_add (vc_authority_refusals target) (vc_authority_refusals source)).

Definition bump_counters (by_ : VisibilityStatusCacheCounters) (d : VisibilityStatusCacheDecision)
    : VisibilityStatusCacheDecision :=
  mkCacheDecision (vd_accepted d) (vd_all_committed d) (vd_all_visible d) (vd_no_older_reader d)
    (vd_cache_is_transaction_finality_authority d) (vd_durable_mga_inventory_remains_authority d)
    (vd_authoritative_path_required d) (vd_probe d) (vd_evidence_name d) (vd_refusal_reason d)
    (MergeCounters (vd_counters d) by_) (vd_evidence d).

Definition stale_refusal := mkCacheCounters 0 0 0 1 0 0 0.
Definition epoch_refusal := mkCacheCounters 0 0 0 0 1 0 0.
Definition horizon_refusal := mkCacheCounters 0 0 0 0 0 1 0.
Definition authority_refusal := mkCacheCounters 0 0 0 0 0 0 1.

Definition AddCacheEvidence (d : VisibilityStatusCacheDecision) (name value : string)
    : VisibilityStatusCacheDecision :=
  mkCacheDecision (vd_accepted d) (vd_all_committed d) (vd_all_visible d) (vd_no_older_reader d)
    (vd_cache_is_transaction_finality_authority d) (vd_durable_mga_inventory_remains_authority d)
    (vd_authoritative_path_required d) (vd_probe d) (vd_evidence_name d) (vd_refusal_reason d)
    (vd_counters d) (vd_evidence d ++ [mkCacheField name value]).

(** The answer bits an operation sets before it accepts. *)
Definition set_answers (all_committed all_visible no_older_reader : bool)
    (d : VisibilityStatusCacheDecision) : VisibilityStatusCacheDecision :=
  mkCacheDecision (vd_accepted d) all_committed all_visible no_older_reader
    (vd_cache_is_transaction_finality_authority d) (vd_durable_mga_inventory_remains_authority d)
    (vd_authoritative_path_required d) (vd_probe d) (vd_evidence_name d) (vd_refusal_reason d)
    (vd_counters d) (vd_evidence d).

Definition StartDecision (probe : VisibilityStatusCacheProbe) : VisibilityStatusCacheDecision :=
  mkCacheDecision false false false false false true true probe
    "mga_visibility_status_cache.refused" "not_evaluated" (mkCacheCounters 1 0 0 0 0 0 0)
    [mkCacheField "probe" (VisibilityStatusCacheProbeName probe);
     mkCacheField "authority_source" "durable_mga_transaction_inventory";
     mkCacheField "cache_transaction_finality_authority" "false"].

Definition Refuse (d : VisibilityStatusCacheDecision) (reason : string) : VisibilityStatusCacheDecision :=
  mkCacheDecision false false false false
    (vd_cache_is_transaction_finality_authority d) (vd_durable_mga_inventory_remains_authority d)
    true (vd_probe d) "mga_visibility_status_cache.refused" reason
    (MergeCounters (vd_counters d) (mkCacheCounters 0 0 1 0 0 0 0)) (vd_evidence d).

Definition Accept (d : VisibilityStatusCacheDecision) (evidence_name : string) : VisibilityStatusCacheDecision :=
  mkCacheDecision true (vd_all_committed d) (vd_all_visible d) (vd_no_older_reader d)
    (vd_cache_is_transaction_finality_authority d) (vd_durable_mga_inventory_remains_authority d)
    false (vd_probe d) evidence_name "none"
    (MergeCounters (vd_counters d) (mkCacheCounters 0 1 0 0 0 0 0)) (vd_evidence d).

Definition IsRefused (d : VisibilityStatusCacheDecision) : bool :=
  negb (bool_decide (vd_refusal_reason d = ""%string)) &&
  negb (bool_decide (vd_refusal_reason d = "not_evaluated"%string)).

(** ** Validation *)

Definition CommonFactsPresent (f : VisibilityStatusCacheFacts) : bool :=
  bool_decide (vf_cache_generation f <> 0) && bool_decide (vf_invalidation_generation f <> 0) &&
  bool_decide (vf_horizon_epoch f <> 0) && bool_decide (vf_snapshot_epoch f <> 0) &&
  local_id_valid (vf_reader_visible_through_local_transaction_id f) &&
  local_id_valid (vf_oldest_active_local_transaction_id f) &&
  local_id_valid (vf_oldest_snapshot_local_transaction_id f).

Definition RelationFactsPresent (f : VisibilityStatusCacheFacts) : bool :=
  bool_decide (vf_relation_epoch f <> 0) && bool_decide (vf_catalog_epoch f <> 0).

Definition CommonAuthorityPresent (f : VisibilityStatusCacheFacts) : bool :=
  vf_transaction_inventory_authoritative f && vf_transaction_horizon_authoritative f &&
  vf_normal_mga_visibility_authority_available f.

Definition ValidateCommonFacts (d : VisibilityStatusCacheDecision) (f : VisibilityStatusCacheFacts)
    : VisibilityStatusCacheDecision :=
  if negb (CommonFactsPresent f) then
    Refuse (bump_counters epoch_refusal d) "cache_generation_epoch_or_horizon_missing"
  else if negb (CommonAuthorityPresent f) then
    Refuse (bump_counters authority_refusal d) "mga_authority_inputs_uncertain"
  else d.

Definition ValidateCacheContainerFreshness (d : VisibilityStatusCacheDecision)
    (cache : MgaVisibilityStatusCache) (f : VisibilityStatusCacheFacts) : VisibilityStatusCacheDecision :=
  let d := AddCacheEvidence d "cache_container_generation" (to_string (ca_cache_generation cache)) in
  let d := AddCacheEvidence d "cache_container_invalidation_generation"
             (to_string (ca_invalidation_generation cache)) in
  if decide (ca_cache_generation cache = 0 \/ ca_invalidation_generation cache = 0 \/
             ca_cache_generation cache <> vf_cache_generation f \/
             ca_invalidation_generation cache <> vf_invalidation_generation f) then
    Refuse (bump_counters stale_refusal d) "visibility_status_cache_generation_mismatch"
  else d.

Definition ValidateEntryFreshness (d : VisibilityStatusCacheDecision) (e : CacheEntryStamp)
    (f : VisibilityStatusCacheFacts) : VisibilityStatusCacheDecision :=
  if decide (st_status e = cs_missing) then
    Refuse (bump_counters stale_refusal d) "visibility_status_cache_missing"
  else if decide (st_status e <> cs_current) then
    Refuse (bump_counters stale_refusal d) "visibility_status_cache_not_current"
  else if negb (IsEngineMgaProvenance (st_provenance e)) then
    Refuse (bump_counters authority_refusal d) "visibility_status_cache_external_provenance_refused"
  else if decide (st_cache_generation e <> vf_cache_generation f \/
                  st_invalidation_generation e <> vf_invalidation_generation f) then
    Refuse (bump_counters stale_refusal d) "visibility_status_cache_generation_mismatch"
  else if decide (st_horizon_epoch e <> vf_horizon_epoch f \/ st_snapshot_epoch e <> vf_snapshot_epoch f) then
    Refuse (bump_counters epoch_refusal d) "visibility_status_cache_epoch_mismatch"
  else d.

Definition ReaderAndActiveHorizonsCover (f : VisibilityStatusCacheFacts) (through : LocalTransactionId) : bool :=
  local_id_valid through &&
  bool_decide ((through : N) <= vf_reader_visible_through_local_transaction_id f) &&
  bool_decide ((through : N) < vf_oldest_active_local_transaction_id f).

Definition IsInventoryCommittedEvidence (e : TransactionInventoryEntry) : bool :=
  HasCommittedInventoryOutcome e && bool_decide (e_commit_sequence e <> 0) && e_evidence_record_written e.

(** ** State updates *)

Definition MakeMgaVisibilityStatusCache (cache_generation invalidation_generation : N)
    : MgaVisibilityStatusCache :=
  mkCache cache_generation invalidation_generation [] [] [] no_cache_counters.

Definition merge_into (cache : MgaVisibilityStatusCache) (d : VisibilityStatusCacheDecision)
    : option MgaVisibilityStatusCache * VisibilityStatusCacheDecision :=
  (Some (mkCache (ca_cache_generation cache) (ca_invalidation_generation cache)
     (ca_transaction_status_ranges cache) (ca_page_visibility_entries cache)
     (ca_relation_reader_entries cache) (MergeCounters (ca_cache_counters cache) (vd_counters d))), d).

Definition push_range (cache : MgaVisibilityStatusCache) (e : TransactionStatusRangeCacheEntry) :=
  mkCache (ca_cache_generation cache) (ca_invalidation_generation cache)
    (ca_transaction_status_ranges cache ++ [e]) (ca_page_visibility_entries cache)
    (ca_relation_reader_entries cache) (ca_cache_counters cache).

Definition push_page (cache : MgaVisibilityStatusCache) (e : PageVisibilityStatusCacheEntry) :=
  mkCache (ca_cache_generation cache) (ca_invalidation_generation cache)
    (ca_transaction_status_ranges cache) (ca_page_visibility_entries cache ++ [e])
    (ca_relation_reader_entries cache) (ca_cache_counters cache).

Definition push_reader (cache : MgaVisibilityStatusCache) (e : RelationNoOlderReaderCacheEntry) :=
  mkCache (ca_cache_generation cache) (ca_invalidation_generation cache)
    (ca_transaction_status_ranges cache) (ca_page_visibility_entries cache)
    (ca_relation_reader_entries cache ++ [e]) (ca_cache_counters cache).

Definition current_stamp (f : VisibilityStatusCacheFacts) : CacheEntryStamp :=
  mkStamp cs_current pp_engine_mga_transaction_inventory (vf_cache_generation f)
    (vf_invalidation_generation f) (vf_horizon_epoch f) (vf_snapshot_epoch f).

(** ** Transaction status ranges *)

(** The loop over [id], [id + 1], ...; it leaves at the last number before the
    increment could wrap. *)
Fixpoint range_committed (inv : LocalTransactionInventory) (id : N) (more : nat) : bool :=
  let lookup := LookupLocalTransaction inv (MakeLocalTransactionId id) in
  if negb (lr_ok lookup) || negb (IsInventoryCommittedEvidence (lr_entry lookup)) then false
  else match more with O => true | S more => range_committed inv (id + 1) more end.

Definition CacheTransactionStatusRangeFromInventory (cache : option MgaVisibilityStatusCache)
    (inv : LocalTransactionInventory) (r : TransactionStatusRangeCacheRequest)
    : option MgaVisibilityStatusCache * VisibilityStatusCacheDecision :=
  let f := rq_facts r in
  let first := rq_first_local_transaction_id r in
  let last := rq_last_local_transaction_id r in
  let d := ValidateCommonFacts (StartDecision cp_txid_range_all_committed) f in
  if IsRefused d then (cache, d) else
  match cache with
  | None => (cache, Refuse (bump_counters stale_refusal d) "txid_range_invalid")
  | Some c =>
    if negb (local_id_valid first) || negb (local_id_valid last) || bool_decide ((last : N) < first) then
      (cache, Refuse (bump_counters stale_refusal d) "txid_range_invalid")
    else
    let d := ValidateCacheContainerFreshness d c f in
    if IsRefused d then merge_into c d
    else if negb (ReaderAndActiveHorizonsCover f last) then
      (cache, Refuse (bump_counters horizon_refusal d) "txid_range_horizon_not_closed")
    else if negb (range_committed inv first (N.to_nat (last - first))) then
      (cache, Refuse (bump_counters authority_refusal d) "txid_range_not_all_committed_by_inventory")
    else
      let c := push_range c (mkRangeEntry (current_stamp f) first last true) in
      let d := set_answers true (vd_all_visible d) (vd_no_older_reader d) d in
      let d := AddCacheEvidence d "first_local_transaction_id" (to_string first) in
      let d := AddCacheEvidence d "last_local_transaction_id" (to_string last) in
      merge_into c (Accept d "mga_visibility_status_cache.txid_range_all_committed.cached")
  end.

(** The entry an evaluation stops at: the first one that covers the request. *)
Definition range_covers (r : TransactionStatusRangeCacheRequest) (e : TransactionStatusRangeCacheEntry) : bool :=
  local_id_valid (re_first_local_transaction_id e) && local_id_valid (re_last_local_transaction_id e) &&
  bool_decide ((re_first_local_transaction_id e : N) <= rq_first_local_transaction_id r) &&
  bool_decide ((rq_last_local_transaction_id r : N) <= re_last_local_transaction_id e).

Definition EvaluateCachedTransactionStatusRange (cache : option MgaVisibilityStatusCache)
    (r : TransactionStatusRangeCacheRequest)
    : option MgaVisibilityStatusCache * VisibilityStatusCacheDecision :=
  let f := rq_facts r in
  let d := ValidateCommonFacts (StartDecision cp_txid_range_all_committed) f in
  if IsRefused d then (cache, d) else
  match cache with
  | None => (cache, Refuse (bump_counters stale_refusal d) "visibility_status_cache_missing")
  | Some c =>
    if negb (local_id_valid (rq_first_local_transaction_id r)) ||
       negb (local_id_valid (rq_last_local_transaction_id r)) then
      (cache, Refuse (bump_counters stale_refusal d) "visibility_status_cache_missing")
    else
    let d := ValidateCacheContainerFreshness d c f in
    if IsRefused d then merge_into c d else
    match List.find (range_covers r) (ca_transaction_status_ranges c) with
    | None => merge_into c (Refuse (bump_counters stale_refusal d) "visibility_status_cache_missing")
    | Some e =>
      let d := ValidateEntryFreshness d (re_stamp e) f in
      if IsRefused d then merge_into c d
      else if negb (re_all_committed e) ||
              negb (ReaderAndActiveHorizonsCover f (rq_last_local_transaction_id r)) then
        merge_into c (Refuse (bump_counters horizon_refusal d) "txid_range_horizon_not_closed")
      else
        let d := set_answers true (vd_all_visible d) (vd_no_older_reader d) d in
        let d := AddCacheEvidence d "cache_generation" (to_string (st_cache_generation (re_stamp e))) in
        merge_into c (Accept d "mga_visibility_status_cache.txid_range_all_committed.accepted")
    end
  end.

(** ** Page visibility *)

(** The evidence was issued for the page, epochs and boundary of the request. *)
Definition finality_binds (r : PageVisibilityStatusCacheRequest)
    (bound : option PageFinalityMapEntry) : bool :=
  match bound with
  | None => false
  | Some b =>
    bool_decide (me_scope b = ps_page) && bool_decide (me_relation_uuid b = pq_relation_uuid r) &&
    bool_decide (me_page_number b = pq_page_number r) &&
    bool_decide (me_page_generation b = pq_page_generation r) &&
    bool_decide (me_extent_id b = pq_extent_id r) && bool_decide (me_extent_epoch b = pq_extent_epoch r) &&
    bool_decide (me_relation_epoch b = vf_relation_epoch (pq_facts r)) &&
    bool_decide (me_catalog_epoch b = vf_catalog_epoch (pq_facts r)) &&
    bool_decide ((me_final_through_local_transaction_id b : N) = pq_final_through_local_transaction_id r)
  end.

Definition CachePageVisibilityStatus (cache : option MgaVisibilityStatusCache)
    (r : PageVisibilityStatusCacheRequest) (page_finality : PageFinalityEvidenceDecision)
    (all_committed : bool) : option MgaVisibilityStatusCache * VisibilityStatusCacheDecision :=
  let f := pq_facts r in
  let d := ValidateCommonFacts (StartDecision cp_page_all_visible) f in
  if IsRefused d then (cache, d) else
  match cache with
  | None => (cache, Refuse (bump_counters epoch_refusal d) "page_visibility_cache_identity_or_epoch_missing")
  | Some c =>
    if negb (IsEngineIdentityUuid (pq_relation_uuid r)) || bool_decide (pq_page_generation r = 0) ||
       bool_decide (pq_extent_epoch r = 0) || negb (RelationFactsPresent f) then
      (cache, Refuse (bump_counters epoch_refusal d) "page_visibility_cache_identity_or_epoch_missing")
    else
    let d := ValidateCacheContainerFreshness d c f in
    if IsRefused d then merge_into c d
    else if negb (fd_accepted page_finality) || negb (fd_all_visible page_finality) ||
            fd_map_is_transaction_finality_authority page_finality ||
            negb (fd_durable_mga_inventory_remains_authority page_finality) then
      (cache, Refuse (bump_counters authority_refusal d) "page_finality_evidence_not_acceptable_for_cache")
    else if negb (finality_binds r (fd_bound_entry page_finality)) then
      (cache, Refuse (bump_counters authority_refusal d) "page_finality_evidence_binding_mismatch")
    else if negb (ReaderAndActiveHorizonsCover f (pq_final_through_local_transaction_id r)) then
      (cache, Refuse (bump_counters horizon_refusal d) "page_visibility_horizon_not_closed")
    else
      let c := push_page c (mkPageEntry (current_stamp f) (pq_relation_uuid r) (pq_page_number r)
                 (pq_page_generation r) (pq_extent_id r) (pq_extent_epoch r) (vf_relation_epoch f)
                 (vf_catalog_epoch f) (pq_final_through_local_transaction_id r) true all_committed) in
      merge_into c (Accept (set_answers all_committed true (vd_no_older_reader d) d)
                      "mga_visibility_status_cache.page_visibility.cached")
  end.

Definition page_matches (r : PageVisibilityStatusCacheRequest) (e : PageVisibilityStatusCacheEntry) : bool :=
  bool_decide (pe_relation_uuid e = pq_relation_uuid r) && bool_decide (pe_page_number e = pq_page_number r) &&
  bool_decide (pe_page_generation e = pq_page_generation r) && bool_decide (pe_extent_id e = pq_extent_id r).

Definition EvaluateCachedPageVisibilityStatus (cache : option MgaVisibilityStatusCache)
    (r : PageVisibilityStatusCacheRequest) (probe : VisibilityStatusCacheProbe)
    : option MgaVisibilityStatusCache * VisibilityStatusCacheDecision :=
  let f := pq_facts r in
  let d := ValidateCommonFacts (StartDecision probe) f in
  if IsRefused d then (cache, d)
  else if negb (bool_decide (probe = cp_page_all_visible)) &&
          negb (bool_decide (probe = cp_page_all_committed)) then
    (cache, Refuse d "page_visibility_probe_incompatible")
  else
  match cache with
  | None => (cache, Refuse (bump_counters stale_refusal d) "visibility_status_cache_missing")
  | Some c =>
    if negb (IsEngineIdentityUuid (pq_relation_uuid r)) then
      (cache, Refuse (bump_counters stale_refusal d) "visibility_status_cache_missing")
    else
    let d := ValidateCacheContainerFreshness d c f in
    if IsRefused d then merge_into c d else
    match List.find (page_matches r) (ca_page_visibility_entries c) with
    | None => merge_into c (Refuse (bump_counters stale_refusal d) "visibility_status_cache_missing")
    | Some e =>
      let d := ValidateEntryFreshness d (pe_stamp e) f in
      if IsRefused d then merge_into c d
      else if decide (pe_extent_epoch e <> pq_extent_epoch r \/ pe_relation_epoch e <> vf_relation_epoch f \/
                      pe_catalog_epoch e <> vf_catalog_epoch f) then
        merge_into c (Refuse (bump_counters epoch_refusal d) "page_visibility_epoch_mismatch")
      else if negb (ReaderAndActiveHorizonsCover f (pe_final_through_local_transaction_id e)) then
        merge_into c (Refuse (bump_counters horizon_refusal d) "page_visibility_horizon_not_closed")
      else if bool_decide (probe = cp_page_all_visible) && negb (pe_all_visible e) then
        merge_into c (Refuse d "page_all_visible_cache_evidence_missing")
      else if bool_decide (probe = cp_page_all_committed) && negb (pe_all_committed e) then
        merge_into c (Refuse d "page_all_committed_cache_evidence_missing")
      else
        merge_into c (Accept (set_answers (pe_all_committed e) (pe_all_visible e) (vd_no_older_reader d) d)
          (if decide (probe = cp_page_all_visible)
           then "mga_visibility_status_cache.page_all_visible.accepted"
           else "mga_visibility_status_cache.page_all_committed.accepted"))
    end
  end.

(** ** Relations without older readers *)

Definition CacheRelationNoOlderReaderStatus (cache : option MgaVisibilityStatusCache)
    (r : RelationNoOlderReaderCacheRequest)
    : option MgaVisibilityStatusCache * VisibilityStatusCacheDecision :=
  let f := nq_facts r in
  let older := nq_no_reader_older_than_local_transaction_id r in
  let d := ValidateCommonFacts (StartDecision cp_relation_no_older_reader) f in
  if IsRefused d then (cache, d) else
  match cache with
  | None => (cache, Refuse (bump_counters epoch_refusal d) "relation_reader_cache_identity_or_epoch_missing")
  | Some c =>
    if negb (IsEngineIdentityUuid (nq_relation_uuid r)) || negb (local_id_valid older) ||
       negb (RelationFactsPresent f) then
      (cache, Refuse (bump_counters epoch_refusal d) "relation_reader_cache_identity_or_epoch_missing")
    else
    let d := ValidateCacheContainerFreshness d c f in
    if IsRefused d then merge_into c d
    else if decide ((vf_oldest_snapshot_local_transaction_id f : N) <= older) then
      (cache, Refuse (bump_counters horizon_refusal d) "relation_reader_horizon_not_closed")
    else
      let c := push_reader c (mkReaderEntry (current_stamp f) (nq_relation_uuid r) (vf_relation_epoch f)
                 (vf_catalog_epoch f) older) in
      merge_into c (Accept (set_answers (vd_all_committed d) (vd_all_visible d) true d)
                      "mga_visibility_status_cache.relation_no_older_reader.cached")
  end.

Definition reader_matches (r : RelationNoOlderReaderCacheRequest) (e : RelationNoOlderReaderCacheEntry) : bool :=
  bool_decide (ne_relation_uuid e = nq_relation_uuid r) &&
  bool_decide ((nq_no_reader_older_than_local_transaction_id r : N) <=
               ne_no_reader_older_than_local_transaction_id e).

Definition EvaluateCachedRelationNoOlderReaderStatus (cache : option MgaVisibilityStatusCache)
    (r : RelationNoOlderReaderCacheRequest)
    : option MgaVisibilityStatusCache * VisibilityStatusCacheDecision :=
  let f := nq_facts r in
  let older := nq_no_reader_older_than_local_transaction_id r in
  let d := ValidateCommonFacts (StartDecision cp_relation_no_older_reader) f in
  if IsRefused d then (cache, d) else
  match cache with
  | None => (cache, Refuse (bump_counters stale_refusal d) "visibility_status_cache_missing")
  | Some c =>
    if negb (IsEngineIdentityUuid (nq_relation_uuid r)) || negb (local_id_valid older) then
      (cache, Refuse (bump_counters stale_refusal d) "visibility_status_cache_missing")
    else
    let d := ValidateCacheContainerFreshness d c f in
    if IsRefused d then merge_into c d else
    match List.find (reader_matches r) (ca_relation_reader_entries c) with
    | None => merge_into c (Refuse (bump_counters stale_refusal d) "visibility_status_cache_missing")
    | Some e =>
      let d := ValidateEntryFreshness d (ne_stamp e) f in
      if IsRefused d then merge_into c d
      else if decide (ne_relation_epoch e <> vf_relation_epoch f \/ ne_catalog_epoch e <> vf_catalog_epoch f) then
        merge_into c (Refuse (bump_counters epoch_refusal d) "relation_reader_epoch_mismatch")
      else if decide ((vf_oldest_snapshot_local_transaction_id f : N) <= older) then
        merge_into c (Refuse (bump_counters horizon_refusal d) "relation_reader_horizon_not_closed")
      else
        merge_into c (Accept (set_answers (vd_all_committed d) (vd_all_visible d) true d)
                        "mga_visibility_status_cache.relation_no_older_reader.accepted")
    end
  end.
