(* ===== verification/Bytes.v ===== *)
(** * Byte buffers

    Little-endian loads and stores of [core/platform/runtime_platform.hpp] on a
    buffer of bytes.  An access outside the buffer, undefined in the source, is
    [None]; every theorem that a routine returns [Some] is a bounds theorem.  The last
    part relates loads at fixed offsets to records stored as sequences of fields. *)

From S2P Require Import Prelude Platform.

Definition is_byte (b : N) : Prop := b < 256.

(** The [w] bytes of a [8 w]-bit value, least significant first; wider values lose
    their high bytes, as in a cast. *)
Fixpoint le_bytes (w : nat) (v : N) : list N :=
  match w with O => [] | S w => v mod 256 :: le_bytes w (v / 256) end.

Fixpoint le_value (bs : list N) : N :=
  match bs with [] => 0 | b :: bs => b + 256 * le_value bs end.

Definition slice (off n : nat) (l : list N) : list N := take n (drop off l).

Definition load_bytes (off n : nat) (l : list N) : option (list N) :=
  if decide (off + n <= length l)%nat then Some (slice off n l) else None.

Definition store_bytes (off : nat) (bs l : list N) : option (list N) :=
  if decide (off + length bs <= length l)%nat
  then Some (take off l ++ bs ++ drop (off + length bs) l) else None.

Definition LoadLittle16 (off : nat) (l : list N) : option N := le_value <$> load_bytes off 2 l.
Definition LoadLittle32 (off : nat) (l : list N) : option N := le_value <$> load_bytes off 4 l.
Definition LoadLittle64 (off : nat) (l : list N) : option N := le_value <$> load_bytes off 8 l.
Definition StoreLittle16 (off : nat) (v : N) (l : list N) : option (list N) := store_bytes off (le_bytes 2 v) l.
Definition StoreLittle32 (off : nat) (v : N) (l : list N) : option (list N) := store_bytes off (le_bytes 4 v) l.
Definition StoreLittle64 (off : nat) (v : N) (l : list N) : option (list N) := store_bytes off (le_bytes 8 v) l.

(** ** Values and their bytes *)

Lemma length_le_bytes w v : length (le_bytes w v) = w.
Proof. revert v. induction w as [|w IH]; intros v; simpl; [done|]. by rewrite IH. Qed.

Lemma le_bytes_bytes w v : Forall is_byte (le_bytes w v).
Proof.
  revert v. induction w as [|w IH]; intros v; simpl; constructor; [|done].
  unfold is_byte. by apply N.mod_lt.
Qed.

Lemma le_value_bytes w v : v < 256 ^ N.of_nat w -> le_value (le_bytes w v) = v.
Proof.
  revert v. induction w as [|w IH]; intros v Hv.
  { simpl in *. rewrite N.pow_0_r in Hv. lia. }
  simpl. rewrite IH.
  - symmetry. rewrite N.add_comm. apply N.div_mod'.
  - rewrite Nat2N.inj_succ, N.pow_succ_r' in Hv. by apply N.Div0.div_lt_upper_bound.
Qed.

Lemma le_value_bound bs : Forall is_byte bs -> le_value bs < 256 ^ N.of_nat (length bs).
Proof.
  induction 1 as [|b bs Hb _ IH]; simpl; [by rewrite N.pow_0_r|].
  rewrite Nat2N.inj_succ, N.pow_succ_r'. unfold is_byte in Hb. lia.
Qed.

(** ** Slices *)

Lemma length_slice off n l : (off + n <= length l)%nat -> length (slice off n l) = n.
Proof. intros. unfold slice. rewrite length_take, length_drop. lia. Qed.

Lemma slice_app_l off n l k : (off + n <= length l)%nat -> slice off n (l ++ k) = slice off n l.
Proof.
  intros. unfold slice. rewrite drop_app_le by lia. apply take_app_le. rewrite length_drop. lia.
Qed.

Lemma slice_app_r off n l k : (length l <= off)%nat -> slice off n (l ++ k) = slice (off - length l) n k.
Proof. intros. unfold slice. by rewrite drop_app_ge by lia. Qed.

Lemma slice_bytes off n l : Forall is_byte l -> Forall is_byte (slice off n l).
Proof. intros. unfold slice. by apply Forall_take, Forall_drop. Qed.

(** ** Loads and stores *)

Definition stored (off : nat) (bs l : list N) : list N := take off l ++ bs ++ drop (off + length bs) l.

Lemma store_bytes_some off bs l :
  (off + length bs <= length l)%nat -> store_bytes off bs l = Some (stored off bs l).
Proof. intros. unfold store_bytes. by rewrite decide_True. Qed.

Lemma length_stored off bs l : (off + length bs <= length l)%nat -> length (stored off bs l) = length l.
Proof. intros. unfold stored. rewrite !length_app, length_take, length_drop. lia. Qed.

Lemma store_bytes_length off bs l l' : store_bytes off bs l = Some l' -> length l' = length l.
Proof. unfold store_bytes. case_decide; intros; simplify_eq. by apply length_stored. Qed.

Lemma slice_stored_same off bs l :
  (off + length bs <= length l)%nat -> slice off (length bs) (stored off bs l) = bs.
Proof.
  intros. unfold stored. rewrite slice_app_r by (rewrite length_take; lia).
  rewrite length_take, slice_app_l by lia.
  replace (off - off `min` length l)%nat with 0%nat by lia. unfold slice. by rewrite drop_0, take_ge.
Qed.

Lemma slice_stored_before off bs l o n :
  (off + length bs <= length l)%nat -> (o + n <= off)%nat -> slice o n (stored off bs l) = slice o n l.
Proof.
  intros. unfold stored. rewrite slice_app_l by (rewrite length_take; lia). unfold slice.
  rewrite <- (take_drop off l) at 2.
  rewrite drop_app_le by (rewrite length_take; lia).
  rewrite take_app_le; [done|]. rewrite length_drop, length_take. lia.
Qed.

Lemma slice_stored_after off bs l o n :
  (off + length bs <= length l)%nat -> (off + length bs <= o)%nat -> slice o n (stored off bs l) = slice o n l.
Proof.
  intros. unfold stored. rewrite app_assoc, slice_app_r by (rewrite length_app, length_take; lia).
  rewrite length_app, length_take. unfold slice. rewrite drop_drop. f_equal. f_equal. lia.
Qed.

Lemma load_bytes_some off n l : (off + n <= length l)%nat -> load_bytes off n l = Some (slice off n l).
Proof. intros. unfold load_bytes. by rewrite decide_True. Qed.

(** ** Buffers as a sequence of chunks

    A fixed layout is a list of chunks; the offset of chunk [i] is the length of the
    chunks before it. *)

Definition chunk_offset (i : nat) (cs : list (list N)) : nat := length (mjoin (take i cs)).

Lemma chunk_split i (cs : list (list N)) c :
  cs !! i = Some c -> mjoin cs = mjoin (take i cs) ++ c ++ mjoin (drop (S i) cs).
Proof. intros H. rewrite <- (take_drop_middle cs i c H) at 1. by rewrite join_app. Qed.

Lemma load_chunk i cs c off n :
  cs !! i = Some c -> off = chunk_offset i cs -> n = length c -> load_bytes off n (mjoin cs) = Some c.
Proof.
  intros Hc -> ->. unfold chunk_offset. rewrite (chunk_split i cs c Hc).
  rewrite load_bytes_some by (rewrite !length_app; lia). f_equal.
  rewrite slice_app_r by lia. rewrite Nat.sub_diag, slice_app_l by lia. unfold slice. by rewrite drop_0, take_ge.
Qed.

Lemma store_chunk i cs c off bs :
  cs !! i = Some c -> off = chunk_offset i cs -> length c = length bs ->
  store_bytes off bs (mjoin cs) = Some (mjoin (<[i := bs]> cs)).
Proof.
  intros Hc -> Hl. unfold chunk_offset. rewrite (chunk_split i cs c Hc).
  rewrite store_bytes_some by (rewrite !length_app; lia). f_equal.
  unfold stored. rewrite take_app_length', drop_app_ge by lia.
  replace (length (mjoin (take i cs)) + length bs - length (mjoin (take i cs)))%nat with (length c) by lia.
  rewrite drop_app_length. rewrite insert_take_drop by (by eapply lookup_lt_Some).
  by rewrite join_app.
Qed.

Definition zero_chunks (ns : list nat) : list (list N) := (fun n => replicate n 0) <$> ns.

Lemma replicate_chunks (ns : list nat) : mjoin (zero_chunks ns) = replicate (sum_list ns) 0.
Proof.
  induction ns as [|n ns IH]; simpl; [done|].
  unfold zero_chunks in *. simpl. by rewrite IH, replicate_add.
Qed.

#[global] Arguments le_bytes : simpl never.
#[global] Arguments le_value : simpl never.
#[global] Arguments slice : simpl never.
#[global] Arguments stored : simpl never.

(** ** Fixed byte layouts

    A record is stored as a sequence of fields of fixed widths.  The lemmas relate the
    loads at fixed offsets to the sequence: a buffer is the concatenation of its
    slices, so a decoder that checks every constant field and every reserved byte
    accepts only the images of its encoder. *)

(** ** Slices of consecutive widths *)

Fixpoint slices (off : nat) (ws : list nat) (l : list N) : list (list N) :=
  match ws with [] => [] | w :: ws => slice off w l :: slices (off + w) ws l end.

Lemma slice_cat off n m l : slice off n l ++ slice (off + n) m l = slice off (n + m) l.
Proof.
  unfold slice. rewrite <- drop_drop. apply take_take_drop.
Qed.

Lemma slices_join off ws l : mjoin (slices off ws l) = slice off (sum_list ws) l.
Proof.
  revert off. induction ws as [|w ws IH]; intros off; cbn [slices mjoin list_join sum_list sum_list_with foldr].
  - by rewrite (eq_refl : slice off 0 l = []).
  - rewrite IH, slice_cat. done.
Qed.

Lemma slices_whole ws l : length l = sum_list ws -> mjoin (slices 0 ws l) = l.
Proof. intros H. rewrite slices_join. unfold slice. rewrite drop_0, <- H. apply take_ge. lia. Qed.

(** ** Values from bytes and back *)

Lemma le_bytes_value c : Forall is_byte c -> le_bytes (length c) (le_value c) = c.
Proof.
  induction 1 as [|b c Hb _ IH]; [done|]. cbn [length].
  change (le_bytes (S (length c)) (le_value (b :: c)))
    with ((b + 256 * le_value c) mod 256 :: le_bytes (length c) ((b + 256 * le_value c) / 256)).
  unfold is_byte in Hb. rewrite N.mul_comm. f_equal.
  - rewrite N.Div0.mod_add. by apply N.mod_small.
  - rewrite N.div_add, N.div_small, N.add_0_l by lia. exact IH.
Qed.

Lemma le_bytes_slice w off l :
  Forall is_byte l -> (off + w <= length l)%nat -> le_bytes w (le_value (slice off w l)) = slice off w l.
Proof.
  intros Hb Hl. rewrite <- (length_slice off w l Hl) at 1. by apply le_bytes_value, slice_bytes.
Qed.

Lemma le_slice_bound w off l :
  Forall is_byte l -> (off + w <= length l)%nat -> le_value (slice off w l) < 256 ^ N.of_nat w.
Proof.
  intros Hb Hl. pose proof (le_value_bound (slice off w l)) as H. rewrite length_slice in H by done.
  by apply H, slice_bytes.
Qed.

Lemma u16_of_bytes v : v < 2 ^ 16 -> le_value (le_bytes 2 v) = v.
Proof. intros. by apply le_value_bytes. Qed.
Lemma u32_of_bytes v : v < 2 ^ 32 -> le_value (le_bytes 4 v) = v.
Proof. intros. by apply le_value_bytes. Qed.
Lemma u64_of_bytes v : v < u64_modulus -> le_value (le_bytes 8 v) = v.
Proof. intros. by apply le_value_bytes. Qed.

(** A constant field found by its value. *)
Lemma slice_constant w off l v :
  Forall is_byte l -> (off + w <= length l)%nat -> le_value (slice off w l) = v -> slice off w l = le_bytes w v.
Proof. intros Hb Hl <-. symmetry. by apply le_bytes_slice. Qed.

(** [std::all_of] zero. *)
Definition all_zero (l : list N) : bool := forallb (fun b => b =? 0) l.

Lemma all_zero_iff l : all_zero l = true <-> l = replicate (length l) 0.
Proof.
  unfold all_zero. induction l as [|b l IH]; [done|]. cbn [forallb length replicate].
  rewrite andb_true_iff, N.eqb_eq, IH. split; [intros [-> H]; by rewrite <- H|intros [= -> H]; by split].
Qed.

Lemma all_zero_replicate n : all_zero (replicate n 0) = true.
Proof. apply all_zero_iff. by rewrite length_replicate. Qed.

(** Storing over a slice leaves a list that is the same outside it. *)
Lemma stored_slice off n l :
  (off + n <= length l)%nat -> stored off (slice off n l) l = l.
Proof.
  intros H. unfold stored. rewrite length_slice by done. unfold slice.
  rewrite <- (take_drop off l) at 4. f_equal. rewrite <- (take_drop n (drop off l)) at 2. f_equal.
  by rewrite drop_drop.
Qed.

(** ** Chunk sequences: sizes, loads and stores *)

Ltac layout_lengths := rewrite ?length_app, ?length_le_bytes, ?length_replicate; cbn [length].
Ltac layout_size :=
  unfold chunk_offset; cbn [take mjoin list_join app length]; layout_lengths;
  first [lia | layout_lengths; first [lia | layout_lengths; lia]].

(** The next store of a routine, on chunk [i]; the next load, of chunk [i]. *)
Ltac store_field i :=
  erewrite (store_chunk i); [|reflexivity|layout_size|layout_size];
  cbn [insert list_insert mbind option_bind].
Ltac load_field i :=
  match goal with |- context [mbind _ ?m] =>
    match m with context [load_bytes ?off ?n _] =>
      erewrite (load_chunk i _ _ off n); [|reflexivity|layout_size|layout_size];
      cbn [mbind option_bind fmap option_fmap option_map]
    end
  end.

Lemma chunk_slice i cs c off n :
  cs !! i = Some c -> off = chunk_offset i cs -> n = length c -> slice off n (mjoin cs) = c.
Proof.
  intros Hc Ho Hn. pose proof (load_chunk i cs c off n Hc Ho Hn) as Hl. unfold load_bytes in Hl.
  case_decide; [by injection Hl|done].
Qed.

Ltac slice_field i := erewrite (chunk_slice i); [|reflexivity|layout_size|layout_size].

(** A 16-byte identifier. *)
Definition sized_uuid (u : Uuid) : Prop := length (uuid_bytes u) = 16%nat /\ Forall is_byte (uuid_bytes u).

Lemma uuid_of_slice off l :
  Forall is_byte l -> (off + 16 <= length l)%nat -> sized_uuid (mkUuid (slice off 16 l)).
Proof. intros Hb Hl. split; cbn; [by apply length_slice|by apply slice_bytes]. Qed.

Lemma uuid_eta u : mkUuid (uuid_bytes u) = u.
Proof. by destruct u. Qed.

(** The loads of a routine, all inside the buffer. *)
Ltac in_buffer := repeat (rewrite load_bytes_some by lia; cbn [mbind option_bind fmap option_fmap option_map]).

(** A check that decides whether a list holds bytes. *)
Lemma bytes_by_check l : forallb (fun b => b <? 256) l = true -> Forall is_byte l.
Proof. intros H. apply Forall_forall. intros b Hb. rewrite forallb_forall in H. apply N.ltb_lt, H, list_elem_of_In, Hb. Qed.
