(* ===== verification/PageFrame.v ===== *)
(** * Page frames

    Models [storage/disk/native_common_page_header.{hpp,cpp}] (the 128-byte header in
    front of every native page) and [storage/disk/filespace_bootstrap.{hpp,cpp}] (the
    canonical page profiles and the 4096-byte preamble of a filespace), with the
    extent check of [storage/disk/disk_device.cpp].  A codec answers [inl] an error or
    [inr] the value; the outer [None] is an access outside the buffer.  A device is
    what one call observes of it; the SHA-256 provider is an argument. *)

From S2P Require Import Prelude Platform Bytes.

(** ** Page profiles *)

Record CanonicalFilespacePageProfile := mkPageProfile {
  cfp_uuid : Uuid;
  cfp_page_size_bytes : N;
  cfp_layout_generation : N;
  cfp_alignment_bytes : N }.

Definition profile_uuid (a b c : N) : Uuid := mkUuid [0; 0; 0; 0; 0; 0; 112; 0; 128; 0; 0; 0; 0; a; b; c].

Definition kCanonicalFilespacePageProfiles : list CanonicalFilespacePageProfile :=
  [mkPageProfile (profile_uuid 0 129 146) 8192 1 4096;
   mkPageProfile (profile_uuid 1 99 132) 16384 1 4096;
   mkPageProfile (profile_uuid 3 39 104) 32768 1 4096;
   mkPageProfile (profile_uuid 6 85 54) 65536 1 4096;
   mkPageProfile (profile_uuid 19 16 114) 131072 1 4096].

Definition FindCanonicalFilespacePageProfile (id : Uuid) : option CanonicalFilespacePageProfile :=
  snd <$> list_find (fun p => uuid_bytes (cfp_uuid p) = uuid_bytes id) kCanonicalFilespacePageProfiles.

Definition FindCanonicalFilespacePageProfileForSize (size : N) : option CanonicalFilespacePageProfile :=
  snd <$> list_find (fun p => cfp_page_size_bytes p = size) kCanonicalFilespacePageProfiles.

(** [V7] of the header and [IsV7] of the preamble. *)
Definition V7 (id : Uuid) : bool :=
  (N.land (nth 6 (uuid_bytes id) 0) 240 =? 112) && (N.land (nth 8 (uuid_bytes id) 0) 192 =? 128).

(** ** Extents of a file *)

Inductive BoundedIoError :=
| bio_none | bio_not_open | bio_null_buffer | bio_read_only | bio_offset_overflow | bio_count_overflow
| bio_extent_overflow | bio_native_failure | bio_short_transfer | bio_invalid_size.

#[export] Instance BoundedIoError_eq_dec : EqDecision BoundedIoError.
Proof. solve_decision. Defined.

(** The greatest file offset and stream count: signed 64-bit types. *)
Definition stream_max : N := 2 ^ 63 - 1.

Definition BoundedExtentError (offset bytes : N) : BoundedIoError :=
  if decide (stream_max < offset) then bio_offset_overflow
  else if decide (stream_max < bytes) then bio_count_overflow
  else if decide (stream_max - offset < bytes) then bio_extent_overflow
  else bio_none.

Definition CheckFileDeviceExtent (offset bytes : N) : bool := bool_decide (BoundedExtentError offset bytes = bio_none).

(** What one guarded call observes of an open file: its size at the start, the read
    of a range ([None]: a failed or short read), its size at the end. *)
Record device_view := mkDevice {
  dev_open : bool;
  dev_size_before : option N;
  dev_read : N -> nat -> option (list N);
  dev_size_after : option N }.

(** ** The common page header *)

Record NativePageReference := mkPageRef {
  pr_filespace_uuid : Uuid;
  pr_page_number : N;
  pr_page_generation : N;
  pr_page_size_profile_uuid : Uuid }.

Record NativeCommonPageHeader := mkPageHeader {
  ph_page_size_bytes : N;
  ph_page_type : N;
  ph_database_uuid : Uuid;
  ph_filespace_uuid : Uuid;
  ph_page_uuid : Uuid;
  ph_page_number : N;
  ph_page_generation : N;
  ph_flags : N;
  ph_page_size_profile_uuid : Uuid }.

Record FilespaceBootstrapBinding := mkBootstrapBinding {
  fb_database_uuid : Uuid;
  fb_filespace_uuid : Uuid;
  fb_page_size_profile_uuid : Uuid }.

Record NativeCommonPageHeaderBinding := mkHeaderBinding {
  hb_filespace : FilespaceBootstrapBinding;
  hb_page_number : N;
  hb_page_generation : N;
  hb_page_type : N;
  hb_page_uuid : option Uuid }.

Inductive NativeCommonPageHeaderError :=
| phe_none | phe_invalid_framing | phe_checksum_mismatch | phe_invalid_extension | phe_reserved_nonzero
| phe_unknown_flags | phe_invalid_identity | phe_unsupported_profile | phe_unregistered_type
| phe_invalid_page_number | phe_invalid_generation | phe_invalid_binding | phe_binding_mismatch
| phe_device_not_open | phe_invalid_extent | phe_io_failure | phe_resource_exhausted.

#[export] Instance PageHeaderError_eq_dec : EqDecision NativeCommonPageHeaderError.
Proof. solve_decision. Defined.

(** "SBPGV002" *)
Definition kPageHeaderMagic : list N := [83; 66; 80; 71; 86; 48; 48; 50].

Definition PageNumberValid (type page : N) : bool :=
  Bool.eqb (page =? 0) ((type =? 1) || (type =? 2)).

Definition IsRegisteredNativePageType (code : N) : bool :=
  (code <=? 19) || ((256 <=? code) && (code <=? 264)) ||
  ((512 <=? code) && (code <=? 526)) || ((768 <=? code) && (code <=? 782)) ||
  ((1024 <=? code) && (code <=? 1032)) || ((1280 <=? code) && (code <=? 1304)) ||
  ((1536 <=? code) && (code <=? 1538)) || (code =? 4094) || (code =? 4095).

Definition BindingValid (b : NativeCommonPageHeaderBinding) : bool :=
  V7 (fb_database_uuid (hb_filespace b)) && V7 (fb_filespace_uuid (hb_filespace b)) &&
  bool_decide (is_Some (FindCanonicalFilespacePageProfile (fb_page_size_profile_uuid (hb_filespace b)))) &&
  bool_decide (hb_page_generation b <> 0) && IsRegisteredNativePageType (hb_page_type b) &&
  PageNumberValid (hb_page_type b) (hb_page_number b) &&
  match hb_page_uuid b with None => true | Some u => V7 u end.

Definition ValidateIdentity (h : NativeCommonPageHeader) : NativeCommonPageHeaderError :=
  if decide (N.ldiff (ph_flags h) 15 <> 0) then phe_unknown_flags
  else if negb match FindCanonicalFilespacePageProfile (ph_page_size_profile_uuid h) with
               | Some profile => bool_decide (cfp_page_size_bytes profile = ph_page_size_bytes h)
               | None => false
               end then phe_unsupported_profile
  else if negb (V7 (ph_database_uuid h)) || negb (V7 (ph_filespace_uuid h)) || negb (V7 (ph_page_uuid h))
  then phe_invalid_identity
  else if decide (ph_page_generation h = 0) then phe_invalid_generation
  else phe_none.

Definition ValidateLayout (h : NativeCommonPageHeader) : NativeCommonPageHeaderError :=
  if negb (IsRegisteredNativePageType (ph_page_type h)) then phe_unregistered_type
  else if negb (PageNumberValid (ph_page_type h) (ph_page_number h)) then phe_invalid_page_number
  else phe_none.

Definition MatchIdentity (h : NativeCommonPageHeader) (b : NativeCommonPageHeaderBinding) : NativeCommonPageHeaderError :=
  if negb (BindingValid b) then phe_invalid_binding
  else if bool_decide (uuid_bytes (ph_database_uuid h) <> uuid_bytes (fb_database_uuid (hb_filespace b)) \/
                  uuid_bytes (ph_filespace_uuid h) <> uuid_bytes (fb_filespace_uuid (hb_filespace b)) \/
                  uuid_bytes (ph_page_size_profile_uuid h) <> uuid_bytes (fb_page_size_profile_uuid (hb_filespace b)) \/
                  ph_page_number h <> hb_page_number b \/ ph_page_generation h <> hb_page_generation b) ||
          match hb_page_uuid b with
          | Some u => bool_decide (uuid_bytes (ph_page_uuid h) <> uuid_bytes u)
          | None => false
          end
  then phe_binding_mismatch
  else phe_none.

(** FNV-1a over the header with the checksum field taken as zero. *)
Definition fnv_step (value b : N) : N := (N.lxor value b * 1099511628211) mod u64_modulus.

Definition ComputeNativeCommonPageHeaderChecksum (b : list N) : N :=
  foldl fnv_step 14695981039346656037
    (imap (fun i v => if bool_decide (96 <= i)%nat && bool_decide (i < 104)%nat then 0 else v) b).

(** The stores of the encoder, the checksum last. *)
Definition store_header_fields (h : NativeCommonPageHeader) (l : list N) : option (list N) :=
  l ← store_bytes 0 kPageHeaderMagic l;
  l ← StoreLittle32 8 128 l;
  l ← StoreLittle32 12 (ph_page_size_bytes h) l;
  l ← StoreLittle32 16 (ph_page_type h) l;
  l ← StoreLittle16 20 1 l;
  l ← StoreLittle16 22 1 l;
  l ← store_bytes 24 (uuid_bytes (ph_database_uuid h)) l;
  l ← store_bytes 40 (uuid_bytes (ph_filespace_uuid h)) l;
  l ← store_bytes 56 (uuid_bytes (ph_page_uuid h)) l;
  l ← StoreLittle64 72 (ph_page_number h) l;
  l ← StoreLittle64 80 (ph_page_generation h) l;
  l ← StoreLittle64 88 (ph_flags h) l;
  l ← store_bytes 104 (uuid_bytes (ph_page_size_profile_uuid h)) l;
  StoreLittle16 120 1 l.

Definition EncodeNativeCommonPageHeader (h : NativeCommonPageHeader)
    : option (NativeCommonPageHeaderError + list N) :=
  let error := if decide (ValidateIdentity h = phe_none) then ValidateLayout h else ValidateIdentity h in
  if decide (error <> phe_none) then Some (inl error)
  else
    l ← store_header_fields h (replicate 128 0);
    l ← StoreLittle64 96 (ComputeNativeCommonPageHeaderChecksum l) l;
    Some (inr l).

(** The fields of a header of the right size. *)
Definition load_header_fields (l : list N) : option NativeCommonPageHeader :=
  size ← LoadLittle32 12 l;
  type ← LoadLittle32 16 l;
  database ← load_bytes 24 16 l;
  filespace ← load_bytes 40 16 l;
  page ← load_bytes 56 16 l;
  number ← LoadLittle64 72 l;
  generation ← LoadLittle64 80 l;
  flags ← LoadLittle64 88 l;
  profile ← load_bytes 104 16 l;
  Some (mkPageHeader size type (mkUuid database) (mkUuid filespace) (mkUuid page) number generation flags (mkUuid profile)).

(** The checks on a decoded header, with an expected binding or none. *)
Definition header_error (h : NativeCommonPageHeader) (expected : option NativeCommonPageHeaderBinding)
    : NativeCommonPageHeaderError :=
  let e := ValidateIdentity h in
  let e := if decide (e = phe_none) then match expected with Some b => MatchIdentity h b | None => e end else e in
  let e := if decide (e = phe_none) then ValidateLayout h else e in
  if decide (e = phe_none) then
    match expected with
    | Some b => if decide (ph_page_type h <> hb_page_type b) then phe_binding_mismatch else e
    | None => e
    end
  else e.

(** A null pointer is not a list; [size] is the length of the list. *)
Definition DecodeNativeCommonPageHeader (l : list N) (expected : option NativeCommonPageHeaderBinding)
    : option (NativeCommonPageHeaderError + NativeCommonPageHeader) :=
  if decide (length l <> 128%nat) then Some (inl phe_invalid_framing)
  else
  magic ← load_bytes 0 8 l;
  bytes ← LoadLittle32 8 l;
  if decide (magic <> kPageHeaderMagic \/ bytes <> 128) then Some (inl phe_invalid_framing)
  else
  checksum ← LoadLittle64 96 l;
  if decide (checksum <> ComputeNativeCommonPageHeaderChecksum l) then Some (inl phe_checksum_mismatch)
  else
  v20 ← LoadLittle16 20 l;
  v22 ← LoadLittle16 22 l;
  v120 ← LoadLittle16 120 l;
  if decide (v20 <> 1 \/ v22 <> 1 \/ v120 <> 1) then Some (inl phe_invalid_extension)
  else
  reserved ← load_bytes 122 6 l;
  if negb (all_zero reserved) then Some (inl phe_reserved_nonzero)
  else
  h ← load_header_fields l;
  if decide (header_error h expected <> phe_none) then Some (inl (header_error h expected))
  else Some (inr h).

Definition ReadNativeCommonPageHeaderFromOpenDevice (device : device_view) (expected : NativeCommonPageHeaderBinding)
    : option (NativeCommonPageHeaderError + NativeCommonPageHeader) :=
  if negb (BindingValid expected) then Some (inl phe_invalid_binding)
  else if negb (dev_open device) then Some (inl phe_device_not_open)
  else
  profile ← FindCanonicalFilespacePageProfile (fb_page_size_profile_uuid (hb_filespace expected));
  let size := cfp_page_size_bytes profile in
  if decide (u64_max / size < hb_page_number expected) then Some (inl phe_invalid_extent)
  else
  let page_offset := (hb_page_number expected * size) mod u64_modulus in
  if negb (CheckFileDeviceExtent page_offset size) then Some (inl phe_invalid_extent)
  else match dev_size_before device with
  | None => Some (inl phe_io_failure)
  | Some before =>
    if decide (before mod size <> 0 \/ before < page_offset \/ before - page_offset < size) then
      Some (inl phe_invalid_extent)
    else
    let offset := page_offset + (if decide (hb_page_number expected = 0) then 4096 else 0) in
    match dev_read device offset 128 with
    | None => Some (inl phe_io_failure)
    | Some bytes =>
      if decide (length bytes <> 128%nat) then Some (inl phe_io_failure)
      else
      decoded ← DecodeNativeCommonPageHeader bytes (Some expected);
      match decoded with
      | inl e => Some (inl e)
      | inr h =>
        match dev_size_after device with
        | None => Some (inl phe_io_failure)
        | Some after => if decide (after <> before) then Some (inl phe_invalid_extent) else Some (inr h)
        end
      end
    end
  end.

(** ** The preamble of a filespace *)

Record FilespaceBootstrap := mkBootstrap {
  bt_database_uuid : Uuid;
  bt_filespace_uuid : Uuid;
  bt_page_size_profile_uuid : Uuid;
  bt_checksum_profile_uuid : Uuid;
  bt_encryption_profile_uuid : Uuid;
  bt_page_size_bytes : N;
  bt_durable_format_generation : N;
  bt_flags : N;
  bt_filespace_role : N;
  bt_lifecycle_state : N }.

Inductive FilespaceBootstrapError :=
| bte_none | bte_invalid_framing | bte_reserved_nonzero | bte_digest_mismatch | bte_hash_provider_failure
| bte_invalid_identity | bte_unsupported_page_profile | bte_unsupported_format_generation | bte_unknown_flags
| bte_unsupported_checksum_profile | bte_invalid_role | bte_invalid_state | bte_invalid_encryption_profile
| bte_binding_mismatch | bte_device_not_open | bte_io_failure | bte_resource_exhausted.

#[export] Instance BootstrapError_eq_dec : EqDecision FilespaceBootstrapError.
Proof. solve_decision. Defined.

Definition kNativeBootstrapIntegrityProfile : Uuid :=
  mkUuid [1; 160; 142; 19; 65; 107; 115; 246; 179; 197; 189; 222; 136; 177; 242; 217].

Definition ValidateFilespaceBootstrap (v : FilespaceBootstrap) (expected : option FilespaceBootstrapBinding)
    : FilespaceBootstrapError :=
  if negb (V7 (bt_database_uuid v)) || negb (V7 (bt_filespace_uuid v)) then bte_invalid_identity
  else match FindCanonicalFilespacePageProfile (bt_page_size_profile_uuid v) with
  | None => bte_unsupported_page_profile
  | Some profile =>
    if decide (cfp_page_size_bytes profile <> bt_page_size_bytes v) then bte_unsupported_page_profile
    else if decide (bt_durable_format_generation v <> 1 \/ bt_durable_format_generation v <> cfp_layout_generation profile)
    then bte_unsupported_format_generation
    else if decide (N.ldiff (bt_flags v) 3 <> 0) then bte_unknown_flags
    else if decide (uuid_bytes (bt_checksum_profile_uuid v) <> uuid_bytes kNativeBootstrapIntegrityProfile)
    then bte_unsupported_checksum_profile
    else if decide (bt_filespace_role v < 1 \/ 14 < bt_filespace_role v) then bte_invalid_role
    else if decide (bt_lifecycle_state v < 1 \/ 15 < bt_lifecycle_state v) then bte_invalid_state
    else if negb (if N.testbit (bt_flags v) 0 then V7 (bt_encryption_profile_uuid v)
                  else all_zero (uuid_bytes (bt_encryption_profile_uuid v)))
    then bte_invalid_encryption_profile
    else match expected with
    | None => bte_none
    | Some b =>
      if negb (V7 (fb_database_uuid b)) || negb (V7 (fb_filespace_uuid b)) ||
         bool_decide (uuid_bytes (fb_database_uuid b) <> uuid_bytes (bt_database_uuid v) \/
                      uuid_bytes (fb_filespace_uuid b) <> uuid_bytes (bt_filespace_uuid v) \/
                      uuid_bytes (fb_page_size_profile_uuid b) <> uuid_bytes (bt_page_size_profile_uuid v))
      then bte_binding_mismatch else bte_none
    end
  end.

(** "SBFP" *)
Definition kBootstrapMagic : list N := [83; 66; 70; 80].

Definition store_bootstrap_fields (v : FilespaceBootstrap) (l : list N) : option (list N) :=
  l ← store_bytes 0 kBootstrapMagic l;
  l ← StoreLittle16 4 1 l;
  l ← StoreLittle16 6 4096 l;
  l ← StoreLittle32 8 (bt_page_size_bytes v) l;
  l ← StoreLittle32 12 (bt_flags v) l;
  l ← store_bytes 16 (uuid_bytes (bt_database_uuid v)) l;
  l ← store_bytes 32 (uuid_bytes (bt_filespace_uuid v)) l;
  l ← store_bytes 48 (uuid_bytes (bt_page_size_profile_uuid v)) l;
  l ← StoreLittle32 64 (bt_durable_format_generation v) l;
  l ← StoreLittle16 68 (bt_filespace_role v) l;
  l ← StoreLittle16 70 (bt_lifecycle_state v) l;
  l ← store_bytes 72 (uuid_bytes (bt_checksum_profile_uuid v)) l;
  store_bytes 88 (uuid_bytes (bt_encryption_profile_uuid v)) l.

Definition load_bootstrap_fields (l : list N) : option FilespaceBootstrap :=
  database ← load_bytes 16 16 l;
  filespace ← load_bytes 32 16 l;
  profile ← load_bytes 48 16 l;
  checksum ← load_bytes 72 16 l;
  encryption ← load_bytes 88 16 l;
  size ← LoadLittle32 8 l;
  flags ← LoadLittle32 12 l;
  format ← LoadLittle32 64 l;
  role ← LoadLittle16 68 l;
  state ← LoadLittle16 70 l;
  Some (mkBootstrap (mkUuid database) (mkUuid filespace) (mkUuid profile) (mkUuid checksum) (mkUuid encryption)
          size format flags role state).

Section bootstrap.
(** SHA-256, [None] when the provider fails. *)
Context (sha256 : list N -> option (list N)).

Definition EncodeFilespaceBootstrap (v : FilespaceBootstrap) : option (FilespaceBootstrapError + list N) :=
  let error := ValidateFilespaceBootstrap v None in
  if decide (error <> bte_none) then Some (inl error)
  else
    l ← store_bootstrap_fields v (replicate 4096 0);
    covered ← load_bytes 0 104 l;
    match sha256 covered with
    | None => Some (inl bte_hash_provider_failure)
    | Some digest => l ← store_bytes 104 digest l; Some (inr l)
    end.

Definition DecodeFilespaceBootstrap (l : list N) (expected : option FilespaceBootstrapBinding)
    : option (FilespaceBootstrapError + FilespaceBootstrap) :=
  if decide (length l <> 4096%nat) then Some (inl bte_invalid_framing)
  else
  magic ← load_bytes 0 4 l;
  version ← LoadLittle16 4 l;
  bytes ← LoadLittle16 6 l;
  if decide (magic <> kBootstrapMagic \/ version <> 1 \/ bytes <> 4096) then Some (inl bte_invalid_framing)
  else
  reserved ← load_bytes 136 3960 l;
  if negb (all_zero reserved) then Some (inl bte_reserved_nonzero)
  else
  covered ← load_bytes 0 104 l;
  match sha256 covered with
  | None => Some (inl bte_hash_provider_failure)
  | Some digest =>
    stored_digest ← load_bytes 104 32 l;
    if decide (digest <> stored_digest) then Some (inl bte_digest_mismatch)
    else
    v ← load_bootstrap_fields l;
    if decide (ValidateFilespaceBootstrap v expected <> bte_none)
    then Some (inl (ValidateFilespaceBootstrap v expected)) else Some (inr v)
  end.

Definition ReadFilespaceBootstrapFromOpenDevice (device : device_view) (expected : option FilespaceBootstrapBinding)
    : option (FilespaceBootstrapError + FilespaceBootstrap) :=
  if negb (dev_open device) then Some (inl bte_device_not_open)
  else match dev_read device 0 4096 with
  | None => Some (inl bte_io_failure)
  | Some bytes =>
    if decide (length bytes <> 4096%nat) then Some (inl bte_io_failure)
    else DecodeFilespaceBootstrap bytes expected
  end.
End bootstrap.
