(* ===== verification/InventoryPage.v ===== *)
(** * Transaction inventory pages

    Models the page body codec of [storage/page/transaction_inventory_page.{hpp,cpp}]
    ([BuildTransactionInventoryPageBody] and [ParseTransactionInventoryPageBody])
    and the digest entry point of [core/hash/hash_digest.cpp] it uses.  SHA-256
    itself is the provider's: [sha256] is an argument, [None] a provider failure.
    A result of [None] is an access outside the buffer. *)

From S2P Require Import Prelude Platform TransactionState Inventory Horizon Bytes.

(** ** Digests *)

Record HashDigestResult := mkHashResult {
  hd_status : Status; hd_diagnostic : DiagnosticRecord; hd_digest : list N; hd_digest_bytes : N }.

Definition hd_ok (r : HashDigestResult) : bool := status_ok (hd_status r).

Definition HashOkStatus : Status := mkStatus sc_ok sev_info sub_platform.
Definition HashErrorStatus : Status := mkStatus sc_platform_required_feature_missing sev_error sub_platform.
Definition MakeHashDigestDiagnostic : Status -> string -> string -> string -> DiagnosticRecord :=
  MakeComponentDiagnostic "core.hash.digest".
Definition HashError (code key detail : string) : HashDigestResult :=
  mkHashResult HashErrorStatus (MakeHashDigestDiagnostic HashErrorStatus code key detail) (replicate 32 0) 0.

Definition hash_provider : Type := list N -> option (list N).

Definition ComputeSha256Digest (sha256 : hash_provider) (payload : list N) : HashDigestResult :=
  if decide (u64_max / 8 < N.of_nat (length payload)) then
    HashError "SB-CORE-HASH-SHA256-FAILED" "core.hash.sha256_failed" "payload_extent_invalid"
  else match sha256 payload with
  | None => HashError "SB-CORE-HASH-SHA256-FAILED" "core.hash.sha256_failed" ""
  | Some digest => mkHashResult HashOkStatus DiagnosticRecord_default digest 32
  end.

(** ** Layout *)

Definition kPageHeaderSerializedBytes : N := 128.
Definition kTransactionInventoryPageBodyHeaderBytes : N := 152.
Definition kEntryBytes : N := 72.
(** "SBTIP003" and "SBTIP001" *)
Definition kTxnInvMagic : list N := [83; 66; 84; 73; 80; 48; 48; 51].
Definition kTxnInvV1WeakMagic : list N := [83; 66; 84; 73; 80; 48; 48; 49].

Definition kOffsetMagic : nat := 0.
Definition kOffsetHeaderBytes : nat := 8.
Definition kOffsetEntryCount : nat := 12.
Definition kOffsetBodyBytes : nat := 16.
Definition kOffsetNextPageNumber : nat := 24.
Definition kOffsetNextLocalId : nat := 32.
Definition kOffsetOit : nat := 40.
Definition kOffsetOat : nat := 48.
Definition kOffsetOst : nat := 56.
Definition kOffsetChecksumDigest : nat := 64.
Definition kOffsetInventoryGeneration : nat := 96.
Definition kOffsetPreviousPageNumber : nat := 104.
Definition kOffsetChainDigest : nat := 112.
Definition kOffsetNextCommitSequence : nat := 144.

Record TransactionInventoryPageBody := mkPageBody {
  tb_page_number : N;
  tb_previous_page_number : N;
  tb_next_page_number : N;
  tb_inventory_generation : N;
  tb_chain_digest : list N;
  tb_inventory : LocalTransactionInventory;
  tb_horizons : LocalTransactionHorizons }.

Definition TransactionInventoryPageBody_default : TransactionInventoryPageBody :=
  mkPageBody 0 0 0 1 (replicate 32 0) LocalTransactionInventory_default LocalTransactionHorizons_default.

Record TransactionInventoryPageBodyResult := mkPageBodyResult {
  tpr_status : Status;
  tpr_body : TransactionInventoryPageBody;
  tpr_serialized : list N;
  tpr_diagnostic : DiagnosticRecord }.

Definition tpr_ok (r : TransactionInventoryPageBodyResult) : bool := status_ok (tpr_status r).

Definition TxnPageOkStatus : Status := mkStatus sc_ok sev_info sub_storage_page.
Definition TxnPageErrorStatus : Status :=
  mkStatus sc_platform_required_feature_missing sev_error sub_storage_page.

Definition MakeTransactionInventoryPageDiagnostic : Status -> string -> string -> string -> DiagnosticRecord :=
  MakeComponentDiagnostic "storage.page.transaction_inventory".

Definition TxnPageError (code key detail : string) : TransactionInventoryPageBodyResult :=
  mkPageBodyResult TxnPageErrorStatus TransactionInventoryPageBody_default []
    (MakeTransactionInventoryPageDiagnostic TxnPageErrorStatus code key detail).

(** A failure of another component, passed on. *)
Definition page_failure (status : Status) (diagnostic : DiagnosticRecord) : TransactionInventoryPageBodyResult :=
  mkPageBodyResult status TransactionInventoryPageBody_default [] diagnostic.

(** ** Entries *)

Definition u16_of_state (s : TransactionState) : N :=
  match s with
  | ts_none => 0 | ts_created => 1 | ts_active => 2 | ts_preparing => 3 | ts_prepared => 4
  | ts_committing => 5 | ts_committed => 6 | ts_rolling_back => 7 | ts_rolled_back => 8
  | ts_limbo => 9 | ts_recovering => 10 | ts_failed_terminal => 11 | ts_archived => 12
  | ts_read_only_active => 13
  end.

(** Codes outside the enumeration behave as [none] in every test the parser and
    the validator make on a state. *)
Definition state_of_u16 (n : N) : TransactionState :=
  match n with
  | 1 => ts_created | 2 => ts_active | 3 => ts_preparing | 4 => ts_prepared
  | 5 => ts_committing | 6 => ts_committed | 7 => ts_rolling_back | 8 => ts_rolled_back
  | 9 => ts_limbo | 10 => ts_recovering | 11 => ts_failed_terminal | 12 => ts_archived
  | 13 => ts_read_only_active | _ => ts_none
  end.

Definition u16_of_scope (s : TransactionScope) : N :=
  match s with scope_local_node => 0 | scope_cluster_global => 1 | scope_unknown => 2 end.

(** [None] is a code outside the enumeration: an identity with it counts as valid
    and is refused later, by the scope switch of the structural validator. *)
Definition scope_of_u16 (n : N) : option TransactionScope :=
  match n with
  | 0 => Some scope_local_node | 1 => Some scope_cluster_global | 2 => Some scope_unknown | _ => None
  end.

Definition origin_bits (s : TransactionState) : N :=
  match s with ts_committed => 1 | ts_rolled_back => 2 | ts_failed_terminal => 3 | _ => 0 end.

Definition flag (b : bool) (bit : N) : N := if b then bit else 0.

Definition EntryFlags (e : TransactionInventoryEntry) : N :=
  N.lor (flag (e_evidence_record_required e) 1)
  (N.lor (flag (e_evidence_record_written e) 2)
  (N.lor (flag (e_rollback_only e) 4)
  (N.lor (flag (e_stable_snapshot e) 32) (N.shiftl (origin_bits (e_archived_from_state e)) 3)))).

Definition origin_of_flags (flags : N) : TransactionState :=
  match N.land (N.shiftr flags 3) 3 with
  | 1 => ts_committed | 2 => ts_rolled_back | 3 => ts_failed_terminal | _ => ts_none
  end.

(** The values written for one entry, in both the page and the chain digest. *)
Definition entry_image (e : TransactionInventoryEntry) : list N :=
  le_bytes 8 (e_local_id e) ++ uuid_bytes (e_uuid e) ++
  le_bytes 2 (u16_of_scope (ti_scope (e_identity e))) ++ le_bytes 2 (u16_of_state (e_state e)) ++
  le_bytes 4 (EntryFlags e) ++ le_bytes 8 (e_begin_unix_epoch_millis e) ++
  le_bytes 8 (e_final_unix_epoch_millis e) ++
  le_bytes 8 (e_begin_visible_through_local_transaction_id e) ++
  le_bytes 8 (e_begin_visible_through_commit_sequence e) ++ le_bytes 8 (e_commit_sequence e).

Definition TransactionInventoryPageDigestPresent (digest : list N) : bool :=
  existsb (fun v => negb (v =? 0)) digest.

Definition DigestEqual (lhs rhs : list N) : bool :=
  foldl (fun diff p => N.lor diff (N.lxor p.1 p.2)) 0 (zip lhs rhs) =? 0.

Definition TransactionInventoryPageDigestLow64 (digest : list N) : option N := LoadLittle64 0 digest.

(** [ChecksumDigestInput] *)
Definition ChecksumDigestInput (body : list N) : list N :=
  if decide (kOffsetChecksumDigest + 32 <= length body)%nat
  then stored kOffsetChecksumDigest (replicate 32 0) body else body.

Definition MaxTransactionInventoryEntriesPerPage (page_size : N) : N :=
  if decide (page_size <= kPageHeaderSerializedBytes + kTransactionInventoryPageBodyHeaderBytes) then 0
  else (page_size - kPageHeaderSerializedBytes - kTransactionInventoryPageBodyHeaderBytes) / kEntryBytes.

Definition u32_cast (n : N) : N := n mod 2 ^ 32.

Section codec.
Context (sha256 : hash_provider).

(** [Sha256OrEmpty] *)
Definition Sha256OrEmpty (bytes : list N) : list N :=
  let computed := ComputeSha256Digest sha256 bytes in
  if hd_ok computed then hd_digest computed else replicate 32 0.

Definition ComputeTransactionInventoryPageChecksumDigest (body : list N) : list N :=
  Sha256OrEmpty (ChecksumDigestInput body).

Definition ComputeTransactionInventoryPageChecksum (body : list N) : option N :=
  TransactionInventoryPageDigestLow64 (ComputeTransactionInventoryPageChecksumDigest body).

(** The bytes the chain digest covers. *)
Definition chain_canonical (b : TransactionInventoryPageBody) : list N :=
  kTxnInvMagic ++ le_bytes 4 kTransactionInventoryPageBodyHeaderBytes ++
  le_bytes 8 (tb_page_number b) ++ le_bytes 8 (tb_previous_page_number b) ++
  le_bytes 8 (tb_next_page_number b) ++ le_bytes 8 (tb_inventory_generation b) ++
  le_bytes 8 (inv_next_local_transaction_id (tb_inventory b)) ++
  le_bytes 8 (inv_next_commit_sequence (tb_inventory b)) ++
  le_bytes 8 (h_oldest_interesting_transaction (tb_horizons b)) ++
  le_bytes 8 (h_oldest_active_transaction (tb_horizons b)) ++
  le_bytes 8 (h_oldest_snapshot_transaction (tb_horizons b)) ++
  le_bytes 8 (h_next_transaction_id (tb_horizons b)) ++
  le_bytes 4 (u32_cast (N.of_nat (length (inv_entries (tb_inventory b))))) ++
  mjoin (entry_image <$> inv_entries (tb_inventory b)).

Definition ComputeTransactionInventoryPageChainDigest (b : TransactionInventoryPageBody) : list N :=
  Sha256OrEmpty (chain_canonical b).

(** ** Building *)

Definition set_chain_digest (digest : list N) (b : TransactionInventoryPageBody) : TransactionInventoryPageBody :=
  mkPageBody (tb_page_number b) (tb_previous_page_number b) (tb_next_page_number b)
    (tb_inventory_generation b) digest (tb_inventory b) (tb_horizons b).

Definition set_horizons (h : LocalTransactionHorizons) (b : TransactionInventoryPageBody) : TransactionInventoryPageBody :=
  mkPageBody (tb_page_number b) (tb_previous_page_number b) (tb_next_page_number b)
    (tb_inventory_generation b) (tb_chain_digest b) (tb_inventory b) h.

(** The header stores, in the order of the source. *)
Definition store_header (b : TransactionInventoryPageBody) (l : list N) : option (list N) :=
  l ← store_bytes kOffsetMagic kTxnInvMagic l;
  l ← StoreLittle32 kOffsetHeaderBytes kTransactionInventoryPageBodyHeaderBytes l;
  l ← StoreLittle32 kOffsetEntryCount (u32_cast (N.of_nat (length (inv_entries (tb_inventory b))))) l;
  l ← StoreLittle64 kOffsetNextPageNumber (tb_next_page_number b) l;
  l ← StoreLittle64 kOffsetNextLocalId (inv_next_local_transaction_id (tb_inventory b)) l;
  l ← StoreLittle64 kOffsetNextCommitSequence (inv_next_commit_sequence (tb_inventory b)) l;
  l ← StoreLittle64 kOffsetOit (h_oldest_interesting_transaction (tb_horizons b)) l;
  l ← StoreLittle64 kOffsetOat (h_oldest_active_transaction (tb_horizons b)) l;
  l ← StoreLittle64 kOffsetOst (h_oldest_snapshot_transaction (tb_horizons b)) l;
  l ← StoreLittle64 kOffsetInventoryGeneration (tb_inventory_generation b) l;
  l ← StoreLittle64 kOffsetPreviousPageNumber (tb_previous_page_number b) l;
  store_bytes kOffsetChainDigest (tb_chain_digest b) l.

(** The stores of one entry at [offset]. *)
Definition store_entry (offset : nat) (e : TransactionInventoryEntry) (l : list N) : option (list N) :=
  l ← StoreLittle64 offset (e_local_id e) l;
  l ← store_bytes (offset + 8) (uuid_bytes (e_uuid e)) l;
  l ← StoreLittle16 (offset + 24) (u16_of_scope (ti_scope (e_identity e))) l;
  l ← StoreLittle16 (offset + 26) (u16_of_state (e_state e)) l;
  l ← StoreLittle32 (offset + 28) (EntryFlags e) l;
  l ← StoreLittle64 (offset + 32) (e_begin_unix_epoch_millis e) l;
  l ← StoreLittle64 (offset + 40) (e_final_unix_epoch_millis e) l;
  l ← StoreLittle64 (offset + 48) (e_begin_visible_through_local_transaction_id e) l;
  l ← StoreLittle64 (offset + 56) (e_begin_visible_through_commit_sequence e) l;
  StoreLittle64 (offset + 64) (e_commit_sequence e) l.

(** The loop over the entries: the buffer and the offset after the last one, or the
    refusal of an entry without a valid identity. *)
Fixpoint store_entries (offset : nat) (es : list TransactionInventoryEntry) (l : list N)
    : option (TransactionInventoryPageBodyResult + (list N * nat)) :=
  match es with
  | [] => Some (inr (l, offset))
  | e :: es =>
    if negb (transaction_identity_valid (e_identity e)) then
      Some (inl (TxnPageError "SB-TXN-INVENTORY-PAGE-BODY-INVALID"
                   "transaction_inventory_page.invalid_entry_identity" ""))
    else l ← store_entry offset e l; store_entries (offset + 72) es l
  end.

(** Everything after the header, once the buffer is allocated. *)
Definition store_body (b : TransactionInventoryPageBody) (l : list N)
    : option TransactionInventoryPageBodyResult :=
  l ← store_header b l;
  r ← store_entries 152 (inv_entries (tb_inventory b)) l;
  match r with
  | inl error => Some error
  | inr (l, offset) =>
    l ← StoreLittle32 kOffsetBodyBytes (u32_cast (N.of_nat offset)) l;
    let checksum := ComputeSha256Digest sha256 (ChecksumDigestInput l) in
    if negb (hd_ok checksum) then Some (page_failure (hd_status checksum) (hd_diagnostic checksum))
    else
      l ← store_bytes kOffsetChecksumDigest (hd_digest checksum) l;
      Some (mkPageBodyResult TxnPageOkStatus b l DiagnosticRecord_default)
  end.

Definition BuildTransactionInventoryPageBody (body : TransactionInventoryPageBody) (page_size : N)
    : option TransactionInventoryPageBodyResult :=
  let reason := ValidateLocalTransactionInventoryStructure (tb_inventory body) in
  let count := N.of_nat (length (inv_entries (tb_inventory body))) in
  let body_bytes := u32_cast (kTransactionInventoryPageBodyHeaderBytes + u32_cast (count * kEntryBytes)) in
  let horizons := ComputeLocalTransactionHorizons (tb_inventory body) in
  if decide (reason <> ""%string) then
    Some (TxnPageError "CATALOG.INVALID_INPUT" "transaction_inventory_page.inventory_invalid" reason)
  else if decide (page_size <= kPageHeaderSerializedBytes + kTransactionInventoryPageBodyHeaderBytes) then
    Some (TxnPageError "SB-TXN-INVENTORY-PAGE-BODY-INVALID"
            "transaction_inventory_page.page_size_too_small" (to_string page_size))
  else if decide (MaxTransactionInventoryEntriesPerPage page_size < count) then
    Some (TxnPageError "SB-TXN-INVENTORY-PAGE-CAPACITY-INVALID"
            "transaction_inventory_page.entry_count_exceeds_page_capacity" (to_string count))
  else if decide (page_size - kPageHeaderSerializedBytes < body_bytes) then
    Some (TxnPageError "SB-TXN-INVENTORY-PAGE-BODY-INVALID"
            "transaction_inventory_page.body_too_large" (to_string body_bytes))
  else if decide (tb_inventory_generation body = 0) then
    Some (TxnPageError "SB-TXN-INVENTORY-PAGE-GENERATION-INVALID"
            "transaction_inventory_page.generation_invalid" "")
  else if negb (hres_ok horizons) then
    Some (page_failure (hres_status horizons) (hres_diagnostic horizons))
  else
    let b := set_horizons (if h_valid (tb_horizons body) then tb_horizons body else hres_horizons horizons) body in
    let b := set_chain_digest (ComputeTransactionInventoryPageChainDigest b) b in
    if negb (TransactionInventoryPageDigestPresent (tb_chain_digest b)) then
      Some (TxnPageError "SB-TXN-INVENTORY-PAGE-CHAIN-DIGEST-MISSING"
              "transaction_inventory_page.chain_digest_missing" "")
    else store_body b (replicate (N.to_nat (page_size - kPageHeaderSerializedBytes)) 0).

(** ** Parsing *)

(** The reasons the structural validator can give for an entry before it looks at
    the entry's scope. *)
Definition before_scope_reasons : list string :=
  ["begin_commit_sequence_invalid"; "archive_origin_invalid"; "nonarchived_origin";
   "commit_sequence_invalid"; "duplicate_commit_sequence"; "noncommitted_commit_sequence";
   "invalid_transaction_identity"]%string.

(** A structural validator on parsed entries, whose scopes may be codes outside the
    enumeration: it stops at the first such entry at the latest. *)
Definition parsed_reason (validator : LocalTransactionInventory -> string) (next_local next_commit : N)
    (es : list (option TransactionScope * TransactionInventoryEntry)) : string :=
  let validate (es : list (option TransactionScope * TransactionInventoryEntry)) :=
    validator (mkInventory next_local next_commit es.*2 None) in
  match list_find (fun p => p.1 = None) es with
  | None => validate es
  | Some (k, _) =>
    let before := validate (take k es) in
    if decide (before <> ""%string) then before
    else let reason := validate (take (S k) es) in
      if decide (reason ∈ before_scope_reasons) then reason else "invalid_transaction_scope"%string
  end.

Definition parsed_inventory_reason : N -> N -> list (option TransactionScope * TransactionInventoryEntry) -> string :=
  parsed_reason ValidateLocalTransactionInventoryStructure.

(** One entry at [offset]; the scope is paired with the entry, which carries a
    valid one in its place when the code is outside the enumeration. *)
Definition parse_entry (offset : nat) (l : list N)
    : option (TransactionInventoryPageBodyResult + (option TransactionScope * TransactionInventoryEntry)) :=
  local_id ← LoadLittle64 offset l;
  uuid ← load_bytes (offset + 8) 16 l;
  scope ← LoadLittle16 (offset + 24) l;
  state ← LoadLittle16 (offset + 26) l;
  flags ← LoadLittle32 (offset + 28) l;
  if decide (N.ldiff flags 63 <> 0) then
    Some (inl (TxnPageError "CATALOG.INVALID_INPUT" "transaction_inventory_page.entry_flags_invalid" ""))
  else
    begin_millis ← LoadLittle64 (offset + 32) l;
    final_millis ← LoadLittle64 (offset + 40) l;
    begin_local ← LoadLittle64 (offset + 48) l;
    begin_commit ← LoadLittle64 (offset + 56) l;
    commit ← LoadLittle64 (offset + 64) l;
    Some (inr (scope_of_u16 scope,
      mkEntry (mkTransactionIdentity (MakeLocalTransactionId local_id) (mkTypedUuid uk_transaction (mkUuid uuid))
                 (default scope_local_node (scope_of_u16 scope)))
        (state_of_u16 state) (origin_of_flags flags) begin_millis final_millis begin_local begin_commit commit
        (N.testbit flags 0) (N.testbit flags 1) (N.testbit flags 2) (N.testbit flags 5))).

Fixpoint parse_entries (i : N) (offset : nat) (count : nat) (l : list N)
    : option (TransactionInventoryPageBodyResult + list (option TransactionScope * TransactionInventoryEntry)) :=
  match count with
  | O => Some (inr [])
  | S count =>
    r ← parse_entry offset l;
    match r with
    | inl error => Some (inl error)
    | inr p =>
      if negb (transaction_identity_valid (e_identity p.2)) then
        Some (inl (TxnPageError "SB-TXN-INVENTORY-PAGE-BODY-INVALID"
                     "transaction_inventory_page.parsed_identity_invalid" (to_string i)))
      else
        rest ← parse_entries (i + 1) (offset + 72) count l;
        Some (match rest with inl error => inl error | inr es => inr (p :: es) end)
    end
  end.

(** The part after the checksum has been found right. *)
Definition parse_checked (serialized : list N) (page_number : N) : option TransactionInventoryPageBodyResult :=
  entry_count ← LoadLittle32 kOffsetEntryCount serialized;
  body_bytes ← LoadLittle32 kOffsetBodyBytes serialized;
  stored_chain_digest ← load_bytes kOffsetChainDigest 32 serialized;
  if decide (N.of_nat (length serialized) < body_bytes \/ body_bytes < kTransactionInventoryPageBodyHeaderBytes \/
             kTransactionInventoryPageBodyHeaderBytes + entry_count * kEntryBytes <> body_bytes) then
    Some (TxnPageError "SB-TXN-INVENTORY-PAGE-BODY-INVALID" "transaction_inventory_page.body_bytes_invalid" "")
  else
  previous ← LoadLittle64 kOffsetPreviousPageNumber serialized;
  next ← LoadLittle64 kOffsetNextPageNumber serialized;
  generation ← LoadLittle64 kOffsetInventoryGeneration serialized;
  if decide (generation = 0) then
    Some (TxnPageError "SB-TXN-INVENTORY-PAGE-GENERATION-INVALID"
            "transaction_inventory_page.generation_invalid" (to_string page_number))
  else if negb (TransactionInventoryPageDigestPresent stored_chain_digest) then
    Some (TxnPageError "SB-TXN-INVENTORY-PAGE-CHAIN-DIGEST-MISMATCH"
            "transaction_inventory_page.chain_digest_missing" (to_string page_number))
  else
  next_local ← LoadLittle64 kOffsetNextLocalId serialized;
  next_commit ← LoadLittle64 kOffsetNextCommitSequence serialized;
  oit ← LoadLittle64 kOffsetOit serialized;
  oat ← LoadLittle64 kOffsetOat serialized;
  ost ← LoadLittle64 kOffsetOst serialized;
  parsed ← parse_entries 0 152 (N.to_nat entry_count) serialized;
  match parsed with
  | inl error => Some error
  | inr es =>
    let body := mkPageBody page_number previous next generation stored_chain_digest
      (mkInventory next_local next_commit es.*2 None)
      (mkHorizons (MakeLocalTransactionId oit) (MakeLocalTransactionId oat) (MakeLocalTransactionId ost)
         (MakeLocalTransactionId next_local) true) in
    let reason := parsed_inventory_reason next_local next_commit es in
    if decide (reason <> ""%string) then
      Some (TxnPageError "CATALOG.INVALID_INPUT" "transaction_inventory_page.inventory_invalid" reason)
    else if negb (DigestEqual (ComputeTransactionInventoryPageChainDigest body) stored_chain_digest) then
      Some (TxnPageError "SB-TXN-INVENTORY-PAGE-CHAIN-DIGEST-MISMATCH"
              "transaction_inventory_page.chain_digest_mismatch" (to_string page_number))
    else Some (mkPageBodyResult TxnPageOkStatus body serialized DiagnosticRecord_default)
  end.

Definition ParseTransactionInventoryPageBody (serialized : list N) (page_number : N)
    : option TransactionInventoryPageBodyResult :=
  if decide (N.of_nat (length serialized) < kTransactionInventoryPageBodyHeaderBytes) then
    Some (TxnPageError "SB-TXN-INVENTORY-PAGE-BODY-INVALID" "transaction_inventory_page.body_short"
            (to_string page_number))
  else
  magic ← load_bytes kOffsetMagic 8 serialized;
  if decide (magic = kTxnInvV1WeakMagic) then
    Some (TxnPageError "SB-TXN-INVENTORY-PAGE-WEAK-DIGEST-REFUSED"
            "transaction_inventory_page.weak_digest_refused" (to_string page_number))
  else if decide (magic <> kTxnInvMagic) then
    Some (TxnPageError "SB-TXN-INVENTORY-PAGE-BODY-INVALID" "transaction_inventory_page.magic_invalid"
            (to_string page_number))
  else
  header_bytes ← LoadLittle32 kOffsetHeaderBytes serialized;
  if decide (header_bytes <> kTransactionInventoryPageBodyHeaderBytes) then
    Some (TxnPageError "SB-TXN-INVENTORY-PAGE-BODY-INVALID" "transaction_inventory_page.header_bytes_invalid" "")
  else
  stored_checksum_digest ← load_bytes kOffsetChecksumDigest 32 serialized;
  let checksum := ComputeSha256Digest sha256 (ChecksumDigestInput serialized) in
  if negb (hd_ok checksum) then Some (page_failure (hd_status checksum) (hd_diagnostic checksum))
  else if negb (DigestEqual stored_checksum_digest (hd_digest checksum)) then
    Some (TxnPageError "SB-TXN-INVENTORY-PAGE-CHECKSUM-MISMATCH"
            "transaction_inventory_page.checksum_mismatch" (to_string page_number))
  else parse_checked serialized page_number.

End codec.
