(* ===== verification/InventoryPageFacts.v ===== *)
(** * Facts about the inventory page codec

    The stores of the builder produce a fixed sequence of chunks, and the loads of
    the parser read them back; no access leaves the buffer. *)

From S2P Require Import Prelude Platform TransactionState Inventory Horizon Bytes InventoryPage.

(** ** The parser stays inside its buffer *)

Ltac option_step := cbn [mbind option_bind fmap option_fmap option_map].
Ltac in_bounds := repeat (rewrite load_bytes_some by lia; option_step).

Lemma parse_entry_in_bounds off l : (off + 72 <= length l)%nat -> is_Some (parse_entry off l).
Proof.
  intros H. unfold parse_entry, LoadLittle64, LoadLittle32, LoadLittle16. in_bounds.
  case_decide; [by eexists|]. in_bounds. by eexists.
Qed.

Lemma parse_entries_in_bounds i off count l :
  (off + 72 * count <= length l)%nat -> is_Some (parse_entries i off count l).
Proof.
  revert i off. induction count as [|count IH]; intros i off H; simpl; [by eexists|].
  destruct (parse_entry_in_bounds off l ltac:(lia)) as [r ->]. simpl.
  destruct r as [|p]; [by eexists|]. destruct (negb _); [by eexists|].
  destruct (IH (i + 1) (off + 72)%nat ltac:(lia)) as [rest ->]. simpl. by eexists.
Qed.

Lemma parse_checked_in_bounds sha256 l n :
  (152 <= length l)%nat -> is_Some (parse_checked sha256 l n).
Proof.
  intros H. unfold parse_checked, LoadLittle64, LoadLittle32, kOffsetEntryCount, kOffsetBodyBytes,
    kOffsetChainDigest, kOffsetPreviousPageNumber, kOffsetNextPageNumber, kOffsetInventoryGeneration,
    kOffsetNextLocalId, kOffsetNextCommitSequence, kOffsetOit, kOffsetOat, kOffsetOst.
  in_bounds. case_decide as Hb; [by eexists|]. in_bounds. case_decide; [by eexists|].
  destruct (negb _); [by eexists|]. in_bounds.
  edestruct (parse_entries_in_bounds 0 152 (N.to_nat (le_value (slice 12 4 l))) l) as [r Hr].
  { unfold kTransactionInventoryPageBodyHeaderBytes, kEntryBytes in Hb. lia. }
  rewrite Hr. option_step. destruct r; [by eexists|]. case_decide; [by eexists|].
  destruct (negb _); by eexists.
Qed.

Lemma parse_in_bounds sha256 l n : is_Some (ParseTransactionInventoryPageBody sha256 l n).
Proof.
  unfold ParseTransactionInventoryPageBody, LoadLittle32, kOffsetMagic, kOffsetHeaderBytes,
    kOffsetChecksumDigest. case_decide as Hl; [by eexists|].
  unfold kTransactionInventoryPageBodyHeaderBytes in Hl. in_bounds.
  case_decide; [by eexists|]. case_decide; [by eexists|]. in_bounds. case_decide; [by eexists|]. in_bounds.
  destruct (negb _); [by eexists|]. destruct (negb _); [by eexists|].
  apply parse_checked_in_bounds. lia.
Qed.

(** ** Digests *)

Lemma digest_fold_zero acc ps :
  foldl (fun diff (p : N * N) => N.lor diff (N.lxor p.1 p.2)) acc ps = 0 <->
  acc = 0 /\ Forall (fun p => p.1 = p.2) ps.
Proof.
  revert acc. induction ps as [|[a b] ps IH]; intros acc; simpl.
  - split; [by intros ->|by intros [-> _]].
  - rewrite IH, Forall_cons, N.lor_eq_0_iff, N.lxor_eq_0_iff. simpl. tauto.
Qed.

Lemma zip_equal (l k : list N) : length l = length k -> Forall (fun p => p.1 = p.2) (zip l k) <-> l = k.
Proof.
  revert k. induction l as [|a l IH]; intros [|b k] Hl; simpl in *; try done.
  rewrite Forall_cons, IH by lia. simpl. split; [by intros [-> ->]|by intros [= -> ->]].
Qed.

Lemma digest_equal_iff l k : length l = length k -> DigestEqual l k = true <-> l = k.
Proof.
  intros Hl. unfold DigestEqual. rewrite N.eqb_eq, digest_fold_zero, zip_equal by done. tauto.
Qed.

(** The documented size of a SHA-256 digest. *)
Definition digest_size (sha256 : hash_provider) : Prop :=
  forall m d, sha256 m = Some d -> length d = 32%nat.

Lemma compute_digest_length sha256 m :
  digest_size sha256 -> length (hd_digest (ComputeSha256Digest sha256 m)) = 32%nat.
Proof.
  intros Hs. unfold ComputeSha256Digest. case_decide; [done|].
  destruct (sha256 m) eqn:Hm; [by eapply Hs|done].
Qed.

Lemma sha_or_empty_length sha256 m : digest_size sha256 -> length (Sha256OrEmpty sha256 m) = 32%nat.
Proof.
  intros Hs. unfold Sha256OrEmpty. destruct (hd_ok _); [by apply compute_digest_length|done].
Qed.

(** ** Entries *)

(** The machine ranges of the fields of an entry. *)
Record entry_u64 (e : TransactionInventoryEntry) : Prop := {
  eu_local : is_u64 (e_local_id e);
  eu_uuid : length (uuid_bytes (e_uuid e)) = 16%nat;
  eu_begin : is_u64 (e_begin_unix_epoch_millis e);
  eu_final : is_u64 (e_final_unix_epoch_millis e);
  eu_begin_local : is_u64 (e_begin_visible_through_local_transaction_id e);
  eu_begin_commit : is_u64 (e_begin_visible_through_commit_sequence e);
  eu_commit : is_u64 (e_commit_sequence e) }.

Lemma u64_bytes v : is_u64 v -> le_value (le_bytes 8 v) = v.
Proof. intros. by apply le_value_bytes. Qed.

Lemma length_entry_image e : length (uuid_bytes (e_uuid e)) = 16%nat -> length (entry_image e) = 72%nat.
Proof. intros H. unfold entry_image. rewrite !length_app, !length_le_bytes, H. done. Qed.

Definition entry_chunks (pre : list N) (e : TransactionInventoryEntry) (post : list N) : list (list N) :=
  [pre; le_bytes 8 (e_local_id e); uuid_bytes (e_uuid e);
   le_bytes 2 (u16_of_scope (ti_scope (e_identity e))); le_bytes 2 (u16_of_state (e_state e));
   le_bytes 4 (EntryFlags e); le_bytes 8 (e_begin_unix_epoch_millis e);
   le_bytes 8 (e_final_unix_epoch_millis e); le_bytes 8 (e_begin_visible_through_local_transaction_id e);
   le_bytes 8 (e_begin_visible_through_commit_sequence e); le_bytes 8 (e_commit_sequence e); post].

Lemma entry_chunks_image pre e post : mjoin (entry_chunks pre e post) = pre ++ entry_image e ++ post.
Proof. unfold entry_chunks, entry_image. simpl. by rewrite <- !app_assoc, app_nil_r. Qed.

Lemma length_magic : length kTxnInvMagic = 8%nat.
Proof. done. Qed.

(** Sizes of a chunk list whose members have known lengths. *)
Ltac chunk_size :=
  unfold chunk_offset; cbn [take mjoin list_join app length];
  rewrite ?length_app, ?length_magic, ?length_le_bytes, ?length_replicate; cbn [length]; lia.

(** Runs the next store of a routine on chunk [i], and the next load. *)
Ltac store_at i :=
  erewrite (store_chunk i); [|reflexivity|chunk_size|chunk_size];
  cbn [insert list_insert mbind option_bind].
Ltac load_at i :=
  match goal with |- context [mbind _ ?m] =>
    match m with context [load_bytes ?off ?n _] =>
      erewrite (load_chunk i _ _ off n); [|reflexivity|chunk_size|chunk_size];
      cbn [mbind option_bind fmap option_fmap option_map]
    end
  end.

Lemma store_entry_image pre e k :
  length (uuid_bytes (e_uuid e)) = 16%nat ->
  store_entry (length pre) e (pre ++ replicate (72 + k) 0) = Some (pre ++ entry_image e ++ replicate k 0).
Proof.
  intros Hu. rewrite <- entry_chunks_image. unfold entry_chunks.
  replace (pre ++ replicate (72 + k) 0)
    with (mjoin (pre :: zero_chunks [8; 16; 2; 2; 4; 8; 8; 8; 8; 8; k]%nat)).
  2:{ change (mjoin (pre :: zero_chunks [8; 16; 2; 2; 4; 8; 8; 8; 8; 8; k]%nat))
        with (pre ++ mjoin (zero_chunks [8; 16; 2; 2; 4; 8; 8; 8; 8; 8; k]%nat)).
      rewrite replicate_chunks. f_equal. f_equal. simpl. lia. }
  unfold store_entry, StoreLittle64, StoreLittle32, StoreLittle16, zero_chunks. cbn [fmap list_fmap].
  store_at 1%nat. store_at 2%nat. store_at 3%nat. store_at 4%nat. store_at 5%nat. store_at 6%nat.
  store_at 7%nat. store_at 8%nat. store_at 9%nat. store_at 10%nat. done.
Qed.

(** ** Codes and flags *)

Lemma state_code_round_trip s : state_of_u16 (u16_of_state s) = s.
Proof. by destruct s. Qed.

Lemma scope_code_round_trip s : scope_of_u16 (u16_of_scope s) = Some s.
Proof. by destruct s. Qed.

(** An archive origin the flags can carry. *)
Definition origin_storable (e : TransactionInventoryEntry) : Prop :=
  e_archived_from_state e ∈ [ts_none; ts_committed; ts_rolled_back; ts_failed_terminal].

Lemma flags_round_trip e :
  origin_storable e ->
  EntryFlags e < 2 ^ 6 /\ origin_of_flags (EntryFlags e) = e_archived_from_state e /\
  N.testbit (EntryFlags e) 0 = e_evidence_record_required e /\
  N.testbit (EntryFlags e) 1 = e_evidence_record_written e /\
  N.testbit (EntryFlags e) 2 = e_rollback_only e /\
  N.testbit (EntryFlags e) 5 = e_stable_snapshot e.
Proof.
  unfold origin_storable, EntryFlags, origin_of_flags. rewrite !elem_of_cons.
  destruct e as [id st from ? ? ? ? ? req wr ro sn]. simpl.
  intros [->|[->|[->|[->|H]]]]; [..|by apply not_elem_of_nil in H];
    destruct req, wr, ro, sn; vm_compute; repeat split.
Qed.

Lemma small_flags_known f : f < 2 ^ 6 -> N.ldiff f 63 = 0.
Proof.
  intros H. apply N.bits_inj. intros i. rewrite N.ldiff_spec, N.bits_0.
  destruct (decide (i < 6)) as [Hi|Hi].
  - change 63 with (N.ones 6). rewrite N.ones_spec_low by done. by rewrite andb_false_r.
  - replace (N.testbit f i) with false; [done|]. symmetry.
    destruct (decide (f = 0)) as [->|Hf]; [apply N.bits_0|]. apply N.bits_above_log2.
    apply N.log2_lt_pow2 in H; lia.
Qed.

Lemma structure_origin_storable inv e :
  entry_ok inv e -> origin_storable e.
Proof.
  intros He. unfold origin_storable. destruct (decide (e_state e = ts_archived)) as [Ha|Ha].
  - apply list_elem_of_further, (eo_archived _ _ He Ha).
  - rewrite (eo_not_archived _ _ He Ha). apply list_elem_of_here.
Qed.

Lemma stored_flags_known e : origin_storable e -> N.ldiff (le_value (le_bytes 4 (EntryFlags e))) 63 = 0.
Proof.
  intros Ho. destruct (flags_round_trip e Ho) as [Hf _].
  rewrite le_value_bytes by (etrans; [exact Hf|done]). by apply small_flags_known.
Qed.

Lemma parse_entry_image pre e post :
  entry_u64 e -> origin_storable e -> tu_kind (ti_transaction_uuid (e_identity e)) = uk_transaction ->
  parse_entry (length pre) (pre ++ entry_image e ++ post) =
    Some (inr (Some (ti_scope (e_identity e)), e)).
Proof.
  intros He Ho Hk. pose proof (eu_uuid _ He) as Hu. rewrite <- entry_chunks_image. unfold entry_chunks.
  unfold parse_entry, LoadLittle64, LoadLittle32, LoadLittle16.
  load_at 1%nat. load_at 2%nat. load_at 3%nat. load_at 4%nat. load_at 5%nat.
  rewrite decide_False by (rewrite stored_flags_known by done; intros X; by apply X).
  load_at 6%nat. load_at 7%nat. load_at 8%nat. load_at 9%nat. load_at 10%nat.
  destruct (flags_round_trip e Ho) as (Hf & Hor & Hb0 & Hb1 & Hb2 & Hb5). destruct He.
  rewrite !u64_bytes by done. rewrite (le_value_bytes 4) by (etrans; [exact Hf|done]).
  rewrite !le_value_bytes by (destruct (ti_scope (e_identity e)), (e_state e); done).
  rewrite scope_code_round_trip, state_code_round_trip, Hor, Hb0, Hb1, Hb2, Hb5.
  do 3 f_equal. unfold MakeLocalTransactionId. simpl.
  destruct e as [[lid [k [u]] sc] ?]. simpl in *. by subst.
Qed.

(** ** The entry loops *)

Definition entries_image (es : list TransactionInventoryEntry) : list N := mjoin (entry_image <$> es).

Lemma length_entries_image es :
  Forall (fun e => length (uuid_bytes (e_uuid e)) = 16%nat) es -> length (entries_image es) = (72 * length es)%nat.
Proof.
  induction 1 as [|e es He _ IH]; [done|].
  change (entries_image (e :: es)) with (entry_image e ++ entries_image es).
  rewrite length_app, IH, length_entry_image by done. simpl. lia.
Qed.

Lemma store_entries_image pre es k :
  Forall (fun e => length (uuid_bytes (e_uuid e)) = 16%nat) es ->
  Forall (fun e => transaction_identity_valid (e_identity e) = true) es ->
  store_entries (length pre) es (pre ++ replicate (72 * length es + k) 0) =
    Some (inr (pre ++ entries_image es ++ replicate k 0, (length pre + 72 * length es)%nat)).
Proof.
  intros Hu Hv. revert pre. induction es as [|e es IH]; intros pre.
  - simpl. by rewrite Nat.add_0_r.
  - inversion Hu as [|?? Hue Hues]; subst. inversion Hv as [|?? Hve Hves]; subst.
    cbn [store_entries]. rewrite Hve. cbn [negb].
    replace (72 * length (e :: es) + k)%nat with (72 + (72 * length es + k))%nat by (simpl; lia).
    rewrite store_entry_image by done. option_step. rewrite app_assoc.
    replace (length pre + 72)%nat with (length (pre ++ entry_image e))
      by (rewrite length_app, length_entry_image by done; lia).
    rewrite IH by done. rewrite length_app, length_entry_image by done.
    change (entries_image (e :: es)) with (entry_image e ++ entries_image es).
    rewrite <- !app_assoc. do 3 f_equal. simpl. lia.
Qed.

Lemma parse_entries_image pre es post i :
  Forall entry_u64 es -> Forall origin_storable es ->
  Forall (fun e => transaction_identity_valid (e_identity e) = true) es ->
  parse_entries i (length pre) (length es) (pre ++ entries_image es ++ post) =
    Some (inr ((fun e => (Some (ti_scope (e_identity e)), e)) <$> es)).
Proof.
  intros Hu Ho Hv. revert pre i. induction es as [|e es IH]; intros pre i; [done|].
  inversion Hu as [|?? Hue Hues]; subst. inversion Ho as [|?? Hoe Hoes]; subst.
  inversion Hv as [|?? Hve Hves]; subst.
  cbn [parse_entries length].
  change (entries_image (e :: es)) with (entry_image e ++ entries_image es). rewrite <- app_assoc.
  rewrite parse_entry_image; [|done|done|].
  2:{ unfold transaction_identity_valid in Hve. by bool_prop. }
  option_step. cbn [snd]. rewrite Hve. cbn [negb]. rewrite app_assoc.
  replace (length pre + 72)%nat with (length (pre ++ entry_image e))
    by (rewrite length_app, length_entry_image by apply Hue; lia).
  rewrite IH by done. done.
Qed.

Lemma parsed_reason_plain nl nc es :
  parsed_inventory_reason nl nc ((fun e => (Some (ti_scope (e_identity e)), e)) <$> es) =
  ValidateLocalTransactionInventoryStructure (mkInventory nl nc es None).
Proof.
  unfold parsed_inventory_reason, parsed_reason. destruct (list_find _ _) as [[k p]|] eqn:Hf.
  - apply list_find_Some in Hf as (Hk & Hn & _). rewrite list_lookup_fmap in Hk.
    destruct (es !! k); simpl in Hk; simplify_eq.
  - f_equal. f_equal. rewrite <- list_fmap_compose. apply list_fmap_id.
Qed.

(** ** The header *)

Definition header_chunks (b : TransactionInventoryPageBody) (body_bytes checksum rest : list N) : list (list N) :=
  [kTxnInvMagic; le_bytes 4 kTransactionInventoryPageBodyHeaderBytes;
   le_bytes 4 (u32_cast (N.of_nat (length (inv_entries (tb_inventory b))))); body_bytes; replicate 4 0;
   le_bytes 8 (tb_next_page_number b); le_bytes 8 (inv_next_local_transaction_id (tb_inventory b));
   le_bytes 8 (h_oldest_interesting_transaction (tb_horizons b));
   le_bytes 8 (h_oldest_active_transaction (tb_horizons b));
   le_bytes 8 (h_oldest_snapshot_transaction (tb_horizons b)); checksum;
   le_bytes 8 (tb_inventory_generation b); le_bytes 8 (tb_previous_page_number b); tb_chain_digest b;
   le_bytes 8 (inv_next_commit_sequence (tb_inventory b)); rest].

Definition page_image (b : TransactionInventoryPageBody) (body_bytes checksum rest : list N) : list N :=
  mjoin (header_chunks b body_bytes checksum rest).

Lemma page_image_app b bb cs rest : page_image b bb cs rest = page_image b bb cs [] ++ rest.
Proof.
  unfold page_image, header_chunks.
  match goal with |- mjoin ?cs = _ =>
    change cs with (take 15 cs ++ [rest]); change (mjoin (_ ++ [rest])) with (mjoin (take 15 cs ++ [rest])) end.
  rewrite join_app. simpl. by rewrite !app_nil_r, <- !app_assoc.
Qed.

Lemma length_page_image b bb cs rest :
  length bb = 4%nat -> length cs = 32%nat -> length (tb_chain_digest b) = 32%nat ->
  length (page_image b bb cs rest) = (152 + length rest)%nat.
Proof.
  intros Hb Hc Hd. rewrite page_image_app, length_app. f_equal. unfold page_image, header_chunks.
  cbn [mjoin list_join]. rewrite !length_app, !length_le_bytes, Hb, Hc, Hd. done.
Qed.

Lemma store_header_image b k :
  length (tb_chain_digest b) = 32%nat ->
  store_header b (replicate (152 + k) 0) = Some (page_image b (replicate 4 0) (replicate 32 0) (replicate k 0)).
Proof.
  intros Hd. unfold page_image, header_chunks.
  replace (replicate (152 + k) 0)
    with (mjoin (zero_chunks [8; 4; 4; 4; 4; 8; 8; 8; 8; 8; 32; 8; 8; 32; 8; k]%nat)).
  2:{ rewrite replicate_chunks. f_equal. simpl. lia. }
  unfold store_header, StoreLittle64, StoreLittle32, zero_chunks. cbn [fmap list_fmap].
  unfold kOffsetMagic, kOffsetHeaderBytes, kOffsetEntryCount, kOffsetNextPageNumber, kOffsetNextLocalId,
    kOffsetNextCommitSequence, kOffsetOit, kOffsetOat, kOffsetOst, kOffsetInventoryGeneration,
    kOffsetPreviousPageNumber, kOffsetChainDigest.
  store_at 0%nat. store_at 1%nat. store_at 2%nat. store_at 5%nat. store_at 6%nat. store_at 14%nat.
  store_at 7%nat. store_at 8%nat. store_at 9%nat. store_at 11%nat. store_at 12%nat. store_at 13%nat. done.
Qed.

Lemma store_body_bytes b bb bb' cs rest :
  length bb = 4%nat -> length bb' = 4%nat ->
  store_bytes kOffsetBodyBytes bb' (page_image b bb cs rest) = Some (page_image b bb' cs rest).
Proof. intros H1 H2. unfold page_image, header_chunks, kOffsetBodyBytes. store_at 3%nat. done. Qed.

Lemma store_checksum b bb cs cs' rest :
  length bb = 4%nat -> length cs = 32%nat -> length cs' = 32%nat ->
  store_bytes kOffsetChecksumDigest cs' (page_image b bb cs rest) = Some (page_image b bb cs' rest).
Proof. intros H1 H2 H3. unfold page_image, header_chunks, kOffsetChecksumDigest. store_at 10%nat. done. Qed.

Lemma checksum_input_image b bb cs rest :
  length bb = 4%nat -> length cs = 32%nat -> length (tb_chain_digest b) = 32%nat ->
  ChecksumDigestInput (page_image b bb cs rest) = page_image b bb (replicate 32 0) rest.
Proof.
  intros H1 H2 H3. unfold ChecksumDigestInput. pose proof (length_page_image b bb cs rest H1 H2 H3) as Hl.
  rewrite decide_True by (rewrite Hl; unfold kOffsetChecksumDigest; lia).
  pose proof (store_checksum b bb cs (replicate 32 0) rest H1 H2 (length_replicate _ _)) as Hs.
  rewrite store_bytes_some in Hs by (rewrite Hl, length_replicate; unfold kOffsetChecksumDigest; lia).
  by simplify_eq.
Qed.

(** ** Whole pages *)

Definition uuid_sized (e : TransactionInventoryEntry) : Prop := length (uuid_bytes (e_uuid e)) = 16%nat.

Definition body_bytes_image (b : TransactionInventoryPageBody) : list N :=
  le_bytes 4 (u32_cast (N.of_nat (152 + 72 * length (inv_entries (tb_inventory b))))).

Definition body_rest (b : TransactionInventoryPageBody) (k : nat) : list N :=
  entries_image (inv_entries (tb_inventory b)) ++ replicate k 0.

(** The digest of a page, taken with its digest field zeroed. *)
Definition page_checksum (sha256 : hash_provider) (b : TransactionInventoryPageBody) (k : nat) : HashDigestResult :=
  ComputeSha256Digest sha256 (page_image b (body_bytes_image b) (replicate 32 0) (body_rest b k)).

Definition page_bytes (sha256 : hash_provider) (b : TransactionInventoryPageBody) (k : nat) : list N :=
  page_image b (body_bytes_image b) (hd_digest (page_checksum sha256 b k)) (body_rest b k).

Lemma store_body_image sha256 b k :
  digest_size sha256 -> length (tb_chain_digest b) = 32%nat ->
  Forall uuid_sized (inv_entries (tb_inventory b)) ->
  Forall (fun e => transaction_identity_valid (e_identity e) = true) (inv_entries (tb_inventory b)) ->
  store_body sha256 b (replicate (152 + (72 * length (inv_entries (tb_inventory b)) + k)) 0) =
  Some (if hd_ok (page_checksum sha256 b k)
        then mkPageBodyResult TxnPageOkStatus b (page_bytes sha256 b k) DiagnosticRecord_default
        else page_failure (hd_status (page_checksum sha256 b k)) (hd_diagnostic (page_checksum sha256 b k))).
Proof.
  intros Hs Hd Hu Hv. unfold store_body. rewrite store_header_image by done. option_step.
  rewrite page_image_app.
  replace 152%nat with (length (page_image b (replicate 4 0) (replicate 32 0) []))
    by (rewrite length_page_image by done; done).
  rewrite store_entries_image by done. option_step.
  rewrite <- page_image_app, length_page_image by done. cbn [length]. rewrite Nat.add_0_r.
  unfold StoreLittle32. rewrite store_body_bytes by (rewrite ?length_le_bytes; done). option_step.
  fold (body_rest b k). change (le_bytes 4 _) with (body_bytes_image b).
  rewrite checksum_input_image by (rewrite ?length_le_bytes; done). fold (page_checksum sha256 b k).
  destruct (hd_ok (page_checksum sha256 b k)); cbn [negb]; [|done].
  rewrite store_checksum; [done|apply length_le_bytes|done|by apply compute_digest_length].
Qed.

(** The machine ranges of the fields of a page, and the horizons a parsed page has. *)
Record body_storable (b : TransactionInventoryPageBody) : Prop := {
  bs_next : is_u64 (tb_next_page_number b);
  bs_previous : is_u64 (tb_previous_page_number b);
  bs_generation : is_u64 (tb_inventory_generation b);
  bs_next_local : is_u64 (inv_next_local_transaction_id (tb_inventory b));
  bs_next_commit : is_u64 (inv_next_commit_sequence (tb_inventory b));
  bs_oit : is_u64 (h_oldest_interesting_transaction (tb_horizons b));
  bs_oat : is_u64 (h_oldest_active_transaction (tb_horizons b));
  bs_ost : is_u64 (h_oldest_snapshot_transaction (tb_horizons b));
  bs_next_transaction : h_next_transaction_id (tb_horizons b) = inv_next_local_transaction_id (tb_inventory b);
  bs_valid : h_valid (tb_horizons b) = true;
  bs_base : inv_publication_base (tb_inventory b) = None;
  bs_entries : Forall entry_u64 (inv_entries (tb_inventory b)) }.

Lemma u32_bytes v : v < 2 ^ 32 -> le_value (le_bytes 4 (u32_cast v)) = v.
Proof.
  intros H. unfold u32_cast. rewrite N.mod_small by done. by apply le_value_bytes.
Qed.

Lemma structure_valid_identities inv :
  structure_ok inv -> Forall (fun e => transaction_identity_valid (e_identity e) = true) (inv_entries inv).
Proof. intros Hs. eapply Forall_impl; [apply (so_entries _ Hs)|]. intros e He. apply (eo_identity _ _ He). Qed.

Lemma structure_storable_origins inv : structure_ok inv -> Forall origin_storable (inv_entries inv).
Proof. intros Hs. eapply Forall_impl; [apply (so_entries _ Hs)|]. intros e He. by eapply structure_origin_storable. Qed.

(** Every field the parser reads from the header. *)
Lemma header_loads b bb cs rest :
  length bb = 4%nat -> length cs = 32%nat -> length (tb_chain_digest b) = 32%nat ->
  let load off n := load_bytes off n (page_image b bb cs rest) in
  load 0%nat 8%nat = Some kTxnInvMagic /\
  load 8%nat 4%nat = Some (le_bytes 4 kTransactionInventoryPageBodyHeaderBytes) /\
  load 12%nat 4%nat = Some (le_bytes 4 (u32_cast (N.of_nat (length (inv_entries (tb_inventory b)))))) /\
  load 16%nat 4%nat = Some bb /\
  load 24%nat 8%nat = Some (le_bytes 8 (tb_next_page_number b)) /\
  load 32%nat 8%nat = Some (le_bytes 8 (inv_next_local_transaction_id (tb_inventory b))) /\
  load 40%nat 8%nat = Some (le_bytes 8 (h_oldest_interesting_transaction (tb_horizons b))) /\
  load 48%nat 8%nat = Some (le_bytes 8 (h_oldest_active_transaction (tb_horizons b))) /\
  load 56%nat 8%nat = Some (le_bytes 8 (h_oldest_snapshot_transaction (tb_horizons b))) /\
  load 64%nat 32%nat = Some cs /\
  load 96%nat 8%nat = Some (le_bytes 8 (tb_inventory_generation b)) /\
  load 104%nat 8%nat = Some (le_bytes 8 (tb_previous_page_number b)) /\
  load 112%nat 32%nat = Some (tb_chain_digest b) /\
  load 144%nat 8%nat = Some (le_bytes 8 (inv_next_commit_sequence (tb_inventory b))).
Proof.
  intros H1 H2 H3 load. subst load. unfold page_image, header_chunks.
  split_and!;
    [eapply (load_chunk 0%nat)|eapply (load_chunk 1%nat)|eapply (load_chunk 2%nat)|eapply (load_chunk 3%nat)
    |eapply (load_chunk 5%nat)|eapply (load_chunk 6%nat)|eapply (load_chunk 7%nat)|eapply (load_chunk 8%nat)
    |eapply (load_chunk 9%nat)|eapply (load_chunk 10%nat)|eapply (load_chunk 11%nat)|eapply (load_chunk 12%nat)
    |eapply (load_chunk 13%nat)|eapply (load_chunk 14%nat)]; try reflexivity; chunk_size.
Qed.

Lemma parse_checked_image sha256 b k cs :
  digest_size sha256 -> body_storable b -> structure_ok (tb_inventory b) ->
  tb_inventory_generation b <> 0 -> length cs = 32%nat -> length (tb_chain_digest b) = 32%nat ->
  tb_chain_digest b = ComputeTransactionInventoryPageChainDigest sha256 b ->
  TransactionInventoryPageDigestPresent (tb_chain_digest b) = true ->
  152 + 72 * N.of_nat (length (inv_entries (tb_inventory b))) < 2 ^ 32 ->
  parse_checked sha256 (page_image b (body_bytes_image b) cs (body_rest b k)) (tb_page_number b) =
    Some (mkPageBodyResult TxnPageOkStatus b (page_image b (body_bytes_image b) cs (body_rest b k))
            DiagnosticRecord_default).
Proof.
  intros Hs Hb Hv Hg Hcs Hd Hch Hp Hsz.
  assert (length (body_bytes_image b) = 4%nat) as Hbb by apply length_le_bytes.
  assert (length (page_image b (body_bytes_image b) cs (body_rest b k)) =
          152 + (72 * length (inv_entries (tb_inventory b)) + k))%nat as Hlen.
  { rewrite length_page_image by done. unfold body_rest.
    rewrite length_app, length_replicate, length_entries_image; [done|].
    eapply Forall_impl; [apply (bs_entries _ Hb)|]. by intros e []. }
  assert (parse_entries 0 152 (length (inv_entries (tb_inventory b)))
            (page_image b (body_bytes_image b) cs (body_rest b k)) =
          Some (inr ((fun e => (Some (ti_scope (e_identity e)), e)) <$> inv_entries (tb_inventory b)))) as Hes.
  { rewrite page_image_app. unfold body_rest.
    replace 152%nat with (length (page_image b (body_bytes_image b) cs []))
      by (rewrite length_page_image by done; done).
    apply parse_entries_image; [apply Hb|by apply structure_storable_origins|by apply structure_valid_identities]. }
  destruct (header_loads b (body_bytes_image b) cs (body_rest b k) Hbb Hcs Hd)
    as (_ & _ & L12 & L16 & L24 & L32 & L40 & L48 & L56 & _ & L96 & L104 & L112 & L144).
  revert Hlen Hes L12 L16 L24 L32 L40 L48 L56 L96 L104 L112 L144.
  generalize (page_image b (body_bytes_image b) cs (body_rest b k)) as img.
  intros img Hlen Hes L12 L16 L24 L32 L40 L48 L56 L96 L104 L112 L144. destruct Hb.
  unfold parse_checked, LoadLittle64, LoadLittle32, kOffsetEntryCount, kOffsetBodyBytes,
    kOffsetChainDigest, kOffsetPreviousPageNumber, kOffsetNextPageNumber, kOffsetInventoryGeneration,
    kOffsetNextLocalId, kOffsetNextCommitSequence, kOffsetOit, kOffsetOat, kOffsetOst.
  rewrite L12, L16, L112. option_step. unfold body_bytes_image.
  rewrite u32_bytes by lia. rewrite u32_bytes by lia.
  rewrite decide_False.
  2:{ rewrite Hlen. unfold kTransactionInventoryPageBodyHeaderBytes, kEntryBytes. lia. }
  rewrite L104, L24, L96. option_step. rewrite !u64_bytes by done.
  rewrite decide_False by done. rewrite Hp. cbn [negb].
  rewrite L32, L144, L40, L48, L56. option_step. rewrite !u64_bytes by done.
  rewrite Nat2N.id, Hes. option_step. rewrite parsed_reason_plain.
  rewrite <- list_fmap_compose. unfold compose. cbn [snd].
  rewrite list_fmap_id. unfold MakeLocalTransactionId.
  replace (mkInventory _ _ _ None) with (tb_inventory b) by (destruct (tb_inventory b); simpl in *; congruence).
  apply validate_structure_iff in Hv. rewrite Hv, decide_False by (intros X; by apply X).
  replace (mkPageBody _ _ _ _ _ _ _) with b.
  2:{ destruct b as [? ? ? ? ? ? h]; simpl in *. f_equal. destruct h; simpl in *; congruence. }
  rewrite <- Hch. rewrite (proj2 (digest_equal_iff _ _ eq_refl) eq_refl). done.
Qed.

Lemma parse_page_bytes sha256 b k :
  digest_size sha256 -> body_storable b -> structure_ok (tb_inventory b) ->
  tb_inventory_generation b <> 0 -> length (tb_chain_digest b) = 32%nat ->
  tb_chain_digest b = ComputeTransactionInventoryPageChainDigest sha256 b ->
  TransactionInventoryPageDigestPresent (tb_chain_digest b) = true ->
  hd_ok (page_checksum sha256 b k) = true ->
  152 + 72 * N.of_nat (length (inv_entries (tb_inventory b))) < 2 ^ 32 ->
  ParseTransactionInventoryPageBody sha256 (page_bytes sha256 b k) (tb_page_number b) =
    Some (mkPageBodyResult TxnPageOkStatus b (page_bytes sha256 b k) DiagnosticRecord_default).
Proof.
  intros Hs Hb Hv Hg Hch Hchain Hp Hck Hsz.
  assert (length (hd_digest (page_checksum sha256 b k)) = 32%nat) as Hd by by apply compute_digest_length.
  assert (length (body_bytes_image b) = 4%nat) as Hbb by apply length_le_bytes.
  destruct (header_loads b _ _ (body_rest b k) Hbb Hd Hch) as (L0 & L8 & _ & _ & _ & _ & _ & _ & _ & L64 & _).
  fold (page_bytes sha256 b k) in L0, L8, L64.
  assert (length (page_bytes sha256 b k) >= 152)%nat as Hlen.
  { unfold page_bytes. rewrite length_page_image by done. lia. }
  assert (ComputeSha256Digest sha256 (ChecksumDigestInput (page_bytes sha256 b k)) = page_checksum sha256 b k) as Hc.
  { unfold page_bytes. by rewrite checksum_input_image. }
  unfold ParseTransactionInventoryPageBody, LoadLittle32, kOffsetMagic, kOffsetHeaderBytes, kOffsetChecksumDigest.
  rewrite decide_False by (unfold kTransactionInventoryPageBodyHeaderBytes; lia).
  rewrite L0. option_step. rewrite decide_False by done. rewrite decide_False by (intros X; by apply X).
  rewrite L8. option_step. rewrite le_value_bytes by done. rewrite decide_False by (intros X; by apply X).
  rewrite L64. option_step. rewrite Hc, Hck. cbn [negb].
  rewrite (proj2 (digest_equal_iff _ _ eq_refl) eq_refl). cbn [negb].
  unfold page_bytes. exact (parse_checked_image sha256 b k _ Hs Hb Hv Hg Hd Hch Hchain Hp Hsz).
Qed.

(** ** What an accepted page has passed *)

Lemma parsed_reason_empty nl nc es :
  parsed_inventory_reason nl nc es = ""%string ->
  structure_ok (mkInventory nl nc es.*2 None).
Proof.
  unfold parsed_inventory_reason, parsed_reason. cbv zeta. destruct (list_find _ _) as [[k p]|].
  - case_decide as Hb; [done|]. case_decide as Hr; [|done]. intros H.
    exfalso. rewrite H in Hr. revert Hr. apply (bool_decide_eq_false_1 _). vm_compute. reflexivity.
  - apply validate_structure_iff.
Qed.

Lemma option_bind_inv {A B} (m : option A) (f : A -> option B) y :
  m ≫= f = Some y -> exists x, m = Some x /\ f x = Some y.
Proof. destruct m as [x|]; [|done]. intros H. by exists x. Qed.

Lemma load_some_inv off n l bs :
  load_bytes off n l = Some bs -> bs = slice off n l /\ (off + n <= length l)%nat.
Proof. unfold load_bytes. case_decide; [|done]. by intros [= <-]. Qed.

Record page_accepted (sha256 : hash_provider) (l : list N) (n : N) (b : TransactionInventoryPageBody) : Prop := {
  pa_number : tb_page_number b = n;
  pa_next : h_next_transaction_id (tb_horizons b) = inv_next_local_transaction_id (tb_inventory b);
  pa_structure : structure_ok (tb_inventory b);
  pa_generation : tb_inventory_generation b <> 0;
  pa_chain : tb_chain_digest b = slice 112 32 l;
  pa_chain_equal : DigestEqual (ComputeTransactionInventoryPageChainDigest sha256 b) (slice 112 32 l) = true;
  pa_present : TransactionInventoryPageDigestPresent (slice 112 32 l) = true }.

Ltac bind_inv H :=
  let x := fresh "x" in let Hx := fresh "Hx" in apply option_bind_inv in H as (x & Hx & H).

Lemma page_error_not_ok code key detail : tpr_ok (TxnPageError code key detail) = false.
Proof. done. Qed.

Lemma parse_entries_error i off count l err :
  parse_entries i off count l = Some (inl err) -> tpr_ok err = false.
Proof.
  revert i off. induction count as [|count IH]; intros i off; cbn [parse_entries]; [done|].
  intros H. bind_inv H. destruct x as [e|p].
  - injection H as <-. unfold parse_entry in Hx. bind_inv Hx. bind_inv Hx. bind_inv Hx. bind_inv Hx. bind_inv Hx.
    destruct (decide (_ <> 0)); [by injection Hx as <-|].
    bind_inv Hx. bind_inv Hx. bind_inv Hx. bind_inv Hx. bind_inv Hx. done.
  - destruct (negb _); [by injection H as <-|]. bind_inv H. destruct x; [|done]. injection H as <-. by eapply IH.
Qed.

Lemma parse_checked_accepted sha256 l n r :
  parse_checked sha256 l n = Some r -> tpr_ok r = true ->
  page_accepted sha256 l n (tpr_body r) /\ tpr_serialized r = l.
Proof.
  unfold parse_checked. intros H Hok. bind_inv H. bind_inv H. bind_inv H.
  apply load_some_inv in Hx1 as [-> Hle]. unfold kOffsetChainDigest in *.
  destruct (decide (_ \/ _)) as [|Hb]; [by injection H as <-|].
  bind_inv H. bind_inv H. bind_inv H. destruct (decide (_ = 0)) as [|Hg]; [by injection H as <-|].
  destruct (TransactionInventoryPageDigestPresent (slice 112 32 l)) eqn:Hp; cbn [negb] in H; [|by injection H as <-].
  bind_inv H. bind_inv H. bind_inv H. bind_inv H. bind_inv H. bind_inv H.
  match goal with Hx : parse_entries _ _ _ _ = Some ?x |- _ => rename x into parsed; rename Hx into Hparsed end.
  destruct parsed as [err|es].
  { injection H as <-. by rewrite (parse_entries_error _ _ _ _ _ Hparsed) in Hok. }
  destruct (decide (parsed_inventory_reason _ _ _ <> _)) as [|Hr]; [by injection H as <-|].
  apply dec_stable, parsed_reason_empty in Hr.
  destruct (DigestEqual _ _) eqn:Hd; cbn [negb] in H; [|by injection H as <-].
  injection H as <-. split; [|done]. by split.
Qed.

(** The inversion of the whole parser. *)
Lemma parse_accepted sha256 l n r :
  digest_size sha256 ->
  ParseTransactionInventoryPageBody sha256 l n = Some r -> tpr_ok r = true ->
  page_accepted sha256 l n (tpr_body r) /\ tpr_serialized r = l /\
  (152 <= length l)%nat /\ sha256 (ChecksumDigestInput l) = Some (slice 64 32 l).
Proof.
  intros Hs. unfold ParseTransactionInventoryPageBody. intros H Hok.
  destruct (decide (_ < _)) as [|Hl]; [by injection H as <-|]. bind_inv H.
  destruct (decide (x = _)) as [|_]; [by injection H as <-|].
  destruct (decide (x <> _)) as [|_]; [by injection H as <-|]. bind_inv H.
  destruct (decide (_ <> _)) as [|_]; [by injection H as <-|]. bind_inv H.
  apply load_some_inv in Hx1 as [-> Hle]. unfold kOffsetChecksumDigest in *.
  destruct (hd_ok _) eqn:Hk; cbn [negb] in H.
  2:{ injection H as <-. unfold tpr_ok, page_failure in Hok. unfold hd_ok in Hk. cbn [tpr_status] in Hok. congruence. }
  destruct (DigestEqual _ _) eqn:Hd; cbn [negb] in H; [|by injection H as <-].
  apply parse_checked_accepted in H as [Ha Hser]; [|done]. split_and!; try done.
  - unfold kTransactionInventoryPageBodyHeaderBytes in Hl. lia.
  - apply digest_equal_iff in Hd; [|rewrite length_slice by lia; symmetry; by apply compute_digest_length].
    rewrite Hd. unfold ComputeSha256Digest in *. case_decide; [done|].
    by destruct (sha256 (ChecksumDigestInput l)).
Qed.
