(* ===== verification/NativeInventoryPage.v ===== *)
(** * Native inventory pages

    Models the native image of [storage/page/transaction_inventory_page.cpp] (namespace
    [native_inventory] and the codec after it): one page of the chain that stores the
    transaction inventory, framed by the common page header, linked to its neighbours
    and protected by a digest.  The codec comes in two forms, one that owns its page and
    one that works in regions its caller supplies; both are here.  SHA-256 is an
    argument; a result of [None] is an access outside the buffer. *)

From S2P Require Import Prelude Platform Uuid TransactionState Inventory Horizon InventoryEvolution.
From S2P Require Import Bytes PageFrame InventoryPage.

(** ** Data *)

(** A view has the same fields, and never a publication base. *)
Record NativeTransactionInventoryPage := mkNativePage {
  np_header : NativeCommonPageHeader;
  np_object_uuid : Uuid;
  np_inventory_generation : N;
  np_previous : option NativePageReference;
  np_next : option NativePageReference;
  np_inventory : LocalTransactionInventory }.

Inductive NativeInventoryError :=
| nie_none | nie_invalid_header | nie_invalid_family | nie_invalid_reference | nie_invalid_inventory
| nie_invalid_integrity | nie_hash_failure | nie_resource_exhausted | nie_invalid_filespace
| nie_binding_mismatch | nie_io_failure | nie_encrypted_requires_crypto_authority | nie_chain_mismatch
| nie_invalid_backing.

#[export] Instance NativeInventoryError_eq_dec : EqDecision NativeInventoryError.
Proof. solve_decision. Defined.

(** "SBTINV01" *)
Definition kNativeMagic : list N := [83; 66; 84; 73; 78; 86; 48; 49].

(** ** References *)

Definition PutRef (off : nat) (r : NativePageReference) (l : list N) : option (list N) :=
  l ← store_bytes off (uuid_bytes (pr_filespace_uuid r)) l;
  l ← StoreLittle64 (off + 16) (pr_page_number r) l;
  l ← StoreLittle64 (off + 24) (pr_page_generation r) l;
  store_bytes (off + 32) (uuid_bytes (pr_page_size_profile_uuid r)) l.

Definition GetRef (off : nat) (l : list N) : option NativePageReference :=
  filespace ← load_bytes off 16 l;
  number ← LoadLittle64 (off + 16) l;
  generation ← LoadLittle64 (off + 24) l;
  profile ← load_bytes (off + 32) 16 l;
  Some (mkPageRef (mkUuid filespace) number generation (mkUuid profile)).

Definition RefValid (r : NativePageReference) : bool :=
  IsEngineIdentityUuid (pr_filespace_uuid r) && bool_decide (pr_page_number r <> 0) &&
  bool_decide (pr_page_generation r <> 0) &&
  match FindCanonicalFilespacePageProfile (pr_page_size_profile_uuid r) with
  | None => false
  | Some profile =>
    bool_decide (pr_page_number r < u64_max / cfp_page_size_bytes profile) &&
    CheckFileDeviceExtent ((pr_page_number r * cfp_page_size_bytes profile) mod u64_modulus) (cfp_page_size_bytes profile)
  end.

Definition SameSlot (a b : NativePageReference) : bool :=
  bool_decide (pr_filespace_uuid a = pr_filespace_uuid b) && bool_decide (pr_page_number a = pr_page_number b).

Definition ProfilesAgree (a b : NativePageReference) : bool :=
  bool_decide (pr_filespace_uuid a <> pr_filespace_uuid b) ||
  bool_decide (pr_page_size_profile_uuid a = pr_page_size_profile_uuid b).

Definition Self (p : NativeTransactionInventoryPage) : NativePageReference :=
  mkPageRef (ph_filespace_uuid (np_header p)) (ph_page_number (np_header p)) (ph_page_generation (np_header p))
    (ph_page_size_profile_uuid (np_header p)).

(** ** Validation *)

Definition neighbor_refused (self : NativePageReference) (neighbor : option NativePageReference) : bool :=
  match neighbor with
  | None => false
  | Some r => negb (RefValid r) || SameSlot self r || negb (ProfilesAgree self r)
  end.

Definition header_encodes (h : NativeCommonPageHeader) : bool :=
  match EncodeNativeCommonPageHeader h with Some (inr _) => true | _ => false end.

(** The checks before the inventory is looked at. *)
Definition ValidateFrame (p : NativeTransactionInventoryPage) : NativeInventoryError :=
  let self := Self p in
  if negb (header_encodes (np_header p)) || bool_decide (ph_page_type (np_header p) <> 769) then nie_invalid_header
  else if negb (IsEngineIdentityUuid (np_object_uuid p)) || bool_decide (np_inventory_generation p = 0) ||
          bool_decide ((ph_page_size_bytes (np_header p) - 384) / kEntryBytes < N.of_nat (length (inv_entries (np_inventory p))))
  then nie_invalid_family
  else if negb (RefValid self) then nie_invalid_reference
  else if neighbor_refused self (np_previous p) || neighbor_refused self (np_next p) then nie_invalid_reference
  else if match np_previous p, np_next p with
          | Some a, Some b => SameSlot a b || negb (ProfilesAgree a b)
          | _, _ => false
          end then nie_invalid_reference
  else nie_none.

(** Local numbers strictly ascending, the first above [prior]. *)
Fixpoint ascending (prior : N) (es : list TransactionInventoryEntry) : bool :=
  match es with
  | [] => true
  | e :: es => negb (bool_decide (e_local_id e <= prior)) && ascending (e_local_id e) es
  end.

(** [reason] is what the structural validator answers for the inventory. *)
Definition ValidateNative (p : NativeTransactionInventoryPage) (reason : string) : NativeInventoryError :=
  if decide (ValidateFrame p <> nie_none) then ValidateFrame p
  else if decide (reason <> ""%string) then nie_invalid_inventory
  else if negb (ascending 0 (inv_entries (np_inventory p))) then nie_invalid_inventory
  else nie_none.

(** ** The validator that sorts indices in its caller's memory *)

(** Lexicographic order of byte arrays. *)
Fixpoint bytes_leb (a b : list N) : bool :=
  match a, b with
  | [], _ => true
  | _ :: _, [] => false
  | x :: a, y :: b => (x <? y) || ((x =? y) && bytes_leb a b)
  end.

Section mark.
Context {K : Type} `{!EqDecision K} (leb : K -> K -> bool) (key : TransactionInventoryEntry -> K).
Context (rows : list TransactionInventoryEntry).

(** The comparison of two indices by key, then by index. *)
Definition index_le (a b : nat) : Prop :=
  match rows !! a, rows !! b with
  | Some x, Some y => leb (key x) (key y) = true /\ (key x = key y -> (a <= b)%nat)
  | _, _ => (a <= b)%nat
  end.
#[export] Instance index_le_dec : RelDecision index_le.
Proof. intros a b. unfold index_le. repeat case_match; apply _. Defined.

Definition same_key (a b : nat) : bool := bool_decide (key <$> rows !! a = key <$> rows !! b).

Definition mark_duplicates (bit : N) (indices : list nat) (markers : list N) : list nat * list N :=
  if decide (length rows < 2)%nat then (indices, markers)
  else
    let sorted := merge_sort index_le indices in
    (sorted, foldl (fun ms (p : nat * nat) => if same_key p.2 p.1 then alter (N.lor bit) p.2 ms else ms)
               markers (zip sorted (tail sorted))).
End mark.

(** The three passes over the caller's indices and markers. *)
Definition duplicate_markers (rows : list TransactionInventoryEntry) : list N :=
  let count := length rows in
  let '(indices, markers) := mark_duplicates N.leb e_commit_sequence rows 1 (seq 0 count) (replicate count 0) in
  let '(indices, markers) := mark_duplicates N.leb e_local_id rows 2 indices markers in
  (mark_duplicates bytes_leb (fun e => uuid_bytes (e_uuid e)) rows 4 indices markers).2.

(** [ValidateInventoryStructure] with the uniqueness tests given by one marker. *)
Definition marked_entry_reason (inv : LocalTransactionInventory) (marker : N) (e : TransactionInventoryEntry) : string :=
  let committed := HasCommittedInventoryOutcome e in
  if decide (inv_next_commit_sequence inv <= e_begin_visible_through_commit_sequence e)
  then "begin_commit_sequence_invalid"
  else if decide (e_state e = ts_archived /\ e_archived_from_state e <> ts_committed /\
                  e_archived_from_state e <> ts_rolled_back /\ e_archived_from_state e <> ts_failed_terminal)
  then "archive_origin_invalid"
  else if decide (e_state e <> ts_archived /\ e_archived_from_state e <> ts_none) then "nonarchived_origin"
  else if decide (committed = true /\ (e_commit_sequence e = 0 \/ inv_next_commit_sequence inv <= e_commit_sequence e \/
                  e_commit_sequence e <= e_begin_visible_through_commit_sequence e))
  then "commit_sequence_invalid"
  else if decide (committed = true /\ N.testbit marker 0 = true) then "duplicate_commit_sequence"
  else if decide (committed = false /\ e_commit_sequence e <> 0) then "noncommitted_commit_sequence"
  else if negb (transaction_identity_valid (e_identity e)) || negb (IsEngineIdentityUuid (e_uuid e))
  then "invalid_transaction_identity"
  else if decide (ti_scope (e_identity e) = scope_unknown) then "invalid_transaction_scope"
  else if decide (inv_next_local_transaction_id inv <= e_local_id e) then "future_transaction_in_inventory"
  else if N.testbit marker 1 then "duplicate_local_transaction_id"
  else if N.testbit marker 2 then "duplicate_transaction_uuid"
  else if decide (e_state e = ts_none) then "invalid_transaction_state"
  else "".

Fixpoint marked_entries_reason (inv : LocalTransactionInventory) (es : list (N * TransactionInventoryEntry)) : string :=
  match es with
  | [] => ""
  | (marker, e) :: es =>
    let reason := marked_entry_reason inv marker e in
    if decide (reason = ""%string) then marked_entries_reason inv es else reason
  end.

Definition ValidateBorrowed (inv : LocalTransactionInventory) : string :=
  if decide (inv_next_local_transaction_id inv = kInvalidLocalTransactionId) then "next_transaction_invalid"
  else if decide (inv_next_commit_sequence inv = 0) then "next_commit_sequence_invalid"
  else marked_entries_reason inv (zip (duplicate_markers (inv_entries inv)) (inv_entries inv)).

(** ** The codec *)

(** [count] entries from [offset] on; an inner [None] is an entry with unknown flags. *)
Fixpoint decode_entries (offset : nat) (count : nat) (l : list N)
    : option (option (list (option TransactionScope * TransactionInventoryEntry))) :=
  match count with
  | O => Some (Some [])
  | S count =>
    r ← parse_entry offset l;
    match r with
    | inl _ => Some None
    | inr p =>
      rest ← decode_entries (offset + 72) count l;
      Some (match rest with Some es => Some (p :: es) | None => None end)
    end
  end.

Fixpoint encode_entries (offset : nat) (es : list TransactionInventoryEntry) (l : list N) : option (list N) :=
  match es with
  | [] => Some l
  | e :: es => l ← store_entry offset e l; encode_entries (offset + 72) es l
  end.

Definition put_optional_ref (off : nat) (r : option NativePageReference) (l : list N) : option (list N) :=
  match r with Some r => PutRef off r l | None => Some l end.

(** The stores of the family header, from offset 128. *)
Definition store_family (p : NativeTransactionInventoryPage) (h : LocalTransactionHorizons) (l : list N) : option (list N) :=
  let count := N.of_nat (length (inv_entries (np_inventory p))) in
  l ← store_bytes 128 kNativeMagic l;
  l ← StoreLittle16 136 1 l;
  l ← StoreLittle16 138 256 l;
  l ← StoreLittle32 140 (u32_cast (384 + kEntryBytes * count)) l;
  l ← store_bytes 144 (uuid_bytes (np_object_uuid p)) l;
  l ← StoreLittle64 160 (np_inventory_generation p) l;
  l ← StoreLittle64 168 (inv_next_local_transaction_id (np_inventory p)) l;
  l ← StoreLittle64 176 (inv_next_commit_sequence (np_inventory p)) l;
  l ← StoreLittle32 184 (u32_cast count) l;
  l ← put_optional_ref 192 (np_previous p) l;
  l ← put_optional_ref 240 (np_next p) l;
  l ← StoreLittle64 288 (h_oldest_interesting_transaction h) l;
  l ← StoreLittle64 296 (h_oldest_active_transaction h) l;
  StoreLittle64 304 (h_oldest_snapshot_transaction h) l.

Section native_codec.
Context (sha256 : hash_provider).

(** [ComputeSha256DigestPartsNative] of [core/hash/hash_digest.cpp]: the digest of
    the parts in order, refused above the extent SHA-256 can count. *)
Definition ComputeSha256DigestPartsNative (parts : list (list N)) : option (list N) :=
  if decide (u64_max / 8 < N.of_nat (length (mjoin parts))) then None else sha256 (mjoin parts).

(** The digest of a page, its own field taken as zero. *)
Definition NativeDigest (l : list N) : option (option (list N)) :=
  front ← load_bytes 0 320 l;
  back ← load_bytes 352 (length l - 352) l;
  Some (ComputeSha256DigestPartsNative [front; replicate 32 0; back]).

(** The region is cleared before the stores, so its old content does not matter. *)
Definition EncodeValues (p : NativeTransactionInventoryPage) (h : LocalTransactionHorizons) (size : nat)
    : option (NativeInventoryError + list N) :=
  header ← EncodeNativeCommonPageHeader (np_header p);
  match header with
  | inl _ => Some (inl nie_invalid_header)
  | inr header =>
    l ← store_bytes 0 header (replicate size 0);
    l ← store_family p h l;
    l ← encode_entries 384 (inv_entries (np_inventory p)) l;
    digest ← NativeDigest l;
    match digest with
    | None => Some (inl nie_hash_failure)
    | Some digest => l ← store_bytes 320 digest l; Some (inr l)
    end
  end.

(** The page given back has no publication base. *)
Definition without_base (p : NativeTransactionInventoryPage) : NativeTransactionInventoryPage :=
  mkNativePage (np_header p) (np_object_uuid p) (np_inventory_generation p) (np_previous p) (np_next p)
    (mkInventory (inv_next_local_transaction_id (np_inventory p)) (inv_next_commit_sequence (np_inventory p))
       (inv_entries (np_inventory p)) None).

Definition EncodeNativeTransactionInventoryPage (p : NativeTransactionInventoryPage)
    : option (NativeInventoryError + NativeTransactionInventoryPage * list N) :=
  let valid := ValidateNative p (ValidateLocalTransactionInventoryStructure (np_inventory p)) in
  let horizons := ComputeLocalTransactionHorizons (np_inventory p) in
  if decide (valid <> nie_none) then Some (inl valid)
  else if negb (hres_ok horizons) then Some (inl nie_invalid_inventory)
  else
    encoded ← EncodeValues p (hres_horizons horizons) (N.to_nat (ph_page_size_bytes (np_header p)));
    match encoded with
    | inl e => Some (inl e)
    | inr l => Some (inr (without_base p, l))
    end.

(** The regions the caller supplies: whether they are aligned and disjoint, and their
    sizes. *)
Record backing := mkBacking { bk_sound : bool; bk_entries : N; bk_indices : N; bk_markers : N; bk_output : N }.

Definition EncodeNativeTransactionInventoryPageInto (p : NativeTransactionInventoryPage) (b : backing)
    : option (NativeInventoryError + list N) :=
  let count := N.of_nat (length (inv_entries (np_inventory p))) in
  let valid := ValidateNative p (ValidateBorrowed (np_inventory p)) in
  if negb (bk_sound b) then Some (inl nie_invalid_backing)
  else if decide (ValidateFrame p = nie_none /\ (bk_indices b < count \/ bk_markers b < count)) then
    Some (inl nie_resource_exhausted)
  else if decide (valid <> nie_none) then Some (inl valid)
  else if decide (bk_output b < ph_page_size_bytes (np_header p)) then Some (inl nie_resource_exhausted)
  else match ProjectValidatedLocalHorizons (np_inventory p) [] with
  | inl _ => Some (inl nie_invalid_inventory)
  | inr h => EncodeValues p h (N.to_nat (ph_page_size_bytes (np_header p)))
  end.

Definition get_optional_ref (off : nat) (l : list N) : option (option NativePageReference) :=
  raw ← load_bytes off 48 l;
  if all_zero raw then Some None else r ← GetRef off l; Some (Some r).

(** The entries and what follows, once the frame of the family is accepted. *)
Definition decode_inventory (l : list N) (header : NativeCommonPageHeader) (count : N)
    (capacity : option N) (validator : LocalTransactionInventory -> string)
    : option (NativeInventoryError + NativeTransactionInventoryPage) :=
  object ← load_bytes 144 16 l;
  generation ← LoadLittle64 160 l;
  next_local ← LoadLittle64 168 l;
  next_commit ← LoadLittle64 176 l;
  previous ← get_optional_ref 192 l;
  next ← get_optional_ref 240 l;
  if match capacity with Some c => bool_decide (c < count) | None => false end then Some (inl nie_resource_exhausted)
  else
  decoded ← decode_entries 384 (N.to_nat count) l;
  match decoded with
  | None => Some (inl nie_invalid_inventory)
  | Some es =>
    let p := mkNativePage header (mkUuid object) generation previous next (mkInventory next_local next_commit es.*2 None) in
    let valid := ValidateNative p (parsed_reason validator next_local next_commit es) in
    if decide (valid <> nie_none) then Some (inl valid)
    else
    oit ← LoadLittle64 288 l;
    oat ← LoadLittle64 296 l;
    ost ← LoadLittle64 304 l;
    match ProjectValidatedLocalHorizons (np_inventory p) [] with
    | inl _ => Some (inl nie_invalid_inventory)
    | inr h =>
      if decide (oit <> h_oldest_interesting_transaction h \/ oat <> h_oldest_active_transaction h \/
                 ost <> h_oldest_snapshot_transaction h) then Some (inl nie_invalid_inventory)
      else Some (inr p)
    end
  end.

(** [capacity] is the number of entries a borrowed page can hold. *)
Definition DecodeInventoryValues (l : list N) (capacity : option N) (validator : LocalTransactionInventory -> string)
    : option (NativeInventoryError + NativeTransactionInventoryPage) :=
  decoded ← DecodeNativeCommonPageHeader (take 128 l) None;
  match decoded with
  | inl _ => Some (inl nie_invalid_header)
  | inr header =>
    if decide (ph_page_type header <> 769 \/ N.of_nat (length l) <> ph_page_size_bytes header) then
      Some (inl nie_invalid_header)
    else
    digest ← NativeDigest l;
    match digest with
    | None => Some (inl nie_hash_failure)
    | Some digest =>
      stored_digest ← load_bytes 320 32 l;
      if decide (digest <> stored_digest) then Some (inl nie_invalid_integrity)
      else
      count ← LoadLittle32 184 l;
      magic ← load_bytes 128 8 l;
      v136 ← LoadLittle16 136 l;
      v138 ← LoadLittle16 138 l;
      if decide (magic <> kNativeMagic \/ v136 <> 1 \/ v138 <> 256 \/ (N.of_nat (length l) - 384) / kEntryBytes < count) then
        Some (inl nie_invalid_family)
      else
      total ← LoadLittle32 140 l;
      z188 ← load_bytes 188 4 l;
      z312 ← load_bytes 312 8 l;
      z352 ← load_bytes 352 32 l;
      rest ← load_bytes (384 + 72 * N.to_nat count) (length l - (384 + 72 * N.to_nat count)) l;
      if bool_decide (total <> 384 + kEntryBytes * count) || negb (all_zero z188) || negb (all_zero z312) ||
         negb (all_zero z352) || negb (all_zero rest) then Some (inl nie_invalid_family)
      else decode_inventory l header count capacity validator
    end
  end.

Definition DecodeNativeTransactionInventoryPage (l : list N) : option (NativeInventoryError + NativeTransactionInventoryPage) :=
  DecodeInventoryValues l None ValidateLocalTransactionInventoryStructure.

Definition DecodeNativeTransactionInventoryPageInto (l : list N) (b : backing)
    : option (NativeInventoryError + NativeTransactionInventoryPage) :=
  if negb (bk_sound b) then Some (inl nie_invalid_backing)
  else DecodeInventoryValues l (Some (N.min (bk_entries b) (N.min (bk_indices b) (bk_markers b)))) ValidateBorrowed.
End native_codec.

(** ** Validation of views *)

Definition ValidateInventoryView (inv : LocalTransactionInventory) (b : backing) : NativeInventoryError * string :=
  let count := N.of_nat (length (inv_entries inv)) in
  if negb (bk_sound b) then (nie_invalid_backing, "invalid_backing"%string)
  else if decide (bk_indices b < count \/ bk_markers b < count) then
    (nie_resource_exhausted, "insufficient_backing"%string)
  else
    let why := ValidateBorrowed inv in
    (if decide (why <> ""%string) then nie_invalid_inventory else nie_none, why).

Definition ValidateNativeTransactionInventoryView : LocalTransactionInventory -> backing -> NativeInventoryError * string :=
  ValidateInventoryView.
Definition ValidateNativeTransactionInventoryConstView : LocalTransactionInventory -> backing -> NativeInventoryError * string :=
  ValidateInventoryView.

(** [std::lower_bound] on a range partitioned by the comparison: the first element
    that is not before the value. *)
Definition index_lower_bound (before : nat -> bool) (indices : list nat) : option nat :=
  snd <$> list_find (fun i => before i = false) indices.

Section evolution_view.
Context (before after : LocalTransactionInventory).
Let old : list TransactionInventoryEntry := inv_entries before.

(** The indices of the old entries by local number and by identifier. *)
Definition local_indices : list nat := merge_sort (index_le N.leb e_local_id old) (seq 0 (length old)).
Definition uuid_indices : list nat :=
  merge_sort (index_le bytes_leb (fun e => uuid_bytes (e_uuid e)) old) (seq 0 (length old)).

Definition find_local (id : N) : option (nat * TransactionInventoryEntry) :=
  at_ ← index_lower_bound (fun i => match old !! i with Some e => e_local_id e <? id | None => false end) local_indices;
  e ← old !! at_;
  if decide (e_local_id e <> id) then None else Some (at_, e).

Definition contains_uuid (u : Uuid) : bool :=
  match index_lower_bound (fun i => match old !! i with
                              | Some e => bytes_leb (uuid_bytes (e_uuid e)) (uuid_bytes u) &&
                                          bool_decide (uuid_bytes (e_uuid e) <> uuid_bytes u)
                              | None => false
                              end) uuid_indices with
  | Some i => match old !! i with Some e => bool_decide (e_uuid e = u) | None => false end
  | None => false
  end.

Definition new_entry_refusal (entry : TransactionInventoryEntry) : string :=
  if decide (e_local_id entry < inv_next_local_transaction_id before) then "local_number_reused"
  else if contains_uuid (e_uuid entry) then "transaction_uuid_reused"
  else if decide (HasCommittedInventoryOutcome entry = true /\ e_commit_sequence entry < inv_next_commit_sequence before)
  then "commit_sequence_reused"
  else "".

(** [markers] has one cell per old entry. *)
Fixpoint evolution_view_loop (markers : list bool) (es : list TransactionInventoryEntry) : string :=
  match es with
  | [] =>
    if forallb (fun p : bool * TransactionInventoryEntry => p.1 || bool_decide (resolved_outcome p.2)) (zip markers old)
    then "" else "unresolved_transaction_removed"
  | entry :: es =>
    match find_local (e_local_id entry) with
    | None =>
      let reason := new_entry_refusal entry in
      if decide (reason = ""%string) then evolution_view_loop markers es else reason
    | Some (i, found) =>
      let reason := retained_entry_error before found entry in
      if decide (reason = ""%string) then evolution_view_loop (<[i := true]> markers) es else reason
    end
  end.

(** The uuid indices' region has room for [bk_entries] indices. *)
Definition ValidateNativeTransactionInventoryEvolutionView (b : backing) : NativeInventoryError * string :=
  let count := N.of_nat (length old) in
  let maximum := N.max count (N.of_nat (length (inv_entries after))) in
  if negb (bk_sound b) then (nie_invalid_backing, "invalid_backing"%string)
  else if decide (bk_indices b < maximum \/ bk_markers b < maximum \/ bk_entries b < count) then
    (nie_resource_exhausted, "insufficient_backing"%string)
  else if decide (ValidateBorrowed before <> ""%string) then (nie_invalid_inventory, ValidateBorrowed before)
  else if decide (ValidateBorrowed after <> ""%string) then (nie_invalid_inventory, ValidateBorrowed after)
  else
    let why :=
      if decide (inv_next_local_transaction_id after < inv_next_local_transaction_id before \/
                 inv_next_commit_sequence after < inv_next_commit_sequence before) then "counter_regression"%string
      else evolution_view_loop (replicate (length old) false) (inv_entries after) in
    (if decide (why <> ""%string) then nie_invalid_inventory else nie_none, why).
End evolution_view.
