(* ===== verification/BorrowedFacts.v ===== *)
(** * The validators that work in their caller's memory

    Sorting indices and marking the later of equal keys finds exactly the entries
    whose key an earlier entry has, so the borrowed validator gives the reason of the
    owning one, the first error included; and binary search over sorted indices finds
    what the maps of the owning successor validator find. *)

From stdpp Require Import sorting.
From S2P Require Import Prelude Platform TransactionState Inventory InventoryEvolution Bytes.
From S2P Require Import NativeInventoryPage.

(** ** Predecessors in a sorted list *)

Lemma sorted_predecessor {A} (R : A -> A -> Prop) (l : list A) (i j : A) :
  (forall a b, R a b -> R b a -> a = b) -> (forall a b c, R a b -> R b c -> R a c) ->
  StronglySorted R l -> NoDup l -> i ∈ l -> j ∈ l -> R j i -> j <> i ->
  exists p, (p, i) ∈ zip l (tail l) /\ (p = j \/ R j p).
Proof.
  intros Hanti Htrans Hs. revert j. induction Hs as [|a l Hs IH Ha]; intros j; [intros _ H; by apply not_elem_of_nil in H|].
  rewrite Forall_forall in Ha. intros [Hna Hnd]%NoDup_cons Hi Hj Hji Hne. cbn [tail].
  apply elem_of_cons in Hi as [->|Hi].
  { apply elem_of_cons in Hj as [->|Hj]; [done|]. exfalso. apply Hne, Hanti; [done|by apply Ha]. }
  destruct l as [|b l]; [by apply not_elem_of_nil in Hi|]. cbn [zip zip_with].
  apply elem_of_cons in Hj as [->|Hj].
  2: { destruct (IH j Hnd Hi Hj Hji Hne) as (p & Hp & Hjp). exists p. split; [by apply list_elem_of_further|done]. }
  apply elem_of_cons in Hi as [->|Hi]; [exists a; split; [apply list_elem_of_here|by left]|].
  inversion Hs as [|? ? _ Hb]; subst. rewrite Forall_forall in Hb.
  assert (b <> i) by (intros ->; by apply NoDup_cons in Hnd as [? _]).
  destruct (IH b Hnd) as (p & Hp & Hbp); [by apply list_elem_of_further|apply list_elem_of_here|by apply Hb|done|].
  exists p. split; [by apply list_elem_of_further|]. right.
  destruct Hbp as [->|Hbp]; [|apply (Htrans _ b); [|done]]; apply Ha, list_elem_of_here.
Qed.

Lemma zip_tail_sorted {A} (R : A -> A -> Prop) (l : list A) p i :
  StronglySorted R l -> (p, i) ∈ zip l (tail l) -> R p i /\ p ∈ l /\ i ∈ l.
Proof.
  induction 1 as [|a l Hs IH Ha]; [intros H; by apply not_elem_of_nil in H|]. cbn [tail].
  rewrite Forall_forall in Ha. destruct l as [|b l]; [intros H; by apply not_elem_of_nil in H|]. cbn [zip zip_with].
  intros [[= -> ->]|H]%elem_of_cons.
  - split_and!; [apply Ha| |apply list_elem_of_further]; apply list_elem_of_here.
  - destruct (IH H) as (Hr & Hp & Hi). split_and!; [done|by apply list_elem_of_further..].
Qed.

Lemma zip_tail_targets {A} (l : list A) : (zip l (tail l)).*2 = tail l.
Proof. apply snd_zip. destruct l; cbn; lia. Qed.

(** ** Marking *)

(** An earlier row has the key of row [i]. *)
Definition repeats {K} `{!EqDecision K} (key : TransactionInventoryEntry -> K) (rows : list TransactionInventoryEntry) (i : nat) : bool :=
  bool_decide (key <$> rows !! i ∈ (Some ∘ key) <$> take i rows).

Lemma repeats_iff {K} `{!EqDecision K} (key : TransactionInventoryEntry -> K) rows i x :
  rows !! i = Some x -> repeats key rows i = true <-> exists j y, (j < i)%nat /\ rows !! j = Some y /\ key y = key x.
Proof.
  intros Hx. unfold repeats. rewrite Hx, bool_decide_eq_true, list_elem_of_fmap. cbn [fmap option_fmap option_map]. split.
  - intros (y & Hk & Hy). apply list_elem_of_lookup in Hy as [j Hj]. apply lookup_take_Some in Hj as [Hj Hlt].
    exists j, y. unfold compose in Hk. split_and!; [done|done|congruence].
  - intros (j & y & Hlt & Hy & Hk). exists y. split; [unfold compose; congruence|]. apply list_elem_of_lookup. exists j.
    by rewrite lookup_take_lt.
Qed.

(** Some pair marks [i]. *)
Definition marked (same : nat -> nat -> bool) (ps : list (nat * nat)) (i : nat) : bool :=
  existsb (fun p => Nat.eqb p.2 i && same p.2 p.1) ps.

Lemma marked_iff same ps i : marked same ps i = true <-> exists p, (p, i) ∈ ps /\ same i p = true.
Proof.
  unfold marked. rewrite existsb_exists. setoid_rewrite <- list_elem_of_In. split.
  - intros ([p j] & Hp & [Hj Hs]%andb_true_iff). apply Nat.eqb_eq in Hj as Hj. cbn in *. subst j. by exists p.
  - intros (p & Hp & Hs). exists (p, i). split; [done|]. cbn. by rewrite Nat.eqb_refl.
Qed.

Lemma mark_fold (same : nat -> nat -> bool) bit ps (ms : list N) i :
  NoDup (ps.*2) ->
  foldl (fun ms (p : nat * nat) => if same p.2 p.1 then alter (N.lor bit) p.2 ms else ms) ms ps !! i =
  (fun m => if marked same ps i then N.lor bit m else m) <$> ms !! i.
Proof.
  revert ms. induction ps as [|[p j] ps IH]; intros ms; cbn [foldl fst snd fmap list_fmap].
  { intros _. cbn [marked existsb]. symmetry. apply option_fmap_id. }
  intros [Hj Hnd]%NoDup_cons. rewrite IH by done. unfold marked. cbn [existsb fst snd].
  destruct (Nat.eqb_spec j i) as [->|Hne]; cbn [andb orb].
  2: { destruct (same j p); [|done]. by rewrite list_lookup_alter_ne. }
  assert (Hn : existsb (fun p0 : nat * nat => Nat.eqb p0.2 i && same p0.2 p0.1) ps = false).
  { apply not_true_is_false. intros H. apply (marked_iff same ps i) in H as (q & Hq & _). apply Hj.
    apply list_elem_of_fmap. by exists (q, i). }
  rewrite Hn, orb_false_r. destruct (same i p).
  - rewrite list_lookup_alter_eq. by destruct (ms !! i).
  - done.
Qed.

(** A total order of keys. *)
Record key_order {K} (leb : K -> K -> bool) : Prop := {
  ko_total : forall a b, leb a b = true \/ leb b a = true;
  ko_trans : forall a b c, leb a b = true -> leb b c = true -> leb a c = true;
  ko_anti : forall a b, leb a b = true -> leb b a = true -> a = b }.

Lemma N_order : key_order N.leb.
Proof. split; intros; rewrite ?N.leb_le in *; lia. Qed.

Lemma bytes_order : key_order bytes_leb.
Proof.
  split.
  - induction a as [|x a IH]; intros [|y b]; cbn [bytes_leb]; auto. destruct (N.compare_spec x y) as [->|H|H].
    + rewrite N.eqb_refl, N.ltb_irrefl. apply IH.
    + left. by apply N.ltb_lt in H as ->.
    + right. by apply N.ltb_lt in H as ->.
  - induction a as [|x a IH]; intros [|y b] [|z c]; cbn [bytes_leb]; auto; try done.
    rewrite !orb_true_iff, !andb_true_iff, !N.ltb_lt, !N.eqb_eq.
    intros [H1|[-> H1]] [H2|[-> H2]]; [left; lia|by left|by left|]. right. split; [done|]. by apply (IH b).
  - induction a as [|x a IH]; intros [|y b]; cbn [bytes_leb]; auto; try done.
    rewrite !orb_true_iff, !andb_true_iff, !N.ltb_lt, !N.eqb_eq.
    intros [H1|[-> H1]] [H2|[? H2]]; [lia|lia|lia|]. f_equal. by apply IH.
Qed.

Section index_order.
Context {K : Type} `{!EqDecision K} (leb : K -> K -> bool) (Ho : key_order leb) (key : TransactionInventoryEntry -> K).
Context (rows : list TransactionInventoryEntry).
Abbreviation le := (index_le leb key rows).

Lemma index_lookup a : {x | rows !! a = Some x /\ (a < length rows)%nat} + {rows !! a = None /\ (length rows <= a)%nat}.
Proof.
  destruct (rows !! a) as [x|] eqn:H; [left; exists x|right]; split; try done.
  - by eapply lookup_lt_Some.
  - by apply lookup_ge_None.
Qed.

Lemma index_le_anti a b : le a b -> le b a -> a = b.
Proof.
  unfold index_le. destruct (index_lookup a) as [(x & Ha & ?)|[Ha ?]], (index_lookup b) as [(y & Hb & ?)|[Hb ?]];
    rewrite ?Ha, ?Hb; try lia.
  intros [L1 L2] [L3 L4]. pose proof (ko_anti _ Ho _ _ L1 L3) as E. specialize (L2 E). symmetry in E. specialize (L4 E). lia.
Qed.

#[local] Instance index_le_trans : Transitive le.
Proof.
  intros a b c. unfold index_le. destruct (index_lookup a) as [(x & Ha & ?)|[Ha ?]], (index_lookup b) as [(y & Hb & ?)|[Hb ?]],
    (index_lookup c) as [(z & Hc & ?)|[Hc ?]]; rewrite ?Ha, ?Hb, ?Hc; try lia.
  intros [L1 L2] [L3 L4]. split; [by eapply (ko_trans _ Ho)|]. intros E. rewrite <- E in L3.
  pose proof (ko_anti _ Ho _ _ L1 L3) as E2. specialize (L2 E2). rewrite <- E2 in L4. specialize (L4 E). lia.
Qed.

#[local] Instance index_le_total : Total le.
Proof.
  intros a b. unfold index_le. destruct (index_lookup a) as [(x & Ha & ?)|[Ha ?]], (index_lookup b) as [(y & Hb & ?)|[Hb ?]];
    rewrite ?Ha, ?Hb; try lia.
  destruct (decide (key x = key y)) as [E|E].
  - rewrite E. assert (leb (key y) (key y) = true) by (by destruct (ko_total _ Ho (key y) (key y))).
    destruct (Nat.le_ge_cases a b); [left|right]; auto.
  - destruct (ko_total _ Ho (key x) (key y)); [left|right]; split; congruence.
Qed.

Lemma sorted_indices l : StronglySorted le (merge_sort le l).
Proof. by apply StronglySorted_merge_sort; apply _. Qed.

(** The predecessor of a row in the sorted indices has its key exactly when some
    earlier row has. *)
Lemma marked_repeats l i :
  l ≡ₚ seq 0 (length rows) -> (i < length rows)%nat ->
  marked (same_key key rows) (zip (merge_sort le l) (tail (merge_sort le l))) i = repeats key rows i.
Proof.
  intros Hl Hi. pose proof (sorted_indices l) as Hs. assert (Hp : merge_sort le l ≡ₚ seq 0 (length rows)) by (etrans; [apply merge_sort_Permutation|exact Hl]).
  assert (Hin : forall j, j ∈ merge_sort le l <-> (j < length rows)%nat) by (intros j; rewrite Hp, elem_of_seq; lia).
  assert (Hnd : NoDup (merge_sort le l)) by (rewrite Hp; apply NoDup_seq).
  apply eq_true_iff_eq. rewrite marked_iff. destruct (lookup_lt_is_Some_2 rows i Hi) as [x Hx].
  rewrite (repeats_iff key rows i x Hx). split.
  - intros (p & Hpi & Hk). destruct (zip_tail_sorted le _ p i Hs Hpi) as (Hle & Hp1 & _). apply Hin in Hp1.
    destruct (lookup_lt_is_Some_2 rows p Hp1) as [y Hy]. unfold same_key in Hk. rewrite Hx, Hy in Hk.
    apply bool_decide_eq_true in Hk. injection Hk as Hk. exists p, y. split_and!; [|done|done].
    unfold index_le in Hle. rewrite Hx, Hy in Hle. destruct Hle as [_ Hle]. specialize (Hle (eq_sym Hk)).
    assert (p <> i); [|lia]. intros ->. clear -Hpi Hnd. revert Hpi. generalize dependent (merge_sort le l).
    intros k Hnd. induction k as [|a k IH]; [intros H; by apply not_elem_of_nil in H|].
    apply NoDup_cons in Hnd as [Ha Hnd]. cbn [tail]. destruct k as [|b k]; [intros H; by apply not_elem_of_nil in H|].
    cbn [zip zip_with]. intros [[= -> ->]|H]%elem_of_cons; [by apply Ha, list_elem_of_here|by apply IH].
  - intros (j & y & Hlt & Hy & Hk).
    assert (Hji : le j i).
    { unfold index_le. rewrite Hx, Hy, Hk. split; [by destruct (ko_total _ Ho (key x) (key x))|lia]. }
    destruct (sorted_predecessor le (merge_sort le l) i j index_le_anti index_le_trans Hs Hnd) as (p & Hpi & Hjp);
      [apply Hin; lia|apply Hin; lia|done|lia|].
    exists p. split; [done|]. destruct (zip_tail_sorted le _ p i Hs Hpi) as (Hle & Hp1 & _). apply Hin in Hp1.
    destruct (lookup_lt_is_Some_2 rows p Hp1) as [z Hz]. unfold same_key. rewrite Hx, Hz. apply bool_decide_eq_true. cbn. f_equal.
    destruct Hjp as [->|Hjp]; [congruence|]. unfold index_le in Hle, Hjp. rewrite Hz in *. rewrite Hx in Hle. rewrite Hy in Hjp.
    destruct Hle as [Hle _], Hjp as [Hjp _]. rewrite Hk in Hjp. by apply (ko_anti _ Ho).
Qed.

Lemma mark_duplicates_spec bit l ms i :
  l ≡ₚ seq 0 (length rows) -> (i < length rows)%nat ->
  (mark_duplicates leb key rows bit l ms).1 ≡ₚ seq 0 (length rows) /\
  (mark_duplicates leb key rows bit l ms).2 !! i = (fun m => if repeats key rows i then N.lor bit m else m) <$> ms !! i.
Proof.
  intros Hl Hi. unfold mark_duplicates. case_decide as Hc; cbn [fst snd].
  - split; [done|]. destruct (repeats key rows i) eqn:Hr; [|by destruct (ms !! i)].
    destruct (lookup_lt_is_Some_2 rows i Hi) as [x Hx]. destruct (proj1 (repeats_iff key rows i x Hx) Hr) as (j & y & Hj & _). lia.
  - split; [by rewrite merge_sort_Permutation|]. rewrite mark_fold.
    + by rewrite marked_repeats.
    + rewrite zip_tail_targets. assert (Hnd : NoDup (merge_sort le l)) by (rewrite merge_sort_Permutation, Hl; apply NoDup_seq).
      destruct (merge_sort le l); [constructor|]. by apply NoDup_cons in Hnd as [_ ?].
Qed.
End index_order.

(** ** The structural validator *)

Lemma lookup_markers rows i :
  (i < length rows)%nat ->
  exists m, duplicate_markers rows !! i = Some m /\
    N.testbit m 0 = repeats e_commit_sequence rows i /\
    N.testbit m 1 = repeats e_local_id rows i /\
    N.testbit m 2 = repeats (fun e => uuid_bytes (e_uuid e)) rows i.
Proof.
  intros Hi. unfold duplicate_markers.
  destruct (mark_duplicates_spec N.leb N_order e_commit_sequence rows 1 (seq 0 (length rows)) (replicate (length rows) 0) i)
    as [P1 M1]; [done|done|].
  destruct (mark_duplicates N.leb e_commit_sequence rows 1 _ _) as [i1 m1]. cbn [fst snd] in *.
  destruct (mark_duplicates_spec N.leb N_order e_local_id rows 2 i1 m1 i) as [P2 M2]; [done|done|].
  destruct (mark_duplicates N.leb e_local_id rows 2 _ _) as [i2 m2]. cbn [fst snd] in *.
  destruct (mark_duplicates_spec bytes_leb bytes_order (fun e => uuid_bytes (e_uuid e)) rows 4 i2 m2 i) as [_ M3]; [done|done|].
  rewrite M3, M2, M1, lookup_replicate_2 by done. cbn [fmap option_fmap option_map].
  eexists. split; [reflexivity|].
  destruct (repeats e_commit_sequence rows i), (repeats e_local_id rows i), (repeats (fun e => uuid_bytes (e_uuid e)) rows i);
    vm_compute; done.
Qed.

(** What the sets of the owning validator hold after the accepted entries [pre]. *)
Record sets_of (pre : list TransactionInventoryEntry) (s : seen_sets) : Prop := {
  st_commits : forall c, c <> 0 -> c ∈ seen_commits s <-> c ∈ e_commit_sequence <$> pre;
  st_locals : forall n, n ∈ seen_locals s <-> n ∈ e_local_id <$> pre;
  st_identities : forall u, u ∈ seen_identities s <-> u ∈ (fun e => uuid_bytes (e_uuid e)) <$> pre }.

Lemma sets_of_snoc inv pre s e :
  sets_of pre s -> validate_entry inv s e = ""%string -> sets_of (pre ++ [e]) (mark_seen s e).
Proof.
  intros [Hc Hl Hu] Hv. split; unfold mark_seen; cbn [seen_commits seen_locals seen_identities].
  - intros c Hne. rewrite fmap_app, elem_of_app. cbn [fmap list_fmap]. rewrite list_elem_of_singleton.
    destruct (HasCommittedInventoryOutcome e) eqn:Hk.
    + rewrite elem_of_union, elem_of_singleton, Hc by done. tauto.
    + rewrite Hc by done. split; [by left|]. intros [?| ->]; [done|]. exfalso.
      apply validate_entry_spec in Hv as (He & _). by apply Hne, (eo_uncommitted _ _ He).
  - intros n. rewrite fmap_app, elem_of_app, elem_of_union, elem_of_singleton, Hl. cbn [fmap list_fmap].
    rewrite list_elem_of_singleton. tauto.
  - intros u. rewrite fmap_app, elem_of_app, elem_of_union, elem_of_singleton, Hu. cbn [fmap list_fmap].
    rewrite list_elem_of_singleton. tauto.
Qed.

Lemma marked_entry_equal inv s pre e post m :
  sets_of pre s ->
  N.testbit m 0 = repeats e_commit_sequence (pre ++ e :: post) (length pre) ->
  N.testbit m 1 = repeats e_local_id (pre ++ e :: post) (length pre) ->
  N.testbit m 2 = repeats (fun e => uuid_bytes (e_uuid e)) (pre ++ e :: post) (length pre) ->
  marked_entry_reason inv m e = validate_entry inv s e.
Proof.
  intros [Hc Hl Hu]. unfold repeats. rewrite list_lookup_middle, take_app_length by done. cbn [fmap option_fmap option_map].
  assert (Hsome : forall K (key : TransactionInventoryEntry -> K), Some (key e) ∈ (Some ∘ key) <$> pre <-> key e ∈ key <$> pre).
  { intros K key. rewrite !list_elem_of_fmap. unfold compose. split; intros (x & Hx & Hin); exists x; split; congruence. }
  intros H0 H1 H2. rewrite (bool_decide_ext _ _ (Hsome _ e_commit_sequence)) in H0.
  rewrite (bool_decide_ext _ _ (Hsome _ e_local_id)) in H1. rewrite (bool_decide_ext _ _ (Hsome _ (fun e => uuid_bytes (e_uuid e)))) in H2.
  unfold marked_entry_reason, validate_entry.
  destruct (decide (inv_next_commit_sequence inv <= _)); [done|]. destruct (decide (e_state e = ts_archived /\ _)); [done|].
  destruct (decide (e_state e <> ts_archived /\ _)); [done|].
  destruct (decide (HasCommittedInventoryOutcome e = true /\ (_ \/ _ \/ _))) as [|Hk]; [done|].
  assert (E0 : HasCommittedInventoryOutcome e = true /\ N.testbit m 0 = true <->
               HasCommittedInventoryOutcome e = true /\ e_commit_sequence e ∈ seen_commits s).
  { rewrite H0, bool_decide_eq_true. split; intros [? ?]; (split; [done|]); apply Hc; try done; intros E; by apply Hk; split; [|left]. }
  destruct (decide (HasCommittedInventoryOutcome e = true /\ N.testbit m 0 = true)) as [D|D];
    [rewrite (decide_True (P := HasCommittedInventoryOutcome e = true /\ e_commit_sequence e ∈ seen_commits s)) by (by apply E0); done|
     rewrite (decide_False (P := HasCommittedInventoryOutcome e = true /\ e_commit_sequence e ∈ seen_commits s)) by (by rewrite <- E0)].
  destruct (decide (HasCommittedInventoryOutcome e = false /\ _)); [done|]. destruct (negb _ || negb _); [done|].
  destruct (decide (ti_scope _ = _)); [done|]. destruct (decide (inv_next_local_transaction_id inv <= _)); [done|].
  rewrite H1, H2. destruct (decide (e_local_id e ∈ seen_locals s)) as [H|H].
  - by rewrite bool_decide_true by (by apply Hl).
  - rewrite bool_decide_false by (by rewrite <- Hl). destruct (decide (uuid_bytes (e_uuid e) ∈ seen_identities s)) as [Hx|Hx].
    + by rewrite bool_decide_true by (by apply Hu).
    + by rewrite bool_decide_false by (by rewrite <- Hu).
Qed.

Lemma marked_entries_equal inv pre es s :
  sets_of pre s ->
  marked_entries_reason inv (drop (length pre) (zip (duplicate_markers (pre ++ es)) (pre ++ es))) = validate_entries inv s es.
Proof.
  revert pre s. induction es as [|e es IH]; intros pre s Hs.
  - rewrite drop_ge; [done|]. rewrite app_nil_r, length_zip_with. lia.
  - destruct (lookup_markers (pre ++ e :: es) (length pre)) as (m & Hm & H0 & H1 & H2); [rewrite length_app; cbn; lia|].
    rewrite (drop_S _ (m, e) (length pre)).
    2: { apply lookup_zip_with_Some. exists m, e. split_and!; [done|done|by apply list_lookup_middle]. }
    cbn [marked_entries_reason validate_entries]. rewrite (marked_entry_equal inv s pre e es m) by done.
    destruct (decide (validate_entry inv s e = ""%string)) as [Hv|Hv]; [|done].
    specialize (IH (pre ++ [e]) (mark_seen s e) (sets_of_snoc inv pre s e Hs Hv)).
    rewrite <- app_assoc, length_app in IH. cbn [app length] in IH. by rewrite Nat.add_1_r in IH.
Qed.

(** The two structural validators give the same reason. *)
Lemma validate_borrowed inv : ValidateBorrowed inv = ValidateLocalTransactionInventoryStructure inv.
Proof.
  unfold ValidateBorrowed, ValidateLocalTransactionInventoryStructure. destruct (decide _); [done|]. destruct (decide _); [done|].
  apply (marked_entries_equal inv [] (inv_entries inv) no_seen). split; cbn; set_solver.
Qed.

(** ** Binary search *)

Section search.
Context {K : Type} `{!EqDecision K} (leb : K -> K -> bool) (Ho : key_order leb) (key : TransactionInventoryEntry -> K).
Context (rows : list TransactionInventoryEntry) (less : K -> K -> bool).
Context (Hless : forall a b, less a b = true <-> leb a b = true /\ a <> b).

Definition below (v : K) (i : nat) : bool := match rows !! i with Some e => less (key e) v | None => false end.

(** A value some row has is found at a row that has it. *)
Lemma lower_bound_finds v i e :
  rows !! i = Some e -> key e = v ->
  exists i' e', index_lower_bound (below v) (merge_sort (index_le leb key rows) (seq 0 (length rows))) = Some i' /\
    rows !! i' = Some e' /\ key e' = v.
Proof.
  intros Hi Hk. set (l := merge_sort _ _). pose proof (sorted_indices leb Ho key rows (seq 0 (length rows))) as Hs.
  assert (Hin : forall j, j ∈ l <-> (j < length rows)%nat).
  { intros j. unfold l. rewrite merge_sort_Permutation, elem_of_seq. lia. }
  assert (Hb : below v i = false).
  { unfold below. rewrite Hi. apply not_true_is_false. rewrite Hless. by intros [_ ?]. }
  assert (Hil : i ∈ l) by (apply Hin; by eapply lookup_lt_Some).
  fold l in Hs. clearbody l. unfold index_lower_bound. destruct (list_find (fun j => below v j = false) l) as [[k i']|] eqn:Hf.
  2: { exfalso. apply list_find_None in Hf. rewrite Forall_forall in Hf. by apply (Hf i Hil). }
  apply list_find_Some in Hf as (Hk' & Hn & Hfirst). cbn [fmap option_fmap option_map snd].
  assert (Hi' : (i' < length rows)%nat) by (apply Hin; by eapply list_elem_of_lookup_2).
  destruct (lookup_lt_is_Some_2 rows i' Hi') as [e' He']. exists i', e'. split_and!; [done|done|].
  assert (Hle : i' = i \/ index_le leb key rows i' i).
  { apply list_elem_of_lookup in Hil as [j Hj]. destruct (Nat.lt_trichotomy j k) as [H|[H|H]].
    - exfalso. by apply (Hfirst j i Hj H).
    - subst. left. congruence.
    - right. clear -Hs Hj Hk' H. revert k j H Hk' Hj. induction Hs as [|a l _ IH Ha]; intros [|k] [|j] H Hk Hj; try done; try lia.
      + cbn in Hk, Hj. injection Hk as ->. rewrite Forall_forall in Ha. by eapply Ha, list_elem_of_lookup_2.
      + eapply (IH k j); [lia|done|done]. }
  destruct Hle as [->|Hle]; [congruence|]. unfold index_le in Hle. rewrite Hi, He' in Hle. destruct Hle as [Hle _].
  unfold below in Hn. rewrite He' in Hn. rewrite Hk in Hle. destruct (decide (key e' = v)) as [|Hne]; [done|].
  assert (less (key e') v = true) by (by apply Hless). congruence.
Qed.
End search.

Lemma lower_bound_ext f g l : (forall i, f i = g i) -> index_lower_bound f l = index_lower_bound g l.
Proof. intros H. unfold index_lower_bound. rewrite (list_find_ext (fun i => f i = false) (fun i => g i = false)); [done|].
  intros i. by rewrite H.
Qed.

Section evolution.
Context (before after : LocalTransactionInventory) (Hb : structure_ok before).
Let old : list TransactionInventoryEntry := inv_entries before.

Lemma local_unique i j (x y : TransactionInventoryEntry) :
  old !! i = Some x -> old !! j = Some y -> e_local_id x = e_local_id y -> i = j.
Proof.
  intros Hx Hy E. pose proof (so_locals _ Hb) as Hnd. fold old in Hnd. rewrite NoDup_alt in Hnd.
  apply (Hnd i j (e_local_id x)); rewrite list_lookup_fmap; [by rewrite Hx|]. rewrite Hy. cbn. congruence.
Qed.

Lemma find_local_iff id i e : find_local before id = Some (i, e) <-> old !! i = Some e /\ e_local_id e = id.
Proof.
  unfold find_local. fold old. rewrite (lower_bound_ext _ (below e_local_id old N.ltb id)) by done. split.
  - intros H. destruct (index_lower_bound _ _) as [k|]; [|done]. cbn [mbind option_bind] in H.
    destruct (old !! k) as [x|] eqn:Hk; [|done]. cbn [mbind option_bind] in H. case_decide as Hne; [done|].
    injection H as <- <-. by split.
  - intros [Hi Hid].
    destruct (lower_bound_finds N.leb N_order e_local_id old N.ltb) with (v := id) (i := i) (e := e) as (k & x & Hk & Hx & E).
    { intros a b. rewrite N.ltb_lt, N.leb_le. lia. } { done. } { done. }
    unfold local_indices. fold old. rewrite Hk. cbn [mbind option_bind]. rewrite Hx. cbn [mbind option_bind].
    assert (k = i) as -> by (eapply local_unique; [done|done|congruence]). assert (x = e) as -> by congruence.
    by rewrite decide_False by (by intros []).
Qed.

Lemma contains_uuid_iff u : contains_uuid before u = true <-> uuid_bytes u ∈ index_uuids old.
Proof.
  unfold contains_uuid. fold old. set (less := fun a b : list N => bytes_leb a b && bool_decide (a <> b)).
  rewrite (lower_bound_ext _ (below (fun e => uuid_bytes (e_uuid e)) old less (uuid_bytes u))) by done.
  unfold index_uuids. rewrite elem_of_list_to_set, list_elem_of_fmap. split.
  - destruct (index_lower_bound _ _) as [k|]; [|done]. destruct (old !! k) as [x|] eqn:Hk; [|done].
    intros H%bool_decide_eq_true. exists x. unfold compose. rewrite H. split; [done|by eapply list_elem_of_lookup_2].
  - intros (x & Hx & Hin). apply list_elem_of_lookup in Hin as [i Hi].
    destruct (lower_bound_finds bytes_leb bytes_order (fun e => uuid_bytes (e_uuid e)) old less)
      with (v := uuid_bytes u) (i := i) (e := x) as (k & y & Hk & Hy & E).
    { intros a b. unfold less. by rewrite andb_true_iff, bool_decide_eq_true. } { done. } { by rewrite Hx. }
    unfold uuid_indices. fold old. rewrite Hk, Hy. apply bool_decide_eq_true.
    destruct (e_uuid y), u. cbn in E. by subst.
Qed.

Lemma new_refusal_equal entry : new_entry_refusal before entry = new_entry_error before (index_uuids old) entry.
Proof.
  unfold new_entry_refusal, new_entry_error. destruct (decide (_ < _)); [done|].
  destruct (contains_uuid before (e_uuid entry)) eqn:Hc.
  - apply contains_uuid_iff in Hc. by rewrite decide_True.
  - rewrite (decide_False (P := uuid_bytes (e_uuid entry) ∈ index_uuids old)); [done|].
    rewrite <- contains_uuid_iff. congruence.
Qed.

(** The map of the owning loop holds the old entries not yet marked. *)
Definition marks_agree (markers : list bool) (m : gmap N TransactionInventoryEntry) : Prop :=
  length markers = length old /\
  forall n e, m !! n = Some e <-> exists i, old !! i = Some e /\ e_local_id e = n /\ markers !! i = Some false.

Lemma marks_agree_end markers m :
  marks_agree markers m ->
  forallb (fun p : bool * TransactionInventoryEntry => p.1 || bool_decide (resolved_outcome p.2)) (zip markers old) = true <->
  map_Forall (fun _ e => resolved_outcome e) m.
Proof.
  intros [Hl Hm]. rewrite forallb_forall. split.
  - intros H n e He. apply Hm in He as (i & Hi & _ & Hk). specialize (H (false, e)). cbn [fst snd orb] in H.
    eapply bool_decide_eq_true, H, list_elem_of_In, list_elem_of_lookup_2, lookup_zip_with_Some. exists false, e. done.
  - intros H [k e] Hin. apply list_elem_of_In, list_elem_of_lookup in Hin as [i Hi].
    apply lookup_zip_with_Some in Hi as (k' & e' & [= <- <-] & Hk & He). cbn [fst snd]. destruct k; [done|].
    apply bool_decide_eq_true. apply (H (e_local_id e) e), Hm. by exists i.
Qed.

Lemma marks_agree_step markers m i e :
  marks_agree markers m -> old !! i = Some e -> marks_agree (<[i := true]> markers) (delete (e_local_id e) m).
Proof.
  intros [Hl Hm] Hi. split; [by rewrite length_insert|]. intros n x. destruct (decide (e_local_id e = n)) as [<-|Hn].
  - rewrite lookup_delete_eq. split; [done|]. intros (j & Hj & E & Hk). exfalso.
    assert (j = i) as -> by (eapply local_unique; [done|done|congruence]).
    rewrite list_lookup_insert_eq in Hk; [done|]. rewrite Hl. by eapply lookup_lt_Some.
  - rewrite lookup_delete_ne, Hm by done.
    split; intros (j & Hj & E & Hk); exists j; (split_and!; [done|done|]);
      (assert (i <> j) by (intros ->; congruence)); [by rewrite list_lookup_insert_ne|by rewrite list_lookup_insert_ne in Hk].
Qed.

Lemma evolution_loops_equal markers m es :
  marks_agree markers m -> NoDup (e_local_id <$> es) ->
  (forall e i x, e ∈ es -> old !! i = Some x -> e_local_id x = e_local_id e -> markers !! i = Some false) ->
  evolution_view_loop before markers es = evolution_loop before (index_uuids old) m es.
Proof.
  revert markers m. induction es as [|entry es IH]; intros markers m Hm Hnd Hfree; cbn [evolution_view_loop evolution_loop].
  - destruct (forallb _ _) eqn:Hf; fold old in Hf.
    + apply (marks_agree_end _ _ Hm) in Hf. by rewrite decide_True.
    + rewrite decide_False; [done|]. rewrite <- (marks_agree_end _ _ Hm). congruence.
  - cbn [fmap list_fmap] in Hnd. apply NoDup_cons in Hnd as [Hne Hnd].
    destruct (find_local before (e_local_id entry)) as [[i x]|] eqn:Hfind.
    + apply find_local_iff in Hfind as [Hi Hid]. assert (Hx : m !! e_local_id entry = Some x).
      { apply Hm. exists i. split_and!; [done|done|]. by apply (Hfree entry i x); [apply list_elem_of_here| |]. }
      rewrite Hx. destruct (decide (retained_entry_error before x entry = ""%string)) as [_|_]; [|done].
      apply IH; [rewrite <- Hid; by apply marks_agree_step|done|]. intros e j y He Hj Hy.
      rewrite list_lookup_insert_ne; [by apply (Hfree e j y); [apply list_elem_of_further| |]|]. intros <-. apply Hne.
      apply list_elem_of_fmap. exists e. split; [|done]. congruence.
    + assert (Hx : m !! e_local_id entry = None).
      { destruct (m !! e_local_id entry) as [x|] eqn:Hx; [|done]. apply Hm in Hx as (i & Hi & Hid & _).
        assert (Hs : find_local before (e_local_id entry) = Some (i, x)) by (by apply find_local_iff). congruence. }
      rewrite Hx, new_refusal_equal. destruct (decide _); [|done]. apply IH; [done|done|].
      intros e' j y He. apply Hfree. by apply list_elem_of_further.
Qed.
End evolution.

(** An index and a marker for every entry. *)
Definition backed (b : backing) (n : N) : Prop := bk_sound b = true /\ n <= bk_indices b /\ n <= bk_markers b.

Definition view_answer (why : string) : NativeInventoryError * string :=
  (if decide (why <> ""%string) then nie_invalid_inventory else nie_none, why).

Lemma view_answer_reason why : why <> ""%string -> view_answer why = (nie_invalid_inventory, why).
Proof. intros H. unfold view_answer. by rewrite decide_True. Qed.

Lemma view_validation inv b :
  backed b (N.of_nat (length (inv_entries inv))) ->
  ValidateInventoryView inv b = view_answer (ValidateLocalTransactionInventoryStructure inv).
Proof.
  intros (Hs & Hi & Hm). unfold ValidateInventoryView. rewrite Hs. cbn [negb]. rewrite decide_False by lia.
  by rewrite validate_borrowed.
Qed.

Lemma initial_marks before :
  structure_ok before ->
  marks_agree before (replicate (length (inv_entries before)) false) (index_entries (inv_entries before)).
Proof.
  intros Hb. split; [apply length_replicate|]. intros n e. rewrite index_entries_Some by apply (so_locals _ Hb).
  rewrite list_elem_of_lookup. split.
  - intros [[i Hi] Hn]. exists i. split_and!; [done|done|]. apply lookup_replicate_2. by eapply lookup_lt_Some.
  - intros (i & Hi & Hn & _). split; [by exists i|done].
Qed.

Lemma evolution_view before after b :
  backed b (N.max (N.of_nat (length (inv_entries before))) (N.of_nat (length (inv_entries after)))) ->
  N.of_nat (length (inv_entries before)) <= bk_entries b ->
  ValidateNativeTransactionInventoryEvolutionView before after b =
  view_answer (ValidateLocalTransactionInventoryEvolution before after).
Proof.
  intros (Hs & Hi & Hm) Hu. unfold ValidateNativeTransactionInventoryEvolutionView, ValidateLocalTransactionInventoryEvolution.
  rewrite Hs. cbn [negb]. rewrite decide_False by lia. rewrite !validate_borrowed.
  destruct (decide (ValidateLocalTransactionInventoryStructure before <> ""%string)) as [H1|H1]; [by rewrite view_answer_reason|].
  destruct (decide (ValidateLocalTransactionInventoryStructure after <> ""%string)) as [H2|H2]; [by rewrite view_answer_reason|].
  apply dec_stable, validate_structure_iff in H1. apply dec_stable, validate_structure_iff in H2.
  destruct (decide (_ \/ _)); [done|]. unfold view_answer.
  rewrite (evolution_loops_equal before H1 _ _ (inv_entries after) (initial_marks before H1)); [done|apply (so_locals _ H2)|].
  intros e i x _ Hx _. apply lookup_replicate_2. by eapply lookup_lt_Some.
Qed.
