(* ===== verification/PageFrameFacts.v ===== *)
(** * The page frame codecs are canonical

    Page header and filespace preamble: the stores of the encoders make a fixed layout,
    and the decoders' conditions say that their input has that layout. *)

From S2P Require Import Prelude Platform Bytes PageFrame.

(** ** The page header *)

Record header_sized (h : NativeCommonPageHeader) : Prop := {
  hz_size : ph_page_size_bytes h < 2 ^ 32;
  hz_type : ph_page_type h < 2 ^ 32;
  hz_database : sized_uuid (ph_database_uuid h);
  hz_filespace : sized_uuid (ph_filespace_uuid h);
  hz_page : sized_uuid (ph_page_uuid h);
  hz_number : is_u64 (ph_page_number h);
  hz_generation : is_u64 (ph_page_generation h);
  hz_flags : is_u64 (ph_flags h);
  hz_profile : sized_uuid (ph_page_size_profile_uuid h) }.

Definition header_widths : list nat := [8; 4; 4; 4; 2; 2; 16; 16; 16; 8; 8; 8; 8; 16; 2; 6]%nat.

Definition header_layout (h : NativeCommonPageHeader) (checksum : list N) : list (list N) :=
  [kPageHeaderMagic; le_bytes 4 128; le_bytes 4 (ph_page_size_bytes h); le_bytes 4 (ph_page_type h);
   le_bytes 2 1; le_bytes 2 1; uuid_bytes (ph_database_uuid h); uuid_bytes (ph_filespace_uuid h);
   uuid_bytes (ph_page_uuid h); le_bytes 8 (ph_page_number h); le_bytes 8 (ph_page_generation h);
   le_bytes 8 (ph_flags h); checksum; uuid_bytes (ph_page_size_profile_uuid h); le_bytes 2 1; replicate 6 0].

Definition header_image (h : NativeCommonPageHeader) : list N :=
  mjoin (header_layout h (le_bytes 8 (ComputeNativeCommonPageHeaderChecksum (mjoin (header_layout h (replicate 8 0)))))).

Section sized_header.
Context (h : NativeCommonPageHeader) (Hh : header_sized h).
Let Hd : length (uuid_bytes (ph_database_uuid h)) = 16%nat := proj1 (hz_database h Hh).
Let Hf : length (uuid_bytes (ph_filespace_uuid h)) = 16%nat := proj1 (hz_filespace h Hh).
Let Hp : length (uuid_bytes (ph_page_uuid h)) = 16%nat := proj1 (hz_page h Hh).
Let Hr : length (uuid_bytes (ph_page_size_profile_uuid h)) = 16%nat := proj1 (hz_profile h Hh).
Let Hm : length kPageHeaderMagic = 8%nat := eq_refl.

Lemma store_page_header_image :
  store_header_fields h (replicate 128 0) = Some (mjoin (header_layout h (replicate 8 0))).
Proof.
  change (replicate 128 0) with (mjoin (zero_chunks header_widths)).
  unfold store_header_fields, StoreLittle64, StoreLittle32, StoreLittle16, zero_chunks, header_widths.
  cbn [fmap list_fmap].
  store_field 0%nat. store_field 1%nat. store_field 2%nat. store_field 3%nat. store_field 4%nat. store_field 5%nat.
  store_field 6%nat. store_field 7%nat. store_field 8%nat. store_field 9%nat. store_field 10%nat. store_field 11%nat.
  store_field 13%nat. store_field 14%nat. done.
Qed.

Lemma length_header_layout c : length c = 8%nat -> length (mjoin (header_layout h c)) = 128%nat.
Proof.
  intros Hc. unfold header_layout. cbn [mjoin list_join]. rewrite !length_app, !length_le_bytes, length_replicate.
  cbn [length]. lia.
Qed.
End sized_header.

(** The checksum does not read its own field. *)
Lemma checksum_masks a c c' d :
  length a = 96%nat -> length c = 8%nat -> length c' = 8%nat ->
  ComputeNativeCommonPageHeaderChecksum (a ++ c ++ d) = ComputeNativeCommonPageHeaderChecksum (a ++ c' ++ d).
Proof.
  intros Ha Hc Hc'. unfold ComputeNativeCommonPageHeaderChecksum. f_equal. rewrite !imap_app. f_equal.
  assert (Hz : forall x, length x = 8%nat -> imap ((fun i v => if bool_decide (96 <= i)%nat && bool_decide (i < 104)%nat
    then 0 else v) ∘ Nat.add (length a)) x = replicate 8 0).
  { intros x Hx. apply list_eq. intros i. rewrite list_lookup_imap. destruct (decide (i < 8)%nat) as [Hi|Hi].
    - rewrite lookup_replicate_2 by done. destruct (lookup_lt_is_Some_2 x i) as [v ->]; [lia|].
      cbn [fmap option_fmap option_map compose]. unfold compose. by rewrite !bool_decide_true by lia.
    - rewrite (lookup_ge_None_2 x) by lia. symmetry. apply lookup_ge_None_2. cbn. lia. }
  rewrite !Hz by done. f_equal. by rewrite Hc, Hc'.
Qed.

Lemma layout_split h c : mjoin (header_layout h c) =
  mjoin (take 12 (header_layout h c)) ++ c ++ mjoin (drop 13 (header_layout h c)).
Proof. by apply chunk_split. Qed.

Lemma header_checksum h c :
  header_sized h -> length c = 8%nat ->
  ComputeNativeCommonPageHeaderChecksum (mjoin (header_layout h c)) =
  ComputeNativeCommonPageHeaderChecksum (mjoin (header_layout h (replicate 8 0))).
Proof.
  intros Hh Hc. rewrite !layout_split.
  change (take 12 (header_layout h (replicate 8 0))) with (take 12 (header_layout h c)).
  change (drop 13 (header_layout h (replicate 8 0))) with (drop 13 (header_layout h c)).
  apply checksum_masks; [|done|done]. destruct Hh as [? ? [Hd _] [Hf _] [Hp _] ? ? ? ?].
  unfold header_layout, kPageHeaderMagic. cbn [take mjoin list_join]. rewrite !length_app, !length_le_bytes. cbn [length]. lia.
Qed.

Lemma checksum_u64 l : is_u64 (ComputeNativeCommonPageHeaderChecksum l).
Proof.
  unfold ComputeNativeCommonPageHeaderChecksum. generalize (imap (fun i v => if bool_decide (96 <= i)%nat &&
    bool_decide (i < 104)%nat then 0 else v) l) as k. intros k.
  induction k as [|b k IH] using rev_ind; [done|]. rewrite foldl_app. cbn [foldl]. unfold fnv_step at 1. by apply N.mod_lt.
Qed.

Definition encode_error (h : NativeCommonPageHeader) : NativeCommonPageHeaderError :=
  if decide (ValidateIdentity h = phe_none) then ValidateLayout h else ValidateIdentity h.

Lemma encode_header h :
  header_sized h ->
  EncodeNativeCommonPageHeader h =
  if decide (encode_error h <> phe_none) then Some (inl (encode_error h)) else Some (inr (header_image h)).
Proof.
  intros Hh. unfold EncodeNativeCommonPageHeader. fold (encode_error h). destruct (decide (encode_error h <> phe_none)); [done|].
  rewrite store_page_header_image by done. cbn [mbind option_bind]. unfold StoreLittle64, header_image.
  destruct Hh as [? ? [Hd _] [Hf _] [Hp _] ? ? ? [Hr _]]. pose proof (eq_refl : length kPageHeaderMagic = 8%nat) as Hm.
  generalize (ComputeNativeCommonPageHeaderChecksum (mjoin (header_layout h (replicate 8 0)))). intros v.
  unfold header_layout. store_field 12%nat. done.
Qed.

(** ** Decoding *)

Definition header_of (l : list N) : NativeCommonPageHeader :=
  mkPageHeader (le_value (slice 12 4 l)) (le_value (slice 16 4 l)) (mkUuid (slice 24 16 l)) (mkUuid (slice 40 16 l))
    (mkUuid (slice 56 16 l)) (le_value (slice 72 8 l)) (le_value (slice 80 8 l)) (le_value (slice 88 8 l))
    (mkUuid (slice 104 16 l)).

(** Everything the decoder asks of 128 bytes, apart from the header's own checks. *)
Record header_framed (l : list N) : Prop := {
  hf_length : length l = 128%nat;
  hf_magic : slice 0 8 l = kPageHeaderMagic;
  hf_bytes : le_value (slice 8 4 l) = 128;
  hf_checksum : le_value (slice 96 8 l) = ComputeNativeCommonPageHeaderChecksum l;
  hf_20 : le_value (slice 20 2 l) = 1;
  hf_22 : le_value (slice 22 2 l) = 1;
  hf_120 : le_value (slice 120 2 l) = 1;
  hf_reserved : all_zero (slice 122 6 l) = true }.

Lemma decode_header_iff l expected :
  exists r, DecodeNativeCommonPageHeader l expected = Some r /\
    forall h, r = inr h <-> header_framed l /\ h = header_of l /\ header_error h expected = phe_none.
Proof.
  unfold DecodeNativeCommonPageHeader, load_header_fields, LoadLittle64, LoadLittle32, LoadLittle16.
  case_decide as Hl; [eexists; split; [done|]; intros h; split; [done|by intros ([] & _)]|].
  in_buffer.
  case_decide as H1; [eexists; split; [done|]; intros h; split; [done|intros ([] & _); tauto]|].
  in_buffer. case_decide as H2; [eexists; split; [done|]; intros h; split; [done|intros ([] & _); tauto]|].
  in_buffer. case_decide as H3; [eexists; split; [done|]; intros h; split; [done|intros ([] & _); tauto]|].
  in_buffer. destruct (all_zero (slice 122 6 l)) eqn:H4; cbn [negb];
    [|eexists; split; [done|]; intros h; split; [done|intros ([] & _); congruence]].
  in_buffer. fold (header_of l). case_decide as H5.
  - eexists. split; [done|]. intros h. split; [done|]. by intros (_ & -> & H).
  - eexists. split; [done|]. intros h. split.
    + intros [= <-]. split_and!; [|done|done]. apply Decidable.not_or in H1 as [H1a H1b].
      apply Decidable.not_or in H3 as [H3a H3b]. apply Decidable.not_or in H3b as [H3b H3c].
      split; first [done|by apply dec_stable].
    + by intros (_ & -> & _).
Qed.

Lemma header_of_sized l : Forall is_byte l -> length l = 128%nat -> header_sized (header_of l).
Proof.
  intros Hb Hl. split; cbn [header_of ph_page_size_bytes ph_page_type ph_database_uuid ph_filespace_uuid ph_page_uuid
    ph_page_number ph_page_generation ph_flags ph_page_size_profile_uuid];
    try (apply uuid_of_slice; [done|lia]); try (apply (le_slice_bound 4); [done|lia]); apply (le_slice_bound 8); done || lia.
Qed.

(** A framed byte string is the image of the header read from it. *)
Lemma header_image_of l : Forall is_byte l -> header_framed l -> header_image (header_of l) = l.
Proof.
  intros Hb [Hl Hm H8 Hc H20 H22 H120 Hz].
  assert (Hlay : header_layout (header_of l) (slice 96 8 l) = slices 0 header_widths l).
  { unfold header_layout, header_widths. cbn [slices header_of ph_page_size_bytes ph_page_type ph_database_uuid
      ph_filespace_uuid ph_page_uuid ph_page_number ph_page_generation ph_flags ph_page_size_profile_uuid uuid_bytes Nat.add].
    rewrite Hm, !le_bytes_slice by (done || lia).
    rewrite (slice_constant 4 8 l 128), (slice_constant 2 20 l 1), (slice_constant 2 22 l 1), (slice_constant 2 120 l 1)
      by (done || lia).
    apply all_zero_iff in Hz. rewrite length_slice in Hz by lia. by rewrite Hz. }
  assert (Hjoin : mjoin (header_layout (header_of l) (slice 96 8 l)) = l) by (rewrite Hlay; by apply slices_whole).
  unfold header_image.
  rewrite <- (header_checksum (header_of l) (slice 96 8 l)) by (by apply header_of_sized || (apply length_slice; lia)).
  rewrite Hjoin, <- Hc, le_bytes_slice by (done || lia). exact Hjoin.
Qed.

(** And the image of a header is framed and read back. *)
Lemma header_image_framed h : header_sized h -> header_framed (header_image h) /\ header_of (header_image h) = h.
Proof.
  intros Hh. pose proof (header_checksum h (le_bytes 8 (ComputeNativeCommonPageHeaderChecksum
    (mjoin (header_layout h (replicate 8 0))))) Hh (length_le_bytes _ _)) as Hcs.
  pose proof (length_header_layout h Hh _ (length_le_bytes 8 (ComputeNativeCommonPageHeaderChecksum
    (mjoin (header_layout h (replicate 8 0)))))) as Hlen.
  fold (header_image h) in Hcs, Hlen.
  pose proof (checksum_u64 (mjoin (header_layout h (replicate 8 0)))) as Hu.
  destruct Hh as [Hsz Hty [Hd _] [Hf _] [Hp _] Hn Hg Hfl [Hr _]].
  pose proof (eq_refl : length kPageHeaderMagic = 8%nat) as Hm.
  split.
  - split; [done|..]; [| |rewrite Hcs| | | |]; unfold header_image, header_layout.
    + by slice_field 0%nat.
    + by slice_field 1%nat.
    + slice_field 12%nat. by apply u64_of_bytes.
    + by slice_field 4%nat.
    + by slice_field 5%nat.
    + by slice_field 14%nat.
    + by slice_field 15%nat.
  - unfold header_of, header_image, header_layout.
    slice_field 2%nat. slice_field 3%nat. slice_field 6%nat. slice_field 7%nat. slice_field 8%nat. slice_field 9%nat.
    slice_field 10%nat. slice_field 11%nat. slice_field 13%nat.
    rewrite !u32_of_bytes, !u64_of_bytes, !uuid_eta by done. by destruct h.
Qed.

Lemma header_error_none h : header_error h None = phe_none <-> encode_error h = phe_none.
Proof. unfold header_error, encode_error. by repeat (case_decide; try done). Qed.

(** The header is the one a reference with its page type names. *)
Record header_bound (h : NativeCommonPageHeader) (b : NativeCommonPageHeaderBinding) : Prop := {
  hbd_valid : BindingValid b = true;
  hbd_database : uuid_bytes (ph_database_uuid h) = uuid_bytes (fb_database_uuid (hb_filespace b));
  hbd_filespace : uuid_bytes (ph_filespace_uuid h) = uuid_bytes (fb_filespace_uuid (hb_filespace b));
  hbd_profile : uuid_bytes (ph_page_size_profile_uuid h) = uuid_bytes (fb_page_size_profile_uuid (hb_filespace b));
  hbd_number : ph_page_number h = hb_page_number b;
  hbd_generation : ph_page_generation h = hb_page_generation b;
  hbd_page : forall u, hb_page_uuid b = Some u -> uuid_bytes (ph_page_uuid h) = uuid_bytes u;
  hbd_type : ph_page_type h = hb_page_type b }.

Lemma match_identity h b :
  MatchIdentity h b = phe_none /\ ph_page_type h = hb_page_type b <-> header_bound h b.
Proof.
  unfold MatchIdentity. destruct (BindingValid b) eqn:Hv; cbn [negb]; [|split; [by intros [? _]|intros []; congruence]].
  destruct (_ || _) eqn:Hm.
  - split; [by intros [? _]|]. intros []. exfalso. apply orb_true_iff in Hm as [Hm|Hm].
    + apply bool_decide_eq_true in Hm. tauto.
    + destruct (hb_page_uuid b) as [u|]; [|done]. apply bool_decide_eq_true in Hm. by apply Hm, hbd_page0.
  - apply orb_false_iff in Hm as [Hm Hu]. apply bool_decide_eq_false in Hm. split; [|by intros []].
    intros [_ Ht]. apply Decidable.not_or in Hm as [H1 Hm]. apply Decidable.not_or in Hm as [H2 Hm].
    apply Decidable.not_or in Hm as [H3 Hm]. apply Decidable.not_or in Hm as [H4 H5].
    split; try first [done|by apply dec_stable]. intros u Hsome. rewrite Hsome in Hu. apply bool_decide_eq_false in Hu.
    by apply dec_stable.
Qed.

Lemma header_error_bound h b :
  header_error h (Some b) = phe_none <-> header_error h None = phe_none /\ header_bound h b.
Proof.
  rewrite <- match_identity. unfold header_error.
  destruct (decide (ValidateIdentity h = phe_none)) as [Hi|Hi].
  2: { rewrite !(decide_False (P := ValidateIdentity h = phe_none)) by done. tauto. }
  assert (Hn : forall A (x y : A), (if decide (phe_none = phe_none) then x else y) = x) by (intros; by rewrite decide_True).
  rewrite Hi, !Hn. destruct (decide (MatchIdentity h b = phe_none)) as [Hm|Hm].
  2: { rewrite !(decide_False (P := MatchIdentity h b = phe_none)) by done. tauto. }
  destruct (decide (ValidateLayout h = phe_none)) as [Hl|Hl].
  2: { rewrite ?(decide_False (P := ValidateLayout h = phe_none)) by done. tauto. }
  rewrite ?Hl, ?Hn. destruct (decide (ph_page_type h = hb_page_type b)) as [Ht|Ht].
  - rewrite decide_False by (by intros []). tauto.
  - rewrite decide_True by done. split; [intros X; discriminate X|by intros (_ & _ & ?)].
Qed.

Lemma decode_header l h expected :
  DecodeNativeCommonPageHeader l expected = Some (inr h) <->
  header_framed l /\ h = header_of l /\ header_error h expected = phe_none.
Proof.
  destruct (decode_header_iff l expected) as (r & -> & Hr). rewrite <- Hr. split; [by intros [= ->]|by intros ->].
Qed.

Lemma header_codec l h :
  Forall is_byte l ->
  DecodeNativeCommonPageHeader l None = Some (inr h) <-> header_sized h /\ EncodeNativeCommonPageHeader h = Some (inr l).
Proof.
  intros Hl. rewrite decode_header, header_error_none. split.
  - intros (Hf & -> & He). assert (Hz : header_sized (header_of l)) by (apply header_of_sized; [done|apply Hf]).
    split; [done|]. rewrite encode_header by done. rewrite decide_False by (by intros []). by rewrite header_image_of.
  - intros [Hz He]. rewrite encode_header in He by done. case_decide as Hn; [done|]. injection He as <-.
    destruct (header_image_framed h Hz) as [Hf Ho]. by rewrite Ho.
Qed.

Lemma encoded_header h l :
  header_sized h -> EncodeNativeCommonPageHeader h = Some (inr l) -> length l = 128%nat /\ encode_error h = phe_none.
Proof.
  intros Hz He. rewrite encode_header in He by done. case_decide as Hn; [done|]. injection He as <-.
  split; [apply (hf_length _ (proj1 (header_image_framed h Hz)))|done].
Qed.

Lemma profile_size id profile :
  FindCanonicalFilespacePageProfile id = Some profile -> 8192 <= cfp_page_size_bytes profile <= 131072.
Proof.
  unfold FindCanonicalFilespacePageProfile. destruct (list_find _ _) as [[i q]|] eqn:Hf; [|done]. intros [= <-].
  apply list_find_Some in Hf as (Hi & _).
  eapply (Forall_lookup_1 (fun q => 8192 <= cfp_page_size_bytes q <= 131072)); [|exact Hi]. repeat constructor; cbn; lia.
Qed.

Lemma header_page_size h : encode_error h = phe_none -> 8192 <= ph_page_size_bytes h <= 131072.
Proof.
  unfold encode_error. intros H. destruct (decide (ValidateIdentity h = phe_none)) as [Hi|Hi]; [|done]. clear H.
  unfold ValidateIdentity in Hi. destruct (decide (_ <> 0)); [done|].
  destruct (FindCanonicalFilespacePageProfile (ph_page_size_profile_uuid h)) as [profile|] eqn:Hp; [|done].
  destruct (bool_decide (cfp_page_size_bytes profile = ph_page_size_bytes h)) eqn:Hb; [|done].
  apply bool_decide_eq_true in Hb. rewrite <- Hb. by eapply profile_size.
Qed.

(** ** The filespace preamble is canonical

    The 4096-byte preamble of a filespace decodes exactly when it is the image of the
    value it decodes to. *)

Record bootstrap_sized (v : FilespaceBootstrap) : Prop := {
  bz_database : sized_uuid (bt_database_uuid v);
  bz_filespace : sized_uuid (bt_filespace_uuid v);
  bz_profile : sized_uuid (bt_page_size_profile_uuid v);
  bz_checksum : sized_uuid (bt_checksum_profile_uuid v);
  bz_encryption : sized_uuid (bt_encryption_profile_uuid v);
  bz_size : bt_page_size_bytes v < 2 ^ 32;
  bz_format : bt_durable_format_generation v < 2 ^ 32;
  bz_flags : bt_flags v < 2 ^ 32;
  bz_role : bt_filespace_role v < 2 ^ 16;
  bz_state : bt_lifecycle_state v < 2 ^ 16 }.

Definition bootstrap_widths : list nat := [4; 2; 2; 4; 4; 16; 16; 16; 4; 2; 2; 16; 16; 32; 3960]%nat.

Definition bootstrap_layout (v : FilespaceBootstrap) (digest : list N) : list (list N) :=
  [kBootstrapMagic; le_bytes 2 1; le_bytes 2 4096; le_bytes 4 (bt_page_size_bytes v); le_bytes 4 (bt_flags v);
   uuid_bytes (bt_database_uuid v); uuid_bytes (bt_filespace_uuid v); uuid_bytes (bt_page_size_profile_uuid v);
   le_bytes 4 (bt_durable_format_generation v); le_bytes 2 (bt_filespace_role v); le_bytes 2 (bt_lifecycle_state v);
   uuid_bytes (bt_checksum_profile_uuid v); uuid_bytes (bt_encryption_profile_uuid v); digest; replicate 3960 0].

(** The 104 bytes the digest covers. *)
Definition bootstrap_covered (v : FilespaceBootstrap) : list N := mjoin (take 13 (bootstrap_layout v [])).

Lemma bootstrap_split v d : mjoin (bootstrap_layout v d) = bootstrap_covered v ++ d ++ replicate 3960 0.
Proof. rewrite (chunk_split 13 (bootstrap_layout v d) d eq_refl). f_equal. Qed.

Lemma length_covered v : bootstrap_sized v -> length (bootstrap_covered v) = 104%nat.
Proof.
  intros [[Hd _] [Hf _] [Hp _] [Hc _] [He _] _ _ _ _ _]. unfold bootstrap_covered, bootstrap_layout, kBootstrapMagic.
  cbn [take mjoin list_join]. rewrite !length_app, !length_le_bytes. cbn [length]. lia.
Qed.

Lemma bootstrap_zeros : replicate 4096 0 = mjoin (zero_chunks bootstrap_widths).
Proof. rewrite replicate_chunks. reflexivity. Qed.

Lemma store_bootstrap_image v :
  bootstrap_sized v -> store_bootstrap_fields v (replicate 4096 0) = Some (mjoin (bootstrap_layout v (replicate 32 0))).
Proof.
  intros [[Hd _] [Hf _] [Hp _] [Hc _] [He _] _ _ _ _ _]. pose proof (eq_refl : length kBootstrapMagic = 4%nat) as Hm.
  rewrite bootstrap_zeros.
  unfold store_bootstrap_fields, StoreLittle32, StoreLittle16, zero_chunks, bootstrap_widths. cbn [fmap list_fmap].
  store_field 0%nat. store_field 1%nat. store_field 2%nat. store_field 3%nat. store_field 4%nat. store_field 5%nat.
  store_field 6%nat. store_field 7%nat. store_field 8%nat. store_field 9%nat. store_field 10%nat. store_field 11%nat.
  store_field 12%nat. done.
Qed.

Section bootstrap.
Context (sha256 : list N -> option (list N)).
(** The documented size of a SHA-256 digest. *)
Context (Hsize : forall m d, sha256 m = Some d -> length d = 32%nat).

Lemma encode_bootstrap v :
  bootstrap_sized v ->
  EncodeFilespaceBootstrap sha256 v =
  if decide (ValidateFilespaceBootstrap v None <> bte_none) then Some (inl (ValidateFilespaceBootstrap v None))
  else match sha256 (bootstrap_covered v) with
       | None => Some (inl bte_hash_provider_failure)
       | Some d => Some (inr (mjoin (bootstrap_layout v d)))
       end.
Proof.
  intros Hv. unfold EncodeFilespaceBootstrap. destruct (decide (_ <> bte_none)); [done|].
  rewrite store_bootstrap_image by done. cbn [mbind option_bind]. pose proof (length_covered v Hv) as Hc.
  rewrite (bootstrap_split v (replicate 32 0)).
  rewrite load_bytes_some by (rewrite length_app; lia). cbn [mbind option_bind].
  rewrite slice_app_l by lia. unfold slice. rewrite drop_0, take_ge by lia.
  destruct (sha256 (bootstrap_covered v)) as [d|] eqn:Hd; [|done]. apply Hsize in Hd. rewrite bootstrap_split.
  rewrite store_bytes_some by (rewrite !length_app, !length_replicate; lia). cbn [mbind option_bind]. unfold stored.
  rewrite Hd. rewrite take_app_length' by done. do 4 f_equal. rewrite app_assoc. apply drop_app_length'.
  rewrite length_app, length_replicate. lia.
Qed.

Definition bootstrap_of (l : list N) : FilespaceBootstrap :=
  mkBootstrap (mkUuid (slice 16 16 l)) (mkUuid (slice 32 16 l)) (mkUuid (slice 48 16 l)) (mkUuid (slice 72 16 l))
    (mkUuid (slice 88 16 l)) (le_value (slice 8 4 l)) (le_value (slice 64 4 l)) (le_value (slice 12 4 l))
    (le_value (slice 68 2 l)) (le_value (slice 70 2 l)).

Record bootstrap_framed (l : list N) : Prop := {
  bf_length : length l = 4096%nat;
  bf_magic : slice 0 4 l = kBootstrapMagic;
  bf_version : le_value (slice 4 2 l) = 1;
  bf_bytes : le_value (slice 6 2 l) = 4096;
  bf_reserved : all_zero (slice 136 3960 l) = true;
  bf_digest : sha256 (slice 0 104 l) = Some (slice 104 32 l) }.

Lemma decode_bootstrap_iff l expected :
  exists r, DecodeFilespaceBootstrap sha256 l expected = Some r /\
    forall v, r = inr v <-> bootstrap_framed l /\ v = bootstrap_of l /\ ValidateFilespaceBootstrap v expected = bte_none.
Proof.
  unfold DecodeFilespaceBootstrap, load_bootstrap_fields, LoadLittle32, LoadLittle16.
  destruct (decide (length l <> 4096%nat)) as [Hl|Hl]; [eexists; split; [done|]; intros v; split; [done|by intros ([] & _)]|].
  apply dec_stable in Hl. in_buffer.
  destruct (decide (_ \/ _)) as [H1|H1]; [eexists; split; [done|]; intros v; split; [done|intros ([] & _); tauto]|].
  in_buffer. destruct (all_zero (slice 136 3960 l)) eqn:H2; cbn [negb];
    [|eexists; split; [done|]; intros v; split; [done|intros ([] & _); congruence]].
  in_buffer. destruct (sha256 (slice 0 104 l)) as [d|] eqn:Hd;
    [|eexists; split; [done|]; intros v; split; [done|intros ([] & _); congruence]].
  in_buffer. destruct (decide (d <> slice 104 32 l)) as [H3|H3];
    [eexists; split; [done|]; intros v; split; [done|intros ([] & _); congruence]|].
  apply dec_stable in H3. in_buffer. fold (bootstrap_of l).
  destruct (decide (ValidateFilespaceBootstrap (bootstrap_of l) expected <> bte_none)) as [H4|H4].
  - eexists. split; [done|]. intros v. split; [done|]. by intros (_ & -> & H).
  - eexists. split; [done|]. intros v. split; [|by intros (_ & -> & _)]. intros [= <-].
    apply Decidable.not_or in H1 as [H1a H1b]. apply Decidable.not_or in H1b as [H1b H1c].
    split_and!; [|done|by apply dec_stable]. split; first [done|by apply dec_stable|congruence].
Qed.

Lemma bootstrap_of_sized l : Forall is_byte l -> length l = 4096%nat -> bootstrap_sized (bootstrap_of l).
Proof.
  intros Hb Hl. split; cbn [bootstrap_of bt_database_uuid bt_filespace_uuid bt_page_size_profile_uuid
    bt_checksum_profile_uuid bt_encryption_profile_uuid bt_page_size_bytes bt_durable_format_generation bt_flags
    bt_filespace_role bt_lifecycle_state];
    [apply uuid_of_slice; [done|lia]..|apply (le_slice_bound 4); [done|lia]|apply (le_slice_bound 4); [done|lia]|
     apply (le_slice_bound 4); [done|lia]|apply (le_slice_bound 2); [done|lia]|apply (le_slice_bound 2); [done|lia]].
Qed.

Lemma bootstrap_image_of l :
  Forall is_byte l -> bootstrap_framed l -> mjoin (bootstrap_layout (bootstrap_of l) (slice 104 32 l)) = l.
Proof.
  intros Hb [Hl Hm H4 H6 Hz _].
  assert (Hlay : bootstrap_layout (bootstrap_of l) (slice 104 32 l) = slices 0 bootstrap_widths l).
  { unfold bootstrap_layout, bootstrap_widths. cbn [slices bootstrap_of bt_database_uuid bt_filespace_uuid
      bt_page_size_profile_uuid bt_checksum_profile_uuid bt_encryption_profile_uuid bt_page_size_bytes
      bt_durable_format_generation bt_flags bt_filespace_role bt_lifecycle_state uuid_bytes Nat.add].
    rewrite Hm, !le_bytes_slice by (done || lia).
    rewrite (slice_constant 2 4 l 1), (slice_constant 2 6 l 4096) by (done || lia).
    apply all_zero_iff in Hz. rewrite length_slice in Hz by lia. by rewrite Hz. }
  rewrite Hlay. apply slices_whole. rewrite Hl. reflexivity.
Qed.

Lemma bootstrap_image_framed v d :
  bootstrap_sized v -> sha256 (bootstrap_covered v) = Some d ->
  bootstrap_framed (mjoin (bootstrap_layout v d)) /\ bootstrap_of (mjoin (bootstrap_layout v d)) = v.
Proof.
  intros Hv Hd. pose proof (Hsize _ _ Hd) as Hdl. pose proof (length_covered v Hv) as Hcl.
  assert (Hlen : length (mjoin (bootstrap_layout v d)) = 4096%nat).
  { rewrite bootstrap_split, !length_app, length_replicate. lia. }
  assert (Hcov : slice 0 104 (mjoin (bootstrap_layout v d)) = bootstrap_covered v).
  { rewrite bootstrap_split, slice_app_l by lia. unfold slice. rewrite drop_0. apply take_ge. lia. }
  destruct Hv as [[Hb _] [Hf _] [Hp _] [Hc _] [He _] Hs Hfo Hfl Hro Hst].
  pose proof (eq_refl : length kBootstrapMagic = 4%nat) as Hm. split.
  - split; [done|..|rewrite Hcov, Hd; f_equal; symmetry]; unfold bootstrap_layout.
    + by slice_field 0%nat.
    + by slice_field 1%nat.
    + by slice_field 2%nat.
    + slice_field 14%nat. apply all_zero_replicate.
    + by slice_field 13%nat.
  - unfold bootstrap_of, bootstrap_layout.
    slice_field 5%nat. slice_field 6%nat. slice_field 7%nat. slice_field 11%nat. slice_field 12%nat. slice_field 3%nat.
    slice_field 8%nat. slice_field 4%nat. slice_field 9%nat. slice_field 10%nat.
    rewrite !u32_of_bytes, !u16_of_bytes, !uuid_eta by done. by destruct v.
Qed.

(** The same for the preamble of a filespace, whose digest is SHA-256. *)
Theorem bootstrap_canonical (l : list N) (v : FilespaceBootstrap) (Hl : Forall is_byte l) :
  DecodeFilespaceBootstrap sha256 l None = Some (inr v) <->
  bootstrap_sized v /\ EncodeFilespaceBootstrap sha256 v = Some (inr l).
Proof.
  destruct (decode_bootstrap_iff l None) as (r & -> & Hr).
  transitivity (r = inr v); [split; [by intros [= ->]|by intros ->]|]. rewrite Hr. split.
  - intros (Hf & -> & He). assert (Hz : bootstrap_sized (bootstrap_of l)) by (apply bootstrap_of_sized; [done|apply Hf]).
    split; [done|]. rewrite encode_bootstrap by done. rewrite decide_False by (by intros []).
    assert (Hcov : bootstrap_covered (bootstrap_of l) = slice 0 104 l).
    { pose proof (bootstrap_image_of l Hl Hf) as Hi. rewrite bootstrap_split in Hi. rewrite <- Hi at 2.
      pose proof (length_covered _ Hz). rewrite slice_app_l by lia. unfold slice. rewrite drop_0. symmetry. apply take_ge. lia. }
    rewrite Hcov, (bf_digest l Hf). by rewrite bootstrap_image_of.
  - intros [Hz He]. rewrite encode_bootstrap in He by done. case_decide as Hn; [done|].
    destruct (sha256 (bootstrap_covered v)) as [d|] eqn:Hd; [|done].
    assert (l = mjoin (bootstrap_layout v d)) as -> by congruence.
    destruct (bootstrap_image_framed v d Hz Hd) as [Hf Ho]. by rewrite Ho.
Qed.
End bootstrap.

(** ** Correctness of the page frame codecs

    The page header and the filespace preamble have canonical images: a byte string
    is accepted exactly when it is the image of the value it decodes to, so no two
    images denote one value and no byte is without meaning. *)

(** The codec of the page header is canonical.  A string of bytes decodes to a
    header exactly when the header's fields fit their widths and encoding it gives
    that very string; decoding never reads outside its input; and decoding against a
    binding accepts exactly the headers that decode and whose identity, number,
    generation and type are those of the (valid) binding. *)
Theorem page_header_canonical (l : list N) (h : NativeCommonPageHeader) (Hl : Forall is_byte l) :
  (DecodeNativeCommonPageHeader l None = Some (inr h) <->
   header_sized h /\ EncodeNativeCommonPageHeader h = Some (inr l)) /\
  (forall expected, is_Some (DecodeNativeCommonPageHeader l expected)) /\
  (forall b, DecodeNativeCommonPageHeader l (Some b) = Some (inr h) <->
             DecodeNativeCommonPageHeader l None = Some (inr h) /\ header_bound h b).
Proof.
  split_and!; [by apply header_codec| |].
  - intros expected. destruct (decode_header_iff l expected) as (r & -> & _). by eexists.
  - intros b. rewrite !decode_header, header_error_bound. tauto.
Qed.

Definition frame_uuid (n : N) : Uuid := mkUuid [1; 2; 3; 4; 5; 6; 112; 0; 128; 0; 0; 0; 0; 0; 0; n].
Definition sample_header : NativeCommonPageHeader :=
  mkPageHeader 8192 769 (frame_uuid 1) (frame_uuid 2) (frame_uuid 3) 7 1 0 (profile_uuid 0 129 146).
Definition sample_header_bytes : list N := default [] (match EncodeNativeCommonPageHeader sample_header with
  | Some (inr l) => Some l | _ => None end).

Ltac uuid_is_sized := split; [reflexivity|repeat constructor].
Lemma sample_header_sized : header_sized sample_header.
Proof. split; first [uuid_is_sized|vm_compute; reflexivity]. Qed.

Lemma page_header_canonical_witness :
  Forall is_byte sample_header_bytes /\ DecodeNativeCommonPageHeader sample_header_bytes None = Some (inr sample_header).
Proof.
  assert (Hb : Forall is_byte sample_header_bytes) by (vm_compute; repeat constructor).
  split; [exact Hb|]. refine (proj2 (proj1 (page_header_canonical sample_header_bytes sample_header Hb)) _).
  split; [apply sample_header_sized|vm_compute; reflexivity].
Defined.

(** A header read from an open file is the one its binding names, and its page lies
    whole inside the file, whose size did not change meanwhile. *)
Theorem header_read_bound (device : device_view) (b : NativeCommonPageHeaderBinding) (h : NativeCommonPageHeader) :
  ReadNativeCommonPageHeaderFromOpenDevice device b = Some (inr h) ->
  dev_open device = true /\ header_bound h b /\
  exists profile size, FindCanonicalFilespacePageProfile (fb_page_size_profile_uuid (hb_filespace b)) = Some profile /\
    dev_size_before device = Some size /\ dev_size_after device = Some size /\
    (hb_page_number b + 1) * cfp_page_size_bytes profile <= size.
Proof.
  unfold ReadNativeCommonPageHeaderFromOpenDevice. destruct (BindingValid b); [|done]. destruct (dev_open device); [|done].
  cbn [negb]. destruct (FindCanonicalFilespacePageProfile _) as [profile|] eqn:Hp; [|done]. cbn [mbind option_bind].
  destruct (decide (u64_max / _ < _)) as [|Hn]; [done|]. destruct (negb _); [done|].
  destruct (dev_size_before device) as [size|]; [|done]. destruct (decide (_ \/ _)) as [|He]; [done|].
  destruct (dev_read device _ 128) as [bytes|]; [|done]. destruct (decide (length bytes <> 128%nat)); [done|].
  destruct (decode_header_iff bytes (Some b)) as (r & -> & Hr). cbn [mbind option_bind].
  destruct r as [|h']; [done|]. destruct (dev_size_after device) as [after|]; [|done].
  destruct (decide (after <> size)) as [|Ha]; [done|]. apply dec_stable in Ha. subst after. intros [= ->].
  destruct (proj1 (Hr h) eq_refl) as (_ & _ & Hb). apply header_error_bound in Hb as [_ Hb].
  split_and!; [done|done|]. exists profile, size. split_and!; try done.
  assert (Hm : hb_page_number b * cfp_page_size_bytes profile < u64_modulus).
  { apply N.nlt_ge in Hn. assert (H0 : cfp_page_size_bytes profile <> 0).
    { unfold FindCanonicalFilespacePageProfile in Hp. destruct (list_find _ _) as [[i p]|] eqn:Hf; [|done].
      injection Hp as <-. apply list_find_Some in Hf as (Hi & _).
      eapply (Forall_lookup_1 (fun p => cfp_page_size_bytes p <> 0)); [|exact Hi]. repeat constructor; cbn; lia. }
    pose proof (N.Div0.mul_div_le u64_max (cfp_page_size_bytes profile)). u64_unfold. nia. }
  rewrite (N.mod_small (hb_page_number b * cfp_page_size_bytes profile)) in He by exact Hm. lia.
Qed.
