(* ===== verification/NativeInventoryPageFacts.v ===== *)
(** * Facts about the native inventory page

    The encoder writes a fixed layout around the images of the entries; what the
    decoder asks of a buffer says that it has this layout. *)

From S2P Require Import Prelude Platform Uuid TransactionState Inventory Horizon Bytes PageFrame.
From S2P Require Import InventoryPage InventoryPageFacts NativeInventoryPage BorrowedFacts.
From S2P Require Import PageFrameFacts.

(** ** References *)

(** Two stores side by side are one. *)
Lemma store_adjacent off a b l :
  (off + length a + length b <= length l)%nat ->
  (store_bytes off a l ≫= store_bytes (off + length a) b) = store_bytes off (a ++ b) l.
Proof.
  intros H. rewrite (store_bytes_some off (a ++ b)) by (rewrite length_app; lia).
  rewrite (store_bytes_some off a) by lia. cbn [mbind option_bind].
  rewrite (store_bytes_some _ b) by (rewrite length_stored; lia). f_equal.
  unfold stored. rewrite length_app, (app_assoc (take off l) a).
  assert (Hl : length (take off l ++ a) = (off + length a)%nat) by (rewrite length_app, length_take; lia).
  rewrite take_app_length' by lia. rewrite drop_app_ge, Hl, drop_drop by lia. rewrite <- !app_assoc. do 4 f_equal. lia.
Qed.

Definition ref_image (r : NativePageReference) : list N :=
  uuid_bytes (pr_filespace_uuid r) ++ le_bytes 8 (pr_page_number r) ++ le_bytes 8 (pr_page_generation r) ++
  uuid_bytes (pr_page_size_profile_uuid r).

Record ref_sized (r : NativePageReference) : Prop := {
  rz_filespace : sized_uuid (pr_filespace_uuid r);
  rz_number : is_u64 (pr_page_number r);
  rz_generation : is_u64 (pr_page_generation r);
  rz_profile : sized_uuid (pr_page_size_profile_uuid r) }.

Lemma length_ref_image r : ref_sized r -> length (ref_image r) = 48%nat.
Proof. intros [[Hf _] _ _ [Hp _]]. unfold ref_image. rewrite !length_app, !length_le_bytes. lia. Qed.

Lemma put_ref off r l : ref_sized r -> (off + 48 <= length l)%nat -> PutRef off r l = store_bytes off (ref_image r) l.
Proof.
  intros [[Hf _] _ _ [Hp _]] Hl. unfold PutRef, ref_image, StoreLittle64.
  pose proof (length_le_bytes 8 (pr_page_number r)) as H8. pose proof (length_le_bytes 8 (pr_page_generation r)) as H8'.
  rewrite !app_assoc.
  rewrite <- store_adjacent by (rewrite !length_app; lia). rewrite <- store_adjacent by (rewrite !length_app; lia).
  rewrite <- store_adjacent by lia. rewrite !length_app, !length_le_bytes, Hf.
  destruct (store_bytes off _ l); [|done]. cbn [mbind option_bind]. destruct (store_bytes (off + 16) _ _); [|done]. cbn [mbind option_bind].
  rewrite !Nat.add_assoc. cbn [Nat.add]. replace (off + 16 + 8)%nat with (off + 24)%nat by lia.
  destruct (store_bytes (off + 24) _ _); [|done]. cbn [mbind option_bind]. f_equal. lia.
Qed.

Definition optional_image (r : option NativePageReference) : list N :=
  match r with Some r => ref_image r | None => replicate 48 0 end.

Definition optional_sized (r : option NativePageReference) : Prop :=
  match r with Some r => ref_sized r | None => True end.

Lemma length_optional_image r : optional_sized r -> length (optional_image r) = 48%nat.
Proof. destruct r; [apply length_ref_image|done]. Qed.

Lemma put_optional off r l :
  optional_sized r -> (off + 48 <= length l)%nat -> slice off 48 l = replicate 48 0 ->
  put_optional_ref off r l = store_bytes off (optional_image r) l.
Proof.
  intros Hr Hl Hz. destruct r as [r|]; [by apply put_ref|]. cbn [put_optional_ref optional_image].
  rewrite store_bytes_some by (cbn; lia). f_equal. rewrite <- Hz. symmetry. by apply stored_slice.
Qed.

Lemma get_ref off l :
  (off + 48 <= length l)%nat ->
  GetRef off l = Some (mkPageRef (mkUuid (slice off 16 l)) (le_value (slice (off + 16) 8 l))
                         (le_value (slice (off + 24) 8 l)) (mkUuid (slice (off + 32) 16 l))).
Proof. intros H. unfold GetRef, LoadLittle64. in_buffer. done. Qed.

(** A reference is valid only with a version in its filespace identifier, so its
    image is not the image of no reference. *)
Lemma valid_ref_not_zero r : RefValid r = true -> all_zero (ref_image r) = false.
Proof.
  unfold RefValid, IsEngineIdentityUuid, uuid_is_nil. intros H. apply not_true_is_false. unfold all_zero, ref_image.
  rewrite forallb_app. intros [Hz _]%andb_true_iff. by rewrite Hz in H.
Qed.

Lemma get_optional off l :
  (off + 48 <= length l)%nat ->
  exists r, get_optional_ref off l = Some r /\
    (Forall is_byte l -> optional_sized r /\ optional_image r = slice off 48 l).
Proof.
  intros Hl. unfold get_optional_ref. rewrite load_bytes_some by done. cbn [mbind option_bind].
  destruct (all_zero (slice off 48 l)) eqn:Hz.
  - exists None. split; [done|]. intros _. split; [done|]. apply all_zero_iff in Hz. rewrite length_slice in Hz by done. done.
  - rewrite get_ref by done. cbn [mbind option_bind]. eexists. split; [done|]. intros Hb. split.
    + split; cbn [pr_filespace_uuid pr_page_number pr_page_generation pr_page_size_profile_uuid];
        [apply uuid_of_slice; [done|lia]|apply (le_slice_bound 8); [done|lia]..|apply uuid_of_slice; [done|lia]].
    + cbn [optional_image]. unfold ref_image. cbn [pr_filespace_uuid pr_page_number pr_page_generation pr_page_size_profile_uuid uuid_bytes].
      rewrite !le_bytes_slice by (done || lia). pose proof (slices_join off [16; 8; 8; 16]%nat l) as Hj.
      cbn [slices mjoin list_join sum_list sum_list_with foldr Nat.add] in Hj. rewrite app_nil_r in Hj.
      rewrite <- !Nat.add_assoc in Hj. cbn [Nat.add] in Hj. exact Hj.
Qed.

Lemma get_optional_image off l r :
  optional_sized r -> (off + 48 <= length l)%nat -> slice off 48 l = optional_image r ->
  match r with Some r => RefValid r = true | None => True end -> get_optional_ref off l = Some r.
Proof.
  intros Hr Hl Hs Hv. unfold get_optional_ref. rewrite load_bytes_some, Hs by done. cbn [mbind option_bind]. destruct r as [r|].
  - cbn [optional_image] in *. rewrite valid_ref_not_zero, get_ref by done. cbn [mbind option_bind].
    pose proof (length_ref_image r Hr) as Hlen. destruct Hr as [[Hf _] Hn Hg [Hp _]].
    assert (Hsub : forall o n, (o + n <= 48)%nat -> slice (off + o) n l = slice o n (ref_image r)).
    { intros o n Ho. rewrite <- Hs. unfold slice. rewrite skipn_firstn_comm, drop_drop, take_take. f_equal. lia. }
    rewrite <- (Nat.add_0_r off) at 1. rewrite !Hsub by lia.
    change (ref_image r) with (uuid_bytes (pr_filespace_uuid r) ++ le_bytes 8 (pr_page_number r) ++
      le_bytes 8 (pr_page_generation r) ++ uuid_bytes (pr_page_size_profile_uuid r)).
    rewrite <- (app_nil_r (uuid_bytes (pr_page_size_profile_uuid r))).
    change (uuid_bytes (pr_filespace_uuid r) ++ le_bytes 8 (pr_page_number r) ++ le_bytes 8 (pr_page_generation r) ++
      uuid_bytes (pr_page_size_profile_uuid r) ++ []) with (mjoin [uuid_bytes (pr_filespace_uuid r); le_bytes 8 (pr_page_number r);
      le_bytes 8 (pr_page_generation r); uuid_bytes (pr_page_size_profile_uuid r)]).
    slice_field 0%nat. slice_field 1%nat. slice_field 2%nat. slice_field 3%nat.
    rewrite !u64_of_bytes, !uuid_eta by done. by destruct r.
  - cbn [optional_image]. by rewrite all_zero_replicate.
Qed.

(** ** Entries *)

Definition entry_sized (e : TransactionInventoryEntry) : Prop := entry_u64 e /\ Forall is_byte (uuid_bytes (e_uuid e)).

(** The flag word of the fields read from a flag word. *)
Definition flags_again (f : N) : N :=
  N.lor (flag (N.testbit f 0) 1) (N.lor (flag (N.testbit f 1) 2) (N.lor (flag (N.testbit f 2) 4)
    (N.lor (flag (N.testbit f 5) 32) (N.shiftl (origin_bits (origin_of_flags f)) 3)))).

Lemma flags_again_same f : N.ldiff f 63 = 0 -> flags_again f = f.
Proof.
  intros H. change 63 with (N.ones 6) in H. rewrite N.ldiff_ones_r, N.shiftl_mul_pow2, N.shiftr_div_pow2 in H.
  assert (Hf : f < 64) by (change (2 ^ 6) with 64 in H; pose proof (N.div_mod' f 64); pose proof (N.mod_lt f 64); lia).
  assert (Hall : forallb (fun k => flags_again (N.of_nat k) =? N.of_nat k) (seq 0 64) = true) by (vm_compute; reflexivity).
  rewrite forallb_forall in Hall. specialize (Hall (N.to_nat f)). rewrite N2Nat.id in Hall. apply N.eqb_eq, Hall, in_seq. lia.
Qed.

Lemma state_code_canonical n : state_of_u16 n <> ts_none -> u16_of_state (state_of_u16 n) = n.
Proof.
  intros H. unfold state_of_u16 in *. destruct n as [|p]; [done|].
  do 4 (destruct p as [p|p|]; try done).
Qed.

Lemma scope_code_canonical n s : scope_of_u16 n = Some s -> u16_of_scope s = n.
Proof. unfold scope_of_u16. destruct n as [|p]; [by intros [= <-]|]. destruct p as [p|[p|p|]|]; try done; by intros [= <-]. Qed.

Lemma parse_entry_inv off l r :
  (off + 72 <= length l)%nat -> parse_entry off l = Some r ->
  match r with
  | inl _ => N.ldiff (le_value (slice (off + 28) 4 l)) 63 <> 0
  | inr (s, e) => N.ldiff (le_value (slice (off + 28) 4 l)) 63 = 0 /\ s = scope_of_u16 (le_value (slice (off + 24) 2 l)) /\
    e = mkEntry (mkTransactionIdentity (le_value (slice off 8 l)) (mkTypedUuid uk_transaction (mkUuid (slice (off + 8) 16 l)))
              (default scope_local_node s))
          (state_of_u16 (le_value (slice (off + 26) 2 l))) (origin_of_flags (le_value (slice (off + 28) 4 l)))
          (le_value (slice (off + 32) 8 l)) (le_value (slice (off + 40) 8 l)) (le_value (slice (off + 48) 8 l))
          (le_value (slice (off + 56) 8 l)) (le_value (slice (off + 64) 8 l))
          (N.testbit (le_value (slice (off + 28) 4 l)) 0) (N.testbit (le_value (slice (off + 28) 4 l)) 1)
          (N.testbit (le_value (slice (off + 28) 4 l)) 2) (N.testbit (le_value (slice (off + 28) 4 l)) 5)
  end.
Proof.
  intros Hl. unfold parse_entry, LoadLittle64, LoadLittle32, LoadLittle16. in_buffer.
  destruct (decide (N.ldiff _ 63 <> 0)) as [Hf|Hf]; [by intros [= <-]|]. in_buffer. intros [= <-].
  split_and!; [by apply dec_stable|done|done].
Qed.

(** An accepted entry is the one its 72 bytes are the image of. *)
Lemma entry_canonical off l s e :
  Forall is_byte l -> (off + 72 <= length l)%nat -> parse_entry off l = Some (inr (Some s, e)) -> e_state e <> ts_none ->
  entry_image e = slice off 72 l /\ entry_sized e.
Proof.
  intros Hb Hl H Hst. apply parse_entry_inv in H as (Hf & Hs & ->); [|done]. cbn [e_state] in Hst.
  change (default scope_local_node (Some s)) with s. split.
  - unfold entry_image. cbn [e_local_id e_uuid e_identity e_state ti_local_id ti_transaction_uuid ti_scope tu_value uuid_bytes
      e_begin_unix_epoch_millis e_final_unix_epoch_millis e_begin_visible_through_local_transaction_id
      e_begin_visible_through_commit_sequence e_commit_sequence].
    rewrite (scope_code_canonical _ _ (eq_sym Hs)), state_code_canonical by done.
    match goal with |- context [EntryFlags ?x] => change (EntryFlags x) with (flags_again (le_value (slice (off + 28) 4 l))) end.
    rewrite flags_again_same by done. rewrite !le_bytes_slice by (done || lia).
    pose proof (slices_join off [8; 16; 2; 2; 4; 8; 8; 8; 8; 8]%nat l) as Hj.
    cbn [slices mjoin list_join sum_list sum_list_with foldr Nat.add] in Hj. rewrite app_nil_r in Hj.
    rewrite <- !Nat.add_assoc in Hj. cbn [Nat.add] in Hj. exact Hj.
  - split; [split|]; cbn [e_local_id e_uuid e_identity ti_local_id ti_transaction_uuid tu_value uuid_bytes
      e_begin_unix_epoch_millis e_final_unix_epoch_millis e_begin_visible_through_local_transaction_id
      e_begin_visible_through_commit_sequence e_commit_sequence]; try (apply (le_slice_bound 8); [done|lia]);
      [apply length_slice; lia|by apply slice_bytes].
Qed.

Lemma decode_entries_in_bounds off n l : (off + 72 * n <= length l)%nat -> is_Some (decode_entries off n l).
Proof.
  revert off. induction n as [|n IH]; intros off H; [by eexists|]. cbn [decode_entries].
  destruct (parse_entry_in_bounds off l ltac:(lia)) as [r ->]. cbn [mbind option_bind]. destruct r as [|p]; [by eexists|].
  destruct (IH (off + 72)%nat ltac:(lia)) as [rest ->]. cbn. by eexists.
Qed.

Lemma decode_entries_canonical off n l es :
  Forall is_byte l -> (off + 72 * n <= length l)%nat -> decode_entries off n l = Some (Some es) ->
  Forall (fun p => p.1 <> None) es -> Forall (fun e => e_state e <> ts_none) es.*2 ->
  length es = n /\ entries_image es.*2 = slice off (72 * n) l /\ Forall entry_sized es.*2 /\
  es = (fun e => (Some (ti_scope (e_identity e)), e)) <$> es.*2.
Proof.
  intros Hb. revert off es. induction n as [|n IH]; intros off es Hl H Hs Hst; cbn [decode_entries] in H.
  { injection H as <-. done. }
  destruct (parse_entry off l) as [r|] eqn:Hp; [|done]. cbn [mbind option_bind] in H. destruct r as [|[s e]]; [done|].
  destruct (decode_entries (off + 72) n l) as [rest|] eqn:Hd; [|done]. cbn [mbind option_bind] in H.
  destruct rest as [es'|]; [|done]. injection H as <-. cbn [fmap list_fmap] in *.
  apply Forall_cons in Hs as [Hs1 Hs]. apply Forall_cons in Hst as [Hst1 Hst]. cbn [fst snd] in *. destruct s as [s|]; [|done].
  destruct (IH (off + 72)%nat es' ltac:(lia) Hd Hs Hst) as (Hlen & Him & Hz & Heq).
  destruct (entry_canonical off l s e Hb ltac:(lia) Hp Hst1) as [Hi Hes]. split_and!.
  - cbn. by rewrite Hlen.
  - change (entries_image (e :: es'.*2)) with (entry_image e ++ entries_image es'.*2). rewrite Hi, Him, slice_cat. f_equal. lia.
  - by constructor.
  - rewrite <- Heq. do 2 f_equal. apply parse_entry_inv in Hp as (_ & Hs' & ->); [done|lia].
Qed.

Lemma decode_entries_image pre es post :
  Forall entry_u64 es -> Forall origin_storable es ->
  Forall (fun e => transaction_identity_valid (e_identity e) = true) es ->
  decode_entries (length pre) (length es) (pre ++ entries_image es ++ post) =
    Some (Some ((fun e => (Some (ti_scope (e_identity e)), e)) <$> es)).
Proof.
  intros Hu Ho Hv. revert pre. induction es as [|e es IH]; intros pre; [done|].
  inversion Hu as [|?? Hue Hues]; subst. inversion Ho as [|?? Hoe Hoes]; subst. inversion Hv as [|?? Hve Hves]; subst.
  cbn [decode_entries length]. change (entries_image (e :: es)) with (entry_image e ++ entries_image es). rewrite <- app_assoc.
  rewrite parse_entry_image; [|done|done|unfold transaction_identity_valid in Hve; by bool_prop].
  cbn [mbind option_bind]. rewrite app_assoc.
  replace (length pre + 72)%nat with (length (pre ++ entry_image e)) by (rewrite length_app, length_entry_image by apply Hue; lia).
  rewrite IH by done. done.
Qed.

Lemma encode_entries_image pre es k :
  Forall (fun e => length (uuid_bytes (e_uuid e)) = 16%nat) es ->
  encode_entries (length pre) es (pre ++ replicate (72 * length es + k) 0) = Some (pre ++ entries_image es ++ replicate k 0).
Proof.
  intros Hu. revert pre. induction es as [|e es IH]; intros pre; [done|]. inversion Hu as [|?? Hue Hues]; subst.
  cbn [encode_entries]. replace (72 * length (e :: es) + k)%nat with (72 + (72 * length es + k))%nat by (cbn [length]; lia).
  rewrite store_entry_image by done. cbn [mbind option_bind]. rewrite app_assoc.
  replace (length pre + 72)%nat with (length (pre ++ entry_image e)) by (rewrite length_app, length_entry_image by done; lia).
  rewrite IH by done. change (entries_image (e :: es)) with (entry_image e ++ entries_image es). by rewrite <- !app_assoc.
Qed.

(** ** The page *)

Record native_sized (p : NativeTransactionInventoryPage) : Prop := {
  nz_header : header_sized (np_header p);
  nz_object : sized_uuid (np_object_uuid p);
  nz_generation : is_u64 (np_inventory_generation p);
  nz_previous : optional_sized (np_previous p);
  nz_next : optional_sized (np_next p);
  nz_next_local : is_u64 (inv_next_local_transaction_id (np_inventory p));
  nz_next_commit : is_u64 (inv_next_commit_sequence (np_inventory p));
  nz_entries : Forall entry_sized (inv_entries (np_inventory p));
  nz_base : inv_publication_base (np_inventory p) = None }.

Definition native_count (p : NativeTransactionInventoryPage) : N := N.of_nat (length (inv_entries (np_inventory p))).

Definition family_widths (rest : nat) : list nat :=
  [128; 8; 2; 2; 4; 16; 8; 8; 8; 4; 4; 48; 48; 8; 8; 8; 8; 32; 32; rest]%nat.

Definition native_layout (p : NativeTransactionInventoryPage) (h : LocalTransactionHorizons) (header digest rest : list N)
    : list (list N) :=
  [header; kNativeMagic; le_bytes 2 1; le_bytes 2 256; le_bytes 4 (u32_cast (384 + kEntryBytes * native_count p));
   uuid_bytes (np_object_uuid p); le_bytes 8 (np_inventory_generation p);
   le_bytes 8 (inv_next_local_transaction_id (np_inventory p)); le_bytes 8 (inv_next_commit_sequence (np_inventory p));
   le_bytes 4 (u32_cast (native_count p)); replicate 4 0; optional_image (np_previous p); optional_image (np_next p);
   le_bytes 8 (h_oldest_interesting_transaction h); le_bytes 8 (h_oldest_active_transaction h);
   le_bytes 8 (h_oldest_snapshot_transaction h); replicate 8 0; digest; replicate 32 0; rest].

Section layout.
Context (p : NativeTransactionInventoryPage) (h : LocalTransactionHorizons) (Hp : native_sized p).
Context (header : list N) (Hh : length header = 128%nat).
Let Hm : length kNativeMagic = 8%nat := eq_refl.
Let Hob : length (uuid_bytes (np_object_uuid p)) = 16%nat := proj1 (nz_object p Hp).
Let Hpr : length (optional_image (np_previous p)) = 48%nat := length_optional_image _ (nz_previous p Hp).
Let Hne : length (optional_image (np_next p)) = 48%nat := length_optional_image _ (nz_next p Hp).

Lemma length_native_layout digest rest :
  length digest = 32%nat -> length (mjoin (native_layout p h header digest rest)) = (384 + length rest)%nat.
Proof.
  intros Hd. unfold native_layout. cbn [mjoin list_join]. rewrite !length_app, !length_le_bytes, !length_replicate.
  cbn [length]. lia.
Qed.

Lemma store_family_image rest :
  (l ← store_bytes 0 header (mjoin (zero_chunks (family_widths rest))); store_family p h l) =
  Some (mjoin (native_layout p h header (replicate 32 0) (replicate rest 0))).
Proof.
  unfold store_family, StoreLittle64, StoreLittle32, StoreLittle16, zero_chunks, family_widths. cbn [fmap list_fmap].
  store_field 0%nat. store_field 1%nat. store_field 2%nat. store_field 3%nat. store_field 4%nat. store_field 5%nat.
  store_field 6%nat. store_field 7%nat. store_field 8%nat. store_field 9%nat.
  match goal with |- context [put_optional_ref 192 (np_previous p) (mjoin ?cs)] =>
    rewrite (put_optional 192 (np_previous p) (mjoin cs) (nz_previous p Hp));
      [|layout_size|by slice_field 11%nat] end.
  store_field 11%nat.
  match goal with |- context [put_optional_ref 240 (np_next p) (mjoin ?cs)] =>
    rewrite (put_optional 240 (np_next p) (mjoin cs) (nz_next p Hp));
      [|layout_size|by slice_field 12%nat] end.
  store_field 12%nat. store_field 13%nat. store_field 14%nat. store_field 15%nat. done.
Qed.
End layout.

(** ** The digest *)

Definition native_front (p : NativeTransactionInventoryPage) (h : LocalTransactionHorizons) (header : list N) : list N :=
  mjoin (take 17 (native_layout p h header [] [])).

Lemma native_split p h header digest rest :
  mjoin (native_layout p h header digest rest) = native_front p h header ++ digest ++ replicate 32 0 ++ rest.
Proof.
  rewrite (chunk_split 17 (native_layout p h header digest rest) digest eq_refl). unfold native_front. do 3 f_equal.
  cbn [native_layout drop mjoin list_join]. by rewrite app_nil_r.
Qed.

Lemma length_native_front p h header : native_sized p -> length header = 128%nat -> length (native_front p h header) = 320%nat.
Proof.
  intros Hp Hh. pose proof (length_native_layout p h Hp header Hh (replicate 32 0) [] eq_refl) as H.
  rewrite native_split, !length_app, !length_replicate in H. cbn [length] in H. lia.
Qed.

Section digest.
Context (sha256 : hash_provider) (Hsize : digest_size sha256).

Definition native_digest (p : NativeTransactionInventoryPage) (h : LocalTransactionHorizons) (header rest : list N)
    : option (list N) :=
  ComputeSha256DigestPartsNative sha256 [native_front p h header; replicate 32 0; replicate 32 0 ++ rest].

Lemma native_digest_length p h header rest d : native_digest p h header rest = Some d -> length d = 32%nat.
Proof. unfold native_digest, ComputeSha256DigestPartsNative. case_decide; [done|]. apply Hsize. Qed.

Lemma digest_of_image p h header digest rest :
  native_sized p -> length header = 128%nat -> length digest = 32%nat ->
  NativeDigest sha256 (mjoin (native_layout p h header digest rest)) = Some (native_digest p h header rest).
Proof.
  intros Hp Hh Hd. pose proof (length_native_front p h header Hp Hh) as Hf. unfold NativeDigest.
  rewrite native_split. set (b := replicate 32 0 ++ rest).
  rewrite (load_bytes_some 0 320) by (rewrite length_app; lia). cbn [mbind option_bind].
  rewrite load_bytes_some by (rewrite !length_app; lia). cbn [mbind option_bind].
  assert (E1 : slice 0 320 (native_front p h header ++ digest ++ b) = native_front p h header).
  { rewrite slice_app_l by lia. unfold slice. rewrite drop_0. apply take_ge. lia. }
  assert (E2 : slice 352 (length (native_front p h header ++ digest ++ b) - 352) (native_front p h header ++ digest ++ b) = b).
  { unfold slice. rewrite app_assoc, drop_app_length' by (rewrite length_app; lia). apply take_ge. rewrite !length_app. lia. }
  by rewrite E1, E2.
Qed.

Lemma encode_values p h header k :
  native_sized p -> length header = 128%nat -> EncodeNativeCommonPageHeader (np_header p) = Some (inr header) ->
  EncodeValues sha256 p h (384 + 72 * length (inv_entries (np_inventory p)) + k) =
  Some (match native_digest p h header (entries_image (inv_entries (np_inventory p)) ++ replicate k 0) with
        | None => inl nie_hash_failure
        | Some d => inr (mjoin (native_layout p h header d (entries_image (inv_entries (np_inventory p)) ++ replicate k 0)))
        end).
Proof.
  intros Hp Hh He. unfold EncodeValues. rewrite He. cbn [mbind option_bind].
  set (es := inv_entries (np_inventory p)).
  replace (replicate (384 + 72 * length es + k) 0) with (mjoin (zero_chunks (family_widths (72 * length es + k)))).
  2: { rewrite replicate_chunks. f_equal. unfold family_widths. cbn. lia. }
  pose proof (store_family_image p h Hp header Hh (72 * length es + k)) as Hs.
  destruct (store_bytes 0 header _) as [l1|]; [|done]. cbn [mbind option_bind] in *. rewrite Hs. cbn [mbind option_bind].
  assert (Hu : Forall (fun e => length (uuid_bytes (e_uuid e)) = 16%nat) es).
  { eapply Forall_impl; [apply (nz_entries p Hp)|]. intros e [He' _]. apply (eu_uuid _ He'). }
  rewrite native_split. set (pre := native_front p h header ++ replicate 32 0 ++ replicate 32 0).
  replace (native_front p h header ++ replicate 32 0 ++ replicate 32 0 ++ replicate (72 * length es + k) 0)
    with (pre ++ replicate (72 * length es + k) 0) by (unfold pre; by rewrite <- !app_assoc).
  assert (Hpre : length pre = 384%nat) by (unfold pre; rewrite !length_app, length_native_front, !length_replicate by done; done).
  rewrite <- Hpre at 1. rewrite encode_entries_image by done. cbn [mbind option_bind].
  replace (pre ++ entries_image es ++ replicate k 0)
    with (mjoin (native_layout p h header (replicate 32 0) (entries_image es ++ replicate k 0)))
    by (rewrite native_split; unfold pre; by rewrite <- !app_assoc).
  rewrite digest_of_image by done. cbn [mbind option_bind].
  destruct (native_digest p h header _) as [d|] eqn:Hd; [|done]. apply native_digest_length in Hd.
  rewrite (store_chunk 17 _ (replicate 32 0) 320 d); [done|done| |by rewrite Hd].
  unfold chunk_offset. symmetry. exact (length_native_front p h header Hp Hh).
Qed.
End digest.

(** ** What the native page codec accepts

    One relation between a page and its image; the encoder and the decoder both
    decide it. *)

(** ** Parsed inventories *)

Lemma parsed_reason_scopes validator nl nc es :
  parsed_reason validator nl nc es = ""%string -> Forall (fun p => p.1 <> None) es.
Proof.
  unfold parsed_reason. cbv zeta. destruct (list_find _ _) as [[k q]|] eqn:Hf.
  - case_decide as Hb; [done|]. case_decide as Hr; [|done]. intros H. exfalso. rewrite H in Hr. revert Hr.
    apply (bool_decide_eq_false_1 _). vm_compute. reflexivity.
  - intros _. apply list_find_None in Hf. exact Hf.
Qed.

Lemma parsed_reason_ext f g nl nc es :
  (forall inv, f inv = g inv) -> parsed_reason f nl nc es = parsed_reason g nl nc es.
Proof. intros H. unfold parsed_reason. cbv zeta. rewrite !H. destruct (list_find _ _) as [[k q]|]; [|done]. by rewrite !H. Qed.

Lemma projection_defined inv : exists h, ProjectValidatedLocalHorizons inv [] = inr h.
Proof. unfold ProjectValidatedLocalHorizons. cbn [apply_snapshot_horizons]. by eexists. Qed.

Lemma horizons_of_structure inv :
  structure_ok inv ->
  hres_ok (ComputeLocalTransactionHorizons inv) = true /\
  ProjectValidatedLocalHorizons inv [] = inr (hres_horizons (ComputeLocalTransactionHorizons inv)).
Proof.
  intros H. pose proof (compute_horizons_no_snapshots inv H) as Hk. split; [done|]. by apply compute_horizons_ok.
Qed.

(** ** The relation *)

(** What the checks of a page say, its inventory well formed. *)
Record native_ok (p : NativeTransactionInventoryPage) : Prop := {
  no_frame : ValidateFrame p = nie_none;
  no_structure : structure_ok (np_inventory p);
  no_ascending : ascending 0 (inv_entries (np_inventory p)) = true }.

Lemma validate_native_iff p :
  ValidateNative p (ValidateLocalTransactionInventoryStructure (np_inventory p)) = nie_none <-> native_ok p.
Proof.
  unfold ValidateNative. split.
  - destruct (decide (ValidateFrame p <> nie_none)) as [|Hf]; [done|]. apply dec_stable in Hf.
    destruct (decide (_ <> ""%string)) as [|Hr]; [done|]. apply dec_stable, validate_structure_iff in Hr.
    destruct (ascending 0 _) eqn:Ha; [|done]. done.
  - intros [Hf Hs Ha]. rewrite decide_False by (by intros []). apply validate_structure_iff in Hs. rewrite Hs.
    rewrite decide_False by (intros X; by apply X). by rewrite Ha.
Qed.

(** The facts of the frame the codec needs. *)
Lemma frame_facts p :
  ValidateFrame p = nie_none ->
  (exists header, EncodeNativeCommonPageHeader (np_header p) = Some (inr header)) /\ ph_page_type (np_header p) = 769 /\
  native_count p <= (ph_page_size_bytes (np_header p) - 384) / kEntryBytes /\
  (forall r, np_previous p = Some r -> RefValid r = true) /\ (forall r, np_next p = Some r -> RefValid r = true).
Proof.
  unfold ValidateFrame, header_encodes. cbv zeta.
  destruct (EncodeNativeCommonPageHeader (np_header p)) as [[|header]|] eqn:He; try done. cbn [negb orb].
  destruct (bool_decide (ph_page_type _ <> 769)) eqn:Ht; [done|]. apply bool_decide_eq_false, dec_stable in Ht.
  destruct (_ || _ || _) eqn:Hfam; [done|]. apply orb_false_iff in Hfam as [_ Hc]. apply bool_decide_eq_false in Hc.
  destruct (negb (RefValid (Self p))); [done|]. destruct (_ || _) eqn:Hn; [done|]. apply orb_false_iff in Hn as [Hn1 Hn2].
  intros _. split_and!; [by eexists|done|unfold native_count; lia| |].
  - intros r Hr. rewrite Hr in Hn1. cbn [neighbor_refused] in Hn1. by destruct (RefValid r).
  - intros r Hr. rewrite Hr in Hn2. cbn [neighbor_refused] in Hn2. by destruct (RefValid r).
Qed.

Section codec.
Context (sha256 : hash_provider) (Hsize : digest_size sha256).

Definition native_rest (p : NativeTransactionInventoryPage) (k : nat) : list N :=
  entries_image (inv_entries (np_inventory p)) ++ replicate k 0.

(** [l] is the image of [p]: its header's image, the family header, the entries and
    zeros up to the page size. *)
Definition native_image (p : NativeTransactionInventoryPage) (l : list N) : Prop :=
  native_ok p /\ exists h header d k,
    ProjectValidatedLocalHorizons (np_inventory p) [] = inr h /\
    EncodeNativeCommonPageHeader (np_header p) = Some (inr header) /\
    N.of_nat (384 + 72 * length (inv_entries (np_inventory p)) + k) = ph_page_size_bytes (np_header p) /\
    native_digest sha256 p h header (native_rest p k) = Some d /\
    l = mjoin (native_layout p h header d (native_rest p k)).

Lemma page_padding p :
  native_sized p -> ValidateFrame p = nie_none ->
  exists k, N.of_nat (384 + 72 * length (inv_entries (np_inventory p)) + k) = ph_page_size_bytes (np_header p).
Proof.
  intros Hp Hf. destruct (frame_facts p Hf) as ((header & He) & _ & Hc & _).
  destruct (encoded_header _ _ (nz_header p Hp) He) as [_ Hn]. apply header_page_size in Hn.
  exists (N.to_nat (ph_page_size_bytes (np_header p) - (384 + 72 * native_count p))). unfold native_count, kEntryBytes in *.
  pose proof (N.Div0.mul_div_le (ph_page_size_bytes (np_header p) - 384) 72). lia.
Qed.

Lemma without_base_same p : native_sized p -> without_base p = p.
Proof.
  intros Hp. pose proof (nz_base p Hp) as Hb. destruct p as [? ? ? ? ? [? ? ? base]]. cbn in Hb. by rewrite Hb.
Qed.

Lemma encode_native p :
  native_sized p ->
  exists r, EncodeNativeTransactionInventoryPage sha256 p = Some r /\
    (forall l, r = inr (p, l) <-> native_image p l) /\ (forall q l, r = inr (q, l) -> q = p).
Proof.
  intros Hp. unfold EncodeNativeTransactionInventoryPage. cbv zeta.
  destruct (decide (ValidateNative p _ <> nie_none)) as [Hv|Hv].
  { eexists. split; [done|]. split; [|done]. intros l. split; [done|]. intros [Ho _]. by apply validate_native_iff in Ho. }
  apply dec_stable, validate_native_iff in Hv. destruct (horizons_of_structure _ (no_structure p Hv)) as [Hh1 Hh2].
  rewrite Hh1. cbn [negb]. set (h := hres_horizons _) in *.
  destruct (page_padding p Hp (no_frame p Hv)) as [k Hk]. rewrite <- Hk, Nat2N.id.
  destruct (frame_facts p (no_frame p Hv)) as ((header & He) & _).
  destruct (encoded_header _ _ (nz_header p Hp) He) as [Hlen _].
  rewrite (encode_values sha256 Hsize p h header k Hp Hlen He). cbn [mbind option_bind].
  change (entries_image (inv_entries (np_inventory p)) ++ replicate k 0) with (native_rest p k).
  assert (Huniq : forall h' header' k', ProjectValidatedLocalHorizons (np_inventory p) [] = inr h' ->
     EncodeNativeCommonPageHeader (np_header p) = Some (inr header') ->
     N.of_nat (384 + 72 * length (inv_entries (np_inventory p)) + k') = ph_page_size_bytes (np_header p) ->
     h' = h /\ header' = header /\ k' = k).
  { intros h' header' k' E1 E2 E3. split_and!; [congruence|congruence|lia]. }
  destruct (native_digest sha256 p h header (native_rest p k)) as [d|] eqn:Hd.
  - eexists. split; [done|]. rewrite without_base_same by done. split; [|by intros q l [= <- _]]. intros l. split.
    + intros [= <-]. split; [done|]. by exists h, header, d, k.
    + intros (_ & h' & header' & d' & k' & E1 & E2 & E3 & E4 & ->).
      destruct (Huniq h' header' k' E1 E2 E3) as (-> & -> & ->). rewrite Hd in E4. by injection E4 as <-.
  - eexists. split; [done|]. split; [|done]. intros l. split; [done|].
    intros (_ & h' & header' & d' & k' & E1 & E2 & E3 & E4 & ->).
    destruct (Huniq h' header' k' E1 E2 E3) as (-> & -> & ->). congruence.
Qed.

(** ** Decoding *)

Lemma decoded_header_size l h :
  DecodeNativeCommonPageHeader (take 128 l) None = Some (inr h) -> (128 <= length l)%nat /\ 8192 <= ph_page_size_bytes h <= 131072.
Proof.
  intros H. apply decode_header in H as (Hf & -> & He). pose proof (hf_length _ Hf) as Hl. rewrite length_take in Hl.
  split; [lia|]. by apply header_page_size, header_error_none.
Qed.

Lemma count_fits len count : 8192 <= len -> ~ (len - 384) / kEntryBytes < count -> 384 + 72 * count <= len.
Proof. unfold kEntryBytes. intros H1 H2. pose proof (N.Div0.mul_div_le (len - 384) 72). lia. Qed.

Ltac field_loads := unfold LoadLittle64, LoadLittle32, LoadLittle16; in_buffer.

Lemma decode_inventory_total l header count capacity validator :
  (384 + 72 * N.to_nat count <= length l)%nat -> is_Some (decode_inventory l header count capacity validator).
Proof.
  intros Hl. unfold decode_inventory. field_loads.
  destruct (get_optional 192 l ltac:(lia)) as (r1 & -> & _). destruct (get_optional 240 l ltac:(lia)) as (r2 & -> & _).
  cbn [mbind option_bind]. destruct (match capacity with Some _ => _ | None => _ end); [by eexists|].
  destruct (decode_entries_in_bounds 384 (N.to_nat count) l Hl) as [es ->]. cbn [mbind option_bind].
  destruct es as [es|]; [|by eexists]. destruct (decide _); [by eexists|]. field_loads.
  destruct (ProjectValidatedLocalHorizons _ _); [by eexists|]. case_decide; by eexists.
Qed.

(** No decoding reads outside its input. *)
Lemma decode_native_total l capacity validator : is_Some (DecodeInventoryValues sha256 l capacity validator).
Proof.
  unfold DecodeInventoryValues. destruct (decode_header_iff (take 128 l) None) as (r & Hr & _). rewrite Hr. cbn [mbind option_bind].
  destruct r as [|h]; [by eexists|]. apply decoded_header_size in Hr as [Hl Hp].
  destruct (decide (_ \/ _)) as [|Hs]; [by eexists|]. apply Decidable.not_or in Hs as [_ Hs]. apply dec_stable in Hs.
  assert (Hlen : (384 <= length l)%nat) by lia. unfold NativeDigest.
  rewrite (load_bytes_some 0 320), (load_bytes_some 352 (length l - 352)) by lia. cbn [mbind option_bind].
  destruct (ComputeSha256DigestPartsNative _ _) as [d|]; [|by eexists]. rewrite (load_bytes_some 320 32) by lia. cbn [mbind option_bind].
  destruct (decide (d <> _)); [by eexists|]. unfold LoadLittle32, LoadLittle16.
  rewrite (load_bytes_some 184 4), (load_bytes_some 128 8), (load_bytes_some 136 2), (load_bytes_some 138 2) by lia.
  cbn [mbind option_bind fmap option_fmap option_map]. destruct (decide (_ \/ _)) as [|Hc]; [by eexists|].
  do 3 apply Decidable.not_or in Hc as [_ Hc]. apply count_fits in Hc; [|lia].
  field_loads. destruct (_ || _ || _ || _ || _); [by eexists|]. apply decode_inventory_total. lia.
Qed.

(** What a decoded page was read from. *)
Record family_framed (l : list N) (count : N) : Prop := {
  ff_digest : NativeDigest sha256 l = Some (Some (slice 320 32 l));
  ff_magic : slice 128 8 l = kNativeMagic;
  ff_136 : le_value (slice 136 2 l) = 1;
  ff_138 : le_value (slice 138 2 l) = 256;
  ff_count : le_value (slice 184 4 l) = count;
  ff_fits : (384 + 72 * N.to_nat count <= length l)%nat;
  ff_total : le_value (slice 140 4 l) = 384 + kEntryBytes * count;
  ff_188 : slice 188 4 l = replicate 4 0;
  ff_312 : slice 312 8 l = replicate 8 0;
  ff_352 : slice 352 32 l = replicate 32 0;
  ff_rest : slice (384 + 72 * N.to_nat count) (length l - (384 + 72 * N.to_nat count)) l =
            replicate (length l - (384 + 72 * N.to_nat count)) 0 }.

Lemma zero_slice off n l : (off + n <= length l)%nat -> all_zero (slice off n l) = true -> slice off n l = replicate n 0.
Proof. intros Hl H. apply all_zero_iff in H. by rewrite length_slice in H. Qed.

Lemma decode_frame l capacity validator p :
  DecodeInventoryValues sha256 l capacity validator = Some (inr p) ->
  exists header count, DecodeNativeCommonPageHeader (take 128 l) None = Some (inr header) /\
    ph_page_type header = 769 /\ N.of_nat (length l) = ph_page_size_bytes header /\ family_framed l count /\
    decode_inventory l header count capacity validator = Some (inr p).
Proof.
  unfold DecodeInventoryValues. destruct (decode_header_iff (take 128 l) None) as (r & Hr & _). rewrite Hr. cbn [mbind option_bind].
  destruct r as [|h]; [done|]. pose proof Hr as Hz. apply decoded_header_size in Hz as [Hl Hp].
  destruct (decide (_ \/ _)) as [|Hs]; [done|]. apply Decidable.not_or in Hs as [Ht Hs]. apply dec_stable in Hs, Ht.
  assert (Hlen : (384 <= length l)%nat) by lia.
  destruct (NativeDigest sha256 l) as [[d|]|] eqn:Hd; [|done..]. cbn [mbind option_bind].
  rewrite (load_bytes_some 320 32) by lia. cbn [mbind option_bind]. destruct (decide (d <> _)) as [|He]; [done|].
  apply dec_stable in He. subst d. unfold LoadLittle32, LoadLittle16.
  rewrite (load_bytes_some 184 4), (load_bytes_some 128 8), (load_bytes_some 136 2), (load_bytes_some 138 2) by lia.
  cbn [mbind option_bind fmap option_fmap option_map]. set (count := le_value (slice 184 4 l)).
  destruct (decide (_ \/ _)) as [|Hc]; [done|]. apply Decidable.not_or in Hc as [Hm Hc]. apply Decidable.not_or in Hc as [H6 Hc].
  apply Decidable.not_or in Hc as [H8 Hc]. apply dec_stable in Hm, H6, H8. apply count_fits in Hc; [|lia].
  field_loads. destruct (_ || _ || _ || _ || _) eqn:Hz; [done|]. intros H.
  apply orb_false_iff in Hz as [Hz Z5]. apply orb_false_iff in Hz as [Hz Z4]. apply orb_false_iff in Hz as [Hz Z3].
  apply orb_false_iff in Hz as [Z1 Z2]. apply bool_decide_eq_false, dec_stable in Z1.
  apply negb_false_iff, zero_slice in Z2, Z3, Z4, Z5; [|lia..].
  exists h, count. split_and!; try done. split; try done. lia.
Qed.

(** The page read from the fields of an accepted buffer. *)
Record inventory_read (l : list N) (header : NativeCommonPageHeader) (count : N) (capacity : option N)
    (p : NativeTransactionInventoryPage) (es : list (option TransactionScope * TransactionInventoryEntry))
    (h : LocalTransactionHorizons) : Prop := {
  ir_header : np_header p = header;
  ir_object : uuid_bytes (np_object_uuid p) = slice 144 16 l;
  ir_generation : np_inventory_generation p = le_value (slice 160 8 l);
  ir_next_local : inv_next_local_transaction_id (np_inventory p) = le_value (slice 168 8 l);
  ir_next_commit : inv_next_commit_sequence (np_inventory p) = le_value (slice 176 8 l);
  ir_previous : get_optional_ref 192 l = Some (np_previous p);
  ir_next : get_optional_ref 240 l = Some (np_next p);
  ir_capacity : forall c, capacity = Some c -> count <= c;
  ir_entries : decode_entries 384 (N.to_nat count) l = Some (Some es);
  ir_inventory : inv_entries (np_inventory p) = es.*2;
  ir_base : inv_publication_base (np_inventory p) = None;
  ir_scopes : Forall (fun q => q.1 <> None) es;
  ir_ok : native_ok p;
  ir_horizons : ProjectValidatedLocalHorizons (np_inventory p) [] = inr h;
  ir_oit : le_value (slice 288 8 l) = h_oldest_interesting_transaction h;
  ir_oat : le_value (slice 296 8 l) = h_oldest_active_transaction h;
  ir_ost : le_value (slice 304 8 l) = h_oldest_snapshot_transaction h }.

Lemma validate_parsed p nl nc es :
  np_inventory p = mkInventory nl nc es.*2 None ->
  ValidateNative p (parsed_reason ValidateLocalTransactionInventoryStructure nl nc es) = nie_none ->
  native_ok p /\ Forall (fun q => q.1 <> None) es.
Proof.
  intros Hi Hv. unfold ValidateNative in Hv. destruct (decide (ValidateFrame p <> nie_none)) as [|Hf]; [done|].
  apply dec_stable in Hf. destruct (decide (_ <> ""%string)) as [|Hr]; [done|]. apply dec_stable in Hr.
  destruct (ascending 0 _) eqn:Ha; [|done]. split; [|by eapply parsed_reason_scopes].
  split; [done| |done]. rewrite Hi. by apply parsed_reason_empty.
Qed.

Lemma decode_inventory_inv l header count capacity validator p :
  (forall inv, validator inv = ValidateLocalTransactionInventoryStructure inv) ->
  (384 + 72 * N.to_nat count <= length l)%nat ->
  decode_inventory l header count capacity validator = Some (inr p) ->
  exists es h, inventory_read l header count capacity p es h.
Proof.
  intros Hval Hl. unfold decode_inventory. field_loads.
  destruct (get_optional 192 l ltac:(lia)) as (r1 & Hr1 & _). destruct (get_optional 240 l ltac:(lia)) as (r2 & Hr2 & _).
  rewrite Hr1, Hr2. cbn [mbind option_bind].
  destruct (match capacity with Some _ => _ | None => _ end) eqn:Hc; [done|].
  destruct (decode_entries 384 (N.to_nat count) l) as [[es|]|] eqn:He; [|done..]. cbn [mbind option_bind].
  rewrite (parsed_reason_ext validator ValidateLocalTransactionInventoryStructure) by done.
  match goal with |- context [ValidateNative ?q _] => set (page := q) end.
  destruct (decide (ValidateNative page _ <> nie_none)) as [|Hv]; [done|]. apply dec_stable, validate_parsed in Hv as [Hok Hsc]; [|done].
  field_loads. destruct (ProjectValidatedLocalHorizons (np_inventory page) []) as [|h] eqn:Hh; [done|].
  destruct (decide (_ \/ _)) as [|Hz]; [done|]. intros [= <-]. apply Decidable.not_or in Hz as [Z1 Hz].
  apply Decidable.not_or in Hz as [Z2 Z3]. apply dec_stable in Z1, Z2, Z3. exists es, h. split; try done.
  intros c ->. apply bool_decide_eq_false in Hc. lia.
Qed.

Lemma decode_inventory_of_read l header count capacity validator p es h :
  (forall inv, validator inv = ValidateLocalTransactionInventoryStructure inv) ->
  (384 + 72 * N.to_nat count <= length l)%nat ->
  es = (fun e => (Some (ti_scope (e_identity e)), e)) <$> es.*2 ->
  inventory_read l header count capacity p es h ->
  decode_inventory l header count capacity validator = Some (inr p).
Proof.
  intros Hval Hl Hes [Hh Hob Hge Hnl Hnc Hpr Hne Hca He Hin Hba Hsc Hok Hho Z1 Z2 Z3]. unfold decode_inventory. field_loads.
  rewrite Hpr, Hne. cbn [mbind option_bind].
  replace (match capacity with Some c => bool_decide (c < count) | None => false end) with false.
  2: { destruct capacity as [c|]; [|done]. specialize (Hca c eq_refl). symmetry. apply bool_decide_eq_false. lia. }
  rewrite He. cbn [mbind option_bind].
  replace (mkNativePage header (mkUuid (slice 144 16 l)) (le_value (slice 160 8 l)) (np_previous p) (np_next p)
    (mkInventory (le_value (slice 168 8 l)) (le_value (slice 176 8 l)) es.*2 None)) with p.
  2: { destruct p as [? [?] ? ? ? [? ? ? ?]]. cbn in *. congruence. }
  rewrite (parsed_reason_ext validator ValidateLocalTransactionInventoryStructure) by done.
  assert (Hr : parsed_reason ValidateLocalTransactionInventoryStructure (le_value (slice 168 8 l)) (le_value (slice 176 8 l)) es =
    ValidateLocalTransactionInventoryStructure (np_inventory p)).
  { rewrite Hes. rewrite (parsed_reason_plain _ _ es.*2). f_equal. destruct (np_inventory p) as [? ? ? ?]. cbn in *. congruence. }
  rewrite Hr. rewrite (decide_False (P := _ <> nie_none)) by (intros X; by apply X, validate_native_iff).
  field_loads. rewrite Hho. rewrite decide_False; [done|]. rewrite Z1, Z2, Z3. tauto.
Qed.

Lemma decode_native_sound l capacity validator p :
  (forall inv, validator inv = ValidateLocalTransactionInventoryStructure inv) -> Forall is_byte l ->
  DecodeInventoryValues sha256 l capacity validator = Some (inr p) -> native_sized p /\ native_image p l.
Proof.
  intros Hval Hb H. apply decode_frame in H as (header & count & Hh & Ht & Hs & Hf & Hd).
  pose proof (ff_fits _ _ Hf) as Hl. apply decode_inventory_inv in Hd as (es & h & Hr); [|done|done].
  assert (Hst : Forall (fun e => e_state e <> ts_none) es.*2).
  { rewrite <- (ir_inventory _ _ _ _ _ _ _ Hr). eapply Forall_impl; [apply (so_entries _ (no_structure p (ir_ok _ _ _ _ _ _ _ Hr)))|].
    intros e He. apply (eo_state _ _ He). }
  destruct (decode_entries_canonical 384 (N.to_nat count) l es Hb Hl (ir_entries _ _ _ _ _ _ _ Hr) (ir_scopes _ _ _ _ _ _ _ Hr) Hst)
    as (Hn & Him & Hez & _).
  destruct (get_optional 192 l ltac:(lia)) as (r1 & Hr1 & Ho1). destruct (get_optional 240 l ltac:(lia)) as (r2 & Hr2 & Ho2).
  specialize (Ho1 Hb) as [Hz1 Hi1]. specialize (Ho2 Hb) as [Hz2 Hi2].
  destruct Hr as [Ehd Hob Hge Hnl Hnc Hpr Hne Hca He Hin Hba Hsc Hok Hho Z1 Z2 Z3].
  rewrite Hr1 in Hpr. rewrite Hr2 in Hne. injection Hpr as ->. injection Hne as ->.
  apply header_codec in Hh as [Hhz Hhe]; [|by apply Forall_take]. subst header.
  assert (Hp : native_sized p).
  { split; try done; rewrite ?Hge, ?Hnl, ?Hnc, ?Hin; try done; try (apply (le_slice_bound 8); [done|lia]).
    split; rewrite Hob; [apply length_slice; lia|by apply slice_bytes]. }
  split; [done|]. split; [done|].
  exists h, (take 128 l), (slice 320 32 l), (length l - (384 + 72 * N.to_nat count))%nat.
  assert (Hcount : length (inv_entries (np_inventory p)) = N.to_nat count) by (rewrite Hin, length_fmap; done).
  assert (Hrest : native_rest p (length l - (384 + 72 * N.to_nat count)) = slice 384 (length l - 384) l).
  { unfold native_rest. rewrite Hin, Him, <- (ff_rest _ _ Hf), slice_cat. f_equal. lia. }
  assert (Hlay : native_layout p h (take 128 l) (slice 320 32 l) (slice 384 (length l - 384) l) =
                 slices 0 (family_widths (length l - 384)) l).
  { unfold native_layout, family_widths, native_count. cbn [slices Nat.add].
    assert (Hu : 384 + kEntryBytes * count < 2 ^ 32).
    { rewrite <- (ff_total _ _ Hf). apply (le_slice_bound 4); [done|lia]. }
    assert (Hu' : count < 2 ^ 32) by (rewrite <- (ff_count _ _ Hf); apply (le_slice_bound 4); [done|lia]).
    rewrite Hcount, N2Nat.id. unfold u32_cast. rewrite !N.mod_small by done.
    rewrite <- (slice_constant 4 140 l _ Hb ltac:(lia) (ff_total _ _ Hf)).
    rewrite <- (slice_constant 4 184 l _ Hb ltac:(lia) (ff_count _ _ Hf)).
    rewrite <- (slice_constant 2 136 l _ Hb ltac:(lia) (ff_136 _ _ Hf)).
    rewrite <- (slice_constant 2 138 l _ Hb ltac:(lia) (ff_138 _ _ Hf)).
    rewrite <- (ff_magic _ _ Hf), <- (ff_188 _ _ Hf), <- (ff_312 _ _ Hf), <- (ff_352 _ _ Hf), Hob, Hge, Hnl, Hnc, Hi1, Hi2, <- Z1, <- Z2, <- Z3.
    rewrite !le_bytes_slice by (done || lia). done. }
  assert (Himg : mjoin (native_layout p h (take 128 l) (slice 320 32 l) (slice 384 (length l - 384) l)) = l).
  { rewrite Hlay. apply slices_whole. cbn. lia. }
  split_and!; [done|done|rewrite Hcount, <- Hs; lia| |by rewrite Hrest].
  pose proof (ff_digest _ _ Hf) as Hd. rewrite Hrest. rewrite <- Himg in Hd at 1.
  rewrite digest_of_image in Hd; [congruence|done|rewrite length_take; lia|apply length_slice; lia].
Qed.

(** The fields of an image. *)
Lemma image_fields p h header d rest :
  native_sized p -> length header = 128%nat -> length d = 32%nat ->
  let l := mjoin (native_layout p h header d rest) in
  take 128 l = header /\ slice 128 8 l = kNativeMagic /\ slice 136 2 l = le_bytes 2 1 /\ slice 138 2 l = le_bytes 2 256 /\
  slice 140 4 l = le_bytes 4 (u32_cast (384 + kEntryBytes * native_count p)) /\
  slice 144 16 l = uuid_bytes (np_object_uuid p) /\ slice 160 8 l = le_bytes 8 (np_inventory_generation p) /\
  slice 168 8 l = le_bytes 8 (inv_next_local_transaction_id (np_inventory p)) /\
  slice 176 8 l = le_bytes 8 (inv_next_commit_sequence (np_inventory p)) /\
  slice 184 4 l = le_bytes 4 (u32_cast (native_count p)) /\ slice 188 4 l = replicate 4 0 /\
  slice 192 48 l = optional_image (np_previous p) /\ slice 240 48 l = optional_image (np_next p) /\
  slice 288 8 l = le_bytes 8 (h_oldest_interesting_transaction h) /\
  slice 296 8 l = le_bytes 8 (h_oldest_active_transaction h) /\
  slice 304 8 l = le_bytes 8 (h_oldest_snapshot_transaction h) /\ slice 312 8 l = replicate 8 0 /\
  slice 320 32 l = d /\ slice 352 32 l = replicate 32 0.
Proof.
  intros Hp Hh Hd. cbv zeta. pose proof (eq_refl : length kNativeMagic = 8%nat) as Hm.
  pose proof (proj1 (nz_object p Hp)) as Hob. pose proof (length_optional_image _ (nz_previous p Hp)) as Hpr.
  pose proof (length_optional_image _ (nz_next p Hp)) as Hne. unfold native_layout.
  split_and!; [by apply take_app_length'| | | | | | | | | | | | | | | | | |].
  - by slice_field 1%nat. - by slice_field 2%nat. - by slice_field 3%nat. - by slice_field 4%nat. - by slice_field 5%nat.
  - by slice_field 6%nat. - by slice_field 7%nat. - by slice_field 8%nat. - by slice_field 9%nat. - by slice_field 10%nat.
  - by slice_field 11%nat. - by slice_field 12%nat. - by slice_field 13%nat. - by slice_field 14%nat. - by slice_field 15%nat.
  - by slice_field 16%nat. - by slice_field 17%nat. - by slice_field 18%nat.
Qed.

(** Decoding a buffer whose frame and fields are as they should be. *)
Lemma decode_of_parts l capacity validator header count p es h :
  (forall inv, validator inv = ValidateLocalTransactionInventoryStructure inv) ->
  DecodeNativeCommonPageHeader (take 128 l) None = Some (inr header) -> ph_page_type header = 769 ->
  N.of_nat (length l) = ph_page_size_bytes header -> family_framed l count ->
  es = (fun e => (Some (ti_scope (e_identity e)), e)) <$> es.*2 ->
  inventory_read l header count capacity p es h ->
  DecodeInventoryValues sha256 l capacity validator = Some (inr p).
Proof.
  intros Hval Hh Ht Hs Hf Hes Hr. pose proof Hh as Hz. apply decoded_header_size in Hz as [_ Hp].
  pose proof (ff_fits _ _ Hf) as Hl. unfold DecodeInventoryValues. rewrite Hh. cbn [mbind option_bind].
  rewrite decide_False by (intros [X|X]; by apply X). rewrite (ff_digest _ _ Hf). cbn [mbind option_bind].
  rewrite (load_bytes_some 320 32) by lia. cbn [mbind option_bind]. rewrite decide_False by (intros X; by apply X).
  unfold LoadLittle32, LoadLittle16.
  rewrite (load_bytes_some 184 4), (load_bytes_some 128 8), (load_bytes_some 136 2), (load_bytes_some 138 2) by lia.
  cbn [mbind option_bind fmap option_fmap option_map].
  rewrite (ff_count _ _ Hf), (ff_magic _ _ Hf), (ff_136 _ _ Hf), (ff_138 _ _ Hf).
  rewrite decide_False.
  2: { intros [X|[X|[X|X]]]; [by apply X..|]. apply N.lt_nge in X. apply X. apply N.div_le_lower_bound; unfold kEntryBytes; lia. }
  rewrite (load_bytes_some 140 4), (load_bytes_some 188 4), (load_bytes_some 312 8), (load_bytes_some 352 32) by lia.
  rewrite (load_bytes_some (384 + 72 * N.to_nat count)) by lia.
  cbn [mbind option_bind fmap option_fmap option_map].
  rewrite (ff_total _ _ Hf), (ff_188 _ _ Hf), (ff_312 _ _ Hf), (ff_352 _ _ Hf), (ff_rest _ _ Hf), !all_zero_replicate.
  rewrite bool_decide_false by (intros X; by apply X). cbn [negb orb].
  by apply (decode_inventory_of_read l header count capacity validator p es h).
Qed.

Definition plain (es : list TransactionInventoryEntry) : list (option TransactionScope * TransactionInventoryEntry) :=
  (fun e => (Some (ti_scope (e_identity e)), e)) <$> es.

Lemma plain_entries es : (plain es).*2 = es.
Proof. unfold plain. rewrite <- list_fmap_compose. apply list_fmap_id. Qed.

Lemma horizons_u64 inv h :
  is_u64 (inv_next_local_transaction_id inv) -> ProjectValidatedLocalHorizons inv [] = inr h ->
  is_u64 (h_oldest_interesting_transaction h) /\ is_u64 (h_oldest_active_transaction h) /\ is_u64 (h_oldest_snapshot_transaction h).
Proof. intros Hu H. destruct (projection_bounds inv [] h H) as (_ & _ & H1 & H2 & H3 & _). unfold is_u64 in *. split_and!; lia. Qed.

Lemma image_rest p h header d k :
  native_sized p -> length header = 128%nat -> length d = 32%nat ->
  let l := mjoin (native_layout p h header d (native_rest p k)) in
  let n := length (inv_entries (np_inventory p)) in
  length l = (384 + 72 * n + k)%nat /\ slice (384 + 72 * n) (length l - (384 + 72 * n)) l = replicate k 0 /\
  (native_ok p -> decode_entries 384 n l = Some (Some (plain (inv_entries (np_inventory p))))).
Proof.
  intros Hp Hh Hd l n. set (es := inv_entries (np_inventory p)).
  assert (Hu : Forall entry_u64 es) by (eapply Forall_impl; [apply (nz_entries p Hp)|]; by intros e [? _]).
  assert (Hei : length (entries_image es) = (72 * n)%nat).
  { apply length_entries_image. eapply Forall_impl; [exact Hu|]. intros e He. apply (eu_uuid _ He). }
  assert (Hl : length l = (384 + 72 * n + k)%nat).
  { unfold l. rewrite length_native_layout by done. unfold native_rest. fold es. rewrite length_app, length_replicate. lia. }
  pose proof (length_native_front p h header Hp Hh) as Hfr.
  assert (Hsplit : l = (native_front p h header ++ d ++ replicate 32 0) ++ entries_image es ++ replicate k 0).
  { unfold l. rewrite native_split. unfold native_rest. by rewrite <- !app_assoc. }
  assert (Hpre : length (native_front p h header ++ d ++ replicate 32 0) = 384%nat) by (rewrite !length_app, length_replicate; lia).
  split_and!; [done| |].
  - rewrite Hl. replace (384 + 72 * n + k - (384 + 72 * n))%nat with k by lia. rewrite Hsplit, app_assoc.
    unfold slice. rewrite drop_app_length' by (rewrite length_app; lia). apply take_ge. by rewrite length_replicate.
  - intros Hok. rewrite Hsplit, <- Hpre. apply decode_entries_image; [done| |].
    + eapply Forall_impl; [apply (so_entries _ (no_structure p Hok))|]. intros e He. by eapply structure_origin_storable.
    + eapply Forall_impl; [apply (so_entries _ (no_structure p Hok))|]. intros e He. apply (eo_identity _ _ He).
Qed.

Lemma decode_native_complete l capacity validator p :
  (forall inv, validator inv = ValidateLocalTransactionInventoryStructure inv) -> Forall is_byte l ->
  (forall c, capacity = Some c -> native_count p <= c) -> native_sized p -> native_image p l ->
  DecodeInventoryValues sha256 l capacity validator = Some (inr p).
Proof.
  intros Hval Hb Hcap Hp (Hok & h & header & d & k & Hho & He & Hk & Hd & ->).
  destruct (encoded_header _ _ (nz_header p Hp) He) as [Hh _]. pose proof (native_digest_length sha256 Hsize _ _ _ _ _ Hd) as Hdl.
  destruct (frame_facts p (no_frame p Hok)) as (_ & Ht & Hc & Hv1 & Hv2).
  destruct (horizons_u64 _ h (nz_next_local p Hp) Hho) as (U1 & U2 & U3).
  pose proof (digest_of_image sha256 p h header d (native_rest p k) Hp Hh Hdl) as Hdig.
  pose proof (image_fields p h header d (native_rest p k) Hp Hh Hdl) as Hfields.
  pose proof (image_rest p h header d k Hp Hh Hdl) as Hrest. cbv zeta in Hfields, Hrest.
  set (l := mjoin (native_layout p h header d (native_rest p k))) in *.
  destruct Hfields as (F0 & F1 & F2 & F3 & F4 & F5 & F6 & F7 & F8 & F9 & F10 & F11 & F12 & F13 & F14 & F15 & F16 & F17 & F18).
  destruct Hrest as (Hl & Hz & Hes). specialize (Hes Hok).
  assert (Hsz : ph_page_size_bytes (np_header p) < 2 ^ 32) by apply (hz_size _ (nz_header p Hp)).
  assert (Hcnt : native_count p < 2 ^ 32 /\ 384 + kEntryBytes * native_count p < 2 ^ 32).
  { unfold native_count, kEntryBytes in *. lia. }
  eapply (decode_of_parts l capacity validator (np_header p) (native_count p) p (plain (inv_entries (np_inventory p))) h);
    [done| |done|by rewrite Hl| | |].
  - rewrite F0. apply header_codec; [|by split; [apply Hp|]]. rewrite <- F0. by apply Forall_take.
  - unfold native_count. split; rewrite ?Nat2N.id; try done.
    + rewrite Hdig, F17. congruence.
    + by rewrite F2.
    + by rewrite F3.
    + rewrite F9. unfold u32_cast. rewrite N.mod_small by apply Hcnt. by apply u32_of_bytes, Hcnt.
    + lia.
    + rewrite F4. unfold u32_cast. rewrite N.mod_small by apply Hcnt. by apply u32_of_bytes, Hcnt.
    + rewrite Hz, Hl. f_equal. lia.
  - by rewrite plain_entries.
  - split; try done; rewrite ?plain_entries; try done.
    + by rewrite F6, u64_of_bytes by apply Hp.
    + by rewrite F7, u64_of_bytes by apply Hp.
    + by rewrite F8, u64_of_bytes by apply Hp.
    + apply get_optional_image; [apply Hp|lia|done|]. destruct (np_previous p); [by apply Hv1|done].
    + apply get_optional_image; [apply Hp|lia|done|]. destruct (np_next p); [by apply Hv2|done].
    + unfold native_count. by rewrite Nat2N.id.
    + apply (nz_base p Hp).
    + unfold plain. apply Forall_fmap, Forall_true. done.
    + by rewrite F13, u64_of_bytes.
    + by rewrite F14, u64_of_bytes.
    + by rewrite F15, u64_of_bytes.
Qed.
End codec.

(** ** Decoding into borrowed memory *)

Lemma bind_same {A B} (m : option A) (f g : A -> option B) : (forall x, m = Some x -> f x = g x) -> m ≫= f = m ≫= g.
Proof. intros H. destruct m as [x|]; [|reflexivity]. apply H. reflexivity. Qed.

Ltac same_bind := apply bind_same; intros ? ?.

Lemma decode_inventory_borrowed l header count c :
  count <= c ->
  decode_inventory l header count (Some c) ValidateBorrowed =
  decode_inventory l header count None ValidateLocalTransactionInventoryStructure.
Proof.
  intros Hc. unfold decode_inventory. rewrite bool_decide_false by lia.
  do 6 same_bind. apply bind_same. intros [es|] _; [|reflexivity].
  rewrite (parsed_reason_ext ValidateBorrowed ValidateLocalTransactionInventoryStructure) by apply validate_borrowed. reflexivity.
Qed.

Lemma decode_borrowed sha256 l c :
  (forall count, LoadLittle32 184 l = Some count -> count <= (N.of_nat (length l) - 384) / kEntryBytes -> count <= c) ->
  DecodeInventoryValues sha256 l (Some c) ValidateBorrowed =
  DecodeInventoryValues sha256 l None ValidateLocalTransactionInventoryStructure.
Proof.
  intros Hc. unfold DecodeInventoryValues. apply bind_same. intros [e|header] _; [reflexivity|].
  destruct (decide (_ \/ _)); [reflexivity|]. apply bind_same. intros [d|] _; [|reflexivity]. same_bind.
  destruct (decide (_ <> _)); [reflexivity|]. apply bind_same. intros count Hcount. specialize (Hc count Hcount).
  do 3 same_bind. destruct (decide (_ \/ _)) as [|Hf]; [reflexivity|]. do 5 same_bind.
  destruct (_ || _ || _ || _ || _); [reflexivity|]. apply decode_inventory_borrowed, Hc. apply N.le_ngt. intros H'. apply Hf. by do 3 right.
Qed.
