(* ===== verification/FilespacePageZero.v ===== *)
(** * Page zero of a filespace

    Models [storage/disk/filespace_page_zero.{hpp,cpp}]: the first page of a filespace,
    made of the 4096-byte preamble, a common page header, a family header with the
    filespace's capacity, and the directory of root pages; its codec, the guarded reads,
    and the actuator that rewrites the capacity fields when a filespace grows.  The
    translation of host exceptions is left out; SHA-256 is an argument. *)

From S2P Require Import Prelude Platform Bytes PageFrame InventoryPage NativeInventoryPage.

Record FilespaceRootReference := mkRoot {
  rt_kind : N;
  rt_page_type : N;
  rt_filespace_uuid : Uuid;
  rt_page_number : N;
  rt_page_generation : N;
  rt_page_size_profile_uuid : Uuid;
  rt_object_uuid : Uuid }.

Record FilespacePageZero := mkPageZero {
  pz_bootstrap : FilespaceBootstrap;
  pz_page_uuid : Uuid;
  pz_creation_operation_uuid : Uuid;
  pz_writer_identity_uuid : Uuid;
  pz_page_generation : N;
  pz_root_set_generation : N;
  pz_total_pages : N;
  pz_free_pages : N;
  pz_preallocated_pages : N;
  pz_creation_utc_millis : N;
  pz_roots : list FilespaceRootReference }.

Inductive FilespacePageZeroError :=
| pze_none | pze_invalid_bootstrap | pze_invalid_common_header | pze_invalid_family | pze_integrity_mismatch
| pze_hash_provider_failure | pze_invalid_capacity | pze_invalid_root_directory | pze_required_root_missing
| pze_probe_changed | pze_device_not_open | pze_io_failure | pze_resource_exhausted | pze_invalid_backing.

#[export] Instance PageZeroError_eq_dec : EqDecision FilespacePageZeroError.
Proof. solve_decision. Defined.

(** ** Layout *)

Definition common_offset : nat := 4096.
Definition family_offset : nat := common_offset + 128.
Definition digest_offset : nat := family_offset + 224.
Definition directory_offset : nat := family_offset + 256.

(** "SBFZV001" *)
Definition kFamilyMagic : list N := [83; 66; 70; 90; 86; 48; 48; 49].

Definition BootstrapError (e : FilespaceBootstrapError) : FilespacePageZeroError :=
  match e with
  | bte_hash_provider_failure => pze_hash_provider_failure
  | bte_resource_exhausted => pze_resource_exhausted
  | bte_device_not_open => pze_device_not_open
  | bte_io_failure => pze_io_failure
  | _ => pze_invalid_bootstrap
  end.

(** ** Roots *)

Definition root_page_types : list N :=
  [0; 8; 5; 3; 769; 9; 10; 11; 5; 768; 771; 773; 775; 779; 1301; 1030; 1025; 777; 782; 782; 1280; 1280].

Definition CanonicalPageZeroRootPageType (kind : N) : N := default 0 (root_page_types !! N.to_nat kind).

(** Two roots that name one filespace agree on its profile, and on the page when they
    name one page. *)
Definition roots_disagree (a b : FilespaceRootReference) : bool :=
  bool_decide (uuid_bytes (rt_filespace_uuid a) = uuid_bytes (rt_filespace_uuid b)) &&
  (bool_decide (uuid_bytes (rt_page_size_profile_uuid a) <> uuid_bytes (rt_page_size_profile_uuid b)) ||
   (bool_decide (rt_page_number a = rt_page_number b) &&
    bool_decide (rt_page_generation a <> rt_page_generation b \/ rt_page_type a <> rt_page_type b \/
                 uuid_bytes (rt_object_uuid a) <> uuid_bytes (rt_object_uuid b)))).

(** The checks on the root at index [i]; [previous] is the kind before it. *)
Definition root_refused (v : FilespacePageZero) (previous : N) (i : nat) (root : FilespaceRootReference) : bool :=
  let h := pz_bootstrap v in
  let type := CanonicalPageZeroRootPageType (rt_kind root) in
  bool_decide (type = 0) || bool_decide (rt_kind root <= previous) || bool_decide (rt_page_type root <> type) ||
  negb (V7 (rt_filespace_uuid root)) || negb (V7 (rt_object_uuid root)) || bool_decide (rt_page_number root = 0) ||
  bool_decide (rt_page_generation root = 0) ||
  match FindCanonicalFilespacePageProfile (rt_page_size_profile_uuid root) with
  | None => true
  | Some profile =>
    bool_decide (u64_max / cfp_page_size_bytes profile <= rt_page_number root) ||
    bool_decide (BoundedExtentError ((rt_page_number root * cfp_page_size_bytes profile) mod u64_modulus)
                   (cfp_page_size_bytes profile) <> bio_none)
  end ||
  (bool_decide (uuid_bytes (rt_filespace_uuid root) = uuid_bytes (bt_filespace_uuid h)) &&
   (bool_decide (uuid_bytes (rt_page_size_profile_uuid root) <> uuid_bytes (bt_page_size_profile_uuid h)) ||
    bool_decide (pz_total_pages v <= rt_page_number root))) ||
  (bool_decide (rt_kind root = 3) && bool_decide (uuid_bytes (rt_filespace_uuid root) <> uuid_bytes (bt_filespace_uuid h))) ||
  (bool_decide (15 <= rt_kind root <= 17) && negb (N.testbit (bt_flags h) 1)) ||
  existsb (fun p : nat * FilespaceRootReference => bool_decide (p.1 <> i) && roots_disagree root p.2)
    (imap (fun j r => (j, r)) (pz_roots v)).

Fixpoint roots_refused (v : FilespacePageZero) (previous : N) (i : nat) (roots : list FilespaceRootReference) : bool :=
  match roots with
  | [] => false
  | root :: roots => root_refused v previous i root || roots_refused v (rt_kind root) (S i) roots
  end.

Definition root_kinds (roots : list FilespaceRootReference) : N :=
  foldl (fun kinds root => N.lor kinds (N.shiftl 1 (rt_kind root))) 0 roots.

Definition find_root (kind : N) (roots : list FilespaceRootReference) : option FilespaceRootReference :=
  snd <$> list_find (fun r => rt_kind r = kind) roots.

(** The pair of checkpoint roots (kinds 18 and 19). *)
Definition checkpoint_refused (h : FilespaceBootstrap) (first second : FilespaceRootReference) : bool :=
  bool_decide (4 < bt_filespace_role h) || bool_decide (rt_filespace_uuid first <> bt_filespace_uuid h) ||
  bool_decide (rt_filespace_uuid second <> bt_filespace_uuid h) || bool_decide (rt_object_uuid first <> rt_object_uuid second) ||
  bool_decide (rt_page_number first = rt_page_number second).

(** The pair of watermark roots (kinds 20 and 21), beside the checkpoint pair. *)
Definition watermark_refused (h : FilespaceBootstrap) (roots : list FilespaceRootReference)
    (checkpoint first second : FilespaceRootReference) : bool :=
  bool_decide (4 < bt_filespace_role h) || bool_decide (rt_filespace_uuid first <> bt_filespace_uuid h) ||
  bool_decide (rt_filespace_uuid second <> bt_filespace_uuid h) || bool_decide (rt_object_uuid first <> rt_object_uuid second) ||
  bool_decide (rt_object_uuid first = rt_object_uuid checkpoint) || bool_decide (rt_page_number first = rt_page_number second) ||
  existsb (fun r => bool_decide (rt_kind r < 20) && bool_decide (rt_filespace_uuid r = bt_filespace_uuid h) &&
                    bool_decide (rt_page_number r = rt_page_number first \/ rt_page_number r = rt_page_number second)) roots.

Definition required_roots (h : FilespaceBootstrap) : N :=
  if decide (bt_lifecycle_state h = 1 \/ bt_lifecycle_state h = 2) then
    if decide (bt_filespace_role h <= 4) then 1022 else 8
  else 0.

(** The checks after the loop over the roots. *)
Definition root_pairs_error (v : FilespacePageZero) : FilespacePageZeroError :=
  let h := pz_bootstrap v in
  let roots := pz_roots v in
  let missing := if decide (N.land (root_kinds roots) (required_roots h) <> required_roots h)
                 then pze_required_root_missing else pze_none in
  let watermark (checkpoint : option FilespaceRootReference) :=
    match find_root 20 roots, find_root 21 roots with
    | None, None => missing
    | Some first, Some second =>
      match checkpoint with
      | None => pze_required_root_missing
      | Some checkpoint => if watermark_refused h roots checkpoint first second then pze_invalid_root_directory else missing
      end
    | _, _ => pze_required_root_missing
    end in
  match find_root 18 roots, find_root 19 roots with
  | None, None => watermark None
  | Some first, Some second =>
    if checkpoint_refused h first second then pze_invalid_root_directory else watermark (Some first)
  | _, _ => pze_required_root_missing
  end.

Definition ValidatePageZero (v : FilespacePageZero) : FilespacePageZeroError :=
  let h := pz_bootstrap v in
  if decide (ValidateFilespaceBootstrap h None <> bte_none) then pze_invalid_bootstrap
  else if negb (V7 (pz_page_uuid v)) || negb (V7 (pz_creation_operation_uuid v)) || negb (V7 (pz_writer_identity_uuid v)) ||
          bool_decide (pz_page_generation v = 0) || bool_decide (pz_root_set_generation v = 0) then pze_invalid_family
  else if decide (pz_total_pages v = 0 \/ u64_max / bt_page_size_bytes h < pz_total_pages v \/
                  pz_total_pages v <= pz_free_pages v \/ pz_total_pages v - pz_free_pages v <= pz_preallocated_pages v \/
                  BoundedExtentError ((pz_total_pages v * bt_page_size_bytes h) mod u64_modulus) 0 <> bio_none)
  then pze_invalid_capacity
  else if decide (32 < length (pz_roots v))%nat then pze_invalid_root_directory
  else if roots_refused v 0 0 (pz_roots v) then pze_invalid_root_directory
  else root_pairs_error v.

(** ** The common header of page zero *)

Definition page_zero_header (v : FilespacePageZero) : NativeCommonPageHeader :=
  let h := pz_bootstrap v in
  mkPageHeader (bt_page_size_bytes h) (if decide (bt_filespace_role h <= 4) then 1 else 2) (bt_database_uuid h)
    (bt_filespace_uuid h) (pz_page_uuid v) 0 (pz_page_generation v) (N.land (bt_flags h) 2) (bt_page_size_profile_uuid h).

Definition WriteCommon (v : FilespacePageZero) (l : list N) : option (option (list N)) :=
  encoded ← EncodeNativeCommonPageHeader (page_zero_header v);
  match encoded with
  | inl _ => Some None
  | inr bytes => l ← store_bytes common_offset bytes l; Some (Some l)
  end.

(** The page's identifier and generation, when the header fits the preamble. *)
Definition ReadCommon (l : list N) (h : FilespaceBootstrap) : option (option (Uuid * N)) :=
  bytes ← load_bytes common_offset 128 l;
  decoded ← DecodeNativeCommonPageHeader bytes None;
  match decoded with
  | inl _ => Some None
  | inr common =>
    if decide (ph_page_size_bytes common <> bt_page_size_bytes h \/
               ph_page_type common <> (if decide (bt_filespace_role h <= 4) then 1 else 2) \/
               ph_page_number common <> 0 \/ ph_flags common <> N.land (bt_flags h) 2 \/
               uuid_bytes (ph_database_uuid common) <> uuid_bytes (bt_database_uuid h) \/
               uuid_bytes (ph_filespace_uuid common) <> uuid_bytes (bt_filespace_uuid h) \/
               uuid_bytes (ph_page_size_profile_uuid common) <> uuid_bytes (bt_page_size_profile_uuid h))
    then Some None
    else Some (Some (ph_page_uuid common, ph_page_generation common))
  end.

(** ** The codec *)

(** The stores of the family header at [b]. *)
Definition store_zero_family (b : nat) (v : FilespacePageZero) (l : list N) : option (list N) :=
  let h := pz_bootstrap v in
  let count := N.of_nat (length (pz_roots v)) in
  l ← store_bytes b kFamilyMagic l;
  l ← StoreLittle32 (b + 8) 256 l;
  l ← StoreLittle32 (b + 12) (u32_cast count) l;
  l ← StoreLittle64 (b + 16) (256 + 80 * count) l;
  l ← StoreLittle64 (b + 24) (pz_root_set_generation v) l;
  l ← store_bytes (b + 32) (uuid_bytes (bt_database_uuid h)) l;
  l ← store_bytes (b + 48) (uuid_bytes (bt_filespace_uuid h)) l;
  l ← store_bytes (b + 64) (uuid_bytes (bt_page_size_profile_uuid h)) l;
  l ← store_bytes (b + 80) (uuid_bytes (bt_checksum_profile_uuid h)) l;
  l ← store_bytes (b + 96) (uuid_bytes (bt_encryption_profile_uuid h)) l;
  l ← store_bytes (b + 112) (uuid_bytes (pz_page_uuid v)) l;
  l ← StoreLittle32 (b + 128) (bt_page_size_bytes h) l;
  l ← StoreLittle32 (b + 132) (bt_durable_format_generation h) l;
  l ← StoreLittle16 (b + 136) (bt_filespace_role h) l;
  l ← StoreLittle16 (b + 138) (bt_lifecycle_state h) l;
  l ← StoreLittle32 (b + 140) (bt_flags h) l;
  l ← StoreLittle64 (b + 144) (pz_total_pages v) l;
  l ← StoreLittle64 (b + 152) (pz_free_pages v) l;
  l ← StoreLittle64 (b + 160) (pz_preallocated_pages v) l;
  l ← StoreLittle64 (b + 168) (pz_page_generation v) l;
  l ← store_bytes (b + 176) (uuid_bytes (pz_creation_operation_uuid v)) l;
  l ← store_bytes (b + 192) (uuid_bytes (pz_writer_identity_uuid v)) l;
  l ← StoreLittle64 (b + 208) (pz_creation_utc_millis v) l;
  StoreLittle32 (b + 216) 80 l.

Definition store_root (entry : nat) (r : FilespaceRootReference) (l : list N) : option (list N) :=
  l ← StoreLittle16 entry (rt_kind r) l;
  l ← StoreLittle32 (entry + 4) (rt_page_type r) l;
  l ← store_bytes (entry + 8) (uuid_bytes (rt_filespace_uuid r)) l;
  l ← StoreLittle64 (entry + 24) (rt_page_number r) l;
  l ← StoreLittle64 (entry + 32) (rt_page_generation r) l;
  l ← store_bytes (entry + 40) (uuid_bytes (rt_page_size_profile_uuid r)) l;
  store_bytes (entry + 56) (uuid_bytes (rt_object_uuid r)) l.

Fixpoint store_roots (entry : nat) (roots : list FilespaceRootReference) (l : list N) : option (list N) :=
  match roots with
  | [] => Some l
  | r :: roots => l ← store_root entry r l; store_roots (entry + 80) roots l
  end.

(** An inner [None] is an entry with nonzero reserved bytes. *)
Definition load_root (entry : nat) (l : list N) : option (option FilespaceRootReference) :=
  reserved ← LoadLittle16 (entry + 2) l;
  tail ← load_bytes (entry + 72) 8 l;
  if bool_decide (reserved <> 0) || negb (all_zero tail) then Some None
  else
  kind ← LoadLittle16 entry l;
  type ← LoadLittle32 (entry + 4) l;
  filespace ← load_bytes (entry + 8) 16 l;
  number ← LoadLittle64 (entry + 24) l;
  generation ← LoadLittle64 (entry + 32) l;
  profile ← load_bytes (entry + 40) 16 l;
  object ← load_bytes (entry + 56) 16 l;
  Some (Some (mkRoot kind type (mkUuid filespace) number generation (mkUuid profile) (mkUuid object))).

Fixpoint load_roots (entry : nat) (count : nat) (l : list N) : option (option (list FilespaceRootReference)) :=
  match count with
  | O => Some (Some [])
  | S count =>
    r ← load_root entry l;
    match r with
    | None => Some None
    | Some r =>
      rest ← load_roots (entry + 80) count l;
      Some (match rest with Some roots => Some (r :: roots) | None => None end)
    end
  end.

(** The fields of the family header that repeat the preamble and the common header. *)
Definition family_repeats (l : list N) (h : FilespaceBootstrap) (page : Uuid) (generation : N) : option bool :=
  let b := family_offset in
  database ← load_bytes (b + 32) 16 l;
  filespace ← load_bytes (b + 48) 16 l;
  profile ← load_bytes (b + 64) 16 l;
  checksum ← load_bytes (b + 80) 16 l;
  encryption ← load_bytes (b + 96) 16 l;
  page_uuid ← load_bytes (b + 112) 16 l;
  size ← LoadLittle32 (b + 128) l;
  format ← LoadLittle32 (b + 132) l;
  role ← LoadLittle16 (b + 136) l;
  state ← LoadLittle16 (b + 138) l;
  flags ← LoadLittle32 (b + 140) l;
  page_generation ← LoadLittle64 (b + 168) l;
  Some (bool_decide (database = uuid_bytes (bt_database_uuid h) /\ filespace = uuid_bytes (bt_filespace_uuid h) /\
    profile = uuid_bytes (bt_page_size_profile_uuid h) /\ checksum = uuid_bytes (bt_checksum_profile_uuid h) /\
    encryption = uuid_bytes (bt_encryption_profile_uuid h) /\ page_uuid = uuid_bytes page /\
    size = bt_page_size_bytes h /\ format = bt_durable_format_generation h /\ role = bt_filespace_role h /\
    state = bt_lifecycle_state h /\ flags = bt_flags h /\ page_generation = generation)).

Section codec.
Context (sha256 : hash_provider).

Definition FullDigest (l : list N) : option (option (list N)) :=
  front ← load_bytes 0 digest_offset l;
  back ← load_bytes directory_offset (length l - directory_offset) l;
  Some (sha256 (front ++ replicate 32 0 ++ back)).

(** The stores into a cleared page of [size] bytes. *)
Definition encode_page_zero (v : FilespacePageZero) (size : nat) : option (FilespacePageZeroError + list N) :=
  preamble ← EncodeFilespaceBootstrap sha256 (pz_bootstrap v);
  match preamble with
  | inl e => Some (inl (BootstrapError e))
  | inr preamble =>
    l ← store_bytes 0 preamble (replicate size 0);
    common ← WriteCommon v l;
    match common with
    | None => Some (inl pze_invalid_common_header)
    | Some l =>
      l ← store_zero_family family_offset v l;
      l ← store_roots directory_offset (pz_roots v) l;
      digest ← FullDigest l;
      match digest with
      | None => Some (inl pze_hash_provider_failure)
      | Some digest => l ← store_bytes digest_offset digest l; Some (inr l)
      end
    end
  end.

Definition EncodeFilespacePageZeroInto (v : FilespacePageZero) (b : backing) : option (FilespacePageZeroError + list N) :=
  if negb (bk_sound b) then Some (inl pze_invalid_backing)
  else if decide (ValidatePageZero v <> pze_none) then Some (inl (ValidatePageZero v))
  else if decide (bk_output b < bt_page_size_bytes (pz_bootstrap v)) then Some (inl pze_resource_exhausted)
  else encode_page_zero v (N.to_nat (bt_page_size_bytes (pz_bootstrap v))).

(** The owning form encodes into a buffer of its own. *)
Definition EncodeFilespacePageZero (v : FilespacePageZero) : option (FilespacePageZeroError + list N) :=
  if decide (ValidatePageZero v <> pze_none) then Some (inl (ValidatePageZero v))
  else EncodeFilespacePageZeroInto v (mkBacking true 0 0 0 (bt_page_size_bytes (pz_bootstrap v))).

(** The part of the decoder after the preamble and the common header. *)
Definition decode_family (l : list N) (capacity : option N) (h : FilespaceBootstrap) (page : Uuid) (generation : N)
    : option (FilespacePageZeroError + FilespacePageZero) :=
  let b := family_offset in
  count ← LoadLittle32 (b + 12) l;
  magic ← load_bytes b 8 l;
  v8 ← LoadLittle32 (b + 8) l;
  if decide (magic <> kFamilyMagic \/ v8 <> 256 \/ 32 < count) then Some (inl pze_invalid_family)
  else
  v16 ← LoadLittle64 (b + 16) l;
  v216 ← LoadLittle32 (b + 216) l;
  z220 ← load_bytes (b + 220) 4 l;
  rest ← load_bytes (directory_offset + 80 * N.to_nat count) (length l - (directory_offset + 80 * N.to_nat count)) l;
  if bool_decide (v16 <> 256 + 80 * count) || bool_decide (v216 <> 80) || negb (all_zero z220) || negb (all_zero rest)
  then Some (inl pze_invalid_family)
  else
  digest ← FullDigest l;
  match digest with
  | None => Some (inl pze_hash_provider_failure)
  | Some digest =>
    stored_digest ← load_bytes digest_offset 32 l;
    if decide (digest <> stored_digest) then Some (inl pze_integrity_mismatch)
    else
    repeats ← family_repeats l h page generation;
    if negb repeats then Some (inl pze_invalid_family)
    else
    root_set ← LoadLittle64 (b + 24) l;
    total ← LoadLittle64 (b + 144) l;
    free ← LoadLittle64 (b + 152) l;
    preallocated ← LoadLittle64 (b + 160) l;
    creation ← load_bytes (b + 176) 16 l;
    writer ← load_bytes (b + 192) 16 l;
    millis ← LoadLittle64 (b + 208) l;
    if match capacity with Some c => bool_decide (c < count) | None => false end then Some (inl pze_resource_exhausted)
    else
    roots ← load_roots directory_offset (N.to_nat count) l;
    match roots with
    | None => Some (inl pze_invalid_root_directory)
    | Some roots =>
      let v := mkPageZero h page (mkUuid creation) (mkUuid writer) generation root_set total free preallocated millis roots in
      if decide (ValidatePageZero v <> pze_none) then Some (inl (ValidatePageZero v)) else Some (inr v)
    end
  end.

Definition DecodeValues (l : list N) (capacity : option N) (expected : option FilespaceBootstrapBinding)
    : option (FilespacePageZeroError + FilespacePageZero) :=
  if decide (length l < common_offset)%nat then Some (inl pze_invalid_bootstrap)
  else
  prefix ← load_bytes 0 common_offset l;
  preamble ← DecodeFilespaceBootstrap sha256 prefix expected;
  match preamble with
  | inl e => Some (inl (BootstrapError e))
  | inr h =>
    if decide (N.of_nat (length l) <> bt_page_size_bytes h) then Some (inl pze_invalid_capacity)
    else
    common ← ReadCommon l h;
    match common with
    | None => Some (inl pze_invalid_common_header)
    | Some (page, generation) => decode_family l capacity h page generation
    end
  end.

Definition DecodeFilespacePageZero (l : list N) (expected : option FilespaceBootstrapBinding)
    : option (FilespacePageZeroError + FilespacePageZero) :=
  DecodeValues l None expected.

(** [bk_entries] is the number of roots the caller has room for. *)
Definition DecodeFilespacePageZeroInto (l : list N) (b : backing) (expected : option FilespaceBootstrapBinding)
    : option (FilespacePageZeroError + FilespacePageZero) :=
  if negb (bk_sound b) then Some (inl pze_invalid_backing) else DecodeValues l (Some (bk_entries b)) expected.

(** ** Guarded reads *)

Definition ReadFilespacePageZeroFromOpenDevice (device : device_view) (expected : option FilespaceBootstrapBinding)
    : option (FilespacePageZeroError + FilespacePageZero) :=
  probe ← ReadFilespaceBootstrapFromOpenDevice sha256 device expected;
  match probe with
  | inl e => Some (inl (BootstrapError e))
  | inr h =>
    preamble ← EncodeFilespaceBootstrap sha256 h;
    match preamble with
    | inl e => Some (inl (BootstrapError e))
    | inr preamble =>
      let size := bt_page_size_bytes h in
      match dev_size_before device with
      | None => Some (inl pze_io_failure)
      | Some before =>
        if decide (before < size \/ before mod size <> 0) then Some (inl pze_invalid_capacity)
        else match dev_read device 0 (N.to_nat size) with
        | None => Some (inl pze_io_failure)
        | Some bytes =>
          if decide (N.of_nat (length bytes) <> size) then Some (inl pze_io_failure)
          else
          actual ← load_bytes 0 common_offset bytes;
          if decide (preamble <> actual) then Some (inl pze_probe_changed)
          else
          decoded ← DecodeFilespacePageZero bytes expected;
          match decoded with
          | inl e => Some (inl e)
          | inr record =>
            match dev_size_after device with
            | None => Some (inl pze_io_failure)
            | Some after =>
              if decide (before <> after \/ after <> (pz_total_pages record * size) mod u64_modulus)
              then Some (inl pze_invalid_capacity) else Some (inr record)
            end
          end
        end
      end
    end
  end.

Inductive FilespaceExtentRelation := fer_unknown | fer_matching | fer_shorter | fer_longer.

#[export] Instance ExtentRelation_eq_dec : EqDecision FilespaceExtentRelation.
Proof. solve_decision. Defined.

Record FilespacePageZeroRecoveryObservation := mkObservation {
  zo_record : FilespacePageZero;
  zo_declared_bytes : N;
  zo_observed_bytes : N;
  zo_complete_pages : N;
  zo_trailing_bytes : N;
  zo_relation : FilespaceExtentRelation }.

Definition ObserveFilespacePageZeroForRecoveryFromOpenDevice (device : device_view) (expected : FilespaceBootstrapBinding)
    : option (FilespacePageZeroError + FilespacePageZeroRecoveryObservation) :=
  probe ← ReadFilespaceBootstrapFromOpenDevice sha256 device (Some expected);
  match probe with
  | inl e => Some (inl (BootstrapError e))
  | inr h =>
    preamble ← EncodeFilespaceBootstrap sha256 h;
    match preamble with
    | inl e => Some (inl (BootstrapError e))
    | inr preamble =>
      let size := bt_page_size_bytes h in
      match dev_size_before device with
      | None => Some (inl pze_io_failure)
      | Some before =>
        if decide (before < size) then Some (inl pze_invalid_capacity)
        else match dev_read device 0 (N.to_nat size) with
        | None => Some (inl pze_io_failure)
        | Some bytes =>
          if decide (N.of_nat (length bytes) <> size) then Some (inl pze_io_failure)
          else
          actual ← load_bytes 0 common_offset bytes;
          if decide (preamble <> actual) then Some (inl pze_probe_changed)
          else
          decoded ← DecodeFilespacePageZero bytes (Some expected);
          match decoded with
          | inl e => Some (inl e)
          | inr record =>
            match dev_size_after device with
            | None => Some (inl pze_io_failure)
            | Some after =>
              if decide (before <> after) then Some (inl pze_probe_changed)
              else
                let declared := (pz_total_pages record * size) mod u64_modulus in
                Some (inr (mkObservation record declared after (after / size) (after mod size)
                  (if decide (after = declared) then fer_matching else if decide (after < declared) then fer_shorter else fer_longer)))
            end
          end
        end
      end
    end
  end.
End codec.
