(* ===== verification/FilespacePageZeroFacts.v ===== *)
(** * Facts about page zero

    The encoder writes a fixed layout, and the decoder's checks say that its input has
    it.  The size of the preamble stays folded in the proofs. *)

From S2P Require Import Prelude Platform Bytes PageFrame InventoryPage InventoryPageFacts.
From S2P Require Import NativeInventoryPage PageFrameFacts FilespacePageZero.

Lemma common_offset_N : N.of_nat common_offset = 4096.
Proof. reflexivity. Qed.
Lemma common_offset_bytes : common_offset = 4096%nat.
Proof. reflexivity. Qed.
#[global] Opaque common_offset.

(** ** Roots *)

Record root_sized (r : FilespaceRootReference) : Prop := {
  tz_kind : rt_kind r < 2 ^ 16;
  tz_type : rt_page_type r < 2 ^ 32;
  tz_filespace : sized_uuid (rt_filespace_uuid r);
  tz_number : is_u64 (rt_page_number r);
  tz_generation : is_u64 (rt_page_generation r);
  tz_profile : sized_uuid (rt_page_size_profile_uuid r);
  tz_object : sized_uuid (rt_object_uuid r) }.

Definition root_chunks (pre : list N) (r : FilespaceRootReference) (post : list N) : list (list N) :=
  [pre; le_bytes 2 (rt_kind r); replicate 2 0; le_bytes 4 (rt_page_type r); uuid_bytes (rt_filespace_uuid r);
   le_bytes 8 (rt_page_number r); le_bytes 8 (rt_page_generation r); uuid_bytes (rt_page_size_profile_uuid r);
   uuid_bytes (rt_object_uuid r); replicate 8 0; post].

Definition root_image (r : FilespaceRootReference) : list N := mjoin (take 9 (drop 1 (root_chunks [] r []))).

Lemma root_chunks_image pre r post : mjoin (root_chunks pre r post) = pre ++ root_image r ++ post.
Proof. unfold root_image, root_chunks. cbn [take drop mjoin list_join]. by rewrite <- !app_assoc, !app_nil_r. Qed.

Lemma length_root_image r : root_sized r -> length (root_image r) = 80%nat.
Proof.
  intros [_ _ [Hf _] _ _ [Hp _] [Ho _]]. unfold root_image, root_chunks. cbn [take drop mjoin list_join].
  rewrite !length_app, !length_le_bytes, !length_replicate. cbn [length]. lia.
Qed.

Lemma store_root_image pre r k :
  root_sized r -> store_root (length pre) r (pre ++ replicate (80 + k) 0) = Some (pre ++ root_image r ++ replicate k 0).
Proof.
  intros [_ _ [Hf _] _ _ [Hp _] [Ho _]]. rewrite <- root_chunks_image. unfold root_chunks.
  replace (pre ++ replicate (80 + k) 0) with (mjoin (pre :: zero_chunks [2; 2; 4; 16; 8; 8; 16; 16; 8; k]%nat)).
  2: { change (mjoin (pre :: zero_chunks [2; 2; 4; 16; 8; 8; 16; 16; 8; k]%nat))
         with (pre ++ mjoin (zero_chunks [2; 2; 4; 16; 8; 8; 16; 16; 8; k]%nat)).
       rewrite replicate_chunks. f_equal. f_equal. cbn. lia. }
  unfold store_root, StoreLittle64, StoreLittle32, StoreLittle16, zero_chunks. cbn [fmap list_fmap].
  store_field 1%nat. store_field 3%nat. store_field 4%nat. store_field 5%nat. store_field 6%nat. store_field 7%nat. store_field 8%nat.
  done.
Qed.

Definition roots_image (rs : list FilespaceRootReference) : list N := mjoin (root_image <$> rs).

Lemma length_roots_image rs : Forall root_sized rs -> length (roots_image rs) = (80 * length rs)%nat.
Proof.
  induction 1 as [|r rs Hr _ IH]; [done|]. change (roots_image (r :: rs)) with (root_image r ++ roots_image rs).
  rewrite length_app, IH, length_root_image by done. cbn [length]. lia.
Qed.

Lemma store_roots_image pre rs k :
  Forall root_sized rs ->
  store_roots (length pre) rs (pre ++ replicate (80 * length rs + k) 0) = Some (pre ++ roots_image rs ++ replicate k 0).
Proof.
  intros H. revert pre. induction H as [|r rs Hr Hrs IH]; intros pre; [done|]. cbn [store_roots].
  replace (80 * length (r :: rs) + k)%nat with (80 + (80 * length rs + k))%nat by (cbn [length]; lia).
  rewrite store_root_image by done. cbn [mbind option_bind]. rewrite app_assoc.
  replace (length pre + 80)%nat with (length (pre ++ root_image r)) by (rewrite length_app, length_root_image by done; lia).
  rewrite IH. change (roots_image (r :: rs)) with (root_image r ++ roots_image rs). by rewrite <- !app_assoc.
Qed.

Lemma load_root_image pre r post :
  root_sized r -> load_root (length pre) (pre ++ root_image r ++ post) = Some (Some r).
Proof.
  intros [Hk Ht [Hf _] Hn Hg [Hp _] [Ho _]]. rewrite <- root_chunks_image. unfold root_chunks.
  unfold load_root, LoadLittle64, LoadLittle32, LoadLittle16.
  load_field 2%nat. load_field 9%nat. rewrite bool_decide_false by (intros X; by apply X). rewrite all_zero_replicate. cbn [negb orb].
  load_field 1%nat. load_field 3%nat. load_field 4%nat. load_field 5%nat. load_field 6%nat. load_field 7%nat. load_field 8%nat.
  rewrite u16_of_bytes, u32_of_bytes, !u64_of_bytes, !uuid_eta by done. by destruct r.
Qed.

Lemma load_roots_image pre rs post :
  Forall root_sized rs -> load_roots (length pre) (length rs) (pre ++ roots_image rs ++ post) = Some (Some rs).
Proof.
  intros H. revert pre. induction H as [|r rs Hr Hrs IH]; intros pre; [done|]. cbn [load_roots length].
  change (roots_image (r :: rs)) with (root_image r ++ roots_image rs). rewrite <- app_assoc, load_root_image by done.
  cbn [mbind option_bind]. rewrite app_assoc.
  replace (length pre + 80)%nat with (length (pre ++ root_image r)) by (rewrite length_app, length_root_image by done; lia).
  rewrite IH. done.
Qed.

Lemma load_root_in_bounds off l : (off + 80 <= length l)%nat -> is_Some (load_root off l).
Proof.
  intros H. unfold load_root, LoadLittle64, LoadLittle32, LoadLittle16. in_buffer. destruct (_ || _); [by eexists|]. in_buffer. by eexists.
Qed.

Lemma load_roots_in_bounds off n l : (off + 80 * n <= length l)%nat -> is_Some (load_roots off n l).
Proof.
  revert off. induction n as [|n IH]; intros off H; [by eexists|]. cbn [load_roots].
  destruct (load_root_in_bounds off l ltac:(lia)) as [r ->]. cbn [mbind option_bind]. destruct r as [r|]; [|by eexists].
  destruct (IH (off + 80)%nat ltac:(lia)) as [rest ->]. cbn. by eexists.
Qed.

Lemma load_root_canonical off l r :
  Forall is_byte l -> (off + 80 <= length l)%nat -> load_root off l = Some (Some r) ->
  root_image r = slice off 80 l /\ root_sized r.
Proof.
  intros Hb Hl. unfold load_root, LoadLittle64, LoadLittle32, LoadLittle16. in_buffer.
  destruct (_ || _) eqn:Hz; [done|]. apply orb_false_iff in Hz as [H2 H72]. apply bool_decide_eq_false, dec_stable in H2.
  apply negb_false_iff, all_zero_iff in H72. rewrite length_slice in H72 by lia. in_buffer. intros [= <-]. split.
  - unfold root_image, root_chunks. cbn [take drop mjoin list_join rt_kind rt_page_type rt_filespace_uuid rt_page_number
      rt_page_generation rt_page_size_profile_uuid rt_object_uuid uuid_bytes].
    rewrite !le_bytes_slice by (done || lia). rewrite <- H72.
    change (replicate 2 0) with (le_bytes 2 0). rewrite <- (slice_constant 2 (off + 2) l 0) by (done || lia).
    pose proof (slices_join off [2; 2; 4; 16; 8; 8; 16; 16; 8]%nat l) as Hj.
    cbn [slices mjoin list_join sum_list sum_list_with foldr Nat.add] in Hj. 
    rewrite <- !Nat.add_assoc in Hj. cbn [Nat.add] in Hj. exact Hj.
  - split; cbn [rt_kind rt_page_type rt_filespace_uuid rt_page_number rt_page_generation rt_page_size_profile_uuid rt_object_uuid];
      first [apply (le_slice_bound 2); [done|lia]|apply (le_slice_bound 4); [done|lia]|apply (le_slice_bound 8); [done|lia]|
             apply uuid_of_slice; [done|lia]].
Qed.

Lemma load_roots_canonical off n l rs :
  Forall is_byte l -> (off + 80 * n <= length l)%nat -> load_roots off n l = Some (Some rs) ->
  length rs = n /\ roots_image rs = slice off (80 * n) l /\ Forall root_sized rs.
Proof.
  intros Hb. revert off rs. induction n as [|n IH]; intros off rs Hl H; cbn [load_roots] in H.
  { injection H as <-. done. }
  destruct (load_root off l) as [[r|]|] eqn:Hr; [|done..]. cbn [mbind option_bind] in H.
  destruct (load_roots (off + 80) n l) as [[rs'|]|] eqn:Hrs; [|done..]. cbn [mbind option_bind] in H. injection H as <-.
  destruct (load_root_canonical off l r Hb ltac:(lia) Hr) as [Hi Hs]. destruct (IH (off + 80)%nat rs' ltac:(lia) Hrs) as (Hn & Him & Hss).
  split_and!; [cbn; by rewrite Hn| |by constructor].
  change (roots_image (r :: rs')) with (root_image r ++ roots_image rs'). rewrite Hi, Him, slice_cat. f_equal. lia.
Qed.

(** ** The page *)

Record zero_sized (v : FilespacePageZero) : Prop := {
  zz_bootstrap : bootstrap_sized (pz_bootstrap v);
  zz_page : sized_uuid (pz_page_uuid v);
  zz_creation : sized_uuid (pz_creation_operation_uuid v);
  zz_writer : sized_uuid (pz_writer_identity_uuid v);
  zz_generation : is_u64 (pz_page_generation v);
  zz_root_set : is_u64 (pz_root_set_generation v);
  zz_total : is_u64 (pz_total_pages v);
  zz_free : is_u64 (pz_free_pages v);
  zz_preallocated : is_u64 (pz_preallocated_pages v);
  zz_millis : is_u64 (pz_creation_utc_millis v);
  zz_roots : Forall root_sized (pz_roots v) }.

Definition root_count (v : FilespacePageZero) : N := N.of_nat (length (pz_roots v)).

Definition zero_widths (co rest : nat) : list nat :=
  [co; 128; 8; 4; 4; 8; 8; 16; 16; 16; 16; 16; 16; 4; 4; 2; 2; 4; 8; 8; 8; 8; 16; 16; 8; 4; 4; 32; rest]%nat.

Definition zero_layout (v : FilespacePageZero) (preamble common digest rest : list N) : list (list N) :=
  let h := pz_bootstrap v in
  [preamble; common; kFamilyMagic; le_bytes 4 256; le_bytes 4 (u32_cast (root_count v)); le_bytes 8 (256 + 80 * root_count v);
   le_bytes 8 (pz_root_set_generation v); uuid_bytes (bt_database_uuid h); uuid_bytes (bt_filespace_uuid h);
   uuid_bytes (bt_page_size_profile_uuid h); uuid_bytes (bt_checksum_profile_uuid h); uuid_bytes (bt_encryption_profile_uuid h);
   uuid_bytes (pz_page_uuid v); le_bytes 4 (bt_page_size_bytes h); le_bytes 4 (bt_durable_format_generation h);
   le_bytes 2 (bt_filespace_role h); le_bytes 2 (bt_lifecycle_state h); le_bytes 4 (bt_flags h); le_bytes 8 (pz_total_pages v);
   le_bytes 8 (pz_free_pages v); le_bytes 8 (pz_preallocated_pages v); le_bytes 8 (pz_page_generation v);
   uuid_bytes (pz_creation_operation_uuid v); uuid_bytes (pz_writer_identity_uuid v); le_bytes 8 (pz_creation_utc_millis v);
   le_bytes 4 80; replicate 4 0; digest; rest].

Section layout.
Context (v : FilespacePageZero) (Hv : zero_sized v).
Context (co : nat) (preamble common : list N) (Hp : length preamble = co) (Hc : length common = 128%nat).
Let H1 := eq_refl : length kFamilyMagic = 8%nat.
Let H2 := proj1 (bz_database _ (zz_bootstrap v Hv)).
Let H3 := proj1 (bz_filespace _ (zz_bootstrap v Hv)).
Let H4 := proj1 (bz_profile _ (zz_bootstrap v Hv)).
Let H5 := proj1 (bz_checksum _ (zz_bootstrap v Hv)).
Let H6 := proj1 (bz_encryption _ (zz_bootstrap v Hv)).
Let H7 := proj1 (zz_page v Hv).
Let H8 := proj1 (zz_creation v Hv).
Let H9 := proj1 (zz_writer v Hv).

Lemma store_zero_image rest :
  (l ← store_bytes 0 preamble (mjoin (zero_chunks (zero_widths co rest)));
   l ← store_bytes co common l; store_zero_family (co + 128) v l) =
  Some (mjoin (zero_layout v preamble common (replicate 32 0) (replicate rest 0))).
Proof.
  unfold store_zero_family, StoreLittle64, StoreLittle32, StoreLittle16, zero_chunks, zero_widths, zero_layout.
  cbn [fmap list_fmap].
  store_field 0%nat. store_field 1%nat. store_field 2%nat. store_field 3%nat. store_field 4%nat. store_field 5%nat.
  store_field 6%nat. store_field 7%nat. store_field 8%nat. store_field 9%nat. store_field 10%nat. store_field 11%nat.
  store_field 12%nat. store_field 13%nat. store_field 14%nat. store_field 15%nat. store_field 16%nat. store_field 17%nat.
  store_field 18%nat. store_field 19%nat. store_field 20%nat. store_field 21%nat. store_field 22%nat. store_field 23%nat.
  store_field 24%nat. store_field 25%nat. done.
Qed.

Lemma zero_fields digest rest :
  length digest = 32%nat ->
  let l := mjoin (zero_layout v preamble common digest rest) in
  let b := (co + 128)%nat in
  length l = (co + 384 + length rest)%nat /\ slice 0 co l = preamble /\ slice co 128 l = common /\
  slice b 8 l = kFamilyMagic /\ slice (b + 8) 4 l = le_bytes 4 256 /\ slice (b + 12) 4 l = le_bytes 4 (u32_cast (root_count v)) /\
  slice (b + 16) 8 l = le_bytes 8 (256 + 80 * root_count v) /\ slice (b + 24) 8 l = le_bytes 8 (pz_root_set_generation v) /\
  slice (b + 32) 16 l = uuid_bytes (bt_database_uuid (pz_bootstrap v)) /\
  slice (b + 48) 16 l = uuid_bytes (bt_filespace_uuid (pz_bootstrap v)) /\
  slice (b + 64) 16 l = uuid_bytes (bt_page_size_profile_uuid (pz_bootstrap v)) /\
  slice (b + 80) 16 l = uuid_bytes (bt_checksum_profile_uuid (pz_bootstrap v)) /\
  slice (b + 96) 16 l = uuid_bytes (bt_encryption_profile_uuid (pz_bootstrap v)) /\
  slice (b + 112) 16 l = uuid_bytes (pz_page_uuid v) /\
  slice (b + 128) 4 l = le_bytes 4 (bt_page_size_bytes (pz_bootstrap v)) /\
  slice (b + 132) 4 l = le_bytes 4 (bt_durable_format_generation (pz_bootstrap v)) /\
  slice (b + 136) 2 l = le_bytes 2 (bt_filespace_role (pz_bootstrap v)) /\
  slice (b + 138) 2 l = le_bytes 2 (bt_lifecycle_state (pz_bootstrap v)) /\
  slice (b + 140) 4 l = le_bytes 4 (bt_flags (pz_bootstrap v)).
Proof.
  intros Hd. cbv zeta. unfold zero_layout.
  split_and!; [cbn [mjoin list_join]; rewrite !length_app, !length_le_bytes, !length_replicate; cbn [length]; lia|..].
  - by slice_field 0%nat. - by slice_field 1%nat. - by slice_field 2%nat. - by slice_field 3%nat. - by slice_field 4%nat.
  - by slice_field 5%nat. - by slice_field 6%nat. - by slice_field 7%nat. - by slice_field 8%nat. - by slice_field 9%nat.
  - by slice_field 10%nat. - by slice_field 11%nat. - by slice_field 12%nat. - by slice_field 13%nat. - by slice_field 14%nat.
  - by slice_field 15%nat. - by slice_field 16%nat. - by slice_field 17%nat.
Qed.

Lemma zero_fields_rest digest rest :
  length digest = 32%nat ->
  let l := mjoin (zero_layout v preamble common digest rest) in
  let b := (co + 128)%nat in
  slice (b + 144) 8 l = le_bytes 8 (pz_total_pages v) /\ slice (b + 152) 8 l = le_bytes 8 (pz_free_pages v) /\
  slice (b + 160) 8 l = le_bytes 8 (pz_preallocated_pages v) /\ slice (b + 168) 8 l = le_bytes 8 (pz_page_generation v) /\
  slice (b + 176) 16 l = uuid_bytes (pz_creation_operation_uuid v) /\ slice (b + 192) 16 l = uuid_bytes (pz_writer_identity_uuid v) /\
  slice (b + 208) 8 l = le_bytes 8 (pz_creation_utc_millis v) /\ slice (b + 216) 4 l = le_bytes 4 80 /\
  slice (b + 220) 4 l = replicate 4 0 /\ slice (b + 224) 32 l = digest.
Proof.
  intros Hd. cbv zeta. unfold zero_layout. split_and!.
  - by slice_field 18%nat. - by slice_field 19%nat. - by slice_field 20%nat. - by slice_field 21%nat. - by slice_field 22%nat.
  - by slice_field 23%nat. - by slice_field 24%nat. - by slice_field 25%nat. - by slice_field 26%nat. - by slice_field 27%nat.
Qed.
End layout.

(** ** The digest *)

Lemma offsets :
  family_offset = (common_offset + 128)%nat /\ digest_offset = (common_offset + 352)%nat /\
  directory_offset = (common_offset + 384)%nat.
Proof. unfold digest_offset, directory_offset, family_offset. split_and!; lia. Qed.
#[global] Opaque family_offset digest_offset directory_offset.

Definition zero_front (v : FilespacePageZero) (preamble common : list N) : list N :=
  mjoin (take 27 (zero_layout v preamble common [] [])).

Lemma zero_split v preamble common digest rest :
  mjoin (zero_layout v preamble common digest rest) = zero_front v preamble common ++ digest ++ rest.
Proof.
  rewrite (chunk_split 27 (zero_layout v preamble common digest rest) digest eq_refl). unfold zero_front. do 2 f_equal.
  cbn [zero_layout drop mjoin list_join]. by rewrite app_nil_r.
Qed.

Lemma length_zero_front v preamble common :
  zero_sized v -> length preamble = common_offset -> length common = 128%nat ->
  length (zero_front v preamble common) = digest_offset.
Proof.
  intros Hv Hp Hc. destruct (zero_fields v Hv common_offset preamble common Hp Hc (replicate 32 0) [] eq_refl) as (H & _).
  cbv zeta in H. rewrite zero_split, !length_app, length_replicate in H. cbn [length] in H.
  destruct offsets as (_ & -> & _). lia.
Qed.

Section digest.
Context (sha256 : hash_provider) (Hsize : digest_size sha256).

Definition zero_digest (v : FilespacePageZero) (preamble common rest : list N) : option (list N) :=
  sha256 (zero_front v preamble common ++ replicate 32 0 ++ rest).

Lemma digest_at v preamble common digest rest dg dir :
  length (zero_front v preamble common) = dg -> dir = (dg + 32)%nat -> length digest = 32%nat ->
  let l := mjoin (zero_layout v preamble common digest rest) in
  (front ← load_bytes 0 dg l; back ← load_bytes dir (length l - dir) l; Some (sha256 (front ++ replicate 32 0 ++ back))) =
  Some (zero_digest v preamble common rest).
Proof.
  intros Hf -> Hd. cbv zeta. rewrite zero_split. unfold zero_digest. set (f := zero_front v preamble common) in *.
  rewrite (load_bytes_some 0 dg) by (rewrite !length_app; lia). cbn [mbind option_bind].
  rewrite load_bytes_some by (rewrite !length_app; lia). cbn [mbind option_bind].
  assert (E1 : slice 0 dg (f ++ digest ++ rest) = f).
  { rewrite slice_app_l by lia. unfold slice. rewrite drop_0. apply take_ge. lia. }
  assert (E2 : slice (dg + 32) (length (f ++ digest ++ rest) - (dg + 32)) (f ++ digest ++ rest) = rest).
  { unfold slice. rewrite app_assoc, drop_app_length' by (rewrite length_app; lia). apply take_ge. rewrite !length_app. lia. }
  by rewrite E1, E2.
Qed.

Lemma digest_of_zero v preamble common digest rest :
  zero_sized v -> length preamble = common_offset -> length common = 128%nat -> length digest = 32%nat ->
  FullDigest sha256 (mjoin (zero_layout v preamble common digest rest)) = Some (zero_digest v preamble common rest).
Proof.
  intros Hv Hp Hc Hd. apply digest_at; [by apply length_zero_front|destruct offsets as (_ & Ho & Hdo); lia|done].
Qed.

Lemma encode_zero v preamble common k :
  zero_sized v -> length preamble = common_offset -> length common = 128%nat ->
  EncodeFilespaceBootstrap sha256 (pz_bootstrap v) = Some (inr preamble) ->
  EncodeNativeCommonPageHeader (page_zero_header v) = Some (inr common) ->
  encode_page_zero sha256 v (directory_offset + 80 * length (pz_roots v) + k) =
  Some (match zero_digest v preamble common (roots_image (pz_roots v) ++ replicate k 0) with
        | None => inl pze_hash_provider_failure
        | Some d => inr (mjoin (zero_layout v preamble common d (roots_image (pz_roots v) ++ replicate k 0)))
        end).
Proof.
  intros Hv Hp Hc Hep Hec. pose proof (length_zero_front v preamble common Hv Hp Hc) as Hfr.
  unfold encode_page_zero, WriteCommon, FullDigest. rewrite Hep. destruct offsets as (Hfo & Hdg & Hdo). clear Hep. revert Hp Hfr Hfo Hdg Hdo.
  generalize common_offset family_offset digest_offset directory_offset. intros co fo dg dir Hp Hfr -> Hdg ->. cbn [mbind option_bind].
  set (rs := pz_roots v).
  replace (replicate (co + 384 + 80 * length rs + k) 0)
    with (mjoin (zero_chunks (zero_widths co (80 * length rs + k)))).
  2: { rewrite replicate_chunks. f_equal. unfold zero_widths. cbn [sum_list sum_list_with foldr id]. lia. }
  pose proof (store_zero_image v Hv co preamble common Hp Hc (80 * length rs + k)) as Hs.
  destruct (store_bytes 0 preamble _) as [l1|]; [|done]. cbn [mbind option_bind] in *. rewrite Hec. cbn [mbind option_bind].
  destruct (store_bytes co common l1) as [l2|]; [|done]. cbn [mbind option_bind] in *.
  rewrite Hs. cbn [mbind option_bind]. rewrite zero_split.
  set (pre := zero_front v preamble common ++ replicate 32 0).
  replace (zero_front v preamble common ++ replicate 32 0 ++ replicate (80 * length rs + k) 0)
    with (pre ++ replicate (80 * length rs + k) 0) by (unfold pre; by rewrite <- app_assoc).
  assert (Hpre : length pre = (co + 384)%nat).
  { unfold pre. rewrite length_app, length_replicate. lia. }
  rewrite <- Hpre at 1. rewrite store_roots_image by apply (zz_roots v Hv). cbn [mbind option_bind].
  replace (pre ++ roots_image rs ++ replicate k 0)
    with (mjoin (zero_layout v preamble common (replicate 32 0) (roots_image rs ++ replicate k 0)))
    by (rewrite zero_split; unfold pre; by rewrite <- !app_assoc).
  rewrite (digest_at v preamble common (replicate 32 0) _ dg (co + 384)) by (done || lia). cbn [mbind option_bind].
  destruct (zero_digest v preamble common _) as [d|] eqn:Hd; [|done]. apply Hsize in Hd.
  rewrite (store_chunk 27 _ (replicate 32 0) dg d); [done|done| |by rewrite Hd].
  unfold chunk_offset. symmetry. exact Hfr.
Qed.
End digest.

(** ** What the page zero codec accepts

    One relation between a page zero and its image, decided by the encoder and by the
    decoder. *)

(** ** Sizes *)

Lemma bootstrap_page_size h expected :
  ValidateFilespaceBootstrap h expected = bte_none -> 8192 <= bt_page_size_bytes h <= 131072.
Proof.
  unfold ValidateFilespaceBootstrap. destruct (negb _ || negb _); [done|].
  destruct (FindCanonicalFilespacePageProfile (bt_page_size_profile_uuid h)) as [profile|] eqn:Hp; [|done].
  destruct (decide (cfp_page_size_bytes profile <> bt_page_size_bytes h)) as [|Hs]; [done|]. apply dec_stable in Hs.
  intros _. rewrite <- Hs. by eapply profile_size.
Qed.

Lemma validate_unbound h expected :
  ValidateFilespaceBootstrap h expected = bte_none -> ValidateFilespaceBootstrap h None = bte_none.
Proof.
  unfold ValidateFilespaceBootstrap. destruct (negb _ || negb _); [done|].
  destruct (FindCanonicalFilespacePageProfile (bt_page_size_profile_uuid h)) as [profile|]; [|done].
  destruct (decide (cfp_page_size_bytes profile <> _)); [done|]. destruct (decide (_ \/ _)); [done|].
  destruct (decide (N.ldiff _ 3 <> 0)); [done|]. destruct (decide (uuid_bytes _ <> _)); [done|].
  destruct (decide (_ < 1 \/ _)); [done|]. destruct (decide (_ < 1 \/ 15 < _)); [done|]. by destruct (negb _).
Qed.

Lemma land_two_u64 n : is_u64 (N.land n 2).
Proof.
  unfold is_u64, u64_modulus. destruct (N.testbit n 1) eqn:Ht.
  - replace (N.land n 2) with 2; [done|]. apply N.bits_inj. intros i. rewrite N.land_spec. change 2 with (2 ^ 1).
    rewrite N.pow2_bits_eqb. destruct (N.eqb_spec 1 i) as [<-|]; [by rewrite Ht|by rewrite andb_false_r].
  - replace (N.land n 2) with 0; [done|]. apply N.bits_inj. intros i. rewrite N.land_spec, N.bits_0. change 2 with (2 ^ 1).
    rewrite N.pow2_bits_eqb. destruct (N.eqb_spec 1 i) as [<-|]; [by rewrite Ht|by rewrite andb_false_r].
Qed.

Lemma zero_header_sized v : zero_sized v -> header_sized (page_zero_header v).
Proof.
  intros [[Hd Hf Hp _ _ Hs _ _ _ _] Hpg _ _ Hg _ _ _ _ _ _]. unfold page_zero_header.
  split; cbn [ph_page_size_bytes ph_page_type ph_database_uuid ph_filespace_uuid ph_page_uuid ph_page_number ph_page_generation
    ph_flags ph_page_size_profile_uuid]; try done; [|apply land_two_u64]. by case_decide.
Qed.

Section codec.
Context (sha256 : hash_provider) (Hsize : digest_size sha256).

Lemma encoded_preamble h preamble :
  bootstrap_sized h -> EncodeFilespaceBootstrap sha256 h = Some (inr preamble) ->
  length preamble = common_offset /\ ValidateFilespaceBootstrap h None = bte_none.
Proof.
  intros Hh He. rewrite (encode_bootstrap sha256 Hsize) in He by done. case_decide as Hv; [done|].
  destruct (sha256 (bootstrap_covered h)) as [d|] eqn:Hd; [|done]. injection He as <-.
  split; [|done]. rewrite common_offset_bytes. apply (bf_length sha256), (bootstrap_image_framed sha256 Hsize h d Hh Hd).
Qed.

Definition zero_rest (v : FilespacePageZero) (k : nat) : list N := roots_image (pz_roots v) ++ replicate k 0.

Definition zero_image (v : FilespacePageZero) (l : list N) : Prop :=
  ValidatePageZero v = pze_none /\ exists preamble common d k,
    EncodeFilespaceBootstrap sha256 (pz_bootstrap v) = Some (inr preamble) /\
    EncodeNativeCommonPageHeader (page_zero_header v) = Some (inr common) /\
    N.of_nat (directory_offset + 80 * length (pz_roots v) + k) = bt_page_size_bytes (pz_bootstrap v) /\
    zero_digest sha256 v preamble common (zero_rest v k) = Some d /\
    l = mjoin (zero_layout v preamble common d (zero_rest v k)).

Lemma validated_zero v :
  ValidatePageZero v = pze_none ->
  ValidateFilespaceBootstrap (pz_bootstrap v) None = bte_none /\ (length (pz_roots v) <= 32)%nat.
Proof.
  unfold ValidatePageZero. cbv zeta. destruct (decide (_ <> bte_none)) as [|Hb]; [done|]. apply dec_stable in Hb.
  destruct (_ || _ || _ || _ || _); [done|]. destruct (decide (_ \/ _)); [done|]. destruct (decide (32 < _)%nat); [done|].
  intros _. split; [done|lia].
Qed.

Lemma zero_padding v :
  ValidatePageZero v = pze_none ->
  exists k, N.of_nat (directory_offset + 80 * length (pz_roots v) + k) = bt_page_size_bytes (pz_bootstrap v).
Proof.
  intros H. apply validated_zero in H as [Hb Hr]. apply bootstrap_page_size in Hb.
  exists (N.to_nat (bt_page_size_bytes (pz_bootstrap v)) - (directory_offset + 80 * length (pz_roots v)))%nat.
  pose proof common_offset_N. destruct offsets as (_ & _ & ->). lia.
Qed.

Lemma encode_page_zero_page v :
  zero_sized v ->
  exists r, EncodeFilespacePageZero sha256 v = Some r /\ forall l, r = inr l <-> zero_image v l.
Proof.
  intros Hv. unfold EncodeFilespacePageZero, EncodeFilespacePageZeroInto. cbn [bk_sound bk_output negb].
  destruct (decide (ValidatePageZero v <> pze_none)) as [Hn|Hn].
  { eexists. split; [done|]. intros l. split; [done|]. by intros [? _]. }
  apply dec_stable in Hn. rewrite decide_False by lia. destruct (zero_padding v Hn) as [k Hk]. rewrite <- Hk, Nat2N.id.
  destruct (EncodeFilespaceBootstrap sha256 (pz_bootstrap v)) as [[e|preamble]|] eqn:Hp.
  3: { exfalso. rewrite (encode_bootstrap sha256 Hsize) in Hp by apply Hv. case_decide; [done|]. by destruct (sha256 _). }
  { eexists. split; [unfold encode_page_zero; rewrite Hp; reflexivity|]. intros l. split; [done|].
    intros (_ & preamble & ? & ? & ? & E & _). congruence. }
  destruct (encoded_preamble _ _ (zz_bootstrap v Hv) Hp) as [Hpl _]. pose proof (encode_header _ (zero_header_sized v Hv)) as Hh.
  destruct (decide (encode_error (page_zero_header v) <> phe_none)) as [He|He].
  { assert (Hst : exists l1, store_bytes 0 preamble (replicate (directory_offset + 80 * length (pz_roots v) + k) 0) = Some l1).
    { eexists. apply store_bytes_some. rewrite length_replicate. destruct offsets as (_ & _ & ->). lia. }
    destruct Hst as [l1 Hl1]. eexists. split.
    - unfold encode_page_zero, WriteCommon. rewrite Hp. cbn [mbind option_bind]. rewrite Hl1. cbn [mbind option_bind].
      rewrite Hh. reflexivity.
    - intros l. split; [done|]. intros (_ & ? & common & ? & ? & _ & E & _). congruence. }
  destruct (encoded_header _ _ (zero_header_sized v Hv) Hh) as [Hcl _].
  rewrite (encode_zero sha256 Hsize v preamble (header_image (page_zero_header v)) k Hv Hpl Hcl Hp Hh).
  eexists. split; [reflexivity|]. intros l. change (roots_image (pz_roots v) ++ replicate k 0) with (zero_rest v k). split.
  - destruct (zero_digest _ _ _ _ _) as [d|] eqn:Hd; [|done]. intros [= <-]. split; [done|].
    by exists preamble, (header_image (page_zero_header v)), d, k.
  - intros (_ & preamble' & common' & d & k' & E1 & E2 & E3 & E4 & ->).
    assert (k' = k) as -> by lia. assert (preamble' = preamble) as -> by congruence.
    assert (common' = header_image (page_zero_header v)) as -> by congruence. by rewrite E4.
Qed.

(** ** Decoding *)

Lemma decoded_preamble l expected h :
  DecodeFilespaceBootstrap sha256 l expected = Some (inr h) ->
  length l = common_offset /\ DecodeFilespaceBootstrap sha256 l None = Some (inr h) /\ 8192 <= bt_page_size_bytes h <= 131072.
Proof.
  intros H. destruct (decode_bootstrap_iff sha256 l expected) as (r & Hr & Hiff). rewrite Hr in H. injection H as ->.
  destruct (proj1 (Hiff h) eq_refl) as (Hf & -> & Hv). split; [|split].
  - rewrite common_offset_bytes. apply Hf.
  - destruct (decode_bootstrap_iff sha256 l None) as (r & -> & Hn). f_equal. apply Hn. split_and!; [done|done|].
    by apply (validate_unbound _ expected).
  - by apply (bootstrap_page_size _ expected).
Qed.

Lemma decode_preamble_total l expected : is_Some (DecodeFilespaceBootstrap sha256 l expected).
Proof. destruct (decode_bootstrap_iff sha256 l expected) as (r & -> & _). by eexists. Qed.

(** What a successful reading of the common header says. *)
Lemma read_common l h r :
  (common_offset + 128 <= length l)%nat -> ReadCommon l h = Some r ->
  forall page generation, r = Some (page, generation) ->
    exists common, DecodeNativeCommonPageHeader (slice common_offset 128 l) None = Some (inr common) /\
      page = ph_page_uuid common /\ generation = ph_page_generation common /\
      ph_page_size_bytes common = bt_page_size_bytes h /\ ph_page_type common = (if decide (bt_filespace_role h <= 4) then 1 else 2) /\
      ph_page_number common = 0 /\ ph_flags common = N.land (bt_flags h) 2 /\
      uuid_bytes (ph_database_uuid common) = uuid_bytes (bt_database_uuid h) /\
      uuid_bytes (ph_filespace_uuid common) = uuid_bytes (bt_filespace_uuid h) /\
      uuid_bytes (ph_page_size_profile_uuid common) = uuid_bytes (bt_page_size_profile_uuid h).
Proof.
  unfold ReadCommon. generalize common_offset. intros co Hl H page generation ->.
  rewrite load_bytes_some in H by done. cbn [mbind option_bind] in H.
  destruct (DecodeNativeCommonPageHeader _ None) as [[|common]|]; [done| |done]. cbn [mbind option_bind] in H.
  destruct (decide (_ \/ _)) as [|Hc]; [done|]. injection H as <- <-. exists common.
  apply Decidable.not_or in Hc as [C1 Hc]. apply Decidable.not_or in Hc as [C2 Hc]. apply Decidable.not_or in Hc as [C3 Hc].
  apply Decidable.not_or in Hc as [C4 Hc]. apply Decidable.not_or in Hc as [C5 Hc]. apply Decidable.not_or in Hc as [C6 C7].
  apply dec_stable in C1, C2, C3, C4, C5, C6, C7. split_and!; done.
Qed.

Lemma read_common_total l h : (common_offset + 128 <= length l)%nat -> is_Some (ReadCommon l h).
Proof.
  unfold ReadCommon. generalize common_offset. intros co Hl. rewrite load_bytes_some by done. cbn [mbind option_bind].
  destruct (decode_header_iff (slice co 128 l) None) as (r & -> & _). cbn [mbind option_bind].
  destruct r; [by eexists|]. case_decide; by eexists.
Qed.

(** The reserved bytes, constants, digest and repeated fields of a page whose family
    header, digest and directory are at [fo], [dg] and [dir]. *)
Record zero_framed (fo dg dir : nat) (l : list N) (count : N) (v : FilespacePageZero) : Prop := {
  zf_fits : (dir + 80 * N.to_nat count <= length l)%nat;
  zf_count : le_value (slice (fo + 12) 4 l) = count;
  zf_magic : slice fo 8 l = kFamilyMagic;
  zf_8 : le_value (slice (fo + 8) 4 l) = 256;
  zf_16 : le_value (slice (fo + 16) 8 l) = 256 + 80 * count;
  zf_216 : le_value (slice (fo + 216) 4 l) = 80;
  zf_220 : slice (fo + 220) 4 l = replicate 4 0;
  zf_rest : slice (dir + 80 * N.to_nat count) (length l - (dir + 80 * N.to_nat count)) l =
            replicate (length l - (dir + 80 * N.to_nat count)) 0;
  zf_digest : FullDigest sha256 l = Some (Some (slice dg 32 l));
  zf_repeats : family_repeats l (pz_bootstrap v) (pz_page_uuid v) (pz_page_generation v) = Some true;
  zf_root_set : pz_root_set_generation v = le_value (slice (fo + 24) 8 l);
  zf_total : pz_total_pages v = le_value (slice (fo + 144) 8 l);
  zf_free : pz_free_pages v = le_value (slice (fo + 152) 8 l);
  zf_preallocated : pz_preallocated_pages v = le_value (slice (fo + 160) 8 l);
  zf_creation : uuid_bytes (pz_creation_operation_uuid v) = slice (fo + 176) 16 l;
  zf_writer : uuid_bytes (pz_writer_identity_uuid v) = slice (fo + 192) 16 l;
  zf_millis : pz_creation_utc_millis v = le_value (slice (fo + 208) 8 l);
  zf_roots : load_roots dir (N.to_nat count) l = Some (Some (pz_roots v));
  zf_valid : ValidatePageZero v = pze_none }.

Lemma count_room (l : list N) : 8192 <= N.of_nat (length l) -> (directory_offset + 80 * 32 <= length l)%nat.
Proof. intros H. pose proof common_offset_N. destruct offsets as (_ & _ & ->). lia. Qed.

(** Works on the offsets as variables that satisfy their equations. *)
Ltac abstract_offsets :=
  let H := fresh in pose proof offsets as H; revert H;
  generalize common_offset family_offset digest_offset directory_offset;
  let co := fresh "co" in let fo := fresh "fo" in let dg := fresh "dg" in let dir := fresh "dir" in
  intros co fo dg dir (? & ? & ?).
Ltac zero_loads := repeat (rewrite load_bytes_some by lia; cbn [mbind option_bind fmap option_fmap option_map]).

Lemma family_repeats_total l h page generation :
  (directory_offset <= length l)%nat -> is_Some (family_repeats l h page generation).
Proof. unfold family_repeats, LoadLittle64, LoadLittle32, LoadLittle16. abstract_offsets. intros Hl. zero_loads. by eexists. Qed.

Lemma full_digest_total l : (directory_offset <= length l)%nat -> is_Some (FullDigest sha256 l).
Proof. unfold FullDigest. abstract_offsets. intros Hl. zero_loads. by eexists. Qed.

Ltac refused := eexists; split; [reflexivity|]; intros ? X; discriminate X.

Lemma decode_family_inv l capacity h page generation :
  (directory_offset + 80 * 32 <= length l)%nat ->
  exists r, decode_family sha256 l capacity h page generation = Some r /\
    (forall v, r = inr v -> (pz_bootstrap v = h /\ pz_page_uuid v = page /\ pz_page_generation v = generation) /\
       exists count, zero_framed family_offset digest_offset directory_offset l count v).
Proof.
  intros Hl. pose proof (full_digest_total l ltac:(lia)) as Hdig. pose proof (family_repeats_total l h page generation ltac:(lia)) as Hreps.
  revert Hl. unfold decode_family, LoadLittle64, LoadLittle32. abstract_offsets. intros Hl.
  rewrite (load_bytes_some (fo + 12) 4), (load_bytes_some fo 8), (load_bytes_some (fo + 8) 4) by lia.
  cbn [mbind option_bind fmap option_fmap option_map]. remember (le_value (slice (fo + 12) 4 l)) as count eqn:Hcount.
  destruct (decide (_ \/ _)) as [|Hm]; [refused|]. apply Decidable.not_or in Hm as [Hm H8]. apply Decidable.not_or in H8 as [H8 Hc].
  apply dec_stable in Hm, H8. assert (Hfit : (dir + 80 * N.to_nat count <= length l)%nat) by lia. clear Hc Hl.
  zero_loads. destruct (_ || _ || _ || _) eqn:Hz; [refused|]. apply orb_false_iff in Hz as [Hz Z4].
  apply orb_false_iff in Hz as [Hz Z3]. apply orb_false_iff in Hz as [Z1 Z2]. apply bool_decide_eq_false, dec_stable in Z1, Z2.
  apply negb_false_iff, all_zero_iff in Z3, Z4. rewrite length_slice in Z3, Z4 by lia.
  destruct Hdig as [[d|] Hd]; rewrite Hd; cbn [mbind option_bind]; [|refused].
  zero_loads. destruct (decide (d <> _)) as [|He]; [refused|]. apply dec_stable in He. subst d.
  destruct Hreps as [rep Hrep]. rewrite Hrep. cbn [mbind option_bind]. destruct rep; cbn [negb]; [|refused]. zero_loads.
  destruct (match capacity with Some _ => _ | None => _ end); [refused|].
  destruct (load_roots_in_bounds dir (N.to_nat count) l Hfit) as [rs Hrs]. rewrite Hrs. cbn [mbind option_bind].
  destruct rs as [rs|]; [|refused]. destruct (decide (ValidatePageZero _ <> pze_none)) as [|Hv]; [refused|]. apply dec_stable in Hv.
  eexists. split; [reflexivity|]. intros v [= <-]. split; [done|]. exists count. by split.
Qed.

Definition repeated (fo : nat) (l : list N) (h : FilespaceBootstrap) (page : Uuid) (generation : N) : Prop :=
  slice (fo + 32) 16 l = uuid_bytes (bt_database_uuid h) /\ slice (fo + 48) 16 l = uuid_bytes (bt_filespace_uuid h) /\
  slice (fo + 64) 16 l = uuid_bytes (bt_page_size_profile_uuid h) /\ slice (fo + 80) 16 l = uuid_bytes (bt_checksum_profile_uuid h) /\
  slice (fo + 96) 16 l = uuid_bytes (bt_encryption_profile_uuid h) /\ slice (fo + 112) 16 l = uuid_bytes page /\
  le_value (slice (fo + 128) 4 l) = bt_page_size_bytes h /\ le_value (slice (fo + 132) 4 l) = bt_durable_format_generation h /\
  le_value (slice (fo + 136) 2 l) = bt_filespace_role h /\ le_value (slice (fo + 138) 2 l) = bt_lifecycle_state h /\
  le_value (slice (fo + 140) 4 l) = bt_flags h /\ le_value (slice (fo + 168) 8 l) = generation.

Lemma family_repeats_iff l h page generation :
  (directory_offset <= length l)%nat ->
  family_repeats l h page generation = Some true <-> repeated family_offset l h page generation.
Proof.
  unfold family_repeats, LoadLittle64, LoadLittle32, LoadLittle16. abstract_offsets. intros Hl. zero_loads. unfold repeated. split.
  - intros [= Hr]. by apply bool_decide_eq_true in Hr.
  - intros Hr. f_equal. by apply bool_decide_eq_true.
Qed.

Lemma read_common_room l h : (directory_offset + 80 * 32 <= length l)%nat -> is_Some (ReadCommon l h).
Proof. intros Hl. apply read_common_total. destruct offsets as (_ & _ & ?). lia. Qed.

Lemma decode_zero_total l capacity expected : is_Some (DecodeValues sha256 l capacity expected).
Proof.
  unfold DecodeValues. generalize common_offset. intros co. destruct (decide (length l < co)%nat) as [|Hl]; [by eexists|].
  rewrite load_bytes_some by lia. cbn [mbind option_bind].
  destruct (decode_preamble_total (slice 0 co l) expected) as [r Hr]. rewrite Hr. cbn [mbind option_bind].
  destruct r as [e|h]; [by eexists|]. apply decoded_preamble in Hr as (_ & _ & Hs).
  destruct (decide (N.of_nat (length l) <> _)) as [|Hsz]; [by eexists|]. apply dec_stable in Hsz.
  assert (Hroom : (directory_offset + 80 * 32 <= length l)%nat) by (apply count_room; lia).
  destruct (read_common_room l h Hroom) as [c ->]. cbn [mbind option_bind].
  destruct c as [[page generation]|]; [|by eexists].
  destruct (decode_family_inv l capacity h page generation Hroom) as (r & -> & _). by eexists.
Qed.

Lemma decode_zero_inv l capacity expected v :
  DecodeValues sha256 l capacity expected = Some (inr v) ->
  DecodeFilespaceBootstrap sha256 (slice 0 common_offset l) expected = Some (inr (pz_bootstrap v)) /\
  N.of_nat (length l) = bt_page_size_bytes (pz_bootstrap v) /\ (directory_offset + 80 * 32 <= length l)%nat /\
  ReadCommon l (pz_bootstrap v) = Some (Some (pz_page_uuid v, pz_page_generation v)) /\
  exists count, zero_framed family_offset digest_offset directory_offset l count v.
Proof.
  unfold DecodeValues. generalize common_offset. intros co. destruct (decide (length l < co)%nat) as [|Hl]; [done|].
  rewrite load_bytes_some by lia. cbn [mbind option_bind].
  destruct (DecodeFilespaceBootstrap sha256 (slice 0 co l) expected) as [[e|h]|] eqn:Hr; [done| |done]. cbn [mbind option_bind].
  pose proof Hr as Hd. apply decoded_preamble in Hd as (_ & _ & Hs).
  destruct (decide (N.of_nat (length l) <> _)) as [|Hsz]; [done|]. apply dec_stable in Hsz.
  assert (Hroom : (directory_offset + 80 * 32 <= length l)%nat) by (apply count_room; lia).
  destruct (ReadCommon l h) as [[[page generation]|]|] eqn:Hc; [|done..]. cbn [mbind option_bind].
  destruct (decode_family_inv l capacity h page generation Hroom) as (r & -> & Hinv). intros [= ->].
  destruct (Hinv v eq_refl) as ((<- & <- & <-) & Hf). done.
Qed.

Lemma uuid_bytes_inj u w : uuid_bytes u = uuid_bytes w -> u = w.
Proof. destruct u, w. cbn. by intros ->. Qed.

(** The header read is the header page zero has. *)
Lemma read_header l v :
  (common_offset + 128 <= length l)%nat -> Forall is_byte l ->
  ReadCommon l (pz_bootstrap v) = Some (Some (pz_page_uuid v, pz_page_generation v)) ->
  EncodeNativeCommonPageHeader (page_zero_header v) = Some (inr (slice common_offset 128 l)) /\
  header_sized (page_zero_header v).
Proof.
  intros Hl Hb H. destruct (read_common l _ _ Hl H _ _ eq_refl) as (common & Hd & C1 & C2 & C3 & C4 & C5 & C6 & C7 & C8 & C9).
  apply uuid_bytes_inj in C7, C8, C9.
  assert (page_zero_header v = common) as ->.
  { unfold page_zero_header. destruct common. cbn in *. congruence. }
  apply header_codec in Hd as [Hz He]; [done|by apply slice_bytes].
Qed.

Lemma slice_at a b n (l : list N) : a = b -> slice a n l = slice b n l.
Proof. by intros ->. Qed.

(** The image from the frame, at any offsets in the right distances. *)
Lemma framed_layout co l count v :
  zero_framed (co + 128) (co + 352) (co + 384) l count v -> repeated (co + 128) l (pz_bootstrap v) (pz_page_uuid v) (pz_page_generation v) ->
  Forall is_byte l ->
  mjoin (zero_layout v (slice 0 co l) (slice co 128 l) (slice (co + 352) 32 l)
           (zero_rest v (length l - (co + 384 + 80 * N.to_nat count)))) = l /\
  length (pz_roots v) = N.to_nat count /\ Forall root_sized (pz_roots v).
Proof.
  intros [Hfit Hco Hmg H8 H16 H216 H220 Hrest _ _ Hrs Hto Hfr Hpa Hcr Hwr Hmi Hro _] (R1 & R2 & R3 & R4 & R5 & R6 & R7 & R8 & R9 & R10 & R11 & R12) Hb.
  destruct (load_roots_canonical (co + 384) (N.to_nat count) l _ Hb Hfit Hro) as (Hn & Him & Hz). split; [|done].
  assert (Hr : zero_rest v (length l - (co + 384 + 80 * N.to_nat count)) = slice (co + 384) (length l - (co + 384)) l).
  { unfold zero_rest. rewrite Him, <- Hrest, slice_cat. f_equal. lia. }
  rewrite Hr.
  assert (Hlay : zero_layout v (slice 0 co l) (slice co 128 l) (slice (co + 352) 32 l) (slice (co + 384) (length l - (co + 384)) l) =
                 slices 0 (zero_widths co (length l - (co + 384))) l).
  { unfold zero_layout, zero_widths, root_count. cbn [slices]. rewrite Hn, N2Nat.id.
    assert (Hu : 256 + 80 * count < 2 ^ 64) by (rewrite <- H16; apply (le_slice_bound 8); [done|lia]).
    assert (Hu' : count < 2 ^ 32) by (rewrite <- Hco; apply (le_slice_bound 4); [done|lia]).
    unfold u32_cast. rewrite N.mod_small by done.
    rewrite <- (slice_constant 4 (co + 128 + 12) l _ Hb ltac:(lia) Hco), <- (slice_constant 4 (co + 128 + 8) l _ Hb ltac:(lia) H8).
    rewrite <- (slice_constant 8 (co + 128 + 16) l _ Hb ltac:(lia) H16), <- (slice_constant 4 (co + 128 + 216) l _ Hb ltac:(lia) H216).
    rewrite <- Hmg, <- H220, <- R1, <- R2, <- R3, <- R4, <- R5, <- R6, <- R7, <- R8, <- R9, <- R10, <- R11, <- R12, Hcr, Hwr, Hto, Hfr, Hpa, Hrs, Hmi.
    rewrite !le_bytes_slice by (done || lia). repeat (apply f_equal2; [apply slice_at; lia|]). reflexivity. }
  rewrite Hlay. apply slices_whole. unfold zero_widths. cbn [sum_list sum_list_with foldr id]. lia.
Qed.

Lemma decode_zero_sound l capacity expected v :
  Forall is_byte l -> DecodeValues sha256 l capacity expected = Some (inr v) -> zero_sized v /\ zero_image v l.
Proof.
  intros Hb H. apply decode_zero_inv in H as (Hp & Hs & Hroom & Hc & count & Hf).
  pose proof offsets as (Hfo & Hdg & Hdo). apply decoded_preamble in Hp as (Hpl & Hp & _).
  apply (bootstrap_canonical sha256 Hsize) in Hp as [Hbz Hpe]; [|by apply slice_bytes].
  destruct (read_header l v ltac:(lia) Hb Hc) as [Hce Hhz].
  pose proof (zf_repeats _ _ _ _ _ _ Hf) as Hrep. apply family_repeats_iff in Hrep; [|lia]. rewrite Hfo in Hrep.
  pose proof Hf as Hf'. rewrite Hfo, Hdg, Hdo in Hf'. destruct (framed_layout common_offset l count v Hf' Hrep Hb) as (Himg & Hn & Hrz).
  pose proof (zf_fits _ _ _ _ _ _ Hf') as Hfit.
  assert (Hv : zero_sized v).
  { split; try done; rewrite ?(zf_root_set _ _ _ _ _ _ Hf), ?(zf_total _ _ _ _ _ _ Hf), ?(zf_free _ _ _ _ _ _ Hf),
      ?(zf_preallocated _ _ _ _ _ _ Hf), ?(zf_millis _ _ _ _ _ _ Hf); try (apply (le_slice_bound 8); [done|lia]).
    - apply (hz_page _ Hhz).
    - split; rewrite (zf_creation _ _ _ _ _ _ Hf); [apply length_slice; lia|by apply slice_bytes].
    - split; rewrite (zf_writer _ _ _ _ _ _ Hf); [apply length_slice; lia|by apply slice_bytes].
    - apply (hz_generation _ Hhz). }
  split; [done|]. split; [apply (zf_valid _ _ _ _ _ _ Hf)|].
  exists (slice 0 common_offset l), (slice common_offset 128 l), (slice digest_offset 32 l),
    (length l - (common_offset + 384 + 80 * N.to_nat count))%nat.
  split_and!; [done|done|rewrite Hn, <- Hs; lia| |by rewrite Hdg].
  pose proof (zf_digest _ _ _ _ _ _ Hf) as Hd. rewrite <- Himg in Hd at 1.
  rewrite digest_of_zero in Hd; [congruence|done|done|apply length_slice; lia|apply length_slice; lia].
Qed.

Lemma decode_family_of l capacity count v :
  (forall c, capacity = Some c -> count <= c) -> count <= 32 ->
  zero_framed family_offset digest_offset directory_offset l count v ->
  decode_family sha256 l capacity (pz_bootstrap v) (pz_page_uuid v) (pz_page_generation v) = Some (inr v).
Proof.
  intros Hcap Hc. unfold decode_family, LoadLittle64, LoadLittle32. abstract_offsets.
  intros [Hfit Hco Hmg H8 H16 H216 H220 Hrest Hdig Hrep Hrs Hto Hfr Hpa Hcr Hwr Hmi Hro Hva].
  rewrite (load_bytes_some (fo + 12) 4), (load_bytes_some fo 8), (load_bytes_some (fo + 8) 4) by lia.
  cbn [mbind option_bind fmap option_fmap option_map]. rewrite Hco, Hmg, H8.
  rewrite decide_False by (intros [X|[X|X]]; [by apply X|by apply X|lia]). zero_loads.
  rewrite H16, H216, H220, Hrest, !all_zero_replicate. rewrite !bool_decide_false by (intros X; by apply X). cbn [negb orb].
  rewrite Hdig. cbn [mbind option_bind]. zero_loads. rewrite decide_False by (intros X; by apply X).
  rewrite Hrep. cbn [mbind option_bind negb]. zero_loads.
  replace (match capacity with Some c => bool_decide (c < count) | None => false end) with false.
  2: { destruct capacity as [c|]; [|done]. specialize (Hcap c eq_refl). symmetry. apply bool_decide_eq_false. lia. }
  rewrite Hro. cbn [mbind option_bind]. rewrite <- Hrs, <- Hto, <- Hfr, <- Hpa, <- Hcr, <- Hwr, <- Hmi, !uuid_eta.
  replace (mkPageZero _ _ _ _ _ _ _ _ _ _ _) with v by (by destruct v). rewrite Hva. by rewrite decide_False by (intros X; by apply X).
Qed.

Lemma read_common_of l v :
  (common_offset + 128 <= length l)%nat ->
  DecodeNativeCommonPageHeader (slice common_offset 128 l) None = Some (inr (page_zero_header v)) ->
  ReadCommon l (pz_bootstrap v) = Some (Some (pz_page_uuid v, pz_page_generation v)).
Proof.
  unfold ReadCommon. generalize common_offset. intros co Hl Hd. rewrite load_bytes_some by done. cbn [mbind option_bind].
  rewrite Hd. cbn [mbind option_bind]. rewrite decide_False; [done|]. unfold page_zero_header. cbn. tauto.
Qed.

Lemma decode_values_of l capacity count v :
  (forall c, capacity = Some c -> count <= c) -> count <= 32 -> (common_offset + 128 <= length l)%nat ->
  DecodeFilespaceBootstrap sha256 (slice 0 common_offset l) None = Some (inr (pz_bootstrap v)) ->
  N.of_nat (length l) = bt_page_size_bytes (pz_bootstrap v) ->
  DecodeNativeCommonPageHeader (slice common_offset 128 l) None = Some (inr (page_zero_header v)) ->
  zero_framed family_offset digest_offset directory_offset l count v ->
  DecodeValues sha256 l capacity None = Some (inr v).
Proof.
  intros Hcap Hc Hl Hp Hs Hh Hf. pose proof (read_common_of l v Hl Hh) as Hr. pose proof (decode_family_of l capacity count v Hcap Hc Hf) as Hd.
  clear Hf Hh. revert Hl Hp. unfold DecodeValues. generalize common_offset. intros co Hl Hp.
  rewrite decide_False by lia. rewrite load_bytes_some by lia. cbn [mbind option_bind]. rewrite Hp. cbn [mbind option_bind].
  rewrite decide_False by (intros X; by apply X). rewrite Hr. cbn [mbind option_bind]. exact Hd.
Qed.

(** The frame of an image, at any offset of the family header. *)
Lemma image_framed co v preamble common d k :
  zero_sized v -> ValidatePageZero v = pze_none -> length preamble = co -> length common = 128%nat -> length d = 32%nat ->
  let l := mjoin (zero_layout v preamble common d (zero_rest v k)) in
  let fo := (co + 128)%nat in
  FullDigest sha256 l = Some (Some d) ->
  family_repeats l (pz_bootstrap v) (pz_page_uuid v) (pz_page_generation v) = Some true ->
  zero_framed fo (co + 352) (co + 384) l (root_count v) v.
Proof.
  intros Hv Hva Hp Hc Hd l fo Hdig Hrep. destruct (validated_zero v Hva) as [_ Hr32].
  destruct (zero_fields v Hv co preamble common Hp Hc d (zero_rest v k) Hd) as
    (F0 & F1 & F2 & F3 & F4 & F5 & F6 & F7 & _).
  destruct (zero_fields_rest v Hv co preamble common Hp Hc d (zero_rest v k) Hd) as (G1 & G2 & G3 & G4 & G5 & G6 & G7 & G8 & G9 & G10).
  fold l fo in F0, F1, F2, F3, F4, F5, F6, F7, G1, G2, G3, G4, G5, G6, G7, G8, G9, G10.
  pose proof (length_roots_image _ (zz_roots v Hv)) as Hri.
  assert (Hl : length l = (co + 384 + 80 * length (pz_roots v) + k)%nat).
  { rewrite F0. unfold zero_rest. rewrite length_app, Hri, length_replicate. lia. }
  assert (Hsplit : l = (zero_front v preamble common ++ d) ++ roots_image (pz_roots v) ++ replicate k 0).
  { unfold l. rewrite zero_split. unfold zero_rest. by rewrite <- !app_assoc. }
  assert (Hpre : length (zero_front v preamble common ++ d) = (co + 384)%nat).
  { pose proof Hl as Hl'. rewrite Hsplit, length_app, (length_app (roots_image _)), Hri, length_replicate in Hl'. lia. }
  assert (Hcnt : root_count v < 2 ^ 32) by (unfold root_count; lia).
  split; unfold root_count; rewrite ?Nat2N.id; try done.
  - lia.
  - rewrite F5. unfold u32_cast, root_count. rewrite N.mod_small by done. by apply u32_of_bytes.
  - rewrite F4. done.
  - rewrite F6. apply u64_of_bytes. unfold root_count. u64_unfold. lia.
  - rewrite G8. done.
  - rewrite Hsplit at 2. rewrite Hl. replace (co + 384 + 80 * length (pz_roots v) + k - (co + 384 + 80 * length (pz_roots v)))%nat with k by lia.
    rewrite app_assoc. unfold slice. rewrite drop_app_length' by (rewrite length_app; lia). apply take_ge. by rewrite length_replicate.
  - replace (co + 352)%nat with (fo + 224)%nat by (unfold fo; lia). by rewrite G10.
  - by rewrite F7, u64_of_bytes by apply Hv.
  - by rewrite G1, u64_of_bytes by apply Hv.
  - by rewrite G2, u64_of_bytes by apply Hv.
  - by rewrite G3, u64_of_bytes by apply Hv.
  - by rewrite G7, u64_of_bytes by apply Hv.
  - rewrite Hsplit, <- Hpre. apply load_roots_image, Hv.
Qed.

Lemma image_repeated co v preamble common d k :
  zero_sized v -> length preamble = co -> length common = 128%nat -> length d = 32%nat ->
  repeated (co + 128) (mjoin (zero_layout v preamble common d (zero_rest v k))) (pz_bootstrap v) (pz_page_uuid v) (pz_page_generation v).
Proof.
  intros Hv Hp Hc Hd.
  destruct (zero_fields v Hv co preamble common Hp Hc d (zero_rest v k) Hd) as
    (_ & _ & _ & _ & _ & _ & _ & _ & F1 & F2 & F3 & F4 & F5 & F6 & F7 & F8 & F9 & F10 & F11).
  destruct (zero_fields_rest v Hv co preamble common Hp Hc d (zero_rest v k) Hd) as (_ & _ & _ & G & _). cbv zeta in *.
  unfold repeated. rewrite F1, F2, F3, F4, F5, F6, F7, F8, F9, F10, F11, G. pose proof (zz_bootstrap v Hv) as [_ _ _ _ _ B1 B2 B3 B4 B5].
  rewrite !u32_of_bytes, !u16_of_bytes, u64_of_bytes by (done || apply Hv). done.
Qed.

Lemma decode_zero_complete l capacity v :
  Forall is_byte l -> (forall c, capacity = Some c -> root_count v <= c) -> zero_sized v -> zero_image v l ->
  DecodeValues sha256 l capacity None = Some (inr v).
Proof.
  intros Hb Hcap Hv (Hva & preamble & common & d & k & Hpe & Hce & Hk & Hd & ->).
  destruct (encoded_preamble _ _ (zz_bootstrap v Hv) Hpe) as [Hpl _].
  destruct (encoded_header _ _ (zero_header_sized v Hv) Hce) as [Hcl _]. pose proof (Hsize _ _ Hd) as Hdl.
  destruct (validated_zero v Hva) as [_ Hr32]. pose proof offsets as (Hfo & Hdg & Hdo).
  pose proof (digest_of_zero sha256 v preamble common d (zero_rest v k) Hv Hpl Hcl Hdl) as Hfd. rewrite Hd in Hfd.
  destruct (zero_fields v Hv common_offset preamble common Hpl Hcl d (zero_rest v k) Hdl) as (F0 & F1 & F2 & _). cbv zeta in F0, F1, F2.
  pose proof (image_repeated common_offset v preamble common d k Hv Hpl Hcl Hdl) as Hrep. rewrite <- Hfo in Hrep.
  set (l := mjoin (zero_layout v preamble common d (zero_rest v k))) in *.
  assert (Hl : length l = (directory_offset + 80 * length (pz_roots v) + k)%nat).
  { rewrite F0. unfold zero_rest. rewrite length_app, length_roots_image, length_replicate by apply Hv. lia. }
  apply family_repeats_iff in Hrep; [|lia].
  pose proof (image_framed common_offset v preamble common d k Hv Hva Hpl Hcl Hdl Hfd Hrep) as Hf. cbv zeta in Hf. fold l in Hf.
  rewrite <- Hfo, <- Hdg, <- Hdo in Hf.
  apply (decode_values_of l capacity (root_count v) v Hcap); [unfold root_count; lia|lia| |by rewrite Hl| |exact Hf].
  - rewrite F1. apply (bootstrap_canonical sha256 Hsize); [rewrite <- F1; by apply slice_bytes|]. split; [apply Hv|done].
  - rewrite F2. apply header_codec; [rewrite <- F2; by apply slice_bytes|]. split; [by apply zero_header_sized|done].
Qed.

(** ** Expected bindings *)

Definition zero_bound (v : FilespacePageZero) (b : FilespaceBootstrapBinding) : Prop :=
  fb_database_uuid b = bt_database_uuid (pz_bootstrap v) /\ fb_filespace_uuid b = bt_filespace_uuid (pz_bootstrap v) /\
  fb_page_size_profile_uuid b = bt_page_size_profile_uuid (pz_bootstrap v).

Lemma validated_binding h b :
  ValidateFilespaceBootstrap h (Some b) = bte_none ->
  fb_database_uuid b = bt_database_uuid h /\ fb_filespace_uuid b = bt_filespace_uuid h /\
  fb_page_size_profile_uuid b = bt_page_size_profile_uuid h.
Proof.
  unfold ValidateFilespaceBootstrap. destruct (negb _ || negb _); [done|].
  destruct (FindCanonicalFilespacePageProfile (bt_page_size_profile_uuid h)) as [profile|]; [|done].
  destruct (decide (cfp_page_size_bytes profile <> _)); [done|]. destruct (decide (_ \/ _)); [done|].
  destruct (decide (N.ldiff _ 3 <> 0)); [done|]. destruct (decide (uuid_bytes _ <> _)); [done|].
  destruct (decide (_ < 1 \/ _)); [done|]. destruct (decide (_ < 1 \/ 15 < _)); [done|]. destruct (negb _); [done|].
  destruct (_ || _ || _) eqn:Hb; [done|]. intros _. apply orb_false_iff in Hb as [_ Hb]. apply bool_decide_eq_false in Hb.
  apply Decidable.not_or in Hb as [B1 Hb]. apply Decidable.not_or in Hb as [B2 B3]. apply dec_stable in B1, B2, B3.
  split_and!; by apply uuid_bytes_inj.
Qed.

(** Decoding against a binding is decoding, and the record is the binding's. *)
Lemma decode_zero_bound l capacity b v :
  DecodeValues sha256 l capacity (Some b) = Some (inr v) ->
  DecodeValues sha256 l capacity None = Some (inr v) /\ zero_bound v b.
Proof.
  intros H. pose proof H as Hinv. apply decode_zero_inv in Hinv as (Hp & Hs & Hroom & Hc & _). split.
  - pose proof Hp as Hn. apply decoded_preamble in Hn as (_ & Hn & _). revert H. unfold DecodeValues. revert Hp Hn. generalize common_offset.
    intros co Hp Hn. destruct (decide (length l < co)%nat); [done|]. rewrite load_bytes_some by lia. cbn [mbind option_bind].
    rewrite Hp, Hn. done.
  - destruct (decode_bootstrap_iff sha256 (slice 0 common_offset l) (Some b)) as (r & Hr & Hiff). rewrite Hr in Hp. injection Hp as ->.
    destruct (proj1 (Hiff _) eq_refl) as (_ & _ & Hv). by apply validated_binding.
Qed.
End codec.

(** ** Sample records *)

(** The bytes an encoder gave. *)
Definition image_of {E A} (f : A -> list N) (r : option (E + A)) : list N := match r with Some (inr l) => f l | _ => [] end.

(** A stand-in for SHA-256 with digests of the right size. *)
Definition zero_sample_sha (m : list N) : option (list N) := Some (replicate 31 7 ++ [N.of_nat (length m) mod 256]).
Definition zero_uuid (n : N) : Uuid := mkUuid [1; 2; 3; 4; 5; 6; 112; 0; 128; 0; 0; 0; 0; 0; 0; n].
Definition sample_root (kind number : N) : FilespaceRootReference :=
  mkRoot kind (CanonicalPageZeroRootPageType kind) (zero_uuid 2) number 1 (profile_uuid 0 129 146) (zero_uuid (100 + kind)).
Definition sample_zero (total : N) (generation : N) : FilespacePageZero :=
  mkPageZero (mkBootstrap (zero_uuid 1) (zero_uuid 2) (profile_uuid 0 129 146) kNativeBootstrapIntegrityProfile (mkUuid (replicate 16 0))
      8192 1 0 1 1) (zero_uuid 3) (zero_uuid 4) (zero_uuid 5) generation generation total 5 2 1000
    (sample_root 1 10 :: sample_root 2 11 :: sample_root 3 12 :: sample_root 4 13 :: sample_root 5 14 :: sample_root 6 15 ::
     sample_root 7 16 :: sample_root 8 17 :: sample_root 9 18 :: []).
