(* ===== verification/FilespaceGrowth.v ===== *)
(** * Growing a filespace

    Models [MutateGrowthBody] of [storage/disk/filespace_page_zero.cpp] with its two
    entry points: the actuator that replaces the 384 bytes of page zero that change when
    a filespace grows.  The file is its bytes; [faults] says which operations of the run
    fail, and what a failed write leaves in the range it was to replace. *)

From S2P Require Import Prelude Platform Bytes PageFrame InventoryPage NativeInventoryPage.
From S2P Require Import FilespacePageZero.

Inductive FilespacePageZeroBodyError :=
| gbe_none | gbe_invalid_request | gbe_invalid_device | gbe_image_failure | gbe_invalid_transition
| gbe_extent_mismatch | gbe_preimage_changed | gbe_readback_mismatch | gbe_io_failure | gbe_hash_failure
| gbe_resource_exhausted.

#[export] Instance BodyError_eq_dec : EqDecision FilespacePageZeroBodyError.
Proof. solve_decision. Defined.

Record FilespacePageZeroBodyResult := mkBodyResult {
  gb_error : FilespacePageZeroBodyError;
  gb_image_error : FilespacePageZeroError;
  gb_observed_body_error : FilespacePageZeroError;
  gb_original_preimage_verified : bool;
  gb_target_already_present : bool;
  gb_damaged_body_observed : bool;
  gb_write_attempted : bool;
  gb_uncertain_write : bool;
  gb_confirmed_bytes : N;
  gb_observed_size_bytes : N;
  gb_sync_attempted : bool;
  gb_sync_completed : bool;
  gb_postimage_verified : bool }.

Definition BodyResult_default : FilespacePageZeroBodyResult :=
  mkBodyResult gbe_invalid_request pze_none pze_none false false false false false 0 0 false false false.

Definition gb_ok (r : FilespacePageZeroBodyResult) : bool :=
  bool_decide (gb_error r = gbe_none) && gb_sync_completed r && gb_postimage_verified r.

Definition gb_fail (e : FilespacePageZeroBodyError) (r : FilespacePageZeroBodyResult) : FilespacePageZeroBodyResult :=
  mkBodyResult e (gb_image_error r) (gb_observed_body_error r) (gb_original_preimage_verified r) (gb_target_already_present r)
    (gb_damaged_body_observed r) (gb_write_attempted r) (gb_uncertain_write r) (gb_confirmed_bytes r) (gb_observed_size_bytes r)
    (gb_sync_attempted r) (gb_sync_completed r) (gb_postimage_verified r).

Definition set_image_error (e : FilespacePageZeroError) (r : FilespacePageZeroBodyResult) : FilespacePageZeroBodyResult :=
  mkBodyResult (gb_error r) e (gb_observed_body_error r) (gb_original_preimage_verified r) (gb_target_already_present r)
    (gb_damaged_body_observed r) (gb_write_attempted r) (gb_uncertain_write r) (gb_confirmed_bytes r) (gb_observed_size_bytes r)
    (gb_sync_attempted r) (gb_sync_completed r) (gb_postimage_verified r).

Definition set_observed_size (n : N) (r : FilespacePageZeroBodyResult) : FilespacePageZeroBodyResult :=
  mkBodyResult (gb_error r) (gb_image_error r) (gb_observed_body_error r) (gb_original_preimage_verified r) (gb_target_already_present r)
    (gb_damaged_body_observed r) (gb_write_attempted r) (gb_uncertain_write r) (gb_confirmed_bytes r) n
    (gb_sync_attempted r) (gb_sync_completed r) (gb_postimage_verified r).

Definition set_preimage (original present : bool) (r : FilespacePageZeroBodyResult) : FilespacePageZeroBodyResult :=
  mkBodyResult (gb_error r) (gb_image_error r) (gb_observed_body_error r) original present
    (gb_damaged_body_observed r) (gb_write_attempted r) (gb_uncertain_write r) (gb_confirmed_bytes r) (gb_observed_size_bytes r)
    (gb_sync_attempted r) (gb_sync_completed r) (gb_postimage_verified r).

Definition set_damaged (observed : FilespacePageZeroError) (damaged : bool) (r : FilespacePageZeroBodyResult) : FilespacePageZeroBodyResult :=
  mkBodyResult (gb_error r) (gb_image_error r) observed (gb_original_preimage_verified r) (gb_target_already_present r)
    damaged (gb_write_attempted r) (gb_uncertain_write r) (gb_confirmed_bytes r) (gb_observed_size_bytes r)
    (gb_sync_attempted r) (gb_sync_completed r) (gb_postimage_verified r).

Definition set_write (uncertain : bool) (confirmed : N) (r : FilespacePageZeroBodyResult) : FilespacePageZeroBodyResult :=
  mkBodyResult (gb_error r) (gb_image_error r) (gb_observed_body_error r) (gb_original_preimage_verified r) (gb_target_already_present r)
    (gb_damaged_body_observed r) true uncertain confirmed (gb_observed_size_bytes r)
    (gb_sync_attempted r) (gb_sync_completed r) (gb_postimage_verified r).

Definition set_sync (completed verified : bool) (r : FilespacePageZeroBodyResult) : FilespacePageZeroBodyResult :=
  mkBodyResult (gb_error r) (gb_image_error r) (gb_observed_body_error r) (gb_original_preimage_verified r) (gb_target_already_present r)
    (gb_damaged_body_observed r) (gb_write_attempted r) (gb_uncertain_write r) (gb_confirmed_bytes r) (gb_observed_size_bytes r)
    true completed verified.

(** ** The file and its faults *)

Record disk := mkDisk { dk_open : bool; dk_read_only : bool; dk_bytes : list N }.

(** A failed write reports the bytes transferred and leaves [torn] in the range. *)
Record faults := mkFaults {
  ft_size_before : bool; ft_read : bool; ft_size_again : bool;
  ft_write : option (N * list N);
  ft_sync : bool; ft_readback : bool; ft_size_after : bool }.

Definition no_faults : faults := mkFaults false false false None false false false.

(** The 384 bytes between the preamble and the root directory. *)
Definition body_length : nat := directory_offset - common_offset.

Definition write_body (body : list N) (d : disk) : disk :=
  mkDisk (dk_open d) (dk_read_only d) (stored common_offset body (dk_bytes d)).

(** ** The actuator *)

Section growth.
Context (sha256 : hash_provider).
Context (binding : FilespaceBootstrapBinding) (before after : list N).

Definition image_failure (e : FilespacePageZeroError) : FilespacePageZeroBodyError :=
  match e with
  | pze_hash_provider_failure => gbe_hash_failure
  | pze_resource_exhausted => gbe_resource_exhausted
  | _ => gbe_image_failure
  end.

Definition immutable (image : list N) : bool :=
  bool_decide (take common_offset before = take common_offset image) &&
  bool_decide (drop directory_offset before = drop directory_offset image).

(** The fields a growth may change, put back. *)
Definition normalized (a b : FilespacePageZero) : FilespacePageZero :=
  mkPageZero (pz_bootstrap b) (pz_page_uuid b) (pz_creation_operation_uuid b) (pz_writer_identity_uuid b) (pz_page_generation a)
    (pz_root_set_generation a) (pz_total_pages a) (pz_free_pages a) (pz_preallocated_pages a) (pz_creation_utc_millis b) (pz_roots b).

Definition growth_transition (a b : FilespacePageZero) : bool :=
  bool_decide (pz_page_generation a <> u64_max /\ pz_root_set_generation a <> u64_max /\
               pz_page_generation b = (pz_page_generation a + 1) mod u64_modulus /\
               pz_root_set_generation b = (pz_root_set_generation a + 1) mod u64_modulus /\ pz_total_pages a < pz_total_pages b).

(** The checks on the request: the error with the image error, or the target record. *)
Definition admit_growth (budget : N) : option ((FilespacePageZeroBodyError * FilespacePageZeroError) + FilespacePageZero) :=
  if negb (bool_decide (length before = length after) && bool_decide (directory_offset <= length before)%nat) then
    Some (inl (gbe_invalid_request, pze_none))
  else if decide (budget / 4 < N.of_nat (length before)) then Some (inl (gbe_resource_exhausted, pze_none))
  else
  original ← DecodeFilespacePageZero sha256 before (Some binding);
  match original with
  | inl e => Some (inl (image_failure e, e))
  | inr a =>
    target ← DecodeFilespacePageZero sha256 after (Some binding);
    match target with
    | inl e => Some (inl (image_failure e, e))
    | inr b =>
      if negb (growth_transition a b) then Some (inl (gbe_invalid_transition, pze_none))
      else
      image ← EncodeFilespacePageZero sha256 (normalized a b);
      match image with
      | inl e => Some (inl (image_failure e, e))
      | inr image =>
        if decide (image <> before) then Some (inl (gbe_invalid_transition, pze_none))
        else if negb (immutable after) then Some (inl (gbe_invalid_transition, pze_none))
        else Some (inr b)
      end
    end
  end.

Definition required_size (b : FilespacePageZero) : N :=
  (pz_total_pages b * bt_page_size_bytes (pz_bootstrap b)) mod u64_modulus.

(** [extent]: [inl] a refusal. *)
Definition check_extent (fails : bool) (required : N) (d : disk) (r : FilespacePageZeroBodyResult)
    : FilespacePageZeroBodyResult + FilespacePageZeroBodyResult :=
  if fails then inl (gb_fail gbe_io_failure r)
  else
    let size := N.of_nat (length (dk_bytes d)) in
    let r := set_observed_size size r in
    if decide (size <> required) then inl (gb_fail gbe_extent_mismatch r) else inr r.

(** The first page of the file; a short file is a short transfer. *)
Definition read_page (fails : bool) (d : disk) : option (list N) :=
  if fails then None else load_bytes 0 (length before) (dk_bytes d).

(** What the read shows: nothing to refuse, or the refusal. *)
Definition classify_page (repair : bool) (scratch : list N) (r : FilespacePageZeroBodyResult)
    : option (FilespacePageZeroBodyResult + FilespacePageZeroBodyResult) :=
  if negb (immutable scratch) then Some (inl (gb_fail gbe_preimage_changed r))
  else
  let r := set_preimage (bool_decide (scratch = before)) (bool_decide (scratch = after)) r in
  if gb_original_preimage_verified r || gb_target_already_present r then Some (inr r)
  else if negb repair then Some (inl (gb_fail gbe_preimage_changed r))
  else
  actual ← DecodeFilespacePageZero sha256 scratch (Some binding);
  let error := match actual with inl e => e | inr _ => pze_none end in
  let r := set_damaged error false r in
  match error with
  | pze_hash_provider_failure | pze_resource_exhausted =>
    Some (inl (gb_fail (image_failure error) (set_image_error error r)))
  | pze_none => Some (inl (gb_fail gbe_preimage_changed r))
  | _ => Some (inr (set_damaged error true r))
  end.

(** The sync, the second read and the last look at the size. *)
Definition finish_growth (f : faults) (required : N) (d : disk) (r : FilespacePageZeroBodyResult) : FilespacePageZeroBodyResult :=
  let r := set_sync false false r in
  if ft_sync f then gb_fail gbe_io_failure r
  else
  let r := set_sync true false r in
  match read_page (ft_readback f) d with
  | None => gb_fail gbe_io_failure r
  | Some scratch =>
    if decide (scratch <> after) then gb_fail gbe_readback_mismatch r
    else match check_extent (ft_size_after f) required d r with
    | inl r => r
    | inr r => gb_fail gbe_none (set_sync true true r)
    end
  end.

(** The write, unless the target is in place. *)
Definition write_target (f : faults) (d : disk) (r : FilespacePageZeroBodyResult)
    : disk * (FilespacePageZeroBodyResult + FilespacePageZeroBodyResult) :=
  if gb_target_already_present r then (d, inr r)
  else match ft_write f with
  | Some (transferred, torn) =>
    (write_body (take body_length torn) d,
     inl (gb_fail gbe_io_failure (set_write true (if decide (transferred <= N.of_nat body_length) then transferred else 0) r)))
  | None =>
    (write_body (slice common_offset body_length after) d, inr (set_write false (N.of_nat body_length) r))
  end.

Definition MutateGrowthBody (budget : N) (repair : bool) (f : faults) (d : disk) : option (FilespacePageZeroBodyResult * disk) :=
  admitted ← admit_growth budget;
  match admitted with
  | inl (e, image) => Some (gb_fail e (set_image_error image BodyResult_default), d)
  | inr b =>
    let r := BodyResult_default in
    let required := required_size b in
    if negb (dk_open d && negb (dk_read_only d)) then Some (gb_fail gbe_invalid_device r, d)
    else match check_extent (ft_size_before f) required d r with
    | inl r => Some (r, d)
    | inr r =>
      match read_page (ft_read f) d with
      | None => Some (gb_fail gbe_io_failure r, d)
      | Some scratch =>
        classified ← classify_page repair scratch r;
        match classified with
        | inl r => Some (r, d)
        | inr r =>
          match check_extent (ft_size_again f) required d r with
          | inl r => Some (r, d)
          | inr r =>
            let '(d, written) := write_target f d r in
            match written with
            | inl r => Some (r, d)
            | inr r => Some (finish_growth f required d r, d)
            end
          end
        end
      end
    end
  end.

Definition WriteFilespacePageZeroGrowthBodyFromOpenDevice (budget : N) (f : faults) (d : disk) :=
  MutateGrowthBody budget false f d.
Definition RepairFilespacePageZeroGrowthBodyFromOpenDevice (budget : N) (f : faults) (d : disk) :=
  MutateGrowthBody budget true f d.
End growth.

(** ** Root candidates for recovery

    Models [ProbeFilespaceRecoveryRootCandidatesFromOpenDevice] of
    [storage/disk/filespace_page_zero.cpp]: the reader of the root directory that does
    not look at the bytes a growth may be replacing. *)

Inductive FilespaceRecoveryRootError :=
| rre_none | rre_invalid_request | rre_invalid_bootstrap | rre_invalid_directory | rre_invalid_extent
| rre_encrypted_requires_authority | rre_cluster_requires_authority | rre_changed_observation
| rre_io_failure | rre_hash_failure | rre_resource_exhausted.

#[export] Instance RecoveryRootError_eq_dec : EqDecision FilespaceRecoveryRootError.
Proof. solve_decision. Defined.

Record FilespaceRecoveryRootCandidates := mkCandidates {
  rc_bootstrap : FilespaceBootstrap;
  rc_roots : list FilespaceRootReference;
  rc_observed_size_bytes : N }.

(** What a device reads in full. *)
Definition read_all (d : device_view) (count : nat) : option (list N) :=
  match dev_read d 0 count with
  | Some bytes => if decide (length bytes = count) then Some bytes else None
  | None => None
  end.

Section probe.
Context (sha256 : hash_provider) (binding : FilespaceBootstrapBinding).

Definition probe_error (e : FilespaceBootstrapError) : FilespaceRecoveryRootError :=
  match e with
  | bte_hash_provider_failure => rre_hash_failure
  | bte_resource_exhausted => rre_resource_exhausted
  | _ => rre_invalid_bootstrap
  end.

(** The checks on one root; [size] is the page size, [observed] the size of the file. *)
Definition candidate_error (size observed previous : N) (roots : list FilespaceRootReference) (reserved : bool)
    (r : FilespaceRootReference) : FilespaceRecoveryRootError :=
  let type := CanonicalPageZeroRootPageType (rt_kind r) in
  if negb (bool_decide (previous < rt_kind r) && bool_decide (rt_kind r <= 21) && bool_decide (type = rt_page_type r) &&
           bool_decide (rt_page_type r <> 0) && reserved && V7 (rt_filespace_uuid r) && V7 (rt_object_uuid r) &&
           bool_decide (rt_page_number r <> 0) && bool_decide (rt_page_generation r <> 0)) then rre_invalid_directory
  else match FindCanonicalFilespacePageProfile (rt_page_size_profile_uuid r) with
  | None => rre_invalid_directory
  | Some profile =>
    let local := bool_decide (rt_filespace_uuid r = fb_filespace_uuid binding) in
    if negb (bool_decide (rt_page_number r <= u64_max / cfp_page_size_bytes profile) &&
             CheckFileDeviceExtent ((rt_page_number r * cfp_page_size_bytes profile) mod u64_modulus) (cfp_page_size_bytes profile))
    then rre_invalid_directory
    else if local && negb (bool_decide (rt_page_size_profile_uuid r = fb_page_size_profile_uuid binding) &&
                           bool_decide (rt_page_number r < observed / size)) then rre_invalid_extent
    else if bool_decide (rt_kind r = 3) && negb local then rre_invalid_directory
    else if bool_decide (15 <= rt_kind r <= 17) then rre_cluster_requires_authority
    else if existsb (fun old =>
              bool_decide (rt_filespace_uuid old = rt_filespace_uuid r) &&
              (bool_decide (rt_page_size_profile_uuid old <> rt_page_size_profile_uuid r) ||
               (bool_decide (rt_page_number old = rt_page_number r) &&
                bool_decide (rt_page_type old <> rt_page_type r \/ rt_page_generation old <> rt_page_generation r \/
                             rt_object_uuid old <> rt_object_uuid r)))) roots then rre_invalid_directory
    else rre_none
  end.

(** One entry of the directory, with whether its reserved bytes are zero. *)
Definition load_candidate (offset : nat) (image : list N) : option (bool * FilespaceRootReference) :=
  kind ← LoadLittle16 offset image;
  type ← LoadLittle32 (offset + 4) image;
  filespace ← load_bytes (offset + 8) 16 image;
  number ← LoadLittle64 (offset + 24) image;
  generation ← LoadLittle64 (offset + 32) image;
  profile ← load_bytes (offset + 40) 16 image;
  object ← load_bytes (offset + 56) 16 image;
  reserved ← LoadLittle16 (offset + 2) image;
  tail ← load_bytes (offset + 72) 8 image;
  Some (bool_decide (reserved = 0) && all_zero tail,
        mkRoot kind type (mkUuid filespace) number generation (mkUuid profile) (mkUuid object)).

(** The loop over the directory, which ends at the first zero entry: the roots and
    where it stopped. *)
Fixpoint probe_roots (count : nat) (offset : nat) (size observed previous : N) (roots : list FilespaceRootReference) (image : list N)
    : option (FilespaceRecoveryRootError + (list FilespaceRootReference * nat)) :=
  match count with
  | O => Some (inr (roots, offset))
  | S count =>
    raw ← load_bytes offset 80 image;
    if all_zero raw then Some (inr (roots, offset))
    else
    loaded ← load_candidate offset image;
    let '(reserved, r) := loaded in
    let error := candidate_error size observed previous roots reserved r in
    if decide (error <> rre_none) then Some (inl error)
    else probe_roots count (offset + 80) size observed (rt_kind r) (roots ++ [r]) image
  end.

(** Kinds 1 to 9 and 18 to 21. *)
Definition recovery_kinds : N := N.lor 1022 (N.shiftl 15 18).

(** The pairs of roots, once every kind is present. *)
Definition pair_refused (first second : FilespaceRootReference) : bool :=
  negb (bool_decide (rt_filespace_uuid first = fb_filespace_uuid binding) && bool_decide (rt_filespace_uuid second = fb_filespace_uuid binding) &&
        bool_decide (rt_object_uuid first = rt_object_uuid second) && bool_decide (rt_page_number first <> rt_page_number second)).

Definition pairs_refused (roots : list FilespaceRootReference) : bool :=
  match find_root 18 roots, find_root 19 roots, find_root 20 roots, find_root 21 roots with
  | Some r18, Some r19, Some r20, Some r21 =>
    pair_refused r18 r19 || pair_refused r20 r21 || bool_decide (rt_object_uuid r18 = rt_object_uuid r20) ||
    existsb (fun r => bool_decide (rt_kind r < 20) && bool_decide (rt_filespace_uuid r = fb_filespace_uuid binding) &&
                      bool_decide (rt_page_number r = rt_page_number r20 \/ rt_page_number r = rt_page_number r21)) roots
  | _, _, _, _ => true
  end.

(** The directory of an image. *)
Definition probe_directory (size observed : N) (image : list N) : option (FilespaceRecoveryRootError + list FilespaceRootReference) :=
  walked ← probe_roots 32 directory_offset size observed 0 [] image;
  match walked with
  | inl e => Some (inl e)
  | inr (roots, offset) =>
    rest ← load_bytes offset (length image - offset) image;
    if negb (all_zero rest) then Some (inl rre_invalid_directory)
    else if decide (N.land (root_kinds roots) recovery_kinds <> recovery_kinds) then Some (inl rre_invalid_directory)
    else if pairs_refused roots then Some (inl rre_invalid_directory)
    else Some (inr roots)
  end.

Definition ProbeFilespaceRecoveryRootCandidatesFromOpenDevice (budget : N) (d : device_view)
    : option (FilespaceRecoveryRootError + FilespaceRecoveryRootCandidates) :=
  if decide (budget < 4096) then Some (inl rre_resource_exhausted)
  else if negb (dev_open d) then Some (inl rre_invalid_request)
  else match read_all d common_offset with
  | None => Some (inl rre_io_failure)
  | Some prefix =>
    decoded ← DecodeFilespaceBootstrap sha256 prefix (Some binding);
    match decoded with
    | inl e => Some (inl (probe_error e))
    | inr h =>
      let size := bt_page_size_bytes h in
      if negb (bool_decide (1 <= bt_filespace_role h <= 4)) then Some (inl rre_invalid_bootstrap)
      else if N.testbit (bt_flags h) 0 then Some (inl rre_encrypted_requires_authority)
      else if N.testbit (bt_flags h) 1 then Some (inl rre_cluster_requires_authority)
      else if decide (budget - 4096 < size) then Some (inl rre_resource_exhausted)
      else match dev_size_before d with
      | None => Some (inl rre_io_failure)
      | Some observed =>
        if decide (observed < size) then Some (inl rre_invalid_extent)
        else match read_all d (N.to_nat size) with
        | None => Some (inl rre_io_failure)
        | Some image =>
          if decide (take common_offset image <> prefix) then Some (inl rre_changed_observation)
          else
          directory ← probe_directory size observed image;
          match directory with
          | inl e => Some (inl e)
          | inr roots =>
            match dev_size_after d with
            | None => Some (inl rre_io_failure)
            | Some after =>
              if decide (after <> observed) then Some (inl rre_changed_observation)
              else Some (inr (mkCandidates h roots observed))
            end
          end
        end
      end
    end
  end.
End probe.
