(* ===== verification/FilespaceGrowthFacts.v ===== *)
(** * Facts about growing a filespace and about the recovery probe

    What one run of the actuator reads, changes and reports; what the probe depends on
    and what it finds. *)

From S2P Require Import Prelude Platform Bytes PageFrame InventoryPage InventoryPageFacts.
From S2P Require Import NativeInventoryPage PageFrameFacts FilespacePageZero FilespacePageZeroFacts.
From S2P Require Import FilespaceGrowth.

Section growth.
Context (sha256 : hash_provider).
Context (binding : FilespaceBootstrapBinding) (before after : list N).

(** Page zero in the file. *)
Definition first_page (d : disk) : list N := take (length before) (dk_bytes d).

(** Two files that differ at most in the changeable range. *)
Definition same_outside (d d' : disk) : Prop :=
  dk_open d' = dk_open d /\ dk_read_only d' = dk_read_only d /\ length (dk_bytes d') = length (dk_bytes d) /\
  take common_offset (dk_bytes d') = take common_offset (dk_bytes d) /\
  drop directory_offset (dk_bytes d') = drop directory_offset (dk_bytes d).

Lemma slice_at_most offset n (l : list N) : (length (slice offset n l) <= n)%nat.
Proof. unfold slice. rewrite length_take. lia. Qed.

Lemma take_at_most n (l : list N) : (length (take n l) <= n)%nat.
Proof. rewrite length_take. lia. Qed.

Lemma load_page n (l page : list N) : load_bytes 0 n l = Some page -> page = take n l /\ (n <= length l)%nat.
Proof. unfold load_bytes, slice. case_decide; [|done]. intros [= <-]. by rewrite drop_0. Qed.

Lemma load_page_some n (l : list N) : (n <= length l)%nat -> load_bytes 0 n l = Some (take n l).
Proof. intros H. unfold load_bytes, slice. rewrite decide_True by lia. by rewrite drop_0. Qed.

Lemma same_outside_refl d : same_outside d d.
Proof. by split_and!. Qed.

Lemma write_body_outside body d :
  (length body <= body_length)%nat -> (directory_offset <= length (dk_bytes d))%nat -> same_outside d (write_body body d).
Proof.
  unfold same_outside, write_body, body_length, stored. cbn [dk_open dk_read_only dk_bytes].
  destruct offsets as (_ & _ & Hd). revert Hd. generalize common_offset directory_offset. intros co dir -> Hb Hl.
  assert (Ht : length (take co (dk_bytes d)) = co) by (rewrite length_take; lia).
  split_and!; [done|done| | |].
  - rewrite !length_app, length_take, length_drop. lia.
  - rewrite take_app_le, take_take by lia. f_equal. lia.
  - rewrite app_assoc, drop_app_ge by (rewrite length_app; lia). rewrite drop_drop, length_app, Ht. f_equal. lia.
Qed.

(** Writing the body of an image over a page with the image's other bytes gives the
    image. *)
Lemma write_body_completes image d :
  length image = length before -> (directory_offset <= length before)%nat -> (length before <= length (dk_bytes d))%nat ->
  take common_offset image = take common_offset (first_page d) -> drop directory_offset image = drop directory_offset (first_page d) ->
  first_page (write_body (slice common_offset body_length image) d) = image.
Proof.
  unfold first_page, write_body, body_length, stored. cbn [dk_bytes].
  destruct offsets as (_ & _ & Hd). revert Hd. generalize common_offset directory_offset. intros co dir -> Hi Hb Hl H1 H2.
  replace (co + 384 - co)%nat with 384%nat by lia.
  assert (Hs : length (slice co 384 image) = 384%nat) by (apply length_slice; lia).
  rewrite Hs. rewrite take_take in H1. replace (co `min` length before)%nat with co in H1 by lia.
  rewrite <- H1. rewrite <- (take_drop co image) at 3. rewrite <- (take_drop 384 (drop co image)) at 1.
  rewrite drop_drop. rewrite H2. rewrite skipn_firstn_comm.
  rewrite take_app_ge, length_take by (rewrite length_take; lia). f_equal.
  rewrite take_app_ge by (rewrite Hs; lia). unfold slice at 1. f_equal. rewrite Hs. f_equal. lia.
Qed.

Opaque body_length slice.

(** What an admitted request is. *)
Lemma admit_inv budget b :
  admit_growth sha256 binding before after budget = Some (inr b) ->
  length before = length after /\ (directory_offset <= length before)%nat /\ immutable before after = true /\
  exists a, DecodeFilespacePageZero sha256 before (Some binding) = Some (inr a) /\
    DecodeFilespacePageZero sha256 after (Some binding) = Some (inr b) /\ growth_transition a b = true /\
    EncodeFilespacePageZero sha256 (normalized a b) = Some (inr before).
Proof.
  unfold admit_growth. destruct (negb _) eqn:Hq; [done|]. apply negb_false_iff, andb_true_iff in Hq as [Q1 Q2].
  apply bool_decide_eq_true in Q1, Q2. destruct (decide (_ < _)); [done|].
  destruct (DecodeFilespacePageZero sha256 before (Some binding)) as [[|a]|]; [done| |done]. cbn [mbind option_bind].
  destruct (DecodeFilespacePageZero sha256 after (Some binding)) as [[|b']|]; [done| |done]. cbn [mbind option_bind].
  destruct (growth_transition a b') eqn:Hg; [|done]. cbn [negb].
  destruct (EncodeFilespacePageZero sha256 (normalized a b')) as [[|image]|] eqn:He; [done| |done]. cbn [mbind option_bind].
  destruct (decide (image <> before)) as [|Hi]; [done|]. apply dec_stable in Hi. subst image.
  destruct (immutable before after) eqn:Him; [|done]. intros [= <-]. split_and!; [done..|]. by exists a.
Qed.

Lemma immutable_iff image :
  immutable before image = true <->
  take common_offset before = take common_offset image /\ drop directory_offset before = drop directory_offset image.
Proof. unfold immutable. by rewrite andb_true_iff, !bool_decide_eq_true. Qed.

Lemma check_extent_inv fails required d r :
  match check_extent fails required d r with
  | inl r' => gb_ok r' = false /\ gb_write_attempted r' = gb_write_attempted r
  | inr r' => N.of_nat (length (dk_bytes d)) = required /\ gb_write_attempted r' = gb_write_attempted r /\
              gb_target_already_present r' = gb_target_already_present r /\
              gb_original_preimage_verified r' = gb_original_preimage_verified r
  end.
Proof. unfold check_extent. destruct fails; [done|]. case_decide; done. Qed.

Lemma read_page_inv fails d scratch : read_page before fails d = Some scratch -> scratch = first_page d /\ (length before <= length (dk_bytes d))%nat.
Proof.
  unfold read_page, first_page. destruct fails; [done|]. apply load_page.
Qed.

(** A page whose bytes are no page zero, as far as the decoder can tell. *)
Definition damaged (page : list N) : Prop :=
  exists e, DecodeFilespacePageZero sha256 page (Some binding) = Some (inl e) /\
    e <> pze_none /\ e <> pze_hash_provider_failure /\ e <> pze_resource_exhausted.

(** A page the actuator goes on with. *)
Lemma classify_inv repair scratch r :
  exists c, classify_page sha256 binding before after repair scratch r = Some c /\
  match c with
  | inl r' => gb_ok r' = false /\ gb_write_attempted r' = gb_write_attempted r
  | inr r' => immutable before scratch = true /\ gb_write_attempted r' = gb_write_attempted r /\
      gb_target_already_present r' = bool_decide (scratch = after) /\
      (scratch = before \/ scratch = after \/ repair = true /\ damaged scratch)
  end.
Proof.
  unfold classify_page. destruct (immutable before scratch) eqn:Hi; cbn [negb]; [|by eexists]. cbn [gb_original_preimage_verified gb_target_already_present set_preimage].
  destruct (bool_decide (scratch = before) || bool_decide (scratch = after)) eqn:Hs.
  { eexists. split; [done|]. apply orb_true_iff in Hs. rewrite !bool_decide_eq_true in Hs. split_and!; [done..|tauto]. }
  apply orb_false_iff in Hs as [_ Hs]. destruct repair; cbn [negb]; [|by eexists].
  destruct (decode_zero_total sha256 scratch None (Some binding)) as [actual Ha]. unfold damaged, DecodeFilespacePageZero. rewrite Ha. cbn [mbind option_bind].
  destruct actual as [e|v]; [|by eexists]. destruct e; eexists; (split; [reflexivity|]); cbn; try done;
    (split_and!; [done..|]; right; right; split; [done|]; by eexists).
Qed.

Lemma finish_inv f required d r :
  gb_write_attempted (finish_growth before after f required d r) = gb_write_attempted r /\
  (gb_ok (finish_growth before after f required d r) = true ->
   first_page d = after /\ N.of_nat (length (dk_bytes d)) = required).
Proof.
  unfold finish_growth. destruct (ft_sync f); [done|].
  destruct (read_page before (ft_readback f) d) as [scratch|] eqn:Hr; [|done]. apply read_page_inv in Hr as [-> _].
  destruct (decide (first_page d <> after)) as [|Ha]; [done|]. apply dec_stable in Ha.
  pose proof (check_extent_inv (ft_size_after f) required d (set_sync true false (set_sync false false r))) as He.
  destruct (check_extent _ _ _ _) as [r'|r']; [by destruct He as [-> ->]|]. destruct He as (He & Hw & _). split; [exact Hw|done].
Qed.

Lemma immutable_completes scratch d :
  length before = length after -> (directory_offset <= length before)%nat -> (length before <= length (dk_bytes d))%nat ->
  immutable before after = true -> scratch = first_page d -> immutable before scratch = true ->
  first_page (write_body (slice common_offset body_length after) d) = after.
Proof.
  intros Hl Hd Hb Ha -> Hs. apply immutable_iff in Ha as [A1 A2]. apply immutable_iff in Hs as [S1 S2].
  apply write_body_completes; [done..|by rewrite <- A1|by rewrite <- A2].
Qed.

(** What a run leaves where it writes. *)
Definition left_by_write (f : faults) (d : disk) : disk :=
  write_body (match ft_write f with Some (_, torn) => take body_length torn | None => slice common_offset body_length after end) d.

(** What one run does to the file, by what it reports. *)
Record growth_effect (b : FilespacePageZero) (repair : bool) (f : faults) (d : disk) (r : FilespacePageZeroBodyResult) (d' : disk) : Prop := {
  ge_outside : same_outside d d';
  ge_untouched : gb_write_attempted r = false -> d' = d;
  ge_ok : gb_ok r = true -> first_page d' = after /\ N.of_nat (length (dk_bytes d')) = required_size b;
  ge_written : gb_write_attempted r = true -> d' = left_by_write f d;
  ge_over : gb_write_attempted r = true -> first_page d = before \/ repair = true /\ damaged (first_page d);
  ge_device : gb_write_attempted r = true ->
    immutable before (first_page d) = true /\ dk_open d = true /\ dk_read_only d = false /\
    N.of_nat (length (dk_bytes d)) = required_size b /\ (length before <= length (dk_bytes d))%nat }.

Lemma effect_stopped b repair f d r :
  gb_ok r = false -> gb_write_attempted r = false -> exists r' d', Some (r, d) = Some (r', d') /\ growth_effect b repair f d r' d'.
Proof. intros H1 H2. exists r, d. split; [reflexivity|]. split; rewrite ?H1, ?H2; try done. Qed.

(** One run of the actuator on an admitted request. *)
Lemma growth_run budget b repair f d :
  admit_growth sha256 binding before after budget = Some (inr b) ->
  exists r d', MutateGrowthBody sha256 binding before after budget repair f d = Some (r, d') /\ growth_effect b repair f d r d'.
Proof.
  intros Hadmit. destruct (admit_inv _ _ Hadmit) as (Hl & Hd & Him & _). unfold MutateGrowthBody. rewrite Hadmit. cbn [mbind option_bind].
  destruct (dk_open d && negb (dk_read_only d)) eqn:Ho; cbn [negb]; [|by apply effect_stopped].
  apply andb_true_iff in Ho as [Ho1 Ho2]. apply negb_true_iff in Ho2.
  pose proof (check_extent_inv (ft_size_before f) (required_size b) d BodyResult_default) as He.
  destruct (check_extent (ft_size_before f) _ _ _) as [r0|r0]; [by destruct He; apply effect_stopped|]. destruct He as (He & Hw0 & _).
  destruct (read_page before (ft_read f) d) as [scratch|] eqn:Hr; [|by apply effect_stopped; [done|exact Hw0]]. apply read_page_inv in Hr as [-> Hlen].
  destruct (classify_inv repair (first_page d) r0) as (c & -> & Hc). cbn [mbind option_bind].
  destruct c as [r1|r1]; [destruct Hc as [? Hw1]; apply effect_stopped; [done|by rewrite Hw1]|]. destruct Hc as (Hi & Hw1 & Ht1 & Hwhich).
  pose proof (check_extent_inv (ft_size_again f) (required_size b) d r1) as He2.
  destruct (check_extent (ft_size_again f) _ _ _) as [r2|r2]; [destruct He2 as [? Hw2]; apply effect_stopped; [done|by rewrite Hw2, Hw1]|].
  destruct He2 as (_ & Hw2 & Ht2 & _). unfold write_target. rewrite Ht2, Ht1.
  destruct (bool_decide (first_page d = after)) eqn:Hp.
  { destruct (finish_inv f (required_size b) d r2) as [F1 F2]. eexists _, d. split; [reflexivity|].
    split; [apply same_outside_refl|done|exact F2|rewrite F1, Hw2, Hw1, Hw0; done..]. }
  apply bool_decide_eq_false in Hp.
  assert (Hover : first_page d = before \/ repair = true /\ damaged (first_page d)) by tauto.
  destruct (ft_write f) as [[transferred torn]|] eqn:Hwrite.
  { eexists _, _. split; [reflexivity|]. split; try done; [apply write_body_outside; [apply take_at_most|by etrans]|].
    intros _. unfold left_by_write. by rewrite Hwrite. }
  destruct (finish_inv f (required_size b) (write_body (slice common_offset body_length after) d) (set_write false (N.of_nat body_length) r2)) as [F1 F2].
  eexists _, _. split; [reflexivity|]. split; rewrite ?F1; try done; [apply write_body_outside; [apply slice_at_most|by etrans]|].
  intros _. unfold left_by_write. by rewrite Hwrite.
Qed.

(** A page the repair may replace, or has nothing to do on. *)
Definition repairable (page : list N) : Prop := page = before \/ page = after \/ damaged page.

Lemma classify_repairable page r :
  immutable before page = true -> repairable page ->
  exists r', classify_page sha256 binding before after true page r = Some (inr r') /\
    gb_target_already_present r' = bool_decide (page = after).
Proof.
  intros Hi Hp. unfold classify_page. rewrite Hi. cbn [negb gb_original_preimage_verified gb_target_already_present set_preimage].
  destruct (bool_decide (page = before) || bool_decide (page = after)) eqn:Hs; [by eexists|].
  apply orb_false_iff in Hs as [H1%bool_decide_eq_false H2%bool_decide_eq_false].
  destruct Hp as [?|[?|(e & -> & He1 & He2 & He3)]]; [done..|]. cbn [mbind option_bind].
  destruct e; try done; eexists; (split; [reflexivity|reflexivity]).
Qed.

Lemma finish_clean required d r :
  first_page d = after -> length before = length after -> N.of_nat (length (dk_bytes d)) = required ->
  gb_ok (finish_growth before after no_faults required d r) = true.
Proof.
  intros Ha Hl Hr. assert (Hle : (length before <= length (dk_bytes d))%nat).
  { rewrite <- Ha in Hl. unfold first_page in Hl. rewrite length_take in Hl. lia. }
  unfold finish_growth, read_page, no_faults. cbn [ft_sync ft_readback ft_size_after]. rewrite (load_page_some _ _ Hle). change (take (length before) (dk_bytes d)) with (first_page d).
  rewrite Ha. rewrite decide_False by (intros H; by apply H). unfold check_extent. rewrite decide_False by (intros H; by apply H). reflexivity.
Qed.

Lemma check_extent_clean required d r :
  N.of_nat (length (dk_bytes d)) = required -> check_extent false required d r = inr (set_observed_size required r).
Proof. intros <-. unfold check_extent. rewrite decide_False by (intros H; by apply H). reflexivity. Qed.

Lemma repair_completes budget b d :
  admit_growth sha256 binding before after budget = Some (inr b) ->
  dk_open d = true -> dk_read_only d = false -> N.of_nat (length (dk_bytes d)) = required_size b ->
  (length before <= length (dk_bytes d))%nat -> immutable before (first_page d) = true -> repairable (first_page d) ->
  exists r d', RepairFilespacePageZeroGrowthBodyFromOpenDevice sha256 binding before after budget no_faults d = Some (r, d') /\
    gb_ok r = true /\ first_page d' = after /\ same_outside d d'.
Proof.
  intros Hadmit Ho Hro Hsize Hlen Hi Hp. destruct (admit_inv _ _ Hadmit) as (Hl & Hd & Him & _).
  unfold RepairFilespacePageZeroGrowthBodyFromOpenDevice, MutateGrowthBody. rewrite Hadmit. cbn [mbind option_bind].
  rewrite Ho, Hro. cbn [andb negb ft_size_before ft_read ft_size_again no_faults]. rewrite check_extent_clean by done.
  unfold read_page. rewrite (load_page_some _ _ Hlen). change (take (length before) (dk_bytes d)) with (first_page d).
  destruct (classify_repairable (first_page d) (set_observed_size (required_size b) BodyResult_default) Hi Hp) as (r & -> & Ht). cbn [mbind option_bind].
  rewrite check_extent_clean by done. unfold write_target. cbn [gb_target_already_present set_observed_size ft_write no_faults]. rewrite Ht.
  destruct (bool_decide (first_page d = after)) eqn:Hpa.
  - apply bool_decide_eq_true in Hpa. eexists _, d. split; [reflexivity|]. split; [by apply finish_clean|]. split; [done|apply same_outside_refl].
  - assert (Hout : same_outside d (write_body (slice common_offset body_length after) d)).
    { apply write_body_outside; [apply slice_at_most|by etrans]. }
    assert (Hw : first_page (write_body (slice common_offset body_length after) d) = after) by (by eapply immutable_completes).
    eexists _, _. split; [reflexivity|]. split; [|by split]. apply finish_clean; [done..|]. destruct Hout as (_ & _ & -> & _). done.
Qed.

(** The repair without faults succeeds exactly on the pages it may replace, and leaves
    every other page as it is. *)
Lemma repair_exact budget b d :
  admit_growth sha256 binding before after budget = Some (inr b) ->
  dk_open d = true -> dk_read_only d = false -> N.of_nat (length (dk_bytes d)) = required_size b ->
  (length before <= length (dk_bytes d))%nat -> immutable before (first_page d) = true ->
  exists r d', RepairFilespacePageZeroGrowthBodyFromOpenDevice sha256 binding before after budget no_faults d = Some (r, d') /\
    same_outside d d' /\ (gb_ok r = true <-> repairable (first_page d)) /\
    (gb_ok r = true -> first_page d' = after) /\ (gb_ok r = false -> d' = d).
Proof.
  intros Hadmit Ho Hro Hsize Hlen Hi. destruct (growth_run budget b true no_faults d Hadmit) as (r & d' & Hrun & [Hout Hno Hok _ Hover _]).
  exists r, d'. split; [exact Hrun|]. split; [exact Hout|].
  assert (Hdone : repairable (first_page d) -> gb_ok r = true).
  { intros Hp. destruct (repair_completes budget b d) as (r2 & d2 & Hr2 & Hok2 & _); [done..|]. unfold RepairFilespacePageZeroGrowthBodyFromOpenDevice in Hr2. congruence. }
  assert (Hwrote : gb_write_attempted r = true -> repairable (first_page d)).
  { intros Hw. destruct (Hover Hw) as [?|[_ ?]]; [by left|by right; right]. }
  split; [|split].
  - split; [|exact Hdone]. intros Hr. destruct (gb_write_attempted r) eqn:Hw; [by apply Hwrote|]. right. left. rewrite <- (Hno eq_refl) at 1. by apply Hok.
  - intros Hr. by apply Hok.
  - intros Hr. apply Hno. apply not_true_iff_false. intros Hw. rewrite Hdone in Hr by auto. done.
Qed.

Lemma same_outside_trans d1 d2 d3 : same_outside d1 d2 -> same_outside d2 d3 -> same_outside d1 d3.
Proof. unfold same_outside. intros (-> & -> & -> & -> & ->) (-> & -> & -> & -> & ->). by split_and!. Qed.

(** The bytes outside the range decide whether a page may be replaced. *)
Lemma immutable_outside d d' :
  (directory_offset <= length before)%nat -> same_outside d d' ->
  immutable before (first_page d) = true -> immutable before (first_page d') = true.
Proof.
  intros Hd (_ & _ & _ & H4 & H5). rewrite !immutable_iff. unfold first_page. rewrite !take_take, !skipn_firstn_comm, H5.
  destruct offsets as (_ & _ & Ho). replace (common_offset `min` length before)%nat with common_offset by lia. by rewrite H4.
Qed.
Transparent body_length slice.
End growth.

(** ** A write that stopped

    The digest of page zero is the last field of the range a growth replaces, and covers
    every other byte of the page; so a prefix of the new range over the old one is no page
    zero, unless two pages have the same digest. *)

(** What the digest of a page zero covers. *)
Definition zero_message (l : list N) : list N := slice 0 digest_offset l ++ replicate 32 0 ++ drop directory_offset l.

Lemma full_digest_message sha256 l :
  (directory_offset <= length l)%nat -> FullDigest sha256 l = Some (sha256 (zero_message l)).
Proof.
  unfold FullDigest, zero_message. destruct offsets as (_ & H1 & H2). revert H1 H2. generalize common_offset digest_offset directory_offset.
  intros co dg dir -> -> Hl. rewrite !load_bytes_some by lia. cbn [mbind option_bind]. do 4 f_equal. unfold slice at 1. apply take_ge. rewrite length_drop. lia.
Qed.

Lemma validate_zero_error v :
  ValidatePageZero v <> pze_hash_provider_failure /\ ValidatePageZero v <> pze_resource_exhausted.
Proof.
  unfold ValidatePageZero, root_pairs_error. cbv zeta. repeat case_match; done.
Qed.

(** A refusal, and the next load of the decoder. *)
Local Ltac no_error Hno := intros [= He]; apply (Hno _ He); set_solver.
Local Ltac next_load :=
  match goal with |- mbind _ ?x = Some (inl _) -> _ => destruct x; cbn [mbind option_bind]; [|by intros [=]] end.

(** Errors of the decoder on a page with a sound preamble: only the provider of digests
    can make it answer that it could not decide. *)
Lemma decode_family_error sha256 l h page generation e :
  (directory_offset + 80 * 32 <= length l)%nat ->
  decode_family sha256 l None h page generation = Some (inl e) ->
  (e = pze_hash_provider_failure /\ sha256 (zero_message l) = None) \/
  (e <> pze_none /\ e <> pze_hash_provider_failure /\ e <> pze_resource_exhausted).
Proof.
  intros Hl. pose proof (full_digest_message sha256 l ltac:(lia)) as Hm. revert Hm. unfold decode_family.
  generalize (FullDigest sha256 l) (zero_message l) family_offset digest_offset directory_offset. intros d m fo dg dir ->. clear Hl.
  assert (Hno : forall e', e' = e -> e' ∈ [pze_invalid_family; pze_integrity_mismatch; pze_invalid_root_directory] ->
    (e = pze_hash_provider_failure /\ sha256 m = None) \/
    (e <> pze_none /\ e <> pze_hash_provider_failure /\ e <> pze_resource_exhausted)).
  { intros ? <- He. right. destruct e'; first [by split_and!|exfalso; set_solver]. }
  do 3 next_load. destruct (decide _); [no_error Hno|]. do 4 next_load. destruct (_ || _); [no_error Hno|]. cbn [mbind option_bind].
  destruct (sha256 m) as [digest|]; [|intros [= <-]; by left].
  next_load. destruct (decide _); [no_error Hno|]. next_load. destruct (negb _); [no_error Hno|]. do 8 next_load.
  match goal with |- context [match ?roots with Some _ => _ | None => _ end] => destruct roots; [|no_error Hno] end.
  match goal with |- context [ValidatePageZero ?v] => destruct (validate_zero_error v); set (w := v) in * end.
  destruct (decide (ValidatePageZero w <> pze_none)); [|done]. intros [= <-]. by right.
Qed.

Section stopped.
Context (sha256 : hash_provider) (binding : FilespaceBootstrapBinding) (before after : list N).

(** A page with the preamble of a sound page zero decodes, is damaged, or cannot be
    decided without the provider's digest. *)
Lemma decode_or_damaged a page :
  DecodeFilespacePageZero sha256 before (Some binding) = Some (inr a) -> length page = length before ->
  take common_offset page = take common_offset before ->
  (exists v, DecodeFilespacePageZero sha256 page (Some binding) = Some (inr v)) \/ damaged sha256 binding page \/
  sha256 (zero_message page) = None.
Proof.
  intros Ha Hlen Hpre. destruct (decode_zero_total sha256 page None (Some binding)) as [[e|v] Hr]; [right|by left; exists v].
  unfold damaged, DecodeFilespacePageZero in *. rewrite Hr. apply decode_zero_inv in Ha as (Hp & Hsize & Hroom & _). rewrite <- Hlen in Hsize, Hroom.
  revert Hr. unfold DecodeValues. assert (Hs : slice 0 common_offset page = slice 0 common_offset before) by (unfold slice; by rewrite !drop_0).
  assert (Hco : (common_offset <= length page)%nat) by (destruct offsets as (_ & _ & ?); lia).
  rewrite <- Hs in Hp. clear Hs Hpre. revert Hp Hco. generalize common_offset. intros co Hp Hco.
  rewrite decide_False by lia. rewrite load_bytes_some by lia. cbn [mbind option_bind]. rewrite Hp. cbn [mbind option_bind].
  rewrite decide_False by (intros X; by apply X). destruct (read_common_room page (pz_bootstrap a) Hroom) as [[[p g]|] ->]; cbn [mbind option_bind].
  - intros H. apply decode_family_error in H as [[_ ?]|?]; [by right|left; by eexists|done].
  - intros [= <-]. left. by eexists.
Qed.

Lemma decoded_digest page v :
  DecodeFilespacePageZero sha256 page (Some binding) = Some (inr v) ->
  sha256 (zero_message page) = Some (slice digest_offset 32 page) /\ (directory_offset <= length page)%nat.
Proof.
  intros H. apply decode_zero_inv in H as (_ & _ & Hroom & _ & count & Hf). pose proof (zf_digest _ _ _ _ _ _ _ Hf) as Hd.
  rewrite full_digest_message in Hd by lia. split; [congruence|lia].
Qed.

(** The page a prefix of the new range leaves. *)
Lemma torn_growth_page k d :
  length before = length after -> (directory_offset <= length before)%nat -> (k <= body_length)%nat ->
  take common_offset before = take common_offset after -> first_page before d = before ->
  first_page before (write_body (take k (slice common_offset body_length after)) d) =
  take (common_offset + k) after ++ drop (common_offset + k) before.
Proof.
  unfold first_page, write_body, body_length, stored. cbn [dk_bytes].
  destruct offsets as (_ & _ & Hd). revert Hd. generalize common_offset directory_offset. intros co dir -> Hl Hb Hk Hpre Hp.
  assert (Hle : (length before <= length (dk_bytes d))%nat) by (pose proof (f_equal length Hp) as X; rewrite length_take in X; lia).
  assert (Ht : take k (slice co (co + 384 - co) after) = take k (drop co after)) by (unfold slice; rewrite take_take; f_equal; lia).
  rewrite Ht. assert (Hn : length (take k (drop co after)) = k) by (rewrite length_take, length_drop; lia). rewrite Hn.
  assert (Hpre' : take co (dk_bytes d) = take co before) by (rewrite <- Hp, take_take; f_equal; lia). rewrite Hpre', Hpre.
  rewrite app_assoc, take_take_drop.
  rewrite take_app_ge by (rewrite length_take; lia). f_equal. rewrite <- Hp at 2. rewrite skipn_firstn_comm. rewrite length_take. f_equal. lia.
Qed.

(** Two pages with the same digest. *)
Definition digest_collision (page page' : list N) : Prop :=
  zero_message page <> zero_message page' /\ sha256 (zero_message page) = sha256 (zero_message page').

Lemma page_parts (l l' : list N) dg dir :
  dir = (dg + 32)%nat -> take dg l = take dg l' -> slice dg 32 l = slice dg 32 l' -> drop dir l = drop dir l' -> l = l'.
Proof.
  intros -> H1 H2 H3. rewrite <- (take_drop dg l), <- (take_drop dg l'), H1. f_equal.
  rewrite <- (take_drop 32 (drop dg l)), <- (take_drop 32 (drop dg l')), !drop_drop. unfold slice in H2. by rewrite H2, H3.
Qed.

Lemma zero_message_front page page' :
  length page = length page' -> zero_message page = zero_message page' -> take digest_offset page = take digest_offset page'.
Proof.
  unfold zero_message, slice. rewrite !drop_0. intros Hl H. apply app_inj_1 in H as [H _]; [done|]. by rewrite !length_take, Hl.
Qed.

(** The parts of a page that begins like one image and ends like the other. *)
Lemma mixed_parts (page : list N) co dg dir k :
  dg = (co + 352)%nat -> dir = (co + 384)%nat -> (k <= dir - co)%nat -> (dir <= length before)%nat -> length before = length after ->
  take co before = take co after -> drop dir before = drop dir after -> page = take (co + k) after ++ drop (co + k) before ->
  length page = length before /\ take co page = take co before /\ drop dir page = drop dir before /\
  (slice dg 32 page = slice dg 32 before \/ take dg page = take dg after).
Proof.
  intros -> -> Hk Hb Hl H1 H2 ->. split_and!.
  - rewrite length_app, length_take, length_drop. lia.
  - rewrite H1, take_app_le, take_take by (rewrite length_take; lia). f_equal. lia.
  - rewrite drop_app, length_take, drop_drop, drop_ge by (rewrite length_take; lia). cbn [app]. f_equal. lia.
  - destruct (decide (k <= 352)%nat).
    + left. unfold slice. f_equal. rewrite drop_app, length_take, drop_drop, drop_ge by (rewrite length_take; lia). cbn [app]. f_equal. lia.
    + right. rewrite take_app_le, take_take by (rewrite length_take; lia). f_equal. lia.
Qed.

(** Over a prefix of the new range the repair can go on, if it gets a digest and no two
    pages share it. *)
Lemma torn_repairable a b k page :
  DecodeFilespacePageZero sha256 before (Some binding) = Some (inr a) ->
  DecodeFilespacePageZero sha256 after (Some binding) = Some (inr b) ->
  length before = length after -> (k <= body_length)%nat -> immutable before after = true ->
  page = take (common_offset + k) after ++ drop (common_offset + k) before ->
  repairable sha256 binding before after page \/ sha256 (zero_message page) = None \/ digest_collision page before.
Proof.
  intros Ha Hb Hl Hk Him Hpage. apply immutable_iff in Him as [I1 I2].
  destruct (decoded_digest before a Ha) as [Da Hroom]. destruct (decoded_digest after b Hb) as [Db _].
  pose proof offsets as (_ & Hdg & Hdir).
  destruct (mixed_parts page common_offset digest_offset directory_offset k Hdg Hdir Hk Hroom Hl I1 I2 Hpage) as (Hlen & Hpre & Hbeyond & Hmid).
  assert (Hdir' : directory_offset = (digest_offset + 32)%nat) by (clear -Hdg Hdir; revert Hdg Hdir; generalize common_offset; lia).
  destruct (decode_or_damaged a page Ha Hlen Hpre) as [[v Hv]|[?|?]]; [|left; by right; right|by right; left].
  destruct (decoded_digest page v Hv) as [Dp _]. destruct Hmid as [Hs|Hfront].
  - destruct (decide (zero_message page = zero_message before)) as [Hm|Hm].
    + left. left. apply (page_parts _ _ digest_offset directory_offset); [done| |done|done]. by apply zero_message_front.
    + right. right. split; [done|]. by rewrite Dp, Da, Hs.
  - left. right. left. apply (page_parts _ _ digest_offset directory_offset); [done|done| |by rewrite Hbeyond].
    assert (Hm : zero_message page = zero_message after).
    { unfold zero_message, slice. by rewrite !drop_0, Hfront, Hbeyond, I2. }
    rewrite Hm, Db in Dp. congruence.
Qed.
End stopped.

(** ** Facts about the recovery probe

    It depends only on the bytes a growth leaves alone, and on a sound page zero it
    finds the roots of the record. *)

(** ** The directory alone *)

Lemma load_beyond dir off n (l l' : list N) :
  length l = length l' -> drop dir l = drop dir l' -> (dir <= off)%nat -> load_bytes off n l = load_bytes off n l'.
Proof.
  intros Hl Hd Ho. unfold load_bytes, slice. rewrite Hl. case_decide; [|done]. do 2 f_equal.
  replace off with (dir + (off - dir))%nat by lia. by rewrite <- !drop_drop, Hd.
Qed.

Section directory.
Context (binding : FilespaceBootstrapBinding) (dir : nat) (l l' : list N).
Context (Hlength : length l = length l') (Hdir : drop dir l = drop dir l').

Lemma load_candidate_beyond off : (dir <= off)%nat -> load_candidate off l = load_candidate off l'.
Proof.
  intros Ho. unfold load_candidate, LoadLittle64, LoadLittle32, LoadLittle16.
  rewrite !(fun o n H => load_beyond dir o n l l' Hlength Hdir H) by lia. done.
Qed.

Lemma probe_roots_beyond count off size observed previous roots :
  (dir <= off)%nat ->
  probe_roots binding count off size observed previous roots l = probe_roots binding count off size observed previous roots l'.
Proof.
  revert off previous roots. induction count as [|count IH]; intros off previous roots Ho; [done|]. cbn [probe_roots].
  rewrite (load_beyond dir off 80 l l') by done. apply option_bind_ext_fun. intros raw. destruct (all_zero raw); [done|].
  rewrite load_candidate_beyond by done. apply option_bind_ext_fun. intros [reserved r]. destruct (decide _); [done|]. apply IH. lia.
Qed.
End directory.

Lemma probe_roots_offset binding count off size observed previous roots rs off' image :
  probe_roots binding count off size observed previous roots image = Some (inr (rs, off')) -> (off <= off')%nat.
Proof.
  revert off previous roots. induction count as [|count IH]; intros off previous roots; cbn [probe_roots]; [by intros [= _ <-]|].
  destruct (load_bytes off 80 image) as [raw|]; [|done]. cbn [mbind option_bind]. destruct (all_zero raw); [by intros [= _ <-]|].
  destruct (load_candidate off image) as [[reserved r]|]; [|done]. cbn [mbind option_bind]. destruct (decide _); [done|].
  intros H. apply IH in H. lia.
Qed.

Lemma probe_directory_beyond binding size observed (l l' : list N) :
  length l = length l' -> drop directory_offset l = drop directory_offset l' ->
  probe_directory binding size observed l = probe_directory binding size observed l'.
Proof.
  intros Hl Hd. unfold probe_directory. rewrite (probe_roots_beyond binding directory_offset l l' Hl Hd) by done.
  destruct (probe_roots _ _ _ _ _ _ _ l') as [[e|[roots off]]|] eqn:H; [done| |done]. cbn [mbind option_bind].
  apply probe_roots_offset in H. rewrite Hl, (load_beyond directory_offset off _ l l') by done. done.
Qed.

(** ** The file of a growth *)

(** What the probe observes of a file. *)
Definition disk_view (d : disk) : device_view :=
  let size := N.of_nat (length (dk_bytes d)) in
  mkDevice (dk_open d) (Some size) (fun offset count => Some (take count (drop (N.to_nat offset) (dk_bytes d)))) (Some size).

Lemma read_disk d count :
  read_all (disk_view d) count = if decide (count <= length (dk_bytes d))%nat then Some (take count (dk_bytes d)) else None.
Proof.
  unfold read_all. cbn [dev_read disk_view]. rewrite drop_0, length_take. repeat case_decide; (done || lia).
Qed.

Lemma take_outside co n (l l' : list N) : (co <= n)%nat -> take co l' = take co l -> take co (take n l') = take co (take n l).
Proof. intros H Ht. rewrite !take_take. by replace (co `min` n)%nat with co by lia. Qed.

(** The probe answers the same for files that differ in the range of a growth. *)
Lemma probe_outside sha256 binding budget d d' :
  same_outside d d' ->
  ProbeFilespaceRecoveryRootCandidatesFromOpenDevice sha256 binding budget (disk_view d') =
  ProbeFilespaceRecoveryRootCandidatesFromOpenDevice sha256 binding budget (disk_view d).
Proof.
  intros (Ho & _ & Hl & Ht & Hd). unfold ProbeFilespaceRecoveryRootCandidatesFromOpenDevice.
  change (dev_open (disk_view d')) with (dk_open d'). change (dev_open (disk_view d)) with (dk_open d).
  change (dev_size_before (disk_view d')) with (Some (N.of_nat (length (dk_bytes d')))).
  change (dev_size_before (disk_view d)) with (Some (N.of_nat (length (dk_bytes d)))).
  change (dev_size_after (disk_view d')) with (Some (N.of_nat (length (dk_bytes d')))).
  change (dev_size_after (disk_view d)) with (Some (N.of_nat (length (dk_bytes d)))).
  rewrite !read_disk, Ho, Hl, Ht. destruct (decide (budget < 4096)); [reflexivity|]. destruct (negb (dk_open d)); [reflexivity|].
  destruct (decide (common_offset <= _)%nat); [|reflexivity].
  destruct (DecodeFilespaceBootstrap sha256 (take common_offset (dk_bytes d)) (Some binding)) as [[e|h]|] eqn:Hp; [reflexivity| |reflexivity].
  apply decoded_preamble in Hp as (_ & _ & Hs). cbn [mbind option_bind].
  assert (Hco : (common_offset <= N.to_nat (bt_page_size_bytes h))%nat) by (pose proof common_offset_N; lia).
  destruct (negb _); [reflexivity|]. destruct (N.testbit _ 0); [reflexivity|]. destruct (N.testbit _ 1); [reflexivity|].
  destruct (decide (_ < bt_page_size_bytes h)); [reflexivity|]. destruct (decide (_ < bt_page_size_bytes h)); [reflexivity|].
  rewrite !read_disk, Hl. destruct (decide (N.to_nat (bt_page_size_bytes h) <= _)%nat) as [Hfit|]; [|reflexivity].
  rewrite (take_outside common_offset _ _ _ Hco Ht). destruct (decide (_ <> take common_offset _)); [reflexivity|].
  rewrite (probe_directory_beyond binding _ _ (take (N.to_nat (bt_page_size_bytes h)) (dk_bytes d')) (take (N.to_nat (bt_page_size_bytes h)) (dk_bytes d)));
    [reflexivity|rewrite !length_take; lia|by rewrite !skipn_firstn_comm, Hd].
Qed.

(** ** A sound directory *)

Lemma root_type_kind k : CanonicalPageZeroRootPageType k <> 0 -> k <= 21.
Proof.
  unfold CanonicalPageZeroRootPageType. destruct (root_page_types !! N.to_nat k) eqn:H; [|done]. intros _.
  apply lookup_lt_Some in H. cbn [root_page_types length] in H. lia.
Qed.

(** Roots that agree with every other root agree with the earlier ones. *)
Lemma earlier_agree v r pre post :
  pz_roots v = pre ++ r :: post ->
  existsb (fun p : nat * FilespaceRootReference => bool_decide (p.1 <> length pre) && roots_disagree r p.2)
    (imap (fun j r => (j, r)) (pz_roots v)) = false ->
  existsb (fun old =>
    bool_decide (rt_filespace_uuid old = rt_filespace_uuid r) &&
    (bool_decide (rt_page_size_profile_uuid old <> rt_page_size_profile_uuid r) ||
     (bool_decide (rt_page_number old = rt_page_number r) &&
      bool_decide (rt_page_type old <> rt_page_type r \/ rt_page_generation old <> rt_page_generation r \/
                   rt_object_uuid old <> rt_object_uuid r)))) pre = false.
Proof.
  intros Hroots Hall. apply not_true_iff_false. intros Hex. apply existsb_exists in Hex as (old & Hin & Hdis).
  apply not_true_iff_false in Hall. apply Hall, existsb_exists. apply list_elem_of_In, list_elem_of_lookup in Hin as [j Hj].
  exists (j, old). split.
  - apply list_elem_of_In, list_elem_of_lookup. exists j. rewrite list_lookup_imap, Hroots, lookup_app_l by (by eapply lookup_lt_Some). by rewrite Hj.
  - cbn [fst snd]. apply lookup_lt_Some in Hj. rewrite bool_decide_true by lia. cbn [andb]. unfold roots_disagree.
    rewrite !andb_true_iff, !orb_true_iff, !andb_true_iff, !bool_decide_eq_true in *. destruct Hdis as [H1 [H2|[H2 H3]]].
    + split; [congruence|]. left. intros H. apply uuid_bytes_inj in H. congruence.
    + split; [congruence|]. right. split; [done|]. destruct H3 as [H3|[H3|H3]]; [right; left; congruence|left; congruence|].
      right; right. intros H. apply uuid_bytes_inj in H. congruence.
Qed.

(** A root page zero accepts is a candidate. *)
Lemma root_accepted binding v previous r pre post size observed :
  pz_roots v = pre ++ r :: post -> root_refused v previous (length pre) r = false -> zero_bound v binding ->
  N.testbit (bt_flags (pz_bootstrap v)) 1 = false -> pz_total_pages v <= observed / size ->
  candidate_error binding size observed previous pre true r = rre_none.
Proof.
  intros Hroots Hr (_ & Hfs & Hpf) Hflag Hext. unfold root_refused in Hr. cbv zeta in Hr. rewrite Hflag in Hr. cbn [negb] in Hr.
  apply orb_false_iff in Hr as [Hr Hold]. apply orb_false_iff in Hr as [Hr Hcluster]. apply orb_false_iff in Hr as [Hr Hthree].
  apply orb_false_iff in Hr as [Hr Hlocal]. apply orb_false_iff in Hr as [Hr Hprofile]. apply orb_false_iff in Hr as [Hr Hgen].
  apply orb_false_iff in Hr as [Hr Hnum]. apply orb_false_iff in Hr as [Hr Hobj]. apply orb_false_iff in Hr as [Hr Hv7].
  apply orb_false_iff in Hr as [Hr Htype]. apply orb_false_iff in Hr as [Hzero Hprev].
  apply negb_false_iff in Hobj, Hv7. apply bool_decide_eq_false in Hgen, Hnum, Htype, Hzero, Hprev. apply dec_stable in Htype.
  unfold candidate_error. cbv zeta. rewrite Hobj, Hv7. pose proof (root_type_kind _ Hzero) as Hk.
  rewrite (bool_decide_true (previous < rt_kind r)), (bool_decide_true (rt_kind r <= 21)), (bool_decide_true (_ = rt_page_type r)),
    (bool_decide_true (rt_page_type r <> 0)), (bool_decide_true (rt_page_number r <> 0)), (bool_decide_true (rt_page_generation r <> 0))
    by (first [exact Hnum|exact Hgen|exact Hk|by apply N.nle_gt|congruence]). cbn [andb negb].
  destruct (FindCanonicalFilespacePageProfile (rt_page_size_profile_uuid r)) as [profile|]; [|done].
  apply orb_false_iff in Hprofile as [P1 P2]. apply bool_decide_eq_false in P1, P2. apply dec_stable in P2.
  unfold CheckFileDeviceExtent. rewrite (bool_decide_true (rt_page_number r <= _)), (bool_decide_true (BoundedExtentError _ _ = _)) by (first [exact P2|by apply N.lt_le_incl, N.nle_gt]).
  cbn [andb negb]. rewrite andb_true_r in Hcluster. rewrite Hcluster. rewrite Hfs, Hpf.
  assert (Hsame : forall a b : Uuid, bool_decide (uuid_bytes a = uuid_bytes b) = bool_decide (a = b)).
  { intros a b. apply bool_decide_ext. split; [apply uuid_bytes_inj|by intros ->]. }
  rewrite Hsame in Hlocal. destruct (bool_decide (rt_filespace_uuid r = _)) eqn:Hl; cbn [andb negb] in *.
  - apply orb_false_iff in Hlocal as [L1 L2]. apply bool_decide_eq_false in L1, L2. apply dec_stable, uuid_bytes_inj in L1.
    rewrite (bool_decide_true (rt_page_size_profile_uuid r = _)), (bool_decide_true (rt_page_number r < _)) by (first [exact L1|lia]). cbn [andb negb].
    rewrite andb_false_r. by rewrite (earlier_agree v r pre post Hroots Hold).
  - apply bool_decide_eq_false in Hl. rewrite andb_true_r. destruct (bool_decide (rt_kind r = 3)) eqn:H3; cbn [andb] in Hthree.
    + apply bool_decide_eq_false, dec_stable, uuid_bytes_inj in Hthree. done.
    + by rewrite (earlier_agree v r pre post Hroots Hold).
Qed.

Lemma all_zero_take n (l : list N) : all_zero l = true -> all_zero (take n l) = true.
Proof. rewrite !all_zero_iff. intros H. rewrite H, take_replicate. by rewrite length_replicate. Qed.

(** An entry page zero reads is the candidate's, and not zero if its kind is not. *)
Lemma load_candidate_root off image r :
  load_root off image = Some (Some r) -> (off + 80 <= length image)%nat ->
  load_candidate off image = Some (true, r) /\ (rt_kind r <> 0 -> all_zero (slice off 80 image) = false).
Proof.
  intros H Hl. unfold load_root, load_candidate, LoadLittle64, LoadLittle32, LoadLittle16 in *.
  rewrite (load_bytes_some (off + 2) 2), (load_bytes_some (off + 72) 8) in H by lia. cbn [mbind option_bind fmap option_fmap option_map] in H.
  destruct (_ || _) eqn:Hr; [done|]. apply orb_false_iff in Hr as [R1 R2]. apply bool_decide_eq_false, dec_stable in R1. apply negb_false_iff in R2.
  rewrite (load_bytes_some off 2), (load_bytes_some (off + 4) 4), (load_bytes_some (off + 8) 16), (load_bytes_some (off + 24) 8),
    (load_bytes_some (off + 32) 8), (load_bytes_some (off + 40) 16), (load_bytes_some (off + 56) 16) in H |- * by lia.
  rewrite (load_bytes_some (off + 2) 2), (load_bytes_some (off + 72) 8) by lia.
  cbn [mbind option_bind fmap option_fmap option_map] in H |- *. injection H as <-. cbn [rt_kind]. rewrite R1, R2. split; [done|].
  intros Hk. apply not_true_iff_false. intros Hz. apply Hk.
  assert (Hs : slice off 2 image = take 2 (slice off 80 image)) by (unfold slice; by rewrite take_take).
  rewrite Hs. apply all_zero_iff in Hz. rewrite Hz, length_slice by lia. reflexivity.
Qed.

(** The loop over a directory whose roots are all accepted. *)
Lemma probe_roots_all binding v image size observed n pre rs previous off :
  pz_roots v = pre ++ rs -> roots_refused v previous (length pre) rs = false -> zero_bound v binding ->
  N.testbit (bt_flags (pz_bootstrap v)) 1 = false -> pz_total_pages v <= observed / size ->
  load_roots off (length rs) image = Some (Some rs) -> (length rs <= n)%nat -> (off + 80 * n <= length image)%nat ->
  all_zero (drop (off + 80 * length rs) image) = true ->
  probe_roots binding n off size observed previous pre image = Some (inr (pz_roots v, (off + 80 * length rs)%nat)).
Proof.
  intros Hroots Href Hb Hflag Hext. revert pre previous off n Hroots Href.
  induction rs as [|r rs IH]; intros pre previous off n Hroots Href Hload Hn Hl Hz.
  - cbn [length] in *. rewrite app_nil_r in Hroots. rewrite Nat.mul_0_r, Nat.add_0_r in *. destruct n as [|n]; cbn [probe_roots]; [by rewrite Hroots|].
    rewrite (load_bytes_some off 80) by lia. cbn [mbind option_bind]. unfold slice. rewrite all_zero_take by done. by rewrite Hroots.
  - destruct n as [|n]; [cbn [length] in Hn; lia|]. cbn [roots_refused] in Href. apply orb_false_iff in Href as [Hr Href].
    cbn [load_roots length] in Hload. destruct (load_root off image) as [[r'|]|] eqn:Hr'; [|done..]. cbn [mbind option_bind] in Hload.
    destruct (load_roots (off + 80) (length rs) image) as [[rs'|]|] eqn:Hrs; [|done..]. cbn [mbind option_bind] in Hload. injection Hload as -> ->.
    cbn [probe_roots]. rewrite (load_bytes_some off 80) by lia. cbn [mbind option_bind].
    assert (Hkind : rt_kind r <> 0).
    { unfold root_refused in Hr. cbv zeta in Hr. intros H0. rewrite H0 in Hr. done. }
    destruct (load_candidate_root off image r Hr') as [Hc Hk]; [lia|]. rewrite Hk by done. rewrite Hc. cbn [mbind option_bind].
    rewrite (root_accepted binding v previous r pre rs) by done. rewrite decide_False by (intros X; by apply X).
    rewrite (IH (pre ++ [r]) (rt_kind r) (off + 80)%nat n); try done.
    + cbn [length]. do 3 f_equal. lia.
    + by rewrite <- app_assoc.
    + rewrite length_app. cbn [length]. by rewrite Nat.add_1_r.
    + cbn [length] in Hn. lia.
    + lia.
    + cbn [length] in Hz. by replace (off + 80 + 80 * length rs)%nat with (off + 80 * S (length rs))%nat by lia.
Qed.

(** ** The pairs of roots *)

Lemma kinds_bit (roots : list FilespaceRootReference) (k acc : N) :
  N.testbit (foldl (fun kinds root => N.lor kinds (N.shiftl 1 (rt_kind root))) acc roots) k = true ->
  N.testbit acc k = true \/ is_Some (find_root k roots).
Proof.
  unfold find_root. revert acc. induction roots as [|r roots IH]; intros acc H; [by left|]. cbn [foldl] in H. cbn [list_find].
  destruct (decide (rt_kind r = k)) as [Hk|Hk]; [right; by eexists|]. apply IH in H as [H|[x H]].
  - left. rewrite N.lor_spec, N.shiftl_1_l, N.pow2_bits_eqb in H. apply orb_true_iff in H as [H|H]; [done|]. by apply N.eqb_eq in H.
  - right. destruct (list_find _ roots) as [[j y]|]; [by eexists|done].
Qed.

Lemma has_root roots mask k :
  N.land (root_kinds roots) mask = mask -> N.testbit mask k = true -> is_Some (find_root k roots).
Proof.
  intros Hm Hk. rewrite <- Hm, N.land_spec in Hk. apply andb_true_iff in Hk as [Hk _]. apply kinds_bit in Hk as [Hk|Hk]; [|done].
  by rewrite N.bits_0 in Hk.
Qed.

Lemma pairs_accepted binding v :
  root_pairs_error v = pze_none -> zero_bound v binding ->
  N.land (root_kinds (pz_roots v)) recovery_kinds = recovery_kinds -> pairs_refused binding (pz_roots v) = false.
Proof.
  intros He (_ & Hfs & _) Hm. destruct (has_root _ _ 18 Hm eq_refl) as [r18 H18]. destruct (has_root _ _ 19 Hm eq_refl) as [r19 H19].
  destruct (has_root _ _ 20 Hm eq_refl) as [r20 H20]. destruct (has_root _ _ 21 Hm eq_refl) as [r21 H21].
  unfold root_pairs_error in He. cbv zeta in He. rewrite H18, H19, H20, H21 in He.
  destruct (checkpoint_refused _ _ _) eqn:Hc; [done|]. destruct (watermark_refused _ _ _ _ _) eqn:Hw; [done|]. clear He.
  unfold checkpoint_refused in Hc. unfold watermark_refused in Hw. unfold pairs_refused, pair_refused. rewrite H18, H19, H20, H21, Hfs.
  rewrite !orb_false_iff, !bool_decide_eq_false in Hc. destruct Hc as ((((_ & C1) & C2) & C3) & C4).
  rewrite !orb_false_iff, !bool_decide_eq_false in Hw. destruct Hw as ((((((_ & W1) & W2) & W3) & W4) & W5) & W6).
  apply dec_stable in C1, C2, C3, W1, W2, W3. rewrite W6.
  rewrite (bool_decide_true (rt_filespace_uuid r18 = _)), (bool_decide_true (rt_filespace_uuid r19 = _)),
    (bool_decide_true (rt_filespace_uuid r20 = _)), (bool_decide_true (rt_filespace_uuid r21 = _)),
    (bool_decide_true (rt_object_uuid r18 = rt_object_uuid r19)), (bool_decide_true (rt_object_uuid r20 = rt_object_uuid r21)),
    (bool_decide_true (rt_page_number r18 <> _)), (bool_decide_true (rt_page_number r20 <> _)),
    (bool_decide_false (rt_object_uuid r18 = rt_object_uuid r20)) by (first [assumption|congruence]). reflexivity.
Qed.

(** ** The directory of a sound page zero *)

Lemma load_roots_length off n l rs : load_roots off n l = Some (Some rs) -> length rs = n.
Proof.
  revert off rs. induction n as [|n IH]; intros off rs; cbn [load_roots]; [by intros [= <-]|].
  destruct (load_root off l) as [[r|]|]; [|done..]. cbn [mbind option_bind].
  destruct (load_roots (off + 80) n l) as [[rs'|]|] eqn:H; [|done..]. intros [= <-]. cbn [length]. f_equal. by eapply IH.
Qed.

Lemma validated_directory v :
  ValidatePageZero v = pze_none ->
  (length (pz_roots v) <= 32)%nat /\ roots_refused v 0 0 (pz_roots v) = false /\ root_pairs_error v = pze_none.
Proof.
  unfold ValidatePageZero. cbv zeta. destruct (decide (ValidateFilespaceBootstrap _ _ <> _)); [done|]. destruct (negb _ || _ || _ || _ || _); [done|].
  destruct (decide (_ \/ _)); [done|]. destruct (decide (32 < _)%nat); [done|]. destruct (roots_refused _ _ _ _); [done|]. intros H.
  split; [lia|done].
Qed.

Lemma probe_directory_sound sha256 binding size observed l capacity v :
  DecodeValues sha256 l capacity (Some binding) = Some (inr v) -> N.testbit (bt_flags (pz_bootstrap v)) 1 = false ->
  pz_total_pages v <= observed / size -> N.land (root_kinds (pz_roots v)) recovery_kinds = recovery_kinds ->
  probe_directory binding size observed l = Some (inr (pz_roots v)).
Proof.
  intros Hd Hflag Hext Hkinds. destruct (decode_zero_bound sha256 _ _ _ _ Hd) as [_ Hb].
  apply decode_zero_inv in Hd as (_ & _ & Hroom & _ & count & Hf).
  destruct (validated_directory v (zf_valid _ _ _ _ _ _ _ Hf)) as (Hn & Href & Hpairs).
  pose proof (zf_roots _ _ _ _ _ _ _ Hf) as Hload. pose proof (load_roots_length _ _ _ _ Hload) as Hlen. rewrite <- Hlen in Hload.
  pose proof (zf_rest _ _ _ _ _ _ _ Hf) as Hrest. rewrite <- Hlen in Hrest.
  pose proof (zf_fits _ _ _ _ _ _ _ Hf) as Hfit. rewrite <- Hlen in Hfit.
  clear Hf Hlen. revert Hroom Hload Hrest Hfit. unfold probe_directory. generalize directory_offset. intros dir Hroom Hload Hrest Hfit.
  assert (Hzero : all_zero (drop (dir + 80 * length (pz_roots v)) l) = true).
  { unfold slice in Hrest. rewrite take_ge in Hrest by (rewrite length_drop; lia). rewrite Hrest. apply all_zero_replicate. }
  rewrite (probe_roots_all binding v l size observed 32 [] (pz_roots v) 0 dir Logic.eq_refl Href Hb Hflag Hext Hload Hn Hroom Hzero).
  cbn [mbind option_bind]. rewrite (load_bytes_some (dir + 80 * length (pz_roots v))) by lia. cbn [mbind option_bind].
  rewrite Hrest, all_zero_replicate. cbn [negb]. rewrite decide_False by (intros X; by apply X).
  rewrite (pairs_accepted binding v Hpairs Hb Hkinds). reflexivity.
Qed.

Lemma bootstrap_role h expected : ValidateFilespaceBootstrap h expected = bte_none -> 1 <= bt_filespace_role h.
Proof.
  unfold ValidateFilespaceBootstrap. destruct (negb _ || negb _); [done|].
  destruct (FindCanonicalFilespacePageProfile (bt_page_size_profile_uuid h)) as [profile|]; [|done].
  destruct (decide (cfp_page_size_bytes profile <> _)); [done|]. destruct (decide (_ \/ _)); [done|].
  destruct (decide (N.ldiff _ 3 <> 0)); [done|]. destruct (decide (uuid_bytes _ <> _)); [done|].
  destruct (decide (bt_filespace_role h < 1 \/ _)); [done|]. intros _. lia.
Qed.

Lemma probe_sound_page sha256 binding budget d image v :
  DecodeFilespacePageZero sha256 image (Some binding) = Some (inr v) -> dk_open d = true ->
  take (length image) (dk_bytes d) = image -> pz_total_pages v * bt_page_size_bytes (pz_bootstrap v) <= N.of_nat (length (dk_bytes d)) ->
  bt_filespace_role (pz_bootstrap v) <= 4 -> N.testbit (bt_flags (pz_bootstrap v)) 0 = false -> N.testbit (bt_flags (pz_bootstrap v)) 1 = false ->
  N.land (root_kinds (pz_roots v)) recovery_kinds = recovery_kinds -> 4096 + bt_page_size_bytes (pz_bootstrap v) <= budget ->
  ProbeFilespaceRecoveryRootCandidatesFromOpenDevice sha256 binding budget (disk_view d) =
  Some (inr (mkCandidates (pz_bootstrap v) (pz_roots v) (N.of_nat (length (dk_bytes d))))).
Proof.
  intros Hd Ho Himage Hsize Hrole Hf0 Hf1 Hkinds Hbudget. pose proof Hd as Hinv. apply decode_zero_inv in Hinv as (Hp & Hlen & _).
  pose proof Hp as Hs. apply decoded_preamble in Hs as (_ & _ & Hs).
  assert (Hr : 1 <= bt_filespace_role (pz_bootstrap v)).
  { destruct (decode_bootstrap_iff sha256 (slice 0 common_offset image) (Some binding)) as (r & Hr & Hiff). rewrite Hp in Hr. injection Hr as <-.
    destruct (proj1 (Hiff _) eq_refl) as (_ & _ & Hv). by eapply bootstrap_role. }
  assert (Hl : (length image <= length (dk_bytes d))%nat) by (rewrite <- Himage at 1; rewrite length_take; lia).
  unfold ProbeFilespaceRecoveryRootCandidatesFromOpenDevice.
  rewrite decide_False by lia. change (dev_open (disk_view d)) with (dk_open d). rewrite Ho. cbn [negb]. rewrite read_disk.
  assert (Hco : (common_offset <= length image)%nat) by (pose proof common_offset_N; lia). revert Hp Hco. generalize common_offset. intros co Hp Hco.
  rewrite decide_True by lia. assert (Hpre : take co (dk_bytes d) = slice 0 co image).
  { unfold slice. rewrite drop_0, <- Himage, take_take. f_equal. lia. }
  rewrite Hpre, Hp. cbn [mbind option_bind]. rewrite bool_decide_true by lia. cbn [negb]. rewrite Hf0, Hf1. rewrite decide_False by lia.
  change (dev_size_before (disk_view d)) with (Some (N.of_nat (length (dk_bytes d)))).
  change (dev_size_after (disk_view d)) with (Some (N.of_nat (length (dk_bytes d)))). cbv iota.
  rewrite decide_False by lia. rewrite read_disk, decide_True by lia. replace (N.to_nat (bt_page_size_bytes (pz_bootstrap v))) with (length image) by lia.
  rewrite Himage. rewrite decide_False by (unfold slice; rewrite drop_0; intros X; by apply X).
  rewrite (probe_directory_sound sha256 binding _ _ image None v); [|done|done|by apply N.div_le_lower_bound; lia|done].
  cbn [mbind option_bind]. rewrite decide_False by (intros X; by apply X). reflexivity.
Qed.
