(* ===== verification/TipPage.v ===== *)
(** * The in-place transaction state page

    Models [storage/page/transaction_state_page.{hpp,cpp}] (the page of 4-byte state
    words, its formatter, decoder and in-place edits) and
    [storage/page/transaction_state_code_map.{hpp,cpp}] (durable codes against in-memory
    states).  An image is a list of bytes; a routine that edits an image returns it.  The
    outer [None] is an access outside the image.  A state code or authority class is
    one of the enumerators. *)

From S2P Require Import Prelude Platform TransactionState Bytes PageFrame.

(** ** Vocabulary *)

Definition kTransactionStatePageType : N := 769.
(** "SBTIPW01" *)
Definition kTransactionStatePageMagic : list N := [83; 66; 84; 73; 80; 87; 48; 49].
Definition kTransactionStatePageVersion : N := 1.
Definition kTransactionStateWordsOffset : nat := 512.
Definition kTransactionStateWordBytes : nat := 4.
Definition kTransactionStateWriteUnitBytes : nat := 512.

Inductive TipStateCode :=
| tip_unused | tip_starting | tip_active | tip_read_only_active | tip_prepared | tip_committing | tip_committed
| tip_rolling_back | tip_rolled_back | tip_dead | tip_limbo | tip_recovering | tip_archived.

#[export] Instance TipStateCode_eq_dec : EqDecision TipStateCode.
Proof. solve_decision. Defined.

Definition kTipStateCodeMax : N := 12.

Definition tip_codes : list TipStateCode :=
  [tip_unused; tip_starting; tip_active; tip_read_only_active; tip_prepared; tip_committing; tip_committed;
   tip_rolling_back; tip_rolled_back; tip_dead; tip_limbo; tip_recovering; tip_archived].

(** The casts between a code and its byte. *)
Definition tip_byte (c : TipStateCode) : N :=
  match c with
  | tip_unused => 0 | tip_starting => 1 | tip_active => 2 | tip_read_only_active => 3 | tip_prepared => 4
  | tip_committing => 5 | tip_committed => 6 | tip_rolling_back => 7 | tip_rolled_back => 8 | tip_dead => 9
  | tip_limbo => 10 | tip_recovering => 11 | tip_archived => 12
  end.
Definition tip_of_byte (b : N) : option TipStateCode := tip_codes !! N.to_nat b.

Definition TipStateCodeName (c : TipStateCode) : string :=
  match c with
  | tip_unused => "unused" | tip_starting => "starting" | tip_active => "active"
  | tip_read_only_active => "read_only_active" | tip_prepared => "prepared" | tip_committing => "committing"
  | tip_committed => "committed" | tip_rolling_back => "rolling_back" | tip_rolled_back => "rolled_back"
  | tip_dead => "dead" | tip_limbo => "limbo" | tip_recovering => "recovering" | tip_archived => "archived"
  end.

Inductive TipAuthorityClass := tau_local | tau_cluster | tau_system.

#[export] Instance TipAuthorityClass_eq_dec : EqDecision TipAuthorityClass.
Proof. solve_decision. Defined.

Definition authority_byte (a : TipAuthorityClass) : N :=
  match a with tau_local => 0 | tau_cluster => 1 | tau_system => 2 end.
Definition authority_of_byte (b : N) : option TipAuthorityClass :=
  [tau_local; tau_cluster; tau_system] !! N.to_nat b.

Definition kTipFlagHasDetailRecord : N := 1.
Definition kTipFlagMask : N := 31.
Definition kTipIntentMax : N := 63.

Record TipStateWord := mkWord {
  tw_state : TipStateCode;
  tw_flags : N;
  tw_authority : TipAuthorityClass;
  tw_intent : N;
  tw_epoch_delta : N }.

#[export] Instance TipStateWord_eq_dec : EqDecision TipStateWord.
Proof. solve_decision. Defined.

Record TipHorizons := mkTipHorizons {
  th_oldest_interesting : N;
  th_oldest_active : N;
  th_oldest_snapshot : N;
  th_oldest_cleanup : N;
  th_oldest_archive_required : N;
  th_oldest_limbo_resolution : N }.

Record TipCounters := mkTipCounters {
  tc_next_transaction : N;
  tc_horizons : TipHorizons }.

#[export] Instance TipHorizons_eq_dec : EqDecision TipHorizons.
Proof. solve_decision. Defined.

#[export] Instance TipCounters_eq_dec : EqDecision TipCounters.
Proof. solve_decision. Defined.

Inductive TipPageError :=
| tpe_none | tpe_invalid_page_size | tpe_invalid_header | tpe_invalid_family | tpe_invalid_counters
| tpe_invalid_word | tpe_invalid_slot | tpe_invalid_link | tpe_next_regression | tpe_short_buffer.

#[export] Instance TipPageError_eq_dec : EqDecision TipPageError.
Proof. solve_decision. Defined.

Definition TipPageErrorName (e : TipPageError) : string :=
  match e with
  | tpe_none => "none" | tpe_invalid_page_size => "invalid_page_size" | tpe_invalid_header => "invalid_header"
  | tpe_invalid_family => "invalid_family" | tpe_invalid_counters => "invalid_counters"
  | tpe_invalid_word => "invalid_word" | tpe_invalid_slot => "invalid_slot" | tpe_invalid_link => "invalid_link"
  | tpe_next_regression => "next_regression" | tpe_short_buffer => "short_buffer"
  end.

Record TipPageFormat := mkTipFormat {
  tf_header : NativeCommonPageHeader;
  tf_tip_sequence : N;
  tf_next_tip_page : N;
  tf_header_chain_page : N;
  tf_counters : option TipCounters }.

Record TipPageView := mkTipView {
  tv_header : NativeCommonPageHeader;
  tv_tip_sequence : N;
  tv_first_number : N;
  tv_slots : N;
  tv_next_tip_page : N;
  tv_header_chain_page : N;
  tv_counters : option TipCounters;
  tv_image : list N }.

Record TipSlotLocation := mkTipSlot { tsl_tip_sequence : N; tsl_slot : N }.

Record TipPageEdit := mkTipEdit {
  te_error : TipPageError;
  te_unit_offset : nat;
  te_changed : bool;
  te_preimage : list N }.

(** ** Layout *)

Definition kMagic : nat := 128.
Definition kVersion : nat := 136.
Definition kWordBytes : nat := 138.
Definition kSlots : nat := 140.
Definition kSequence : nat := 144.
Definition kFirstNumber : nat := 152.
Definition kHeaderChain : nat := 160.
Definition kFamilyEnd : nat := 168.
Definition kNextPage : nat := 256.
Definition kNext : nat := 264.
Definition kHorizons : nat := 272.
Definition kCountersEnd : nat := 320.

Definition WordOffset (slot : N) : nat := kTransactionStateWordsOffset + kTransactionStateWordBytes * N.to_nat slot.

Definition TipSlotsPerPage (page_size : N) : N :=
  if decide (page_size <= 512 \/ page_size mod 512 <> 0) then 0 else (page_size - 512) / 4.

Definition LocateTransactionStateSlot (page_size transaction_order : N) : option TipSlotLocation :=
  let slots := TipSlotsPerPage page_size in
  if decide (slots = 0 \/ transaction_order = 0) then None
  else Some (mkTipSlot (transaction_order / slots) (transaction_order mod slots)).

(** ** State words *)

Definition DecodeTipStateWord (b : list N) : option TipStateWord :=
  match b with
  | [b0; b1; b2; b3] =>
    if bool_decide (kTipStateCodeMax < b0) || bool_decide (N.ldiff b1 kTipFlagMask <> 0) ||
       bool_decide (N.land b2 3 = 3) then None
    else
    state ← tip_of_byte b0;
    authority ← authority_of_byte (N.land b2 3);
    if decide (state = tip_unused /\ (b1 <> 0 \/ b2 <> 0 \/ b3 <> 0)) then None
    else Some (mkWord state b1 authority (N.shiftr b2 2) b3)
  | _ => None
  end.

Definition EncodeTipStateWord (w : TipStateWord) : option (list N) :=
  let state := tip_byte (tw_state w) in
  let authority := authority_byte (tw_authority w) in
  if bool_decide (kTipStateCodeMax < state) || bool_decide (N.ldiff (tw_flags w) kTipFlagMask <> 0) ||
     bool_decide (2 < authority) || bool_decide (kTipIntentMax < tw_intent w) then None
  else if decide (tw_state w = tip_unused /\
                  (tw_flags w <> 0 \/ authority <> 0 \/ tw_intent w <> 0 \/ tw_epoch_delta w <> 0)) then None
  else Some [state; tw_flags w; N.lor authority (N.shiftl (tw_intent w) 2) mod 256; tw_epoch_delta w].

Definition WordBytes (image : list N) (slot : N) : option (list N) :=
  load_bytes (WordOffset slot) kTransactionStateWordBytes image.

(** ** Counters *)

Definition horizon_values (h : TipHorizons) : list N :=
  [th_oldest_interesting h; th_oldest_active h; th_oldest_snapshot h; th_oldest_cleanup h;
   th_oldest_archive_required h; th_oldest_limbo_resolution h].

Definition HorizonsValid (c : TipCounters) : bool :=
  bool_decide (tc_next_transaction c <> 0) &&
  forallb (fun v => negb (bool_decide (v = 0 \/ tc_next_transaction c < v))) (horizon_values (tc_horizons c)).

Definition PutCounters (c : TipCounters) (page : list N) : option (list N) :=
  let h := tc_horizons c in
  page ← StoreLittle64 kNext (tc_next_transaction c) page;
  page ← StoreLittle64 kHorizons (th_oldest_interesting h) page;
  page ← StoreLittle64 (kHorizons + 8) (th_oldest_active h) page;
  page ← StoreLittle64 (kHorizons + 16) (th_oldest_snapshot h) page;
  page ← StoreLittle64 (kHorizons + 24) (th_oldest_cleanup h) page;
  page ← StoreLittle64 (kHorizons + 32) (th_oldest_archive_required h) page;
  StoreLittle64 (kHorizons + 40) (th_oldest_limbo_resolution h) page.

Definition GetCounters (page : list N) : option TipCounters :=
  next ← LoadLittle64 kNext page;
  interesting ← LoadLittle64 kHorizons page;
  active ← LoadLittle64 (kHorizons + 8) page;
  snapshot ← LoadLittle64 (kHorizons + 16) page;
  cleanup ← LoadLittle64 (kHorizons + 24) page;
  archive ← LoadLittle64 (kHorizons + 32) page;
  limbo ← LoadLittle64 (kHorizons + 40) page;
  Some (mkTipCounters next (mkTipHorizons interesting active snapshot cleanup archive limbo)).

(** ** Formatting *)

Definition format_error (f : TipPageFormat) (header : NativeCommonPageHeaderError + list N) : TipPageError :=
  let slots := TipSlotsPerPage (ph_page_size_bytes (tf_header f)) in
  if decide (slots = 0) then tpe_invalid_page_size
  else if decide (ph_page_type (tf_header f) <> kTransactionStatePageType \/ ph_flags (tf_header f) <> 0)
  then tpe_invalid_header
  else match header with inl _ => tpe_invalid_header | inr _ =>
    if decide (u64_max / slots < tf_tip_sequence f) then tpe_invalid_family
    else if negb (Bool.eqb (tf_tip_sequence f =? 0) (bool_decide (is_Some (tf_counters f)))) then tpe_invalid_counters
    else if match tf_counters f with Some c => negb (HorizonsValid c) | None => false end then tpe_invalid_counters
    else if decide (tf_next_tip_page f = ph_page_number (tf_header f)) then tpe_invalid_link
    else if negb (Bool.eqb (tf_tip_sequence f =? 0) (bool_decide (tf_header_chain_page f <> 0))) ||
            bool_decide (tf_header_chain_page f = ph_page_number (tf_header f)) ||
            bool_decide (tf_header_chain_page f <> 0 /\ tf_header_chain_page f = tf_next_tip_page f)
    then tpe_invalid_link
    else tpe_none
  end.

Definition FormatTransactionStatePage (f : TipPageFormat) (output : list N) : option (TipPageError * list N) :=
  let page_size := ph_page_size_bytes (tf_header f) in
  let slots := TipSlotsPerPage page_size in
  header ← EncodeNativeCommonPageHeader (tf_header f);
  match format_error f header, header with
  | tpe_none, inr bytes =>
    if decide (N.of_nat (length output) < page_size) then Some (tpe_short_buffer, output)
    else
    p ← store_bytes 0 (replicate (N.to_nat page_size) 0) output;
    p ← store_bytes 0 bytes p;
    p ← store_bytes kMagic kTransactionStatePageMagic p;
    p ← StoreLittle16 kVersion kTransactionStatePageVersion p;
    p ← StoreLittle16 kWordBytes (N.of_nat kTransactionStateWordBytes) p;
    p ← StoreLittle32 kSlots slots p;
    p ← StoreLittle64 kSequence (tf_tip_sequence f) p;
    p ← StoreLittle64 kFirstNumber (tf_tip_sequence f * slots) p;
    p ← StoreLittle64 kHeaderChain (tf_header_chain_page f) p;
    p ← StoreLittle64 kNextPage (tf_next_tip_page f) p;
    p ← match tf_counters f with Some c => PutCounters c p | None => Some p end;
    Some (tpe_none, p)
  | e, _ => Some (e, output)
  end.

(** ** Decoding *)

Record Family := mkFamily {
  fm_page_size : N;
  fm_slots : N;
  fm_sequence : N;
  fm_first_number : N }.

Definition ReadFamily (image : list N) : option (option Family) :=
  if decide (length image < kTransactionStateWordsOffset)%nat then Some None
  else
  page_size ← LoadLittle32 12 image;
  let slots := TipSlotsPerPage page_size in
  if decide (slots = 0 \/ N.of_nat (length image) <> page_size) then Some None
  else
  magic ← load_bytes kMagic 8 image;
  version ← LoadLittle16 kVersion image;
  word_bytes ← LoadLittle16 kWordBytes image;
  stored_slots ← LoadLittle32 kSlots image;
  if decide (magic <> kTransactionStatePageMagic \/ version <> kTransactionStatePageVersion \/
             word_bytes <> N.of_nat kTransactionStateWordBytes \/ stored_slots <> slots) then Some None
  else
  sequence ← LoadLittle64 kSequence image;
  first_number ← LoadLittle64 kFirstNumber image;
  if decide (u64_max / slots < sequence \/ first_number <> sequence * slots) then Some None
  else Some (Some (mkFamily page_size slots sequence (sequence * slots))).

(** [for (slot = 0; slot < count; ++slot)]: the first slot that is refused. *)
Fixpoint scan_slots (refused : N -> option (option TipPageError)) (slot : N) (count : nat)
    : option (option (TipPageError * N)) :=
  match count with
  | O => Some None
  | S count =>
    r ← refused slot;
    match r with Some e => Some (Some (e, slot)) | None => scan_slots refused (slot + 1) count end
  end.

(** One turn of the loop over the words; [next] is [Some] on the first page. *)
Definition word_refused (image : list N) (first_number : N) (next : option N) (slot : N) : option (option TipPageError) :=
  bytes ← WordBytes image slot;
  match DecodeTipStateWord bytes with
  | None => Some (Some tpe_invalid_word)
  | Some word =>
    if decide (tw_state word = tip_unused) then Some None
    else match next with
    | Some next =>
      if decide (slot = 0 \/ next <= u64_add first_number slot) then Some (Some tpe_invalid_slot) else Some None
    | None => Some None
    end
  end.

(** A refusal, with the slot of the first refused word. *)
Definition tip_refusal : Type := TipPageError * option N.

Definition DecodeTransactionStatePage (image : list N) (expected : option NativeCommonPageHeaderBinding)
    : option (tip_refusal + TipPageView) :=
  if decide (length image < 128)%nat then Some (inl (tpe_invalid_header, None))
  else
  prefix ← load_bytes 0 128 image;
  decoded ← DecodeNativeCommonPageHeader prefix expected;
  match decoded with
  | inl _ => Some (inl (tpe_invalid_header, None))
  | inr header =>
    if decide (ph_page_type header <> kTransactionStatePageType \/ ph_flags header <> 0)
    then Some (inl (tpe_invalid_header, None))
    else if decide (N.of_nat (length image) <> ph_page_size_bytes header \/ TipSlotsPerPage (ph_page_size_bytes header) = 0)
    then Some (inl (tpe_invalid_page_size, None))
    else
    family ← ReadFamily image;
    match family with
    | None => Some (inl (tpe_invalid_family, None))
    | Some family =>
      reserved ← load_bytes kFamilyEnd (kNextPage - kFamilyEnd) image;
      if negb (all_zero reserved) then Some (inl (tpe_invalid_family, None))
      else
      next_tip_page ← LoadLittle64 kNextPage image;
      header_chain_page ← LoadLittle64 kHeaderChain image;
      let first := fm_sequence family =? 0 in
      if bool_decide (next_tip_page = ph_page_number header) ||
         negb (Bool.eqb first (bool_decide (header_chain_page <> 0))) ||
         bool_decide (header_chain_page = ph_page_number header) ||
         bool_decide (header_chain_page <> 0 /\ header_chain_page = next_tip_page)
      then Some (inl (tpe_invalid_link, None))
      else
      tail ← load_bytes kCountersEnd (kTransactionStateWordsOffset - kCountersEnd) image;
      counter_bytes ← load_bytes kNext (kCountersEnd - kNext) image;
      if negb (all_zero tail) || (negb first && negb (all_zero counter_bytes))
      then Some (inl (tpe_invalid_counters, None))
      else
      stored_counters ← GetCounters image;
      let counters := if first then Some stored_counters else None in
      if match counters with Some c => negb (HorizonsValid c) | None => false end
      then Some (inl (tpe_invalid_counters, None))
      else
      refused ← scan_slots (word_refused image (fm_first_number family) (tc_next_transaction <$> counters))
        0 (N.to_nat (fm_slots family));
      match refused with
      | Some (e, slot) => Some (inl (e, Some slot))
      | None => Some (inr (mkTipView header (fm_sequence family) (fm_first_number family) (fm_slots family)
                             next_tip_page header_chain_page counters image))
      end
    end
  end.

(** One turn of the loop of the check against [Next]. *)
Definition beyond_refused (image : list N) (first_number next slot : N) : option (option TipPageError) :=
  if decide (u64_add first_number slot < next) then Some None
  else
  state ← image !! WordOffset slot;
  if decide (state <> 0) then Some (Some tpe_invalid_slot) else Some None.

Definition CheckTransactionStateSlotsBelowNext (view : TipPageView) (next_transaction : N)
    : option (tip_refusal + TipPageView) :=
  if decide (next_transaction = 0) then Some (inl (tpe_invalid_counters, None))
  else
  refused ← scan_slots (beyond_refused (tv_image view) (tv_first_number view) next_transaction)
    0 (N.to_nat (tv_slots view));
  match refused with
  | Some (e, slot) => Some (inl (e, Some slot))
  | None => Some (inr view)
  end.

Definition TipWordAt (view : TipPageView) (slot : N) : option TipStateWord :=
  if decide (tv_slots view <= slot \/ (length (tv_image view) < WordOffset slot + kTransactionStateWordBytes)%nat)
  then None
  else bytes ← WordBytes (tv_image view) slot; DecodeTipStateWord bytes.

(** ** In-place edits *)

Definition Begin (image : list N) (changed_offset : nat) : option TipPageEdit :=
  let unit_offset := (changed_offset - changed_offset mod kTransactionStateWriteUnitBytes)%nat in
  preimage ← load_bytes unit_offset kTransactionStateWriteUnitBytes image;
  Some (mkTipEdit tpe_none unit_offset false preimage).

Definition RefuseEdit (e : TipPageError) : TipPageEdit :=
  mkTipEdit e 0 false (replicate kTransactionStateWriteUnitBytes 0).

Definition changed (edit : TipPageEdit) : TipPageEdit :=
  mkTipEdit (te_error edit) (te_unit_offset edit) true (te_preimage edit).

Definition CheckEditSlot (image : list N) (f : Family) (slot : N) : option TipPageError :=
  if decide (fm_slots f <= slot) then Some tpe_invalid_slot
  else if decide (fm_sequence f = 0 /\ slot = 0) then Some tpe_invalid_slot
  else if decide (fm_sequence f = 0) then
    next ← LoadLittle64 kNext image;
    Some (if decide (next <= u64_add (fm_first_number f) slot) then tpe_invalid_slot else tpe_none)
  else Some tpe_none.

(** The frame of an edit: the family header is read again. *)
Definition with_family (image : list N) (edit : Family -> option (TipPageEdit * list N)) : option (TipPageEdit * list N) :=
  family ← ReadFamily image;
  match family with
  | None => Some (RefuseEdit tpe_invalid_family, image)
  | Some family => edit family
  end.

Definition SetTransactionStateWord (image : list N) (slot : N) (word : TipStateWord) : option (TipPageEdit * list N) :=
  with_family image (fun family =>
    e ← CheckEditSlot image family slot;
    if decide (e <> tpe_none) then Some (RefuseEdit e, image)
    else match EncodeTipStateWord word with
    | None => Some (RefuseEdit tpe_invalid_word, image)
    | Some encoded =>
      current ← WordBytes image slot;
      state ← current !! 0%nat;
      if decide (tw_state word = tip_unused /\ state <> 0) then Some (RefuseEdit tpe_invalid_word, image)
      else
      let at_ := WordOffset slot in
      edit ← Begin image at_;
      if decide (current = encoded) then Some (edit, image)
      else
      image ← store_bytes at_ encoded image;
      Some (changed edit, image)
    end).

Definition SetTransactionStateCode (image : list N) (slot : N) (code : TipStateCode) : option (TipPageEdit * list N) :=
  with_family image (fun family =>
    e ← CheckEditSlot image family slot;
    if decide (e <> tpe_none) then Some (RefuseEdit e, image)
    else if decide (kTipStateCodeMax < tip_byte code \/ code = tip_unused) then Some (RefuseEdit tpe_invalid_word, image)
    else
    let at_ := WordOffset slot in
    edit ← Begin image at_;
    current ← image !! at_;
    if decide (current = tip_byte code) then Some (edit, image)
    else
    image ← store_bytes at_ [tip_byte code] image;
    Some (changed edit, image)).

Definition SetTransactionStateCounters (image : list N) (counters : TipCounters) : option (TipPageEdit * list N) :=
  with_family image (fun family =>
    if bool_decide (fm_sequence family <> 0) || negb (HorizonsValid counters)
    then Some (RefuseEdit tpe_invalid_counters, image)
    else
    current ← GetCounters image;
    if decide (tc_next_transaction counters < tc_next_transaction current) then Some (RefuseEdit tpe_next_regression, image)
    else
    edit ← Begin image kNext;
    if decide (current = counters) then Some (edit, image)
    else
    image ← PutCounters counters image;
    Some (changed edit, image)).

Definition SetTransactionStateNextPage (image : list N) (next_tip_page : N) : option (TipPageEdit * list N) :=
  with_family image (fun _ =>
    self ← LoadLittle64 72 image;
    current ← LoadLittle64 kNextPage image;
    header_chain ← LoadLittle64 kHeaderChain image;
    if decide (next_tip_page = 0 \/ next_tip_page = self \/ next_tip_page = header_chain)
    then Some (RefuseEdit tpe_invalid_link, image)
    else if decide (current <> 0 /\ current <> next_tip_page) then Some (RefuseEdit tpe_invalid_link, image)
    else
    edit ← Begin image kNextPage;
    if decide (current = next_tip_page) then Some (edit, image)
    else
    image ← StoreLittle64 kNextPage next_tip_page image;
    Some (changed edit, image)).

(** ** Durable codes and in-memory states *)

Definition DurableTipStateCode (s : TransactionState) : TipStateCode :=
  match s with
  | ts_none => tip_unused
  | ts_created => tip_starting
  | ts_active => tip_active
  | ts_preparing => tip_active
  | ts_prepared => tip_prepared
  | ts_committing => tip_committing
  | ts_committed => tip_committed
  | ts_rolling_back => tip_rolling_back
  | ts_rolled_back => tip_rolled_back
  | ts_limbo => tip_limbo
  | ts_recovering => tip_recovering
  | ts_failed_terminal => tip_dead
  | ts_archived => tip_archived
  | ts_read_only_active => tip_read_only_active
  end.

Definition InMemoryTransactionState (c : TipStateCode) : option TransactionState :=
  match c with
  | tip_unused => Some ts_none
  | tip_starting => Some ts_created
  | tip_active => Some ts_active
  | tip_read_only_active => Some ts_read_only_active
  | tip_prepared => Some ts_prepared
  | tip_committing => Some ts_committing
  | tip_committed => Some ts_committed
  | tip_rolling_back => Some ts_rolling_back
  | tip_rolled_back => Some ts_rolled_back
  | tip_dead => Some ts_failed_terminal
  | tip_limbo => Some ts_limbo
  | tip_recovering => Some ts_recovering
  | tip_archived => Some ts_archived
  end.
