(* ===== verification/TipPageFacts.v ===== *)
(** * Facts about the transaction state page

    The word codec, what the decoder accepts, and how a store changes what it reads. *)

From S2P Require Import Prelude Platform TransactionState Bytes PageFrame PageFrameFacts TipPage.

(** ** State words *)

Lemma tip_of_byte_iff b c : tip_of_byte b = Some c <-> b = tip_byte c.
Proof.
  split; [|intros ->; by destruct c]. unfold tip_of_byte, tip_codes. intros H.
  rewrite <- (N2Nat.id b). destruct (N.to_nat b) as [|n]; [by injection H as <-|].
  do 12 (destruct n as [|n]; [by injection H as <-|]). done.
Qed.

Lemma authority_of_byte_iff b a : authority_of_byte b = Some a <-> b = authority_byte a.
Proof.
  split; [|intros ->; by destruct a]. unfold authority_of_byte. intros H.
  rewrite <- (N2Nat.id b). destruct (N.to_nat b) as [|n]; [by injection H as <-|].
  do 2 (destruct n as [|n]; [by injection H as <-|]). done.
Qed.

Lemma tip_byte_small c : tip_byte c <= kTipStateCodeMax.
Proof. by destruct c. Qed.
Lemma tip_byte_zero c : tip_byte c = 0 <-> c = tip_unused.
Proof. by destruct c. Qed.
Lemma authority_byte_small a : authority_byte a <= 2.
Proof. by destruct a. Qed.

Lemma flags_legal f : N.ldiff f kTipFlagMask = 0 <-> f < 32.
Proof.
  change kTipFlagMask with (N.ones 5). rewrite N.ldiff_ones_r, N.shiftl_eq_0_iff, N.shiftr_div_pow2.
  change (2 ^ 5) with 32. split; intros H.
  - apply N.div_small_iff in H; lia.
  - by apply N.div_small.
Qed.

(** The third byte: two bits of authority below six bits of intent. *)
Lemma packed_byte a i : a < 4 -> N.lor a (N.shiftl i 2) = a + 4 * i.
Proof.
  intros Ha. assert (Hd : N.land a (N.shiftl i 2) = 0).
  { apply N.bits_inj. intros k. rewrite N.land_spec, N.bits_0. destruct (N.ltb_spec k 2) as [Hk|Hk].
    - rewrite N.shiftl_spec_low by done. apply andb_false_r.
    - rewrite <- (N.mod_small a (2 ^ 2)) by done. by rewrite N.mod_pow2_bits_high. }
  rewrite <- N.lxor_lor, <- N.add_nocarry_lxor by done. rewrite N.shiftl_mul_pow2. change (2 ^ 2) with 4. lia.
Qed.

Record word_sized (w : TipStateWord) : Prop := {
  wz_flags : tw_flags w < 256;
  wz_intent : tw_intent w < 256;
  wz_epoch : tw_epoch_delta w < 256 }.

Definition unused_word : TipStateWord := mkWord tip_unused 0 tau_local 0 0.

(** The words the format has. *)
Definition word_legal (w : TipStateWord) : Prop :=
  tw_flags w < 32 /\ tw_intent w <= kTipIntentMax /\ tw_epoch_delta w < 256 /\
  (tw_state w = tip_unused -> w = unused_word).

#[export] Instance word_legal_dec w : Decision (word_legal w).
Proof. unfold word_legal. apply _. Defined.

Definition word_image (w : TipStateWord) : list N :=
  [tip_byte (tw_state w); tw_flags w; authority_byte (tw_authority w) + 4 * tw_intent w; tw_epoch_delta w].

Lemma length_word_image w : length (word_image w) = 4%nat.
Proof. done. Qed.

Lemma word_image_bytes w : word_legal w -> Forall is_byte (word_image w).
Proof.
  intros (Hf & Hi & He & _). pose proof (tip_byte_small (tw_state w)). pose proof (authority_byte_small (tw_authority w)).
  unfold kTipStateCodeMax, kTipIntentMax in *. repeat constructor; unfold is_byte; lia.
Qed.

Lemma encode_word w : word_sized w -> EncodeTipStateWord w = if decide (word_legal w) then Some (word_image w) else None.
Proof.
  intros [Hf Hi He]. unfold EncodeTipStateWord. pose proof (tip_byte_small (tw_state w)) as Hs.
  pose proof (authority_byte_small (tw_authority w)) as Ha.
  rewrite packed_byte by lia.
  destruct (_ || _) eqn:Hg.
  - rewrite decide_False; [done|]. intros (H1 & H2 & H3 & _). apply orb_true_iff in Hg as [Hg|Hg]; [|apply bool_decide_eq_true in Hg; lia].
    rewrite !orb_true_iff, !bool_decide_eq_true, flags_legal in Hg. lia.
  - rewrite !orb_false_iff, !bool_decide_eq_false, flags_legal in Hg. destruct Hg as [[[_ H1] _] H2]. unfold kTipIntentMax in *.
    case_decide as Hu; [rewrite decide_False; [done|]|rewrite decide_True].
    + intros (_ & _ & _ & Hw). destruct Hu as [Hu1 Hu2]. rewrite (Hw Hu1) in Hu2. cbn in Hu2. lia.
    + unfold word_image. rewrite (N.mod_small _ 256) by lia. done.
    + split_and!; [lia|unfold kTipIntentMax; lia|done|]. intros Hw. destruct w as [s f [] i e]; cbn in *; subst; unfold unused_word; try (exfalso; apply Hu; split; [done|lia]).
      f_equal; apply dec_stable; intros ?; apply Hu; split; try done; lia.
Qed.

Lemma decode_word_image w : word_legal w -> DecodeTipStateWord (word_image w) = Some w.
Proof.
  intros (Hf & Hi & He & Hu). unfold DecodeTipStateWord, word_image. pose proof (tip_byte_small (tw_state w)) as Hs.
  pose proof (authority_byte_small (tw_authority w)) as Ha.
  assert (Hland : N.land (authority_byte (tw_authority w) + 4 * tw_intent w) 3 = authority_byte (tw_authority w)).
  { change 3 with (N.ones 2). rewrite N.land_ones, N.mul_comm. change (2 ^ 2) with 4.
    rewrite N.Div0.mod_add. apply N.mod_small. lia. }
  assert (Hshift : N.shiftr (authority_byte (tw_authority w) + 4 * tw_intent w) 2 = tw_intent w).
  { rewrite N.shiftr_div_pow2, N.mul_comm. change (2 ^ 2) with 4. rewrite N.div_add by done. rewrite N.div_small by lia. done. }
  rewrite Hland, Hshift.
  rewrite !bool_decide_eq_false_2; [|lia|rewrite flags_legal; lia|lia]. cbn [orb].
  rewrite (proj2 (tip_of_byte_iff _ _) eq_refl), (proj2 (authority_of_byte_iff _ _) eq_refl). cbn [mbind option_bind].
  rewrite decide_False; [by destruct w|]. intros [H1 H2]. rewrite (Hu H1) in H2. cbn in H2. lia.
Qed.

Lemma decode_word_inv b w : Forall is_byte b -> DecodeTipStateWord b = Some w -> word_legal w /\ b = word_image w.
Proof.
  intros Hb H. unfold DecodeTipStateWord in H. destruct b as [|b0 [|b1 [|b2 [|b3 [|]]]]]; try done.
  apply Forall_cons in Hb as [H0 Hb]. apply Forall_cons in Hb as [H1 Hb]. apply Forall_cons in Hb as [H2 Hb].
  apply Forall_cons in Hb as [H3 _]. unfold is_byte in *.
  destruct (_ || _) eqn:Hg; [done|]. rewrite !orb_false_iff, !bool_decide_eq_false, flags_legal in Hg.
  destruct Hg as [[Hs Hf] Ha].
  destruct (tip_of_byte b0) as [s|] eqn:Hc; [|done]. cbn [mbind option_bind] in H. apply tip_of_byte_iff in Hc as ->.
  destruct (authority_of_byte _) as [a|] eqn:Hau; [|done]. apply authority_of_byte_iff in Hau.
  case_decide as Hu; [done|]. injection H as <-.
  change 3 with (N.ones 2) in Hau. rewrite N.land_ones in Hau. change (2 ^ 2) with 4 in Hau.
  assert (Hdiv : N.shiftr b2 2 = b2 / 4) by (rewrite N.shiftr_div_pow2; done).
  pose proof (N.div_mod' b2 4) as Hdm. rewrite Hau in Hdm.
  assert (b2 / 4 < 64) by (apply N.Div0.div_lt_upper_bound; lia).
  split.
  - split_and!; cbn [tw_flags tw_intent tw_epoch_delta tw_state]; [lia|rewrite Hdiv; unfold kTipIntentMax; lia|done|].
    intros ->. assert (b1 = 0 /\ b2 = 0 /\ b3 = 0) as (-> & -> & ->).
    { apply dec_stable. intros Hn. apply Hu. split; [done|]. lia. }
    destruct a; [done|by vm_compute in Hau..].
  - unfold word_image. cbn [tw_flags tw_intent tw_epoch_delta tw_state tw_authority]. rewrite Hdiv. repeat f_equal. lia.
Qed.

Lemma decode_word_iff b w : Forall is_byte b -> DecodeTipStateWord b = Some w <-> word_legal w /\ b = word_image w.
Proof. intros Hb. split; [by apply decode_word_inv|]. intros [Hw ->]. by apply decode_word_image. Qed.

(** ** The loop over the slots *)

Lemma scan_slots_iff f slot count :
  (forall i, slot <= i < slot + N.of_nat count -> is_Some (f i)) ->
  exists r, scan_slots f slot count = Some r /\
    (r = None <-> forall i, slot <= i < slot + N.of_nat count -> f i = Some None).
Proof.
  revert slot. induction count as [|count IH]; intros slot Hf; cbn [scan_slots].
  { exists None. split; [done|]. split; [|done]. intros _ i Hi. lia. }
  destruct (Hf slot) as [r Hr]; [lia|]. rewrite Hr. cbn [mbind option_bind]. destruct r as [e|].
  - exists (Some (e, slot)). split; [done|]. split; [done|]. intros H. rewrite H in Hr by lia. done.
  - destruct (IH (slot + 1)) as (r & -> & Hiff); [intros i Hi; apply Hf; lia|]. exists r. split; [done|].
    rewrite Hiff. split; intros H i Hi; [|apply H; lia].
    destruct (decide (i = slot)) as [->|]; [done|apply H; lia].
Qed.

(** ** The frame of a page: everything before the words *)

Definition u64_at (off : nat) (l : list N) : N := le_value (slice off 8 l).
Definition page_size_at (l : list N) : N := le_value (slice 12 4 l).
Definition slots_at (l : list N) : N := TipSlotsPerPage (page_size_at l).
Definition header_at (l : list N) : NativeCommonPageHeader := header_of (slice 0 128 l).

Definition counters_at (l : list N) : TipCounters :=
  mkTipCounters (u64_at kNext l)
    (mkTipHorizons (u64_at kHorizons l) (u64_at (kHorizons + 8) l) (u64_at (kHorizons + 16) l)
       (u64_at (kHorizons + 24) l) (u64_at (kHorizons + 32) l) (u64_at (kHorizons + 40) l)).

Record family_ok (l : list N) : Prop := {
  fo_room : (512 <= length l)%nat;
  fo_slots : slots_at l <> 0;
  fo_length : N.of_nat (length l) = page_size_at l;
  fo_magic : slice kMagic 8 l = kTransactionStatePageMagic;
  fo_version : le_value (slice kVersion 2 l) = 1;
  fo_word_bytes : le_value (slice kWordBytes 2 l) = 4;
  fo_stored_slots : le_value (slice kSlots 4 l) = slots_at l;
  fo_sequence : u64_at kSequence l <= u64_max / slots_at l;
  fo_first : u64_at kFirstNumber l = u64_at kSequence l * slots_at l }.

Definition family_at (l : list N) : Family :=
  mkFamily (page_size_at l) (slots_at l) (u64_at kSequence l) (u64_at kSequence l * slots_at l).

Lemma read_family_iff l :
  exists r, ReadFamily l = Some r /\ forall f, r = Some f <-> family_ok l /\ f = family_at l.
Proof.
  unfold ReadFamily, LoadLittle16, LoadLittle32, LoadLittle64, kTransactionStateWordsOffset.
  case_decide as Hl; [exists None; split; [done|]; intros f; split; [done|]; intros [[] _]; lia|].
  unfold kMagic, kVersion, kWordBytes, kSlots, kSequence, kFirstNumber. in_buffer.
  change (TipSlotsPerPage (le_value (slice 12 4 l))) with (slots_at l). change (le_value (slice 12 4 l)) with (page_size_at l).
  case_decide as H1; [exists None; split; [done|]; intros f; split; [done|]; intros [[] _]; tauto|].
  case_decide as H2; [exists None; split; [done|]; intros f; split; [done|]; intros [[] _]; tauto|].
  case_decide as H3; [exists None; split; [done|]; intros f; split; [done|]; intros [[] _];
    unfold u64_at, kSequence, kFirstNumber in *; lia|].
  exists (Some (family_at l)). split; [done|]. intros f. split; [intros [= <-]|by intros [_ ->]]. split; [|done].
  apply Decidable.not_or in H1 as [H1 H1']. apply Decidable.not_or in H2 as [H2 H2']. apply Decidable.not_or in H2' as [H4 H2'].
  apply Decidable.not_or in H2' as [H5 H6]. apply Decidable.not_or in H3 as [H3 H3'].
  split; [lia|done|by apply dec_stable|by apply dec_stable|by apply dec_stable|by apply dec_stable|by apply dec_stable|
    unfold u64_at, kSequence; lia|by apply dec_stable].
Qed.

Lemma get_counters l : (512 <= length l)%nat -> GetCounters l = Some (counters_at l).
Proof.
  intros Hl. unfold GetCounters, LoadLittle64, kNext, kHorizons. cbn [Nat.add]. in_buffer. done.
Qed.

Definition first_page (l : list N) : bool := u64_at kSequence l =? 0.
Definition stored_counters (l : list N) : option TipCounters := if first_page l then Some (counters_at l) else None.

(** The conditions on the links of a page. *)
Definition links_ok (number sequence chain next : N) : Prop :=
  next <> number /\ (sequence = 0 <-> chain <> 0) /\ chain <> number /\ (chain <> 0 -> chain <> next).

Record frame_ok (expected : option NativeCommonPageHeaderBinding) (l : list N) : Prop := {
  fk_header : header_framed (slice 0 128 l) /\ header_error (header_at l) expected = phe_none;
  fk_type : ph_page_type (header_at l) = kTransactionStatePageType;
  fk_flags : ph_flags (header_at l) = 0;
  fk_family : family_ok l;
  fk_reserved : slice kFamilyEnd 88 l = replicate 88 0;
  fk_links : links_ok (ph_page_number (header_at l)) (u64_at kSequence l) (u64_at kHeaderChain l) (u64_at kNextPage l);
  fk_tail : slice kCountersEnd 192 l = replicate 192 0;
  fk_no_counters : first_page l = false -> slice kNext 56 l = replicate 56 0;
  fk_counters : first_page l = true -> HorizonsValid (counters_at l) = true }.

(** The header's fields inside the page. *)
Lemma slice_prefix off n l : (off + n <= 128)%nat -> slice off n (slice 0 128 l) = slice off n l.
Proof.
  intros H. unfold slice. rewrite drop_0, skipn_firstn_comm, take_take. f_equal. lia.
Qed.

Lemma header_size_at l : ph_page_size_bytes (header_at l) = page_size_at l.
Proof. unfold header_at, header_of. cbn [ph_page_size_bytes]. by rewrite slice_prefix by lia. Qed.
Lemma header_number_at l : ph_page_number (header_at l) = u64_at 72 l.
Proof. unfold header_at, header_of. cbn [ph_page_number]. by rewrite slice_prefix by lia. Qed.

Lemma header_error_encodes h expected : header_error h expected = phe_none -> encode_error h = phe_none.
Proof.
  intros H. apply header_error_none. destruct expected as [b|]; [|done]. by apply header_error_bound in H as [H _].
Qed.

Lemma frame_size expected l : frame_ok expected l -> 8192 <= page_size_at l <= 131072.
Proof. intros []. rewrite <- header_size_at. apply header_page_size, (header_error_encodes _ expected). tauto. Qed.

Lemma slots_per_page size : TipSlotsPerPage size <> 0 -> size = 512 + 4 * TipSlotsPerPage size /\ size mod 512 = 0.
Proof.
  unfold TipSlotsPerPage. case_decide as H; [done|]. intros _. apply Decidable.not_or in H as [H1 H2].
  apply dec_stable in H2. split; [|done].
  assert (Hm : (size - 512) mod 4 = 0).
  { apply N.Div0.mod_divides in H2 as [k ->]. apply N.Div0.mod_divides. exists (128 * k - 128). lia. }
  pose proof (N.div_mod' (size - 512) 4). lia.
Qed.

(** ** The words *)

Definition word_at (l : list N) (slot : N) : option TipStateWord := DecodeTipStateWord (slice (WordOffset slot) 4 l).

(** A used slot is numbered below [Next], and number zero is never used. *)
Definition word_placed (l : list N) (slot : N) (w : TipStateWord) : Prop :=
  tw_state w = tip_unused \/ (first_page l = true -> slot <> 0 /\ slot < u64_at kNext l).

Definition words_ok (l : list N) : Prop :=
  forall slot, slot < slots_at l -> exists w, word_at l slot = Some w /\ word_placed l slot w.

Lemma word_offset slot : WordOffset slot = (512 + 4 * N.to_nat slot)%nat.
Proof. done. Qed.

Lemma word_room l slot : family_ok l -> slot < slots_at l -> (WordOffset slot + 4 <= length l)%nat.
Proof.
  intros [? Hs Hl _ _ _ _ _ _] Hslot. destruct (slots_per_page _ Hs) as [Hp _]. fold (slots_at l) in Hp.
  rewrite word_offset. lia.
Qed.

Section page.
Context (expected : option NativeCommonPageHeaderBinding) (l : list N) (Hf : frame_ok expected l).

Lemma slots_small : slots_at l < 32768.
Proof.
  pose proof (frame_size _ _ Hf) as Hs. destruct (slots_per_page _ (fo_slots l (fk_family _ _ Hf))) as [Hp _].
  fold (slots_at l) in Hp. lia.
Qed.

Lemma first_numbers slot :
  first_page l = true -> slot < slots_at l -> u64_add (u64_at kSequence l * slots_at l) slot = slot.
Proof.
  unfold first_page. rewrite N.eqb_eq. intros -> Hs. pose proof slots_small. rewrite u64_add_small; [lia|].
  rewrite u64_modulus_val. lia.
Qed.

Lemma word_refused_iff slot :
  slot < slots_at l ->
  exists r, word_refused l (u64_at kSequence l * slots_at l) (tc_next_transaction <$> stored_counters l) slot = Some r /\
    (r = None <-> exists w, word_at l slot = Some w /\ word_placed l slot w).
Proof.
  intros Hs. pose proof (word_room l slot (fk_family _ _ Hf) Hs) as Hr.
  unfold word_refused, WordBytes, kTransactionStateWordBytes. rewrite load_bytes_some by done. cbn [mbind option_bind].
  change (DecodeTipStateWord (slice (WordOffset slot) 4 l)) with (word_at l slot).
  destruct (word_at l slot) as [w|]; [|exists (Some tpe_invalid_word); split; [done|]; split; [done|]; by intros (? & ? & _)].
  unfold word_placed. case_decide as Hu.
  { exists None. split; [done|]. split; [|done]. eauto. }
  unfold stored_counters. destruct (first_page l) eqn:Hfirst; cbn [fmap option_fmap option_map].
  - rewrite first_numbers by done. cbn [tc_next_transaction counters_at].
    case_decide as Hc; eexists; (split; [done|]); (split; [|]); try done.
    + intros (w' & [= <-] & [?|Hp]); [done|]. specialize (Hp eq_refl). lia.
    + intros _. exists w. split; [done|]. right. intros _. lia.
  - exists None. split; [done|]. split; [|done]. intros _. exists w. split; [done|]. by right.
Qed.
End page.

(** ** Decoding *)

Definition tip_view (l : list N) : TipPageView :=
  mkTipView (header_at l) (u64_at kSequence l) (u64_at kSequence l * slots_at l) (slots_at l)
    (u64_at kNextPage l) (u64_at kHeaderChain l) (stored_counters l) l.

Lemma links_refused number sequence chain next :
  bool_decide (next = number) || negb (Bool.eqb (sequence =? 0) (bool_decide (chain <> 0))) ||
  bool_decide (chain = number) || bool_decide (chain <> 0 /\ chain = next) = false <->
  links_ok number sequence chain next.
Proof.
  unfold links_ok. rewrite !orb_false_iff, !bool_decide_eq_false, negb_false_iff, eqb_true_iff.
  destruct (N.eqb_spec sequence 0) as [Hs|Hs]; destruct (bool_decide_reflect (chain <> 0)) as [Hc|Hc]; split; intros H;
    destruct_and?; split_and?; try tauto; try done.
Qed.

Ltac tip_refused := eexists; split; [reflexivity|]; intros v; split; [done|]; intros [[[] _] _].

Lemma decode_tip_iff l expected :
  exists r, DecodeTransactionStatePage l expected = Some r /\
    forall v, r = inr v <-> (frame_ok expected l /\ words_ok l) /\ v = tip_view l.
Proof.
  unfold DecodeTransactionStatePage. case_decide as Hl.
  { tip_refused. destruct fk_family0. lia. }
  rewrite (load_bytes_some 0 128 l) by lia. cbn [mbind option_bind].
  destruct (decode_header_iff (slice 0 128 l) expected) as (rh & -> & Hh). cbn [mbind option_bind].
  destruct rh as [e|h].
  { tip_refused. destruct fk_header0 as [H1 H2]. by discriminate (proj2 (Hh (header_at l)) (conj H1 (conj eq_refl H2))). }
  destruct (proj1 (Hh h) eq_refl) as (H1 & -> & H2). clear Hh. fold (header_at l).
  case_decide as Hty; [tip_refused; tauto|].
  apply Decidable.not_or in Hty as [Ht Hfl]. apply dec_stable in Ht, Hfl.
  rewrite header_size_at. fold (slots_at l).
  case_decide as Hsz; [tip_refused; destruct fk_family0; tauto|].
  destruct (read_family_iff l) as (rf & -> & Hrf). cbn [mbind option_bind]. destruct rf as [f|].
  2: { tip_refused. by discriminate (proj2 (Hrf (family_at l)) (conj fk_family0 eq_refl)). }
  destruct (proj1 (Hrf f) eq_refl) as (Hfam & ->). clear Hrf. cbn [fm_sequence fm_slots fm_first_number family_at].
  pose proof (fo_room l Hfam) as Hroom.
  rewrite (load_bytes_some kFamilyEnd) by (unfold kFamilyEnd, kNextPage; lia). cbn [mbind option_bind].
  change (kNextPage - kFamilyEnd)%nat with 88%nat.
  destruct (all_zero (slice kFamilyEnd 88 l)) eqn:Hz; cbn [negb].
  2: { tip_refused. rewrite fk_reserved0, all_zero_replicate in Hz. done. }
  apply all_zero_iff in Hz. rewrite length_slice in Hz by (unfold kFamilyEnd; lia).
  unfold LoadLittle64. rewrite (load_bytes_some kNextPage), (load_bytes_some kHeaderChain) by (unfold kNextPage, kHeaderChain; lia).
  cbn [fmap option_fmap option_map mbind option_bind]. fold (u64_at kNextPage l) (u64_at kHeaderChain l).
  destruct (_ || _) eqn:Hlink at 1.
  { tip_refused. apply links_refused in fk_links0. by rewrite fk_links0 in Hlink. }
  apply links_refused in Hlink.
  rewrite (load_bytes_some kCountersEnd), (load_bytes_some kNext) by (unfold kCountersEnd, kTransactionStateWordsOffset, kNext; lia).
  cbn [mbind option_bind]. change (kTransactionStateWordsOffset - kCountersEnd)%nat with 192%nat.
  change (kCountersEnd - kNext)%nat with 56%nat. fold (first_page l).
  destruct (all_zero (slice kCountersEnd 192 l)) eqn:Hz2; cbn [negb orb].
  2: { tip_refused. rewrite fk_tail0, all_zero_replicate in Hz2. done. }
  apply all_zero_iff in Hz2. rewrite length_slice in Hz2 by (unfold kCountersEnd; lia).
  destruct (negb (first_page l) && negb (all_zero (slice kNext 56 l))) eqn:Hz3.
  { tip_refused. apply andb_true_iff in Hz3 as [Hz3 Hz4]. apply negb_true_iff in Hz3, Hz4.
    rewrite fk_no_counters0, all_zero_replicate in Hz4 by done. done. }
  rewrite (get_counters l Hroom). cbn [mbind option_bind]. fold (stored_counters l).
  destruct (match stored_counters l with Some c => negb (HorizonsValid c) | None => false end) eqn:Hc.
  { tip_refused. unfold stored_counters in Hc. destruct (first_page l); [|done]. by rewrite fk_counters0 in Hc. }
  assert (Hframe : frame_ok expected l).
  { split; try done.
    - intros Hfirst. rewrite Hfirst in Hz3. cbn [negb andb] in Hz3. apply negb_false_iff, all_zero_iff in Hz3.
      rewrite length_slice in Hz3 by (unfold kNext; lia). done.
    - intros Hfirst. unfold stored_counters in Hc. rewrite Hfirst in Hc. by apply negb_false_iff in Hc. }
  edestruct (scan_slots_iff (word_refused l (u64_at kSequence l * slots_at l) (tc_next_transaction <$> stored_counters l)) 0
    (N.to_nat (slots_at l))) as (r & -> & Hr).
  { intros i Hi. destruct (word_refused_iff expected l Hframe i) as (r & -> & _); [lia|done]. }
  cbn [mbind option_bind].
  assert (Hwords : r = None <-> words_ok l).
  { rewrite Hr. split; intros H slot Hs; destruct (word_refused_iff expected l Hframe slot) as (rr & Hrr & Hiff); try lia.
    - apply Hiff. rewrite H in Hrr by lia. by injection Hrr as <-.
    - rewrite Hrr. f_equal. apply Hiff, H. lia. }
  destruct r as [[e slot]|].
  - eexists. split; [done|]. intros v. split; [done|]. intros [[_ Hw] _]. by apply Hwords in Hw.
  - eexists. split; [done|]. intros v. split; [intros [= <-]; split; [split; [done|by apply Hwords]|done]|by intros [_ ->]].
Qed.

(** ** A refusal never carries the error [none] *)

Lemma scan_slots_error f slot count e bad : scan_slots f slot count = Some (Some (e, bad)) -> f bad = Some (Some e).
Proof.
  revert slot. induction count as [|count IH]; intros slot; cbn [scan_slots]; [done|].
  destruct (f slot) as [[r|]|] eqn:Hf; cbn [mbind option_bind]; [by intros [= -> ->]|apply IH|done].
Qed.

Lemma scan_slots_bound f slot count e bad :
  scan_slots f slot count = Some (Some (e, bad)) -> slot <= bad < slot + N.of_nat count.
Proof.
  revert slot. induction count as [|count IH]; intros slot; cbn [scan_slots]; [done|].
  destruct (f slot) as [[r|]|] eqn:Hf; cbn [mbind option_bind]; [intros [= -> ->]; lia| |done].
  intros H. apply IH in H. lia.
Qed.

Lemma word_refused_error l first next slot e : word_refused l first next slot = Some (Some e) -> e <> tpe_none.
Proof.
  unfold word_refused. destruct (WordBytes l slot) as [b|]; [|done]. cbn [mbind option_bind].
  destruct (DecodeTipStateWord b); [|by intros [= <-]]. case_decide; [done|]. destruct next; [|done]. case_decide; [by intros [= <-]|done].
Qed.

Lemma decode_tip_error l expected e slot :
  DecodeTransactionStatePage l expected = Some (inl (e, slot)) -> e <> tpe_none.
Proof.
  unfold DecodeTransactionStatePage. intros H ->.
  repeat match type of H with
    | (match ?x with _ => _ end) = _ => destruct x eqn:?; try done
    | mbind _ ?x = _ => destruct x eqn:?; [|done]; cbn [mbind option_bind] in H
    end.
  injection H as Ht Hn. subst.
  match goal with Hs : scan_slots _ _ _ = _ |- _ => apply scan_slots_error, word_refused_error in Hs; done end.
Qed.
