(* ===== verification/TipEdits.v ===== *)
(** * In-place edits of the transaction state page

    An abstract page and what each edit means for it; how the stores of the edits change
    what the decoder reads. *)

From S2P Require Import Prelude Platform TransactionState Bytes PageFrame PageFrameFacts TipPage.
From S2P Require Import TipPageFacts.

(** ** The abstract page *)

Record tip_page := mkTipPage {
  tp_header : NativeCommonPageHeader;
  tp_sequence : N;
  tp_header_chain : N;
  tp_next_page : N;
  tp_counters : option TipCounters;
  tp_words : list TipStateWord }.

(** The page an image denotes, if the decoder accepts it. *)
Definition page_of (l : list N) : option tip_page :=
  match DecodeTransactionStatePage l None with
  | Some (inr v) =>
    Some (mkTipPage (tv_header v) (tv_tip_sequence v) (tv_header_chain_page v) (tv_next_tip_page v) (tv_counters v)
            ((fun i => default unused_word (TipWordAt v (N.of_nat i))) <$> seq 0 (N.to_nat (tv_slots v))))
  | _ => None
  end.

Inductive tip_edit :=
| edit_word (slot : N) (word : TipStateWord)
| edit_code (slot : N) (code : TipStateCode)
| edit_counters (counters : TipCounters)
| edit_next_page (next : N).

Definition run_edit (e : tip_edit) (image : list N) : option (TipPageEdit * list N) :=
  match e with
  | edit_word slot word => SetTransactionStateWord image slot word
  | edit_code slot code => SetTransactionStateCode image slot code
  | edit_counters counters => SetTransactionStateCounters image counters
  | edit_next_page next => SetTransactionStateNextPage image next
  end.

(** The arguments have the widths of their types. *)
Definition counters_sized (c : TipCounters) : Prop :=
  is_u64 (tc_next_transaction c) /\ Forall is_u64 (horizon_values (tc_horizons c)).
Definition edit_sized (e : tip_edit) : Prop :=
  match e with
  | edit_word _ word => word_sized word
  | edit_code _ _ => True
  | edit_counters counters => counters_sized counters
  | edit_next_page next => is_u64 next
  end.

(** A slot that may be written: on the page and, on the first page, a number in use. *)
Definition slot_open (p : tip_page) (slot : N) : Prop :=
  slot < N.of_nat (length (tp_words p)) /\
  match tp_counters p with None => True | Some c => slot <> 0 /\ slot < tc_next_transaction c end.

#[export] Instance slot_open_dec p slot : Decision (slot_open p slot).
Proof. unfold slot_open. destruct (tp_counters p); apply _. Defined.

Definition set_word (p : tip_page) (slot : N) (w : TipStateWord) : tip_page :=
  mkTipPage (tp_header p) (tp_sequence p) (tp_header_chain p) (tp_next_page p) (tp_counters p)
    (<[N.to_nat slot := w]> (tp_words p)).

Definition with_state (c : TipStateCode) (w : TipStateWord) : TipStateWord :=
  mkWord c (tw_flags w) (tw_authority w) (tw_intent w) (tw_epoch_delta w).

(** What an edit means. *)
Definition apply_edit (e : tip_edit) (p : tip_page) : TipPageError + tip_page :=
  match e with
  | edit_word slot w =>
    if decide (~ slot_open p slot) then inl tpe_invalid_slot
    else if decide (~ word_legal w) then inl tpe_invalid_word
    else if decide (tw_state w = tip_unused /\ tp_words p !! N.to_nat slot <> Some unused_word) then inl tpe_invalid_word
    else inr (set_word p slot w)
  | edit_code slot c =>
    if decide (~ slot_open p slot) then inl tpe_invalid_slot
    else if decide (c = tip_unused) then inl tpe_invalid_word
    else inr (set_word p slot (with_state c (default unused_word (tp_words p !! N.to_nat slot))))
  | edit_counters c =>
    match tp_counters p with
    | None => inl tpe_invalid_counters
    | Some old =>
      if negb (HorizonsValid c) then inl tpe_invalid_counters
      else if decide (tc_next_transaction c < tc_next_transaction old) then inl tpe_next_regression
      else inr (mkTipPage (tp_header p) (tp_sequence p) (tp_header_chain p) (tp_next_page p) (Some c) (tp_words p))
    end
  | edit_next_page n =>
    if decide (n = 0 \/ n = ph_page_number (tp_header p) \/ n = tp_header_chain p \/
               (tp_next_page p <> 0 /\ tp_next_page p <> n)) then inl tpe_invalid_link
    else inr (mkTipPage (tp_header p) (tp_sequence p) (tp_header_chain p) n (tp_counters p) (tp_words p))
  end.

(** ** The page of an image *)

Definition words_at (l : list N) : list TipStateWord :=
  (fun i => default unused_word (word_at l (N.of_nat i))) <$> seq 0 (N.to_nat (slots_at l)).

Definition page_at (l : list N) : tip_page :=
  mkTipPage (header_at l) (u64_at kSequence l) (u64_at kHeaderChain l) (u64_at kNextPage l) (stored_counters l) (words_at l).

Lemma tip_word_at l slot : family_ok l -> slot < slots_at l -> TipWordAt (tip_view l) slot = word_at l slot.
Proof.
  intros Hf Hs. pose proof (word_room l slot Hf Hs) as Hr. unfold TipWordAt. cbn [tv_slots tv_image tip_view].
  unfold kTransactionStateWordBytes. rewrite decide_False by lia. unfold WordBytes, kTransactionStateWordBytes.
  by rewrite load_bytes_some by done.
Qed.

Lemma page_of_iff l p : page_of l = Some p <-> frame_ok None l /\ words_ok l /\ p = page_at l.
Proof.
  unfold page_of. destruct (decode_tip_iff l None) as (r & -> & Hr).
  assert (Hview : forall i, i ∈ seq 0 (N.to_nat (slots_at l)) -> family_ok l ->
    default unused_word (TipWordAt (tip_view l) (N.of_nat i)) = default unused_word (word_at l (N.of_nat i))).
  { intros i Hi Hf. apply elem_of_seq in Hi. rewrite tip_word_at by (done || lia). done. }
  destruct r as [e|v].
  - split; [done|]. intros (H1 & H2 & _). by discriminate (proj2 (Hr (tip_view l)) (conj (conj H1 H2) eq_refl)).
  - destruct (proj1 (Hr v) eq_refl) as [[H1 H2] ->]. cbn [tv_header tv_tip_sequence tv_header_chain_page tv_next_tip_page tv_counters tv_slots tip_view].
    assert (Hw : ((fun i => default unused_word (TipWordAt (tip_view l) (N.of_nat i))) <$> seq 0 (N.to_nat (slots_at l))) = words_at l).
    { apply list_fmap_ext. intros k i Hi. apply Hview; [by apply list_elem_of_lookup_2 in Hi|apply (fk_family _ _ H1)]. }
    rewrite Hw. split; [by intros [= <-]|by intros (_ & _ & ->)].
Qed.

Lemma length_words_at l : length (words_at l) = N.to_nat (slots_at l).
Proof. unfold words_at. by rewrite length_fmap, length_seq. Qed.

Lemma lookup_words_at l slot :
  words_ok l -> slot < slots_at l -> exists w, words_at l !! N.to_nat slot = Some w /\ word_at l slot = Some w /\ word_placed l slot w.
Proof.
  intros Hw Hs. destruct (Hw slot Hs) as (w & Hl & Hp). exists w. split; [|done].
  unfold words_at. rewrite list_lookup_fmap, lookup_seq_lt by lia. cbn. by rewrite N2Nat.id, Hl.
Qed.

(** ** Stores that stay away from a slice *)

Lemma slice_stored_inner off bs l o n :
  (off + length bs <= length l)%nat -> (o + n <= length bs)%nat -> slice (off + o) n (stored off bs l) = slice o n bs.
Proof.
  intros Hl Ho. unfold stored. rewrite slice_app_r by (rewrite length_take; lia).
  rewrite length_take. replace (off + o - off `min` length l)%nat with o by lia. by rewrite slice_app_l by lia.
Qed.

Lemma stored_twice off a b l :
  (off + length a + length b <= length l)%nat -> stored (off + length a) b (stored off a l) = stored off (a ++ b) l.
Proof.
  intros H. unfold stored. rewrite length_app.
  assert (Hta : take (off + length a) (take off l ++ a ++ drop (off + length a) l) = take off l ++ a).
  { rewrite app_assoc, take_app_length'; [done|]. rewrite length_app, length_take. lia. }
  rewrite Hta, <- !app_assoc. do 3 f_equal. rewrite app_assoc, drop_app_ge by (rewrite length_app, length_take; lia).
  rewrite length_app, length_take, drop_drop. f_equal. lia.
Qed.

Lemma stored_bytes off bs l :
  Forall is_byte bs -> Forall is_byte l -> Forall is_byte (stored off bs l).
Proof. intros. unfold stored. apply Forall_app. split; [by apply Forall_take|]. apply Forall_app. split; [done|by apply Forall_drop]. Qed.

Lemma stored_same_iff off bs l :
  (off + length bs <= length l)%nat -> stored off bs l = l <-> slice off (length bs) l = bs.
Proof.
  intros H. split; intros E.
  - rewrite <- E at 1. by apply slice_stored_same.
  - rewrite <- E at 1. by apply stored_slice.
Qed.

(** A change confined to the range from [u] to [u + n]. *)
Definition confined (u n : nat) (l l' : list N) : Prop :=
  length l' = length l /\ take u l' = take u l /\ drop (u + n) l' = drop (u + n) l.

Lemma confined_refl u n l : confined u n l l.
Proof. done. Qed.

Lemma stored_confined off bs l u n :
  (off + length bs <= length l)%nat -> (u <= off)%nat -> (off + length bs <= u + n)%nat -> confined u n l (stored off bs l).
Proof.
  intros Hl Hu Hn. split; [by apply length_stored|]. unfold stored. split.
  - rewrite take_app_le by (rewrite length_take; lia). by rewrite take_take, Nat.min_l by lia.
  - rewrite app_assoc, drop_app_ge by (rewrite length_app, length_take; lia).
    rewrite length_app, length_take, drop_drop. f_equal. lia.
Qed.

Lemma confined_slice u n l l' o k : confined u n l l' -> (o + k <= u \/ u + n <= o)%nat -> slice o k l' = slice o k l.
Proof.
  intros (Hl & Ht & Hd) [H|H]; unfold slice.
  - rewrite <- (take_drop u l), <- (take_drop u l'), Ht.
    destruct (decide (u <= length l)%nat) as [Hu|Hu].
    + rewrite !drop_app_le by (rewrite length_take; lia). rewrite !take_app_le; [done|..]; rewrite length_drop, length_take; lia.
    + rewrite (drop_ge l), (drop_ge l') by lia. done.
  - assert (E : forall m : list N, drop o m = drop (o - (u + n)) (drop (u + n) m)).
    { intros m. rewrite drop_drop. f_equal. lia. }
    by rewrite !E, Hd.
Qed.

(** ** Changes to the words *)

Section words_changed.
Context (u n : nat) (l l' : list N) (Hc : confined u n l l') (Hu : (512 <= u)%nat).

Lemma low_slice o k : (o + k <= 512)%nat -> slice o k l' = slice o k l.
Proof. intros H. apply (confined_slice u n); [done|lia]. Qed.

Lemma low_u64 o : (o + 8 <= 512)%nat -> u64_at o l' = u64_at o l.
Proof. intros H. unfold u64_at. by rewrite low_slice. Qed.

Lemma words_same_header : header_at l' = header_at l.
Proof. unfold header_at. by rewrite low_slice by lia. Qed.
Lemma words_same_slots : slots_at l' = slots_at l.
Proof. unfold slots_at, page_size_at. by rewrite low_slice by lia. Qed.
Lemma words_same_first : first_page l' = first_page l.
Proof. unfold first_page. rewrite low_u64; [done|]. unfold kSequence. lia. Qed.
Lemma words_same_counters : counters_at l' = counters_at l.
Proof. unfold counters_at. rewrite !low_u64; [done|..]; unfold kHorizons, kNext; lia. Qed.

Lemma words_family : family_ok l -> family_ok l'.
Proof.
  intros []. pose proof (proj1 Hc) as Hlen.
  split; rewrite ?words_same_slots, ?low_slice, ?low_u64, ?Hlen; try done;
    unfold kMagic, kVersion, kWordBytes, kSlots, kSequence, kFirstNumber; try lia.
  unfold page_size_at. by rewrite low_slice by lia.
Qed.

Lemma words_frame e : frame_ok e l -> frame_ok e l'.
Proof.
  intros []. split; rewrite ?words_same_header, ?words_same_first, ?words_same_counters, ?low_slice, ?low_u64;
    try done; unfold kSequence, kFamilyEnd, kHeaderChain, kNextPage, kCountersEnd, kNext; try lia.
  by apply words_family.
Qed.
End words_changed.

(** ** Changes to the link and the counters *)

Section frame_changed.
Context (u n : nat) (l l' : list N) (Hc : confined u n l l') (Hu : (256 <= u)%nat) (Hn : (u + n <= 320)%nat).

Lemma far_slice o k : (o + k <= 256 \/ 320 <= o)%nat -> slice o k l' = slice o k l.
Proof. intros H. apply (confined_slice u n); [done|lia]. Qed.

Lemma far_u64 o : (o + 8 <= 256)%nat -> u64_at o l' = u64_at o l.
Proof. intros H. unfold u64_at. by rewrite far_slice by lia. Qed.

Lemma frame_same_header : header_at l' = header_at l.
Proof. unfold header_at. by rewrite far_slice by lia. Qed.
Lemma frame_same_slots : slots_at l' = slots_at l.
Proof. unfold slots_at, page_size_at. by rewrite far_slice by lia. Qed.
Lemma frame_same_sequence : u64_at kSequence l' = u64_at kSequence l.
Proof. apply far_u64. unfold kSequence. lia. Qed.
Lemma frame_same_chain : u64_at kHeaderChain l' = u64_at kHeaderChain l.
Proof. apply far_u64. unfold kHeaderChain. lia. Qed.
Lemma frame_same_word slot : word_at l' slot = word_at l slot.
Proof. unfold word_at. rewrite far_slice; [done|]. rewrite word_offset. lia. Qed.

Lemma frame_same_words : words_at l' = words_at l.
Proof. unfold words_at. rewrite frame_same_slots. apply list_fmap_ext. intros. by rewrite frame_same_word. Qed.

Lemma frame_family : family_ok l -> family_ok l'.
Proof.
  intros []. pose proof (proj1 Hc) as Hlen.
  split; rewrite ?frame_same_slots, ?frame_same_sequence, ?far_u64, ?far_slice, ?Hlen; try done;
    unfold kMagic, kVersion, kWordBytes, kSlots, kFirstNumber; try lia.
  unfold page_size_at. by rewrite far_slice by lia.
Qed.

(** The frame holds when the changed fields are sound. *)
Lemma frame_changed_ok e :
  frame_ok e l ->
  links_ok (ph_page_number (header_at l)) (u64_at kSequence l) (u64_at kHeaderChain l) (u64_at kNextPage l') ->
  (first_page l = false -> slice kNext 56 l' = replicate 56 0) ->
  (first_page l = true -> HorizonsValid (counters_at l') = true) ->
  frame_ok e l'.
Proof.
  intros [] H1 H2 H3. assert (Hfirst : first_page l' = first_page l) by (unfold first_page; by rewrite frame_same_sequence).
  split; rewrite ?frame_same_header, ?frame_same_sequence, ?frame_same_chain, ?Hfirst; try done.
  - by rewrite far_slice by lia.
  - by apply frame_family.
  - rewrite far_slice; [done|unfold kFamilyEnd; lia].
  - rewrite far_slice; [done|unfold kCountersEnd; lia].
Qed.
End frame_changed.

(** ** Writing a word *)

Lemma word_at_stored l slot w slot' :
  family_ok l -> slot < slots_at l -> slot' < slots_at l -> word_legal w ->
  word_at (stored (WordOffset slot) (word_image w) l) slot' = if decide (slot' = slot) then Some w else word_at l slot'.
Proof.
  intros Hf Hs Hs' Hw. pose proof (word_room l slot Hf Hs) as Hr. unfold word_at. case_decide as E.
  - subst slot'. rewrite (slice_stored_same _ (word_image w)) by (rewrite length_word_image; lia). by apply decode_word_image.
  - f_equal. destruct (decide (slot' < slot)) as [H|H].
    + apply slice_stored_before; [rewrite length_word_image; lia|]. rewrite !word_offset. lia.
    + apply slice_stored_after; [rewrite length_word_image; lia|]. rewrite !word_offset, length_word_image. lia.
Qed.

Lemma store_word_confined l slot w :
  family_ok l -> slot < slots_at l -> confined (WordOffset slot) 4 l (stored (WordOffset slot) (word_image w) l).
Proof. intros Hf Hs. pose proof (word_room l slot Hf Hs). apply stored_confined; rewrite ?length_word_image; lia. Qed.

Lemma store_word_page l slot w :
  frame_ok None l -> words_ok l -> slot < slots_at l -> word_legal w -> word_placed l slot w ->
  page_of (stored (WordOffset slot) (word_image w) l) = Some (set_word (page_at l) slot w).
Proof.
  intros Hf Hw Hs Hl Hp. pose proof (fk_family _ _ Hf) as Hfam.
  pose proof (store_word_confined l slot w Hfam Hs) as Hc. set (l' := stored _ _ l) in *.
  assert (Hu : (512 <= WordOffset slot)%nat) by (rewrite word_offset; lia).
  pose proof (words_same_slots _ _ _ _ Hc Hu) as Hslots. pose proof (words_same_first _ _ _ _ Hc Hu) as Hfirst.
  assert (Hnext : forall o, (o + 8 <= 512)%nat -> u64_at o l' = u64_at o l) by (intros; by apply (low_u64 _ _ _ _ Hc Hu)).
  apply page_of_iff. split; [by apply (words_frame _ _ _ _ Hc Hu)|]. split.
  - intros slot' Hs'. rewrite Hslots in Hs'. unfold word_placed. rewrite Hfirst, Hnext by (unfold kNext; lia).
    unfold l'. rewrite word_at_stored by done. case_decide as E; [subst; eauto|apply Hw, Hs'].
  - unfold page_at, set_word. cbn [tp_header tp_sequence tp_header_chain tp_next_page tp_counters tp_words].
    rewrite (words_same_header _ _ _ _ Hc Hu), !Hnext by (unfold kSequence, kHeaderChain, kNextPage; lia).
    f_equal; [unfold stored_counters; by rewrite Hfirst, (words_same_counters _ _ _ _ Hc Hu)|].
    apply list_eq. intros i. destruct (decide (i < N.to_nat (slots_at l))%nat) as [Hi|Hi].
    2: { rewrite !lookup_ge_None_2; [done|..]; rewrite ?length_insert, length_words_at, ?Hslots; lia. }
    destruct (decide (i = N.to_nat slot)) as [->|Hne].
    + rewrite list_lookup_insert_eq by (rewrite length_words_at; lia). unfold words_at. rewrite Hslots, list_lookup_fmap, lookup_seq_lt by lia.
      cbn. unfold l'. rewrite N2Nat.id, word_at_stored, decide_True by done. done.
    + rewrite list_lookup_insert_ne by done. unfold words_at. rewrite Hslots, !list_lookup_fmap, lookup_seq_lt by lia.
      cbn. unfold l'. rewrite word_at_stored, decide_False by (done || lia). done.
Qed.

(** ** One write unit *)

(** What an accepted edit reports: the aligned unit the change lies in, with its bytes
    before the change. *)
Record in_unit (edit : TipPageEdit) (l l' : list N) : Prop := {
  iu_aligned : (te_unit_offset edit mod 512 = 0)%nat;
  iu_room : (te_unit_offset edit + 512 <= length l)%nat;
  iu_preimage : te_preimage edit = slice (te_unit_offset edit) 512 l;
  iu_confined : confined (te_unit_offset edit) 512 l l';
  iu_changed : te_changed edit = true <-> l' <> l }.

Definition edit_outcome (r : TipPageError + tip_page) (edit : TipPageEdit) (l l' : list N) : Prop :=
  match r with
  | inl e => te_error edit = e /\ e <> tpe_none /\ te_changed edit = false /\ l' = l
  | inr p => te_error edit = tpe_none /\ page_of l' = Some p /\ in_unit edit l l' /\ Forall is_byte l'
  end.

(** The length of a page is a number of units. *)
Lemma unit_of (l : list N) off :
  (length l mod 512 = 0)%nat -> (off < length l)%nat ->
  let u := (off - off mod 512)%nat in
  (u mod 512 = 0)%nat /\ (u <= off)%nat /\ (u + 512 <= length l)%nat /\ off = (u + off mod 512)%nat.
Proof.
  intros Hl Ho u. pose proof (Nat.Div0.div_mod off 512) as Hd. pose proof (Nat.mod_upper_bound off 512 ltac:(lia)) as Hm.
  assert (Hu : u = (off / 512 * 512)%nat) by (unfold u; lia). rewrite Hu at 1 3.
  split; [apply Nat.Div0.mod_mul|]. split; [unfold u; lia|]. split; [|unfold u; lia].
  apply Nat.Div0.mod_divides in Hl as [k Hk]. rewrite Hk in *. 
  assert (off / 512 < k)%nat by (apply Nat.Div0.div_lt_upper_bound; lia). lia.
Qed.

Lemma family_units l : family_ok l -> (length l mod 512 = 0)%nat.
Proof.
  intros [_ Hs Hl _ _ _ _ _ _]. destruct (slots_per_page _ Hs) as [_ Hm]. rewrite <- Hl in Hm.
  apply (f_equal N.to_nat) in Hm. rewrite N2Nat.inj_mod, Nat2N.id in Hm. done.
Qed.

Lemma finish_edit (l : list N) off bs :
  (length l mod 512 = 0)%nat -> (off + length bs <= length l)%nat -> (0 < length bs)%nat -> (off mod 512 + length bs <= 512)%nat ->
  exists edit, Begin l off = Some edit /\ te_error edit = tpe_none /\
    (slice off (length bs) l = bs -> in_unit edit l (stored off bs l)) /\
    (slice off (length bs) l <> bs -> in_unit (changed edit) l (stored off bs l)).
Proof.
  intros Hl Hr H0 Hu. destruct (unit_of l off Hl) as (H1 & H2 & H3 & H4); [lia|]. unfold Begin, kTransactionStateWriteUnitBytes.
  set (u := (off - off mod 512)%nat) in *. rewrite (load_bytes_some u 512 l) by lia. cbn [mbind option_bind].
  eexists. split; [reflexivity|]. split; [done|]. pose proof (stored_same_iff off bs l Hr) as Hsame.
  assert (Hc : confined u 512 l (stored off bs l)) by (apply stored_confined; lia).
  split; intros Hs; split; cbn [te_unit_offset te_preimage te_changed changed]; try done; split; intros E; try done;
    try (by apply Hsame in Hs); intros E'; by apply Hsame in E'.
Qed.

Lemma word_offset_unit slot : (WordOffset slot mod 512 + 4 <= 512)%nat.
Proof.
  rewrite word_offset. assert (H : ((512 + 4 * N.to_nat slot) mod 512 mod 4 = 0)%nat).
  { replace 512%nat with (4 * 128)%nat at 2 by done. rewrite Nat.Div0.mod_mul_r.
    replace (512 + 4 * N.to_nat slot)%nat with ((128 + N.to_nat slot) * 4)%nat by lia.
    rewrite Nat.Div0.mod_mul, Nat.add_0_l, Nat.mul_comm. apply Nat.Div0.mod_mul. }
  pose proof (Nat.mod_upper_bound (512 + 4 * N.to_nat slot) 512 ltac:(lia)) as Hb.
  apply Nat.Div0.mod_divides in H as [k Hk]. rewrite Hk in *. lia.
Qed.

(** ** Each edit against its meaning *)

Lemma slot_open_iff l slot :
  slot_open (page_at l) slot <->
  slot < slots_at l /\ (first_page l = true -> slot <> 0 /\ slot < u64_at kNext l).
Proof.
  unfold slot_open. cbn [tp_words tp_counters page_at]. rewrite length_words_at, N2Nat.id. unfold stored_counters.
  destruct (first_page l); cbn [tc_next_transaction counters_at]; [tauto|]. split; intros [H _]; by split.
Qed.

Lemma check_edit_slot l slot :
  frame_ok None l ->
  CheckEditSlot l (family_at l) slot = Some (if decide (slot_open (page_at l) slot) then tpe_none else tpe_invalid_slot).
Proof.
  intros Hf. pose proof (fo_room _ (fk_family _ _ Hf)) as Hroom. unfold CheckEditSlot, LoadLittle64.
  cbn [fm_slots fm_sequence fm_first_number family_at].
  rewrite (load_bytes_some kNext) by (unfold kNext; lia). cbn [fmap option_fmap option_map mbind option_bind].
  fold (u64_at kNext l). pose proof (first_numbers None l Hf slot) as Hn. unfold first_page in Hn.
  pose proof (slot_open_iff l slot) as Hiff. unfold first_page in Hiff. rewrite !N.eqb_eq in *.
  destruct (decide (slot_open (page_at l) slot)) as [Ho|Ho]; rewrite Hiff in Ho; repeat case_decide; try done; exfalso.
  all: try lia; try (rewrite Hn in * by lia); try lia.
  all: apply Ho; split; [lia|]; intros; try lia; tauto.
Qed.

Lemma with_family_ok l f : family_ok l -> with_family l f = f (family_at l).
Proof.
  intros Hf. unfold with_family. destruct (read_family_iff l) as (r & -> & Hr). cbn [mbind option_bind].
  rewrite (proj2 (Hr (family_at l)) (conj Hf eq_refl)). done.
Qed.

Lemma refused_outcome e l : e <> tpe_none -> edit_outcome (inl e) (RefuseEdit e) l l.
Proof. done. Qed.

Lemma slot_open_placed l slot w : slot_open (page_at l) slot -> slot < slots_at l /\ word_placed l slot w.
Proof. rewrite slot_open_iff. intros [H1 H2]. split; [done|by right]. Qed.

Lemma word_bytes_at l slot w : Forall is_byte l -> word_at l slot = Some w -> slice (WordOffset slot) 4 l = word_image w /\ word_legal w.
Proof. intros Hb H. apply decode_word_inv in H as [H1 H2]; [done|by apply slice_bytes]. Qed.

Lemma edit_word_refines l slot w :
  Forall is_byte l -> frame_ok None l -> words_ok l -> word_sized w ->
  exists edit l', SetTransactionStateWord l slot w = Some (edit, l') /\
    edit_outcome (apply_edit (edit_word slot w) (page_at l)) edit l l'.
Proof.
  intros Hb Hf Hw Hz. pose proof (fk_family _ _ Hf) as Hfam. unfold SetTransactionStateWord, apply_edit.
  rewrite with_family_ok, check_edit_slot by done. cbn [mbind option_bind].
  destruct (decide (slot_open (page_at l) slot)) as [Ho|Ho].
  2: { rewrite (decide_True (P := tpe_invalid_slot <> tpe_none)) by done. rewrite decide_True by done. eauto using refused_outcome. }
  rewrite (decide_False (P := tpe_none <> tpe_none)) by (intros []; done). rewrite (decide_False (P := ~ slot_open _ _)) by tauto.
  rewrite encode_word by done. destruct (decide (word_legal w)) as [Hl|Hl].
  2: { rewrite decide_True by done. do 2 eexists. split; [done|]. by apply refused_outcome. }
  rewrite (decide_False (P := ~ word_legal w)) by tauto.
  destruct (slot_open_placed l slot w Ho) as [Hs Hp].
  destruct (lookup_words_at l slot Hw Hs) as (old & Hlook & Hold & _). destruct (word_bytes_at l slot old Hb Hold) as [Hbytes Holdl].
  unfold WordBytes, kTransactionStateWordBytes. pose proof (word_room l slot Hfam Hs) as Hroom.
  rewrite (load_bytes_some (WordOffset slot) 4 l) by done. cbn [mbind option_bind]. rewrite Hbytes. cbn [lookup list_lookup word_image mbind option_bind].
  change (tp_words (page_at l)) with (words_at l). rewrite Hlook.
  assert (Hun : tip_byte (tw_state old) <> 0 <-> Some old <> Some unused_word).
  { rewrite tip_byte_zero. split; intros H E; apply H; [by injection E as ->|]. f_equal. by apply (proj2 (proj2 (proj2 Holdl))). }
  destruct (decide (tw_state w = tip_unused /\ tip_byte (tw_state old) <> 0)) as [Hd|Hd].
  { rewrite decide_True by (rewrite <- Hun; done). do 2 eexists. split; [done|]. by apply refused_outcome. }
  rewrite (decide_False (P := _ /\ Some old <> _)) by (rewrite <- Hun; done).
  change [tip_byte (tw_state old); tw_flags old; authority_byte (tw_authority old) + 4 * tw_intent old; tw_epoch_delta old] with (word_image old).
  destruct (finish_edit l (WordOffset slot) (word_image w)) as (edit & -> & He & H1 & H2);
    [by apply family_units|rewrite length_word_image; lia|rewrite length_word_image; lia|apply word_offset_unit|].
  rewrite length_word_image, Hbytes in H1, H2. cbn [mbind option_bind].
  pose proof (store_word_page l slot w Hf Hw Hs Hl Hp) as Hpage.
  pose proof (stored_bytes (WordOffset slot) _ l (word_image_bytes w Hl) Hb) as Hbytes'.
  case_decide as E.
  - exists edit, (stored (WordOffset slot) (word_image w) l). split; [|by split_and!; auto].
    do 2 f_equal. symmetry. apply stored_same_iff; [rewrite length_word_image; lia|]. by rewrite length_word_image, Hbytes.
  - rewrite store_bytes_some by (rewrite length_word_image; lia). cbn [mbind option_bind].
    do 2 eexists. split; [done|]. split_and!; auto.
Qed.

(** Writing the state byte writes the word with that state. *)
Lemma stored_head off b b0 rest l :
  (off + S (length rest) <= length l)%nat -> slice off (S (length rest)) l = b0 :: rest ->
  stored off [b] l = stored off (b :: rest) l.
Proof.
  intros Hl Hs. change (b :: rest) with ([b] ++ rest). rewrite <- stored_twice by (cbn [length]; lia). cbn [length].
  symmetry. apply stored_same_iff; [rewrite length_stored by (cbn [length]; lia); lia|].
  rewrite slice_stored_after by (cbn [length]; lia).
  pose proof (slice_cat off 1 (length rest) l) as Hc. cbn [Nat.add] in Hc. rewrite Hs in Hc.
  assert (H1 : length (slice off 1 l) = 1%nat) by (apply length_slice; lia).
  destruct (slice off 1 l) as [|x [|]]; try done. by injection Hc.
Qed.

Lemma slice_head off n b rest (l : list N) : slice off n l = b :: rest -> l !! off = Some b.
Proof.
  unfold slice. intros H. destruct n as [|n]; [done|]. apply (f_equal (fun k : list N => k !! 0%nat)) in H.
  rewrite lookup_take, lookup_drop, Nat.add_0_r in H by lia. done.
Qed.

Lemma edit_code_refines l slot c :
  Forall is_byte l -> frame_ok None l -> words_ok l ->
  exists edit l', SetTransactionStateCode l slot c = Some (edit, l') /\
    edit_outcome (apply_edit (edit_code slot c) (page_at l)) edit l l'.
Proof.
  intros Hb Hf Hw. pose proof (fk_family _ _ Hf) as Hfam. unfold SetTransactionStateCode, apply_edit.
  rewrite with_family_ok, check_edit_slot by done. cbn [mbind option_bind].
  destruct (decide (slot_open (page_at l) slot)) as [Ho|Ho].
  2: { rewrite (decide_True (P := tpe_invalid_slot <> tpe_none)) by done. rewrite decide_True by done. eauto using refused_outcome. }
  rewrite (decide_False (P := tpe_none <> tpe_none)) by (intros []; done). rewrite (decide_False (P := ~ slot_open _ _)) by tauto.
  pose proof (tip_byte_small c) as Hc. destruct (decide (c = tip_unused)) as [Hu|Hu].
  { rewrite decide_True by tauto. do 2 eexists. split; [done|]. by apply refused_outcome. }
  rewrite decide_False by (intros [?|?]; [lia|done]).
  change (tp_words (page_at l)) with (words_at l). destruct (slot_open_placed l slot unused_word Ho) as [Hs _].
  destruct (lookup_words_at l slot Hw Hs) as (old & -> & Hold & _). cbn [default].
  destruct (word_bytes_at l slot old Hb Hold) as [Hbytes (Hl1 & Hl2 & Hl3 & _)].
  assert (Hl : word_legal (with_state c old)) by (split_and!; [done..|intros; by destruct Hu]).
  pose proof (word_room l slot Hfam Hs) as Hroom.
  assert (Hhead : stored (WordOffset slot) [tip_byte c] l = stored (WordOffset slot) (word_image (with_state c old)) l)
    by exact (stored_head (WordOffset slot) (tip_byte c) (tip_byte (tw_state old))
      [tw_flags old; authority_byte (tw_authority old) + 4 * tw_intent old; tw_epoch_delta old] l Hroom Hbytes).
  destruct (finish_edit l (WordOffset slot) [tip_byte c]) as (edit & -> & He & H1 & H2);
    [by apply family_units|cbn [length]; lia|cbn [length]; lia|pose proof (word_offset_unit slot); cbn [length]; lia|].
  cbn [mbind option_bind]. rewrite (slice_head _ _ _ _ _ Hbytes). cbn [mbind option_bind].
  assert (Hone : slice (WordOffset slot) 1 l = [tip_byte (tw_state old)]).
  { pose proof (slice_cat (WordOffset slot) 1 3 l) as Hcat. cbn [Nat.add] in Hcat. rewrite Hbytes in Hcat.
    assert (Hlen : length (slice (WordOffset slot) 1 l) = 1%nat) by (apply length_slice; lia).
    destruct (slice (WordOffset slot) 1 l) as [|x [|]]; try done. by injection Hcat as ->. }
  cbn [length] in H1, H2. rewrite Hone, Hhead in H1, H2.
  pose proof (store_word_page l slot _ Hf Hw Hs Hl (proj2 (slot_open_placed l slot _ Ho))) as Hpage.
  pose proof (stored_bytes (WordOffset slot) _ l (word_image_bytes _ Hl) Hb) as Hbytes'.
  case_decide as E.
  - exists edit, (stored (WordOffset slot) (word_image (with_state c old)) l).
    assert (Hsame : stored (WordOffset slot) (word_image (with_state c old)) l = l).
    { rewrite <- Hhead. apply stored_same_iff; cbn [length]; [lia|]. by rewrite Hone, E. }
    split; [by rewrite Hsame|]. split_and!; auto. apply H1. by rewrite E.
  - rewrite store_bytes_some by (cbn [length]; lia). cbn [mbind option_bind]. rewrite Hhead.
    do 2 eexists. split; [done|]. split_and!; auto. apply H2. by intros [= ?].
Qed.

(** ** Writing the counters *)

Definition counter_image (c : TipCounters) : list N :=
  mjoin [le_bytes 8 (tc_next_transaction c); le_bytes 8 (th_oldest_interesting (tc_horizons c));
    le_bytes 8 (th_oldest_active (tc_horizons c)); le_bytes 8 (th_oldest_snapshot (tc_horizons c));
    le_bytes 8 (th_oldest_cleanup (tc_horizons c)); le_bytes 8 (th_oldest_archive_required (tc_horizons c));
    le_bytes 8 (th_oldest_limbo_resolution (tc_horizons c))].

Lemma length_counter_image c : length (counter_image c) = 56%nat.
Proof. unfold counter_image. cbn [mjoin list_join]. by rewrite !length_app, !length_le_bytes. Qed.

Lemma counter_image_bytes c : Forall is_byte (counter_image c).
Proof. unfold counter_image. cbn [mjoin list_join]. repeat (apply Forall_app; split; [apply le_bytes_bytes|]). constructor. Qed.

Lemma store_next off a v l :
  (off + length a + 8 <= length l)%nat ->
  StoreLittle64 (off + length a) v (stored off a l) = Some (stored off (a ++ le_bytes 8 v) l).
Proof.
  intros H. unfold StoreLittle64. rewrite store_bytes_some by (rewrite length_le_bytes, length_stored; lia).
  by rewrite stored_twice by (rewrite length_le_bytes; lia).
Qed.

Lemma put_counters c l : (512 <= length l)%nat -> PutCounters c l = Some (stored kNext (counter_image c) l).
Proof.
  intros Hl. unfold PutCounters, counter_image. cbn [mjoin list_join]. rewrite app_nil_r, !app_assoc.
  assert (H0 : forall v, StoreLittle64 kNext v l = Some (stored kNext (le_bytes 8 v) l)).
  { intros v. unfold StoreLittle64. by rewrite store_bytes_some by (rewrite length_le_bytes; unfold kNext; lia). }
  rewrite H0. cbn [mbind option_bind].
  repeat (match goal with |- context [StoreLittle64 ?o ?v (stored kNext ?a l)] =>
    replace (StoreLittle64 o v (stored kNext a l)) with (Some (stored kNext (a ++ le_bytes 8 v) l));
    [|symmetry; replace o with (kNext + length a)%nat by (rewrite ?length_app, !length_le_bytes; reflexivity);
      apply store_next; rewrite ?length_app, !length_le_bytes; unfold kNext; lia]
  end; cbn [mbind option_bind]).
  done.
Qed.

Lemma counters_at_stored c l :
  (512 <= length l)%nat -> counters_sized c -> counters_at (stored kNext (counter_image c) l) = c.
Proof.
  intros Hl [Hn Hh]. unfold horizon_values in Hh. rewrite !Forall_cons in Hh. destruct Hh as (H1 & H2 & H3 & H4 & H5 & H6 & _).
  assert (Hs : forall i v, (i < 7)%nat -> is_u64 v -> slice (8 * i) 8 (counter_image c) = le_bytes 8 v ->
    u64_at (kNext + 8 * i) (stored kNext (counter_image c) l) = v).
  { intros i v Hi Hv Hc. unfold u64_at. rewrite slice_stored_inner by (rewrite length_counter_image; unfold kNext; lia).
    rewrite Hc. by apply u64_of_bytes. }
  pose proof (Hs 0%nat _ ltac:(lia) Hn) as E0. pose proof (Hs 1%nat _ ltac:(lia) H1) as E1. pose proof (Hs 2%nat _ ltac:(lia) H2) as E2.
  pose proof (Hs 3%nat _ ltac:(lia) H3) as E3. pose proof (Hs 4%nat _ ltac:(lia) H4) as E4. pose proof (Hs 5%nat _ ltac:(lia) H5) as E5.
  pose proof (Hs 6%nat _ ltac:(lia) H6) as E6. clear Hs.
  assert (Hch : forall i v, (le_bytes 8 <$> (tc_next_transaction c :: horizon_values (tc_horizons c))) !! i = Some (le_bytes 8 v) ->
    slice (8 * i) 8 (counter_image c) = le_bytes 8 v).
  { intros i v Hi. apply (chunk_slice i); [exact Hi| |by rewrite length_le_bytes].
    pose proof (lookup_lt_Some _ _ _ Hi) as Hlt. cbn in Hlt.
    do 7 (destruct i as [|i]; [layout_size|]). lia. }
  destruct c as [n [a b d e f g]]. cbn [tc_next_transaction tc_horizons th_oldest_interesting th_oldest_active th_oldest_snapshot th_oldest_cleanup
    th_oldest_archive_required th_oldest_limbo_resolution] in *.
  unfold counters_at. change kHorizons with (kNext + 8 * 1)%nat.
  rewrite E1 by by apply Hch.
  change (kNext + 8 * 1 + 8)%nat with (kNext + 8 * 2)%nat. rewrite E2 by by apply Hch.
  change (kNext + 8 * 1 + 16)%nat with (kNext + 8 * 3)%nat. rewrite E3 by by apply Hch.
  change (kNext + 8 * 1 + 24)%nat with (kNext + 8 * 4)%nat. rewrite E4 by by apply Hch.
  change (kNext + 8 * 1 + 32)%nat with (kNext + 8 * 5)%nat. rewrite E5 by by apply Hch.
  change (kNext + 8 * 1 + 40)%nat with (kNext + 8 * 6)%nat. rewrite E6 by by apply Hch.
  change kNext with (kNext + 8 * 0)%nat at 1. by rewrite E0 by by apply Hch.
Qed.

Lemma counters_at_image l :
  Forall is_byte l -> (512 <= length l)%nat -> counter_image (counters_at l) = slice kNext 56 l.
Proof.
  intros Hb Hl. change 56%nat with (sum_list [8; 8; 8; 8; 8; 8; 8]%nat). rewrite <- slices_join. unfold counter_image, counters_at, u64_at.
  cbn [slices tc_next_transaction tc_horizons th_oldest_interesting th_oldest_active th_oldest_snapshot th_oldest_cleanup
    th_oldest_archive_required th_oldest_limbo_resolution].
  rewrite !le_bytes_slice by (done || (unfold kHorizons, kNext; lia)). done.
Qed.

Lemma counters_same_iff c l :
  Forall is_byte l -> (512 <= length l)%nat -> counters_sized c -> counters_at l = c <-> slice kNext 56 l = counter_image c.
Proof.
  intros Hb Hl Hc. split; [intros <-; symmetry; by apply counters_at_image|]. intros E.
  rewrite <- (counters_at_stored c l Hl Hc), <- E. by rewrite stored_slice by (unfold kNext; lia).
Qed.

Lemma store_counters_page l c :
  frame_ok None l -> words_ok l -> first_page l = true -> counters_sized c -> HorizonsValid c = true ->
  u64_at kNext l <= tc_next_transaction c ->
  page_of (stored kNext (counter_image c) l) =
  Some (mkTipPage (header_at l) (u64_at kSequence l) (u64_at kHeaderChain l) (u64_at kNextPage l) (Some c) (words_at l)).
Proof.
  intros Hf Hw Hfirst Hz Hv Hn. pose proof (fo_room _ (fk_family _ _ Hf)) as Hroom.
  assert (Hc : confined kNext 56 l (stored kNext (counter_image c) l)).
  { apply stored_confined; rewrite ?length_counter_image; unfold kNext; lia. }
  pose proof (counters_at_stored c l Hroom Hz) as Hat. set (l' := stored _ _ l) in *.
  assert (Hu : (256 <= kNext)%nat) by (unfold kNext; lia). assert (Hu' : (kNext + 56 <= 320)%nat) by (unfold kNext; lia).
  assert (Hlink : u64_at kNextPage l' = u64_at kNextPage l).
  { unfold u64_at. f_equal. apply (confined_slice kNext 56); [done|unfold kNext, kNextPage; lia]. }
  pose proof (frame_same_sequence _ _ _ _ Hc Hu Hu') as Hseq.
  assert (Hfirst' : first_page l' = true) by (unfold first_page in *; by rewrite Hseq).
  apply page_of_iff. split; [apply (frame_changed_ok _ _ _ _ Hc Hu Hu'); try done|split].
  - rewrite Hlink. apply (fk_links _ _ Hf).
  - by rewrite Hfirst.
  - intros _. by rewrite Hat.
  - intros slot Hs. rewrite (frame_same_slots _ _ _ _ Hc Hu Hu') in Hs. rewrite (frame_same_word _ _ _ _ Hc Hu Hu').
    destruct (Hw slot Hs) as (w & H1 & H2). exists w. split; [done|]. destruct H2 as [?|H2]; [by left|]. right. intros _.
    specialize (H2 Hfirst). change (u64_at kNext l') with (tc_next_transaction (counters_at l')). rewrite Hat. lia.
  - unfold page_at, stored_counters. rewrite Hfirst', Hat, Hlink, Hseq, (frame_same_header _ _ _ _ Hc Hu Hu'),
      (frame_same_chain _ _ _ _ Hc Hu Hu'), (frame_same_words _ _ _ _ Hc Hu Hu'). done.
Qed.

Lemma edit_counters_refines l c :
  Forall is_byte l -> frame_ok None l -> words_ok l -> counters_sized c ->
  exists edit l', SetTransactionStateCounters l c = Some (edit, l') /\
    edit_outcome (apply_edit (edit_counters c) (page_at l)) edit l l'.
Proof.
  intros Hb Hf Hw Hz. pose proof (fk_family _ _ Hf) as Hfam. pose proof (fo_room _ Hfam) as Hroom.
  unfold SetTransactionStateCounters, apply_edit. rewrite with_family_ok by done. cbn [fm_sequence family_at tp_counters page_at].
  unfold stored_counters. destruct (first_page l) eqn:Hfirst.
  2: { unfold first_page in Hfirst. apply N.eqb_neq in Hfirst. rewrite bool_decide_eq_true_2 by done. cbn [orb].
    do 2 eexists. split; [done|]. by apply refused_outcome. }
  pose proof Hfirst as Hseq. unfold first_page in Hseq. apply N.eqb_eq in Hseq. rewrite bool_decide_eq_false_2 by tauto. cbn [orb].
  destruct (HorizonsValid c) eqn:Hv; cbn [negb]; [|do 2 eexists; split; [done|]; by apply refused_outcome].
  rewrite get_counters by done. cbn [mbind option_bind tc_next_transaction counters_at].
  case_decide as Hn; [do 2 eexists; split; [done|]; by apply refused_outcome|].
  destruct (finish_edit l kNext (counter_image c)) as (edit & -> & He & H1 & H2);
    [by apply family_units|rewrite length_counter_image; unfold kNext; lia|rewrite length_counter_image; lia
    |rewrite length_counter_image; cbn; lia|].
  rewrite length_counter_image in H1, H2. cbn [mbind option_bind].
  pose proof (store_counters_page l c Hf Hw Hfirst Hz Hv ltac:(lia)) as Hpage.
  pose proof (counters_same_iff c l Hb Hroom Hz) as Hsame.
  pose proof (stored_bytes kNext _ l (counter_image_bytes c) Hb) as Hbytes.
  change (mkTipCounters (u64_at kNext l) _) with (counters_at l). case_decide as E.
  - exists edit, (stored kNext (counter_image c) l). apply Hsame in E. split; [|by split_and!; auto].
    do 2 f_equal. symmetry. apply stored_same_iff; rewrite length_counter_image; [unfold kNext; lia|done].
  - rewrite put_counters by done. cbn [mbind option_bind]. do 2 eexists. split; [done|].
    split_and!; try done. apply H2. by rewrite <- Hsame.
Qed.

(** ** Writing the link *)

Lemma store_link_page l n :
  frame_ok None l -> words_ok l -> is_u64 n ->
  n <> 0 -> n <> ph_page_number (header_at l) -> n <> u64_at kHeaderChain l ->
  page_of (stored kNextPage (le_bytes 8 n) l) =
  Some (mkTipPage (header_at l) (u64_at kSequence l) (u64_at kHeaderChain l) n (stored_counters l) (words_at l)).
Proof.
  intros Hf Hw Hn H1 H2 H3. pose proof (fo_room _ (fk_family _ _ Hf)) as Hroom.
  assert (Hc : confined kNextPage 8 l (stored kNextPage (le_bytes 8 n) l)).
  { apply stored_confined; rewrite ?length_le_bytes; unfold kNextPage; lia. }
  assert (Hat : u64_at kNextPage (stored kNextPage (le_bytes 8 n) l) = n).
  { unfold u64_at. pose proof (slice_stored_same kNextPage (le_bytes 8 n) l) as Hs. rewrite length_le_bytes in Hs.
    rewrite Hs by (unfold kNextPage; lia). by apply u64_of_bytes. }
  set (l' := stored _ _ l) in *.
  assert (Hu : (256 <= kNextPage)%nat) by (unfold kNextPage; lia). assert (Hu' : (kNextPage + 8 <= 320)%nat) by (unfold kNextPage; lia).
  assert (Hslice : forall o k, (264 <= o)%nat -> slice o k l' = slice o k l).
  { intros o k Ho. apply (confined_slice kNextPage 8); [done|unfold kNextPage; lia]. }
  pose proof (frame_same_sequence _ _ _ _ Hc Hu Hu') as Hseq.
  assert (Hfirst : first_page l' = first_page l) by (unfold first_page; by rewrite Hseq).
  assert (Hcounters : counters_at l' = counters_at l).
  { unfold counters_at, u64_at. rewrite !Hslice; [done|..]; unfold kHorizons, kNext; lia. }
  apply page_of_iff. split; [apply (frame_changed_ok _ _ _ _ Hc Hu Hu'); try done|split].
  - destruct (fk_links _ _ Hf) as (L1 & L2 & L3 & L4). rewrite Hat. by split_and!.
  - intros H. rewrite Hslice; [by apply (fk_no_counters _ _ Hf)|unfold kNext; lia].
  - intros H. rewrite Hcounters. by apply (fk_counters _ _ Hf).
  - intros slot Hs. rewrite (frame_same_slots _ _ _ _ Hc Hu Hu') in Hs. unfold word_placed.
    rewrite (frame_same_word _ _ _ _ Hc Hu Hu'), Hfirst. unfold u64_at. rewrite Hslice by (unfold kNext; lia). by apply Hw.
  - unfold page_at, stored_counters. by rewrite Hfirst, Hat, Hcounters, Hseq, (frame_same_header _ _ _ _ Hc Hu Hu'),
      (frame_same_chain _ _ _ _ Hc Hu Hu'), (frame_same_words _ _ _ _ Hc Hu Hu').
Qed.

Lemma edit_next_refines l n :
  Forall is_byte l -> frame_ok None l -> words_ok l -> is_u64 n ->
  exists edit l', SetTransactionStateNextPage l n = Some (edit, l') /\
    edit_outcome (apply_edit (edit_next_page n) (page_at l)) edit l l'.
Proof.
  intros Hb Hf Hw Hz. pose proof (fk_family _ _ Hf) as Hfam. pose proof (fo_room _ Hfam) as Hroom.
  unfold SetTransactionStateNextPage, apply_edit. rewrite with_family_ok by done. unfold LoadLittle64.
  rewrite (load_bytes_some 72), (load_bytes_some kNextPage), (load_bytes_some kHeaderChain)
    by (unfold kNextPage, kHeaderChain; lia).
  cbn [fmap option_fmap option_map mbind option_bind tp_header tp_next_page tp_header_chain page_at].
  rewrite header_number_at. fold (u64_at 72 l) (u64_at kNextPage l) (u64_at kHeaderChain l).
  case_decide as H1; [rewrite decide_True by tauto; do 2 eexists; split; [done|]; by apply refused_outcome|].
  case_decide as H2; [rewrite decide_True by tauto; do 2 eexists; split; [done|]; by apply refused_outcome|].
  rewrite decide_False by tauto.
  destruct (finish_edit l kNextPage (le_bytes 8 n)) as (edit & -> & He & F1 & F2);
    [by apply family_units|rewrite length_le_bytes; unfold kNextPage; lia|rewrite length_le_bytes; lia
    |rewrite length_le_bytes; cbn; lia|].
  rewrite length_le_bytes in F1, F2. cbn [mbind option_bind].
  assert (Hpage := store_link_page l n Hf Hw Hz ltac:(tauto) ltac:(rewrite header_number_at; tauto) ltac:(tauto)).
  assert (Hsame : u64_at kNextPage l = n <-> slice kNextPage 8 l = le_bytes 8 n).
  { unfold u64_at. split; intros E; [apply slice_constant; [done|unfold kNextPage; lia|done]|].
    rewrite E. by apply u64_of_bytes. }
  pose proof (stored_bytes kNextPage _ l (le_bytes_bytes 8 n) Hb) as Hbytes.
  case_decide as E.
  - exists edit, (stored kNextPage (le_bytes 8 n) l). apply Hsame in E. split; [|by split_and!; auto].
    do 2 f_equal. symmetry. apply stored_same_iff; rewrite length_le_bytes; [unfold kNextPage; lia|done].
  - unfold StoreLittle64. rewrite store_bytes_some by (rewrite length_le_bytes; unfold kNextPage; lia). cbn [mbind option_bind].
    do 2 eexists. split; [done|]. split_and!; try done. apply F2. by rewrite <- Hsame.
Qed.

(** Every edit does on the image what it means for the page. *)
Lemma run_edit_refines e l p :
  Forall is_byte l -> page_of l = Some p -> edit_sized e ->
  exists edit l', run_edit e l = Some (edit, l') /\ edit_outcome (apply_edit e p) edit l l'.
Proof.
  intros Hb Hp Hz. apply page_of_iff in Hp as (Hf & Hw & ->). destruct e as [slot w|slot c|c|n]; cbn [run_edit edit_sized] in *.
  - by apply edit_word_refines.
  - by apply edit_code_refines.
  - by apply edit_counters_refines.
  - by apply edit_next_refines.
Qed.

(** ** Formatting a transaction state page

    The stores of the formatter make a fixed layout, and the decoder reads the empty page
    from it. *)

(** The formats that are accepted. *)
Record format_legal (f : TipPageFormat) : Prop := {
  fl_slots : TipSlotsPerPage (ph_page_size_bytes (tf_header f)) <> 0;
  fl_type : ph_page_type (tf_header f) = kTransactionStatePageType;
  fl_flags : ph_flags (tf_header f) = 0;
  fl_header : encode_error (tf_header f) = phe_none;
  fl_sequence : tf_tip_sequence f <= u64_max / TipSlotsPerPage (ph_page_size_bytes (tf_header f));
  fl_counters : match tf_counters f with
                | Some c => tf_tip_sequence f = 0 /\ HorizonsValid c = true
                | None => tf_tip_sequence f <> 0
                end;
  fl_links : links_ok (ph_page_number (tf_header f)) (tf_tip_sequence f) (tf_header_chain_page f) (tf_next_tip_page f) }.

Record format_sized (f : TipPageFormat) : Prop := {
  fz_header : header_sized (tf_header f);
  fz_sequence : is_u64 (tf_tip_sequence f);
  fz_next : is_u64 (tf_next_tip_page f);
  fz_chain : is_u64 (tf_header_chain_page f);
  fz_counters : match tf_counters f with Some c => counters_sized c | None => True end }.

Lemma format_counters_iff sequence (counters : option TipCounters) :
  negb (Bool.eqb (sequence =? 0) (bool_decide (is_Some counters))) = false /\
  match counters with Some c => negb (HorizonsValid c) | None => false end = false <->
  match counters with Some c => sequence = 0 /\ HorizonsValid c = true | None => sequence <> 0 end.
Proof.
  rewrite negb_false_iff, eqb_true_iff. destruct counters as [c|]; destruct (N.eqb_spec sequence 0); cbn; 
    rewrite ?negb_false_iff; split; intros H; destruct_and?; split_and?; try done.
Qed.

Lemma format_error_iff f h : encode_error (tf_header f) = phe_none -> format_error f (inr h) = tpe_none <-> format_legal f.
Proof.
  intros He. pose proof (format_counters_iff (tf_tip_sequence f) (tf_counters f)) as Hc.
  pose proof (links_refused (ph_page_number (tf_header f)) (tf_tip_sequence f) (tf_header_chain_page f) (tf_next_tip_page f)) as Hl.
  unfold format_error. split.
  - intros H. case_decide as H1; [done|]. case_decide as H2; [done|]. case_decide as H3; [done|].
    destruct (negb (Bool.eqb (tf_tip_sequence f =? 0) (bool_decide (is_Some (tf_counters f))))) eqn:H4; [done|].
    destruct (match tf_counters f with Some c => _ | None => _ end) eqn:H5; [done|].
    case_decide as H6; [done|]. destruct (_ || _) eqn:H7 in H; [done|].
    apply Decidable.not_or in H2 as [H2 H2']. apply dec_stable in H2, H2'.
    split; try done; [lia|by apply Hc|]. apply Hl. rewrite bool_decide_eq_false_2 by done. exact H7.
  - intros [F1 F2 F3 F4 F5 F6 F7]. apply Hc in F6 as [F6 F6']. apply Hl in F7. rewrite <- !orb_assoc, orb_false_iff in F7.
    destruct F7 as [F7 F7']. apply bool_decide_eq_false in F7.
    rewrite decide_False by done. rewrite decide_False by tauto. rewrite decide_False by lia. rewrite F6, F6'.
    rewrite decide_False by done. rewrite <- !orb_assoc, F7'. done.
Qed.

(** The fields of a freshly formatted page, and what follows the page in the buffer. *)
Definition format_layout (f : TipPageFormat) (counters : list N) (words : nat) (rest : list N) : list (list N) :=
  let slots := TipSlotsPerPage (ph_page_size_bytes (tf_header f)) in
  [header_image (tf_header f); kTransactionStatePageMagic; le_bytes 2 1; le_bytes 2 4; le_bytes 4 slots;
   le_bytes 8 (tf_tip_sequence f); le_bytes 8 (tf_tip_sequence f * slots); le_bytes 8 (tf_header_chain_page f);
   replicate 88 0; le_bytes 8 (tf_next_tip_page f); counters; replicate 192 0; replicate words 0; rest].

Definition format_counters (f : TipPageFormat) : list N :=
  match tf_counters f with Some c => counter_image c | None => replicate 56 0 end.

Lemma length_format_counters f : length (format_counters f) = 56%nat.
Proof. unfold format_counters. destruct (tf_counters f); [apply length_counter_image|apply length_replicate]. Qed.

Lemma format_stores f words output :
  header_sized (tf_header f) -> N.to_nat (ph_page_size_bytes (tf_header f)) = (512 + words)%nat -> (512 + words <= length output)%nat ->
  (p ← store_bytes 0 (replicate (N.to_nat (ph_page_size_bytes (tf_header f))) 0) output;
   p ← store_bytes 0 (header_image (tf_header f)) p;
   p ← store_bytes kMagic kTransactionStatePageMagic p;
   p ← StoreLittle16 kVersion kTransactionStatePageVersion p;
   p ← StoreLittle16 kWordBytes (N.of_nat kTransactionStateWordBytes) p;
   p ← StoreLittle32 kSlots (TipSlotsPerPage (ph_page_size_bytes (tf_header f))) p;
   p ← StoreLittle64 kSequence (tf_tip_sequence f) p;
   p ← StoreLittle64 kFirstNumber (tf_tip_sequence f * TipSlotsPerPage (ph_page_size_bytes (tf_header f))) p;
   p ← StoreLittle64 kHeaderChain (tf_header_chain_page f) p;
   p ← StoreLittle64 kNextPage (tf_next_tip_page f) p;
   p ← match tf_counters f with Some c => PutCounters c p | None => Some p end;
   Some (tpe_none, p)) =
  Some (tpe_none, mjoin (format_layout f (format_counters f) words (drop (512 + words) output))).
Proof.
  intros Hz Hp Ho. rewrite Hp. pose proof (hf_length _ (proj1 (header_image_framed _ Hz))) as Hh.
  pose proof (eq_refl : length kTransactionStatePageMagic = 8%nat) as Hm.
  rewrite store_bytes_some by (rewrite length_replicate; lia). cbn [mbind option_bind].
  assert (Hzero : stored 0 (replicate (512 + words) 0) output =
    mjoin (zero_chunks [128; 8; 2; 2; 4; 8; 8; 8; 88; 8; 56; 192; words]%nat ++ [drop (512 + words) output])).
  { rewrite join_app, replicate_chunks. unfold stored. rewrite length_replicate. change (0 + (512 + words))%nat with (512 + words)%nat.
    rewrite take_0. cbn [app mjoin list_join]. rewrite app_nil_r. f_equal. f_equal. cbn [sum_list_with]. unfold id. lia. }
  rewrite Hzero. unfold StoreLittle16, StoreLittle32, StoreLittle64, kMagic, kVersion, kWordBytes, kSlots, kSequence, kFirstNumber,
    kHeaderChain, kNextPage.
  unfold zero_chunks. cbn [fmap list_fmap app].
  generalize (drop (512 + words) output) as rest. intros rest.
  store_field 0%nat. store_field 1%nat. store_field 2%nat. store_field 3%nat. store_field 4%nat. store_field 5%nat.
  store_field 6%nat. store_field 7%nat. store_field 9%nat.
  change (N.of_nat kTransactionStateWordBytes) with 4. unfold kTransactionStatePageVersion.
  unfold format_layout, format_counters. destruct (tf_counters f) as [c|]; [|reflexivity].
  pose proof (length_counter_image c) as Hc.
  rewrite put_counters by layout_size. cbn [mbind option_bind]. do 2 f_equal.
  apply (inj Some). rewrite <- store_bytes_some by (rewrite Hc; unfold kNext; layout_size).
  rewrite (store_chunk 10 _ (replicate 56 0)); [reflexivity|reflexivity|unfold kNext; layout_size|by rewrite Hc].
Qed.

Section formatted.
Context (f : TipPageFormat) (Hz : format_sized f) (Hl : format_legal f).
Let slots := TipSlotsPerPage (ph_page_size_bytes (tf_header f)).
Let words := (4 * N.to_nat slots)%nat.
Let page := mjoin (format_layout f (format_counters f) words []).

Lemma format_page_size : ph_page_size_bytes (tf_header f) = 512 + 4 * slots.
Proof. apply (slots_per_page _ (fl_slots _ Hl)). Qed.

Lemma length_header : length (header_image (tf_header f)) = 128%nat.
Proof. apply (hf_length _ (proj1 (header_image_framed _ (fz_header _ Hz)))). Qed.

Lemma length_formatted : length page = (512 + words)%nat.
Proof.
  pose proof length_header. pose proof (length_format_counters f). unfold page, format_layout, kTransactionStatePageMagic.
  cbn [mjoin list_join]. rewrite !length_app, !length_le_bytes, !length_replicate. cbn [length]. lia.
Qed.

Lemma formatted_chunk i c off n :
  format_layout f (format_counters f) words [] !! i = Some c ->
  off = chunk_offset i (format_layout f (format_counters f) words []) -> n = length c -> slice off n page = c.
Proof. apply chunk_slice. Qed.

Ltac field i :=
  pose proof length_header; pose proof (length_format_counters f); pose proof (eq_refl : length kTransactionStatePageMagic = 8%nat);
  apply (formatted_chunk i); [reflexivity| |];
  unfold format_layout, kMagic, kVersion, kWordBytes, kSlots, kSequence, kFirstNumber, kHeaderChain,
    kNextPage, kNext, kFamilyEnd, kCountersEnd; layout_size.

Lemma formatted_header : slice 0 128 page = header_image (tf_header f).
Proof. field 0%nat. Qed.

Lemma formatted_header_at : header_at page = tf_header f.
Proof. unfold header_at. rewrite formatted_header. apply header_image_framed, (fz_header _ Hz). Qed.

Lemma formatted_size : page_size_at page = ph_page_size_bytes (tf_header f).
Proof. by rewrite <- header_size_at, formatted_header_at. Qed.
Lemma formatted_slots : slots_at page = slots.
Proof. unfold slots_at. by rewrite formatted_size. Qed.

Lemma formatted_first_number : is_u64 (tf_tip_sequence f * slots).
Proof.
  pose proof (fl_sequence _ Hl) as H. pose proof (fl_slots _ Hl) as Hs. fold slots in H, Hs.
  unfold is_u64. apply (N.le_lt_trans _ (slots * (u64_max / slots))); [rewrite N.mul_comm; by apply N.mul_le_mono_l|].
  apply (N.le_lt_trans _ u64_max); [apply N.Div0.mul_div_le|done].
Qed.

Lemma formatted_sequence : u64_at kSequence page = tf_tip_sequence f.
Proof. unfold u64_at. replace (slice kSequence 8 page) with (le_bytes 8 (tf_tip_sequence f)); [apply u64_of_bytes, Hz|]. symmetry. field 5%nat. Qed.
Lemma formatted_first : u64_at kFirstNumber page = tf_tip_sequence f * slots.
Proof. unfold u64_at. replace (slice kFirstNumber 8 page) with (le_bytes 8 (tf_tip_sequence f * slots)); [apply u64_of_bytes, formatted_first_number|]. symmetry. field 6%nat. Qed.
Lemma formatted_chain : u64_at kHeaderChain page = tf_header_chain_page f.
Proof. unfold u64_at. replace (slice kHeaderChain 8 page) with (le_bytes 8 (tf_header_chain_page f)); [apply u64_of_bytes, Hz|]. symmetry. field 7%nat. Qed.
Lemma formatted_next : u64_at kNextPage page = tf_next_tip_page f.
Proof. unfold u64_at. replace (slice kNextPage 8 page) with (le_bytes 8 (tf_next_tip_page f)); [apply u64_of_bytes, Hz|]. symmetry. field 9%nat. Qed.
Lemma formatted_counter_bytes : slice kNext 56 page = format_counters f.
Proof. field 10%nat. Qed.

Lemma formatted_counters : stored_counters page = tf_counters f.
Proof.
  unfold stored_counters, first_page. rewrite formatted_sequence. pose proof (fl_counters _ Hl) as Hc.
  pose proof (fz_counters _ Hz) as Hcz. pose proof formatted_counter_bytes as Hb. unfold format_counters in Hb.
  pose proof length_formatted as Hlen. destruct (tf_counters f) as [c|].
  - destruct Hc as [-> _]. cbn [N.eqb]. f_equal.
    rewrite <- (counters_at_stored c page ltac:(lia) Hcz). f_equal. symmetry.
    apply stored_same_iff; rewrite length_counter_image; [unfold kNext; lia|done].
  - by apply N.eqb_neq in Hc as ->.
Qed.

Lemma formatted_family : family_ok page.
Proof.
  pose proof length_formatted as Hlen. pose proof format_page_size as Hp. pose proof (fl_slots _ Hl) as Hs. fold slots in Hs.
  assert (Hsmall : slots < 2 ^ 32) by (pose proof (header_page_size _ (fl_header _ Hl)); lia).
  split; rewrite ?formatted_slots, ?formatted_size, ?formatted_sequence, ?formatted_first; try done; try lia.
  - field 1%nat.
  - replace (slice kVersion 2 page) with (le_bytes 2 1); [by apply u16_of_bytes|]. symmetry. field 2%nat.
  - replace (slice kWordBytes 2 page) with (le_bytes 2 4); [by apply u16_of_bytes|]. symmetry. field 3%nat.
  - replace (slice kSlots 4 page) with (le_bytes 4 slots); [by apply u32_of_bytes|]. symmetry. field 4%nat.
  - apply (fl_sequence _ Hl).
Qed.

Lemma formatted_frame : frame_ok None page.
Proof.
  destruct (header_image_framed _ (fz_header _ Hz)) as [Hframed _]. pose proof (fl_counters _ Hl) as Hc.
  pose proof formatted_counters as Hst. unfold stored_counters in Hst.
  split; rewrite ?formatted_header_at, ?formatted_header, ?formatted_sequence, ?formatted_chain, ?formatted_next.
  - split; [done|]. apply header_error_none, (fl_header _ Hl).
  - apply (fl_type _ Hl).
  - apply (fl_flags _ Hl).
  - apply formatted_family.
  - field 8%nat.
  - apply (fl_links _ Hl).
  - field 11%nat.
  - intros Hfirst. rewrite formatted_counter_bytes. unfold format_counters. rewrite Hfirst in Hst. by rewrite <- Hst.
  - intros Hfirst. rewrite Hfirst in Hst. rewrite <- Hst in Hc. by destruct Hc.
Qed.

Lemma formatted_word slot : slot < slots -> word_at page slot = Some unused_word.
Proof.
  intros Hs. pose proof length_formatted as Hlen.
  assert (Hz4 : slice (WordOffset slot) 4 page = replicate 4 0).
  { assert (Hwords : slice 512 words page = replicate words 0) by (pose proof length_header; pose proof (length_format_counters f);
      apply (formatted_chunk 12); [reflexivity|unfold format_layout; pose proof (eq_refl : length kTransactionStatePageMagic = 8%nat); layout_size|by rewrite length_replicate]).
    rewrite word_offset. unfold slice in *. rewrite <- drop_drop, <- (take_drop words (drop 512 page)), Hwords.
    rewrite drop_app_le by (rewrite length_replicate; unfold words; lia). rewrite drop_replicate, take_app_le by (rewrite length_replicate; unfold words; lia).
    rewrite take_replicate. f_equal. unfold words. lia. }
  unfold word_at. by rewrite Hz4.
Qed.

Lemma formatted_page :
  page_of page = Some (mkTipPage (tf_header f) (tf_tip_sequence f) (tf_header_chain_page f) (tf_next_tip_page f) (tf_counters f)
    (replicate (N.to_nat slots) unused_word)).
Proof.
  apply page_of_iff. split; [apply formatted_frame|]. split.
  - intros slot Hs. rewrite formatted_slots in Hs. exists unused_word. split; [by apply formatted_word|by left].
  - unfold page_at. rewrite formatted_header_at, formatted_sequence, formatted_chain, formatted_next, formatted_counters. f_equal.
    unfold words_at. rewrite formatted_slots. symmetry. apply list_eq. intros i. rewrite list_lookup_fmap.
    destruct (decide (i < N.to_nat slots)%nat) as [Hi|Hi].
    + rewrite lookup_seq_lt, lookup_replicate_2 by lia. cbn. by rewrite formatted_word by lia.
    + rewrite lookup_seq_ge, !lookup_ge_None_2 by (rewrite ?length_replicate; lia). done.
Qed.
End formatted.

(** ** One page, one image *)

Definition page_image (p : tip_page) : list N :=
  mjoin [header_image (tp_header p); kTransactionStatePageMagic; le_bytes 2 1; le_bytes 2 4;
         le_bytes 4 (N.of_nat (length (tp_words p))); le_bytes 8 (tp_sequence p);
         le_bytes 8 (tp_sequence p * N.of_nat (length (tp_words p))); le_bytes 8 (tp_header_chain p); replicate 88 0;
         le_bytes 8 (tp_next_page p);
         match tp_counters p with Some c => counter_image c | None => replicate 56 0 end; replicate 192 0] ++
  mjoin (word_image <$> tp_words p).

Lemma frame_image l :
  Forall is_byte l -> frame_ok None l ->
  take 512 l = mjoin [header_image (header_at l); kTransactionStatePageMagic; le_bytes 2 1; le_bytes 2 4; le_bytes 4 (slots_at l);
    le_bytes 8 (u64_at kSequence l); le_bytes 8 (u64_at kSequence l * slots_at l); le_bytes 8 (u64_at kHeaderChain l); replicate 88 0;
    le_bytes 8 (u64_at kNextPage l); match stored_counters l with Some c => counter_image c | None => replicate 56 0 end; replicate 192 0].
Proof.
  intros Hb Hf. pose proof (fk_family _ _ Hf) as [Hroom _ _ Hm Hv Hwb Hss _ Hfn].
  pose proof (slices_join 0 [128; 8; 2; 2; 4; 8; 8; 8; 88; 8; 56; 192]%nat l) as Hj.
  change (sum_list [128; 8; 2; 2; 4; 8; 8; 8; 88; 8; 56; 192]%nat) with 512%nat in Hj.
  assert (Ht : take 512 l = slice 0 512 l) by (unfold slice; by rewrite drop_0). rewrite Ht, <- Hj. f_equal. cbn [slices Nat.add].
  assert (Hu64 : forall o, (o + 8 <= 512)%nat -> slice o 8 l = le_bytes 8 (u64_at o l)).
  { intros o Ho. symmetry. apply le_bytes_slice; [done|lia]. }
  assert (Hcounters : slice kNext 56 l = match stored_counters l with Some c => counter_image c | None => replicate 56 0 end).
  { unfold stored_counters. destruct (first_page l) eqn:E; [symmetry; by apply counters_at_image|by apply (fk_no_counters _ _ Hf)]. }
  repeat lazymatch goal with |- _ :: _ = _ :: _ => refine (f_equal2 cons _ _) end; try reflexivity.
  - unfold header_at. symmetry. apply header_image_of; [by apply slice_bytes|apply (fk_header _ _ Hf)].
  - exact Hm.
  - apply slice_constant; [done|lia|exact Hv].
  - apply slice_constant; [done|lia|exact Hwb].
  - apply slice_constant; [done|lia|exact Hss].
  - apply Hu64. unfold kSequence. lia.
  - rewrite <- Hfn. apply Hu64. unfold kFirstNumber. lia.
  - apply Hu64. unfold kHeaderChain. lia.
  - exact (fk_reserved _ _ Hf).
  - apply Hu64. unfold kNextPage. lia.
  - exact Hcounters.
  - exact (fk_tail _ _ Hf).
Qed.

(** Words of four bytes, one after another. *)
Lemma words_join (l : list N) off n :
  (off + 4 * n <= length l)%nat -> mjoin ((fun i => slice (off + 4 * i) 4 l) <$> seq 0 n) = slice off (4 * n) l.
Proof.
  induction n as [|n IH]; intros Hl; [unfold slice; by rewrite take_0|].
  rewrite seq_S, fmap_app, join_app, IH by lia. cbn [fmap list_fmap mjoin list_join Nat.add]. rewrite app_nil_r, slice_cat. f_equal. lia.
Qed.

(** The image is determined by the page. *)
Lemma page_image_of l p : Forall is_byte l -> page_of l = Some p -> l = page_image p.
Proof.
  intros Hb Hp. apply page_of_iff in Hp as (Hf & Hw & ->). pose proof (fk_family _ _ Hf) as Hfam.
  rewrite <- (take_drop 512 l) at 1. unfold page_image. cbn [tp_words tp_header tp_sequence tp_header_chain tp_next_page tp_counters page_at].
  rewrite length_words_at, N2Nat.id, (frame_image l Hb Hf). f_equal.
  destruct (slots_per_page _ (fo_slots _ Hfam)) as [Hsize _]. fold (slots_at l) in Hsize. pose proof (fo_length _ Hfam) as Hlen.
  pose proof (words_join l 512 (N.to_nat (slots_at l)) ltac:(lia)) as Hj.
  assert (Hd : slice 512 (4 * N.to_nat (slots_at l)) l = drop 512 l) by (unfold slice; apply take_ge; rewrite length_drop; lia).
  rewrite <- Hd, <- Hj. unfold words_at. rewrite <- list_fmap_compose. f_equal. apply list_fmap_ext. intros k i Hi.
  apply list_elem_of_lookup_2, elem_of_seq in Hi. cbn [compose].
  destruct (Hw (N.of_nat i) ltac:(lia)) as (w & H1 & _). rewrite H1. cbn [default].
  destruct (word_bytes_at l _ w Hb H1) as [H2 _]. rewrite word_offset, Nat2N.id in H2. exact H2.
Qed.
