(* ===== verification/TipRestart.v ===== *)
(** * Restart of the transaction state chain

    Models [storage/page/transaction_state_restart.{hpp,cpp}]: the first write after an
    open marks the transactions a crash left in progress as dead, on the images of the
    whole chain of state pages.  The images are distinct buffers; the routine returns
    them as it leaves them. *)

From S2P Require Import Prelude Platform TransactionState Bytes PageFrame PageFrameFacts TipPage.
From S2P Require Import TipPageFacts TipEdits.

Record TipChainPage := mkTipChainPage {
  cg_page_number : N;
  cg_image : list N }.

Record TipUnitWrite := mkTipUnitWrite {
  uw_page_number : N;
  uw_unit_offset : nat;
  uw_preimage : list N }.

Record TipRestartPlan := mkRestartPlan {
  rp_error : TipPageError;
  rp_next_transaction : N;
  rp_scanned_from : N;
  rp_marked_dead : N;
  rp_units : list TipUnitWrite;
  rp_unresolved : list N }.

Definition refused_plan (e : TipPageError) : TipRestartPlan := mkRestartPlan e 0 0 0 [] [].

Definition MarkDead (c : TipStateCode) : bool :=
  match c with
  | tip_unused | tip_starting | tip_active | tip_read_only_active | tip_rolling_back => true
  | _ => false
  end.

Definition Unresolved (c : TipStateCode) : bool :=
  match c with tip_committing | tip_recovering => true | _ => false end.

(** ** Checking the chain *)

(** The views of the pages from index [i] on. *)
Fixpoint chain_views (i : N) (chain : list TipChainPage) : option (TipPageError + list TipPageView) :=
  match chain with
  | [] => Some (inr [])
  | page :: chain =>
    d ← DecodeTransactionStatePage (cg_image page) None;
    match d with
    | inl (e, _) => Some (inl e)
    | inr v =>
      if decide (tv_tip_sequence v <> i \/ ph_page_number (tv_header v) <> cg_page_number page) then Some (inl tpe_invalid_link)
      else if match chain with [] => false | next :: _ => bool_decide (tv_next_tip_page v <> cg_page_number next) end
      then Some (inl tpe_invalid_link)
      else
      rest ← chain_views (i + 1) chain;
      match rest with inl e => Some (inl e) | inr vs => Some (inr (v :: vs)) end
    end
  end.

(** The pages after the first hold no number at or beyond [Next]. *)
Fixpoint views_below (views : list TipPageView) (next : N) : option TipPageError :=
  match views with
  | [] => Some tpe_none
  | v :: views =>
    below ← CheckTransactionStateSlotsBelowNext v next;
    match below with inl (e, _) => Some e | inr _ => views_below views next end
  end.

(** ** Marking one page *)

(** What the pass has gathered: how many slots it marked, which it could not decide. *)
Record restart_tally := mkTally { rt_marked_dead : N; rt_unresolved : list N }.

(** [for (slot = lo; slot < hi; ++slot)] on a copy of the image. *)
Fixpoint mark_slots (v : TipPageView) (slot : N) (count : nat) (image : list N) (t : restart_tally)
    : option (TipPageError * list N * restart_tally) :=
  match count with
  | O => Some (tpe_none, image, t)
  | S count =>
    match TipWordAt v slot with
    | None => Some (tpe_invalid_word, image, t)
    | Some word =>
      let t := if Unresolved (tw_state word)
               then mkTally (rt_marked_dead t) (rt_unresolved t ++ [u64_add (tv_first_number v) slot]) else t in
      if negb (MarkDead (tw_state word)) then mark_slots v (slot + 1) count image t
      else
      r ← SetTransactionStateCode image slot tip_dead;
      let '(edit, image) := r in
      if decide (te_error edit <> tpe_none) then Some (te_error edit, image, t)
      else mark_slots v (slot + 1) count image (mkTally (rt_marked_dead t + 1) (rt_unresolved t))
    end
  end.

(** [for (at = 512; at < before.size(); at += 512)]: the units in which the images differ. *)
Fixpoint changed_units (fuel : nat) (number : N) (before image : list N) (at_ : nat) : option (list TipUnitWrite) :=
  match fuel with
  | O => None
  | S fuel =>
    if decide (length before <= at_)%nat then Some []
    else
    old ← load_bytes at_ kTransactionStateWriteUnitBytes before;
    new ← load_bytes at_ kTransactionStateWriteUnitBytes image;
    rest ← changed_units fuel number before image (at_ + kTransactionStateWriteUnitBytes);
    Some (if decide (old = new) then rest else mkTipUnitWrite number at_ old :: rest)
  end.

(** One page of the chain: the new image, or [None] when the page is outside the range. *)
Definition restart_page (from next : N) (v : TipPageView) (page : TipChainPage) (t : restart_tally)
    : option (TipPageError * option (list N) * list TipUnitWrite * restart_tally) :=
  if decide (u64_add (tv_first_number v) (tv_slots v) <= from \/ next <= tv_first_number v)
  then Some (tpe_none, None, [], t)
  else
  let before := cg_image page in
  let lo := if decide (tv_first_number v < from) then from - tv_first_number v else 0 in
  let hi := N.min (tv_slots v) (next - tv_first_number v) in
  r ← mark_slots v lo (N.to_nat (hi - lo)) before t;
  let '(e, image, t) := r in
  if decide (e <> tpe_none) then Some (e, None, [], t)
  else
  units ← changed_units (S (length before / kTransactionStateWriteUnitBytes)) (cg_page_number page) before image
    kTransactionStateWordsOffset;
  Some (tpe_none, Some image, units, t).

(** The pages in order, with the units written so far. *)
Fixpoint restart_pages (from next : N) (views : list TipPageView) (chain : list TipChainPage) (units : list TipUnitWrite)
    (t : restart_tally) : option (TipPageError * list (option (list N)) * list TipUnitWrite * restart_tally) :=
  match views, chain with
  | v :: views, page :: chain =>
    r ← restart_page from next v page t;
    let '(e, work, page_units, t) := r in
    let units := units ++ page_units in
    if decide (e <> tpe_none) then Some (e, [], units, t)
    else
    rest ← restart_pages from next views chain units t;
    let '(e, works, units, t) := rest in
    Some (e, work :: works, units, t)
  | _, _ => Some (tpe_none, [], units, t)
  end.

(** ** The plan *)

Definition PlanTransactionStateRestart (chain : list TipChainPage) : option (TipRestartPlan * list (list N)) :=
  let images := cg_image <$> chain in
  if decide (chain = []) then Some (refused_plan tpe_invalid_family, images)
  else
  checked ← chain_views 0 chain;
  match checked with
  | inl e => Some (refused_plan e, images)
  | inr views =>
    front ← head views;
    counters ← tv_counters front;
    let next := tc_next_transaction counters in
    below ← views_below (tail views) next;
    if decide (below <> tpe_none) then Some (refused_plan below, images)
    else
    let from := N.max 1 (N.min (th_oldest_interesting (tc_horizons counters)) (th_oldest_active (tc_horizons counters))) in
    back ← last views;
    if decide (u64_add (tv_first_number back) (tv_slots back) < next)
    then Some (mkRestartPlan tpe_invalid_counters next from 0 [] [], images)
    else
    r ← restart_pages from next views chain [] (mkTally 0 []);
    let '(e, works, units, t) := r in
    Some (mkRestartPlan e next from (rt_marked_dead t) units (rt_unresolved t),
          if decide (e <> tpe_none) then images
          else zip_with (fun image work => default image work) images works)
  end.

(** ** Facts about restart

    The chain as pages, the slots one pass marks, and the units it reports. *)

(** ** The meaning of a pass *)

Definition mark_word (w : TipStateWord) : TipStateWord :=
  if MarkDead (tw_state w) then with_state tip_dead w else w.

(** The number of a slot. *)
Definition number_of (p : tip_page) (i : nat) : N := tp_sequence p * N.of_nat (length (tp_words p)) + N.of_nat i.

Definition with_words (p : tip_page) (ws : list TipStateWord) : tip_page :=
  mkTipPage (tp_header p) (tp_sequence p) (tp_header_chain p) (tp_next_page p) (tp_counters p) ws.

(** The page with every slot in progress among the numbers from [from] to [next] dead. *)
Definition restarted (from next : N) (p : tip_page) : tip_page :=
  with_words p (imap (fun i w => if decide (from <= number_of p i < next) then mark_word w else w) (tp_words p)).

Definition state_of (p : tip_page) (i : nat) : TipStateCode := tw_state (default unused_word (tp_words p !! i)).

(** The numbers of a page from [from] to [next] whose state satisfies [P], in order. *)
Definition numbers_where (P : TipStateCode -> bool) (from next : N) (p : tip_page) : list N :=
  number_of p <$> filter (fun i => from <= number_of p i < next /\ P (state_of p i) = true) (seq 0 (length (tp_words p))).

(** ** Marking a run of slots *)

Lemma page_of_view l p : page_of l = Some p -> DecodeTransactionStatePage l None = Some (inr (tip_view l)).
Proof.
  intros H. apply page_of_iff in H as (Hf & Hw & _). destruct (decode_tip_iff l None) as (r & -> & Hr). f_equal. by apply Hr.
Qed.

Lemma view_word l p i w :
  page_of l = Some p -> tp_words p !! i = Some w -> TipWordAt (tip_view l) (N.of_nat i) = Some w.
Proof.
  intros H Hi. apply page_of_iff in H as (Hf & Hw & ->). cbn [page_at tp_words] in Hi.
  assert (Hs : N.of_nat i < slots_at l) by (apply lookup_lt_Some in Hi; rewrite length_words_at in Hi; lia).
  rewrite tip_word_at by (done || apply (fk_family _ _ Hf)).
  destruct (lookup_words_at l (N.of_nat i) Hw Hs) as (w' & H1 & H2 & _). rewrite Nat2N.id, Hi in H1. by injection H1 as ->.
Qed.

(** The words of a page, as the decoder reads them from an image of the same size. *)
Record marks (p p' : tip_page) (i j : nat) : Prop := {
  mk_frame : p' = with_words p (tp_words p');
  mk_word : forall k, tp_words p' !! k = (if decide (i <= k < j)%nat then mark_word else id) <$> tp_words p !! k }.

Lemma marks_refl p i : marks p p i i.
Proof.
  split; [by destruct p|]. intros k. rewrite decide_False by lia. by destruct (tp_words p !! k).
Qed.

Lemma marks_keep p p' i j :
  (forall w, tp_words p !! i = Some w -> mark_word w = w) -> marks p p' (S i) j -> (S i <= j)%nat -> marks p p' i j.
Proof.
  intros Hi [H1 H2] Hij. split; [done|]. intros k. rewrite H2. destruct (decide (k = i)) as [->|Hk].
  - rewrite decide_False, decide_True by lia. destruct (tp_words p !! i) as [w|]; [|done]. cbn. by rewrite Hi.
  - destruct (decide (S i <= k < j)%nat); [rewrite decide_True by lia|rewrite decide_False by lia]; done.
Qed.

Lemma marks_set p p' i j w :
  tp_words p !! i = Some w -> MarkDead (tw_state w) = true ->
  marks (set_word p (N.of_nat i) (with_state tip_dead w)) p' (S i) j -> (S i <= j)%nat -> marks p p' i j.
Proof.
  intros Hi Hw [H1 H2] Hij. split; [done|]. intros k. rewrite H2. cbn [set_word tp_words]. rewrite Nat2N.id.
  destruct (decide (k = i)) as [->|Hk].
  - rewrite decide_False, decide_True by lia. rewrite list_lookup_insert_eq by (by eapply lookup_lt_Some). rewrite Hi. cbn.
    unfold mark_word. by rewrite Hw.
  - rewrite list_lookup_insert_ne by done. destruct (decide (S i <= k < j)%nat); [rewrite decide_True by lia|rewrite decide_False by lia]; done.
Qed.

(** The images a pass goes through: pages of one size with the same frame. *)
Definition same_frame (l l' : list N) : Prop := length l' = length l /\ take 512 l' = take 512 l.

Lemma same_frame_refl l : same_frame l l.
Proof. done. Qed.
Lemma same_frame_trans l1 l2 l3 : same_frame l1 l2 -> same_frame l2 l3 -> same_frame l1 l3.
Proof. intros [H1 H2] [H3 H4]. split; congruence. Qed.

Lemma begin_words l slot edit : Begin l (WordOffset slot) = Some edit -> (512 <= te_unit_offset edit)%nat.
Proof.
  unfold Begin. destruct (load_bytes _ _ l); [|done]. cbn [mbind option_bind]. intros H0. apply (inj Some) in H0 as <-. cbn [te_unit_offset].
  unfold kTransactionStateWriteUnitBytes. rewrite word_offset. generalize (4 * N.to_nat slot)%nat as k. intros k.
  assert (H : ((512 + k) mod 512 = k mod 512)%nat).
  { replace (512 + k)%nat with (k + 1 * 512)%nat by lia. apply Nat.Div0.mod_add. }
  rewrite H. pose proof (Nat.Div0.mod_le k 512). lia.
Qed.

Lemma code_unit l slot c edit l' :
  SetTransactionStateCode l slot c = Some (edit, l') -> te_error edit = tpe_none -> (512 <= te_unit_offset edit)%nat.
Proof.
  unfold SetTransactionStateCode, with_family. destruct (ReadFamily l) as [[f|]|]; cbn [mbind option_bind]; [|by intros [= <- _]|done].
  destruct (CheckEditSlot l f slot) as [e|]; [|done]. cbn [mbind option_bind]. case_decide as H1; [by intros [= <- _]|].
  case_decide; [by intros [= <- _]|]. destruct (Begin l (WordOffset slot)) as [edit0|] eqn:Hbegin; [|done]. cbn [mbind option_bind].
  apply begin_words in Hbegin. destruct (l !! WordOffset slot); [|done]. cbn [mbind option_bind]. case_decide; [by intros [= <- _]|].
  destruct (store_bytes _ _ l); [|done]. cbn [mbind option_bind]. by intros [= <- _].
Qed.

(** An edit of a state byte leaves the frame alone. *)
Lemma code_frame l slot c edit l' :
  SetTransactionStateCode l slot c = Some (edit, l') -> te_error edit = tpe_none -> in_unit edit l l' -> same_frame l l'.
Proof.
  intros Hrun He Hu. pose proof (code_unit _ _ _ _ _ Hrun He) as Hge. destruct (iu_confined _ _ _ Hu) as (Hl & Ht & _).
  split; [done|]. apply (f_equal (take 512)) in Ht. by rewrite !take_take, !Nat.min_l in Ht by done.
Qed.

Section pass.
Context (l0 : list N) (p0 : tip_page) (Hp0 : page_of l0 = Some p0).
Let first := u64_at kSequence l0 * slots_at l0.

Lemma view_first : tv_first_number (tip_view l0) = first.
Proof. done. Qed.

Definition hits (P : TipStateCode -> bool) (i count : nat) : list nat := filter (fun k => P (state_of p0 k) = true) (seq i count).

Lemma hits_step P i count : hits P i (S count) = (if P (state_of p0 i) then [i] else []) ++ hits P (S i) count.
Proof.
  unfold hits. cbn [seq]. rewrite filter_cons. destruct (P (state_of p0 i)); [by rewrite decide_True|by rewrite decide_False].
Qed.

Lemma mark_slots_spec count i image p t :
  Forall is_byte image -> page_of image = Some p -> same_frame l0 image -> (i + count <= length (tp_words p))%nat ->
  length (tp_words p) = length (tp_words p0) ->
  (forall k, (i <= k)%nat -> tp_words p !! k = tp_words p0 !! k) ->
  (forall k, (i <= k < i + count)%nat -> slot_open p (N.of_nat k)) ->
  exists image' p', mark_slots (tip_view l0) (N.of_nat i) count image t =
      Some (tpe_none, image', mkTally (rt_marked_dead t + N.of_nat (length (hits MarkDead i count)))
              (rt_unresolved t ++ ((fun k => u64_add first (N.of_nat k)) <$> hits Unresolved i count))) /\
    Forall is_byte image' /\ page_of image' = Some p' /\ marks p p' i (i + count) /\ same_frame l0 image' /\
    (hits MarkDead i count = [] -> image' = image).
Proof.
  revert i image p t. induction count as [|count IH]; intros i image p t Hb Hp Hfr Hc Hlen Hsame Hopen; cbn [mark_slots].
  { exists image, p. rewrite Nat.add_0_r. cbn [hits filter list_filter seq length fmap list_fmap]. rewrite N.add_0_r, app_nil_r.
    destruct t. split_and!; try done. apply marks_refl. }
  destruct (tp_words p !! i) as [w|] eqn:Hi; [|apply lookup_ge_None in Hi; lia].
  assert (Hi0 : tp_words p0 !! i = Some w) by (rewrite <- Hsame; done || lia).
  assert (Hst : state_of p0 i = tw_state w) by (unfold state_of; by rewrite Hi0).
  rewrite (view_word l0 p0 i w Hp0 Hi0). cbv zeta. rewrite !hits_step, Hst.
  replace (N.of_nat i + 1) with (N.of_nat (S i)) by lia.
  destruct (MarkDead (tw_state w)) eqn:Hm; cbn [negb].
  - assert (Hun : Unresolved (tw_state w) = false) by (by destruct (tw_state w)). rewrite Hun. cbn [app].
    destruct (run_edit_refines (edit_code (N.of_nat i) tip_dead) image p Hb Hp I) as (edit & image1 & Hrun & Hout).
    cbn [run_edit] in Hrun. rewrite Hrun. cbn [mbind option_bind]. cbn [apply_edit] in Hout.
    rewrite decide_False in Hout by (intros Hn; apply Hn, Hopen; lia). rewrite decide_False in Hout by done.
    rewrite Nat2N.id, Hi in Hout. cbn [default] in Hout. destruct Hout as (He & Hp1 & Hu & Hb1).
    rewrite decide_False by (rewrite He; intros []; done).
    destruct (IH (S i) image1 (set_word p (N.of_nat i) (with_state tip_dead w)) (mkTally (rt_marked_dead t + 1) (rt_unresolved t)))
      as (image' & p' & -> & Hb' & Hp' & Hmarks & Hfr' & _).
    + done.
    + done.
    + apply same_frame_trans with image; [done|]. by apply (code_frame _ _ _ _ _ Hrun).
    + cbn [set_word tp_words]. rewrite length_insert. lia.
    + cbn [set_word tp_words]. by rewrite length_insert.
    + intros k Hk. cbn [set_word tp_words]. rewrite Nat2N.id, list_lookup_insert_ne by lia. apply Hsame. lia.
    + intros k Hk. unfold slot_open. cbn [set_word tp_words tp_counters]. rewrite length_insert. apply Hopen. lia.
    + exists image', p'. cbn [rt_marked_dead rt_unresolved length app]. split.
      * do 3 f_equal. lia.
      * split_and!; try done. replace (i + S count)%nat with (S i + count)%nat by lia. apply (marks_set p p' i _ w); [done..|lia].
  - destruct (IH (S i) image p (if Unresolved (tw_state w) then mkTally (rt_marked_dead t) (rt_unresolved t ++ [u64_add first (N.of_nat i)]) else t))
      as (image' & p' & Hrun & Hb' & Hp' & Hmarks & Hfr' & Hkeep); try done; [lia|intros; apply Hsame; lia|intros; apply Hopen; lia|].
    exists image', p'. rewrite view_first, Hrun. cbn [app]. split.
    + destruct (Unresolved (tw_state w)); cbn [rt_marked_dead rt_unresolved app fmap list_fmap]; [by rewrite <- app_assoc|done].
    + split_and!; try done. replace (i + S count)%nat with (S i + count)%nat by lia. apply marks_keep; [|done|lia].
      intros w' Hw'. rewrite Hi in Hw'. injection Hw' as <-. unfold mark_word. by rewrite Hm.
Qed.
End pass.

(** ** The range of one page *)

Lemma filter_seq_range (Q : nat -> Prop) `{!forall i, Decision (Q i)} lo hi n :
  (lo <= hi <= n)%nat -> (forall i, (i < n)%nat -> Q i -> (lo <= i < hi)%nat) ->
  filter Q (seq 0 n) = filter Q (seq lo (hi - lo)).
Proof.
  intros Hh HQ. replace n with (lo + ((hi - lo) + (n - hi)))%nat by lia. rewrite !seq_app, !filter_app. cbn [Nat.add].
  assert (Hnone : forall a b, (forall i, (a <= i < a + b)%nat -> ~ Q i) -> filter Q (seq a b) = []).
  { intros a b. revert a. induction b as [|b IH]; intros a Hn; [done|]. cbn [seq]. rewrite filter_cons, decide_False, IH; [done|..].
    - intros i Hi. apply Hn. lia.
    - apply Hn. lia. }
  rewrite (Hnone 0%nat), (Hnone (lo + (hi - lo))%nat), app_nil_r; [done|..]; intros i Hi HQi; apply HQ in HQi; lia.
Qed.

(** The run of slots [lo, hi) of the pass holds the numbers from [from] to [next]. *)
Definition run_lo (p : tip_page) (from : N) : nat := N.to_nat (if decide (number_of p 0 < from) then from - number_of p 0 else 0).
Definition run_hi (p : tip_page) (next : N) : nat :=
  N.to_nat (N.min (N.of_nat (length (tp_words p))) (next - number_of p 0)).

Lemma run_range p from next i :
  (i < length (tp_words p))%nat -> from <= number_of p i < next <-> (run_lo p from <= i < run_hi p next)%nat.
Proof.
  intros Hi. unfold run_lo, run_hi, number_of. rewrite N.add_0_r. case_decide; lia.
Qed.

Lemma filter_same (P Q : nat -> Prop) `{!forall i, Decision (P i), !forall i, Decision (Q i)} (l : list nat) :
  (forall i, i ∈ l -> P i <-> Q i) -> filter P l = filter Q l.
Proof.
  induction l as [|i l IH]; intros HPQ; [done|]. rewrite !filter_cons, IH by set_solver.
  destruct (HPQ i) as [H1 H2]; [set_solver|]. repeat case_decide; tauto.
Qed.

Lemma numbers_run P from next p :
  (run_lo p from <= run_hi p next)%nat ->
  numbers_where P from next p = number_of p <$> hits p P (run_lo p from) (run_hi p next - run_lo p from).
Proof.
  intros Hr. unfold numbers_where, hits. f_equal.
  assert (Hhi : (run_hi p next <= length (tp_words p))%nat) by (unfold run_hi; lia).
  rewrite (filter_seq_range _ (run_lo p from) (run_hi p next)); [|lia|intros i Hi [H _]; by apply run_range].
  apply filter_same. intros i Hi. apply elem_of_seq in Hi. rewrite run_range by lia. split; [tauto|]. intros; split; [lia|done].
Qed.

Lemma numbers_outside P from next p :
  number_of p (length (tp_words p)) <= from \/ next <= number_of p 0 -> numbers_where P from next p = [].
Proof.
  intros H. unfold numbers_where. rewrite (filter_same _ (fun _ => False)).
  - by induction (seq 0 (length (tp_words p))).
  - intros i Hi. apply elem_of_seq in Hi. unfold number_of in *. split; [|done]. lia.
Qed.

Lemma marks_restarted p p' from next :
  marks p p' (run_lo p from) (run_hi p next) -> p' = restarted from next p.
Proof.
  intros [H1 H2]. rewrite H1. unfold restarted. f_equal. apply list_eq. intros i. rewrite H2, list_lookup_imap.
  destruct (tp_words p !! i) as [w|] eqn:Hi; [|done]. cbn. f_equal.
  pose proof (run_range p from next i ltac:(by eapply lookup_lt_Some)) as Hr.
  destruct (decide (run_lo p from <= i < run_hi p next)%nat); destruct (decide (from <= number_of p i < next)); tauto.
Qed.

Lemma restarted_outside p from next :
  number_of p (length (tp_words p)) <= from \/ next <= number_of p 0 -> restarted from next p = p.
Proof.
  intros H. unfold restarted. destruct p as [h s c n k ws]. unfold with_words. cbn [tp_header tp_sequence tp_header_chain tp_next_page tp_counters tp_words].
  f_equal. apply list_eq. intros i. rewrite list_lookup_imap. cbn [tp_words]. destruct (ws !! i) as [w|] eqn:Hi; [|done]. cbn. f_equal.
  apply lookup_lt_Some in Hi. rewrite decide_False; [done|]. unfold number_of in *. cbn [tp_sequence tp_words] in *. lia.
Qed.

(** ** The units of a page *)

Definition unit_write (number : N) (before after : list N) (k : nat) : option TipUnitWrite :=
  if decide (slice (512 * k) 512 before = slice (512 * k) 512 after) then None
  else Some (mkTipUnitWrite number (512 * k) (slice (512 * k) 512 before)).

(** The units after the first in which two images differ. *)
Definition unit_writes (number : N) (before after : list N) : list TipUnitWrite :=
  omap (unit_write number before after) (seq 1 (length before / 512 - 1)).

Lemma changed_units_spec fuel number before after k m :
  length before = (512 * m)%nat -> length after = (512 * m)%nat -> (k <= m)%nat -> (m - k < fuel)%nat ->
  changed_units fuel number before after (512 * k) = Some (omap (unit_write number before after) (seq k (m - k))).
Proof.
  revert k. induction fuel as [|fuel IH]; intros k Hb Ha Hk Hf; [lia|]. cbn [changed_units].
  destruct (decide (k = m)) as [->|Hne]; [rewrite decide_True by lia; by rewrite Nat.sub_diag|].
  rewrite decide_False by lia. unfold kTransactionStateWriteUnitBytes.
  rewrite (load_bytes_some (512 * k) 512 before), (load_bytes_some (512 * k) 512 after) by lia. cbn [mbind option_bind].
  replace (512 * k + 512)%nat with (512 * S k)%nat by lia. rewrite IH by lia. cbn [mbind option_bind].
  replace (m - k)%nat with (S (m - S k)) by lia. cbn [seq]. change (omap ?f (k :: ?ks)) with (match f k with Some y => y :: omap f ks | None => omap f ks end).
  assert (Hu : unit_write number before after k = if decide (slice (512 * k) 512 before = slice (512 * k) 512 after) then None
    else Some (mkTipUnitWrite number (512 * k) (slice (512 * k) 512 before))) by done.
  rewrite Hu. by destruct (decide (slice (512 * k) 512 before = slice (512 * k) 512 after)).
Qed.

Lemma unit_writes_same number l : unit_writes number l l = [].
Proof.
  unfold unit_writes. induction (seq 1 (length l / 512 - 1)) as [|k ks IH]; [done|]. cbn [omap list_omap].
  unfold unit_write at 1. by rewrite decide_True.
Qed.

(** ** One page *)

(** The numbers of the page stay below 2^64. *)
Definition numbers_fit (p : tip_page) : Prop := is_u64 (number_of p (length (tp_words p))).

Lemma view_numbers l p :
  page_of l = Some p -> numbers_fit p ->
  tv_first_number (tip_view l) = number_of p 0 /\ tv_slots (tip_view l) = N.of_nat (length (tp_words p)) /\
  (forall i, (i <= length (tp_words p))%nat -> u64_add (tv_first_number (tip_view l)) (N.of_nat i) = number_of p i).
Proof.
  intros H Hfit. apply page_of_iff in H as (_ & _ & ->). unfold numbers_fit, number_of in *.
  cbn [tp_words tp_sequence page_at tip_view tv_first_number tv_slots] in *. rewrite length_words_at, N2Nat.id in *.
  split; [lia|]. split; [done|]. intros i Hi. apply u64_add_small. unfold is_u64 in Hfit. lia.
Qed.

(** The pass may write every slot of its run. *)
Lemma run_open p from next i :
  0 < from -> (forall c, tp_counters p = Some c -> tp_sequence p = 0 /\ tc_next_transaction c = next) ->
  (run_lo p from <= i < run_hi p next)%nat -> (i < length (tp_words p))%nat -> slot_open p (N.of_nat i).
Proof.
  intros Hfrom Hc Hi Hlt. apply (run_range p from next i Hlt) in Hi. split; [lia|]. destruct (tp_counters p) as [c|]; [|done].
  destruct (Hc c eq_refl) as [Hs Hn]. unfold number_of in Hi. rewrite Hs in Hi. lia.
Qed.

Definition page_outcome (from next : N) (g : TipChainPage) (p : tip_page) (image : list N) : Prop :=
  Forall is_byte image /\ page_of image = Some (restarted from next p) /\ same_frame (cg_image g) image /\
  (numbers_where MarkDead from next p = [] -> image = cg_image g).

Lemma restart_page_spec from next g p t :
  Forall is_byte (cg_image g) -> page_of (cg_image g) = Some p -> numbers_fit p -> 0 < from <= next ->
  (forall c, tp_counters p = Some c -> tp_sequence p = 0 /\ tc_next_transaction c = next) ->
  exists work, restart_page from next (tip_view (cg_image g)) g t =
      Some (tpe_none, work, unit_writes (cg_page_number g) (cg_image g) (default (cg_image g) work),
        mkTally (rt_marked_dead t + N.of_nat (length (numbers_where MarkDead from next p)))
          (rt_unresolved t ++ numbers_where Unresolved from next p)) /\
    page_outcome from next g p (default (cg_image g) work).
Proof.
  intros Hb Hp Hfit Hfrom Hc. destruct (view_numbers _ _ Hp Hfit) as (Hv1 & Hv2 & Hv3). unfold restart_page.
  assert (Hend : u64_add (tv_first_number (tip_view (cg_image g))) (tv_slots (tip_view (cg_image g))) = number_of p (length (tp_words p))).
  { rewrite Hv2. by apply Hv3. }
  rewrite Hend, Hv1. case_decide as Hout.
  - exists None. cbn [default]. rewrite unit_writes_same, !numbers_outside by tauto. cbn [length]. rewrite N.add_0_r, app_nil_r.
    split; [by destruct t|]. split_and!; try done. by rewrite restarted_outside by tauto.
  - cbv zeta. rewrite Hv2.
    set (lo := if decide (number_of p 0 < from) then from - number_of p 0 else 0).
    set (hi := N.min (N.of_nat (length (tp_words p))) (next - number_of p 0)).
    assert (Hlo : lo = N.of_nat (run_lo p from)) by (unfold run_lo; rewrite N2Nat.id; done).
    assert (Hhi : hi = N.of_nat (run_hi p next)) by (unfold run_hi; rewrite N2Nat.id; done).
    assert (Hord : (run_lo p from <= run_hi p next <= length (tp_words p))%nat).
    { unfold run_lo, run_hi, number_of in *. case_decide; lia. }
    replace (N.to_nat (hi - lo)) with (run_hi p next - run_lo p from)%nat by lia. rewrite Hlo.
    destruct (mark_slots_spec (cg_image g) p Hp (run_hi p next - run_lo p from) (run_lo p from) (cg_image g) p t)
      as (image & p' & -> & Hb' & Hp' & Hmarks & Hfr & Hkeep); try done; [lia|intros k Hk; apply (run_open p from next); lia || done || apply Hfrom|].
    cbn [mbind option_bind]. rewrite decide_False by (intros []; done).
    assert (Hlen : length image = length (cg_image g)) by apply Hfr.
    pose proof Hp as Hpg. apply page_of_iff in Hpg as (Hframe & _ & _). pose proof (family_units _ (fk_family _ _ Hframe)) as Hu.
    pose proof (fo_room _ (fk_family _ _ Hframe)) as Hroom.
    apply Nat.Div0.mod_divides in Hu as [m Hm]. assert (Hdiv : (length (cg_image g) / 512 = m)%nat).
    { rewrite Hm, Nat.mul_comm. by apply Nat.div_mul. }
    change kTransactionStateWordsOffset with (512 * 1)%nat. unfold kTransactionStateWriteUnitBytes.
    rewrite Hdiv, (changed_units_spec _ _ _ _ 1 m) by lia. cbn [mbind option_bind]. exists (Some image). cbn [default].
    rewrite !numbers_run by lia. split.
    + unfold unit_writes. rewrite Hdiv, length_fmap. do 3 f_equal. f_equal. apply list_fmap_ext. intros k x Hx.
      apply Hv3. apply list_elem_of_lookup_2 in Hx. unfold hits in Hx. apply list_elem_of_filter in Hx as [_ Hx].
      apply elem_of_seq in Hx. lia.
    + change (from_option id (cg_image g) (Some image)) with image. split; [done|]. split; [|split; [done|]].
      2: { rewrite numbers_run by lia. intros Hnone. apply Hkeep. by apply fmap_nil_inv in Hnone. }
      change (id image) with image. rewrite Hp'. f_equal. apply marks_restarted. by replace (run_hi p next) with (run_lo p from + (run_hi p next - run_lo p from))%nat by lia.
Qed.

(** ** The chain *)

(** The images are the pages of a chain from sequence [i] on, each linked to the next. *)
Fixpoint state_chain (i : N) (chain : list TipChainPage) (pages : list tip_page) : Prop :=
  match chain, pages with
  | [], [] => True
  | g :: chain, p :: pages =>
    page_of (cg_image g) = Some p /\ tp_sequence p = i /\ ph_page_number (tp_header p) = cg_page_number g /\
    match chain with [] => True | next :: _ => tp_next_page p = cg_page_number next end /\
    state_chain (i + 1) chain pages
  | _, _ => False
  end.

Lemma view_page l p : page_of l = Some p ->
  tv_tip_sequence (tip_view l) = tp_sequence p /\ tv_header (tip_view l) = tp_header p /\
  tv_next_tip_page (tip_view l) = tp_next_page p /\ tv_counters (tip_view l) = tp_counters p.
Proof. intros H. by apply page_of_iff in H as (_ & _ & ->). Qed.

Lemma decode_page l :
  exists r, DecodeTransactionStatePage l None = Some r /\
    match r with inl (e, _) => e <> tpe_none /\ page_of l = None | inr v => v = tip_view l /\ exists p, page_of l = Some p end.
Proof.
  destruct (decode_tip_iff l None) as (r & Hd & Hr). exists r. split; [done|]. destruct r as [[e s]|v].
  - split; [|unfold page_of; by rewrite Hd]. eapply decode_tip_error, Hd.
  - destruct (proj1 (Hr v) eq_refl) as [[H1 H2] ->]. split; [done|]. exists (page_at l). by apply page_of_iff.
Qed.

Lemma chain_views_spec i chain :
  exists r, chain_views i chain = Some r /\
    match r with
    | inl e => e <> tpe_none /\ forall pages, ~ state_chain i chain pages
    | inr vs => vs = tip_view ∘ cg_image <$> chain /\ exists pages, state_chain i chain pages
    end.
Proof.
  revert i. induction chain as [|g chain IH]; intros i; cbn [chain_views].
  { exists (inr []). split; [done|]. split; [done|]. by exists []. }
  destruct (decode_page (cg_image g)) as (r & -> & Hr). cbn [mbind option_bind]. destruct r as [[e s]|v].
  { exists (inl e). split; [done|]. split; [apply Hr|]. intros [|p pages] H; [done|]. cbn in H. destruct Hr as [_ Hr]. by rewrite Hr in H; destruct_and?. }
  destruct Hr as [-> [p Hp]]. destruct (view_page _ _ Hp) as (-> & -> & -> & _).
  case_decide as H1.
  { exists (inl tpe_invalid_link). split; [done|]. split; [done|]. intros [|q pages] H; [done|]. cbn in H. rewrite Hp in H.
    destruct H as ([= <-] & H2 & H3 & _). tauto. }
  destruct (match chain with [] => false | next :: _ => _ end) eqn:Hlink.
  { exists (inl tpe_invalid_link). split; [done|]. split; [done|]. intros [|q pages] H; [done|]. cbn in H. rewrite Hp in H.
    destruct H as ([= <-] & _ & _ & H2 & _). destruct chain; [done|]. by apply bool_decide_eq_true in Hlink. }
  apply Decidable.not_or in H1 as [H1 H1']. apply dec_stable in H1, H1'.
  destruct (IH (i + 1)) as (r & -> & Hr). cbn [mbind option_bind]. destruct r as [e|vs].
  - exists (inl e). split; [done|]. split; [apply Hr|]. intros [|q pages] H; [done|]. cbn in H.
    destruct H as (_ & _ & _ & _ & H). by apply (proj2 Hr pages).
  - destruct Hr as [-> [pages Hpages]]. eexists. split; [done|]. split; [done|]. exists (p :: pages). cbn. split_and!; try done.
    destruct chain as [|g' chain]; [done|]. apply bool_decide_eq_false in Hlink. by apply dec_stable.
Qed.

Lemma state_chain_unique i chain pages pages' : state_chain i chain pages -> state_chain i chain pages' -> pages = pages'.
Proof.
  revert i pages pages'. induction chain as [|g chain IH]; intros i [|p pages] [|p' pages'] H H'; try done.
  cbn in H, H'. destruct H as (H1 & _ & _ & _ & H2). destruct H' as (H1' & _ & _ & _ & H2').
  rewrite H1 in H1'. injection H1' as ->. f_equal. by apply (IH (i + 1)).
Qed.

Lemma state_chain_length i chain pages : state_chain i chain pages -> length pages = length chain.
Proof. revert i pages. induction chain as [|g chain IH]; intros i [|p pages] H; try done. cbn. f_equal. eapply (IH (i + 1)). apply H. Qed.

Lemma page_words_small l p : page_of l = Some p -> N.of_nat (length (tp_words p)) < 32768.
Proof. intros H. apply page_of_iff in H as (Hf & _ & ->). cbn [tp_words page_at]. rewrite length_words_at, N2Nat.id. apply (slots_small None l Hf). Qed.

(** In a chain of fewer than 2^48 pages all numbers fit. *)
Lemma state_chain_fit i chain pages :
  state_chain i chain pages -> i + N.of_nat (length chain) <= 2 ^ 48 -> Forall numbers_fit pages.
Proof.
  revert i pages. induction chain as [|g chain IH]; intros i [|p pages] H Hn; try done. cbn [state_chain length] in *.
  destruct H as (H1 & H2 & _ & _ & H3). constructor; [|apply (IH (i + 1)); [done|lia]].
  pose proof (page_words_small _ _ H1). unfold numbers_fit, is_u64, number_of. rewrite u64_modulus_val, H2.
  assert (i * N.of_nat (length (tp_words p)) <= 2 ^ 48 * 32768) by (apply N.mul_le_mono; lia). lia.
Qed.

Lemma page_counters l p : page_of l = Some p -> (is_Some (tp_counters p) <-> tp_sequence p = 0) /\
  (forall c, tp_counters p = Some c -> HorizonsValid c = true).
Proof.
  intros H. apply page_of_iff in H as (Hf & _ & ->). cbn [tp_counters tp_sequence page_at]. unfold stored_counters.
  pose proof (fk_counters _ _ Hf) as Hc. unfold first_page in *. destruct (N.eqb_spec (u64_at kSequence l) 0).
  - split; [by split|]. intros c [= <-]. by apply Hc.
  - split; [split; [by intros []|done]|done].
Qed.

(** ** No number at or beyond [Next] *)

Definition below_next (next : N) (p : tip_page) : Prop :=
  forall i, (i < length (tp_words p))%nat -> next <= number_of p i -> state_of p i = tip_unused.

Lemma slots_below_spec l p next :
  Forall is_byte l -> page_of l = Some p -> numbers_fit p -> next <> 0 ->
  exists r, CheckTransactionStateSlotsBelowNext (tip_view l) next = Some r /\
    match r with inl (e, s) => e = tpe_invalid_slot /\ is_Some s /\ ~ below_next next p | inr v => below_next next p end.
Proof.
  intros Hb Hp Hfit Hn. destruct (view_numbers _ _ Hp Hfit) as (Hv1 & Hv2 & Hv3).
  unfold CheckTransactionStateSlotsBelowNext. rewrite decide_False by done. rewrite Hv2, Nat2N.id.
  assert (Hone : forall i, (i < length (tp_words p))%nat ->
    beyond_refused (tv_image (tip_view l)) (tv_first_number (tip_view l)) next (N.of_nat i) =
    Some (if decide (next <= number_of p i /\ state_of p i <> tip_unused) then Some tpe_invalid_slot else None)).
  { intros i Hi. unfold beyond_refused. rewrite Hv3 by lia. case_decide as Hlt; [rewrite decide_False by lia; done|].
    pose proof Hp as Hpg. apply page_of_iff in Hpg as (Hf & Hw & Hpage).
    assert (Hs : N.of_nat i < slots_at l) by (rewrite Hpage in Hi; cbn [tp_words page_at] in Hi; rewrite length_words_at in Hi; lia).
    destruct (lookup_words_at l (N.of_nat i) Hw Hs) as (w & H1 & H2 & _). destruct (word_bytes_at l _ w Hb H2) as [H3 _].
    cbn [tv_image tip_view]. rewrite (slice_head _ _ _ _ _ H3). cbn [mbind option_bind].
    assert (Hst : state_of p i = tw_state w) by (unfold state_of; rewrite Hpage; cbn [tp_words page_at]; by rewrite Nat2N.id in H1; rewrite H1).
    rewrite Hst. pose proof (tip_byte_zero (tw_state w)) as Hz. case_decide as HA; case_decide as HB; try done; exfalso.
    - apply HB. split; [lia|]. intros E. by apply HA, Hz.
    - by apply (proj2 HB), Hz. }
  destruct (scan_slots_iff (beyond_refused (tv_image (tip_view l)) (tv_first_number (tip_view l)) next) 0 (length (tp_words p)))
    as (r & Hscan & Hr).
  { intros i Hi. rewrite <- (N2Nat.id i), Hone by lia. done. }
  rewrite Hscan. cbn [mbind option_bind]. destruct r as [[e s]|].
  - eexists. split; [done|]. pose proof (scan_slots_error _ _ _ _ _ Hscan) as He. pose proof (scan_slots_bound _ _ _ _ _ Hscan) as Hbd.
    rewrite <- (N2Nat.id s), Hone in He by lia. case_decide as Hc; [|done]. injection He as <-. split_and!; try done.
    intros Hbelow. destruct Hc as [H1 H2]. apply H2, Hbelow; [lia|done].
  - eexists. split; [done|]. intros i Hi Hge. pose proof (proj1 Hr eq_refl (N.of_nat i) ltac:(lia)) as H. rewrite Hone in H by done.
    case_decide as Hc; [done|]. apply dec_stable. tauto.
Qed.

Lemma views_below_spec i chain pages next :
  state_chain i chain pages -> Forall (fun g => Forall is_byte (cg_image g)) chain -> Forall numbers_fit pages -> next <> 0 ->
  exists e, views_below (tip_view ∘ cg_image <$> chain) next = Some e /\ (e = tpe_none <-> Forall (below_next next) pages).
Proof.
  revert i pages. induction chain as [|g chain IH]; intros i [|p pages] H Hb Hfit Hn; try done.
  { exists tpe_none. split; [done|]. split; [constructor|done]. }
  cbn [state_chain] in H. destruct H as (Hp & _ & _ & _ & Hrest). apply Forall_cons in Hb as [Hb Hb']. apply Forall_cons in Hfit as [Hfit Hfit'].
  cbn [fmap list_fmap views_below compose]. destruct (slots_below_spec _ p next Hb Hp Hfit Hn) as (r & -> & Hr). cbn [mbind option_bind].
  destruct r as [[e s]|v].
  - exists e. split; [done|]. destruct Hr as (-> & _ & Hr). split; [done|]. intros H. by apply Forall_cons in H as [H _].
  - destruct (IH (i + 1) pages Hrest Hb' Hfit' Hn) as (e & -> & He). exists e. split; [done|]. rewrite He, Forall_cons. tauto.
Qed.

(** ** All pages *)

Lemma restart_pages_spec i from next chain pages units t :
  state_chain i chain pages -> Forall (fun g => Forall is_byte (cg_image g)) chain -> Forall numbers_fit pages -> 0 < from <= next ->
  Forall (fun p => forall c, tp_counters p = Some c -> tp_sequence p = 0 /\ tc_next_transaction c = next) pages ->
  exists works, restart_pages from next (tip_view ∘ cg_image <$> chain) chain units t =
      Some (tpe_none, works,
        units ++ mjoin (zip_with (fun g work => unit_writes (cg_page_number g) (cg_image g) (default (cg_image g) work)) chain works),
        mkTally (rt_marked_dead t + N.of_nat (length (mjoin (numbers_where MarkDead from next <$> pages))))
          (rt_unresolved t ++ mjoin (numbers_where Unresolved from next <$> pages))) /\
    Forall2 (fun work gp => page_outcome from next gp.1 gp.2 (default (cg_image gp.1) work)) works (zip chain pages).
Proof.
  revert i pages units t. induction chain as [|g chain IH]; intros i [|p pages] units t H Hb Hfit Hfrom Hc; try done.
  { exists []. cbn. rewrite N.add_0_r, !app_nil_r. split; [by destruct t|constructor]. }
  cbn [state_chain] in H. destruct H as (Hp & _ & _ & _ & Hrest). apply Forall_cons in Hb as [Hb Hb']. apply Forall_cons in Hfit as [Hfit Hfit'].
  apply Forall_cons in Hc as [Hc Hc'].
  destruct (restart_page_spec from next g p t Hb Hp Hfit Hfrom Hc) as (work & Hrun & Hout).
  cbn [fmap list_fmap restart_pages compose]. rewrite Hrun. cbn [mbind option_bind]. rewrite decide_False by (intros []; done).
  match goal with |- context [restart_pages from next _ chain ?u ?t'] => destruct (IH (i + 1) pages u t' Hrest Hb' Hfit' Hfrom Hc') as (works & -> & Hworks) end.
  cbn [mbind option_bind]. exists (work :: works). split; [|by constructor].
  cbn [rt_marked_dead rt_unresolved zip_with mjoin list_join fmap list_fmap]. by rewrite <- !app_assoc, length_app, Nat2N.inj_add, N.add_assoc.
Qed.
