(* ===== verification/TransactionHeader.v ===== *)
(** * Transaction headers

    Models [storage/page/transaction_header_record.{hpp,cpp}] (the 256-byte durable header
    of a transaction and the transforms of its mutable fields) and
    [storage/page/transaction_header_page.{hpp,cpp}] (the pages of header slots beside the
    transaction state pages).  The conventions are those of the state page. *)

From S2P Require Import Prelude Platform TransactionState Bytes PageFrame TipPage.

(** ** The header record *)

Definition kTransactionHeaderRecordBytes : nat := 256.
Definition kTransactionHeaderRecordVersion : N := 1.
Definition kTransactionHeaderFlagReadOnly : N := 1.

Record TransactionHeaderRecord := mkHeaderRecord {
  hr_authority : TipAuthorityClass;
  hr_intent : N;
  hr_isolation_profile : N;
  hr_read_only : bool;
  hr_transaction_order : N;
  hr_database_uuid : Uuid;
  hr_transaction_uuid : Uuid;
  hr_engine_instance_uuid : Uuid;
  hr_principal_or_agent_uuid : Uuid;
  hr_attachment_uuid : Uuid;
  hr_session_uuid : Uuid;
  hr_policy_snapshot_uuid : Uuid;
  hr_security_snapshot_uuid : Uuid;
  hr_start_snapshot_uuid : Uuid;
  hr_durable_operation_uuid : Uuid;
  hr_recovery_attempt_uuid : Uuid;
  hr_cluster_uuid : Uuid;
  hr_cluster_transaction_uuid : Uuid;
  hr_cluster_epoch : N;
  hr_intent_generation : N;
  hr_final_state : TipStateCode;
  hr_commit_time_utc_ns : N;
  hr_completed_at_utc_ns : N }.

#[export] Instance TransactionHeaderRecord_eq_dec : EqDecision TransactionHeaderRecord.
Proof. solve_decision. Defined.

Inductive TransactionHeaderError :=
| the_none | the_invalid_framing | the_invalid_order | the_invalid_identity | the_invalid_optional_identity
| the_invalid_cluster | the_invalid_class | the_invalid_completion | the_already_complete | the_short_buffer.

#[export] Instance TransactionHeaderError_eq_dec : EqDecision TransactionHeaderError.
Proof. solve_decision. Defined.

Definition TransactionHeaderErrorName (e : TransactionHeaderError) : string :=
  match e with
  | the_none => "none" | the_invalid_framing => "invalid_framing" | the_invalid_order => "invalid_order"
  | the_invalid_identity => "invalid_identity" | the_invalid_optional_identity => "invalid_optional_identity"
  | the_invalid_cluster => "invalid_cluster" | the_invalid_class => "invalid_class"
  | the_invalid_completion => "invalid_completion" | the_already_complete => "already_complete"
  | the_short_buffer => "short_buffer"
  end.

Definition NoneOrV7 (id : Uuid) : bool := uuid_is_nil id || IsEngineIdentityUuid id.

(** The UUID fields in layout order. *)
Definition UuidFields (r : TransactionHeaderRecord) : list Uuid :=
  [hr_database_uuid r; hr_transaction_uuid r; hr_engine_instance_uuid r; hr_principal_or_agent_uuid r; hr_attachment_uuid r;
   hr_session_uuid r; hr_policy_snapshot_uuid r; hr_security_snapshot_uuid r; hr_start_snapshot_uuid r;
   hr_durable_operation_uuid r; hr_recovery_attempt_uuid r; hr_cluster_uuid r; hr_cluster_transaction_uuid r].

Definition FinalState (s : TipStateCode) : bool :=
  match s with tip_committed | tip_rolled_back | tip_dead => true | _ => false end.

Definition ValidateTransactionHeaderRecord (r : TransactionHeaderRecord) : TransactionHeaderError :=
  if decide (hr_transaction_order r = 0) then the_invalid_order
  else if negb (IsEngineIdentityUuid (hr_database_uuid r)) || negb (IsEngineIdentityUuid (hr_transaction_uuid r))
  then the_invalid_identity
  else if negb (forallb NoneOrV7 (drop 2 (UuidFields r))) then the_invalid_optional_identity
  else if uuid_is_nil (hr_cluster_uuid r) && (negb (uuid_is_nil (hr_cluster_transaction_uuid r)) || bool_decide (hr_cluster_epoch r <> 0))
  then the_invalid_cluster
  else if decide (2 < authority_byte (hr_authority r) \/ kTipIntentMax < hr_intent r) then the_invalid_class
  else if decide (hr_final_state r = tip_unused) then
    if decide (hr_commit_time_utc_ns r <> 0 \/ hr_completed_at_utc_ns r <> 0) then the_invalid_completion else the_none
  else if negb (FinalState (hr_final_state r)) || bool_decide (hr_completed_at_utc_ns r = 0) then the_invalid_completion
  else if (if decide (hr_final_state r = tip_committed) then bool_decide (hr_commit_time_utc_ns r <> hr_completed_at_utc_ns r)
           else bool_decide (hr_commit_time_utc_ns r <> 0)) then the_invalid_completion
  else the_none.

(** Storing and reading one UUID field after another from [off] on. *)
Fixpoint put_uuids (off : nat) (ids : list Uuid) (p : list N) : option (list N) :=
  match ids with
  | [] => Some p
  | id :: ids => p ← store_bytes off (uuid_bytes id) p; put_uuids (off + 16) ids p
  end.
Definition GetUuid (off : nat) (p : list N) : option Uuid := mkUuid <$> load_bytes off 16 p.

Definition EncodeTransactionHeaderRecord (r : TransactionHeaderRecord) (output : list N)
    : option (TransactionHeaderError * list N) :=
  let e := ValidateTransactionHeaderRecord r in
  if decide (e <> the_none) then Some (e, output)
  else if decide (length output < kTransactionHeaderRecordBytes)%nat then Some (the_short_buffer, output)
  else
  p ← store_bytes 0 (replicate kTransactionHeaderRecordBytes 0) output;
  p ← StoreLittle16 0 kTransactionHeaderRecordVersion p;
  p ← StoreLittle16 2 (N.of_nat kTransactionHeaderRecordBytes) p;
  p ← store_bytes 4 [authority_byte (hr_authority r)] p;
  p ← store_bytes 5 [hr_intent r] p;
  p ← store_bytes 6 [hr_isolation_profile r] p;
  p ← store_bytes 7 [if hr_read_only r then kTransactionHeaderFlagReadOnly else 0] p;
  p ← StoreLittle64 8 (hr_transaction_order r) p;
  p ← put_uuids 16 (UuidFields r) p;
  p ← StoreLittle64 224 (hr_cluster_epoch r) p;
  p ← StoreLittle32 232 (hr_intent_generation r) p;
  p ← store_bytes 236 [tip_byte (hr_final_state r)] p;
  p ← StoreLittle64 240 (hr_commit_time_utc_ns r) p;
  p ← StoreLittle64 248 (hr_completed_at_utc_ns r) p;
  Some (the_none, p).

Definition DecodeTransactionHeaderRecord (b : list N) : option (TransactionHeaderError + TransactionHeaderRecord) :=
  if decide (length b <> kTransactionHeaderRecordBytes) then Some (inl the_invalid_framing)
  else
  version ← LoadLittle16 0 b;
  bytes ← LoadLittle16 2 b;
  flags ← b !! 7%nat;
  final ← b !! 236%nat;
  b237 ← b !! 237%nat;
  b238 ← b !! 238%nat;
  b239 ← b !! 239%nat;
  authority ← b !! 4%nat;
  if decide (version <> kTransactionHeaderRecordVersion \/ bytes <> N.of_nat kTransactionHeaderRecordBytes \/
             N.ldiff flags kTransactionHeaderFlagReadOnly <> 0 \/ kTipStateCodeMax < final \/
             b237 <> 0 \/ b238 <> 0 \/ b239 <> 0 \/ 2 < authority) then Some (inl the_invalid_framing)
  else
  authority ← authority_of_byte authority;
  intent ← b !! 5%nat;
  isolation ← b !! 6%nat;
  order ← LoadLittle64 8 b;
  database ← GetUuid 16 b;
  transaction ← GetUuid 32 b;
  engine ← GetUuid 48 b;
  principal ← GetUuid 64 b;
  attachment ← GetUuid 80 b;
  session ← GetUuid 96 b;
  policy ← GetUuid 112 b;
  security ← GetUuid 128 b;
  start ← GetUuid 144 b;
  operation ← GetUuid 160 b;
  recovery ← GetUuid 176 b;
  cluster ← GetUuid 192 b;
  cluster_transaction ← GetUuid 208 b;
  epoch ← LoadLittle64 224 b;
  generation ← LoadLittle32 232 b;
  final ← tip_of_byte final;
  commit_time ← LoadLittle64 240 b;
  completed_at ← LoadLittle64 248 b;
  let r := mkHeaderRecord authority intent isolation (bool_decide (N.land flags kTransactionHeaderFlagReadOnly <> 0)) order
             database transaction engine principal attachment session policy security start operation recovery cluster
             cluster_transaction epoch generation final commit_time completed_at in
  let e := ValidateTransactionHeaderRecord r in
  Some (if decide (e = the_none) then inr r else inl e).

(** ** The mutable fields *)

Definition with_completion (r : TransactionHeaderRecord) (final : TipStateCode) (commit completed : N) : TransactionHeaderRecord :=
  mkHeaderRecord (hr_authority r) (hr_intent r) (hr_isolation_profile r) (hr_read_only r) (hr_transaction_order r)
    (hr_database_uuid r) (hr_transaction_uuid r) (hr_engine_instance_uuid r) (hr_principal_or_agent_uuid r) (hr_attachment_uuid r)
    (hr_session_uuid r) (hr_policy_snapshot_uuid r) (hr_security_snapshot_uuid r) (hr_start_snapshot_uuid r)
    (hr_durable_operation_uuid r) (hr_recovery_attempt_uuid r) (hr_cluster_uuid r) (hr_cluster_transaction_uuid r)
    (hr_cluster_epoch r) (hr_intent_generation r) final commit completed.

Definition with_intent (r : TransactionHeaderRecord) (intent generation : N) : TransactionHeaderRecord :=
  mkHeaderRecord (hr_authority r) intent (hr_isolation_profile r) (hr_read_only r) (hr_transaction_order r)
    (hr_database_uuid r) (hr_transaction_uuid r) (hr_engine_instance_uuid r) (hr_principal_or_agent_uuid r) (hr_attachment_uuid r)
    (hr_session_uuid r) (hr_policy_snapshot_uuid r) (hr_security_snapshot_uuid r) (hr_start_snapshot_uuid r)
    (hr_durable_operation_uuid r) (hr_recovery_attempt_uuid r) (hr_cluster_uuid r) (hr_cluster_transaction_uuid r)
    (hr_cluster_epoch r) generation (hr_final_state r) (hr_commit_time_utc_ns r) (hr_completed_at_utc_ns r).

Definition CompleteTransactionHeader (r : TransactionHeaderRecord) (final_state : TipStateCode) (completed_at : N)
    : TransactionHeaderError * TransactionHeaderRecord :=
  if decide (hr_final_state r <> tip_unused) then (the_already_complete, r)
  else if negb (FinalState final_state) || bool_decide (completed_at = 0) then (the_invalid_completion, r)
  else
  let next := with_completion r final_state (if decide (final_state = tip_committed) then completed_at else 0) completed_at in
  let e := ValidateTransactionHeaderRecord next in
  if decide (e <> the_none) then (e, r) else (the_none, next).

Definition UpgradeTransactionHeaderIntent (r : TransactionHeaderRecord) (intent : N)
    : TransactionHeaderError * TransactionHeaderRecord :=
  if decide (hr_final_state r <> tip_unused) then (the_already_complete, r)
  else if decide (kTipIntentMax < intent \/ intent = hr_intent r) then (the_invalid_class, r)
  else if decide (hr_intent_generation r = 2 ^ 32 - 1) then (the_invalid_class, r)
  else
  let next := with_intent r intent (hr_intent_generation r + 1) in
  let e := ValidateTransactionHeaderRecord next in
  if decide (e <> the_none) then (e, r) else (the_none, next).

(** ** The header page *)

(** "SBTXHD01" *)
Definition kTransactionHeaderPageMagic : list N := [83; 66; 84; 88; 72; 68; 48; 49].
Definition kTransactionHeaderPageVersion : N := 1.
Definition kTransactionHeaderPageRecordsOffset : nat := 512.

(** Offsets of the family header and of the link: those of the state page, the record
    size in the place of the word size. *)
Definition kHeaderFamilyEnd : nat := 160.
Definition kLinkEnd : nat := 264.

Definition RecordOffset (slot : N) : nat := kTransactionHeaderPageRecordsOffset + kTransactionHeaderRecordBytes * N.to_nat slot.

Definition TransactionHeaderSlotsPerPage (page_size : N) : N :=
  if decide (page_size <= 512 \/ page_size mod 512 <> 0) then 0 else (page_size - 512) / 256.

Record TransactionHeaderSlotLocation := mkHeaderSlot { hsl_sequence : N; hsl_slot : N }.

Definition LocateTransactionHeaderSlot (page_size transaction_order : N) : option TransactionHeaderSlotLocation :=
  let slots := TransactionHeaderSlotsPerPage page_size in
  if decide (slots = 0 \/ transaction_order = 0) then None
  else Some (mkHeaderSlot (transaction_order / slots) (transaction_order mod slots)).

Record TransactionHeaderPageFormat := mkHeaderFormat {
  hf_header : NativeCommonPageHeader;
  hf_sequence : N;
  hf_next_page : N }.

Definition header_format_error (f : TransactionHeaderPageFormat) (header : NativeCommonPageHeaderError + list N) : TipPageError :=
  let slots := TransactionHeaderSlotsPerPage (ph_page_size_bytes (hf_header f)) in
  if decide (slots = 0) then tpe_invalid_page_size
  else if decide (ph_page_type (hf_header f) <> kTransactionStatePageType \/ ph_flags (hf_header f) <> 0)
  then tpe_invalid_header
  else match header with inl _ => tpe_invalid_header | inr _ =>
    if decide (u64_max / slots < hf_sequence f) then tpe_invalid_family
    else if decide (hf_next_page f = ph_page_number (hf_header f)) then tpe_invalid_link
    else tpe_none
  end.

Definition FormatTransactionHeaderPage (f : TransactionHeaderPageFormat) (output : list N) : option (TipPageError * list N) :=
  let page_size := ph_page_size_bytes (hf_header f) in
  let slots := TransactionHeaderSlotsPerPage page_size in
  header ← EncodeNativeCommonPageHeader (hf_header f);
  match header_format_error f header, header with
  | tpe_none, inr bytes =>
    if decide (N.of_nat (length output) < page_size) then Some (tpe_short_buffer, output)
    else
    p ← store_bytes 0 (replicate (N.to_nat page_size) 0) output;
    p ← store_bytes 0 bytes p;
    p ← store_bytes kMagic kTransactionHeaderPageMagic p;
    p ← StoreLittle16 kVersion kTransactionHeaderPageVersion p;
    p ← StoreLittle16 kWordBytes (N.of_nat kTransactionHeaderRecordBytes) p;
    p ← StoreLittle32 kSlots slots p;
    p ← StoreLittle64 kSequence (hf_sequence f) p;
    p ← StoreLittle64 kFirstNumber (hf_sequence f * slots) p;
    p ← StoreLittle64 kNextPage (hf_next_page f) p;
    Some (tpe_none, p)
  | e, _ => Some (e, output)
  end.

Definition HeaderReadFamily (image : list N) : option (option Family) :=
  if decide (length image < kTransactionHeaderPageRecordsOffset)%nat then Some None
  else
  page_size ← LoadLittle32 12 image;
  let slots := TransactionHeaderSlotsPerPage page_size in
  if decide (slots = 0 \/ N.of_nat (length image) <> page_size) then Some None
  else
  magic ← load_bytes kMagic 8 image;
  version ← LoadLittle16 kVersion image;
  record_bytes ← LoadLittle16 kWordBytes image;
  stored_slots ← LoadLittle32 kSlots image;
  if decide (magic <> kTransactionHeaderPageMagic \/ version <> kTransactionHeaderPageVersion \/
             record_bytes <> N.of_nat kTransactionHeaderRecordBytes \/ stored_slots <> slots) then Some None
  else
  sequence ← LoadLittle64 kSequence image;
  first_number ← LoadLittle64 kFirstNumber image;
  if decide (u64_max / slots < sequence \/ first_number <> sequence * slots) then Some None
  else Some (Some (mkFamily page_size slots sequence (sequence * slots))).

Definition IsTransactionHeaderPageImage (image : list N) : bool :=
  bool_decide (kMagic + 8 <= length image)%nat && bool_decide (slice kMagic 8 image = kTransactionHeaderPageMagic).

Record TransactionHeaderPageView := mkHeaderView {
  hv_header : NativeCommonPageHeader;
  hv_sequence : N;
  hv_first_number : N;
  hv_slots : N;
  hv_next_page : N;
  hv_image : list N }.

(** One turn of the loop over the slots. *)
Definition record_refused (image : list N) (database : Uuid) (first_number slot : N) : option (option TipPageError) :=
  bytes ← load_bytes (RecordOffset slot) kTransactionHeaderRecordBytes image;
  if all_zero bytes then Some None
  else
  decoded ← DecodeTransactionHeaderRecord bytes;
  match decoded with
  | inl _ => Some (Some tpe_invalid_word)
  | inr r =>
    if decide (hr_transaction_order r <> u64_add first_number slot \/ hr_database_uuid r <> database)
    then Some (Some tpe_invalid_slot) else Some None
  end.

Definition DecodeTransactionHeaderPage (image : list N) (expected : option NativeCommonPageHeaderBinding)
    : option (tip_refusal + TransactionHeaderPageView) :=
  if decide (length image < 128)%nat then Some (inl (tpe_invalid_header, None))
  else
  prefix ← load_bytes 0 128 image;
  decoded ← DecodeNativeCommonPageHeader prefix expected;
  match decoded with
  | inl _ => Some (inl (tpe_invalid_header, None))
  | inr header =>
    if decide (ph_page_type header <> kTransactionStatePageType \/ ph_flags header <> 0)
    then Some (inl (tpe_invalid_header, None))
    else if decide (N.of_nat (length image) <> ph_page_size_bytes header \/ TransactionHeaderSlotsPerPage (ph_page_size_bytes header) = 0)
    then Some (inl (tpe_invalid_page_size, None))
    else
    family ← HeaderReadFamily image;
    match family with
    | None => Some (inl (tpe_invalid_family, None))
    | Some family =>
      reserved ← load_bytes kHeaderFamilyEnd (kNextPage - kHeaderFamilyEnd) image;
      if negb (all_zero reserved) then Some (inl (tpe_invalid_family, None))
      else
      next_page ← LoadLittle64 kNextPage image;
      if decide (next_page = ph_page_number header) then Some (inl (tpe_invalid_link, None))
      else
      tail ← load_bytes kLinkEnd (kTransactionHeaderPageRecordsOffset - kLinkEnd) image;
      if negb (all_zero tail) then Some (inl (tpe_invalid_counters, None))
      else
      refused ← scan_slots (record_refused image (ph_database_uuid header) (fm_first_number family)) 0 (N.to_nat (fm_slots family));
      match refused with
      | Some (e, slot) => Some (inl (e, Some slot))
      | None => Some (inr (mkHeaderView header (fm_sequence family) (fm_first_number family) (fm_slots family) next_page image))
      end
    end
  end.

Definition TransactionHeaderAt (view : TransactionHeaderPageView) (slot : N) : option (option TransactionHeaderRecord) :=
  if decide (hv_slots view <= slot \/ (length (hv_image view) < RecordOffset slot + kTransactionHeaderRecordBytes)%nat)
  then Some None
  else
  bytes ← load_bytes (RecordOffset slot) kTransactionHeaderRecordBytes (hv_image view);
  if all_zero bytes then Some None
  else
  decoded ← DecodeTransactionHeaderRecord bytes;
  match decoded with inl _ => Some None | inr r => Some (Some r) end.

(** ** Edits of a header page *)

(** The fixed fields: everything but intent, intent generation and completion. *)
Definition fixed_fields (r : TransactionHeaderRecord) : TransactionHeaderRecord :=
  with_completion (with_intent r 0 0) tip_unused 0 0.
Definition SameFixedFields (a b : TransactionHeaderRecord) : bool := bool_decide (fixed_fields a = fixed_fields b).

Definition with_header_family (image : list N) (edit : Family -> option (TipPageEdit * list N)) : option (TipPageEdit * list N) :=
  family ← HeaderReadFamily image;
  match family with
  | None => Some (RefuseEdit tpe_invalid_family, image)
  | Some family => edit family
  end.

Definition WriteTransactionHeader (image : list N) (record : TransactionHeaderRecord) : option (TipPageEdit * list N) :=
  with_header_family image (fun family =>
    database ← GetUuid 24 image;
    if decide (hr_transaction_order record < fm_first_number family \/
               fm_slots family <= hr_transaction_order record - fm_first_number family \/ hr_database_uuid record <> database)
    then Some (RefuseEdit tpe_invalid_slot, image)
    else
    encoded ← EncodeTransactionHeaderRecord record (replicate kTransactionHeaderRecordBytes 0);
    let '(e, bytes) := encoded in
    if decide (e <> the_none) then Some (RefuseEdit tpe_invalid_word, image)
    else
    let at_ := RecordOffset (hr_transaction_order record - fm_first_number family) in
    edit ← Begin image at_;
    current ← load_bytes at_ kTransactionHeaderRecordBytes image;
    if decide (bytes = current) then Some (edit, image)
    else if negb (all_zero current) then Some (RefuseEdit tpe_invalid_slot, image)
    else
    image ← store_bytes at_ bytes image;
    Some (changed edit, image)).

Definition UpdateTransactionHeader (image : list N) (record : TransactionHeaderRecord) : option (TipPageEdit * list N) :=
  with_header_family image (fun family =>
    if decide (hr_transaction_order record < fm_first_number family \/
               fm_slots family <= hr_transaction_order record - fm_first_number family)
    then Some (RefuseEdit tpe_invalid_slot, image)
    else
    let at_ := RecordOffset (hr_transaction_order record - fm_first_number family) in
    current ← load_bytes at_ kTransactionHeaderRecordBytes image;
    decoded ← DecodeTransactionHeaderRecord current;
    match decoded with
    | inl _ => Some (RefuseEdit tpe_invalid_slot, image)
    | inr old =>
      if negb (SameFixedFields old record) then Some (RefuseEdit tpe_invalid_word, image)
      else if decide (hr_final_state old <> tip_unused /\
                      (hr_final_state record <> hr_final_state old \/ hr_commit_time_utc_ns record <> hr_commit_time_utc_ns old \/
                       hr_completed_at_utc_ns record <> hr_completed_at_utc_ns old \/ hr_intent record <> hr_intent old \/
                       hr_intent_generation record <> hr_intent_generation old))
      then Some (RefuseEdit tpe_invalid_word, image)
      else if decide (hr_intent_generation record < hr_intent_generation old \/
                      (hr_intent_generation record = hr_intent_generation old /\ hr_intent record <> hr_intent old))
      then Some (RefuseEdit tpe_invalid_word, image)
      else
      encoded ← EncodeTransactionHeaderRecord record (replicate kTransactionHeaderRecordBytes 0);
      let '(e, bytes) := encoded in
      if decide (e <> the_none) then Some (RefuseEdit tpe_invalid_word, image)
      else
      edit ← Begin image at_;
      if decide (bytes = current) then Some (edit, image)
      else
      image ← store_bytes at_ bytes image;
      Some (changed edit, image)
    end).

Definition SetTransactionHeaderNextPage (image : list N) (next_page : N) : option (TipPageEdit * list N) :=
  with_header_family image (fun _ =>
    self ← LoadLittle64 72 image;
    current ← LoadLittle64 kNextPage image;
    if decide (next_page = 0 \/ next_page = self) then Some (RefuseEdit tpe_invalid_link, image)
    else if decide (current <> 0 /\ current <> next_page) then Some (RefuseEdit tpe_invalid_link, image)
    else
    edit ← Begin image kNextPage;
    if decide (current = next_page) then Some (edit, image)
    else
    image ← StoreLittle64 kNextPage next_page image;
    Some (changed edit, image)).
