(* ===== verification/TransactionHeaderFacts.v ===== *)
(** * Facts about transaction headers

    The header record is canonical; what the decoder of header pages accepts, and what
    the edits change. *)

From S2P Require Import Prelude Platform TransactionState Bytes PageFrame PageFrameFacts TipPage.
From S2P Require Import TipPageFacts TipEdits TransactionHeader.

(** ** Bytes *)

Lemma slice_one i (l : list N) : (i < length l)%nat -> slice i 1 l = [le_value (slice i 1 l)] /\ l !! i = Some (le_value (slice i 1 l)).
Proof.
  intros Hi. destruct (lookup_lt_is_Some_2 l i Hi) as [b Hb].
  assert (Hs : slice i 1 l = [b]) by (unfold slice; rewrite (drop_S l b i Hb); reflexivity).
  rewrite Hs. assert (Hv : le_value [b] = b) by (unfold le_value; lia). by rewrite Hv.
Qed.

Lemma byte_value b : le_value [b] = b.
Proof. unfold le_value. lia. Qed.

(** ** The image of a record *)

Record record_sized (r : TransactionHeaderRecord) : Prop := {
  rz_intent : hr_intent r < 256;
  rz_isolation : hr_isolation_profile r < 256;
  rz_order : is_u64 (hr_transaction_order r);
  rz_uuids : Forall sized_uuid (UuidFields r);
  rz_epoch : is_u64 (hr_cluster_epoch r);
  rz_generation : hr_intent_generation r < 2 ^ 32;
  rz_commit : is_u64 (hr_commit_time_utc_ns r);
  rz_completed : is_u64 (hr_completed_at_utc_ns r) }.

Definition record_widths : list nat :=
  [2; 2; 1; 1; 1; 1; 8; 16; 16; 16; 16; 16; 16; 16; 16; 16; 16; 16; 16; 16; 8; 4; 1; 3; 8; 8]%nat.

Definition record_layout (r : TransactionHeaderRecord) : list (list N) :=
  [le_bytes 2 1; le_bytes 2 256; [authority_byte (hr_authority r)]; [hr_intent r]; [hr_isolation_profile r];
   [if hr_read_only r then 1 else 0]; le_bytes 8 (hr_transaction_order r);
   uuid_bytes (hr_database_uuid r); uuid_bytes (hr_transaction_uuid r); uuid_bytes (hr_engine_instance_uuid r);
   uuid_bytes (hr_principal_or_agent_uuid r); uuid_bytes (hr_attachment_uuid r); uuid_bytes (hr_session_uuid r);
   uuid_bytes (hr_policy_snapshot_uuid r); uuid_bytes (hr_security_snapshot_uuid r); uuid_bytes (hr_start_snapshot_uuid r);
   uuid_bytes (hr_durable_operation_uuid r); uuid_bytes (hr_recovery_attempt_uuid r); uuid_bytes (hr_cluster_uuid r);
   uuid_bytes (hr_cluster_transaction_uuid r);
   le_bytes 8 (hr_cluster_epoch r); le_bytes 4 (hr_intent_generation r); [tip_byte (hr_final_state r)]; replicate 3 0;
   le_bytes 8 (hr_commit_time_utc_ns r); le_bytes 8 (hr_completed_at_utc_ns r)].

Definition record_image (r : TransactionHeaderRecord) : list N := mjoin (record_layout r).

Lemma uuid_lengths r : record_sized r ->
  length (uuid_bytes (hr_database_uuid r)) = 16%nat /\ length (uuid_bytes (hr_transaction_uuid r)) = 16%nat /\
  length (uuid_bytes (hr_engine_instance_uuid r)) = 16%nat /\ length (uuid_bytes (hr_principal_or_agent_uuid r)) = 16%nat /\
  length (uuid_bytes (hr_attachment_uuid r)) = 16%nat /\ length (uuid_bytes (hr_session_uuid r)) = 16%nat /\
  length (uuid_bytes (hr_policy_snapshot_uuid r)) = 16%nat /\ length (uuid_bytes (hr_security_snapshot_uuid r)) = 16%nat /\
  length (uuid_bytes (hr_start_snapshot_uuid r)) = 16%nat /\ length (uuid_bytes (hr_durable_operation_uuid r)) = 16%nat /\
  length (uuid_bytes (hr_recovery_attempt_uuid r)) = 16%nat /\ length (uuid_bytes (hr_cluster_uuid r)) = 16%nat /\
  length (uuid_bytes (hr_cluster_transaction_uuid r)) = 16%nat.
Proof. intros Hz. pose proof (rz_uuids r Hz) as H. unfold UuidFields, sized_uuid in H. rewrite !Forall_cons in H. tauto. Qed.

Lemma length_record_image r : record_sized r -> length (record_image r) = 256%nat.
Proof.
  intros Hz. pose proof (uuid_lengths r Hz). destruct_and?. unfold record_image, record_layout. cbn [mjoin list_join].
  rewrite !length_app, !length_le_bytes, !length_replicate. cbn [length]. lia.
Qed.

Lemma encode_record r output :
  record_sized r ->
  EncodeTransactionHeaderRecord r output =
  Some (if decide (ValidateTransactionHeaderRecord r <> the_none) then (ValidateTransactionHeaderRecord r, output)
        else if decide (length output < 256)%nat then (the_short_buffer, output)
        else (the_none, record_image r ++ drop 256 output)).
Proof.
  intros Hz. pose proof (uuid_lengths r Hz). destruct_and?. unfold EncodeTransactionHeaderRecord, kTransactionHeaderRecordBytes.
  case_decide; [done|]. case_decide as Hl; [done|].
  rewrite store_bytes_some by (rewrite length_replicate; lia). cbn [mbind option_bind].
  assert (Hzero : stored 0 (replicate 256 0) output = mjoin (zero_chunks record_widths ++ [drop 256 output])).
  { rewrite join_app, replicate_chunks. unfold stored. rewrite length_replicate, take_0. cbn [app mjoin list_join]. by rewrite app_nil_r. }
  rewrite Hzero. generalize (drop 256 output) as rest. intros rest. clear Hzero Hl output.
  unfold zero_chunks, record_widths, StoreLittle16, StoreLittle32, StoreLittle64, kTransactionHeaderRecordVersion, kTransactionHeaderFlagReadOnly.
  cbn [fmap list_fmap app].
  store_field 0%nat. store_field 1%nat. store_field 2%nat. store_field 3%nat. store_field 4%nat. store_field 5%nat. store_field 6%nat.
  cbn [put_uuids UuidFields].
  store_field 7%nat. store_field 8%nat. store_field 9%nat. store_field 10%nat. store_field 11%nat. store_field 12%nat. store_field 13%nat.
  store_field 14%nat. store_field 15%nat. store_field 16%nat. store_field 17%nat. store_field 18%nat. store_field 19%nat.
  store_field 20%nat. store_field 21%nat. store_field 22%nat. store_field 24%nat. store_field 25%nat.
  do 2 f_equal. change (N.of_nat 256) with 256. unfold record_image, record_layout. cbn [mjoin list_join]. by rewrite !app_nil_r, <- !app_assoc.
Qed.

(** ** Decoding a record *)

Definition record_of (b : list N) : TransactionHeaderRecord :=
  mkHeaderRecord (default tau_local (authority_of_byte (le_value (slice 4 1 b)))) (le_value (slice 5 1 b)) (le_value (slice 6 1 b))
    (bool_decide (N.land (le_value (slice 7 1 b)) 1 <> 0)) (le_value (slice 8 8 b))
    (mkUuid (slice 16 16 b)) (mkUuid (slice 32 16 b)) (mkUuid (slice 48 16 b)) (mkUuid (slice 64 16 b)) (mkUuid (slice 80 16 b))
    (mkUuid (slice 96 16 b)) (mkUuid (slice 112 16 b)) (mkUuid (slice 128 16 b)) (mkUuid (slice 144 16 b)) (mkUuid (slice 160 16 b))
    (mkUuid (slice 176 16 b)) (mkUuid (slice 192 16 b)) (mkUuid (slice 208 16 b)) (le_value (slice 224 8 b)) (le_value (slice 232 4 b))
    (default tip_unused (tip_of_byte (le_value (slice 236 1 b)))) (le_value (slice 240 8 b)) (le_value (slice 248 8 b)).

Record record_framed (b : list N) : Prop := {
  rf_length : length b = 256%nat;
  rf_version : le_value (slice 0 2 b) = 1;
  rf_bytes : le_value (slice 2 2 b) = 256;
  rf_flags : N.ldiff (le_value (slice 7 1 b)) 1 = 0;
  rf_final : le_value (slice 236 1 b) <= 12;
  rf_reserved : slice 237 3 b = replicate 3 0;
  rf_authority : le_value (slice 4 1 b) <= 2 }.

Lemma authority_of_small b : b <= 2 -> is_Some (authority_of_byte b).
Proof. intros H. unfold authority_of_byte. apply lookup_lt_is_Some_2. cbn [length]. lia. Qed.
Lemma tip_of_small b : b <= 12 -> is_Some (tip_of_byte b).
Proof. intros H. unfold tip_of_byte. apply lookup_lt_is_Some_2. cbn [length tip_codes]. lia. Qed.

Lemma reserved_three b :
  (240 <= length b)%nat ->
  slice 237 3 b = replicate 3 0 <-> le_value (slice 237 1 b) = 0 /\ le_value (slice 238 1 b) = 0 /\ le_value (slice 239 1 b) = 0.
Proof.
  intros Hl. rewrite <- (slice_cat 237 1 2), <- (slice_cat 238 1 1). cbn [Nat.add].
  destruct (slice_one 237 b) as [-> _]; [lia|]. destruct (slice_one 238 b) as [-> _]; [lia|]. destruct (slice_one 239 b) as [-> _]; [lia|].
  rewrite !byte_value. cbn [app replicate]. split; [intros [= -> -> ->]; done|intros (-> & -> & ->); done].
Qed.

Lemma decode_record_iff b :
  exists res, DecodeTransactionHeaderRecord b = Some res /\
    forall r, res = inr r <-> record_framed b /\ r = record_of b /\ ValidateTransactionHeaderRecord r = the_none.
Proof.
  unfold DecodeTransactionHeaderRecord, kTransactionHeaderRecordBytes, kTransactionHeaderRecordVersion, kTransactionHeaderFlagReadOnly, kTipStateCodeMax.
  case_decide as Hl; [eexists; split; [done|]; intros r; split; [done|]; by intros [[] _]|].
  unfold LoadLittle16. rewrite (load_bytes_some 0 2), (load_bytes_some 2 2) by lia. cbn [fmap option_fmap option_map mbind option_bind].
  destruct (slice_one 7 b) as [_ ->]; [lia|]. destruct (slice_one 236 b) as [_ ->]; [lia|]. destruct (slice_one 237 b) as [_ ->]; [lia|].
  destruct (slice_one 238 b) as [_ ->]; [lia|]. destruct (slice_one 239 b) as [_ ->]; [lia|]. destruct (slice_one 4 b) as [_ ->]; [lia|].
  cbn [mbind option_bind]. pose proof (reserved_three b ltac:(lia)) as Hres. change (N.of_nat 256) with 256.
  case_decide as Hf.
  { eexists. split; [done|]. intros r. split; [done|]. intros [[F1 F2 F3 F4 F5 F6 F7] _]. apply Hres in F6. lia. }
  assert (Hframed : record_framed b).
  { repeat (apply Decidable.not_or in Hf as [? Hf]). split; try (by apply dec_stable); try lia. apply Hres. lia. }
  destruct (authority_of_small _ (rf_authority _ Hframed)) as [a Ha]. rewrite Ha. cbn [mbind option_bind].
  destruct (slice_one 5 b) as [_ ->]; [lia|]. destruct (slice_one 6 b) as [_ ->]; [lia|]. cbn [mbind option_bind].
  unfold GetUuid, LoadLittle64, LoadLittle32. in_buffer.
  destruct (tip_of_small _ (rf_final _ Hframed)) as [c Hc]. rewrite Hc. cbn [mbind option_bind]. in_buffer.
  assert (Hrec : record_of b = mkHeaderRecord a (le_value (slice 5 1 b)) (le_value (slice 6 1 b))
    (bool_decide (N.land (le_value (slice 7 1 b)) 1 <> 0)) (le_value (slice 8 8 b))
    (mkUuid (slice 16 16 b)) (mkUuid (slice 32 16 b)) (mkUuid (slice 48 16 b)) (mkUuid (slice 64 16 b)) (mkUuid (slice 80 16 b))
    (mkUuid (slice 96 16 b)) (mkUuid (slice 112 16 b)) (mkUuid (slice 128 16 b)) (mkUuid (slice 144 16 b)) (mkUuid (slice 160 16 b))
    (mkUuid (slice 176 16 b)) (mkUuid (slice 192 16 b)) (mkUuid (slice 208 16 b)) (le_value (slice 224 8 b)) (le_value (slice 232 4 b))
    c (le_value (slice 240 8 b)) (le_value (slice 248 8 b))) by (unfold record_of; by rewrite Ha, Hc).
  cbv zeta. rewrite <- Hrec. eexists. split; [done|]. intros r.
  destruct (decide (ValidateTransactionHeaderRecord (record_of b) = the_none)) as [Hv|Hv].
  - split; [intros E; apply (inj inr) in E as <-; done|by intros (_ & -> & _)].
  - split; [done|]. intros (_ & -> & ?). done.
Qed.

Lemma flag_value f : N.ldiff f 1 = 0 -> (if bool_decide (N.land f 1 <> 0) then 1 else 0) = f.
Proof.
  change 1 with (N.ones 1) at 1. rewrite N.ldiff_ones_r, N.shiftl_eq_0_iff, N.shiftr_div_pow2. change (2 ^ 1) with 2.
  intros H. apply N.div_small_iff in H; [|done]. assert (f = 0 \/ f = 1) as [->| ->] by lia; done.
Qed.

Lemma record_of_sized b : Forall is_byte b -> length b = 256%nat -> record_sized (record_of b).
Proof.
  intros Hb Hl. split; unfold record_of, UuidFields; cbn [hr_intent hr_isolation_profile hr_transaction_order hr_database_uuid hr_transaction_uuid
    hr_engine_instance_uuid hr_principal_or_agent_uuid hr_attachment_uuid hr_session_uuid hr_policy_snapshot_uuid hr_security_snapshot_uuid
    hr_start_snapshot_uuid hr_durable_operation_uuid hr_recovery_attempt_uuid hr_cluster_uuid hr_cluster_transaction_uuid hr_cluster_epoch
    hr_intent_generation hr_commit_time_utc_ns hr_completed_at_utc_ns].
  1,2: apply (le_slice_bound 1); [done|lia].
  2: repeat constructor; apply uuid_of_slice; done || lia.
  3: apply (le_slice_bound 4); [done|lia].
  all: apply (le_slice_bound 8); [done|lia].
Qed.

Lemma record_image_of b : Forall is_byte b -> record_framed b -> record_image (record_of b) = b.
Proof.
  intros Hb [Hl Hv Hy Hf Hfi Hr Ha]. unfold record_image.
  assert (Hlay : record_layout (record_of b) = slices 0 record_widths b); [|rewrite Hlay; by apply slices_whole].
  unfold record_layout, record_widths. cbn [slices record_of hr_authority hr_intent hr_isolation_profile hr_read_only hr_transaction_order hr_database_uuid
    hr_transaction_uuid hr_engine_instance_uuid hr_principal_or_agent_uuid hr_attachment_uuid hr_session_uuid hr_policy_snapshot_uuid
    hr_security_snapshot_uuid hr_start_snapshot_uuid hr_durable_operation_uuid hr_recovery_attempt_uuid hr_cluster_uuid hr_cluster_transaction_uuid
    hr_cluster_epoch hr_intent_generation hr_final_state hr_commit_time_utc_ns hr_completed_at_utc_ns uuid_bytes Nat.add].
  destruct (authority_of_small _ Ha) as [a Hau]. destruct (tip_of_small _ Hfi) as [c Hc]. rewrite Hau, Hc.
  change (default tau_local (Some a)) with a. change (default tip_unused (Some c)) with c.
  apply authority_of_byte_iff in Hau. apply tip_of_byte_iff in Hc.
  rewrite flag_value by done. rewrite <- Hau, <- Hc, Hr.
  rewrite (slice_constant 2 0 b 1), (slice_constant 2 2 b 256) by (done || lia).
  rewrite !le_bytes_slice by (done || lia).
  destruct (slice_one 4 b) as [<- _]; [lia|]. destruct (slice_one 5 b) as [<- _]; [lia|]. destruct (slice_one 6 b) as [<- _]; [lia|].
  destruct (slice_one 7 b) as [<- _]; [lia|]. destruct (slice_one 236 b) as [<- _]; [lia|]. done.
Qed.

Section sized_record.
Context (r : TransactionHeaderRecord) (Hz : record_sized r).

Lemma record_chunk i c off n :
  record_layout r !! i = Some c -> off = chunk_offset i (record_layout r) -> n = length c -> slice off n (record_image r) = c.
Proof. apply chunk_slice. Qed.

Ltac record_field i off n H :=
  pose proof (record_chunk i _ off n eq_refl ltac:(unfold record_layout; layout_size) ltac:(layout_size)) as H.

Lemma record_image_fields :
  record_framed (record_image r) /\ record_of (record_image r) = r.
Proof.
  pose proof (uuid_lengths r Hz). destruct_and?.
  record_field 0%nat 0%nat 2%nat F0. record_field 1%nat 2%nat 2%nat F1. record_field 2%nat 4%nat 1%nat F2. record_field 3%nat 5%nat 1%nat F3.
  record_field 4%nat 6%nat 1%nat F4. record_field 5%nat 7%nat 1%nat F5. record_field 6%nat 8%nat 8%nat F6. record_field 7%nat 16%nat 16%nat F7.
  record_field 8%nat 32%nat 16%nat F8. record_field 9%nat 48%nat 16%nat F9. record_field 10%nat 64%nat 16%nat F10. record_field 11%nat 80%nat 16%nat F11.
  record_field 12%nat 96%nat 16%nat F12. record_field 13%nat 112%nat 16%nat F13. record_field 14%nat 128%nat 16%nat F14. record_field 15%nat 144%nat 16%nat F15.
  record_field 16%nat 160%nat 16%nat F16. record_field 17%nat 176%nat 16%nat F17. record_field 18%nat 192%nat 16%nat F18. record_field 19%nat 208%nat 16%nat F19.
  record_field 20%nat 224%nat 8%nat F20. record_field 21%nat 232%nat 4%nat F21. record_field 22%nat 236%nat 1%nat F22. record_field 23%nat 237%nat 3%nat F23.
  record_field 24%nat 240%nat 8%nat F24. record_field 25%nat 248%nat 8%nat F25.
  destruct Hz as [Z1 Z2 Z3 Z4 Z5 Z6 Z7 Z8].
  pose proof (tip_byte_small (hr_final_state r)) as Ht. pose proof (authority_byte_small (hr_authority r)) as Ha.
  split.
  - split; rewrite ?F0, ?F1, ?F2, ?F5, ?F22, ?F23, ?byte_value; try done; try (by apply u16_of_bytes).
    + by apply length_record_image.
    + by destruct (hr_read_only r).
  - unfold record_of. rewrite F2, F3, F4, F5, F6, F7, F8, F9, F10, F11, F12, F13, F14, F15, F16, F17, F18, F19, F20, F21, F22, F24, F25.
    rewrite !byte_value, !u64_of_bytes, u32_of_bytes by done.
    rewrite (proj2 (authority_of_byte_iff _ _) eq_refl), (proj2 (tip_of_byte_iff _ _) eq_refl).
    change (default tau_local (Some (hr_authority r))) with (hr_authority r).
    change (default tip_unused (Some (hr_final_state r))) with (hr_final_state r). rewrite !uuid_eta.
    assert (Hro : bool_decide (N.land (if hr_read_only r then 1 else 0) 1 <> 0) = hr_read_only r) by (by destruct (hr_read_only r)).
    rewrite Hro. by destruct r.
Qed.
End sized_record.

(** ** One record, one image *)

Lemma decode_record b r :
  Forall is_byte b ->
  DecodeTransactionHeaderRecord b = Some (inr r) <->
  record_sized r /\ ValidateTransactionHeaderRecord r = the_none /\ b = record_image r.
Proof.
  intros Hb. destruct (decode_record_iff b) as (res & -> & Hr). split.
  - intros E. apply (inj Some) in E. apply Hr in E as (Hf & -> & Hv).
    split; [apply record_of_sized; [done|apply (rf_length _ Hf)]|]. split; [done|]. symmetry. by apply record_image_of.
  - intros (Hz & Hv & ->). f_equal. apply Hr. destruct (record_image_fields r Hz) as [H1 H2]. by rewrite H2.
Qed.

Lemma record_image_bytes r : record_sized r -> Forall is_byte (record_image r).
Proof.
  intros Hz. pose proof (rz_uuids r Hz) as Hu. unfold UuidFields, sized_uuid in Hu. rewrite !Forall_cons in Hu.
  pose proof (tip_byte_small (hr_final_state r)). pose proof (authority_byte_small (hr_authority r)). destruct Hz.
  unfold record_image, record_layout. cbn [mjoin list_join]. unfold kTipStateCodeMax in *.
  repeat (apply Forall_app; split; [try apply le_bytes_bytes; try tauto; try (repeat constructor; unfold is_byte; lia)|]); [|constructor].
  repeat constructor. unfold is_byte. by destruct (hr_read_only r).
Qed.

Lemma record_image_used r : record_sized r -> all_zero (record_image r) = false.
Proof.
  intros Hz. apply not_true_iff_false. intros H. apply all_zero_iff in H.
  destruct (record_image_fields r Hz) as [[_ Hv _ _ _ _ _] _]. rewrite H in Hv. rewrite length_record_image in Hv by done. by vm_compute in Hv.
Qed.

Lemma record_image_inj r r' : record_sized r -> record_sized r' -> record_image r = record_image r' -> r = r'.
Proof. intros H H' E. destruct (record_image_fields r H) as [_ <-]. destruct (record_image_fields r' H') as [_ <-]. by rewrite E. Qed.

(** ** The frame of a header page *)

Definition header_slots_at (l : list N) : N := TransactionHeaderSlotsPerPage (page_size_at l).

Record header_family_ok (l : list N) : Prop := {
  ho_room : (512 <= length l)%nat;
  ho_slots : header_slots_at l <> 0;
  ho_length : N.of_nat (length l) = page_size_at l;
  ho_magic : slice kMagic 8 l = kTransactionHeaderPageMagic;
  ho_version : le_value (slice kVersion 2 l) = 1;
  ho_record_bytes : le_value (slice kWordBytes 2 l) = 256;
  ho_stored_slots : le_value (slice kSlots 4 l) = header_slots_at l;
  ho_sequence : u64_at kSequence l <= u64_max / header_slots_at l;
  ho_first : u64_at kFirstNumber l = u64_at kSequence l * header_slots_at l }.

Definition header_family_at (l : list N) : Family :=
  mkFamily (page_size_at l) (header_slots_at l) (u64_at kSequence l) (u64_at kSequence l * header_slots_at l).

Lemma header_family_iff l :
  exists r, HeaderReadFamily l = Some r /\ forall f, r = Some f <-> header_family_ok l /\ f = header_family_at l.
Proof.
  unfold HeaderReadFamily, LoadLittle16, LoadLittle32, LoadLittle64, kTransactionHeaderPageRecordsOffset.
  case_decide as Hl; [exists None; split; [done|]; intros f; split; [done|]; intros [[] _]; lia|].
  unfold kMagic, kVersion, kWordBytes, kSlots, kSequence, kFirstNumber. in_buffer.
  change (TransactionHeaderSlotsPerPage (le_value (slice 12 4 l))) with (header_slots_at l). change (le_value (slice 12 4 l)) with (page_size_at l).
  case_decide as H1; [exists None; split; [done|]; intros f; split; [done|]; intros [[] _]; tauto|].
  case_decide as H2; [exists None; split; [done|]; intros f; split; [done|]; intros [[] _]; tauto|].
  case_decide as H3; [exists None; split; [done|]; intros f; split; [done|]; intros [[] _];
    unfold u64_at, kSequence, kFirstNumber in *; lia|].
  exists (Some (header_family_at l)). split; [done|]. intros f. split; [intros [= <-]|by intros [_ ->]]. split; [|done].
  apply Decidable.not_or in H1 as [H1 H1']. apply Decidable.not_or in H2 as [H2 H2']. apply Decidable.not_or in H2' as [H4 H2'].
  apply Decidable.not_or in H2' as [H5 H6]. apply Decidable.not_or in H3 as [H3 H3'].
  split; [lia|done|by apply dec_stable|by apply dec_stable|by apply dec_stable|by apply dec_stable|by apply dec_stable|
    unfold u64_at, kSequence; lia|by apply dec_stable].
Qed.

Record header_frame_ok (expected : option NativeCommonPageHeaderBinding) (l : list N) : Prop := {
  hk_header : header_framed (slice 0 128 l) /\ header_error (header_at l) expected = phe_none;
  hk_type : ph_page_type (header_at l) = kTransactionStatePageType;
  hk_flags : ph_flags (header_at l) = 0;
  hk_family : header_family_ok l;
  hk_reserved : slice kHeaderFamilyEnd 96 l = replicate 96 0;
  hk_link : u64_at kNextPage l <> ph_page_number (header_at l);
  hk_tail : slice kLinkEnd 248 l = replicate 248 0 }.

Definition slot_bytes (l : list N) (slot : N) : list N := slice (RecordOffset slot) 256 l.

(** A slot is empty or holds the header of its number and database. *)
Definition slot_ok (l : list N) (slot : N) : Prop :=
  all_zero (slot_bytes l slot) = true \/
  exists r, DecodeTransactionHeaderRecord (slot_bytes l slot) = Some (inr r) /\
    hr_transaction_order r = u64_add (u64_at kSequence l * header_slots_at l) slot /\
    hr_database_uuid r = ph_database_uuid (header_at l).

Definition slots_ok (l : list N) : Prop := forall slot, slot < header_slots_at l -> slot_ok l slot.

Lemma record_offset slot : RecordOffset slot = (512 + 256 * N.to_nat slot)%nat.
Proof. done. Qed.

Lemma header_slots_per_page size :
  TransactionHeaderSlotsPerPage size <> 0 -> size = 512 + 256 * TransactionHeaderSlotsPerPage size /\ size mod 512 = 0.
Proof.
  unfold TransactionHeaderSlotsPerPage. case_decide as H; [done|]. intros _. apply Decidable.not_or in H as [H1 H2].
  apply dec_stable in H2. split; [|done].
  assert (Hm : (size - 512) mod 256 = 0).
  { apply N.Div0.mod_divides in H2 as [k ->]. apply N.Div0.mod_divides. exists (2 * k - 2). lia. }
  pose proof (N.div_mod' (size - 512) 256). lia.
Qed.

Lemma record_room l slot : header_family_ok l -> slot < header_slots_at l -> (RecordOffset slot + 256 <= length l)%nat.
Proof.
  intros [? Hs Hl _ _ _ _ _ _] Hslot. destruct (header_slots_per_page _ Hs) as [Hp _]. fold (header_slots_at l) in Hp.
  rewrite record_offset. lia.
Qed.

Lemma record_refused_iff l slot :
  header_family_ok l -> slot < header_slots_at l ->
  exists r, record_refused l (ph_database_uuid (header_at l)) (u64_at kSequence l * header_slots_at l) slot = Some r /\
    (r = None <-> slot_ok l slot) /\ r <> Some tpe_none.
Proof.
  intros Hf Hs. pose proof (record_room l slot Hf Hs) as Hr. unfold record_refused, slot_ok, kTransactionHeaderRecordBytes.
  rewrite load_bytes_some by done. cbn [mbind option_bind]. fold (slot_bytes l slot).
  destruct (all_zero (slot_bytes l slot)); [exists None; split; [done|]; split; [split; [by left|done]|done]|].
  destruct (decode_record_iff (slot_bytes l slot)) as (res & -> & _). cbn [mbind option_bind]. destruct res as [e|r].
  { exists (Some tpe_invalid_word). split; [done|]. split; [|done]. split; [done|]. intros [?|(r & ? & _)]; done. }
  case_decide as Hc; eexists; (split; [done|]); (split; [|done]); split; try done.
  - intros [?|(r' & E & H1 & H2)]; [done|]. apply (inj Some), (inj inr) in E. subst r'. tauto.
  - intros _. right. exists r. split; [done|]. apply Decidable.not_or in Hc as [H1 H2]. split; by apply dec_stable.
Qed.

(** ** Decoding a header page *)

Definition header_view (l : list N) : TransactionHeaderPageView :=
  mkHeaderView (header_at l) (u64_at kSequence l) (u64_at kSequence l * header_slots_at l) (header_slots_at l) (u64_at kNextPage l) l.

Ltac header_refused := eexists; split; [reflexivity|]; split; [done|]; intros v; split; [done|]; intros [[[] _] _].

Lemma decode_header_page_iff l expected :
  exists r, DecodeTransactionHeaderPage l expected = Some r /\
    match r with inl (e, _) => e <> tpe_none | inr _ => True end /\
    forall v, r = inr v <-> (header_frame_ok expected l /\ slots_ok l) /\ v = header_view l.
Proof.
  unfold DecodeTransactionHeaderPage. case_decide as Hl.
  { header_refused. destruct hk_family0. lia. }
  rewrite (load_bytes_some 0 128 l) by lia. cbn [mbind option_bind].
  destruct (decode_header_iff (slice 0 128 l) expected) as (rh & -> & Hh). cbn [mbind option_bind].
  destruct rh as [e|h].
  { header_refused. destruct hk_header0 as [H1 H2]. by discriminate (proj2 (Hh (header_at l)) (conj H1 (conj eq_refl H2))). }
  destruct (proj1 (Hh h) eq_refl) as (H1 & -> & H2). clear Hh. fold (header_at l).
  case_decide as Hty; [header_refused; tauto|].
  apply Decidable.not_or in Hty as [Ht Hfl]. apply dec_stable in Ht, Hfl.
  rewrite header_size_at. fold (header_slots_at l).
  case_decide as Hsz; [header_refused; destruct hk_family0; tauto|].
  destruct (header_family_iff l) as (rf & -> & Hrf). cbn [mbind option_bind]. destruct rf as [f|].
  2: { header_refused. by discriminate (proj2 (Hrf (header_family_at l)) (conj hk_family0 eq_refl)). }
  destruct (proj1 (Hrf f) eq_refl) as (Hfam & ->). clear Hrf. cbn [fm_sequence fm_slots fm_first_number header_family_at].
  pose proof (ho_room l Hfam) as Hroom.
  rewrite (load_bytes_some kHeaderFamilyEnd) by (unfold kHeaderFamilyEnd, kNextPage; lia). cbn [mbind option_bind].
  change (kNextPage - kHeaderFamilyEnd)%nat with 96%nat.
  destruct (all_zero (slice kHeaderFamilyEnd 96 l)) eqn:Hz; cbn [negb].
  2: { header_refused. rewrite hk_reserved0, all_zero_replicate in Hz. done. }
  apply all_zero_iff in Hz. rewrite length_slice in Hz by (unfold kHeaderFamilyEnd; lia).
  unfold LoadLittle64. rewrite (load_bytes_some kNextPage) by (unfold kNextPage; lia).
  cbn [fmap option_fmap option_map mbind option_bind]. fold (u64_at kNextPage l).
  case_decide as Hlink; [header_refused; tauto|].
  rewrite (load_bytes_some kLinkEnd) by (unfold kLinkEnd, kTransactionHeaderPageRecordsOffset; lia). cbn [mbind option_bind].
  change (kTransactionHeaderPageRecordsOffset - kLinkEnd)%nat with 248%nat.
  destruct (all_zero (slice kLinkEnd 248 l)) eqn:Hz2; cbn [negb].
  2: { header_refused. rewrite hk_tail0, all_zero_replicate in Hz2. done. }
  apply all_zero_iff in Hz2. rewrite length_slice in Hz2 by (unfold kLinkEnd; lia).
  assert (Hframe : header_frame_ok expected l) by by split.
  destruct (scan_slots_iff (record_refused l (ph_database_uuid (header_at l)) (u64_at kSequence l * header_slots_at l)) 0
    (N.to_nat (header_slots_at l))) as (r & Hscan & Hr).
  { intros i Hi. destruct (record_refused_iff l i Hfam) as (r & -> & _); [lia|done]. }
  rewrite Hscan. cbn [mbind option_bind].
  assert (Hslots : r = None <-> slots_ok l).
  { rewrite Hr. split; intros H slot Hs; destruct (record_refused_iff l slot Hfam) as (rr & Hrr & Hiff & _); try lia.
    - apply Hiff. rewrite H in Hrr by lia. by injection Hrr as <-.
    - rewrite Hrr. f_equal. apply Hiff, H. lia. }
  destruct r as [[e slot]|].
  - eexists. split; [done|]. split; [|intros v; split; [done|]; intros [[_ Hw] _]; by apply Hslots in Hw].
    pose proof (scan_slots_bound _ _ _ _ _ Hscan). apply scan_slots_error in Hscan.
    destruct (record_refused_iff l slot Hfam) as (rr & Hrr & _ & Hne); [lia|]. rewrite Hrr in Hscan. apply (inj Some) in Hscan. congruence.
  - eexists. split; [done|]. split; [done|]. intros v.
    split; [intros [= <-]; split; [split; [done|by apply Hslots]|done]|by intros [_ ->]].
Qed.
