(* ===== verification/InventoryChain.v ===== *)
(** * Reading the inventory chain

    Models [ReadNativeMetadataPageZero] of [storage/disk/native_metadata_memory.hpp] and
    the chain reader of [storage/page/transaction_inventory_page.cpp]
    ([ReadInventoryChainView], [ReadNativeInventoryChain] and their entry points): from a
    root reference the reader checks the files it was given, reads page zero of each,
    follows the linked pages across the files, and answers the whole inventory with its
    horizons.  In the historical context page zero is a retained image, and every file
    is looked at again at the end.

    A file is named by a number, as the code compares device addresses; [first] is what
    the reader observes of the file of that number and [final] what it observes at the
    end.  The allocator always answers, and the counters of the I/O receipt are left
    out.  A result of [None] is an access outside a buffer or the end of the fuel. *)

From S2P Require Import Prelude Platform Uuid TransactionState Inventory Horizon InventoryEvolution.
From S2P Require Import Bytes PageFrame InventoryPage NativeInventoryPage FilespacePageZero TipPage.

#[export] Instance PageReference_eq_dec : EqDecision NativePageReference.
Proof. solve_decision. Defined.

Record NativeFilespaceDevice := mkFilespaceDevice {
  nf_filespace_uuid : Uuid;
  nf_page_size_profile_uuid : Uuid;
  nf_device : option nat }.

Record NativeInventoryHistoricalPageZero := mkHistoricalZero {
  hz_filespace_uuid : Uuid;
  hz_image : list N }.

Record NativeInventoryChainPageView := mkChainPage {
  cp_page : NativeTransactionInventoryPage;
  cp_image : list N }.

Record NativeInventoryChainView := mkChainView {
  cv_pages : list NativeInventoryChainPageView;
  cv_inventory : LocalTransactionInventory;
  cv_horizons : LocalTransactionHorizons;
  cv_retained_image_bytes : N }.

(** A refusal, with the image of an in-place head page when that is the reason. *)
Record chain_failure := mkChainFailure { cf_error : NativeInventoryError; cf_in_place_head_image : option (list N) }.

Definition refuse {A} (e : NativeInventoryError) : option (chain_failure + A) := Some (inl (mkChainFailure e None)).

(** What a read leaves: the bytes asked for, or nothing. *)
Definition read_exactly (d : device_view) (offset : N) (count : nat) : option (list N) :=
  match dev_read d offset count with
  | None => None
  | Some bytes => if decide (length bytes <> count) then None else Some bytes
  end.

Section chain.
Context (sha256 : hash_provider).

(** ** Page zero, read for its metadata *)

Definition metadata_bootstrap_error (e : FilespaceBootstrapError) : FilespacePageZeroError :=
  match e with
  | bte_hash_provider_failure => pze_hash_provider_failure
  | bte_resource_exhausted => pze_resource_exhausted
  | _ => pze_invalid_bootstrap
  end.

Definition ReadNativeMetadataPageZero (binding : FilespaceBootstrapBinding) (d : device_view)
    : option (FilespacePageZeroError + FilespacePageZero) :=
  match read_exactly d 0 common_offset with
  | None => Some (inl pze_io_failure)
  | Some prefix =>
    decoded ← DecodeFilespaceBootstrap sha256 prefix (Some binding);
    match decoded with
    | inl e => Some (inl (metadata_bootstrap_error e))
    | inr h =>
      encoded ← EncodeFilespaceBootstrap sha256 h;
      match encoded with
      | inl e => Some (inl (metadata_bootstrap_error e))
      | inr preamble =>
        let size := bt_page_size_bytes h in
        match dev_size_before d with
        | None => Some (inl pze_io_failure)
        | Some before =>
          if decide (before < size \/ before mod size <> 0) then Some (inl pze_invalid_capacity)
          else match read_exactly d 0 (N.to_nat size) with
          | None => Some (inl pze_io_failure)
          | Some bytes =>
            actual ← load_bytes 0 common_offset bytes;
            if decide (preamble <> actual) then Some (inl pze_probe_changed)
            else
            result ← DecodeFilespacePageZeroInto sha256 bytes (mkBacking true 32 0 0 0) (Some binding);
            match result with
            | inl e => Some (inl e)
            | inr record =>
              match dev_size_after d with
              | None => Some (inl pze_io_failure)
              | Some after =>
                if decide (before <> after \/ after <> (pz_total_pages record * size) mod u64_modulus)
                then Some (inl pze_invalid_capacity) else Some (inr record)
              end
            end
          end
        end
      end
    end
  end.

(** The reader's name for an error of page zero. *)
Definition zero_failure (e : FilespacePageZeroError) : NativeInventoryError :=
  match e with
  | pze_resource_exhausted => nie_resource_exhausted
  | pze_hash_provider_failure => nie_hash_failure
  | pze_io_failure => nie_io_failure
  | _ => nie_invalid_filespace
  end.

Context (first final : nat -> device_view) (database : Uuid) (head : FilespaceRootReference) (maximum : N).
Context (root_sha256 : option (list N)) (historical : option (list NativeInventoryHistoricalPageZero)).
(** The files the caller's latency batches read, if it supplied any. *)
Context (observations : list (option nat)).

(** ** The request *)

Definition head_reference : NativePageReference :=
  mkPageRef (rt_filespace_uuid head) (rt_page_number head) (rt_page_generation head) (rt_page_size_profile_uuid head).

Definition request_refused (devices : list NativeFilespaceDevice) : bool :=
  negb (IsEngineIdentityUuid database) || negb (IsEngineIdentityUuid (rt_object_uuid head)) ||
  bool_decide (rt_kind head <> 4) || bool_decide (rt_page_type head <> 769) || negb (RefValid head_reference) ||
  bool_decide (devices = []) || bool_decide (maximum = 0) ||
  match historical with
  | None => false
  | Some images =>
    bool_decide (length images <> length devices) ||
    match root_sha256 with None => true | Some digest => forallb (N.eqb 0) digest end
  end.

Definition observations_refused (devices : list NativeFilespaceDevice) : bool :=
  negb (bool_decide (observations = [])) &&
  (bool_decide (observations <> nf_device <$> devices) || existsb (fun fs => bool_decide (nf_device fs = None)) devices).

Definition fs_le (a b : NativeFilespaceDevice) : Prop :=
  bytes_leb (uuid_bytes (nf_filespace_uuid a)) (uuid_bytes (nf_filespace_uuid b)) = true.
#[export] Instance fs_le_dec : RelDecision fs_le.
Proof. intros a b. unfold fs_le. apply _. Defined.

(** The checks on each file against those before it in the order. *)
Fixpoint devices_refused (earlier : list NativeFilespaceDevice) (fss : list NativeFilespaceDevice) : bool :=
  match fss with
  | [] => false
  | fs :: fss =>
    negb (IsEngineIdentityUuid (nf_filespace_uuid fs)) ||
    negb (bool_decide (is_Some (FindCanonicalFilespacePageProfile (nf_page_size_profile_uuid fs)))) ||
    bool_decide (nf_device fs = None) ||
    match last earlier with None => false | Some prior => bool_decide (nf_filespace_uuid fs = nf_filespace_uuid prior) end ||
    existsb (fun old => bool_decide (nf_device fs = nf_device old)) earlier ||
    devices_refused (earlier ++ [fs]) fss
  end.

Definition historical_image (images : list NativeInventoryHistoricalPageZero) (id : Uuid) : option (list N) :=
  (fun p => hz_image p.2) <$> list_find (fun image => hz_filespace_uuid image = id) images.

(** [observe]: the retained image against the file, outside the range a growth changes. *)
Definition unchanged_frame (retained actual : list N) : bool :=
  bool_decide (take common_offset retained = take common_offset actual) &&
  bool_decide (drop directory_offset retained = drop directory_offset actual).

Definition observe_zero (d : device_view) (size : N) (retained : list N) : NativeInventoryError :=
  match read_exactly d 0 (N.to_nat size) with
  | None => nie_io_failure
  | Some actual => if unchanged_frame retained actual then nie_none else nie_binding_mismatch
  end.

Definition view_of (view : nat -> device_view) (fs : NativeFilespaceDevice) : device_view :=
  view (default 0%nat (nf_device fs)).

(** Page zero of one file: the record, the size of the file in the historical context,
    and the image bytes counted so far. *)
Definition load_zero (context : N) (fs : NativeFilespaceDevice)
    : option (chain_failure + (FilespacePageZero * N * N)) :=
  let binding := mkBootstrapBinding database (nf_filespace_uuid fs) (nf_page_size_profile_uuid fs) in
  match historical with
  | None =>
    zero ← ReadNativeMetadataPageZero binding (view_of first fs);
    match zero with inl e => refuse (zero_failure e) | inr v => Some (inr (v, 0, context)) end
  | Some images =>
    match historical_image images (nf_filespace_uuid fs), FindCanonicalFilespacePageProfile (nf_page_size_profile_uuid fs) with
    | Some image, Some profile =>
      let size := cfp_page_size_bytes profile in
      if decide (N.of_nat (length image) <> size) then refuse nie_invalid_filespace
      else if decide ((maximum - context) / 3 < size) then refuse nie_resource_exhausted
      else
      zero ← DecodeFilespacePageZeroInto sha256 image (mkBacking true 32 0 0 0) (Some binding);
      match zero with
      | inl e => refuse (zero_failure e)
      | inr v =>
        if decide (N.land (bt_flags (pz_bootstrap v)) 1 <> 0) then refuse nie_encrypted_requires_crypto_authority
        else match dev_size_before (view_of first fs) with
        | None => refuse nie_io_failure
        | Some observed =>
          if decide (observed < (pz_total_pages v * bt_page_size_bytes (pz_bootstrap v)) mod u64_modulus)
          then refuse nie_invalid_filespace
          else
            let error := observe_zero (view_of first fs) (bt_page_size_bytes (pz_bootstrap v)) image in
            if decide (error <> nie_none) then refuse error else Some (inr (v, observed, context + 3 * size))
        end
      end
    | _, _ => refuse nie_invalid_filespace
    end
  end.

Fixpoint load_zeros (context : N) (fss : list NativeFilespaceDevice)
    : option (chain_failure + (list (FilespacePageZero * N) * N)) :=
  match fss with
  | [] => Some (inr ([], context))
  | fs :: fss =>
    loaded ← load_zero context fs;
    match loaded with
    | inl f => Some (inl f)
    | inr (v, observed, context) =>
      rest ← load_zeros context fss;
      Some (match rest with inl f => inl f | inr (zeros, context) => inr ((v, observed) :: zeros, context) end)
    end
  end.

(** ** The walk *)

Record chain_state := mkChainState {
  cs_pages : list NativeInventoryChainPageView;
  cs_entries : list TransactionInventoryEntry;
  cs_slots : list (Uuid * N);
  cs_page_ids : list Uuid;
  cs_retained : N;
  cs_next_local : N;
  cs_next_commit : N }.

Definition first_state (context : N) : chain_state := mkChainState [] [] [] [] context 0 0.

(** The lower bound of a filespace in the order. *)
Definition locate (ordered : list NativeFilespaceDevice) (id : Uuid) : option (nat * NativeFilespaceDevice) :=
  list_find (fun fs => bytes_leb (uuid_bytes id) (uuid_bytes (nf_filespace_uuid fs)) = true) ordered.

(** The page in an image, before it is compared with the chain. *)
Definition decode_fetched (st : chain_state) (bytes : list N) : option (chain_failure + NativeInventoryChainPageView) :=
  header ← DecodeNativeCommonPageHeader (take 128 bytes) None;
  match header with
  | inl _ => refuse nie_invalid_header
  | inr header =>
    if decide (N.land (ph_flags header) 1 <> 0) then refuse nie_encrypted_requires_crypto_authority
    else
    magic ← load_bytes 128 8 bytes;
    if decide (cs_pages st = [] /\ magic = kTransactionStatePageMagic) then
      Some (inl (mkChainFailure nie_invalid_family (Some bytes)))
    else
    stored_count ← LoadLittle32 184 bytes;
    let count := N.min stored_count ((N.of_nat (length bytes) - 384) / kEntryBytes) in
    decoded ← DecodeNativeTransactionInventoryPageInto sha256 bytes (mkBacking true count count count 0);
    match decoded with
    | inl e => refuse e
    | inr p => Some (inr (mkChainPage p bytes))
    end
  end.

(** The page a reference leads to. *)
Definition fetch_page (ordered : list NativeFilespaceDevice) (zeros : list (FilespacePageZero * N)) (st : chain_state)
    (next : NativePageReference) : option (chain_failure + NativeInventoryChainPageView) :=
  match locate ordered (pr_filespace_uuid next) with
  | None => refuse nie_invalid_filespace
  | Some (i, fs) =>
    if decide (nf_filespace_uuid fs <> pr_filespace_uuid next \/ nf_page_size_profile_uuid fs <> pr_page_size_profile_uuid next)
    then refuse nie_invalid_filespace
    else
    zero ← fst <$> zeros !! i;
    if decide (4 < bt_filespace_role (pz_bootstrap zero) \/ pz_total_pages zero <= pr_page_number next) then refuse nie_invalid_filespace
    else if decide (N.land (bt_flags (pz_bootstrap zero)) 1 <> 0) then refuse nie_encrypted_requires_crypto_authority
    else if decide ((pr_filespace_uuid next, pr_page_number next) ∈ cs_slots st) then refuse nie_chain_mismatch
    else
    let size := bt_page_size_bytes (pz_bootstrap zero) in
    if decide (maximum - cs_retained st < size) then refuse nie_resource_exhausted
    else match read_exactly (view_of first fs) ((pr_page_number next * size) mod u64_modulus) (N.to_nat size) with
    | None => refuse nie_io_failure
    | Some bytes => decode_fetched st bytes
    end
  end.

(** The comparison with the page before it, or with the root. *)
Definition link_error (st : chain_state) (c : NativeInventoryChainPageView) : NativeInventoryError :=
  let p := cp_page c in
  match last (cs_pages st) with
  | None =>
    if decide (np_previous p <> None) then nie_chain_mismatch
    else match root_sha256 with
    | None => nie_none
    | Some expected =>
      match sha256 (cp_image c) with
      | None => nie_hash_failure
      | Some digest => if decide (digest <> expected) then nie_binding_mismatch else nie_none
      end
    end
  | Some prior =>
    if decide (np_previous p <> Some (Self (cp_page prior)) \/
               np_inventory_generation p <> np_inventory_generation (cp_page prior) \/
               inv_next_local_transaction_id (np_inventory p) <> cs_next_local st \/
               inv_next_commit_sequence (np_inventory p) <> cs_next_commit st) then nie_chain_mismatch
    else nie_none
  end.

(** The first entry of the page is not above the last one so far. *)
Definition entries_overlap (st : chain_state) (p : NativeTransactionInventoryPage) : bool :=
  match last (cs_entries st), inv_entries (np_inventory p) with
  | Some prior, e :: _ => bool_decide (e_local_id e <= e_local_id prior)
  | _, _ => false
  end.

Definition chain_step (ordered : list NativeFilespaceDevice) (zeros : list (FilespacePageZero * N)) (st : chain_state)
    (next : NativePageReference) : option (chain_failure + chain_state) :=
  fetched ← fetch_page ordered zeros st next;
  match fetched with
  | inl f => Some (inl f)
  | inr c =>
    let p := cp_page c in
    if decide (ph_database_uuid (np_header p) <> database \/ Self p <> next \/ np_object_uuid p <> rt_object_uuid head)
    then refuse nie_binding_mismatch
    else if decide (ph_page_uuid (np_header p) ∈ cs_page_ids st) then refuse nie_chain_mismatch
    else if decide (link_error st c <> nie_none) then refuse (link_error st c)
    else if entries_overlap st p then refuse nie_chain_mismatch
    else
      let '(next_local, next_commit) :=
        match cs_pages st with
        | [] => (inv_next_local_transaction_id (np_inventory p), inv_next_commit_sequence (np_inventory p))
        | _ => (cs_next_local st, cs_next_commit st)
        end in
      Some (inr (mkChainState (cs_pages st ++ [c]) (cs_entries st ++ inv_entries (np_inventory p))
        (cs_slots st ++ [(pr_filespace_uuid next, pr_page_number next)]) (cs_page_ids st ++ [ph_page_uuid (np_header p)])
        (cs_retained st + N.of_nat (length (cp_image c))) next_local next_commit))
  end.

Fixpoint walk_chain (fuel : nat) (ordered : list NativeFilespaceDevice) (zeros : list (FilespacePageZero * N)) (st : chain_state)
    (next : NativePageReference) : option (chain_failure + chain_state) :=
  match fuel with
  | O => None
  | S fuel =>
    stepped ← chain_step ordered zeros st next;
    match stepped with
    | inl f => Some (inl f)
    | inr st =>
      match last (cs_pages st) ≫= (fun c => np_next (cp_page c)) with
      | None => Some (inr st)
      | Some next => walk_chain fuel ordered zeros st next
      end
    end
  end.

(** A page is at least 8192 bytes of the allowance. *)
Definition chain_fuel : nat := S (N.to_nat (maximum / 8192)).

(** The second look at the files, in the historical context. *)
Fixpoint observe_final (images : list NativeInventoryHistoricalPageZero) (files : list (NativeFilespaceDevice * (FilespacePageZero * N)))
    : NativeInventoryError :=
  match files with
  | [] => nie_none
  | (fs, (v, observed)) :: files =>
    match dev_size_before (view_of final fs) with
    | None => nie_io_failure
    | Some size =>
      if decide (size <> observed) then nie_binding_mismatch
      else
        let error := observe_zero (view_of final fs) (bt_page_size_bytes (pz_bootstrap v))
                       (default [] (historical_image images (nf_filespace_uuid fs))) in
        if decide (error <> nie_none) then error else observe_final images files
    end
  end.

Definition finish_chain (ordered : list NativeFilespaceDevice) (zeros : list (FilespacePageZero * N)) (st : chain_state)
    : chain_failure + NativeInventoryChainView :=
  let inventory := mkInventory (cs_next_local st) (cs_next_commit st) (cs_entries st) None in
  let count := N.of_nat (length (cs_entries st)) in
  let '(error, _) := ValidateNativeTransactionInventoryView inventory (mkBacking true 0 count count 0) in
  if decide (error <> nie_none) then inl (mkChainFailure error None)
  else match ProjectValidatedLocalHorizons inventory [] with
  | inl _ => inl (mkChainFailure nie_invalid_inventory None)
  | inr horizons =>
    let error := match historical with None => nie_none | Some images => observe_final images (zip ordered zeros) end in
    if decide (error <> nie_none) then inl (mkChainFailure error None)
    else inr (mkChainView (cs_pages st) inventory horizons (cs_retained st))
  end.

Definition ReadInventoryChainView (devices : list NativeFilespaceDevice) : option (chain_failure + NativeInventoryChainView) :=
  if request_refused devices || observations_refused devices then refuse nie_invalid_reference
  else if negb (bool_decide (NoDup (hz_filespace_uuid <$> default [] historical))) then refuse nie_invalid_filespace
  else
  let ordered := merge_sort fs_le devices in
  if devices_refused [] ordered then refuse nie_invalid_filespace
  else
  loaded ← load_zeros 0 ordered;
  match loaded with
  | inl f => Some (inl f)
  | inr (zeros, context) =>
    walked ← walk_chain chain_fuel ordered zeros (first_state context) head_reference;
    Some (match walked with inl f => inl f | inr st => finish_chain ordered zeros st end)
  end.

Definition cv_ok (v : NativeInventoryChainView) : bool :=
  negb (bool_decide (cv_pages v = [])) && h_valid (cv_horizons v).

(** The owning form: the same answer, copied out of the reader's memory. *)
Definition ReadNativeInventoryChain (devices : list NativeFilespaceDevice) : option (NativeInventoryError + NativeInventoryChainView) :=
  r ← ReadInventoryChainView devices;
  Some (match r with inl f => inl (cf_error f) | inr v => if cv_ok v then inr v else inl nie_none end).
End chain.

(** ** Entry points *)

Inductive NativeInventoryChainReadContext := chc_current | chc_historical.

Section entry.
Context (sha256 : hash_provider) (first final : nat -> device_view).

Definition ReadNativeTransactionInventoryChainFromOpenDevices (database : Uuid) (devices : list NativeFilespaceDevice)
    (root : FilespaceRootReference) (budget : N) : option (NativeInventoryError + NativeInventoryChainView) :=
  ReadNativeInventoryChain sha256 first final database root budget None None [] devices.

Definition ReadNativeTransactionInventoryChainAtHistoricalRootFromOpenDevices (database : Uuid) (devices : list NativeFilespaceDevice)
    (root : FilespaceRootReference) (sha : list N) (contexts : list NativeInventoryHistoricalPageZero) (budget : N)
    : option (NativeInventoryError + NativeInventoryChainView) :=
  ReadNativeInventoryChain sha256 first final database root budget (Some sha) (Some contexts) [] devices.

Definition context_refused (devices : list NativeFilespaceDevice) (context : NativeInventoryChainReadContext) (sha : option (list N))
    (historical : list NativeInventoryHistoricalPageZero) (batches : list (option nat)) : bool :=
  match context with
  | chc_historical => bool_decide (sha = None) || bool_decide (length historical <> length devices)
  | chc_current => bool_decide (is_Some sha) || negb (bool_decide (historical = []))
  end || bool_decide (devices = []) || bool_decide (length batches <> length devices).

Definition ReadNativeInventoryChainBacked (database : Uuid) (devices : list NativeFilespaceDevice) (root : FilespaceRootReference)
    (allowance : N) (context : NativeInventoryChainReadContext) (sha : option (list N))
    (historical : list NativeInventoryHistoricalPageZero) (batches : list (option nat))
    : option (chain_failure + NativeInventoryChainView) :=
  if context_refused devices context sha historical batches then refuse nie_invalid_reference
  else ReadInventoryChainView sha256 first final database root allowance sha
         (match context with chc_historical => Some historical | chc_current => None end) batches devices.

(** [sound]: the caller's memory overlaps none of the inputs. *)
Definition ReadNativeTransactionInventoryChainInto (database : Uuid) (devices : list NativeFilespaceDevice) (root : FilespaceRootReference)
    (allowance : N) (context : NativeInventoryChainReadContext) (sha : option (list N))
    (historical : list NativeInventoryHistoricalPageZero) (batches : list (option nat)) (sound : bool)
    : option (chain_failure + NativeInventoryChainView) :=
  if context_refused devices context sha historical batches then refuse nie_invalid_reference
  else if bool_decide (batches <> nf_device <$> devices) || existsb (fun fs => bool_decide (nf_device fs = None)) devices
  then refuse nie_invalid_reference
  else if negb sound then refuse nie_invalid_backing
  else ReadNativeInventoryChainBacked database devices root allowance context sha historical batches.
End entry.
