(* ===== verification/InventoryChainFacts.v ===== *)
(** * Facts about the chain reader

    The files in order, page zero of each, one step of the walk and the whole walk. *)

From S2P Require Import Prelude Platform Uuid TransactionState Inventory Horizon InventoryEvolution.
From S2P Require Import Bytes PageFrame InventoryPage InventoryPageFacts NativeInventoryPage.
From S2P Require Import BorrowedFacts PageFrameFacts NativeInventoryPageFacts FilespacePageZero.
From S2P Require Import FilespacePageZeroFacts InventoryChain.

(** ** The files in order *)

(** In filespace order without repetition. *)
Definition strictly_ordered (fss : list NativeFilespaceDevice) : Prop :=
  forall i j a b, (i < j)%nat -> fss !! i = Some a -> fss !! j = Some b -> fs_le a b /\ nf_filespace_uuid a <> nf_filespace_uuid b.

Lemma bytes_leb_refl a : bytes_leb a a = true.
Proof. by destruct (ko_total _ bytes_order a a). Qed.

Lemma fs_le_anti a b : fs_le a b -> fs_le b a -> nf_filespace_uuid a = nf_filespace_uuid b.
Proof. unfold fs_le. intros H1 H2. apply uuid_bytes_inj. by apply (ko_anti _ bytes_order). Qed.

#[export] Instance fs_le_trans : Transitive fs_le.
Proof. intros a b c. unfold fs_le. apply (ko_trans _ bytes_order). Qed.
#[export] Instance fs_le_total : Total fs_le.
Proof. intros a b. unfold fs_le. apply (ko_total _ bytes_order). Qed.

Lemma sorted_lookup {A} (R : A -> A -> Prop) (l : list A) i j a b :
  StronglySorted R l -> (i < j)%nat -> l !! i = Some a -> l !! j = Some b -> R a b.
Proof.
  intros Hs Hij Ha Hb. rewrite <- (take_drop j l) in Hs. apply (StronglySorted_app_1_elem_of _ _ _ _ _ Hs).
  - apply list_elem_of_lookup. exists i. by rewrite lookup_take_lt.
  - apply list_elem_of_lookup. exists 0%nat. by rewrite lookup_drop, Nat.add_0_r.
Qed.

Lemma devices_distinct earlier fss i a b :
  devices_refused earlier fss = false -> (earlier ++ fss) !! i = Some a -> (earlier ++ fss) !! S i = Some b ->
  (length earlier <= S i)%nat -> nf_filespace_uuid a <> nf_filespace_uuid b.
Proof.
  revert earlier. induction fss as [|fs fss IH]; intros earlier H Ha Hb Hl.
  { rewrite app_nil_r in Hb. apply lookup_lt_Some in Hb. lia. }
  cbn [devices_refused] in H. apply orb_false_iff in H as [H Hrest]. apply orb_false_iff in H as [H _]. apply orb_false_iff in H as [_ Hp].
  destruct (decide (length earlier = S i)) as [He|He].
  - rewrite list_lookup_middle in Hb by lia. injection Hb as <-. rewrite lookup_app_l in Ha by lia.
    rewrite last_lookup, He in Hp. cbn [pred] in Hp. rewrite Ha in Hp. apply bool_decide_eq_false in Hp. congruence.
  - apply (IH (earlier ++ [fs])); [done|by rewrite <- app_assoc..|rewrite length_app; cbn [length]; lia].
Qed.

Lemma ordered_strictly devices :
  devices_refused [] (merge_sort fs_le devices) = false -> strictly_ordered (merge_sort fs_le devices).
Proof.
  intros H i j a b Hij Ha Hb. pose proof (StronglySorted_merge_sort fs_le devices) as Hs.
  assert (Hle : forall i j a b, (i < j)%nat -> merge_sort fs_le devices !! i = Some a -> merge_sort fs_le devices !! j = Some b -> fs_le a b).
  { intros i' j' a' b' ? Ha' Hb'. by apply (sorted_lookup _ _ i' j' a' b' Hs). }
  split; [by apply (Hle i j)|]. intros Heq.
  destruct (lookup_lt_is_Some_2 (merge_sort fs_le devices) (S i)) as [c Hc]; [apply lookup_lt_Some in Hb; lia|].
  apply (devices_distinct [] _ i a c H Ha Hc); [cbn [length]; lia|].
  apply fs_le_anti; [apply (Hle i (S i)); [lia|done..]|]. destruct (decide (S i = j)) as [<-|].
  - rewrite Hc in Hb. injection Hb as ->. unfold fs_le. rewrite Heq. apply bytes_leb_refl.
  - assert (Hcb : fs_le c b) by (apply (Hle (S i) j); [lia|done..]). unfold fs_le in *. by rewrite Heq.
Qed.

(** The lower bound finds the file of a filespace. *)
Lemma locate_iff ordered id i fs :
  strictly_ordered ordered ->
  locate ordered id = Some (i, fs) /\ nf_filespace_uuid fs = id <-> ordered !! i = Some fs /\ nf_filespace_uuid fs = id.
Proof.
  intros Hs. unfold locate. rewrite list_find_Some. split.
  - intros [(H & _) ->]. done.
  - intros [H <-]. split; [|done]. split; [done|]. split.
    + apply bytes_leb_refl.
    + intros j y Hj Hji Hle. destruct (Hs j i y fs Hji Hj H) as [H1 H2]. apply H2, fs_le_anti; done.
Qed.

(** ** Page zero of the files *)

(** A file whose reads give bytes. *)
Definition byte_device (d : device_view) : Prop :=
  forall offset count bytes, dev_read d offset count = Some bytes -> Forall is_byte bytes.

Lemma read_exactly_some d offset count bytes :
  read_exactly d offset count = Some bytes <-> dev_read d offset count = Some bytes /\ length bytes = count.
Proof.
  unfold read_exactly. destruct (dev_read d offset count) as [b|]; [|naive_solver]. case_decide as H; naive_solver.
Qed.

Section chain.
Context (sha256 : hash_provider) (Hsha : digest_size sha256).

Lemma decoded_zero_size l capacity expected v :
  DecodeValues sha256 l capacity expected = Some (inr v) ->
  N.of_nat (length l) = bt_page_size_bytes (pz_bootstrap v) /\ 8192 <= bt_page_size_bytes (pz_bootstrap v) <= 131072.
Proof. intros H. apply decode_zero_inv in H as (Hp & Hl & _). apply decoded_preamble in Hp as (_ & _ & Hs). done. Qed.

(** The record of page zero as the file has it: decoded from its first page, of the
    filespace it was asked for, and as long as the file. *)
Definition zero_of_file (binding : FilespaceBootstrapBinding) (d : device_view) (v : FilespacePageZero) : Prop :=
  zero_bound v binding /\ exists bytes,
    read_exactly d 0 (N.to_nat (bt_page_size_bytes (pz_bootstrap v))) = Some bytes /\
    DecodeValues sha256 bytes (Some 32) (Some binding) = Some (inr v) /\
    dev_size_before d = Some ((pz_total_pages v * bt_page_size_bytes (pz_bootstrap v)) mod u64_modulus) /\
    dev_size_after d = dev_size_before d.

Lemma metadata_zero binding d :
  byte_device d ->
  exists r, ReadNativeMetadataPageZero sha256 binding d = Some r /\ forall v, r = inr v -> zero_of_file binding d v.
Proof.
  intros Hd. unfold ReadNativeMetadataPageZero.
  destruct (read_exactly d 0 common_offset) as [prefix|] eqn:Hr; [|by eexists]. apply read_exactly_some in Hr as [Hr Hlen].
  destruct (decode_preamble_total sha256 prefix (Some binding)) as [[e|h] Hp]; rewrite Hp; cbn [mbind option_bind]; [by eexists|].
  destruct (decode_bootstrap_iff sha256 prefix (Some binding)) as (r & Hr' & Hiff). rewrite Hp in Hr'. injection Hr' as <-.
  destruct (proj1 (Hiff h) eq_refl) as (Hf & Hh & Hv).
  assert (Hh' : bootstrap_sized h).
  { rewrite Hh. apply bootstrap_of_sized; [by eapply Hd|apply Hf]. }
  destruct (decoded_preamble sha256 _ _ _ Hp) as (_ & _ & Hs).
  rewrite (encode_bootstrap sha256 Hsha h Hh'). destruct (decide (_ <> bte_none)); cbn [mbind option_bind]; [by eexists|].
  destruct (sha256 (bootstrap_covered h)) as [digest|]; cbn [mbind option_bind]; [|by eexists].
  destruct (dev_size_before d) as [before|] eqn:Hb; [|by eexists]. case_decide; [by eexists|].
  destruct (read_exactly d 0 (N.to_nat (bt_page_size_bytes h))) as [bytes|] eqn:Hpage; [|by eexists].
  apply read_exactly_some in Hpage as [Hpage Hbytes].
  assert (Hroom : (directory_offset + 80 * 32 <= length bytes)%nat) by (apply count_room; lia).
  destruct offsets as (_ & _ & Hoff).
  rewrite (load_bytes_some 0 common_offset) by (rewrite Hoff in Hroom; revert Hroom; generalize common_offset; intros; lia).
  cbn [mbind option_bind]. destruct (decide (_ <> slice 0 _ bytes)); [by eexists|].
  unfold DecodeFilespacePageZeroInto. cbn [bk_sound bk_entries negb].
  destruct (decode_zero_total sha256 bytes (Some 32) (Some binding)) as [[e|v] Hz]; rewrite Hz; cbn [mbind option_bind]; [by eexists|].
  destruct (dev_size_after d) as [after|] eqn:Ha; [|by eexists]. destruct (decide (before <> after \/ _)) as [|Hn]; [by eexists|].
  apply Decidable.not_or in Hn as [H1 H2]. apply dec_stable in H1, H2. subst after.
  eexists. split; [reflexivity|]. intros v' [= <-]. destruct (decode_zero_bound sha256 _ _ _ _ Hz) as [_ Hbound].
  destruct (decoded_zero_size _ _ _ _ Hz) as [Hsz _]. assert (Heq : bt_page_size_bytes h = bt_page_size_bytes (pz_bootstrap v)) by lia.
  split; [done|]. exists bytes. rewrite <- Heq. split; [apply read_exactly_some; done|]. split; [done|]. rewrite Hb, Ha. split; [by f_equal|done].
Qed.

Context (first final : nat -> device_view) (database : Uuid) (head : FilespaceRootReference) (maximum : N).
Context (root_sha256 : option (list N)) (historical : option (list NativeInventoryHistoricalPageZero)).
(** Reads of the files give bytes. *)
Context (Hfirst : forall n, byte_device (first n)).

Definition file_binding (fs : NativeFilespaceDevice) : FilespaceBootstrapBinding :=
  mkBootstrapBinding database (nf_filespace_uuid fs) (nf_page_size_profile_uuid fs).

(** What the reader knows of a file whose page zero it took. *)
Definition zero_known (fs : NativeFilespaceDevice) (q : FilespacePageZero * N) : Prop :=
  zero_bound q.1 (file_binding fs) /\ 8192 <= bt_page_size_bytes (pz_bootstrap q.1) <= 131072 /\
  (historical = None -> zero_of_file (file_binding fs) (view_of first fs) q.1).

Lemma load_zero_spec context fs :
  context <= maximum ->
  exists r, load_zero sha256 first database maximum historical context fs = Some r /\
    forall v observed context', r = inr (v, observed, context') -> zero_known fs (v, observed) /\ context' <= maximum.
Proof.
  intros Hc. unfold load_zero, zero_known. fold (file_binding fs). destruct historical as [images|].
  - destruct (historical_image images (nf_filespace_uuid fs)) as [image|]; [|by eexists].
    destruct (FindCanonicalFilespacePageProfile _) as [profile|]; [|by eexists].
    destruct (decide (_ <> cfp_page_size_bytes profile)); [by eexists|].
    destruct (decide ((maximum - context) / 3 < _)) as [|Hb]; [by eexists|].
    unfold DecodeFilespacePageZeroInto. cbn [bk_sound bk_entries negb].
    destruct (decode_zero_total sha256 image (Some 32) (Some (file_binding fs))) as [[e|v] Hz]; rewrite Hz; cbn [mbind option_bind]; [by eexists|].
    case_decide; [by eexists|]. destruct (dev_size_before _) as [observed|]; [|by eexists]. case_decide; [by eexists|].
    case_decide; [by eexists|]. eexists. split; [reflexivity|]. intros v' o' c' [= <- <- <-].
    pose proof (N.Div0.mul_div_le (maximum - context) 3). split; [|lia].
    split; [by apply (decode_zero_bound sha256 _ _ _ _ Hz)|]. split; [by eapply decoded_zero_size|done].
  - destruct (metadata_zero (file_binding fs) (view_of first fs)) as (r & -> & Hz); [apply Hfirst|]. cbn [mbind option_bind].
    destruct r as [e|v]; [by eexists|]. eexists. split; [reflexivity|]. intros v' o' c' [= <- <- <-]. specialize (Hz v eq_refl).
    split; [|done]. split; [apply Hz|]. split; [|done]. destruct Hz as (_ & bytes & _ & Hz & _). by eapply decoded_zero_size.
Qed.

Lemma load_zeros_spec context fss :
  context <= maximum ->
  exists r, load_zeros sha256 first database maximum historical context fss = Some r /\
    forall zeros context', r = inr (zeros, context') -> Forall2 zero_known fss zeros /\ context' <= maximum.
Proof.
  revert context. induction fss as [|fs fss IH]; intros context Hc; cbn [load_zeros].
  { eexists. split; [reflexivity|]. intros zeros c' [= <- <-]. by split. }
  destruct (load_zero_spec context fs Hc) as (r & -> & Hr). cbn [mbind option_bind]. destruct r as [f|[[v observed] c1]]; [by eexists|].
  destruct (Hr v observed c1 eq_refl) as [Hz Hc1]. destruct (IH c1 Hc1) as (r & -> & Hrest). cbn [mbind option_bind].
  eexists. split; [reflexivity|]. intros zeros c'. destruct r as [|[zs c2]]; [done|]. intros [= <- <-].
  destruct (Hrest zs c2 eq_refl). split; [by constructor|done].
Qed.
End chain.

(** ** The walk along the chain

    One step reads the page a reference leads to and compares it with the pages before
    it; the state of the walk is a function of those pages. *)

(** ** Pages and the state they leave *)

Definition page_slot (c : NativeInventoryChainPageView) : Uuid * N :=
  (ph_filespace_uuid (np_header (cp_page c)), ph_page_number (np_header (cp_page c))).
Definition page_id (c : NativeInventoryChainPageView) : Uuid := ph_page_uuid (np_header (cp_page c)).
Definition page_entries (c : NativeInventoryChainPageView) : list TransactionInventoryEntry := inv_entries (np_inventory (cp_page c)).
Definition image_bytes (pages : list NativeInventoryChainPageView) : N :=
  foldr (fun c n => N.of_nat (length (cp_image c)) + n) 0 pages.
Definition chain_entries (pages : list NativeInventoryChainPageView) : list TransactionInventoryEntry := mjoin (page_entries <$> pages).

(** The counters are those of the first page. *)
Definition state_of (context : N) (pages : list NativeInventoryChainPageView) : chain_state :=
  mkChainState pages (chain_entries pages) (page_slot <$> pages) (page_id <$> pages) (context + image_bytes pages)
    (match pages with [] => 0 | c :: _ => inv_next_local_transaction_id (np_inventory (cp_page c)) end)
    (match pages with [] => 0 | c :: _ => inv_next_commit_sequence (np_inventory (cp_page c)) end).

Lemma image_bytes_app a b : image_bytes (a ++ b) = image_bytes a + image_bytes b.
Proof. unfold image_bytes. induction a as [|c a IH]; cbn [app foldr]; [done|]. rewrite IH. lia. Qed.

Lemma chain_entries_snoc pages c : chain_entries (pages ++ [c]) = chain_entries pages ++ page_entries c.
Proof. unfold chain_entries. rewrite fmap_app, join_app. cbn. by rewrite app_nil_r. Qed.

Section walk.
Context (sha256 : hash_provider) (first : nat -> device_view) (database : Uuid) (head : FilespaceRootReference) (maximum : N).
Context (root_sha256 : option (list N)).
Context (ordered : list NativeFilespaceDevice) (zeros : list (FilespacePageZero * N)).
Context (Hordered : strictly_ordered ordered).
Context (Hzeros : Forall2 (fun _ q => 8192 <= bt_page_size_bytes (pz_bootstrap q.1) <= 131072) ordered zeros).

(** The file of a filespace holds [image] at the page a reference names. *)
Definition page_at (r : NativePageReference) (image : list N) : Prop :=
  exists i fs q, ordered !! i = Some fs /\ zeros !! i = Some q /\
    nf_filespace_uuid fs = pr_filespace_uuid r /\ nf_page_size_profile_uuid fs = pr_page_size_profile_uuid r /\
    bt_filespace_role (pz_bootstrap q.1) <= 4 /\ pr_page_number r < pz_total_pages q.1 /\
    N.land (bt_flags (pz_bootstrap q.1)) 1 = 0 /\
    read_exactly (view_of first fs) ((pr_page_number r * bt_page_size_bytes (pz_bootstrap q.1)) mod u64_modulus)
      (N.to_nat (bt_page_size_bytes (pz_bootstrap q.1))) = Some image.

(** Decoding in the reader's memory is decoding. *)
Lemma decode_in_room bytes n :
  LoadLittle32 184 bytes = Some n ->
  let count := N.min n ((N.of_nat (length bytes) - 384) / kEntryBytes) in
  DecodeNativeTransactionInventoryPageInto sha256 bytes (mkBacking true count count count 0) =
  DecodeNativeTransactionInventoryPage sha256 bytes.
Proof.
  intros Hn count. unfold DecodeNativeTransactionInventoryPageInto. cbn [bk_sound bk_entries bk_indices bk_markers negb].
  apply decode_borrowed. intros m. rewrite Hn. intros [= <-] Hm. lia.
Qed.

(** What a decoded page says of its image. *)
Lemma decoded_page bytes p :
  DecodeNativeTransactionInventoryPage sha256 bytes = Some (inr p) ->
  DecodeNativeCommonPageHeader (take 128 bytes) None = Some (inr (np_header p)) /\ slice 128 8 bytes = kNativeMagic /\
  ascending 0 (inv_entries (np_inventory p)) = true.
Proof.
  intros H. apply decode_frame in H as (header & count & Hh & _ & _ & Hf & Hi).
  apply decode_inventory_inv in Hi as (es & h & Hr); [|done|apply Hf]. rewrite (ir_header _ _ _ _ _ _ _ Hr).
  split; [done|]. split; [apply Hf|]. by destruct (ir_ok _ _ _ _ _ _ _ Hr).
Qed.

(** The page at [r] decodes and is in the clear. *)
Definition readable (r : NativePageReference) (c : NativeInventoryChainPageView) : Prop :=
  page_at r (cp_image c) /\ DecodeNativeTransactionInventoryPage sha256 (cp_image c) = Some (inr (cp_page c)) /\
  N.land (ph_flags (np_header (cp_page c))) 1 = 0.

Ltac refused := eexists; split; [reflexivity|]; intros ?c; split; [done|].

Lemma decode_fetched_spec st bytes :
  (8192 <= N.of_nat (length bytes)) ->
  exists r, decode_fetched sha256 st bytes = Some r /\
    forall c, r = inr c <-> cp_image c = bytes /\ DecodeNativeTransactionInventoryPage sha256 bytes = Some (inr (cp_page c)) /\
                             N.land (ph_flags (np_header (cp_page c))) 1 = 0.
Proof.
  intros Hlen. unfold decode_fetched.
  destruct (decode_header_iff (take 128 bytes) None) as (header & Hheader & _). rewrite Hheader. cbn [mbind option_bind].
  destruct header as [e|header].
  { refused. intros (_ & H & _). apply decoded_page in H as [H _]. by rewrite Hheader in H. }
  assert (Hflags : forall p, DecodeNativeTransactionInventoryPage sha256 bytes = Some (inr p) ->
    np_header p = header /\ slice 128 8 bytes = kNativeMagic).
  { intros p H. apply decoded_page in H as (H & Hm & _). rewrite Hheader in H. by injection H as ->. }
  destruct (decide (N.land (ph_flags header) 1 <> 0)) as [Hfl|Hfl].
  { refused. intros (_ & H & Hf). apply Hflags in H as [<- _]. done. }
  apply dec_stable in Hfl. rewrite (load_bytes_some 128 8) by lia. cbn [mbind option_bind].
  destruct (decide (_ /\ _)) as [[_ Hm]|Hm]; [refused; intros (_ & H & _); apply Hflags in H as [_ H]; by rewrite H in Hm|].
  assert (Hn : LoadLittle32 184 bytes = Some (le_value (slice 184 4 bytes))).
  { unfold LoadLittle32. rewrite (load_bytes_some 184 4) by lia. done. }
  rewrite Hn. cbn [mbind option_bind]. rewrite (decode_in_room bytes _ Hn).
  destruct (decode_native_total sha256 bytes None ValidateLocalTransactionInventoryStructure) as [d Hdec].
  change (DecodeNativeTransactionInventoryPage sha256 bytes = Some d) in Hdec. rewrite Hdec. cbn [mbind option_bind].
  destruct d as [e|p]; [refused; by intros (_ & H & _)|].
  eexists. split; [reflexivity|]. intros c. split.
  - intros [= <-]. cbn [cp_image cp_page]. destruct (Hflags p Hdec) as [-> _]. done.
  - intros (Hc & [= Hp] & _). destruct c; cbn in *. by subst.
Qed.

Lemma page_at_located next i fs image :
  locate ordered (pr_filespace_uuid next) = Some (i, fs) -> page_at next image ->
  exists q, zeros !! i = Some q /\ nf_filespace_uuid fs = pr_filespace_uuid next /\
    nf_page_size_profile_uuid fs = pr_page_size_profile_uuid next /\
    bt_filespace_role (pz_bootstrap q.1) <= 4 /\ pr_page_number next < pz_total_pages q.1 /\ N.land (bt_flags (pz_bootstrap q.1)) 1 = 0 /\
    read_exactly (view_of first fs) ((pr_page_number next * bt_page_size_bytes (pz_bootstrap q.1)) mod u64_modulus)
      (N.to_nat (bt_page_size_bytes (pz_bootstrap q.1))) = Some image.
Proof.
  intros Hloc (j & gs & q & H1 & H2 & H3 & H4 & Hrest).
  destruct (proj2 (locate_iff ordered (pr_filespace_uuid next) j gs Hordered) (conj H1 H3)) as [H _]. rewrite Hloc in H. injection H as <- <-.
  by exists q.
Qed.

Lemma fetch_spec st next :
  exists r, fetch_page sha256 first maximum ordered zeros st next = Some r /\
    forall c, r = inr c <-> readable next c /\ ~ (pr_filespace_uuid next, pr_page_number next) ∈ cs_slots st /\
                             cs_retained st + N.of_nat (length (cp_image c)) <= maximum.
Proof.
  unfold fetch_page. destruct (locate ordered (pr_filespace_uuid next)) as [[i fs]|] eqn:Hloc.
  2: { refused. intros (((i & fs & q & H1 & _ & H2 & _) & _) & _).
       destruct (proj2 (locate_iff ordered (pr_filespace_uuid next) i fs Hordered) (conj H1 H2)) as [H _]. by rewrite Hloc in H. }
  pose proof (fun image => page_at_located next i fs image Hloc) as Hat.
  destruct (decide (_ \/ _)) as [Hd|Hd]; [refused; intros ((H & _) & _); apply Hat in H as (q & _ & H1 & H2 & _); tauto|].
  apply Decidable.not_or in Hd as [D1 D2]. apply dec_stable in D1, D2.
  destruct (proj1 (locate_iff ordered (pr_filespace_uuid next) i fs Hordered) (conj Hloc D1)) as [Hi _].
  destruct (Forall2_lookup_l _ _ _ _ _ Hzeros Hi) as (q & Hq & Hsz). rewrite Hq. cbn [fmap option_fmap option_map mbind option_bind].
  assert (Hread : forall c, readable next c ->
    bt_filespace_role (pz_bootstrap q.1) <= 4 /\ pr_page_number next < pz_total_pages q.1 /\ N.land (bt_flags (pz_bootstrap q.1)) 1 = 0 /\
    read_exactly (view_of first fs) ((pr_page_number next * bt_page_size_bytes (pz_bootstrap q.1)) mod u64_modulus)
      (N.to_nat (bt_page_size_bytes (pz_bootstrap q.1))) = Some (cp_image c) /\
    N.of_nat (length (cp_image c)) = bt_page_size_bytes (pz_bootstrap q.1)).
  { intros c (H & _). apply Hat in H as (q' & H & _ & _ & R1 & R2 & R3 & R4). rewrite Hq in H. injection H as <-.
    split_and!; [done..|]. apply read_exactly_some in R4 as [_ R4]. lia. }
  destruct (decide (4 < _ \/ _)) as [Hr|Hr]; [refused; intros (H & _); apply Hread in H as (? & ? & _); lia|].
  destruct (decide (N.land (bt_flags _) 1 <> 0)) as [He|He]; [refused; intros (H & _); by apply Hread in H as (_ & _ & ? & _)|].
  apply dec_stable in He. destruct (decide (_ ∈ cs_slots st)) as [Hs|Hs]; [refused; tauto|].
  destruct (decide (maximum - cs_retained st < _)) as [Hb|Hb]; [refused; intros (H & _ & H'); apply Hread in H as (_ & _ & _ & _ & ?); lia|].
  destruct (read_exactly _ _ _) as [bytes|] eqn:Hbytes; [|refused; intros (H & _); by apply Hread in H as (_ & _ & _ & ? & _)].
  pose proof Hbytes as Hlen. apply read_exactly_some in Hlen as [_ Hlen].
  destruct (decode_fetched_spec st bytes) as (r & -> & Hiff); [lia|]. exists r. split; [done|]. intros c. rewrite Hiff. split.
  - intros (Hc & Hdec & Hfl). rewrite <- Hc in Hbytes, Hlen, Hdec. split; [|split; [done|lia]]. split; [|done].
    exists i, fs, q. split_and!; try done; lia.
  - intros (H & _). pose proof (Hread c H) as (_ & _ & _ & Hc & _). injection Hc as Hc. destruct H as (_ & Hdec & Hfl).
    rewrite <- Hc in Hdec. done.
Qed.

(** ** One step *)

(** The page [c] continues the pages [pre] along the reference [next]. *)
Record continues (context : N) (pre : list NativeInventoryChainPageView) (next : NativePageReference)
    (c : NativeInventoryChainPageView) : Prop := {
  ct_readable : readable next c;
  ct_database : ph_database_uuid (np_header (cp_page c)) = database;
  ct_self : Self (cp_page c) = next;
  ct_object : np_object_uuid (cp_page c) = rt_object_uuid head;
  ct_slot : page_slot c ∉ page_slot <$> pre;
  ct_id : page_id c ∉ page_id <$> pre;
  ct_link : match last pre with
            | None => np_previous (cp_page c) = None /\
                      match root_sha256 with None => True | Some d => sha256 (cp_image c) = Some d end
            | Some prior => np_previous (cp_page c) = Some (Self (cp_page prior)) /\
                      np_inventory_generation (cp_page c) = np_inventory_generation (cp_page prior) /\
                      inv_next_local_transaction_id (np_inventory (cp_page c)) = cs_next_local (state_of context pre) /\
                      inv_next_commit_sequence (np_inventory (cp_page c)) = cs_next_commit (state_of context pre)
            end;
  ct_above : forall prior e es, last (chain_entries pre) = Some prior -> page_entries c = e :: es -> e_local_id prior < e_local_id e;
  ct_budget : context + image_bytes (pre ++ [c]) <= maximum }.

Lemma link_iff context pre c :
  link_error sha256 root_sha256 (state_of context pre) c = nie_none <->
  match last pre with
  | None => np_previous (cp_page c) = None /\ match root_sha256 with None => True | Some d => sha256 (cp_image c) = Some d end
  | Some prior => np_previous (cp_page c) = Some (Self (cp_page prior)) /\
      np_inventory_generation (cp_page c) = np_inventory_generation (cp_page prior) /\
      inv_next_local_transaction_id (np_inventory (cp_page c)) = cs_next_local (state_of context pre) /\
      inv_next_commit_sequence (np_inventory (cp_page c)) = cs_next_commit (state_of context pre)
  end.
Proof.
  unfold link_error. cbn [cs_pages state_of]. destruct (last pre) as [prior|].
  - case_decide as H; (split; [|try done]); intros H'; [done|tauto|].
    apply Decidable.not_or in H as [H1 H]. apply Decidable.not_or in H as [H2 H]. apply Decidable.not_or in H as [H3 H4].
    split_and!; by apply dec_stable.
  - case_decide as H; [split; [done|by intros [? _]]|]. destruct root_sha256 as [d|]; [|by split].
    destruct (sha256 (cp_image c)) as [digest|]; [|split; [done|by intros [_ ?]]]. case_decide as H'; [split; [done|intros [_ [= ?]]; done]|].
    subst digest. by split.
Qed.

Lemma overlap_iff context pre c :
  entries_overlap (state_of context pre) (cp_page c) = false <->
  forall prior e es, last (chain_entries pre) = Some prior -> page_entries c = e :: es -> e_local_id prior < e_local_id e.
Proof.
  unfold entries_overlap, page_entries. cbn [cs_entries state_of]. destruct (last (chain_entries pre)) as [prior|]; [|by split].
  destruct (inv_entries (np_inventory (cp_page c))) as [|e es]; [by split|]. rewrite bool_decide_eq_false, N.nle_gt.
  split; [by intros H p' e' es' [= <-] [= <- _]|]. intros H. by eapply H.
Qed.

Lemma next_state context pre c :
  mkChainState (pre ++ [c]) (chain_entries pre ++ inv_entries (np_inventory (cp_page c)))
    ((page_slot <$> pre) ++ [page_slot c]) ((page_id <$> pre) ++ [page_id c])
    (context + image_bytes pre + N.of_nat (length (cp_image c)))
    (match pre with [] => inv_next_local_transaction_id (np_inventory (cp_page c)) | _ => cs_next_local (state_of context pre) end)
    (match pre with [] => inv_next_commit_sequence (np_inventory (cp_page c)) | _ => cs_next_commit (state_of context pre) end) =
  state_of context (pre ++ [c]).
Proof.
  unfold state_of. rewrite chain_entries_snoc, image_bytes_app, !fmap_app. cbn [fmap list_fmap image_bytes foldr cs_next_local cs_next_commit].
  f_equal; [lia|by destruct pre..].
Qed.

Lemma step_spec context pre next :
  exists r, chain_step sha256 first database head maximum root_sha256 ordered zeros (state_of context pre) next = Some r /\
    forall st, r = inr st <-> exists c, st = state_of context (pre ++ [c]) /\ continues context pre next c.
Proof.
  unfold chain_step. destruct (fetch_spec (state_of context pre) next) as (r & -> & Hf). cbn [mbind option_bind].
  assert (Hget : forall c, continues context pre next c -> r = inr c).
  { intros c [[? ?] ? Hself ? Hslot ? ? ? Hbud]. apply Hf. split; [done|]. rewrite <- Hself. split; [exact Hslot|].
    cbn [cs_retained state_of]. rewrite image_bytes_app in Hbud. cbn [image_bytes foldr] in Hbud. lia. }
  destruct r as [f|c]; [refused; intros (c0 & _ & H); by apply Hget in H|].
  destruct (proj1 (Hf c) eq_refl) as (Hread & Hslot & Hbud). cbn [cs_slots cs_retained state_of] in Hslot, Hbud.
  assert (Honly : forall d, continues context pre next d -> d = c) by (intros d Hd; apply Hget in Hd; congruence). clear Hf Hget.
  destruct (decide (_ \/ _)) as [Hd|Hd].
  { refused. intros (d & _ & H). pose proof (Honly d H) as ->. destruct H. tauto. }
  apply Decidable.not_or in Hd as [D1 D2]. apply Decidable.not_or in D2 as [D2 D3]. apply dec_stable in D1, D2, D3.
  destruct (decide (_ ∈ cs_page_ids _)) as [Hid|Hid].
  { refused. intros (d & _ & H). pose proof (Honly d H) as ->. by destruct H. }
  destruct (decide (link_error _ _ _ _ <> nie_none)) as [Hlink|Hlink].
  { refused. intros (d & _ & H). pose proof (Honly d H) as ->. destruct H as [_ _ _ _ _ _ H _ _]. by apply link_iff in H. }
  apply dec_stable, link_iff in Hlink.
  destruct (entries_overlap _ _) eqn:Hover.
  { refused. intros (d & _ & H). pose proof (Honly d H) as ->. destruct H as [_ _ _ _ _ _ _ H _]. by rewrite (proj2 (overlap_iff context pre c) H) in Hover. }
  assert (Hall : continues context pre next c).
  { split; try done.
    - unfold page_slot. pose proof D2 as HD. unfold Self in HD. by rewrite <- HD in Hslot.
    - by apply (overlap_iff context).
    - rewrite image_bytes_app. cbn [image_bytes foldr]. lia. }
  cbn [cs_pages state_of cs_entries cs_slots cs_page_ids cs_retained].
  assert (Hst : (pr_filespace_uuid next, pr_page_number next) = page_slot c) by (by rewrite <- D2).
  rewrite Hst. pose proof (next_state context pre c) as Hnext.
  destruct pre as [|c0 pre]; (eexists; split; [reflexivity|]; intros st; split;
    [intros [= <-]; exists c; split; [exact Hnext|done] | intros (d & -> & H); pose proof (Honly d H) as ->; f_equal; exact Hnext]).
Qed.

(** ** The whole walk *)

(** The reference that leads past [pages]: the first one, or the link of the last page. *)
Definition reference_after (next : NativePageReference) (pages : list NativeInventoryChainPageView) : option NativePageReference :=
  match last pages with None => Some next | Some c => np_next (cp_page c) end.

(** [rest] is the chain that starts at [next], after the pages [pre]. *)
Definition chain_from (context : N) (pre : list NativeInventoryChainPageView) (next : NativePageReference)
    (rest : list NativeInventoryChainPageView) : Prop :=
  (forall before c after, rest = before ++ c :: after ->
     exists r, reference_after next before = Some r /\ continues context (pre ++ before) r c) /\
  reference_after next rest = None.

Lemma reference_after_cons next n c pages :
  np_next (cp_page c) = Some n -> reference_after next (c :: pages) = reference_after n pages.
Proof. intros H. unfold reference_after. destruct pages as [|d pages]; [done|]. rewrite last_cons_cons. by destruct (last (d :: pages)) eqn:E; [|apply last_None in E]. Qed.

Lemma chain_from_cons context pre next c rest :
  chain_from context pre next (c :: rest) <->
  continues context pre next c /\
  match np_next (cp_page c) with None => rest = [] | Some n => chain_from context (pre ++ [c]) n rest end.
Proof.
  split.
  - intros [H Hlast]. split.
    { destruct (H [] c rest eq_refl) as (r & [= <-] & Hc). by rewrite app_nil_r in Hc. }
    destruct (np_next (cp_page c)) as [n|] eqn:Hn.
    + split; [|by rewrite (reference_after_cons next n) in Hlast]. intros before d after ->.
      destruct (H (c :: before) d after eq_refl) as (r & Hr & Hd). exists r. rewrite (reference_after_cons next n) in Hr by done.
      by rewrite <- app_assoc.
    + destruct rest as [|d rest]; [done|]. destruct (H [c] d rest eq_refl) as (r & Hr & _). unfold reference_after in Hr. cbn in Hr. congruence.
  - intros [Hc Hrest]. destruct (np_next (cp_page c)) as [n|] eqn:Hn.
    + destruct Hrest as [H Hlast]. split; [|by rewrite (reference_after_cons next n)]. intros [|b before] d after Heq.
      * injection Heq as <- _. exists next. by rewrite app_nil_r.
      * injection Heq as <- ->. destruct (H before d after eq_refl) as (r & Hr & Hd). exists r.
        rewrite (reference_after_cons next n) by done. by rewrite <- app_assoc in Hd.
    + subst rest. split; [|done]. intros [|b before] d after Heq; [injection Heq as <- _; exists next; by rewrite app_nil_r|].
      injection Heq as _ Heq. by destruct before.
Qed.

Abbreviation walk := (walk_chain sha256 first database head maximum root_sha256).

Lemma walk_chain_sound fuel context pre next st :
  walk fuel ordered zeros (state_of context pre) next = Some (inr st) ->
  exists rest, st = state_of context (pre ++ rest) /\ chain_from context pre next rest.
Proof.
  revert pre next. induction fuel as [|fuel IH]; intros pre next; cbn [walk_chain]; [done|].
  destruct (step_spec context pre next) as (r & -> & Hr). cbn [mbind option_bind]. destruct r as [|st1]; [done|].
  destruct (proj1 (Hr st1) eq_refl) as (c & -> & Hc). cbn [cs_pages state_of]. rewrite last_snoc. cbn [mbind option_bind].
  destruct (np_next (cp_page c)) as [n|] eqn:Hn.
  - intros H. apply IH in H as (rest & -> & Hrest). exists (c :: rest). rewrite <- app_assoc. split; [done|].
    apply chain_from_cons. by rewrite Hn.
  - intros [= <-]. exists [c]. split; [done|]. apply chain_from_cons. by rewrite Hn.
Qed.

Lemma walk_chain_complete fuel context pre next rest :
  chain_from context pre next rest -> (length rest <= fuel)%nat ->
  walk fuel ordered zeros (state_of context pre) next = Some (inr (state_of context (pre ++ rest))).
Proof.
  revert pre next rest. induction fuel as [|fuel IH]; intros pre next [|c rest] H Hl; cbn [length] in Hl; [by destruct H|lia|by destruct H|].
  apply chain_from_cons in H as [Hc Hrest]. cbn [walk_chain]. destruct (step_spec context pre next) as (r & -> & Hr). cbn [mbind option_bind].
  assert (r = inr (state_of context (pre ++ [c]))) as -> by (apply Hr; by exists c).
  cbn [cs_pages state_of]. rewrite last_snoc. cbn [mbind option_bind]. destruct (np_next (cp_page c)) as [n|].
  - change (mkChainState _ _ _ _ _ _ _) with (state_of context (pre ++ [c])). rewrite (IH _ _ rest) by (done || lia). by rewrite <- app_assoc.
  - by subst rest.
Qed.

Lemma readable_size next c : readable next c -> 8192 <= N.of_nat (length (cp_image c)).
Proof.
  intros ((i & fs & q & Hi & Hq & _ & _ & _ & _ & _ & H) & _). apply read_exactly_some in H as [_ H].
  pose proof (Forall2_lookup_lr _ _ _ _ _ _ Hzeros Hi Hq) as Hs. cbn beta in Hs. lia.
Qed.

(** With fuel for the allowance the walk ends. *)
Lemma walk_chain_total fuel context pre next :
  context + image_bytes pre <= maximum -> maximum - (context + image_bytes pre) < 8192 * N.of_nat fuel ->
  is_Some (walk fuel ordered zeros (state_of context pre) next).
Proof.
  revert pre next. induction fuel as [|fuel IH]; intros pre next Hle Hf; [lia|]. cbn [walk_chain].
  destruct (step_spec context pre next) as (r & -> & Hr). cbn [mbind option_bind]. destruct r as [|st1]; [by eexists|].
  destruct (proj1 (Hr st1) eq_refl) as (c & -> & Hc). cbn [cs_pages state_of]. rewrite last_snoc. cbn [mbind option_bind].
  destruct (np_next (cp_page c)) as [n|]; [|by eexists]. change (mkChainState _ _ _ _ _ _ _) with (state_of context (pre ++ [c])).
  destruct Hc as [Hread _ _ _ _ _ _ _ Hbud]. apply readable_size in Hread. apply IH; [done|].
  rewrite image_bytes_app in *. cbn [image_bytes foldr] in *. lia.
Qed.

Lemma chain_length context pre next rest :
  chain_from context pre next rest -> 8192 * N.of_nat (length rest) <= image_bytes rest.
Proof.
  revert pre next. induction rest as [|c rest IH]; intros pre next H; [cbn; lia|]. apply chain_from_cons in H as [Hc Hrest].
  destruct Hc as [Hread _ _ _ _ _ _ _ _]. apply readable_size in Hread. cbn [image_bytes foldr length].
  destruct (np_next (cp_page c)) as [n|]; [apply IH in Hrest; unfold image_bytes in Hrest; lia|]. subst rest. cbn. lia.
Qed.

(** ** What the pages of a chain have in common *)

Lemma ascending_app (a : N) (l1 l2 : list TransactionInventoryEntry) :
  ascending a l1 = true -> ascending (default a (e_local_id <$> last l1)) l2 = true -> ascending a (l1 ++ l2) = true.
Proof.
  revert a. induction l1 as [|e l1 IH]; intros a; cbn [app ascending last fmap option_fmap option_map default]; [done|].
  rewrite !andb_true_iff. intros [He H1] H2. split; [done|]. apply IH; [done|]. destruct l1 as [|f l1]; [exact H2|].
  rewrite last_cons_cons in H2. destruct (last (f :: l1)) eqn:E; [exact H2|by apply last_None in E].
Qed.

Lemma chain_invariants context pre next rest :
  chain_from context pre next rest ->
  NoDup (page_slot <$> pre) -> NoDup (page_id <$> pre) -> ascending 0 (chain_entries pre) = true ->
  NoDup (page_slot <$> pre ++ rest) /\ NoDup (page_id <$> pre ++ rest) /\ ascending 0 (chain_entries (pre ++ rest)) = true /\
  (rest <> [] -> context + image_bytes (pre ++ rest) <= maximum).
Proof.
  revert pre next. induction rest as [|c rest IH]; intros pre next H H1 H2 H3; [by destruct H|].
  apply chain_from_cons in H as [Hc Hrest].
  assert (N1 : NoDup (page_slot <$> pre ++ [c])).
  { rewrite fmap_app. apply NoDup_app. split; [done|]. split; [|by apply NoDup_singleton]. cbn [fmap list_fmap].
    intros x Hx ->%list_elem_of_singleton. by apply (ct_slot _ _ _ _ Hc). }
  assert (N2 : NoDup (page_id <$> pre ++ [c])).
  { rewrite fmap_app. apply NoDup_app. split; [done|]. split; [|by apply NoDup_singleton]. cbn [fmap list_fmap].
    intros x Hx ->%list_elem_of_singleton. by apply (ct_id _ _ _ _ Hc). }
  assert (N3 : ascending 0 (chain_entries (pre ++ [c])) = true).
  { rewrite chain_entries_snoc. apply ascending_app; [done|]. destruct Hc as [(_ & Hd & _) _ _ _ _ _ _ Habove _].
    apply decoded_page in Hd as (_ & _ & Ha). fold (page_entries c) in Ha.
    destruct (last (chain_entries pre)) as [prior|]; cbn [fmap option_fmap option_map default]; [|done].
    destruct (page_entries c) as [|e es]; [done|]. cbn [ascending] in *. apply andb_true_iff in Ha as [_ Ha]. rewrite Ha, andb_true_r.
    specialize (Habove prior e es eq_refl eq_refl). apply negb_true_iff, bool_decide_eq_false. apply N.nle_gt. exact Habove. }
  destruct (np_next (cp_page c)) as [n|].
  - apply IH in Hrest as (R1 & R2 & R3 & R4); [|done..]. rewrite <- app_assoc in R1, R2, R3, R4. split_and!; [done..|].
    intros _. destruct rest; [apply (ct_budget _ _ _ _ Hc)|by apply R4].
  - subst rest. split_and!; [done..|]. intros _. apply (ct_budget _ _ _ _ Hc).
Qed.

(** Neighbours point at each other. *)
Lemma chain_links context next pages i a b :
  chain_from context [] next pages -> pages !! i = Some a -> pages !! S i = Some b ->
  np_next (cp_page a) = Some (Self (cp_page b)) /\ np_previous (cp_page b) = Some (Self (cp_page a)) /\
  np_inventory_generation (cp_page b) = np_inventory_generation (cp_page a).
Proof.
  intros [H _] Ha Hb. pose proof (take_drop_middle pages (S i) b Hb) as Hp. symmetry in Hp.
  destruct (H _ _ _ Hp) as (r & Hr & Hc). cbn [app] in Hc. pose proof (take_S_r pages i a Ha) as Ht.
  unfold reference_after in Hr. rewrite Ht, last_snoc in Hr. destruct Hc as [_ _ Hself _ _ _ Hlink _ _]. rewrite Ht, last_snoc in Hlink.
  destruct Hlink as (Hprev & Hgen & _). rewrite Hr, Hself. done.
Qed.
End walk.
