(* ===== verification/TableContent.v ===== *)
(** * Table content generations

    Models [table_content_generation.{hpp,cpp}] of [src/project/src/transaction/mga]:
    which published generation of a table's content a reader sees, given the
    catalog's history of publication batches, the recorded savepoint rollbacks and
    the transaction inventory.  Ids are arrays of sixteen bytes, here lists.
    [std::lower_bound] is the partition point of a partitioned range.  Allocation
    failure, the only source of [resource_exhausted], is not modelled. *)

From S2P Require Import Prelude Platform Uuid TransactionState Inventory RowVersion.

Definition ContentGenerationUuid : Type := list N.

Record TableContentGenerationVersion := mkTableVersion {
  tg_database_uuid : ContentGenerationUuid;
  tg_schema_uuid : ContentGenerationUuid;
  tg_table_uuid : ContentGenerationUuid;
  tg_catalog_row_uuid : ContentGenerationUuid;
  tg_catalog_version_uuid : ContentGenerationUuid;
  tg_generation_uuid : ContentGenerationUuid;
  tg_predecessor_generation_uuid : ContentGenerationUuid;
  tg_root_set_uuid : ContentGenerationUuid;
  tg_statistics_generation_uuid : ContentGenerationUuid;
  tg_batch_uuid : ContentGenerationUuid;
  tg_creator_transaction_uuid : ContentGenerationUuid;
  tg_creator_local_transaction_id : N;
  tg_publication_effect_sequence : N;
  tg_descriptor_generation : N;
  tg_batch_ordinal : N;
  tg_batch_target_count : N }.

Record TableContentGenerationRollbackInterval := mkTableRollback {
  tb_rollback_record_uuid : ContentGenerationUuid;
  tb_creator_transaction_uuid : ContentGenerationUuid;
  tb_creator_local_transaction_id : N;
  tb_effect_sequence_lower_exclusive : N;
  tb_effect_sequence_upper_inclusive : N }.

Record TableContentGenerationReadContext := mkTableReadContext {
  tc_database_uuid : ContentGenerationUuid;
  tc_table_uuid : ContentGenerationUuid;
  tc_reader_transaction_uuid : ContentGenerationUuid;
  tc_snapshot : VisibilitySnapshot }.

Inductive TableContentGenerationSelectionStatus :=
| tss_selected | tss_not_visible | tss_invalid_request | tss_corrupt_history | tss_inventory_required
| tss_recovery_required | tss_cluster_authority_required | tss_resource_exhausted.

#[export] Instance TableContentGenerationSelectionStatus_eq_dec :
  EqDecision TableContentGenerationSelectionStatus.
Proof. solve_decision. Defined.

Record TableContentGenerationSelection := mkTableSelection {
  ts_status : TableContentGenerationSelectionStatus;
  ts_binding : option TableContentGenerationVersion;
  ts_pending_creators : list TransactionIdentity }.

(** ** Helpers *)

(** [Uuid] of the source: version 7 and the RFC variant. *)
Definition ContentUuid (id : ContentGenerationUuid) : bool :=
  bool_decide (N.land (nth 6 id 0) 240 = 112) && bool_decide (N.land (nth 8 id 0) 192 = 128).

Definition NilId (id : ContentGenerationUuid) : bool := forallb (fun b => b =? 0) id.

Definition SelectionFail (code : TableContentGenerationSelectionStatus) : TableContentGenerationSelection :=
  mkTableSelection code None [].

Definition RowState (s : TransactionState) : RowVersionState :=
  match s with
  | ts_committed => rvs_committed
  | ts_archived => rvs_unknown
  | ts_rolled_back | ts_failed_terminal => rvs_rolled_back
  | ts_prepared => rvs_prepared
  | ts_limbo => rvs_limbo
  | ts_recovering => rvs_recovery_required
  | ts_created | ts_active | ts_preparing | ts_committing | ts_rolling_back | ts_read_only_active =>
    rvs_uncommitted
  | ts_none => rvs_unknown
  end.

Abbreviation InventoryIndex := (gmap N TransactionInventoryEntry).

Definition entry_id (e : TransactionInventoryEntry) : ContentGenerationUuid :=
  uuid_bytes (tu_value (ti_transaction_uuid (e_identity e))).

Definition Creator (entries : InventoryIndex) (local : N) (uuid : ContentGenerationUuid)
    : option TransactionInventoryEntry :=
  match entries !! local with
  | Some e => if decide (entry_id e = uuid) then Some e else None
  | None => None
  end.

Definition Fields (v : TableContentGenerationVersion) (database : ContentGenerationUuid) : bool :=
  bool_decide (tg_database_uuid v = database) && ContentUuid (tg_schema_uuid v) &&
  ContentUuid (tg_table_uuid v) && ContentUuid (tg_catalog_row_uuid v) &&
  ContentUuid (tg_catalog_version_uuid v) &&
  bool_decide (tg_catalog_version_uuid v <> tg_catalog_row_uuid v) && ContentUuid (tg_generation_uuid v) &&
  ContentUuid (tg_root_set_uuid v) && ContentUuid (tg_statistics_generation_uuid v) &&
  ContentUuid (tg_batch_uuid v) && ContentUuid (tg_creator_transaction_uuid v) &&
  bool_decide (tg_creator_local_transaction_id v <> 0) &&
  bool_decide (tg_publication_effect_sequence v <> 0) && bool_decide (tg_descriptor_generation v <> 0) &&
  bool_decide (1 <= tg_batch_target_count v) && bool_decide (tg_batch_target_count v <= 65535) &&
  bool_decide (tg_batch_ordinal v < tg_batch_target_count v) &&
  (NilId (tg_predecessor_generation_uuid v) || ContentUuid (tg_predecessor_generation_uuid v)).

(** ** The inventory index *)

Definition entry_indexable (inv : LocalTransactionInventory) (e : TransactionInventoryEntry) : bool :=
  local_id_valid (ti_local_id (e_identity e)) &&
  bool_decide (ti_local_id (e_identity e) < inv_next_local_transaction_id inv) &&
  bool_decide (tu_kind (ti_transaction_uuid (e_identity e)) = uk_transaction) && ContentUuid (entry_id e) &&
  bool_decide (RowState (e_state e) <> rvs_unknown) &&
  bool_decide (ti_scope (e_identity e) = scope_local_node \/ ti_scope (e_identity e) = scope_cluster_global).

(** The loop that fills [entries] and [transaction_ids]; [None] is a refusal. *)
Fixpoint index_entries (inv : LocalTransactionInventory) (l : list TransactionInventoryEntry)
    (entries : InventoryIndex) (ids : gset ContentGenerationUuid) : option InventoryIndex :=
  match l with
  | [] => Some entries
  | e :: l =>
    if negb (entry_indexable inv e) || bool_decide (is_Some (entries !! ti_local_id (e_identity e))) ||
       bool_decide (entry_id e ∈ ids) then None
    else index_entries inv l (<[ti_local_id (e_identity e) := e]> entries) ({[entry_id e]} ∪ ids)
  end.

(** ** Publication batches *)

Record history_scan := mkScan {
  hs_generations : gmap ContentGenerationUuid TableContentGenerationVersion;
  hs_table_rows : gmap ContentGenerationUuid ContentGenerationUuid;
  hs_row_tables : gmap ContentGenerationUuid ContentGenerationUuid;
  hs_batches : gset ContentGenerationUuid;
  hs_catalog_versions : gset ContentGenerationUuid;
  hs_previous_sequence : N }.

Definition scan_start : history_scan := mkScan ∅ ∅ ∅ ∅ ∅ 0.

(** [std::array] comparison, and that of pairs of arrays. *)
Definition id_less (a b : ContentGenerationUuid) : bool := (memcmp a b <? 0)%Z.
Definition target_less (a b : TableContentGenerationVersion) : bool :=
  id_less (tg_schema_uuid a) (tg_schema_uuid b) ||
  negb (id_less (tg_schema_uuid b) (tg_schema_uuid a)) && id_less (tg_table_uuid a) (tg_table_uuid b).

(** [m.emplace(k, v)] followed by the comparison with what the map already held. *)
Definition bound_elsewhere (m : gmap ContentGenerationUuid ContentGenerationUuid)
    (k v : ContentGenerationUuid) : bool :=
  match m !! k with Some v' => bool_decide (v' <> v) | None => false end.

(** The body of the loop over the targets of one batch. *)
Definition target_corrupt (database : ContentGenerationUuid) (first version : TableContentGenerationVersion)
    (ordinal : N) (prior : option TableContentGenerationVersion) (targets : gset ContentGenerationUuid)
    (s : history_scan) : bool :=
  negb (Fields version database) || bool_decide (tg_batch_uuid version <> tg_batch_uuid first) ||
  bool_decide (tg_creator_transaction_uuid version <> tg_creator_transaction_uuid first) ||
  bool_decide (tg_creator_local_transaction_id version <> tg_creator_local_transaction_id first) ||
  bool_decide (tg_publication_effect_sequence version <> tg_publication_effect_sequence first) ||
  bool_decide (tg_batch_target_count version <> tg_batch_target_count first) ||
  bool_decide (tg_batch_ordinal version <> ordinal) || bool_decide (tg_table_uuid version ∈ targets) ||
  bool_decide (tg_catalog_version_uuid version ∈ hs_catalog_versions s) ||
  match prior with Some p => negb (target_less p version) | None => false end ||
  bound_elsewhere (hs_table_rows s) (tg_table_uuid version) (tg_catalog_row_uuid version) ||
  bound_elsewhere (hs_row_tables s) (tg_catalog_row_uuid version) (tg_table_uuid version) ||
  (negb (NilId (tg_predecessor_generation_uuid version)) &&
   match hs_generations s !! tg_predecessor_generation_uuid version with
   | None => true
   | Some parent =>
     bool_decide (tg_table_uuid parent <> tg_table_uuid version) ||
     bool_decide (tg_publication_effect_sequence version <= tg_publication_effect_sequence parent)
   end) ||
  bool_decide (is_Some (hs_generations s !! tg_generation_uuid version)).

Definition record_target (version : TableContentGenerationVersion) (s : history_scan) : history_scan :=
  mkScan (<[tg_generation_uuid version := version]> (hs_generations s))
    (<[tg_table_uuid version := tg_catalog_row_uuid version]> (hs_table_rows s))
    (<[tg_catalog_row_uuid version := tg_table_uuid version]> (hs_row_tables s)) (hs_batches s)
    ({[tg_catalog_version_uuid version]} ∪ hs_catalog_versions s) (hs_previous_sequence s).

Fixpoint check_targets (database : ContentGenerationUuid) (first : TableContentGenerationVersion)
    (ordinal : N) (prior : option TableContentGenerationVersion) (batch : list TableContentGenerationVersion)
    (targets : gset ContentGenerationUuid) (s : history_scan) : option history_scan :=
  match batch with
  | [] => Some s
  | version :: batch =>
    if target_corrupt database first version ordinal prior targets s then None
    else check_targets database first (ordinal + 1) (Some version) batch
           ({[tg_table_uuid version]} ∪ targets) (record_target version s)
  end.

(** The loop over batches; each consumes at least one version. *)
Fixpoint check_batches (fuel : nat) (database : ContentGenerationUuid)
    (history : list TableContentGenerationVersion) (s : history_scan) : option history_scan :=
  match fuel with
  | O => None
  | S fuel =>
    match history with
    | [] => Some s
    | first :: _ =>
      if negb (Fields first database) || bool_decide (tg_batch_ordinal first <> 0) ||
         bool_decide (tg_publication_effect_sequence first <= hs_previous_sequence s) ||
         bool_decide (N.of_nat (length history) < tg_batch_target_count first) ||
         bool_decide (tg_batch_uuid first ∈ hs_batches s) then None
      else
      let s := mkScan (hs_generations s) (hs_table_rows s) (hs_row_tables s)
                 ({[tg_batch_uuid first]} ∪ hs_batches s) (hs_catalog_versions s)
                 (tg_publication_effect_sequence first) in
      let count := N.to_nat (tg_batch_target_count first) in
      match check_targets database first 0 None (take count history) ∅ s with
      | None => None
      | Some s => check_batches fuel database (drop count history) s
      end
    end
  end.

(** ** Rolled back effects *)

Abbreviation effect_intervals := (gmap N (list (N * N))).

Fixpoint collect_rollbacks (entries : InventoryIndex) (l : list TableContentGenerationRollbackInterval)
    (ids : gset ContentGenerationUuid) (effects : effect_intervals)
    : TableContentGenerationSelectionStatus + effect_intervals :=
  match l with
  | [] => inr effects
  | r :: l =>
    if negb (ContentUuid (tb_rollback_record_uuid r)) || negb (ContentUuid (tb_creator_transaction_uuid r)) ||
       bool_decide (tb_effect_sequence_upper_inclusive r <= tb_effect_sequence_lower_exclusive r) ||
       bool_decide (tb_rollback_record_uuid r ∈ ids) then inl tss_corrupt_history
    else match Creator entries (tb_creator_local_transaction_id r) (tb_creator_transaction_uuid r) with
    | None => inl tss_inventory_required
    | Some _ =>
      collect_rollbacks entries l ({[tb_rollback_record_uuid r]} ∪ ids)
        (<[tb_creator_local_transaction_id r :=
             default [] (effects !! tb_creator_local_transaction_id r) ++
             [(tb_effect_sequence_lower_exclusive r, tb_effect_sequence_upper_inclusive r)]]> effects)
    end
  end.

Definition interval_le (a b : N * N) : Prop := fst a < fst b \/ fst a = fst b /\ snd a <= snd b.
#[export] Instance interval_le_dec : RelDecision interval_le.
Proof. intros a b. unfold interval_le. apply _. Defined.

(** The loop that merges sorted intervals in place: [retained] holds the intervals
    kept so far, the last one first. *)
Fixpoint merge_into (retained : list (N * N)) (l : list (N * N)) : list (N * N) :=
  match l with
  | [] => reverse retained
  | (lo, hi) :: l =>
    match retained with
    | (rlo, rhi) :: rest =>
      if decide (lo <= rhi) then merge_into ((rlo, N.max rhi hi) :: rest) l
      else merge_into ((lo, hi) :: retained) l
    | [] => merge_into [(lo, hi)] l
    end
  end.

Definition merge_intervals (l : list (N * N)) : list (N * N) := merge_into [] (merge_sort interval_le l).

Fixpoint lower_bound (sequence : N) (l : list (N * N)) : nat :=
  match l with
  | (lo, _) :: l => if decide (lo < sequence) then S (lower_bound sequence l) else O
  | [] => O
  end.

Definition effect_invalidated (effects : effect_intervals) (local sequence : N) : bool :=
  match effects !! local with
  | None => false
  | Some intervals =>
    match lower_bound sequence intervals with
    | O => false
    | S i => match intervals !! i with Some (_, hi) => bool_decide (sequence <= hi) | None => false end
    end
  end.

(** ** Selection *)

Definition version_metadata (creator : TransactionInventoryEntry) (v : TableContentGenerationVersion)
    : RowVersionMetadata :=
  mkRowVersionMetadata
    (mkRowVersionIdentity (mkRowIdentity (mkTypedUuid uk_row (mkUuid (tg_catalog_row_uuid v))))
       (e_identity creator) (tg_publication_effect_sequence v) (mkUuid (tg_catalog_version_uuid v)))
    (mkChain TypedUuid_default TypedUuid_default kInvalidRowVersionSequence kInvalidRowVersionSequence)
    kInvalidLocalTransactionId (RowState (InventoryVisibilityState creator)) (InventoryVisibilityState creator) true
    (e_commit_sequence creator).

(** The body of the selection loop for a version of the table whose creator is known;
    the set holds the creators already reported as pending. *)
Definition select_version (snapshot : VisibilitySnapshot) (effects : effect_intervals)
    (creator : TransactionInventoryEntry) (v : TableContentGenerationVersion)
    (acc : TableContentGenerationSelection * gset N)
    : TableContentGenerationSelectionStatus + TableContentGenerationSelection * gset N :=
  let '(result, pending) := acc in
  let state := RowState (InventoryVisibilityState creator) in
  if decide (ti_scope (e_identity creator) <> scope_local_node) then inl tss_cluster_authority_required
  else if decide (state = rvs_limbo \/ state = rvs_recovery_required) then inl tss_recovery_required
  else if HasCommittedInventoryOutcome creator &&
          (e_rollback_only creator || (e_evidence_record_required creator && negb (e_evidence_record_written creator)))
  then inl tss_inventory_required
  else if effect_invalidated effects (tg_creator_local_transaction_id v) (tg_publication_effect_sequence v)
  then inr acc
  else
  match vr_decision (EvaluateVisibility (version_metadata creator v) snapshot) with
  | vd_unknown => inl tss_inventory_required
  | vd_requires_recovery => inl tss_recovery_required
  | vd_wait_for_transaction =>
    let id := ti_local_id (e_identity creator) in
    if decide (id ∈ pending) then inr acc
    else inr (mkTableSelection (ts_status result) (ts_binding result)
                (ts_pending_creators result ++ [e_identity creator]), {[id]} ∪ pending)
  | vd_invisible => inr acc
  | vd_visible =>
    if match ts_binding result with
       | Some b => bool_decide (tg_predecessor_generation_uuid v <> tg_generation_uuid b)
       | None => negb (NilId (tg_predecessor_generation_uuid v))
       end then inl tss_corrupt_history
    else inr (mkTableSelection tss_selected (Some v) (ts_pending_creators result), pending)
  end.

Fixpoint select_versions (ctx : TableContentGenerationReadContext) (entries : InventoryIndex)
    (effects : effect_intervals) (history : list TableContentGenerationVersion)
    (acc : TableContentGenerationSelection * gset N)
    : TableContentGenerationSelectionStatus + TableContentGenerationSelection :=
  match history with
  | [] => inr (fst acc)
  | v :: history =>
    if decide (tg_table_uuid v <> tc_table_uuid ctx) then select_versions ctx entries effects history acc
    else match Creator entries (tg_creator_local_transaction_id v) (tg_creator_transaction_uuid v) with
    | None => inl tss_inventory_required
    | Some creator =>
      match select_version (tc_snapshot ctx) effects creator v acc with
      | inl code => inl code
      | inr acc => select_versions ctx entries effects history acc
      end
    end
  end.

Definition request_invalid (ctx : TableContentGenerationReadContext) (inv : LocalTransactionInventory) : bool :=
  negb (ContentUuid (tc_database_uuid ctx)) || negb (ContentUuid (tc_table_uuid ctx)) ||
  negb (vs_visible_through_local_transaction_id_is_boundary (tc_snapshot ctx)) ||
  (if local_id_valid (vs_reader_transaction (tc_snapshot ctx)) then
     negb (ContentUuid (tc_reader_transaction_uuid ctx))
   else negb (NilId (tc_reader_transaction_uuid ctx))) ||
  bool_decide (inv_next_local_transaction_id inv = 0) ||
  bool_decide (inv_next_local_transaction_id inv <= vs_visible_through_local_transaction_id (tc_snapshot ctx)).

(** The reader's own entry, if the snapshot names a reader. *)
Definition reader_refused (ctx : TableContentGenerationReadContext) (entries : InventoryIndex)
    : option TableContentGenerationSelectionStatus :=
  if local_id_valid (vs_reader_transaction (tc_snapshot ctx)) then
    match Creator entries (vs_reader_transaction (tc_snapshot ctx)) (tc_reader_transaction_uuid ctx) with
    | None => Some tss_inventory_required
    | Some reader =>
      if decide (ti_scope (e_identity reader) <> scope_local_node) then Some tss_cluster_authority_required
      else None
    end
  else None.

Definition creators_known (entries : InventoryIndex) (history : list TableContentGenerationVersion) : bool :=
  forallb (fun v => bool_decide (is_Some (Creator entries (tg_creator_local_transaction_id v)
                                            (tg_creator_transaction_uuid v)))) history.

Definition ResolveTableContentGeneration (ctx : TableContentGenerationReadContext)
    (history : list TableContentGenerationVersion) (rollbacks : list TableContentGenerationRollbackInterval)
    (inv : LocalTransactionInventory) : TableContentGenerationSelection :=
  if decide (ValidateLocalTransactionInventoryStructure inv <> ""%string) then SelectionFail tss_inventory_required
  else if request_invalid ctx inv then SelectionFail tss_invalid_request
  else
  match index_entries inv (inv_entries inv) ∅ ∅ with
  | None => SelectionFail tss_inventory_required
  | Some entries =>
    match reader_refused ctx entries with
    | Some code => SelectionFail code
    | None =>
      match check_batches (S (length history)) (tc_database_uuid ctx) history scan_start with
      | None => SelectionFail tss_corrupt_history
      | Some _ =>
        if negb (creators_known entries history) then SelectionFail tss_inventory_required
        else
        match collect_rollbacks entries rollbacks ∅ ∅ with
        | inl code => SelectionFail code
        | inr effects =>
          match select_versions ctx entries (merge_intervals <$> effects) history
                  (mkTableSelection tss_not_visible None [], ∅) with
          | inl code => SelectionFail code
          | inr result => result
          end
        end
      end
    end
  end.
