(* ===== verification/Manager.v ===== *)
(** * The local transaction manager

    Models [transaction_manager.{hpp,cpp}] with its counters
    ([transaction_metrics.{hpp,cpp}]), durable prepare ([transaction_prepare.{hpp,cpp}]),
    the runtime policy ([transaction_policy.{hpp,cpp}]) and the refusal of cluster
    transactions ([cluster_transaction_fail_closed.{hpp,cpp}]).  The manager owns an
    inventory and counters and changes them through the inventory transforms.  The
    memory arena and the publication of metrics to the registry are left out. *)

From S2P Require Import Prelude Platform TransactionState Inventory Horizon RowVersion Snapshot.

(** ** Counters *)

Record TransactionMetricsSnapshot := mkTxnMetrics {
  tm_begin_total : N;
  tm_commit_total : N;
  tm_rollback_total : N;
  tm_abort_total : N;
  tm_active_current : N;
  tm_failure_total : N;
  tm_cluster_fail_closed_total : N }.

Definition TransactionMetricsSnapshot_default : TransactionMetricsSnapshot := mkTxnMetrics 0 0 0 0 0 0 0.

(** The guarded decrement of the active gauge. *)
Definition less_active (n : N) : N := if decide (n <> 0) then u64_sub n 1 else n.

Definition RecordBegin (m : TransactionMetricsSnapshot) : TransactionMetricsSnapshot :=
  mkTxnMetrics (u64_add (tm_begin_total m) 1) (tm_commit_total m) (tm_rollback_total m) (tm_abort_total m)
    (u64_add (tm_active_current m) 1) (tm_failure_total m) (tm_cluster_fail_closed_total m).
Definition RecordCommit (m : TransactionMetricsSnapshot) : TransactionMetricsSnapshot :=
  mkTxnMetrics (tm_begin_total m) (u64_add (tm_commit_total m) 1) (tm_rollback_total m) (tm_abort_total m)
    (less_active (tm_active_current m)) (tm_failure_total m) (tm_cluster_fail_closed_total m).
Definition RecordRollback (m : TransactionMetricsSnapshot) : TransactionMetricsSnapshot :=
  mkTxnMetrics (tm_begin_total m) (tm_commit_total m) (u64_add (tm_rollback_total m) 1) (tm_abort_total m)
    (less_active (tm_active_current m)) (tm_failure_total m) (tm_cluster_fail_closed_total m).
Definition RecordAbort (m : TransactionMetricsSnapshot) : TransactionMetricsSnapshot :=
  mkTxnMetrics (tm_begin_total m) (tm_commit_total m) (tm_rollback_total m) (u64_add (tm_abort_total m) 1)
    (less_active (tm_active_current m)) (tm_failure_total m) (tm_cluster_fail_closed_total m).
Definition RecordFailure (m : TransactionMetricsSnapshot) : TransactionMetricsSnapshot :=
  mkTxnMetrics (tm_begin_total m) (tm_commit_total m) (tm_rollback_total m) (tm_abort_total m)
    (tm_active_current m) (u64_add (tm_failure_total m) 1) (tm_cluster_fail_closed_total m).
Definition RecordClusterFailClosed (m : TransactionMetricsSnapshot) : TransactionMetricsSnapshot :=
  mkTxnMetrics (tm_begin_total m) (tm_commit_total m) (tm_rollback_total m) (tm_abort_total m)
    (tm_active_current m) (tm_failure_total m) (u64_add (tm_cluster_fail_closed_total m) 1).

Definition MetricSamples (m : TransactionMetricsSnapshot) : list (string * N) :=
  [("sb_tx_begin_total", tm_begin_total m); ("sb_tx_commit_total", tm_commit_total m);
   ("sb_tx_rollback_total", tm_rollback_total m); ("sb_tx_abort_total", tm_abort_total m);
   ("sb_tx_active_transactions", tm_active_current m); ("sb_tx_failure_total", tm_failure_total m);
   ("sb_tx_cluster_fail_closed_total", tm_cluster_fail_closed_total m)]%string.

(** ** The manager *)

Record LocalTransactionManager := mkManager {
  lm_inventory : LocalTransactionInventory; lm_metrics : TransactionMetricsSnapshot }.

Record LocalTransactionManagerResult := mkManagerResult {
  lmr_status : Status;
  lmr_inventory : LocalTransactionInventory;
  lmr_entry : TransactionInventoryEntry;
  lmr_metrics : TransactionMetricsSnapshot;
  lmr_diagnostic : DiagnosticRecord }.

Definition lmr_ok (r : LocalTransactionManagerResult) : bool := status_ok (lmr_status r).

Definition manager_of (inv : LocalTransactionInventory) : LocalTransactionManager :=
  mkManager inv TransactionMetricsSnapshot_default.

Definition manager_empty : LocalTransactionManager := manager_of MakeEmptyLocalTransactionInventory.

Definition FromInventoryResult (result : TransactionInventoryResult) (m : LocalTransactionManager)
    : LocalTransactionManagerResult * LocalTransactionManager :=
  let inv := if ir_ok result then ir_inventory result else lm_inventory m in
  let entry := if ir_ok result then ir_entry result else TransactionInventoryEntry_default in
  (mkManagerResult (ir_status result) inv entry (lm_metrics m) (ir_diagnostic result),
   mkManager inv (lm_metrics m)).

(** The common shape of the four operations: count the outcome, then take it over. *)
Definition manager_apply (result : TransactionInventoryResult)
    (record : TransactionMetricsSnapshot -> TransactionMetricsSnapshot) (m : LocalTransactionManager) :=
  FromInventoryResult result
    (mkManager (lm_inventory m)
       (if ir_ok result then record (lm_metrics m) else RecordFailure (lm_metrics m))).

Definition manager_Begin (transaction_uuid : TypedUuid) (begin_unix_epoch_millis : N) (m : LocalTransactionManager) :=
  manager_apply (BeginLocalTransaction (lm_inventory m) transaction_uuid begin_unix_epoch_millis) RecordBegin m.
Definition manager_Commit (local_id : LocalTransactionId) (final_unix_epoch_millis : N) (m : LocalTransactionManager) :=
  manager_apply (CommitLocalTransaction (lm_inventory m) local_id final_unix_epoch_millis) RecordCommit m.
Definition manager_Rollback (local_id : LocalTransactionId) (final_unix_epoch_millis : N) (m : LocalTransactionManager) :=
  manager_apply (RollbackLocalTransaction (lm_inventory m) local_id final_unix_epoch_millis) RecordRollback m.
Definition manager_Abort (local_id : LocalTransactionId) (final_unix_epoch_millis : N) (m : LocalTransactionManager) :=
  manager_apply (AbortLocalTransaction (lm_inventory m) local_id final_unix_epoch_millis) RecordAbort m.

Definition manager_Horizons (m : LocalTransactionManager) : TransactionHorizonResult :=
  ComputeLocalTransactionHorizons (lm_inventory m).
Definition manager_Snapshot (reader : LocalTransactionId) (m : LocalTransactionManager) : TransactionSnapshotResult :=
  CreateLocalTransactionSnapshot (lm_inventory m) reader.

(** ** Durable prepare *)

Record LocalPreparePolicy := mkPreparePolicy {
  pp_local_prepare_enabled : bool; pp_require_evidence_before_prepared_success : bool }.

Definition set_evidence_recorded (e : TransactionInventoryEntry) : TransactionInventoryEntry :=
  mkEntry (e_identity e) (e_state e) (e_archived_from_state e) (e_begin_unix_epoch_millis e)
    (e_final_unix_epoch_millis e) (e_begin_visible_through_local_transaction_id e)
    (e_begin_visible_through_commit_sequence e) (e_commit_sequence e) true true (e_rollback_only e)
    (e_stable_snapshot e).

Definition PrepareLocalTransactionDurable (inv : LocalTransactionInventory) (local_id : LocalTransactionId)
    (policy : LocalPreparePolicy) : TransactionInventoryResult :=
  if negb (pp_local_prepare_enabled policy) then RollbackLocalTransaction inv local_id 0
  else
  let prepared := PrepareLocalTransaction inv local_id in
  if ir_ok prepared && pp_require_evidence_before_prepared_success policy then
    match list_find (fun e => ti_local_id (e_identity e) = local_id) (inv_entries (ir_inventory prepared)) with
    | Some (i, e) =>
      let e := set_evidence_recorded e in
      mkInventoryResult (ir_status prepared)
        (set_entries (<[i := e]> (inv_entries (ir_inventory prepared))) (ir_inventory prepared)) e
        (ir_diagnostic prepared)
    | None => prepared
    end
  else prepared.

Definition CompletePreparedLocalTransactionCommit : LocalTransactionInventory -> LocalTransactionId -> N ->
    TransactionInventoryResult := CommitLocalTransaction.
Definition CompletePreparedLocalTransactionRollback : LocalTransactionInventory -> LocalTransactionId -> N ->
    TransactionInventoryResult := RollbackLocalTransaction.

(** ** Runtime policy *)

Record TransactionRuntimePolicy := mkRuntimePolicy {
  rp_max_active_millis : N;
  rp_max_idle_millis : N;
  rp_fail_closed_on_violation : bool;
  rp_wait_mode : string;
  rp_lock_timeout_millis : N;
  rp_lock_timeout_present : bool }.

Record TransactionPolicyResult := mkPolicyResult {
  pr_status : Status; pr_allowed : bool; pr_diagnostic : DiagnosticRecord }.

Definition DefaultLocalTransactionRuntimePolicy : TransactionRuntimePolicy :=
  mkRuntimePolicy (24 * 60 * 60 * 1000) (60 * 60 * 1000) true "" 0 false.

Definition MakeTransactionPolicyDiagnostic : Status -> string -> string -> string -> DiagnosticRecord :=
  MakeComponentDiagnostic "transaction.mga.policy".

(** More than [limit] milliseconds since [since]; no limit when it is zero. *)
Definition overdue (limit since now : N) : bool :=
  bool_decide (limit <> 0) && bool_decide (since < now) && bool_decide (limit < u64_sub now since).

Definition policy_violation (code key : string) (entry : TransactionInventoryEntry) : TransactionPolicyResult :=
  mkPolicyResult MgaErrorStatus false
    (MakeTransactionPolicyDiagnostic MgaErrorStatus code key (to_string (e_local_id entry))).

Definition EvaluateTransactionRuntimePolicy (entry : TransactionInventoryEntry) (policy : TransactionRuntimePolicy)
    (now_unix_epoch_millis last_activity_unix_epoch_millis : N) : TransactionPolicyResult :=
  if overdue (rp_max_active_millis policy) (e_begin_unix_epoch_millis entry) now_unix_epoch_millis then
    policy_violation "SB-SNTXN-LONG-RUNNING-POLICY-VIOLATION" "transaction.policy.long_running_violation" entry
  else if overdue (rp_max_idle_millis policy) last_activity_unix_epoch_millis now_unix_epoch_millis then
    policy_violation "SB-SNTXN-IDLE-POLICY-VIOLATION" "transaction.policy.idle_violation" entry
  else mkPolicyResult MgaOkStatus true DiagnosticRecord_default.

(** ** Cluster transactions *)

Record ClusterTransactionMetadata := mkClusterMetadata {
  cm_transaction_uuid : TypedUuid;
  cm_cluster_epoch : N;
  cm_decision_generation : N;
  cm_state : TransactionState;
  cm_cluster_authority_active : bool }.

Record ClusterTransactionResult := mkClusterResult {
  clr_status : Status; clr_metadata : ClusterTransactionMetadata; clr_diagnostic : DiagnosticRecord }.

Definition ClusterUnavailableStatus : Status :=
  mkStatus sc_platform_required_feature_missing sev_error sub_cluster_private.

Definition MakeClusterTransactionDiagnostic : Status -> string -> string -> string -> DiagnosticRecord :=
  MakeComponentDiagnostic "transaction.mga.cluster_fail_closed".

Definition ClusterFail (code key : string) (metadata : ClusterTransactionMetadata) (detail : string)
    : ClusterTransactionResult :=
  mkClusterResult ClusterUnavailableStatus metadata
    (MakeClusterTransactionDiagnostic ClusterUnavailableStatus code key detail).

Definition RejectClusterTransactionUntilMappingAvailable (metadata : ClusterTransactionMetadata)
    (operation_name : string) : ClusterTransactionResult :=
  ClusterFail "SB-CLUSTER-MAPPING-UNAVAILABLE" "cluster_transaction.mapping_unavailable" metadata operation_name.
Definition BeginClusterTransactionFailClosed (metadata : ClusterTransactionMetadata) : ClusterTransactionResult :=
  RejectClusterTransactionUntilMappingAvailable metadata "begin_cluster_transaction".
Definition CommitClusterTransactionFailClosed (metadata : ClusterTransactionMetadata) : ClusterTransactionResult :=
  RejectClusterTransactionUntilMappingAvailable metadata "commit_cluster_transaction".
