(* ===== verification/CurrentRowMap.v ===== *)
(** * The current row map

    Models [current_row_map.{hpp,cpp}] of [src/project/src/transaction/mga]: an
    accelerator from row identity to current version, rebuilt from authoritative base
    rows, probed with observed epochs and horizons, and never an authority itself.
    The map argument of a probe is a pointer in the source: [None] is null, and a
    probe returns the map with its counters updated. *)

From S2P Require Import Prelude Platform Uuid TransactionState.

Inductive CurrentRowMapStatus :=
| rms_current | rms_missing | rms_stale | rms_uncertain | rms_incompatible | rms_corrupt.

Inductive CurrentRowMapProvenance :=
| rmp_engine_mga_transaction_inventory | rmp_engine_authoritative_base_rows | rmp_parser_claim
| rmp_client_claim | rmp_reference_claim | rmp_index_or_cache_claim | rmp_unknown.

#[export] Instance CurrentRowMapStatus_eq_dec : EqDecision CurrentRowMapStatus.
Proof. solve_decision. Defined.
#[export] Instance CurrentRowMapProvenance_eq_dec : EqDecision CurrentRowMapProvenance.
Proof. solve_decision. Defined.

Record CurrentRowMapEntry := mkRowMapEntry {
  rme_status : CurrentRowMapStatus;
  rme_provenance : CurrentRowMapProvenance;
  rme_relation_uuid : Uuid;
  rme_row_uuid : Uuid;
  rme_current_version_uuid : Uuid;
  rme_row_generation : N;
  rme_relation_epoch : N;
  rme_catalog_epoch : N;
  rme_security_epoch : N;
  rme_redaction_epoch : N;
  rme_map_generation : N;
  rme_invalidation_generation : N;
  rme_visible_through_local_transaction_id : LocalTransactionId;
  rme_persisted_record_present : bool;
  rme_checksum_valid : bool;
  rme_row_is_current_visible : bool }.

Record CurrentRowMapObservedFacts := mkRowMapFacts {
  rmf_relation_uuid : Uuid;
  rmf_row_uuid : Uuid;
  rmf_relation_epoch : N;
  rmf_catalog_epoch : N;
  rmf_security_epoch : N;
  rmf_redaction_epoch : N;
  rmf_map_generation : N;
  rmf_invalidation_generation : N;
  rmf_reader_visible_through_local_transaction_id : LocalTransactionId;
  rmf_oldest_active_local_transaction_id : LocalTransactionId;
  rmf_durable_mga_inventory_proof : bool;
  rmf_transaction_horizon_authoritative : bool;
  rmf_normal_mga_visibility_authority_available : bool;
  rmf_security_recheck_planned : bool;
  rmf_parser_client_or_reference_authority : bool }.

Record CurrentRowMapCounters := mkRowMapCounters {
  rmc_probes : N;
  rmc_accepted : N;
  rmc_refused : N;
  rmc_stale_refusals : N;
  rmc_epoch_refusals : N;
  rmc_horizon_refusals : N;
  rmc_authority_refusals : N;
  rmc_rebuilds : N }.

Definition CurrentRowMapCounters_default : CurrentRowMapCounters := mkRowMapCounters 0 0 0 0 0 0 0 0.

(** [CurrentRowMapEvidenceField] is a pair of name and value. *)
Record CurrentRowMapDecision := mkRowMapDecision {
  rmd_accepted : bool;
  rmd_current_visible : bool;
  rmd_normal_mga_recheck_required : bool;
  rmd_security_recheck_required : bool;
  rmd_map_is_visibility_authority : bool;
  rmd_map_is_transaction_finality_authority : bool;
  rmd_durable_mga_inventory_remains_authority : bool;
  rmd_row_uuid : Uuid;
  rmd_current_version_uuid : Uuid;
  rmd_evidence_name : string;
  rmd_refusal_reason : string;
  rmd_counters : CurrentRowMapCounters;
  rmd_evidence : list (string * string) }.

Record CurrentRowMap := mkRowMap {
  rm_map_generation : N;
  rm_invalidation_generation : N;
  rm_entries : list CurrentRowMapEntry;
  rm_counters : CurrentRowMapCounters }.

Record CurrentRowAuthoritativeBaseRow := mkBaseRow {
  br_row_uuid : Uuid;
  br_version_uuid : Uuid;
  br_row_generation : N;
  br_visible_through_local_transaction_id : LocalTransactionId;
  br_deleted : bool;
  br_visible : bool }.

Record CurrentRowMapRebuildRequest := mkRebuildRequest {
  rq_relation_uuid : Uuid;
  rq_relation_epoch : N;
  rq_catalog_epoch : N;
  rq_security_epoch : N;
  rq_redaction_epoch : N;
  rq_map_generation : N;
  rq_invalidation_generation : N;
  rq_authoritative_base_rows_proof : bool;
  rq_durable_mga_inventory_proof : bool;
  rq_map_self_authoritative : bool;
  rq_base_rows : list CurrentRowAuthoritativeBaseRow }.

Record CurrentRowMapRebuildResult := mkRebuildResult {
  rb_ok : bool;
  rb_map : CurrentRowMap;
  rb_rebuilt_entry_count : N;
  rb_diagnostic_code : string;
  rb_refusal_reason : string;
  rb_evidence : list (string * string);
  rb_counters : CurrentRowMapCounters }.

Definition EngineProvenance (p : CurrentRowMapProvenance) : bool :=
  bool_decide (p = rmp_engine_mga_transaction_inventory) || bool_decide (p = rmp_engine_authoritative_base_rows).

Definition RowMapMergeCounters (target source : CurrentRowMapCounters) : CurrentRowMapCounters :=
  mkRowMapCounters (u64_add (rmc_probes target) (rmc_probes source))
    (u64_add (rmc_accepted target) (rmc_accepted source)) (u64_add (rmc_refused target) (rmc_refused source))
    (u64_add (rmc_stale_refusals target) (rmc_stale_refusals source))
    (u64_add (rmc_epoch_refusals target) (rmc_epoch_refusals source))
    (u64_add (rmc_horizon_refusals target) (rmc_horizon_refusals source))
    (u64_add (rmc_authority_refusals target) (rmc_authority_refusals source))
    (u64_add (rmc_rebuilds target) (rmc_rebuilds source)).

Definition one_refused := mkRowMapCounters 0 0 1 0 0 0 0 0.
Definition one_accepted := mkRowMapCounters 0 1 0 0 0 0 0 0.
Definition one_stale := mkRowMapCounters 0 0 0 1 0 0 0 0.
Definition one_epoch := mkRowMapCounters 0 0 0 0 1 0 0 0.
Definition one_horizon := mkRowMapCounters 0 0 0 0 0 1 0 0.
Definition one_authority := mkRowMapCounters 0 0 0 0 0 0 1 0.

Definition CurrentRowMapStatusName (s : CurrentRowMapStatus) : string :=
  match s with
  | rms_current => "current" | rms_missing => "missing" | rms_stale => "stale" | rms_uncertain => "uncertain"
  | rms_incompatible => "incompatible" | rms_corrupt => "corrupt"
  end.

Definition CurrentRowMapProvenanceName (p : CurrentRowMapProvenance) : string :=
  match p with
  | rmp_engine_mga_transaction_inventory => "engine_mga_transaction_inventory"
  | rmp_engine_authoritative_base_rows => "engine_authoritative_base_rows"
  | rmp_parser_claim => "parser_claim" | rmp_client_claim => "client_claim"
  | rmp_reference_claim => "reference_claim" | rmp_index_or_cache_claim => "index_or_cache_claim"
  | rmp_unknown => "unknown"
  end.

(** [Refuse], after the counter [why] was incremented. *)
Definition RowMapRefuse (why : CurrentRowMapCounters) (reason : string) (d : CurrentRowMapDecision)
    : CurrentRowMapDecision :=
  mkRowMapDecision false false true true (rmd_map_is_visibility_authority d)
    (rmd_map_is_transaction_finality_authority d) (rmd_durable_mga_inventory_remains_authority d) (rmd_row_uuid d)
    (rmd_current_version_uuid d) "mga_current_row_map.refused" reason
    (RowMapMergeCounters (RowMapMergeCounters (rmd_counters d) why) one_refused) (rmd_evidence d).

Definition RowMapStartDecision (entry : CurrentRowMapEntry) (observed : CurrentRowMapObservedFacts)
    : CurrentRowMapDecision :=
  mkRowMapDecision false false true true false false true Uuid_nil Uuid_nil "mga_current_row_map.refused"
    "not_evaluated" (mkRowMapCounters 1 0 0 0 0 0 0 0)
    [("accelerator", "current_row_map"); ("entry_status", CurrentRowMapStatusName (rme_status entry));
     ("provenance", CurrentRowMapProvenanceName (rme_provenance entry));
     ("authority_source", "durable_mga_transaction_inventory"); ("map_visibility_authority", "false");
     ("map_transaction_finality_authority", "false");
     ("observed_map_generation", to_string (rmf_map_generation observed));
     ("entry_map_generation", to_string (rme_map_generation entry))]%string.

Definition MakeCurrentRowMap (map_generation invalidation_generation : N) : CurrentRowMap :=
  mkRowMap map_generation invalidation_generation [] CurrentRowMapCounters_default.

(** The conditions of the probe, as the source groups them. *)
Definition identities_bind (entry : CurrentRowMapEntry) (observed : CurrentRowMapObservedFacts) : bool :=
  IsEngineIdentityUuid (rme_relation_uuid entry) && IsEngineIdentityUuid (rmf_relation_uuid observed) &&
  IsEngineIdentityUuid (rme_row_uuid entry) && IsEngineIdentityUuid (rmf_row_uuid observed) &&
  IsEngineIdentityUuid (rme_current_version_uuid entry) &&
  bool_decide (rme_relation_uuid entry = rmf_relation_uuid observed) &&
  bool_decide (rme_row_uuid entry = rmf_row_uuid observed).

Definition epochs_present (entry : CurrentRowMapEntry) (observed : CurrentRowMapObservedFacts) : bool :=
  forallb (fun n => bool_decide (n <> 0))
    [rme_row_generation entry; rme_relation_epoch entry; rme_catalog_epoch entry; rme_security_epoch entry;
     rme_redaction_epoch entry; rme_map_generation entry; rme_invalidation_generation entry;
     rmf_relation_epoch observed; rmf_catalog_epoch observed; rmf_security_epoch observed;
     rmf_redaction_epoch observed; rmf_map_generation observed; rmf_invalidation_generation observed].

Definition epochs_match (entry : CurrentRowMapEntry) (observed : CurrentRowMapObservedFacts) : bool :=
  bool_decide (rme_relation_epoch entry = rmf_relation_epoch observed) &&
  bool_decide (rme_catalog_epoch entry = rmf_catalog_epoch observed) &&
  bool_decide (rme_security_epoch entry = rmf_security_epoch observed) &&
  bool_decide (rme_redaction_epoch entry = rmf_redaction_epoch observed) &&
  bool_decide (rme_map_generation entry = rmf_map_generation observed) &&
  bool_decide (rme_invalidation_generation entry = rmf_invalidation_generation observed).

Definition horizon_closed (entry : CurrentRowMapEntry) (observed : CurrentRowMapObservedFacts) : bool :=
  local_id_valid (rme_visible_through_local_transaction_id entry) &&
  local_id_valid (rmf_reader_visible_through_local_transaction_id observed) &&
  local_id_valid (rmf_oldest_active_local_transaction_id observed) &&
  bool_decide (rme_visible_through_local_transaction_id entry <= rmf_reader_visible_through_local_transaction_id observed) &&
  bool_decide (rme_visible_through_local_transaction_id entry < rmf_oldest_active_local_transaction_id observed).

Definition EvaluateCurrentRowMapEntryImpl (entry : CurrentRowMapEntry) (observed : CurrentRowMapObservedFacts)
    : CurrentRowMapDecision :=
  let decision := RowMapStartDecision entry observed in
  if rmf_parser_client_or_reference_authority observed then
    RowMapRefuse one_authority "parser_client_or_reference_authority_forbidden" decision
  else if negb (rmf_durable_mga_inventory_proof observed) || negb (rmf_transaction_horizon_authoritative observed) ||
          negb (rmf_normal_mga_visibility_authority_available observed) then
    RowMapRefuse one_authority "durable_mga_inventory_authority_required" decision
  else if negb (rmf_security_recheck_planned observed) then
    RowMapRefuse one_authority "security_recheck_required" decision
  else if decide (rme_status entry = rms_stale \/ rme_status entry = rms_uncertain \/
                  rme_status entry = rms_incompatible) then
    RowMapRefuse one_stale "current_row_map_not_current" decision
  else if bool_decide (rme_status entry = rms_corrupt) || negb (rme_checksum_valid entry) then
    RowMapRefuse one_stale "current_row_map_corrupt" decision
  else if bool_decide (rme_status entry = rms_missing) || negb (rme_persisted_record_present entry) then
    RowMapRefuse one_stale "current_row_map_missing" decision
  else if negb (EngineProvenance (rme_provenance entry)) then
    RowMapRefuse one_authority "current_row_map_external_provenance_refused" decision
  else if negb (identities_bind entry observed) then
    RowMapRefuse one_epoch "current_row_identity_mismatch" decision
  else if negb (epochs_present entry observed) then
    RowMapRefuse one_epoch "current_row_generation_or_epoch_missing" decision
  else if negb (epochs_match entry observed) then
    RowMapRefuse one_epoch "current_row_generation_or_epoch_mismatch" decision
  else if negb (horizon_closed entry observed) then
    RowMapRefuse one_horizon "current_row_horizon_not_closed" decision
  else if negb (rme_row_is_current_visible entry) then
    RowMapRefuse CurrentRowMapCounters_default "current_row_visible_evidence_missing" decision
  else
    mkRowMapDecision true true true true (rmd_map_is_visibility_authority decision)
      (rmd_map_is_transaction_finality_authority decision) (rmd_durable_mga_inventory_remains_authority decision)
      (rme_row_uuid entry) (rme_current_version_uuid entry) "mga_current_row_map.current_visible.accepted" "none"
      (RowMapMergeCounters (rmd_counters decision) one_accepted)
      (rmd_evidence decision ++
       [("visible_through_local_transaction_id", to_string (rme_visible_through_local_transaction_id entry));
        ("normal_mga_recheck", "required"); ("security_recheck", "required")]%string).

(** The counters of a decision, added to the map's. *)
Definition count_probe (d : CurrentRowMapDecision) (map : option CurrentRowMap) : option CurrentRowMap :=
  (fun m => mkRowMap (rm_map_generation m) (rm_invalidation_generation m) (rm_entries m)
              (RowMapMergeCounters (rm_counters m) (rmd_counters d))) <$> map.

Definition EvaluateCurrentRowMapEntry (map : option CurrentRowMap) (entry : CurrentRowMapEntry)
    (observed : CurrentRowMapObservedFacts) : CurrentRowMapDecision * option CurrentRowMap :=
  let decision := EvaluateCurrentRowMapEntryImpl entry observed in (decision, count_probe decision map).

(** The entry a lookup evaluates when it has none. *)
Definition absent_entry (status : CurrentRowMapStatus) (map_generation invalidation_generation : N)
    (observed : CurrentRowMapObservedFacts) : CurrentRowMapEntry :=
  mkRowMapEntry status rmp_unknown (rmf_relation_uuid observed) (rmf_row_uuid observed) Uuid_nil 0 0 0 0 0
    map_generation invalidation_generation kInvalidLocalTransactionId false false false.

Definition names_row (observed : CurrentRowMapObservedFacts) (entry : CurrentRowMapEntry) : Prop :=
  rme_relation_uuid entry = rmf_relation_uuid observed /\ rme_row_uuid entry = rmf_row_uuid observed.
#[export] Instance names_row_dec observed entry : Decision (names_row observed entry).
Proof. unfold names_row. apply _. Defined.

Definition LookupCurrentRowMap (map : option CurrentRowMap) (observed : CurrentRowMapObservedFacts)
    : CurrentRowMapDecision * option CurrentRowMap :=
  let missing := absent_entry rms_missing 0 0 observed in
  match map with
  | None => EvaluateCurrentRowMapEntry map missing observed
  | Some m =>
    if decide (rm_entries m = []) then EvaluateCurrentRowMapEntry map missing observed
    else if decide (rm_map_generation m <> rmf_map_generation observed \/
                    rm_invalidation_generation m <> rmf_invalidation_generation observed) then
      EvaluateCurrentRowMapEntry map
        (absent_entry rms_stale (rm_map_generation m) (rm_invalidation_generation m) observed) observed
    else
    match filter (names_row observed) (rm_entries m) with
    | [] => EvaluateCurrentRowMapEntry map missing observed
    | [entry] => EvaluateCurrentRowMapEntry map entry observed
    | _ :: entry :: _ =>
      let decision := RowMapRefuse one_stale "current_row_map_duplicate_identity" (RowMapStartDecision entry observed) in
      (decision, count_probe decision map)
    end
  end.

(** ** Rebuilding *)

Definition RebuildRefused (r : CurrentRowMapRebuildResult) (why : CurrentRowMapCounters) (reason : string)
    : CurrentRowMapRebuildResult :=
  mkRebuildResult false
    (mkRowMap (rm_map_generation (rb_map r)) (rm_invalidation_generation (rb_map r)) [] (rm_counters (rb_map r))) 0
    (rb_diagnostic_code r) reason
    (rb_evidence r ++ [("diagnostic", rb_diagnostic_code r); ("refusal", reason);
       ("map_self_authority", "false_required"); ("authority_source", "durable_mga_transaction_inventory")]%string)
    (RowMapMergeCounters (RowMapMergeCounters (rb_counters r) why) one_refused).

Definition shown_row (row : CurrentRowAuthoritativeBaseRow) : bool := negb (br_deleted row) && br_visible row.

Definition base_row_valid (row : CurrentRowAuthoritativeBaseRow) : bool :=
  IsEngineIdentityUuid (br_row_uuid row) && IsEngineIdentityUuid (br_version_uuid row) &&
  bool_decide (br_row_generation row <> 0) && local_id_valid (br_visible_through_local_transaction_id row).

(** The validation loop: [None] accepts, otherwise the counter and the reason. *)
Fixpoint check_base_rows (l : list CurrentRowAuthoritativeBaseRow) (rows versions : gset (list N))
    : option (CurrentRowMapCounters * string) :=
  match l with
  | [] => None
  | row :: l =>
    if negb (base_row_valid row) then Some (one_epoch, "current_row_rebuild_base_row_invalid"%string)
    else if negb (shown_row row) then check_base_rows l rows versions
    else if bool_decide (uuid_bytes (br_row_uuid row) ∈ rows) || bool_decide (uuid_bytes (br_version_uuid row) ∈ versions)
    then Some (one_stale, "current_row_rebuild_duplicate_identity"%string)
    else check_base_rows l ({[uuid_bytes (br_row_uuid row)]} ∪ rows) ({[uuid_bytes (br_version_uuid row)]} ∪ versions)
  end.

Definition rebuilt_entry (request : CurrentRowMapRebuildRequest) (row : CurrentRowAuthoritativeBaseRow)
    : CurrentRowMapEntry :=
  mkRowMapEntry rms_current rmp_engine_authoritative_base_rows (rq_relation_uuid request) (br_row_uuid row)
    (br_version_uuid row) (br_row_generation row) (rq_relation_epoch request) (rq_catalog_epoch request)
    (rq_security_epoch request) (rq_redaction_epoch request) (rq_map_generation request)
    (rq_invalidation_generation request) (br_visible_through_local_transaction_id row) true true true.

Definition request_epochs_present (r : CurrentRowMapRebuildRequest) : bool :=
  IsEngineIdentityUuid (rq_relation_uuid r) &&
  forallb (fun n => bool_decide (n <> 0))
    [rq_relation_epoch r; rq_catalog_epoch r; rq_security_epoch r; rq_redaction_epoch r; rq_map_generation r;
     rq_invalidation_generation r].

Definition RebuildCurrentRowMapFromAuthoritativeBaseRows (request : CurrentRowMapRebuildRequest)
    : CurrentRowMapRebuildResult :=
  let result :=
    mkRebuildResult false (MakeCurrentRowMap (rq_map_generation request) (rq_invalidation_generation request)) 0
      "CATALOG.INVALID_INPUT" "not_evaluated"
      [("operation", "current_row_map_rebuild"); ("authority_source", "durable_mga_transaction_inventory");
       ("repair_truth_source", "authoritative_base_rows")]%string CurrentRowMapCounters_default in
  if rq_map_self_authoritative request then
    RebuildRefused result one_authority "current_row_map_self_repair_authority_refused"
  else if negb (rq_authoritative_base_rows_proof request) || negb (rq_durable_mga_inventory_proof request) then
    RebuildRefused result one_authority "authoritative_base_rows_and_mga_inventory_required"
  else if negb (request_epochs_present request) then
    RebuildRefused result one_epoch "current_row_rebuild_identity_or_epoch_missing"
  else
  match check_base_rows (rq_base_rows request) ∅ ∅ with
  | Some (why, reason) => RebuildRefused result why reason
  | None =>
    let entries := rebuilt_entry request <$> filter (fun row => shown_row row = true) (rq_base_rows request) in
    let count := N.of_nat (length entries) in
    mkRebuildResult true
      (mkRowMap (rm_map_generation (rb_map result)) (rm_invalidation_generation (rb_map result)) entries
         (rm_counters (rb_map result)))
      count "SB_ENGINE_API_OK" "none"
      (rb_evidence result ++ [("rebuilt_entry_count", to_string count); ("map_self_authority", "false");
         ("durable_mga_inventory_remains_authority", "true")]%string)
      (mkRowMapCounters (rmc_probes (rb_counters result)) 1 (rmc_refused (rb_counters result))
         (rmc_stale_refusals (rb_counters result)) (rmc_epoch_refusals (rb_counters result))
         (rmc_horizon_refusals (rb_counters result)) (rmc_authority_refusals (rb_counters result)) 1)
  end.
