(* ===== verification/SupportServices.v ===== *)
(** * Transaction support services

    Models [transaction_support_services.{hpp,cpp}] of
    [src/project/src/transaction/mga]: commit-fence coalescing, the savepoint delta
    manager, the snapshot template cache, the visibility acceleration table, the
    read-after-write overlay and the reservation of statement numbers.  Each class
    is a record of its members; a method takes the object and returns it beside the
    answer. *)

From S2P Require Import Prelude Platform TransactionState Inventory.

(** ** Shared helpers *)

Definition SupportEvidence : Type := list (string * string).

Definition BaseEvidence (service_name : string) : SupportEvidence :=
  [("service", service_name); ("durable_inventory_remains_authority", "true");
   ("support_structure_is_finality_authority", "false")]%string.

Definition MakeTransactionSupportDiagnostic : Status -> string -> string -> string -> DiagnosticRecord :=
  MakeComponentDiagnostic "transaction.mga.support_services".

Definition SupportFindInventoryEntry (inv : LocalTransactionInventory) (local_id : LocalTransactionId)
    : option TransactionInventoryEntry :=
  snd <$> list_find (fun e => e_local_id e = local_id) (inv_entries inv).

Definition IsCommittedOrArchived (e : TransactionInventoryEntry) : bool :=
  HasCommittedInventoryOutcome e && bool_decide (e_commit_sequence e <> 0).

Definition IsStatementReservableState (s : TransactionState) : bool :=
  bool_decide (s = ts_active) || bool_decide (s = ts_read_only_active).

Definition SameTransactionUuid (l r : TypedUuid) : bool :=
  bool_decide (tu_kind l = tu_kind r) && bool_decide (tu_value l = tu_value r).

Definition truth (b : bool) : string := (if b then "true" else "false")%string.

(** The scan for the entry with the greatest mutation sequence among those that
    match: a later entry replaces the best one only when its sequence is greater. *)
Definition newest {A} (sequence : A -> N) (matches : A -> bool) (l : list A) : option A :=
  foldl (fun best x =>
    if negb (matches x) then best
    else match best with
         | None => Some x
         | Some b => if decide (sequence b < sequence x) then Some x else best
         end) None l.

(** The test of both rollbacks: the transaction's entries at or after the savepoint,
    all of them for ordinal zero. *)
Definition at_or_after (savepoint_ordinal entry_ordinal : N) : bool :=
  bool_decide (savepoint_ordinal = 0) || bool_decide (savepoint_ordinal <= entry_ordinal).

(** ** Coalescing of commit fences *)

Record TransactionCommitFenceCoalescingRequest := mkFenceRequest {
  fq_inventory : LocalTransactionInventory;
  fq_inventory_authoritative : bool;
  fq_policy_enabled : bool;
  fq_policy_required : bool;
  fq_allow_commit_fence_coalescing : bool;
  fq_fence_generation : N;
  fq_max_transactions_per_fence : N;
  fq_local_transaction_ids : list LocalTransactionId }.

Record TransactionCommitFenceCoalescingResult := mkFenceResult {
  fr_status : Status;
  fr_accepted : bool;
  fr_fallback_to_individual_fences : bool;
  fr_policy_required : bool;
  fr_coalesced_fence_count : N;
  fr_input_transaction_count : N;
  fr_durable_inventory_remains_authority : bool;
  fr_coalesced_fence_is_finality_authority : bool;
  fr_refusal_reason : string;
  fr_evidence : SupportEvidence;
  fr_diagnostic : DiagnosticRecord }.

Definition fr_ok (r : TransactionCommitFenceCoalescingResult) : bool := status_ok (fr_status r) && fr_accepted r.

Fixpoint HasDuplicateLocalIds (ids : list LocalTransactionId) : bool :=
  match ids with
  | [] => false
  | id :: rest => bool_decide (id ∈ rest) || HasDuplicateLocalIds rest
  end.

Definition FenceRefusal (request : TransactionCommitFenceCoalescingRequest) (error : bool)
    (reason code key detail : string) : TransactionCommitFenceCoalescingResult :=
  let status := if error then MgaErrorStatus else MgaOkStatus in
  let fallback := negb (fq_policy_required request) in
  mkFenceResult status false fallback (fq_policy_required request) 0
    (N.of_nat (length (fq_local_transaction_ids request))) true false reason
    (BaseEvidence "transaction.commit_fence_coalescing" ++
     [("accepted", "false"); ("fallback_to_individual_fences", truth fallback)]%string)
    (MakeTransactionSupportDiagnostic status code key detail).

(** What is wrong with one transaction of the request, if anything. *)
Definition fence_transaction_error (request : TransactionCommitFenceCoalescingRequest) (id : LocalTransactionId)
    : option TransactionCommitFenceCoalescingResult :=
  if negb (local_id_valid id) then
    Some (FenceRefusal request true "invalid_transaction_id" "SB-MGA-COMMIT-FENCE-INVALID-TX"
            "transaction.support.commit_fence_invalid_transaction" "")
  else match SupportFindInventoryEntry (fq_inventory request) id with
  | None =>
      Some (FenceRefusal request true "transaction_not_found" "SB-MGA-COMMIT-FENCE-TX-NOT-FOUND"
              "transaction.support.commit_fence_transaction_not_found" (to_string id))
  | Some entry =>
      if negb (IsCommittedOrArchived entry) || negb (e_evidence_record_written entry) then
        Some (FenceRefusal request true "transaction_not_durably_committed"
                "SB-MGA-COMMIT-FENCE-TX-NOT-DURABLY-COMMITTED"
                "transaction.support.commit_fence_transaction_not_durably_committed" (to_string id))
      else None
  end.

Fixpoint fence_transactions_error (request : TransactionCommitFenceCoalescingRequest) (ids : list LocalTransactionId)
    : option TransactionCommitFenceCoalescingResult :=
  match ids with
  | [] => None
  | id :: rest =>
      match fence_transaction_error request id with
      | Some refusal => Some refusal
      | None => fence_transactions_error request rest
      end
  end.

Definition PlanTransactionCommitFenceCoalescing (request : TransactionCommitFenceCoalescingRequest)
    : TransactionCommitFenceCoalescingResult :=
  let ids := fq_local_transaction_ids request in
  if negb (fq_policy_enabled request) || negb (fq_allow_commit_fence_coalescing request) then
    FenceRefusal request (fq_policy_required request) "policy_disabled" "SB-MGA-COMMIT-FENCE-COALESCING-DISABLED"
      "transaction.support.commit_fence_coalescing_disabled" ""
  else if decide (ids = []) then
    FenceRefusal request (fq_policy_required request) "empty_transaction_set" "SB-MGA-COMMIT-FENCE-COALESCING-EMPTY"
      "transaction.support.commit_fence_coalescing_empty" ""
  else if negb (fq_inventory_authoritative request) then
    FenceRefusal request true "inventory_not_authoritative" "SB-MGA-COMMIT-FENCE-INVENTORY-NOT-AUTHORITATIVE"
      "transaction.support.commit_fence_inventory_not_authoritative" ""
  else if decide (fq_fence_generation request = 0) then
    FenceRefusal request true "fence_generation_invalid" "SB-MGA-COMMIT-FENCE-GENERATION-INVALID"
      "transaction.support.commit_fence_generation_invalid" ""
  else if decide (fq_max_transactions_per_fence request <> 0 /\
                  fq_max_transactions_per_fence request < N.of_nat (length ids)) then
    FenceRefusal request (fq_policy_required request) "policy_limit_exceeded" "SB-MGA-COMMIT-FENCE-COALESCING-LIMIT"
      "transaction.support.commit_fence_coalescing_limit" (to_string (fq_max_transactions_per_fence request))
  else if HasDuplicateLocalIds ids then
    FenceRefusal request true "duplicate_transaction_id" "SB-MGA-COMMIT-FENCE-DUPLICATE-TX"
      "transaction.support.commit_fence_duplicate_transaction" ""
  else match fence_transactions_error request ids with
  | Some refusal => refusal
  | None =>
      mkFenceResult MgaOkStatus true false (fq_policy_required request) 1 (N.of_nat (length ids)) true false ""
        (BaseEvidence "transaction.commit_fence_coalescing" ++
         [("accepted", "true"); ("coalesced_fence_count", "1");
          ("fence_generation", to_string (fq_fence_generation request)); ("inventory_authoritative", "true")]%string)
        DiagnosticRecord_default
  end.

(** ** Savepoint state deltas *)

Inductive SavepointStateDeltaState := sds_active | sds_rolled_back.

#[export] Instance SavepointStateDeltaState_eq_dec : EqDecision SavepointStateDeltaState.
Proof. solve_decision. Defined.

Record SavepointStateDelta := mkDelta {
  sd_local_transaction_id : LocalTransactionId;
  sd_savepoint_ordinal : N;
  sd_mutation_sequence : N;
  sd_object_uuid : string;
  sd_record_uuid : string;
  sd_before_image_hash : string;
  sd_after_image_hash : string;
  sd_durable_evidence_written : bool;
  sd_state : SavepointStateDeltaState }.

Definition SavepointStateDelta_default : SavepointStateDelta := mkDelta 0 0 0 "" "" "" "" false sds_active.

Record SavepointStateDeltaResult := mkDeltaResult {
  sdr_status : Status;
  sdr_delta : SavepointStateDelta;
  sdr_active_delta_count : N;
  sdr_rolled_back_delta_count : N;
  sdr_durable_inventory_remains_authority : bool;
  sdr_savepoint_delta_is_transaction_authority : bool;
  sdr_evidence : SupportEvidence;
  sdr_diagnostic : DiagnosticRecord }.

Definition sdr_ok (r : SavepointStateDeltaResult) : bool := status_ok (sdr_status r).

Record SavepointStateDeltaRollbackResult := mkDeltaRollback {
  sdb_status : Status;
  sdb_affected_delta_count : N;
  sdb_active_delta_count : N;
  sdb_rolled_back_delta_count : N;
  sdb_transaction_identity_unchanged : bool;
  sdb_durable_inventory_remains_authority : bool;
  sdb_savepoint_delta_is_transaction_authority : bool;
  sdb_evidence : SupportEvidence;
  sdb_diagnostic : DiagnosticRecord }.

Definition sdb_ok (r : SavepointStateDeltaRollbackResult) : bool := status_ok (sdb_status r).

Definition SavepointStateDeltaStateName (s : SavepointStateDeltaState) : string :=
  match s with sds_active => "active" | sds_rolled_back => "rolled_back" end%string.

Record SavepointStateDeltaManager := mkDeltaManager { dm_deltas : list SavepointStateDelta }.

Definition CountDeltas (deltas : list SavepointStateDelta) (id : LocalTransactionId)
    (s : SavepointStateDeltaState) : N :=
  N.of_nat (length (filter (fun d => sd_local_transaction_id d = id /\ sd_state d = s) deltas)).

Definition SavepointDeltaError (code key detail : string) : SavepointStateDeltaResult :=
  mkDeltaResult MgaErrorStatus SavepointStateDelta_default 0 0 true false
    (BaseEvidence "transaction.savepoint_state_delta")
    (MakeTransactionSupportDiagnostic MgaErrorStatus code key detail).

Definition DeltaRollbackError (code key detail : string) : SavepointStateDeltaRollbackResult :=
  mkDeltaRollback MgaErrorStatus 0 0 0 true true false
    (BaseEvidence "transaction.savepoint_state_delta.rollback")
    (MakeTransactionSupportDiagnostic MgaErrorStatus code key detail).

Definition set_delta_state (s : SavepointStateDeltaState) (d : SavepointStateDelta) : SavepointStateDelta :=
  mkDelta (sd_local_transaction_id d) (sd_savepoint_ordinal d) (sd_mutation_sequence d) (sd_object_uuid d)
    (sd_record_uuid d) (sd_before_image_hash d) (sd_after_image_hash d) (sd_durable_evidence_written d) s.

Definition RecordDelta (delta : SavepointStateDelta) (m : SavepointStateDeltaManager)
    : SavepointStateDeltaResult * SavepointStateDeltaManager :=
  let id := sd_local_transaction_id delta in
  if negb (local_id_valid id) then
    (SavepointDeltaError "SB-MGA-SAVEPOINT-DELTA-INVALID-TX"
       "transaction.support.savepoint_delta_invalid_transaction" "", m)
  else if decide (sd_mutation_sequence delta = 0 \/ sd_object_uuid delta = ""%string \/ sd_record_uuid delta = ""%string)
  then
    (SavepointDeltaError "SB-MGA-SAVEPOINT-DELTA-INVALID-MUTATION"
       "transaction.support.savepoint_delta_invalid_mutation" "", m)
  else if negb (sd_durable_evidence_written delta) then
    (SavepointDeltaError "SB-MGA-SAVEPOINT-DELTA-EVIDENCE-REQUIRED"
       "transaction.support.savepoint_delta_evidence_required" (sd_record_uuid delta), m)
  else if existsb (fun d => bool_decide (sd_local_transaction_id d = id) &&
                            bool_decide (sd_mutation_sequence d = sd_mutation_sequence delta)) (dm_deltas m)
  then
    (SavepointDeltaError "SB-MGA-SAVEPOINT-DELTA-DUPLICATE-MUTATION"
       "transaction.support.savepoint_delta_duplicate_mutation" (to_string (sd_mutation_sequence delta)), m)
  else
    let delta := set_delta_state sds_active delta in
    let deltas := dm_deltas m ++ [delta] in
    (mkDeltaResult MgaOkStatus delta (CountDeltas deltas id sds_active) (CountDeltas deltas id sds_rolled_back)
       true false
       (BaseEvidence "transaction.savepoint_state_delta" ++
        [("delta_state", SavepointStateDeltaStateName (sd_state delta));
         ("savepoint_delta_is_transaction_authority", "false")]%string)
       DiagnosticRecord_default,
     mkDeltaManager deltas).

(** The deltas the rollback turns: active ones of the transaction from the savepoint on. *)
Definition delta_undone (id : LocalTransactionId) (savepoint_ordinal : N) (d : SavepointStateDelta) : bool :=
  bool_decide (sd_local_transaction_id d = id) && negb (bool_decide (sd_state d = sds_rolled_back)) &&
  at_or_after savepoint_ordinal (sd_savepoint_ordinal d).

Definition delta_RollbackToSavepoint (id : LocalTransactionId) (savepoint_ordinal : N) (m : SavepointStateDeltaManager)
    : SavepointStateDeltaRollbackResult * SavepointStateDeltaManager :=
  if negb (local_id_valid id) then
    (DeltaRollbackError "SB-MGA-SAVEPOINT-DELTA-ROLLBACK-INVALID-TX"
       "transaction.support.savepoint_delta_rollback_invalid_transaction" "", m)
  else
    let affected := N.of_nat (length (filter (fun d => delta_undone id savepoint_ordinal d = true) (dm_deltas m))) in
    let deltas := (fun d => if delta_undone id savepoint_ordinal d then set_delta_state sds_rolled_back d else d)
                    <$> dm_deltas m in
    (mkDeltaRollback MgaOkStatus affected (CountDeltas deltas id sds_active) (CountDeltas deltas id sds_rolled_back)
       true true false
       (BaseEvidence "transaction.savepoint_state_delta.rollback" ++
        [("affected_delta_count", to_string affected); ("transaction_identity_unchanged", "true")]%string)
       DiagnosticRecord_default,
     mkDeltaManager deltas).

Definition LatestActiveDelta (id : LocalTransactionId) (record_uuid : string) (m : SavepointStateDeltaManager)
    : option SavepointStateDelta :=
  newest sd_mutation_sequence
    (fun d => bool_decide (sd_local_transaction_id d = id) && bool_decide (sd_record_uuid d = record_uuid) &&
              bool_decide (sd_state d = sds_active)) (dm_deltas m).

Definition ActiveDeltaCount (id : LocalTransactionId) (m : SavepointStateDeltaManager) : N :=
  CountDeltas (dm_deltas m) id sds_active.
Definition RolledBackDeltaCount (id : LocalTransactionId) (m : SavepointStateDeltaManager) : N :=
  CountDeltas (dm_deltas m) id sds_rolled_back.

(** ** Snapshot templates *)

Record TransactionSnapshotTemplateStaticInputs := mkStaticInputs {
  si_isolation_profile : string;
  si_catalog_epoch : N;
  si_security_epoch : N;
  si_policy_epoch : N;
  si_metadata_epoch : N;
  si_allow_reader_own_uncommitted : bool }.

#[export] Instance StaticInputs_eq_dec : EqDecision TransactionSnapshotTemplateStaticInputs.
Proof. solve_decision. Defined.

Record TransactionSnapshotTemplate := mkTemplate {
  st_static_inputs : TransactionSnapshotTemplateStaticInputs;
  st_cache_generation : N;
  st_invalidation_generation : N;
  st_inventory_generation : N;
  st_next_local_transaction_id : LocalTransactionId;
  st_visible_through_local_transaction_id : LocalTransactionId;
  st_static_inputs_only : bool;
  st_active_transaction_set_cached : bool;
  st_durable_inventory_remains_authority : bool }.

Definition TransactionSnapshotTemplate_default : TransactionSnapshotTemplate :=
  mkTemplate (mkStaticInputs "" 0 0 0 0 true) 0 0 0 0 0 true false true.

Record TransactionSnapshotTemplateCacheRequest := mkTemplateRequest {
  tr_inventory_authoritative : bool;
  tr_inventory_generation : N;
  tr_static_inputs : TransactionSnapshotTemplateStaticInputs;
  tr_next_local_transaction_id : LocalTransactionId;
  tr_visible_through_local_transaction_id : LocalTransactionId }.

Record TransactionSnapshotTemplateCacheResult := mkTemplateResult {
  tcr_status : Status;
  tcr_accepted : bool;
  tcr_cache_hit : bool;
  tcr_refusal_reason : string;
  tcr_snapshot_template : TransactionSnapshotTemplate;
  tcr_durable_inventory_remains_authority : bool;
  tcr_template_cache_is_visibility_authority : bool;
  tcr_evidence : SupportEvidence;
  tcr_diagnostic : DiagnosticRecord }.

Definition tcr_ok (r : TransactionSnapshotTemplateCacheResult) : bool := status_ok (tcr_status r) && tcr_accepted r.

Record TransactionSnapshotTemplateCache := mkTemplateCache {
  tc_cache_generation : N;
  tc_invalidation_generation : N;
  tc_templates : list TransactionSnapshotTemplate }.

Definition SameStaticInputs (l r : TransactionSnapshotTemplateStaticInputs) : bool :=
  bool_decide (si_isolation_profile l = si_isolation_profile r) &&
  bool_decide (si_catalog_epoch l = si_catalog_epoch r) &&
  bool_decide (si_security_epoch l = si_security_epoch r) &&
  bool_decide (si_policy_epoch l = si_policy_epoch r) &&
  bool_decide (si_metadata_epoch l = si_metadata_epoch r) &&
  bool_decide (si_allow_reader_own_uncommitted l = si_allow_reader_own_uncommitted r).

Definition ValidStaticInputs (i : TransactionSnapshotTemplateStaticInputs) : bool :=
  bool_decide (si_isolation_profile i <> ""%string) && bool_decide (si_catalog_epoch i <> 0) &&
  bool_decide (si_security_epoch i <> 0) && bool_decide (si_policy_epoch i <> 0) &&
  bool_decide (si_metadata_epoch i <> 0).

Definition SnapshotTemplateRefusal (error : bool) (reason code key detail : string)
    : TransactionSnapshotTemplateCacheResult :=
  let status := if error then MgaErrorStatus else MgaOkStatus in
  mkTemplateResult status false false reason TransactionSnapshotTemplate_default true false
    (BaseEvidence "transaction.snapshot_template_cache" ++
     [("accepted", "false"); ("template_static_inputs_only", "true")]%string)
    (MakeTransactionSupportDiagnostic status code key detail).

(** The constructor of the cache. *)
Definition MakeTemplateCache (cache_generation invalidation_generation : N) : TransactionSnapshotTemplateCache :=
  mkTemplateCache (if decide (cache_generation = 0) then 1 else cache_generation)
    (if decide (invalidation_generation = 0) then 1 else invalidation_generation) [].

Definition template_inputs_invalid (request : TransactionSnapshotTemplateCacheRequest) : bool :=
  bool_decide (tr_inventory_generation request = 0) || negb (local_id_valid (tr_next_local_transaction_id request)) ||
  negb (ValidStaticInputs (tr_static_inputs request)).

(** [std::find_if] with replacement or [push_back]. *)
Fixpoint replace_template (t : TransactionSnapshotTemplate) (l : list TransactionSnapshotTemplate)
    : list TransactionSnapshotTemplate :=
  match l with
  | [] => [t]
  | item :: rest =>
      if SameStaticInputs (st_static_inputs item) (st_static_inputs t) then t :: rest
      else item :: replace_template t rest
  end.

Definition template_Store (request : TransactionSnapshotTemplateCacheRequest) (c : TransactionSnapshotTemplateCache)
    : TransactionSnapshotTemplateCacheResult * TransactionSnapshotTemplateCache :=
  if negb (tr_inventory_authoritative request) then
    (SnapshotTemplateRefusal true "inventory_not_authoritative" "SB-MGA-SNAPSHOT-TEMPLATE-INVENTORY-NOT-AUTHORITATIVE"
       "transaction.support.snapshot_template_inventory_not_authoritative" "", c)
  else if template_inputs_invalid request then
    (SnapshotTemplateRefusal true "invalid_template_inputs" "SB-MGA-SNAPSHOT-TEMPLATE-INPUTS-INVALID"
       "transaction.support.snapshot_template_inputs_invalid" "", c)
  else
    let t := mkTemplate (tr_static_inputs request) (tc_cache_generation c) (tc_invalidation_generation c)
               (tr_inventory_generation request) (tr_next_local_transaction_id request)
               (tr_visible_through_local_transaction_id request) true false true in
    (mkTemplateResult MgaOkStatus true false "" t true false
       (BaseEvidence "transaction.snapshot_template_cache" ++
        [("accepted", "true"); ("template_static_inputs_only", "true"); ("active_transaction_set_cached", "false")]%string)
       DiagnosticRecord_default,
     mkTemplateCache (tc_cache_generation c) (tc_invalidation_generation c) (replace_template t (tc_templates c))).

Definition template_current (request : TransactionSnapshotTemplateCacheRequest) (c : TransactionSnapshotTemplateCache)
    (item : TransactionSnapshotTemplate) : bool :=
  bool_decide (st_cache_generation item = tc_cache_generation c) &&
  bool_decide (st_invalidation_generation item = tc_invalidation_generation c) &&
  bool_decide (st_inventory_generation item = tr_inventory_generation request) &&
  bool_decide (st_next_local_transaction_id item = tr_next_local_transaction_id request) &&
  bool_decide (st_visible_through_local_transaction_id item = tr_visible_through_local_transaction_id request).

Definition template_Lookup (request : TransactionSnapshotTemplateCacheRequest) (c : TransactionSnapshotTemplateCache)
    : TransactionSnapshotTemplateCacheResult :=
  if negb (tr_inventory_authoritative request) then
    SnapshotTemplateRefusal true "inventory_not_authoritative"
      "SB-MGA-SNAPSHOT-TEMPLATE-LOOKUP-INVENTORY-NOT-AUTHORITATIVE"
      "transaction.support.snapshot_template_lookup_inventory_not_authoritative" ""
  else if template_inputs_invalid request then
    SnapshotTemplateRefusal true "invalid_template_inputs" "SB-MGA-SNAPSHOT-TEMPLATE-LOOKUP-INPUTS-INVALID"
      "transaction.support.snapshot_template_lookup_inputs_invalid" ""
  else match snd <$> list_find (fun item => SameStaticInputs (st_static_inputs item) (tr_static_inputs request) = true)
                     (tc_templates c) with
  | None =>
      SnapshotTemplateRefusal false "cache_miss" "SB-MGA-SNAPSHOT-TEMPLATE-MISS"
        "transaction.support.snapshot_template_miss" ""
  | Some item =>
      if negb (template_current request c item) then
        SnapshotTemplateRefusal true "template_stale" "SB-MGA-SNAPSHOT-TEMPLATE-STALE"
          "transaction.support.snapshot_template_stale" ""
      else
        mkTemplateResult MgaOkStatus true true "" item true false
          (BaseEvidence "transaction.snapshot_template_cache" ++
           [("accepted", "true"); ("cache_hit", "true"); ("template_static_inputs_only", "true");
            ("active_transaction_set_cached", "false")]%string) DiagnosticRecord_default
  end.

Definition template_Invalidate (invalidation_generation : N) (c : TransactionSnapshotTemplateCache)
    : TransactionSnapshotTemplateCache :=
  mkTemplateCache (tc_cache_generation c)
    (if decide (invalidation_generation = 0) then u64_add (tc_invalidation_generation c) 1 else invalidation_generation)
    (tc_templates c).

(** ** The visibility acceleration table *)

Record MgaVisibilityAccelerationEntry := mkAccelEntry {
  ae_local_transaction_id : LocalTransactionId;
  ae_state : TransactionState;
  ae_evidence_record_written : bool;
  ae_final_unix_epoch_millis : N }.

Record MgaVisibilityAccelerationTable := mkAccelTable {
  at_table_generation : N;
  at_inventory_generation : N;
  at_built_from_authoritative_inventory : bool;
  at_durable_inventory_remains_authority : bool;
  at_acceleration_table_is_finality_authority : bool;
  at_entries : list MgaVisibilityAccelerationEntry }.

Record MgaVisibilityAccelerationBuildRequest := mkAccelBuild {
  ab_inventory : LocalTransactionInventory;
  ab_inventory_authoritative : bool;
  ab_inventory_generation : N;
  ab_table_generation : N }.

Record MgaVisibilityAccelerationBuildResult := mkAccelBuilt {
  abr_status : Status;
  abr_accepted : bool;
  abr_refusal_reason : string;
  abr_table : MgaVisibilityAccelerationTable;
  abr_evidence : SupportEvidence;
  abr_diagnostic : DiagnosticRecord }.

Definition abr_ok (r : MgaVisibilityAccelerationBuildResult) : bool := status_ok (abr_status r) && abr_accepted r.

Record MgaVisibilityAccelerationProbeRequest := mkAccelProbe {
  ap_table : MgaVisibilityAccelerationTable;
  ap_current_inventory : LocalTransactionInventory;
  ap_current_inventory_authoritative : bool;
  ap_inventory_generation : N;
  ap_first_local_transaction_id : LocalTransactionId;
  ap_last_local_transaction_id : LocalTransactionId }.

Record MgaVisibilityAccelerationProbeResult := mkAccelProbed {
  apr_status : Status;
  apr_accepted : bool;
  apr_all_committed : bool;
  apr_refusal_reason : string;
  apr_durable_inventory_remains_authority : bool;
  apr_acceleration_table_is_finality_authority : bool;
  apr_evidence : SupportEvidence;
  apr_diagnostic : DiagnosticRecord }.

Definition apr_ok (r : MgaVisibilityAccelerationProbeResult) : bool := status_ok (apr_status r) && apr_accepted r.

Definition SameAccelerationEntry (a : MgaVisibilityAccelerationEntry) (e : TransactionInventoryEntry) : bool :=
  bool_decide (ae_local_transaction_id a = e_local_id e) && bool_decide (ae_state a = e_state e) &&
  bool_decide (ae_evidence_record_written a = e_evidence_record_written e) &&
  bool_decide (ae_final_unix_epoch_millis a = e_final_unix_epoch_millis e).

Definition FindAccelerationEntry (table : MgaVisibilityAccelerationTable) (id : LocalTransactionId)
    : option MgaVisibilityAccelerationEntry :=
  snd <$> list_find (fun a => ae_local_transaction_id a = id) (at_entries table).

Definition acceleration_entry (e : TransactionInventoryEntry) : MgaVisibilityAccelerationEntry :=
  mkAccelEntry (e_local_id e) (e_state e) (e_evidence_record_written e) (e_final_unix_epoch_millis e).

(** A refused build: [built] says whether the loop over the entries had begun. *)
Definition acceleration_refused (built : option MgaVisibilityAccelerationBuildRequest) (reason code key : string)
    : MgaVisibilityAccelerationBuildResult :=
  mkAccelBuilt MgaErrorStatus false reason
    match built with
    | None => mkAccelTable 0 0 false true false []
    | Some request => mkAccelTable (ab_table_generation request) (ab_inventory_generation request) true true false []
    end
    (BaseEvidence "transaction.visibility_acceleration_table")
    (MakeTransactionSupportDiagnostic MgaErrorStatus code key "").

Definition BuildMgaVisibilityAccelerationTable (request : MgaVisibilityAccelerationBuildRequest)
    : MgaVisibilityAccelerationBuildResult :=
  if negb (ab_inventory_authoritative request) then
    acceleration_refused None "inventory_not_authoritative" "SB-MGA-VISIBILITY-ACCELERATION-INVENTORY-NOT-AUTHORITATIVE"
      "transaction.support.visibility_acceleration_inventory_not_authoritative"
  else if decide (ab_inventory_generation request = 0 \/ ab_table_generation request = 0) then
    acceleration_refused None "generation_invalid" "SB-MGA-VISIBILITY-ACCELERATION-GENERATION-INVALID"
      "transaction.support.visibility_acceleration_generation_invalid"
  else if existsb (fun e => negb (local_id_valid (e_local_id e))) (inv_entries (ab_inventory request)) then
    acceleration_refused (Some request) "inventory_entry_invalid" "SB-MGA-VISIBILITY-ACCELERATION-ENTRY-INVALID"
      "transaction.support.visibility_acceleration_entry_invalid"
  else
    let entries := acceleration_entry <$> inv_entries (ab_inventory request) in
    mkAccelBuilt MgaOkStatus true ""
      (mkAccelTable (ab_table_generation request) (ab_inventory_generation request) true true false entries)
      (BaseEvidence "transaction.visibility_acceleration_table" ++
       [("accepted", "true"); ("inventory_generation", to_string (ab_inventory_generation request));
        ("entry_count", to_string (N.of_nat (length entries)))]%string)
      DiagnosticRecord_default.

Definition probe_refuse (reason code key detail : string) : MgaVisibilityAccelerationProbeResult :=
  mkAccelProbed MgaErrorStatus false false reason true false
    (BaseEvidence "transaction.visibility_acceleration_table.probe" ++ [("accepted", "false")]%string)
    (MakeTransactionSupportDiagnostic MgaErrorStatus code key detail).

(** The loop over the range: the counter is a [u64] and wraps, so a range that ends
    at the greatest number ends only at a number that has no entry.  [None]: out of
    fuel. *)
Fixpoint probe_range (fuel : nat) (request : MgaVisibilityAccelerationProbeRequest) (value : N) (all_committed : bool)
    : option (MgaVisibilityAccelerationProbeResult + bool) :=
  match fuel with
  | O => None
  | S fuel =>
      if decide (value <= ap_last_local_transaction_id request) then
        match FindAccelerationEntry (ap_table request) value,
              SupportFindInventoryEntry (ap_current_inventory request) value with
        | Some accelerated, Some entry =>
            if negb (SameAccelerationEntry accelerated entry) then
              Some (inl (probe_refuse "entry_mismatch" "SB-MGA-VISIBILITY-ACCELERATION-PROBE-ENTRY-MISMATCH"
                           "transaction.support.visibility_acceleration_probe_entry_mismatch" (to_string value)))
            else
              probe_range fuel request (u64_add value 1)
                (all_committed && IsCommittedOrArchived entry && e_evidence_record_written entry)
        | _, _ =>
            Some (inl (probe_refuse "entry_missing" "SB-MGA-VISIBILITY-ACCELERATION-PROBE-ENTRY-MISSING"
                         "transaction.support.visibility_acceleration_probe_entry_missing" (to_string value)))
        end
      else Some (inr all_committed)
  end.

(** Each turn but the last finds another entry of the table, hence the fuel. *)
Definition ProbeMgaVisibilityAccelerationTable (request : MgaVisibilityAccelerationProbeRequest)
    : option MgaVisibilityAccelerationProbeResult :=
  let table := ap_table request in
  let first := ap_first_local_transaction_id request in
  let last := ap_last_local_transaction_id request in
  if negb (ap_current_inventory_authoritative request) || negb (at_built_from_authoritative_inventory table) then
    Some (probe_refuse "inventory_not_authoritative" "SB-MGA-VISIBILITY-ACCELERATION-PROBE-INVENTORY-NOT-AUTHORITATIVE"
            "transaction.support.visibility_acceleration_probe_inventory_not_authoritative" "")
  else if decide (ap_inventory_generation request = 0 \/
                  ap_inventory_generation request <> at_inventory_generation table) then
    Some (probe_refuse "inventory_generation_mismatch" "SB-MGA-VISIBILITY-ACCELERATION-PROBE-GENERATION-MISMATCH"
            "transaction.support.visibility_acceleration_probe_generation_mismatch" "")
  else if negb (local_id_valid first) || negb (local_id_valid last) || bool_decide (last < first) then
    Some (probe_refuse "invalid_range" "SB-MGA-VISIBILITY-ACCELERATION-PROBE-RANGE-INVALID"
            "transaction.support.visibility_acceleration_probe_range_invalid" "")
  else match probe_range (S (length (at_entries table))) request first true with
  | None => None
  | Some (inl refusal) => Some refusal
  | Some (inr all_committed) =>
      Some (mkAccelProbed MgaOkStatus true all_committed "" true false
              (BaseEvidence "transaction.visibility_acceleration_table.probe" ++
               [("accepted", "true"); ("all_committed", truth all_committed);
                ("validated_against_current_inventory", "true")]%string) DiagnosticRecord_default)
  end.

(** ** The read-after-write overlay *)

Record ReadAfterWriteOverlayEntry := mkOverlayEntry {
  oe_local_transaction_id : LocalTransactionId;
  oe_savepoint_ordinal : N;
  oe_mutation_sequence : N;
  oe_object_uuid : string;
  oe_record_uuid : string;
  oe_value_hash : string;
  oe_delete_marker : bool;
  oe_durable_evidence_written : bool;
  oe_visible_to_own_transaction : bool;
  oe_visible_to_other_transactions : bool;
  oe_overlay_is_transaction_finality_authority : bool }.

Definition ReadAfterWriteOverlayEntry_default : ReadAfterWriteOverlayEntry :=
  mkOverlayEntry 0 0 0 "" "" "" false false true false false.

Record ReadAfterWriteOverlayResult := mkOverlayResult {
  or_status : Status;
  or_accepted : bool;
  or_cache_hit : bool;
  or_refusal_reason : string;
  or_entry : ReadAfterWriteOverlayEntry;
  or_durable_inventory_remains_authority : bool;
  or_overlay_is_transaction_finality_authority : bool;
  or_evidence : SupportEvidence;
  or_diagnostic : DiagnosticRecord }.

Definition or_ok (r : ReadAfterWriteOverlayResult) : bool := status_ok (or_status r) && or_accepted r.

Record ReadAfterWriteOverlayRollbackResult := mkOverlayRollback {
  ob_status : Status;
  ob_removed_entry_count : N;
  ob_durable_inventory_remains_authority : bool;
  ob_overlay_is_transaction_finality_authority : bool;
  ob_evidence : SupportEvidence;
  ob_diagnostic : DiagnosticRecord }.

Definition ob_ok (r : ReadAfterWriteOverlayRollbackResult) : bool := status_ok (ob_status r).

Record ReadAfterWriteLocalOverlayCache := mkOverlay { ov_entries : list ReadAfterWriteOverlayEntry }.

Definition OverlayRefusal (error : bool) (reason code key detail : string) : ReadAfterWriteOverlayResult :=
  let status := if error then MgaErrorStatus else MgaOkStatus in
  mkOverlayResult status false false reason ReadAfterWriteOverlayEntry_default true false
    (BaseEvidence "transaction.read_after_write_overlay" ++
     [("accepted", "false"); ("visible_to_other_transactions", "false")]%string)
    (MakeTransactionSupportDiagnostic status code key detail).

Definition overlay_Put (entry : ReadAfterWriteOverlayEntry) (c : ReadAfterWriteLocalOverlayCache)
    : ReadAfterWriteOverlayResult * ReadAfterWriteLocalOverlayCache :=
  if negb (local_id_valid (oe_local_transaction_id entry)) ||
     bool_decide (oe_object_uuid entry = ""%string) || bool_decide (oe_record_uuid entry = ""%string) ||
     bool_decide (oe_mutation_sequence entry = 0) || bool_decide (oe_value_hash entry = ""%string) then
    (OverlayRefusal true "invalid_overlay_entry" "SB-MGA-RAW-OVERLAY-ENTRY-INVALID"
       "transaction.support.raw_overlay_entry_invalid" "", c)
  else if negb (oe_visible_to_own_transaction entry) || oe_visible_to_other_transactions entry ||
          oe_overlay_is_transaction_finality_authority entry then
    (OverlayRefusal true "overlay_scope_invalid" "SB-MGA-RAW-OVERLAY-SCOPE-INVALID"
       "transaction.support.raw_overlay_scope_invalid" "", c)
  else
    (mkOverlayResult MgaOkStatus true false "" entry true false
       (BaseEvidence "transaction.read_after_write_overlay" ++
        [("accepted", "true"); ("visible_to_own_transaction", "true"); ("visible_to_other_transactions", "false")]%string)
       DiagnosticRecord_default,
     mkOverlay (ov_entries c ++ [entry])).

Definition overlay_Lookup (id : LocalTransactionId) (record_uuid : string) (c : ReadAfterWriteLocalOverlayCache)
    : ReadAfterWriteOverlayResult :=
  if negb (local_id_valid id) || bool_decide (record_uuid = ""%string) then
    OverlayRefusal true "invalid_lookup" "SB-MGA-RAW-OVERLAY-LOOKUP-INVALID"
      "transaction.support.raw_overlay_lookup_invalid" ""
  else match newest oe_mutation_sequence
               (fun e => bool_decide (oe_local_transaction_id e = id) && bool_decide (oe_record_uuid e = record_uuid))
               (ov_entries c) with
  | None =>
      OverlayRefusal false "cache_miss" "SB-MGA-RAW-OVERLAY-MISS" "transaction.support.raw_overlay_miss" ""
  | Some best =>
      mkOverlayResult MgaOkStatus true true "" best true false
        (BaseEvidence "transaction.read_after_write_overlay" ++
         [("accepted", "true"); ("cache_hit", "true"); ("visible_to_own_transaction", "true");
          ("visible_to_other_transactions", "false")]%string) DiagnosticRecord_default
  end.

Definition overlay_undone (id : LocalTransactionId) (savepoint_ordinal : N) (e : ReadAfterWriteOverlayEntry) : bool :=
  bool_decide (oe_local_transaction_id e = id) && at_or_after savepoint_ordinal (oe_savepoint_ordinal e).

Definition overlay_RollbackToSavepoint (id : LocalTransactionId) (savepoint_ordinal : N)
    (c : ReadAfterWriteLocalOverlayCache) : ReadAfterWriteOverlayRollbackResult * ReadAfterWriteLocalOverlayCache :=
  if negb (local_id_valid id) then
    (mkOverlayRollback MgaErrorStatus 0 true false (BaseEvidence "transaction.read_after_write_overlay.rollback")
       (MakeTransactionSupportDiagnostic MgaErrorStatus "SB-MGA-RAW-OVERLAY-ROLLBACK-INVALID-TX"
          "transaction.support.raw_overlay_rollback_invalid_transaction" ""), c)
  else
    let kept := filter (fun e => overlay_undone id savepoint_ordinal e = false) (ov_entries c) in
    let removed := N.of_nat (length (ov_entries c) - length kept) in
    (mkOverlayRollback MgaOkStatus removed true false
       (BaseEvidence "transaction.read_after_write_overlay.rollback" ++
        [("removed_entry_count", to_string removed); ("overlay_is_transaction_finality_authority", "false")]%string)
       DiagnosticRecord_default,
     mkOverlay kept).

Definition overlay_size (c : ReadAfterWriteLocalOverlayCache) : N := N.of_nat (length (ov_entries c)).

(** ** Statement numbers *)

Record TransactionStatementId := mkStatementId {
  sid_local_transaction_id : LocalTransactionId;
  sid_statement_sequence : N }.

Record TransactionStatementIdReservationRequest := mkReservation {
  rv_inventory : LocalTransactionInventory;
  rv_inventory_authoritative : bool;
  rv_local_transaction_id : LocalTransactionId;
  rv_transaction_uuid : TypedUuid;
  rv_statement_count : N }.

Record TransactionStatementIdReservationResult := mkReservationResult {
  rvr_status : Status;
  rvr_accepted : bool;
  rvr_refusal_reason : string;
  rvr_statement_ids : list TransactionStatementId;
  rvr_next_statement_sequence : N;
  rvr_durable_inventory_remains_authority : bool;
  rvr_statement_id_is_transaction_finality_authority : bool;
  rvr_evidence : SupportEvidence;
  rvr_diagnostic : DiagnosticRecord }.

Definition rvr_ok (r : TransactionStatementIdReservationResult) : bool := status_ok (rvr_status r) && rvr_accepted r.

Record StatementCounter := mkStatementCounter {
  ct_local_transaction_id : LocalTransactionId;
  ct_next_statement_sequence : N }.

Record TransactionStatementIdReservationService := mkStatementService { ss_counters : list StatementCounter }.

Definition StatementReservationRefusal (reason code key detail : string) : TransactionStatementIdReservationResult :=
  mkReservationResult MgaErrorStatus false reason [] 0 true false
    (BaseEvidence "transaction.statement_id_reservation" ++ [("accepted", "false")]%string)
    (MakeTransactionSupportDiagnostic MgaErrorStatus code key detail).

(** The loop that hands the numbers out: the counter is post-incremented. *)
Fixpoint take_statement_ids (count : nat) (id : LocalTransactionId) (next : N) : list TransactionStatementId * N :=
  match count with
  | O => ([], next)
  | S count =>
      let '(ids, next') := take_statement_ids count id (u64_add next 1) in
      (mkStatementId id next :: ids, next')
  end.

(** The counter of the transaction: the first one found, or a new one at one. *)
Definition next_sequence (id : LocalTransactionId) (l : list StatementCounter) : N :=
  match list_find (fun c => ct_local_transaction_id c = id) l with
  | Some (_, c) => ct_next_statement_sequence c
  | None => 1
  end.

Definition store_counter (id : LocalTransactionId) (next : N) (l : list StatementCounter) : list StatementCounter :=
  match list_find (fun c => ct_local_transaction_id c = id) l with
  | Some (i, _) => <[i := mkStatementCounter id next]> l
  | None => l ++ [mkStatementCounter id next]
  end.

Definition statement_Reserve (request : TransactionStatementIdReservationRequest)
    (s : TransactionStatementIdReservationService)
    : TransactionStatementIdReservationResult * TransactionStatementIdReservationService :=
  let id := rv_local_transaction_id request in
  if negb (rv_inventory_authoritative request) then
    (StatementReservationRefusal "inventory_not_authoritative" "SB-MGA-STATEMENT-ID-INVENTORY-NOT-AUTHORITATIVE"
       "transaction.support.statement_id_inventory_not_authoritative" "", s)
  else if negb (local_id_valid id) || bool_decide (rv_statement_count request = 0) then
    (StatementReservationRefusal "invalid_request" "SB-MGA-STATEMENT-ID-REQUEST-INVALID"
       "transaction.support.statement_id_request_invalid" "", s)
  else match SupportFindInventoryEntry (rv_inventory request) id with
  | None =>
      (StatementReservationRefusal "transaction_not_found" "SB-MGA-STATEMENT-ID-TX-NOT-FOUND"
         "transaction.support.statement_id_transaction_not_found" (to_string id), s)
  | Some entry =>
      if negb (SameTransactionUuid (ti_transaction_uuid (e_identity entry)) (rv_transaction_uuid request)) then
        (StatementReservationRefusal "transaction_uuid_mismatch" "SB-MGA-STATEMENT-ID-TX-UUID-MISMATCH"
           "transaction.support.statement_id_transaction_uuid_mismatch" (to_string id), s)
      else if negb (IsStatementReservableState (e_state entry)) || e_rollback_only entry then
        (StatementReservationRefusal "transaction_not_active" "SB-MGA-STATEMENT-ID-TX-NOT-ACTIVE"
           "transaction.support.statement_id_transaction_not_active" (TransactionStateName (e_state entry)), s)
      else
        let '(ids, next) :=
          take_statement_ids (N.to_nat (rv_statement_count request)) id (next_sequence id (ss_counters s)) in
        (mkReservationResult MgaOkStatus true "" ids next true false
           (BaseEvidence "transaction.statement_id_reservation" ++
            [("accepted", "true"); ("reserved_against_inventory_state", TransactionStateName (e_state entry));
             ("statement_id_is_transaction_finality_authority", "false")]%string)
           DiagnosticRecord_default,
         mkStatementService (store_counter id next (ss_counters s)))
  end.

Definition statement_Clear (id : LocalTransactionId) (s : TransactionStatementIdReservationService)
    : TransactionStatementIdReservationService :=
  mkStatementService (filter (fun c => ct_local_transaction_id c <> id) (ss_counters s)).
