(* ===== verification/MemoryGovernance.v ===== *)
(** * Memory governance of transactions

    Models [transaction_memory_governance.{hpp,cpp}] and [transaction_memory_hooks.cpp]
    of [src/project/src/transaction/mga]: reservations under a hard limit with their
    accounting by transaction, scope and use.  The process allocator behind it is an
    argument: its answer to each request, any answer.  [std::map] is a finite map,
    taken in key order where the order shows; the memory handle that a reservation
    carries has no contents here. *)

From stdpp Require Import strings.
From S2P Require Import Prelude Platform.

Inductive MgaTransactionMemoryUseKind :=
| muk_transaction_snapshot | muk_long_reader_snapshot | muk_version_chain_cleanup | muk_rollback_cleanup
| muk_abort_cleanup | muk_savepoint_cleanup | muk_cleanup_sweep | muk_recovery_scan.

#[export] Instance MemoryUseKind_eq_dec : EqDecision MgaTransactionMemoryUseKind.
Proof. solve_decision. Defined.

(** The enumerators in order, as [std::map] compares them. *)
Definition use_kind_index (k : MgaTransactionMemoryUseKind) : N :=
  match k with
  | muk_transaction_snapshot => 0 | muk_long_reader_snapshot => 1 | muk_version_chain_cleanup => 2
  | muk_rollback_cleanup => 3 | muk_abort_cleanup => 4 | muk_savepoint_cleanup => 5
  | muk_cleanup_sweep => 6 | muk_recovery_scan => 7
  end.

Record MgaTransactionMemoryAuthority := mkMemoryAuthority {
  mau_engine_mga_transaction_inventory_authoritative : bool;
  mau_parser_or_client_authority : bool;
  mau_reference_authority : bool;
  mau_wal_or_redo_authority : bool;
  mau_memory_pressure_finality_authority : bool }.

Record MgaTransactionMemoryRequest := mkMemoryRequest {
  mrq_use_kind : MgaTransactionMemoryUseKind;
  mrq_transaction_id : string;
  mrq_scope_id : string;
  mrq_purpose : string;
  mrq_bytes : N;
  mrq_authority : MgaTransactionMemoryAuthority }.

Record MgaTransactionMemoryReservation := mkMemoryReservation {
  mrv_reservation_id : string;
  mrv_use_kind : MgaTransactionMemoryUseKind;
  mrv_transaction_id : string;
  mrv_scope_id : string;
  mrv_bytes : N }.

Definition MgaTransactionMemoryReservation_default : MgaTransactionMemoryReservation :=
  mkMemoryReservation "" muk_transaction_snapshot "" "" 0.

Record MgaTransactionMemoryResult := mkMemoryResult {
  mrs_status : Status;
  mrs_fail_closed : bool;
  mrs_reservation : MgaTransactionMemoryReservation;
  mrs_diagnostic : DiagnosticRecord;
  mrs_evidence : list string }.

Definition mrs_ok (r : MgaTransactionMemoryResult) : bool := status_ok (mrs_status r) && negb (mrs_fail_closed r).

Record MgaTransactionMemorySnapshot := mkMemorySnapshot {
  mss_current_bytes : N;
  mss_peak_bytes : N;
  mss_active_reservations : N;
  mss_refused_count : N;
  mss_bytes_by_transaction : gmap string N;
  mss_bytes_by_scope : gmap string N;
  mss_bytes_by_use : gmap N N }.

Definition MgaTransactionMemorySnapshot_default : MgaTransactionMemorySnapshot := mkMemorySnapshot 0 0 0 0 ∅ ∅ ∅.

Record MgaTransactionMemoryGovernor := mkGovernor {
  gov_memory_manager : bool;  (* whether the pointer is not null *)
  gov_hard_limit_bytes : N;
  gov_next_reservation_sequence : N;
  gov_snapshot : MgaTransactionMemorySnapshot;
  gov_active : gmap string MgaTransactionMemoryReservation }.

Definition MakeGovernor (memory_manager : bool) (hard_limit_bytes : N) : MgaTransactionMemoryGovernor :=
  mkGovernor memory_manager hard_limit_bytes 1 MgaTransactionMemorySnapshot_default ∅.

(** ** Tags *)

Inductive MemoryCategory :=
| mcat_unknown | mcat_core_runtime | mcat_page_buffer | mcat_catalog_bootstrap | mcat_resource_seed
| mcat_datatype_payload | mcat_transaction_local | mcat_transaction_snapshot | mcat_version_chain | mcat_cleanup
| mcat_archive | mcat_metrics | mcat_diagnostics | mcat_executor_query_reserved | mcat_parser_handoff_reserved
| mcat_udr_reserved | mcat_llvm_code_reserved | mcat_llvm_data_reserved | mcat_gpu_host_pinned_reserved
| mcat_gpu_device_reserved | mcat_cluster_control_reserved | mcat_cluster_decision_reserved | mcat_test_probe.

Inductive MemoryLifetime :=
| mlt_unknown | mlt_process | mlt_database | mlt_connection | mlt_transaction | mlt_statement | mlt_page_buffer
| mlt_arena | mlt_temporary | mlt_deferred_epoch | mlt_static_reserved.

(** The binary ownership of a tag is left at its default here and is not a field. *)
Record MemoryTag := mkMemoryTag {
  mtag_subsystem : Subsystem;
  mtag_purpose : string;
  mtag_category : MemoryCategory;
  mtag_lifetime : MemoryLifetime;
  mtag_owner : string;
  mtag_context_id : string;
  mtag_database_id : string;
  mtag_session_id : string;
  mtag_transaction_id : string;
  mtag_statement_id : string;
  mtag_query_id : string;
  mtag_callsite : string }.

Record MgaMemoryHook := mkMemoryHook {
  mh_category : MemoryCategory;
  mh_lifetime : MemoryLifetime;
  mh_purpose : string;
  mh_implemented_now : bool }.

Definition MgaMemoryHooks : list MgaMemoryHook :=
  [mkMemoryHook mcat_transaction_local mlt_transaction "local_transaction_inventory" true;
   mkMemoryHook mcat_transaction_snapshot mlt_transaction "snapshot_visibility_state" true;
   mkMemoryHook mcat_version_chain mlt_deferred_epoch "mga_version_chain_reclamation" true;
   mkMemoryHook mcat_cleanup mlt_deferred_epoch "cleanup_horizon_work" true;
   mkMemoryHook mcat_archive mlt_database "archive_retention_work" false].

(** [None] is the null pointer. *)
Definition MakeMgaMemoryTag (category : MemoryCategory) (purpose : option string) (lifetime : MemoryLifetime) : MemoryTag :=
  mkMemoryTag sub_transaction_mga (default "mga_memory"%string purpose) category lifetime "transaction.mga" "mga" "" "" "" ""
    "" "".

Definition CategoryFor (k : MgaTransactionMemoryUseKind) : MemoryCategory :=
  match k with
  | muk_transaction_snapshot | muk_long_reader_snapshot => mcat_transaction_snapshot
  | muk_version_chain_cleanup => mcat_version_chain
  | muk_rollback_cleanup | muk_abort_cleanup | muk_savepoint_cleanup | muk_cleanup_sweep => mcat_cleanup
  | muk_recovery_scan => mcat_transaction_local
  end.

Definition LifetimeFor (k : MgaTransactionMemoryUseKind) : MemoryLifetime :=
  match k with
  | muk_transaction_snapshot | muk_long_reader_snapshot => mlt_transaction
  | muk_version_chain_cleanup | muk_cleanup_sweep => mlt_deferred_epoch
  | muk_rollback_cleanup | muk_abort_cleanup | muk_savepoint_cleanup => mlt_transaction
  | muk_recovery_scan => mlt_temporary
  end.

Definition MgaTransactionMemoryUseKindName (k : MgaTransactionMemoryUseKind) : string :=
  match k with
  | muk_transaction_snapshot => "transaction_snapshot"
  | muk_long_reader_snapshot => "long_reader_snapshot"
  | muk_version_chain_cleanup => "version_chain_cleanup"
  | muk_rollback_cleanup => "rollback_cleanup"
  | muk_abort_cleanup => "abort_cleanup"
  | muk_savepoint_cleanup => "savepoint_cleanup"
  | muk_cleanup_sweep => "cleanup_sweep"
  | muk_recovery_scan => "recovery_scan"
  end%string.

(** The tag an acquisition hands to the allocator. *)
Definition acquire_tag (request : MgaTransactionMemoryRequest) : MemoryTag :=
  let name := MgaTransactionMemoryUseKindName (mrq_use_kind request) in
  let tag := MakeMgaMemoryTag (CategoryFor (mrq_use_kind request)) (Some name) (LifetimeFor (mrq_use_kind request)) in
  mkMemoryTag (mtag_subsystem tag) (if decide (mrq_purpose request = ""%string) then name else mrq_purpose request)
    (mtag_category tag) (mtag_lifetime tag) "transaction.mga" (mrq_scope_id request) (mtag_database_id tag)
    (mtag_session_id tag) (mrq_transaction_id request) (mtag_statement_id tag) (mtag_query_id tag) (mtag_callsite tag).

(** ** Accounting *)

Definition AddWouldOverflow (l r : N) : bool := bool_decide (0 < r) && bool_decide (u64_max - r < l).

Definition kAuthorityBoundary : string :=
  "mga_memory.authority_scope=evidence_only_not_transaction_finality_visibility_security_recovery_parser_reference_wal_or_benchmark_authority".

Definition MemoryErrorStatus : Status := mkStatus sc_memory_invalid_request sev_error sub_transaction_mga.

Definition set_snapshot (s : MgaTransactionMemorySnapshot) (g : MgaTransactionMemoryGovernor) : MgaTransactionMemoryGovernor :=
  mkGovernor (gov_memory_manager g) (gov_hard_limit_bytes g) (gov_next_reservation_sequence g) s (gov_active g).

Definition count_refused (g : MgaTransactionMemoryGovernor) : MgaTransactionMemoryGovernor :=
  let s := gov_snapshot g in
  set_snapshot (mkMemorySnapshot (mss_current_bytes s) (mss_peak_bytes s) (mss_active_reservations s)
                  (u64_add (mss_refused_count s) 1) (mss_bytes_by_transaction s) (mss_bytes_by_scope s)
                  (mss_bytes_by_use s)) g.

Definition FailClosed (request : MgaTransactionMemoryRequest) (code key reason : string) (g : MgaTransactionMemoryGovernor)
    : MgaTransactionMemoryResult * MgaTransactionMemoryGovernor :=
  (mkMemoryResult MemoryErrorStatus true MgaTransactionMemoryReservation_default
     (MakeDiagnostic sc_memory_invalid_request sev_error sub_transaction_mga code key
        [mkDiagnosticArgument "use_kind" (dav_text (MgaTransactionMemoryUseKindName (mrq_use_kind request)));
         mkDiagnosticArgument "transaction_id" (dav_text (mrq_transaction_id request));
         mkDiagnosticArgument "scope_id" (dav_text (mrq_scope_id request));
         mkDiagnosticArgument "reason" (dav_text reason)] ""
        "transaction.mga.memory_governance" "fail closed without changing transaction finality or visibility")
     ["MMCH_MGA_TRANSACTION_MEMORY_GOVERNANCE"; kAuthorityBoundary; "mga_memory.fail_closed=true";
      ("mga_memory.reason=" +:+ reason)]%string,
   count_refused g).

(** [map[key] += bytes]: a missing key starts at zero. *)
Definition add_bytes {K} `{Countable K} (key : K) (bytes : N) (m : gmap K N) : gmap K N :=
  <[key := u64_add (default 0 (m !! key)) bytes]> m.

(** The [remove] lambda: subtract, saturating, and drop the key at zero. *)
Definition remove_bytes {K} `{Countable K} (key : K) (bytes : N) (m : gmap K N) : gmap K N :=
  match m !! key with
  | None => m
  | Some held =>
      let left := if decide (held <= bytes) then 0 else u64_sub held bytes in
      if decide (left = 0) then delete key m else <[key := left]> m
  end.

Definition AddAccounting (r : MgaTransactionMemoryReservation) (g : MgaTransactionMemoryGovernor)
    : MgaTransactionMemoryGovernor :=
  let s := gov_snapshot g in
  let current := u64_add (mss_current_bytes s) (mrv_bytes r) in
  set_snapshot
    (mkMemorySnapshot current (N.max (mss_peak_bytes s) current) (N.of_nat (size (gov_active g))) (mss_refused_count s)
       (add_bytes (mrv_transaction_id r) (mrv_bytes r) (mss_bytes_by_transaction s))
       (add_bytes (mrv_scope_id r) (mrv_bytes r) (mss_bytes_by_scope s))
       (add_bytes (use_kind_index (mrv_use_kind r)) (mrv_bytes r) (mss_bytes_by_use s))) g.

Definition RemoveAccounting (r : MgaTransactionMemoryReservation) (g : MgaTransactionMemoryGovernor)
    : MgaTransactionMemoryGovernor :=
  let s := gov_snapshot g in
  set_snapshot
    (mkMemorySnapshot
       (if decide (mss_current_bytes s <= mrv_bytes r) then 0 else u64_sub (mss_current_bytes s) (mrv_bytes r))
       (mss_peak_bytes s) (N.of_nat (size (gov_active g))) (mss_refused_count s)
       (remove_bytes (mrv_transaction_id r) (mrv_bytes r) (mss_bytes_by_transaction s))
       (remove_bytes (mrv_scope_id r) (mrv_bytes r) (mss_bytes_by_scope s))
       (remove_bytes (use_kind_index (mrv_use_kind r)) (mrv_bytes r) (mss_bytes_by_use s))) g.

(** ** Operations *)

(** The allocator's answer: nothing when it allocates, its status and diagnostic when
    it does not. *)
Definition allocator : Type := MemoryTag -> N -> option (Status * DiagnosticRecord).

Definition governor_Acquire (allocate : allocator) (request : MgaTransactionMemoryRequest) (g : MgaTransactionMemoryGovernor)
    : MgaTransactionMemoryResult * MgaTransactionMemoryGovernor :=
  let a := mrq_authority request in
  let current := mss_current_bytes (gov_snapshot g) in
  if negb (gov_memory_manager g) then
    FailClosed request "mga_memory_missing_allocator" "transaction.mga.memory.missing_allocator" "memory_manager_required" g
  else if decide (mrq_bytes request = 0) then
    FailClosed request "mga_memory_zero_size" "transaction.mga.memory.zero_size" "bytes_required" g
  else if decide (mrq_transaction_id request = ""%string \/ mrq_scope_id request = ""%string) then
    FailClosed request "mga_memory_missing_scope" "transaction.mga.memory.missing_scope" "transaction_and_scope_required" g
  else if negb (mau_engine_mga_transaction_inventory_authoritative a) then
    FailClosed request "mga_memory_missing_inventory_authority" "transaction.mga.memory.missing_inventory_authority"
      "mga_inventory_authority_required" g
  else if mau_parser_or_client_authority a || mau_reference_authority a || mau_wal_or_redo_authority a ||
          mau_memory_pressure_finality_authority a then
    FailClosed request "mga_memory_unsafe_authority" "transaction.mga.memory.unsafe_authority"
      "parser_client_reference_wal_or_memory_finality_authority_claimed" g
  else if AddWouldOverflow current (mrq_bytes request) ||
          bool_decide (gov_hard_limit_bytes g <> 0) &&
          bool_decide (gov_hard_limit_bytes g < u64_add current (mrq_bytes request)) then
    FailClosed request "mga_memory_budget_exceeded" "transaction.mga.memory.budget_exceeded"
      "transaction_memory_budget_exceeded" g
  else match allocate (acquire_tag request) (mrq_bytes request) with
  | Some (status, diagnostic) =>
      (mkMemoryResult status true MgaTransactionMemoryReservation_default diagnostic
         ["MMCH_MGA_TRANSACTION_MEMORY_GOVERNANCE"; kAuthorityBoundary; "mga_memory.fail_closed=true";
          "mga_memory.reason=allocator_refused"]%string,
       count_refused g)
  | None =>
      let id := ("mga-memory-" +:+ to_string (gov_next_reservation_sequence g))%string in
      let reservation := mkMemoryReservation id (mrq_use_kind request) (mrq_transaction_id request)
                           (mrq_scope_id request) (mrq_bytes request) in
      let g := mkGovernor (gov_memory_manager g) (gov_hard_limit_bytes g) (u64_add (gov_next_reservation_sequence g) 1)
                 (gov_snapshot g) (<[id := reservation]> (gov_active g)) in
      (mkMemoryResult MgaOkStatus false reservation DiagnosticRecord_default
         ["MMCH_MGA_TRANSACTION_MEMORY_GOVERNANCE"; kAuthorityBoundary; "mga_memory.granted=true";
          ("mga_memory.use_kind=" +:+ MgaTransactionMemoryUseKindName (mrq_use_kind request));
          ("mga_memory.reservation_id=" +:+ id)]%string,
       AddAccounting reservation g)
  end.

(** Erasing a reservation and taking it out of the accounts. *)
Definition erase_reservation (id : string) (r : MgaTransactionMemoryReservation) (g : MgaTransactionMemoryGovernor)
    : MgaTransactionMemoryGovernor :=
  RemoveAccounting r (mkGovernor (gov_memory_manager g) (gov_hard_limit_bytes g) (gov_next_reservation_sequence g)
                        (gov_snapshot g) (delete id (gov_active g))).

Definition governor_Release (reservation_id : string) (g : MgaTransactionMemoryGovernor)
    : MgaTransactionMemoryResult * MgaTransactionMemoryGovernor :=
  match gov_active g !! reservation_id with
  | None =>
      FailClosed (mkMemoryRequest muk_transaction_snapshot "" reservation_id "" 0
                    (mkMemoryAuthority true false false false false))
        "mga_memory_unknown_reservation" "transaction.mga.memory.unknown_reservation" "reservation_not_found" g
  | Some reservation =>
      (mkMemoryResult MgaOkStatus false reservation DiagnosticRecord_default
         ["MMCH_MGA_TRANSACTION_MEMORY_GOVERNANCE"; kAuthorityBoundary; "mga_memory.released=true";
          ("mga_memory.reservation_id=" +:+ mrv_reservation_id reservation)]%string,
       erase_reservation reservation_id reservation g)
  end.

Definition release_matches (scope_id transaction_id : string) (r : MgaTransactionMemoryReservation) : bool :=
  (bool_decide (scope_id <> ""%string) && bool_decide (mrv_scope_id r = scope_id)) ||
  (bool_decide (transaction_id <> ""%string) && bool_decide (mrv_transaction_id r = transaction_id)).

(** The loop over the collected identifiers, with the two totals. *)
Definition release_one (acc : (N * N) * MgaTransactionMemoryGovernor) (id : string) : (N * N) * MgaTransactionMemoryGovernor :=
  let '((bytes, count), g) := acc in
  match gov_active g !! id with
  | None => acc
  | Some r => ((u64_add bytes (mrv_bytes r), u64_add count 1), erase_reservation id r g)
  end.

Definition ReleaseWhere (scope_id transaction_id operation : string) (g : MgaTransactionMemoryGovernor)
    : MgaTransactionMemoryResult * MgaTransactionMemoryGovernor :=
  let ids := fst <$> filter (fun p => release_matches scope_id transaction_id p.2 = true) (map_in_order (gov_active g)) in
  let '((bytes, count), g') := foldl release_one ((0, 0), g) ids in
  (mkMemoryResult MgaOkStatus false MgaTransactionMemoryReservation_default DiagnosticRecord_default
     ["MMCH_MGA_TRANSACTION_MEMORY_GOVERNANCE"; kAuthorityBoundary; ("mga_memory." +:+ operation +:+ "=true");
      ("mga_memory.released_count=" +:+ to_string count); ("mga_memory.released_bytes=" +:+ to_string bytes)]%string,
   g').

Definition ReleaseScope (scope_id : string) : MgaTransactionMemoryGovernor -> MgaTransactionMemoryResult * MgaTransactionMemoryGovernor :=
  ReleaseWhere scope_id "" "scope_release".
Definition CancelTransaction (transaction_id : string)
    : MgaTransactionMemoryGovernor -> MgaTransactionMemoryResult * MgaTransactionMemoryGovernor :=
  ReleaseWhere "" transaction_id "transaction_cancel".

Definition governor_Snapshot (g : MgaTransactionMemoryGovernor) : MgaTransactionMemorySnapshot :=
  let s := gov_snapshot g in
  mkMemorySnapshot (mss_current_bytes s) (mss_peak_bytes s) (N.of_nat (size (gov_active g))) (mss_refused_count s)
    (mss_bytes_by_transaction s) (mss_bytes_by_scope s) (mss_bytes_by_use s).
