(* ===== verification/OptimizerPressure.v ===== *)
(** * Optimizer pressure metrics

    Models [optimizer_mga_pressure_metrics.{hpp,cpp}]: the gate that lets a sample of
    transaction pressure reach the optimizer's gauges.  The metric registry is an
    argument, a record of its three answers; a double is a finite rational, an infinity
    or not a number. *)

From Stdlib Require Import QArith.
From S2P Require Import Prelude Platform.

Local Open Scope N_scope.
Local Open Scope string_scope.

Record OptimizerMgaPressureAuthority := mkPressureAuthority {
  pa_transaction_inventory_authoritative : bool;
  pa_cleanup_horizon_authoritative : bool;
  pa_row_version_runtime_authoritative : bool;
  pa_engine_scope_bound : bool;
  pa_parser_or_reference_authority : bool;
  pa_client_finality_or_visibility_authority : bool;
  pa_metric_visibility_or_finality_authority : bool;
  pa_metric_recovery_authority : bool;
  pa_external_log_replay_authority : bool;
  pa_benchmark_authority : bool }.

(** A double, as far as the gate looks at it. *)
Inductive double := Finite (q : Q) | Infinite | NotANumber.

Record OptimizerMgaPressureSample := mkPressureSample {
  ps_scope_uuid : Uuid;
  ps_database_uuid : Uuid;
  ps_node_uuid : Uuid;
  ps_route_label : string;
  ps_relation_uuid : Uuid;
  ps_page_class : string;
  ps_evidence_digest : string;
  ps_source_generation : N;
  ps_cleanup_debt_bytes : N;
  ps_retained_dead_bytes : N;
  ps_chain_depth_bucket : N;
  ps_chain_scatter_bucket : N;
  ps_same_page_update_ratio : double;
  ps_commit_fence_backlog : N;
  ps_authoritative_cleanup_horizon_local_transaction_id : option N;
  ps_retained_row_versions : option N;
  ps_freshness_microseconds : N;
  ps_max_freshness_microseconds : N;
  ps_authority : OptimizerMgaPressureAuthority }.

Record MetricValidationResult := mkMetricResult { mr_ok : bool; mr_diagnostic_code : string; mr_detail : string }.

Record OptimizerMgaPressurePublishResult := mkPressureResult {
  pp_ok : bool;
  pp_diagnostic_code : string;
  pp_detail : string;
  pp_evidence : list string;
  pp_relation_uuid : Uuid;
  pp_metric_results : list MetricValidationResult }.

(** ** Descriptors *)

Inductive MetricUnit := unit_bytes | unit_none | unit_ratio.
Inductive MetricScalarType := scalar_uint64 | scalar_float64.
#[export] Instance MetricUnit_eq_dec : EqDecision MetricUnit.
Proof. solve_decision. Defined.

Record MetricLabelDescriptor := mkLabelDescriptor { ld_key : string; ld_required : bool; ld_sensitive : bool; ld_uuid : bool }.

(** The fields a definition of this file sets; every one is a gauge. *)
Record MetricDescriptorDefinition := mkDescriptor {
  md_family : string;
  md_unit : MetricUnit;
  md_namespace_path : string;
  md_help : string;
  md_producer_owner : string;
  md_security_family : string;
  md_value_type : MetricScalarType;
  md_labels : list MetricLabelDescriptor }.

Definition Descriptor (family : string) (unit : MetricUnit) (producer_owner help : string) : MetricDescriptorDefinition :=
  mkDescriptor family unit "sys.metrics.optimizer.enterprise" help producer_owner "OPTIMIZER_METRICS"
    (if decide (unit = unit_ratio) then scalar_float64 else scalar_uint64)
    [mkLabelDescriptor "scope_uuid" true false true; mkLabelDescriptor "route_label" true false false;
     mkLabelDescriptor "plan_node_id" false false false; mkLabelDescriptor "metric_family" true false false;
     mkLabelDescriptor "result" false false false; mkLabelDescriptor "source_generation" true false false;
     mkLabelDescriptor "evidence_digest" true true false].

Definition OptimizerMgaPressureMetricDescriptorDefinitions : list MetricDescriptorDefinition :=
  [Descriptor "sb_optimizer_mga_cleanup_debt" unit_bytes "transaction_mga_cleanup" "MGA cleanup debt bytes visible to optimizer costing.";
   Descriptor "sb_optimizer_mga_retained_dead_bytes" unit_bytes "transaction_mga_cleanup" "MGA retained dead bytes visible to optimizer costing.";
   Descriptor "sb_optimizer_mga_chain_depth" unit_none "row_version_runtime" "MGA row-version chain depth bucket.";
   Descriptor "sb_optimizer_mga_chain_scatter" unit_none "row_version_runtime" "MGA row-version chain scatter bucket.";
   Descriptor "sb_optimizer_same_page_update_ratio" unit_ratio "row_version_runtime" "MGA same-page update ratio.";
   Descriptor "sb_optimizer_commit_fence_pressure" unit_none "transaction_manager" "Commit fence pressure visible to optimizer costing."].

(** ** The registry *)

Inductive MetricScalar := scalar_of_u64 (n : N) | scalar_of_double (d : double).
Inductive MetricLabel := label_uuid (u : Uuid) | label_text (s : string).

Record gauge_call := mkGaugeCall {
  gc_family : string;
  gc_labels : list (string * MetricLabel);
  gc_value : MetricScalar;
  gc_producer_owner : string }.

Record MetricRegistry := mkRegistry {
  reg_observation_owner_matches : Uuid -> Uuid -> bool;
  reg_validate_bound_definition : MetricDescriptorDefinition -> MetricValidationResult;
  reg_set_gauge : gauge_call -> MetricValidationResult }.

Definition MetricOk : MetricValidationResult := mkMetricResult true "" "".

Definition EnsureOptimizerMgaPressureMetricDescriptors (registry : MetricRegistry) : MetricValidationResult :=
  default MetricOk (snd <$> list_find (fun r => mr_ok r = false)
    (reg_validate_bound_definition registry <$> OptimizerMgaPressureMetricDescriptorDefinitions)).

(** ** The gate *)

Definition UnsafeAuthority (a : OptimizerMgaPressureAuthority) : bool :=
  pa_parser_or_reference_authority a || pa_client_finality_or_visibility_authority a ||
  pa_metric_visibility_or_finality_authority a || pa_metric_recovery_authority a ||
  pa_external_log_replay_authority a || pa_benchmark_authority a.

Definition RefusePressure (s : OptimizerMgaPressureSample) (code detail : string) : OptimizerMgaPressurePublishResult :=
  mkPressureResult false code detail
    ["OEIC_MGA_PRESSURE_OPTIMIZER_METRICS"; "optimizer.mga_pressure.fail_closed=true";
     "optimizer.mga_pressure.refused=" +:+ code] (ps_relation_uuid s) [].

(** The first required field that is missing. *)
Definition EmptyRequiredField (s : OptimizerMgaPressureSample) : option string :=
  if negb (IsEngineIdentityUuid (ps_scope_uuid s)) then Some "scope_uuid"
  else if decide (ps_route_label s = "") then Some "route_label"
  else if negb (IsEngineIdentityUuid (ps_relation_uuid s)) then Some "relation_uuid"
  else if negb (IsEngineIdentityUuid (ps_database_uuid s)) || negb (IsEngineIdentityUuid (ps_node_uuid s)) then Some "observation_owner"
  else if decide (ps_retained_row_versions s = None) then Some "retained_row_versions"
  else if decide (ps_page_class s = "") then Some "page_class"
  else if decide (ps_evidence_digest s = "") then Some "evidence_digest"
  else None.

Definition LabelsFor (s : OptimizerMgaPressureSample) (metric_family : string) : list (string * MetricLabel) :=
  [("scope_uuid", label_uuid (ps_scope_uuid s)); ("route_label", label_text (ps_route_label s));
   ("metric_family", label_text metric_family); ("source_generation", label_text (to_string (ps_source_generation s)));
   ("evidence_digest", label_text (ps_evidence_digest s))].

Definition PushMetric (registry : MetricRegistry) (r : OptimizerMgaPressurePublishResult) (call : gauge_call)
    : OptimizerMgaPressurePublishResult :=
  let m := reg_set_gauge registry call in
  let ok := if mr_ok m then pp_ok r else false in
  let '(code, detail) :=
    if negb (mr_ok m) && bool_decide (pp_diagnostic_code r = "") then (mr_diagnostic_code m, mr_detail m)
    else (pp_diagnostic_code r, pp_detail r) in
  mkPressureResult ok code detail (pp_evidence r) (pp_relation_uuid r) (pp_metric_results r ++ [m]).

(** The calls on the registry, in their order. *)
Definition pressure_gauges (s : OptimizerMgaPressureSample) (horizon retained : N) : list gauge_call :=
  let gauge family metric value owner := mkGaugeCall family (LabelsFor s metric) value owner in
  let cleanup family value :=
    mkGaugeCall family [("component", label_text "transaction.mga.cleanup"); ("authority", label_text "local_inventory")]
      (scalar_of_u64 value) "transaction_mga_cleanup" in
  [gauge "sb_optimizer_mga_cleanup_debt" "mga_cleanup_debt" (scalar_of_u64 (ps_cleanup_debt_bytes s)) "transaction_mga_cleanup";
   gauge "sb_optimizer_mga_retained_dead_bytes" "mga_retained_dead_bytes" (scalar_of_u64 (ps_retained_dead_bytes s)) "transaction_mga_cleanup";
   gauge "sb_optimizer_mga_chain_depth" "mga_chain_depth" (scalar_of_u64 (ps_chain_depth_bucket s)) "row_version_runtime";
   gauge "sb_optimizer_mga_chain_scatter" "mga_chain_scatter" (scalar_of_u64 (ps_chain_scatter_bucket s)) "row_version_runtime";
   gauge "sb_optimizer_same_page_update_ratio" "same_page_update_ratio" (scalar_of_double (ps_same_page_update_ratio s)) "row_version_runtime";
   gauge "sb_optimizer_commit_fence_pressure" "commit_fence_pressure" (scalar_of_u64 (ps_commit_fence_backlog s)) "transaction_manager";
   cleanup "sb_mga_cleanup_horizon_local_transaction_id" horizon;
   cleanup "sb_mga_cleanup_retained_row_versions" retained].

Definition ratio_invalid (d : double) : bool :=
  match d with Finite q => negb (Qle_bool 0 q && Qle_bool q 1) | _ => true end.

Definition authority_missing (a : OptimizerMgaPressureAuthority) : bool :=
  negb (pa_transaction_inventory_authoritative a) || negb (pa_cleanup_horizon_authoritative a) ||
  negb (pa_row_version_runtime_authoritative a) || negb (pa_engine_scope_bound a).

Definition pressure_ok (s : OptimizerMgaPressureSample) : OptimizerMgaPressurePublishResult :=
  mkPressureResult true "SB_OPTIMIZER_MGA_PRESSURE.OK" ""
    ["OEIC_MGA_PRESSURE_OPTIMIZER_METRICS"; "optimizer.mga_pressure.fail_closed=false"; "optimizer.mga_pressure.advisory_only=true";
     "optimizer.mga_pressure.finality_authority=false"; "optimizer.mga_pressure.visibility_authority=false";
     "optimizer.mga_pressure.security_authority=false"; "optimizer.mga_pressure.recovery_authority=false";
     "optimizer.mga_pressure.external_log_replay_authority=false"] (ps_relation_uuid s) [].

Definition publish_gauges (registry : MetricRegistry) (s : OptimizerMgaPressureSample) (horizon retained : N)
    : OptimizerMgaPressurePublishResult :=
  let r := foldl (PushMetric registry) (pressure_ok s) (pressure_gauges s horizon retained) in
  if negb (pp_ok r) && bool_decide (pp_diagnostic_code r = "SB_OPTIMIZER_MGA_PRESSURE.OK") then
    mkPressureResult false "SB_OPTIMIZER_MGA_PRESSURE.METRIC_PUBLISH_FAILED" "optimizer.mga_pressure.metric_publish_failed"
      (pp_evidence r) (pp_relation_uuid r) (pp_metric_results r)
  else r.

(** The two optional measurements are present once the first two checks have passed. *)
Definition PublishOptimizerMgaPressureMetrics (registry : MetricRegistry) (s : OptimizerMgaPressureSample)
    : OptimizerMgaPressurePublishResult :=
  match EmptyRequiredField s with
  | Some field =>
    RefusePressure s "SB_OPTIMIZER_MGA_PRESSURE.MISSING_SCOPE" ("optimizer.mga_pressure.required_field_missing:" +:+ field)
  | None =>
    if decide (ps_source_generation s = 0 \/ ps_authoritative_cleanup_horizon_local_transaction_id s = None) then
      RefusePressure s "SB_OPTIMIZER_MGA_PRESSURE.GENERATION_REQUIRED" "optimizer.mga_pressure.generation_required"
    else if decide (ps_max_freshness_microseconds s < ps_freshness_microseconds s) then
      RefusePressure s "SB_OPTIMIZER_MGA_PRESSURE.STALE" "optimizer.mga_pressure.stale"
    else if authority_missing (ps_authority s) then
      RefusePressure s "SB_OPTIMIZER_MGA_PRESSURE.MGA_AUTHORITY_REQUIRED" "optimizer.mga_pressure.mga_authority_required"
    else if UnsafeAuthority (ps_authority s) then
      RefusePressure s "SB_OPTIMIZER_MGA_PRESSURE.UNSAFE_AUTHORITY" "optimizer.mga_pressure.unsafe_authority"
    else if ratio_invalid (ps_same_page_update_ratio s) then
      RefusePressure s "SB_OPTIMIZER_MGA_PRESSURE.RATIO_INVALID" "optimizer.mga_pressure.same_page_ratio_invalid"
    else if negb (reg_observation_owner_matches registry (ps_database_uuid s) (ps_node_uuid s)) then
      RefusePressure s "METRIC.OBSERVATION_SOURCE_UNAVAILABLE" "MGA sample does not match the bound observation owner"
    else
      let descriptors := EnsureOptimizerMgaPressureMetricDescriptors registry in
      if negb (mr_ok descriptors) then RefusePressure s (mr_diagnostic_code descriptors) (mr_detail descriptors)
      else publish_gauges registry s (default 0 (ps_authoritative_cleanup_horizon_local_transaction_id s))
             (default 0 (ps_retained_row_versions s))
  end.

(** ** What the gate guarantees *)

(** A sample that may reach the gauges of a registry. *)
Record admissible (registry : MetricRegistry) (s : OptimizerMgaPressureSample) : Prop := {
  ad_fields : EmptyRequiredField s = None;
  ad_generation : ps_source_generation s <> 0;
  ad_horizon : is_Some (ps_authoritative_cleanup_horizon_local_transaction_id s);
  ad_fresh : ps_freshness_microseconds s <= ps_max_freshness_microseconds s;
  ad_authority : authority_missing (ps_authority s) = false;
  ad_safe : UnsafeAuthority (ps_authority s) = false;
  ad_ratio : exists q, ps_same_page_update_ratio s = Finite q /\ (0 <= q)%Q /\ (q <= 1)%Q;
  ad_owner : reg_observation_owner_matches registry (ps_database_uuid s) (ps_node_uuid s) = true;
  ad_descriptors : Forall (fun d => mr_ok (reg_validate_bound_definition registry d) = true) OptimizerMgaPressureMetricDescriptorDefinitions }.

Lemma descriptors_ok registry :
  mr_ok (EnsureOptimizerMgaPressureMetricDescriptors registry) = true <->
  Forall (fun d => mr_ok (reg_validate_bound_definition registry d) = true) OptimizerMgaPressureMetricDescriptorDefinitions.
Proof.
  unfold EnsureOptimizerMgaPressureMetricDescriptors. destruct (list_find _ _) as [[i r]|] eqn:H.
  - apply list_find_Some in H as (Hi & Hr & _). change (mr_ok (default MetricOk (snd <$> Some (i, r)))) with (mr_ok r). rewrite Hr. split; [done|]. intros Hall.
    apply list_lookup_fmap_Some in Hi as (d & -> & Hd). rewrite Forall_lookup in Hall. by rewrite (Hall _ _ Hd) in Hr.
  - apply list_find_None in H. rewrite Forall_fmap in H. split; [|done]. intros _.
    eapply Forall_impl; [exact H|]. intros d Hd. cbn in Hd. by destruct (mr_ok _).
Qed.

Lemma ratio_valid d : ratio_invalid d = false <-> exists q, d = Finite q /\ (0 <= q)%Q /\ (q <= 1)%Q.
Proof.
  destruct d as [q| |]; cbn [ratio_invalid]; [|naive_solver..]. rewrite negb_false_iff, andb_true_iff, !Qle_bool_iff. naive_solver.
Qed.

(** Publishing never changes the code, which is not empty, and collects the answers. *)
Lemma push_all registry calls r :
  pp_diagnostic_code r <> "" ->
  foldl (PushMetric registry) r calls =
  mkPressureResult (pp_ok r && forallb (fun c => mr_ok (reg_set_gauge registry c)) calls) (pp_diagnostic_code r) (pp_detail r)
    (pp_evidence r) (pp_relation_uuid r) (pp_metric_results r ++ (reg_set_gauge registry <$> calls)).
Proof.
  revert r. induction calls as [|c calls IH]; intros r Hr; cbn [foldl].
  { destruct r. cbn. by rewrite andb_true_r, app_nil_r. }
  unfold PushMetric at 2. rewrite (bool_decide_false (pp_diagnostic_code r = "")) by done. rewrite andb_false_r. rewrite IH by done.
  cbn [pp_ok pp_diagnostic_code pp_detail pp_evidence pp_relation_uuid pp_metric_results forallb fmap list_fmap].
  rewrite <- app_assoc. cbn [app]. f_equal. destruct (mr_ok _), (pp_ok r); done.
Qed.

(** The registry's gauges are set exactly for an admissible sample, all eight of them
    and in order, and the answer is positive exactly when each was accepted.  An
    inadmissible sample sets nothing.  The code of a failed gauge is never the answer's. *)
Theorem pressure_publication_gated registry s :
  let r := PublishOptimizerMgaPressureMetrics registry s in
  (~ admissible registry s -> pp_ok r = false /\ pp_metric_results r = []) /\
  (admissible registry s ->
   exists horizon retained,
     ps_authoritative_cleanup_horizon_local_transaction_id s = Some horizon /\ ps_retained_row_versions s = Some retained /\
     pp_metric_results r = reg_set_gauge registry <$> pressure_gauges s horizon retained /\
     (pp_ok r = true <-> Forall (fun m => mr_ok m = true) (pp_metric_results r)) /\
     pp_diagnostic_code r = if pp_ok r then "SB_OPTIMIZER_MGA_PRESSURE.OK" else "SB_OPTIMIZER_MGA_PRESSURE.METRIC_PUBLISH_FAILED").
Proof.
  cbv zeta. split.
  - intros Hn. unfold PublishOptimizerMgaPressureMetrics. destruct (EmptyRequiredField s) eqn:Hf; [done|].
    case_decide as Hg; [done|]. case_decide; [done|]. destruct (authority_missing _) eqn:Ha; [done|]. destruct (UnsafeAuthority _) eqn:Hu; [done|].
    destruct (ratio_invalid _) eqn:Hr; [done|]. destruct (reg_observation_owner_matches _ _ _) eqn:Ho; [|done]. cbv zeta.
    destruct (mr_ok (EnsureOptimizerMgaPressureMetricDescriptors registry)) eqn:Hd; [|done]. exfalso. apply Hn.
    split; try done; [tauto| |lia|by apply ratio_valid|by apply descriptors_ok].
    destruct (ps_authoritative_cleanup_horizon_local_transaction_id s); [by eexists|tauto].
  - intros [Hf Hg [horizon Hh] Hfresh Ha Hu Hr Ho Hd].
    assert (exists retained, ps_retained_row_versions s = Some retained) as [retained Hret].
    { unfold EmptyRequiredField in Hf. repeat case_match; try done. destruct (ps_retained_row_versions s); [by eexists|done]. }
    exists horizon, retained. split; [done|]. split; [done|]. unfold PublishOptimizerMgaPressureMetrics. rewrite Hf.
    rewrite decide_False by (rewrite Hh; naive_solver). rewrite decide_False by lia. rewrite Ha, Hu. apply ratio_valid in Hr. rewrite Hr, Ho. cbn [negb].
    apply descriptors_ok in Hd. rewrite Hd, Hh, Hret. cbn [negb default]. unfold publish_gauges. rewrite push_all by done.
    cbn [pp_ok pp_diagnostic_code pressure_ok andb pp_metric_results app].
    assert (Hall : forallb (fun c => mr_ok (reg_set_gauge registry c)) (pressure_gauges s horizon retained) = true <->
      Forall (fun m => mr_ok m = true) (reg_set_gauge registry <$> pressure_gauges s horizon retained)).
    { rewrite Forall_fmap, forallb_forall, Forall_forall. setoid_rewrite list_elem_of_In. done. }
    destruct (forallb _ _); cbn [negb andb pp_ok pp_diagnostic_code pp_metric_results]; (split; [reflexivity|]; split; [exact Hall|reflexivity]).
Qed.
