(* ===== verification/Isolation.v ===== *)
(** * Isolation levels and the serializable conflict tracker

    Models [isolation.{hpp,cpp}] of [src/project/src/transaction/mga]. *)

From S2P Require Import Prelude Platform TransactionState Inventory Horizon RowVersion Snapshot.

Inductive IsolationLevel :=
| il_read_committed | il_repeatable_read | il_serializable | il_reference_compatibility | il_unknown.

Inductive SerializableAccessKind :=
| ak_point_read | ak_range_read | ak_predicate_read | ak_insert | ak_update | ak_delete_row | ak_unknown.

Inductive SerializableConflictKind :=
| ck_none | ck_phantom_insert | ck_read_write | ck_write_write | ck_external_authority_refused
| ck_inventory_authority_required | ck_invalid_request | ck_unknown.

Inductive SerializableRetryClass :=
| rt_none | rt_serialization_retry | rt_wait_for_transaction | rt_recovery_required | rt_invalid_request.

#[export] Instance IsolationLevel_eq_dec : EqDecision IsolationLevel.
Proof. solve_decision. Defined.
#[export] Instance SerializableAccessKind_eq_dec : EqDecision SerializableAccessKind.
Proof. solve_decision. Defined.
#[export] Instance SerializableConflictKind_eq_dec : EqDecision SerializableConflictKind.
Proof. solve_decision. Defined.

Record IsolationLevelResult := mkIsolationResult {
  ilr_status : Status;
  ilr_level : IsolationLevel;
  ilr_supported : bool;
  ilr_diagnostic : DiagnosticRecord }.

Definition ilr_ok (r : IsolationLevelResult) : bool := status_ok (ilr_status r) && ilr_supported r.

Record SerializableKeyRange := mkKeyRange {
  kr_relation_uuid : TypedUuid;
  kr_lower_bound : string;
  kr_upper_bound : string;
  kr_lower_unbounded : bool;
  kr_upper_unbounded : bool;
  kr_lower_inclusive : bool;
  kr_upper_inclusive : bool;
  kr_full_relation : bool;
  kr_predicate_digest : string }.

Record SerializableAccessRecord := mkAccess {
  ar_local_id : LocalTransactionId;
  ar_transaction_state : TransactionState;
  ar_kind : SerializableAccessKind;
  ar_range : SerializableKeyRange;
  ar_sequence : N;
  ar_durable_inventory_authoritative : bool;
  ar_parser_or_reference_authority : bool }.

Record SerializableConflictResult := mkConflictResult {
  scr_status : Status;
  scr_conflict : SerializableConflictKind;
  scr_retry_class : SerializableRetryClass;
  scr_admitted : bool;
  scr_diagnostic : DiagnosticRecord;
  scr_evidence : list string }.

Definition scr_ok (r : SerializableConflictResult) : bool := status_ok (scr_status r) && scr_admitted r.

(** [SerializableConflictTracker]: its one field, [accesses_]. *)
Definition SerializableConflictTracker : Type := list SerializableAccessRecord.

(** ** Names *)

Definition IsolationLevelName (l : IsolationLevel) : string :=
  match l with
  | il_read_committed => "read_committed"
  | il_repeatable_read => "repeatable_read"
  | il_serializable => "serializable"
  | il_reference_compatibility => "reference_compatibility"
  | il_unknown => "unknown"
  end.

Definition SerializableAccessKindName (k : SerializableAccessKind) : string :=
  match k with
  | ak_point_read => "point_read"
  | ak_range_read => "range_read"
  | ak_predicate_read => "predicate_read"
  | ak_insert => "insert"
  | ak_update => "update"
  | ak_delete_row => "delete_row"
  | ak_unknown => "unknown"
  end.

Definition SerializableConflictKindName (k : SerializableConflictKind) : string :=
  match k with
  | ck_none => "none"
  | ck_phantom_insert => "phantom_insert"
  | ck_read_write => "read_write"
  | ck_write_write => "write_write"
  | ck_external_authority_refused => "external_authority_refused"
  | ck_inventory_authority_required => "inventory_authority_required"
  | ck_invalid_request => "invalid_request"
  | ck_unknown => "unknown"
  end.

Definition SerializableRetryClassName (c : SerializableRetryClass) : string :=
  match c with
  | rt_none => "none"
  | rt_serialization_retry => "serialization_retry"
  | rt_wait_for_transaction => "wait_for_transaction"
  | rt_recovery_required => "recovery_required"
  | rt_invalid_request => "invalid_request"
  end.

(** ** Predicates *)

Definition SameRelation (l r : SerializableKeyRange) : bool :=
  bool_decide (tu_kind (kr_relation_uuid l) = tu_kind (kr_relation_uuid r)) &&
  bool_decide (tu_value (kr_relation_uuid l) = tu_value (kr_relation_uuid r)).

Definition IsWriteKind (k : SerializableAccessKind) : bool :=
  bool_decide (k = ak_insert) || bool_decide (k = ak_update) || bool_decide (k = ak_delete_row).

Definition IsReadKind (k : SerializableAccessKind) : bool :=
  bool_decide (k = ak_point_read) || bool_decide (k = ak_range_read) ||
  bool_decide (k = ak_predicate_read).

Definition IsPendingFinality (s : TransactionState) : bool :=
  bool_decide (s = ts_active) || bool_decide (s = ts_preparing) ||
  bool_decide (s = ts_prepared) || bool_decide (s = ts_committing).

Definition IsRecoveryState (s : TransactionState) : bool :=
  bool_decide (s = ts_limbo) || bool_decide (s = ts_recovering).

Definition IsValidRelationUuid (u : TypedUuid) : bool :=
  bool_decide (tu_kind u = uk_object) && typed_uuid_valid u && IsEngineIdentityUuid (tu_value u).

(** [std::string] compares by unsigned bytes, as [String.ltb] does. *)
Definition entirely_before (l r : SerializableKeyRange) : bool :=
  negb (kr_upper_unbounded l) && negb (kr_lower_unbounded r) &&
  (String.ltb (kr_upper_bound l) (kr_lower_bound r) ||
   (bool_decide (kr_upper_bound l = kr_lower_bound r) &&
    (negb (kr_upper_inclusive l) || negb (kr_lower_inclusive r)))).

Definition BoundsOverlap (l r : SerializableKeyRange) : bool :=
  if negb (SameRelation l r) then false
  else if kr_full_relation l || kr_full_relation r then true
  else if bool_decide (kr_predicate_digest l <> ""%string) ||
          bool_decide (kr_predicate_digest r <> ""%string) then
    bool_decide (kr_predicate_digest l = ""%string) ||
    bool_decide (kr_predicate_digest r = ""%string) ||
    bool_decide (kr_predicate_digest l = kr_predicate_digest r)
  else negb (entirely_before l r) && negb (entirely_before r l).

(** ** Results *)

Definition AddEvidence (r : SerializableConflictResult) (value : string) : SerializableConflictResult :=
  mkConflictResult (scr_status r) (scr_conflict r) (scr_retry_class r) (scr_admitted r)
    (scr_diagnostic r) (scr_evidence r ++ [value]).

Definition SerializableAdmitted (evidence : string) : SerializableConflictResult :=
  mkConflictResult MgaOkStatus ck_none rt_none true DiagnosticRecord_default
    [evidence; "serializable.inventory_authority=durable_transaction_inventory";
     "serializable.parser_or_reference_authority=false"]%string.

Definition SerializableRefused (conflict : SerializableConflictKind)
    (retry_class : SerializableRetryClass) (code key detail : string) : SerializableConflictResult :=
  mkConflictResult MgaErrorStatus conflict retry_class false
    (MakeTransactionSnapshotDiagnostic MgaErrorStatus code key detail)
    [("serializable.conflict=" +:+ SerializableConflictKindName conflict);
     ("serializable.retry_class=" +:+ SerializableRetryClassName retry_class);
     "serializable.inventory_authority=durable_transaction_inventory"]%string.

Definition ValidateSerializableAccess (a : SerializableAccessRecord) : SerializableConflictResult :=
  let range := ar_range a in
  if ar_parser_or_reference_authority a then
    SerializableRefused ck_external_authority_refused rt_invalid_request
      "SB-SNTXN-SERIALIZABLE-EXTERNAL-AUTHORITY-REFUSED"
      "transaction.serializable.external_authority_refused" ""
  else if negb (ar_durable_inventory_authoritative a) then
    SerializableRefused ck_inventory_authority_required rt_invalid_request
      "SB-SNTXN-SERIALIZABLE-INVENTORY-AUTHORITY-REQUIRED"
      "transaction.serializable.inventory_authority_required" ""
  else if negb (local_id_valid (ar_local_id a)) || bool_decide (ar_sequence a = 0) ||
          bool_decide (ar_kind a = ak_unknown) ||
          (negb (IsReadKind (ar_kind a)) && negb (IsWriteKind (ar_kind a))) ||
          negb (IsValidRelationUuid (kr_relation_uuid range)) then
    SerializableRefused ck_invalid_request rt_invalid_request
      "SB-SNTXN-SERIALIZABLE-INVALID-ACCESS" "transaction.serializable.invalid_access" ""
  else if negb (kr_full_relation range) && bool_decide (kr_predicate_digest range = ""%string) &&
          (bool_decide (kr_lower_bound range = ""%string) ||
           bool_decide (kr_upper_bound range = ""%string)) &&
          (negb (kr_lower_unbounded range) || negb (kr_upper_unbounded range)) then
    SerializableRefused ck_invalid_request rt_invalid_request
      "SB-SNTXN-SERIALIZABLE-RANGE-INVALID" "transaction.serializable.range_invalid" ""
  else SerializableAdmitted "serializable.access_valid=true".

(** ** Levels *)

Definition ValidateLocalIsolationLevel (level : IsolationLevel) : IsolationLevelResult :=
  let supported := bool_decide (level = il_read_committed) ||
                   bool_decide (level = il_repeatable_read) ||
                   bool_decide (level = il_serializable) in
  if negb supported then
    mkIsolationResult MgaErrorStatus level false
      (MakeTransactionSnapshotDiagnostic MgaErrorStatus "SB-SNTXN-ISOLATION-UNSUPPORTED"
         "transaction.isolation.unsupported" (IsolationLevelName level))
  else mkIsolationResult MgaOkStatus level true DiagnosticRecord_default.

Definition SnapshotPolicyForIsolation (level : IsolationLevel) (snapshot : LocalTransactionSnapshot)
    : VisibilitySnapshot :=
  let '(through, through_sequence) :=
    if decide (level = il_read_committed)
    then (ls_visible_through_local_transaction snapshot, ls_visible_through_commit_sequence snapshot)
    else (ls_transaction_start_visible_through_local_transaction snapshot,
          ls_transaction_start_visible_through_commit_sequence snapshot) in
  mkVisibilitySnapshot (ls_reader_transaction snapshot) through true true false [] []
    through_sequence true.

Definition MakeSerializablePointRange (relation_uuid : TypedUuid) (key : string) : SerializableKeyRange :=
  mkKeyRange relation_uuid key key false false true true false "".

Definition MakeSerializableBoundedRange (relation_uuid : TypedUuid) (lower_bound upper_bound : string)
    : SerializableKeyRange :=
  mkKeyRange relation_uuid lower_bound upper_bound false false true true false "".

Definition MakeSerializablePredicateRange (relation_uuid : TypedUuid) (predicate_digest : string)
    : SerializableKeyRange :=
  mkKeyRange relation_uuid "" "" true true true true true predicate_digest.

(** ** Conflicts *)

(** The part of the loop body after an overlap was found; every kind that passed
    validation ends in a refusal, the unknown kind falls through. *)
Definition overlap_conflict (existing write : SerializableAccessRecord) : option SerializableConflictResult :=
  if IsRecoveryState (ar_transaction_state existing) || IsRecoveryState (ar_transaction_state write) then
    Some (SerializableRefused ck_read_write rt_recovery_required
            "SB-SNTXN-SERIALIZABLE-RECOVERY-REQUIRED" "transaction.serializable.recovery_required" "")
  else if IsWriteKind (ar_kind existing) then
    Some (SerializableRefused ck_write_write
            (if IsPendingFinality (ar_transaction_state existing)
             then rt_wait_for_transaction else rt_serialization_retry)
            "SB-SNTXN-SERIALIZABLE-WRITE-WRITE-CONFLICT"
            "transaction.serializable.write_write_conflict"
            (SerializableAccessKindName (ar_kind existing)))
  else if bool_decide (ar_kind existing = ak_predicate_read) ||
          bool_decide (ar_kind existing = ak_range_read) then
    let phantom := bool_decide (ar_kind write = ak_insert) in
    Some (SerializableRefused (if phantom then ck_phantom_insert else ck_read_write)
            rt_serialization_retry
            (if phantom then "SB-SNTXN-SERIALIZABLE-PHANTOM-REFUSED"
             else "SB-SNTXN-SERIALIZABLE-READ-WRITE-CONFLICT")
            (if phantom then "transaction.serializable.phantom_refused"
             else "transaction.serializable.read_write_conflict")
            (SerializableAccessKindName (ar_kind write)))
  else if decide (ar_kind existing = ak_point_read) then
    Some (SerializableRefused ck_read_write rt_serialization_retry
            "SB-SNTXN-SERIALIZABLE-READ-WRITE-CONFLICT"
            "transaction.serializable.read_write_conflict"
            (SerializableAccessKindName (ar_kind write)))
  else None.

Fixpoint scan_accesses (existing_accesses : list SerializableAccessRecord)
    (write : SerializableAccessRecord) : SerializableConflictResult :=
  match existing_accesses with
  | [] => SerializableAdmitted "serializable.write_admitted=true"
  | existing :: rest =>
    if decide ((ar_local_id existing : N) = ar_local_id write) then scan_accesses rest write
    else
    let existing_valid := ValidateSerializableAccess existing in
    if negb (scr_ok existing_valid) then existing_valid
    else if negb (BoundsOverlap (ar_range existing) (ar_range write)) then scan_accesses rest write
    else match overlap_conflict existing write with
    | Some refused => refused
    | None => scan_accesses rest write
    end
  end.

Definition EvaluateSerializableWriteConflict (existing_accesses : list SerializableAccessRecord)
    (write : SerializableAccessRecord) : SerializableConflictResult :=
  let valid := ValidateSerializableAccess write in
  if negb (scr_ok valid) then valid
  else if negb (IsWriteKind (ar_kind write)) then
    SerializableRefused ck_invalid_request rt_invalid_request
      "SB-SNTXN-SERIALIZABLE-WRITE-REQUIRED" "transaction.serializable.write_required"
      (SerializableAccessKindName (ar_kind write))
  else scan_accesses existing_accesses write.

(** ** The tracker's methods *)

Definition tracker_CheckWrite (t : SerializableConflictTracker) (write : SerializableAccessRecord)
    : SerializableConflictResult := EvaluateSerializableWriteConflict t write.

Definition tracker_RecordWrite (t : SerializableConflictTracker) (write : SerializableAccessRecord)
    : SerializableConflictTracker * SerializableConflictResult :=
  let result := tracker_CheckWrite t write in
  if negb (scr_ok result) then (t, result)
  else (t ++ [write],
        AddEvidence
          (AddEvidence result ("serializable.access_kind=" +:+ SerializableAccessKindName (ar_kind write)))
          "serializable.write_recorded=true").

Definition tracker_RecordAccess (t : SerializableConflictTracker) (access : SerializableAccessRecord)
    : SerializableConflictTracker * SerializableConflictResult :=
  let valid := ValidateSerializableAccess access in
  if negb (scr_ok valid) then (t, valid)
  else if IsWriteKind (ar_kind access) then tracker_RecordWrite t access
  else (t ++ [access],
        AddEvidence (SerializableAdmitted "serializable.read_recorded=true")
          ("serializable.access_kind=" +:+ SerializableAccessKindName (ar_kind access))).

Definition tracker_access_count (t : SerializableConflictTracker) : N := N.of_nat (length t).
