(* ===== verification/InventoryClaims.v ===== *)
(** * Properties of the transaction inventory *)

From S2P Require Import Prelude Platform TransactionState Inventory InventoryEvolution InventoryTheorems.
From S2P Require Import InventorySteps Samples.

(** C1: every accepted begin, prepare, commit, archive, rollback, abort,
    mark-rollback-only, compaction, startup recovery or operator resolution of a
    limbo transaction turns a structurally valid inventory into
    one that passes the structural validator and the successor validator, and
    keeps both counters inside 64 bits. *)
Theorem inventory_operations_legal inv op inv' :
  ValidateLocalTransactionInventoryStructure inv = ""%string ->
  counters_u64 inv ->
  run_op inv op = Some inv' ->
  ValidateLocalTransactionInventoryStructure inv' = ""%string /\
  ValidateLocalTransactionInventoryEvolution inv inv' = ""%string /\
  counters_u64 inv'.
Proof.
  rewrite !validate_structure_iff, evolution_iff. intros Hs Hu Hop.
  destruct (run_op_evolves _ _ _ Hs Hu Hop) as [Hev Hu']. split_and!; try done. apply Hev.
Qed.

Lemma inventory_operations_legal_witness :
  run_op sample_inventory (op_commit 2 30) = Some sample_after_commit /\
  ValidateLocalTransactionInventoryEvolution sample_inventory sample_after_commit = ""%string.
Proof.
  split; [vm_compute; reflexivity|].
  apply (inventory_operations_legal sample_inventory (op_commit 2 30) sample_after_commit);
    [vm_compute; reflexivity| |vm_compute; reflexivity].
  split; vm_compute; reflexivity.
Defined.

(** C33: every inventory reachable from the empty one by accepted operations
    passes the structural validator, and its counters stay 64-bit values. *)
Theorem reachable_inventories_valid inv :
  rtc inventory_step MakeEmptyLocalTransactionInventory inv ->
  ValidateLocalTransactionInventoryStructure inv = ""%string /\ counters_u64 inv.
Proof.
  intros H. destruct (steps_evolve _ _ empty_structure_ok empty_counters H) as (Hs & Hu & _).
  by rewrite validate_structure_iff.
Qed.

Lemma reachable_inventories_valid_witness :
  ValidateLocalTransactionInventoryStructure sample_inventory = ""%string /\
  counters_u64 sample_inventory.
Proof.
  apply (reachable_inventories_valid sample_inventory).
  apply (run_ops_steps _ sample_ops). vm_compute. reflexivity.
Defined.

(** C2: once a transaction has an outcome (committed, rolled back or failed,
    archived or not), every later inventory that still holds its number reports
    the same outcome, commit sequence, finality time and identity. *)
Theorem finality_is_permanent inv inv' e e' :
  ValidateLocalTransactionInventoryStructure inv = ""%string -> counters_u64 inv ->
  rtc inventory_step inv inv' ->
  e ∈ inv_entries inv -> e' ∈ inv_entries inv' -> e_local_id e = e_local_id e' ->
  IsTerminalTransactionState (InventoryVisibilityState e) = true ->
  InventoryVisibilityState e' = InventoryVisibilityState e /\
  e_commit_sequence e' = e_commit_sequence e /\
  e_final_unix_epoch_millis e' = e_final_unix_epoch_millis e /\
  e_identity e' = e_identity e.
Proof.
  rewrite validate_structure_iff. intros Hs Hu Hst He He' Hid Ht.
  pose proof (so_entries _ Hs) as Hall. rewrite Forall_forall in Hall.
  destruct (steps_entry_origin _ _ Hs Hu Hst e' He') as (o & Ho & Hoid & Hiden & _ & _ & Hfin & _).
  { rewrite <- Hid. apply Hall, He. }
  assert (o = e) as ->.
  { eapply (NoDup_fmap_inj e_local_id); [apply (so_locals _ Hs)|done|done|congruence]. }
  destruct (Hfin Ht) as (-> & -> & ->). done.
Qed.

Lemma finality_is_permanent_witness :
  exists e e', e ∈ inv_entries sample_inventory /\ e' ∈ inv_entries sample_after_commit /\
    InventoryVisibilityState e' = InventoryVisibilityState e.
Proof.
  exists (lr_entry (LookupLocalTransaction sample_inventory 1)).
  exists (lr_entry (LookupLocalTransaction sample_after_commit 1)).
  assert (H1 : lr_entry (LookupLocalTransaction sample_inventory 1) ∈ inv_entries sample_inventory)
    by (apply list_elem_of_In; vm_compute; tauto).
  assert (H2 : lr_entry (LookupLocalTransaction sample_after_commit 1) ∈ inv_entries sample_after_commit)
    by (apply list_elem_of_In; vm_compute; tauto).
  split; [exact H1|]. split; [exact H2|].
  apply (finality_is_permanent sample_inventory sample_after_commit); try done.
  - apply (run_ops_steps _ [op_commit 2 30]). vm_compute. reflexivity.
Defined.

(** A local number allocated before is never given to another transaction:
    an entry of a later inventory below the earlier allocation counter was
    already there, under the same identity, even after compaction. *)
Theorem local_numbers_not_reused inv inv' e' :
  ValidateLocalTransactionInventoryStructure inv = ""%string -> counters_u64 inv ->
  rtc inventory_step inv inv' ->
  e' ∈ inv_entries inv' -> e_local_id e' < inv_next_local_transaction_id inv ->
  exists e, e ∈ inv_entries inv /\ e_identity e = e_identity e'.
Proof.
  rewrite validate_structure_iff. intros Hs Hu Hst He' Hlt.
  destruct (steps_entry_origin _ _ Hs Hu Hst e' He' Hlt) as (e & ? & _ & ? & _). eauto.
Qed.

Lemma local_numbers_not_reused_witness :
  exists e, e ∈ inv_entries sample_inventory /\
    e_identity e = e_identity (lr_entry (LookupLocalTransaction sample_after_commit 2)).
Proof.
  apply (local_numbers_not_reused sample_inventory sample_after_commit); try done.
  - apply (run_ops_steps _ [op_commit 2 30]). vm_compute. reflexivity.
  - apply list_elem_of_In. vm_compute. tauto.
Defined.

(** Commit is accepted exactly when the inventory is valid, the commit
    counter is not exhausted and the number names a local transaction that is not
    marked rollback-only and is active, prepared or read-only active; it then
    assigns the next commit sequence, which exceeds every sequence recorded
    before and the transaction's own begin boundary. *)
Theorem commit_contract inv id t :
  ValidateLocalTransactionInventoryStructure inv = ""%string ->
  (ir_ok (CommitLocalTransaction inv id t) = true <->
   inv_next_commit_sequence inv <> u64_max /\
   exists e, lr_entry (LookupLocalTransaction inv id) = e /\
     lr_ok (LookupLocalTransaction inv id) = true /\
     ti_scope (e_identity e) = scope_local_node /\ e_rollback_only e = false /\
     e_state e ∈ [ts_active; ts_prepared; ts_read_only_active]) /\
  (ir_ok (CommitLocalTransaction inv id t) = true ->
   e_commit_sequence (ir_entry (CommitLocalTransaction inv id t)) = inv_next_commit_sequence inv /\
   e_begin_visible_through_commit_sequence (ir_entry (CommitLocalTransaction inv id t)) <
     inv_next_commit_sequence inv /\
   forall e, e ∈ inv_entries inv -> HasCommittedInventoryOutcome e = true ->
     e_commit_sequence e < inv_next_commit_sequence inv).
Proof.
  intros Hv. pose proof (proj1 (validate_structure_iff _) Hv) as Hs. split; [split|].
  - intros H. destruct (commit_ok _ _ _ _ eq_refl H) as (_ & Hmax & i & old & Hf & Hro & Hsc & Ht & _).
    split; [done|]. exists old. apply find_entry_lookup in Hf as Hl.
    assert (Hval : local_id_valid id = true).
    { unfold local_id_valid. apply bool_decide_eq_true_2. destruct Hl as [Hi <-].
      pose proof (find_entry_ok _ _ _ _ Hs Hf) as Hok. apply (identity_valid_local _ (eo_identity _ _ Hok)). }
    unfold LookupLocalTransaction. rewrite Hval, Hf. simpl. split_and!; try done.
    clear -Ht. destruct old as [i0 s0 a0 b0 f0 v0 c0 q0 r0 w0 k0 t0]. simpl in *.
    destruct s0; first [set_solver | vm_compute in Ht; discriminate Ht].
  - intros (Hmax & e & He & Hok & Hsc & Hro & Hst). unfold LookupLocalTransaction in *.
    unfold CommitLocalTransaction. rewrite decide_False by (rewrite Hv; naive_solver).
    rewrite decide_False by done. destruct (negb (local_id_valid id)); [discriminate Hok|].
    destruct (FindEntry inv id) as [[i old]|]; [|discriminate Hok]. simpl in He. subst old.
    rewrite decide_False by naive_solver. rewrite Hro.
    assert (exists e', TransitionsOrFail e (commit_path (e_state e)) = inr e') as (e' & ->); [|done].
    destruct e as [i0 s0 a0 b0 f0 v0 c0 q0 r0 w0 k0 t0]. simpl in *.
    decompose_list_elem_of; subst s0; eexists; reflexivity.
  - intros H. destruct (commit_ok _ _ _ _ eq_refl H) as (_ & Hmax & i & old & Hf & _ & _ & _ & He & _).
    rewrite He. simpl. pose proof (find_entry_ok _ _ _ _ Hs Hf) as Hok.
    split_and!; [done|apply (eo_begin _ _ Hok)|].
    pose proof (so_entries _ Hs) as Hall. rewrite Forall_forall in Hall.
    intros e0 He0 Hc. by destruct (eo_committed _ _ (Hall e0 He0) Hc).
Qed.

Lemma commit_contract_witness :
  e_commit_sequence (ir_entry (CommitLocalTransaction sample_inventory 2 30)) =
    inv_next_commit_sequence sample_inventory.
Proof. apply (commit_contract sample_inventory 2 30); vm_compute; reflexivity. Defined.

(** Begin is accepted exactly when the inventory is valid, its local
    counter has not reached the last 64-bit value, and the supplied UUID is a
    fresh version 7 transaction identity; the new entry then carries the counter
    as number, sees every commit already numbered and no later one. *)
Theorem begin_contract inv uuid t :
  ValidateLocalTransactionInventoryStructure inv = ""%string -> counters_u64 inv ->
  (ir_ok (BeginLocalTransaction inv uuid t) = true <->
   inv_next_local_transaction_id inv <> u64_max /\
   tu_kind uuid = uk_transaction /\ IsEngineIdentityUuid (tu_value uuid) = true /\
   forall e, e ∈ inv_entries inv -> e_uuid e <> tu_value uuid) /\
  (ir_ok (BeginLocalTransaction inv uuid t) = true ->
   let e := ir_entry (BeginLocalTransaction inv uuid t) in
   e_local_id e = inv_next_local_transaction_id inv /\ e_state e = ts_active /\
   e_begin_visible_through_commit_sequence e + 1 = inv_next_commit_sequence inv /\
   e_begin_visible_through_local_transaction_id e + 1 = inv_next_local_transaction_id inv).
Proof.
  intros Hv [Hul Huc]. pose proof (proj1 (validate_structure_iff _) Hv) as Hs.
  pose proof (so_next_local _ Hs) as Hnl. pose proof (so_next_commit _ Hs) as Hnc.
  unfold BeginLocalTransaction. split; [split|].
  - intros H. destruct (begin_ok _ _ _ _ _ eq_refl H) as (_ & Hmax & Hcu & Hid & _).
    apply observe_identity_ok in Hid as [Hval Heng].
    unfold transaction_identity_valid in Hval. simpl in *. bool_prop.
    split_and!; try done. by apply contains_uuid_false.
  - intros (Hmax & Hk & Heng & Hfresh). unfold BeginLocalTransactionWithState.
    rewrite decide_False by done. rewrite decide_False by (rewrite Hv; naive_solver).
    rewrite decide_False by done.
    assert (ContainsTransactionUuid inv uuid = false) as ->.
    { unfold ContainsTransactionUuid. apply not_true_is_false. intros H.
      apply existsb_exists in H as (e & He & Heq). apply bool_decide_eq_true_1 in Heq.
      apply (Hfresh e); [by apply list_elem_of_In|done]. }
    assert (Hobs : obs_ok (ObserveTransactionIdentity
      (mkTransactionIdentity (inv_next_local_transaction_id inv) uuid scope_local_node)) = true).
    { apply observe_identity_ok. unfold transaction_identity_valid, local_id_valid, typed_uuid_valid. simpl.
      rewrite Hk, Heng, (engine_identity_not_nil _ Heng). rewrite !bool_decide_eq_true_2 by done. done. }
    unfold MakeTransactionIdentity, ValidateTransactionIdentity, MakeLocalTransactionId. simpl.
    unfold obs_ok in Hobs. rewrite Hobs. reflexivity.
  - intros H. destruct (begin_ok _ _ _ _ _ eq_refl H) as (_ & Hmax & _ & _ & _ & _ & _ & _ & -> & _).
    simpl. unfold e_local_id. simpl. rewrite !u64_sub_small by (u64_unfold; lia). split_and!; try done; lia.
Qed.

Lemma begin_contract_witness :
  e_local_id (ir_entry (BeginLocalTransaction sample_inventory (sample_txn_uuid 9) 40)) =
    inv_next_local_transaction_id sample_inventory.
Proof.
  apply (begin_contract sample_inventory (sample_txn_uuid 9) 40);
    first [split; vm_compute; reflexivity | vm_compute; reflexivity].
Defined.

(** Compaction, when authorised, keeps exactly the entries that are not
    droppable, in order, and every entry it drops is an archived commit or
    rollback older than the required horizon; a failed transaction is kept. *)
Theorem compaction_contract r e :
  cres_ok (CompactLocalTransactionInventory r) = true ->
  e ∈ inv_entries (cr_inventory r) ->
  (e ∈ inv_entries (cres_inventory (CompactLocalTransactionInventory r)) <->
   compaction_can_drop r e = false) /\
  (compaction_can_drop r e = true ->
   resolved_outcome e /\ e_state e = ts_archived /\
   e_local_id e < cr_oldest_required_local_transaction_id r) /\
  cres_compacted_entry_count (CompactLocalTransactionInventory r) +
    N.of_nat (length (inv_entries (cres_inventory (CompactLocalTransactionInventory r)))) =
    N.of_nat (length (inv_entries (cr_inventory r))).
Proof.
  intros H He. pose proof (compact_evolves _ H) as Hev.
  pose proof (so_entries _ (evo_before _ _ Hev)) as Hall. rewrite Forall_forall in Hall.
  specialize (Hall e He). clear Hev. unfold CompactLocalTransactionInventory in *.
  case_match; [discriminate H|]. case_match; [discriminate H|].
  case_decide; [discriminate H|]. clear H. simpl. split_and!.
  - rewrite list_elem_of_filter. tauto.
  - unfold compaction_can_drop. intros Hd. bool_prop. split_and!; try done.
    pose proof (eo_archived _ _ Hall ltac:(done)) as Hfrom.
    unfold resolved_outcome, InventoryVisibilityState. rewrite decide_False by naive_solver.
    destruct (e_archived_from_state e); set_solver.
  - clear. induction (inv_entries (cr_inventory r)) as [|x l IH]; [done|].
    rewrite !filter_cons. destruct (compaction_can_drop r x); simpl; lia.
Qed.

Definition sample_compaction : TransactionInventoryCompactionRequest :=
  mkCompactionRequest sample_inventory true 4 true.

Lemma compaction_contract_witness :
  compaction_can_drop sample_compaction (lr_entry (LookupLocalTransaction sample_inventory 3)) = true /\
  resolved_outcome (lr_entry (LookupLocalTransaction sample_inventory 3)).
Proof.
  split; [vm_compute; reflexivity|].
  apply (compaction_contract sample_compaction); [vm_compute; reflexivity| |vm_compute; reflexivity].
  apply list_elem_of_In. vm_compute. tauto.
Defined.

(** C28: the structural validator returns the empty string exactly on the
    inventories whose counters, identities, archive origins and commit sequences
    are consistent and whose numbers, UUIDs and commit sequences are unique. *)
Theorem structure_validator_exact inv :
  ValidateLocalTransactionInventoryStructure inv = ""%string <-> structure_ok inv.
Proof. apply validate_structure_iff. Qed.

(** C27: the successor validator returns the empty string exactly on the pairs
    of valid inventories related by [evolves]: counters do not regress, retained
    entries keep identity, begin boundary, evidence and finality and move along
    transition paths, new entries use fresh numbers, UUIDs and sequences, and
    only resolved entries disappear. *)
Theorem evolution_validator_exact before after :
  ValidateLocalTransactionInventoryEvolution before after = ""%string <-> evolves before after.
Proof. apply evolution_iff. Qed.

(** The closure table the successor validator computes with three nested
    loops relates two states exactly when the transition table has a path. *)
Theorem warshall_is_reachability a b : reachable a b = true <-> rtc edge a b.
Proof. apply reachable_iff_rtc. Qed.

(** The transition table admits exactly the documented lifecycle; resolving
    in-doubt work needs a recovery context and outcomes only move to archived. *)
Theorem transition_checker_exact rc from to :
  ttr_ok (CheckTransactionStateTransition from to rc) = true <-> lifecycle rc from to.
Proof. apply transition_table_correct. Qed.
