(* ===== verification/RecoveryClaims.v ===== *)
(** * Properties of startup recovery *)

From S2P Require Import Prelude Platform TransactionState Inventory InventoryEvolution InventoryTheorems.
From S2P Require Import Recovery InventorySteps Samples.

(** ** What recovery is meant to decide *)

(** A local commit that was being published and whose durable evidence exists. *)
Definition durable_commit (e : TransactionInventoryEntry) : bool :=
  bool_decide (ti_scope (e_identity e) = scope_local_node) && bool_decide (e_state e = ts_committing) &&
  (negb (e_evidence_record_required e) || e_evidence_record_written e).

(** The state an entry has after recovery. *)
Definition recovered_state (e : TransactionInventoryEntry) : TransactionState :=
  if decide (ti_scope (e_identity e) <> scope_local_node) then e_state e
  else match e_state e with
  | ts_created | ts_active | ts_read_only_active | ts_preparing | ts_rolling_back => ts_rolled_back
  | ts_prepared => if e_rollback_only e then ts_rolled_back else ts_prepared
  | ts_committing => if durable_commit e then ts_committed else ts_committing
  | s => s
  end.

Lemma recover_entry_spec inv t next e :
  entry_ok inv e -> ~ recovery_blocked e ->
  e_state (fst (recover_entry t next e)) = recovered_state e /\
  recovers_commit e = durable_commit e /\
  (fenced_entry e = false <->
   resolved_outcome (fst (recover_entry t next e))) /\
  (durable_commit e = true -> e_commit_sequence (fst (recover_entry t next e)) = next) /\
  (e_state e = recovered_state e -> fst (recover_entry t next e) = e).
Proof.
  intros Hok Hb. pose proof (eo_state _ _ Hok) as Hn. pose proof (eo_archived _ _ Hok) as Ha.
  pose proof (eo_not_archived _ _ Hok) as Hna.
  pose proof (identity_valid_scope _ (eo_identity _ _ Hok)) as Hsc. clear Hok.
  destruct e as [[l u sc] s a b f v c q r w k st]. simpl in Hn, Ha, Hna, Hsc.
  unfold recovery_blocked in Hb. simpl in Hb. unfold resolved_outcome.
  destruct s; try (specialize (Hna ltac:(done)); subst a); try done.
  all: try (specialize (Ha eq_refl); clear Hna Hn; decompose_list_elem_of; subst a).
  all: destruct sc; try done.
  all: try (destruct k; try (exfalso; apply Hb; tauto)).
  all: destruct r, w; (split_and!; [reflexivity|reflexivity|vm_compute; naive_solver|done|done]).
Qed.

Lemma commit_total_durable inv es :
  Forall (entry_ok inv) es -> Forall (fun e => ~ recovery_blocked e) es ->
  commit_total es = N.of_nat (length (filter (fun e => durable_commit e = true) es)).
Proof.
  induction 1 as [|e es Hok _ IH]; intros Hb; [done|]. apply Forall_cons in Hb as [Hb Hbs].
  rewrite commit_total_cons, (IH Hbs), filter_cons.
  destruct (recover_entry_spec inv 0 0 e Hok Hb) as (_ & -> & _).
  case_decide as H; [rewrite H|apply not_true_is_false in H; rewrite H]; simpl; lia.
Qed.

Lemma recovery_acceptance inv t :
  counters_u64 inv ->
  rr_ok (ApplyLocalTransactionInventoryRecovery inv t) = true <->
  ValidateLocalTransactionInventoryStructure inv = ""%string /\
  inv_next_commit_sequence inv +
    N.of_nat (length (filter (fun e => durable_commit e = true) (inv_entries inv))) <= u64_max /\
  Forall (fun e => ~ recovery_blocked e) (inv_entries inv).
Proof.
  intros Hu. rewrite validate_structure_iff. split.
  - intros H. destruct (recovery_accepted _ _ Hu H) as (Hs & Hm & Hb & _).
    by rewrite <- (commit_total_durable inv) by (done || apply Hs).
  - intros (Hs & Hm & Hb). rewrite <- (commit_total_durable inv) in Hm by (done || apply Hs).
    destruct (apply_recovery_valid inv t Hs (proj2 Hu)) as [-> _]. by rewrite !bool_decide_eq_true_2.
Qed.

(** C23: startup recovery is accepted exactly when the inventory is valid, the
    commit counter has room for every durably evidenced commit, and no local
    rollback-only entry is in limbo or recovering.  It then leaves every entry in
    place under its identity: interrupted local work is rolled back, evidenced
    commits are committed in entry order from the next commit sequence, all other
    entries are untouched; and the write fence stays up exactly when some entry
    has no committed or rolled-back outcome afterwards. *)
Theorem recovery_exact inv t :
  counters_u64 inv ->
  (rr_ok (ApplyLocalTransactionInventoryRecovery inv t) = true <->
   ValidateLocalTransactionInventoryStructure inv = ""%string /\
   inv_next_commit_sequence inv +
     N.of_nat (length (filter (fun e => durable_commit e = true) (inv_entries inv))) <= u64_max /\
   Forall (fun e => ~ recovery_blocked e) (inv_entries inv)) /\
  (rr_ok (ApplyLocalTransactionInventoryRecovery inv t) = true ->
   let inv' := rr_recovered_inventory (ApplyLocalTransactionInventoryRecovery inv t) in
   length (inv_entries inv') = length (inv_entries inv) /\
   (forall i e, inv_entries inv !! i = Some e ->
    exists e', inv_entries inv' !! i = Some e' /\ e_identity e' = e_identity e /\
      e_state e' = recovered_state e /\ (e_state e = recovered_state e -> e' = e) /\
      (durable_commit e = true -> e_commit_sequence e' = inv_next_commit_sequence inv +
         N.of_nat (length (filter (fun e => durable_commit e = true) (take i (inv_entries inv)))))) /\
   (rr_write_admission_must_remain_fenced (ApplyLocalTransactionInventoryRecovery inv t) = true <->
    exists e', e' ∈ inv_entries inv' /\ ~ resolved_outcome e')).
Proof.
  intros Hu. split; [by apply recovery_acceptance|]. intros Hok inv'.
  destruct (recovery_accepted inv t Hu Hok) as (Hs & Hmax & Hb & _ & _).
  destruct (apply_recovery_valid inv t Hs (proj2 Hu)) as (_ & Hres & Hfence). destruct (Hres Hok) as [Hinv _].
  rewrite Hfence, Hok, orb_false_r. subst inv'. rewrite Hinv. simpl.
  destruct (recover_entries_complete t (inv_entries inv) inv [] (inv_next_commit_sequence inv))
    as (_ & _ & Hid & Hl & _); [by destruct inv|done..|].
  apply (f_equal length) in Hid. rewrite !length_fmap in Hid. split; [done|].
  pose proof (so_entries _ Hs) as Hall.
  assert (Hspec : forall i e, inv_entries inv !! i = Some e -> entry_ok inv e /\ ~ recovery_blocked e).
  { intros i e He. rewrite Forall_lookup in Hall, Hb. eauto. }
  split.
  - intros i e He. destruct (Hspec i e He) as [Hoe Hbe]. eexists. split; [by apply Hl|].
    rewrite (commit_total_durable inv) by (by apply Forall_take).
    destruct (recover_entry_spec inv t (inv_next_commit_sequence inv +
      N.of_nat (length (filter (fun e => durable_commit e = true) (take i (inv_entries inv))))) e Hoe Hbe)
      as (? & _ & _ & ? & ?).
    split_and!; try done. apply recover_entry_identity.
  - rewrite existsb_exists. split.
    + intros (e & He%list_elem_of_In & Hf). apply list_elem_of_lookup in He as (i & He).
      destruct (Hspec i e He) as [Hoe Hbe]. eexists. split; [by eapply list_elem_of_lookup_2, Hl|].
      destruct (recover_entry_spec inv t (inv_next_commit_sequence inv + commit_total (take i (inv_entries inv))) e Hoe Hbe)
        as (_ & _ & <- & _). by rewrite Hf.
    + intros (e' & He' & Hr). apply list_elem_of_lookup in He' as (i & He').
      destruct (lookup_lt_is_Some_2 (inv_entries inv) i) as [e He]; [rewrite <- Hid; by eapply lookup_lt_Some|].
      rewrite (Hl _ _ He) in He'. simplify_eq. destruct (Hspec i e He) as [Hoe Hbe].
      exists e. split; [by eapply list_elem_of_In, list_elem_of_lookup_2|].
      destruct (recover_entry_spec inv t (inv_next_commit_sequence inv + commit_total (take i (inv_entries inv))) e Hoe Hbe)
        as (_ & _ & Hx & _). destruct (fenced_entry e); [done|]. by destruct Hr; apply Hx.
Qed.

(** One: active.  Two: committing with durable evidence.  Three: prepared.
    Four: in limbo.  Five: committing with evidence. *)
Definition recovery_sample : LocalTransactionInventory :=
  let entry n s written :=
    mkEntry (mkTransactionIdentity n (sample_txn_uuid n) scope_local_node) s ts_none
      10 0 (n - 1) 0 0 true written false false in
  mkInventory 6 3 [entry 1 ts_active false; entry 2 ts_committing true; entry 3 ts_prepared false;
                   entry 4 ts_limbo false; entry 5 ts_committing true] None.

Lemma recovery_exact_witness :
  exists e', inv_entries (rr_recovered_inventory (ApplyLocalTransactionInventoryRecovery recovery_sample 50)) !! 4%nat =
    Some e' /\ e_state e' = ts_committed /\ e_commit_sequence e' = 4.
Proof.
  destruct (recovery_exact recovery_sample 50) as [_ H]; [split; vm_compute; reflexivity|].
  destruct (H ltac:(vm_compute; reflexivity)) as (_ & He & _).
  destruct (He 4%nat _ eq_refl) as (e' & Hl & _ & Hs & _ & Hc). exists e'.
  split; [exact Hl|]. split; [exact Hs|]. exact (Hc eq_refl).
Defined.

(** Recovery is idempotent: run again, at any time, on the inventory it
    produced, it is accepted, changes nothing and keeps the fence as it was. *)
Theorem recovery_idempotent inv t t' :
  counters_u64 inv -> rr_ok (ApplyLocalTransactionInventoryRecovery inv t) = true ->
  let r := ApplyLocalTransactionInventoryRecovery inv t in
  let r' := ApplyLocalTransactionInventoryRecovery (rr_recovered_inventory r) t' in
  rr_ok r' = true /\ rr_recovered_inventory r' = rr_recovered_inventory r /\
  rr_inventory_changed r' = false /\
  rr_write_admission_must_remain_fenced r' = rr_write_admission_must_remain_fenced r.
Proof.
  intros Hu Hok r r'. destruct (recovery_accepted inv t Hu Hok) as (Hs & _ & _ & Hev & Hu').
  destruct (recovered_settled inv t Hu Hok) as [Hset Hfen].
  destruct (apply_recovery_valid inv t Hs (proj2 Hu)) as (_ & _ & Hfence).
  fold r in Hok, Hev, Hu', Hset, Hfen, Hfence. pose proof (evo_after _ _ Hev) as Hs'.
  destruct (apply_recovery_valid _ t' Hs' (proj2 Hu')) as (Hok' & Hres & Hfence'). fold r' in Hok', Hres, Hfence'.
  rewrite (settled_no_commits _ _ (so_entries _ Hs') Hset), N.add_0_r in Hok', Hres.
  rewrite bool_decide_eq_true_2 in Hok' by (destruct Hu'; u64_unfold; lia).
  rewrite bool_decide_eq_true_2 in Hok'.
  2:{ pose proof (so_entries _ Hs') as Hall. rewrite Forall_forall in Hall, Hset |- *.
      intros e He. by eapply settled_not_blocked; auto. }
  destruct (Hres Hok') as [-> ->]. rewrite (settled_pass _ _ _ _ (so_entries _ Hs') Hset), with_entries_self.
  split_and!; try done.
  - clear -Hset. induction Hset as [|e es He _ IH]; simpl; [done|by rewrite He].
  - by rewrite Hfence', Hfence, Hok', Hok, Hfen.
Qed.

Lemma recovery_idempotent_witness :
  rr_inventory_changed (ApplyLocalTransactionInventoryRecovery
    (rr_recovered_inventory (ApplyLocalTransactionInventoryRecovery recovery_sample 50)) 60) = false.
Proof.
  destruct (recovery_idempotent recovery_sample 50 60) as (_ & _ & H & _);
    [split; vm_compute; reflexivity|vm_compute; reflexivity|exact H].
Defined.

Lemma find_entry_member inv e :
  structure_ok inv -> e ∈ inv_entries inv -> exists i, FindEntry inv (e_local_id e) = Some (i, e).
Proof.
  intros Hs He. destruct (FindEntry inv (e_local_id e)) as [[i e']|] eqn:Hf.
  - apply find_entry_lookup in Hf as [Hi Hid]. exists i.
    assert (e' = e) as ->; [|done]. apply list_elem_of_lookup_2 in Hi.
    by eapply (NoDup_fmap_inj e_local_id); [apply (so_locals _ Hs)|..].
  - apply list_find_None in Hf. rewrite Forall_forall in Hf. by destruct (Hf e He).
Qed.

Lemma resolve_limbo_accepts inv d t p e :
  structure_ok inv -> d <> lod_unknown -> (d = lod_commit -> inv_next_commit_sequence inv <> u64_max) ->
  lp_operator_decision_authoritative p = true -> lp_operator_evidence_reference p <> ""%string ->
  e ∈ inv_entries inv -> e_state e = ts_limbo -> ti_scope (e_identity e) = scope_local_node ->
  ir_ok (ResolveLimboLocalTransactionWithOperatorDecision inv (e_local_id e) d t p) = true.
Proof.
  intros Hs Hd Hm Ha Hp He Hst Hsc. unfold ResolveLimboLocalTransactionWithOperatorDecision.
  rewrite decide_False by (rewrite (proj2 (validate_structure_iff inv) Hs); tauto).
  rewrite decide_False by tauto.
  assert (local_id_valid (e_local_id e) = true) as ->.
  { apply bool_decide_eq_true_2. pose proof (so_entries _ Hs) as F. rewrite Forall_forall in F.
    apply (identity_valid_local _ (eo_identity _ _ (F e He))). }
  rewrite (decide_False (P := d = lod_unknown \/ _)) by (intros [?|?]; [done|apply Hd; by destruct d]).
  rewrite Ha, bool_decide_eq_false_2 by done.
  destruct (find_entry_member inv e Hs He) as [i Hf]. change (FindRecoveryEntry inv) with (FindEntry inv).
  rewrite Hf. cbn iota beta delta [negb orb].
  rewrite decide_False by tauto. rewrite decide_False by (by rewrite Hsc).
  clear -Hst Hd. destruct e as [i0 s a b f v c q r w k st]. simpl in Hst. subst s.
  by destruct d.
Qed.

Lemma resolve_limbo_entry inv id d t p r :
  counters_u64 inv ->
  r = ResolveLimboLocalTransactionWithOperatorDecision inv id d t p -> ir_ok r = true ->
  InventoryVisibilityState (ir_entry r) = TerminalStateForLimboDecision d /\
  lr_entry (LookupLocalTransaction (ir_inventory r) id) = ir_entry r /\
  exists e, ir_entry r = limbo_resolved inv d t e.
Proof.
  intros Hu Er Hr. destruct (resolve_limbo_ok _ _ _ _ _ _ Er Hr)
    as (Hs & _ & _ & _ & _ & i & e & Hf & Hst & _ & Hval & He & Hi).
  pose proof (resolve_limbo_evolves inv id d t p Hu) as Hev. rewrite <- Er in Hev.
  destruct (Hev Hr) as [Hev' _]. apply evo_after in Hev'. clear Hev.
  pose proof (find_entry_ok _ _ _ _ Hs Hf) as Hok. apply find_entry_lookup in Hf as [Hl Hid].
  split_and!; [..|by exists e].
  - rewrite He. unfold InventoryVisibilityState. simpl.
    rewrite (eo_not_archived _ _ Hok) by by rewrite Hst. by destruct d.
  - assert (Hin : ir_entry r ∈ inv_entries (ir_inventory r)).
    { rewrite Hi, He. simpl. eapply list_elem_of_lookup_2, list_lookup_insert_eq. by eapply lookup_lt_Some. }
    destruct (find_entry_member _ _ Hev' Hin) as [j Hj].
    assert (Hid' : e_local_id (ir_entry r) = id) by (by rewrite He).
    rewrite Hid' in Hj. unfold LookupLocalTransaction. by rewrite Hval, Hj.
Qed.

(** An operator decision on a limbo transaction is accepted exactly when the
    inventory is valid, the decision is commit, rollback or fail, the commit
    counter has room for a commit, the decision is authoritative and carries an
    evidence reference, and the number names a local-scope entry in limbo.  The
    entry then has the decided outcome, with evidence required and written, is
    what a lookup returns, and the new inventory is a legal successor. *)
Theorem limbo_resolution_contract inv id d t p :
  counters_u64 inv ->
  (ir_ok (ResolveLimboLocalTransactionWithOperatorDecision inv id d t p) = true <->
   ValidateLocalTransactionInventoryStructure inv = ""%string /\ d <> lod_unknown /\
   (d = lod_commit -> inv_next_commit_sequence inv <> u64_max) /\
   lp_operator_decision_authoritative p = true /\ lp_operator_evidence_reference p <> ""%string /\
   exists e, e ∈ inv_entries inv /\ e_local_id e = id /\ e_state e = ts_limbo /\
     ti_scope (e_identity e) = scope_local_node) /\
  (ir_ok (ResolveLimboLocalTransactionWithOperatorDecision inv id d t p) = true ->
   let r := ResolveLimboLocalTransactionWithOperatorDecision inv id d t p in
   InventoryVisibilityState (ir_entry r) = TerminalStateForLimboDecision d /\
   e_final_unix_epoch_millis (ir_entry r) = t /\
   e_evidence_record_required (ir_entry r) = true /\ e_evidence_record_written (ir_entry r) = true /\
   lr_entry (LookupLocalTransaction (ir_inventory r) id) = ir_entry r /\
   ValidateLocalTransactionInventoryEvolution inv (ir_inventory r) = ""%string).
Proof.
  intros Hu. rewrite validate_structure_iff. split; [split|].
  - intros Hr. destruct (resolve_limbo_ok _ _ _ _ _ _ eq_refl Hr)
      as (Hs & Hm & Hd & Ha & Hp & i & e & Hf & Hst & Hsc & _).
    pose proof (find_entry_ok _ _ _ _ Hs Hf) as Hok. apply find_entry_lookup in Hf as [Hi Hid].
    split_and!; try done. exists e. split_and!; try done; [by eapply list_elem_of_lookup_2|].
    pose proof (identity_valid_scope _ (eo_identity _ _ Hok)).
    by destruct (ti_scope (e_identity e)).
  - intros (Hs & Hd & Hm & Ha & Hp & e & He & <- & Hst & Hsc). by apply resolve_limbo_accepts.
  - intros Hr r. destruct (resolve_limbo_entry _ _ _ _ _ r Hu eq_refl Hr) as (Hv & Hl & e & He).
    split_and!; try done; try (by rewrite He). apply evolution_iff.
    by destruct (resolve_limbo_evolves inv id d t p Hu Hr).
Qed.

Lemma limbo_resolution_contract_witness :
  lr_entry (LookupLocalTransaction (ir_inventory (ResolveLimboLocalTransactionWithOperatorDecision
    recovery_sample 4 lod_commit 70 (mkLimboPolicy true "ticket"))) 4) =
  ir_entry (ResolveLimboLocalTransactionWithOperatorDecision
    recovery_sample 4 lod_commit 70 (mkLimboPolicy true "ticket")).
Proof.
  destruct (limbo_resolution_contract recovery_sample 4 lod_commit 70 (mkLimboPolicy true "ticket"))
    as [_ H]; [split; vm_compute; reflexivity|].
  destruct (H ltac:(vm_compute; reflexivity)) as (_ & _ & _ & _ & Hl & _). exact Hl.
Defined.

(** A single rollback-only entry in limbo makes recovery of the whole inventory
    fail: the classification asks for a rollback the transition table refuses. *)
Lemma rollback_only_limbo_blocks_recovery :
  let entry := mkEntry (mkTransactionIdentity 1 (sample_txn_uuid 1) scope_local_node) ts_limbo ts_none
                 10 0 0 0 0 true false true false in
  let r := ApplyLocalTransactionInventoryRecovery (mkInventory 2 1 [entry] None) 50 in
  rc_action (ClassifyLocalTransactionForRecovery entry) = ra_complete_rollback /\
  rc_fail_closed (ClassifyLocalTransactionForRecovery entry) = false /\ rr_ok r = false.
Proof. vm_compute. done. Qed.
