(* ===== verification/VisibilityClaims.v ===== *)
(** * Properties of visibility and horizons *)

From S2P Require Import Prelude Platform TransactionState Inventory Horizon RowVersion.
From S2P Require Import InventoryEvolution InventoryTheorems InventorySteps Samples.

(** ** Row versions *)

(** A committed first version of a row, created by [creator] at [sequence]. *)
Definition sample_version (creator sequence : N) (state : RowVersionState)
    (tx : TransactionState) : RowVersionMetadata :=
  mkRowVersionMetadata
    (mkRowVersionIdentity (mkRowIdentity (mkTypedUuid uk_row (sample_uuid 100)))
       (mkTransactionIdentity creator (sample_txn_uuid creator) scope_local_node)
       1 (sample_uuid 101))
    (mkChain TypedUuid_default TypedUuid_default 0 0) 0 state tx
    (bool_decide (state <> rvs_delete_marker)) sequence.

Definition sample_snapshot (reader through_id through_commit : N) (excluded : list N)
    : VisibilitySnapshot :=
  mkVisibilitySnapshot reader through_id true true false excluded [] through_commit true.

(** C5: a version is reported visible, with an ok status, exactly when its
    metadata is well formed and either it is the reader's own unfinished work and
    the snapshot admits that, or it and its creator are committed and the creator
    lies within both snapshot boundaries and outside both exclusion lists. *)
Theorem visibility_exact m s :
  status_ok (vr_status (EvaluateVisibility m s)) = true /\
  vr_decision (EvaluateVisibility m s) = vd_visible <->
  metadata_ok m /\
  ((rvm_state m ∈ [rvs_prepared; rvs_uncommitted] /\ own_version m s) \/
   (rvm_state m = rvs_committed /\ rvm_creator_transaction_state m = ts_committed /\
    within_snapshot m s)).
Proof.
  rewrite evaluate_visibility_visible, evaluate_state_visible. rewrite !elem_of_cons, elem_of_nil.
  split; [intros [_ [Hm Hv]]; split; [done|]; destruct Hv as [[[?|?] ?]|?]; auto 6|].
  intros [Hm Hv].
  assert (Hev : vo_decision (evaluate_state m s (rvm_state m)) = vd_visible).
  { apply evaluate_state_visible. destruct Hv as [[[?|[?|?]] ?]|?]; set_solver. }
  split; [|by rewrite evaluate_state_visible in Hev].
  unfold EvaluateVisibility, ObserveVisibility, Evaluate. simpl.
  rewrite (proj2 (observe_metadata_ok m) Hm). simpl. by apply evaluate_state_visible_ok.
Qed.

(** The effect of a delete marker is in force for a reader exactly when the
    deleting transaction is the reader itself and still undecided, or has
    committed within the snapshot; a marker is never visible as a row. *)
Theorem delete_effect_exact m s :
  rvm_state m = rvs_delete_marker ->
  vr_decision (EvaluateVisibility m s) <> vd_visible /\
  (vr_decision (EvaluateVersionEffectVisibility m s) = vd_visible <->
   metadata_ok m /\
   ((rvm_creator_transaction_state m ∈ [ts_created; ts_active; ts_read_only_active; ts_preparing;
       ts_prepared; ts_committing; ts_rolling_back] /\ own_version m s) \/
    (rvm_creator_transaction_state m = ts_committed /\ within_snapshot m s))).
Proof.
  intros Hd. split.
  - rewrite evaluate_visibility_visible, evaluate_state_visible, Hd. naive_solver.
  - rewrite effect_visibility_visible by done. setoid_rewrite evaluate_state_visible.
    destruct (rvm_creator_transaction_state m); simpl;
      (split; [intros (? & ? & ? & ?); simplify_eq; set_solver
              |intros (? & [[Hs ?]|[? ?]]); try done;
               first [split; [done|]; eexists; split; [reflexivity|]; naive_solver | set_solver]]).
Qed.

Lemma delete_effect_exact_witness :
  vr_decision (EvaluateVersionEffectVisibility
    (sample_version 1 1 rvs_delete_marker ts_committed) (sample_snapshot 4 3 1 [])) = vd_visible /\
  vr_decision (EvaluateVisibility
    (sample_version 1 1 rvs_delete_marker ts_committed) (sample_snapshot 4 3 1 [])) <> vd_visible.
Proof.
  split; [vm_compute; reflexivity|].
  apply (delete_effect_exact (sample_version 1 1 rvs_delete_marker ts_committed)
           (sample_snapshot 4 3 1 [])). reflexivity.
Defined.

(** The hot update path is admitted only for an update by the reading
    transaction itself of a version that reader sees: the new version is its
    active uncommitted work on the same row, is linked by UUID and sequence to the
    old version, carries a larger sequence and a different version UUID, and
    changes no index key; the page budget only selects between the two forms. *)
Theorem hot_update_admission i :
  hdr_proof_accepted (EvaluateHotStableRowHeadDecision i) = true ->
  let old := hi_old_visible_version i in
  let new := hi_new_version i in
  hi_parser_or_reference_authority i = false /\ hi_exact_index_keys_unchanged i = true /\
  metadata_ok old /\ metadata_ok new /\
  ri_row_uuid (rvi_row (rvm_identity old)) = ri_row_uuid (rvi_row (rvm_identity new)) /\
  ch_previous_version_uuid (rvm_chain new) = hi_old_version_uuid i /\
  rvi_version_uuid (rvm_identity old) = tu_value (hi_old_version_uuid i) /\
  rvi_version_uuid (rvm_identity new) <> rvi_version_uuid (rvm_identity old) /\
  rvi_version_sequence (rvm_identity old) < rvi_version_sequence (rvm_identity new) /\
  rvm_state new = rvs_uncommitted /\ rvm_creator_transaction_state new = ts_active /\
  own_version new (hi_visibility_snapshot i) /\
  vr_decision (EvaluateVisibility old (hi_visibility_snapshot i)) = vd_visible /\
  hdr_decision (EvaluateHotStableRowHeadDecision i) =
    (if hi_same_page_budget_available i then hsd_page_local_hot
     else hsd_stable_row_head_indirection).
Proof.
  intros H. cbv zeta. unfold EvaluateHotStableRowHeadDecision in *.
  repeat (match type of H with context [if ?b then _ else _] => destruct b eqn:?; [discriminate H|] end).
  clear H. repeat match goal with H : decide _ = _ |- _ => clear H end. bool_prop.
  repeat match goal with
  | H : status_ok (rvmr_status (ValidateRowVersionMetadata ?x)) = true |- _ =>
    apply (proj1 (observe_metadata_ok x)) in H
  | H : TypedUuidMatches ?a ?b = true |- _ => unfold TypedUuidMatches in H; bool_prop
  | H : ~ (_ <> _) |- _ => apply dec_stable in H
  end.
  assert (Heq : forall a b : TypedUuid, tu_kind a = tu_kind b -> tu_value a = tu_value b -> a = b)
    by (intros [] []; simpl; congruence).
  match goal with H : vr_decision (EvaluateVisibility (hi_new_version i) _) = _ |- _ =>
    pose proof H as Hnew; apply evaluate_visibility_visible in Hnew as [Hmn Hnew];
    apply evaluate_state_visible in Hnew end.
  assert (Hlt := mo_previous _ Hmn).
  split_and!; try done; try by apply Heq.
  - match goal with H : ch_previous_version_sequence _ = rvi_version_sequence _ |- _ =>
      rewrite <- H end. by apply Hlt.
  - destruct Hnew as [[_ ?]|[? _]]; [done|congruence].
Qed.

Definition sample_hot_input : HotStableRowHeadProofInput :=
  let old := sample_version 1 1 rvs_committed ts_committed in
  let base := sample_version 2 0 rvs_uncommitted ts_active in
  let version_uuid := mkTypedUuid uk_row (sample_uuid 101) in
  mkHotInput old
    (mkRowVersionMetadata
       (mkRowVersionIdentity (rvi_row (rvm_identity base))
          (rvi_creator_transaction (rvm_identity base)) 2 (sample_uuid 102))
       (mkChain version_uuid TypedUuid_default 1 0) 0 rvs_uncommitted ts_active true 0)
    version_uuid version_uuid (sample_snapshot 2 1 1 []) true true false.

Lemma hot_update_admission_witness :
  hdr_decision (EvaluateHotStableRowHeadDecision sample_hot_input) = hsd_page_local_hot /\
  own_version (hi_new_version sample_hot_input) (hi_visibility_snapshot sample_hot_input).
Proof.
  split; [vm_compute; reflexivity|].
  apply (hot_update_admission sample_hot_input). vm_compute. reflexivity.
Defined.

(** ** Horizons *)

(** On every valid inventory the horizon computation succeeds, and the
    horizons are exact: the oldest interesting (active) number is at most every
    unresolved (active) transaction's number and is itself one of them or the
    allocation counter; the snapshot horizon is at most the oldest active number
    and at most every transaction that committed after the begin boundary of a
    stable reader still active. *)
Theorem horizons_exact inv :
  ValidateLocalTransactionInventoryStructure inv = ""%string ->
  let r := ComputeLocalTransactionHorizons inv in
  let h := hres_horizons r in
  hres_ok r = true /\
  (forall e, e ∈ inv_entries inv -> IsInteresting (InventoryVisibilityState e) = true ->
     h_oldest_interesting_transaction h <= e_local_id e) /\
  (h_oldest_interesting_transaction h = inv_next_local_transaction_id inv \/
   exists e, e ∈ inv_entries inv /\ IsInteresting (InventoryVisibilityState e) = true /\
     h_oldest_interesting_transaction h = e_local_id e) /\
  (forall e, e ∈ inv_entries inv -> IsActiveForOat (e_state e) = true ->
     h_oldest_active_transaction h <= e_local_id e) /\
  (h_oldest_active_transaction h = inv_next_local_transaction_id inv \/
   exists e, e ∈ inv_entries inv /\ IsActiveForOat (e_state e) = true /\
     h_oldest_active_transaction h = e_local_id e) /\
  h_oldest_snapshot_transaction h <= h_oldest_active_transaction h /\
  (forall r e, r ∈ inv_entries inv -> e ∈ inv_entries inv ->
     e_stable_snapshot r = true -> IsActiveForOat (e_state r) = true ->
     HasCommittedInventoryOutcome e = true ->
     e_begin_visible_through_commit_sequence r < e_commit_sequence e ->
     h_oldest_snapshot_transaction h <= e_local_id e).
Proof.
  rewrite validate_structure_iff. intros Hs. cbv zeta.
  pose proof (compute_horizons_no_snapshots _ Hs) as Hok.
  unfold ComputeLocalTransactionHorizons in *.
  destruct (compute_horizons_ok _ _ Hok) as [_ Hp].
  destruct (projection_bounds _ _ _ Hp) as (_ & _ & _ & _ & _ & Hoi & Hoa & _ & Hosa & Host).
  destruct (projection_values _ _ _ Hp) as [Hoie Hoae].
  split_and!; try done; [| |auto|].
  - rewrite Hoie. apply oldest_interesting_attained.
  - rewrite Hoae. apply oldest_active_attained.
  - intros r e Hr He Hst Ha Hc Hlt. apply (Host r e); try done.
    pose proof (so_entries _ Hs) as Hall. rewrite Forall_forall in Hall.
    apply (eo_begin _ _ (Hall r Hr)).
Qed.

Lemma horizons_exact_witness :
  h_oldest_snapshot_transaction (hres_horizons (ComputeLocalTransactionHorizons sample_inventory)) <=
  h_oldest_active_transaction (hres_horizons (ComputeLocalTransactionHorizons sample_inventory)).
Proof.
  assert (Hv : ValidateLocalTransactionInventoryStructure sample_inventory = ""%string)
    by (vm_compute; reflexivity).
  destruct (horizons_exact sample_inventory Hv) as (_ & _ & _ & _ & _ & H & _). exact H.
Defined.

(** Along any sequence of accepted inventory operations the oldest
    interesting transaction number never moves backwards, so work below it stays
    settled. *)
Theorem oldest_interesting_monotone inv inv' :
  ValidateLocalTransactionInventoryStructure inv = ""%string -> counters_u64 inv ->
  rtc inventory_step inv inv' ->
  h_oldest_interesting_transaction (hres_horizons (ComputeLocalTransactionHorizons inv)) <=
  h_oldest_interesting_transaction (hres_horizons (ComputeLocalTransactionHorizons inv')).
Proof.
  rewrite validate_structure_iff. intros Hs Hu Hst.
  destruct (steps_evolve _ _ Hs Hu Hst) as (Hs' & _ & Hn & _).
  unfold ComputeLocalTransactionHorizons in *.
  destruct (compute_horizons_ok _ _ (compute_horizons_no_snapshots _ Hs)) as [_ [-> _]%projection_values].
  destruct (compute_horizons_ok _ _ (compute_horizons_no_snapshots _ Hs')) as [_ [-> _]%projection_values].
  pose proof (oldest_interesting_le_next inv) as Hle.
  destruct (oldest_interesting_attained inv') as [->|(e' & He' & Hi & ->)]; [lia|].
  destruct (decide (e_local_id e' < inv_next_local_transaction_id inv)) as [Hlt|]; [|lia].
  destruct (steps_entry_origin _ _ Hs Hu Hst e' He' Hlt) as (e & He & <- & _ & _ & _ & Hfin & _).
  apply oldest_interesting_le; [done|].
  destruct (IsTerminalTransactionState (InventoryVisibilityState e)) eqn:Ht.
  - by destruct (Hfin eq_refl) as (-> & _).
  - pose proof (so_entries _ Hs) as Hall. rewrite Forall_forall in Hall.
    specialize (Hall e He). eapply unresolved_interesting; done.
Qed.

Lemma oldest_interesting_monotone_witness :
  h_oldest_interesting_transaction (hres_horizons (ComputeLocalTransactionHorizons sample_inventory)) <=
  h_oldest_interesting_transaction (hres_horizons (ComputeLocalTransactionHorizons sample_after_commit)).
Proof.
  apply (oldest_interesting_monotone sample_inventory sample_after_commit).
  - vm_compute. reflexivity.
  - split; vm_compute; reflexivity.
  - apply (run_ops_steps _ [op_commit 2 30]). vm_compute. reflexivity.
Defined.
