(* ===== verification/IsolationClaims.v ===== *)
(** * Properties of the serializable conflict tracker *)

From S2P Require Import Prelude Platform TransactionState Inventory RowVersion Snapshot Samples.
From S2P Require Import Isolation.

(** ** Admission *)

Definition access_ok (a : SerializableAccessRecord) : Prop :=
  ar_parser_or_reference_authority a = false /\ ar_durable_inventory_authoritative a = true /\
  ar_local_id a <> 0 /\ ar_sequence a <> 0 /\ ar_kind a <> ak_unknown /\
  IsValidRelationUuid (kr_relation_uuid (ar_range a)) = true /\
  (kr_full_relation (ar_range a) = true \/ kr_predicate_digest (ar_range a) <> ""%string \/
   (kr_lower_bound (ar_range a) <> ""%string /\ kr_upper_bound (ar_range a) <> ""%string) \/
   (kr_lower_unbounded (ar_range a) = true /\ kr_upper_unbounded (ar_range a) = true)).

Lemma kind_read_or_write k : k <> ak_unknown -> IsReadKind k = negb (IsWriteKind k).
Proof. by destruct k. Qed.

Lemma validate_access_iff a : scr_ok (ValidateSerializableAccess a) = true <-> access_ok a.
Proof.
  unfold ValidateSerializableAccess, access_ok, local_id_valid, kInvalidLocalTransactionId.
  destruct (ar_parser_or_reference_authority a); [split; [done|intros (? & _); done]|].
  destruct (ar_durable_inventory_authoritative a); [|split; [done|intros (_ & ? & _); done]].
  cbn [negb]. destruct (decide (ar_kind a = ak_unknown)) as [Hk|Hk].
  { rewrite (bool_decide_eq_true_2 (ar_kind a = ak_unknown)) by done. rewrite !orb_true_r. simpl.
    split; [done|]. intros (_ & _ & _ & _ & ? & _). done. }
  rewrite (kind_read_or_write _ Hk), negb_involutive, andb_negb_r, (bool_decide_eq_false_2 (ar_kind a = ak_unknown)) by done.
  destruct (IsValidRelationUuid _); [|rewrite !orb_true_r; split; [done|intros (_ & _ & _ & _ & _ & ? & _); done]].
  rewrite !orb_false_r.
  destruct (decide (ar_local_id a = 0)) as [E|E]; [rewrite E; simpl; split; [done|intros (_ & _ & ? & _); done]|].
  rewrite (bool_decide_eq_true_2 (_ <> 0)) by done. cbn [negb orb].
  destruct (decide (ar_sequence a = 0)) as [F|F]; [rewrite F; simpl; split; [done|intros (_ & _ & _ & ? & _); done]|].
  rewrite (bool_decide_eq_false_2 (ar_sequence a = 0)) by done. cbn iota.
  destruct (ar_range a) as [rel lo hi lu hu li hi' fr pd]. simpl.
  destruct fr; simpl; [split; [tauto|done]|].
  destruct (decide (pd = ""%string)) as [->|Hpd]; [|rewrite bool_decide_eq_false_2 by done; simpl; tauto].
  destruct (decide (lo = ""%string)) as [->|Hlo], (decide (hi = ""%string)) as [->|Hhi];
    rewrite ?(bool_decide_eq_true_2 (_ = _)) by done;
    rewrite ?(bool_decide_eq_false_2 (lo = _)), ?(bool_decide_eq_false_2 (hi = _)) by done; simpl;
    destruct lu, hu; simpl; split; try done; try tauto;
    intros (_ & _ & _ & _ & _ & _ & [H|[H|[[H1 H2]|[H1 H2]]]]); done.
Qed.

(** ** Keys *)

(** The keys a range covers. *)
Definition covers (r : SerializableKeyRange) (key : string) : Prop :=
  kr_full_relation r = true \/
  ((kr_lower_unbounded r = true \/ string_lt (kr_lower_bound r) key \/
    (kr_lower_bound r = key /\ kr_lower_inclusive r = true)) /\
   (kr_upper_unbounded r = true \/ string_lt key (kr_upper_bound r) \/
    (kr_upper_bound r = key /\ kr_upper_inclusive r = true))).

(** The two ranges carry distinct predicate digests, and neither claims the
    whole relation. *)
Definition distinct_predicates (l r : SerializableKeyRange) : Prop :=
  kr_full_relation l = false /\ kr_full_relation r = false /\
  kr_predicate_digest l <> ""%string /\ kr_predicate_digest r <> ""%string /\
  kr_predicate_digest l <> kr_predicate_digest r.

Lemma entirely_before_disjoint l r key :
  kr_full_relation l = false -> kr_full_relation r = false ->
  covers l key -> covers r key -> entirely_before l r = false.
Proof.
  intros Hl Hr [?|[_ Hu]] [?|[Hw _]]; [congruence..|].
  destruct (entirely_before l r) eqn:He; [|done]. unfold entirely_before in He.
  apply andb_true_iff in He as [Hb Hd]. bool_prop.
  destruct Hu as [?|Hu]; [congruence|]. destruct Hw as [?|Hw]; [congruence|].
  apply orb_true_iff in Hd as [Hd|Hd].
  - apply string_ltb_lt in Hd. exfalso. apply (string_lt_irrefl key).
    assert (string_lt key (kr_lower_bound r)) as Hk.
    { destruct Hu as [Hu|[<- _]]; [by eapply string_lt_trans|done]. }
    destruct Hw as [Hw|[<- _]]; [by eapply string_lt_trans|done].
  - apply andb_true_iff in Hd as [Hd Hi]. bool_prop. rewrite Hd in Hu.
    destruct Hu as [Hu|[Hu Hui]], Hw as [Hw|[Hw Hwi]]; subst.
    + destruct (string_lt_irrefl key). by eapply string_lt_trans.
    + by destruct (string_lt_irrefl (kr_lower_bound r)).
    + by destruct (string_lt_irrefl (kr_lower_bound r)).
    + by rewrite Hui, Hwi in Hi.
Qed.

Lemma shared_key_overlaps l r key :
  SameRelation l r = true -> covers l key -> covers r key -> ~ distinct_predicates l r ->
  BoundsOverlap l r = true.
Proof.
  intros Hs Hl Hr Hd. unfold BoundsOverlap, distinct_predicates in *. rewrite Hs. cbn [negb].
  destruct (kr_full_relation l) eqn:Fl; [done|]. destruct (kr_full_relation r) eqn:Fr; [done|]. cbn [orb].
  destruct (bool_decide (kr_predicate_digest l <> _) || bool_decide (kr_predicate_digest r <> _)) eqn:Hp.
  - apply orb_true_iff. destruct (decide (kr_predicate_digest l = kr_predicate_digest r)) as [E|E];
      [right; by apply bool_decide_eq_true_2|left]. apply orb_true_iff. rewrite !bool_decide_eq_true.
    destruct (decide (kr_predicate_digest l = ""%string)); [by left|].
    destruct (decide (kr_predicate_digest r = ""%string)); [by right|]. destruct Hd. tauto.
  - by rewrite (entirely_before_disjoint l r key), (entirely_before_disjoint r l key).
Qed.

(** ** The scan *)

Lemma overlap_conflict_some existing write :
  access_ok existing -> exists refused, overlap_conflict existing write = Some refused /\ scr_ok refused = false.
Proof.
  intros (_ & _ & _ & _ & Hk & _). unfold overlap_conflict.
  destruct (IsRecoveryState _ || IsRecoveryState _); [by eexists|].
  destruct (ar_kind existing); try done; by eexists.
Qed.

Lemma scan_accesses_ok es w :
  scr_ok (scan_accesses es w) = true <->
  (forall a, a ∈ es -> (ar_local_id a : N) <> ar_local_id w ->
   access_ok a /\ BoundsOverlap (ar_range a) (ar_range w) = false).
Proof.
  induction es as [|a es IH]; simpl; [split; [set_solver|done]|].
  destruct (decide ((ar_local_id a : N) = ar_local_id w)) as [He|He].
  { rewrite IH. split; intros H x; rewrite ?elem_of_cons.
    - intros [->|Hx] Hne; [done|by apply H].
    - intros Hx. apply H. by right. }
  destruct (scr_ok (ValidateSerializableAccess a)) eqn:Hv; simpl.
  2:{ rewrite Hv. split; [done|]. intros H. destruct (H a) as [Ha _]; [by left|done|].
      apply validate_access_iff in Ha. congruence. }
  apply validate_access_iff in Hv. destruct (BoundsOverlap (ar_range a) (ar_range w)) eqn:Ho; simpl.
  - destruct (overlap_conflict_some a w Hv) as (refused & -> & ->). split; [done|].
    intros H. destruct (H a) as [_ Hn]; [by left|done|]. congruence.
  - rewrite IH. split; intros H x; rewrite ?elem_of_cons.
    + intros [->|Hx] Hne; [done|by apply H].
    + intros Hx. apply H. by right.
Qed.

Lemma write_check_ok es w :
  scr_ok (EvaluateSerializableWriteConflict es w) = true <->
  access_ok w /\ IsWriteKind (ar_kind w) = true /\
  (forall a, a ∈ es -> (ar_local_id a : N) <> ar_local_id w ->
   access_ok a /\ BoundsOverlap (ar_range a) (ar_range w) = false).
Proof.
  unfold EvaluateSerializableWriteConflict. rewrite <- scan_accesses_ok, <- validate_access_iff.
  destruct (scr_ok (ValidateSerializableAccess w)) eqn:Hv; simpl; [|rewrite Hv; split; [done|intros (H & _); done]].
  destruct (IsWriteKind (ar_kind w)); simpl; [tauto|]. split; [done|intros (_ & H & _); done].
Qed.

(** A write is admitted exactly when it and every access recorded by another
    transaction are well formed, it is an insert, update or delete, and it
    overlaps none of those accesses; and two ranges of one relation that share a
    key always overlap, unless they carry distinct predicate digests. *)
Theorem write_admission_exact es w :
  (scr_ok (EvaluateSerializableWriteConflict es w) = true <->
   access_ok w /\ IsWriteKind (ar_kind w) = true /\
   (forall a, a ∈ es -> (ar_local_id a : N) <> ar_local_id w ->
    access_ok a /\ BoundsOverlap (ar_range a) (ar_range w) = false)) /\
  (forall a key, a ∈ es -> (ar_local_id a : N) <> ar_local_id w ->
   SameRelation (ar_range a) (ar_range w) = true ->
   covers (ar_range a) key -> covers (ar_range w) key ->
   ~ distinct_predicates (ar_range a) (ar_range w) ->
   scr_ok (EvaluateSerializableWriteConflict es w) = false).
Proof.
  split; [apply write_check_ok|]. intros a key Ha Hne Hs Hc Hw Hd.
  destruct (scr_ok (EvaluateSerializableWriteConflict es w)) eqn:H; [|done].
  apply write_check_ok in H as (_ & _ & H). destruct (H a Ha Hne) as [_ Ho].
  by rewrite (shared_key_overlaps _ _ key) in Ho.
Qed.

(** ** The tracker over time *)

Inductive tracker_op := to_record_access (a : SerializableAccessRecord) | to_record_write (a : SerializableAccessRecord).

Definition run_tracker_op (t : SerializableConflictTracker) (op : tracker_op) : SerializableConflictTracker :=
  match op with
  | to_record_access a => fst (tracker_RecordAccess t a)
  | to_record_write a => fst (tracker_RecordWrite t a)
  end.

Definition run_tracker (ops : list tracker_op) : SerializableConflictTracker := foldl run_tracker_op [] ops.

(** Whatever was recorded is well formed, and an access that meets an earlier one
    of another transaction is a read. *)
Record tracker_ok (t : list SerializableAccessRecord) : Prop := {
  tk_valid : Forall access_ok t;
  tk_order : forall i j a b, (i < j)%nat -> t !! i = Some a -> t !! j = Some b ->
    (ar_local_id a : N) <> ar_local_id b -> BoundsOverlap (ar_range a) (ar_range b) = true ->
    IsWriteKind (ar_kind b) = false }.

Lemma tracker_ok_snoc (t : list SerializableAccessRecord) b :
  tracker_ok t -> access_ok b ->
  (IsWriteKind (ar_kind b) = true -> forall a, a ∈ t -> (ar_local_id a : N) <> ar_local_id b ->
   BoundsOverlap (ar_range a) (ar_range b) = false) ->
  tracker_ok (t ++ [b]).
Proof.
  intros [Hv Ho] Hb Hw. split; [by apply Forall_app; split; [|constructor]|].
  intros i j x y Hij Hi Hj Hne Hov.
  apply lookup_app_Some in Hj as [Hj|[Hlen Hj]].
  - rewrite lookup_app_l in Hi by (apply lookup_lt_Some in Hj; lia). by apply (Ho i j x y).
  - apply list_lookup_singleton_Some in Hj as [Hj <-].
    rewrite lookup_app_l in Hi by lia.
    destruct (IsWriteKind (ar_kind b)) eqn:Hk; [|done].
    rewrite (Hw eq_refl x) in Hov; [done|by eapply list_elem_of_lookup_2|done].
Qed.

Lemma record_write_ok t w : tracker_ok t -> tracker_ok (fst (tracker_RecordWrite t w)).
Proof.
  intros Ht. unfold tracker_RecordWrite, tracker_CheckWrite.
  destruct (scr_ok (EvaluateSerializableWriteConflict t w)) eqn:Hc; simpl; [|done].
  apply write_check_ok in Hc as (Hw & _ & Hx). apply tracker_ok_snoc; [done..|].
  intros _ a Ha Hne. by apply Hx.
Qed.

Lemma record_access_ok t a : tracker_ok t -> tracker_ok (fst (tracker_RecordAccess t a)).
Proof.
  intros Ht. unfold tracker_RecordAccess.
  destruct (scr_ok (ValidateSerializableAccess a)) eqn:Hv; simpl; [|done].
  destruct (IsWriteKind (ar_kind a)) eqn:Hk; [by apply record_write_ok|].
  apply tracker_ok_snoc; [done|by apply validate_access_iff|congruence].
Qed.

Lemma run_tracker_ok ops : tracker_ok (run_tracker ops).
Proof.
  unfold run_tracker. assert (tracker_ok []) as H by (split; [constructor|done]).
  revert H. generalize (@nil SerializableAccessRecord : SerializableConflictTracker).
  induction ops as [|op ops IH]; intros t Ht; [done|]. simpl. apply IH.
  destruct op; simpl; [by apply record_access_ok|by apply record_write_ok].
Qed.

(** After any sequence of recorded accesses and writes, every recorded access
    is well formed, and when two accesses of different transactions to one
    relation share a key (and are not told apart by predicate digests) the later
    one is a read: no write is ever recorded over another transaction's read or
    write. *)
Theorem tracker_write_protection ops i j a b key :
  (i < j)%nat -> run_tracker ops !! i = Some a -> run_tracker ops !! j = Some b ->
  (ar_local_id a : N) <> ar_local_id b -> SameRelation (ar_range a) (ar_range b) = true ->
  covers (ar_range a) key -> covers (ar_range b) key ->
  ~ distinct_predicates (ar_range a) (ar_range b) ->
  access_ok a /\ access_ok b /\ IsReadKind (ar_kind b) = true.
Proof.
  intros Hij Hi Hj Hne Hs Ha Hb Hd. destruct (run_tracker_ok ops) as [Hv Ho].
  rewrite Forall_lookup in Hv. split_and!; [by eapply Hv..|].
  rewrite kind_read_or_write by apply (Hv j b Hj).
  by rewrite (Ho i j a b Hij Hi Hj Hne (shared_key_overlaps _ _ key Hs Ha Hb Hd)).
Qed.

Definition sample_relation : TypedUuid := mkTypedUuid uk_object (sample_uuid 50).

Definition sample_access (txn sequence : N) (kind : SerializableAccessKind) (key : string)
    : SerializableAccessRecord :=
  mkAccess txn ts_active kind (MakeSerializablePointRange sample_relation key) sequence true false.

Definition sample_tracker_ops : list tracker_op :=
  [to_record_access (sample_access 1 1 ak_update "x");
   to_record_access (sample_access 2 2 ak_update "y");
   to_record_access (sample_access 1 3 ak_point_read "y");
   to_record_access (sample_access 2 4 ak_point_read "x")].

Lemma tracker_write_protection_witness :
  IsReadKind (ar_kind (sample_access 1 3 ak_point_read "y")) = true.
Proof.
  assert (Hc : forall t s k y, covers (ar_range (sample_access t s k y)) y)
    by (intros; right; split; right; right; split; reflexivity).
  destruct (tracker_write_protection sample_tracker_ops 1 2 (sample_access 2 2 ak_update "y")
    (sample_access 1 3 ak_point_read "y") "y") as (_ & _ & H); [lia|vm_compute; reflexivity..|discriminate| | | | |exact H].
  - vm_compute; reflexivity.
  - apply Hc.
  - apply Hc.
  - intros (_ & _ & H & _). apply H. reflexivity.
Defined.

(** Reads are recorded without looking at earlier writes: two transactions that
    each write one key and then read the other's are both admitted. *)
Lemma write_skew_admitted : tracker_access_count (run_tracker sample_tracker_ops) = 4.
Proof. vm_compute. reflexivity. Qed.

(** Issued the other way round, reads first, the second write is refused. *)
Lemma write_skew_refused :
  let reads := run_tracker [to_record_access (sample_access 1 1 ak_point_read "y");
                            to_record_access (sample_access 2 2 ak_point_read "x")] in
  scr_conflict (tracker_CheckWrite reads (sample_access 1 3 ak_update "x")) = ck_read_write.
Proof. vm_compute. reflexivity. Qed.
