(* ===== verification/CleanupClaims.v ===== *)
(** * Properties of row version cleanup *)

From S2P Require Import Prelude Platform TransactionState Inventory Horizon RowVersion Snapshot.
From S2P Require Import CopyOnWrite InventoryTheorems InventorySteps Samples SnapshotFacts.
From S2P Require Import CleanupHorizon Cleanup CleanupFacts.

Lemma effective_horizon_le horizon r :
  effective_horizon horizon r <= horizon /\
  (forall hold, hold ∈ wr_additional_holds r -> effective_horizon horizon r <= ah_horizon_transaction hold) /\
  (forall h, h ∈ wr_history_retention_horizons r -> effective_horizon horizon r <= rh_horizon_transaction h).
Proof.
  unfold effective_horizon. set (first := min_over horizon _). split_and!.
  - etrans; [apply min_over_le_init|]. apply min_over_le_init.
  - intros hold Hh. etrans; [apply min_over_le_init|]. apply min_over_le_elem. by apply list_elem_of_fmap_2.
  - intros h Hh. apply min_over_le_elem. by apply list_elem_of_fmap_2.
Qed.

Lemma filter_split_length {A} (f : A -> bool) (l : list A) :
  (length (filter (fun x => f x = true) l) + length (filter (fun x => f x = false) l) = length l)%nat.
Proof.
  induction l as [|x l IH]; [done|]. rewrite !filter_cons. destruct (f x) eqn:E; simpl; lia.
Qed.

(** An accepted cleanup pass reclaims exactly the row versions that are well
    formed, whose creator's outcome is final, that lie below the oldest
    interesting, oldest active and oldest snapshot transactions, below every hold
    and retention horizon, are of an enabled kind and, when committed, have a
    committed successor below the effective horizon.  Every other version is
    retained, in order; evidence is recorded for exactly the reclaimed ones; and
    the effective horizon is at or below every horizon, hold and published or
    supplied snapshot. *)
Theorem cleanup_pass_exact w r :
  wres_ok (ApplyLocalCleanupWithAuthoritativeInventory w r) = true ->
  let res := ApplyLocalCleanupWithAuthoritativeInventory w r in
  let h := wres_horizons res in
  let eff := wres_authoritative_cleanup_horizon_local_transaction_id res in
  (forall m, reclaims r h eff m = true <-> reclaimable r h eff m) /\
  (wres_retained_row_versions res =
     if wr_retain_row_versions_in_result r
     then filter (fun m => reclaims r h eff m = false) (wr_row_versions r) else []) /\
  (wres_reclaim_evidence_records res =
     if wr_emit_reclaim_evidence_records r
     then (fun m => MakeReclaimEvidenceRecord m eff) <$>
          filter (fun m => reclaims r h eff m = true) (wr_row_versions r) else []) /\
  wres_reclaimed_row_version_count res =
    N.of_nat (length (filter (fun m => reclaims r h eff m = true) (wr_row_versions r))) /\
  wres_reclaimed_row_version_count res + wres_retained_row_version_count res =
    N.of_nat (length (wr_row_versions r)) /\
  eff <= h_oldest_interesting_transaction h /\ eff <= h_oldest_active_transaction h /\
  eff <= h_oldest_snapshot_transaction h /\
  (forall hold, hold ∈ wr_additional_holds r -> eff <= ah_horizon_transaction hold) /\
  (forall rh, rh ∈ wr_history_retention_horizons r -> eff <= rh_horizon_transaction rh) /\
  (forall x, x ∈ snapshot_horizons w (workset_horizon_request r) -> eff <= x).
Proof.
  intros Hok. destruct (apply_cleanup_ok w r Hok) as (Hs & Hp & Heff & Hrc & Htc & Hret & Hev). cbv zeta.
  set (res := ApplyLocalCleanupWithAuthoritativeInventory w r) in *.
  destruct (projection_bounds _ _ _ Hp) as (_ & Hv & _ & _ & _ & _ & _ & Hsnap & _ & _).
  destruct (effective_horizon_le (smallest_horizon (wres_horizons res)) r) as (Hle & Hhold & Hrh).
  rewrite <- Heff in Hle, Hhold, Hrh. unfold smallest_horizon in Hle.
  split_and!; try done; try lia.
  - intros m. by apply reclaims_iff.
  - rewrite Hrc, Htc. pose proof (filter_split_length (reclaims r (wres_horizons res)
      (wres_authoritative_cleanup_horizon_local_transaction_id res)) (wr_row_versions r)). lia.
  - intros x Hx. specialize (Hsnap x Hx). lia.
Qed.

(** A committed entry below every snapshot a running reader could hold lies
    within that reader's boundary. *)
Lemma below_horizon_within_boundary inv hs h reader e :
  structure_ok inv -> counters_u64 inv -> ProjectValidatedLocalHorizons inv hs = inr h ->
  reader ∈ inv_entries inv -> IsActiveForOat (e_state reader) = true ->
  e ∈ inv_entries inv -> HasCommittedInventoryOutcome e = true ->
  e_local_id e < h_oldest_snapshot_transaction h ->
  e_commit_sequence e <= commit_boundary inv reader.
Proof.
  intros Hs [_ Hu] Hp Hr Ha He Hc Hlt.
  pose proof (structure_entry _ _ Hs He) as Heok. pose proof (structure_entry _ _ Hs Hr) as Hrok.
  pose proof (eo_committed _ _ Heok Hc) as Hseq. pose proof (eo_begin _ _ Hrok) as Hb.
  unfold commit_boundary. destruct (e_stable_snapshot reader) eqn:Hst.
  - destruct (projection_bounds _ _ _ Hp) as (_ & _ & _ & _ & _ & _ & _ & _ & _ & Hold).
    destruct (decide (e_commit_sequence e <= e_begin_visible_through_commit_sequence reader)); [done|].
    specialize (Hold reader e Hr He Hst Ha Hb Hc). lia.
  - rewrite u64_sub_small; [lia..|done].
Qed.

Lemma state_committed_outcome inv e :
  entry_ok inv e -> e_state e = ts_committed -> HasCommittedInventoryOutcome e = true.
Proof.
  intros Hok Hst. unfold HasCommittedInventoryOutcome. apply bool_decide_eq_true_2.
  rewrite (visibility_not_archived inv) by (done || by rewrite Hst). done.
Qed.

Lemma unfinished_never_visible m s :
  rvm_state m = rvs_rolled_back \/ rvm_state m = rvs_delete_marker ->
  vr_decision (EvaluateVisibility m s) <> vd_visible.
Proof.
  intros Hm Hv. apply evaluate_visibility_visible in Hv as [_ Hv].
  unfold evaluate_state in Hv. by destruct Hm as [Hm|Hm]; rewrite Hm in Hv.
Qed.

(** What the decision of the pass means for the readers: under the snapshot of any active
    reader a version it gives up is invisible, or its successor is. *)
Lemma reclaims_not_needed w r m reader :
  counters_u64 (wr_inventory r) ->
  wres_ok (ApplyLocalCleanupWithAuthoritativeInventory w r) = true ->
  reclaims r (wres_horizons (ApplyLocalCleanupWithAuthoritativeInventory w r))
    (wres_authoritative_cleanup_horizon_local_transaction_id
       (ApplyLocalCleanupWithAuthoritativeInventory w r)) m = true ->
  tsr_ok (CreateLocalTransactionSnapshot (wr_inventory r) reader) = true ->
  IsActiveForOat (e_state (lr_entry (LookupLocalTransaction (wr_inventory r) reader))) = true ->
  let s := tsr_visibility_snapshot (CreateLocalTransactionSnapshot (wr_inventory r) reader) in
  (rvm_state m <> rvs_committed -> vr_decision (EvaluateVisibility m s) <> vd_visible) /\
  (rvm_state m = rvs_committed ->
   exists e, e ∈ inv_entries (wr_inventory r) /\
     e_local_id e = rvm_successor_transaction_local_id m /\
     (forall x, x ∈ snapshot_horizons w (workset_horizon_request r) -> e_local_id e < x) /\
     (forall m', version_of m' e -> metadata_ok m' -> rvm_state m' = rvs_committed ->
      vr_decision (EvaluateVisibility m' s) = vd_visible)).
Proof.
  intros Hu Hok Hrec Hsnap Hact s.
  destruct (apply_cleanup_ok w r Hok) as (Hs & Hp & Heff & _).
  set (res := ApplyLocalCleanupWithAuthoritativeInventory w r) in *.
  destruct (projection_bounds _ _ _ Hp) as (_ & Hv & _ & _ & _ & _ & _ & Hsn & _ & _).
  apply (reclaims_iff _ _ _ _ Hv) in Hrec as (_ & _ & _ & _ & _ & _ & Hsucc & Hkind).
  unfold IsCleanupReclaimableByKind in Hkind. split.
  - intros Hm. apply unfinished_never_visible.
    rewrite (bool_decide_eq_false_2 (rvm_state m = rvs_committed)) in Hkind by done.
    destruct (decide (rvm_state m = rvs_rolled_back)); [by left|].
    destruct (decide (rvm_state m = rvs_delete_marker)); [by right|done].
  - intros Hm. rewrite Hm, !decide_False in Hkind by done. simpl in Hkind.
    destruct (chain_has_next (rvm_chain m)) eqn:Hnx; [|done].
    destruct (Hsucc (conj Hm Hnx)) as (_ & Hlt & e & Hf & Hst).
    unfold FindInventoryEntry in Hf.
    destruct (list_find _ _) as [[i e0]|] eqn:Hfind; [|done]. simpl in Hf. simplify_eq.
    apply list_find_Some in Hfind as (Hi & Hid & _). apply list_elem_of_lookup_2 in Hi.
    pose proof (structure_entry _ _ Hs Hi) as Heok. pose proof (state_committed_outcome _ _ Heok Hst) as Hc.
    destruct (effective_horizon_le (smallest_horizon (wres_horizons res)) r) as (Hle & _ & _).
    rewrite <- Heff in Hle. unfold smallest_horizon in Hle.
    exists e. split_and!; [done|done|intros x Hx; specialize (Hsn x Hx); lia|].
    intros m' Hvo Hmok Hst'. apply evaluate_visibility_visible. split; [done|].
    apply evaluate_state_visible. right. split; [done|]. split.
    { rewrite (vo_state _ _ Hvo). unfold HasCommittedInventoryOutcome in Hc. by apply bool_decide_eq_true_1 in Hc. }
    destruct (create_snapshot_ok _ _ Hsnap) as (_ & Hin & _ & _ & _).
    apply (within_created_snapshot (wr_inventory r) reader m' e); [done..|].
    apply (below_horizon_within_boundary (wr_inventory r)
      (snapshot_horizons w (workset_horizon_request r)) (wres_horizons res)); try done. rewrite Hid. lia.
Qed.

(** What a pass did with the versions it was given: the versions it returned as retained
    and those it gave up, as far as it reports them. *)
Record pass_split (r : LocalCleanupWorksetRequest) (res : LocalCleanupWorksetResult)
    (kept given_up : list RowVersionMetadata) : Prop := {
  sp_all : wr_row_versions r ≡ₚ kept ++ given_up;
  sp_order : kept `sublist_of` wr_row_versions r /\ given_up `sublist_of` wr_row_versions r;
  sp_kept : wr_retain_row_versions_in_result r = true -> wres_retained_row_versions res = kept;
  sp_evidence : wr_emit_reclaim_evidence_records r = true ->
    wres_reclaim_evidence_records res =
      (fun m => MakeReclaimEvidenceRecord m (wres_authoritative_cleanup_horizon_local_transaction_id res)) <$> given_up;
  sp_counts : wres_retained_row_version_count res = N.of_nat (length kept) /\
              wres_reclaimed_row_version_count res = N.of_nat (length given_up) }.

Lemma filter_partition {A} (f : A -> bool) (l : list A) :
  l ≡ₚ filter (fun x => f x = false) l ++ filter (fun x => f x = true) l.
Proof.
  induction l as [|x l IH]; [done|]. rewrite !filter_cons. destruct (f x).
  - rewrite decide_False, decide_True by done. etrans; [apply Permutation_skip, IH|apply Permutation_middle].
  - rewrite decide_True, decide_False by done. apply Permutation_skip, IH.
Qed.

Lemma cleanup_splits w r :
  wres_ok (ApplyLocalCleanupWithAuthoritativeInventory w r) = true ->
  let res := ApplyLocalCleanupWithAuthoritativeInventory w r in
  let gives_up := reclaims r (wres_horizons res) (wres_authoritative_cleanup_horizon_local_transaction_id res) in
  pass_split r res (filter (fun m => gives_up m = false) (wr_row_versions r)) (filter (fun m => gives_up m = true) (wr_row_versions r)).
Proof.
  intros Hok. destruct (apply_cleanup_ok w r Hok) as (_ & _ & _ & Hrc & Htc & Hret & Hev). cbv zeta. split.
  - apply filter_partition.
  - split; apply sublist_filter.
  - intros Hr. rewrite Hret, Hr. done.
  - intros He. rewrite Hev, He. done.
  - done.
Qed.

(** The sweep is the pass on its own workset. *)
Lemma sweep_is_pass w r :
  sres_ok (RunLocalGarbageCollectionSweep w r) = true ->
  sres_cleanup (RunLocalGarbageCollectionSweep w r) = ApplyLocalCleanupWithAuthoritativeInventory w (sweep_workset r) /\
  wres_ok (ApplyLocalCleanupWithAuthoritativeInventory w (sweep_workset r)) = true.
Proof.
  unfold RunLocalGarbageCollectionSweep, CleanupSweepError. intros H. repeat case_match; try discriminate H.
  split; [done|]. unfold sres_ok in H. cbn [sres_cleanup] in H. by apply andb_true_iff in H as [[_ H]%andb_true_iff _].
Qed.

(** C6: a garbage collection sweep gives up only versions no running reader needs, and
    keeps every other one.  An accepted sweep splits the row versions it was given into
    kept ones, which are those it returns and counts as retained, and given up ones, which
    are those it counts and records as reclaimed.  The versions given up are exactly the
    reclaimable ones.  Under the snapshot of any active reader of the inventory a rolled
    back version or delete marker that was given up is invisible; and a committed version
    that was given up has a successor transaction in the inventory, below every published
    or supplied snapshot horizon, all of whose well-formed committed versions that reader
    sees. *)
Theorem reclaimed_versions_not_needed w r :
  counters_u64 (wr_inventory (sr_workset r)) ->
  sres_ok (RunLocalGarbageCollectionSweep w r) = true ->
  let inv := wr_inventory (sr_workset r) in
  let res := sres_cleanup (RunLocalGarbageCollectionSweep w r) in
  exists kept given_up, pass_split (sweep_workset r) res kept given_up /\
    (forall m, m ∈ wr_row_versions (sr_workset r) ->
       (m ∈ given_up <-> m ∉ kept) /\
       (m ∈ given_up <-> reclaimable (sweep_workset r) (wres_horizons res) (wres_authoritative_cleanup_horizon_local_transaction_id res) m)) /\
    (forall m reader, m ∈ given_up ->
       tsr_ok (CreateLocalTransactionSnapshot inv reader) = true ->
       IsActiveForOat (e_state (lr_entry (LookupLocalTransaction inv reader))) = true ->
       let s := tsr_visibility_snapshot (CreateLocalTransactionSnapshot inv reader) in
       (rvm_state m <> rvs_committed -> vr_decision (EvaluateVisibility m s) <> vd_visible) /\
       (rvm_state m = rvs_committed ->
        exists e, e ∈ inv_entries inv /\ e_local_id e = rvm_successor_transaction_local_id m /\
          (forall x, x ∈ snapshot_horizons w (workset_horizon_request (sweep_workset r)) -> e_local_id e < x) /\
          (forall m', version_of m' e -> metadata_ok m' -> rvm_state m' = rvs_committed ->
           vr_decision (EvaluateVisibility m' s) = vd_visible))).
Proof.
  intros Hu Hok. cbv zeta. destruct (sweep_is_pass w r Hok) as [-> Hpass]. pose proof (cleanup_splits w _ Hpass) as Hsplit. cbv zeta in Hsplit.
  eexists _, _. split; [exact Hsplit|]. split.
  - intros m Hm. destruct (apply_cleanup_ok w _ Hpass) as (_ & Hp & _). destruct (projection_bounds _ _ _ Hp) as (_ & Hv & _).
    rewrite <- (reclaims_iff _ _ _ m Hv), !list_elem_of_filter. destruct (reclaims _ _ _ m); naive_solver.
  - intros m reader Hm. apply list_elem_of_filter in Hm as [Hm _]. by apply (reclaims_not_needed w (sweep_workset r) m reader).
Qed.

(** ** Concrete passes *)

(** A well-formed version: its creator and successor, its position in the chain. *)
Definition sample_version (creator successor sequence next : N) (s : RowVersionState)
    (creator_state : TransactionState) (commit_sequence : N) : RowVersionMetadata :=
  mkRowVersionMetadata
    (mkRowVersionIdentity (mkRowIdentity (mkTypedUuid uk_row (sample_uuid 100)))
       (mkTransactionIdentity creator (sample_txn_uuid creator) scope_local_node) sequence
       (sample_uuid (110 + sequence)))
    (mkChain TypedUuid_default TypedUuid_default 0 next) successor s creator_state true commit_sequence.

Definition sample_cleanup (inv : LocalTransactionInventory) (rows : list RowVersionMetadata)
    : LocalCleanupWorksetRequest :=
  mkWorksetRequest inv true true [] true false true [] [] [] rows 0 true true 10 true true true.

(** One and two committed versions of a row; three reads. *)
Definition cleanup_inventory : LocalTransactionInventory :=
  sample_run [op_begin (sample_txn_uuid 1) 10; op_commit 1 11; op_begin (sample_txn_uuid 2) 12;
              op_commit 2 13; op_begin (sample_txn_uuid 3) 14].

Definition cleanup_rows : list RowVersionMetadata :=
  [sample_version 1 2 1 2 rvs_committed ts_committed 1; sample_version 2 0 2 0 rvs_committed ts_committed 2].

Lemma cleanup_pass_exact_witness :
  wres_reclaimed_row_version_count
    (ApplyLocalCleanupWithAuthoritativeInventory empty_world (sample_cleanup cleanup_inventory cleanup_rows)) = 1 /\
  wres_authoritative_cleanup_horizon_local_transaction_id
    (ApplyLocalCleanupWithAuthoritativeInventory empty_world (sample_cleanup cleanup_inventory cleanup_rows)) <=
  h_oldest_active_transaction (wres_horizons
    (ApplyLocalCleanupWithAuthoritativeInventory empty_world (sample_cleanup cleanup_inventory cleanup_rows))).
Proof.
  destruct (cleanup_pass_exact empty_world (sample_cleanup cleanup_inventory cleanup_rows))
    as (_ & _ & _ & _ & _ & _ & H & _); [vm_compute; reflexivity|].
  split; [vm_compute; reflexivity|exact H].
Defined.

(** The sweep on the sample keeps the current version and gives up the old one. *)
Definition sample_sweep : LocalGarbageCollectionSweepRequest :=
  mkSweepRequest (sample_cleanup cleanup_inventory cleanup_rows) sf_background true 10 10 true.

Lemma reclaimed_versions_not_needed_witness :
  sres_ok (RunLocalGarbageCollectionSweep empty_world sample_sweep) = true /\
  exists kept given_up, pass_split (sweep_workset sample_sweep) (sres_cleanup (RunLocalGarbageCollectionSweep empty_world sample_sweep)) kept given_up /\
    kept = [sample_version 2 0 2 0 rvs_committed ts_committed 2] /\ length given_up = 1%nat.
Proof.
  assert (Hok : sres_ok (RunLocalGarbageCollectionSweep empty_world sample_sweep) = true) by (vm_compute; reflexivity).
  split; [exact Hok|].
  destruct (reclaimed_versions_not_needed empty_world sample_sweep) as (kept & given_up & H & _); [split; vm_compute; reflexivity|exact Hok|].
  exists kept, given_up. split; [exact H|]. destruct H as [_ _ Hk _ [_ Hc]]. split.
  - rewrite <- (Hk eq_refl). vm_compute. reflexivity.
  - apply Nat2N.inj. rewrite <- Hc. vm_compute. reflexivity.
Defined.

(** A stable reader that has prepared is not counted by the snapshot horizon:
    the version it still sees is reclaimed although the successor committed after
    the reader began. *)
Definition prepared_reader_inventory : LocalTransactionInventory :=
  let entry n s b seq stable :=
    mkEntry (mkTransactionIdentity n (sample_txn_uuid n) scope_local_node) s ts_none 10 0 (n - 1) b seq
      true true false stable in
  mkInventory 4 3 [entry 1 ts_committed 0 1 false; entry 2 ts_committed 1 2 false;
                   entry 3 ts_prepared 1 0 true] None.

Lemma prepared_reader_loses_version :
  let old := sample_version 1 2 1 2 rvs_committed ts_committed 1 in
  let new := sample_version 2 0 2 0 rvs_committed ts_committed 2 in
  let res := ApplyLocalCleanupWithAuthoritativeInventory empty_world
               (sample_cleanup prepared_reader_inventory [old; new]) in
  let s := tsr_visibility_snapshot (CreateLocalTransactionSnapshot prepared_reader_inventory 3) in
  tsr_ok (CreateLocalTransactionSnapshot prepared_reader_inventory 3) = true /\
  vr_decision (EvaluateVisibility old s) = vd_visible /\
  vr_decision (EvaluateVisibility new s) = vd_invisible /\
  wres_ok res = true /\ wres_retained_row_versions res = [new].
Proof. vm_compute. done. Qed.

(** Once the successor's entry has been archived the obsolete version is no
    longer reclaimed. *)
Lemma archived_successor_blocks_cleanup :
  let inv := default LocalTransactionInventory_default (run_op cleanup_inventory (op_archive 2)) in
  let res := ApplyLocalCleanupWithAuthoritativeInventory empty_world (sample_cleanup inv cleanup_rows) in
  wres_ok res = true /\ wres_reclaimed_row_version_count res = 0 /\
  wres_limbo_or_unknown_outcome_blocked_row_version_count res = 1.
Proof. vm_compute. done. Qed.
