(* ===== verification/VisibilityCacheClaims.v ===== *)
(** * Facts about the visibility status cache

    What each operation of the cache does to the stored entries and when it
    accepts; numbers known to be committed stay so along inventory executions. *)

From S2P Require Import Prelude Platform TransactionState Inventory InventoryEvolution InventoryTheorems.
From S2P Require Import InventorySteps Samples SnapshotFacts PageFinality VisibilityCache.

(** ** Shapes of decisions *)

Definition refused_closed (d : VisibilityStatusCacheDecision) : Prop :=
  vd_accepted d = false /\ vd_all_committed d = false /\ vd_all_visible d = false /\
  vd_no_older_reader d = false /\ vd_authoritative_path_required d = true.

Definition accepted_open (d : VisibilityStatusCacheDecision) : Prop :=
  vd_accepted d = true /\ vd_authoritative_path_required d = false /\ vd_refusal_reason d = "none"%string /\
  vd_cache_is_transaction_finality_authority d = false /\
  vd_durable_mga_inventory_remains_authority d = true.

(** The decision before any verdict. *)
Definition undecided (d : VisibilityStatusCacheDecision) : Prop :=
  refused_closed d /\ vd_refusal_reason d = "not_evaluated"%string /\
  vd_cache_is_transaction_finality_authority d = false /\
  vd_durable_mga_inventory_remains_authority d = true.

Lemma start_undecided p : undecided (StartDecision p).
Proof. done. Qed.

Lemma refuse_closed d reason : refused_closed (Refuse d reason).
Proof. done. Qed.

Lemma accept_open d a b c name : undecided d -> accepted_open (Accept (set_answers a b c d) name).
Proof. by intros (_ & _ & ? & ?). Qed.

Lemma accept_evidence_open d a b c k v name :
  undecided d -> accepted_open (Accept (AddCacheEvidence (set_answers a b c d) k v) name).
Proof. by intros (_ & _ & ? & ?). Qed.

Lemma undecided_not_refused d : undecided d -> IsRefused d = false.
Proof. intros (_ & H & _). unfold IsRefused. by rewrite H. Qed.

(** Every validation step either refuses or leaves the decision open. *)
Definition validates (d d' : VisibilityStatusCacheDecision) : Prop :=
  (IsRefused d' = true /\ refused_closed d') \/ (IsRefused d' = false /\ undecided d').

Lemma common_validates d f : undecided d -> validates d (ValidateCommonFacts d f).
Proof.
  intros Hd. unfold ValidateCommonFacts. repeat case_match; [by left..|].
  right. split; [by apply undecided_not_refused|done].
Qed.

Lemma container_validates d c f : undecided d -> validates d (ValidateCacheContainerFreshness d c f).
Proof.
  intros Hd. unfold ValidateCacheContainerFreshness. case_decide; [by left|].
  right. split; [by apply undecided_not_refused|done].
Qed.

(** The stamp of an entry agrees with the facts of a request. *)
Definition stamp_current (e : CacheEntryStamp) (f : VisibilityStatusCacheFacts) : Prop :=
  st_status e = cs_current /\ IsEngineMgaProvenance (st_provenance e) = true /\
  st_cache_generation e = vf_cache_generation f /\
  st_invalidation_generation e = vf_invalidation_generation f /\
  st_horizon_epoch e = vf_horizon_epoch f /\ st_snapshot_epoch e = vf_snapshot_epoch f.

Lemma entry_validates d e f :
  undecided d -> validates d (ValidateEntryFreshness d e f) /\
  (IsRefused (ValidateEntryFreshness d e f) = false -> stamp_current e f).
Proof.
  intros Hd. unfold ValidateEntryFreshness.
  repeat (case_decide || case_match); try (split; [by left|done]).
  split; [right; split; [by apply undecided_not_refused|done]|].
  intros _. unfold stamp_current. bool_prop. split_and!; try done; by apply dec_stable.
Qed.

(** ** What the operations store *)

Definition entries_of (c : option MgaVisibilityStatusCache) :=
  match c with
  | Some c => (ca_transaction_status_ranges c, ca_page_visibility_entries c, ca_relation_reader_entries c)
  | None => ([], [], [])
  end.

Definition cache_generations (c : option MgaVisibilityStatusCache) : option (N * N) :=
  (fun c => (ca_cache_generation c, ca_invalidation_generation c)) <$> c.

(** The decision is a refusal and only counters may have changed. *)
Definition refused_unchanged (c : option MgaVisibilityStatusCache)
    (res : option MgaVisibilityStatusCache * VisibilityStatusCacheDecision) : Prop :=
  refused_closed (snd res) /\ entries_of (fst res) = entries_of c /\
  cache_generations (fst res) = cache_generations c.

Lemma unmerged_refusal c d reason : refused_unchanged c (c, Refuse d reason).
Proof. done. Qed.

Lemma merged_refusal c d : refused_closed d -> refused_unchanged (Some c) (merge_into c d).
Proof. done. Qed.

#[export] Hint Resolve start_undecided refuse_closed accept_open accept_evidence_open
  unmerged_refusal merged_refusal : sbird.

(** Opens the validation prefix of an operation: the refused cases are closed, and
    the decision that goes on is a fresh variable known to be undecided. *)
Ltac open_validation H :=
  let d := fresh "d" in let Hd := fresh "Hd" in
  match type of H with
  | validates _ ?d' =>
    destruct H as [[-> H]|[-> H]];
    [left; solve [auto with sbird | split; [exact H|done]]
    |generalize dependent d'; intros d Hd]
  end.

Lemma cache_range_shape c inv r :
  let res := CacheTransactionStatusRangeFromInventory c inv r in
  refused_unchanged c res \/
  exists c0, c = Some c0 /\ accepted_open (snd res) /\ vd_all_committed (snd res) = true /\
    entries_of (fst res) =
      (ca_transaction_status_ranges c0 ++
         [mkRangeEntry (current_stamp (rq_facts r)) (rq_first_local_transaction_id r)
            (rq_last_local_transaction_id r) true],
       ca_page_visibility_entries c0, ca_relation_reader_entries c0) /\
    cache_generations (fst res) = cache_generations c /\
    (rq_first_local_transaction_id r : N) <= rq_last_local_transaction_id r /\
    range_committed inv (rq_first_local_transaction_id r)
      (N.to_nat (rq_last_local_transaction_id r - rq_first_local_transaction_id r)) = true.
Proof.
  intros res. subst res. unfold CacheTransactionStatusRangeFromInventory.
  pose proof (common_validates _ (rq_facts r) (start_undecided cp_txid_range_all_committed)) as H.
  open_validation H. destruct c as [c|]; [|by left].
  destruct (_ || _) eqn:Hr; [by left|]. bool_prop.
  pose proof (container_validates _ c (rq_facts r) Hd) as H'. open_validation H'.
  destruct (ReaderAndActiveHorizonsCover _ _); cbn [negb]; [|by left].
  destruct (range_committed _ _ _) eqn:Hc; cbn [negb]; [|by left].
  right. exists c. split_and!; try done; [|lia]. by destruct Hd0 as (_ & _ & ? & ?).
Qed.

Lemma evaluate_range_shape c r :
  let res := EvaluateCachedTransactionStatusRange c r in
  refused_unchanged c res \/
  exists c0 e, c = Some c0 /\ accepted_open (snd res) /\ vd_all_committed (snd res) = true /\
    entries_of (fst res) = entries_of c /\ cache_generations (fst res) = cache_generations c /\
    e ∈ ca_transaction_status_ranges c0 /\ range_covers r e = true /\
    stamp_current (re_stamp e) (rq_facts r) /\ re_all_committed e = true /\
    ReaderAndActiveHorizonsCover (rq_facts r) (rq_last_local_transaction_id r) = true.
Proof.
  intros res. subst res. unfold EvaluateCachedTransactionStatusRange.
  pose proof (common_validates _ (rq_facts r) (start_undecided cp_txid_range_all_committed)) as H.
  open_validation H. destruct c as [c|]; [|by left].
  destruct (_ || _) eqn:Hr; [by left|].
  pose proof (container_validates _ c (rq_facts r) Hd) as H'. open_validation H'.
  destruct (List.find _ _) as [e|] eqn:Hf; [|by left].
  apply find_some in Hf as [He Hcov]. rewrite <- list_elem_of_In in He.
  destruct (entry_validates _ (re_stamp e) (rq_facts r) Hd0) as [H'' Hs]. revert Hs.
  open_validation H''. intros Hs. specialize (Hs eq_refl).
  destruct (re_all_committed e) eqn:Ha; cbn [negb orb]; [|by left].
  destruct (ReaderAndActiveHorizonsCover _ _) eqn:Hh; cbn [negb orb]; [|by left].
  right. exists c, e. split_and!; try done. by destruct Hd1 as (_ & _ & ? & ?).
Qed.

Lemma cache_page_shape c r pf ac :
  let res := CachePageVisibilityStatus c r pf ac in
  refused_unchanged c res \/
  exists c0, c = Some c0 /\ accepted_open (snd res) /\ vd_all_visible (snd res) = true /\
    entries_of (fst res) =
      (ca_transaction_status_ranges c0,
       ca_page_visibility_entries c0 ++
         [mkPageEntry (current_stamp (pq_facts r)) (pq_relation_uuid r) (pq_page_number r)
            (pq_page_generation r) (pq_extent_id r) (pq_extent_epoch r) (vf_relation_epoch (pq_facts r))
            (vf_catalog_epoch (pq_facts r)) (pq_final_through_local_transaction_id r) true ac],
       ca_relation_reader_entries c0) /\
    cache_generations (fst res) = cache_generations c /\
    fd_accepted pf = true /\ fd_all_visible pf = true /\ finality_binds r (fd_bound_entry pf) = true.
Proof.
  intros res. subst res. unfold CachePageVisibilityStatus.
  pose proof (common_validates _ (pq_facts r) (start_undecided cp_page_all_visible)) as H.
  open_validation H. destruct c as [c|]; [|by left].
  destruct (_ || _) eqn:Hr; [by left|].
  pose proof (container_validates _ c (pq_facts r) Hd) as H'. open_validation H'.
  destruct (negb (fd_accepted pf) || _ || _ || _) eqn:Hpf; [by left|].
  destruct (finality_binds _ _) eqn:Hb; cbn [negb]; [|by left].
  destruct (ReaderAndActiveHorizonsCover _ _) eqn:Hh; cbn [negb]; [|by left].
  bool_prop. right. exists c. split_and!; try done. by destruct Hd0 as (_ & _ & ? & ?).
Qed.

Lemma evaluate_page_shape c r p :
  let res := EvaluateCachedPageVisibilityStatus c r p in
  refused_unchanged c res \/
  exists c0 e, c = Some c0 /\ accepted_open (snd res) /\
    vd_all_visible (snd res) = pe_all_visible e /\ vd_all_committed (snd res) = pe_all_committed e /\
    (p = cp_page_all_visible /\ pe_all_visible e = true \/
     p = cp_page_all_committed /\ pe_all_committed e = true) /\
    entries_of (fst res) = entries_of c /\ cache_generations (fst res) = cache_generations c /\
    e ∈ ca_page_visibility_entries c0 /\ page_matches r e = true /\
    stamp_current (pe_stamp e) (pq_facts r) /\
    pe_extent_epoch e = pq_extent_epoch r /\ pe_relation_epoch e = vf_relation_epoch (pq_facts r) /\
    pe_catalog_epoch e = vf_catalog_epoch (pq_facts r) /\
    ReaderAndActiveHorizonsCover (pq_facts r) (pe_final_through_local_transaction_id e) = true.
Proof.
  intros res. subst res. unfold EvaluateCachedPageVisibilityStatus.
  pose proof (common_validates _ (pq_facts r) (start_undecided p)) as H. open_validation H.
  destruct (negb (bool_decide _) && _) eqn:Hp; [by left|].
  destruct c as [c|]; [|by left]. destruct (IsEngineIdentityUuid _); cbn [negb]; [|by left].
  pose proof (container_validates _ c (pq_facts r) Hd) as H'. open_validation H'.
  destruct (List.find _ _) as [e|] eqn:Hf; [|by left].
  apply find_some in Hf as [He Hcov]. rewrite <- list_elem_of_In in He.
  destruct (entry_validates _ (pe_stamp e) (pq_facts r) Hd0) as [H'' Hs]. revert Hs.
  open_validation H''. intros Hs. specialize (Hs eq_refl).
  destruct (decide (_ \/ _)) as [|Hep]; [by left|].
  destruct (ReaderAndActiveHorizonsCover _ _) eqn:Hh; cbn [negb]; [|by left].
  destruct (bool_decide (p = cp_page_all_visible) && _) eqn:Hv; [by left|].
  destruct (bool_decide (p = cp_page_all_committed) && _) eqn:Hc; [by left|].
  right. exists c, e. bool_prop. split_and!; try done; try by apply dec_stable.
  - by destruct Hd1 as (_ & _ & ? & ?).
  - destruct p; simpl in *; bool_prop; first [by left|by right|done].
Qed.

Lemma cache_reader_shape c r :
  let res := CacheRelationNoOlderReaderStatus c r in
  refused_unchanged c res \/
  exists c0, c = Some c0 /\ accepted_open (snd res) /\ vd_no_older_reader (snd res) = true /\
    entries_of (fst res) =
      (ca_transaction_status_ranges c0, ca_page_visibility_entries c0,
       ca_relation_reader_entries c0 ++
         [mkReaderEntry (current_stamp (nq_facts r)) (nq_relation_uuid r) (vf_relation_epoch (nq_facts r))
            (vf_catalog_epoch (nq_facts r)) (nq_no_reader_older_than_local_transaction_id r)]) /\
    cache_generations (fst res) = cache_generations c /\
    (nq_no_reader_older_than_local_transaction_id r : N) <
      vf_oldest_snapshot_local_transaction_id (nq_facts r).
Proof.
  intros res. subst res. unfold CacheRelationNoOlderReaderStatus.
  pose proof (common_validates _ (nq_facts r) (start_undecided cp_relation_no_older_reader)) as H.
  open_validation H. destruct c as [c|]; [|by left].
  destruct (_ || _) eqn:Hr; [by left|].
  pose proof (container_validates _ c (nq_facts r) Hd) as H'. open_validation H'.
  destruct (decide (_ <= _)) as [|Hle]; [by left|].
  right. exists c. split_and!; try done; [|lia]. by destruct Hd0 as (_ & _ & ? & ?).
Qed.

Lemma evaluate_reader_shape c r :
  let res := EvaluateCachedRelationNoOlderReaderStatus c r in
  refused_unchanged c res \/
  exists c0 e, c = Some c0 /\ accepted_open (snd res) /\ vd_no_older_reader (snd res) = true /\
    entries_of (fst res) = entries_of c /\ cache_generations (fst res) = cache_generations c /\
    e ∈ ca_relation_reader_entries c0 /\ reader_matches r e = true /\
    stamp_current (ne_stamp e) (nq_facts r) /\
    ne_relation_epoch e = vf_relation_epoch (nq_facts r) /\
    ne_catalog_epoch e = vf_catalog_epoch (nq_facts r) /\
    (nq_no_reader_older_than_local_transaction_id r : N) <
      vf_oldest_snapshot_local_transaction_id (nq_facts r).
Proof.
  intros res. subst res. unfold EvaluateCachedRelationNoOlderReaderStatus.
  pose proof (common_validates _ (nq_facts r) (start_undecided cp_relation_no_older_reader)) as H.
  open_validation H. destruct c as [c|]; [|by left].
  destruct (_ || _) eqn:Hr; [by left|].
  pose proof (container_validates _ c (nq_facts r) Hd) as H'. open_validation H'.
  destruct (List.find _ _) as [e|] eqn:Hf; [|by left].
  apply find_some in Hf as [He Hcov]. rewrite <- list_elem_of_In in He.
  destruct (entry_validates _ (ne_stamp e) (nq_facts r) Hd0) as [H'' Hs]. revert Hs.
  open_validation H''. intros Hs. specialize (Hs eq_refl).
  destruct (decide (_ \/ _)) as [|Hep]; [by left|].
  destruct (decide (_ <= _)) as [|Hle]; [by left|].
  right. exists c, e. bool_prop. split_and!; try done; try (by apply dec_stable); [|lia].
  by destruct Hd1 as (_ & _ & ? & ?).
Qed.

(** ** Numbers known to be committed *)

(** The number has been allocated, and the entry holding it, if compaction has not
    dropped it, carries the committed outcome with its evidence. *)
Definition settled (inv : LocalTransactionInventory) (id : N) : Prop :=
  id < inv_next_local_transaction_id inv /\
  forall e, e ∈ inv_entries inv -> e_local_id e = id -> IsInventoryCommittedEvidence e = true.

Lemma settled_step inv op inv' id :
  structure_ok inv -> counters_u64 inv -> run_op inv op = Some inv' -> settled inv id -> settled inv' id.
Proof.
  intros Hs Hu Hop [Hlt Hset]. destruct (run_op_evolves _ _ _ Hs Hu Hop) as [Hev _].
  split; [pose proof (evo_local _ _ Hev); lia|]. intros e' He' Hid.
  destruct (decide (e_local_id e' ∈ e_local_id <$> inv_entries inv)) as [Hin|Hnin].
  2:{ pose proof (fr_local _ _ (evo_fresh _ _ Hev e' He' Hnin)). lia. }
  apply list_elem_of_fmap in Hin as (e & Hee & He). rewrite Hid in Hee.
  specialize (Hset e He (eq_sym Hee)). unfold IsInventoryCommittedEvidence in *. bool_prop.
  pose proof (evo_retained _ _ Hev e e' He He' ltac:(congruence)) as Hr.
  unfold HasCommittedInventoryOutcome in *. bool_prop.
  destruct (ev_final _ _ _ Hr) as (Hst & _ & Hcs); [by rewrite H|].
  rewrite <- Hst, <- Hcs, H, (ev_written _ _ _ Hr H0). by rewrite !bool_decide_eq_true_2.
Qed.

Lemma range_committed_settled inv first n id :
  structure_ok inv -> range_committed inv first n = true ->
  first <= id <= first + N.of_nat n -> settled inv id.
Proof.
  intros Hs. revert first. induction n as [|n IH]; intros first; simpl;
    (destruct (_ || _) eqn:Hl; [done|]; intros Hn Hid; bool_prop).
  all: destruct (lookup_ok _ _ H) as (Hin & Heq & _); unfold MakeLocalTransactionId in *.
  all: destruct (decide (id = first)) as [->|Hne]; [|try (apply (IH (first + 1)); [done|lia]); lia].
  all: split; [pose proof (eo_local _ _ (structure_entry _ _ Hs Hin)) as Hlt; by rewrite Heq in Hlt|].
  all: intros e He Hee; rewrite (structure_entry_unique _ _ _ Hs He Hin); [done|congruence].
Qed.

(** ** Correctness of the visibility status cache

    The cache and the inventory it answers for evolve together: an accepted answer
    agrees with the inventory however many operations lie between the two, every
    answer can be traced to the evidence it was cached from, and a refusal sends
    the caller to the authoritative path. *)

(** ** Interleaved executions *)

Inductive cache_event :=
| ce_inventory (op : inventory_op)
| ce_cache_range (r : TransactionStatusRangeCacheRequest)
| ce_probe_range (r : TransactionStatusRangeCacheRequest)
| ce_cache_page (r : PageVisibilityStatusCacheRequest) (f : PageFinalityEvidenceDecision) (all_committed : bool)
| ce_probe_page (r : PageVisibilityStatusCacheRequest) (p : VisibilityStatusCacheProbe)
| ce_cache_reader (r : RelationNoOlderReaderCacheRequest)
| ce_probe_reader (r : RelationNoOlderReaderCacheRequest)
| ce_invalidate (cache_generation invalidation_generation : N).

(** What a cache event returns; the owner of the cache invalidates it by writing
    its two generation fields, and inventory operations do not touch it. *)
Definition cache_outcome (inv : LocalTransactionInventory) (c : option MgaVisibilityStatusCache)
    (ev : cache_event) : option MgaVisibilityStatusCache * VisibilityStatusCacheDecision :=
  match ev with
  | ce_cache_range r => CacheTransactionStatusRangeFromInventory c inv r
  | ce_probe_range r => EvaluateCachedTransactionStatusRange c r
  | ce_cache_page r f a => CachePageVisibilityStatus c r f a
  | ce_probe_page r p => EvaluateCachedPageVisibilityStatus c r p
  | ce_cache_reader r => CacheRelationNoOlderReaderStatus c r
  | ce_probe_reader r => EvaluateCachedRelationNoOlderReaderStatus c r
  | ce_invalidate g i =>
    ((fun c => mkCache g i (ca_transaction_status_ranges c) (ca_page_visibility_entries c)
                 (ca_relation_reader_entries c) (ca_cache_counters c)) <$> c, StartDecision cp_unknown)
  | ce_inventory _ => (c, StartDecision cp_unknown)
  end.

Definition cache_world : Type := LocalTransactionInventory * option MgaVisibilityStatusCache.

Definition run_cache_event (w : cache_world) (ev : cache_event) : cache_world :=
  (match ev with ce_inventory op => default w.1 (run_op w.1 op) | _ => w.1 end,
   fst (cache_outcome w.1 w.2 ev)).

Definition run_cache (w : cache_world) (evs : list cache_event) : cache_world := foldl run_cache_event w evs.

(** ** The invariant *)

Definition range_entry_ok (inv : LocalTransactionInventory) (e : TransactionStatusRangeCacheEntry) : Prop :=
  forall id, (re_first_local_transaction_id e : N) <= id <= re_last_local_transaction_id e -> settled inv id.

(** The entry was stored by an accepted request of the history [evs]. *)
Definition page_entry_traced (evs : list cache_event) (e : PageVisibilityStatusCacheEntry) : Prop :=
  exists r f, ce_cache_page r f (pe_all_committed e) ∈ evs /\ pe_stamp e = current_stamp (pq_facts r) /\
    fd_accepted f = true /\ fd_all_visible f = true /\ finality_binds r (fd_bound_entry f) = true /\
    pe_relation_uuid e = pq_relation_uuid r /\ pe_page_number e = pq_page_number r /\
    pe_page_generation e = pq_page_generation r /\ pe_extent_id e = pq_extent_id r /\
    pe_extent_epoch e = pq_extent_epoch r /\ pe_relation_epoch e = vf_relation_epoch (pq_facts r) /\
    pe_catalog_epoch e = vf_catalog_epoch (pq_facts r) /\
    pe_final_through_local_transaction_id e = pq_final_through_local_transaction_id r.

Definition reader_entry_traced (evs : list cache_event) (e : RelationNoOlderReaderCacheEntry) : Prop :=
  exists r, ce_cache_reader r ∈ evs /\ ne_stamp e = current_stamp (nq_facts r) /\
    ne_relation_uuid e = nq_relation_uuid r /\ ne_relation_epoch e = vf_relation_epoch (nq_facts r) /\
    ne_catalog_epoch e = vf_catalog_epoch (nq_facts r) /\
    ne_no_reader_older_than_local_transaction_id e = nq_no_reader_older_than_local_transaction_id r /\
    (nq_no_reader_older_than_local_transaction_id r : N) <
      vf_oldest_snapshot_local_transaction_id (nq_facts r).

Record cache_invariant (evs : list cache_event) (w : cache_world) : Prop := {
  ci_structure : structure_ok w.1;
  ci_counters : counters_u64 w.1;
  ci_ranges : Forall (range_entry_ok w.1) (entries_of w.2).1.1;
  ci_pages : Forall (page_entry_traced evs) (entries_of w.2).1.2;
  ci_readers : Forall (reader_entry_traced evs) (entries_of w.2).2 }.

Lemma page_traced_more evs ev e : page_entry_traced evs e -> page_entry_traced (evs ++ [ev]) e.
Proof. intros (r & f & H & ?). exists r, f. split; [|done]. rewrite elem_of_app. by left. Qed.

Lemma reader_traced_more evs ev e : reader_entry_traced evs e -> reader_entry_traced (evs ++ [ev]) e.
Proof. intros (r & H & ?). exists r. split; [|done]. rewrite elem_of_app. by left. Qed.

Lemma invariant_same_entries evs ev w inv' c' :
  cache_invariant evs w -> structure_ok inv' -> counters_u64 inv' ->
  (forall id, settled w.1 id -> settled inv' id) -> entries_of c' = entries_of w.2 ->
  cache_invariant (evs ++ [ev]) (inv', c').
Proof.
  intros [_ _ Hr Hp Hn] Hs Hu Hset He. split; simpl; rewrite ?He; try done.
  - eapply Forall_impl; [exact Hr|]. intros e H id Hid. by apply Hset, H.
  - eapply Forall_impl; [exact Hp|]. intros. by apply page_traced_more.
  - eapply Forall_impl; [exact Hn|]. intros. by apply reader_traced_more.
Qed.

Lemma invariant_unchanged evs ev w :
  cache_invariant evs w -> entries_of (fst (cache_outcome w.1 w.2 ev)) = entries_of w.2 ->
  (forall op, ev <> ce_inventory op) -> cache_invariant (evs ++ [ev]) (run_cache_event w ev).
Proof.
  intros Hi He Hev. unfold run_cache_event.
  destruct ev; try (by destruct (Hev op)); apply (invariant_same_entries _ _ w); try done; apply Hi.
Qed.

(** What appending one traced entry of each kind does to the invariant. *)
Lemma invariant_push evs ev w c ranges pages readers :
  cache_invariant evs w -> Forall (range_entry_ok w.1) ranges ->
  Forall (page_entry_traced (evs ++ [ev])) pages -> Forall (reader_entry_traced (evs ++ [ev])) readers ->
  entries_of c = ((entries_of w.2).1.1 ++ ranges, (entries_of w.2).1.2 ++ pages, (entries_of w.2).2 ++ readers) ->
  cache_invariant (evs ++ [ev]) (w.1, c).
Proof.
  intros [Hs Hu Hr Hp Hn] Hr' Hp' Hn' He. split; simpl; rewrite ?He; simpl; try done.
  - by apply Forall_app.
  - apply Forall_app. split; [|done]. eapply Forall_impl; [exact Hp|]. intros. by apply page_traced_more.
  - apply Forall_app. split; [|done]. eapply Forall_impl; [exact Hn|]. intros. by apply reader_traced_more.
Qed.

Lemma event_preserves evs ev w :
  cache_invariant evs w -> cache_invariant (evs ++ [ev]) (run_cache_event w ev).
Proof.
  intros Hi. assert (ev ∈ evs ++ [ev]) as Hin by (rewrite elem_of_app; right; by apply list_elem_of_singleton).
  destruct ev.
  - unfold run_cache_event. destruct (run_op w.1 op) as [inv'|] eqn:Hop; simpl.
    + destruct (run_op_evolves _ _ _ (ci_structure _ _ Hi) (ci_counters _ _ Hi) Hop) as [Hev Hu].
      apply (invariant_same_entries _ _ w); try done; [apply Hev|].
      intros id. by apply (settled_step _ op); [apply Hi..|].
    + apply (invariant_same_entries _ _ w); try done; apply Hi.
  - destruct (cache_range_shape w.2 w.1 r) as [(_ & He & _)|(c0 & Hc & _ & _ & He & _ & Hle & Hrc)].
    { by apply invariant_unchanged. }
    unfold run_cache_event. eapply (invariant_push _ _ _ _ [_] [] [] Hi); swap 1 4.
    { simpl. rewrite He, Hc. simpl. by rewrite ?app_nil_r. }
    all: rewrite ?Forall_singleton; try by constructor.
    intros id Hid. eapply range_committed_settled; [apply Hi|exact Hrc|]. simpl in Hid. lia.
  - apply invariant_unchanged; [done| |done].
    by destruct (evaluate_range_shape w.2 r) as [(_ & He & _)|(? & ? & _ & _ & _ & He & _)].
  - destruct (cache_page_shape w.2 r f all_committed) as [(_ & He & _)|(c0 & Hc & _ & _ & He & _ & Hpf)].
    { by apply invariant_unchanged. }
    unfold run_cache_event. eapply (invariant_push _ _ _ _ [] [_] [] Hi); swap 1 4.
    { simpl. rewrite He, Hc. simpl. by rewrite ?app_nil_r. }
    all: rewrite ?Forall_singleton; try by constructor.
    exists r, f. split; [done|]. simpl. split_and!; try done; apply Hpf.
  - apply invariant_unchanged; [done| |done].
    by destruct (evaluate_page_shape w.2 r p) as [(_ & He & _)|(? & ? & _ & _ & _ & _ & _ & He & _)].
  - destruct (cache_reader_shape w.2 r) as [(_ & He & _)|(c0 & Hc & _ & _ & He & _ & Hlt)].
    { by apply invariant_unchanged. }
    unfold run_cache_event. eapply (invariant_push _ _ _ _ [] [] [_] Hi); swap 1 4.
    { simpl. rewrite He, Hc. simpl. by rewrite ?app_nil_r. }
    all: rewrite ?Forall_singleton; try by constructor.
    by exists r.
  - apply invariant_unchanged; [done| |done].
    by destruct (evaluate_reader_shape w.2 r) as [(_ & He & _)|(? & ? & _ & _ & _ & He & _)].
  - apply invariant_unchanged; [done| |done]. by destruct (w.2).
Qed.

Lemma run_preserves evs inv g i :
  structure_ok inv -> counters_u64 inv ->
  cache_invariant evs (run_cache (inv, Some (MakeMgaVisibilityStatusCache g i)) evs).
Proof.
  intros Hs Hu. induction evs as [|ev evs IH] using rev_ind.
  - by split; try done; constructor.
  - unfold run_cache in *. rewrite foldl_app. by apply event_preserves.
Qed.

(** ** The properties *)

(** C8: the cache refines the inventory.  After any interleaving of inventory
    operations, cache operations and invalidations, when a probe answers that a
    range of transactions is committed, every number of the range has been
    allocated, and looking it up in the inventory, now or after any further
    operations, either fails because the entry was compacted away or finds a
    committed outcome with its evidence. *)
Theorem cached_range_refines_inventory inv g i evs r :
  ValidateLocalTransactionInventoryStructure inv = ""%string -> counters_u64 inv ->
  let w := run_cache (inv, Some (MakeMgaVisibilityStatusCache g i)) evs in
  vd_accepted (snd (EvaluateCachedTransactionStatusRange w.2 r)) = true ->
  forall id inv', (rq_first_local_transaction_id r : N) <= id <= rq_last_local_transaction_id r ->
  rtc inventory_step w.1 inv' ->
  id < inv_next_local_transaction_id inv' /\
  (lr_ok (LookupLocalTransaction inv' id) = true ->
   IsInventoryCommittedEvidence (lr_entry (LookupLocalTransaction inv' id)) = true).
Proof.
  rewrite validate_structure_iff. intros Hs Hu w Ha id inv' Hid Hsteps. pose proof (run_preserves evs inv g i Hs Hu) as Hi. fold w in Hi.
  assert (settled w.1 id) as Hset.
  { destruct (evaluate_range_shape w.2 r) as [((Hf & _) & _)|(c0 & e & Hc & _ & _ & _ & _ & He & Hcov & _)];
      [by rewrite Hf in Ha|].
    pose proof (ci_ranges _ _ Hi) as Hr. rewrite Hc in Hr. rewrite Forall_forall in Hr.
    apply (Hr e He). unfold range_covers in Hcov. bool_prop. lia. }
  assert (structure_ok inv' /\ settled inv' id) as [Hs' [Hlt Hall]].
  { pose proof (ci_structure _ _ Hi) as S. pose proof (ci_counters _ _ Hi) as U. revert Hset S U.
    induction Hsteps as [|x y z (op & Hop) _ IH]; [done|]. intros Hset S U.
    destruct (run_op_evolves _ _ _ S U Hop) as [Hev U'].
    apply IH; [by eapply settled_step|apply Hev|done]. }
  split; [done|]. intros Hl. destruct (lookup_ok _ _ Hl) as (Hin & Heq & _). by apply Hall.
Qed.

(** Every accepted page or relation answer goes back to evidence.  It was
    cached by an earlier event whose request had the same relation, page, epochs
    and generations; for a page that event carried an accepted finality decision
    bound to exactly this page, and the reader sees all it is final through; for a
    relation the cached boundary and the current snapshot horizon both cover the
    requested one. *)
Theorem cached_answers_traceable inv g i evs :
  ValidateLocalTransactionInventoryStructure inv = ""%string -> counters_u64 inv ->
  let w := run_cache (inv, Some (MakeMgaVisibilityStatusCache g i)) evs in
  (forall r p, vd_accepted (snd (EvaluateCachedPageVisibilityStatus w.2 r p)) = true ->
   exists r' f all_committed b, ce_cache_page r' f all_committed ∈ evs /\
     fd_accepted f = true /\ fd_all_visible f = true /\ fd_bound_entry f = Some b /\
     (p = cp_page_all_visible \/ p = cp_page_all_committed /\ all_committed = true) /\
     me_scope b = ps_page /\ me_relation_uuid b = pq_relation_uuid r /\
     me_page_number b = pq_page_number r /\ me_page_generation b = pq_page_generation r /\
     me_extent_id b = pq_extent_id r /\ me_extent_epoch b = pq_extent_epoch r /\
     me_relation_epoch b = vf_relation_epoch (pq_facts r) /\
     me_catalog_epoch b = vf_catalog_epoch (pq_facts r) /\
     current_stamp (pq_facts r') = current_stamp (pq_facts r) /\
     ReaderAndActiveHorizonsCover (pq_facts r) (me_final_through_local_transaction_id b) = true) /\
  (forall r, vd_accepted (snd (EvaluateCachedRelationNoOlderReaderStatus w.2 r)) = true ->
   exists r', ce_cache_reader r' ∈ evs /\ nq_relation_uuid r' = nq_relation_uuid r /\
     current_stamp (nq_facts r') = current_stamp (nq_facts r) /\
     (nq_no_reader_older_than_local_transaction_id r : N) <=
       nq_no_reader_older_than_local_transaction_id r' /\
     (nq_no_reader_older_than_local_transaction_id r' : N) <
       vf_oldest_snapshot_local_transaction_id (nq_facts r') /\
     (nq_no_reader_older_than_local_transaction_id r : N) <
       vf_oldest_snapshot_local_transaction_id (nq_facts r)).
Proof.
  rewrite validate_structure_iff. intros Hs Hu w. pose proof (run_preserves evs inv g i Hs Hu) as Hi. fold w in Hi. split.
  - intros r p Ha. destruct (evaluate_page_shape w.2 r p)
      as [((Hf & _) & _)|(c0 & e & Hc & _ & _ & _ & Hp & _ & _ & He & Hm & Hst & H1 & H2 & H3 & Hh)];
      [by rewrite Hf in Ha|].
    pose proof (ci_pages _ _ Hi) as Hr. rewrite Hc in Hr. rewrite Forall_forall in Hr.
    destruct (Hr e He) as (r' & f & Hin & Hst' & Hfa & Hfv & Hb & E1 & E2 & E3 & E4 & E5 & E6 & E7 & E8).
    unfold finality_binds in Hb. destruct (fd_bound_entry f) as [b|] eqn:Hbe; [|done].
    exists r', f, (pe_all_committed e), b. unfold page_matches in Hm. bool_prop.
    split_and!; try done; try congruence.
    + destruct Hp as [[-> _]|[-> ->]]; [by left|by right].
    + rewrite Hst' in Hst. destruct Hst as (_ & _ & ? & ? & ? & ?). unfold current_stamp in *. simpl in *. congruence.
  - intros r Ha. destruct (evaluate_reader_shape w.2 r)
      as [((Hf & _) & _)|(c0 & e & Hc & _ & _ & _ & _ & He & Hm & Hst & _ & _ & Hlt)]; [by rewrite Hf in Ha|].
    pose proof (ci_readers _ _ Hi) as Hr. rewrite Hc in Hr. rewrite Forall_forall in Hr.
    destruct (Hr e He) as (r' & Hin & Hst' & E1 & _ & _ & E4 & Hlt').
    exists r'. unfold reader_matches in Hm. bool_prop. split_and!; try done; try congruence.
    rewrite Hst' in Hst. destruct Hst as (_ & _ & ? & ? & ? & ?). unfold current_stamp in *. simpl in *. congruence.
Qed.

(** The two shapes of an outcome. *)
Definition fail_closed_outcome (c : option MgaVisibilityStatusCache)
    (res : option MgaVisibilityStatusCache * VisibilityStatusCacheDecision) : Prop :=
  let d := snd res in
  let c' := fst res in
  (vd_accepted d = false /\ vd_all_committed d = false /\ vd_all_visible d = false /\
   vd_no_older_reader d = false /\ vd_authoritative_path_required d = true /\
   entries_of c' = entries_of c /\ cache_generations c' = cache_generations c) \/
  (vd_accepted d = true /\ is_Some c /\ vd_authoritative_path_required d = false /\
   vd_refusal_reason d = "none"%string /\ vd_cache_is_transaction_finality_authority d = false /\
   vd_durable_mga_inventory_remains_authority d = true /\ cache_generations c' = cache_generations c /\
   (vd_all_committed d || vd_all_visible d || vd_no_older_reader d) = true).

Lemma refused_case c res : refused_unchanged c res -> fail_closed_outcome c res.
Proof. intros ((?&?&?&?&?)&?&?). by left. Qed.

Lemma accepted_case c res :
  accepted_open (snd res) -> is_Some c -> cache_generations (fst res) = cache_generations c ->
  (vd_all_committed (snd res) || vd_all_visible (snd res) || vd_no_older_reader (snd res)) = true ->
  fail_closed_outcome c res.
Proof. intros (?&?&?&?&?) ???. by right. Qed.

(** Every operation of the cache either refuses or accepts, never in between.
    A refusal carries no answer, sends the caller to the authoritative path and
    leaves entries and generations as they were, a null cache included; an
    acceptance needs a cache and never claims to be the finality authority. *)
Theorem cache_refusals_fail_closed inv c ev :
  (forall op, ev <> ce_inventory op) -> (forall g i, ev <> ce_invalidate g i) ->
  fail_closed_outcome c (cache_outcome inv c ev).
Proof.
  intros H1 H2. destruct ev; cbv beta iota zeta delta [cache_outcome].
  - by destruct (H1 op).
  - destruct (cache_range_shape c inv r) as [H|(c0 & Hc & Ha & Hb & _ & Hg & _)]; [by apply refused_case|].
    apply accepted_case; [done| |done|by rewrite Hb]. by eexists.
  - destruct (evaluate_range_shape c r) as [H|(c0 & e & Hc & Ha & Hb & _ & Hg & _)]; [by apply refused_case|].
    apply accepted_case; [done| |done|by rewrite Hb]. by eexists.
  - destruct (cache_page_shape c r f all_committed) as [H|(c0 & Hc & Ha & Hb & _ & Hg & _)];
      [by apply refused_case|].
    apply accepted_case; [done| |done|by rewrite Hb, orb_true_r]. by eexists.
  - destruct (evaluate_page_shape c r p) as [H|(c0 & e & Hc & Ha & Hb & Hb' & Hp & _ & Hg & _)];
      [by apply refused_case|].
    apply accepted_case; [done| |done|]; [by eexists|].
    rewrite Hb, Hb'. destruct Hp as [[_ ->]|[_ ->]]; by rewrite ?orb_true_r.
  - destruct (cache_reader_shape c r) as [H|(c0 & Hc & Ha & Hb & _ & Hg & _)]; [by apply refused_case|].
    apply accepted_case; [done| |done|by rewrite Hb, orb_true_r]. by eexists.
  - destruct (evaluate_reader_shape c r) as [H|(c0 & e & Hc & Ha & Hb & _ & Hg & _)]; [by apply refused_case|].
    apply accepted_case; [done| |done|by rewrite Hb, orb_true_r]. by eexists.
  - by destruct (H2 cache_generation invalidation_generation).
Qed.

(** ** Concrete runs *)

Definition sample_facts (epoch : N) : VisibilityStatusCacheFacts :=
  mkCacheFacts 1 1 epoch 1 1 1 1 2 2 true true true.

Definition sample_range (epoch : N) : TransactionStatusRangeCacheRequest := mkRangeRequest 1 1 (sample_facts epoch).

Definition sample_map_entry : PageFinalityMapEntry :=
  mkMapEntry ps_page ms_current pp_engine_mga_transaction_inventory (sample_uuid 50) 7 3 4 5 1 1 1 9
    true true true true.

Definition sample_page_facts : PageFinalityObservedFacts :=
  mkObservedFacts ps_page (sample_uuid 50) 7 3 4 5 1 1 1 2 true true true.

Definition sample_page_request : PageVisibilityStatusCacheRequest :=
  mkPageRequest (sample_uuid 50) 7 3 4 5 1 (sample_facts 1).

Definition sample_reader_request (older : N) : RelationNoOlderReaderCacheRequest :=
  mkReaderRequest (sample_uuid 50) older (sample_facts 1).

Definition sample_cache_events : list cache_event :=
  [ce_cache_range (sample_range 1);
   ce_cache_page sample_page_request
     (EvaluatePageFinalityEvidence sample_map_entry sample_page_facts pc_index_only_scan) true;
   ce_cache_reader (sample_reader_request 1);
   ce_inventory (op_commit 2 30); ce_inventory (op_archive 1)].

Definition sample_cache_world : cache_world :=
  run_cache (sample_inventory, Some (MakeMgaVisibilityStatusCache 1 1)) sample_cache_events.

Lemma cached_range_refines_inventory_witness :
  vd_accepted (snd (EvaluateCachedTransactionStatusRange sample_cache_world.2 (sample_range 1))) = true /\
  lr_ok (LookupLocalTransaction sample_cache_world.1 1) = true /\
  IsInventoryCommittedEvidence (lr_entry (LookupLocalTransaction sample_cache_world.1 1)) = true.
Proof.
  assert (Ha : vd_accepted (snd (EvaluateCachedTransactionStatusRange sample_cache_world.2 (sample_range 1))) = true)
    by (vm_compute; reflexivity).
  assert (Hl : lr_ok (LookupLocalTransaction sample_cache_world.1 1) = true) by (vm_compute; reflexivity).
  split; [exact Ha|]. split; [exact Hl|].
  refine (proj2 (cached_range_refines_inventory sample_inventory 1 1 sample_cache_events (sample_range 1)
    _ _ Ha 1 sample_cache_world.1 _ _) Hl).
  - vm_compute. reflexivity.
  - split; vm_compute; reflexivity.
  - simpl. lia.
  - apply rtc_refl.
Defined.

Lemma cached_answers_traceable_witness :
  vd_accepted (snd (EvaluateCachedPageVisibilityStatus sample_cache_world.2 sample_page_request
    cp_page_all_committed)) = true /\
  exists r', ce_cache_reader r' ∈ sample_cache_events /\
    nq_relation_uuid r' = nq_relation_uuid (sample_reader_request 1).
Proof.
  split; [vm_compute; reflexivity|].
  destruct (cached_answers_traceable sample_inventory 1 1 sample_cache_events) as [_ H].
  - vm_compute. reflexivity.
  - split; vm_compute; reflexivity.
  - destruct (H (sample_reader_request 1)) as (r' & Hin & Hu & _); [vm_compute; reflexivity|].
    by exists r'.
Defined.

Lemma cache_refusals_fail_closed_witness :
  fail_closed_outcome None (cache_outcome sample_inventory None (ce_probe_range (sample_range 1))).
Proof. apply cache_refusals_fail_closed; discriminate. Defined.

(** Entries are appended and an evaluation stops at the first one that covers the
    request, so an entry of an earlier epoch hides a later one that is current. *)
Lemma stale_range_shadows_current :
  let w := run_cache (sample_inventory, Some (MakeMgaVisibilityStatusCache 1 1))
             [ce_cache_range (sample_range 1); ce_cache_range (sample_range 2)] in
  vd_accepted (snd (cache_outcome w.1 w.2 (ce_cache_range (sample_range 2)))) = true /\
  vd_refusal_reason (snd (EvaluateCachedTransactionStatusRange w.2 (sample_range 2))) =
    "visibility_status_cache_epoch_mismatch"%string.
Proof. vm_compute. done. Qed.

(** A probe does not check that its range is ordered: an inverted one is answered
    from an entry that starts at or before its first and ends at or after its last number. *)
Lemma inverted_range_accepted :
  vd_accepted (snd (EvaluateCachedTransactionStatusRange sample_cache_world.2
    (mkRangeRequest 100 1 (sample_facts 1)))) = true.
Proof. vm_compute. done. Qed.
