(* ===== verification/InventoryPageClaims.v ===== *)
(** * Correctness of the inventory page codec

    Building and parsing are inverse, neither leaves its buffer, and an accepted
    page is authentic and well formed. *)

From S2P Require Import Prelude Platform TransactionState Inventory Horizon InventorySteps Samples Bytes.
From S2P Require Import InventoryPage InventoryPageFacts.

Section pages.
Context (sha256 : hash_provider) (Hsha : digest_size sha256).

(** The body a page is built from: horizons filled in, chain digest computed. *)
Definition prepared (body : TransactionInventoryPageBody) : TransactionInventoryPageBody :=
  let b := set_horizons (if h_valid (tb_horizons body) then tb_horizons body
                         else hres_horizons (ComputeLocalTransactionHorizons (tb_inventory body))) body in
  set_chain_digest (ComputeTransactionInventoryPageChainDigest sha256 b) b.

(** Zero bytes after the last entry. *)
Definition padding (body : TransactionInventoryPageBody) (page_size : N) : nat :=
  N.to_nat (page_size - 128 - 152 - 72 * N.of_nat (length (inv_entries (tb_inventory body)))).

(** When a page can be built. *)
Record buildable (body : TransactionInventoryPageBody) (page_size : N) : Prop := {
  bu_structure : structure_ok (tb_inventory body);
  bu_size : 280 < page_size;
  bu_capacity : 280 + 72 * N.of_nat (length (inv_entries (tb_inventory body))) <= page_size;
  bu_generation : tb_inventory_generation body <> 0;
  bu_chain : TransactionInventoryPageDigestPresent (tb_chain_digest (prepared body)) = true;
  bu_checksum : hd_ok (page_checksum sha256 (prepared body) (padding body page_size)) = true }.

Lemma chain_digest_unchanged b :
  ComputeTransactionInventoryPageChainDigest sha256
    (set_chain_digest (ComputeTransactionInventoryPageChainDigest sha256 b) b) =
  ComputeTransactionInventoryPageChainDigest sha256 b.
Proof. done. Qed.

Lemma capacity_div page_size count :
  280 < page_size -> count <= (page_size - 128 - 152) / 72 <-> 280 + 72 * count <= page_size.
Proof.
  intros H. split; intros Hc.
  - pose proof (N.Div0.mul_div_le (page_size - 128 - 152) 72). lia.
  - apply N.div_le_lower_bound; lia.
Qed.

Lemma prepared_length body : length (tb_chain_digest (prepared body)) = 32%nat.
Proof. by apply sha_or_empty_length. Qed.

Lemma page_failure_ok r : tpr_ok (page_failure (hd_status r) (hd_diagnostic r)) = hd_ok r.
Proof. done. Qed.

Lemma build_shape body page_size :
  is_u32 page_size -> Forall uuid_sized (inv_entries (tb_inventory body)) ->
  exists r, BuildTransactionInventoryPageBody sha256 body page_size = Some r /\
    (tpr_ok r = true <-> buildable body page_size) /\
    (tpr_ok r = true -> r = mkPageBodyResult TxnPageOkStatus (prepared body)
       (page_bytes sha256 (prepared body) (padding body page_size)) DiagnosticRecord_default).
Proof.
  intros Hps Hu. unfold is_u32 in Hps. unfold BuildTransactionInventoryPageBody. cbv zeta.
  case_decide as Hv.
  { eexists. split; [done|]. split; [|done]. split; [done|]. intros [Hs]. by apply validate_structure_iff in Hs. }
  apply validate_structure_iff in Hv.
  unfold kPageHeaderSerializedBytes, kTransactionInventoryPageBodyHeaderBytes, MaxTransactionInventoryEntriesPerPage,
    kPageHeaderSerializedBytes, kTransactionInventoryPageBodyHeaderBytes, kEntryBytes.
  case_decide as Hsz.
  { eexists. split; [done|]. split; [|done]. split; [done|]. intros []. lia. }
  case_decide as Hcap.
  { eexists. split; [done|]. split; [|done]. split; [done|]. intros [_ ? Hc].
    apply capacity_div in Hc; lia. }
  assert (280 + 72 * N.of_nat (length (inv_entries (tb_inventory body))) <= page_size) as Hc.
  { apply capacity_div; lia. }
  rewrite decide_False.
  2:{ unfold u32_cast. rewrite (N.mod_small (_ * 72)) by lia. rewrite N.mod_small by lia. lia. }
  case_decide as Hg.
  { eexists. split; [done|]. split; [|done]. split; [done|]. by intros []. }
  rewrite (compute_horizons_no_snapshots _ Hv). cbn [negb].
  change (set_chain_digest _ _) with (prepared body).
  destruct (TransactionInventoryPageDigestPresent (tb_chain_digest (prepared body))) eqn:Hp; cbn [negb].
  2:{ eexists. split; [done|]. split; [|done]. split; [done|]. intros []. congruence. }
  replace (N.to_nat (page_size - 128))
    with (152 + (72 * length (inv_entries (tb_inventory (prepared body))) + padding body page_size))%nat.
  2:{ unfold padding. change (tb_inventory (prepared body)) with (tb_inventory body). lia. }
  rewrite store_body_image; [|done|apply prepared_length|done|by apply structure_valid_identities].
  eexists. split; [reflexivity|].
  destruct (hd_ok (page_checksum sha256 (prepared body) (padding body page_size))) eqn:Hk.
  - split; [|done]. split; [|done]. intros _. split; try done. lia.
  - rewrite page_failure_ok, Hk. split; [|done]. split; [done|].
    intros H. by rewrite (bu_checksum _ _ H) in Hk.
Qed.

(** The machine ranges of a body handed to the builder. *)
Record body_ranges (body : TransactionInventoryPageBody) : Prop := {
  br_next : is_u64 (tb_next_page_number body);
  br_previous : is_u64 (tb_previous_page_number body);
  br_generation : is_u64 (tb_inventory_generation body);
  br_next_local : is_u64 (inv_next_local_transaction_id (tb_inventory body));
  br_next_commit : is_u64 (inv_next_commit_sequence (tb_inventory body));
  br_entries : Forall entry_u64 (inv_entries (tb_inventory body));
  br_horizons : h_valid (tb_horizons body) = true ->
    is_u64 (h_oldest_interesting_transaction (tb_horizons body)) /\
    is_u64 (h_oldest_active_transaction (tb_horizons body)) /\
    is_u64 (h_oldest_snapshot_transaction (tb_horizons body)) }.

(** Horizons the caller supplies name the inventory's own next number. *)
Definition next_agrees (body : TransactionInventoryPageBody) : Prop :=
  h_valid (tb_horizons body) = true ->
  h_next_transaction_id (tb_horizons body) = inv_next_local_transaction_id (tb_inventory body).

(** A page does not carry the publication base of its inventory. *)
Definition without_base (inv : LocalTransactionInventory) : LocalTransactionInventory :=
  mkInventory (inv_next_local_transaction_id inv) (inv_next_commit_sequence inv) (inv_entries inv) None.
Definition body_without_base (b : TransactionInventoryPageBody) : TransactionInventoryPageBody :=
  mkPageBody (tb_page_number b) (tb_previous_page_number b) (tb_next_page_number b) (tb_inventory_generation b)
    (tb_chain_digest b) (without_base (tb_inventory b)) (tb_horizons b).

Lemma ranges_sized body : body_ranges body -> Forall uuid_sized (inv_entries (tb_inventory body)).
Proof. intros H. eapply Forall_impl; [apply (br_entries _ H)|]. by intros e []. Qed.

Lemma prepared_storable body :
  body_ranges body -> structure_ok (tb_inventory body) -> next_agrees body -> body_storable (body_without_base (prepared body)).
Proof.
  intros [] Hs Ha. pose proof (compute_horizons_no_snapshots _ Hs) as Hok.
  unfold ComputeLocalTransactionHorizons in Hok.
  destruct (compute_horizons_ok _ _ Hok) as [_ Hp].
  destruct (projection_bounds _ _ _ Hp) as (Hn & Hv & H1 & H2 & H3 & _).
  unfold prepared. fold (ComputeLocalTransactionHorizons (tb_inventory body)) in *.
  destruct (h_valid (tb_horizons body)) eqn:Hval.
  - destruct (br_horizons0 eq_refl) as (?&?&?). pose proof (Ha Hval). by split.
  - split; try done; eapply N.le_lt_trans; eauto.
Qed.

Lemma structure_without_base inv : structure_ok inv -> structure_ok (without_base inv).
Proof.
  intros [H1 H2 H3 H4 H5 H6]. split; try done. eapply Forall_impl; [exact H3|]. intros e []. by split.
Qed.

(** C7: a page that was built reads back, exactly when its horizons fit the inventory.
    Let the builder accept a body whose fields have their machine widths.  Parsing the
    page it produced, under the same page number, accepts and returns the builder's
    result, with the same inventory, links, generation, horizons and digests, the
    publication base left out, which no page carries, if and only if the horizons the
    caller supplied, when it supplied any, name the inventory's own next number, which
    the builder does not check.  In every case the result has the fields of the body. *)
Theorem page_round_trip body page_size r :
  is_u32 page_size -> body_ranges body ->
  BuildTransactionInventoryPageBody sha256 body page_size = Some r -> tpr_ok r = true ->
  (ParseTransactionInventoryPageBody sha256 (tpr_serialized r) (tb_page_number body) =
     Some (mkPageBodyResult (tpr_status r) (body_without_base (tpr_body r)) (tpr_serialized r) (tpr_diagnostic r)) <->
   next_agrees body) /\
  tb_inventory (tpr_body r) = tb_inventory body /\
  tb_next_page_number (tpr_body r) = tb_next_page_number body /\
  tb_previous_page_number (tpr_body r) = tb_previous_page_number body /\
  tb_inventory_generation (tpr_body r) = tb_inventory_generation body /\
  (h_valid (tb_horizons body) = true -> tb_horizons (tpr_body r) = tb_horizons body).
Proof.
  intros Hps Hr Hbuild Hok.
  destruct (build_shape body page_size Hps (ranges_sized _ Hr)) as (r' & Heq & Hiff & Hval).
  rewrite Hbuild in Heq. injection Heq as <-. destruct (proj1 Hiff Hok). rewrite (Hval Hok).
  cbn [tpr_serialized tpr_body tpr_status tpr_diagnostic]. split; [split|].
  - intros Hparse Hv. destruct (parse_accepted sha256 _ _ _ Hsha Hparse eq_refl) as ([_ Hn _ _ _ _ _] & _).
    cbn [tpr_body] in Hn. unfold prepared in Hn. rewrite Hv in Hn. exact Hn.
  - intros Ha. change (page_bytes sha256 (prepared body)) with (page_bytes sha256 (body_without_base (prepared body))).
    change (tb_page_number body) with (tb_page_number (body_without_base (prepared body))).
    refine (parse_page_bytes sha256 (body_without_base (prepared body)) _ Hsha _ (structure_without_base _ bu_structure0) bu_generation0
      (prepared_length body) (eq_sym (chain_digest_unchanged _)) bu_chain0 bu_checksum0 _).
    + by apply prepared_storable.
    + change (inv_entries (tb_inventory (body_without_base (prepared body)))) with (inv_entries (tb_inventory body)). unfold is_u32 in Hps. lia.
  - split_and!; try done. unfold prepared. by intros ->.
Qed.

(** C30: the codec stays inside its buffers.  On every byte string and page number
    the parser returns a result without reading outside the string; on every body
    with sixteen-byte identities and every 32-bit page size the builder returns
    without writing outside the page, and an accepted page has the size of the
    page body and holds all its entries. *)
Theorem page_codec_in_bounds :
  (forall serialized page_number,
     exists r, ParseTransactionInventoryPageBody sha256 serialized page_number = Some r) /\
  (forall body page_size, is_u32 page_size -> Forall uuid_sized (inv_entries (tb_inventory body)) ->
     exists r, BuildTransactionInventoryPageBody sha256 body page_size = Some r /\
       (tpr_ok r = true ->
        let count := N.of_nat (length (inv_entries (tb_inventory body))) in
        N.of_nat (length (tpr_serialized r)) = page_size - kPageHeaderSerializedBytes /\
        count <= MaxTransactionInventoryEntriesPerPage page_size /\
        kTransactionInventoryPageBodyHeaderBytes + count * kEntryBytes <= N.of_nat (length (tpr_serialized r)))).
Proof.
  split; [intros l n; apply parse_in_bounds|]. intros body page_size Hps Hu.
  destruct (build_shape body page_size Hps Hu) as (r & Hr & Hiff & Hval).
  exists r. split; [done|]. intros Hok. destruct (proj1 Hiff Hok). rewrite (Hval Hok). cbn [tpr_serialized].
  assert (length (page_bytes sha256 (prepared body) (padding body page_size)) =
          N.to_nat (page_size - 128)) as ->.
  { unfold page_bytes. rewrite length_page_image;
      [|apply length_le_bytes|by apply compute_digest_length|apply prepared_length].
    unfold body_rest. rewrite length_app, length_replicate, length_entries_image by done.
    change (tb_inventory (prepared body)) with (tb_inventory body). unfold padding. lia. }
  unfold MaxTransactionInventoryEntriesPerPage, kPageHeaderSerializedBytes,
    kTransactionInventoryPageBodyHeaderBytes, kEntryBytes.
  cbv zeta. rewrite decide_False by lia. split_and!; [lia| |lia]. apply capacity_div; lia.
Qed.

Lemma canonical_page_number b b' :
  is_u64 (tb_page_number b) -> is_u64 (tb_page_number b') ->
  chain_canonical b = chain_canonical b' -> tb_page_number b = tb_page_number b'.
Proof.
  intros H1 H2 H. unfold chain_canonical in H. do 2 apply app_inv_head in H.
  apply app_inj_1 in H as [H _]; [|by rewrite !length_le_bytes].
  rewrite <- (u64_bytes _ H1), <- (u64_bytes _ H2). by f_equal.
Qed.

(** C29: an accepted page is authentic and well formed.  Its stored checksum is the
    provider's digest of the page with the checksum field zeroed, its chain digest
    is the digest of the returned body under the requested page number, its
    inventory passes the structural validator and its generation is not zero; and
    the same bytes are accepted under two different page numbers only if the
    provider collides on two different inputs. *)
Theorem accepted_page_authentic serialized page_number r :
  is_u64 page_number ->
  ParseTransactionInventoryPageBody sha256 serialized page_number = Some r -> tpr_ok r = true ->
  sha256 (ChecksumDigestInput serialized) = Some (slice 64 32 serialized) /\
  tb_chain_digest (tpr_body r) = slice 112 32 serialized /\
  ComputeTransactionInventoryPageChainDigest sha256 (tpr_body r) = tb_chain_digest (tpr_body r) /\
  ValidateLocalTransactionInventoryStructure (tb_inventory (tpr_body r)) = ""%string /\
  tb_inventory_generation (tpr_body r) <> 0 /\ tb_page_number (tpr_body r) = page_number /\
  tpr_serialized r = serialized /\
  (forall other r', is_u64 other -> other <> page_number ->
     ParseTransactionInventoryPageBody sha256 serialized other = Some r' -> tpr_ok r' = true ->
     chain_canonical (tpr_body r) <> chain_canonical (tpr_body r') /\
     Sha256OrEmpty sha256 (chain_canonical (tpr_body r)) = Sha256OrEmpty sha256 (chain_canonical (tpr_body r'))).
Proof.
  intros Hn H Hok.
  assert (forall n r, ParseTransactionInventoryPageBody sha256 serialized n = Some r -> tpr_ok r = true ->
    ComputeTransactionInventoryPageChainDigest sha256 (tpr_body r) = slice 112 32 serialized) as Hchain.
  { intros n' r'' H' Hok'. destruct (parse_accepted _ _ _ _ Hsha H' Hok') as (Ha & _ & Hl & _).
    apply (digest_equal_iff _ _); [|apply Ha]. rewrite length_slice by lia. by apply sha_or_empty_length. }
  destruct (parse_accepted _ _ _ _ Hsha H Hok) as ([P1 _ P2 P3 P4 P5 P6] & Hser & Hl & Hc).
  split_and!; try done.
  - rewrite P4. by apply (Hchain page_number).
  - by apply validate_structure_iff.
  - intros other r' Ho Hne H' Hok'. destruct (parse_accepted _ _ _ _ Hsha H' Hok') as (Ha & _). split.
    + intros He. apply Hne. rewrite <- P1, <- (pa_number _ _ _ _ Ha). symmetry.
      apply canonical_page_number; [by rewrite P1|by rewrite (pa_number _ _ _ _ Ha)|done].
    + etrans; [by apply (Hchain page_number)|]. symmetry. by apply (Hchain other).
Qed.

End pages.

(** ** Concrete pages *)

(** A stand-in provider: thirty-two bytes that depend on every input byte. *)
Definition sample_sha256 (m : list N) : option (list N) :=
  Some (le_bytes 32 (foldl (fun acc b => (acc * 257 + b + 1) mod 2 ^ 255) 1 m)).

Lemma sample_sha256_size : digest_size sample_sha256.
Proof. intros m d [= <-]. apply length_le_bytes. Qed.

Definition sample_body : TransactionInventoryPageBody :=
  mkPageBody 5 0 6 3 [] sample_inventory LocalTransactionHorizons_default.

Definition sample_page : TransactionInventoryPageBodyResult :=
  default (TxnPageError "" "" "") (BuildTransactionInventoryPageBody sample_sha256 sample_body 1024).

Lemma sample_ranges : body_ranges sample_body.
Proof.
  split; try (vm_compute; reflexivity); [|discriminate].
  vm_compute. repeat constructor; vm_compute; reflexivity.
Qed.

Lemma page_round_trip_witness :
  tpr_ok sample_page = true /\
  ParseTransactionInventoryPageBody sample_sha256 (tpr_serialized sample_page) 5 =
    Some (mkPageBodyResult (tpr_status sample_page) (body_without_base (tpr_body sample_page)) (tpr_serialized sample_page) (tpr_diagnostic sample_page)).
Proof.
  assert (Hok : tpr_ok sample_page = true) by (vm_compute; reflexivity).
  split; [exact Hok|].
  refine (proj2 (proj1 (page_round_trip sample_sha256 sample_sha256_size sample_body 1024 sample_page _ _ _ Hok)) _).
  - reflexivity.
  - exact sample_ranges.
  - vm_compute. reflexivity.
  - intros H. discriminate H.
Defined.

Lemma page_codec_in_bounds_witness :
  exists r, BuildTransactionInventoryPageBody sample_sha256 sample_body 1024 = Some r.
Proof.
  destruct (page_codec_in_bounds sample_sha256 sample_sha256_size) as [_ H].
  destruct (H sample_body 1024) as (r & Hr & _); [reflexivity|exact (ranges_sized _ sample_ranges)|].
  exists r. exact Hr.
Defined.

Lemma accepted_page_authentic_witness :
  sample_sha256 (ChecksumDigestInput (tpr_serialized sample_page)) =
  Some (slice 64 32 (tpr_serialized sample_page)).
Proof.
  refine (proj1 (accepted_page_authentic sample_sha256 sample_sha256_size (tpr_serialized sample_page) 5
    sample_page _ _ _)); [reflexivity|vm_compute; reflexivity|vm_compute; reflexivity].
Defined.

(** The builder stores the oldest numbers of supplied horizons but digests their
    next number as well, which the parser takes from the inventory: a page built
    with another next number is accepted by the builder and cannot be read back. *)
Lemma foreign_next_number_unreadable :
  let body := mkPageBody 5 0 6 3 [] sample_inventory (mkHorizons 2 2 2 9 true) in
  let r := default (TxnPageError "" "" "") (BuildTransactionInventoryPageBody sample_sha256 body 1024) in
  tpr_ok r = true /\
  (tpr_ok <$> ParseTransactionInventoryPageBody sample_sha256 (tpr_serialized r) 5) = Some false.
Proof. vm_compute. done. Qed.
