(* ===== verification/SnapshotClaims.v ===== *)
(** * Properties of snapshots *)

From S2P Require Import Prelude Platform Uuid TransactionState Inventory Horizon RowVersion Snapshot.
From S2P Require Import InventoryEvolution InventoryTheorems InventorySteps Samples UuidFacts.
From S2P Require Import SnapshotFacts SnapshotWorld.

(** ** Reader snapshots *)

(** A committed first version of a row whose creator the inventory knows. *)
Definition committed_version (inv : LocalTransactionInventory) (id : N) : RowVersionMetadata :=
  let e := lr_entry (LookupLocalTransaction inv id) in
  mkRowVersionMetadata
    (mkRowVersionIdentity (mkRowIdentity (mkTypedUuid uk_row (sample_uuid 100)))
       (e_identity e) 1 (sample_uuid 101))
    (mkChain TypedUuid_default TypedUuid_default 0 0) 0 rvs_committed
    (InventoryVisibilityState e) true (e_commit_sequence e).

(** C3: snapshot isolation.  Under the snapshot created for a reader, a version
    whose creator the inventory knows is visible exactly when its metadata is well
    formed and either the creator committed at or before the snapshot's commit
    boundary, or the version is the reader's own unfinished work. *)
Theorem snapshot_isolation inv reader m e :
  tsr_ok (CreateLocalTransactionSnapshot inv reader) = true ->
  e ∈ inv_entries inv -> version_of m e ->
  vr_decision (EvaluateVisibility m
    (tsr_visibility_snapshot (CreateLocalTransactionSnapshot inv reader))) = vd_visible <->
  metadata_ok m /\
  ((rvm_state m = rvs_committed /\ HasCommittedInventoryOutcome e = true /\
    e_commit_sequence e <= commit_boundary inv (lr_entry (LookupLocalTransaction inv reader))) \/
   ((rvm_state m = rvs_prepared \/ rvm_state m = rvs_uncommitted) /\ e_local_id e = reader)).
Proof.
  intros Hok He Hv. rewrite evaluate_visibility_visible, evaluate_state_visible.
  apply and_iff_compat_l. rewrite (vo_state _ _ Hv).
  assert (Hown : own_version m (tsr_visibility_snapshot (CreateLocalTransactionSnapshot inv reader)) <->
                 e_local_id e = reader).
  { unfold own_version. destruct (create_snapshot_ok _ _ Hok) as (Hs & Hin & Hid & _ & ->). simpl.
    rewrite (vo_creator _ _ Hv). pose proof (structure_entry _ _ Hs Hin) as Hr.
    pose proof (identity_valid_local _ (eo_identity _ _ Hr)) as Hnz. unfold e_local_id in Hid.
    rewrite Hid in Hnz. tauto. }
  rewrite Hown. unfold HasCommittedInventoryOutcome at 1. rewrite bool_decide_eq_true.
  destruct (decide (InventoryVisibilityState e = ts_committed)) as [Hc|Hc].
  - rewrite (within_created_snapshot inv reader m e); [tauto|done..|]. by apply bool_decide_eq_true_2.
  - tauto.
Qed.

Lemma snapshot_isolation_witness :
  vr_decision (EvaluateVisibility (committed_version sample_inventory 1)
    (tsr_visibility_snapshot (CreateLocalTransactionSnapshot sample_inventory 2))) = vd_visible.
Proof.
  apply (snapshot_isolation sample_inventory 2 (committed_version sample_inventory 1)
    (lr_entry (LookupLocalTransaction sample_inventory 1))).
  - vm_compute. reflexivity.
  - apply list_elem_of_In. vm_compute. tauto.
  - split; vm_compute; reflexivity.
  - split; [apply observe_metadata_ok; vm_compute; reflexivity|]. left.
    split; [reflexivity|]. split; [vm_compute; reflexivity|]. vm_compute. congruence.
Defined.

(** C4: repeatable reads.  A transaction with a stable snapshot sees the same
    versions at any later point of the inventory's history: commits that happen
    meanwhile stay invisible to it, and nothing it saw disappears. *)
Theorem repeatable_read inv inv' reader m :
  ValidateLocalTransactionInventoryStructure inv = ""%string -> counters_u64 inv ->
  rtc inventory_step inv inv' ->
  tsr_ok (CreateLocalTransactionSnapshot inv reader) = true ->
  tsr_ok (CreateLocalTransactionSnapshot inv' reader) = true ->
  e_stable_snapshot (lr_entry (LookupLocalTransaction inv reader)) = true ->
  (rvm_state m = rvs_committed -> exists e, e ∈ inv_entries inv' /\ version_of m e) ->
  vr_decision (EvaluateVisibility m
    (tsr_visibility_snapshot (CreateLocalTransactionSnapshot inv' reader))) = vd_visible <->
  vr_decision (EvaluateVisibility m
    (tsr_visibility_snapshot (CreateLocalTransactionSnapshot inv reader))) = vd_visible.
Proof.
  rewrite validate_structure_iff. intros Hs Hu Hst Hok Hok' Hstable Hm.
  destruct (stable_boundary _ _ _ Hs Hu Hst Hok Hok' Hstable) as (Hb & Hb' & Hlt).
  rewrite !evaluate_visibility_visible, !evaluate_state_visible. apply and_iff_compat_l.
  assert (Hown : own_version m (tsr_visibility_snapshot (CreateLocalTransactionSnapshot inv' reader)) <->
                 own_version m (tsr_visibility_snapshot (CreateLocalTransactionSnapshot inv reader))).
  { unfold own_version. destruct (create_snapshot_ok _ _ Hok) as (_ & _ & _ & _ & ->).
    destruct (create_snapshot_ok _ _ Hok') as (_ & _ & _ & _ & ->). done. }
  rewrite Hown. apply or_iff_compat_l.
  destruct (decide (rvm_state m = rvs_committed)) as [Hc|]; [|tauto].
  destruct (Hm Hc) as (e' & He' & Hv'). rewrite (vo_state _ _ Hv').
  destruct (decide (InventoryVisibilityState e' = ts_committed)) as [Hcom|]; [|tauto].
  assert (Hcom' : HasCommittedInventoryOutcome e' = true) by by apply bool_decide_eq_true_2.
  rewrite (within_created_snapshot inv' reader m e') by done. rewrite Hb'. split; intros (? & ? & Hw).
  - destruct (steps_commit_origin _ _ Hs Hu Hst e' He' Hcom' ltac:(lia)) as (e & He & Hid & Hvis & Hseq).
    split_and!; [done..|]. rewrite (within_created_snapshot inv reader m e); [by rewrite Hb, Hseq|done..| |].
    + destruct Hv' as [? ? ?]. split; congruence.
    + apply bool_decide_eq_true_2. congruence.
  - split_and!; [done..|].
    destruct Hw as (_ & Hseq & _). destruct (create_snapshot_ok _ _ Hok) as (_ & _ & _ & _ & Hvs).
    rewrite Hvs in Hseq. simpl in Hseq. rewrite (vo_sequence _ _ Hv'), Hb in Hseq.
    by apply Hseq.
Qed.

(** The sample inventory with transaction 2 under a stable snapshot. *)
Definition stable_sample : LocalTransactionInventory :=
  set_entries ((fun e => if decide (e_local_id e = 2) then
    mkEntry (e_identity e) (e_state e) (e_archived_from_state e) (e_begin_unix_epoch_millis e)
      (e_final_unix_epoch_millis e) (e_begin_visible_through_local_transaction_id e)
      (e_begin_visible_through_commit_sequence e) (e_commit_sequence e)
      (e_evidence_record_required e) (e_evidence_record_written e) (e_rollback_only e) true
    else e) <$> inv_entries sample_inventory) sample_inventory.

Definition stable_sample_later : LocalTransactionInventory :=
  default LocalTransactionInventory_default (run_op stable_sample (op_commit 4 40)).

Lemma repeatable_read_witness :
  vr_decision (EvaluateVisibility (committed_version stable_sample_later 4)
    (tsr_visibility_snapshot (CreateLocalTransactionSnapshot stable_sample_later 2))) = vd_invisible /\
  (vr_decision (EvaluateVisibility (committed_version stable_sample_later 4)
    (tsr_visibility_snapshot (CreateLocalTransactionSnapshot stable_sample_later 2))) = vd_visible <->
   vr_decision (EvaluateVisibility (committed_version stable_sample_later 4)
    (tsr_visibility_snapshot (CreateLocalTransactionSnapshot stable_sample 2))) = vd_visible).
Proof.
  split; [vm_compute; reflexivity|].
  apply (repeatable_read stable_sample stable_sample_later 2 (committed_version stable_sample_later 4)).
  - vm_compute. reflexivity.
  - split; vm_compute; reflexivity.
  - apply (run_ops_steps _ [op_commit 4 40]). vm_compute. reflexivity.
  - vm_compute. reflexivity.
  - vm_compute. reflexivity.
  - vm_compute. reflexivity.
  - intros _. exists (lr_entry (LookupLocalTransaction stable_sample_later 4)).
    split; [apply list_elem_of_In; vm_compute; tauto|]. split; vm_compute; reflexivity.
Defined.

(** ** Published snapshots *)

(** Publication for an active local owner succeeds whenever the clock is in
    range, the random source delivers at every attempt and one of the 32 drawn
    identities is unused; the descriptor is then structurally complete, can be
    resolved at once, and its retention horizon is at most its owner and every
    transaction it excludes. *)
Theorem publication_succeeds entropy w inv owner millis k :
  world_ok w -> ValidateLocalTransactionInventoryStructure inv = ""%string -> counters_u64 inv ->
  lr_ok (LookupLocalTransaction inv owner) = true ->
  IsSnapshotOwnerEligible (e_state (lr_entry (LookupLocalTransaction inv owner))) = true ->
  0 < millis -> millis + 31 <= v7_max_millis ->
  (forall i, exists bytes, entropy i = Some bytes /\ uuid_wf (mkUuid bytes)) ->
  k < 32 ->
  w_registry w !! uuid_bytes (tu_value (tur_value
    (GenerateDurableEngineIdentityV7 uk_object (millis + k) (entropy k)))) = None ->
  let r := PublishStatementStableSnapshotVector entropy w inv owner millis in
  let d := svr_descriptor r.2 in
  svr_ok r.2 = true /\ SnapshotVectorStructurallyComplete d = true /\
  sd_owning_transaction d = owner /\
  ResolvePublishedSnapshotVector r.1 (sd_snapshot_uuid d) = r.2 /\
  0 < sd_retention_horizon_transaction d <= owner /\
  (forall x, x ∈ sd_active_excluded_local_transaction_ids d \/
             x ∈ sd_in_doubt_excluded_local_transaction_ids d ->
     sd_retention_horizon_transaction d <= x).
Proof.
  rewrite validate_structure_iff. intros Hw Hs Hu Hl Hel H0 Hms Hent Hk Hfree. cbv zeta.
  rewrite (publish_reaches_loop entropy w inv owner millis) by (try done; lia).
  pose proof (publish_loop_succeeds entropy w inv owner millis k) as Hloop.
  destruct Hloop as (uuid & Hr & Hc & ->); try done.
  destruct (structurally_complete_elim _ Hc) as (Hp & Hle & Hx & Ha & Hcc & Hv & Hkind & _).
  cbn [snd fst svr_descriptor]. split_and!; try done.
  unfold ResolvePublishedSnapshotVector. rewrite Hv, Hkind.
  rewrite bool_decide_eq_false_2 by (intros Hy; by apply Hy). cbn [negb orb].
  unfold find_published. cbn [w_registry w_objects].
  change (tu_value (sd_snapshot_uuid (with_publication uuid ?d))) with (tu_value uuid).
  rewrite !lookup_insert_eq. cbn [pv_revoked pv_publication_released pv_descriptor orb].
  by rewrite Hc.
Qed.

Definition sample_entropy (n : N) (i : N) : option (list N) := Some (replicate 16 (to_byte (n + i))).

Lemma sample_entropy_wf n i : exists bytes, sample_entropy n i = Some bytes /\ uuid_wf (mkUuid bytes).
Proof.
  eexists. split; [reflexivity|]. split; [done|]. apply Forall_replicate. apply low_byte_lt.
Qed.

Lemma publication_succeeds_witness :
  svr_ok (PublishStatementStableSnapshotVector (sample_entropy 1) empty_world sample_inventory 2 1000).2 = true.
Proof.
  apply (publication_succeeds (sample_entropy 1) empty_world sample_inventory 2 1000 0).
  - apply empty_world_ok.
  - vm_compute. reflexivity.
  - split; vm_compute; reflexivity.
  - vm_compute. reflexivity.
  - vm_compute. reflexivity.
  - reflexivity.
  - vm_compute. congruence.
  - apply sample_entropy_wf.
  - reflexivity.
  - reflexivity.
Defined.

(** Whatever sequence of publications, pins, releases and revocations runs,
    the pin counter of every shared object equals the number of live leases on it
    and never wraps, every registered descriptor is complete and filed under its
    own identity, a released publication stays registered only while pinned, and
    every leased object is still registered. *)
Theorem registry_invariant ops :
  let w := run_snapshot_ops empty_world ops in
  (forall a o, w_objects w !! a = Some o -> pv_pins o = lease_count (w_leases w) a /\ pv_pins o <= u64_max) /\
  (forall key a, w_registry w !! key = Some a -> exists o, w_objects w !! a = Some o /\
     key_of o = key /\ SnapshotVectorStructurallyComplete (pv_descriptor o) = true /\
     (pv_publication_released o = true -> pv_pins o <> 0)) /\
  (forall l a, w_leases w !! l = Some a -> exists o, w_objects w !! a = Some o /\
     w_registry w !! key_of o = Some a).
Proof.
  destruct (run_snapshot_ops_ok empty_world ops empty_world_ok) as [Hr Hl Hp _ _]. done.
Qed.

(** C32: a pin protects what it retains.  If a live, unrevoked pin is neither
    released nor revoked by the operations that follow, it still resolves to the
    very descriptor it retained, and a cleanup horizon computed from any inventory
    that knows its owner, with the registry's retention horizons as input, stays
    at or below the descriptor's retention horizon. *)
Theorem pin_protects_snapshot ops0 ops l a o inv :
  leased_object (run_snapshot_ops empty_world ops0) l = Some (a, o) ->
  pv_revoked o = false ->
  (forall op, op ∈ ops -> op <> sop_release_pin l /\ ~ op_revokes op (pv_descriptor o)) ->
  let w := run_snapshot_ops (run_snapshot_ops empty_world ops0) ops in
  pin_Resolve w (Some l) = mkVectorResult MgaOkStatus (pv_descriptor o) DiagnosticRecord_default /\
  (owner_in_inventory inv (pv_descriptor o) = true ->
   phr_ok (PublishedSnapshotRetentionHorizons w inv) = true ->
   let r := ComputeLocalTransactionHorizonsFor
              (mkHorizonRequest inv (phr_horizons (PublishedSnapshotRetentionHorizons w inv))) in
   hres_ok r = true ->
   h_oldest_snapshot_transaction (hres_horizons r) <= sd_retention_horizon_transaction (pv_descriptor o)).
Proof.
  intros Hl Hr Hops. pose proof (run_snapshot_ops_ok empty_world ops0 empty_world_ok) as Hw0.
  destruct (pin_survives _ ops l a o Hw0 Hl Hr Hops) as (o' & Hl' & Hd & Hr'). cbv zeta.
  pose proof (run_snapshot_ops_ok _ ops Hw0) as Hw. split.
  - unfold pin_Resolve. by rewrite Hl', Hr', Hd.
  - rewrite <- Hd. intros Hown Hok Hres. pose proof (horizons_cover _ inv l a o' Hw Hl' Hr' Hown Hok) as Hin.
    unfold ComputeLocalTransactionHorizonsFor in *. simpl in *.
    destruct (compute_horizons_ok _ _ Hres) as [_ Hp].
    destruct (projection_bounds _ _ _ Hp) as (_ & _ & _ & _ & _ & _ & _ & Hsnap & _). by apply Hsnap.
Qed.

Definition sample_published : SnapshotVectorDescriptor :=
  svr_descriptor (PublishStatementStableSnapshotVector (sample_entropy 1) empty_world sample_inventory 2 1000).2.

Definition pin_sample_ops : list snapshot_op :=
  [sop_publish (sample_entropy 1) sample_inventory 2 1000; sop_retain (sd_snapshot_uuid sample_published)].

Lemma pin_protects_snapshot_witness :
  leased_object (run_snapshot_ops empty_world pin_sample_ops) 0 =
    Some (0, mkPublished sample_published false false 1) /\
  pin_Resolve (run_snapshot_ops (run_snapshot_ops empty_world pin_sample_ops)
                 [sop_release (sd_snapshot_uuid sample_published)]) (Some 0) =
  mkVectorResult MgaOkStatus (pv_descriptor (mkPublished sample_published false false 1))
    DiagnosticRecord_default.
Proof.
  assert (Hl : leased_object (run_snapshot_ops empty_world pin_sample_ops) 0 =
    Some (0, mkPublished sample_published false false 1)) by (vm_compute; reflexivity).
  split; [exact Hl|].
  refine (proj1 (pin_protects_snapshot pin_sample_ops [sop_release (sd_snapshot_uuid sample_published)] 0 0
    (mkPublished sample_published false false 1) sample_inventory Hl eq_refl _)).
  intros op Hop. apply list_elem_of_singleton in Hop. subst op. split; [discriminate|]. intros [].
Defined.
