(* ===== verification/LockClaims.v ===== *)
(** * Lock table: invariant, wait-for graph, deadlock search and the claims *)

From S2P Require Import Prelude Platform TransactionState LockTable.

(** ** Well-formed tables *)

Record lock_ok (r : LockRecord) : Prop := {
  lo_owned : lk_owners r <> [];
  lo_nodup : NoDup (lk_owners r);
  lo_valid : 0 ∉ lk_owners r;
  lo_mode : lk_mode r <> lm_unknown;
  lo_exclusive : lk_mode r = lm_exclusive -> exists owner, lk_owners r = [owner] }.

Record waiting_ok (id : N) (w : WaitingRecord) : Prop := {
  wk_requester : lq_requester (wr_request w) = id;
  wk_valid : id <> 0;
  wk_mode : lq_mode (wr_request w) <> lm_unknown }.

Record table_ok (t : LocalTransactionLockTable) : Prop := {
  to_locks : map_Forall (fun _ => lock_ok) (lt_locks t);
  to_waiting : map_Forall waiting_ok (lt_waiting t) }.

Lemma default_table_ok : table_ok LockTable_default.
Proof. split; apply map_Forall_empty. Qed.

Lemma owns_true r x : OwnsLock r x = true <-> x ∈ lk_owners r.
Proof. unfold OwnsLock. by rewrite bool_decide_eq_true. Qed.

Lemma owns_false r x : OwnsLock r x = false <-> x ∉ lk_owners r.
Proof. unfold OwnsLock. by rewrite bool_decide_eq_false. Qed.

(** ** Records after each change *)

Lemma fresh_lock_ok id mode : id <> 0 -> mode <> lm_unknown -> lock_ok (mkLockRecord [id] mode).
Proof. intros. split; simpl; try done; [apply NoDup_singleton|set_solver|eauto]. Qed.

(** An exclusive request by an owner is only compatible when it owns alone. *)
Lemma compatible_exclusive r id :
  lk_owners r <> [] -> CompatibleWithExisting r id lm_exclusive = true -> lk_owners r = [id].
Proof.
  unfold CompatibleWithExisting. destruct (lk_owners r) as [|o rest]; [done|]. intros _.
  rewrite (bool_decide_eq_false_2 (lm_exclusive = lm_shared)) by done. rewrite andb_false_r.
  intros. bool_prop. by subst.
Qed.

Lemma compatible_shared r id :
  lock_ok r -> CompatibleWithExisting r id lm_shared = true ->
  lk_mode r = lm_shared \/ lk_owners r = [id].
Proof.
  intros Hr. unfold CompatibleWithExisting. pose proof (lo_owned _ Hr).
  destruct (lk_owners r) as [|o rest]; [done|].
  destruct (bool_decide (lk_mode r = lm_shared)) eqn:E; bool_prop; [by left|].
  simpl. intros. bool_prop. right. by subst.
Qed.

Lemma raise_mode_owners mode r : lk_owners (raise_mode mode r) = lk_owners r.
Proof. unfold raise_mode. by case_decide. Qed.

Lemma already_owned_ok r id mode :
  lock_ok r -> OwnsLock r id = true -> mode <> lm_unknown ->
  lk_mode r = lm_exclusive \/ lk_mode r = mode \/ CompatibleWithExisting r id mode = true ->
  lock_ok (raise_mode mode r) /\ (mode = lm_exclusive -> lk_mode (raise_mode mode r) = lm_exclusive).
Proof.
  intros [Ho Hn Hv Hm He] Hown Hmode Hc. unfold raise_mode. case_decide as Hd; [|by split; [split|]].
  split; [|done]. split; simpl; try done. intros _.
  destruct Hc as [Hx|[Hx|Hx]]; [by apply He|apply He; congruence|].
  exists id. apply compatible_exclusive; [done|]. by rewrite <- Hd.
Qed.

Lemma grant_ok r id mode :
  lock_ok r -> id <> 0 -> mode <> lm_unknown -> CompatibleWithExisting r id mode = true ->
  let r' := AddOwner (raise_mode mode r) id in
  lock_ok r' /\ id ∈ lk_owners r' /\ (mode = lm_exclusive -> lk_mode r' = lm_exclusive) /\
  (forall x, x <> id -> x ∈ lk_owners r' <-> x ∈ lk_owners r).
Proof.
  intros Hr Hid Hmode Hc. cbv zeta. unfold AddOwner.
  destruct (OwnsLock (raise_mode mode r) id) eqn:Hin; cbn [negb].
  - rewrite owns_true, raise_mode_owners in Hin.
    destruct (already_owned_ok r id mode Hr) as [Hok Hex]; [by apply owns_true|done|auto|].
    split_and!; try done; [by rewrite raise_mode_owners|]. intros x _. by rewrite raise_mode_owners.
  - rewrite owns_false, raise_mode_owners in Hin. rewrite raise_mode_owners.
    assert (Hsh : mode = lm_shared /\ lk_mode r = lm_shared).
    { destruct mode; [|exfalso|done].
      - split; [done|]. destruct (compatible_shared _ _ Hr Hc) as [?|Heq]; [done|]. rewrite Heq in Hin. set_solver.
      - apply compatible_exclusive in Hc; [|apply Hr]. rewrite Hc in Hin. set_solver. }
    destruct Hsh as [-> Hmr]. unfold raise_mode. rewrite decide_False by done.
    destruct Hr as [Ho Hn Hv Hm He]. split_and!; try done; [split; simpl| |].
    + by destruct (lk_owners r).
    + apply NoDup_app. split_and!; [done|set_solver|apply NoDup_singleton].
    + set_solver.
    + done.
    + congruence.
    + set_solver.
    + simpl. set_solver.
Qed.

Lemma remove_owner_ok r id :
  lock_ok r -> lk_owners (RemoveOwner r id) <> [] -> lock_ok (RemoveOwner r id).
Proof.
  intros [Ho Hn Hv Hm He] Hne. split; simpl in *; try done.
  - by apply NoDup_filter.
  - intros [_ H]%list_elem_of_filter. done.
  - intros Hx. destruct (He Hx) as (o & Heq). rewrite Heq in *. revert Hne. rewrite filter_cons.
    case_decide; [|done]. eauto.
Qed.

Lemma remove_owner_elem r id x : x ∈ lk_owners (RemoveOwner r id) <-> x ∈ lk_owners r /\ x <> id.
Proof. unfold RemoveOwner. simpl. rewrite list_elem_of_filter. tauto. Qed.

(** ** The waiters considered by fairness exist *)

Lemma earliest_in waiting key requester seq w :
  EarliestPriorWaiterForResource waiting key requester seq = Some w ->
  exists id, waiting !! id = Some w /\ lq_resource_key (wr_request w) = key /\
    lq_requester (wr_request w) <> requester.
Proof.
  unfold EarliestPriorWaiterForResource.
  assert (Hall : forall slots acc, (forall x, acc = Some x -> exists id, waiting !! id = Some x /\
      lq_resource_key (wr_request x) = key /\ lq_requester (wr_request x) <> requester) ->
    (forall s, s ∈ slots -> waiting !! s.1 = Some s.2) ->
    forall x, foldl (earlier_waiter key requester seq) acc slots = Some x ->
    exists id, waiting !! id = Some x /\ lq_resource_key (wr_request x) = key /\
      lq_requester (wr_request x) <> requester).
  { induction slots as [|s slots IH]; intros acc Hacc Hs x Hx; [by apply Hacc|]. simpl in Hx.
    eapply IH; [| |exact Hx]; [|set_solver]. intros y. unfold earlier_waiter.
    case_decide as H1; [apply Hacc|]. apply Decidable.not_or in H1 as [H1 H2]. apply dec_stable in H1.
    case_decide; [apply Hacc|].
    assert (Hnew : exists id, waiting !! id = Some s.2 /\ lq_resource_key (wr_request s.2) = key /\
      lq_requester (wr_request s.2) <> requester).
    { exists s.1. split_and!; try done. apply Hs. by left. }
    destruct acc as [a|]; [case_decide|]; intros [= <-]; auto. }
  intros H. eapply Hall; [| |exact H]; [done|].
  intros [k v] Hin. unfold waiting_in_order in Hin. rewrite merge_sort_Permutation in Hin.
  by apply elem_of_map_to_list in Hin.
Qed.

(** ** What an acquisition does *)

(** Owners other than [id] are the same in both lock maps. *)
Definition others_kept (id : N) (locks locks' : gmap string LockRecord) : Prop :=
  forall key x, x <> id ->
  (exists r, locks !! key = Some r /\ x ∈ lk_owners r) <->
  (exists r, locks' !! key = Some r /\ x ∈ lk_owners r).

Lemma others_kept_refl id locks : others_kept id locks locks.
Proof. done. Qed.

Lemma others_kept_insert id locks key r' :
  (forall x, x <> id -> x ∈ lk_owners r' <-> exists r, locks !! key = Some r /\ x ∈ lk_owners r) ->
  others_kept id locks (<[key := r']> locks).
Proof.
  intros H k x Hx. destruct (decide (key = k)) as [<-|Hne].
  - rewrite <- (H x Hx). split; [eexists; by rewrite lookup_insert_eq|].
    intros (r & Hr & Hin). rewrite lookup_insert_eq in Hr. by simplify_eq.
  - by setoid_rewrite lookup_insert_ne.
Qed.

Record acquired (t : LocalTransactionLockTable) (q : TransactionLockRequest)
    (t' : LocalTransactionLockTable) : Prop := {
  aq_owner : exists r, lt_locks t' !! lq_resource_key q = Some r /\ lq_requester q ∈ lk_owners r /\
    (lq_mode q = lm_exclusive -> lk_mode r = lm_exclusive);
  aq_waiting : lt_waiting t' = delete (lq_requester q) (lt_waiting t);
  aq_others : others_kept (lq_requester q) (lt_locks t) (lt_locks t') }.

Lemma enqueue_ok t q b p c :
  table_ok t -> lq_requester q <> 0 -> lq_mode q <> lm_unknown -> table_ok (enqueue t q b p c).
Proof.
  intros [Hl Hw] Hid Hm. split; [done|]. simpl. apply map_Forall_insert_2; [by split|done].
Qed.

Lemma grant_table_ok t id key r :
  table_ok t -> lock_ok r ->
  table_ok (set_waiting (delete id (lt_waiting t)) (set_locks (<[key := r]> (lt_locks t)) t)).
Proof.
  intros [Hl Hw] Hr. split; simpl; [by apply map_Forall_insert_2|by apply map_Forall_delete].
Qed.

(** Splits the next guard of the goal and forgets it. *)
Ltac next_if :=
  match goal with |- context [if ?b then _ else _] => let H := fresh in destruct b eqn:H; clear H end.

(** The outcomes of [AcquireInternal]: a success that acquired the lock, a
    refusal that left the table alone, or a wait that only queued the requester. *)
Lemma acquire_cases t q p :
  table_ok t ->
  let '(t', r) := AcquireInternal t q p in
  table_ok t' /\
  ((lres_ok r = true /\ acquired t q t') \/
   (lres_ok r = false /\ lres_decision r <> ld_wait_required /\ t' = t) \/
   (lres_ok r = false /\ lres_decision r = ld_wait_required /\ lt_locks t' = lt_locks t /\
    exists w, lt_waiting t' = <[lq_requester q := w]> (lt_waiting t) /\ wr_request w = q /\
      wr_blocking_transaction w = lres_blocking_transaction r)).
Proof.
  intros Ht. unfold AcquireInternal. destruct (_ || negb (lq_transaction_active q)) eqn:Hg.
  { split; [done|]. right. left. done. }
  apply orb_false_iff in Hg as [[[Hid Hkey]%orb_false_iff Hmode]%orb_false_iff Hact].
  unfold local_id_valid, kInvalidLocalTransactionId in Hid. bool_prop.
  next_if; [split; [done|]; right; left; done|].
  destruct (lt_locks t !! lq_resource_key q) as [r|] eqn:Hl.
  2:{ assert (Hfresh : lock_ok (mkLockRecord [lq_requester q] (lq_mode q))) by (by apply fresh_lock_ok).
      split; [by apply grant_table_ok|]. left. split; [done|]. split; simpl.
      - eexists. rewrite lookup_insert_eq. split_and!; [done|set_solver|done].
      - done.
      - apply others_kept_insert. intros x Hx. rewrite Hl. simpl. split; [set_solver|naive_solver]. }
  pose proof (to_locks _ Ht _ _ Hl) as Hr. destruct (OwnsLock r (lq_requester q) && _) eqn:Hown.
  { apply andb_true_iff in Hown as [Hown Hc]. rewrite !orb_true_iff, !bool_decide_eq_true in Hc.
    destruct (already_owned_ok r (lq_requester q) (lq_mode q) Hr) as [Hok Hex]; [done|done|tauto|].
    split; [by apply grant_table_ok|]. left. split; [done|]. split; simpl.
    - eexists. rewrite lookup_insert_eq, raise_mode_owners. by rewrite owns_true in Hown.
    - done.
    - apply others_kept_insert. intros x Hx. rewrite raise_mode_owners, Hl. naive_solver. }
  clear Hown. destruct (if OwnsLock r (lq_requester q) then None else _) as [pw|].
  { unfold fairness_wait. next_if; [split; [done|]; right; left; by destruct (wp_no_wait _)|].
    next_if; [split; [done|]; right; left; done|].
    split; [by apply enqueue_ok|]. right. right. split_and!; try done. eexists. split_and!; done. }
  destruct (CompatibleWithExisting _ _ _) eqn:Hc.
  { destruct (grant_ok r (lq_requester q) (lq_mode q) Hr) as (Hok & Hin & Hex & Hoth); [done..|].
    split; [by apply grant_table_ok|]. left. split; [done|]. split; simpl.
    - eexists. by rewrite lookup_insert_eq.
    - done.
    - apply others_kept_insert. intros x Hx. rewrite Hoth, Hl by done. naive_solver. }
  unfold conflict_wait. do 3 (next_if; [split; [done|]; right; left; done|]).
  split; [by apply enqueue_ok|]. right. right. split_and!; try done. eexists. split_and!; done.
Qed.

(** ** The other methods *)

Lemma retry_ok t id : table_ok t -> table_ok (Retry t id).1.
Proof.
  intros Ht. unfold Retry. destruct (lt_waiting t !! id) as [w|]; [|done].
  assert (Hd : table_ok (set_waiting (delete id (lt_waiting t)) t)).
  { destruct Ht as [Hl Hw]. split; [done|]. simpl. by apply map_Forall_delete. }
  pose proof (acquire_cases _ (wr_request w) (wr_wait_sequence w) Hd) as H.
  destruct (AcquireInternal _ _ _). apply H.
Qed.

Lemma release_table_ok t id key : table_ok t -> table_ok (Release t id key).1.
Proof.
  intros Ht. unfold Release. destruct (lt_locks t !! key) as [r|] eqn:Hl; [|done].
  next_if; [done|]. destruct Ht as [Hls Hw]. split; simpl; [|by apply map_Forall_delete].
  case_bool_decide as He; [by apply map_Forall_delete|].
  apply map_Forall_insert_2; [|done]. apply remove_owner_ok; [by apply (Hls key)|done].
Qed.

Lemma release_record_spec id r :
  lock_ok r ->
  (forall r', release_record id r = Some r' -> lock_ok r' /\
     forall x, x ∈ lk_owners r' <-> x ∈ lk_owners r /\ x <> id) /\
  (release_record id r = None -> forall x, x ∈ lk_owners r -> x = id).
Proof.
  intros Hr. unfold release_record. destruct (OwnsLock r id) eqn:Ho.
  - split; [intros r'|]; case_bool_decide as He; intros H; simplify_eq.
    + split; [by apply remove_owner_ok|]. apply remove_owner_elem.
    + intros x Hx. destruct (decide (x = id)) as [|Hne]; [done|].
      assert (Hin : x ∈ lk_owners (RemoveOwner r id)) by by apply remove_owner_elem.
      rewrite He in Hin. by apply elem_of_nil in Hin.
  - apply owns_false in Ho. split; [intros r'|]; case_bool_decide as He; intros H; simplify_eq.
    + split; [done|]. intros x. split; [|tauto]. intros Hx. split; [done|]. congruence.
    + by destruct (lo_owned _ Hr).
Qed.

Lemma release_all_ok t id : table_ok t -> table_ok (ReleaseAll t id).1.
Proof.
  intros [Hl Hw]. split; simpl; [|by apply map_Forall_delete].
  intros key r' Hr'. apply lookup_omap_Some in Hr' as (r & Hrel & Hr).
  by apply (release_record_spec id r (Hl key r Hr)).
Qed.

(** ** Runs *)

Inductive lock_op :=
| lop_policy (p : AdmissionPolicy)
| lop_acquire (q : TransactionLockRequest)
| lop_retry (id : LocalTransactionId)
| lop_release (id : LocalTransactionId) (key : string)
| lop_release_all (id : LocalTransactionId).

Definition run_lock_op (t : LocalTransactionLockTable) (op : lock_op) : LocalTransactionLockTable :=
  match op with
  | lop_policy p => SetAdmissionPolicy t p
  | lop_acquire q => (Acquire t q).1
  | lop_retry id => (Retry t id).1
  | lop_release id key => (Release t id key).1
  | lop_release_all id => (ReleaseAll t id).1
  end.

Lemma run_lock_op_ok t op : table_ok t -> table_ok (run_lock_op t op).
Proof.
  intros Ht. destruct op; simpl.
  - by destruct Ht.
  - unfold Acquire. pose proof (acquire_cases t q 0 Ht) as H. destruct (AcquireInternal _ _ _). apply H.
  - by apply retry_ok.
  - by apply release_table_ok.
  - by apply release_all_ok.
Qed.

Lemma run_lock_ops_ok t ops : table_ok t -> table_ok (foldl run_lock_op t ops).
Proof.
  revert t. induction ops as [|op ops IH]; intros t Ht; [done|]. simpl. by apply IH, run_lock_op_ok.
Qed.

(** ** The wait-for graph *)

(** [x] waits for lock [key], which [y] owns. *)
Definition waits_on (locks : gmap string LockRecord) (waiting : gmap N WaitingRecord)
    (key : string) (x y : N) : Prop :=
  exists w r, waiting !! x = Some w /\ lq_resource_key (wr_request w) = key /\
    locks !! key = Some r /\ y ∈ lk_owners r.

Definition waits_for (locks : gmap string LockRecord) (waiting : gmap N WaitingRecord) (x y : N) : Prop :=
  exists key, waits_on locks waiting key x y.

Section graph.
Context (locks : gmap string LockRecord) (waiting : gmap N WaitingRecord).

(** Edges that use only the locks of [S]. *)
Definition edge_in (S : gset string) (x y : N) : Prop :=
  exists key, key ∈ S /\ waits_on locks waiting key x y.

(** Either the walk never uses lock [k], or it can be entered behind its last
    use, at an owner of [k]. *)
Lemma walk_avoiding S k x y :
  rtc (edge_in S) x y ->
  rtc (edge_in (S ∖ {[k]})) x y \/
  exists z r, locks !! k = Some r /\ z ∈ lk_owners r /\ rtc (edge_in (S ∖ {[k]})) z y.
Proof.
  induction 1 as [x|x z y (key & Hkey & Hon) _ IH]; [left; constructor|].
  destruct IH as [IH|IH]; [|by right].
  destruct (decide (key = k)) as [->|Hne].
  - right. destruct Hon as (w & r & _ & _ & Hr & Hin). eauto.
  - left. eapply rtc_l; [|exact IH]. exists key. split; [set_solver|done].
Qed.

(** A walk can be shortened so that no lock is used twice. *)
Lemma walk_short S x y : rtc (edge_in S) x y -> exists n, (n <= size S)%nat /\ nsteps (waits_for locks waiting) n x y.
Proof.
  remember (size S) as m eqn:Hm. revert S Hm x. induction m as [|m IH]; intros S Hm x Hxy.
  { inv Hxy as [|? z ? (key & Hkey & _) _]; [exists 0%nat; split; [lia|constructor]|].
    symmetry in Hm. apply size_empty_inv in Hm. set_solver. }
  inv Hxy as [|? z ? (key & Hkey & Hon) Hzy]; [exists 0%nat; split; [lia|constructor]|].
  assert (Hsize : m = size (S ∖ {[key]})).
  { rewrite size_difference by set_solver. rewrite size_singleton. lia. }
  assert (Hjump : exists z', waits_on locks waiting key x z' /\ rtc (edge_in (S ∖ {[key]})) z' y).
  { destruct (walk_avoiding S key z y Hzy) as [H|(z' & r & Hr & Hin & H)]; [by exists z|].
    exists z'. split; [|done]. destruct Hon as (w & r' & Hw & Hk & Hr' & _). simplify_eq.
    exists w. eauto. }
  destruct Hjump as (z' & Hon' & Hrest). destruct (IH (S ∖ {[key]}) Hsize z' Hrest) as (n & Hn & Hsteps).
  exists (Datatypes.S n). split; [lia|]. eapply nsteps_l; [by exists key|done].
Qed.

Lemma waits_for_edges x y : rtc (waits_for locks waiting) x y -> rtc (edge_in (dom locks)) x y.
Proof.
  apply rtc_congruence with (f := id). intros a b (key & Hon). exists key. split; [|done].
  destruct Hon as (w & r & _ & _ & Hr & _). by apply elem_of_dom.
Qed.

(** ** The search decides reachability *)

Lemma deadlock_path_sound fuel from target :
  deadlock_path locks waiting fuel from target = true ->
  from <> 0 /\ target <> 0 /\ rtc (waits_for locks waiting) from target.
Proof.
  revert from. induction fuel as [|fuel IH]; intros from H; [done|]. cbn [deadlock_path] in H.
  unfold local_id_valid, kInvalidLocalTransactionId in H.
  destruct (_ || _) eqn:Hv in H; [done|]. bool_prop.
  case_decide as Heq; [subst; split_and!; try done; constructor|].
  destruct (waiting !! from) as [w|] eqn:Hw; [|done].
  destruct (locks !! _) as [r|] eqn:Hr; [|done].
  apply existsb_exists in H as (owner & Hin%list_elem_of_In & Hrec).
  destruct (IH owner Hrec) as (_ & _ & Hrtc). split_and!; try done.
  eapply rtc_l; [|exact Hrtc]. eexists. exists w, r. split_and!; done.
Qed.

Lemma deadlock_path_steps fuel n from target :
  map_Forall (fun _ r => 0 ∉ lk_owners r) locks ->
  nsteps (waits_for locks waiting) n from target -> from <> 0 -> target <> 0 -> (n < fuel)%nat ->
  deadlock_path locks waiting fuel from target = true.
Proof.
  intros Hvalid. revert fuel from. induction n as [|n IH]; intros fuel from Hs Hf Ht Hlt;
    (destruct fuel as [|fuel]; [lia|]); cbn [deadlock_path];
    unfold local_id_valid, kInvalidLocalTransactionId;
    rewrite !bool_decide_eq_true_2 by done; cbn [negb orb].
  - inv Hs. by rewrite decide_True.
  - case_decide; [done|]. inversion Hs as [|n' x' z y' Hedge Hs' En Ex Ey]; subst.
    destruct Hedge as (key & w & r & Hw & Hk & Hr & Hin). rewrite Hw, Hk, Hr. apply existsb_exists. exists z. split; [by apply list_elem_of_In|].
    apply IH; try done; [|lia]. intros ->. by apply (Hvalid key r Hr).
Qed.

Lemma deadlock_path_exact from target :
  map_Forall (fun _ r => 0 ∉ lk_owners r) locks ->
  HasDeadlockPath locks waiting from target = true <->
  from <> 0 /\ target <> 0 /\ rtc (waits_for locks waiting) from target.
Proof.
  intros Hvalid. split; [apply deadlock_path_sound|]. intros (Hf & Ht & Hrtc).
  apply waits_for_edges, walk_short in Hrtc as (n & Hn & Hsteps).
  unfold HasDeadlockPath. rewrite size_dom in Hn. eapply deadlock_path_steps; try done. lia.
Qed.
End graph.

(** ** The blocker of a conflicting request *)

Lemma first_other_Some id owners x : first_other id owners = Some x -> x ∈ owners /\ x <> id.
Proof.
  induction owners as [|o owners IH]; simpl; [done|]. case_decide; [|set_solver].
  intros; simplify_eq. split; [set_solver|done].
Qed.

Lemma first_other_None id owners : first_other id owners = None -> forall x, x ∈ owners -> x = id.
Proof.
  induction owners as [|o owners IH]; simpl; [set_solver|]. case_decide as Ho; [done|].
  set_solver.
Qed.

Lemma first_blocking_conflicts r id mode :
  lock_ok r -> CompatibleWithExisting r id mode = false ->
  FirstBlockingOwner r id ∈ lk_owners r /\ FirstBlockingOwner r id <> id.
Proof.
  intros Hr Hc. unfold FirstBlockingOwner.
  destruct (first_other id (lk_owners r)) as [x|] eqn:Hf; [by apply first_other_Some|]. exfalso.
  pose proof (first_other_None _ _ Hf) as Hall. destruct Hr as [Ho Hn _ _ _].
  unfold CompatibleWithExisting in Hc. destruct (lk_owners r) as [|o rest]; [done|].
  assert (o = id) as -> by (apply Hall; by left).
  assert (rest = []) as ->.
  { destruct rest as [|y rest]; [done|]. assert (y = id) as -> by (apply Hall; set_solver).
    apply NoDup_cons in Hn as [Hn _]. set_solver. }
  destruct (bool_decide (lk_mode r = lm_shared) && _); [done|].
  by rewrite !bool_decide_eq_true_2 in Hc by done.
Qed.

Lemma acquire_deadlock t q p :
  table_ok t -> lres_decision (AcquireInternal t q p).2 = ld_deadlock_detected ->
  exists r, lt_locks t !! lq_resource_key q = Some r /\
    let owner := lres_blocking_transaction (AcquireInternal t q p).2 in
    owner ∈ lk_owners r /\ owner <> lq_requester q /\
    HasDeadlockPath (lt_locks t) (lt_waiting t) owner (lq_requester q) = true.
Proof.
  intros Ht. unfold AcquireInternal. next_if; [done|]. next_if; [done|].
  destruct (lt_locks t !! lq_resource_key q) as [r|] eqn:Hl; [|done].
  next_if; [done|]. destruct (if OwnsLock r (lq_requester q) then None else _) as [pw|].
  { unfold fairness_wait. next_if; [by destruct (wp_no_wait _)|]. by next_if. }
  destruct (CompatibleWithExisting _ _ _) eqn:Hc; [done|].
  unfold conflict_wait. destruct (HasDeadlockPath _ _ _ _) eqn:Hd.
  - intros _. exists r. cbn [snd lres_blocking_transaction with_blocker].
    destruct (first_blocking_conflicts r (lq_requester q) (lq_mode q)) as [? ?]; [by apply (to_locks _ Ht _ _ Hl)|done|].
    done.
  - next_if; [done|]. by next_if.
Qed.

(** ** Properties of the lock table *)

(** C20: after any sequence of acquisitions, retries, releases and policy
    changes, every lock has at least one owner, no owner twice and no invalid
    owner, an exclusive lock has exactly one owner, and every waiting record is
    filed under its own valid requester. *)
Theorem lock_mutual_exclusion ops :
  let t := foldl run_lock_op LockTable_default ops in
  (forall key r, lt_locks t !! key = Some r ->
     lk_owners r <> [] /\ NoDup (lk_owners r) /\ (0 ∉ lk_owners r) /\
     (lk_mode r = lm_exclusive -> exists owner, lk_owners r = [owner])) /\
  (forall id w, lt_waiting t !! id = Some w -> lq_requester (wr_request w) = id /\ id <> 0).
Proof.
  destruct (run_lock_ops_ok LockTable_default ops default_table_ok) as [Hl Hw]. cbv zeta. split.
  - intros key r Hr. by destruct (Hl key r Hr).
  - intros id w Hid. by destruct (Hw id w Hid).
Qed.

(** The outcome of an acquisition or retry.  Success means the requester
    owns the resource, exclusively if it asked so, waits for nothing any more, and
    no other transaction gained or lost a lock; a required wait queues the request
    and changes no lock; any other refusal leaves the table as it was. *)
Theorem acquire_outcomes ops q p :
  let t := foldl run_lock_op LockTable_default ops in
  let t' := (AcquireInternal t q p).1 in
  let r := (AcquireInternal t q p).2 in
  (lres_ok r = true ->
   (exists l, lt_locks t' !! lq_resource_key q = Some l /\ lq_requester q ∈ lk_owners l /\
      (lq_mode q = lm_exclusive -> lk_mode l = lm_exclusive /\ lk_owners l = [lq_requester q])) /\
   lt_waiting t' = delete (lq_requester q) (lt_waiting t) /\
   others_kept (lq_requester q) (lt_locks t) (lt_locks t')) /\
  (lres_decision r = ld_wait_required ->
   lt_locks t' = lt_locks t /\ exists w, lt_waiting t' = <[lq_requester q := w]> (lt_waiting t) /\
     wr_request w = q /\ wr_blocking_transaction w = lres_blocking_transaction r) /\
  (lres_ok r = false -> lres_decision r <> ld_wait_required -> t' = t).
Proof.
  cbv zeta. set (t := foldl run_lock_op LockTable_default ops).
  pose proof (run_lock_ops_ok LockTable_default ops default_table_ok) as Ht.
  pose proof (acquire_cases t q p Ht) as Hc. destruct (AcquireInternal t q p) as [t' r]. simpl.
  destruct Hc as [[Hl' _] Hcases]. split_and!.
  - intros Hok. destruct Hcases as [[_ [Haq Hwait Hoth]]|[[? _]|[? _]]]; [|congruence..].
    split_and!; try done. destruct Haq as (l & Hlk & Hin & Hex). exists l. split_and!; try done.
    intros Hm. split; [auto|]. destruct (lo_exclusive _ (Hl' _ _ Hlk) (Hex Hm)) as (o & Ho).
    rewrite Ho in *. apply list_elem_of_singleton in Hin. by subst.
  - intros Hd. destruct Hcases as [[Hok _]|[[_ [? _]]|[_ [_ ?]]]]; [|done|done].
    unfold lres_ok in Hok. rewrite Hd in Hok. by rewrite andb_false_r in Hok.
  - intros Hno Hnw. destruct Hcases as [[? _]|[[_ [_ ?]]|[_ [? _]]]]; [congruence|done|done].
Qed.

(** C31: the bounded search finds a path exactly when one exists: on every
    reachable table it returns true if and only if the target can be reached from
    the start along wait-for edges, so the depth guard cuts off nothing; and when
    an acquisition reports a deadlock, the reported blocker owns the resource and
    already waits, directly or indirectly, for the requester. *)
Theorem deadlock_search_exact ops from target q p :
  let t := foldl run_lock_op LockTable_default ops in
  (HasDeadlockPath (lt_locks t) (lt_waiting t) from target = true <->
   from <> 0 /\ target <> 0 /\ rtc (waits_for (lt_locks t) (lt_waiting t)) from target) /\
  (lres_decision (AcquireInternal t q p).2 = ld_deadlock_detected ->
   exists r, lt_locks t !! lq_resource_key q = Some r /\
     let owner := lres_blocking_transaction (AcquireInternal t q p).2 in
     owner ∈ lk_owners r /\ owner <> lq_requester q /\
     rtc (waits_for (lt_locks t) (lt_waiting t)) owner (lq_requester q)).
Proof.
  cbv zeta. set (t := foldl run_lock_op LockTable_default ops).
  pose proof (run_lock_ops_ok LockTable_default ops default_table_ok) as Ht.
  assert (Hv : map_Forall (fun _ r => 0 ∉ lk_owners r) (lt_locks t)).
  { intros key r Hr. apply (to_locks _ Ht key r Hr). }
  split; [by apply deadlock_path_exact|]. intros Hd.
  destruct (acquire_deadlock t q p Ht Hd) as (r & Hr & Hin & Hne & Hp).
  exists r. split_and!; try done. by apply deadlock_path_exact in Hp as (_ & _ & ?).
Qed.

(** Releasing everything leaves the transaction with no lock and no wait,
    keeps every other transaction's locks, and reports how many locks it held. *)
Theorem release_all_complete ops id :
  let t := foldl run_lock_op LockTable_default ops in
  let t' := (ReleaseAll t id).1 in
  (forall key r, lt_locks t' !! key = Some r -> id ∉ lk_owners r) /\
  lt_waiting t' !! id = None /\ others_kept id (lt_locks t) (lt_locks t') /\
  (ReleaseAll t id).2 = N.of_nat (size (filter (fun p => id ∈ lk_owners p.2) (lt_locks t))).
Proof.
  cbv zeta. set (t := foldl run_lock_op LockTable_default ops).
  pose proof (run_lock_ops_ok LockTable_default ops default_table_ok) as [Hl _]. fold t in Hl.
  split_and!; simpl.
  - intros key r' (r & Hrel & Hr)%lookup_omap_Some Hin.
    destruct (release_record_spec id r (Hl key r Hr)) as [Hs _].
    destruct (Hs r' Hrel) as [_ Hx]. apply Hx in Hin. tauto.
  - apply lookup_delete_eq.
  - intros key x Hx. setoid_rewrite lookup_omap_Some. split.
    + intros (r & Hr & Hin). destruct (release_record_spec id r (Hl key r Hr)) as [Hs Hn].
      destruct (release_record id r) as [r'|] eqn:Hrel; [|by destruct (Hx (Hn eq_refl x Hin))].
      exists r'. split; [eauto|]. apply (proj2 (Hs r' eq_refl)). done.
    + intros (r' & (r & Hrel & Hr) & Hin). exists r. split; [done|].
      destruct (release_record_spec id r (Hl key r Hr)) as [Hs _]. by apply (proj2 (Hs r' Hrel)) in Hin as [? _].
  - do 2 f_equal. apply map_filter_ext. intros k r _. simpl. by rewrite owns_true.
Qed.

(** ** Two behaviours of waiting, on concrete tables *)

Definition sample_wait : TransactionWaitPolicy := mkWaitPolicy 100 false 0 0.
Definition sample_request (id : N) (key : string) (mode : TransactionLockMode) : TransactionLockRequest :=
  mkLockRequest id key mode sample_wait true.

(** Transactions 1 and 2 share [a], 3 owns [b] and 2 waits for it; 3 then asks
    for [a] exclusively.  Only the first blocker, 1, is examined: the request is
    queued although 2 and 3 now wait for each other. *)
Lemma second_blocker_not_examined :
  let t := foldl run_lock_op LockTable_default
    [lop_acquire (sample_request 1 "a" lm_shared); lop_acquire (sample_request 2 "a" lm_shared);
     lop_acquire (sample_request 3 "b" lm_exclusive); lop_acquire (sample_request 2 "b" lm_exclusive)] in
  let '(t', r) := Acquire t (sample_request 3 "a" lm_exclusive) in
  lres_decision r = ld_wait_required /\ HasDeadlockPath (lt_locks t') (lt_waiting t') 2 3 = true /\
  HasDeadlockPath (lt_locks t') (lt_waiting t') 3 2 = true.
Proof. vm_compute. done. Qed.

(** The holder releases [a] while 2 waits for it; a third transaction that asks
    afterwards is granted the lock before the waiter. *)
Lemma released_lock_skips_waiters :
  let t := foldl run_lock_op LockTable_default
    [lop_acquire (sample_request 1 "a" lm_exclusive); lop_acquire (sample_request 2 "a" lm_exclusive);
     lop_release 1 "a"] in
  waiting_lock_count t = 1 /\
  lres_decision (Acquire t (sample_request 3 "a" lm_exclusive)).2 = ld_granted.
Proof. vm_compute. done. Qed.
