(* ===== verification/LockLifecycleClaims.v ===== *)
(** * Correctness of the lock and wait lifecycle

    Blocking as a property of the grant map, the invariant of the state, what
    draining does, and its measure; then the claims. *)

From S2P Require Import Prelude Platform LockLifecycle.

(** ** Blocking grants *)

Lemma blocking_grants_nil grants r key :
  BlockingGrants grants r key = [] <-> forall id g, grants !! id = Some g -> blocks r key g = false.
Proof.
  unfold BlockingGrants, string_sort. split.
  - intros H id g Hg. apply not_true_is_false. intros Hb.
    assert (mg_grant_id (gr_grant g) ∈ ([] : list string)) as Hin; [|by apply not_elem_of_nil in Hin].
    rewrite <- H, merge_sort_Permutation. apply list_elem_of_fmap. exists (id, g). split; [done|].
    apply list_elem_of_filter. split; [done|]. by apply elem_of_map_in_order.
  - intros H. apply Permutation_nil_r. rewrite merge_sort_Permutation.
    replace (filter _ _) with (@nil (string * GrantRecord)); [done|]. symmetry.
    destruct (filter _ _) as [|[id g] l] eqn:Hf; [done|]. exfalso.
    assert ((id, g) ∈ (id, g) :: l) as Hin by apply list_elem_of_here. rewrite <- Hf in Hin.
    apply list_elem_of_filter in Hin as [Hb Hin]. apply elem_of_map_in_order in Hin.
    cbn [snd] in Hb. by rewrite (H id g Hin) in Hb.
Qed.

Lemma compatible_sym a b : MGALockModesCompatible a b = MGALockModesCompatible b a.
Proof. destruct a, b; vm_compute; reflexivity. Qed.

(** ** Grant identifiers *)

Lemma string_app_inj_length (a a' b b' : string) :
  String.length a = String.length a' -> (a +:+ b)%string = (a' +:+ b')%string -> a = a' /\ b = b'.
Proof.
  revert a'. induction a as [|c a IH]; intros [|c' a'] Hl H; try done.
  injection H as -> H. simpl in Hl. destruct (IH a' ltac:(lia) H) as [-> ->]. done.
Qed.

Lemma grant_id_inj r r' g g' :
  String.length r = String.length r' -> MakeGrantId r g = MakeGrantId r' g' -> g = g'.
Proof.
  intros Hl H. unfold MakeGrantId in H. apply (inj (String.app "grant:")) in H.
  apply string_app_inj_length in H as [_ H]; [|done]. apply (inj (String.app ":")) in H. by apply to_string_inj.
Qed.

(** ** The invariant *)

(** A grant record describes the request it was made for. *)
Record grant_ok (generation : N) (id : string) (g : GrantRecord) : Prop := {
  go_id : id = MakeGrantId (mq_request_id (gr_request g)) (mg_grant_generation (gr_grant g));
  go_grant_id : mg_grant_id (gr_grant g) = id;
  go_generation : mg_grant_generation (gr_grant g) <= generation;
  go_length : String.length (mq_request_id (gr_request g)) = 36%nat;
  go_key : gr_resource_key g = ResourceKey (gr_request g);
  go_owner : mg_owner_uuid (gr_grant g) = mq_owner_uuid (gr_request g);
  go_owner_kind : mg_owner_kind (gr_grant g) = mq_owner_kind (gr_request g);
  go_mode : mg_granted_mode (gr_grant g) = mq_mode (gr_request g) }.

Record wait_ok (id : string) (w : WaitRecord) : Prop := {
  wo_id : mw_wait_id (wtr_wait w) = id;
  wo_length : String.length (mq_request_id (wtr_request w)) = 36%nat;
  wo_key : wtr_resource_key w = ResourceKey (wtr_request w);
  wo_owner : mw_owner_uuid (wtr_wait w) = mq_owner_uuid (wtr_request w) }.

(** Two grants that may be held together. *)
Definition coexist (g1 g2 : GrantRecord) : Prop :=
  gr_resource_key g1 = gr_resource_key g2 -> SameOwner (gr_request g1) (gr_grant g2) = false ->
  MGALockModesCompatible (mg_granted_mode (gr_grant g1)) (mg_granted_mode (gr_grant g2)) = true.

Record lifecycle_ok (s : MGALockWaitLifecycle) : Prop := {
  lo_grants : forall id g, lf_grants s !! id = Some g -> grant_ok (lf_generation s) id g;
  lo_waits : forall id w, lf_waits s !! id = Some w -> wait_ok id w;
  lo_queue : forall id, id ∈ lf_wait_order s <-> is_Some (lf_waits s !! id);
  lo_exclusion : forall id1 id2 g1 g2, lf_grants s !! id1 = Some g1 -> lf_grants s !! id2 = Some g2 ->
    coexist g1 g2 }.

Lemma same_owner_sym gen id1 id2 g1 g2 :
  grant_ok gen id1 g1 -> grant_ok gen id2 g2 ->
  SameOwner (gr_request g1) (gr_grant g2) = SameOwner (gr_request g2) (gr_grant g1).
Proof.
  intros [] []. unfold SameOwner. rewrite go_owner0, go_owner1, go_owner_kind0, go_owner_kind1.
  f_equal; apply bool_decide_ext; split; congruence.
Qed.

Lemma default_lifecycle_ok : lifecycle_ok MGALockWaitLifecycle_default.
Proof.
  split; simpl; intros *; rewrite ?lookup_empty; try done.
  split; [intros H; by apply not_elem_of_nil in H|intros H; by destruct (is_Some_None H)].
Qed.

(** ** Elementary updates *)

Lemma count_ok m s : lifecycle_ok s -> lifecycle_ok (count m s).
Proof. by intros []. Qed.

Lemma push_deadlock_ok r s : lifecycle_ok s -> lifecycle_ok (push_deadlock r s).
Proof. by intros []. Qed.

Lemma erase_wait_ok id s : lifecycle_ok s -> lifecycle_ok (erase_wait id s).
Proof.
  intros []. split; simpl; try done.
  - intros id' w. rewrite lookup_delete_Some. intros [_ H]. by apply lo_waits0.
  - intros id'. unfold RemoveWaitOrder. rewrite list_elem_of_filter, lo_queue0. split.
    + intros [Hne H]. by rewrite lookup_delete_ne.
    + intros [w H]. apply lookup_delete_Some in H as [Hne H]. split; [done|by exists w].
Qed.

Lemma erase_waits_ok ids s : lifecycle_ok s -> lifecycle_ok (erase_waits ids s).
Proof. revert s. induction ids as [|id ids IH]; intros s H; [done|]. by apply IH, erase_wait_ok. Qed.

Lemma set_grants_subset_ok grants s :
  grants ⊆ lf_grants s -> lifecycle_ok s -> lifecycle_ok (set_grants grants s).
Proof.
  intros Hsub []. split; simpl; try done.
  - intros id g H. apply lo_grants0. by eapply lookup_weaken.
  - intros id1 id2 g1 g2 H1 H2. eapply lo_exclusion0; by eapply lookup_weaken.
Qed.

(** Rewriting the record of a wait without touching what the invariant reads. *)
Definition same_wait (w w' : WaitRecord) : Prop :=
  mw_wait_id (wtr_wait w) = mw_wait_id (wtr_wait w') /\ wtr_request w = wtr_request w' /\
  wtr_resource_key w = wtr_resource_key w' /\ mw_owner_uuid (wtr_wait w) = mw_owner_uuid (wtr_wait w').

Lemma rewrite_wait_ok id w w' s :
  lifecycle_ok s -> lf_waits s !! id = Some w -> same_wait w w' ->
  lifecycle_ok (set_waits (<[id := w']> (lf_waits s)) (lf_wait_order s) s).
Proof.
  intros [] Hw (E1 & E2 & E3 & E4). split; simpl; try done.
  - intros id' v. destruct (decide (id = id')) as [<-|Hne].
    + rewrite lookup_insert_eq. intros [= <-]. destruct (lo_waits0 _ _ Hw). split; congruence.
    + rewrite lookup_insert_ne by done. apply lo_waits0.
  - intros id'. rewrite lo_queue0. destruct (decide (id = id')) as [<-|Hne].
    + rewrite lookup_insert_eq. split; [by eexists|by rewrite Hw].
    + by rewrite lookup_insert_ne.
Qed.

(** ** Granting *)

Section grant.
Context (request : MGALockRequest) (now : N) (s : MGALockWaitLifecycle).
Let key := ResourceKey request.
Let s' := snd (add_grant request key now s).
Let grant := fst (add_grant request key now s).

(** The generation counter has not reached its largest value. *)
Hypothesis Hgen : lf_generation s + 1 < u64_modulus.
Hypothesis Hlen : String.length (mq_request_id request) = 36%nat.
Hypothesis Hok : lifecycle_ok s.
Hypothesis Hfree : BlockingGrants (lf_grants s) request key = [].

Lemma next_generation : u64_add (lf_generation s) 1 = lf_generation s + 1.
Proof. by apply u64_add_small. Qed.

Lemma new_grant_fresh : lf_grants s !! mg_grant_id grant = None.
Proof.
  destruct (lf_grants s !! mg_grant_id grant) as [g|] eqn:Hg; [exfalso|done].
  destruct (lo_grants _ Hok _ _ Hg). unfold grant, add_grant in go_id0. simpl in go_id0.
  apply grant_id_inj in go_id0; [|congruence]. rewrite next_generation in go_id0. lia.
Qed.

Lemma add_grant_lookup : lf_grants s' = <[mg_grant_id grant := mkGrantRecord grant request key]> (lf_grants s).
Proof.
  unfold s', add_grant. simpl. unfold emplace. pose proof new_grant_fresh as Hf.
  unfold grant, add_grant in Hf. simpl in Hf. by rewrite Hf.
Qed.

Lemma add_grant_ok : lifecycle_ok s'.
Proof.
  pose proof new_grant_fresh as Hf.
  assert (grant_ok (lf_generation s') (mg_grant_id grant) (mkGrantRecord grant request key)) as Hnew by by split.
  assert (forall id g, lf_grants s !! id = Some g -> grant_ok (lf_generation s') id g) as Hold.
  { intros id g H. destruct (lo_grants _ Hok _ _ H). split; try done. unfold s', add_grant. simpl.
    rewrite next_generation. lia. }
  assert (forall id g, lf_grants s !! id = Some g -> coexist (mkGrantRecord grant request key) g) as Hco.
  { intros id g H. unfold coexist. simpl. intros Hk Ho.
    rewrite blocking_grants_nil in Hfree. specialize (Hfree id g H). unfold blocks in Hfree.
    rewrite <- Hk, bool_decide_eq_true_2, Ho in Hfree by done. simpl in Hfree. by apply negb_false_iff in Hfree. }
  split.
  - intros id g. rewrite add_grant_lookup. intros [[<- <-]|[_ H]]%lookup_insert_Some; [done|by apply Hold].
  - apply Hok.
  - apply Hok.
  - intros id1 id2 g1 g2. rewrite add_grant_lookup.
    intros [[<- <-]|[_ H1]]%lookup_insert_Some [[<- <-]|[_ H2]]%lookup_insert_Some.
    + intros _ Ho. exfalso. unfold SameOwner in Ho. simpl in Ho. by rewrite !bool_decide_eq_true_2 in Ho.
    + by eapply Hco.
    + intros Hk Ho. rewrite compatible_sym. eapply Hco; [done|done|].
      by rewrite <- (same_owner_sym _ _ _ _ _ (Hold _ _ H1) Hnew).
    + by apply (lo_exclusion _ Hok id1 id2).
Qed.
End grant.

(** ** One pass over the queue *)

(** Only blocker lists differ. *)
Record similar (s s' : MGALockWaitLifecycle) : Prop := {
  si_grants : lf_grants s' = lf_grants s;
  si_order : lf_wait_order s' = lf_wait_order s;
  si_generation : lf_generation s' = lf_generation s;
  si_waits : forall id, option_Forall2 same_wait (lf_waits s !! id) (lf_waits s' !! id) }.

Lemma same_wait_refl w : same_wait w w.
Proof. done. Qed.

Lemma similar_refl s : similar s s.
Proof. split; try done. intros id. destruct (lf_waits s !! id); constructor. apply same_wait_refl. Qed.

Lemma similar_trans s1 s2 s3 : similar s1 s2 -> similar s2 s3 -> similar s1 s3.
Proof.
  intros [] []. split; try congruence. intros id. specialize (si_waits0 id). specialize (si_waits1 id).
  destruct si_waits0 as [w1 w2 (?&?&?&?)|]; inversion si_waits1 as [? w3 (?&?&?&?)|]; subst; constructor.
  split_and!; congruence.
Qed.

Lemma similar_lookup s s' id w :
  similar s s' -> lf_waits s !! id = Some w -> exists w', lf_waits s' !! id = Some w' /\ same_wait w w'.
Proof.
  intros Hs Hw. pose proof (si_waits _ _ Hs id) as Hx. rewrite Hw in Hx.
  destruct (lf_waits s' !! id) as [w'|]; inversion Hx; subst. by exists w'.
Qed.

Lemma similar_lookup_r s s' id w' :
  similar s s' -> lf_waits s' !! id = Some w' -> exists w, lf_waits s !! id = Some w /\ same_wait w w'.
Proof.
  intros Hs Hw. pose proof (si_waits _ _ Hs id) as Hx. rewrite Hw in Hx.
  destruct (lf_waits s !! id) as [w|]; inversion Hx; subst. by exists w.
Qed.

Lemma similar_rewrite id w w' s :
  lf_waits s !! id = Some w -> same_wait w w' ->
  similar s (set_waits (<[id := w']> (lf_waits s)) (lf_wait_order s) s).
Proof.
  intros Hw Hs. split; simpl; try done. intros id'. destruct (decide (id = id')) as [<-|Hne].
  - rewrite Hw, lookup_insert_eq. by constructor.
  - rewrite lookup_insert_ne by done. destruct (lf_waits s !! id'); constructor. apply same_wait_refl.
Qed.

Lemma earlier_similar order waits waits' w w' :
  (forall id, option_Forall2 same_wait (waits !! id) (waits' !! id)) -> same_wait w w' ->
  HasEarlierWaitForResource order waits w = HasEarlierWaitForResource order waits' w'.
Proof.
  intros Hs (E1 & E2 & E3 & E4). induction order as [|id order IH]; simpl; [done|]. rewrite E1.
  destruct (decide (id = _)); [done|]. specialize (Hs id).
  destruct Hs as [v v' (_ & _ & Ek & _)|]; [|done]. rewrite Ek, E3. by destruct (decide _).
Qed.

(** A wait that a pass leaves alone. *)
Definition held_back (s : MGALockWaitLifecycle) (w : WaitRecord) : Prop :=
  HasEarlierWaitForResource (lf_wait_order s) (lf_waits s) w = true \/
  BlockingGrants (lf_grants s) (wtr_request w) (wtr_resource_key w) <> [].

Lemma held_back_similar s s' w w' : similar s s' -> same_wait w w' -> held_back s w -> held_back s' w'.
Proof.
  intros [] Hw [H|H]; [left|right].
  - rewrite si_order0. by rewrite <- (earlier_similar _ _ _ _ _ si_waits0 Hw).
  - destruct Hw as (_ & <- & <- & _). by rewrite si_grants0.
Qed.

(** What a pass does: nothing but refresh blocker lists, or grant one wait. *)
Definition pass_result (order : list string) (now : N) (s s' : MGALockWaitLifecycle)
    (granted : option MGALockGrant) : Prop :=
  match granted with
  | None => similar s s' /\
      forall id w, id ∈ order -> lf_waits s !! id = Some w -> held_back s w
  | Some _ => exists id w s0, id ∈ order /\ similar s s0 /\ lf_waits s0 !! id = Some w /\
      HasEarlierWaitForResource (lf_wait_order s) (lf_waits s) w = false /\
      BlockingGrants (lf_grants s) (wtr_request w) (wtr_resource_key w) = [] /\
      s' = erase_wait id (snd (add_grant (wtr_request w) (wtr_resource_key w) now s0))
  end.

Lemma pass_result_skip id order now s s' granted :
  (forall w, lf_waits s !! id = Some w -> held_back s w) ->
  pass_result order now s s' granted -> pass_result (id :: order) now s s' granted.
Proof.
  intros Hid. destruct granted; simpl.
  - intros (i & w & s0 & Hi & ?). exists i, w, s0. split; [by apply list_elem_of_further|done].
  - intros [Hs Hall]. split; [done|]. intros i w [->|Hi]%elem_of_cons; [apply Hid|by apply Hall].
Qed.

Lemma pass_result_refresh s0 order now s s' granted :
  similar s s0 -> pass_result order now s0 s' granted -> pass_result order now s s' granted.
Proof.
  intros Hs. destruct granted; simpl.
  - intros (i & w & s1 & Hi & H1 & Hw & He & Hb & Heq). exists i, w, s1. split_and!; try done.
    + by eapply similar_trans.
    + rewrite (si_order _ _ Hs) in He.
      erewrite (earlier_similar _ (lf_waits s) (lf_waits s0)); [exact He|apply Hs|apply same_wait_refl].
    + by rewrite (si_grants _ _ Hs) in Hb.
  - intros [H1 Hall]. split; [by eapply similar_trans|]. intros i w Hi Hw.
    destruct (similar_lookup _ _ _ _ Hs Hw) as (w' & E & Hsw).
    specialize (Hall i w' Hi E). pose proof Hsw as (A & B & C & D). destruct Hall as [H|H]; [left|right].
    + rewrite (si_order _ _ Hs) in H.
      by rewrite (earlier_similar _ (lf_waits s) (lf_waits s0) w w') by (try apply Hs; done).
    + rewrite (si_grants _ _ Hs) in H. by rewrite B, C.
Qed.

Lemma drain_pass_result order now s :
  let r := drain_pass order now s in pass_result order now s (fst r) (snd r).
Proof.
  revert s. induction order as [|id order IH]; intros s; cbn [drain_pass].
  - simpl. split; [apply similar_refl|]. intros i w Hi. by apply not_elem_of_nil in Hi.
  - destruct (lf_waits s !! id) as [w|] eqn:Hw.
    2:{ apply pass_result_skip; [|apply IH]. intros w Hw'. congruence. }
    destruct (HasEarlierWaitForResource _ _ w) eqn:He.
    { apply pass_result_skip; [|apply IH]. intros w' Hw'. simplify_eq. by left. }
    destruct (decide (BlockingGrants _ _ _ <> [])) as [Hb|Hb]; cbv zeta.
    + apply pass_result_skip.
      { intros w' Hw'. simplify_eq. by right. }
      eapply pass_result_refresh; [|apply IH]. by apply (similar_rewrite _ w).
    + apply dec_stable in Hb. destruct (add_grant _ _ _ _) as [g s1] eqn:Hg. cbn [fst snd pass_result].
      exists id, w, s. split_and!; try done; [apply list_elem_of_here|apply similar_refl|]. by rewrite Hg.
Qed.

(** ** Passes keep the invariant and consume the queue *)

Lemma similar_ok s s' : similar s s' -> lifecycle_ok s -> lifecycle_ok s'.
Proof.
  intros Hs []. pose proof Hs as [Hg Ho Hn Hw]. split; rewrite ?Hg, ?Ho, ?Hn; try done.
  - intros id w' H. destruct (similar_lookup_r _ _ _ _ Hs H) as (w & E & E1 & E2 & E3 & E4).
    destruct (lo_waits0 id w E). split; congruence.
  - intros id. rewrite lo_queue0. specialize (Hw id).
    destruct Hw as [w w' _|]; [split; intros _; by eexists|done].
Qed.

Lemma remove_wait_shorter id order : id ∈ order -> (length (RemoveWaitOrder order id) < length order)%nat.
Proof.
  intros H. unfold RemoveWaitOrder. apply list_elem_of_split in H as (l1 & l2 & ->).
  rewrite filter_app, filter_cons_False, !length_app by (intros X; by apply X). simpl.
  pose proof (length_filter (fun x => x <> id) l1). pose proof (length_filter (fun x => x <> id) l2). lia.
Qed.

(** The grants still to come are bounded by the queue. *)
Definition room (s : MGALockWaitLifecycle) : Prop :=
  lf_generation s + N.of_nat (length (lf_wait_order s)) < u64_modulus.

Lemma grant_pass_ok order now s s' g :
  (forall id, id ∈ order -> id ∈ lf_wait_order s) -> lifecycle_ok s -> room s ->
  pass_result order now s s' (Some g) ->
  lifecycle_ok s' /\ (length (lf_wait_order s') < length (lf_wait_order s))%nat /\
  lf_generation s' = lf_generation s + 1 /\ size (lf_grants s') = S (size (lf_grants s)) /\
  exists id w, lf_waits s !! id = Some w /\ lf_waits s' !! id = None /\
    (exists gid gr, lf_grants s' = <[gid := gr]> (lf_grants s) /\ lf_grants s !! gid = None /\
       gr_request gr = wtr_request w) /\
    (forall id', id' <> id -> option_Forall2 same_wait (lf_waits s !! id') (lf_waits s' !! id')).
Proof.
  intros Hin Hok Hroom (id & w & s0 & Hid & Hs & Hw & _ & Hb & ->). simpl.
  pose proof (similar_ok _ _ Hs Hok) as Hok0. pose proof Hs as [Sg So Sn Sw].
  destruct (lo_waits _ Hok0 _ _ Hw) as [W1 W2 W3 W4]. rewrite W3 in *. rewrite <- Sg in Hb.
  specialize (Hin id Hid). assert (length (lf_wait_order s) <> 0)%nat as Hne by (destruct (lf_wait_order s); [by apply not_elem_of_nil in Hin|done]).
  assert (lf_generation s0 + 1 < u64_modulus) as Hgen by (rewrite Sn; unfold room in Hroom; lia).
  pose proof (new_grant_fresh (wtr_request w) now s0 Hgen W2 Hok0) as Hfresh.
  pose proof (add_grant_lookup (wtr_request w) now s0 Hgen W2 Hok0) as Hlook. simpl in Hlook, Hfresh.
  split_and!.
  - apply erase_wait_ok. by apply (add_grant_ok (wtr_request w) now s0).
  - rewrite So. by apply remove_wait_shorter.
  - rewrite (next_generation s0 Hgen), Sn. done.
  - rewrite Hlook, map_size_insert_None by done. by rewrite Sg.
  - destruct (similar_lookup_r _ _ _ _ Hs Hw) as (w0 & E & E1 & E2 & E3 & E4).
    exists id, w0. split_and!; [done|apply lookup_delete_eq| |].
    + rewrite Hlook, Sg. do 2 eexists. split; [done|]. rewrite <- Sg. split; [done|]. simpl. done.
    + intros id' Hd. rewrite lookup_delete_ne by done. apply Sw.
Qed.

(** ** Draining to the end *)

Definition load (s : MGALockWaitLifecycle) : N := lf_generation s + N.of_nat (length (lf_wait_order s)).

(** Each grant costs a queue entry and adds one grant. *)
Definition potential (s : MGALockWaitLifecycle) : nat :=
  (2 * length (lf_wait_order s) + size (lf_grants s))%nat.

Definition still_queued (s : MGALockWaitLifecycle) (id : string) (w : WaitRecord) : Prop :=
  exists w', lf_waits s !! id = Some w' /\ same_wait w w'.

Definition granted_request (s : MGALockWaitLifecycle) (r : MGALockRequest) : Prop :=
  exists gid g, lf_grants s !! gid = Some g /\ gr_request g = r.

(** What draining may do to a state. *)
Record advances (s s' : MGALockWaitLifecycle) : Prop := {
  ad_ok : lifecycle_ok s';
  ad_load : load s' <= load s;
  ad_potential : (potential s' <= potential s)%nat;
  ad_grants : lf_grants s ⊆ lf_grants s';
  ad_served : forall id w, lf_waits s !! id = Some w ->
    still_queued s' id w \/ granted_request s' (wtr_request w) }.

Definition drained (s : MGALockWaitLifecycle) : Prop :=
  forall id w, lf_waits s !! id = Some w -> held_back s w.

Lemma same_wait_trans w1 w2 w3 : same_wait w1 w2 -> same_wait w2 w3 -> same_wait w1 w3.
Proof. intros (?&?&?&?) (?&?&?&?). split_and!; congruence. Qed.

Lemma advances_trans s1 s2 s3 : advances s1 s2 -> advances s2 s3 -> advances s1 s3.
Proof.
  intros [] []. split; [done|by etrans|by etrans|by etrans|]. intros id w Hw.
  destruct (ad_served0 id w Hw) as [(w' & Hw' & E)|(gid & g & Hg & <-)].
  - destruct (ad_served1 id w' Hw') as [(w'' & ? & ?)|H].
    + left. exists w''. split; [done|by eapply same_wait_trans].
    + right. by destruct E as (_ & -> & _).
  - right. exists gid, g. split; [|done]. by eapply lookup_weaken.
Qed.

Lemma similar_advances s s' : lifecycle_ok s -> similar s s' -> advances s s'.
Proof.
  intros Hok Hs. pose proof Hs as [Hg Ho Hn _]. split.
  - by eapply similar_ok.
  - unfold load. by rewrite Ho, Hn.
  - unfold potential. by rewrite Ho, Hg.
  - by rewrite Hg.
  - intros id w Hw. left. by apply (similar_lookup s).
Qed.

Lemma grant_pass_advances now s s' g :
  lifecycle_ok s -> room s -> pass_result (lf_wait_order s) now s s' (Some g) ->
  advances s s' /\ (length (lf_wait_order s') < length (lf_wait_order s))%nat.
Proof.
  intros Hok Hroom Hp.
  destruct (grant_pass_ok (lf_wait_order s) now s s' g) as (Hok' & Hlen & Hgen & Hsize & id & w & Hw & Hw' & (gid & gr & Hg & Hf & Hr) & Hrest);
    try done.
  split; [|done]. split.
  - done.
  - unfold load. rewrite Hgen. lia.
  - unfold potential. rewrite Hsize. lia.
  - rewrite Hg. by apply insert_subseteq.
  - intros i v Hv. destruct (decide (i = id)) as [->|Hne].
    + right. simplify_eq. exists gid, gr. rewrite Hg, lookup_insert_eq. done.
    + left. specialize (Hrest i Hne). rewrite Hv in Hrest. unfold still_queued.
      destruct (lf_waits s' !! i) as [v'|]; inversion Hrest; subst. by exists v'.
Qed.

Lemma similar_drained s s' :
  similar s s' -> (forall id w, lf_waits s !! id = Some w -> held_back s w) -> drained s'.
Proof.
  intros Hs Hall id w' Hw'. destruct (similar_lookup_r _ _ _ _ Hs Hw') as (w & Hw & E).
  by eapply held_back_similar, Hall.
Qed.

Lemma drain_loop_spec fuel now s acc :
  lifecycle_ok s -> room s -> (length (lf_wait_order s) < fuel)%nat ->
  let s' := fst (drain_loop fuel now s acc) in advances s s' /\ drained s'.
Proof.
  revert s acc. induction fuel as [|fuel IH]; intros s acc Hok Hroom Hf; [lia|]. cbn [drain_loop].
  pose proof (drain_pass_result (lf_wait_order s) now s) as Hp. cbv zeta in Hp.
  destruct (drain_pass _ _ _) as [s1 [g|]]; cbn [fst snd] in Hp |- *.
  - destruct (grant_pass_advances now s s1 g Hok Hroom Hp) as [Ha Hl].
    destruct (IH s1 (acc ++ [g])) as [Ha' Hd].
    + apply Ha.
    + eapply N.le_lt_trans; [apply Ha|exact Hroom].
    + lia.
    + split; [by eapply advances_trans|done].
  - destruct Hp as [Hs Hall]. split; [by apply similar_advances|].
    eapply similar_drained; [done|]. intros id w Hw. apply (Hall id w); [|done].
    apply (lo_queue _ Hok). by eexists.
Qed.

Lemma drain_spec now s :
  lifecycle_ok s -> room s ->
  advances s (fst (DrainGrantableWaits now s)) /\ drained (fst (DrainGrantableWaits now s)).
Proof. intros Hok Hroom. apply drain_loop_spec; [done|done|lia]. Qed.

(** The head of a drained queue is blocked by a grant. *)
Lemma drained_progress s :
  lifecycle_ok s -> drained s -> lf_waits s <> ∅ -> lf_grants s <> ∅.
Proof.
  intros Hok Hd Hne. apply map_choose in Hne as (i & v & Hv).
  destruct (lf_wait_order s) as [|id order] eqn:Ho.
  { assert (i ∈ lf_wait_order s) as Hi by (apply (lo_queue _ Hok); by eexists).
    rewrite Ho in Hi. by apply not_elem_of_nil in Hi. }
  assert (is_Some (lf_waits s !! id)) as [w Hw].
  { apply (lo_queue _ Hok). rewrite Ho. apply list_elem_of_here. }
  destruct (Hd id w Hw) as [H|H].
  - rewrite Ho in H. cbn [HasEarlierWaitForResource] in H.
    by rewrite decide_True in H by (symmetry; apply (lo_waits _ Hok _ _ Hw)).
  - intros He. apply H. apply blocking_grants_nil. intros gid g. by rewrite He, lookup_empty.
Qed.

(** ** The operations *)

Inductive lifecycle_op :=
| op_acquire (r : MGALockRequest) (now : N)
| op_release_grant (grant_id : string) (now : N)
| op_release_owner (owner_uuid : string) (now : N)
| op_cancel_wait (wait_id : string)
| op_disconnect (owner_uuid : string) (now : N)
| op_timeouts (now : N)
| op_detect
| op_shutdown.

Definition lifecycle_step (s : MGALockWaitLifecycle) (op : lifecycle_op) : MGALockWaitLifecycle :=
  match op with
  | op_acquire r now => snd (lifecycle_Acquire r now s)
  | op_release_grant id now => snd (lifecycle_ReleaseGrant id now s)
  | op_release_owner owner now => snd (lifecycle_ReleaseOwner owner now s)
  | op_cancel_wait id => snd (lifecycle_CancelWait id s)
  | op_disconnect owner now => snd (lifecycle_DisconnectOwner owner now s)
  | op_timeouts now => snd (lifecycle_ProcessTimeouts now s)
  | op_detect => snd (lifecycle_DetectAndResolveDeadlock s)
  | op_shutdown => snd (lifecycle_Shutdown s)
  end.

(** The state after a history of calls. *)
Definition lifecycle_run (ops : list lifecycle_op) : MGALockWaitLifecycle :=
  foldl lifecycle_step MGALockWaitLifecycle_default ops.

(** A state no larger than [s] that keeps the invariant. *)
Definition shrinks (s s' : MGALockWaitLifecycle) : Prop := lifecycle_ok s' /\ load s' <= load s.

Lemma shrinks_refl s : lifecycle_ok s -> shrinks s s.
Proof. done. Qed.

Lemma shrinks_trans s1 s2 s3 : shrinks s1 s2 -> shrinks s2 s3 -> shrinks s1 s3.
Proof. intros [] []. split; [done|by etrans]. Qed.

Lemma shrinks_drain now s s' :
  room s -> shrinks s s' -> shrinks s (fst (DrainGrantableWaits now s')).
Proof.
  intros Hroom [Hok Hl]. destruct (drain_spec now s' Hok) as [[] _].
  { by eapply N.le_lt_trans. }
  split; [done|by etrans].
Qed.

Lemma erase_wait_shrinks id s : lifecycle_ok s -> shrinks s (erase_wait id s).
Proof.
  intros Hok. split; [by apply erase_wait_ok|]. unfold load. simpl. unfold RemoveWaitOrder.
  pose proof (length_filter (fun x => x <> id) (lf_wait_order s)). lia.
Qed.

Lemma count_shrinks m s : lifecycle_ok s -> shrinks s (count m s).
Proof. intros Hok. split; [by apply count_ok|done]. Qed.

Lemma foldl_shrinks {A} (f : MGALockWaitLifecycle -> A -> MGALockWaitLifecycle) l s :
  (forall s a, lifecycle_ok s -> shrinks s (f s a)) -> lifecycle_ok s -> shrinks s (foldl f s l).
Proof.
  intros Hf. revert s. induction l as [|a l IH]; intros s Hok; [done|]. simpl.
  eapply shrinks_trans; [by apply Hf|]. apply IH. by apply Hf.
Qed.

Lemma erase_waits_shrinks ids s : lifecycle_ok s -> shrinks s (erase_waits ids s).
Proof. apply foldl_shrinks. intros s' id. apply erase_wait_shrinks. Qed.

Lemma set_grants_shrinks grants s : grants ⊆ lf_grants s -> lifecycle_ok s -> shrinks s (set_grants grants s).
Proof. intros Hs Hok. split; [by apply set_grants_subset_ok|done]. Qed.

(** ** Deadlock victims *)

(** A fold that keeps its best choice or takes the element at hand. *)
Lemma foldl_choice {A B} (f : option B -> A -> option B) (P : A -> B -> Prop) l best b :
  (forall best a b, f best a = Some b -> best = Some b \/ P a b) -> foldl f best l = Some b ->
  best = Some b \/ exists a, a ∈ l /\ P a b.
Proof.
  intros Hf. revert best. induction l as [|a l IH]; intros best H; [by left|].
  apply IH in H as [H|(a' & Ha & HP)].
  - apply Hf in H as [H|H]; [by left|]. right. exists a. split; [apply list_elem_of_here|done].
  - right. exists a'. split; [by apply list_elem_of_further|done].
Qed.

Lemma wait_for_owner_spec waits owner w :
  WaitForOwner waits owner = Some w -> exists id, waits !! id = Some w /\ mw_owner_uuid (wtr_wait w) = owner.
Proof.
  intros H. apply (foldl_choice _ (fun p v => v = p.2 /\ mw_owner_uuid (wtr_wait v) = owner)) in H.
  - destruct H as [H|([id v] & Hin & -> & Ho)]; [done|]. exists id. split; [|done]. by apply elem_of_map_in_order.
  - intros best p b. case_decide as Ho; [by left|].
    destruct best as [b'|]; [case_decide|]; intros [= <-]; (by left) || by right.
Qed.

Lemma detect_shrinks s : lifecycle_ok s -> shrinks s (snd (lifecycle_DetectAndResolveDeadlock s)).
Proof.
  intros Hok. unfold lifecycle_DetectAndResolveDeadlock.
  destruct (FindFirstCycle _) as [|front rest]; [done|]. cbv zeta.
  destruct (CycleContainsDistributedWait _ _); [by apply count_shrinks|].
  destruct (WaitForOwner _ _) as [w|]; [|by apply count_shrinks]. cbn [snd].
  eapply shrinks_trans; [by apply (count_shrinks one_deadlock)|].
  eapply shrinks_trans; [by apply (erase_wait_shrinks (mw_wait_id (wtr_wait w))), count_ok|].
  split; [|done]. apply push_deadlock_ok, count_ok, erase_wait_ok. by apply count_ok.
Qed.

(** A queued wait outlives deadlock resolution unless its owner is the victim. *)
Lemma detect_keeps s id w :
  lifecycle_ok s -> lf_waits s !! id = Some w ->
  let r := lifecycle_DetectAndResolveDeadlock s in
  lf_waits (snd r) !! id = Some w \/
  lcr_decision (fst r) = lc_deadlock_victim /\ lcr_victim_owner_uuid (fst r) = mw_owner_uuid (wtr_wait w).
Proof.
  intros Hok Hw. unfold lifecycle_DetectAndResolveDeadlock.
  destruct (FindFirstCycle _) as [|front rest]; [by left|]. cbv zeta.
  destruct (CycleContainsDistributedWait _ _); [by left|].
  destruct (WaitForOwner _ _) as [v|] eqn:Hv; [|by left]. cbn [snd fst].
  apply wait_for_owner_spec in Hv as (i & Hi & Ho). simpl in Hi.
  rewrite (wo_id _ _ (lo_waits _ Hok _ _ Hi)). cbn [lf_waits push_deadlock count erase_wait set_waits].
  destruct (decide (i = id)) as [->|Hne].
  - right. simplify_eq. split; [done|]. simpl in Ho. simpl. by symmetry.
  - left. by rewrite lookup_delete_ne.
Qed.

(** ** Acquiring *)

Lemma valid_request_length r : ValidateRequestShape r = None -> String.length (mq_request_id r) = 36%nat.
Proof.
  unfold ValidateRequestShape. destruct (LooksLikeUuidV7Text _) eqn:H; [|done]. intros _.
  unfold LooksLikeUuidV7Text, LooksLikeUuidText in H. apply andb_true_iff in H as [H _].
  apply andb_true_iff in H as [H _]. by apply bool_decide_eq_true in H.
Qed.

(** At most one queue entry or generation more. *)
Definition grows (s s' : MGALockWaitLifecycle) : Prop := lifecycle_ok s' /\ load s' <= load s + 1.

Lemma shrinks_grows s s' : shrinks s s' -> grows s s'.
Proof. intros []. split; [done|lia]. Qed.

Lemma grows_shrinks s1 s2 s3 : grows s1 s2 -> shrinks s2 s3 -> grows s1 s3.
Proof. intros [] []. split; [done|]. by etrans. Qed.

Lemma queue_wait_grows r blockers now s :
  String.length (mq_request_id r) = 36%nat -> lifecycle_ok s ->
  grows s (snd (queue_wait r (ResourceKey r) blockers now s)).
Proof.
  intros Hlen []. split.
  - split; simpl; try done.
    + intros id w. rewrite lookup_insert_Some. intros [[<- <-]|[_ H]]; [done|by apply lo_waits0].
    + intros id. rewrite elem_of_app, list_elem_of_singleton, lo_queue0.
      destruct (decide (MakeWaitId (mq_request_id r) (u64_add (lf_wait_sequence s) 1) = id)) as [<-|Hne].
      * rewrite lookup_insert_eq. split; [by eexists|by right].
      * rewrite lookup_insert_ne by done. split; [intros [|]; congruence|by left].
  - unfold load. simpl. rewrite length_app. simpl. lia.
Qed.

Lemma queued_result_shrinks r id s w :
  lifecycle_ok s -> lf_waits s !! id = Some w -> shrinks s (snd (queued_result r id s)).
Proof.
  intros Hok Hw. split; [|done]. simpl. rewrite Hw. simpl. by apply (rewrite_wait_ok _ w).
Qed.

Lemma add_grant_grows r now s :
  load s + 1 < u64_modulus -> String.length (mq_request_id r) = 36%nat -> lifecycle_ok s ->
  BlockingGrants (lf_grants s) r (ResourceKey r) = [] ->
  grows s (snd (add_grant r (ResourceKey r) now s)).
Proof.
  intros Hl Hlen Hok Hb. assert (lf_generation s + 1 < u64_modulus) as Hg by (unfold load in Hl; lia).
  split; [by apply add_grant_ok|]. unfold load. simpl. rewrite (next_generation s Hg). lia.
Qed.

(** The end of [Acquire]: queue, look for a deadlock, report. *)
Lemma queue_and_detect_grows r blockers now s :
  String.length (mq_request_id r) = 36%nat -> lifecycle_ok s ->
  let q := queue_wait r (ResourceKey r) blockers now s in
  grows s (snd (if mw_deadlock_detection_required (fst q) then
      let '(deadlock, s) := lifecycle_DetectAndResolveDeadlock (snd q) in
      if bool_decide (lcr_decision deadlock = lc_deadlock_victim) &&
         bool_decide (lcr_victim_owner_uuid deadlock = mq_owner_uuid r) then (deadlock, s)
      else if decide (lcr_decision deadlock = lc_cluster_decision_required) then (deadlock, s)
      else queued_result r (mw_wait_id (fst q)) s
    else queued_result r (mw_wait_id (fst q)) (snd q))).
Proof.
  intros Hlen Hok q. pose proof (queue_wait_grows r blockers now s Hlen Hok) as Hq. fold q in Hq.
  assert (exists w, lf_waits (snd q) !! mw_wait_id (fst q) = Some w /\
                    mw_owner_uuid (wtr_wait w) = mq_owner_uuid r) as (w & Hw & Ho).
  { eexists. split; [apply lookup_insert_eq|done]. }
  destruct (mw_deadlock_detection_required (fst q)).
  - pose proof (detect_shrinks (snd q) (proj1 Hq)) as Hd.
    pose proof (detect_keeps (snd q) _ w (proj1 Hq) Hw) as Hk. cbv zeta in Hk.
    destruct (lifecycle_DetectAndResolveDeadlock _) as [deadlock s2]. cbn [fst snd] in Hd, Hk.
    pose proof (grows_shrinks _ _ _ Hq Hd) as Hg.
    destruct (bool_decide _ && bool_decide _) eqn:Hv; [done|].
    destruct (decide _); [done|].
    destruct Hk as [Hk|[Hk1 Hk2]].
    + eapply grows_shrinks; [exact Hg|]. by apply (queued_result_shrinks _ _ _ w), Hk; apply Hd.
    + exfalso. rewrite !bool_decide_eq_true_2 in Hv by congruence. done.
  - eapply grows_shrinks; [exact Hq|]. by apply (queued_result_shrinks _ _ _ w), Hw; apply Hq.
Qed.

Lemma acquire_grows r now s :
  load s + 1 < u64_modulus -> lifecycle_ok s -> grows s (snd (lifecycle_Acquire r now s)).
Proof.
  intros Hl Hok. unfold lifecycle_Acquire. cbv zeta.
  assert (lifecycle_ok (count one_request s)) as Hc by by apply count_ok.
  assert (load (count one_request s) = load s) as El by done.
  remember (count one_request s) as s1 eqn:Es. clear Es Hok.
  assert (forall s2, grows s1 s2 -> grows s s2) as Hup by (intros s2 []; split; [done|by rewrite <- El]).
  apply Hup. clear Hup. rewrite <- El in Hl. clear El.
  destruct (ValidateRequestShape r) eqn:Hv; [by apply shrinks_grows|].
  apply valid_request_length in Hv. destruct (_ && _); [by apply shrinks_grows|].
  destruct (negb _); [by apply shrinks_grows|]. destruct (OwnerHasGrantOnResource _ _ _); [by apply shrinks_grows|].
  destruct (decide (BlockingGrants _ _ _ = [])) as [Hb|Hb].
  { pose proof (add_grant_grows r now s1 Hl Hv Hc Hb) as H. by destruct (add_grant _ _ _ _). }
  destruct (decide _); [by apply shrinks_grows|]. destruct (RequestDeadlineExpired _ _).
  { by apply shrinks_grows, count_shrinks. }
  pose proof (queue_and_detect_grows r (BlockingGrants (lf_grants s1) r (ResourceKey r)) now s1 Hv Hc) as H.
  cbv zeta in H. by destruct (queue_wait _ _ _ _ _) as [wait s2].
Qed.

(** ** Releasing *)

Definition without_owner (owner : string) (s : MGALockWaitLifecycle) : MGALockWaitLifecycle :=
  erase_waits (owned_waits owner s)
    (set_grants (filter (fun p => mg_owner_uuid (gr_grant p.2) <> owner) (lf_grants s)) s).

Lemma without_owner_shrinks owner s : lifecycle_ok s -> shrinks s (without_owner owner s).
Proof.
  intros Hok. eapply shrinks_trans; [|apply erase_waits_shrinks].
  - apply set_grants_shrinks; [apply map_filter_subseteq|done].
  - by apply set_grants_subset_ok; [apply map_filter_subseteq|].
Qed.

Lemma release_owner_state owner now s :
  snd (lifecycle_ReleaseOwner owner now s) = fst (DrainGrantableWaits now (without_owner owner s)).
Proof. done. Qed.

Lemma load_room s : load s < u64_modulus -> room s.
Proof. done. Qed.

Lemma release_owner_shrinks owner now s :
  lifecycle_ok s -> room s -> shrinks s (snd (lifecycle_ReleaseOwner owner now s)).
Proof.
  intros Hok Hroom. rewrite release_owner_state. apply shrinks_drain; [done|]. by apply without_owner_shrinks.
Qed.

Lemma timeouts_shrinks now s :
  lifecycle_ok s -> room s -> shrinks s (snd (lifecycle_ProcessTimeouts now s)).
Proof.
  intros Hok Hroom. cbn [lifecycle_ProcessTimeouts snd]. apply shrinks_drain; [done|].
  apply foldl_shrinks; [|done]. intros s' id Hok'. eapply shrinks_trans; [by apply erase_wait_shrinks|].
  by apply count_shrinks, erase_wait_ok.
Qed.

Lemma shutdown_shrinks s : shrinks s (snd (lifecycle_Shutdown s)).
Proof.
  split; [|unfold load; simpl; lia]. split; simpl; intros *; rewrite ?lookup_empty; try done.
  split; [intros H; by apply not_elem_of_nil in H|intros H; by destruct (is_Some_None H)].
Qed.

Lemma lifecycle_step_grows s op :
  load s + 1 < u64_modulus -> lifecycle_ok s -> grows s (lifecycle_step s op).
Proof.
  intros Hl Hok. assert (room s) as Hroom by (apply load_room; lia).
  destruct op; cbn [lifecycle_step]; [by apply acquire_grows|apply shrinks_grows..].
  - unfold lifecycle_ReleaseGrant. destruct (lf_grants s !! grant_id); [|done]. cbn [snd].
    apply shrinks_drain; [done|]. by apply set_grants_shrinks; [apply delete_subseteq|].
  - by apply release_owner_shrinks.
  - unfold lifecycle_CancelWait. destruct (lf_waits s !! wait_id); [|done]. cbn [snd].
    eapply shrinks_trans; [by apply erase_wait_shrinks|]. by apply count_shrinks, erase_wait_ok.
  - unfold lifecycle_DisconnectOwner. pose proof (release_owner_shrinks owner_uuid now s Hok Hroom) as H.
    destruct (lifecycle_ReleaseOwner _ _ _) as [r s']. cbn [snd] in H |- *.
    eapply shrinks_trans; [exact H|]. apply count_shrinks, H.
  - by apply timeouts_shrinks.
  - by apply detect_shrinks.
  - apply shutdown_shrinks.
Qed.

Lemma lifecycle_run_ok ops :
  N.of_nat (length ops) < u64_modulus ->
  lifecycle_ok (lifecycle_run ops) /\ load (lifecycle_run ops) <= N.of_nat (length ops).
Proof.
  unfold lifecycle_run. induction ops as [|op ops IH] using rev_ind; intros Hl.
  - split; [apply default_lifecycle_ok|done].
  - rewrite length_app in Hl |- *. simpl in Hl |- *. destruct IH as [Hok Hload]; [lia|].
    rewrite foldl_app. simpl. destruct (lifecycle_step_grows (foldl lifecycle_step MGALockWaitLifecycle_default ops) op) as [H1 H2];
      [lia|done|]. split; [done|]. lia.
Qed.

(** ** Sequences of releases *)

(** An owner that holds a grant lets go of everything it has. *)
Definition holds_grant (owner : string) (s : MGALockWaitLifecycle) : Prop :=
  exists gid g, lf_grants s !! gid = Some g /\ mg_owner_uuid (gr_grant g) = owner.

Definition release (s : MGALockWaitLifecycle) (p : string * N) : MGALockWaitLifecycle :=
  snd (lifecycle_ReleaseOwner p.1 p.2 s).

Fixpoint releases (l : list (string * N)) (s : MGALockWaitLifecycle) : Prop :=
  match l with [] => True | p :: l => holds_grant p.1 s /\ releases l (release s p) end.

Definition after (l : list (string * N)) (s : MGALockWaitLifecycle) : MGALockWaitLifecycle := foldl release s l.

Lemma erase_waits_lookup ids s id :
  lf_waits (erase_waits ids s) !! id = if decide (id ∈ ids) then None else lf_waits s !! id.
Proof.
  unfold erase_waits. revert s. induction ids as [|i ids IH]; intros s; cbn [foldl].
  - by rewrite decide_False by apply not_elem_of_nil.
  - rewrite IH. cbn [erase_wait set_waits lf_waits]. destruct (decide (id ∈ ids)) as [H|H].
    + rewrite decide_True; [done|by apply list_elem_of_further].
    + destruct (decide (id = i)) as [->|Hne].
      * rewrite decide_True by apply list_elem_of_here. apply lookup_delete_eq.
      * rewrite lookup_delete_ne by done. rewrite decide_False; [done|]. rewrite elem_of_cons. naive_solver.
Qed.

Lemma erase_waits_grants ids s : lf_grants (erase_waits ids s) = lf_grants s.
Proof. unfold erase_waits. revert s. induction ids as [|i ids IH]; intros s; [done|]. simpl. by rewrite IH. Qed.

Lemma erase_waits_order ids s : (length (lf_wait_order (erase_waits ids s)) <= length (lf_wait_order s))%nat.
Proof.
  unfold erase_waits. revert s. induction ids as [|i ids IH]; intros s; [done|]. simpl. etrans; [apply IH|]. simpl.
  apply length_filter.
Qed.

Lemma elem_of_owned_waits owner s id :
  id ∈ owned_waits owner s <-> exists w, lf_waits s !! id = Some w /\ mw_owner_uuid (wtr_wait w) = owner.
Proof.
  unfold owned_waits. rewrite list_elem_of_fmap. split.
  - intros ([i w] & -> & H). apply list_elem_of_filter in H as [Ho H]. apply elem_of_map_in_order in H. by exists w.
  - intros (w & Hw & Ho). exists (id, w). split; [done|]. apply list_elem_of_filter. split; [done|].
    by apply elem_of_map_in_order.
Qed.

Lemma without_owner_potential owner s : holds_grant owner s -> (potential (without_owner owner s) < potential s)%nat.
Proof.
  intros (gid & g & Hg & Ho). unfold potential, without_owner. rewrite erase_waits_grants. simpl.
  set (kept := filter _ (lf_grants s)).
  pose proof (erase_waits_order (owned_waits owner s) (set_grants kept s)) as Hl. simpl in Hl.
  assert (size kept < size (lf_grants s))%nat as Hs; [|lia].
  apply map_subset_size. split; [apply map_filter_subseteq|]. intros Hsub.
  assert (kept !! gid = Some g) as Hk by by eapply lookup_weaken.
  apply map_lookup_filter_Some in Hk as [_ Hk]. by apply Hk.
Qed.

(** One release: fewer grants or waits, and a drained queue. *)
Lemma release_spec p s :
  lifecycle_ok s -> room s -> holds_grant p.1 s ->
  lifecycle_ok (release s p) /\ room (release s p) /\ drained (release s p) /\
  (potential (release s p) < potential s)%nat /\
  forall id w, lf_waits s !! id = Some w -> mw_owner_uuid (wtr_wait w) <> p.1 ->
    still_queued (release s p) id w \/ granted_request (release s p) (wtr_request w).
Proof.
  intros Hok Hroom Hh. unfold release. rewrite release_owner_state.
  destruct (without_owner_shrinks p.1 s Hok) as [Hok' Hl].
  assert (room (without_owner p.1 s)) as Hroom' by by eapply N.le_lt_trans.
  destruct (drain_spec p.2 _ Hok' Hroom') as [[] Hd]. split_and!; try done.
  - by eapply N.le_lt_trans.
  - eapply Nat.le_lt_trans; [exact ad_potential0|by apply without_owner_potential].
  - intros id w Hw Ho. apply ad_served0. unfold without_owner. rewrite erase_waits_lookup, decide_False; [done|].
    rewrite elem_of_owned_waits. naive_solver.
Qed.

Lemma releases_bounded l s :
  lifecycle_ok s -> room s -> releases l s -> (length l <= potential s)%nat.
Proof.
  revert s. induction l as [|p l IH]; intros s Hok Hroom Hr; [simpl; lia|]. destruct Hr as [Hh Hr].
  destruct (release_spec p s Hok Hroom Hh) as (Hok' & Hroom' & _ & Hp & _).
  specialize (IH _ Hok' Hroom' Hr). simpl. lia.
Qed.

(** A wait of [s] is granted at some point of the sequence, or its owner is the
    next to let go while it is still queued. *)
Definition served_during (l : list (string * N)) (s : MGALockWaitLifecycle) (id : string) (w : WaitRecord) : Prop :=
  exists k, (k <= length l)%nat /\
    (granted_request (after (take k l) s) (wtr_request w) \/
     still_queued (after (take k l) s) id w /\ fst <$> l !! k = Some (mq_owner_uuid (wtr_request w))).

Lemma served_now l s id w :
  granted_request s (wtr_request w) \/
  still_queued s id w /\ fst <$> l !! 0%nat = Some (mq_owner_uuid (wtr_request w)) ->
  served_during l s id w.
Proof. intros H. exists 0%nat. split; [lia|]. rewrite take_0. exact H. Qed.

Lemma served_later p l s id w w' :
  same_wait w w' -> served_during l (release s p) id w' -> served_during (p :: l) s id w.
Proof.
  intros Hs (k & Hk & H). exists (S k). split; [simpl; lia|]. cbn [take]. unfold after in H |- *. cbn [foldl].
  destruct H as [H|[(w2 & Hw2 & E2) Ho]]; [left|right].
  - by destruct Hs as (_ & -> & _).
  - split; [exists w2; split; [done|by eapply same_wait_trans]|]. destruct Hs as (_ & -> & _). exact Ho.
Qed.

Lemma releases_serve l s id w :
  lifecycle_ok s -> room s -> releases l s -> l <> [] -> lf_grants (after l s) = ∅ ->
  lf_waits s !! id = Some w -> served_during l s id w.
Proof.
  revert s w. induction l as [|p l IH]; intros s w Hok Hroom Hr Hne Hend Hw; [done|]. destruct Hr as [Hh Hr].
  destruct (release_spec p s Hok Hroom Hh) as (Hok' & Hroom' & Hd & _ & Hserve).
  destruct (decide (mq_owner_uuid (wtr_request w) = p.1)) as [Ho|Ho].
  { apply served_now. right. split; [exists w; split; [done|apply same_wait_refl]|]. simpl. by rewrite Ho. }
  destruct (Hserve id w Hw) as [(w' & Hw' & Hs)|Hg].
  { by rewrite (wo_owner _ _ (lo_waits _ Hok _ _ Hw)). }
  - apply (served_later _ _ _ _ _ w' Hs). destruct l as [|q l]; [|by apply IH].
    exfalso. apply (drained_progress _ Hok' Hd); [|exact Hend]. intros He. by rewrite He, lookup_empty in Hw'.
  - apply (served_later _ _ _ _ _ w (same_wait_refl w)). apply served_now. by left.
Qed.

Lemma releases_empty_queue l s :
  lifecycle_ok s -> room s -> releases l s -> l <> [] -> lf_grants (after l s) = ∅ -> lf_waits (after l s) = ∅.
Proof.
  revert s. induction l as [|p l IH]; intros s Hok Hroom Hr Hne Hend; [done|]. destruct Hr as [Hh Hr].
  destruct (release_spec p s Hok Hroom Hh) as (Hok' & Hroom' & Hd & _ & _).
  destruct l as [|q l]; [|by apply (IH (release s p))]. unfold after in Hend |- *. cbn [foldl] in Hend |- *.
  destruct (decide (lf_waits (release s p) = ∅)) as [|Hw]; [done|].
  by destruct (drained_progress _ Hok' Hd Hw).
Qed.

(** ** The fuel of the cycle search *)

Lemma path_fits (graph : wait_graph) path :
  NoDup path -> (forall x, x ∈ path -> is_Some (graph !! x)) -> (length path <= size graph)%nat.
Proof.
  intros Hnd Hin. rewrite <- (size_list_to_set (C := gset string) path) by done.
  etrans; [|apply Nat.eq_le_incl, (size_dom (D := gset string) (M := gmap string))]. apply subseteq_size. intros x Hx. apply elem_of_list_to_set in Hx. by apply elem_of_dom, Hin.
Qed.

(** Fuel beyond the number of nodes not yet on the path changes nothing. *)
Lemma find_cycle_fuel fuel fuel' graph current path visited :
  NoDup path -> (forall x, x ∈ path -> is_Some (graph !! x)) ->
  (size graph + 1 < fuel + length path)%nat -> (size graph + 1 < fuel' + length path)%nat ->
  FindCycleFrom fuel graph current path visited = FindCycleFrom fuel' graph current path visited.
Proof.
  revert fuel' current path visited. induction fuel as [|fuel IH]; intros fuel' current path visited Hnd Hin Hf Hf'.
  { pose proof (path_fits graph path Hnd Hin). lia. }
  pose proof (path_fits graph path Hnd Hin) as Hle. destruct fuel' as [|fuel']; [lia|]. cbn [FindCycleFrom].
  destruct (list_find _ path) as [[i x]|] eqn:Hfind; [done|]. destruct (decide (current ∈ visited)); [done|].
  destruct (graph !! current) as [edges|] eqn:Hg; simpl.
  - apply list_find_None in Hfind. rewrite Forall_forall in Hfind.
    assert (forall next v, FindCycleFrom fuel graph next (path ++ [current]) v =
                           FindCycleFrom fuel' graph next (path ++ [current]) v) as Heq.
    { intros next v. apply IH.
      - apply NoDup_app. split_and!; [done| |apply NoDup_singleton].
        intros x Hx ->%list_elem_of_singleton. by apply (Hfind current Hx).
      - intros x [Hx| ->%list_elem_of_singleton]%elem_of_app; [by apply Hin|by rewrite Hg].
      - rewrite length_app. simpl. lia.
      - rewrite length_app. simpl. lia. }
    generalize (string_sort (elements edges)) as l. generalize (@None (list string), {[current]} ∪ visited) as acc.
    intros acc l. revert acc. induction l as [|next l IHl]; intros acc; [done|]. cbn [foldl]. rewrite IHl.
    f_equal. destruct acc as [[c|] v]; [done|]. apply Heq.
  - done.
Qed.

(** The fuel the search is given is enough. *)
Lemma cycle_fuel_enough graph root fuel :
  (cycle_fuel graph <= fuel)%nat ->
  FindCycleFrom fuel graph root [] ∅ = FindCycleFrom (cycle_fuel graph) graph root [] ∅.
Proof.
  intros Hf. apply find_cycle_fuel; [constructor|intros x Hx; by apply not_elem_of_nil in Hx| |];
    unfold cycle_fuel in *; simpl; lia.
Qed.

(** ** Claims about the lock and wait lifecycle

    Exclusion over every history of calls, service of waiters as owners let go,
    and four places where the lifecycle behaves unexpectedly. *)

(** ** Sample requests *)

Definition sample_owner (c : string) : string := ("0190a000-0000-7000-8000-00000000000" +:+ c)%string.
Definition sample_lock (id owner : string) (mode : MGALockMode) (policy : MGAWaitPolicy) (timeout : N)
    : MGALockRequest :=
  mkMGARequest ("0190b000-0000-7000-8000-00000000000" +:+ id) ok_transaction (sample_owner owner)
    (sample_owner owner) "none" "none" wk_logical_lock sk_relation "none" "none"
    "0190c000-0000-7000-8000-000000000001" "0190d000-0000-7000-8000-000000000001" "none" 0 false "none" mode
    policy timeout pr_normal "none" 0 100 false false false 0 0 0 0 rc_transaction_end ds_none.

(** Two readers, then two writers that must wait. *)
Definition sample_history : list lifecycle_op :=
  [op_acquire (sample_lock "1" "a" md_shared_read wp_wait_forever 0) 100;
   op_acquire (sample_lock "2" "b" md_shared_read wp_wait_forever 0) 101;
   op_acquire (sample_lock "3" "c" md_exclusive_write wp_wait_forever 0) 102;
   op_acquire (sample_lock "4" "d" md_exclusive_write wp_wait_forever 0) 103].

Definition sample_releases : list (string * N) :=
  [(sample_owner "a", 110); (sample_owner "b", 120); (sample_owner "c", 130); (sample_owner "d", 140)].

(** ** Exclusion *)

(** C21: after any history of fewer than 2^64 calls (acquire, release, cancel,
    disconnect, timeouts, deadlock resolution, shutdown, in any order), two grants on one
    resource that different owners hold are of compatible modes; every grant
    records the owner and mode of its request under its own identifier; and the
    wait queue lists exactly the waits on record. *)
Theorem lifecycle_exclusion (ops : list lifecycle_op)
    (Hops : N.of_nat (length ops) < u64_modulus) :
  (forall id1 id2 g1 g2,
     lf_grants (lifecycle_run ops) !! id1 = Some g1 -> lf_grants (lifecycle_run ops) !! id2 = Some g2 ->
     ResourceKey (gr_request g1) = ResourceKey (gr_request g2) ->
     mq_owner_uuid (gr_request g1) <> mq_owner_uuid (gr_request g2) ->
     MGALockModesCompatible (mq_mode (gr_request g1)) (mq_mode (gr_request g2)) = true) /\
  (forall id g, lf_grants (lifecycle_run ops) !! id = Some g ->
     mg_grant_id (gr_grant g) = id /\ mg_owner_uuid (gr_grant g) = mq_owner_uuid (gr_request g) /\
     mg_granted_mode (gr_grant g) = mq_mode (gr_request g)) /\
  (forall id, id ∈ lf_wait_order (lifecycle_run ops) <-> is_Some (lf_waits (lifecycle_run ops) !! id)).
Proof.
  destruct (lifecycle_run_ok ops Hops) as [[Hg Hw Hq Hx] _]. split_and!; [|by intros id g []%Hg|done].
  intros id1 id2 g1 g2 H1 H2 Hk Ho. pose proof (Hg _ _ H1) as G1. pose proof (Hg _ _ H2) as G2.
  rewrite <- (go_mode _ _ _ G1), <- (go_mode _ _ _ G2). apply (Hx id1 id2 g1 g2 H1 H2).
  - by rewrite (go_key _ _ _ G1), (go_key _ _ _ G2).
  - unfold SameOwner. by rewrite (go_owner _ _ _ G2), bool_decide_eq_false_2.
Qed.

Lemma lifecycle_exclusion_witness :
  exists id1 id2 g1 g2,
    lf_grants (lifecycle_run sample_history) !! id1 = Some g1 /\
    lf_grants (lifecycle_run sample_history) !! id2 = Some g2 /\
    mq_owner_uuid (gr_request g1) <> mq_owner_uuid (gr_request g2) /\
    MGALockModesCompatible (mq_mode (gr_request g1)) (mq_mode (gr_request g2)) = true.
Proof.
  exists "grant:0190b000-0000-7000-8000-000000000001:1"%string, "grant:0190b000-0000-7000-8000-000000000002:2"%string.
  do 2 eexists. split; [vm_compute; reflexivity|]. split; [vm_compute; reflexivity|]. split; [by vm_compute|].
  refine (proj1 (lifecycle_exclusion sample_history _) "grant:0190b000-0000-7000-8000-000000000001:1"%string
            "grant:0190b000-0000-7000-8000-000000000002:2"%string _ _ _ _ _ _);
    [vm_compute; reflexivity| | | |]; [vm_compute; reflexivity..|by vm_compute].
Defined.

(** ** Service *)

(** C22: from any reachable state, let owners that hold grants release, one after
    another, in any order and at any times.  The sequence has at most twice the queue length plus
    the number of grants steps; once no grant is left the queue is empty too; and
    every wait that was queued at the start has been granted its request on the
    way, or was still queued when its own owner let go. *)
Theorem waiters_are_served (ops : list lifecycle_op) (l : list (string * N))
    (Hops : N.of_nat (length ops) < u64_modulus) (Hl : releases l (lifecycle_run ops)) :
  (length l <= 2 * length (lf_wait_order (lifecycle_run ops)) + size (lf_grants (lifecycle_run ops)))%nat /\
  (l <> [] -> lf_grants (after l (lifecycle_run ops)) = ∅ ->
   lf_waits (after l (lifecycle_run ops)) = ∅ /\
   forall id w, lf_waits (lifecycle_run ops) !! id = Some w -> served_during l (lifecycle_run ops) id w).
Proof.
  destruct (lifecycle_run_ok ops Hops) as [Hok Hload].
  assert (room (lifecycle_run ops)) as Hroom by by eapply N.le_lt_trans.
  split; [by apply releases_bounded|]. intros Hne Hend. split; [by apply releases_empty_queue|].
  intros id w Hw. by apply releases_serve.
Qed.

Lemma waiters_are_served_witness :
  size (lf_waits (lifecycle_run sample_history)) = 2%nat /\
  releases sample_releases (lifecycle_run sample_history) /\
  lf_grants (after sample_releases (lifecycle_run sample_history)) = ∅ /\
  lf_waits (after sample_releases (lifecycle_run sample_history)) = ∅.
Proof.
  assert (releases sample_releases (lifecycle_run sample_history)) as Hl.
  { split; [|split; [|split; [|split; [|exact I]]]];
      [exists "grant:0190b000-0000-7000-8000-000000000001:1"%string
      |exists "grant:0190b000-0000-7000-8000-000000000002:2"%string
      |exists "grant:0190b000-0000-7000-8000-000000000003:3"%string
      |exists "grant:0190b000-0000-7000-8000-000000000004:4"%string];
      eexists; (split; [vm_compute; reflexivity|vm_compute; reflexivity]). }
  assert (lf_grants (after sample_releases (lifecycle_run sample_history)) = ∅) as He by (vm_compute; reflexivity).
  split; [vm_compute; reflexivity|]. split; [exact Hl|]. split; [exact He|].
  refine (proj1 (proj2 (waiters_are_served sample_history sample_releases _ Hl) _ He)); [vm_compute; reflexivity|done].
Defined.

(** ** Unexpected behaviour *)

(** An owner that holds a shared lock and asks for an exclusive one is told that it
    already owns it, and nothing is upgraded. *)
Lemma upgrade_is_not_taken :
  let s := lifecycle_run [op_acquire (sample_lock "1" "a" md_shared_read wp_wait_forever 0) 100;
                          op_acquire (sample_lock "2" "b" md_shared_read wp_wait_forever 0) 101] in
  let r := lifecycle_Acquire (sample_lock "3" "a" md_exclusive_write wp_wait_forever 0) 102 s in
  lcr_decision (fst r) = lc_already_owned /\ lcr_ok (fst r) = true /\
  mg_granted_mode <$> lifecycle_grants (snd r) = [md_shared_read; md_shared_read].
Proof. cbv zeta. split_and!; vm_compute; reflexivity. Qed.

(** Cancelling the head of a queue does not drain it: the next wait has no blocker
    and stays queued. *)
Lemma cancelled_head_leaves_grantable_wait :
  let s := lifecycle_run
    [op_acquire (sample_lock "1" "a" md_intent_shared wp_wait_forever 0) 100;
     op_acquire (sample_lock "2" "b" md_shared_read wp_wait_forever 0) 101;
     op_acquire (sample_lock "3" "c" md_exclusive_write wp_wait_forever 0) 102;
     op_acquire (sample_lock "4" "d" md_update_intent wp_wait_forever 0) 103;
     op_release_owner (sample_owner "b") 104;
     op_cancel_wait "wait:0190b000-0000-7000-8000-000000000003:1"] in
  lf_wait_order s = ["wait:0190b000-0000-7000-8000-000000000004:2"]%string /\
  (forall w, lf_waits s !! "wait:0190b000-0000-7000-8000-000000000004:2"%string = Some w -> held_back s w -> False).
Proof.
  split; [vm_compute; reflexivity|]. intros w Hw. vm_compute in Hw. injection Hw as <-. unfold held_back.
  intros [H|H]; [by vm_compute in H|]. apply H. vm_compute. reflexivity.
Qed.

(** A wait under the wait-forever policy is timed out when its request carries a
    timeout. *)
Lemma wait_forever_times_out :
  let s := lifecycle_run [op_acquire (sample_lock "1" "a" md_exclusive_write wp_wait_forever 0) 100;
                          op_acquire (sample_lock "2" "b" md_exclusive_write wp_wait_forever 50) 101] in
  size (lf_waits s) = 1%nat /\ (lcr_decision <$> fst (lifecycle_ProcessTimeouts 150 s)) = [lc_wait_timeout].
Proof. cbv zeta. split_and!; vm_compute; reflexivity. Qed.

(** A compatible request is granted although an incompatible one has been waiting
    longer. *)
Lemma late_reader_overtakes_writer :
  let s := lifecycle_run [op_acquire (sample_lock "1" "a" md_shared_read wp_wait_forever 0) 100;
                          op_acquire (sample_lock "2" "b" md_exclusive_write wp_wait_forever 0) 101] in
  let r := lifecycle_Acquire (sample_lock "3" "c" md_shared_read wp_wait_forever 0) 102 s in
  size (lf_waits s) = 1%nat /\ lcr_decision (fst r) = lc_granted /\ size (lf_grants (snd r)) = 2%nat.
Proof. cbv zeta. split_and!; vm_compute; reflexivity. Qed.
