(* ===== verification/CowClaims.v ===== *)
(** * Properties of copy-on-write mutations and cleanup assessment *)

From S2P Require Import Prelude Platform TransactionState Inventory RowVersion CopyOnWrite.
From S2P Require Import InventoryTheorems InventorySteps Samples.

(** ** Validation, read declaratively *)

Record mutation_ok (m : CopyOnWriteMutationState) : Prop := {
  mk_kind : ci_kind (cm_intent m) <> ck_unknown;
  mk_transaction : obs_ok (ObserveTransactionIdentity (ci_transaction (cm_intent m))) = true;
  mk_row : obs_ok (ObserveRowIdentity (ci_row (cm_intent m))) = true;
  mk_base : ci_has_base_version (cm_intent m) = true <-> ci_kind (cm_intent m) <> ck_insert;
  mk_new : ci_new_version_sequence (cm_intent m) <> 0;
  mk_increasing : ci_has_base_version (cm_intent m) = true ->
    0 < ci_base_version_sequence (cm_intent m) < ci_new_version_sequence (cm_intent m);
  mk_phase : cm_phase m <> cp_unknown;
  mk_row_state : cm_resulting_row_state m <> rvs_unknown;
  mk_evidence : cm_evidence_record_required m = true -> cm_phase m = cp_published ->
    cm_evidence_record_written m = true }.

Lemma identity_scope_known i :
  obs_ok (ObserveTransactionIdentity i) = true ->
  ti_scope i = scope_local_node \/ ti_scope i = scope_cluster_global.
Proof.
  intros [Hv _]%observe_identity_ok. apply identity_valid_scope in Hv. destruct (ti_scope i); auto; done.
Qed.

Lemma validate_mutation_iff m :
  cwr_ok (ValidateCopyOnWriteMutationState m) = true <-> mutation_ok m.
Proof.
  unfold ValidateCopyOnWriteMutationState, ValidateTransactionIdentity, ValidateRowIdentity,
    kInvalidRowVersionSequence. cbn [tir_status rir_status].
  change (status_ok (obs_status ?o)) with (obs_ok o).
  split.
  - intros H. case_decide as H1; [done|].
    destruct (obs_ok (ObserveTransactionIdentity _)) eqn:H2; [|done]. cbn [negb orb] in H.
    destruct (bool_decide _ && bool_decide _); [done|].
    destruct (obs_ok (ObserveRowIdentity _)) eqn:H3; [|done]. cbn [negb] in H.
    case_decide as H4; [done|]. case_decide as H5; [done|]. case_decide as H6; [done|].
    case_decide as H7; [done|]. case_decide as H8; [done|]. case_decide as H9; [done|].
    case_decide as H10; [done|]. case_decide as H11; [done|]. clear H. split; try done.
    + destruct (ci_has_base_version (cm_intent m)), (decide (ci_kind (cm_intent m) = ck_insert)); tauto.
    + intros Hb. clear - Hb H6 H8. rewrite Hb in *.
      assert (ci_base_version_sequence (cm_intent m) <> 0) by tauto.
      assert (~ ci_new_version_sequence (cm_intent m) <= ci_base_version_sequence (cm_intent m)) by tauto. lia.
    + intros Hreq Hpub. destruct (cm_evidence_record_written m); [done|tauto].
  - intros [Hk Ht Hr Hb Hn Hi Hp Hs He]. rewrite decide_False by done. rewrite Ht. cbn [negb orb].
    assert (bool_decide (ti_scope (ci_transaction (cm_intent m)) <> scope_local_node) &&
            bool_decide (ti_scope (ci_transaction (cm_intent m)) <> scope_cluster_global) = false) as ->.
    { destruct (identity_scope_known _ Ht) as [-> | ->]; done. }
    rewrite Hr. cbn [negb].
    rewrite decide_False by (intros [Hins Hf]; apply Hb in Hf; done).
    rewrite decide_False by (intros [Hins Hf]; apply Hb in Hins; congruence).
    rewrite decide_False by (intros [Hf ?]; specialize (Hi Hf); lia).
    rewrite decide_False by done.
    rewrite decide_False by (intros [Hf ?]; specialize (Hi Hf); lia).
    rewrite !decide_False by done. rewrite decide_False; [done|].
    intros (Hreq & Hpub & Hw). specialize (He Hreq Hpub). congruence.
Qed.

Lemma validate_keeps m : cwr_mutation (ValidateCopyOnWriteMutationState m) = m.
Proof. unfold ValidateCopyOnWriteMutationState, cow_result, SetCowDiagnostic. by repeat case_match. Qed.

Lemma advance_ok m p :
  cwr_ok (AdvanceCopyOnWriteMutationPhase m p) = true ->
  mutation_ok m /\ IsLegalPhaseTransition (cm_phase m) p = true /\
  mutation_ok (with_phase p m) /\ cwr_mutation (AdvanceCopyOnWriteMutationPhase m p) = with_phase p m.
Proof.
  unfold AdvanceCopyOnWriteMutationPhase. intros H.
  destruct (cwr_ok (ValidateCopyOnWriteMutationState m)) eqn:H1; cbn [negb] in *; [|congruence].
  destruct (IsLegalPhaseTransition (cm_phase m) p) eqn:H2; cbn [negb] in *; [|done].
  destruct (cwr_ok (ValidateCopyOnWriteMutationState (with_phase p m))) eqn:H3; cbn [negb] in *.
  - rewrite validate_keeps. rewrite !validate_mutation_iff in *. done.
  - unfold cwr_ok in *. simpl in H. congruence.
Qed.

(** ** The life of a mutation *)

Definition evidence_written (m : CopyOnWriteMutationState) :=
  mkMutation (cm_intent m) (cm_phase m) (cm_resulting_row_state m) (cm_evidence_record_required m) true.

(** Successful advances through the listed phases, with evidence written at some
    points in between. *)
Inductive cow_run (m0 : CopyOnWriteMutationState)
    : list CopyOnWriteMutationPhase -> CopyOnWriteMutationState -> Prop :=
| run_start : cow_run m0 [] m0
| run_evidence ps m : cow_run m0 ps m -> cow_run m0 ps (evidence_written m)
| run_advance ps m p : cow_run m0 ps m -> cwr_ok (AdvanceCopyOnWriteMutationPhase m p) = true ->
    cow_run m0 (ps ++ [p]) (cwr_mutation (AdvanceCopyOnWriteMutationPhase m p)).

Definition phase_rank (p : CopyOnWriteMutationPhase) : nat :=
  match p with
  | cp_planned => 0 | cp_base_version_locked => 1 | cp_new_version_allocated => 2
  | cp_payload_written_unpublished => 3 | cp_publish_pending_transaction => 4
  | cp_published | cp_rollback_pending => 5 | cp_rollback_complete | cp_recovery_required => 6
  | cp_unknown => 7
  end.

(** The ways to a phase on the publishing side. *)
Definition phase_trace (p : CopyOnWriteMutationPhase) (ps : list CopyOnWriteMutationPhase) : Prop :=
  let tail := match p with
    | cp_new_version_allocated => Some [cp_new_version_allocated]
    | cp_payload_written_unpublished => Some [cp_new_version_allocated; cp_payload_written_unpublished]
    | cp_publish_pending_transaction =>
      Some [cp_new_version_allocated; cp_payload_written_unpublished; cp_publish_pending_transaction]
    | cp_published => Some [cp_new_version_allocated; cp_payload_written_unpublished;
        cp_publish_pending_transaction; cp_published]
    | _ => None
    end in
  match p, tail with
  | cp_planned, _ => ps = []
  | cp_base_version_locked, _ => ps = [cp_base_version_locked]
  | _, Some t => ps = t \/ ps = cp_base_version_locked :: t
  | _, None => True
  end.

Lemma legal_rank p q : IsLegalPhaseTransition p q = true -> (phase_rank p < phase_rank q <= 6)%nat.
Proof. destruct p, q; intros H; first [discriminate H | simpl; lia]. Qed.

Lemma legal_trace p q ps :
  IsLegalPhaseTransition p q = true -> phase_trace p ps -> phase_trace q (ps ++ [q]).
Proof.
  destruct p, q; intros H; try discriminate H; clear H; unfold phase_trace; try done;
    intros Hp; try destruct Hp as [-> | ->]; try subst ps; simpl; auto.
Qed.

Lemma run_invariant m0 ps m :
  mutation_ok m0 -> cm_phase m0 = cp_planned -> cow_run m0 ps m ->
  mutation_ok m /\ cm_intent m = cm_intent m0 /\
  cm_evidence_record_required m = cm_evidence_record_required m0 /\
  phase_trace (cm_phase m) ps /\ (length ps <= phase_rank (cm_phase m) <= 6)%nat.
Proof.
  intros H0 Hp. induction 1 as [|ps m _ IH|ps m p _ IH Hadv].
  - rewrite Hp. split_and!; try done; simpl; lia.
  - destruct IH as (Hm & Hi & Hr & Ht & Hl). split_and!; simpl; try done; try lia. destruct Hm. by split.
  - destruct IH as (_ & Hi & Hr & Ht & Hl). destruct (advance_ok _ _ Hadv) as (_ & Hlegal & Hok & ->).
    pose proof (legal_rank _ _ Hlegal). split_and!; try done; simpl; rewrite ?length_app; simpl; try lia.
    by eapply legal_trace.
Qed.

(** A planned mutation goes through at most six phases whatever is asked of
    it, keeps its intent, and if it is published then it was allocated, written
    and pending first, in that order, and its evidence had been written. *)
Theorem mutation_lifecycle intent ps m :
  cwr_ok (PlanCopyOnWriteMutation intent) = true ->
  cow_run (cwr_mutation (PlanCopyOnWriteMutation intent)) ps m ->
  (length ps <= 6)%nat /\ cm_intent m = intent /\
  cwr_ok (ValidateCopyOnWriteMutationState m) = true /\
  (cm_phase m = cp_published ->
   cm_evidence_record_written m = true /\
   let t := [cp_new_version_allocated; cp_payload_written_unpublished;
             cp_publish_pending_transaction; cp_published] in
   ps = t \/ ps = cp_base_version_locked :: t).
Proof.
  unfold PlanCopyOnWriteMutation. rewrite validate_mutation_iff, validate_keeps. intros Hok Hrun.
  destruct (run_invariant _ _ _ Hok eq_refl Hrun) as (Hm & Hi & Hr & Ht & Hl). split_and!; try done.
  - lia.
  - by apply validate_mutation_iff.
  - intros Hp. split; [by apply (mk_evidence _ Hm)|]. rewrite Hp in Ht. exact Ht.
Qed.

Definition sample_intent : CopyOnWriteMutationIntent :=
  mkIntent ck_update (mkTransactionIdentity 2 (sample_txn_uuid 2) scope_local_node)
    (mkRowIdentity (mkTypedUuid uk_row (sample_uuid 100))) 1 2 true true false.

Lemma mutation_lifecycle_witness :
  exists m, cow_run (cwr_mutation (PlanCopyOnWriteMutation sample_intent)) [cp_base_version_locked] m /\
    cm_intent m = sample_intent.
Proof.
  set (m0 := cwr_mutation (PlanCopyOnWriteMutation sample_intent)).
  exists (cwr_mutation (AdvanceCopyOnWriteMutationPhase m0 cp_base_version_locked)).
  assert (Hrun : cow_run m0 [cp_base_version_locked]
    (cwr_mutation (AdvanceCopyOnWriteMutationPhase m0 cp_base_version_locked))).
  { apply (run_advance m0 [] m0 cp_base_version_locked); [constructor|vm_compute; reflexivity]. }
  split; [exact Hrun|].
  destruct (mutation_lifecycle sample_intent _ _ ltac:(vm_compute; reflexivity) Hrun) as (_ & H & _). exact H.
Defined.

(** A local mutation plan is accepted exactly when the transaction is active
    and not marked rollback-only, its identity and the row's are valid engine
    identities, the kind is known, and the new version sequence is above the base
    sequence (above zero for an insert); the plan then starts in the planned phase
    under the transaction's identity. *)
Theorem local_plan_exact e row kind base new :
  let r := PlanLocalCopyOnWriteMutationForTransaction e row kind base new in
  (cwr_ok r = true <->
   e_state e = ts_active /\ e_rollback_only e = false /\
   obs_ok (ObserveTransactionIdentity (e_identity e)) = true /\
   obs_ok (ObserveRowIdentity row) = true /\ kind <> ck_unknown /\
   (if decide (kind = ck_insert) then 0 < new else 0 < base < new)) /\
  (cwr_ok r = true -> cm_phase (cwr_mutation r) = cp_planned /\
     ci_transaction (cm_intent (cwr_mutation r)) = e_identity e /\
     cm_resulting_row_state (cwr_mutation r) = ResultingStateForMutation kind).
Proof.
  cbv zeta. unfold PlanLocalCopyOnWriteMutationForTransaction, ValidateCopyOnWriteTransactionState.
  case_decide as Hro; [split; [|done]; split; [done|intros [? _]; congruence]|].
  case_decide as Hnw; [split; [|done]; split; [done|naive_solver]|].
  apply Decidable.not_or in Hnw as [Hact%dec_stable Hrb%not_true_is_false].
  change (cwt_ok (mkCowTxResult MgaOkStatus DiagnosticRecord_default)) with true. cbn [negb].
  unfold PlanCopyOnWriteMutation. rewrite validate_keeps, validate_mutation_iff. split; [|done]. split.
  - intros [Hk Ht Hr Hb Hn Hi _ _ _]. simpl in *. split_and!; try done.
    destruct (decide (kind = ck_insert)) as [Hins|Hins]; [lia|]. apply Hi. by apply bool_decide_eq_true_2.
  - intros (_ & _ & Ht & Hr & Hk & Hseq). split; simpl; try done.
    + by rewrite bool_decide_eq_true.
    + destruct (decide (kind = ck_insert)); lia.
    + rewrite bool_decide_eq_true. intros Hne. by rewrite decide_False in Hseq.
    + by destruct kind.
Qed.

(** The cleanup assessment calls a version eligible exactly when its metadata
    is well formed, it is neither in limbo nor awaiting recovery, and every
    supplied horizon is of a known kind, authoritative, valid and strictly above
    the version's creator; and it never grants authority to reclaim. *)
Theorem cleanup_eligibility_exact m horizons :
  (cer_decision (EvaluateCleanupEligibility m horizons) = ce_eligible_requires_authority <->
   metadata_ok m /\ rvm_state m <> rvs_limbo /\ rvm_state m <> rvs_recovery_required /\
   forall h, h ∈ horizons -> chz_hold_kind h <> hk_unknown /\ chz_authoritative h = true /\
     creator_id m < chz_horizon_transaction h) /\
  cer_decision (EvaluateCleanupEligibility m horizons) <> ce_eligible_authoritative.
Proof.
  unfold EvaluateCleanupEligibility, ValidateRowVersionMetadata. cbn [rvmr_status].
  change (status_ok (obs_status ?o)) with (obs_ok o). fold (creator_id m).
  destruct (obs_ok (ObserveRowVersionMetadata m)) eqn:Hm.
  2:{ split; [|done]. split; [done|]. intros [Hok _]. apply observe_metadata_ok in Hok. congruence. }
  apply observe_metadata_ok in Hm. cbn [negb orb].
  assert (bool_decide (ti_scope (rvi_creator_transaction (rvm_identity m)) <> scope_local_node) &&
    bool_decide (ti_scope (rvi_creator_transaction (rvm_identity m)) <> scope_cluster_global) = false) as ->.
  { destruct (identity_scope_known (rvi_creator_transaction (rvm_identity m))) as [-> | ->]; try done.
    apply observe_identity_ok. by destruct Hm. }
  case_decide as Hl; [split; [|done]; split; [done|tauto]|].
  case_decide as Hr; [split; [|done]; split; [done|tauto]|].
  assert (Hhold : match cleanup_hold (creator_id m) horizons with
    | Some r => (cer_decision r <> ce_eligible_requires_authority /\
                 cer_decision r <> ce_eligible_authoritative) /\
        ~ (forall h, h ∈ horizons -> chz_hold_kind h <> hk_unknown /\ chz_authoritative h = true /\
             creator_id m < chz_horizon_transaction h)
    | None => forall h, h ∈ horizons -> chz_hold_kind h <> hk_unknown /\ chz_authoritative h = true /\
             creator_id m < chz_horizon_transaction h
    end).
  { clear. induction horizons as [|h hs IH]; simpl; [set_solver|]. unfold local_id_valid, kInvalidLocalTransactionId.
    case_decide as H1; [split; [done|]; intros H; by destruct (H h ltac:(by left))|].
    destruct (chz_authoritative h) eqn:H2; cbn [negb];
      [|split; [done|]; intros H; destruct (H h ltac:(by left)) as (_ & ? & _); congruence].
    case_bool_decide as H3; cbn [negb];
      [|split; [done|]; intros H; destruct (H h ltac:(by left)) as (_ & _ & ?); lia].
    case_decide as H4.
    - split; [by destruct (chz_hold_kind h)|]. intros H. destruct (H h ltac:(by left)) as (_ & _ & ?). lia.
    - destruct (cleanup_hold (creator_id m) hs).
      + destruct IH as [Hd Hn]. split; [done|]. intros H. apply Hn. intros x Hx. apply H. by right.
      + intros x [->|Hx]%elem_of_cons; [split_and!; try done; lia|auto]. }
  destruct (cleanup_hold (creator_id m) horizons).
  - destruct Hhold as [[? ?] Hn]. split; [|done]. tauto.
  - split; [|done]. split; [|done]. intros _. done.
Qed.
