(* ===== verification/SavepointClaims.v ===== *)
(** * Properties of savepoints *)

From S2P Require Import Prelude Platform TransactionState Savepoint.

(** ** Collecting the actions *)

Lemma collect_spec id seq ms :
  match collect_actions id seq ms with
  | inr l => l = filter (pending_after id seq) ms /\
      forall m, m ∈ ms -> pending_after id seq m -> sm_undo_evidence_available m = true
  | inl m => m ∈ ms /\ pending_after id seq m /\ sm_undo_evidence_available m = false
  end.
Proof.
  induction ms as [|m ms IH]; simpl; [split; [done|set_solver]|].
  rewrite filter_cons. case_bool_decide as Hp; cbn [negb].
  - rewrite decide_True by done. destruct (sm_undo_evidence_available m) eqn:Hu; cbn [negb].
    + destruct (collect_actions id seq ms); [set_solver|]. destruct IH as [-> Hall]. split; [done|].
      intros x [->|Hx]%elem_of_cons; auto.
    + split; [by left|done].
  - rewrite decide_False by done. destruct (collect_actions id seq ms); [set_solver|].
    destruct IH as [-> Hall]. split; [done|]. intros x [->|Hx]%elem_of_cons; [done|auto].
Qed.

Lemma plan_cases s id name :
  rp_ok (stack_PlanRollbackTo s id name) = true <->
  id <> 0 /\ name <> ""%string /\ exists marker, FindSavepoint (ss_savepoints s) id name = Some marker /\
    forall m, m ∈ ss_mutations s -> pending_after id (sp_mutation_sequence marker) m ->
      sm_undo_evidence_available m = true.
Proof.
  unfold stack_PlanRollbackTo, local_id_valid, kInvalidLocalTransactionId.
  case_bool_decide as Hid; cbn [negb orb]; [|split; [done|tauto]].
  case_bool_decide as Hn; [split; [done|tauto]|].
  destruct (FindSavepoint _ _ _) as [marker|] eqn:Hf; [|split; [done|intros (_ & _ & ? & ? & _); done]].
  pose proof (collect_spec id (sp_mutation_sequence marker) (ss_mutations s)) as Hc.
  destruct (collect_actions _ _ _) as [m|l]; split; try done.
  - intros (_ & _ & mk & [= <-] & Hall). destruct Hc as (Hin & Hp & Hu). rewrite Hall in Hu; done.
  - intros _. split_and!; try done. exists marker. by destruct Hc.
Qed.

Lemma plan_actions s id name marker :
  rp_ok (stack_PlanRollbackTo s id name) = true -> FindSavepoint (ss_savepoints s) id name = Some marker ->
  let p := stack_PlanRollbackTo s id name in
  rp_savepoint p = marker /\
  rp_rollback_actions p ≡ₚ filter (pending_after id (sp_mutation_sequence marker)) (ss_mutations s) /\
  Sorted later_first (rp_rollback_actions p) /\
  rp_affected_mutation_count p = N.of_nat (length (rp_rollback_actions p)).
Proof.
  unfold stack_PlanRollbackTo. intros Hok Hf. destruct (_ || _); [done|]. rewrite Hf in *.
  pose proof (collect_spec id (sp_mutation_sequence marker) (ss_mutations s)) as Hc.
  destruct (collect_actions _ _ _) as [m|l]; [done|]. destruct Hc as [-> _]. simpl. split_and!.
  - done.
  - apply merge_sort_Permutation.
  - apply Sorted_merge_sort. intros x y. unfold later_first. lia.
  - by rewrite merge_sort_Permutation.
Qed.

(** Planning a rollback succeeds exactly when the savepoint exists and every
    mutation of the transaction recorded after it and not yet rolled back has undo
    evidence; the plan then lists exactly those mutations, latest first. *)
Theorem rollback_plan_exact s id name :
  let p := stack_PlanRollbackTo s id name in
  (rp_ok p = true <->
   id <> 0 /\ name <> ""%string /\ exists marker, FindSavepoint (ss_savepoints s) id name = Some marker /\
     forall m, m ∈ ss_mutations s -> pending_after id (sp_mutation_sequence marker) m ->
       sm_undo_evidence_available m = true) /\
  (rp_ok p = true ->
   FindSavepoint (ss_savepoints s) id name = Some (rp_savepoint p) /\
   rp_rollback_actions p ≡ₚ
     filter (pending_after id (sp_mutation_sequence (rp_savepoint p))) (ss_mutations s) /\
   Sorted later_first (rp_rollback_actions p) /\
   rp_affected_mutation_count p = N.of_nat (length (rp_rollback_actions p))).
Proof.
  cbv zeta. split; [apply plan_cases|]. intros Hok.
  destruct (proj1 (plan_cases s id name) Hok) as (_ & _ & marker & Hf & _).
  destruct (plan_actions s id name marker Hok Hf) as (Hm & Hp & Hs & Hc). by rewrite Hm.
Qed.

(** ** Executing *)

(** The executor applied to the actions in order. *)
Definition apply_all {E} (executor : undo_executor E) (state : E) (actions : list SavepointMutationRecord) : E :=
  foldl (fun st m => (ex_ApplyUndo executor st m).1) state actions.

Lemma run_undo_complete {E} (executor : undo_executor E) state actions state' results :
  run_undo executor state actions = (state', results, None) ->
  state' = apply_all executor state actions /\ length results = length actions /\
  Forall (fun r => un_ok r = true) results /\
  Forall (fun m => ex_Supports executor (sm_kind m) = true) actions.
Proof.
  revert state state' results. induction actions as [|m actions IH]; intros state state' results H; simpl in H.
  { simplify_eq. split_and!; done || constructor. }
  destruct (ex_Supports executor (sm_kind m)) eqn:Hs; [|done]. simpl in H.
  unfold apply_all. simpl. destruct (ex_ApplyUndo executor state m) as [st u] eqn:Ha. simpl.
  destruct (un_ok u) eqn:Hu; [|done]. simpl in H.
  destruct (run_undo executor st actions) as [[st' rs] stop] eqn:Hr. simplify_eq.
  destruct (IH _ _ _ Hr) as (-> & Hl & Hall & Hsup). split_and!; simpl; try done; [lia|by constructor|by constructor].
Qed.

Lemma run_undo_stopped {E} (executor : undo_executor E) state actions state' results status d diag :
  run_undo executor state actions = (state', results, Some (status, d, diag)) ->
  status_ok status && bool_decide (d = srd_rollback_actions_ready) = false.
Proof.
  revert state state' results. induction actions as [|m actions IH]; intros state state' results H; simpl in H; [done|].
  destruct (ex_Supports executor (sm_kind m)); simpl in H; [|by simplify_eq].
  destruct (ex_ApplyUndo executor state m) as [st u]. destruct (un_ok u); simpl in H.
  - destruct (run_undo executor st actions) as [[st' rs] stop] eqn:Hr. simplify_eq. by eapply IH.
  - simplify_eq. by rewrite andb_false_r.
Qed.

Lemma find_savepoint_id l id name marker :
  FindSavepoint l id name = Some marker -> marker ∈ l /\ is_savepoint id name marker.
Proof.
  unfold FindSavepoint. intros H. apply last_Some_elem_of in H. by apply list_elem_of_filter in H as [? ?].
Qed.

Lemma mark_clears s id seq :
  filter (pending_after id seq) (ss_mutations (stack_MarkRollbackApplied s id seq)) = [].
Proof.
  simpl. induction (ss_mutations s) as [|m ms IH]; [done|]. rewrite fmap_cons, filter_cons.
  rewrite decide_False; [done|]. unfold mark_rolled_back. case_decide as Hd; unfold pending_after; simpl; [|tauto].
  intros (_ & _ & ?). done.
Qed.

Lemma mark_keeps_marker s id name seq marker :
  FindSavepoint (ss_savepoints s) id name = Some marker -> seq = sp_mutation_sequence marker ->
  FindSavepoint (ss_savepoints (stack_MarkRollbackApplied s id seq)) id name = Some marker.
Proof.
  intros Hf ->. unfold FindSavepoint in *. simpl. revert Hf.
  induction (ss_savepoints s) as [|r l IH] using rev_ind; [done|].
  rewrite !filter_app, !filter_cons, !filter_nil.
  destruct (decide (is_savepoint id name r)) as [Hr|Hr].
  - rewrite last_snoc. intros [= ->]. rewrite decide_True by lia.
    rewrite filter_cons, filter_nil, decide_True by done. by rewrite last_snoc.
  - rewrite app_nil_r. intros Hf. specialize (IH Hf).
    case_decide; [|by rewrite filter_nil, app_nil_r].
    rewrite filter_cons, filter_nil, decide_False by done. by rewrite app_nil_r.
Qed.

Lemma mark_local_id id seq m : sm_local_id (mark_rolled_back id seq m) = sm_local_id m.
Proof. unfold mark_rolled_back. by case_decide. Qed.

Lemma mark_other id seq m : (sm_local_id m : N) <> id -> mark_rolled_back id seq m = m.
Proof. unfold mark_rolled_back. intros. rewrite decide_False; [done|]. by intros [? _]. Qed.

(** What belongs to other transactions is not touched by marking. *)
Lemma mark_others s id seq :
  filter (fun m => (sm_local_id m : N) <> id) (ss_mutations (stack_MarkRollbackApplied s id seq)) =
    filter (fun m => (sm_local_id m : N) <> id) (ss_mutations s) /\
  filter (fun r => (sp_local_id r : N) <> id) (ss_savepoints (stack_MarkRollbackApplied s id seq)) =
    filter (fun r => (sp_local_id r : N) <> id) (ss_savepoints s).
Proof.
  split; simpl.
  - induction (ss_mutations s) as [|m ms IH]; [done|]. rewrite fmap_cons, !filter_cons, IH.
    destruct (decide ((sm_local_id m : N) = id)) as [Heq|Hne].
    + rewrite !decide_False; [done|by intros Hx|]. rewrite mark_local_id. by intros Hx.
    + rewrite (mark_other id seq m) by done. done.
  - induction (ss_savepoints s) as [|r l IH]; [done|]. rewrite !filter_cons.
    destruct (decide ((sp_local_id r : N) = id)) as [Heq|Hne].
    + rewrite (decide_False (P := (sp_local_id r : N) <> id)) by (by intros Hx).
      case_decide; [rewrite filter_cons, decide_False by (by intros Hx)|]; done.
    + rewrite decide_True by (intros [? _]; done). rewrite filter_cons.
      rewrite !(decide_True (P := (sp_local_id r : N) <> id)) by done. by rewrite IH.
Qed.

(** Rollback through an executor is all or nothing on the stack.  On
    success the executor was applied once to every planned action, latest first,
    each application reported success, nothing of the transaction is left pending
    after the savepoint, the savepoint itself remains, and other transactions'
    mutations and savepoints are unchanged; on any failure the stack is as
    before, so the same rollback can be attempted again. *)
Theorem execute_rollback_contract E (executor : undo_executor E) s id name (state : E) :
  let p := stack_PlanRollbackTo s id name in
  let '(s', state', r) := stack_ExecuteRollbackTo s id name (Some executor) state in
  (re_ok r = true ->
   rp_ok p = true /\ state' = apply_all executor state (rp_rollback_actions p) /\
   length (re_undo_results r) = length (rp_rollback_actions p) /\
   Forall (fun u => un_ok u = true) (re_undo_results r) /\
   rp_ok (stack_PlanRollbackTo s' id name) = true /\
   rp_savepoint (stack_PlanRollbackTo s' id name) = rp_savepoint p /\
   rp_rollback_actions (stack_PlanRollbackTo s' id name) = [] /\
   filter (fun m => (sm_local_id m : N) <> id) (ss_mutations s') =
     filter (fun m => (sm_local_id m : N) <> id) (ss_mutations s) /\
   filter (fun x => (sp_local_id x : N) <> id) (ss_savepoints s') =
     filter (fun x => (sp_local_id x : N) <> id) (ss_savepoints s)) /\
  (re_ok r = false -> s' = s).
Proof.
  cbv zeta. unfold stack_ExecuteRollbackTo.
  destruct (rp_ok (stack_PlanRollbackTo s id name)) eqn:Hok; cbn [negb].
  2:{ split; [|done]. unfold re_ok, rp_ok in *. simpl. congruence. }
  destruct (proj1 (plan_cases s id name) Hok) as (Hid & Hn & marker & Hf & _).
  destruct (plan_actions s id name marker Hok Hf) as (Hm & _ & _ & _).
  destruct (run_undo executor state _) as [[state' results] [[[status d] diag]|]] eqn:Hrun.
  { split; [|done]. unfold re_ok. simpl. by rewrite (run_undo_stopped _ _ _ _ _ _ _ _ Hrun). }
  destruct (run_undo_complete _ _ _ _ _ Hrun) as (Hst & Hl & Hall & _).
  split; [|done]. intros _. rewrite Hm.
  set (s' := stack_MarkRollbackApplied s id (sp_mutation_sequence marker)).
  pose proof (mark_clears s id (sp_mutation_sequence marker)) as Hclear. fold s' in Hclear.
  assert (Hf' : FindSavepoint (ss_savepoints s') id name = Some marker)
    by (by apply mark_keeps_marker).
  assert (Hok' : rp_ok (stack_PlanRollbackTo s' id name) = true).
  { apply plan_cases. split_and!; try done. exists marker. split; [done|]. intros m Hin Hp.
    assert (Hx : m ∈ filter (pending_after id (sp_mutation_sequence marker)) (ss_mutations s'))
      by by apply list_elem_of_filter. rewrite Hclear in Hx. by apply elem_of_nil in Hx. }
  destruct (plan_actions s' id name marker Hok' Hf') as (Hm' & Hp' & _ & _). rewrite Hclear in Hp'.
  destruct (mark_others s id (sp_mutation_sequence marker)) as [Ho1 Ho2].
  split_and!; try done. by apply Permutation_nil_r.
Qed.

(** ** Names on the stack *)

Definition savepoint_key (r : SavepointRecord) : N * string := (sp_local_id r, sp_name r).

Inductive stack_op :=
| sto_create (id : LocalTransactionId) (name : string) (sequence : N)
| sto_release (id : LocalTransactionId) (name : string)
| sto_rollback_to (id : LocalTransactionId) (name : string)
| sto_record (m : SavepointMutationRecord)
| sto_apply (id : LocalTransactionId) (name : string)
| sto_execute (executor : undo_executor unit) (id : LocalTransactionId) (name : string).

Definition run_stack_op (s : SavepointStack) (op : stack_op) : SavepointStack :=
  match op with
  | sto_create id name seq => (stack_Create s id name seq).1
  | sto_release id name => (stack_Release s id name).1
  | sto_rollback_to id name => (stack_RollbackTo s id name).1
  | sto_record m => (stack_RecordMutation s m).1
  | sto_apply id name => (stack_ApplyRollbackTo s id name).1
  | sto_execute executor id name => (stack_ExecuteRollbackTo s id name (Some executor) tt).1.1
  end.

Lemma keys_sublist l l' : sublist l l' -> NoDup (savepoint_key <$> l') -> NoDup (savepoint_key <$> l).
Proof. intros Hs Hn. eapply sublist_NoDup; [exact Hn|]. by apply fmap_sublist. Qed.

Lemma mark_sublist s id seq : sublist (ss_savepoints (stack_MarkRollbackApplied s id seq)) (ss_savepoints s).
Proof. apply sublist_filter. Qed.

Lemma cut_sublist s id name keep : sublist (ss_savepoints (cut_stack s id name keep).1) (ss_savepoints s).
Proof. unfold cut_stack. case_match; [case_match|]; simpl; [apply sublist_take|done]. Qed.

Lemma run_stack_op_keys s op :
  NoDup (savepoint_key <$> ss_savepoints s) -> NoDup (savepoint_key <$> ss_savepoints (run_stack_op s op)).
Proof.
  intros Hn. destruct op as [id name seq|id name|id name|m|id name|executor id name]; simpl.
  - unfold stack_Create. destruct (_ || _); [done|]. simpl. rewrite fmap_app. apply NoDup_app. split_and!.
    + eapply keys_sublist; [apply sublist_filter|done].
    + intros k (r & -> & [Hr _]%list_elem_of_filter)%list_elem_of_fmap Hk%list_elem_of_singleton.
      apply Hr. unfold savepoint_key in Hk. by simplify_eq.
    + apply NoDup_singleton.
  - eapply keys_sublist; [apply cut_sublist|done].
  - eapply keys_sublist; [apply cut_sublist|done].
  - unfold stack_RecordMutation. by destruct (_ || _).
  - unfold stack_ApplyRollbackTo. case_match; [done|]. case_match; [done|].
    eapply keys_sublist; [apply mark_sublist|done].
  - unfold stack_ExecuteRollbackTo. case_match; [done|].
    destruct (run_undo executor tt _) as [[? ?] [[[? ?] ?]|]]; [done|].
    eapply keys_sublist; [apply mark_sublist|done].
Qed.

(** After any sequence of operations each transaction has at most one
    savepoint of a name, so the forward scan of release and marker rollback and
    the reverse scan of planning find the same record; and a savepoint just
    created is found, with the sequence it was given. *)
Theorem savepoint_lookup_consistent ops id name seq :
  let s := foldl run_stack_op SavepointStack_default ops in
  NoDup (savepoint_key <$> ss_savepoints s) /\
  (snd <$> list_find (is_savepoint id name) (ss_savepoints s)) = FindSavepoint (ss_savepoints s) id name /\
  (spr_ok (stack_Create s id name seq).2 = true ->
   exists r, FindSavepoint (ss_savepoints (stack_Create s id name seq).1) id name = Some r /\
     r = spr_savepoint (stack_Create s id name seq).2 /\ sp_mutation_sequence r = seq).
Proof.
  cbv zeta. set (s := foldl run_stack_op SavepointStack_default ops).
  assert (Hn : NoDup (savepoint_key <$> ss_savepoints s)).
  { assert (Hgen : forall s0, NoDup (savepoint_key <$> ss_savepoints s0) ->
      NoDup (savepoint_key <$> ss_savepoints (foldl run_stack_op s0 ops))).
    { clear. induction ops as [|op ops IH]; intros s0 H0; [done|]. simpl. by apply IH, run_stack_op_keys. }
    apply Hgen. constructor. }
  split_and!; [done| |].
  - revert Hn. unfold FindSavepoint. generalize (ss_savepoints s). clear. intros l Hn.
    induction l as [|r l IH]; [done|]. rewrite fmap_cons, NoDup_cons in Hn. destruct Hn as [Hr Hn].
    simpl. rewrite filter_cons. case_decide as Hd.
    + simpl. assert (filter (is_savepoint id name) l = []) as ->; [|done].
      apply elem_of_nil_inv. intros x [[Hx1 Hx2] Hx]%list_elem_of_filter. apply Hr. apply list_elem_of_fmap. exists x.
      split; [|done]. destruct Hd. unfold savepoint_key. congruence.
    + rewrite <- IH by done. by destruct (list_find (is_savepoint id name) l) as [[]|].
  - unfold stack_Create. destruct (_ || _); [done|]. intros _. simpl. eexists. split; [|done].
    unfold FindSavepoint. rewrite filter_app, filter_cons, decide_True by done.
    by rewrite filter_nil, last_snoc.
Qed.

(** Releasing a savepoint of transaction 1 also drops the later savepoint of
    transaction 2 kept in the same stack. *)
Lemma release_cuts_other_transactions :
  let s := foldl run_stack_op SavepointStack_default [sto_create 1 "a" 0; sto_create 2 "b" 0] in
  stack_size s = 2 /\ stack_size (stack_Release s 1 "a").1 = 0.
Proof. done. Qed.

(** After executing a rollback to "a", savepoint "b", created later with no
    mutation in between, survives; the marker rollback removes it. *)
Lemma same_sequence_savepoint_survives :
  let s := foldl run_stack_op SavepointStack_default [sto_create 1 "a" 5; sto_create 1 "b" 5] in
  stack_size (stack_ApplyRollbackTo s 1 "a").1 = 2 /\ stack_size (stack_RollbackTo s 1 "a").1 = 1.
Proof. done. Qed.
