(* ===== verification/TableContentClaims.v ===== *)
(** * Correctness of table content generations

    Merged intervals cover what the recorded rollbacks cover, the inventory index
    is the inventory, an accepted history names each generation once, and the
    selection loop follows the chain of visible generations. *)

From S2P Require Import Prelude Platform Uuid TransactionState Inventory RowVersion InventoryTheorems.
From S2P Require Import InventorySteps Samples TableContent.

(** ** Intervals *)

Definition inside (sequence : N) (i : N * N) : Prop := fst i < sequence /\ sequence <= snd i.

Definition covered (l : list (N * N)) (sequence : N) : Prop := exists i, i ∈ l /\ inside sequence i.

(** Non-empty intervals with gaps between them, in ascending order; and the same for
    a stack that holds the last one first. *)
Fixpoint separated (l : list (N * N)) : Prop :=
  match l with
  | [] => True
  | i :: l => fst i < snd i /\ Forall (fun j => snd i < fst j) l /\ separated l
  end.

Fixpoint stacked (l : list (N * N)) : Prop :=
  match l with
  | [] => True
  | i :: l => fst i < snd i /\ Forall (fun j => snd j < fst i) l /\ stacked l
  end.

Lemma covered_cons i l sequence : covered (i :: l) sequence <-> inside sequence i \/ covered l sequence.
Proof.
  unfold covered. split.
  - intros (j & [->|Hj]%elem_of_cons & H); [by left|right; by exists j].
  - intros [H|(j & Hj & H)]; [exists i; split; [apply list_elem_of_here|done]|].
    exists j. split; [by apply list_elem_of_further|done].
Qed.

Lemma covered_perm l l' sequence : l ≡ₚ l' -> covered l sequence <-> covered l' sequence.
Proof. intros H. unfold covered. by setoid_rewrite H. Qed.

Lemma covered_nil sequence : covered [] sequence <-> False.
Proof. split; [intros (i & Hi & _); by apply not_elem_of_nil in Hi|done]. Qed.

Lemma separated_snoc l i :
  separated l -> fst i < snd i -> Forall (fun j => snd j < fst i) l -> separated (l ++ [i]).
Proof.
  induction l as [|j l IH]; simpl; intros Hl Hi Hf; [done|]. destruct Hl as (Hj & Hg & Hs).
  inversion Hf; subst. split_and!; [done| |by apply IH]. apply Forall_app. split; [done|by constructor].
Qed.

Lemma stacked_reverse l : stacked l -> separated (reverse l).
Proof.
  induction l as [|i l IH]; simpl; intros Hl; [done|]. destruct Hl as (Hi & Hg & Hs). rewrite reverse_cons.
  apply separated_snoc; [by apply IH|done|]. by rewrite reverse_Permutation.
Qed.

(** The merge loop keeps the union and separates it. *)
Lemma merge_into_spec retained l :
  stacked retained -> StronglySorted interval_le l -> Forall (fun i => fst i < snd i) l ->
  (forall i r, head retained = Some r -> i ∈ l -> fst r <= fst i) ->
  separated (merge_into retained l) /\
  forall sequence, covered (merge_into retained l) sequence <-> covered retained sequence \/ covered l sequence.
Proof.
  revert retained. induction l as [|[lo hi] l IH]; intros retained Hr Hs Hne Hlow; cbn [merge_into].
  - split; [by apply stacked_reverse|]. intros sequence. rewrite (covered_perm _ retained) by apply reverse_Permutation.
    rewrite covered_nil. tauto.
  - inversion Hs as [|? ? Hs' Hall]; inversion Hne as [|? ? Hi Hne']; subst. simpl in Hi.
    assert (forall i, i ∈ l -> lo <= fst i) as Hlo.
    { rewrite Forall_forall in Hall. intros i Hx. destruct (Hall i Hx) as [H|[H _]]; simpl in H; lia. }
    destruct retained as [|[rlo rhi] rest].
    + destruct (IH [(lo, hi)]) as [H1 H2]; try done.
      { intros i r [= <-] Hx. by apply Hlo. }
      split; [done|]. intros sequence. rewrite H2, !covered_cons, !covered_nil. tauto.
    + destruct Hr as (Hrr & Hrest & Hst). simpl in Hrr, Hrest.
      assert (rlo <= lo) as Hord.
      { apply (Hlow (lo, hi) (rlo, rhi)); [done|apply list_elem_of_here]. }
      case_decide as Hd.
      * destruct (IH ((rlo, N.max rhi hi) :: rest)) as [H1 H2]; try done.
        { simpl. split_and!; [lia|done|done]. }
        { intros i r [= <-] Hx. simpl. specialize (Hlo i Hx). lia. }
        split; [done|]. intros sequence. rewrite H2, !covered_cons. unfold inside. simpl.
        assert (rlo < sequence /\ sequence <= N.max rhi hi <->
                (rlo < sequence /\ sequence <= rhi) \/ (lo < sequence /\ sequence <= hi)) as -> by lia. tauto.
      * destruct (IH ((lo, hi) :: (rlo, rhi) :: rest)) as [H1 H2]; try done.
        { simpl. split_and!; try done. constructor; [simpl; lia|].
          eapply Forall_impl; [exact Hrest|]. simpl. intros j Hj. lia. }
        { intros i r [= <-] Hx. by apply Hlo. }
        split; [done|]. intros sequence. rewrite H2, !covered_cons. tauto.
Qed.

#[export] Instance interval_le_trans : Transitive interval_le.
Proof. intros a b c. unfold interval_le. lia. Qed.

#[export] Instance interval_le_total : Total interval_le.
Proof. intros a b. unfold interval_le. lia. Qed.

Lemma merge_intervals_spec l :
  Forall (fun i => fst i < snd i) l ->
  separated (merge_intervals l) /\ forall sequence, covered (merge_intervals l) sequence <-> covered l sequence.
Proof.
  intros Hl. destruct (merge_into_spec [] (merge_sort interval_le l)) as [H1 H2]; try done.
  - apply (StronglySorted_merge_sort _).
  - by rewrite merge_sort_Permutation.
  - split; [done|]. intros sequence. unfold merge_intervals. rewrite H2, covered_nil.
    rewrite (covered_perm _ l) by apply merge_sort_Permutation. tauto.
Qed.

(** The binary search looks only at the last interval that begins below. *)
Lemma lower_bound_spec l sequence :
  separated l ->
  (match lower_bound sequence l with
   | O => false
   | S i => match l !! i with Some (_, hi) => bool_decide (sequence <= hi) | None => false end
   end = true <-> covered l sequence).
Proof.
  induction l as [|[lo hi] l IH]; intros Hs; [by rewrite covered_nil|]. destruct Hs as (Hi & Hg & Hs).
  rewrite covered_cons. specialize (IH Hs). cbn [lower_bound]. unfold inside. simpl in Hi, Hg |- *.
  assert (covered l sequence -> hi < sequence) as Hbeyond.
  { intros (j & Hj & H1 & _). rewrite Forall_forall in Hg. specialize (Hg j Hj). lia. }
  case_decide as Hd.
  - destruct (lower_bound sequence l) as [|i] eqn:E; cbn [lookup list_lookup].
    + rewrite bool_decide_eq_true. split; [by left|]. intros [[_ H]|H]; [done|]. by apply IH in H.
    + rewrite <- IH. split; [by right|]. intros [[_ H]|H]; [|done]. exfalso.
      destruct l as [|[lo' hi'] l]; [done|]. cbn [lower_bound] in E. apply Forall_cons in Hg as [H1 _]. simpl in H1.
      case_decide; [lia|done].
  - split; [done|]. intros [[H _]|H]; [done|]. specialize (Hbeyond H). lia.
Qed.

(** ** Recorded rollbacks *)

Definition rollback_interval (r : TableContentGenerationRollbackInterval) : N * N :=
  (tb_effect_sequence_lower_exclusive r, tb_effect_sequence_upper_inclusive r).

(** The effect [sequence] of transaction [local] was undone by a recorded rollback. *)
Definition rolled_back_effect (rollbacks : list TableContentGenerationRollbackInterval) (local sequence : N) : Prop :=
  exists r, r ∈ rollbacks /\ tb_creator_local_transaction_id r = local /\ inside sequence (rollback_interval r).

Lemma collect_rollbacks_spec entries l ids effects effects' :
  collect_rollbacks entries l ids effects = inr effects' ->
  (forall local i, i ∈ default [] (effects' !! local) <->
     i ∈ default [] (effects !! local) \/
     exists r, r ∈ l /\ tb_creator_local_transaction_id r = local /\ i = rollback_interval r) /\
  (forall r, r ∈ l -> fst (rollback_interval r) < snd (rollback_interval r)).
Proof.
  revert ids effects. induction l as [|r l IH]; intros ids effects; cbn [collect_rollbacks].
  - intros [= ->]. split; [|intros r Hr; by apply not_elem_of_nil in Hr]. intros local i. split; [by left|].
    intros [H|(r & Hr & _)]; [done|by apply not_elem_of_nil in Hr].
  - destruct (_ || _) eqn:Hbad; [done|]. destruct (Creator _ _ _); [|done]. intros H.
    apply IH in H as [H1 H2]. split.
    + intros local i. rewrite H1. setoid_rewrite elem_of_cons.
      destruct (decide (tb_creator_local_transaction_id r = local)) as [<-|Hne].
      * rewrite lookup_insert_eq. simpl. rewrite elem_of_app, list_elem_of_singleton.
        fold (rollback_interval r). naive_solver.
      * rewrite lookup_insert_ne by done. naive_solver.
    + intros r' [->|Hr]%elem_of_cons; [|by apply H2]. rewrite !orb_false_iff in Hbad.
      destruct Hbad as [[[_ _] Hlt] _]. apply bool_decide_eq_false in Hlt. simpl. lia.
Qed.

(** The merged search answers whether a recorded rollback covers the effect. *)
Lemma effect_invalidated_spec entries rollbacks effects local sequence :
  collect_rollbacks entries rollbacks ∅ ∅ = inr effects ->
  effect_invalidated (merge_intervals <$> effects) local sequence = true <->
  rolled_back_effect rollbacks local sequence.
Proof.
  intros H. apply collect_rollbacks_spec in H as [Hin Hne]. unfold effect_invalidated. rewrite lookup_fmap.
  specialize (Hin local). rewrite lookup_empty in Hin. cbn [default from_option] in Hin.
  assert (covered (default [] (effects !! local)) sequence <-> rolled_back_effect rollbacks local sequence) as <-.
  { unfold covered, rolled_back_effect. setoid_rewrite Hin. split.
    - intros (i & [Hi|(r & Hr & Hl & ->)] & Hc); [by apply not_elem_of_nil in Hi|]. by exists r.
    - intros (r & Hr & Hl & Hc). exists (rollback_interval r). split; [right; by exists r|done]. }
  destruct (effects !! local) as [l|]; cbn [default from_option fmap option_fmap option_map].
  - assert (Forall (fun i => fst i < snd i) l) as Hl.
    { apply Forall_forall. intros i Hi. apply Hin in Hi as [Hi|(r & Hr & _ & ->)];
        [by apply not_elem_of_nil in Hi|by apply Hne]. }
    destruct (merge_intervals_spec l Hl) as [Hs Hc]. rewrite <- Hc. by apply lower_bound_spec.
  - by rewrite covered_nil.
Qed.

(** ** The index *)

Lemma index_entries_spec inv l entries ids entries' :
  index_entries inv l entries ids = Some entries' ->
  forall k e, entries' !! k = Some e <-> entries !! k = Some e \/ e ∈ l /\ ti_local_id (e_identity e) = k.
Proof.
  revert entries ids. induction l as [|e0 l IH]; intros entries ids; cbn [index_entries].
  - intros [= ->] k e. split; [by left|]. intros [H|[H _]]; [done|by apply not_elem_of_nil in H].
  - destruct (_ || _) eqn:Hbad; [done|]. intros H k e. rewrite !orb_false_iff in Hbad.
    destruct Hbad as [[_ Hnew] _]. apply bool_decide_eq_false in Hnew. rewrite (IH _ _ H k e).
    rewrite lookup_insert_Some, elem_of_cons. split; [naive_solver|].
    intros [Hk|[[->|Hl] <-]]; [|naive_solver|naive_solver]. left. right. split; [|done].
    intros Heq. apply Hnew. rewrite Heq. by eexists.
Qed.

Lemma index_entries_usable inv l entries ids entries' :
  index_entries inv l entries ids = Some entries' -> Forall (fun e => entry_indexable inv e = true) l.
Proof.
  revert entries ids. induction l as [|e l IH]; intros entries ids; cbn [index_entries]; [done|].
  destruct (_ || _) eqn:Hbad; [done|]. intros H. rewrite !orb_false_iff in Hbad. destruct Hbad as [[He _] _].
  constructor; [by apply negb_false_iff in He|by eapply IH].
Qed.

(** The transaction that published a version. *)
Definition creator_of (inv : LocalTransactionInventory) (v : TableContentGenerationVersion)
    (e : TransactionInventoryEntry) : Prop :=
  e ∈ inv_entries inv /\ ti_local_id (e_identity e) = tg_creator_local_transaction_id v /\
  entry_id e = tg_creator_transaction_uuid v.

Lemma creator_spec inv entries v e :
  index_entries inv (inv_entries inv) ∅ ∅ = Some entries ->
  Creator entries (tg_creator_local_transaction_id v) (tg_creator_transaction_uuid v) = Some e <-> creator_of inv v e.
Proof.
  intros H. pose proof (index_entries_spec _ _ _ _ _ H) as Hi. unfold Creator, creator_of. split.
  - destruct (entries !! _) as [e'|] eqn:Hl; [|done]. case_decide; [|done]. intros [= ->].
    apply Hi in Hl as [Hl|[? ?]]; [by rewrite lookup_empty in Hl|done].
  - intros (Hin & Hl & Hid). assert (entries !! tg_creator_local_transaction_id v = Some e) as ->.
    { apply Hi. by right. }
    by rewrite decide_True.
Qed.

(** ** Accepted histories *)

Lemma check_targets_generations database first ordinal prior batch targets s s' :
  check_targets database first ordinal prior batch targets s = Some s' ->
  NoDup (tg_generation_uuid <$> batch) /\
  (forall v, v ∈ batch -> hs_generations s !! tg_generation_uuid v = None) /\
  (forall g, is_Some (hs_generations s' !! g) <-> is_Some (hs_generations s !! g) \/ g ∈ tg_generation_uuid <$> batch).
Proof.
  revert ordinal prior targets s. induction batch as [|v batch IH]; intros ordinal prior targets s; cbn [check_targets].
  - intros [= ->]. split_and!; [constructor|intros v Hv; by apply not_elem_of_nil in Hv|]. intros g. split; [by left|].
    intros [H|H]; [done|by apply not_elem_of_nil in H].
  - destruct (target_corrupt _ _ _ _ _ _ _) eqn:Hbad; [done|]. intros H. apply IH in H as (Hnd & Hnew & Hdom).
    unfold target_corrupt in Hbad. apply orb_false_iff in Hbad as [_ Hv]. apply bool_decide_eq_false in Hv.
    cbn [record_target hs_generations] in Hnew, Hdom. rewrite fmap_cons. split_and!.
    + constructor; [|done]. intros (v' & Heq & Hv')%list_elem_of_fmap. specialize (Hnew v' Hv').
      by rewrite <- Heq, lookup_insert_eq in Hnew.
    + intros v' [->|Hv']%elem_of_cons; [by destruct (hs_generations s !! _); [destruct Hv; eexists|]|].
      specialize (Hnew v' Hv'). by apply lookup_insert_None in Hnew as [? _].
    + intros g. rewrite Hdom, elem_of_cons. destruct (decide (tg_generation_uuid v = g)) as [<-|Hne].
      * rewrite lookup_insert_eq. split; [intros _; right; by left|intros _; left; by eexists].
      * rewrite lookup_insert_ne by done. naive_solver.
Qed.

Lemma fields_count database v : Fields v database = true -> (0 < N.to_nat (tg_batch_target_count v))%nat.
Proof.
  unfold Fields. rewrite !andb_true_iff. intros H. destruct H as [[[[_ H] _] _] _].
  apply bool_decide_eq_true in H. lia.
Qed.

Lemma check_batches_generations fuel database history s s' :
  check_batches fuel database history s = Some s' ->
  NoDup (tg_generation_uuid <$> history) /\
  (forall v, v ∈ history -> hs_generations s !! tg_generation_uuid v = None).
Proof.
  revert history s. induction fuel as [|fuel IH]; intros history s; cbn [check_batches]; [done|].
  destruct history as [|first history]; [split; [constructor|intros v Hv; by apply not_elem_of_nil in Hv]|].
  set (h := first :: history). destruct (_ || _); [done|]. cbv zeta.
  set (n := N.to_nat (tg_batch_target_count first)).
  destruct (check_targets _ _ _ _ _ _ _) as [s1|] eqn:Ht; [|done]. intros H. apply IH in H as [Hnd Hnew].
  apply check_targets_generations in Ht as (Hnd1 & Hnew1 & Hdom). cbn [hs_generations] in Hnew1, Hdom.
  rewrite <- (take_drop n h), fmap_app. split.
  - apply NoDup_app. split_and!; [done| |done]. intros g Hg (v & -> & Hv)%list_elem_of_fmap.
    specialize (Hnew v Hv). assert (is_Some (hs_generations s1 !! tg_generation_uuid v)) as [x Hx]; [|congruence].
    apply Hdom. by right.
  - intros v [Hv|Hv]%elem_of_app; [by apply Hnew1|]. specialize (Hnew v Hv).
    destruct (hs_generations s !! tg_generation_uuid v) eqn:Hs; [|done]. exfalso.
    assert (is_Some (hs_generations s1 !! tg_generation_uuid v)) as [x Hx]; [|congruence]. apply Hdom. left. by eexists.
Qed.

(** The fuel of the batch loop is enough. *)
Lemma check_batches_fuel fuel fuel' database history s :
  (length history < fuel)%nat -> (length history < fuel')%nat ->
  check_batches fuel database history s = check_batches fuel' database history s.
Proof.
  revert fuel' history s. induction fuel as [|fuel IH]; intros fuel' history s Hf Hf'; [lia|].
  destruct fuel' as [|fuel']; [lia|]. cbn [check_batches]. destruct history as [|first history]; [done|].
  destruct (Fields first database) eqn:Hfields; [|done]. cbn [negb orb]. destruct (_ || _); [done|]. cbv zeta.
  destruct (check_targets _ _ _ _ _ _ _) as [s1|]; [|done]. apply fields_count in Hfields.
  apply IH; rewrite length_drop; simpl in Hf, Hf' |- *; lia.
Qed.

(** ** Selection *)

Definition rolled_back (rollbacks : list TableContentGenerationRollbackInterval)
    (v : TableContentGenerationVersion) : Prop :=
  rolled_back_effect rollbacks (tg_creator_local_transaction_id v) (tg_publication_effect_sequence v).

Definition judged (ctx : TableContentGenerationReadContext) (v : TableContentGenerationVersion)
    (e : TransactionInventoryEntry) : VisibilityDecision :=
  vr_decision (EvaluateVisibility (version_metadata e v) (tc_snapshot ctx)).

(** [v] is a version of the table whose publication stands, published by [e], and the
    reader's snapshot judges it [d]. *)
Definition standing (ctx : TableContentGenerationReadContext)
    (rollbacks : list TableContentGenerationRollbackInterval) (inv : LocalTransactionInventory)
    (d : VisibilityDecision) (v : TableContentGenerationVersion) (e : TransactionInventoryEntry) : Prop :=
  tg_table_uuid v = tc_table_uuid ctx /\ ~ rolled_back rollbacks v /\ creator_of inv v e /\ judged ctx v e = d.

Definition shown ctx rollbacks inv v : Prop := exists e, standing ctx rollbacks inv vd_visible v e.

Definition links (prev : option TableContentGenerationVersion) (v : TableContentGenerationVersion) : Prop :=
  match prev with
  | Some b => tg_predecessor_generation_uuid v = tg_generation_uuid b
  | None => NilId (tg_predecessor_generation_uuid v) = true
  end.

(** Each generation names the one before it. *)
Fixpoint follows (prev : option TableContentGenerationVersion) (l : list TableContentGenerationVersion) : Prop :=
  match l with [] => True | v :: l => links prev v /\ follows (Some v) l end.

Definition last_or (prev : option TableContentGenerationVersion) (l : list TableContentGenerationVersion) :=
  match last l with Some v => Some v | None => prev end.

Lemma last_or_cons prev v l : last_or prev (v :: l) = last_or (Some v) l.
Proof. unfold last_or. rewrite last_cons. by destruct (last l). Qed.

Inductive select_outcome (invalidated : bool) (d : VisibilityDecision) (x : TransactionIdentity)
    (v : TableContentGenerationVersion) (r : TableContentGenerationSelection) (pending : gset N)
    : TableContentGenerationSelection * gset N -> Prop :=
| so_skip : invalidated = true \/ d = vd_invisible -> select_outcome invalidated d x v r pending (r, pending)
| so_known : invalidated = false -> d = vd_wait_for_transaction -> ti_local_id x ∈ pending ->
    select_outcome invalidated d x v r pending (r, pending)
| so_new : invalidated = false -> d = vd_wait_for_transaction -> ti_local_id x ∉ pending ->
    select_outcome invalidated d x v r pending
      (mkTableSelection (ts_status r) (ts_binding r) (ts_pending_creators r ++ [x]), {[ti_local_id x]} ∪ pending)
| so_bind : invalidated = false -> d = vd_visible -> links (ts_binding r) v ->
    select_outcome invalidated d x v r pending
      (mkTableSelection tss_selected (Some v) (ts_pending_creators r), pending).

Lemma select_version_outcome snapshot effects creator v r pending acc :
  select_version snapshot effects creator v (r, pending) = inr acc ->
  select_outcome
    (effect_invalidated effects (tg_creator_local_transaction_id v) (tg_publication_effect_sequence v))
    (vr_decision (EvaluateVisibility (version_metadata creator v) snapshot)) (e_identity creator) v r pending acc.
Proof.
  unfold select_version. destruct (decide _); [done|]. destruct (decide _); [done|].
  destruct (HasCommittedInventoryOutcome creator && _); [done|].
  destruct (effect_invalidated _ _ _) eqn:Hi. { intros [= <-]. constructor. by left. }
  destruct (vr_decision _) eqn:Hd; try done.
  - destruct (ts_binding r) as [b|] eqn:Hb.
    + destruct (bool_decide _) eqn:Hp; [done|]. intros [= <-]. apply bool_decide_eq_false, dec_stable in Hp.
      constructor; [done|done|]. by rewrite Hb.
    + destruct (NilId _) eqn:Hp; [|done]. intros [= <-]. constructor; [done|done|]. by rewrite Hb.
  - intros [= <-]. constructor. by right.
  - destruct (decide _); intros [= <-]; by constructor.
Qed.

Section selection.
Context (ctx : TableContentGenerationReadContext) (inv : LocalTransactionInventory)
  (rollbacks : list TableContentGenerationRollbackInterval) (entries : gmap N TransactionInventoryEntry)
  (effects : gmap N (list (N * N))).
Hypothesis Hindex : index_entries inv (inv_entries inv) ∅ ∅ = Some entries.
Hypothesis Heffects : forall local sequence,
  effect_invalidated effects local sequence = true <-> rolled_back_effect rollbacks local sequence.

(** The pending list names transactions of the inventory, each once, and the set
    holds their numbers. *)
Record pending_ok (r : TableContentGenerationSelection) (pending : gset N) : Prop := {
  po_set : forall n, n ∈ pending <-> n ∈ ti_local_id <$> ts_pending_creators r;
  po_nodup : NoDup (ti_local_id <$> ts_pending_creators r);
  po_entries : forall x, x ∈ ts_pending_creators r -> exists e, e ∈ inv_entries inv /\ e_identity e = x }.

Lemma entry_unique e e' :
  e ∈ inv_entries inv -> e' ∈ inv_entries inv -> ti_local_id (e_identity e) = ti_local_id (e_identity e') -> e = e'.
Proof.
  intros He He' Hid. pose proof (index_entries_spec _ _ _ _ _ Hindex) as Hi.
  assert (entries !! ti_local_id (e_identity e) = Some e) as H1 by (apply Hi; by right).
  assert (entries !! ti_local_id (e_identity e) = Some e') as H2 by (apply Hi; by right). congruence.
Qed.

Lemma creator_unique v e e' : creator_of inv v e -> creator_of inv v e' -> e = e'.
Proof. intros (H1 & H2 & _) (H3 & H4 & _). apply entry_unique; congruence. Qed.

Lemma pending_new r pending e :
  pending_ok r pending -> e ∈ inv_entries inv -> ti_local_id (e_identity e) ∉ pending ->
  pending_ok (mkTableSelection (ts_status r) (ts_binding r) (ts_pending_creators r ++ [e_identity e]))
    ({[ti_local_id (e_identity e)]} ∪ pending).
Proof.
  intros [H1 H2 H3] He Hn. split; cbn [ts_pending_creators].
  - intros n. rewrite fmap_app, elem_of_app, elem_of_union, elem_of_singleton, H1. simpl.
    rewrite list_elem_of_singleton. tauto.
  - rewrite fmap_app. apply NoDup_app. split_and!; [done| |apply NoDup_singleton].
    intros n Hx ->%list_elem_of_singleton. apply Hn. by apply H1.
  - intros x [Hx| ->%list_elem_of_singleton]%elem_of_app; [by apply H3|by exists e].
Qed.

(** Already pending: the transaction is on the list. *)
Lemma pending_known r pending e :
  pending_ok r pending -> e ∈ inv_entries inv -> ti_local_id (e_identity e) ∈ pending ->
  e_identity e ∈ ts_pending_creators r.
Proof.
  intros [H1 H2 H3] He Hn. apply H1, list_elem_of_fmap in Hn as (x & Hid & Hx).
  destruct (H3 x Hx) as (e' & He' & <-). by rewrite (entry_unique e e').
Qed.

(** What the loop has found when it ends. *)
Record selection_ok (history : list TableContentGenerationVersion) (r0 r : TableContentGenerationSelection)
    (l : list TableContentGenerationVersion) : Prop := {
  so_sublist : l `sublist_of` history;
  so_members : forall v, v ∈ l <-> v ∈ history /\ shown ctx rollbacks inv v;
  so_follows : follows (ts_binding r0) l;
  so_binding : ts_binding r = last_or (ts_binding r0) l;
  so_status : ts_status r = if decide (l = []) then ts_status r0 else tss_selected;
  so_nodup : NoDup (ti_local_id <$> ts_pending_creators r);
  so_pending : forall x, x ∈ ts_pending_creators r <-> x ∈ ts_pending_creators r0 \/
    exists v e, v ∈ history /\ standing ctx rollbacks inv vd_wait_for_transaction v e /\ x = e_identity e }.

(** A version that binds nothing. *)
Lemma selection_skip v history r0 r1 r l :
  ~ shown ctx rollbacks inv v -> ts_binding r1 = ts_binding r0 -> ts_status r1 = ts_status r0 ->
  (forall x, x ∈ ts_pending_creators r1 <-> x ∈ ts_pending_creators r0 \/
     exists e, standing ctx rollbacks inv vd_wait_for_transaction v e /\ x = e_identity e) ->
  selection_ok history r1 r l -> selection_ok (v :: history) r0 r l.
Proof.
  intros Hn Hb Hst Hp []. split.
  - by apply sublist_cons.
  - intros v'. rewrite so_members0, elem_of_cons. split; [naive_solver|]. intros [[->|?] ?]; naive_solver.
  - by rewrite <- Hb.
  - by rewrite <- Hb.
  - by rewrite <- Hst.
  - done.
  - intros x. rewrite so_pending0, Hp. split.
    + intros [[H|(e & H & ->)]|(v' & e & H1 & H2 & ->)]; [by left|right; exists v, e|right; exists v', e].
      * split; [apply list_elem_of_here|done].
      * split; [by apply list_elem_of_further|done].
    + intros [H|(v' & e & [->|H1]%elem_of_cons & H2 & ->)]; [by do 2 left|left; right; by exists e|right; by exists v', e].
Qed.

(** A version that binds. *)
Lemma selection_bind v history r0 r l :
  shown ctx rollbacks inv v -> (forall e, ~ standing ctx rollbacks inv vd_wait_for_transaction v e) ->
  links (ts_binding r0) v ->
  selection_ok history (mkTableSelection tss_selected (Some v) (ts_pending_creators r0)) r l ->
  selection_ok (v :: history) r0 r (v :: l).
Proof.
  intros Hshown Hw Hl []. cbn [ts_binding ts_status ts_pending_creators] in *. split.
  - by apply sublist_skip.
  - intros v'. rewrite !elem_of_cons, so_members0. split; [|naive_solver]. intros [->|?]; naive_solver.
  - by split.
  - by rewrite last_or_cons.
  - rewrite decide_False by done. rewrite so_status0. by case_decide.
  - done.
  - intros x. rewrite so_pending0. split.
    + intros [H|(v' & e & H1 & H2)]; [by left|right; exists v', e]. split; [by apply list_elem_of_further|done].
    + intros [H|(v' & e & [->|H1]%elem_of_cons & H2 & ->)]; [by left|by destruct (Hw e)|right; by exists v', e].
Qed.

Lemma standing_iff v e d e' :
  tg_table_uuid v = tc_table_uuid ctx -> creator_of inv v e ->
  standing ctx rollbacks inv d v e' <->
  effect_invalidated effects (tg_creator_local_transaction_id v) (tg_publication_effect_sequence v) = false /\
  e' = e /\ judged ctx v e = d.
Proof.
  intros Ht Hc. unfold standing, rolled_back. rewrite <- Heffects. split.
  - intros (_ & Hr & Hc' & Hd). pose proof (creator_unique _ _ _ Hc Hc') as <-. split; [|done].
    by apply not_true_is_false.
  - intros (Hf & -> & Hd). split_and!; try done. congruence.
Qed.

Lemma select_versions_ok history r0 pending r :
  pending_ok r0 pending -> select_versions ctx entries effects history (r0, pending) = inr r ->
  exists l, selection_ok history r0 r l.
Proof.
  revert r0 pending. induction history as [|v history IH]; intros r0 pending Hp; cbn [select_versions fst].
  - intros [= ->]. exists []. split; try done; [set_solver|apply Hp|set_solver].
  - case_decide as Ht.
    { intros H. destruct (IH _ _ Hp H) as [l Hl]. exists l. eapply selection_skip; try done.
      - intros (e & He & _). done.
      - intros x. split; [by left|]. intros [Hx|(e & (He & _) & _)]; done. }
    destruct (Creator _ _ _) as [e|] eqn:Hc; [|done]. apply (creator_spec inv entries v e Hindex) in Hc.
    destruct (select_version _ _ _ _ _) as [code|[r1 pending1]] eqn:Hs; [done|]. apply select_version_outcome in Hs.
    pose proof (fun d e' => standing_iff v e d e' Ht Hc) as Hst. revert Hs Hst. fold (judged ctx v e).
    generalize (effect_invalidated effects (tg_creator_local_transaction_id v) (tg_publication_effect_sequence v)).
    intros i Hs Hst H. unfold shown in *.
    inversion Hs as [Hor|Hf Hd Hin|Hf Hd Hin|Hf Hd Hl]; subst.
    + destruct (IH _ _ Hp H) as [l Hl]. exists l. eapply selection_skip; try done.
      * intros [e' Hv]. apply Hst in Hv as (? & _ & ?). destruct Hor; congruence.
      * intros x. split; [by left|]. intros [Hx|(e' & Hv & _)]; [done|]. apply Hst in Hv as (? & _ & ?).
        destruct Hor; congruence.
    + destruct (IH _ _ Hp H) as [l Hl]. exists l. eapply selection_skip; try done.
      * intros [e' Hv]. apply Hst in Hv as (_ & _ & ?). congruence.
      * intros x. split; [by left|]. intros [Hx|(e' & Hv & ->)]; [done|]. apply Hst in Hv as (_ & -> & _).
        by eapply pending_known; [|apply Hc|].
    + destruct (IH _ _ (pending_new _ _ _ Hp (proj1 Hc) Hin) H) as [l Hl]. exists l.
      eapply selection_skip; [| | | |exact Hl]; try done.
      * intros [e' Hv]. apply Hst in Hv as (_ & _ & ?). congruence.
      * intros x. cbn [ts_pending_creators]. rewrite elem_of_app, list_elem_of_singleton.
        setoid_rewrite Hst. naive_solver.
    + assert (pending_ok (mkTableSelection tss_selected (Some v) (ts_pending_creators r0)) pending1) as Hp1.
      { destruct Hp. by split. }
      destruct (IH _ _ Hp1 H) as [l Hl']. exists (v :: l). apply selection_bind; try done.
      * exists e. by apply Hst.
      * intros e' Hv. apply Hst in Hv as (_ & _ & ?). congruence.
Qed.
End selection.

Lemma pending_ok_empty inv status : pending_ok inv (mkTableSelection status None []) ∅.
Proof.
  split; simpl; [|constructor|intros x H; by apply not_elem_of_nil in H].
  intros n. split; [intros H; by apply not_elem_of_empty in H|intros H; by apply not_elem_of_nil in H].
Qed.

(** ** Refusal codes *)

Definition refusal (code : TableContentGenerationSelectionStatus) : Prop :=
  code <> tss_selected /\ code <> tss_not_visible.

Lemma reader_refused_code ctx entries code : reader_refused ctx entries = Some code -> refusal code.
Proof.
  unfold reader_refused. destruct (local_id_valid _); [|done].
  destruct (Creator _ _ _); [case_decide; [|done]|]; by intros [= <-].
Qed.

Lemma collect_rollbacks_code entries l ids effects code :
  collect_rollbacks entries l ids effects = inl code -> refusal code.
Proof.
  revert ids effects. induction l as [|r l IH]; intros ids effects; cbn [collect_rollbacks]; [done|].
  destruct (_ || _); [by intros [= <-]|]. destruct (Creator _ _ _); [apply IH|by intros [= <-]].
Qed.

Lemma select_version_code snapshot effects creator v acc code :
  select_version snapshot effects creator v acc = inl code -> refusal code.
Proof.
  unfold select_version. destruct acc as [r pending].
  destruct (decide _); [by intros [= <-]|]. destruct (decide _); [by intros [= <-]|].
  destruct (HasCommittedInventoryOutcome creator && _); [by intros [= <-]|].
  destruct (effect_invalidated _ _ _); [done|].
  destruct (vr_decision _); [|done|by destruct (decide _)|by intros [= <-]|by intros [= <-]].
  destruct (match ts_binding r with Some _ => _ | None => _ end); [by intros [= <-]|done].
Qed.

Lemma select_versions_code ctx entries effects history acc code :
  select_versions ctx entries effects history acc = inl code -> refusal code.
Proof.
  revert acc. induction history as [|v history IH]; intros acc; cbn [select_versions]; [done|].
  case_decide; [apply IH|]. destruct (Creator _ _ _); [|by intros [= <-]].
  destruct (select_version _ _ _ _ _) eqn:Hs; [|apply IH]. intros [= ->]. by eapply select_version_code.
Qed.

(** ** Correctness of table content selection

    The optimised search over rolled back effects, the accepted history and the
    generation a reader is bound to, read declaratively. *)

(** ** Rolled back effects *)

(** Sorting, merging and the binary search over the merged intervals decide exactly
    whether some recorded rollback of the transaction covers the effect. *)
Theorem merged_rollbacks_exact (entries : gmap N TransactionInventoryEntry)
    (rollbacks : list TableContentGenerationRollbackInterval) (effects : gmap N (list (N * N)))
    (local sequence : N) (H : collect_rollbacks entries rollbacks ∅ ∅ = inr effects) :
  effect_invalidated (merge_intervals <$> effects) local sequence = true <->
  exists r, r ∈ rollbacks /\ tb_creator_local_transaction_id r = local /\
    tb_effect_sequence_lower_exclusive r < sequence /\ sequence <= tb_effect_sequence_upper_inclusive r.
Proof. exact (effect_invalidated_spec entries rollbacks effects local sequence H). Qed.

(** ** Selection *)

(** C25: when the resolution of a table's content succeeds ([selected] or [not_visible]),
    the history names each generation once, the visible generations of the table
    (published by a transaction of the inventory, not undone by a recorded rollback and
    visible under the reader's snapshot) form in history order one chain in which
    each names its predecessor and the first names none, the binding is the last of
    them, [not_visible] means there are none, and the pending creators are exactly
    the transactions whose standing publications the snapshot must wait for, each
    once.  Every other status carries no binding and no pending creators. *)
Theorem content_selection_exact (ctx : TableContentGenerationReadContext)
    (history : list TableContentGenerationVersion) (rollbacks : list TableContentGenerationRollbackInterval)
    (inv : LocalTransactionInventory) :
  let r := ResolveTableContentGeneration ctx history rollbacks inv in
  ((ts_status r = tss_selected \/ ts_status r = tss_not_visible) /\
   NoDup (tg_generation_uuid <$> history) /\
   (exists chain, sublist chain history /\
      (forall v, v ∈ chain <-> v ∈ history /\ shown ctx rollbacks inv v) /\
      follows None chain /\ ts_binding r = last chain /\ (ts_status r = tss_not_visible <-> chain = [])) /\
   NoDup (ti_local_id <$> ts_pending_creators r) /\
   (forall x, x ∈ ts_pending_creators r <->
      exists v e, v ∈ history /\ standing ctx rollbacks inv vd_wait_for_transaction v e /\ x = e_identity e)) \/
  (ts_status r <> tss_selected /\ ts_status r <> tss_not_visible /\ ts_binding r = None /\
   ts_pending_creators r = []).
Proof.
  cbv zeta. unfold ResolveTableContentGeneration.
  assert (forall code, refusal code ->
    ts_status (SelectionFail code) <> tss_selected /\ ts_status (SelectionFail code) <> tss_not_visible /\
    ts_binding (SelectionFail code) = None /\ ts_pending_creators (SelectionFail code) = []) as Hfail
    by by intros code [].
  destruct (decide _); [by right; apply Hfail|]. destruct (request_invalid _ _); [by right; apply Hfail|].
  destruct (index_entries _ _ _ _) as [entries|] eqn:Hindex; [|by right; apply Hfail].
  destruct (reader_refused _ _) as [code|] eqn:Hreader.
  { right. by eapply Hfail, reader_refused_code. }
  destruct (check_batches _ _ _ _) as [s|] eqn:Hbatches; [|by right; apply Hfail].
  destruct (creators_known _ _); [|by right; apply Hfail]. cbn [negb].
  destruct (collect_rollbacks _ _ _ _) as [code|effects] eqn:Heffects.
  { right. by eapply Hfail, collect_rollbacks_code. }
  destruct (select_versions _ _ _ _ _) as [code|r] eqn:Hsel.
  { right. by eapply Hfail, select_versions_code. }
  left. apply (select_versions_ok ctx inv rollbacks entries) in Hsel as [l [S1 S2 S3 S4 S5 S6 S7]]; cbn [ts_binding ts_status] in *.
  - split_and!; [| | |done|].
    + rewrite S5. case_decide; [by right|by left].
    + by apply check_batches_generations in Hbatches as [? _].
    + exists l. split_and!; try done; [by rewrite S4; unfold last_or; destruct (last l)|].
      rewrite S5. by case_decide.
    + intros x. rewrite S7. cbn [ts_pending_creators]. split; [|by right]. intros [Hx|Hx]; [|done].
      by apply not_elem_of_nil in Hx.
  - done.
  - intros local sequence. by apply effect_invalidated_spec with entries.
  - apply pending_ok_empty.
Qed.

(** ** A sample table *)

Definition table_id (n : N) : ContentGenerationUuid := uuid_bytes (sample_uuid n).

(** One has committed; two has begun. *)
Definition table_inventory : LocalTransactionInventory :=
  sample_run [op_begin (sample_txn_uuid 1) 10; op_commit 1 20; op_begin (sample_txn_uuid 2) 30].

Definition table_version (generation : N) (predecessor : ContentGenerationUuid) (transaction sequence : N)
    : TableContentGenerationVersion :=
  mkTableVersion (table_id 100) (table_id 101) (table_id 102) (table_id 103) (table_id (110 + generation))
    (table_id (120 + generation)) predecessor (table_id (130 + generation)) (table_id (140 + generation))
    (table_id (150 + generation)) (table_id transaction) transaction sequence 1 0 1.

(** Two generations by the committed transaction, the second of them rolled back to a
    savepoint, and one by the active one. *)
Definition table_history : list TableContentGenerationVersion :=
  [table_version 1 (replicate 16 0) 1 10; table_version 2 (table_id 121) 1 20; table_version 3 (table_id 121) 2 30].

Definition table_rollbacks : list TableContentGenerationRollbackInterval :=
  [mkTableRollback (table_id 200) (table_id 1) 1 15 25; mkTableRollback (table_id 201) (table_id 1) 1 12 18].

Definition table_reader : TableContentGenerationReadContext :=
  mkTableReadContext (table_id 100) (table_id 102) (replicate 16 0)
    (mkVisibilitySnapshot 0 2 true false false [] [] 0 false).

(** The reader is bound to the first generation and told of the pending third. *)
Lemma sample_content_selected :
  let r := ResolveTableContentGeneration table_reader table_history table_rollbacks table_inventory in
  ts_status r = tss_selected /\ tg_generation_uuid <$> ts_binding r = Some (table_id 121) /\
  ti_local_id <$> ts_pending_creators r = [2].
Proof. cbv zeta. split_and!; vm_compute; reflexivity. Qed.

(** An archived transaction, of whatever table, makes every resolution fail, although
    the outcome of an archived creator is on record. *)
Lemma archived_entry_blocks_resolution ctx history rollbacks inv e :
  e ∈ inv_entries inv -> e_state e = ts_archived ->
  ts_status (ResolveTableContentGeneration ctx history rollbacks inv) ∈ [tss_inventory_required; tss_invalid_request].
Proof.
  intros He Ha. unfold ResolveTableContentGeneration.
  destruct (decide _); [apply list_elem_of_here|].
  destruct (request_invalid _ _); [apply list_elem_of_further, list_elem_of_here|].
  destruct (index_entries _ _ _ _) as [entries|] eqn:Hindex; [exfalso|apply list_elem_of_here].
  apply index_entries_usable in Hindex. rewrite Forall_forall in Hindex. specialize (Hindex e He).
  unfold entry_indexable in Hindex. rewrite !andb_true_iff in Hindex. destruct Hindex as [[_ H] _].
  apply bool_decide_eq_true in H. by rewrite Ha in H.
Qed.
