(* ===== verification/ManagerClaims.v ===== *)
(** * Correctness of the local transaction manager

    The manager refines executions of the inventory, its counters agree with the
    inventory it holds, and durable prepare is a legal inventory step. *)

From S2P Require Import Prelude Platform TransactionState Inventory Horizon RowVersion Snapshot.
From S2P Require Import InventoryEvolution InventoryTheorems InventorySteps Samples Manager.

(** ** Calls *)

Inductive manager_op :=
| mo_begin (uuid : TypedUuid) (millis : N)
| mo_commit (id : LocalTransactionId) (millis : N)
| mo_rollback (id : LocalTransactionId) (millis : N)
| mo_abort (id : LocalTransactionId) (millis : N).

Definition manager_call (op : manager_op) : LocalTransactionManager -> LocalTransactionManagerResult * LocalTransactionManager :=
  match op with
  | mo_begin uuid millis => manager_Begin uuid millis
  | mo_commit id millis => manager_Commit id millis
  | mo_rollback id millis => manager_Rollback id millis
  | mo_abort id millis => manager_Abort id millis
  end.

(** The inventory operation behind a call. *)
Definition manager_inventory_op (op : manager_op) : inventory_op :=
  match op with
  | mo_begin uuid millis => op_begin uuid millis
  | mo_commit id millis => op_commit id millis
  | mo_rollback id millis => op_rollback id millis
  | mo_abort id millis => op_abort id millis
  end.

Definition manager_run (ops : list manager_op) (m : LocalTransactionManager) : LocalTransactionManager :=
  foldl (fun m op => snd (manager_call op m)) m ops.

Lemma manager_call_refines op m :
  let r := fst (manager_call op m) in
  let m' := snd (manager_call op m) in
  lmr_inventory r = lm_inventory m' /\ lmr_metrics r = lm_metrics m' /\
  lm_inventory m' = default (lm_inventory m) (run_op (lm_inventory m) (manager_inventory_op op)) /\
  (lmr_ok r = true <-> is_Some (run_op (lm_inventory m) (manager_inventory_op op))).
Proof.
  destruct op; cbn [manager_call manager_inventory_op run_op];
    unfold manager_Begin, manager_Commit, manager_Rollback, manager_Abort, manager_apply, FromInventoryResult,
      accepted, lmr_ok; cbv zeta; cbn [fst snd lmr_inventory lmr_metrics lm_inventory lm_metrics lmr_status];
    destruct (ir_ok _) eqn:Hok; unfold ir_ok in Hok; rewrite Hok; (split_and!; [done|done|done|]);
    by split; [|intros []].
Qed.

Lemma manager_run_steps ops m : rtc inventory_step (lm_inventory m) (lm_inventory (manager_run ops m)).
Proof.
  revert m. induction ops as [|op ops IH]; intros m; [constructor|]. unfold manager_run. cbn [foldl].
  etrans; [|apply (IH (snd (manager_call op m)))]. destruct (manager_call_refines op m) as (_ & _ & -> & _).
  destruct (run_op _ _) as [inv|] eqn:H; [apply rtc_once; by eexists|constructor].
Qed.

(** ** Counters *)

Definition in_state (s : TransactionState) (es : list TransactionInventoryEntry) : N :=
  N.of_nat (length (filter (fun e => e_state e = s) es)).

(** The counters after [calls] calls, against the inventory. *)
Record counted (calls : N) (m : LocalTransactionManager) : Prop := {
  cd_begin : tm_begin_total (lm_metrics m) = N.of_nat (length (inv_entries (lm_inventory m)));
  cd_active : tm_active_current (lm_metrics m) = in_state ts_active (inv_entries (lm_inventory m));
  cd_commit : tm_commit_total (lm_metrics m) = in_state ts_committed (inv_entries (lm_inventory m));
  cd_back : tm_rollback_total (lm_metrics m) + tm_abort_total (lm_metrics m) =
    in_state ts_rolled_back (inv_entries (lm_inventory m));
  cd_states : Forall (fun e => e_state e ∈ [ts_active; ts_committed; ts_rolled_back]) (inv_entries (lm_inventory m));
  cd_calls : tm_begin_total (lm_metrics m) + tm_commit_total (lm_metrics m) + tm_rollback_total (lm_metrics m) +
    tm_abort_total (lm_metrics m) + tm_failure_total (lm_metrics m) = calls }.

Lemma in_state_app s es es' : in_state s (es ++ es') = in_state s es + in_state s es'.
Proof. unfold in_state. rewrite filter_app, length_app. lia. Qed.

Lemma in_state_one s e : in_state s [e] = if decide (e_state e = s) then 1 else 0.
Proof.
  unfold in_state. destruct (decide (e_state e = s)); [rewrite filter_cons_True by done|rewrite filter_cons_False by done]; done.
Qed.

Lemma in_state_replace s es i old new :
  es !! i = Some old ->
  in_state s (<[i := new]> es) + (if decide (e_state old = s) then 1 else 0) =
  in_state s es + (if decide (e_state new = s) then 1 else 0).
Proof.
  intros Hi. rewrite <- (take_drop_middle es i old Hi) at 2. rewrite insert_take_drop by by eapply lookup_lt_Some.
  rewrite (cons_middle new), (cons_middle old), !in_state_app, !in_state_one. lia.
Qed.

Lemma in_state_bound s es : in_state s es <= N.of_nat (length es).
Proof. unfold in_state. pose proof (length_filter (fun e => e_state e = s) es). lia. Qed.

(** An active entry that ends in [s]. *)
Lemma finished_counts es i old new s :
  es !! i = Some old -> e_state old = ts_active -> e_state new = s -> s ∈ [ts_committed; ts_rolled_back] ->
  Forall (fun e => e_state e ∈ [ts_active; ts_committed; ts_rolled_back]) es ->
  let es' := <[i := new]> es in
  length es' = length es /\ in_state ts_active es' + 1 = in_state ts_active es /\
  in_state s es' = in_state s es + 1 /\
  (forall t, t <> s -> t <> ts_active -> in_state t es' = in_state t es) /\
  Forall (fun e => e_state e ∈ [ts_active; ts_committed; ts_rolled_back]) es'.
Proof.
  intros Hi Ho Hn Hs Hall. cbv zeta.
  assert (s <> ts_active) as Hsa by (intros ->; set_solver).
  pose proof (fun t => in_state_replace t es i old new Hi) as Hr. rewrite Ho, Hn in Hr. split_and!.
  - apply length_insert.
  - specialize (Hr ts_active). rewrite decide_True, decide_False in Hr by done. lia.
  - specialize (Hr s). rewrite decide_False, decide_True in Hr by done. lia.
  - intros t H1 H2. specialize (Hr t). rewrite !decide_False in Hr by done. lia.
  - apply Forall_insert; [done|]. rewrite Hn. set_solver.
Qed.

Lemma less_active_small n : 0 < n -> n < u64_modulus -> less_active n = n - 1.
Proof. intros H Hn. unfold less_active. rewrite decide_True by lia. apply u64_sub_small; lia. Qed.

(** The state a finished entry had, as the manager only leaves three of them. *)
Lemma unfinished_is_active e l s e' es :
  TransitionsOrFail e (s :: l) = inr e' -> s <> ts_archived -> e ∈ es ->
  Forall (fun e => e_state e ∈ [ts_active; ts_committed; ts_rolled_back]) es -> e_state e = ts_active.
Proof.
  intros Ht Hs He Hall. apply transitions_not_terminal in Ht; [|done]. rewrite Forall_forall in Hall.
  specialize (Hall e He). rewrite !elem_of_cons in Hall.
  destruct Hall as [H|[H|[H|H]]]; [done|by rewrite H in Ht|by rewrite H in Ht|by apply not_elem_of_nil in H].
Qed.

Lemma counted_failure calls inv metrics :
  calls + 1 < u64_modulus -> counted calls (mkManager inv metrics) ->
  counted (calls + 1) (mkManager inv (RecordFailure metrics)).
Proof.
  intros Hc []. cbn [lm_inventory lm_metrics] in *.
  split; cbn [lm_inventory lm_metrics RecordFailure tm_begin_total tm_commit_total tm_rollback_total tm_abort_total
    tm_active_current tm_failure_total]; try done. rewrite u64_add_small by lia. lia.
Qed.

Lemma counted_begin calls m uuid millis :
  calls + 1 < u64_modulus -> counted calls m ->
  ir_ok (BeginLocalTransaction (lm_inventory m) uuid millis) = true ->
  counted (calls + 1) (mkManager (ir_inventory (BeginLocalTransaction (lm_inventory m) uuid millis))
                         (RecordBegin (lm_metrics m))).
Proof.
  intros Hc [] Hok. destruct (begin_ok _ _ _ _ _ eq_refl Hok) as (_ & _ & _ & _ & _ & _ & _ & _ & He & Hi).
  unfold BeginLocalTransaction. rewrite Hi, He. pose proof (in_state_bound ts_active (inv_entries (lm_inventory m))).
  split; cbn [lm_inventory lm_metrics RecordBegin tm_begin_total tm_commit_total tm_rollback_total tm_abort_total
    tm_active_current tm_failure_total inv_entries];
    rewrite ?length_app, ?in_state_app, ?in_state_one; cbn [length e_state].
  - rewrite u64_add_small by lia. lia.
  - rewrite decide_True by done. rewrite u64_add_small by lia. lia.
  - rewrite decide_False by done. lia.
  - rewrite decide_False by done. lia.
  - apply Forall_app. split; [done|]. repeat constructor.
  - rewrite u64_add_small by lia. lia.
Qed.

(** Commit, rollback and abort share what they do to the counts. *)
Lemma counted_finish calls m inv' i old new s metrics' :
  calls + 1 < u64_modulus -> counted calls m -> inv_entries (lm_inventory m) !! i = Some old ->
  e_state old = ts_active -> e_state new = s -> s ∈ [ts_committed; ts_rolled_back] ->
  inv_entries inv' = <[i := new]> (inv_entries (lm_inventory m)) ->
  (s = ts_committed /\ metrics' = RecordCommit (lm_metrics m) \/
   s = ts_rolled_back /\ (metrics' = RecordRollback (lm_metrics m) \/ metrics' = RecordAbort (lm_metrics m))) ->
  counted (calls + 1) (mkManager inv' metrics').
Proof.
  intros Hc [] Hi Ho Hn Hs Hes Hm.
  destruct (finished_counts _ _ _ _ _ Hi Ho Hn Hs cd_states0) as (Hl & Ha & Hsame & Hother & Hall).
  rewrite <- Hes in *. pose proof (in_state_bound ts_active (inv_entries (lm_inventory m))) as Hb.
  pose proof (less_active_small (tm_active_current (lm_metrics m))) as Hless.
  destruct Hm as [[-> ->]|[-> [-> | ->]]];
    (split; cbn [lm_inventory lm_metrics RecordCommit RecordRollback RecordAbort tm_begin_total tm_commit_total
       tm_rollback_total tm_abort_total tm_active_current tm_failure_total];
     [congruence|rewrite Hless; lia| | |done|rewrite u64_add_small; lia]).
  - rewrite u64_add_small; lia.
  - rewrite Hother by done. lia.
  - rewrite Hother by done. lia.
  - rewrite u64_add_small; lia.
  - rewrite Hother by done. lia.
  - rewrite u64_add_small; lia.
Qed.

Lemma manager_call_counted calls op m :
  calls + 1 < u64_modulus -> counted calls m -> counted (calls + 1) (snd (manager_call op m)).
Proof.
  intros Hc Hm. pose proof (counted_failure calls (lm_inventory m) (lm_metrics m) Hc ltac:(by destruct m)) as Hfail.
  destruct op; cbn [manager_call]; unfold manager_Begin, manager_Commit, manager_Rollback, manager_Abort, manager_apply,
    FromInventoryResult; cbn [snd lm_inventory lm_metrics]; destruct (ir_ok _) eqn:Hok; try done.
  - by apply counted_begin.
  - destruct (commit_ok _ _ _ _ eq_refl Hok) as (_ & _ & i & old & Hf & _ & _ & Ht & He & Hi).
    apply find_entry_lookup in Hf as [Hf _]. rewrite He in Hi.
    apply (counted_finish _ m _ i old (set_finality millis (inv_next_commit_sequence (lm_inventory m))
      (set_state ts_committed old)) ts_committed); try done; [|set_solver|by rewrite Hi|by left].
    unfold commit_path in Ht. case_decide; (eapply unfinished_is_active; [exact Ht|done| |apply Hm]);
      by eapply list_elem_of_lookup_2.
  - destruct (rollback_ok _ _ _ _ eq_refl Hok) as (i & old & Hf & Ht & Hi).
    apply find_entry_lookup in Hf as [Hf _].
    apply (counted_finish _ m _ i old (set_finality millis (e_commit_sequence old) (set_state ts_rolled_back old))
      ts_rolled_back); try done; [|set_solver|by rewrite Hi|by right; split; [|left]].
    eapply unfinished_is_active; [exact Ht|done| |apply Hm]. by eapply list_elem_of_lookup_2.
  - unfold AbortLocalTransaction in *. destruct (rollback_ok _ _ _ _ eq_refl Hok) as (i & old & Hf & Ht & Hi).
    apply find_entry_lookup in Hf as [Hf _].
    apply (counted_finish _ m _ i old (set_finality millis (e_commit_sequence old) (set_state ts_rolled_back old))
      ts_rolled_back); try done; [|set_solver|by rewrite Hi|by right; split; [|right]].
    eapply unfinished_is_active; [exact Ht|done| |apply Hm]. by eapply list_elem_of_lookup_2.
Qed.

Lemma manager_run_counted ops :
  N.of_nat (length ops) < u64_modulus -> counted (N.of_nat (length ops)) (manager_run ops manager_empty).
Proof.
  induction ops as [|op ops IH] using rev_ind; intros Hl.
  - split; try done.
  - rewrite length_app in Hl |- *. simpl in Hl |- *. unfold manager_run in *. rewrite foldl_app. simpl.
    replace (N.of_nat (length ops + 1)) with (N.of_nat (length ops) + 1) by lia.
    apply manager_call_counted; [lia|]. apply IH. lia.
Qed.

(** C24: whatever calls are made on a manager, its inventory is reached by steps of the
    inventory from the one it began with; each call answers with the inventory and
    counters it leaves, succeeds exactly when the inventory transform is accepted,
    and changes nothing but the failure count when it is refused; and from an empty
    inventory, over fewer than 2^64 calls, the counters are the truth about the
    inventory: entries begun, committed and rolled back, transactions still active,
    and together with the failures every call once. *)
Theorem manager_refines_inventory (ops : list manager_op) (Hops : N.of_nat (length ops) < u64_modulus) :
  (forall m, rtc inventory_step (lm_inventory m) (lm_inventory (manager_run ops m))) /\
  (forall m op, let '(r, m') := manager_call op m in
     lmr_inventory r = lm_inventory m' /\ lmr_metrics r = lm_metrics m' /\
     match run_op (lm_inventory m) (manager_inventory_op op) with
     | Some inv => lmr_ok r = true /\ lm_inventory m' = inv
     | None => lmr_ok r = false /\ m' = mkManager (lm_inventory m) (RecordFailure (lm_metrics m))
     end) /\
  let m := manager_run ops manager_empty in
  let es := inv_entries (lm_inventory m) in
  let c := lm_metrics m in
  tm_begin_total c = N.of_nat (length es) /\ tm_active_current c = in_state ts_active es /\
  tm_commit_total c = in_state ts_committed es /\
  tm_rollback_total c + tm_abort_total c = in_state ts_rolled_back es /\
  tm_begin_total c + tm_commit_total c + tm_rollback_total c + tm_abort_total c + tm_failure_total c =
    N.of_nat (length ops).
Proof.
  split_and!.
  - intros m. apply manager_run_steps.
  - intros m op. destruct op; cbn [manager_call manager_inventory_op run_op];
      unfold manager_Begin, manager_Commit, manager_Rollback, manager_Abort, manager_apply, FromInventoryResult,
        accepted, lmr_ok; cbn [lmr_inventory lmr_metrics lm_inventory lm_metrics lmr_status];
      destruct (ir_ok _) eqn:Hok; unfold ir_ok in Hok; rewrite Hok; done.
  - destruct (manager_run_counted ops Hops). cbv zeta. done.
Qed.

Definition sample_calls : list manager_op :=
  [mo_begin (sample_txn_uuid 1) 10; mo_begin (sample_txn_uuid 2) 11; mo_commit 1 20; mo_commit 1 21;
   mo_begin (sample_txn_uuid 3) 22; mo_abort 3 23].

Lemma manager_refines_inventory_witness :
  tm_failure_total (lm_metrics (manager_run sample_calls manager_empty)) = 1 /\
  tm_active_current (lm_metrics (manager_run sample_calls manager_empty)) =
    in_state ts_active (inv_entries (lm_inventory (manager_run sample_calls manager_empty))).
Proof.
  split; [vm_compute; reflexivity|].
  refine (proj1 (proj2 (proj2 (proj2 (manager_refines_inventory sample_calls _))))). vm_compute. reflexivity.
Defined.

(** ** Durable prepare *)

Lemma entry_evolves_recorded inv old new :
  entry_evolves inv old new -> entry_evolves inv old (set_evidence_recorded new).
Proof. intros []. by split. Qed.

Lemma entry_ok_recorded inv e : entry_ok inv e -> entry_ok inv (set_evidence_recorded e).
Proof. intros []. by split. Qed.

(** The entry the prepared inventory holds under the number is the prepared one. *)
Lemma find_prepared inv id i old new :
  FindEntry inv id = Some (i, old) -> e_identity new = e_identity old ->
  list_find (fun e => ti_local_id (e_identity e) = id) (<[i := new]> (inv_entries inv)) = Some (i, new).
Proof.
  unfold FindEntry. intros (Hi & Hid & Hfirst)%list_find_Some Hn. apply list_find_Some.
  pose proof (lookup_lt_Some _ _ _ Hi). split_and!; [by apply list_lookup_insert_eq|by rewrite Hn|].
  intros j y Hj Hlt. rewrite list_lookup_insert_ne in Hj by lia. by apply (Hfirst j).
Qed.

(** An accepted durable prepare turns a valid inventory into a legal successor in which
    the transaction is prepared with its evidence on record; with prepare disabled
    the same call rolls the transaction back. *)
Theorem durable_prepare_legal inv id policy :
  structure_ok inv -> ir_ok (PrepareLocalTransactionDurable inv id policy) = true ->
  evolves inv (ir_inventory (PrepareLocalTransactionDurable inv id policy)) /\
  exists i old new, FindEntry inv id = Some (i, old) /\
    inv_entries (ir_inventory (PrepareLocalTransactionDurable inv id policy)) = <[i := new]> (inv_entries inv) /\
    e_state new = (if pp_local_prepare_enabled policy then ts_prepared else ts_rolled_back) /\
    (pp_require_evidence_before_prepared_success policy = true -> e_evidence_record_written new = true).
Proof.
  intros Hs. unfold PrepareLocalTransactionDurable. destruct (pp_local_prepare_enabled policy); cbn [negb].
  2:{ intros Hr. split; [by apply rollback_evolves|].
      destruct (rollback_ok _ _ _ _ eq_refl Hr) as (i & old & Hf & _ & ->). by do 3 eexists. }
  destruct (ir_ok (PrepareLocalTransaction inv id)) eqn:Hr; cbn [andb]; [|by rewrite Hr].
  destruct (prepare_ok _ _ _ eq_refl Hr) as (i & old & Hf & Ht & Hi).
  pose proof (prepare_evolves inv id Hs Hr) as Hev. rewrite Hi in *.
  destruct (pp_require_evidence_before_prepared_success policy); intros _.
  2:{ rewrite Hi. split; [done|]. exists i, old, (set_state ts_prepared old). by split_and!. }
  cbn [write_entry set_entries inv_entries]. rewrite (find_prepared _ _ _ _ (set_state ts_prepared old) Hf) by done.
  cbn [ir_inventory set_entries inv_entries write_entry]. rewrite list_insert_insert_eq.
  split; [|exists i, old, (set_evidence_recorded (set_state ts_prepared old)); by split_and!].
  pose proof (find_entry_ok _ _ _ _ Hs Hf) as Hok. pose proof (find_entry_lookup _ _ _ _ Hf) as [Hl _].
  pose proof (lookup_lt_Some _ _ _ Hl) as Hlt.
  assert (entry_ok inv (set_state ts_prepared old)) as Hnew.
  { apply (nonterminal_entry_ok inv); try done. by eapply transitions_not_terminal. }
  apply (replace_entry_evolves inv _ i old (set_evidence_recorded (set_state ts_prepared old))); try done.
  - apply entry_ok_recorded. destruct Hnew. by split.
  - apply entry_evolves_recorded. apply (evo_retained _ _ Hev); [by eapply list_elem_of_lookup_2| |done].
    apply list_elem_of_lookup. exists i. by apply list_lookup_insert_eq.
Qed.
