(* ===== verification/Evidence.v ===== *)
(** * Lineage evidence and restore classification

    Models [transaction_evidence.{hpp,cpp}] of [src/project/src/transaction/mga]: the
    evidence records derived from an inventory and the decision whether it may be
    restored from, with the proof that the decision is exact.  Allocation failure, the source of [resource_exhausted] and
    [internal_failure], is not modelled. *)

From S2P Require Import Prelude Platform TransactionState Inventory InventoryEvolution InventoryTheorems.
From S2P Require Import Recovery InventorySteps Samples.

Record TransactionEvidenceContext := mkEvidenceContext {
  ec_database_uuid : Uuid;
  ec_snapshot_uuid : Uuid;
  ec_policy_snapshot_uuid : Uuid;
  ec_snapshot_generation : N;
  ec_catalog_generation : N;
  ec_security_generation : N;
  ec_policy_generation : N }.

Inductive TransactionEvidenceError :=
| tee_none | tee_invalid_context | tee_wal_not_authority | tee_invalid_inventory | tee_restore_refused
| tee_resource_exhausted | tee_internal_failure.

#[export] Instance TransactionEvidenceError_eq_dec : EqDecision TransactionEvidenceError.
Proof. solve_decision. Defined.

Record TransactionLineageEvidenceRecord := mkLineageRecord {
  tle_local_id : LocalTransactionId;
  tle_transaction_uuid : Uuid;
  tle_context : TransactionEvidenceContext;
  tle_event_class : string;
  tle_observed_state : string;
  tle_terminal_state : string;
  tle_restore_classification : string;
  tle_refusal_condition : string;
  tle_terminal : bool;
  tle_evidence_written : bool;
  tle_wal_required : bool }.

Record TransactionLineageEvidenceResult := mkLineageResult {
  tler_error : TransactionEvidenceError; tler_records : list TransactionLineageEvidenceRecord }.

Record TransactionRestoreClassificationResult := mkRestoreResult {
  trc_error : TransactionEvidenceError;
  trc_records : list TransactionLineageEvidenceRecord;
  trc_restore_allowed : bool;
  trc_wal_required : bool }.

Definition tler_ok (r : TransactionLineageEvidenceResult) : bool := bool_decide (tler_error r = tee_none).
Definition trc_ok (r : TransactionRestoreClassificationResult) : bool := bool_decide (trc_error r = tee_none).

Definition ValidContext (c : TransactionEvidenceContext) : bool :=
  let db := ec_database_uuid c in let snapshot := ec_snapshot_uuid c in let policy := ec_policy_snapshot_uuid c in
  IsEngineIdentityUuid db && IsEngineIdentityUuid snapshot && IsEngineIdentityUuid policy &&
  bool_decide (db <> snapshot) && bool_decide (db <> policy) && bool_decide (snapshot <> policy) &&
  bool_decide (ec_snapshot_generation c <> 0) && bool_decide (ec_catalog_generation c <> 0) &&
  bool_decide (ec_security_generation c <> 0) && bool_decide (ec_policy_generation c <> 0).

Definition EventClassForState (s : TransactionState) : string :=
  match s with
  | ts_created | ts_active | ts_preparing => "begin"
  | ts_read_only_active => "read_only_begin"
  | ts_prepared => "prepare"
  | ts_committing | ts_committed => "commit"
  | ts_rolling_back | ts_rolled_back => "rollback"
  | ts_limbo | ts_recovering => "recovery_hold"
  | ts_failed_terminal => "failed_terminal"
  | ts_archived => "archived"
  | ts_none => "unknown"
  end.

Definition RestoreSafeTerminal (s : TransactionState) : bool :=
  bool_decide (s = ts_committed) || bool_decide (s = ts_rolled_back).

Definition RestoreClassificationFor (c : TransactionRecoveryClassification) (outcome : TransactionState) : string :=
  if rc_fail_closed c then "refuse_fail_closed"
  else if RestoreSafeTerminal outcome then "restore_terminal_evidence"
  else if decide (rc_action c = ra_complete_rollback) then "restore_after_local_rollback_recovery"
  else if decide (rc_action c = ra_complete_commit) then "restore_after_local_commit_recovery"
  else "restore_requires_classification".

Definition BuildRecord (entry : TransactionInventoryEntry) (context : TransactionEvidenceContext)
    : TransactionLineageEvidenceRecord :=
  let classification := ClassifyLocalTransactionForRecovery entry in
  let outcome := InventoryVisibilityState entry in
  mkLineageRecord (e_local_id entry) (e_uuid entry) context (EventClassForState (e_state entry))
    (TransactionStateName (e_state entry))
    (if IsTerminalTransactionState outcome then TransactionStateName outcome else "")
    (RestoreClassificationFor classification outcome)
    (if rc_fail_closed classification then rc_stable_reason classification else "")
    (IsTerminalTransactionState outcome) (e_evidence_record_written entry) false.

Definition TransactionEvidenceErrorCode (e : TransactionEvidenceError) : option string :=
  match e with
  | tee_none => None
  | tee_invalid_context => Some "MGA.EVIDENCE.INVALID_CONTEXT"
  | tee_wal_not_authority => Some "MGA.EVIDENCE.WAL_NOT_AUTHORITY"
  | tee_invalid_inventory => Some "MGA.EVIDENCE.INVENTORY_INVALID"
  | tee_restore_refused => Some "MGA.EVIDENCE.RESTORE_REFUSED"
  | tee_resource_exhausted => Some "MGA.EVIDENCE.RESOURCE_EXHAUSTED"
  | tee_internal_failure => Some "MGA.EVIDENCE.INTERNAL_FAILURE"
  end%string.

Definition refuse_record (reason : string) (r : TransactionLineageEvidenceRecord) : TransactionLineageEvidenceRecord :=
  mkLineageRecord (tle_local_id r) (tle_transaction_uuid r) (tle_context r) (tle_event_class r)
    (tle_observed_state r) (tle_terminal_state r) "refuse_fail_closed" reason (tle_terminal r)
    (tle_evidence_written r) (tle_wal_required r).

Definition BuildTransactionLineageEvidence (inv : LocalTransactionInventory) (context : TransactionEvidenceContext)
    : TransactionLineageEvidenceResult :=
  if negb (ValidContext context) then mkLineageResult tee_invalid_context []
  else
  let invalid := ValidateLocalTransactionInventoryStructure inv in
  mkLineageResult tee_none
    ((fun e => let record := BuildRecord e context in
               if decide (invalid <> ""%string) then refuse_record invalid record else record) <$> inv_entries inv).

Definition ClassifyTransactionInventoryForRestore (inv : LocalTransactionInventory)
    (context : TransactionEvidenceContext) (caller_requires_wal : bool) : TransactionRestoreClassificationResult :=
  let refused error := mkRestoreResult error [] false false in
  if negb (ValidContext context) then refused tee_invalid_context
  else if caller_requires_wal then refused tee_wal_not_authority
  else if decide (ValidateLocalTransactionInventoryStructure inv <> ""%string) then refused tee_invalid_inventory
  else
  let projection := BuildTransactionLineageEvidence inv context in
  if negb (tler_ok projection) then refused (tler_error projection)
  else if existsb (fun r => bool_decide (tle_restore_classification r = "refuse_fail_closed"%string)) (tler_records projection)
  then mkRestoreResult tee_restore_refused (tler_records projection) false false
  else mkRestoreResult tee_none (tler_records projection) true false.

(** ** Correctness of restore classification

    Restore is allowed exactly when recovery would leave nothing fenced. *)

Lemma existsb_false {A} (f : A -> bool) l : existsb f l = false <-> Forall (fun x => f x = false) l.
Proof.
  induction l as [|x l IH]; simpl; [done|]. by rewrite orb_false_iff, Forall_cons, IH.
Qed.

Lemma refused_class c outcome :
  RestoreClassificationFor c outcome = "refuse_fail_closed"%string <-> rc_fail_closed c = true.
Proof.
  unfold RestoreClassificationFor. destruct (rc_fail_closed c); [done|].
  destruct (RestoreSafeTerminal outcome); [done|]. by repeat case_decide.
Qed.

Lemma lineage_records inv context :
  structure_ok inv -> ValidContext context = true ->
  BuildTransactionLineageEvidence inv context =
    mkLineageResult tee_none ((fun e => BuildRecord e context) <$> inv_entries inv).
Proof.
  intros Hs Hc. unfold BuildTransactionLineageEvidence. rewrite Hc, (proj2 (validate_structure_iff inv) Hs). done.
Qed.

Lemma refused_records context es :
  existsb (fun r => bool_decide (tle_restore_classification r = "refuse_fail_closed"%string))
    ((fun e => BuildRecord e context) <$> es) = existsb fenced_entry es.
Proof.
  induction es as [|e es IH]; [done|]. rewrite fmap_cons. cbn [existsb]. rewrite IH. f_equal.
  unfold fenced_entry. cbn [BuildRecord tle_restore_classification].
  destruct (rc_fail_closed _) eqn:Hf.
  - apply bool_decide_eq_true_2. by apply refused_class.
  - apply bool_decide_eq_false_2. rewrite refused_class. by rewrite Hf.
Qed.

(** Restore, on a valid inventory and context. *)
Lemma restore_valid inv context :
  structure_ok inv -> ValidContext context = true ->
  ClassifyTransactionInventoryForRestore inv context false =
    let refused := existsb fenced_entry (inv_entries inv) in
    mkRestoreResult (if refused then tee_restore_refused else tee_none)
      ((fun e => BuildRecord e context) <$> inv_entries inv) (negb refused) false.
Proof.
  intros Hs Hc. unfold ClassifyTransactionInventoryForRestore. cbv zeta.
  rewrite Hc, (lineage_records inv context Hs Hc), (proj2 (validate_structure_iff inv) Hs).
  cbn [negb tler_ok tler_error tler_records]. rewrite decide_False by tauto.
  rewrite refused_records. unfold tler_ok. rewrite bool_decide_eq_true_2 by done. cbn [negb].
  by destruct (existsb fenced_entry (inv_entries inv)).
Qed.

(** An inventory may be restored from exactly when the context is complete, the
    caller asks for no write-ahead log, the inventory is structurally valid and
    recovery classifies no entry as fail-closed.  A recovery pass over it, if it is
    accepted, then leaves write admission unfenced.  The evidence lists one record
    for each entry, in order, with the entry's identity and outcome.  A refusal
    never allows restore, and no answer ever asks for a log. *)
Theorem restore_classification_exact (inv : LocalTransactionInventory) (context : TransactionEvidenceContext)
    (wal : bool) (t : N) :
  let r := ClassifyTransactionInventoryForRestore inv context wal in
  (trc_restore_allowed r = true <->
   ValidContext context = true /\ wal = false /\ ValidateLocalTransactionInventoryStructure inv = ""%string /\
   Forall (fun e => rc_fail_closed (ClassifyLocalTransactionForRecovery e) = false) (inv_entries inv)) /\
  (trc_restore_allowed r = true -> counters_u64 inv ->
   rr_ok (ApplyLocalTransactionInventoryRecovery inv t) = true ->
   rr_write_admission_must_remain_fenced (ApplyLocalTransactionInventoryRecovery inv t) = false) /\
  (trc_restore_allowed r = true ->
   Forall2 (fun e record => tle_local_id record = e_local_id e /\ tle_transaction_uuid record = e_uuid e /\
      tle_terminal record = IsTerminalTransactionState (InventoryVisibilityState e) /\
      tle_refusal_condition record = ""%string) (inv_entries inv) (trc_records r)) /\
  trc_restore_allowed r = trc_ok r /\ trc_wal_required r = false.
Proof.
  cbv zeta. destruct (decide (ValidContext context = true /\ wal = false /\
    ValidateLocalTransactionInventoryStructure inv = ""%string)) as [(Hc & -> & Hs)|Hn]; rewrite validate_structure_iff in *.
  - rewrite (restore_valid inv context Hs Hc). cbv zeta. cbn [trc_restore_allowed trc_records trc_wal_required].
    assert (negb (existsb fenced_entry (inv_entries inv)) = true <->
            Forall (fun e => rc_fail_closed (ClassifyLocalTransactionForRecovery e) = false) (inv_entries inv)) as Hf.
    { rewrite negb_true_iff. apply existsb_false. }
    rewrite Hf. split_and!.
    + split; [intros H; split_and!; done|by intros (_ & _ & _ & H)].
    + intros H Hu Hok. destruct (apply_recovery_valid inv t Hs (proj2 Hu)) as (_ & _ & ->). rewrite Hok, orb_false_r.
      by apply negb_true_iff, Hf.
    + intros H. apply Forall2_fmap_r, Forall_Forall2_diag. eapply Forall_impl; [exact H|]. intros e He.
      unfold compose, BuildRecord. cbv zeta.
      cbn [tle_local_id tle_transaction_uuid tle_terminal tle_refusal_condition]. by rewrite He.
    + unfold trc_ok. cbn [trc_error]. by destruct (existsb fenced_entry (inv_entries inv)).
    + done.
  - assert (exists error, error <> tee_none /\
      ClassifyTransactionInventoryForRestore inv context wal = mkRestoreResult error [] false false) as (error & He & ->).
    { unfold ClassifyTransactionInventoryForRestore. cbv zeta.
      destruct (ValidContext context); [|by exists tee_invalid_context]. cbn [negb].
      destruct wal; [by exists tee_wal_not_authority|]. rewrite decide_True; [by exists tee_invalid_inventory|]. rewrite validate_structure_iff. tauto. }
    cbn [trc_restore_allowed trc_records trc_wal_required]. split_and!; try done.
    + split; [done|]. tauto.
    + unfold trc_ok. cbn [trc_error]. by rewrite bool_decide_eq_false_2.
Qed.

(** Restore is allowed from an inventory on which recovery itself fails: a
    rollback-only transaction in limbo. *)
Lemma restore_allowed_recovery_fails :
  let entry := mkEntry (mkTransactionIdentity 1 (sample_txn_uuid 1) scope_local_node) ts_limbo ts_none
                 10 0 0 0 0 true false true false in
  let inv := mkInventory 2 1 [entry] None in
  let context := mkEvidenceContext (sample_uuid 1) (sample_uuid 2) (sample_uuid 3) 1 1 1 1 in
  trc_restore_allowed (ClassifyTransactionInventoryForRestore inv context false) = true /\
  rr_ok (ApplyLocalTransactionInventoryRecovery inv 50) = false.
Proof. cbv zeta. split; vm_compute; reflexivity. Qed.
