(* ===== verification/CurrentRowMapClaims.v ===== *)
(** * Correctness of the current row map

    A map rebuilt from base rows answers exactly what the base rows say, under the
    epochs it was built for and below every active transaction. *)

From S2P Require Import Prelude Platform Uuid TransactionState Samples CurrentRowMap.

(** ** Probing *)

Definition authority_present (o : CurrentRowMapObservedFacts) : Prop :=
  rmf_parser_client_or_reference_authority o = false /\ rmf_durable_mga_inventory_proof o = true /\
  rmf_transaction_horizon_authoritative o = true /\ rmf_normal_mga_visibility_authority_available o = true /\
  rmf_security_recheck_planned o = true.

(** What an entry must be to be accepted. *)
Record probe_ok (e : CurrentRowMapEntry) (o : CurrentRowMapObservedFacts) : Prop := {
  pk_authority : authority_present o;
  pk_status : rme_status e = rms_current;
  pk_checksum : rme_checksum_valid e = true;
  pk_persisted : rme_persisted_record_present e = true;
  pk_provenance : EngineProvenance (rme_provenance e) = true;
  pk_identities : identities_bind e o = true;
  pk_present : epochs_present e o = true;
  pk_match : epochs_match e o = true;
  pk_horizon : horizon_closed e o = true;
  pk_visible : rme_row_is_current_visible e = true }.

Lemma evaluate_accepts e o : rmd_accepted (EvaluateCurrentRowMapEntryImpl e o) = true <-> probe_ok e o.
Proof.
  unfold EvaluateCurrentRowMapEntryImpl. cbv zeta. split.
  - destruct (rmf_parser_client_or_reference_authority o) eqn:H1; [done|].
    destruct (rmf_durable_mga_inventory_proof o) eqn:H2; [|done].
    destruct (rmf_transaction_horizon_authoritative o) eqn:H3; [|done].
    destruct (rmf_normal_mga_visibility_authority_available o) eqn:H4; [|done]. cbn [negb orb].
    destruct (rmf_security_recheck_planned o) eqn:H5; [|done]. cbn [negb].
    case_decide as H6; [done|]. destruct (bool_decide (rme_status e = rms_corrupt)) eqn:H7; [done|].
    destruct (rme_checksum_valid e) eqn:H8; [|done]. cbn [negb orb].
    destruct (bool_decide (rme_status e = rms_missing)) eqn:H9; [done|].
    destruct (rme_persisted_record_present e) eqn:H10; [|done]. cbn [negb orb].
    destruct (EngineProvenance _) eqn:H11; [|done]. destruct (identities_bind e o) eqn:H12; [|done].
    destruct (epochs_present e o) eqn:H13; [|done]. destruct (epochs_match e o) eqn:H14; [|done].
    destruct (horizon_closed e o) eqn:H15; [|done]. destruct (rme_row_is_current_visible e) eqn:H16; [|done].
    intros _. apply bool_decide_eq_false in H7. apply bool_decide_eq_false in H9. split; try done.
    destruct (rme_status e); naive_solver.
  - intros [(H1 & H2 & H3 & H4 & H5) Hs Hc Hp Hv Hi He Hm Hh Hr].
    by rewrite H1, H2, H3, H4, H5, Hs, Hc, Hp, Hv, Hi, He, Hm, Hh, Hr.
Qed.

(** Every decision leaves the authority where it was. *)
Definition no_authority (d : CurrentRowMapDecision) : Prop :=
  rmd_normal_mga_recheck_required d = true /\ rmd_security_recheck_required d = true /\
  rmd_map_is_visibility_authority d = false /\ rmd_map_is_transaction_finality_authority d = false /\
  rmd_durable_mga_inventory_remains_authority d = true.

Lemma evaluate_no_authority e o : no_authority (EvaluateCurrentRowMapEntryImpl e o).
Proof.
  unfold EvaluateCurrentRowMapEntryImpl. cbv zeta. destruct (rmf_parser_client_or_reference_authority o); [done|].
  destruct (_ || _ || _); [done|]. destruct (negb _); [done|]. case_decide; [done|].
  destruct (_ || _); [done|]. destruct (_ || _); [done|]. destruct (negb (EngineProvenance _)); [done|].
  destruct (negb (identities_bind _ _)); [done|]. destruct (negb (epochs_present _ _)); [done|].
  destruct (negb (epochs_match _ _)); [done|]. destruct (negb (horizon_closed _ _)); [done|]. by destruct (negb _).
Qed.

Lemma evaluate_answer e o :
  probe_ok e o -> rmd_row_uuid (EvaluateCurrentRowMapEntryImpl e o) = rme_row_uuid e /\
  rmd_current_version_uuid (EvaluateCurrentRowMapEntryImpl e o) = rme_current_version_uuid e.
Proof.
  intros [(H1 & H2 & H3 & H4 & H5) Hs Hc Hp Hv Hi He Hm Hh Hr]. unfold EvaluateCurrentRowMapEntryImpl. cbv zeta.
  by rewrite H1, H2, H3, H4, H5, Hs, Hc, Hp, Hv, Hi, He, Hm, Hh, Hr.
Qed.

(** ** Rebuilding *)

Definition row_key (row : CurrentRowAuthoritativeBaseRow) : list N := uuid_bytes (br_row_uuid row).

Lemma check_base_rows_ok l rows versions :
  check_base_rows l rows versions = None ->
  Forall (fun row => base_row_valid row = true) l /\
  NoDup (row_key <$> filter (fun row => shown_row row = true) l) /\
  (forall row, row ∈ l -> shown_row row = true -> row_key row ∉ rows).
Proof.
  revert rows versions. induction l as [|row l IH]; intros rows versions; cbn [check_base_rows].
  - intros _. split_and!; [constructor|constructor|]. intros row H. by apply not_elem_of_nil in H.
  - destruct (base_row_valid row) eqn:Hv; [|done]. cbn [negb]. destruct (shown_row row) eqn:Hs; cbn [negb].
    + destruct (_ || _) eqn:Hd; [done|]. apply orb_false_iff in Hd as [Hd _]. apply bool_decide_eq_false in Hd.
      intros (H1 & H2 & H3)%IH. rewrite filter_cons_True by done. split_and!; [by constructor| |].
      * rewrite fmap_cons. constructor; [|done]. intros (row' & Heq & Hin)%list_elem_of_fmap.
        apply list_elem_of_filter in Hin as [Hs' Hin]. apply (H3 row' Hin Hs'). rewrite <- Heq. unfold row_key. set_solver.
      * intros row' [->|Hin]%elem_of_cons Hs'; [done|]. specialize (H3 row' Hin Hs'). set_solver.
    + intros (H1 & H2 & H3)%IH. rewrite filter_cons_False by congruence. split_and!; [by constructor|done|].
      intros row' [->|Hin]%elem_of_cons Hs'; [congruence|by apply H3].
Qed.

Record rebuilt (request : CurrentRowMapRebuildRequest) (m : CurrentRowMap) : Prop := {
  rt_generation : rm_map_generation m = rq_map_generation request;
  rt_invalidation : rm_invalidation_generation m = rq_invalidation_generation request;
  rt_entries : rm_entries m = rebuilt_entry request <$> filter (fun row => shown_row row = true) (rq_base_rows request);
  rt_epochs : request_epochs_present request = true;
  rt_rows : Forall (fun row => base_row_valid row = true) (rq_base_rows request);
  rt_unique : NoDup (row_key <$> filter (fun row => shown_row row = true) (rq_base_rows request)) }.

Lemma rebuild_ok request :
  rb_ok (RebuildCurrentRowMapFromAuthoritativeBaseRows request) = true ->
  rebuilt request (rb_map (RebuildCurrentRowMapFromAuthoritativeBaseRows request)).
Proof.
  unfold RebuildCurrentRowMapFromAuthoritativeBaseRows. cbv zeta. destruct (rq_map_self_authoritative request); [done|].
  destruct (_ || _); [done|]. destruct (request_epochs_present request) eqn:He; [|done]. cbn [negb].
  destruct (check_base_rows _ _ _) as [[why reason]|] eqn:Hc; [done|]. intros _.
  apply check_base_rows_ok in Hc as (H1 & H2 & _). by split.
Qed.

(** The probe was made for the relation, epochs and generations of the rebuild. *)
Definition same_epochs (request : CurrentRowMapRebuildRequest) (o : CurrentRowMapObservedFacts) : Prop :=
  rq_relation_uuid request = rmf_relation_uuid o /\ rq_relation_epoch request = rmf_relation_epoch o /\
  rq_catalog_epoch request = rmf_catalog_epoch o /\ rq_security_epoch request = rmf_security_epoch o /\
  rq_redaction_epoch request = rmf_redaction_epoch o /\ rq_map_generation request = rmf_map_generation o /\
  rq_invalidation_generation request = rmf_invalidation_generation o.

(** The base row is visible to the reader and to every active transaction. *)
Definition closed_for (o : CurrentRowMapObservedFacts) (row : CurrentRowAuthoritativeBaseRow) : Prop :=
  rmf_reader_visible_through_local_transaction_id o <> 0 /\ rmf_oldest_active_local_transaction_id o <> 0 /\
  br_visible_through_local_transaction_id row <= rmf_reader_visible_through_local_transaction_id o /\
  br_visible_through_local_transaction_id row < rmf_oldest_active_local_transaction_id o.

Lemma rebuilt_probe request o row :
  request_epochs_present request = true -> base_row_valid row = true ->
  probe_ok (rebuilt_entry request row) o <->
  authority_present o /\ same_epochs request o /\ br_row_uuid row = rmf_row_uuid o /\ closed_for o row.
Proof.
  intros Hq Hv. unfold request_epochs_present in Hq. unfold base_row_valid in Hv. cbn [forallb] in Hq.
  rewrite !andb_true_iff, !bool_decide_eq_true in Hq. rewrite !andb_true_iff, bool_decide_eq_true in Hv.
  destruct Hq as (Hrel & Q1 & Q2 & Q3 & Q4 & Q5 & Q6 & _). destruct Hv as [[[V1 V2] V3] V4].
  unfold local_id_valid in V4. split.
  - intros [Ha _ _ _ _ Hi _ Hm Hh _]. unfold identities_bind, epochs_match, horizon_closed in *.
    cbn [rebuilt_entry rme_relation_uuid rme_row_uuid rme_current_version_uuid rme_relation_epoch rme_catalog_epoch
      rme_security_epoch rme_redaction_epoch rme_map_generation rme_invalidation_generation
      rme_visible_through_local_transaction_id] in *.
    rewrite !andb_true_iff, !bool_decide_eq_true in Hi. rewrite !andb_true_iff, !bool_decide_eq_true in Hm.
    rewrite !andb_true_iff, !bool_decide_eq_true in Hh. unfold same_epochs, closed_for.
    unfold local_id_valid, kInvalidLocalTransactionId in Hh. rewrite !bool_decide_eq_true in Hh. tauto.
  - intros (Ha & (E1 & E2 & E3 & E4 & E5 & E6 & E7) & Hr & C1 & C2 & C3 & C4). split; try done.
    + unfold identities_bind. simpl. rewrite <- E1, <- Hr, Hrel, V1, V2. by rewrite !bool_decide_eq_true_2.
    + unfold epochs_present. simpl. rewrite <- E2, <- E3, <- E4, <- E5, <- E6, <- E7. by rewrite !bool_decide_eq_true_2.
    + unfold epochs_match. simpl. by rewrite !bool_decide_eq_true_2.
    + unfold horizon_closed, local_id_valid. cbn [rebuilt_entry rme_visible_through_local_transaction_id].
      rewrite V4. by rewrite !bool_decide_eq_true_2.
Qed.

(** ** Lookup *)

(** The entries of a rebuilt map that name the probed row. *)
Lemma rebuilt_matches request o (l : list CurrentRowAuthoritativeBaseRow) :
  filter (names_row o) (rebuilt_entry request <$> l) =
  rebuilt_entry request <$> filter (fun row => rq_relation_uuid request = rmf_relation_uuid o /\
                                               br_row_uuid row = rmf_row_uuid o) l.
Proof.
  induction l as [|row l IH]; [done|]. rewrite fmap_cons, !filter_cons.
  destruct (decide (names_row o (rebuilt_entry request row))) as [H|H];
    destruct (decide (rq_relation_uuid request = rmf_relation_uuid o /\ br_row_uuid row = rmf_row_uuid o)) as [H'|H'];
    try done; rewrite ?fmap_cons; by rewrite IH.
Qed.

(** Shown rows with the probed identity: none or one. *)
Lemma probed_row_unique request m o :
  rebuilt request m ->
  let l := filter (fun row => rq_relation_uuid request = rmf_relation_uuid o /\ br_row_uuid row = rmf_row_uuid o)
             (filter (fun row => shown_row row = true) (rq_base_rows request)) in
  l = [] \/ exists row, l = [row].
Proof.
  intros Hr l. destruct l as [|row [|row' l']] eqn:El; [by left|right; by exists row|exfalso].
  pose proof (rt_unique _ _ Hr) as Hnd.
  assert (NoDup l) as Hl.
  { apply NoDup_filter. by eapply NoDup_fmap_1. }
  assert (row ∈ l /\ row' ∈ l) as [H1 H2].
  { rewrite El. split; [apply list_elem_of_here|apply list_elem_of_further, list_elem_of_here]. }
  unfold l in H1, H2. apply list_elem_of_filter in H1 as [[_ E1] H1]. apply list_elem_of_filter in H2 as [[_ E2] H2].
  rewrite El in Hl. apply NoDup_cons in Hl as [Hl _]. apply Hl.
  rewrite (NoDup_fmap_inj row_key _ _ _ Hnd H1 H2) by (unfold row_key; congruence). apply list_elem_of_here.
Qed.

(** What a lookup in a rebuilt map evaluates: the base row with the probed identity,
    or an entry that is never accepted. *)
Lemma lookup_rebuilt request m o :
  rebuilt request m ->
  (exists row, row ∈ rq_base_rows request /\ shown_row row = true /\ br_row_uuid row = rmf_row_uuid o /\
     rq_relation_uuid request = rmf_relation_uuid o /\
     fst (LookupCurrentRowMap (Some m) o) = EvaluateCurrentRowMapEntryImpl (rebuilt_entry request row) o) \/
  (exists e, rme_status e <> rms_current /\ fst (LookupCurrentRowMap (Some m) o) = EvaluateCurrentRowMapEntryImpl e o /\
     (same_epochs request o -> forall row, row ∈ rq_base_rows request -> shown_row row = true -> br_row_uuid row <> rmf_row_uuid o)).
Proof.
  intros Hr. unfold LookupCurrentRowMap. cbv zeta. rewrite (rt_entries _ _ Hr).
  set (shown := filter (fun row => shown_row row = true) (rq_base_rows request)).
  case_decide as He.
  { right. eexists. split; [|split; [done|]]; [done|]. intros _ row Hin Hs _.
    apply fmap_nil_inv in He. assert (row ∈ shown) as Hx by (by apply list_elem_of_filter).
    rewrite He in Hx. by apply not_elem_of_nil in Hx. }
  case_decide as Hg.
  { right. eexists. split; [|split; [done|]]; [done|]. intros (_ & _ & _ & _ & _ & E1 & E2).
    rewrite (rt_generation _ _ Hr), (rt_invalidation _ _ Hr) in Hg. naive_solver. }
  rewrite rebuilt_matches. destruct (probed_row_unique request m o Hr) as [Hl|[row Hl]]; cbv zeta in Hl; fold shown in Hl;
    rewrite Hl; cbn [fmap list_fmap].
  - right. eexists. split; [|split; [done|]]; [done|]. intros (E & _) row Hin Hs Hrow.
    assert (row ∈ ([] : list CurrentRowAuthoritativeBaseRow)) as Hx; [|by apply not_elem_of_nil in Hx].
    rewrite <- Hl. apply list_elem_of_filter. split; [done|]. by apply list_elem_of_filter.
  - left. exists row. assert (row ∈ [row]) as Hx by apply list_elem_of_here. rewrite <- Hl in Hx.
    apply list_elem_of_filter in Hx as [[E1 E2] Hx]. apply list_elem_of_filter in Hx as [Hs Hin]. by split_and!.
Qed.

(** C26: in a map successfully rebuilt from base rows, a lookup is accepted exactly when
    the engine's authority evidence is present, the probe carries the relation,
    epochs and generations of the rebuild, and there is a base row of that identity,
    shown and not deleted, visible through a transaction that the reader sees and
    that is below every active one.  The answer is then that row's version, of which
    there is only one; accepted or not, the inventory stays the authority and both rechecks stay
    required. *)
Theorem current_row_lookup_exact (request : CurrentRowMapRebuildRequest) (o : CurrentRowMapObservedFacts)
    (Hok : rb_ok (RebuildCurrentRowMapFromAuthoritativeBaseRows request) = true) :
  let d := fst (LookupCurrentRowMap (Some (rb_map (RebuildCurrentRowMapFromAuthoritativeBaseRows request))) o) in
  (rmd_accepted d = true <->
   authority_present o /\ same_epochs request o /\
   exists row, row ∈ rq_base_rows request /\ shown_row row = true /\ br_row_uuid row = rmf_row_uuid o /\ closed_for o row) /\
  (rmd_accepted d = true -> forall row, row ∈ rq_base_rows request -> shown_row row = true ->
   br_row_uuid row = rmf_row_uuid o -> rmd_row_uuid d = br_row_uuid row /\ rmd_current_version_uuid d = br_version_uuid row) /\
  no_authority d.
Proof.
  pose proof (rebuild_ok request Hok) as Hr. cbv zeta.
  assert (forall row row', row ∈ rq_base_rows request -> shown_row row = true -> row' ∈ rq_base_rows request ->
    shown_row row' = true -> br_row_uuid row = br_row_uuid row' -> row = row') as Huniq.
  { intros row row' H1 H2 H3 H4 H5. eapply (NoDup_fmap_inj row_key); [apply (rt_unique _ _ Hr)| | |].
    - by apply list_elem_of_filter.
    - by apply list_elem_of_filter.
    - unfold row_key. by rewrite H5. }
  destruct (lookup_rebuilt request _ o Hr) as [(row & Hin & Hs & Hrow & Hrel & ->)|(e & He & -> & Hnone)].
  - pose proof (rt_rows _ _ Hr) as Hv. rewrite Forall_forall in Hv. specialize (Hv row Hin).
    split_and!; [| |apply evaluate_no_authority].
    + rewrite evaluate_accepts, (rebuilt_probe request o row (rt_epochs _ _ Hr) Hv). split.
      * intros (Ha & Hse & _ & Hc). split_and!; try done. exists row. done.
      * intros (Ha & Hse & row' & Hin' & Hs' & Hrow' & Hc). assert (row' = row) as -> by (apply Huniq; congruence).
        done.
    + intros Hacc row' Hin' Hs' Hrow'. assert (row' = row) as -> by (apply Huniq; congruence).
      apply evaluate_accepts in Hacc. apply (evaluate_answer _ _ Hacc).
  - split_and!; [| |apply evaluate_no_authority].
    + rewrite evaluate_accepts. split; [by intros []|]. intros (_ & Hse & row & Hin & Hs & Hrow & _).
      by destruct (Hnone Hse row Hin Hs).
    + rewrite evaluate_accepts. by intros [].
Qed.

(** One shown row, one deleted. *)
Definition sample_rebuild : CurrentRowMapRebuildRequest :=
  mkRebuildRequest (sample_uuid 50) 1 2 3 4 5 6 true true false
    [mkBaseRow (sample_uuid 60) (sample_uuid 70) 1 3 false true; mkBaseRow (sample_uuid 61) (sample_uuid 71) 1 3 true true].

Definition sample_probe (row : N) : CurrentRowMapObservedFacts :=
  mkRowMapFacts (sample_uuid 50) (sample_uuid row) 1 2 3 4 5 6 7 9 true true true true false.

Lemma current_row_lookup_exact_witness :
  rb_ok (RebuildCurrentRowMapFromAuthoritativeBaseRows sample_rebuild) = true /\
  rmd_accepted (fst (LookupCurrentRowMap (Some (rb_map (RebuildCurrentRowMapFromAuthoritativeBaseRows sample_rebuild)))
                       (sample_probe 60))) = true /\
  rmd_accepted (fst (LookupCurrentRowMap (Some (rb_map (RebuildCurrentRowMapFromAuthoritativeBaseRows sample_rebuild)))
                       (sample_probe 61))) = false.
Proof.
  assert (rb_ok (RebuildCurrentRowMapFromAuthoritativeBaseRows sample_rebuild) = true) as Hok by (vm_compute; reflexivity).
  split; [exact Hok|]. split; [|vm_compute; reflexivity].
  apply (proj1 (current_row_lookup_exact sample_rebuild (sample_probe 60) Hok)). split; [done|]. split; [done|].
  exists (mkBaseRow (sample_uuid 60) (sample_uuid 70) 1 3 false true). split; [apply list_elem_of_here|]. split; [reflexivity|]. split; [reflexivity|].
  unfold closed_for. simpl. lia.
Defined.
