(* ===== verification/HistoricalSnapshot.v ===== *)
(** * Historical audit snapshots

    Models [historical_snapshot_locator.{hpp,cpp}] of [src/project/src/transaction/mga]:
    a read-only snapshot through a named committed transaction, refused for
    everything that is not local, retained and evidenced; and what a granted one
    shows. *)

From S2P Require Import Prelude Platform TransactionState Inventory Horizon RowVersion Snapshot.
From S2P Require Import InventoryTheorems InventorySteps Samples.

Inductive HistoricalAuditLocationClass := hal_local_hot | hal_local_archive | hal_retired | hal_remote | hal_unknown.

#[export] Instance HistoricalAuditLocationClass_eq_dec : EqDecision HistoricalAuditLocationClass.
Proof. solve_decision. Defined.

Record HistoricalAuditSnapshotEvidence := mkHistoricalEvidence {
  hse_transaction_inventory_authoritative : bool;
  hse_archive_manifest_authoritative : bool;
  hse_security_policy_authoritative : bool;
  hse_catalog_epoch_authoritative : bool;
  hse_cluster_epoch_authoritative : bool;
  hse_external_cluster_provider_available : bool;
  hse_security_epoch : N;
  hse_catalog_generation_id : N;
  hse_cluster_epoch : N }.

Record HistoricalAuditSnapshotRequest := mkHistoricalRequest {
  hsr_inventory : LocalTransactionInventory;
  hsr_audit_reader_transaction : LocalTransactionId;
  hsr_target_local_transaction_id : LocalTransactionId;
  hsr_requested_location_class : HistoricalAuditLocationClass;
  hsr_evidence : HistoricalAuditSnapshotEvidence;
  hsr_retired_history_evidence_present : bool;
  hsr_write_intent : bool }.

Record HistoricalAuditSnapshotResult := mkHistoricalResult {
  has_status : Status;
  has_snapshot : LocalTransactionSnapshot;
  has_visibility_snapshot : VisibilitySnapshot;
  has_target_local_transaction_id : LocalTransactionId;
  has_location_class : HistoricalAuditLocationClass;
  has_target_transaction_state : string;
  has_queryable : bool;
  has_writes_refused : bool;
  has_fail_closed : bool;
  has_retired_history_exact : bool;
  has_no_cluster_remote_fail_closed : bool;
  has_parser_finality_authority : bool;
  has_reference_finality_authority : bool;
  has_diagnostic : DiagnosticRecord }.

Definition has_ok (r : HistoricalAuditSnapshotResult) : bool :=
  status_ok (has_status r) && has_queryable r && local_id_valid (ls_reader_transaction (has_snapshot r)).

Definition HistoricalAuditLocationClassName (c : HistoricalAuditLocationClass) : string :=
  match c with
  | hal_local_hot => "local_hot" | hal_local_archive => "local_archive" | hal_retired => "retired"
  | hal_remote => "remote" | hal_unknown => "unknown"
  end.

Definition MakeHistoricalAuditSnapshotDiagnostic : Status -> string -> string -> string -> DiagnosticRecord :=
  MakeComponentDiagnostic "transaction.mga.historical_snapshot".

Definition HistoricalRefuse (location_class : HistoricalAuditLocationClass) (code key detail : string)
    : HistoricalAuditSnapshotResult :=
  mkHistoricalResult MgaErrorStatus LocalTransactionSnapshot_default VisibilitySnapshot_default
    kInvalidLocalTransactionId location_class "unknown" false true true (bool_decide (location_class = hal_retired))
    (bool_decide (location_class = hal_remote)) false false
    (MakeHistoricalAuditSnapshotDiagnostic MgaErrorStatus code key detail).

(** A refusal that names the target it found. *)
Definition with_target (target : TransactionInventoryEntry) (r : HistoricalAuditSnapshotResult)
    : HistoricalAuditSnapshotResult :=
  mkHistoricalResult (has_status r) (has_snapshot r) (has_visibility_snapshot r) (e_local_id target)
    (has_location_class r) (TransactionStateName (e_state target)) (has_queryable r) (has_writes_refused r)
    (has_fail_closed r) (has_retired_history_exact r) (has_no_cluster_remote_fail_closed r)
    (has_parser_finality_authority r) (has_reference_finality_authority r) (has_diagnostic r).

(** [FindEntry] of this file: an invalid number finds nothing. *)
Definition HistoricalFindEntry (inv : LocalTransactionInventory) (local_id : LocalTransactionId)
    : option TransactionInventoryEntry :=
  if negb (local_id_valid local_id) then None
  else snd <$> list_find (fun e => e_local_id e = local_id) (inv_entries inv).

Definition InferredLocationClass (s : TransactionState) : HistoricalAuditLocationClass :=
  if decide (s = ts_archived) then hal_local_archive else hal_local_hot.

Definition CommonAuthorityEvidencePresent (e : HistoricalAuditSnapshotEvidence) : bool :=
  hse_transaction_inventory_authoritative e && hse_security_policy_authoritative e &&
  hse_catalog_epoch_authoritative e && hse_cluster_epoch_authoritative e &&
  bool_decide (hse_security_epoch e <> 0) && bool_decide (hse_catalog_generation_id e <> 0) &&
  bool_decide (hse_cluster_epoch e <> 0).

(** The end of the routine, once reader, target and location are settled. *)
Definition historical_result (request : HistoricalAuditSnapshotRequest) (reader target : TransactionInventoryEntry)
    (location_class : HistoricalAuditLocationClass) : HistoricalAuditSnapshotResult :=
  let horizons := ComputeLocalTransactionHorizonsFor
    (mkHorizonRequest (hsr_inventory request) [hsr_target_local_transaction_id request]) in
  if negb (hres_ok horizons) then
    mkHistoricalResult (hres_status horizons) LocalTransactionSnapshot_default VisibilitySnapshot_default
      (e_local_id target) location_class (TransactionStateName (e_state target)) false true true false false false false
      (hres_diagnostic horizons)
  else
    let target_id := e_local_id target in
    mkHistoricalResult MgaOkStatus
      (mkLocalSnapshot (e_local_id reader) target_id target_id
         (h_oldest_active_transaction (hres_horizons horizons))
         (h_oldest_snapshot_transaction (hres_horizons horizons)) false 0 0)
      (mkVisibilitySnapshot (e_local_id reader) target_id true false false [] [] 0 false)
      target_id location_class (TransactionStateName (e_state target)) true true false false false false false
      (MakeHistoricalAuditSnapshotDiagnostic MgaOkStatus "SB-MGA-HISTORICAL-SNAPSHOT-OK"
         "transaction.historical_snapshot.ok" (HistoricalAuditLocationClassName location_class)).

Definition CreateHistoricalAuditSnapshot (request : HistoricalAuditSnapshotRequest) : HistoricalAuditSnapshotResult :=
  let evidence := hsr_evidence request in
  if hsr_write_intent request then
    HistoricalRefuse hal_unknown "SB-MGA-HISTORICAL-SNAPSHOT-WRITE-REFUSED"
      "transaction.historical_snapshot.write_refused" ""
  else if decide (hsr_requested_location_class request = hal_remote) then
    HistoricalRefuse hal_remote
      (if hse_external_cluster_provider_available evidence
       then "SB-MGA-HISTORICAL-SNAPSHOT-REMOTE-EXTERNAL-PROVIDER-REQUIRED"
       else "SB-MGA-HISTORICAL-SNAPSHOT-REMOTE-NO-CLUSTER")
      "transaction.historical_snapshot.remote_fail_closed"
      (if hse_external_cluster_provider_available evidence
       then "remote_snapshot_requires_external_cluster_provider" else "remote_snapshot_no_cluster_provider")
  else if hsr_retired_history_evidence_present request ||
          bool_decide (hsr_requested_location_class request = hal_retired) then
    HistoricalRefuse hal_retired "SB-MGA-HISTORICAL-SNAPSHOT-RETIRED-EXACT"
      "transaction.historical_snapshot.retired_exact" "retired_history_requires_restore_or_retention_proof"
  else if negb (CommonAuthorityEvidencePresent evidence) then
    HistoricalRefuse hal_unknown "SB-MGA-HISTORICAL-SNAPSHOT-AUTHORITY-EVIDENCE-REQUIRED"
      "transaction.historical_snapshot.authority_evidence_required" ""
  else
  match HistoricalFindEntry (hsr_inventory request) (hsr_audit_reader_transaction request) with
  | None =>
    HistoricalRefuse hal_unknown "SB-MGA-HISTORICAL-SNAPSHOT-READER-NOT-FOUND"
      "transaction.historical_snapshot.reader_not_found" ""
  | Some reader =>
    if decide (e_state reader <> ts_read_only_active) then
      HistoricalRefuse hal_unknown "SB-MGA-HISTORICAL-SNAPSHOT-READER-NOT-READ-ONLY"
        "transaction.historical_snapshot.reader_not_read_only" (TransactionStateName (e_state reader))
    else
    match HistoricalFindEntry (hsr_inventory request) (hsr_target_local_transaction_id request) with
    | None =>
      HistoricalRefuse hal_unknown "SB-MGA-HISTORICAL-SNAPSHOT-TARGET-UNKNOWN"
        "transaction.historical_snapshot.target_unknown" ""
    | Some target =>
      let location_class :=
        if decide (hsr_requested_location_class request = hal_unknown) then InferredLocationClass (e_state target)
        else hsr_requested_location_class request in
      if bool_decide (location_class = hal_local_archive) && negb (hse_archive_manifest_authoritative evidence) then
        with_target target
          (HistoricalRefuse location_class "SB-MGA-HISTORICAL-SNAPSHOT-ARCHIVE-EVIDENCE-REQUIRED"
             "transaction.historical_snapshot.archive_evidence_required" "")
      else if negb (HasCommittedInventoryOutcome target) then
        with_target target
          (HistoricalRefuse location_class "SB-MGA-HISTORICAL-SNAPSHOT-TARGET-NOT-QUERYABLE"
             "transaction.historical_snapshot.target_not_queryable" (TransactionStateName (e_state target)))
      else historical_result request reader target location_class
    end
  end.

(** ** Correctness of historical audit snapshots

    When a historical snapshot is granted, what it shows, and two gaps. *)

Lemma historical_find inv id e :
  structure_ok inv ->
  HistoricalFindEntry inv id = Some e <-> e ∈ inv_entries inv /\ e_local_id e = id.
Proof.
  intros Hs. unfold HistoricalFindEntry. split.
  - destruct (local_id_valid id); [|done]. cbn [negb]. intros H. apply fmap_Some in H as ([i e'] & H & ->).
    apply list_find_Some in H as (Hi & Hid & _). split; [by eapply list_elem_of_lookup_2|done].
  - intros [He <-]. pose proof (so_entries _ Hs) as Hok. rewrite Forall_forall in Hok.
    pose proof (identity_valid_local _ (eo_identity _ _ (Hok e He))) as Hv.
    unfold local_id_valid. rewrite bool_decide_eq_true_2 by done. cbn [negb].
    destruct (list_find (fun e' => e_local_id e' = e_local_id e) (inv_entries inv)) as [[i e']|] eqn:Hf.
    + apply list_find_Some in Hf as (Hi & Hid & _). simpl. f_equal.
      eapply (NoDup_fmap_inj e_local_id); [apply Hs|by eapply list_elem_of_lookup_2|done|done].
    + apply list_find_None in Hf. rewrite Forall_forall in Hf. by destruct (Hf e He).
Qed.

(** The horizons of a valid inventory exist for a target it holds. *)
Lemma horizons_structure request : hres_ok (ComputeLocalTransactionHorizonsFor request) = true -> structure_ok (hr_inventory request).
Proof.
  unfold ComputeLocalTransactionHorizonsFor, CalculateLocalHorizons. simpl. case_decide as H; [done|]. intros _.
  by apply validate_structure_iff.
Qed.

Lemma historical_horizons_ok inv e :
  structure_ok inv -> e ∈ inv_entries inv ->
  hres_ok (ComputeLocalTransactionHorizonsFor (mkHorizonRequest inv [e_local_id e])) = true.
Proof.
  intros Hs He. pose proof (so_entries _ Hs) as Hok. rewrite Forall_forall in Hok. specialize (Hok e He).
  pose proof (identity_valid_local _ (eo_identity _ _ Hok)) as Hv. pose proof (eo_local _ _ Hok) as Hlt.
  unfold ComputeLocalTransactionHorizonsFor, CalculateLocalHorizons. cbn [hr_inventory hr_active_snapshot_horizons].
  rewrite decide_False by (rewrite (proj2 (validate_structure_iff inv) Hs); tauto).
  unfold ProjectValidatedLocalHorizons. cbn [apply_snapshot_horizons].
  unfold local_id_valid. rewrite bool_decide_eq_true_2 by done. cbn [negb].
  rewrite decide_False by lia. done.
Qed.

(** The location a request is served from. *)
Definition served_location (request : HistoricalAuditSnapshotRequest) (target : TransactionInventoryEntry) :=
  if decide (hsr_requested_location_class request = hal_unknown) then InferredLocationClass (e_state target)
  else hsr_requested_location_class request.

(** What a granted request satisfies. *)
Record granted (request : HistoricalAuditSnapshotRequest) (reader target : TransactionInventoryEntry) : Prop := {
  gt_read_only : hsr_write_intent request = false;
  gt_local : hsr_requested_location_class request <> hal_remote /\ hsr_requested_location_class request <> hal_retired;
  gt_retained : hsr_retired_history_evidence_present request = false;
  gt_evidence : CommonAuthorityEvidencePresent (hsr_evidence request) = true;
  gt_structure : structure_ok (hsr_inventory request);
  gt_reader : reader ∈ inv_entries (hsr_inventory request) /\ e_local_id reader = hsr_audit_reader_transaction request;
  gt_reader_state : e_state reader = ts_read_only_active;
  gt_target : target ∈ inv_entries (hsr_inventory request) /\ e_local_id target = hsr_target_local_transaction_id request;
  gt_committed : HasCommittedInventoryOutcome target = true;
  gt_manifest : served_location request target = hal_local_archive ->
    hse_archive_manifest_authoritative (hsr_evidence request) = true }.

(** A refusal, whichever check it comes from. *)
Definition refused (r : HistoricalAuditSnapshotResult) : Prop :=
  has_ok r = false /\ has_queryable r = false /\ has_fail_closed r = true /\ has_writes_refused r = true.

Lemma historical_refused c code key detail : refused (HistoricalRefuse c code key detail).
Proof. done. Qed.

(** A granted request is served. *)
Lemma granted_served request reader target :
  granted request reader target ->
  CreateHistoricalAuditSnapshot request = historical_result request reader target (served_location request target) /\
  hres_ok (ComputeLocalTransactionHorizonsFor
    (mkHorizonRequest (hsr_inventory request) [hsr_target_local_transaction_id request])) = true.
Proof.
  intros [H1 [H2 H3] H4 H5 Hs Hr Hrs Ht Hc Hm]. split.
  - unfold CreateHistoricalAuditSnapshot. cbv zeta. rewrite H1, H4, H5, decide_False, bool_decide_eq_false_2 by done.
    cbn [orb negb]. rewrite (proj2 (historical_find _ _ _ Hs) Hr), decide_False by (rewrite Hrs; tauto).
    rewrite (proj2 (historical_find _ _ _ Hs) Ht). fold (served_location request target). rewrite Hc. cbn [negb].
    destruct (bool_decide (served_location request target = hal_local_archive)) eqn:Hl; [|done].
    apply bool_decide_eq_true in Hl. by rewrite (Hm Hl).
  - destruct Ht as [Ht <-]. by apply historical_horizons_ok.
Qed.

Lemma granted_result request reader target :
  granted request reader target ->
  let r := CreateHistoricalAuditSnapshot request in
  has_ok r = true /\
  has_visibility_snapshot r = mkVisibilitySnapshot (e_local_id reader) (e_local_id target) true false false [] [] 0 false /\
  has_writes_refused r = true /\ has_queryable r = true /\ has_fail_closed r = false.
Proof.
  intros Hg. cbv zeta. destruct (granted_served _ _ _ Hg) as [-> Hh]. unfold historical_result. cbv zeta.
  rewrite Hh. cbn [negb]. unfold has_ok. simpl. split_and!; try done.
  pose proof (so_entries _ (gt_structure _ _ _ Hg)) as Hok. rewrite Forall_forall in Hok.
  pose proof (identity_valid_local _ (eo_identity _ _ (Hok reader (proj1 (gt_reader _ _ _ Hg))))) as Hv.
  unfold local_id_valid. by apply bool_decide_eq_true_2.
Qed.

(** A request that is not refused is granted. *)
Lemma historical_cases request :
  refused (CreateHistoricalAuditSnapshot request) \/ exists reader target, granted request reader target.
Proof.
  unfold CreateHistoricalAuditSnapshot. cbv zeta.
  destruct (hsr_write_intent request) eqn:H1; [by left|]. case_decide as H2; [by left|].
  destruct (hsr_retired_history_evidence_present request) eqn:H3; [by left|]. cbn [orb].
  destruct (bool_decide (hsr_requested_location_class request = hal_retired)) eqn:H4; [by left|].
  apply bool_decide_eq_false in H4. destruct (CommonAuthorityEvidencePresent _) eqn:H5; [|by left]. cbn [negb].
  destruct (HistoricalFindEntry _ (hsr_audit_reader_transaction request)) as [reader|] eqn:Hr; [|by left].
  case_decide as H6; [by left|].
  destruct (HistoricalFindEntry _ (hsr_target_local_transaction_id request)) as [target|] eqn:Ht; [|by left].
  fold (served_location request target).
  destruct (_ && negb (hse_archive_manifest_authoritative (hsr_evidence request))) eqn:H7; [by left|].
  destruct (HasCommittedInventoryOutcome target) eqn:H8; cbn [negb]; [|by left].
  unfold historical_result. cbv zeta.
  destruct (hres_ok _) eqn:Hh; cbn [negb]; [right; exists reader, target|].
  - apply horizons_structure in Hh as Hs. split; try done; try (by apply (historical_find _ _ _ Hs)).
    intros Hl. apply andb_false_iff in H7 as [H7|H7]; [by apply bool_decide_eq_false in H7|by apply negb_false_iff in H7].
  - left. unfold refused, has_ok. simpl. by rewrite andb_false_r.
Qed.

(** A historical snapshot is granted exactly when the request does not write, is
    not for remote or retired history, carries the authority evidence (and the
    archive manifest when it is served from the archive), the inventory is valid,
    the reader is an active read-only transaction and the target is a transaction
    with a committed outcome.  It then shows exactly the well-formed committed
    versions created by transactions numbered up to the target.  Whatever the
    answer, writes are refused, and a refusal is not queryable and fails closed. *)
Theorem historical_snapshot_exact (request : HistoricalAuditSnapshotRequest) :
  let r := CreateHistoricalAuditSnapshot request in
  (has_ok r = true <-> exists reader target, granted request reader target) /\
  (has_ok r = true -> forall m,
   vr_decision (EvaluateVisibility m (has_visibility_snapshot r)) = vd_visible <->
   metadata_ok m /\ rvm_state m = rvs_committed /\ rvm_creator_transaction_state m = ts_committed /\
   creator_id m <= hsr_target_local_transaction_id request) /\
  has_writes_refused r = true /\ has_queryable r = has_ok r /\ has_fail_closed r = negb (has_ok r).
Proof.
  cbv zeta. destruct (historical_cases request) as [Hr|(reader & target & Hg)].
  - pose proof Hr as (Hok & Hq & Hf & Hw). rewrite Hok, Hq, Hf, Hw. split_and!; try done. split; [done|].
    intros (reader & target & Hg). destruct (granted_result _ _ _ Hg) as [? _]. congruence.
  - pose proof (granted_result _ _ _ Hg) as (Hok & Hv & Hw & Hq & Hf). rewrite Hok, Hw, Hq, Hf.
    split_and!; try done; [split; [by exists reader, target|done]|]. intros _ m. rewrite Hv, evaluate_visibility_visible.
    rewrite evaluate_state_visible. unfold own_version, within_snapshot. simpl. rewrite (proj2 (gt_target _ _ _ Hg)).
    split.
    + intros (Hm & [(_ & ? & _)|(? & ? & Hl & _)]); [done|]. split_and!; try done. apply Hl. by left.
    + intros (Hm & Hs & Hc & Hl). split; [done|]. right. split_and!; try done; by apply not_elem_of_nil.
Qed.

(** ** Gaps *)

Definition sample_historical (location : HistoricalAuditLocationClass) (manifest : bool) (target : N)
    (inv : LocalTransactionInventory) : HistoricalAuditSnapshotRequest :=
  mkHistoricalRequest inv 3 target location (mkHistoricalEvidence true manifest true true true false 1 1 1) false false.

(** One is active, two has committed, three is the read-only auditor. *)
Definition audit_inventory : LocalTransactionInventory :=
  sample_run [op_begin (sample_txn_uuid 1) 10; op_begin (sample_txn_uuid 2) 11; op_commit 2 12;
              op_begin_read_only (sample_txn_uuid 3) 13].

Definition audited_version (state : RowVersionState) (tx : TransactionState) (sequence : N) : RowVersionMetadata :=
  mkRowVersionMetadata
    (mkRowVersionIdentity (mkRowIdentity (mkTypedUuid uk_row (sample_uuid 100)))
       (mkTransactionIdentity 1 (sample_txn_uuid 1) scope_local_node) 1 (sample_uuid 101))
    (mkChain TypedUuid_default TypedUuid_default 0 0) 0 state tx true sequence.

(** The snapshot through two, taken while one was active, shows one's versions once
    one commits: the view of the past changes. *)
Lemma historical_view_not_stable :
  let r := CreateHistoricalAuditSnapshot (sample_historical hal_unknown false 2 audit_inventory) in
  has_ok r = true /\
  vr_decision (EvaluateVisibility (audited_version rvs_uncommitted ts_active 0) (has_visibility_snapshot r)) =
    vd_wait_for_transaction /\
  vr_decision (EvaluateVisibility (audited_version rvs_committed ts_committed 2) (has_visibility_snapshot r)) = vd_visible.
Proof. cbv zeta. split_and!; vm_compute; reflexivity. Qed.

(** An archived target is served without its archive manifest when the request names
    the hot location. *)
Lemma hot_request_skips_archive_manifest :
  let inv := sample_run [op_begin (sample_txn_uuid 1) 10; op_commit 1 11; op_archive 1;
                         op_begin (sample_txn_uuid 2) 12; op_begin_read_only (sample_txn_uuid 3) 13] in
  has_ok (CreateHistoricalAuditSnapshot (sample_historical hal_unknown false 1 inv)) = false /\
  has_ok (CreateHistoricalAuditSnapshot (sample_historical hal_local_hot false 1 inv)) = true.
Proof. cbv zeta. split; vm_compute; reflexivity. Qed.
