(* ===== verification/SupportClaims.v ===== *)
(** * Correctness of the transaction support services

    The overlay and the savepoint deltas both answer with the newest write that no
    later rollback undid; statement numbers are consecutive; the acceleration probe
    ends and agrees with the inventory; a template hit is current; fences are
    coalesced only for durably committed transactions. *)

From S2P Require Import Prelude Platform TransactionState Inventory InventorySteps Samples.
From S2P Require Import SupportServices.

(** ** The newest matching entry *)

Lemma snoc_elem {A} (y x : A) l : y ∈ l ++ [x] -> y ∈ l \/ y = x.
Proof. rewrite elem_of_app, list_elem_of_singleton. done. Qed.

Section newest.
Context {A : Type} (sequence : A -> N) (matches : A -> bool).

Definition is_newest (l : list A) (x : A) : Prop :=
  x ∈ l /\ matches x = true /\ forall y, y ∈ l -> matches y = true -> sequence y <= sequence x.

Lemma newest_snoc l x :
  newest sequence matches (l ++ [x]) =
  if negb (matches x) then newest sequence matches l
  else match newest sequence matches l with
       | None => Some x
       | Some b => if decide (sequence b < sequence x) then Some x else Some b
       end.
Proof. unfold newest. rewrite foldl_app. cbn [foldl]. by destruct (matches x), (foldl _ _ l). Qed.

Lemma newest_spec l :
  match newest sequence matches l with
  | Some x => is_newest l x
  | None => Forall (fun x => matches x = false) l
  end.
Proof.
  induction l as [|x l IH] using rev_ind; [by constructor|]. rewrite newest_snoc.
  unfold is_newest in *. destruct (matches x) eqn:Hx; cbn [negb].
  - destruct (newest sequence matches l) as [b|]; [case_decide|].
    + split_and!; [set_solver|done|]. intros y [Hy| ->]%snoc_elem Hm; [|lia].
      destruct IH as (_ & _ & H'). specialize (H' y Hy Hm). lia.
    + destruct IH as (H1 & H2 & H3). split_and!; [set_solver|done|].
      intros y [Hy| ->]%snoc_elem Hm; [by apply H3|lia].
    + split_and!; [set_solver|done|]. intros y [Hy| ->]%snoc_elem Hm; [|lia].
      rewrite Forall_forall in IH. rewrite (IH y Hy) in Hm. discriminate.
  - destruct (newest sequence matches l) as [b|].
    + destruct IH as (H1 & H2 & H3). split_and!; [set_solver|done|].
      intros y [Hy| ->]%snoc_elem Hm; [by apply H3|congruence].
    + apply Forall_app; split; [done|by constructor].
Qed.

Lemma newest_filter l :
  newest sequence matches l = newest sequence (fun _ => true) (filter (fun x => matches x = true) l).
Proof.
  induction l as [|x l IH] using rev_ind; [done|]. rewrite newest_snoc, filter_app, IH.
  destruct (matches x) eqn:Hx; cbn [negb].
  - rewrite (filter_cons_True _ x []) by done. rewrite filter_nil.
    symmetry. unfold newest. rewrite foldl_app. cbn [foldl negb]. by destruct (foldl _ _ _).
  - rewrite (filter_cons_False _ x []) by (by rewrite Hx). by rewrite filter_nil, app_nil_r.
Qed.
End newest.

Lemma newest_fmap {A B} (f : A -> B) sequence matches l :
  newest sequence matches (f <$> l) = f <$> newest (fun x => sequence (f x)) (fun x => matches (f x)) l.
Proof.
  induction l as [|x l IH] using rev_ind; [done|]. rewrite fmap_app. cbn [fmap list_fmap].
  rewrite !newest_snoc, IH. destruct (matches (f x)); [|done]. cbn [negb].
  destruct (newest _ _ l) as [b|]; [|done]. cbn [fmap option_fmap option_map]. by destruct (decide _).
Qed.

(** ** One transaction's writes, recorded by both services *)

(** A write, as the engine reports it to both services, and a rollback. *)
Record tracked_write := mkWrite {
  tw_transaction : LocalTransactionId;
  tw_savepoint : N;
  tw_sequence : N;
  tw_object : string;
  tw_record : string;
  tw_before : string;
  tw_after : string;
  tw_delete : bool }.

Inductive write_event :=
| we_write (w : tracked_write)
| we_rollback (id : LocalTransactionId) (savepoint_ordinal : N).

Definition delta_of (w : tracked_write) : SavepointStateDelta :=
  mkDelta (tw_transaction w) (tw_savepoint w) (tw_sequence w) (tw_object w) (tw_record w) (tw_before w) (tw_after w)
    true sds_active.
Definition overlay_of (w : tracked_write) : ReadAfterWriteOverlayEntry :=
  mkOverlayEntry (tw_transaction w) (tw_savepoint w) (tw_sequence w) (tw_object w) (tw_record w) (tw_after w)
    (tw_delete w) true true false false.

(** Both services hear of every event; the boolean says that both accepted it. *)
Definition tracker : Type := SavepointStateDeltaManager * ReadAfterWriteLocalOverlayCache.

Definition track (ev : write_event) (t : tracker) : bool * tracker :=
  match ev with
  | we_write w =>
      let '(rd, m) := RecordDelta (delta_of w) t.1 in
      let '(ro, c) := overlay_Put (overlay_of w) t.2 in
      (sdr_ok rd && or_ok ro, (m, c))
  | we_rollback id ordinal =>
      let '(rd, m) := delta_RollbackToSavepoint id ordinal t.1 in
      let '(ro, c) := overlay_RollbackToSavepoint id ordinal t.2 in
      (sdb_ok rd && ob_ok ro, (m, c))
  end.

Fixpoint track_all (h : list write_event) (t : tracker) : bool * tracker :=
  match h with
  | [] => (true, t)
  | ev :: h => let '(ok, t1) := track ev t in let '(ok', t2) := track_all h t1 in (ok && ok', t2)
  end.

Definition tracker_empty : tracker := (mkDeltaManager [], mkOverlay []).

(** A later event that undoes a write. *)
Definition undoes (ev : write_event) (w : tracked_write) : bool :=
  match ev with
  | we_write _ => false
  | we_rollback id ordinal => bool_decide (tw_transaction w = id) && at_or_after ordinal (tw_savepoint w)
  end.

(** The writes of a history that nothing after them undoes. *)
Fixpoint surviving (h : list write_event) : list tracked_write :=
  match h with
  | [] => []
  | we_write w :: h => if existsb (fun ev => undoes ev w) h then surviving h else w :: surviving h
  | we_rollback _ _ :: h => surviving h
  end.

Lemma surviving_snoc_write h w : surviving (h ++ [we_write w]) = surviving h ++ [w].
Proof.
  induction h as [|[v|id o] h IH]; cbn [app surviving existsb]; [done| |by rewrite IH].
  rewrite existsb_app. cbn [existsb undoes]. rewrite !orb_false_r, IH. by destruct (existsb _ h).
Qed.

Lemma surviving_snoc_rollback h id o :
  surviving (h ++ [we_rollback id o]) = filter (fun w => undoes (we_rollback id o) w = false) (surviving h).
Proof.
  induction h as [|[v|id' o'] h IH]; cbn [app surviving existsb]; [done| |by rewrite IH].
  rewrite existsb_app. cbn [existsb]. rewrite orb_false_r, IH.
  destruct (existsb (fun ev => undoes ev v) h) eqn:He; cbn [orb]; [done|].
  destruct (undoes (we_rollback id o) v) eqn:Hu.
  - by rewrite filter_cons_False by (by rewrite Hu).
  - by rewrite filter_cons_True by done.
Qed.

(** What both services hold after a history they accepted. *)
Definition tracks (live : list tracked_write) (t : tracker) : Prop :=
  filter (fun d => sd_state d = sds_active) (dm_deltas t.1) = delta_of <$> live /\
  ov_entries t.2 = overlay_of <$> live /\
  NoDup ((fun d => (sd_local_transaction_id d, sd_mutation_sequence d)) <$> dm_deltas t.1).

Lemma record_delta_ok d m :
  sdr_ok (RecordDelta d m).1 = true ->
  (RecordDelta d m).2 = mkDeltaManager (dm_deltas m ++ [set_delta_state sds_active d]) /\
  (sd_local_transaction_id d, sd_mutation_sequence d) ∉
    ((fun d => (sd_local_transaction_id d, sd_mutation_sequence d)) <$> dm_deltas m).
Proof.
  unfold RecordDelta. destruct (negb _); [done|]. case_decide; [done|]. destruct (negb _); [done|].
  destruct (existsb _ _) eqn:He; [done|]. intros _. split; [done|].
  intros (e & Heq & Hin)%list_elem_of_fmap. apply not_true_iff_false in He. apply He, existsb_exists.
  exists e. split; [by apply list_elem_of_In|]. injection Heq as H1 H2. by rewrite <- H1, <- H2, !bool_decide_true.
Qed.

Lemma put_ok e c : or_ok (overlay_Put e c).1 = true -> (overlay_Put e c).2 = mkOverlay (ov_entries c ++ [e]).
Proof. unfold overlay_Put. by do 2 (destruct (_ || _); [done|]). Qed.

Lemma active_after_rollback id o (l : list SavepointStateDelta) :
  filter (fun d => sd_state d = sds_active)
    ((fun d => if delta_undone id o d then set_delta_state sds_rolled_back d else d) <$> l) =
  filter (fun d => bool_decide (sd_local_transaction_id d = id) && at_or_after o (sd_savepoint_ordinal d) = false)
    (filter (fun d => sd_state d = sds_active) l).
Proof.
  induction l as [|d l IH]; [done|]. rewrite fmap_cons.
  destruct (decide (sd_state d = sds_active)) as [Ha|Ha].
  - rewrite (filter_cons_True (fun d => sd_state d = sds_active) d l) by done.
    unfold delta_undone at 1. rewrite Ha.
    change (bool_decide (sds_active = sds_rolled_back)) with false. cbn [negb]. rewrite andb_true_r.
    destruct (bool_decide (sd_local_transaction_id d = id) && _) eqn:Hu.
    + rewrite filter_cons_False by done. rewrite filter_cons_False by (by rewrite Hu). exact IH.
    + rewrite filter_cons_True by done. rewrite filter_cons_True by done. by rewrite IH.
  - rewrite (filter_cons_False (fun d => sd_state d = sds_active) d l) by done.
    rewrite filter_cons_False; [exact IH|]. by destruct (delta_undone id o d).
Qed.

Lemma filter_fmap_bool {A B} (f : A -> B) (p : B -> bool) (q : A -> bool) (l : list A) :
  (forall x, p (f x) = q x) ->
  filter (fun y => p y = false) (f <$> l) = f <$> filter (fun x => q x = false) l.
Proof.
  intros H. induction l as [|x l IH]; [done|]. rewrite fmap_cons.
  destruct (q x) eqn:Hq.
  - rewrite !filter_cons_False; [exact IH|by rewrite Hq|by rewrite H, Hq].
  - rewrite !filter_cons_True; [|done|by rewrite H, Hq]. by rewrite fmap_cons, IH.
Qed.

Lemma track_tracks h ev t :
  tracks (surviving h) t -> fst (track ev t) = true -> tracks (surviving (h ++ [ev])) (track ev t).2.
Proof.
  intros (Hd & Ho & Hn) Hok. destruct ev as [w|id o].
  - rewrite surviving_snoc_write. unfold track in *.
    destruct (RecordDelta (delta_of w) t.1) as [rd m] eqn:Em, (overlay_Put (overlay_of w) t.2) as [ro c] eqn:Ec.
    cbn [fst snd] in *. apply andb_true_iff in Hok as [H1 H2].
    destruct (record_delta_ok (delta_of w) t.1) as [Em' Hf]; [by rewrite Em|]. rewrite Em in Em'. cbn [snd] in Em'. subst m.
    assert (c = mkOverlay (ov_entries t.2 ++ [overlay_of w])) as ->
      by (change c with (ro, c).2; rewrite <- Ec; apply put_ok; by rewrite Ec).
    unfold tracks. cbn [fst snd dm_deltas ov_entries]. rewrite filter_app, Hd, Ho, !fmap_app. split_and!; [done|done|].
    apply NoDup_app. split_and!; [done| |apply NoDup_singleton].
    intros x Hx Hy%list_elem_of_singleton. subst x. by apply Hf.
  - rewrite surviving_snoc_rollback. unfold track, delta_RollbackToSavepoint, overlay_RollbackToSavepoint in *.
    destruct (negb (local_id_valid id)); [done|]. cbn [fst snd] in *. unfold tracks. cbn [fst snd dm_deltas ov_entries].
    rewrite active_after_rollback, Hd, Ho. split_and!.
    + by apply filter_fmap_bool.
    + apply (filter_fmap_bool overlay_of (overlay_undone id o)). done.
    + rewrite <- list_fmap_compose. erewrite list_fmap_ext; [exact Hn|].
      intros i d _. unfold compose. by destruct (delta_undone id o d).
Qed.

Lemma track_all_tracks h' h t :
  tracks (surviving h) t -> fst (track_all h' t) = true -> tracks (surviving (h ++ h')) (track_all h' t).2.
Proof.
  revert h t. induction h' as [|ev h' IH]; intros h t Ht Hok; [by rewrite app_nil_r|].
  cbn [track_all] in *. pose proof (track_tracks h ev t Ht) as Hs.
  destruct (track ev t) as [ok t1]. specialize (IH (h ++ [ev]) t1).
  destruct (track_all h' t1) as [ok' t2]. cbn [fst snd] in *. apply andb_true_iff in Hok as [H1 H2].
  rewrite <- app_assoc in IH. apply IH; [by apply Hs|done].
Qed.

Lemma tracked h :
  fst (track_all h tracker_empty) = true -> tracks (surviving h) (track_all h tracker_empty).2.
Proof. intros Hok. apply (track_all_tracks h [] tracker_empty); [|done]. split_and!; [done|done|constructor]. Qed.

(** A member of [surviving] is a write of the history that nothing after it undoes. *)
Lemma surviving_in h w :
  w ∈ surviving h <->
  exists k, h !! k = Some (we_write w) /\ forall j ev, (k < j)%nat -> h !! j = Some ev -> undoes ev w = false.
Proof.
  induction h as [|[v|id o] h IH]; cbn [surviving].
  - split; [set_solver|]. intros (k & Hk & _). by destruct k.
  - split.
    + intros Hin. destruct (existsb _ h) eqn:He; [|apply elem_of_cons in Hin as [->|Hin]].
      * apply IH in Hin as (k & Hk & Hl). exists (S k). split; [done|]. intros [|j] ev Hj; [lia|]. apply Hl. lia.
      * exists 0%nat. split; [done|]. intros [|j] ev Hj Hev; [lia|]. cbn in Hev.
        apply not_true_iff_false. intros Hu. apply not_true_iff_false in He. apply He, existsb_exists.
        exists ev. split; [|done]. apply list_elem_of_In. by eapply list_elem_of_lookup_2.
      * apply IH in Hin as (k & Hk & Hl). exists (S k). split; [done|]. intros [|j] ev Hj; [lia|]. apply Hl. lia.
    + intros ([|k] & Hk & Hl); cbn in Hk.
      * injection Hk as ->. destruct (existsb _ h) eqn:He; [|by left].
        apply existsb_exists in He as (ev & Hin & Hu). apply list_elem_of_In, list_elem_of_lookup_1 in Hin as [j Hj].
        rewrite (Hl (S j) ev) in Hu; [done|lia|done].
      * assert (w ∈ surviving h).
        { apply IH. exists k. split; [done|]. intros j ev Hj Hev. apply (Hl (S j)); [lia|done]. }
        destruct (existsb _ h); [done|by right].
  - rewrite IH. split; intros (k & Hk & Hl).
    + exists (S k). split; [done|]. intros [|j] ev Hj; [lia|]. apply Hl. lia.
    + destruct k as [|k]; [done|]. exists k. split; [done|]. intros j ev Hj. apply (Hl (S j)). lia.
Qed.

Definition surviving_write (h : list write_event) (w : tracked_write) : Prop :=
  exists k, h !! k = Some (we_write w) /\ forall j ev, (k < j)%nat -> h !! j = Some ev -> undoes ev w = false.

(** Surviving writes of one transaction have different sequences. *)
Lemma surviving_sequences live t w w' :
  tracks live t -> w ∈ live -> w' ∈ live -> tw_transaction w = tw_transaction w' -> tw_sequence w = tw_sequence w' ->
  w = w'.
Proof.
  intros (Hd & _ & Hn) Hw Hw' H1 H2.
  assert (Hl : NoDup ((fun d => (sd_local_transaction_id d, sd_mutation_sequence d)) <$> (delta_of <$> live))).
  { rewrite <- Hd. apply NoDup_fmap_filter_alt. intros i j x y Hi Hj _ _ Hk.
    eapply NoDup_lookup; [exact Hn|by rewrite list_lookup_fmap, Hi|rewrite list_lookup_fmap, Hj; cbn; by rewrite Hk]. }
  rewrite <- list_fmap_compose in Hl. eapply (NoDup_fmap_inj _ _ _ _ Hl); [done..|]. unfold compose. cbn. congruence.
Qed.

Section own_writes.
Context (live : list tracked_write) (t : tracker) (id : LocalTransactionId) (record : string).
Context (Ht : tracks live t).

Definition own_write (w : tracked_write) : Prop := w ∈ live /\ tw_transaction w = id /\ tw_record w = record.
Definition newest_own (w : tracked_write) : Prop :=
  own_write w /\ forall w', own_write w' -> w' = w \/ tw_sequence w' < tw_sequence w.

Lemma newest_own_unique w w' : newest_own w -> newest_own w' -> w = w'.
Proof. intros [H1 H2] [H1' H2']. destruct (H2 w' H1'), (H2' w H1); try done. lia. Qed.

(** From a maximum to the strict maximum. *)
Lemma newest_own_intro w :
  own_write w -> (forall w', own_write w' -> tw_sequence w' <= tw_sequence w) -> newest_own w.
Proof.
  intros Hw Hmax. split; [done|]. intros w' Hw'. specialize (Hmax w' Hw').
  destruct (decide (tw_sequence w' = tw_sequence w)) as [He|]; [left|right; lia].
  destruct Hw as (H1 & H2 & _), Hw' as (H1' & H2' & _). eapply surviving_sequences; [exact Ht|done..|congruence|done].
Qed.

Lemma latest_delta :
  match LatestActiveDelta id record t.1 with
  | Some d => exists w, newest_own w /\ d = delta_of w
  | None => forall w, ~ own_write w
  end.
Proof.
  unfold LatestActiveDelta. pose proof (newest_spec sd_mutation_sequence
    (fun d => bool_decide (sd_local_transaction_id d = id) && bool_decide (sd_record_uuid d = record) &&
              bool_decide (sd_state d = sds_active)) (dm_deltas t.1)) as Hs.
  destruct Ht as (Hd & _ & _).
  assert (Hown : forall w, own_write w -> delta_of w ∈ dm_deltas t.1).
  { intros w (Hw & _). apply (list_elem_of_fmap_2 delta_of) in Hw. rewrite <- Hd in Hw.
    by apply list_elem_of_filter in Hw as [_ Hw]. }
  assert (Hm : forall w, own_write w -> bool_decide (sd_local_transaction_id (delta_of w) = id) &&
     bool_decide (sd_record_uuid (delta_of w) = record) && bool_decide (sd_state (delta_of w) = sds_active) = true).
  { intros w (_ & <- & <-). cbn. by rewrite !bool_decide_true. }
  destruct (newest _ _ _) as [d|].
  - destruct Hs as (Hin & Hmd & Hmax). apply andb_true_iff in Hmd as [Hmd Ha%bool_decide_eq_true].
    apply andb_true_iff in Hmd as [Hi%bool_decide_eq_true Hr%bool_decide_eq_true].
    assert (Hf : d ∈ filter (fun d => sd_state d = sds_active) (dm_deltas t.1)) by (by apply list_elem_of_filter).
    rewrite Hd in Hf. apply list_elem_of_fmap in Hf as (w & -> & Hw). exists w. split; [|done].
    apply newest_own_intro; [done|]. intros w' Hw'. apply (Hmax (delta_of w')); auto.
  - intros w Hw. rewrite Forall_forall in Hs. pose proof (Hs _ (Hown w Hw)) as Hb. cbn beta in Hb.
    rewrite (Hm w Hw) in Hb. discriminate.
Qed.

Lemma overlay_answer (Hid : local_id_valid id = true) (Hrec : record <> ""%string) :
  let r := overlay_Lookup id record t.2 in
  (or_ok r = true /\ or_cache_hit r = true /\ exists w, newest_own w /\ or_entry r = overlay_of w) \/
  (or_ok r = false /\ or_cache_hit r = false /\ forall w, ~ own_write w).
Proof.
  unfold overlay_Lookup. rewrite Hid, bool_decide_false by done. cbn [negb orb].
  pose proof (newest_spec oe_mutation_sequence (fun e => bool_decide (oe_local_transaction_id e = id) &&
    bool_decide (oe_record_uuid e = record)) (ov_entries t.2)) as Hs.
  destruct Ht as (_ & Ho & _).
  destruct (newest _ _ _) as [e|]; [left|right]; split_and!; try done.
  - destruct Hs as (Hin & Hme & Hmax). apply andb_true_iff in Hme as [Hi%bool_decide_eq_true Hr%bool_decide_eq_true].
    rewrite Ho in Hin. apply list_elem_of_fmap in Hin as (w & -> & Hw). exists w. split; [|done].
    apply newest_own_intro; [done|]. intros w' (Hw' & <- & <-). apply (Hmax (overlay_of w')).
    + rewrite Ho. by apply list_elem_of_fmap_2.
    + cbn. by rewrite !bool_decide_true.
  - intros w (Hw & <- & <-). rewrite Forall_forall in Hs. pose proof (Hs (overlay_of w)) as Hb. cbn in Hb.
    rewrite !bool_decide_true in Hb by done. discriminate Hb. rewrite Ho. by apply list_elem_of_fmap_2.
Qed.
End own_writes.

(** When both services accept a history of writes and rollbacks, a transaction that
    looks a record up finds in the overlay exactly the newest of its own writes to
    that record that no later rollback (to the write's savepoint or an earlier one,
    or of everything) undid, and the delta manager names the same write; when there
    is none, both say so.  The writes of other transactions play no part. *)
Theorem own_writes_read_back (h : list write_event) (id : LocalTransactionId) (record : string)
    (Hok : fst (track_all h tracker_empty) = true) (Hid : local_id_valid id = true) (Hrec : record <> ""%string) :
  let t := (track_all h tracker_empty).2 in
  let mine w := surviving_write h w /\ tw_transaction w = id /\ tw_record w = record in
  (exists w, mine w /\ (forall w', mine w' -> w' = w \/ tw_sequence w' < tw_sequence w) /\
     or_ok (overlay_Lookup id record t.2) = true /\ or_entry (overlay_Lookup id record t.2) = overlay_of w /\
     LatestActiveDelta id record t.1 = Some (delta_of w)) \/
  ((forall w, ~ mine w) /\ or_ok (overlay_Lookup id record t.2) = false /\ LatestActiveDelta id record t.1 = None).
Proof.
  pose proof (tracked h Hok) as Ht. intros t mine.
  assert (Hm : forall w, mine w <-> own_write (surviving h) id record w).
  { intros w. unfold mine, own_write. by rewrite surviving_in. }
  pose proof (latest_delta _ t id record Ht) as Hl.
  destruct (overlay_answer _ t id record Ht Hid Hrec) as [(H1 & _ & w & Hw & He)|(H1 & _ & Hno)].
  - left. exists w. destruct (LatestActiveDelta id record t.1) as [d|].
    + destruct Hl as (v & Hv & ->). rewrite (newest_own_unique _ _ _ _ _ Hv Hw).
      split_and!; [by apply Hm, Hw| |done..]. intros w' Hw'%Hm. by apply Hw.
    + by destruct (Hl w (proj1 Hw)).
  - right. split_and!; [by intros w Hw%Hm; eapply Hno|done|].
    destruct (LatestActiveDelta id record t.1) as [d|]; [|done]. destruct Hl as (v & Hv & _). by destruct (Hno v (proj1 Hv)).
Qed.

Definition sample_write (sp seq : N) (value : string) : tracked_write := mkWrite 2 sp seq "table" "row" "before" value false.
Definition sample_writes : list write_event :=
  [we_write (sample_write 0 1 "first"); we_write (sample_write 1 2 "second"); we_write (sample_write 2 3 "third");
   we_rollback 2 2; we_write (mkWrite 5 0 9 "table" "row" "" "other" false)]%string.

Lemma own_writes_read_back_witness :
  fst (track_all sample_writes tracker_empty) = true /\
  oe_value_hash (or_entry (overlay_Lookup 2 "row" (track_all sample_writes tracker_empty).2.2)) = "second"%string.
Proof.
  split; [vm_compute; reflexivity|].
  destruct (own_writes_read_back sample_writes 2 "row" eq_refl eq_refl ltac:(discriminate))
    as [(w & _ & _ & _ & He & Hd)|(_ & H & _)]; [|by vm_compute in H].
  apply (f_equal (fmap sd_after_image_hash)) in Hd. cbn [fmap option_fmap option_map delta_of sd_after_image_hash] in Hd.
  rewrite He. cbn [overlay_of oe_value_hash]. vm_compute in Hd. by injection Hd.
Defined.

(** A second write with a sequence already used is accepted by the overlay, which
    keeps answering with the first value; the delta manager refuses it. *)
Lemma reused_sequence_hides_write :
  let w1 := sample_write 0 1 "first" in let w2 := sample_write 0 1 "second" in
  let c := (overlay_Put (overlay_of w2) (overlay_Put (overlay_of w1) (mkOverlay [])).2) in
  or_ok c.1 = true /\ oe_value_hash (or_entry (overlay_Lookup 2 "row" c.2)) = "first"%string /\
  sdr_ok (RecordDelta (delta_of w2) (RecordDelta (delta_of w1) (mkDeltaManager [])).2).1 = false.
Proof. by vm_compute. Qed.

(** ** Correctness of the acceleration table, statement numbers, templates and fences *)

(** ** The acceleration probe *)

Section probe.
Context (request : MgaVisibilityAccelerationProbeRequest).
Let table := ap_table request.
Let inv := ap_current_inventory request.

(** The entry of one number is in the table and unchanged in the inventory. *)
Definition number_unchanged (v : N) : Prop :=
  exists a e, FindAccelerationEntry table v = Some a /\ SupportFindInventoryEntry inv v = Some e /\
    SameAccelerationEntry a e = true.

Definition number_committed (v : N) : Prop :=
  exists e, SupportFindInventoryEntry inv v = Some e /\ IsCommittedOrArchived e = true /\
    e_evidence_record_written e = true.

Lemma found_in_table v : number_unchanged v -> v ∈ (ae_local_transaction_id <$> at_entries table).
Proof.
  intros (a & _ & Ha & _). unfold FindAccelerationEntry in Ha.
  destruct (list_find _ _) as [[i a']|] eqn:Hf; [|done]. injection Ha as ->.
  apply list_find_Some in Hf as (Hi & <- & _). apply list_elem_of_fmap_2. by eapply list_elem_of_lookup_2.
Qed.

(** One turn of the loop. *)
Lemma probe_turn fuel v b :
  probe_range (S fuel) request v b =
  if decide (ap_last_local_transaction_id request < v) then Some (inr b)
  else match FindAccelerationEntry table v, SupportFindInventoryEntry inv v with
       | Some a, Some e =>
           if SameAccelerationEntry a e
           then probe_range fuel request (u64_add v 1) (b && IsCommittedOrArchived e && e_evidence_record_written e)
           else Some (inl (probe_refuse "entry_mismatch" "SB-MGA-VISIBILITY-ACCELERATION-PROBE-ENTRY-MISMATCH"
                             "transaction.support.visibility_acceleration_probe_entry_mismatch" (to_string v)))
       | _, _ => Some (inl (probe_refuse "entry_missing" "SB-MGA-VISIBILITY-ACCELERATION-PROBE-ENTRY-MISSING"
                             "transaction.support.visibility_acceleration_probe_entry_missing" (to_string v)))
       end.
Proof.
  cbn [probe_range]. do 2 case_decide; try lia; [|done]. unfold table, inv.
  destruct (FindAccelerationEntry (ap_table request) v) as [a|],
    (SupportFindInventoryEntry (ap_current_inventory request) v) as [e|]; try done.
  by destruct (SameAccelerationEntry a e).
Qed.

(** Pigeonhole: consecutive numbers, taken modulo the word, fit in the table. *)
Lemma consecutive_bound first k :
  N.of_nat (length (at_entries table)) < u64_modulus -> N.of_nat k <= u64_modulus ->
  (forall i, (i < k)%nat -> u64_add first (N.of_nat i) ∈ (ae_local_transaction_id <$> at_entries table)) ->
  (k <= length (at_entries table))%nat.
Proof.
  intros Hlen Hk Hin.
  assert (Hnd : NoDup ((fun i => u64_add first (N.of_nat i)) <$> seq 0 k)).
  { apply NoDup_fmap_2_strong; [|apply NoDup_seq]. intros x y Hx%elem_of_seq Hy%elem_of_seq He.
    unfold u64_add in He. apply (f_equal Z.of_N) in He. rewrite !N2Z.inj_mod in He. rewrite !N2Z.inj_add in He.
    assert (Hd : ((Z.of_N (N.of_nat x) - Z.of_N (N.of_nat y)) mod Z.of_N u64_modulus = 0)%Z).
    { replace (Z.of_N (N.of_nat x) - Z.of_N (N.of_nat y))%Z with
        ((Z.of_N first + Z.of_N (N.of_nat x)) - (Z.of_N first + Z.of_N (N.of_nat y)))%Z by lia.
      rewrite Zminus_mod, He, Z.sub_diag. by apply Z.mod_0_l. }
    apply Z.mod_divide in Hd; [|by rewrite u64_modulus_val]. destruct Hd as [q Hq].
    rewrite u64_modulus_val in *. nia. }
  rewrite <- (length_seq k 0), <- (length_fmap (fun i => u64_add first (N.of_nat i))).
  rewrite <- (length_fmap ae_local_transaction_id (at_entries table)). apply submseteq_length, NoDup_submseteq; [done|].
  intros x (i & -> & Hi%elem_of_seq)%list_elem_of_fmap. apply Hin. lia.
Qed.

Lemma probe_ends fuel k first b :
  N.of_nat (length (at_entries table)) < u64_modulus -> is_u64 first ->
  (k + fuel = S (length (at_entries table)))%nat ->
  (forall i, (i < k)%nat -> u64_add first (N.of_nat i) ∈ (ae_local_transaction_id <$> at_entries table)) ->
  probe_range fuel request (u64_add first (N.of_nat k)) b <> None.
Proof.
  intros Hlen Hfirst. revert k b. induction fuel as [|fuel IH]; intros k b Hk Hin.
  - exfalso. apply consecutive_bound in Hin; lia.
  - rewrite probe_turn. case_decide; [done|].
    destruct (FindAccelerationEntry _ _) as [a|] eqn:Ha; [|done].
    destruct (SupportFindInventoryEntry _ _) as [e|] eqn:He; [|done].
    destruct (SameAccelerationEntry a e) eqn:Hs; [|done].
    replace (u64_add (u64_add first (N.of_nat k)) 1) with (u64_add first (N.of_nat (S k))).
    + apply IH; [lia|]. intros i Hi. destruct (decide (i = k)) as [->|]; [|apply Hin; lia].
      apply found_in_table. by exists a, e.
    + unfold u64_add. rewrite N.Div0.add_mod_idemp_l. f_equal. lia.
Qed.

(** What the loop answers when it passes the end of the range. *)
Lemma probe_range_passes fuel v b c :
  is_u64 v -> is_u64 (ap_last_local_transaction_id request) -> probe_range fuel request v b = Some (inr c) ->
  (v <= ap_last_local_transaction_id request -> ap_last_local_transaction_id request < u64_max) /\
  (forall w, v <= w -> w <= ap_last_local_transaction_id request -> number_unchanged w) /\
  (c = true <-> b = true /\ forall w, v <= w -> w <= ap_last_local_transaction_id request -> number_committed w).
Proof.
  unfold is_u64. revert v b. induction fuel as [|fuel IH]; intros v b Hv Hl; [done|]. rewrite probe_turn. case_decide.
  - intros [= ->]. split_and!; [lia|lia|]. split; [|by intros [-> _]]. intros ->. split; [done|lia].
  - destruct (FindAccelerationEntry _ _) as [a|] eqn:Ha; [|done].
    destruct (SupportFindInventoryEntry _ _) as [e|] eqn:He; [|done].
    destruct (SameAccelerationEntry a e) eqn:Hs; [|done]. intros Hr.
    destruct (decide (v = u64_max)) as [->|Hmax].
    + exfalso. apply IH in Hr as (Hlast & _); [|apply u64_add_lt|done].
      change (u64_add u64_max 1) with 0 in Hlast. u64_unfold. lia.
    + assert (Hadd : u64_add v 1 = v + 1) by (apply u64_add_small; u64_unfold; lia).
      rewrite Hadd in Hr. apply IH in Hr as (Hlast & Hun & Hc); [|u64_unfold; lia|done].
      split_and!.
      * intros _. destruct (decide (v = ap_last_local_transaction_id request)) as [Heq|]; [|apply Hlast; lia].
        rewrite <- Heq. u64_unfold. lia.
      * intros w Hw Hwl. destruct (decide (w = v)) as [->|]; [by exists a, e|apply Hun; lia].
      * rewrite Hc, !andb_true_iff. split.
        -- intros (((-> & H1) & H2) & Hall). split; [done|]. intros w Hw Hwl.
           destruct (decide (w = v)) as [->|]; [by exists e|apply Hall; lia].
        -- intros (-> & Hall). destruct (Hall v) as (e' & He' & H1 & H2); [lia|lia|]. rewrite He in He'.
           injection He' as <-. split_and!; [done..|]. intros w Hw. apply Hall. lia.
Qed.

(** And conversely it passes when every number of the range is unchanged. *)
Lemma probe_range_refuses fuel v b r :
  is_u64 v -> ap_last_local_transaction_id request < u64_max -> probe_range fuel request v b = Some (inl r) ->
  exists w, v <= w /\ w <= ap_last_local_transaction_id request /\ ~ number_unchanged w.
Proof.
  unfold is_u64. intros Hv Hl. revert v b Hv. induction fuel as [|fuel IH]; intros v b Hv; [done|].
  rewrite probe_turn. case_decide; [done|].
  destruct (FindAccelerationEntry _ _) as [a|] eqn:Ha.
  2: { intros [= <-]. exists v. split_and!; [lia|lia|]. intros (a & _ & Ha' & _). congruence. }
  destruct (SupportFindInventoryEntry _ _) as [e|] eqn:He.
  2: { intros [= <-]. exists v. split_and!; [lia|lia|]. intros (? & e & _ & He' & _). congruence. }
  destruct (SameAccelerationEntry a e) eqn:Hs.
  - rewrite u64_add_small by (u64_unfold; lia). intros Hr. apply IH in Hr as (w & H1 & H2 & H3); [|u64_unfold; lia].
    exists w. split_and!; [lia|done..].
  - intros [= <-]. exists v. split_and!; [lia|lia|]. intros (a' & e' & Ha' & He' & Hs'). congruence.
Qed.

Lemma probe_range_refusal fuel v b r :
  probe_range fuel request v b = Some (inl r) -> apr_ok r = false /\ apr_all_committed r = false.
Proof.
  revert v b. induction fuel as [|fuel IH]; intros v b; [done|]. rewrite probe_turn. case_decide; [done|].
  destruct (FindAccelerationEntry _ _) as [a|]; [|by intros [= <-]].
  destruct (SupportFindInventoryEntry _ _) as [e|]; [|by intros [= <-]].
  destruct (SameAccelerationEntry a e); [apply IH|by intros [= <-]].
Qed.

Definition probe_admitted : Prop :=
  ap_current_inventory_authoritative request = true /\ at_built_from_authoritative_inventory table = true /\
  ap_inventory_generation request <> 0 /\ ap_inventory_generation request = at_inventory_generation table /\
  ap_first_local_transaction_id request <> 0 /\
  ap_first_local_transaction_id request <= ap_last_local_transaction_id request.

(** The checks before the loop. *)
Lemma probe_admission :
  (exists r, ProbeMgaVisibilityAccelerationTable request = Some r /\ ~ probe_admitted /\
     apr_ok r = false /\ apr_all_committed r = false) \/
  (probe_admitted /\ ProbeMgaVisibilityAccelerationTable request =
     match probe_range (S (length (at_entries table))) request (ap_first_local_transaction_id request) true with
     | None => None
     | Some (inl refusal) => Some refusal
     | Some (inr all_committed) =>
         Some (mkAccelProbed MgaOkStatus true all_committed "" true false
            (BaseEvidence "transaction.visibility_acceleration_table.probe" ++
             [("accepted", "true"); ("all_committed", truth all_committed);
              ("validated_against_current_inventory", "true")]%string) DiagnosticRecord_default)
     end).
Proof.
  unfold ProbeMgaVisibilityAccelerationTable, probe_admitted, table, local_id_valid.
  destruct (ap_current_inventory_authoritative request); [|left; eexists; split_and!; [done|by intros (? & _)|done..]].
  destruct (at_built_from_authoritative_inventory (ap_table request));
    [|left; eexists; split_and!; [done|by intros (_ & ? & _)|done..]]. cbn [negb orb].
  case_decide; [left; eexists; split_and!; [done|by intros (_ & _ & ? & ? & _); intuition|done..]|].
  destruct (_ || _ || _) eqn:Hr; [left; eexists; split_and!; [done| |done..]|right].
  - intros (_ & _ & _ & _ & H1 & H2). rewrite !orb_true_iff, !negb_true_iff, !bool_decide_eq_false, bool_decide_eq_true in Hr.
    unfold kInvalidLocalTransactionId in *. lia.
  - rewrite !orb_false_iff, !negb_false_iff, !bool_decide_eq_true, bool_decide_eq_false in Hr.
    split; [|done]. destruct Hr as [[H1 H2] H3]. unfold kInvalidLocalTransactionId in *. split_and!; [done|done|lia|lia|done|lia].
Qed.
End probe.

(** On tables of fewer than 2^64 entries the probe of a range always ends.  It
    accepts exactly when the inventory is authoritative, the table was built from one
    of the same generation, the range is not empty and ends below the greatest
    number, and every transaction in it is in both table and inventory with the same
    state, evidence flag and final time.  An accepted probe says [all_committed]
    exactly when every transaction of the range is durably committed in the current
    inventory; a refused one never does. *)
Theorem acceleration_probe_exact (request : MgaVisibilityAccelerationProbeRequest)
    (Hlen : N.of_nat (length (at_entries (ap_table request))) < u64_modulus)
    (Hfirst : is_u64 (ap_first_local_transaction_id request)) (Hlast : is_u64 (ap_last_local_transaction_id request)) :
  let in_range w := ap_first_local_transaction_id request <= w /\ w <= ap_last_local_transaction_id request in
  exists r, ProbeMgaVisibilityAccelerationTable request = Some r /\
    (apr_ok r = true <-> probe_admitted request /\ ap_last_local_transaction_id request < u64_max /\
                         forall w, in_range w -> number_unchanged request w) /\
    (apr_all_committed r = true -> apr_ok r = true) /\
    (apr_ok r = true -> (apr_all_committed r = true <-> forall w, in_range w -> number_committed request w)).
Proof.
  intros in_range. destruct (probe_admission request) as [(r & Hr & Hno & Ho & Hc)|(Hadm & Hr)].
  { exists r. rewrite Ho, Hc. split_and!; [done| |done..]. split; [done|by intros (? & _)]. }
  pose proof (probe_ends request (S (length (at_entries (ap_table request)))) 0
                (ap_first_local_transaction_id request) true Hlen Hfirst) as Hend.
  change (N.of_nat 0) with 0 in Hend. rewrite u64_add_small in Hend by (unfold is_u64 in Hfirst; lia).
  rewrite N.add_0_r in Hend.
  destruct (probe_range _ request _ true) as [[refusal|c]|] eqn:Hp; [| |exfalso; apply Hend; [lia|lia|done]].
  - destruct (probe_range_refusal _ _ _ _ _ Hp) as [Ho Hc]. exists refusal. rewrite Ho, Hc.
    split_and!; [done| |done..]. split; [done|]. intros (_ & Hl & Hall).
    destruct (probe_range_refuses _ _ _ _ _ Hfirst Hl Hp) as (w & H1 & H2 & H3). destruct H3. by apply Hall.
  - destruct (probe_range_passes _ _ _ _ _ Hfirst Hlast Hp) as (Hl & Hun & Hc).
    eexists. split; [exact Hr|]. cbn [apr_all_committed]. split_and!; [|done|].
    + split; [|done]. intros _. split_and!; [done|apply Hl, Hadm|]. intros w [H1 H2]. by apply Hun.
    + intros _. rewrite Hc. split; [intros [_ Hall] w [H1 H2]; by apply Hall|]. intros Hall. split; [done|].
      intros w H1 H2. by apply Hall.
Qed.

(** A built table holds what the inventory held, number by number. *)
Lemma built_table_find request v :
  abr_ok (BuildMgaVisibilityAccelerationTable request) = true ->
  FindAccelerationEntry (abr_table (BuildMgaVisibilityAccelerationTable request)) v =
  acceleration_entry <$> SupportFindInventoryEntry (ab_inventory request) v.
Proof.
  unfold BuildMgaVisibilityAccelerationTable. destruct (negb _); [done|]. case_decide; [done|].
  destruct (existsb _ _); [done|]. intros _. unfold FindAccelerationEntry, SupportFindInventoryEntry. cbn [abr_table at_entries].
  rewrite list_find_fmap. unfold compose. cbn [ae_local_transaction_id acceleration_entry].
  by destruct (list_find _ (inv_entries (ab_inventory request))) as [[i e]|].
Qed.

Definition sample_accel_build : MgaVisibilityAccelerationBuildRequest := mkAccelBuild sample_inventory true 7 1.
Definition sample_accel_table : MgaVisibilityAccelerationTable :=
  abr_table (BuildMgaVisibilityAccelerationTable sample_accel_build).

Lemma acceleration_probe_exact_witness :
  exists r, ProbeMgaVisibilityAccelerationTable (mkAccelProbe sample_accel_table sample_after_commit true 7 1 1) = Some r /\
    apr_ok r = true /\ apr_all_committed r = true.
Proof.
  destruct (acceleration_probe_exact (mkAccelProbe sample_accel_table sample_after_commit true 7 1 1))
    as (r & Hr & H1 & _ & H2); [vm_compute; reflexivity..|].
  exists r. split; [done|]. assert (Hok : apr_ok r = true); [|split; [done|]].
  - vm_compute in Hr. injection Hr as <-. vm_compute. reflexivity.
  - apply (H2 Hok). intros w [Hw1 Hw2]. assert (w = 1) as -> by (cbn in Hw1, Hw2; lia).
    eexists. vm_compute. split_and!; reflexivity.
Defined.

(** ** Statement numbers *)

Inductive statement_op :=
| so_reserve (request : TransactionStatementIdReservationRequest)
| so_clear (id : LocalTransactionId).

(** The numbers handed out along a history, in order, and the service it leaves. *)
Fixpoint issued (ops : list statement_op) (s : TransactionStatementIdReservationService)
    : list TransactionStatementId * TransactionStatementIdReservationService :=
  match ops with
  | [] => ([], s)
  | so_reserve request :: ops =>
      let '(r, s1) := statement_Reserve request s in
      let '(ids, s2) := issued ops s1 in (rvr_statement_ids r ++ ids, s2)
  | so_clear id :: ops => issued ops (statement_Clear id s)
  end.

Fixpoint requested (ops : list statement_op) : N :=
  match ops with
  | [] => 0
  | so_reserve request :: ops => rv_statement_count request + requested ops
  | so_clear _ :: ops => requested ops
  end.

Lemma next_sequence_cons id c l :
  next_sequence id (c :: l) =
  if decide (ct_local_transaction_id c = id) then ct_next_statement_sequence c else next_sequence id l.
Proof. unfold next_sequence. cbn [list_find]. case_decide; [done|]. by destruct (list_find _ l) as [[]|]. Qed.

Lemma store_counter_cons id n c l :
  store_counter id n (c :: l) =
  if decide (ct_local_transaction_id c = id) then mkStatementCounter id n :: l else c :: store_counter id n l.
Proof. unfold store_counter. cbn [list_find]. case_decide; [done|]. by destruct (list_find _ l) as [[]|]. Qed.

Lemma next_sequence_store id id' n l :
  next_sequence id' (store_counter id n l) = if decide (id' = id) then n else next_sequence id' l.
Proof.
  induction l as [|c l IH]; [unfold store_counter; cbn [list_find app]; rewrite next_sequence_cons; cbn; repeat case_decide; congruence|].
  rewrite store_counter_cons, (next_sequence_cons id' c l).
  destruct (decide (ct_local_transaction_id c = id)) as [<-|Hc]; rewrite next_sequence_cons; cbn.
  - repeat case_decide; congruence.
  - rewrite IH. repeat case_decide; congruence.
Qed.

Lemma next_sequence_clear id id' l :
  next_sequence id' (filter (fun c => ct_local_transaction_id c <> id) l) =
  if decide (id' = id) then 1 else next_sequence id' l.
Proof.
  induction l as [|c l IH]; [by case_decide|]. rewrite (next_sequence_cons id' c l).
  destruct (decide (ct_local_transaction_id c = id)) as [Hc|Hc].
  - rewrite filter_cons_False by (by intros []). rewrite IH. repeat case_decide; congruence.
  - rewrite filter_cons_True, next_sequence_cons, IH by done. repeat case_decide; congruence.
Qed.

Lemma take_spec count id next :
  next + N.of_nat count < u64_modulus ->
  take_statement_ids count id next =
  ((fun i => mkStatementId id (next + N.of_nat i)) <$> seq 0 count, next + N.of_nat count).
Proof.
  revert next. induction count as [|count IH]; intros next Hw; cbn [take_statement_ids].
  - cbn. by rewrite N.add_0_r.
  - rewrite u64_add_small by lia. rewrite IH by lia. cbn [seq fmap list_fmap]. f_equal; [f_equal; [f_equal; lia|]|lia].
    rewrite <- fmap_S_seq, <- list_fmap_compose. apply list_fmap_ext. intros i x _. unfold compose. f_equal. lia.
Qed.

(** One reservation: refused and without effect, or the next numbers of the transaction. *)
Lemma reserve_cases request s :
  let id := rv_local_transaction_id request in
  next_sequence id (ss_counters s) + rv_statement_count request < u64_modulus ->
  (rvr_ok (statement_Reserve request s).1 = false /\ rvr_statement_ids (statement_Reserve request s).1 = [] /\
   (statement_Reserve request s).2 = s) \/
  (rvr_ok (statement_Reserve request s).1 = true /\
   rvr_statement_ids (statement_Reserve request s).1 =
     (fun i => mkStatementId id (next_sequence id (ss_counters s) + N.of_nat i)) <$> seq 0 (N.to_nat (rv_statement_count request)) /\
   (statement_Reserve request s).2 =
     mkStatementService (store_counter id (next_sequence id (ss_counters s) + rv_statement_count request) (ss_counters s)) /\
   exists e, SupportFindInventoryEntry (rv_inventory request) id = Some e /\
     ti_transaction_uuid (e_identity e) = rv_transaction_uuid request /\ e_rollback_only e = false /\
     (e_state e = ts_active \/ e_state e = ts_read_only_active)).
Proof.
  intros id Hw. unfold statement_Reserve. fold id. destruct (negb _); [by left|]. destruct (_ || _); [by left|].
  destruct (SupportFindInventoryEntry _ _) as [e|]; [|by left].
  destruct (SameTransactionUuid _ _) eqn:Hu; [|by left]. cbn [negb].
  destruct (negb _ || _) eqn:Hs; [by left|]. right. rewrite take_spec by (rewrite N2Nat.id; exact Hw). rewrite N2Nat.id.
  split_and!; [done..|]. exists e. apply orb_false_iff in Hs as [Hs ->]. apply negb_false_iff, orb_true_iff in Hs.
  rewrite !bool_decide_eq_true in Hs. unfold SameTransactionUuid in Hu. apply andb_true_iff in Hu as [H1 H2].
  apply bool_decide_eq_true in H1, H2. split_and!; [done| |done|done].
  destruct (ti_transaction_uuid (e_identity e)), (rv_transaction_uuid request). cbn in *. congruence.
Qed.

Lemma own_ids id id' next (n : nat) :
  filter (fun i => sid_local_transaction_id i = id) ((fun i => mkStatementId id' (next + N.of_nat i)) <$> seq 0 n) =
  if decide (id' = id) then (fun i => mkStatementId id' (next + N.of_nat i)) <$> seq 0 n else [].
Proof.
  generalize (seq 0 n) as l. intros l. induction l as [|i l IH]; [by case_decide|]. rewrite fmap_cons.
  destruct (decide (id' = id)) as [Hd|Hd].
  - rewrite filter_cons_True by done. by rewrite IH.
  - by rewrite filter_cons_False.
Qed.

(** A reservation of another transaction, wrapping or not. *)
Lemma reserve_other request s id :
  rv_local_transaction_id request <> id ->
  filter (fun i => sid_local_transaction_id i = id) (rvr_statement_ids (statement_Reserve request s).1) = [] /\
  next_sequence id (ss_counters (statement_Reserve request s).2) = next_sequence id (ss_counters s).
Proof.
  intros Hne. unfold statement_Reserve. destruct (negb _); [done|]. destruct (_ || _); [done|].
  destruct (SupportFindInventoryEntry _ _) as [e|]; [|done]. destruct (negb _); [done|]. destruct (_ || _); [done|].
  assert (Ht : forall count next, filter (fun i => sid_local_transaction_id i = id)
            (take_statement_ids count (rv_local_transaction_id request) next).1 = []).
  { induction count as [|count IH]; intros next; cbn [take_statement_ids]; [done|]. specialize (IH (u64_add next 1)).
    destruct (take_statement_ids count _ _). cbn [fst] in *. by rewrite filter_cons_False. }
  specialize (Ht (N.to_nat (rv_statement_count request)) (next_sequence (rv_local_transaction_id request) (ss_counters s))).
  destruct (take_statement_ids _ _ _) as [ids next]. cbn [fst snd rvr_statement_ids ss_counters] in *. split; [done|].
  rewrite next_sequence_store. by rewrite decide_False by congruence.
Qed.

(** From any state of the service, as long as a transaction's counter is not cleared
    and does not wrap, the statement numbers it is given along a history are
    consecutive, in order and without gap, whatever other transactions reserve and
    clear. *)
Theorem statement_numbers_consecutive (ops : list statement_op) (s : TransactionStatementIdReservationService)
    (id : LocalTransactionId) :
  so_clear id ∉ ops -> next_sequence id (ss_counters s) + requested ops < u64_modulus ->
  exists n, filter (fun i => sid_local_transaction_id i = id) (issued ops s).1 =
    ((fun i => mkStatementId id (next_sequence id (ss_counters s) + N.of_nat i)) <$> seq 0 n) /\
    next_sequence id (ss_counters (issued ops s).2) = next_sequence id (ss_counters s) + N.of_nat n.
Proof.
  revert s. induction ops as [|[request|id'] ops IH]; intros s Hc Hw; cbn [issued requested] in *.
  - exists 0%nat. cbn. split; [done|lia].
  - apply not_elem_of_cons in Hc as [_ Hc]. destruct (decide (rv_local_transaction_id request = id)) as [Hid|Hid].
    + destruct (reserve_cases request s) as [(_ & Hi & Hs)|(_ & Hi & Hs & _)]; [rewrite Hid; lia| |];
        destruct (statement_Reserve request s) as [r s1]; cbn [fst snd] in Hi, Hs; subst s1;
        rewrite Hi; clear Hi.
      * destruct (IH s Hc ltac:(lia)) as (n & H1 & H2). exists n. by destruct (issued ops s).
      * destruct (IH (mkStatementService (store_counter (rv_local_transaction_id request)
            (next_sequence (rv_local_transaction_id request) (ss_counters s) + rv_statement_count request) (ss_counters s))) Hc)
          as (n & H1 & H2); cbn [ss_counters] in *; rewrite Hid, next_sequence_store, decide_True in * by done; [lia|].
        destruct (issued ops _) as [ids s2]. cbn [fst snd] in *. rewrite filter_app, H1, H2, own_ids, decide_True by done.
        exists (N.to_nat (rv_statement_count request) + n)%nat. split; [|lia].
        rewrite seq_app, fmap_app. f_equal. 
        replace (0 + N.to_nat (rv_statement_count request))%nat with (N.to_nat (rv_statement_count request) + 0)%nat by lia.
        rewrite <- fmap_add_seq, <- list_fmap_compose. apply list_fmap_ext. intros i x _. unfold compose. f_equal. lia.
    + destruct (reserve_other request s id Hid) as [Hi Hn]. destruct (statement_Reserve request s) as [r s1].
      cbn [fst snd] in *. destruct (IH s1 Hc ltac:(lia)) as (n & H1 & H2). exists n.
      destruct (issued ops s1) as [ids s2]. cbn [fst snd] in *. rewrite filter_app, Hi, H1, H2, Hn. done.
  - apply not_elem_of_cons in Hc as [Hne Hc].
    assert (Hn : next_sequence id (ss_counters (statement_Clear id' s)) = next_sequence id (ss_counters s)).
    { cbn [statement_Clear ss_counters]. rewrite next_sequence_clear, decide_False by congruence. done. }
    rewrite <- Hn in *. by apply IH.
Qed.

Definition sample_reservation (n : N) : statement_op :=
  so_reserve (mkReservation sample_inventory true 2 (sample_txn_uuid 2) n).

Lemma sample_statements :
  (issued [sample_reservation 2; so_clear 9; sample_reservation 1] (mkStatementService [])).1 =
  [mkStatementId 2 1; mkStatementId 2 2; mkStatementId 2 3].
Proof. vm_compute. reflexivity. Qed.

(** ** Snapshot templates *)

Lemma same_static_inputs l r : SameStaticInputs l r = true <-> l = r.
Proof.
  unfold SameStaticInputs. rewrite !andb_true_iff, !bool_decide_eq_true.
  destruct l, r; cbn. split; [naive_solver|by intros [= -> -> -> -> -> ->]].
Qed.

(** The template kept for some inputs. *)
Definition template_for (inputs : TransactionSnapshotTemplateStaticInputs) (l : list TransactionSnapshotTemplate)
    : option TransactionSnapshotTemplate :=
  snd <$> list_find (fun item => SameStaticInputs (st_static_inputs item) inputs = true) l.

Lemma template_for_replace t inputs l :
  template_for inputs (replace_template t l) =
  if SameStaticInputs (st_static_inputs t) inputs then Some t else template_for inputs l.
Proof.
  unfold template_for. induction l as [|item l IH]; cbn [replace_template].
  - cbn [list_find]. destruct (SameStaticInputs (st_static_inputs t) inputs) eqn:Hs.
    + by rewrite decide_True.
    + by rewrite decide_False.
  - destruct (SameStaticInputs (st_static_inputs item) (st_static_inputs t)) eqn:Hi; cbn [list_find].
    + apply same_static_inputs in Hi. rewrite Hi.
      destruct (SameStaticInputs (st_static_inputs t) inputs) eqn:Hs; [by rewrite decide_True|].
      by rewrite !decide_False.
    + destruct (SameStaticInputs (st_static_inputs item) inputs) eqn:Hm.
      * rewrite !decide_True by done. destruct (SameStaticInputs (st_static_inputs t) inputs) eqn:Hs; [|done].
        apply same_static_inputs in Hm, Hs. rewrite Hm, Hs in Hi. by rewrite (proj2 (same_static_inputs _ _)) in Hi.
      * rewrite !decide_False by done.
        transitivity (snd <$> list_find (fun item => SameStaticInputs (st_static_inputs item) inputs = true)
                        (replace_template t l)); [by destruct (list_find _ _) as [[]|]|].
        rewrite IH. destruct (SameStaticInputs _ _); [done|]. by destruct (list_find _ l) as [[]|].
Qed.

(** Requests on the cache, and the state they leave. *)
Inductive template_op := tpo_store (request : TransactionSnapshotTemplateCacheRequest) | tpo_invalidate (generation : N).

Definition template_step (c : TransactionSnapshotTemplateCache) (op : template_op) : TransactionSnapshotTemplateCache :=
  match op with
  | tpo_store request => (template_Store request c).2
  | tpo_invalidate generation => template_Invalidate generation c
  end.

(** The template stored last for the inputs of a request, along a history, with the
    stamps of that moment; refused stores leave nothing. *)
Fixpoint last_stored (inputs : TransactionSnapshotTemplateStaticInputs) (c : TransactionSnapshotTemplateCache)
    (ops : list template_op) (found : option TransactionSnapshotTemplate) : option TransactionSnapshotTemplate :=
  match ops with
  | [] => found
  | op :: ops =>
      last_stored inputs (template_step c op) ops
        match op with
        | tpo_store request =>
            let r := (template_Store request c).1 in
            if tcr_ok r && bool_decide (tr_static_inputs request = inputs) then Some (tcr_snapshot_template r) else found
        | tpo_invalidate _ => found
        end
  end.

Lemma template_step_for c op inputs :
  template_for inputs (tc_templates (template_step c op)) =
  match op with
  | tpo_store request =>
      let r := (template_Store request c).1 in
      if tcr_ok r && bool_decide (tr_static_inputs request = inputs) then Some (tcr_snapshot_template r)
      else template_for inputs (tc_templates c)
  | tpo_invalidate _ => template_for inputs (tc_templates c)
  end.
Proof.
  destruct op as [request|g]; [|done]. cbn [template_step]. unfold template_Store.
  destruct (negb _); [done|]. destruct (template_inputs_invalid request); [done|]. cbn [fst snd tc_templates].
  rewrite template_for_replace. cbn [st_static_inputs tcr_snapshot_template].
  change (tcr_ok _) with true. cbn [andb].
  destruct (decide (tr_static_inputs request = inputs)) as [He|He].
  - by rewrite bool_decide_true, (proj2 (same_static_inputs _ _)).
  - rewrite bool_decide_false by done. destruct (SameStaticInputs _ _) eqn:Hs; [|done]. by apply same_static_inputs in Hs.
Qed.

Lemma template_history ops c inputs :
  template_for inputs (tc_templates (foldl template_step c ops)) =
  last_stored inputs c ops (template_for inputs (tc_templates c)).
Proof.
  revert c. induction ops as [|op ops IH]; intros c; [done|]. cbn [foldl last_stored]. rewrite IH. f_equal.
  apply template_step_for.
Qed.

(** After any history of stores and invalidations, a lookup answers only with the
    template stored last for its inputs, and answers exactly when that template
    carries the current generations and the numbers the request names. *)
Theorem template_lookup_exact (g i : N) (ops : list template_op) (request : TransactionSnapshotTemplateCacheRequest)
    (t : TransactionSnapshotTemplate) :
  let c := foldl template_step (MakeTemplateCache g i) ops in
  tcr_ok (template_Lookup request c) = true /\ tcr_snapshot_template (template_Lookup request c) = t <->
  tr_inventory_authoritative request = true /\ template_inputs_invalid request = false /\
  last_stored (tr_static_inputs request) (MakeTemplateCache g i) ops None = Some t /\ template_current request c t = true.
Proof.
  intros c. pose proof (template_history ops (MakeTemplateCache g i) (tr_static_inputs request)) as Hh. fold c in Hh.
  change (template_for _ (tc_templates (MakeTemplateCache g i))) with (@None TransactionSnapshotTemplate) in Hh.
  rewrite <- Hh. clear Hh. unfold template_Lookup. fold (template_for (tr_static_inputs request) (tc_templates c)).
  destruct (tr_inventory_authoritative request); cbn [negb]; [|by split; intros []].
  destruct (template_inputs_invalid request); [by split; [intros []|intros (_ & ? & _)]|].
  destruct (template_for _ _) as [item|]; [|by split; [intros []|intros (_ & _ & ? & _)]].
  destruct (template_current request c item) eqn:Hc; cbn [negb].
  - cbn [tcr_snapshot_template]. split; [by intros [_ <-]|by intros (_ & _ & [= ->] & _)].
  - split; [by intros []|]. intros (_ & _ & [= ->] & Ht). congruence.
Qed.

(** Invalidation sets the generation to any nonzero value: naming the current one
    leaves every template valid, and naming an earlier one makes templates that had
    been invalidated current again. *)
Definition sample_template_request : TransactionSnapshotTemplateCacheRequest :=
  mkTemplateRequest true 5 (mkStaticInputs "snapshot" 1 1 1 1 true) 9 8.

Lemma invalidation_can_revive_template :
  let c := template_step (MakeTemplateCache 1 1) (tpo_store sample_template_request) in
  tcr_ok (template_Lookup sample_template_request (template_step c (tpo_invalidate 2))) = false /\
  tcr_ok (template_Lookup sample_template_request (template_step c (tpo_invalidate 1))) = true /\
  tcr_ok (template_Lookup sample_template_request
            (template_step (template_step c (tpo_invalidate 2)) (tpo_invalidate 1))) = true.
Proof. by vm_compute. Qed.

(** ** Commit fences *)

Lemma no_duplicate_ids ids : HasDuplicateLocalIds ids = false <-> NoDup ids.
Proof.
  induction ids as [|id ids IH]; cbn [HasDuplicateLocalIds]; [split; [constructor|done]|].
  rewrite orb_false_iff, bool_decide_eq_false, IH. symmetry. apply NoDup_cons.
Qed.

Definition durably_committed (inv : LocalTransactionInventory) (id : LocalTransactionId) : Prop :=
  id <> 0 /\ exists e, SupportFindInventoryEntry inv id = Some e /\ IsCommittedOrArchived e = true /\
    e_evidence_record_written e = true.

(** What every refusal of the planner has in common. *)
Definition fence_refused (request : TransactionCommitFenceCoalescingRequest) (r : TransactionCommitFenceCoalescingResult)
    : Prop :=
  fr_ok r = false /\ fr_coalesced_fence_is_finality_authority r = false /\ fr_coalesced_fence_count r = 0 /\
  fr_fallback_to_individual_fences r = negb (fq_policy_required request).

Lemma fence_refusal_refused request error reason code key detail :
  fence_refused request (FenceRefusal request error reason code key detail).
Proof. unfold fence_refused, fr_ok, FenceRefusal. cbn. by rewrite andb_false_r. Qed.

#[local] Hint Resolve fence_refusal_refused : core.

Lemma fence_transactions_ok request ids :
  match fence_transactions_error request ids with
  | Some r => fence_refused request r /\ ~ Forall (durably_committed (fq_inventory request)) ids
  | None => Forall (durably_committed (fq_inventory request)) ids
  end.
Proof.
  induction ids as [|id ids IH]; cbn [fence_transactions_error]; [constructor|].
  assert (H1 : match fence_transaction_error request id with
               | Some r => fence_refused request r /\ ~ durably_committed (fq_inventory request) id
               | None => durably_committed (fq_inventory request) id
               end).
  { unfold fence_transaction_error, durably_committed, local_id_valid, kInvalidLocalTransactionId.
    case_bool_decide; cbn [negb]; [|split; [auto|tauto]].
    destruct (SupportFindInventoryEntry _ id) as [e|]; [|split; [auto|by intros (_ & e & He & _)]].
    destruct (IsCommittedOrArchived e) eqn:H1, (e_evidence_record_written e) eqn:H2; cbn [negb orb];
      [by split; [|exists e]|split; [auto|intros (_ & e' & [= <-] & H3 & H4); congruence]..]. }
  destruct (fence_transaction_error request id) as [r|].
  - split; [apply H1|]. intros Hf. apply H1. by inversion Hf.
  - destruct (fence_transactions_error request ids) as [r|]; [|by constructor].
    split; [apply IH|]. intros Hf. apply IH. by inversion Hf.
Qed.

(** Fences are coalesced exactly when policy, authority, generation and limit admit
    it and the transactions are distinct and durably committed; the fence itself
    decides nothing, and a refusal falls back to single fences unless the policy
    forbids it. *)
Theorem fence_plan_exact (request : TransactionCommitFenceCoalescingRequest) :
  let r := PlanTransactionCommitFenceCoalescing request in
  let ids := fq_local_transaction_ids request in
  (fr_ok r = true <->
   fq_policy_enabled request = true /\ fq_allow_commit_fence_coalescing request = true /\ ids <> [] /\
   fq_inventory_authoritative request = true /\ fq_fence_generation request <> 0 /\
   (fq_max_transactions_per_fence request = 0 \/ N.of_nat (length ids) <= fq_max_transactions_per_fence request) /\
   NoDup ids /\ Forall (durably_committed (fq_inventory request)) ids) /\
  fr_coalesced_fence_is_finality_authority r = false /\
  (fr_ok r = false -> fr_coalesced_fence_count r = 0 /\ fr_fallback_to_individual_fences r = negb (fq_policy_required request)).
Proof.
  intros r ids.
  set (P := fq_policy_enabled request = true /\ _).
  assert (H : fence_refused request r /\ ~ P \/
              P /\ fr_ok r = true /\ fr_coalesced_fence_is_finality_authority r = false).
  { unfold r, P, PlanTransactionCommitFenceCoalescing. fold ids. clear r P.
    pose proof (fence_transactions_ok request ids) as Hf. pose proof (no_duplicate_ids ids) as Hd.
    destruct (fq_policy_enabled request); [|left; split; [apply fence_refusal_refused|by intros (? & _)]].
    destruct (fq_allow_commit_fence_coalescing request); [|left; split; [apply fence_refusal_refused|by intros (_ & ? & _)]]. cbn [negb orb].
    case_decide as Hnil; [left; split; [apply fence_refusal_refused|by intros (_ & _ & ? & _)]|].
    destruct (fq_inventory_authoritative request); [|left; split; [apply fence_refusal_refused|by intros (_ & _ & _ & ? & _)]]. cbn [negb].
    case_decide as Hg; [left; split; [apply fence_refusal_refused|by intros (_ & _ & _ & _ & ? & _)]|].
    case_decide as Hmax; [left; split; [apply fence_refusal_refused|intros (_ & _ & _ & _ & _ & Hm & _); lia]|].
    destruct (HasDuplicateLocalIds ids); [left; split; [apply fence_refusal_refused|intros (_ & _ & _ & _ & _ & _ & Hn & _)]|].
    - by apply Hd in Hn.
    - destruct (fence_transactions_error request ids) as [refusal|].
      + left. split; [apply Hf|]. intros (_ & _ & _ & _ & _ & _ & _ & Ha). by apply Hf.
      + right. split; [|done]. split_and!; [done..|lia|by apply Hd|done]. }
  destruct H as [[(Ho & Ha & Hc & Hb) HP]|(HP & Ho & Ha)]; rewrite Ho, Ha; split_and!; try done; by split.
Qed.

Lemma sample_fence :
  fr_ok (PlanTransactionCommitFenceCoalescing (mkFenceRequest sample_after_commit true true false true 3 8 [1; 2])) = true /\
  fr_ok (PlanTransactionCommitFenceCoalescing (mkFenceRequest sample_inventory true true false true 3 8 [1; 2])) = false.
Proof. by vm_compute. Qed.
