(* ===== verification/MemoryGovernanceClaims.v ===== *)
(** * Correctness of transaction memory governance

    The accounts are the truth about the reservations held, the limit is never
    passed, and releasing a scope or a transaction leaves nothing of it. *)

From stdpp Require Import strings.
From S2P Require Import Prelude Platform MemoryGovernance.

(** ** Totals over the reservations held *)

Definition total (p : MgaTransactionMemoryReservation -> bool) (m : gmap string MgaTransactionMemoryReservation) : N :=
  map_fold (fun _ r acc => (if p r then mrv_bytes r else 0) + acc) 0 m.

Lemma total_empty p : total p ∅ = 0.
Proof. apply map_fold_empty. Qed.

Lemma total_insert p id r m :
  m !! id = None -> total p (<[id := r]> m) = (if p r then mrv_bytes r else 0) + total p m.
Proof. intros H. unfold total. rewrite map_fold_insert_L; [done| |done]. intros. lia. Qed.

Lemma total_delete p id r m :
  m !! id = Some r -> total p m = (if p r then mrv_bytes r else 0) + total p (delete id m).
Proof.
  intros H. rewrite <- (total_insert p id r (delete id m)) by apply lookup_delete_eq. by rewrite insert_delete_id.
Qed.

Lemma total_le p m : total p m <= total (fun _ => true) m.
Proof.
  induction m as [|id r m Hid IH] using map_ind; [by rewrite !total_empty|].
  rewrite !total_insert by done. destruct (p r); lia.
Qed.

(** A ledger lists, for each key, what is held under it, and no key with nothing. *)
Section ledger.
Context {K : Type} `{Countable K} (key : MgaTransactionMemoryReservation -> K).

Definition held (m : gmap string MgaTransactionMemoryReservation) (k : K) : N := total (fun r => bool_decide (key r = k)) m.
Definition ledger_ok (l : gmap K N) (m : gmap string MgaTransactionMemoryReservation) : Prop :=
  forall k, l !! k = if decide (held m k = 0) then None else Some (held m k).

Lemma ledger_default l m k : ledger_ok l m -> default 0 (l !! k) = held m k.
Proof. intros Hl. rewrite Hl. by case_decide. Qed.

Lemma ledger_add l m id r :
  ledger_ok l m -> m !! id = None -> mrv_bytes r <> 0 -> total (fun _ => true) m + mrv_bytes r < u64_modulus ->
  ledger_ok (add_bytes (key r) (mrv_bytes r) l) (<[id := r]> m).
Proof.
  intros Hl Hid Hb Hs k. unfold add_bytes. rewrite (ledger_default l m _ Hl).
  pose proof (total_le (fun x => bool_decide (key x = key r)) m) as Hle.
  rewrite u64_add_small by (unfold held; lia). unfold held in *. rewrite total_insert by done. case_bool_decide as Hk.
  - subst k. rewrite lookup_insert_eq. rewrite decide_False by lia. f_equal. lia.
  - rewrite lookup_insert_ne by done. rewrite (Hl k). unfold held. by rewrite N.add_0_l.
Qed.

Lemma ledger_remove l m id r :
  ledger_ok l m -> m !! id = Some r -> mrv_bytes r <> 0 -> total (fun _ => true) m < u64_modulus ->
  ledger_ok (remove_bytes (key r) (mrv_bytes r) l) (delete id m).
Proof.
  intros Hl Hid Hb Hs k. unfold remove_bytes.
  pose proof (total_le (fun x => bool_decide (key x = key r)) m) as Hle.
  pose proof (total_delete (fun x => bool_decide (key x = key r)) id r m Hid) as Hd.
  cbn beta in Hd. rewrite bool_decide_true in Hd by done.
  pose proof (Hl (key r)) as Hr. unfold held in Hr. rewrite decide_False in Hr by lia. rewrite Hr.
  assert (Hleft : (if decide (total (fun x => bool_decide (key x = key r)) m <= mrv_bytes r) then 0
                   else u64_sub (total (fun x => bool_decide (key x = key r)) m) (mrv_bytes r)) =
                  total (fun x => bool_decide (key x = key r)) (delete id m)).
  { case_decide; [lia|]. rewrite u64_sub_small by lia. lia. }
  rewrite Hleft. clear Hleft. destruct (decide (key r = k)) as [<-|Hk].
  - unfold held. case_decide as H0; [by rewrite lookup_delete_eq|by rewrite lookup_insert_eq].
  - assert (Hsame : held (delete id m) k = held m k).
    { unfold held. rewrite (total_delete (fun x => bool_decide (key x = k)) id r m Hid).
      by rewrite bool_decide_false, N.add_0_l by done. }
    rewrite Hsame, <- (Hl k). case_decide; [by apply lookup_delete_ne|by apply lookup_insert_ne].
Qed.
End ledger.

(** ** The invariant *)

Definition reservation_name (n : N) : string := ("mga-memory-" +:+ to_string n)%string.

Lemma reservation_name_inj a b : reservation_name a = reservation_name b -> a = b.
Proof. unfold reservation_name. intros H%(inj (String.append "mga-memory-")). by apply to_string_inj. Qed.

Record accounted (g : MgaTransactionMemoryGovernor) : Prop := {
  ac_ids : forall id r, gov_active g !! id = Some r ->
    mrv_reservation_id r = id /\ mrv_bytes r <> 0 /\ exists n, n < gov_next_reservation_sequence g /\ id = reservation_name n;
  ac_count : mss_active_reservations (gov_snapshot g) = N.of_nat (size (gov_active g));
  ac_current : mss_current_bytes (gov_snapshot g) = total (fun _ => true) (gov_active g);
  ac_peak : mss_current_bytes (gov_snapshot g) <= mss_peak_bytes (gov_snapshot g) < u64_modulus;
  ac_limit : gov_hard_limit_bytes g <> 0 -> mss_peak_bytes (gov_snapshot g) <= gov_hard_limit_bytes g;
  ac_transactions : ledger_ok mrv_transaction_id (mss_bytes_by_transaction (gov_snapshot g)) (gov_active g);
  ac_scopes : ledger_ok mrv_scope_id (mss_bytes_by_scope (gov_snapshot g)) (gov_active g);
  ac_uses : ledger_ok (fun r => use_kind_index (mrv_use_kind r)) (mss_bytes_by_use (gov_snapshot g)) (gov_active g) }.

Lemma accounted_empty manager limit : accounted (MakeGovernor manager limit).
Proof.
  split; cbn; [by intros id r Hr; rewrite lookup_empty in Hr|done|by rewrite total_empty|u64_unfold; lia|lia|..];
    intros k; unfold held; rewrite total_empty; done.
Qed.

Lemma accounted_refused g : accounted g -> accounted (count_refused g).
Proof. intros []. by split. Qed.

(** The budget check, as a bound. *)
Lemma budget_admits current bytes limit :
  current < u64_modulus -> bytes < u64_modulus ->
  AddWouldOverflow current bytes || (bool_decide (limit <> 0) && bool_decide (limit < u64_add current bytes)) = false <->
  current + bytes < u64_modulus /\ (limit <> 0 -> current + bytes <= limit).
Proof.
  intros Hc Hb. unfold AddWouldOverflow. rewrite orb_false_iff, !andb_false_iff, !bool_decide_eq_false. split.
  - intros [H1 H2]. assert (Hs : current + bytes < u64_modulus) by (u64_unfold; lia).
    rewrite u64_add_small in H2 by done. split; [done|]. lia.
  - intros [H1 H2]. rewrite u64_add_small by done. split; [u64_unfold; lia|]. destruct (decide (limit = 0)); [left|right]; lia.
Qed.

Lemma accounted_acquired g (r : MgaTransactionMemoryReservation) :
  accounted g -> gov_next_reservation_sequence g + 1 < u64_modulus ->
  mrv_reservation_id r = reservation_name (gov_next_reservation_sequence g) -> mrv_bytes r <> 0 ->
  mss_current_bytes (gov_snapshot g) + mrv_bytes r < u64_modulus ->
  (gov_hard_limit_bytes g <> 0 -> mss_current_bytes (gov_snapshot g) + mrv_bytes r <= gov_hard_limit_bytes g) ->
  accounted (AddAccounting r (mkGovernor (gov_memory_manager g) (gov_hard_limit_bytes g)
    (u64_add (gov_next_reservation_sequence g) 1) (gov_snapshot g)
    (<[reservation_name (gov_next_reservation_sequence g) := r]> (gov_active g)))).
Proof.
  intros [Hids Hcount Hcur Hpeak Hlim Ht Hs Hu] Hseq Hid Hb Hsum Hl.
  assert (Hnew : gov_active g !! reservation_name (gov_next_reservation_sequence g) = None).
  { destruct (gov_active g !! _) as [x|] eqn:Hx; [|done]. apply Hids in Hx as (_ & _ & n & Hn & He).
    apply reservation_name_inj in He. lia. }
  unfold AddAccounting, set_snapshot.
  split; cbn [gov_active gov_snapshot gov_next_reservation_sequence gov_hard_limit_bytes mss_current_bytes mss_peak_bytes
              mss_active_reservations mss_bytes_by_transaction mss_bytes_by_scope mss_bytes_by_use];
    rewrite ?u64_add_small by done.
  - intros id x. destruct (decide (id = reservation_name (gov_next_reservation_sequence g))) as [->|Hne].
    + rewrite lookup_insert_eq. intros [= <-]. split_and!; [done|done|]. eexists. split; [|done]. lia.
    + rewrite lookup_insert_ne by done. intros Hx. apply Hids in Hx as (H1 & H2 & n & Hn & He).
      split_and!; [done|done|]. exists n. split; [lia|done].
  - done.
  - rewrite total_insert by done. lia.
  - lia.
  - intros Hz. specialize (Hl Hz). specialize (Hlim Hz). lia.
  - apply ledger_add; [done|done|done|by rewrite <- Hcur].
  - apply ledger_add; [done|done|done|by rewrite <- Hcur].
  - apply (ledger_add (fun r => use_kind_index (mrv_use_kind r))); [done|done|done|by rewrite <- Hcur].
Qed.

Lemma accounted_erased g id r :
  accounted g -> gov_active g !! id = Some r -> accounted (erase_reservation id r g).
Proof.
  intros [Hids Hcount Hcur Hpeak Hlim Ht Hs Hu] Hid. destruct (Hids id r Hid) as (_ & Hb & _).
  pose proof (total_delete (fun _ => true) id r _ Hid) as Hd.
  assert (Hnew : (if decide (mss_current_bytes (gov_snapshot g) <= mrv_bytes r) then 0
                  else u64_sub (mss_current_bytes (gov_snapshot g)) (mrv_bytes r)) =
                 total (fun _ => true) (delete id (gov_active g))).
  { case_decide; [lia|]. rewrite u64_sub_small by lia. lia. }
  unfold erase_reservation, RemoveAccounting, set_snapshot.
  split; cbn [gov_active gov_snapshot gov_next_reservation_sequence gov_hard_limit_bytes mss_current_bytes mss_peak_bytes
              mss_active_reservations mss_bytes_by_transaction mss_bytes_by_scope mss_bytes_by_use];
    rewrite ?Hnew; try done; try lia.
  - intros id' x Hx. apply lookup_delete_Some in Hx as [_ Hx]. by apply Hids.
  - apply ledger_remove; [done|done|done|lia].
  - apply ledger_remove; [done|done|done|lia].
  - apply (ledger_remove (fun r => use_kind_index (mrv_use_kind r))); [done|done|done|lia].
Qed.

(** ** Releasing many *)

Lemma release_loop ids acc g :
  accounted g ->
  let g' := (foldl release_one (acc, g) ids).2 in
  accounted g' /\ gov_memory_manager g' = gov_memory_manager g /\ gov_hard_limit_bytes g' = gov_hard_limit_bytes g /\
  gov_next_reservation_sequence g' = gov_next_reservation_sequence g /\
  forall id, gov_active g' !! id = if decide (id ∈ ids) then None else gov_active g !! id.
Proof.
  revert acc g. induction ids as [|i ids IH]; intros acc g Hg; cbn [foldl].
  { by split_and!. }
  destruct acc as [bytes count]. cbn [release_one]. destruct (gov_active g !! i) as [r|] eqn:Hi.
  - destruct (IH (u64_add bytes (mrv_bytes r), u64_add count 1) (erase_reservation i r g)) as (H1 & H2 & H3 & H4 & H5);
      [by apply accounted_erased|]. split_and!; try done. intros id. rewrite H5. cbn [erase_reservation RemoveAccounting set_snapshot gov_active].
    destruct (decide (id = i)) as [->|Hne].
    + rewrite (decide_True (P := i ∈ i :: ids)) by apply list_elem_of_here. case_decide; [done|apply lookup_delete_eq].
    + rewrite lookup_delete_ne by done. destruct (decide (id ∈ ids)); [by rewrite decide_True by (by right)|].
      rewrite decide_False; [done|]. by rewrite elem_of_cons; intros [].
  - destruct (IH (bytes, count) g Hg) as (H1 & H2 & H3 & H4 & H5). split_and!; try done. intros id. rewrite H5.
    destruct (decide (id ∈ ids)); [by rewrite decide_True by (by right)|].
    destruct (decide (id = i)) as [->|Hne]; [by rewrite Hi; case_decide|].
    rewrite decide_False; [done|]. by rewrite elem_of_cons; intros [].
Qed.

Lemma release_where scope transaction operation g :
  accounted g ->
  let g' := (ReleaseWhere scope transaction operation g).2 in
  accounted g' /\ gov_memory_manager g' = gov_memory_manager g /\ gov_hard_limit_bytes g' = gov_hard_limit_bytes g /\
  gov_next_reservation_sequence g' = gov_next_reservation_sequence g /\
  gov_active g' = filter (fun p => release_matches scope transaction p.2 = false) (gov_active g).
Proof.
  intros Hg g'. subst g'. unfold ReleaseWhere. set (ids := fst <$> _).
  pose proof (release_loop ids (0, 0) g Hg) as Hloop.
  destruct (foldl release_one (0, 0, g) ids) as [[bytes count] g']. cbn [fst snd] in *.
  destruct Hloop as (H1 & H2 & H3 & H4 & H5). split_and!; try done. apply map_eq. intros id. rewrite H5.
  assert (Hin : id ∈ ids <-> exists r, gov_active g !! id = Some r /\ release_matches scope transaction r = true).
  { unfold ids. rewrite list_elem_of_fmap. split.
    - intros ([i r] & -> & Hr). apply list_elem_of_filter in Hr as [Hm Hr]. apply elem_of_map_in_order in Hr. by exists r.
    - intros (r & Hr & Hm). exists (id, r). split; [done|]. apply list_elem_of_filter. split; [done|].
      by apply elem_of_map_in_order. }
  destruct (gov_active g !! id) as [r|] eqn:Hr.
  - destruct (release_matches scope transaction r) eqn:Hm.
    + rewrite decide_True by (apply Hin; by exists r). symmetry. apply map_lookup_filter_None. right.
      intros x Hx. assert (x = r) as -> by congruence. cbn. by rewrite Hm.
    + rewrite decide_False.
      * symmetry. apply map_lookup_filter_Some. done.
      * intros (x & Hx & Hmx)%Hin. congruence.
  - rewrite decide_False; [|intros (x & Hx & _)%Hin; congruence]. symmetry. apply map_lookup_filter_None. by left.
Qed.

(** ** Histories *)

Inductive governor_op :=
| go_acquire (allocate : allocator) (request : MgaTransactionMemoryRequest)
| go_release (reservation_id : string)
| go_release_scope (scope_id : string)
| go_cancel (transaction_id : string).

Definition governor_step (g : MgaTransactionMemoryGovernor) (op : governor_op) : MgaTransactionMemoryGovernor :=
  match op with
  | go_acquire allocate request => (governor_Acquire allocate request g).2
  | go_release id => (governor_Release id g).2
  | go_release_scope id => (ReleaseScope id g).2
  | go_cancel id => (CancelTransaction id g).2
  end.

(** Request sizes are 64-bit words. *)
Definition op_sized (op : governor_op) : Prop :=
  match op with go_acquire _ request => mrq_bytes request < u64_modulus | _ => True end.

(** When an acquisition is granted, in terms of what is held. *)
Definition grantable (g : MgaTransactionMemoryGovernor) (allocate : allocator) (request : MgaTransactionMemoryRequest) : Prop :=
  let a := mrq_authority request in
  let after := total (fun _ => true) (gov_active g) + mrq_bytes request in
  gov_memory_manager g = true /\ mrq_bytes request <> 0 /\ mrq_transaction_id request <> ""%string /\
  mrq_scope_id request <> ""%string /\ mau_engine_mga_transaction_inventory_authoritative a = true /\
  mau_parser_or_client_authority a = false /\ mau_reference_authority a = false /\ mau_wal_or_redo_authority a = false /\
  mau_memory_pressure_finality_authority a = false /\ after < u64_modulus /\
  (gov_hard_limit_bytes g <> 0 -> after <= gov_hard_limit_bytes g) /\
  allocate (acquire_tag request) (mrq_bytes request) = None.

Lemma governor_acquire_cases allocate request g :
  accounted g -> mrq_bytes request < u64_modulus ->
  (mrs_ok (governor_Acquire allocate request g).1 = false /\ (governor_Acquire allocate request g).2 = count_refused g /\
   ~ grantable g allocate request) \/
  (mrs_ok (governor_Acquire allocate request g).1 = true /\ grantable g allocate request /\
   let id := reservation_name (gov_next_reservation_sequence g) in
   let r := mkMemoryReservation id (mrq_use_kind request) (mrq_transaction_id request) (mrq_scope_id request)
              (mrq_bytes request) in
   mrs_reservation (governor_Acquire allocate request g).1 = r /\
   (governor_Acquire allocate request g).2 =
     AddAccounting r (mkGovernor (gov_memory_manager g) (gov_hard_limit_bytes g)
       (u64_add (gov_next_reservation_sequence g) 1) (gov_snapshot g) (<[id := r]> (gov_active g)))).
Proof.
  intros Hg Hb. unfold governor_Acquire, grantable.
  pose proof (budget_admits (mss_current_bytes (gov_snapshot g)) (mrq_bytes request) (gov_hard_limit_bytes g)
                ltac:(pose proof (ac_peak g Hg); lia) Hb) as Hbudget. rewrite (ac_current g Hg) in Hbudget.
  rewrite (ac_current g Hg).
  destruct (gov_memory_manager g); cbn [negb]; [|left; split_and!; [done|done|by intros (? & _)]].
  destruct (decide (mrq_bytes request = 0)) as [H0|H0]; [left; split_and!; [done|done|by intros (_ & ? & _)]|].
  destruct (decide (mrq_transaction_id request = ""%string \/ mrq_scope_id request = ""%string)) as [H1|H1];
    [left; split_and!; [done|done|by intros (_ & _ & ? & ? & _); destruct H1]|].
  destruct (mau_engine_mga_transaction_inventory_authoritative _); cbn [negb];
    [|left; split_and!; [done|done|by intros (_ & _ & _ & _ & ? & _)]].
  destruct (mau_parser_or_client_authority _), (mau_reference_authority _), (mau_wal_or_redo_authority _),
    (mau_memory_pressure_finality_authority _); cbn [orb];
    try (left; split_and!; [done|done|by intros (_ & _ & _ & _ & _ & ? & ? & ? & ? & _)]).
  destruct (AddWouldOverflow _ _ || _).
  { left. split_and!; [done|done|]. intros (_ & _ & _ & _ & _ & _ & _ & _ & _ & H2 & H3 & _).
    by discriminate (proj2 Hbudget (conj H2 H3)). }
  destruct (proj1 Hbudget eq_refl) as [H2 H3].
  destruct (allocate _ _) as [[status diagnostic]|] eqn:Ha.
  - left. split_and!; [by unfold mrs_ok; cbn; rewrite andb_false_r|done|].
    by intros (_ & _ & _ & _ & _ & _ & _ & _ & _ & _ & _ & Hx).
  - right. split_and!; try done; tauto.
Qed.

Lemma governor_step_ok g op :
  accounted g -> op_sized op -> gov_next_reservation_sequence g + 1 < u64_modulus ->
  accounted (governor_step g op) /\ gov_hard_limit_bytes (governor_step g op) = gov_hard_limit_bytes g /\
  gov_next_reservation_sequence (governor_step g op) <= gov_next_reservation_sequence g + 1.
Proof.
  intros Hg Hop Hseq. destruct op as [allocate request|id|id|id]; cbn [governor_step].
  - destruct (governor_acquire_cases allocate request g Hg Hop) as [(_ & -> & _)|(_ & Hgr & _ & ->)].
    + split_and!; [by apply accounted_refused|done|cbn; lia].
    + destruct Hgr as (_ & Hb & _ & _ & _ & _ & _ & _ & _ & Hs & Hl & _). rewrite <- (ac_current g Hg) in Hs, Hl.
      split_and!; [by apply accounted_acquired|done|cbn -[u64_add]; rewrite u64_add_small by done; lia].
  - unfold governor_Release. destruct (gov_active g !! id) as [r|] eqn:Hr; cbn [snd FailClosed].
    + split_and!; [by apply accounted_erased|done|cbn; lia].
    + split_and!; [by apply accounted_refused|done|cbn; lia].
  - destruct (release_where id "" "scope_release" g Hg) as (H1 & _ & H2 & H3 & _). split_and!; [done|done|].
    unfold ReleaseScope. rewrite H3. lia.
  - destruct (release_where "" id "transaction_cancel" g Hg) as (H1 & _ & H2 & H3 & _). split_and!; [done|done|].
    unfold CancelTransaction. rewrite H3. lia.
Qed.

Lemma governor_run_ok ops g :
  accounted g -> Forall op_sized ops -> gov_next_reservation_sequence g + N.of_nat (length ops) < u64_modulus ->
  accounted (foldl governor_step g ops).
Proof.
  revert g. induction ops as [|op ops IH]; intros g Hg Hops Hlen; [done|]. cbn [foldl length] in *.
  inversion Hops as [|? ? Hop Hrest]; subst.
  destruct (governor_step_ok g op Hg Hop ltac:(lia)) as (H1 & _ & H2). apply IH; [done|done|]. lia.
Qed.

(** C34: after any history of acquisitions (granted or not, whatever the allocator
    answers), releases, scope releases and cancellations, the snapshot is the truth
    about the reservations held: current bytes are their sum, the ledgers by
    transaction, scope and use give the sum under each key and list no empty key, and
    current bytes never passed the peak nor the peak the hard limit.  The next
    acquisition is granted exactly when its request is well formed, claims no foreign
    authority and fits the limit and the word; and releasing a scope or cancelling a
    transaction removes exactly its reservations. *)
Theorem governor_accounting (manager : bool) (limit : N) (ops : list governor_op)
    (Hlen : 1 + N.of_nat (length ops) < u64_modulus) (Hops : Forall op_sized ops) :
  let g := foldl governor_step (MakeGovernor manager limit) ops in
  accounted g /\
  (forall allocate request, mrq_bytes request < u64_modulus ->
     mrs_ok (governor_Acquire allocate request g).1 = true <-> grantable g allocate request) /\
  (forall scope, scope <> ""%string ->
     gov_active (ReleaseScope scope g).2 = filter (fun p => mrv_scope_id p.2 <> scope) (gov_active g)) /\
  (forall transaction, transaction <> ""%string ->
     gov_active (CancelTransaction transaction g).2 = filter (fun p => mrv_transaction_id p.2 <> transaction) (gov_active g)).
Proof.
  intros g. assert (Hg : accounted g) by (apply governor_run_ok; [apply accounted_empty|done|done]).
  split_and!; [done| | |].
  - intros allocate request Hb. destruct (governor_acquire_cases allocate request g Hg Hb) as [(H1 & _ & H2)|(H1 & H2 & _)];
      rewrite H1; by split.
  - intros scope Hne. destruct (release_where scope "" "scope_release" g Hg) as (_ & _ & _ & _ & Hact).
    unfold ReleaseScope. rewrite Hact. apply map_filter_ext. intros i r _. cbn [snd]. unfold release_matches.
    rewrite (bool_decide_true (scope <> _)) by done. rewrite (bool_decide_false (~ ""%string = _)) by tauto.
    cbn [andb]. rewrite orb_false_r. apply bool_decide_eq_false.
  - intros transaction Hne. destruct (release_where "" transaction "transaction_cancel" g Hg) as (_ & _ & _ & _ & Hact).
    unfold CancelTransaction. rewrite Hact. apply map_filter_ext. intros i r _. cbn [snd]. unfold release_matches.
    rewrite (bool_decide_true (transaction <> _)) by done. rewrite (bool_decide_false (~ ""%string = _)) by tauto.
    cbn [andb orb]. apply bool_decide_eq_false.
Qed.

Definition sample_memory (bytes : N) (transaction scope : string) : MgaTransactionMemoryRequest :=
  mkMemoryRequest muk_transaction_snapshot transaction scope "" bytes (mkMemoryAuthority true false false false false).
Definition generous : allocator := fun _ _ => None.
Definition sample_memory_ops : list governor_op :=
  [go_acquire generous (sample_memory 100 "t1" "s"); go_acquire generous (sample_memory 60 "t2" "s");
   go_acquire generous (sample_memory 60 "t3" "s"); go_cancel "t1"]%string.

Lemma governor_accounting_witness :
  let g := foldl governor_step (MakeGovernor true 200) sample_memory_ops in
  mss_current_bytes (gov_snapshot g) = 60 /\ mss_peak_bytes (gov_snapshot g) <= 200 /\
  mrs_ok (governor_Acquire generous (sample_memory 150 "t4" "s") g).1 = false.
Proof.
  assert (Hlen : 1 + N.of_nat (length sample_memory_ops) < u64_modulus) by (vm_compute; reflexivity).
  assert (Hops : Forall op_sized sample_memory_ops).
  { do 3 (apply Forall_cons_2; [vm_compute; reflexivity|]). apply Forall_cons_2; [exact I|constructor]. }
  pose proof (governor_accounting true 200 sample_memory_ops Hlen Hops) as Hthm. cbv zeta in Hthm.
  set (g := foldl governor_step _ _) in *. destruct Hthm as (Hacc & Hgr & _).
  assert (Hlim : gov_hard_limit_bytes g = 200) by (vm_compute; reflexivity).
  split_and!; [vm_compute; reflexivity|rewrite <- Hlim; apply (ac_limit g Hacc); by rewrite Hlim|].
  apply not_true_is_false. intros H. apply Hgr in H; [|vm_compute; reflexivity].
  destruct H as (_ & _ & _ & _ & _ & _ & _ & _ & _ & _ & Hl & _). apply Hl; [by rewrite Hlim|vm_compute; reflexivity].
Defined.
