(* ===== verification/NativeInventoryPageClaims.v ===== *)
(** * Correctness of the native inventory page

    The image of a page is canonical, and the codec that works in its caller's memory
    answers what the owning codec answers. *)

From S2P Require Import Prelude Platform Uuid TransactionState Inventory Horizon InventoryEvolution.
From S2P Require Import Bytes PageFrame InventoryPage InventoryPageFacts NativeInventoryPage.
From S2P Require Import BorrowedFacts PageFrameFacts NativeInventoryPageFacts.

(** C35: the native image of an inventory page is canonical.  A byte string decodes to a
    page exactly when the page's fields fit their widths and encoding the page gives
    that very string, so no two images denote one page and every bit of an accepted
    image, reserved bytes and padding included, is determined by the page.  Neither
    direction accesses memory outside its buffer, and what decodes satisfies the
    structural rules of the inventory with strictly ascending local numbers. *)
Theorem native_page_canonical (sha256 : hash_provider) (Hsize : digest_size sha256)
    (l : list N) (Hl : Forall is_byte l) (p : NativeTransactionInventoryPage) :
  (DecodeNativeTransactionInventoryPage sha256 l = Some (inr p) <->
   native_sized p /\ EncodeNativeTransactionInventoryPage sha256 p = Some (inr (p, l))) /\
  is_Some (DecodeNativeTransactionInventoryPage sha256 l) /\
  (native_sized p -> is_Some (EncodeNativeTransactionInventoryPage sha256 p)) /\
  (DecodeNativeTransactionInventoryPage sha256 l = Some (inr p) ->
   structure_ok (np_inventory p) /\ ascending 0 (inv_entries (np_inventory p)) = true).
Proof.
  assert (Hd : DecodeNativeTransactionInventoryPage sha256 l = Some (inr p) -> native_sized p /\ native_image sha256 p l).
  { by apply decode_native_sound. }
  split_and!.
  - split.
    + intros H. apply Hd in H as [Hp Hi]. split; [done|]. destruct (encode_native sha256 Hsize p Hp) as (r & -> & Hr & _).
      f_equal. by apply Hr.
    + intros [Hp He]. destruct (encode_native sha256 Hsize p Hp) as (r & Hr & Hiff & _). rewrite Hr in He. injection He as ->.
      apply decode_native_complete; try done. by apply Hiff.
  - apply decode_native_total.
  - intros Hp. destruct (encode_native sha256 Hsize p Hp) as (r & -> & _). by eexists.
  - intros H. apply Hd in H as [_ [[_ Hs Ha] _]]. done.
Qed.

(** A stand-in for SHA-256 with digests of the right size. *)
Definition native_sample_sha (m : list N) : option (list N) := Some (replicate 31 7 ++ [N.of_nat (length m) mod 256]).

Definition native_uuid (n : N) : Uuid := mkUuid [1; 2; 3; 4; 5; 6; 112; 0; 128; 0; 0; 0; 0; 0; 0; n].
Definition native_sample_entry (n : N) (state : TransactionState) (commit : N) : TransactionInventoryEntry :=
  mkEntry (mkTransactionIdentity n (mkTypedUuid uk_transaction (native_uuid n)) scope_local_node) state ts_none 5 6 0 0 commit
    true true false false.
Definition native_sample_page : NativeTransactionInventoryPage :=
  mkNativePage (mkPageHeader 8192 769 (native_uuid 200) (native_uuid 201) (native_uuid 202) 7 1 0 (profile_uuid 0 129 146))
    (native_uuid 203) 4 None (Some (mkPageRef (native_uuid 201) 9 2 (profile_uuid 0 129 146)))
    (mkInventory 4 3 [native_sample_entry 1 ts_committed 1; native_sample_entry 3 ts_active 0] None).
Definition native_sample_image : list N :=
  match EncodeNativeTransactionInventoryPage native_sample_sha native_sample_page with Some (inr (_, l)) => l | _ => [] end.

Lemma native_page_canonical_witness :
  Forall is_byte native_sample_image /\ DecodeNativeTransactionInventoryPage native_sample_sha native_sample_image = Some (inr native_sample_page).
Proof.
  assert (Hs : digest_size native_sample_sha) by (intros m d [= <-]; reflexivity).
  assert (Hb : Forall is_byte native_sample_image) by (apply bytes_by_check; vm_compute; reflexivity).
  split; [exact Hb|]. refine (proj2 (proj1 (native_page_canonical native_sample_sha Hs native_sample_image Hb native_sample_page)) _).
  split; [|vm_compute; reflexivity].
  split; first [by split; [reflexivity|repeat constructor]|done|idtac].
  - split; first [by split; [reflexivity|repeat constructor]|reflexivity].
  - split; first [by split; [reflexivity|repeat constructor]|reflexivity].
  - repeat constructor.
Defined.

(** ** The codec in borrowed memory *)

(** Room in the caller's regions for [n] entries and a page of [size] bytes. *)
Definition roomy (b : backing) (n size : N) : Prop :=
  backed b n /\ n <= bk_entries b /\ size <= bk_output b.

Lemma encode_borrowed sha256 p b :
  roomy b (native_count p) (ph_page_size_bytes (np_header p)) ->
  EncodeNativeTransactionInventoryPageInto sha256 p b =
  (r ← EncodeNativeTransactionInventoryPage sha256 p;
   Some (match r with inl e => inl e | inr (_, l) => inr l end)).
Proof.
  intros ((Hs & Hi & Hm) & _ & Ho). unfold EncodeNativeTransactionInventoryPageInto, EncodeNativeTransactionInventoryPage.
  unfold native_count in *. rewrite Hs. cbn [negb]. rewrite decide_False by lia. rewrite validate_borrowed.
  destruct (decide (ValidateNative p _ <> nie_none)) as [|Hv]; [done|]. apply dec_stable, validate_native_iff in Hv.
  rewrite decide_False by lia. destruct (horizons_of_structure _ (no_structure p Hv)) as [-> ->]. cbn [negb].
  destruct (EncodeValues _ _ _ _) as [[|l]|]; done.
Qed.

(** The forms of the codec that work in memory their caller supplies answer what
    the owning forms answer.  With room for the entries: the validator that sorts
    indices and marks duplicates gives the very reason (the first error) of the one
    that collects sets; the successor validator that searches sorted indices gives the
    reason of the one that indexes maps; decoding and encoding into borrowed regions
    give the owning results, refusals included.  With regions that are unaligned or
    overlap, all of them answer [invalid_backing]. *)
Theorem borrowed_codec_equivalent :
  (forall inv, ValidateBorrowed inv = ValidateLocalTransactionInventoryStructure inv) /\
  (forall before after b,
     roomy b (N.max (N.of_nat (length (inv_entries before))) (N.of_nat (length (inv_entries after)))) 0 ->
     ValidateNativeTransactionInventoryEvolutionView before after b =
     view_answer (ValidateLocalTransactionInventoryEvolution before after)) /\
  (forall inv b, roomy b (N.of_nat (length (inv_entries inv))) 0 ->
     ValidateNativeTransactionInventoryView inv b = view_answer (ValidateLocalTransactionInventoryStructure inv)) /\
  (forall sha256 l b count, LoadLittle32 184 l = Some count -> roomy b count 0 ->
     DecodeNativeTransactionInventoryPageInto sha256 l b = DecodeNativeTransactionInventoryPage sha256 l) /\
  (forall sha256 p b, roomy b (native_count p) (ph_page_size_bytes (np_header p)) ->
     EncodeNativeTransactionInventoryPageInto sha256 p b =
     (r ← EncodeNativeTransactionInventoryPage sha256 p;
      Some (match r with inl e => inl e | inr (_, l) => inr l end))) /\
  (forall sha256 before after p l b, bk_sound b = false ->
     (ValidateNativeTransactionInventoryView before b).1 = nie_invalid_backing /\
     (ValidateNativeTransactionInventoryEvolutionView before after b).1 = nie_invalid_backing /\
     DecodeNativeTransactionInventoryPageInto sha256 l b = Some (inl nie_invalid_backing) /\
     EncodeNativeTransactionInventoryPageInto sha256 p b = Some (inl nie_invalid_backing)).
Proof.
  split_and!.
  - apply validate_borrowed.
  - intros before after b (Hb & He & _). apply evolution_view; [done|lia].
  - intros inv b (Hb & _). by apply view_validation.
  - intros sha256 l b count Hc ((Hs & Hi & Hm) & He & _). unfold DecodeNativeTransactionInventoryPageInto. rewrite Hs. cbn [negb].
    apply decode_borrowed. intros count'. rewrite Hc. intros [= <-] _. lia.
  - intros sha256 p b. apply encode_borrowed.
  - intros sha256 before after p l b Hs. unfold ValidateNativeTransactionInventoryView, ValidateInventoryView,
      ValidateNativeTransactionInventoryEvolutionView, DecodeNativeTransactionInventoryPageInto,
      EncodeNativeTransactionInventoryPageInto. rewrite Hs. done.
Qed.
