(* ===== verification/FilespaceClaims.v ===== *)
(** * Correctness of page zero, its growth and its recovery

    Page zero has one image; growing a filespace is safe to interrupt; recovery can
    always find the roots. *)

From S2P Require Import Prelude Platform Bytes PageFrame InventoryPage InventoryPageFacts.
From S2P Require Import NativeInventoryPage PageFrameFacts FilespacePageZero FilespacePageZeroFacts.
From S2P Require Import FilespaceGrowth FilespaceGrowthFacts.

(** C36: page zero is canonical.  A byte string decodes to a page zero exactly when the
    record's fields fit their widths and encoding it gives that very string, whose
    preamble, common header, repeated fields, digest, reserved bytes and padding are
    therefore all determined by the record.  Decoding never reads outside its input,
    and decoding into borrowed memory with room for the roots answers the same. *)
Theorem page_zero_canonical (sha256 : hash_provider) (Hsize : digest_size sha256)
    (l : list N) (Hl : Forall is_byte l) (v : FilespacePageZero) :
  (DecodeFilespacePageZero sha256 l None = Some (inr v) <->
   zero_sized v /\ EncodeFilespacePageZero sha256 v = Some (inr l)) /\
  (forall expected, is_Some (DecodeFilespacePageZero sha256 l expected)) /\
  (forall b, bk_sound b = true -> root_count v <= bk_entries b ->
     DecodeFilespacePageZeroInto sha256 l b None = Some (inr v) <-> DecodeFilespacePageZero sha256 l None = Some (inr v)).
Proof.
  split_and!.
  - split.
    + intros H. apply (decode_zero_sound sha256 Hsize) in H as [Hv Hi]; [|done]. split; [done|].
      destruct (encode_page_zero_page sha256 Hsize v Hv) as (r & -> & Hr). f_equal. by apply Hr.
    + intros [Hv He]. destruct (encode_page_zero_page sha256 Hsize v Hv) as (r & Hr & Hiff). rewrite Hr in He. injection He as ->.
      apply (decode_zero_complete sha256 Hsize); [done|done|done|]. by apply Hiff.
  - intros expected. apply decode_zero_total.
  - intros b Hb Hc. unfold DecodeFilespacePageZeroInto. rewrite Hb. cbn [negb]. split; intros H;
      (apply (decode_zero_sound sha256 Hsize) in H as [Hv Hi]; [|done]); apply (decode_zero_complete sha256 Hsize); try done.
    intros c [= <-]. done.
Qed.

Definition sample_zero_image : list N :=
  image_of id (EncodeFilespacePageZero zero_sample_sha (sample_zero 100 1)).

Lemma page_zero_canonical_witness :
  Forall is_byte sample_zero_image /\
  DecodeFilespacePageZero zero_sample_sha sample_zero_image None = Some (inr (sample_zero 100 1)).
Proof.
  assert (Hs : digest_size zero_sample_sha) by (intros m d [= <-]; reflexivity).
  assert (Hb : Forall is_byte sample_zero_image) by (apply bytes_by_check; vm_compute; reflexivity).
  split; [exact Hb|]. refine (proj2 (proj1 (page_zero_canonical zero_sample_sha Hs sample_zero_image Hb (sample_zero 100 1))) _).
  split; [|vm_compute; reflexivity].
  split; first [by split; [reflexivity|repeat constructor]|reflexivity|idtac].
  - split; first [by split; [reflexivity|repeat constructor]|reflexivity].
  - unfold sample_zero. cbn [pz_roots]. repeat (apply Forall_cons; split; [split; first [by split; [reflexivity|repeat constructor]|reflexivity]|]).
    constructor.
Defined.

(** ** Growing a filespace is safe to interrupt

    The actuator touches only the 384 bytes a growth may change.  It writes over the image
    its caller retained; the repair also writes over a page that does not decode, and over
    no other.  What a write that stopped leaves can be completed by the repair. *)

(** C37: a growth can be interrupted.  For an admitted growth every run of the actuator,
    plain or repairing, whichever of its reads, writes and syncs fail and whatever a failed
    write leaves, returns, and:
    - it changes nothing outside the 384 bytes a growth may change, and nothing at all
      unless it reports a write;
    - success means the file holds the target image and is exactly as long as the target
      record says;
    - it writes only over the image its caller retained or, if it is the repair, over a page
      that is damaged: that fails to decode for another reason than a missing digest or
      exhausted resources.  In particular a valid page zero that is neither image is left
      alone and is not a success;
    - after a run that wrote, the repair without faults returns; it succeeds exactly when
      the page left is one of the two images or damaged, and then the file holds the target
      image; otherwise it leaves the file as it is;
    - that covers a write over the retained image that stopped: a write that did not fail
      leaves the target image, and one that left any prefix of the new bytes leaves such a
      page, unless the provider gives no digest for it or it has the retained image's digest
      with other contents. *)
Theorem growth_write_recoverable (sha256 : hash_provider) (binding : FilespaceBootstrapBinding) (before after : list N)
    (budget : N) (b : FilespacePageZero) (Hadmit : admit_growth sha256 binding before after budget = Some (inr b))
    (repair : bool) (f : faults) (d : disk) :
  exists r d1, MutateGrowthBody sha256 binding before after budget repair f d = Some (r, d1) /\
    same_outside d d1 /\
    (gb_write_attempted r = false -> d1 = d) /\
    (gb_ok r = true -> first_page before d1 = after /\ N.of_nat (length (dk_bytes d1)) = required_size b) /\
    (gb_write_attempted r = true -> first_page before d = before \/ repair = true /\ damaged sha256 binding (first_page before d)) /\
    (forall v, DecodeFilespacePageZero sha256 (first_page before d) (Some binding) = Some (inr v) ->
       first_page before d <> before -> first_page before d <> after -> gb_ok r = false /\ d1 = d) /\
    (gb_write_attempted r = true ->
     exists r2 d2, RepairFilespacePageZeroGrowthBodyFromOpenDevice sha256 binding before after budget no_faults d1 = Some (r2, d2) /\
       same_outside d d2 /\
       (gb_ok r2 = true <->
          first_page before d1 = before \/ first_page before d1 = after \/ damaged sha256 binding (first_page before d1)) /\
       (gb_ok r2 = true -> first_page before d2 = after) /\ (gb_ok r2 = false -> d2 = d1)) /\
    (gb_write_attempted r = true -> ft_write f = None -> first_page before d1 = after) /\
    (forall transferred k, gb_write_attempted r = true -> first_page before d = before ->
       ft_write f = Some (transferred, take k (slice common_offset body_length after)) ->
       repairable sha256 binding before after (first_page before d1) \/ sha256 (zero_message (first_page before d1)) = None \/
       digest_collision sha256 (first_page before d1) before).
Proof.
  destruct (growth_run sha256 binding before after budget b repair f d Hadmit) as (r & d1 & Hrun & [Hout Hno Hok Hleft Hover Hdev]).
  exists r, d1. split; [exact Hrun|]. split; [exact Hout|]. split; [exact Hno|]. split; [exact Hok|]. split; [exact Hover|].
  destruct (admit_inv _ _ _ _ _ _ Hadmit) as (Hl & Hd & Him & a & Ha & Hb & _). split_and!.
  - intros v Hv Hnb Hna. assert (Hw : gb_write_attempted r = false).
    { apply not_true_iff_false. intros Hw. destruct (Hover Hw) as [?|[_ (e & He & _)]]; [done|congruence]. }
    split; [|by apply Hno]. apply not_true_iff_false. intros Hr. apply Hna. rewrite <- (Hno Hw). by apply Hok.
  - intros Hw. destruct (Hdev Hw) as (Hi & Ho & Hro & Hsize & Hlen). pose proof Hout as (O1 & O2 & O3 & _).
    destruct (repair_exact sha256 binding before after budget b d1) as (r2 & d2 & Hr2 & Hout2 & Hiff & Hok2 & Hbad);
      [done|by rewrite O1|by rewrite O2|by rewrite O3|by rewrite O3|by apply (immutable_outside before d)|].
    exists r2, d2. split; [exact Hr2|]. split; [by apply (same_outside_trans d d1)|]. by split_and!.
  - intros Hw Hf. destruct (Hdev Hw) as (Hi & _ & _ & _ & Hlen). rewrite (Hleft Hw). unfold left_by_write. rewrite Hf. by eapply immutable_completes.
  - intros transferred k Hw Hp Hf. rewrite (Hleft Hw). unfold left_by_write. rewrite Hf, take_take. apply immutable_iff in Him as Hio. destruct Hio as [I1 _].
    rewrite torn_growth_page; [|done|done|apply Nat.le_min_l|done|done]. by apply (torn_repairable sha256 binding before after a b (body_length `min` k)); [..|apply Nat.le_min_l|done|].
Qed.

(** A growth from 20 to 24 pages whose write stops half way. *)
Definition zero_image (total generation : N) : list N :=
  image_of id (EncodeFilespacePageZero zero_sample_sha (sample_zero total generation)).
Definition torn_growth : faults :=
  mkFaults false false false (Some (100, take 100 (slice common_offset body_length (zero_image 24 2)))) false false false.
Definition grown_file : disk := mkDisk true false (zero_image 20 1 ++ replicate (23 * 8 * 1024) 0).
Definition sample_binding : FilespaceBootstrapBinding := mkBootstrapBinding (zero_uuid 1) (zero_uuid 2) (profile_uuid 0 129 146).

Lemma growth_write_recoverable_witness :
  admit_growth zero_sample_sha sample_binding (zero_image 20 1) (zero_image 24 2) (4 * 8192) = Some (inr (sample_zero 24 2)) /\
  exists r d1, MutateGrowthBody zero_sample_sha sample_binding (zero_image 20 1) (zero_image 24 2) (4 * 8192) false torn_growth grown_file = Some (r, d1) /\
    gb_write_attempted r = true /\ same_outside grown_file d1 /\ first_page (zero_image 20 1) grown_file = zero_image 20 1 /\
    exists r2 d2,
      RepairFilespacePageZeroGrowthBodyFromOpenDevice zero_sample_sha sample_binding (zero_image 20 1) (zero_image 24 2) (4 * 8192) no_faults d1 = Some (r2, d2) /\
      same_outside grown_file d2.
Proof.
  assert (Ha : admit_growth zero_sample_sha sample_binding (zero_image 20 1) (zero_image 24 2) (4 * 8192) = Some (inr (sample_zero 24 2)))
    by (vm_compute; reflexivity).
  split; [exact Ha|].
  destruct (growth_write_recoverable zero_sample_sha sample_binding (zero_image 20 1) (zero_image 24 2) (4 * 8192) (sample_zero 24 2) Ha
    false torn_growth grown_file) as (r & d1 & Hrun & Hout & _ & _ & _ & _ & Hrepair & _).
  assert (Hw : gb_write_attempted r = true).
  { apply (f_equal (fmap (M := option) (fun p => gb_write_attempted (fst p)))) in Hrun. cbn [fmap option_fmap option_map fst] in Hrun.
    enough (Hr : Some true = Some (gb_write_attempted r)) by congruence. rewrite <- Hrun. vm_compute. reflexivity. }
  exists r, d1. split; [exact Hrun|]. split; [exact Hw|]. split; [exact Hout|].
  split; [exact (take_app_length (zero_image 20 1) (replicate (23 * 8 * 1024) 0))|].
  destruct (Hrepair Hw) as (r2 & d2 & Hr2 & Hout2 & _). exists r2, d2. split; [exact Hr2|exact Hout2].
Defined.

(** ** Recovery can always find the roots

    The probe does not depend on the bytes a growth replaces, and on a sound page zero
    it finds the roots of the record; so an interrupted growth leaves them findable. *)

(** C38: an interrupted growth leaves the roots findable.  Take a file that holds the
    original page zero of a local, unencrypted filespace with the roots recovery needs.
    After any run of the growth actuator on it, whichever of its operations fail and
    whatever a failed write leaves, the recovery probe answers the original record's
    preamble and exactly its roots, and the unchanged size of the file. *)
Theorem recovery_roots_survive_growth (sha256 : hash_provider) (binding : FilespaceBootstrapBinding) (before after : list N)
    (budget probe_budget : N) (a b : FilespacePageZero) (repair : bool) (f : faults) (d d1 : disk) (r : FilespacePageZeroBodyResult)
    (Hadmit : admit_growth sha256 binding before after budget = Some (inr b))
    (Hrun : MutateGrowthBody sha256 binding before after budget repair f d = Some (r, d1))
    (Hbefore : DecodeFilespacePageZero sha256 before (Some binding) = Some (inr a))
    (Hopen : dk_open d = true) (Hpage : first_page before d = before)
    (Hsize : pz_total_pages a * bt_page_size_bytes (pz_bootstrap a) <= N.of_nat (length (dk_bytes d)))
    (Hrole : bt_filespace_role (pz_bootstrap a) <= 4)
    (Hclear : N.testbit (bt_flags (pz_bootstrap a)) 0 = false /\ N.testbit (bt_flags (pz_bootstrap a)) 1 = false)
    (Hkinds : N.land (root_kinds (pz_roots a)) recovery_kinds = recovery_kinds)
    (Hbudget : 4096 + bt_page_size_bytes (pz_bootstrap a) <= probe_budget) :
  ProbeFilespaceRecoveryRootCandidatesFromOpenDevice sha256 binding probe_budget (disk_view d1) =
  Some (inr (mkCandidates (pz_bootstrap a) (pz_roots a) (N.of_nat (length (dk_bytes d))))).
Proof.
  destruct (growth_run sha256 binding before after budget b repair f d Hadmit) as (r' & d' & Hrun' & [Hout _ _ _ _ _]).
  rewrite Hrun in Hrun'. injection Hrun' as <- <-. rewrite (probe_outside sha256 binding probe_budget d d1 Hout).
  destruct Hclear. by apply (probe_sound_page sha256 binding probe_budget d before a).
Qed.

(** A filespace with the roots recovery needs, grown from 24 to 26 pages. *)
Definition pair_root (kind number object : N) : FilespaceRootReference :=
  mkRoot kind (CanonicalPageZeroRootPageType kind) (zero_uuid 2) number 1 (profile_uuid 0 129 146) (zero_uuid object).
Definition rooted_zero (total generation : N) : FilespacePageZero :=
  let v := sample_zero total generation in
  mkPageZero (pz_bootstrap v) (pz_page_uuid v) (pz_creation_operation_uuid v) (pz_writer_identity_uuid v) generation generation total 5 2 1000
    (pz_roots v ++ [pair_root 18 19 118; pair_root 19 20 118; pair_root 20 21 120; pair_root 21 22 120]).
Definition rooted_image (total generation : N) : list N := image_of id (EncodeFilespacePageZero zero_sample_sha (rooted_zero total generation)).
Definition rooted_file : disk := mkDisk true false (rooted_image 24 1 ++ replicate (25 * 8 * 1024) 0).
Definition rooted_binding : FilespaceBootstrapBinding := mkBootstrapBinding (zero_uuid 1) (zero_uuid 2) (profile_uuid 0 129 146).
Definition torn_write : faults := mkFaults false false false (Some (10, replicate body_length 0)) false false false.

Lemma recovery_roots_survive_growth_witness :
  exists r d1,
    MutateGrowthBody zero_sample_sha rooted_binding (rooted_image 24 1) (rooted_image 26 2) (4 * 8192) false torn_write rooted_file = Some (r, d1) /\
    ProbeFilespaceRecoveryRootCandidatesFromOpenDevice zero_sample_sha rooted_binding (2 * 8192) (disk_view d1) =
    Some (inr (mkCandidates (pz_bootstrap (rooted_zero 24 1)) (pz_roots (rooted_zero 24 1)) (N.of_nat (length (dk_bytes rooted_file))))).
Proof.
  assert (Ha : admit_growth zero_sample_sha rooted_binding (rooted_image 24 1) (rooted_image 26 2) (4 * 8192) = Some (inr (rooted_zero 26 2)))
    by (vm_compute; reflexivity).
  assert (Hd : DecodeFilespacePageZero zero_sample_sha (rooted_image 24 1) (Some rooted_binding) = Some (inr (rooted_zero 24 1)))
    by (vm_compute; reflexivity).
  destruct (growth_run zero_sample_sha rooted_binding (rooted_image 24 1) (rooted_image 26 2) (4 * 8192) (rooted_zero 26 2) false torn_write
    rooted_file Ha) as (r & d1 & Hrun & _).
  exists r, d1. split; [exact Hrun|].
  refine (recovery_roots_survive_growth zero_sample_sha rooted_binding (rooted_image 24 1) (rooted_image 26 2) (4 * 8192) (2 * 8192)
    (rooted_zero 24 1) (rooted_zero 26 2) false torn_write rooted_file d1 r Ha Hrun Hd _ _ _ _ _ _ _).
  - reflexivity.
  - exact (take_app_length (rooted_image 24 1) (replicate (25 * 8 * 1024) 0)).
  - apply N.leb_le. vm_compute. reflexivity.
  - apply N.leb_le. vm_compute. reflexivity.
  - split; reflexivity.
  - vm_compute. reflexivity.
  - apply N.leb_le. vm_compute. reflexivity.
Defined.
