(* ===== verification/InventoryChainClaims.v ===== *)
(** * Correctness of the chain reader

    Reading the chain ends, and its answer is exactly the chain on the files. *)

From S2P Require Import Prelude Platform Uuid TransactionState Inventory Horizon InventoryEvolution.
From S2P Require Import Bytes PageFrame InventoryPage InventoryPageFacts NativeInventoryPage.
From S2P Require Import BorrowedFacts PageFrameFacts NativeInventoryPageFacts FilespacePageZero.
From S2P Require Import FilespacePageZeroFacts InventoryChain InventoryChainFacts.

(** The inventory that pages hold: the counters of the head page, every entry. *)
Definition inventory_of (pages : list NativeInventoryChainPageView) : LocalTransactionInventory :=
  mkInventory (match pages with [] => 0 | c :: _ => inv_next_local_transaction_id (np_inventory (cp_page c)) end)
    (match pages with [] => 0 | c :: _ => inv_next_commit_sequence (np_inventory (cp_page c)) end) (chain_entries pages) None.

Section claims.
Context (sha256 : hash_provider) (Hsha : digest_size sha256).
Context (first final : nat -> device_view) (Hfirst : forall n, byte_device (first n)).
Context (database : Uuid) (head : FilespaceRootReference) (maximum : N).
Context (root_sha256 : option (list N)) (historical : option (list NativeInventoryHistoricalPageZero)) (observations : list (option nat)).

Definition final_error (ordered : list NativeFilespaceDevice) (zeros : list (FilespacePageZero * N)) : NativeInventoryError :=
  match historical with None => nie_none | Some images => observe_final final images (zip ordered zeros) end.

Lemma finish_iff ordered zeros context pages v :
  finish_chain final historical ordered zeros (state_of context pages) = inr v <->
  structure_ok (inventory_of pages) /\ final_error ordered zeros = nie_none /\
  v = mkChainView pages (inventory_of pages) (hres_horizons (ComputeLocalTransactionHorizons (inventory_of pages)))
        (context + image_bytes pages).
Proof.
  unfold finish_chain. cbn [cs_next_local cs_next_commit cs_entries cs_pages cs_retained state_of].
  change (mkInventory _ _ (chain_entries pages) None) with (inventory_of pages).
  unfold ValidateNativeTransactionInventoryView. rewrite view_validation by (unfold backed; cbn; split_and!; [done|lia|lia]).
  unfold view_answer. rewrite <- validate_structure_iff. destruct (decide (_ <> ""%string)) as [Hr|Hr].
  { split; [done|]. by intros (? & _). }
  apply dec_stable in Hr. pose proof Hr as Hs. rewrite validate_structure_iff in Hs. destruct (horizons_of_structure _ Hs) as [_ ->].
  cbn [decide]. fold (final_error ordered zeros). destruct (decide (final_error ordered zeros <> nie_none)) as [Hf|Hf].
  - rewrite decide_False by (intros H; by apply H). split; [done|]. by intros (_ & ? & _).
  - rewrite decide_False by (intros H; by apply H). apply dec_stable in Hf. split; [by intros [= <-]|]. by intros (_ & _ & ->).
Qed.

(** What the reader answers for the files it accepted. *)
Definition chain_answer (devices : list NativeFilespaceDevice) (v : NativeInventoryChainView) : Prop :=
  let ordered := merge_sort fs_le devices in
  request_refused database head maximum root_sha256 historical devices = false /\ observations_refused observations devices = false /\
  NoDup (hz_filespace_uuid <$> default [] historical) /\ devices_refused [] ordered = false /\
  exists zeros context,
    load_zeros sha256 first database maximum historical 0 ordered = Some (inr (zeros, context)) /\
    chain_from sha256 first database head maximum root_sha256 ordered zeros context [] (head_reference head) (cv_pages v) /\
    structure_ok (inventory_of (cv_pages v)) /\ final_error ordered zeros = nie_none /\
    v = mkChainView (cv_pages v) (inventory_of (cv_pages v)) (hres_horizons (ComputeLocalTransactionHorizons (inventory_of (cv_pages v))))
          (context + image_bytes (cv_pages v)).

Lemma fuel_enough ordered zeros context pages :
  chain_from sha256 first database head maximum root_sha256 ordered zeros context [] (head_reference head) pages ->
  Forall2 (fun _ q => 8192 <= bt_page_size_bytes (pz_bootstrap q.1) <= 131072) ordered zeros ->
  (length pages <= chain_fuel maximum)%nat.
Proof.
  intros H Hz. pose proof (chain_length _ _ _ _ _ _ _ _ Hz _ _ _ _ H) as Hl.
  destruct (chain_invariants _ _ _ _ _ _ _ _ _ _ _ _ H) as (_ & _ & _ & Hb); [constructor..|done|]. cbn [app] in Hb.
  destruct pages as [|c pages]; [cbn; lia|]. specialize (Hb ltac:(done)). unfold chain_fuel.
  assert (N.of_nat (length (c :: pages)) <= maximum / 8192) by (apply N.div_le_lower_bound; lia). lia.
Qed.

Lemma read_chain_spec devices :
  exists r, ReadInventoryChainView sha256 first final database head maximum root_sha256 historical observations devices = Some r /\
    forall v, r = inr v <-> chain_answer devices v.
Proof.
  unfold ReadInventoryChainView, chain_answer. cbv zeta.
  destruct (request_refused _ _ _ _ _ devices); [eexists; split; [reflexivity|]; intros v; split; [done|by intros (? & _)]|].
  destruct (observations_refused _ devices); [eexists; split; [reflexivity|]; intros v; split; [done|by intros (_ & ? & _)]|]. cbn [orb].
  destruct (bool_decide _) eqn:Hn; cbn [negb];
    [apply bool_decide_eq_true in Hn|apply bool_decide_eq_false in Hn; eexists; split; [reflexivity|]; intros v; split; [done|by intros (_ & _ & ? & _)]].
  destruct (devices_refused [] _) eqn:Hd; [eexists; split; [reflexivity|]; intros v; split; [done|by intros (_ & _ & _ & ? & _)]|].
  apply ordered_strictly in Hd as Hordered. set (ordered := merge_sort fs_le devices) in *.
  destruct (load_zeros_spec sha256 Hsha first database maximum historical Hfirst 0 ordered) as (loaded & Hload & Hz); [lia|].
  rewrite Hload. cbn [mbind option_bind]. destruct loaded as [f|[zeros context]].
  { eexists. split; [reflexivity|]. intros v. split; [done|]. by intros (_ & _ & _ & _ & zeros & context & ? & _). }
  destruct (Hz zeros context eq_refl) as [Hknown Hctx].
  assert (Hsizes : Forall2 (fun _ q => 8192 <= bt_page_size_bytes (pz_bootstrap q.1) <= 131072) ordered zeros).
  { eapply Forall2_impl; [exact Hknown|]. intros fs q Hq. apply Hq. }
  change (first_state context) with (mkChainState [] [] [] [] context 0 0).
  replace (mkChainState [] [] [] [] context 0 0) with (state_of context []) by (unfold state_of; cbn; f_equal; lia).
  destruct (walk_chain_total sha256 first database head maximum root_sha256 ordered zeros Hordered Hsizes (chain_fuel maximum) context []
    (head_reference head)) as [w Hw]; [cbn; lia|cbn [image_bytes foldr]; unfold chain_fuel|].
  { pose proof (N.mul_succ_div_gt maximum 8192 ltac:(lia)). lia. }
  rewrite Hw. cbn [mbind option_bind]. eexists. split; [reflexivity|]. intros v. split.
  - destruct w as [f|st]; [done|]. apply walk_chain_sound in Hw as (pages & -> & Hfrom); [|done..]. cbn [app].
    rewrite finish_iff. intros (Hs & Hf & ->). cbn [cv_pages]. split_and!; [done..|]. exists zeros, context. done.
  - intros (_ & _ & _ & _ & zeros' & context' & [= <- <-] & Hfrom & Hs & Hf & Hv).
    pose proof (walk_chain_complete sha256 first database head maximum root_sha256 ordered zeros Hordered Hsizes (chain_fuel maximum) context []
      (head_reference head) (cv_pages v) Hfrom (fuel_enough _ _ _ _ Hfrom Hsizes)) as Hw'.
    rewrite Hw in Hw'. injection Hw' as ->. apply finish_iff. done.
Qed.

(** The images of a chain are canonical. *)
Lemma chain_images ordered zeros context next pages :
  chain_from sha256 first database head maximum root_sha256 ordered zeros context [] next pages ->
  Forall (fun c => EncodeNativeTransactionInventoryPage sha256 (cp_page c) = Some (inr (cp_page c, cp_image c))) pages.
Proof.
  intros [H _]. apply Forall_forall. intros c Hc. apply list_elem_of_split in Hc as (before & after & ->).
  destruct (H _ _ _ eq_refl) as (r & _ & [[(i & fs & q & _ & _ & _ & _ & _ & _ & _ & Hr) (Hd & _)] _ _ _ _ _ _ _ _]).
  apply read_exactly_some in Hr as [Hr _]. assert (Hbytes : Forall is_byte (cp_image c)) by (by eapply Hfirst).
  apply decode_native_sound in Hd as [Hp Hi]; [|done..].
  destruct (encode_native sha256 Hsha (cp_page c) Hp) as (e & -> & He & _). f_equal. by apply He.
Qed.
End claims.

(** C39: reading the inventory chain ends with exactly the chain on the files.  For every
    request, and whatever the files answer, the reader returns and never looks outside a
    buffer; it answers a view exactly when the request and the files are acceptable,
    page zero of every file was taken, and the view's pages are the chain that starts at
    the root: each is read from the file and the place its reference names, decodes,
    belongs to the database and the object, was not met before, links back to the page
    before it with the same generation and counters, continues its entries upwards and
    fits the allowance, the last one without a successor.  The inventory is then all
    the entries of the pages, structurally valid, with its horizons. *)
Theorem inventory_chain_exact (sha256 : hash_provider) (Hsha : digest_size sha256) (first final : nat -> device_view)
    (Hfirst : forall n, byte_device (first n)) (database : Uuid) (head : FilespaceRootReference) (maximum : N)
    (root_sha256 : option (list N)) (historical : option (list NativeInventoryHistoricalPageZero)) (observations : list (option nat))
    (devices : list NativeFilespaceDevice) :
  exists r, ReadInventoryChainView sha256 first final database head maximum root_sha256 historical observations devices = Some r /\
    forall v, r = inr v <-> chain_answer sha256 first final database head maximum root_sha256 historical observations devices v.
Proof. by apply read_chain_spec. Qed.

(** C40: what the chain reader returns is one consistent inventory.  The pages are the
    canonical encodings of their records and lie in distinct places with distinct
    identities; the first is the root's, without a predecessor and with the digest the
    caller gave; neighbours point at each other and the last page has no successor; the
    inventory's entries are those of the pages in order, with strictly ascending local
    numbers; the inventory is structurally valid, the horizons are the computed ones,
    and the images fit the allowance. *)
Theorem inventory_chain_consistent (sha256 : hash_provider) (Hsha : digest_size sha256) (first final : nat -> device_view)
    (Hfirst : forall n, byte_device (first n)) (database : Uuid) (head : FilespaceRootReference) (maximum : N)
    (root_sha256 : option (list N)) (historical : option (list NativeInventoryHistoricalPageZero)) (observations : list (option nat))
    (devices : list NativeFilespaceDevice) (v : NativeInventoryChainView)
    (Hread : ReadInventoryChainView sha256 first final database head maximum root_sha256 historical observations devices = Some (inr v)) :
  Forall (fun c => EncodeNativeTransactionInventoryPage sha256 (cp_page c) = Some (inr (cp_page c, cp_image c))) (cv_pages v) /\
  NoDup (page_slot <$> cv_pages v) /\ NoDup (page_id <$> cv_pages v) /\
  (exists c, cv_pages v !! 0%nat = Some c /\ Self (cp_page c) = head_reference head /\ np_previous (cp_page c) = None /\
     forall d, root_sha256 = Some d -> sha256 (cp_image c) = Some d) /\
  (forall i a b, cv_pages v !! i = Some a -> cv_pages v !! S i = Some b ->
     np_next (cp_page a) = Some (Self (cp_page b)) /\ np_previous (cp_page b) = Some (Self (cp_page a)) /\
     np_inventory_generation (cp_page b) = np_inventory_generation (cp_page a)) /\
  (exists c, last (cv_pages v) = Some c /\ np_next (cp_page c) = None) /\
  inv_entries (cv_inventory v) = chain_entries (cv_pages v) /\ ascending 0 (inv_entries (cv_inventory v)) = true /\
  structure_ok (cv_inventory v) /\ cv_horizons v = hres_horizons (ComputeLocalTransactionHorizons (cv_inventory v)) /\
  image_bytes (cv_pages v) <= cv_retained_image_bytes v <= maximum.
Proof.
  destruct (read_chain_spec sha256 Hsha first final Hfirst database head maximum root_sha256 historical observations devices) as (r & Hr & Hiff).
  rewrite Hread in Hr. injection Hr as <-. destruct (proj1 (Hiff v) eq_refl) as (_ & _ & _ & _ & zeros & context & _ & Hfrom & Hs & _ & Hv).
  rewrite Hv. cbn [cv_pages cv_inventory cv_horizons cv_retained_image_bytes]. clear Hread Hiff Hv.
  destruct (chain_invariants _ _ _ _ _ _ _ _ _ _ _ _ Hfrom) as (N1 & N2 & N3 & Hb); [constructor..|done|]. cbn [app] in *.
  split; [by eapply chain_images|]. split; [done|]. split; [done|].
  destruct (cv_pages v) as [|c pages] eqn:Hp; [by destruct Hfrom|]. split.
  { exists c. split; [done|]. apply chain_from_cons in Hfrom as [Hc _]. destruct Hc as [_ _ Hself _ _ _ [Hprev Hroot] _ _].
    split; [done|]. split; [done|]. by intros d ->. }
  split; [intros i a b; by eapply chain_links|].
  split.
  { destruct Hfrom as [_ Hlast]. unfold reference_after in Hlast. destruct (last (c :: pages)) as [d|] eqn:E; [by exists d|done]. }
  split; [done|]. split; [done|]. split; [done|]. split; [done|]. specialize (Hb ltac:(done)). lia.
Qed.

(** ** A chain of two pages *)

Definition chain_entry (n : N) (state : TransactionState) (commit : N) : TransactionInventoryEntry :=
  mkEntry (mkTransactionIdentity n (mkTypedUuid uk_transaction (zero_uuid n)) scope_local_node) state ts_none 5 6 0 0 commit
    true true false false.
Definition chain_page (number page : N) (previous next : option N) (es : list TransactionInventoryEntry) : NativeTransactionInventoryPage :=
  let ref n := mkPageRef (zero_uuid 2) n 1 (profile_uuid 0 129 146) in
  mkNativePage (mkPageHeader 8192 769 (zero_uuid 1) (zero_uuid 2) (zero_uuid page) number 1 0 (profile_uuid 0 129 146))
    (zero_uuid 104) 4 (ref <$> previous) (ref <$> next) (mkInventory 4 3 es None).
Definition chain_image (p : NativeTransactionInventoryPage) : list N := image_of snd (EncodeNativeTransactionInventoryPage zero_sample_sha p).
Definition chain_first : list N := chain_image (chain_page 13 200 None (Some 19) [chain_entry 1 ts_committed 1]).
Definition chain_second : list N := chain_image (chain_page 19 201 (Some 13) None [chain_entry 2 ts_active 0; chain_entry 3 ts_committed 2]).
Definition chain_zero : list N := image_of id (EncodeFilespacePageZero zero_sample_sha (sample_zero 20 1)).

(** A file of 20 pages of which three are readable. *)
Definition paged_file (zero a b : list N) : device_view :=
  mkDevice true (Some (20 * 8192))
    (fun offset n => if decide (offset = 0) then Some (take n zero)
                     else if decide (offset = 13 * 8192) then Some (take n a)
                     else if decide (offset = 19 * 8192) then Some (take n b) else None)
    (Some (20 * 8192)).

Lemma paged_file_bytes zero a b : Forall is_byte zero -> Forall is_byte a -> Forall is_byte b -> byte_device (paged_file zero a b).
Proof.
  intros H0 H1 H2 offset count bytes. cbn [dev_read paged_file].
  repeat (case_decide; [intros [= <-]; by apply Forall_take|]). done.
Qed.

Definition chain_file (_ : nat) : device_view := paged_file chain_zero chain_first chain_second.
Definition chain_devices : list NativeFilespaceDevice := [mkFilespaceDevice (zero_uuid 2) (profile_uuid 0 129 146) (Some 0%nat)].

Definition answered (r : option (chain_failure + NativeInventoryChainView)) : NativeInventoryChainView :=
  match r with Some (inr v) => v | _ => mkChainView [] (mkInventory 0 0 [] None) LocalTransactionHorizons_default 0 end.
Definition answers (n : nat) (r : option (chain_failure + NativeInventoryChainView)) : bool :=
  match r with Some (inr v) => (length (cv_pages v) =? n)%nat | _ => false end.
Lemma answers_view n r : answers n r = true -> r = Some (inr (answered r)).
Proof. by destruct r as [[f|v]|]. Qed.

Definition sample_chain : option (chain_failure + NativeInventoryChainView) :=
  ReadInventoryChainView zero_sample_sha chain_file chain_file (zero_uuid 1) (sample_root 4 13) (16 * 8192) None None [] chain_devices.

Lemma chain_file_bytes n : byte_device (chain_file n).
Proof. apply paged_file_bytes; apply bytes_by_check; vm_compute; reflexivity. Qed.

Lemma sample_digest_size : digest_size zero_sample_sha.
Proof. intros m d [= <-]. reflexivity. Qed.

Lemma sample_chain_answers : answers 2 sample_chain = true.
Proof. vm_compute. reflexivity. Qed.

Lemma inventory_chain_exact_witness :
  answers 2 sample_chain = true /\
  exists r, sample_chain = Some r /\
    forall v, r = inr v <-> chain_answer zero_sample_sha chain_file chain_file (zero_uuid 1) (sample_root 4 13) (16 * 8192) None None []
                              chain_devices v.
Proof.
  split; [exact sample_chain_answers|].
  exact (inventory_chain_exact zero_sample_sha sample_digest_size chain_file chain_file chain_file_bytes (zero_uuid 1) (sample_root 4 13)
    (16 * 8192) None None [] chain_devices).
Defined.

Lemma inventory_chain_consistent_witness :
  sample_chain = Some (inr (answered sample_chain)) /\ NoDup (page_slot <$> cv_pages (answered sample_chain)).
Proof.
  pose proof (answers_view 2 sample_chain sample_chain_answers) as H. split; [exact H|].
  exact (proj1 (proj2 (inventory_chain_consistent zero_sample_sha sample_digest_size chain_file chain_file chain_file_bytes (zero_uuid 1)
    (sample_root 4 13) (16 * 8192) None None [] chain_devices (answered sample_chain) H))).
Defined.
