(* ===== verification/TipClaims.v ===== *)
(** * Correctness of the transaction state page

    The word codec is a bijection, a formatted page is the empty page, every in-place
    edit is the edit of the abstract page inside one write unit, and no history of edits
    takes a number back. *)

From S2P Require Import Prelude Platform TransactionState Bytes PageFrame PageFrameFacts TipPage.
From S2P Require Import TipPageFacts TipEdits.

(** ** Words and codes *)

(** State words and their four bytes correspond one to one.  Four bytes decode to a
    word exactly when the word encodes to them; the words that have bytes are those with
    five flag bits, six intent bits and, when unused, nothing else; and the byte of a
    code names the code. *)
Theorem tip_word_canonical (b : list N) (Hb : Forall is_byte b) (w : TipStateWord) :
  (DecodeTipStateWord b = Some w <-> word_sized w /\ EncodeTipStateWord w = Some b) /\
  (word_sized w -> is_Some (EncodeTipStateWord w) <-> word_legal w) /\
  (forall c, tip_of_byte (tip_byte c) = Some c).
Proof.
  split_and!.
  - rewrite decode_word_iff by done. split.
    + intros [Hl ->]. assert (Hz : word_sized w) by (destruct Hl as (H1 & H2 & H3 & _); unfold kTipIntentMax in *; split; lia).
      split; [done|]. by rewrite encode_word, decide_True.
    + intros [Hz He]. rewrite encode_word in He by done. case_decide; [|done]. by injection He as <-.
  - intros Hz. rewrite encode_word by done. case_decide; split; try done; by intros [].
  - intros c. by apply tip_of_byte_iff.
Qed.

Lemma tip_word_canonical_witness :
  DecodeTipStateWord [6; 1; 9; 0] = Some (mkWord tip_committed 1 tau_cluster 2 0) /\
  EncodeTipStateWord (mkWord tip_committed 1 tau_cluster 2 0) = Some [6; 1; 9; 0].
Proof.
  assert (H : Forall is_byte [6; 1; 9; 0]) by (repeat constructor). split; [reflexivity|].
  apply (proj1 (tip_word_canonical [6; 1; 9; 0] H (mkWord tip_committed 1 tau_cluster 2 0))). reflexivity.
Defined.

(** A durable code names one in-memory state, and writing a state and reading it back
    gives the state, except that a preparing transaction reads back as active. *)
Theorem durable_codes_round_trip :
  (forall c, exists s, InMemoryTransactionState c = Some s /\ DurableTipStateCode s = c) /\
  (forall s, InMemoryTransactionState (DurableTipStateCode s) = Some (if decide (s = ts_preparing) then ts_active else s)).
Proof. split; [intros []; by eexists|by intros []]. Qed.

(** ** Locating a slot *)

(** The page and slot of a number are the place where the decoder reads that number, and
    distinct numbers have distinct places. *)
Theorem slot_location_exact (size n : N) :
  (TipSlotsPerPage size <> 0 -> n <> 0 -> exists loc, LocateTransactionStateSlot size n = Some loc /\
    tsl_slot loc < TipSlotsPerPage size /\ tsl_tip_sequence loc * TipSlotsPerPage size + tsl_slot loc = n) /\
  (LocateTransactionStateSlot size n = None <-> TipSlotsPerPage size = 0 \/ n = 0).
Proof.
  unfold LocateTransactionStateSlot. split.
  - intros Hs Hn. rewrite decide_False by tauto. eexists. split; [done|]. cbn [tsl_slot tsl_tip_sequence].
    split; [by apply N.mod_lt|]. rewrite N.mul_comm. symmetry. apply N.div_mod'.
  - case_decide; split; done || tauto.
Qed.

(** ** Edits *)

(** C16: on a page the decoder accepts, every edit is total and does on the image exactly
    what it means on the abstract page.  When the meaning refuses, the edit refuses with
    that error and the image is unchanged; otherwise the new image decodes to the new
    page, the change lies inside the one aligned 512-byte unit that the edit reports with
    its old bytes, and the edit says whether anything changed. *)
Theorem tip_edits_refine (l : list N) (p : tip_page) (e : tip_edit)
    (Hb : Forall is_byte l) (Hp : page_of l = Some p) (He : edit_sized e) :
  exists edit l', run_edit e l = Some (edit, l') /\
    match apply_edit e p with
    | inl error => te_error edit = error /\ error <> tpe_none /\ te_changed edit = false /\ l' = l
    | inr p' => te_error edit = tpe_none /\ page_of l' = Some p' /\ in_unit edit l l' /\ Forall is_byte l'
    end.
Proof. exact (run_edit_refines e l p Hb Hp He). Qed.

(** The pages of a history: [p'] continues [p]. *)
Record page_continues (p p' : tip_page) : Prop := {
  pc_header : tp_header p' = tp_header p;
  pc_sequence : tp_sequence p' = tp_sequence p;
  pc_header_chain : tp_header_chain p' = tp_header_chain p;
  pc_link : tp_next_page p <> 0 -> tp_next_page p' = tp_next_page p;
  pc_next : match tp_counters p, tp_counters p' with
            | None, None => True
            | Some c, Some c' => tc_next_transaction c <= tc_next_transaction c'
            | _, _ => False
            end;
  pc_slots : length (tp_words p') = length (tp_words p);
  pc_used : forall i w, tp_words p !! i = Some w -> tw_state w <> tip_unused ->
              exists w', tp_words p' !! i = Some w' /\ tw_state w' <> tip_unused }.

Lemma page_continues_refl p : page_continues p p.
Proof. split; try done; [by destruct (tp_counters p)|eauto]. Qed.

Lemma page_continues_trans p q r : page_continues p q -> page_continues q r -> page_continues p r.
Proof.
  intros [H1 H2 H3 H4 H5 H6 H7] [G1 G2 G3 G4 G5 G6 G7]. split; try congruence.
  - intros H. rewrite G4, H4; [done..|]. by rewrite H4.
  - destruct (tp_counters p), (tp_counters q), (tp_counters r); try done. lia.
  - intros i w Hi Hw. destruct (H7 i w Hi Hw) as (w' & Hi' & Hw'). by apply (G7 i w').
Qed.

Lemma set_word_continues p slot w :
  (forall old, tp_words p !! N.to_nat slot = Some old -> tw_state w = tip_unused -> tw_state old = tip_unused) ->
  page_continues p (set_word p slot w).
Proof.
  intros Hold. split; try done; cbn [set_word tp_counters tp_words].
  - by destruct (tp_counters p).
  - apply length_insert.
  - intros i v Hi Hv. destruct (decide (i = N.to_nat slot)) as [->|Hne].
    + exists w. split; [by apply list_lookup_insert_eq, lookup_lt_Some with v|]. intros Hw. apply Hv. by apply Hold.
    + exists v. by rewrite list_lookup_insert_ne.
Qed.

Lemma apply_edit_continues e p p' : apply_edit e p = inr p' -> page_continues p p'.
Proof.
  destruct e as [slot w|slot c|c|n]; cbn [apply_edit]; intros H.
  - do 3 (case_decide; [done|]). injection H as <-. apply set_word_continues. intros old Ho Hw.
    destruct (decide (Some old = Some unused_word)) as [E|E]; [by injection E as ->|]. exfalso. rewrite Ho in *. tauto.
  - do 2 (case_decide; [done|]). injection H as <-. apply set_word_continues. intros old Ho Hw. done.
  - destruct (tp_counters p) as [old|] eqn:Hc; [|done]. destruct (HorizonsValid c); [|done]. cbn [negb] in H.
    case_decide as Hn; [done|]. injection H as <-. split; try done; cbn; [rewrite Hc; lia|eauto].
  - case_decide as Hn; [done|]. injection H as <-. split; try done; cbn; [|by destruct (tp_counters p)|eauto].
    intros H0. destruct (decide (tp_next_page p = n)) as [E|E]; [done|]. exfalso. apply Hn. tauto.
Qed.

(** A history: the edits one after another, each on the image the last one left. *)
Fixpoint run_edits (es : list tip_edit) (image : list N) : option (list N) :=
  match es with
  | [] => Some image
  | e :: es => r ← run_edit e image; run_edits es r.2
  end.

(** What a history means: a refused edit changes nothing. *)
Fixpoint apply_edits (es : list tip_edit) (p : tip_page) : tip_page :=
  match es with
  | [] => p
  | e :: es => apply_edits es (match apply_edit e p with inl _ => p | inr p' => p' end)
  end.

Lemma run_edits_refine es l p :
  Forall is_byte l -> page_of l = Some p -> Forall edit_sized es ->
  exists l', run_edits es l = Some l' /\ page_of l' = Some (apply_edits es p) /\ Forall is_byte l'.
Proof.
  intros Hb Hp Hes. revert l p Hb Hp. induction Hes as [|e es He _ IH]; intros l p Hb Hp; cbn [run_edits apply_edits]; [by exists l|].
  destruct (run_edit_refines e l p Hb Hp He) as (edit & l1 & -> & Ho). cbn [mbind option_bind snd].
  destruct (apply_edit e p) as [error|p1]; [destruct Ho as (_ & _ & _ & ->)|destruct Ho as (_ & ? & _ & ?)]; by apply IH.
Qed.

Lemma apply_edits_continue es p : page_continues p (apply_edits es p).
Proof.
  revert p. induction es as [|e es IH]; intros p; cbn [apply_edits]; [apply page_continues_refl|].
  destruct (apply_edit e p) as [error|p1] eqn:Ha; [apply IH|]. apply page_continues_trans with p1; [by apply (apply_edit_continues e)|apply IH].
Qed.

(** C15: no history of edits, accepted or refused in any order, makes a page the decoder
    rejects or takes anything back: [Next] never decreases, a used number is never unused
    again, a link once written stays, and header, sequence and header chain are fixed.
    Since a history may stop after any edit, so does every crash between two edits. *)
Theorem tip_history_safe (l : list N) (p : tip_page) (es : list tip_edit)
    (Hb : Forall is_byte l) (Hp : page_of l = Some p) (Hes : Forall edit_sized es) :
  exists l' p', run_edits es l = Some l' /\ page_of l' = Some p' /\ Forall is_byte l' /\ page_continues p p'.
Proof.
  destruct (run_edits_refine es l p Hb Hp Hes) as (l' & H1 & H2 & H3). exists l', (apply_edits es p). split_and!; try done. apply apply_edits_continue.
Qed.

(** ** Formatting *)

Lemma format_spec (f : TipPageFormat) (output : list N) (Hz : format_sized f) :
  exists e output', FormatTransactionStatePage f output = Some (e, output') /\
    (e = tpe_none <-> format_legal f /\ ph_page_size_bytes (tf_header f) <= N.of_nat (length output)) /\
    (e <> tpe_none -> output' = output) /\
    (e = tpe_none ->
       let size := N.to_nat (ph_page_size_bytes (tf_header f)) in
       length output' = length output /\ drop size output' = drop size output /\
       page_of (take size output') =
         Some (mkTipPage (tf_header f) (tf_tip_sequence f) (tf_header_chain_page f) (tf_next_tip_page f) (tf_counters f)
                 (replicate (N.to_nat (TipSlotsPerPage (ph_page_size_bytes (tf_header f)))) unused_word))).
Proof.
  unfold FormatTransactionStatePage. rewrite encode_header by apply Hz. destruct (decide (encode_error (tf_header f) <> phe_none)) as [He|He].
  { cbn [mbind option_bind]. assert (Hn : format_error f (inl (encode_error (tf_header f))) <> tpe_none).
    { unfold format_error. by repeat case_decide. }
    destruct (format_error f _) eqn:E; try done; do 2 eexists; (split; [done|]); (split; [|done]); (split; [done|]); intros [[] _]; done. }
  apply dec_stable in He. cbn [mbind option_bind]. pose proof (format_error_iff f (header_image (tf_header f)) He) as Hiff.
  destruct (format_error f (inr (header_image (tf_header f)))) eqn:E.
  2-10: do 2 eexists; (split; [done|]); (split; [|done]); (split; [done|]); intros [Hl _]; by apply Hiff in Hl.
  pose proof (proj1 Hiff eq_refl) as Hl. case_decide as Hroom.
  { do 2 eexists. split; [done|]. split; [|done]. split; [done|]. intros [_ Hr]. lia. }
  pose proof (format_page_size f Hl) as Hsize.
  rewrite (format_stores f (4 * N.to_nat (TipSlotsPerPage (ph_page_size_bytes (tf_header f)))) output) by (apply Hz || lia).
  set (slots := TipSlotsPerPage (ph_page_size_bytes (tf_header f))) in *.
  do 2 eexists. split; [done|]. split; [split; [split; [done|lia]|done]|]. split; [done|]. intros _.
  assert (Hs : N.to_nat (ph_page_size_bytes (tf_header f)) = (512 + 4 * N.to_nat slots)%nat) by lia. rewrite Hs.
  pose proof (length_formatted f Hz) as Hlen. pose proof (formatted_page f Hz Hl) as Hpage. fold slots in Hlen, Hpage.
  assert (Hsplit : forall rest, mjoin (format_layout f (format_counters f) (4 * N.to_nat slots) rest) =
    mjoin (format_layout f (format_counters f) (4 * N.to_nat slots) []) ++ rest).
  { intros rest. unfold format_layout. cbn [mjoin list_join]. by rewrite <- !app_assoc, !app_nil_r. }
  rewrite Hsplit. split_and!.
  - rewrite length_app, Hlen, length_drop. lia.
  - by rewrite drop_app_length'.
  - by rewrite take_app_length'.
Qed.

(** Formatting is total.  It succeeds exactly for a legal format (an encodable header
    of the type, a sequence whose numbers fit, counters and header chain exactly on the
    first page, sound horizons and links) with room for the page; it then writes only the
    page, which decodes to the fields of the format with every slot unused.  A refusal
    leaves the buffer as it was. *)
Theorem tip_format_exact (f : TipPageFormat) (output : list N) (Hz : format_sized f) :
  exists e output', FormatTransactionStatePage f output = Some (e, output') /\
    (e = tpe_none <-> format_legal f /\ ph_page_size_bytes (tf_header f) <= N.of_nat (length output)) /\
    (e <> tpe_none -> output' = output) /\
    (e = tpe_none ->
       let size := N.to_nat (ph_page_size_bytes (tf_header f)) in
       length output' = length output /\ drop size output' = drop size output /\
       page_of (take size output') =
         Some (mkTipPage (tf_header f) (tf_tip_sequence f) (tf_header_chain_page f) (tf_next_tip_page f) (tf_counters f)
                 (replicate (N.to_nat (TipSlotsPerPage (ph_page_size_bytes (tf_header f)))) unused_word))).
Proof. exact (format_spec f output Hz). Qed.

(** ** A sample page *)

Definition sample_tip_counters (next : N) : TipCounters := mkTipCounters next (mkTipHorizons 1 1 1 1 1 1).
Definition sample_tip_format : TipPageFormat := mkTipFormat sample_header 0 0 9 (Some (sample_tip_counters 5)).
Definition buffer_of (r : option (TipPageError * list N)) : list N := match r with Some (_, l) => l | None => [] end.
Definition sample_tip : list N := buffer_of (FormatTransactionStatePage sample_tip_format (replicate (N.to_nat 8192) 0)).
Definition sample_tip_page : tip_page :=
  mkTipPage sample_header 0 9 0 (Some (sample_tip_counters 5)) (replicate (N.to_nat 1920) unused_word).

Lemma sample_format_sized : format_sized sample_tip_format.
Proof. split; [apply sample_header_sized|done..|]. split; [done|repeat constructor]. Qed.

Lemma sample_format_legal : format_legal sample_tip_format.
Proof. apply (format_error_iff sample_tip_format []); reflexivity. Qed.

Lemma sample_tip_decodes : page_of sample_tip = Some sample_tip_page.
Proof.
  destruct (format_spec sample_tip_format (replicate (N.to_nat 8192) 0) sample_format_sized) as (e & o & H & He & _ & Hok).
  assert (E : e = tpe_none) by (apply He; split; [apply sample_format_legal|rewrite length_replicate, N2Nat.id; reflexivity]).
  destruct (Hok E) as (Hl & _ & Hp). unfold sample_tip. rewrite H. cbn [buffer_of]. rewrite length_replicate in Hl.
  change (N.to_nat (ph_page_size_bytes (tf_header sample_tip_format))) with (N.to_nat 8192) in Hp. rewrite take_ge in Hp by (rewrite Hl; reflexivity). exact Hp.
Qed.
Lemma sample_tip_bytes : Forall is_byte sample_tip.
Proof. apply bytes_by_check. vm_compute. reflexivity. Qed.

Lemma tip_format_exact_witness :
  exists e output', FormatTransactionStatePage sample_tip_format [1; 2; 3] = Some (e, output') /\ (e <> tpe_none -> output' = [1; 2; 3]).
Proof.
  destruct (tip_format_exact sample_tip_format [1; 2; 3] sample_format_sized) as (e & o & H1 & _ & H2 & _).
  exists e, o. split; [exact H1|exact H2].
Defined.

Lemma tip_edits_refine_witness :
  exists edit l', run_edit (edit_code 3 tip_dead) sample_tip = Some (edit, l') /\
    edit_outcome (apply_edit (edit_code 3 tip_dead) sample_tip_page) edit sample_tip l'.
Proof.
  pose proof (tip_edits_refine sample_tip sample_tip_page (edit_code 3 tip_dead) sample_tip_bytes sample_tip_decodes I) as H.
  exact H.
Defined.

Lemma tip_history_safe_witness :
  exists l' p', run_edits [edit_code 3 tip_active; edit_code 3 tip_committed; edit_code 7 tip_active] sample_tip = Some l' /\
    page_of l' = Some p' /\ page_continues sample_tip_page p'.
Proof.
  destruct (tip_history_safe sample_tip sample_tip_page [edit_code 3 tip_active; edit_code 3 tip_committed; edit_code 7 tip_active]
    sample_tip_bytes sample_tip_decodes) as (l' & p' & H1 & H2 & _ & H3); [repeat constructor|].
  exists l', p'. split; [exact H1|]. split; [exact H2|exact H3].
Defined.
