(* ===== verification/TipRestartClaims.v ===== *)
(** * Correctness of restart

    Restart marks exactly the transactions a crash left in progress, reports exactly the
    units it changed, touches nothing when it refuses, and once is enough. *)

From S2P Require Import Prelude Platform TransactionState Bytes PageFrame PageFrameFacts TipPage.
From S2P Require Import TipPageFacts TipEdits TipRestart TipClaims.

(** The chains restart accepts: linked pages from the first on, no number at or beyond
    [Next] used on a page after the first, and the last page ending at or beyond [Next]. *)
Record restartable (chain : list TipChainPage) (pages : list tip_page) (c : TipCounters) : Prop := {
  ra_chain : state_chain 0 chain pages;
  ra_counters : exists first rest, pages = first :: rest /\ tp_counters first = Some c;
  ra_below : Forall (below_next (tc_next_transaction c)) (tail pages);
  ra_covered : forall p, last pages = Some p -> tc_next_transaction c <= number_of p (length (tp_words p)) }.

(** The first number of the scan. *)
Definition scan_from (c : TipCounters) : N :=
  N.max 1 (N.min (th_oldest_interesting (tc_horizons c)) (th_oldest_active (tc_horizons c))).

Lemma horizons_valid_iff c :
  HorizonsValid c = true <-> tc_next_transaction c <> 0 /\ Forall (fun v => 0 < v <= tc_next_transaction c) (horizon_values (tc_horizons c)).
Proof.
  unfold HorizonsValid. rewrite andb_true_iff, bool_decide_eq_true. f_equiv. rewrite forallb_True, <- Is_true_true || idtac.
  generalize (horizon_values (tc_horizons c)). intros l. induction l as [|v l IH]; cbn [forallb]; [done|].
  rewrite andb_true_iff, negb_true_iff, bool_decide_eq_false, Forall_cons, IH. f_equiv. lia.
Qed.

Lemma scan_from_range c : HorizonsValid c = true -> 0 < scan_from c <= tc_next_transaction c.
Proof.
  intros H. apply horizons_valid_iff in H as [H0 H]. unfold horizon_values in H. rewrite !Forall_cons in H. unfold scan_from. lia.
Qed.

(** The counters are on the first page. *)
Lemma chain_counters i chain pages :
  state_chain i chain pages -> 0 < i -> Forall (fun p => tp_counters p = None) pages.
Proof.
  revert i pages. induction chain as [|g chain IH]; intros i [|p pages] H Hi; try done. cbn [state_chain] in H.
  destruct H as (Hp & Hs & _ & _ & H). constructor; [|apply (IH (i + 1)); [done|lia]].
  destruct (page_counters _ _ Hp) as [Hc _]. destruct (tp_counters p); [|done]. destruct (proj1 Hc ltac:(done)). lia.
Qed.

Lemma views_last (chain : list TipChainPage) : last (tip_view ∘ cg_image <$> chain) = tip_view ∘ cg_image <$> last chain.
Proof. apply fmap_last. Qed.

Lemma chain_last i chain pages :
  state_chain i chain pages -> last chain = None /\ last pages = None \/
  exists g p, last chain = Some g /\ last pages = Some p /\ page_of (cg_image g) = Some p.
Proof.
  revert i pages. induction chain as [|g chain IH]; intros i [|p pages] H; try done; [by left|]. cbn [state_chain] in H.
  destruct H as (Hp & _ & _ & _ & H). right. destruct (IH _ _ H) as [[H1 H2]|(g' & p' & H1 & H2 & H3)].
  - apply last_None in H1, H2. subst. exists g, p. done.
  - exists g', p'. rewrite !last_cons, H1, H2. done.
Qed.

Lemma zip_fst {A B} (l : list A) (k : list B) : length l = length k -> (zip l k).*1 = l.
Proof. intros. apply fst_zip. lia. Qed.

Section plan.
Context (chain : list TipChainPage) (Hb : Forall (fun g => Forall is_byte (cg_image g)) chain).
Context (Hn : N.of_nat (length chain) < 2 ^ 48).

(** The plan of an accepted chain. *)
Lemma plan_accepted pages c :
  restartable chain pages c ->
  exists works, PlanTransactionStateRestart chain =
    Some (mkRestartPlan tpe_none (tc_next_transaction c) (scan_from c)
            (N.of_nat (length (mjoin (numbers_where MarkDead (scan_from c) (tc_next_transaction c) <$> pages))))
            (mjoin (zip_with (fun g work => unit_writes (cg_page_number g) (cg_image g) (default (cg_image g) work)) chain works))
            (mjoin (numbers_where Unresolved (scan_from c) (tc_next_transaction c) <$> pages)),
          zip_with (fun g work => default (cg_image g) work) chain works) /\
    Forall2 (fun work gp => page_outcome (scan_from c) (tc_next_transaction c) gp.1 gp.2 (default (cg_image gp.1) work)) works (zip chain pages).
Proof.
  intros [Hchain (first & rest & -> & Hc) Hbelow Hcov]. unfold PlanTransactionStateRestart.
  destruct chain as [|g chain']; [done|]. rewrite decide_False by done.
  destruct (chain_views_spec 0 (g :: chain')) as (r & -> & Hr). cbn [mbind option_bind]. destruct r as [e|vs]; [by destruct (proj2 Hr _ Hchain)|].
  destruct Hr as [-> _]. cbn [fmap list_fmap head mbind option_bind compose tail].
  pose proof Hchain as Hch. cbn [state_chain] in Hch. destruct Hch as (Hp & Hs & _ & _ & Hrest).
  destruct (view_page _ _ Hp) as (_ & _ & _ & ->). rewrite Hc. cbn [mbind option_bind].
  assert (Hfit : Forall numbers_fit (first :: rest)) by (apply (state_chain_fit 0 _ _ Hchain); lia).
  pose proof (proj2 (page_counters _ _ Hp) c Hc) as Hvalid. pose proof (scan_from_range c Hvalid) as Hfrom.
  destruct (views_below_spec (0 + 1) chain' rest (tc_next_transaction c)) as (e & He & Hiff);
    [done|by apply Forall_cons in Hb as [_ ?]|by apply Forall_cons in Hfit as [_ ?]|lia|].
  change (list_fmap _ _ _ chain') with (tip_view ∘ cg_image <$> chain'). rewrite He. cbn [mbind option_bind].
  rewrite decide_False by (intros Hne; apply Hne, Hiff, Hbelow).
  change (tip_view (cg_image g) :: (tip_view ∘ cg_image <$> chain')) with (tip_view ∘ cg_image <$> g :: chain').
  rewrite views_last. destruct (chain_last _ _ _ Hchain) as [[H1 _]|(gl & pl & Hgl & Hpl & Hpage)]; [by apply last_None in H1|].
  rewrite Hgl. cbn [fmap option_fmap option_map mbind option_bind compose].
  assert (Hfitl : numbers_fit pl) by (rewrite Forall_forall in Hfit; apply Hfit; by eapply last_Some_elem_of).
  destruct (view_numbers _ _ Hpage Hfitl) as (_ & Hv2 & Hv3). rewrite Hv2, Hv3 by done.
  rewrite decide_False by (pose proof (Hcov pl Hpl); lia). fold (scan_from c).
  destruct (restart_pages_spec 0 (scan_from c) (tc_next_transaction c) (g :: chain') (first :: rest) [] (mkTally 0 [])) as (works & Hrun & Hworks);
    try done.
  { constructor; [intros c' Hc'; rewrite Hc in Hc'; by injection Hc' as <-|].
    eapply Forall_impl; [by apply (chain_counters (0 + 1) chain' rest)|]. intros p Hnone c' Hc'. congruence. }
  cbn [rt_marked_dead rt_unresolved app] in Hrun.
  exists works. split; [|done]. cbn [fmap list_fmap compose] in Hrun |- *.
  change (list_fmap TipChainPage TipPageView (tip_view ∘ cg_image) chain') with (tip_view ∘ cg_image <$> chain'). rewrite Hrun. cbn [mbind option_bind rt_marked_dead rt_unresolved]. rewrite decide_False by (intros []; done).
  do 2 f_equal. change (cg_image g :: (cg_image <$> chain')) with (cg_image <$> g :: chain'). by rewrite zip_with_fmap_l.
Qed.
(** Whether a chain is accepted is decided. *)
Lemma restart_decided : (exists pages c, restartable chain pages c) \/ (forall pages c, ~ restartable chain pages c).
Proof.
  destruct (chain_views_spec 0 chain) as (r & _ & Hr). destruct r as [e|vs]; [right; intros pages c []; by apply (proj2 Hr pages)|].
  destruct Hr as [_ [pages Hchain]].
  assert (Huniq : forall pages' c, restartable chain pages' c -> pages' = pages) by (intros ? ? []; by apply (state_chain_unique 0 chain)).
  destruct pages as [|first rest]; [right; intros pages' c Hr; pose proof (Huniq _ _ Hr) as ->; by destruct Hr as [_ (? & ? & ? & _) _ _]|].
  destruct chain as [|g chain']; [done|]. pose proof Hchain as Hch. cbn [state_chain] in Hch. destruct Hch as (Hp & Hs & _ & _ & Hrest).
  destruct (tp_counters first) as [c|] eqn:Hc.
  2: { right. intros pages' c Hr. pose proof (Huniq _ _ Hr) as ->. destruct Hr as [_ (? & ? & [= <- <-] & ?) _ _]. congruence. }
  assert (Hfit : Forall numbers_fit (first :: rest)) by (apply (state_chain_fit 0 _ _ Hchain); lia).
  pose proof (proj2 (page_counters _ _ Hp) c Hc) as Hvalid. pose proof (scan_from_range c Hvalid) as Hfrom.
  destruct (views_below_spec (0 + 1) chain' rest (tc_next_transaction c)) as (e & _ & Hiff);
    [done|by apply Forall_cons in Hb as [_ ?]|by apply Forall_cons in Hfit as [_ ?]|lia|].
  assert (Hsame : forall pages' c', restartable (g :: chain') pages' c' -> restartable (g :: chain') (first :: rest) c).
  { intros pages' c' Hr. pose proof (Huniq _ _ Hr) as ->. pose proof Hr as [_ (? & ? & [= <- <-] & Hc') _ _]. rewrite Hc in Hc'. by injection Hc' as <-. }
  destruct (last (first :: rest)) as [pl|] eqn:Hl; [|by apply last_None in Hl].
  destruct (decide (e = tpe_none)) as [He|He].
  2: { right. intros pages' c' Hr. apply Hsame in Hr. apply He, Hiff, Hr. }
  destruct (decide (tc_next_transaction c <= number_of pl (length (tp_words pl)))) as [Hcov|Hcov].
  - left. exists (first :: rest), c. split; [done|eauto|by apply Hiff|]. intros p Hp'. rewrite Hl in Hp'. by injection Hp' as <-.
  - right. intros pages' c' Hr. apply Hsame in Hr. by apply Hcov, (ra_covered _ _ _ Hr).
Qed.

(** A chain that is not accepted is left alone. *)
Lemma plan_refused :
  (forall pages c, ~ restartable chain pages c) ->
  exists plan, PlanTransactionStateRestart chain = Some (plan, cg_image <$> chain) /\ rp_error plan <> tpe_none.
Proof.
  intros Hno. unfold PlanTransactionStateRestart. destruct chain as [|g chain']; [rewrite decide_True by done; by eexists|].
  rewrite decide_False by done. destruct (chain_views_spec 0 (g :: chain')) as (r & -> & Hr). cbn [mbind option_bind].
  destruct r as [e|vs]; [eexists; split; [done|apply Hr]|]. destruct Hr as [-> [[|first rest] Hchain]]; [done|].
  cbn [fmap list_fmap head mbind option_bind compose tail].
  pose proof Hchain as Hch. cbn [state_chain] in Hch. destruct Hch as (Hp & Hs & _ & _ & Hrest).
  destruct (view_page _ _ Hp) as (_ & _ & _ & ->). destruct (page_counters _ _ Hp) as [Hsome Hvalid].
  destruct (tp_counters first) as [c|] eqn:Hc; [|by destruct (proj2 Hsome Hs) as [? ?]]. cbn [mbind option_bind].
  assert (Hfit : Forall numbers_fit (first :: rest)) by (apply (state_chain_fit 0 _ _ Hchain); lia).
  pose proof (scan_from_range c (Hvalid c eq_refl)) as Hfrom.
  destruct (views_below_spec (0 + 1) chain' rest (tc_next_transaction c)) as (e & He & Hiff);
    [done|by apply Forall_cons in Hb as [_ ?]|by apply Forall_cons in Hfit as [_ ?]|lia|].
  change (list_fmap _ _ _ chain') with (tip_view ∘ cg_image <$> chain'). rewrite He. cbn [mbind option_bind].
  case_decide as Hbelow; [eexists; split; [done|done]|]. 
  change (tip_view (cg_image g) :: (tip_view ∘ cg_image <$> chain')) with (tip_view ∘ cg_image <$> g :: chain').
  rewrite views_last. destruct (chain_last _ _ _ Hchain) as [[H1 _]|(gl & pl & Hgl & Hpl & Hpage)]; [by apply last_None in H1|].
  rewrite Hgl. cbn [fmap option_fmap option_map mbind option_bind compose].
  assert (Hfitl : numbers_fit pl) by (rewrite Forall_forall in Hfit; apply Hfit; by eapply last_Some_elem_of).
  destruct (view_numbers _ _ Hpage Hfitl) as (_ & Hv2 & Hv3). rewrite Hv2, Hv3 by done.
  case_decide as Hcov; [eexists; split; [done|done]|]. exfalso.
  apply (Hno (first :: rest) c). split; [done|eauto|by apply Hiff|]. intros p Hpl'. rewrite Hpl in Hpl'. injection Hpl' as <-. lia.
Qed.

End plan.

(** The facts about the images a pass leaves. *)
Lemma works_images from next chain pages works :
  length pages = length chain ->
  Forall2 (fun work gp => page_outcome from next gp.1 gp.2 (default (cg_image gp.1) work)) works (zip chain pages) ->
  let images := zip_with (fun g work => default (cg_image g) work) chain works in
  Forall2 (fun l p => Forall is_byte l /\ page_of l = Some p) images (restarted from next <$> pages) /\
  Forall2 (fun g l => same_frame (cg_image g) l) chain images /\
  zip_with (fun g work => unit_writes (cg_page_number g) (cg_image g) (default (cg_image g) work)) chain works =
  zip_with (fun g l => unit_writes (cg_page_number g) (cg_image g) l) chain images /\
  ((forall p, p ∈ pages -> numbers_where MarkDead from next p = []) -> images = cg_image <$> chain).
Proof.
  revert pages works. induction chain as [|g chain IH]; intros [|p pages] works Hlen Hw; try done.
  cbn [zip_with] in Hw. apply Forall2_cons_inv_r in Hw as (work & works' & Ho & Hw & ->). cbn [fst snd] in Ho.
  destruct (IH pages works') as (H1 & H2 & H3 & H4); [by injection Hlen|done|]. cbn [zip_with fmap list_fmap].
  destruct Ho as (O1 & O2 & O3 & O4). split_and!; [by constructor|by constructor|by f_equal|].
  intros Hnone. f_equal; [apply O4, Hnone; set_solver|apply H4; set_solver].
Qed.

(** On pages of one size the end of the last page bounds what all of them cover. *)
Lemma chain_sequence i chain pages k p : state_chain i chain pages -> pages !! k = Some p -> tp_sequence p = i + N.of_nat k.
Proof.
  revert i pages k. induction chain as [|g chain IH]; intros i [|q pages] k H Hk; try done. cbn [state_chain] in H.
  destruct H as (_ & Hs & _ & _ & H). destruct k as [|k]; [injection Hk as <-; lia|]. rewrite (IH (i + 1) pages k H Hk). lia.
Qed.

Definition one_size (pages : list tip_page) : Prop :=
  forall p p', p ∈ pages -> p' ∈ pages -> length (tp_words p) = length (tp_words p').

Lemma one_size_covered chain pages c n :
  restartable chain pages c -> one_size pages -> n < tc_next_transaction c ->
  exists p i, p ∈ pages /\ (i < length (tp_words p))%nat /\ number_of p i = n.
Proof.
  intros [Hch (first & rest & Hp & _) _ Hcov] Hsize Hn. destruct (last pages) as [pl|] eqn:Hl; [|apply last_None in Hl; by subst].
  specialize (Hcov pl eq_refl). rewrite last_lookup in Hl. pose proof (chain_sequence _ _ _ _ _ Hch Hl) as Hs.
  assert (Hlen : (0 < length pages)%nat) by (rewrite Hp; cbn; lia).
  remember (N.of_nat (length (tp_words pl))) as s eqn:Es. unfold number_of in Hcov. rewrite <- Es, Hs in Hcov.
  assert (Hs0 : s <> 0) by lia. pose proof (N.div_mod n s Hs0) as Hd. pose proof (N.mod_lt n s Hs0) as Hm.
  assert (Hk : n / s < N.of_nat (length pages)) by (apply N.Div0.div_lt_upper_bound; nia).
  destruct (lookup_lt_is_Some_2 pages (N.to_nat (n / s))) as [p Hpk]; [lia|].
  assert (Hpl : N.of_nat (length (tp_words p)) = s).
  { rewrite Es. f_equal. apply Hsize; by eapply list_elem_of_lookup_2. }
  exists p, (N.to_nat (n mod s)). split; [by eapply list_elem_of_lookup_2|]. split; [lia|]. unfold number_of.
  rewrite (chain_sequence _ _ _ _ _ Hch Hpk), Hpl, !N2Nat.id. lia.
Qed.

(** The states of a page after restart, slot by slot. *)
Definition left_in_progress : list TipStateCode := [tip_unused; tip_starting; tip_active; tip_read_only_active; tip_rolling_back].
Definition left_undecided : list TipStateCode := [tip_committing; tip_recovering].

Lemma restarted_state from next p i :
  (i < length (tp_words p))%nat ->
  state_of (restarted from next p) i =
  if decide (from <= number_of p i < next /\ state_of p i ∈ left_in_progress) then tip_dead else state_of p i.
Proof.
  intros Hi. unfold state_of, restarted. cbn [with_words tp_words]. rewrite list_lookup_imap.
  destruct (lookup_lt_is_Some_2 _ _ Hi) as [w ->]. cbn [fmap option_fmap option_map from_option id]. unfold mark_word, left_in_progress.
  destruct (decide (from <= number_of p i < next)) as [H|H]; [|by rewrite decide_False by tauto].
  destruct (tw_state w) eqn:E; cbn [MarkDead]; rewrite ?E;
    first [rewrite decide_True by (split; [done|set_solver]); done|rewrite decide_False by (intros [_ X]; set_solver); done].
Qed.

Lemma unresolved_iff from next pages n :
  n ∈ mjoin (numbers_where Unresolved from next <$> pages) <->
  from <= n < next /\ exists p i, p ∈ pages /\ (i < length (tp_words p))%nat /\ number_of p i = n /\ state_of p i ∈ left_undecided.
Proof.
  assert (Hu : forall st, Unresolved st = true <-> st ∈ left_undecided).
  { intros st. unfold left_undecided. destruct st; cbn [Unresolved]; split; intros H; first [done|set_solver|exfalso; set_solver]. }
  rewrite list_elem_of_join. unfold numbers_where. split.
  - intros (ns & Hn & Hns). apply list_elem_of_fmap in Hns as (p & -> & Hp). apply list_elem_of_fmap in Hn as (i & -> & Hi).
    apply list_elem_of_filter in Hi as [[H1 H2] Hi]. apply elem_of_seq in Hi. split; [done|]. exists p, i. split_and!; [done|lia|done|by apply Hu].
  - intros (Hr & p & i & Hp & Hi & <- & Hst). eexists. split; [|apply list_elem_of_fmap; by exists p]. apply list_elem_of_fmap. exists i.
    split; [done|]. apply list_elem_of_filter. split; [split; [done|by apply Hu]|apply elem_of_seq; lia].
Qed.

(** C14: restart is total and exact.  It accepts a chain exactly when the images are the
    linked pages of a chain, no number at or beyond [Next] is used and the last page ends at
    or beyond [Next]; a refusal changes nothing.  On pages of one size that means that every
    number below [Next] has a slot; on pages of several sizes it does not, and the code does
    not check it.  When restart accepts, the image it leaves of each page decodes to the same
    page in which exactly the slots numbered from the lower of the stored horizons OIT and
    OAT up to [Next] whose state is unused, starting, active, read-only active or rolling
    back are dead; it counts them, lists exactly the numbers of that range left committing or
    recovering, page by page, and reports exactly the 512-byte units in which the images
    differ, with their old bytes; the first 512 bytes of no page change. *)
Theorem restart_exact (chain : list TipChainPage)
    (Hb : Forall (fun g => Forall is_byte (cg_image g)) chain) (Hn : N.of_nat (length chain) < 2 ^ 48) :
  exists plan images, PlanTransactionStateRestart chain = Some (plan, images) /\
    (rp_error plan = tpe_none <-> exists pages c, restartable chain pages c) /\
    (rp_error plan <> tpe_none -> images = cg_image <$> chain) /\
    (forall pages c, restartable chain pages c ->
       let from := scan_from c in
       let next := tc_next_transaction c in
       Forall2 (fun l p => Forall is_byte l /\ page_of l = Some p) images (restarted from next <$> pages) /\
       (forall p i, p ∈ pages -> (i < length (tp_words p))%nat ->
          state_of (restarted from next p) i =
          if decide (from <= number_of p i < next /\ state_of p i ∈ left_in_progress) then tip_dead else state_of p i) /\
       (one_size pages -> forall n, n < next -> exists p i, p ∈ pages /\ (i < length (tp_words p))%nat /\ number_of p i = n) /\
       rp_marked_dead plan = N.of_nat (length (mjoin (numbers_where MarkDead from next <$> pages))) /\
       rp_unresolved plan = mjoin (numbers_where Unresolved from next <$> pages) /\
       (forall n, n ∈ rp_unresolved plan <->
          from <= n < next /\ exists p i, p ∈ pages /\ (i < length (tp_words p))%nat /\ number_of p i = n /\ state_of p i ∈ left_undecided) /\
       rp_units plan = mjoin (zip_with (fun g l => unit_writes (cg_page_number g) (cg_image g) l) chain images) /\
       Forall2 (fun g l => same_frame (cg_image g) l) chain images).
Proof.
  destruct (restart_decided chain Hb Hn) as [(pages & c & Hr)|Hno].
  - destruct (plan_accepted chain Hb Hn pages c Hr) as (works & -> & Hw). do 2 eexists. split; [done|]. cbn [rp_error].
    split; [split; [eauto|done]|]. split; [done|]. intros pages' c' Hr'. cbv zeta.
    pose proof (fun n => one_size_covered _ _ _ n Hr') as Hcover.
    assert (pages' = pages) as -> by exact (state_chain_unique 0 chain _ _ (ra_chain _ _ _ Hr') (ra_chain _ _ _ Hr)).
    destruct Hr as [Hch (f & r & -> & Hc) _ _]. destruct Hr' as [_ (f' & r' & [= <- <-] & Hc') _ _]. rewrite Hc in Hc'. injection Hc' as <-.
    destruct (works_images _ _ _ _ _ (state_chain_length _ _ _ Hch) Hw) as (H1 & H2 & H3 & _).
    cbn [rp_marked_dead rp_unresolved rp_units]. rewrite H3. split_and!; try done; [intros; by apply restarted_state|intros; by apply Hcover|intros; apply unresolved_iff].
  - destruct (plan_refused chain Hb Hn Hno) as (plan & -> & He). do 2 eexists. split; [done|].
    split; [split; [done|intros (pages & c & Hr); by destruct (Hno pages c)]|]. split; [done|]. intros pages c Hr. by destruct (Hno pages c).
Qed.

(** ** A crash while the units are written *)

(** Each unit of [m] is the old or the new one. *)
Definition torn (old new m : list N) : Prop :=
  length m = length old /\
  forall k, slice (512 * k) 512 m = slice (512 * k) 512 old \/ slice (512 * k) 512 m = slice (512 * k) 512 new.

Lemma mark_word_again w : mark_word (mark_word w) = mark_word w.
Proof. unfold mark_word. destruct (MarkDead (tw_state w)) eqn:H; [done|by rewrite H]. Qed.

(** Some of the words of [p] marked. *)
Record partly_marked (from next : N) (p p' : tip_page) : Prop := {
  pm_frame : p' = with_words p (tp_words p');
  pm_word : forall i, tp_words p' !! i = tp_words p !! i \/ tp_words p' !! i = tp_words (restarted from next p) !! i }.

Lemma restarted_lookup from next p i :
  tp_words (restarted from next p) !! i = (fun w => if decide (from <= number_of p i < next) then mark_word w else w) <$> tp_words p !! i.
Proof. unfold restarted. cbn [with_words tp_words]. by rewrite list_lookup_imap. Qed.

Lemma partly_length from next p p' : partly_marked from next p p' -> length (tp_words p') = length (tp_words p).
Proof.
  intros [_ H]. apply Nat.le_antisymm; apply Nat.nlt_ge; intros Hlt.
  - destruct (lookup_lt_is_Some_2 _ _ Hlt) as [w Hw]. specialize (H (length (tp_words p))). rewrite restarted_lookup in H.
    rewrite Hw, (lookup_ge_None_2 (tp_words p)) in H by lia. by destruct H.
  - destruct (lookup_lt_is_Some_2 _ _ Hlt) as [w Hw]. specialize (H (length (tp_words p'))). rewrite restarted_lookup in H.
    rewrite Hw, (lookup_ge_None_2 (tp_words p')) in H by lia. by destruct H.
Qed.

Lemma partly_number from next p p' i : partly_marked from next p p' -> number_of p' i = number_of p i.
Proof. intros H. unfold number_of. rewrite (partly_length _ _ _ _ H). destruct H as [-> _]. done. Qed.

Lemma partly_restarted from next p p' : partly_marked from next p p' -> restarted from next p' = restarted from next p.
Proof.
  intros H. pose proof (partly_number from next p p') as Hnum. destruct (pm_frame _ _ _ _ H). unfold restarted.
  rewrite (pm_frame _ _ _ _ H) at 1. unfold with_words. cbn [tp_header tp_sequence tp_header_chain tp_next_page tp_counters]. f_equal.
  apply list_eq. intros i. rewrite !list_lookup_imap. rewrite Hnum by done.
  destruct (pm_word _ _ _ _ H i) as [->| ->]; [done|]. rewrite restarted_lookup. destruct (tp_words p !! i) as [w|]; [|done]. cbn. f_equal.
  case_decide; [apply mark_word_again|done].
Qed.

Lemma partly_state from next p p' i :
  partly_marked from next p p' -> state_of p' i = state_of p i \/
  from <= number_of p i < next /\ MarkDead (state_of p i) = true /\ state_of p' i = tip_dead.
Proof.
  intros H. unfold state_of. destruct (pm_word _ _ _ _ H i) as [->| ->]; [by left|]. rewrite restarted_lookup.
  destruct (tp_words p !! i) as [w|]; [|by left]. cbn. case_decide; [|by left]. unfold mark_word.
  destruct (MarkDead (tw_state w)) eqn:Hm; [right; done|by left].
Qed.

Lemma partly_unresolved from next p p' :
  partly_marked from next p p' -> numbers_where Unresolved from next p' = numbers_where Unresolved from next p.
Proof.
  intros H. unfold numbers_where. rewrite (partly_length _ _ _ _ H).
  assert (Hf : filter (fun i => from <= number_of p' i < next /\ Unresolved (state_of p' i) = true) (seq 0 (length (tp_words p))) =
               filter (fun i => from <= number_of p i < next /\ Unresolved (state_of p i) = true) (seq 0 (length (tp_words p)))).
  { apply filter_same. intros i _. rewrite (partly_number _ _ _ _ i H).
    destruct (partly_state from next p p' i H) as [->|(_ & Hm & ->)]; [done|]. destruct (state_of p i); done || (split; intros [? ?]; done). }
  rewrite Hf. apply list_fmap_ext. intros. by apply partly_number with from next.
Qed.

(** A word lies in one unit. *)
Lemma word_in_unit l slot :
  (WordOffset slot + 4 <= length l)%nat ->
  let k := (WordOffset slot / 512)%nat in
  slice (WordOffset slot) 4 l = slice (WordOffset slot mod 512) 4 (slice (512 * k) 512 l).
Proof.
  intros Hr k. pose proof (word_offset_unit slot) as Hu. pose proof (Nat.Div0.div_mod (WordOffset slot) 512) as Hd. fold k in Hd.
  unfold slice. rewrite skipn_firstn_comm, drop_drop, take_take, <- Hd. f_equal. lia.
Qed.

Lemma torn_bytes old new m : Forall is_byte old -> Forall is_byte new -> torn old new m -> Forall is_byte m.
Proof.
  intros Ho Hn [Hlen Hk]. apply Forall_lookup. intros i b Hi.
  assert (Hs : slice (512 * (i / 512)) 512 m !! (i mod 512)%nat = Some b).
  { unfold slice. pose proof (Nat.Div0.div_mod i 512) as Hd. pose proof (Nat.mod_upper_bound i 512 ltac:(lia)).
    rewrite lookup_take, lookup_drop, decide_True by lia. by rewrite <- Hd. }
  destruct (Hk (i / 512)%nat) as [E|E]; rewrite E in Hs.
  - exact (proj1 (Forall_lookup _ _) (slice_bytes _ _ _ Ho) _ _ Hs).
  - exact (proj1 (Forall_lookup _ _) (slice_bytes _ _ _ Hn) _ _ Hs).
Qed.

Lemma torn_page from next l l' m p :
  Forall is_byte l -> Forall is_byte l' -> page_of l = Some p -> page_of l' = Some (restarted from next p) -> same_frame l l' -> torn l l' m ->
  Forall is_byte m /\ exists p', page_of m = Some p' /\ partly_marked from next p p'.
Proof.
  intros Hb Hb' Hp Hp' [Hlen Hframe] [Hm Hunits].
  apply page_of_iff in Hp as (Hf & Hw & ->). apply page_of_iff in Hp' as (Hf' & Hw' & Hpage').
  pose proof (fo_room _ (fk_family _ _ Hf)) as Hroom.
  assert (Hhead : take 512 m = take 512 l).
  { pose proof (Hunits 0%nat) as H0. unfold slice in H0. cbn [Nat.mul] in H0. rewrite !drop_0 in H0. destruct H0 as [->| ->]; congruence. }
  assert (Hc : confined 512 (length l - 512) l m) by (split_and!; [done|done|]; rewrite !drop_ge by lia; done).
  assert (Hc' : confined 512 (length l - 512) l l') by (split_and!; [done|done|]; rewrite !drop_ge by lia; done).
  assert (Hword : forall slot, slot < slots_at l -> word_at m slot = word_at l slot \/ word_at m slot = word_at l' slot).
  { intros slot Hs. pose proof (word_room l slot (fk_family _ _ Hf) Hs) as Hr. unfold word_at.
    rewrite !word_in_unit by lia. destruct (Hunits (WordOffset slot / 512)%nat) as [->| ->]; tauto. }
  assert (Hle : (512 <= 512)%nat) by lia.
  pose proof (words_same_slots _ _ _ _ Hc Hle) as Hslots. pose proof (words_same_slots _ _ _ _ Hc' Hle) as Hslots'.
  pose proof (words_same_first _ _ _ _ Hc Hle) as Hfirst. pose proof (words_same_first _ _ _ _ Hc' Hle) as Hfirst'.
  assert (Hu : forall o, (o + 8 <= 512)%nat -> u64_at o m = u64_at o l) by (intros; by apply (low_u64 _ _ _ _ Hc Hle)).
  assert (Hu' : forall o, (o + 8 <= 512)%nat -> u64_at o l' = u64_at o l) by (intros; by apply (low_u64 _ _ _ _ Hc' Hle)).
  assert (Hwords : words_ok m).
  { intros slot Hs. rewrite Hslots in Hs. destruct (Hw slot Hs) as (w & W1 & W2). destruct (Hw' slot) as (w' & W1' & W2'); [by rewrite Hslots'|].
    unfold word_placed in *. rewrite Hfirst, Hu by (unfold kNext; lia). rewrite Hfirst', Hu' in W2' by (unfold kNext; lia).
    destruct (Hword slot Hs) as [->| ->]; eauto. }
  split; [by apply (torn_bytes l l')|]. exists (page_at m).
  split; [apply page_of_iff; split_and!; [by apply (words_frame _ _ _ _ Hc Hle)|done|done]|]. split.
  - unfold page_at, with_words. cbn [tp_header tp_sequence tp_header_chain tp_next_page tp_counters tp_words].
    unfold stored_counters. rewrite (words_same_header _ _ _ _ Hc Hle), Hfirst, (words_same_counters _ _ _ _ Hc Hle), !Hu; [done|..];
      unfold kSequence, kHeaderChain, kNextPage; lia.
  - intros i. rewrite Hpage'. cbn [tp_words page_at]. unfold words_at. rewrite Hslots, Hslots'.
    destruct (decide (i < N.to_nat (slots_at l))%nat) as [Hi|Hi]; [|left; rewrite !lookup_ge_None_2; [done|..]; rewrite length_fmap, length_seq; lia].
    rewrite !list_lookup_fmap, !lookup_seq_lt by lia. cbn. destruct (Hword (N.of_nat i)) as [->| ->]; [lia|by left|by right].
Qed.

(** The chain after a crash. *)
Definition crashed_chain (chain : list TipChainPage) (crashed : list (list N)) : list TipChainPage :=
  zip_with (fun g m => mkTipChainPage (cg_page_number g) m) chain crashed.

Lemma crashed_pages i from next chain pages images crashed :
  state_chain i chain pages -> Forall (fun g => Forall is_byte (cg_image g)) chain ->
  Forall2 (fun l p => Forall is_byte l /\ page_of l = Some p) images (restarted from next <$> pages) ->
  Forall2 (fun g l => same_frame (cg_image g) l) chain images ->
  Forall2 (fun gl m => torn (cg_image gl.1) gl.2 m) (zip chain images) crashed ->
  exists pages', state_chain i (crashed_chain chain crashed) pages' /\ Forall2 (partly_marked from next) pages pages' /\
    Forall (fun g => Forall is_byte (cg_image g)) (crashed_chain chain crashed) /\ length (crashed_chain chain crashed) = length chain.
Proof.
  revert i pages images crashed. induction chain as [|g chain IH]; intros i [|p pages] images crashed Hch Hb Hi Hs Ht; try done.
  { exists []. split_and!; [done|constructor|constructor|done]. }
  cbn [fmap list_fmap] in Hi. apply Forall2_cons_inv_r in Hi as (l & images' & [Hl1 Hl2] & Hi & ->).
  apply Forall2_cons in Hs as [Hs Hs']. cbn [zip_with] in Ht. apply Forall2_cons_inv_l in Ht as (m & crashed' & Ht & Ht' & ->). cbn [fst snd] in Ht.
  apply Forall_cons in Hb as [Hb Hb']. cbn [state_chain] in Hch. destruct Hch as (Hp & Hseq & Hnum & Hlink & Hrest).
  destruct (torn_page from next _ _ m p Hb Hl1 Hp Hl2 Hs Ht) as (Hbm & p' & Hpm & Hpart).
  destruct (IH (i + 1) pages images' crashed' Hrest Hb' Hi Hs' Ht') as (pages' & H1 & H2 & H3 & H4).
  exists (p' :: pages'). cbn [crashed_chain zip_with state_chain]. pose proof (pm_frame _ _ _ _ Hpart) as Hfr. split_and!; try done.
  - by rewrite Hfr.
  - by rewrite Hfr.
  - rewrite Hfr. cbn [with_words tp_next_page]. destruct chain as [|g' chain]; [done|].
    destruct images' as [|l' images']; [by inversion Hs'|]. cbn [zip_with] in Ht'. apply Forall2_cons_inv_l in Ht' as (m' & c' & _ & _ & ->). done.
  - by constructor.
  - by constructor.
  - cbn [length]. f_equal. exact H4.
Qed.

Lemma crashed_restartable chain pages c images crashed :
  restartable chain pages c -> Forall (fun g => Forall is_byte (cg_image g)) chain ->
  Forall2 (fun l p => Forall is_byte l /\ page_of l = Some p) images (restarted (scan_from c) (tc_next_transaction c) <$> pages) ->
  Forall2 (fun g l => same_frame (cg_image g) l) chain images ->
  Forall2 (fun gl m => torn (cg_image gl.1) gl.2 m) (zip chain images) crashed ->
  exists pages', restartable (crashed_chain chain crashed) pages' c /\
    Forall2 (partly_marked (scan_from c) (tc_next_transaction c)) pages pages' /\
    Forall (fun g => Forall is_byte (cg_image g)) (crashed_chain chain crashed) /\ length (crashed_chain chain crashed) = length chain.
Proof.
  intros [Hch (first & rest & -> & Hc) Hbelow Hcov] Hb Hi Hs Ht.
  destruct (crashed_pages 0 _ _ chain _ images crashed Hch Hb Hi Hs Ht) as (pages' & H1 & H2 & H3 & H4).
  exists pages'. split; [|done]. pose proof H2 as H2'. apply Forall2_cons_inv_l in H2' as (first' & rest' & Hf & Hr & ->). split; [done|..].
  - exists first', rest'. split; [done|]. by rewrite (pm_frame _ _ _ _ Hf).
  - cbn [tail] in *. clear -Hbelow Hr. induction Hr as [|p p' ps ps' Hp _ IH]; [constructor|]. apply Forall_cons in Hbelow as [Hb1 Hb2].
    constructor; [|by apply IH]. intros i Hi Hge. rewrite (partly_length _ _ _ _ Hp) in Hi. rewrite (partly_number _ _ _ _ i Hp) in Hge.
    destruct (partly_state _ _ _ _ i Hp) as [->|(Hx & _)]; [by apply Hb1|lia].
  - intros p' Hl'. destruct (last (first :: rest)) as [p|] eqn:Hl; [|by apply last_None in Hl].
    assert (Hpp : partly_marked (scan_from c) (tc_next_transaction c) p p').
    { rewrite last_lookup in Hl, Hl'. rewrite <- (Forall2_length _ _ _ H2) in Hl'. by apply (Forall2_lookup_lr _ _ _ _ _ _ H2 Hl Hl'). }
    rewrite (partly_number _ _ _ _ _ Hpp), (partly_length _ _ _ _ Hpp). by apply Hcov.
Qed.

(** C13: restart may be interrupted.  Let a restart be accepted, and let a crash leave every
    512-byte unit of every page either as it was or as the restart meant to write it.  Then
    restarting the crashed chain is accepted again, ends in the very images the first
    restart was to leave, and reports the same undecided numbers.  In particular,
    restarting twice is restarting once. *)
Theorem restart_survives_crash (chain : list TipChainPage) (plan : TipRestartPlan) (images crashed : list (list N))
    (Hb : Forall (fun g => Forall is_byte (cg_image g)) chain) (Hn : N.of_nat (length chain) < 2 ^ 48)
    (Hplan : PlanTransactionStateRestart chain = Some (plan, images)) (Hok : rp_error plan = tpe_none)
    (Ht : Forall2 (fun gl m => torn (cg_image gl.1) gl.2 m) (zip chain images) crashed) :
  exists plan', PlanTransactionStateRestart (crashed_chain chain crashed) = Some (plan', images) /\
    rp_error plan' = tpe_none /\ rp_unresolved plan' = rp_unresolved plan.
Proof.
  destruct (restart_decided chain Hb Hn) as [(pages & c & Hr)|Hno].
  2: { destruct (plan_refused chain Hb Hn Hno) as (plan0 & H0 & He). rewrite H0 in Hplan. by injection Hplan as ->. }
  destruct (plan_accepted chain Hb Hn pages c Hr) as (works & Hrun & Hw). rewrite Hrun in Hplan. injection Hplan as <- <-.
  destruct (works_images _ _ _ _ _ (state_chain_length _ _ _ (ra_chain _ _ _ Hr)) Hw) as (H1 & H2 & _ & _).
  destruct (crashed_restartable chain pages c _ crashed Hr Hb H1 H2 Ht) as (pages' & Hr' & Hpart & Hb' & Hlen).
  destruct (plan_accepted (crashed_chain chain crashed) Hb' ltac:(lia) pages' c Hr') as (works' & Hrun' & Hw').
  destruct (works_images _ _ _ _ _ (state_chain_length _ _ _ (ra_chain _ _ _ Hr')) Hw') as (H1' & _ & _ & _).
  eexists. split; [rewrite Hrun'; do 2 f_equal|].
  - assert (Hpages : restarted (scan_from c) (tc_next_transaction c) <$> pages' = restarted (scan_from c) (tc_next_transaction c) <$> pages).
    { clear -Hpart. induction Hpart as [|p p' ps ps' Hp _ IH]; [done|]. cbn. by rewrite (partly_restarted _ _ _ _ Hp), IH. }
    rewrite Hpages in H1'. clear -H1 H1'. revert H1'. generalize (zip_with (fun g work => default (cg_image g) work) (crashed_chain chain crashed) works').
    induction H1 as [|l p ls ps [Hl1 Hl2] _ IH]; intros ls' H'; [by inversion H'|].
    apply Forall2_cons_inv_r in H' as (l' & ls'' & [Hl1' Hl2'] & H' & ->). f_equal; [|by apply IH].
    by rewrite (page_image_of _ _ Hl1 Hl2), (page_image_of _ _ Hl1' Hl2').
  - split; [done|]. cbn [rp_unresolved]. f_equal. clear -Hpart. induction Hpart as [|p p' ps ps' Hp _ IH]; [done|].
    cbn. by rewrite (partly_unresolved _ _ _ _ Hp), IH.
Qed.

(** ** A sample chain: one active, one committed, one prepared and one allocated number *)

Definition sample_restart_edits : list tip_edit := [edit_code 1 tip_active; edit_code 2 tip_committed; edit_code 3 tip_prepared].
Definition sample_restart_image : list N := default [] (run_edits sample_restart_edits sample_tip).
Definition sample_restart_page : tip_page := apply_edits sample_restart_edits sample_tip_page.
Definition sample_chain : list TipChainPage := [mkTipChainPage 7 sample_restart_image].
Definition sample_restart_plan : TipRestartPlan :=
  default (refused_plan tpe_invalid_family) (fst <$> PlanTransactionStateRestart sample_chain).
Definition sample_restart_images : list (list N) := default [] (snd <$> PlanTransactionStateRestart sample_chain).

Lemma sample_restart_decodes : page_of sample_restart_image = Some sample_restart_page /\ Forall is_byte sample_restart_image.
Proof.
  destruct (run_edits_refine sample_restart_edits sample_tip sample_tip_page sample_tip_bytes sample_tip_decodes) as (l & H1 & H2 & H3); [repeat constructor|].
  unfold sample_restart_image. rewrite H1. exact (conj H2 H3).
Qed.

Lemma sample_chain_bytes : Forall (fun g => Forall is_byte (cg_image g)) sample_chain.
Proof. constructor; [|constructor]. apply sample_restart_decodes. Qed.

Lemma sample_restartable : restartable sample_chain [sample_restart_page] (sample_tip_counters 5).
Proof.
  split.
  - split; [apply sample_restart_decodes|]. by vm_compute.
  - exists sample_restart_page, []. split; [done|]. by vm_compute.
  - constructor.
  - intros p [= <-]. by vm_compute.
Qed.

Lemma sample_chain_small : N.of_nat (length sample_chain) < 2 ^ 48.
Proof. done. Qed.

Lemma sample_chain_planned :
  PlanTransactionStateRestart sample_chain = Some (sample_restart_plan, sample_restart_images) /\ rp_error sample_restart_plan = tpe_none /\
  length sample_restart_images = 1%nat.
Proof.
  destruct (plan_accepted sample_chain sample_chain_bytes sample_chain_small _ _ sample_restartable) as (works & Hrun & Hw).
  destruct (works_images _ _ sample_chain [sample_restart_page] works eq_refl Hw) as (_ & H2 & _).
  unfold sample_restart_plan, sample_restart_images. rewrite Hrun. split; [reflexivity|]. split; [reflexivity|]. symmetry. exact (Forall2_length _ _ _ H2).
Qed.

Lemma sample_chain_torn :
  Forall2 (fun gl m => torn (cg_image gl.1) gl.2 m) (zip sample_chain sample_restart_images) (cg_image <$> sample_chain).
Proof.
  destruct sample_chain_planned as (_ & _ & H). destruct sample_restart_images as [|l [|]]; try done.
  constructor; [|constructor]. split; [done|]. intros k. by left.
Qed.

Lemma restart_exact_witness :
  exists plan images, PlanTransactionStateRestart sample_chain = Some (plan, images) /\
    (rp_error plan <> tpe_none -> images = cg_image <$> sample_chain).
Proof.
  destruct (restart_exact sample_chain sample_chain_bytes sample_chain_small) as (plan & images & H1 & _ & H2 & _).
  exists plan, images. split; [exact H1|exact H2].
Defined.

Lemma restart_survives_crash_witness :
  exists plan', PlanTransactionStateRestart (crashed_chain sample_chain (cg_image <$> sample_chain)) = Some (plan', sample_restart_images) /\
    rp_error plan' = tpe_none.
Proof.
  destruct (restart_survives_crash sample_chain sample_restart_plan sample_restart_images (cg_image <$> sample_chain)
    sample_chain_bytes sample_chain_small (proj1 sample_chain_planned) (proj1 (proj2 sample_chain_planned)) sample_chain_torn) as (plan' & H1 & H2 & _).
  exists plan'. split; [exact H1|exact H2].
Defined.

(** ** Pages of several sizes

    Restart compares [Next] with the end of the last page only, and a page's numbers start
    at its sequence times its own number of slots. *)

Definition wide_header : NativeCommonPageHeader :=
  mkPageHeader 16384 769 (frame_uuid 1) (frame_uuid 2) (frame_uuid 4) 8 1 0 (profile_uuid 1 99 132).
Definition narrow_format : TipPageFormat := mkTipFormat sample_header 0 8 9 (Some (sample_tip_counters 5000)).
Definition wide_format : TipPageFormat := mkTipFormat wide_header 1 0 0 None.

(** The page a format gives in a buffer of its size. *)
Definition formatted (f : TipPageFormat) : list N :=
  buffer_of (FormatTransactionStatePage f (replicate (N.to_nat (ph_page_size_bytes (tf_header f))) 0)).
Definition formatted_page (f : TipPageFormat) : tip_page :=
  mkTipPage (tf_header f) (tf_tip_sequence f) (tf_header_chain_page f) (tf_next_tip_page f) (tf_counters f)
    (replicate (N.to_nat (TipSlotsPerPage (ph_page_size_bytes (tf_header f)))) unused_word).

Lemma formatted_decodes f : format_sized f -> format_legal f -> page_of (formatted f) = Some (formatted_page f).
Proof.
  intros Hz Hf. unfold formatted. destruct (format_spec f (replicate (N.to_nat (ph_page_size_bytes (tf_header f))) 0) Hz) as (e & o & -> & He & _ & Hok).
  rewrite length_replicate, N2Nat.id in He. assert (E : e = tpe_none) by (apply He; split; [done|lia]). destruct (Hok E) as (Hl & _ & Hp).
  rewrite length_replicate in Hl. cbn [buffer_of]. rewrite take_ge in Hp by lia. exact Hp.
Qed.

Definition mixed_chain : list TipChainPage := [mkTipChainPage 7 (formatted narrow_format); mkTipChainPage 8 (formatted wide_format)].

Lemma wide_header_sized : header_sized wide_header.
Proof. split; first [uuid_is_sized|vm_compute; reflexivity]. Qed.

Lemma mixed_restartable : restartable mixed_chain [formatted_page narrow_format; formatted_page wide_format] (sample_tip_counters 5000).
Proof.
  assert (Hn : page_of (formatted narrow_format) = Some (formatted_page narrow_format)).
  { apply formatted_decodes; [split; [apply sample_header_sized|done..|]; split; [done|repeat constructor]|]. apply (format_error_iff narrow_format []); reflexivity. }
  assert (Hw : page_of (formatted wide_format) = Some (formatted_page wide_format)).
  { apply formatted_decodes; [split; [apply wide_header_sized|done..]|apply (format_error_iff wide_format []); reflexivity]. }
  split.
  - cbn [state_chain mixed_chain cg_image cg_page_number]. by split_and!.
  - exists (formatted_page narrow_format), [formatted_page wide_format]. split; reflexivity.
  - cbn [tail]. constructor; [|constructor]. intros i Hi _. unfold state_of. cbn [tp_words formatted_page].
    destruct (_ !! i) as [w|] eqn:E; [|done]. apply lookup_replicate in E as [-> _]. done.
  - intros p [= <-]. unfold number_of. cbn [tp_words formatted_page tp_sequence]. rewrite length_replicate, N2Nat.id. apply N.leb_le. vm_compute. reflexivity.
Qed.

(** Restart accepts an 8 KiB page followed by a 16 KiB page with 5000 as the next number,
    although the numbers from 1920 to 3967 have no slot on either. *)
Lemma mixed_page_sizes_leave_gap :
  exists plan images pages, PlanTransactionStateRestart mixed_chain = Some (plan, images) /\
    rp_error plan = tpe_none /\ rp_next_transaction plan = 5000 /\
    Forall2 (fun g p => page_of (cg_image g) = Some p) mixed_chain pages /\
    forall n p i, 1920 <= n < 3968 -> p ∈ pages -> (i < length (tp_words p))%nat -> number_of p i <> n.
Proof.
  pose proof mixed_restartable as Hr.
  assert (Hb : Forall (fun g => Forall is_byte (cg_image g)) mixed_chain).
  { unfold mixed_chain. rewrite !Forall_cons. cbn [cg_image]. split; [|split; [|constructor]]; apply bytes_by_check; vm_compute; reflexivity. }
  destruct (plan_accepted mixed_chain Hb ltac:(reflexivity) _ _ Hr) as (works & Hrun & _).
  eexists _, _, [formatted_page narrow_format; formatted_page wide_format]. split; [exact Hrun|]. split; [reflexivity|]. split; [reflexivity|]. split.
  - destruct (ra_chain _ _ _ Hr) as (H1 & _ & _ & _ & H2 & _). apply Forall2_cons_2; [exact H1|]. apply Forall2_cons_2; [exact H2|]. apply Forall2_nil_2.
  - intros n p i Hn Hp. unfold number_of.
    assert (Hs : forall f, length (tp_words (formatted_page f)) = N.to_nat (TipSlotsPerPage (ph_page_size_bytes (tf_header f)))) by (intros; apply length_replicate).
    apply elem_of_cons in Hp as [->|Hp]; [|apply list_elem_of_singleton in Hp as ->]; rewrite Hs, N2Nat.id; cbn [formatted_page tp_sequence tf_tip_sequence narrow_format wide_format].
    + change (TipSlotsPerPage _) with 1920. lia.
    + change (TipSlotsPerPage _) with 3968. lia.
Qed.
