(* ===== verification/TransactionHeaderClaims.v ===== *)
(** * Correctness of transaction headers

    Records are canonical and complete once; the edits of a header page are the edits of
    the abstract page inside one write unit, and no history of edits rewrites what is
    fixed. *)

From S2P Require Import Prelude Platform TransactionState Bytes PageFrame PageFrameFacts TipPage.
From S2P Require Import TipPageFacts TipEdits TransactionHeader TransactionHeaderFacts.

(** ** The abstract header page *)

Record header_page := mkHeaderPage {
  hp_header : NativeCommonPageHeader;
  hp_sequence : N;
  hp_next_page : N;
  hp_slots : list (option TransactionHeaderRecord) }.

(** The page an image denotes, if the decoder accepts it. *)
Definition header_page_of (l : list N) : option header_page :=
  match DecodeTransactionHeaderPage l None with
  | Some (inr v) =>
    Some (mkHeaderPage (hv_header v) (hv_sequence v) (hv_next_page v)
            ((fun i => default None (TransactionHeaderAt v (N.of_nat i))) <$> seq 0 (N.to_nat (hv_slots v))))
  | _ => None
  end.

Inductive header_edit :=
| header_write (r : TransactionHeaderRecord)
| header_update (r : TransactionHeaderRecord)
| header_link (next : N).

Definition run_header_edit (e : header_edit) (image : list N) : option (TipPageEdit * list N) :=
  match e with
  | header_write r => WriteTransactionHeader image r
  | header_update r => UpdateTransactionHeader image r
  | header_link n => SetTransactionHeaderNextPage image n
  end.

Definition header_edit_sized (e : header_edit) : Prop :=
  match e with header_write r | header_update r => record_sized r | header_link n => is_u64 n end.

Definition header_first (p : header_page) : N := hp_sequence p * N.of_nat (length (hp_slots p)).

(** The slot of a record on the page. *)
Definition on_page (p : header_page) (r : TransactionHeaderRecord) : Prop :=
  header_first p <= hr_transaction_order r < header_first p + N.of_nat (length (hp_slots p)).
#[export] Instance on_page_dec p r : Decision (on_page p r).
Proof. unfold on_page. apply _. Defined.

Definition slot_of (p : header_page) (r : TransactionHeaderRecord) : nat := N.to_nat (hr_transaction_order r - header_first p).

Definition set_record (p : header_page) (r : TransactionHeaderRecord) : header_page :=
  mkHeaderPage (hp_header p) (hp_sequence p) (hp_next_page p) (<[slot_of p r := Some r]> (hp_slots p)).

(** The updates of a record that are allowed: the fixed fields stay, a complete record
    stays as it is, the intent changes only with a higher generation. *)
Definition moves_forward (old r : TransactionHeaderRecord) : Prop :=
  fixed_fields old = fixed_fields r /\ (hr_final_state old <> tip_unused -> r = old) /\
  (hr_intent_generation old < hr_intent_generation r \/
   hr_intent_generation old = hr_intent_generation r /\ hr_intent old = hr_intent r).
#[export] Instance moves_forward_dec old r : Decision (moves_forward old r).
Proof. unfold moves_forward. apply _. Defined.

Definition apply_header_edit (e : header_edit) (p : header_page) : TipPageError + header_page :=
  match e with
  | header_write r =>
    if decide (~ on_page p r \/ hr_database_uuid r <> ph_database_uuid (hp_header p)) then inl tpe_invalid_slot
    else if decide (ValidateTransactionHeaderRecord r <> the_none) then inl tpe_invalid_word
    else match hp_slots p !! slot_of p r with
    | Some None => inr (set_record p r)
    | Some (Some old) => if decide (old = r) then inr p else inl tpe_invalid_slot
    | None => inl tpe_invalid_slot
    end
  | header_update r =>
    if decide (~ on_page p r) then inl tpe_invalid_slot
    else match hp_slots p !! slot_of p r with
    | Some (Some old) =>
      if decide (~ moves_forward old r) then inl tpe_invalid_word
      else if decide (ValidateTransactionHeaderRecord r <> the_none) then inl tpe_invalid_word
      else inr (set_record p r)
    | _ => inl tpe_invalid_slot
    end
  | header_link n =>
    if decide (n = 0 \/ n = ph_page_number (hp_header p) \/ (hp_next_page p <> 0 /\ hp_next_page p <> n)) then inl tpe_invalid_link
    else inr (mkHeaderPage (hp_header p) (hp_sequence p) n (hp_slots p))
  end.

(** ** The page of an image *)

Definition record_at (l : list N) (slot : N) : option TransactionHeaderRecord :=
  if all_zero (slot_bytes l slot) then None
  else match DecodeTransactionHeaderRecord (slot_bytes l slot) with Some (inr r) => Some r | _ => None end.

Definition records_at (l : list N) : list (option TransactionHeaderRecord) :=
  (fun i => record_at l (N.of_nat i)) <$> seq 0 (N.to_nat (header_slots_at l)).

Definition header_page_at (l : list N) : header_page :=
  mkHeaderPage (header_at l) (u64_at kSequence l) (u64_at kNextPage l) (records_at l).

Lemma header_at_view l slot :
  header_family_ok l -> slot < header_slots_at l -> TransactionHeaderAt (header_view l) slot = Some (record_at l slot).
Proof.
  intros Hf Hs. pose proof (record_room l slot Hf Hs) as Hr. unfold TransactionHeaderAt, kTransactionHeaderRecordBytes. cbn [hv_slots hv_image header_view].
  rewrite decide_False by lia. rewrite load_bytes_some by done. cbn [mbind option_bind]. fold (slot_bytes l slot). unfold record_at.
  destruct (all_zero (slot_bytes l slot)); [done|]. destruct (decode_record_iff (slot_bytes l slot)) as (res & -> & _). by destruct res.
Qed.

Lemma header_page_of_iff l p : header_page_of l = Some p <-> header_frame_ok None l /\ slots_ok l /\ p = header_page_at l.
Proof.
  unfold header_page_of. destruct (decode_header_page_iff l None) as (r & -> & _ & Hr). destruct r as [e|v].
  - split; [done|]. intros (H1 & H2 & _). by discriminate (proj2 (Hr (header_view l)) (conj (conj H1 H2) eq_refl)).
  - destruct (proj1 (Hr v) eq_refl) as [[H1 H2] ->]. cbn [hv_header hv_sequence hv_next_page hv_slots header_view].
    assert (Hw : ((fun i => default None (TransactionHeaderAt (header_view l) (N.of_nat i))) <$> seq 0 (N.to_nat (header_slots_at l))) = records_at l).
    { apply list_fmap_ext. intros k i Hi. apply list_elem_of_lookup_2, elem_of_seq in Hi. by rewrite header_at_view by (apply H1 || lia). }
    rewrite Hw. split; [by intros [= <-]|by intros (_ & _ & ->)].
Qed.

Lemma length_records_at l : length (records_at l) = N.to_nat (header_slots_at l).
Proof. unfold records_at. by rewrite length_fmap, length_seq. Qed.

Lemma lookup_records_at l slot : slot < header_slots_at l -> records_at l !! N.to_nat slot = Some (record_at l slot).
Proof. intros Hs. unfold records_at. rewrite list_lookup_fmap, lookup_seq_lt by lia. cbn. by rewrite N2Nat.id. Qed.

(** What a slot holds. *)
Lemma slot_cases l slot :
  Forall is_byte l -> header_family_ok l -> slot < header_slots_at l -> slot_ok l slot ->
  (record_at l slot = None /\ slot_bytes l slot = replicate 256 0) \/
  (exists r, record_at l slot = Some r /\ slot_bytes l slot = record_image r /\ record_sized r /\ ValidateTransactionHeaderRecord r = the_none /\
     hr_transaction_order r = u64_add (u64_at kSequence l * header_slots_at l) slot /\ hr_database_uuid r = ph_database_uuid (header_at l)).
Proof.
  intros Hb Hf Hs Hok. pose proof (record_room l slot Hf Hs) as Hr. unfold record_at.
  destruct (all_zero (slot_bytes l slot)) eqn:Hz.
  - left. split; [done|]. apply all_zero_iff in Hz. unfold slot_bytes in *. by rewrite length_slice in Hz by done.
  - right. destruct Hok as [?|(r & Hd & H1 & H2)]; [congruence|]. exists r. rewrite Hd. apply decode_record in Hd as (H3 & H4 & H5); [|by apply slice_bytes].
    done.
Qed.

(** ** Changes to the slots *)

Section slots_changed.
Context (u n : nat) (l l' : list N) (Hc : confined u n l l') (Hu : (512 <= u)%nat).

Lemma slots_same_count : header_slots_at l' = header_slots_at l.
Proof. unfold header_slots_at, page_size_at. by rewrite (low_slice u n l l') by (done || lia). Qed.

Lemma slots_frame e : header_frame_ok e l -> header_frame_ok e l'.
Proof.
  intros [K1 K2 K3 Hfam K5 K6 K7]. assert (Hfam' : header_family_ok l').
  { destruct Hfam. pose proof (proj1 Hc) as Hlen.
    split; rewrite ?slots_same_count, ?(low_slice u n l l' Hc Hu), ?(low_u64 u n l l' Hc Hu), ?Hlen; try done;
      unfold kMagic, kVersion, kWordBytes, kSlots, kSequence, kFirstNumber; try lia.
    unfold page_size_at. by rewrite (low_slice u n l l' Hc Hu) by lia. }
  split; rewrite ?(words_same_header u n l l' Hc Hu), ?(low_slice u n l l' Hc Hu), ?(low_u64 u n l l' Hc Hu);
    try done; unfold kHeaderFamilyEnd, kLinkEnd, kNextPage; try lia.
Qed.
End slots_changed.

Lemma slot_bytes_stored l slot r slot' :
  header_family_ok l -> slot < header_slots_at l -> slot' < header_slots_at l -> record_sized r ->
  slot_bytes (stored (RecordOffset slot) (record_image r) l) slot' = if decide (slot' = slot) then record_image r else slot_bytes l slot'.
Proof.
  intros Hf Hs Hs' Hz. pose proof (record_room l slot Hf Hs) as Hr. pose proof (length_record_image r Hz) as Hlen. unfold slot_bytes. case_decide as E.
  - subst slot'. pose proof (slice_stored_same (RecordOffset slot) (record_image r) l) as H. rewrite Hlen in H. by apply H.
  - destruct (decide (slot' < slot)) as [H|H].
    + apply slice_stored_before; [rewrite Hlen; lia|]. rewrite !record_offset. lia.
    + apply slice_stored_after; [rewrite Hlen; lia|]. rewrite !record_offset, Hlen. lia.
Qed.

Lemma store_record_page l r :
  Forall is_byte l -> header_frame_ok None l -> slots_ok l -> record_sized r -> ValidateTransactionHeaderRecord r = the_none ->
  on_page (header_page_at l) r -> hr_database_uuid r = ph_database_uuid (header_at l) ->
  header_page_of (stored (RecordOffset (hr_transaction_order r - u64_at kSequence l * header_slots_at l)) (record_image r) l) =
  Some (set_record (header_page_at l) r).
Proof.
  intros Hb Hf Hok Hz Hv Hon Hdb. pose proof (hk_family _ _ Hf) as Hfam. pose proof (length_record_image r Hz) as Hlen.
  unfold on_page, header_first in Hon. cbn [hp_slots hp_sequence header_page_at] in Hon. rewrite length_records_at, N2Nat.id in Hon.
  set (first := u64_at kSequence l * header_slots_at l) in *. set (slot := hr_transaction_order r - first).
  assert (Hs : slot < header_slots_at l) by (unfold slot; lia). pose proof (record_room l slot Hfam Hs) as Hroom.
  assert (Hc : confined (RecordOffset slot) 256 l (stored (RecordOffset slot) (record_image r) l)) by (apply stored_confined; lia).
  assert (Hu : (512 <= RecordOffset slot)%nat) by (rewrite record_offset; lia).
  pose proof (slots_same_count _ _ _ _ Hc Hu) as Hcount. pose proof (words_same_header _ _ _ _ Hc Hu) as Hhead.
  assert (Hu64 : forall o, (o + 8 <= 512)%nat -> u64_at o (stored (RecordOffset slot) (record_image r) l) = u64_at o l)
    by (intros; by apply (low_u64 _ _ _ _ Hc Hu)).
  apply header_page_of_iff. split; [by apply (slots_frame _ _ _ _ Hc Hu)|]. split.
  - intros slot' Hs'. rewrite Hcount in Hs'. unfold slot_ok. rewrite Hcount, Hhead, Hu64 by (unfold kSequence; lia).
    rewrite slot_bytes_stored by done. case_decide as E; [|by apply Hok]. subst slot'. right. exists r.
    split; [apply decode_record; [by apply record_image_bytes|done]|]. split; [|done]. fold first.
    pose proof (rz_order r Hz) as Ho. unfold is_u64 in Ho. rewrite u64_add_small; unfold slot; lia.
  - unfold header_page_at, set_record, slot_of, header_first. cbn [hp_header hp_sequence hp_next_page hp_slots]. rewrite Hhead, !Hu64 by (unfold kSequence, kNextPage; lia).
    f_equal. rewrite length_records_at, N2Nat.id. fold first. fold slot.
    apply list_eq. intros i. destruct (decide (i < N.to_nat (header_slots_at l))%nat) as [Hi|Hi].
    2: { rewrite !lookup_ge_None_2; [done|..]; rewrite ?length_insert, length_records_at, ?Hcount; lia. }
    replace i with (N.to_nat (N.of_nat i)) by lia. rewrite lookup_records_at by (rewrite Hcount; lia).
    unfold record_at. rewrite slot_bytes_stored by (done || lia). case_decide as E.
    + rewrite E, list_lookup_insert_eq by (rewrite length_records_at; lia). rewrite record_image_used by done.
      rewrite (proj2 (decode_record _ _ (record_image_bytes r Hz)) (conj Hz (conj Hv eq_refl))). done.
    + rewrite list_lookup_insert_ne by lia. rewrite lookup_records_at by lia. done.
Qed.

(** ** Changes to the link *)

Section link_changed.
Context (l l' : list N) (Hc : confined kNextPage 8 l l').

Lemma off_link o k : (o + k <= 256 \/ 264 <= o)%nat -> slice o k l' = slice o k l.
Proof. intros H. apply (confined_slice kNextPage 8); [done|unfold kNextPage; lia]. Qed.

Lemma off_link_u64 o : (o + 8 <= 256)%nat -> u64_at o l' = u64_at o l.
Proof. intros H. unfold u64_at. by rewrite off_link by lia. Qed.

Lemma link_same_header : header_at l' = header_at l.
Proof. unfold header_at. by rewrite off_link by lia. Qed.
Lemma link_same_count : header_slots_at l' = header_slots_at l.
Proof. unfold header_slots_at, page_size_at. by rewrite off_link by lia. Qed.
Lemma link_same_bytes slot : slot_bytes l' slot = slot_bytes l slot.
Proof. unfold slot_bytes. apply off_link. rewrite record_offset. lia. Qed.

Lemma link_same_records : records_at l' = records_at l.
Proof. unfold records_at, record_at. rewrite link_same_count. apply list_fmap_ext. intros. by rewrite link_same_bytes. Qed.

Lemma link_slots : slots_ok l -> slots_ok l'.
Proof.
  intros H slot Hs. rewrite link_same_count in Hs. unfold slot_ok.
  rewrite link_same_bytes, link_same_count, link_same_header, off_link_u64 by (unfold kSequence; lia). by apply H.
Qed.

Lemma link_frame e :
  header_frame_ok e l -> u64_at kNextPage l' <> ph_page_number (header_at l) -> header_frame_ok e l'.
Proof.
  intros [K1 K2 K3 Hfam K5 K6 K7] Hn. assert (Hfam' : header_family_ok l').
  { destruct Hfam. pose proof (proj1 Hc) as Hlen.
    split; rewrite ?link_same_count, ?off_link_u64, ?off_link, ?Hlen; try done;
      unfold kMagic, kVersion, kWordBytes, kSlots, kSequence, kFirstNumber; try lia.
    unfold page_size_at. by rewrite off_link by lia. }
  split; rewrite ?link_same_header; try done; rewrite off_link; try done; unfold kHeaderFamilyEnd, kLinkEnd; lia.
Qed.
End link_changed.

Lemma store_next_page l n :
  header_frame_ok None l -> slots_ok l -> is_u64 n -> n <> ph_page_number (header_at l) ->
  header_page_of (stored kNextPage (le_bytes 8 n) l) =
  Some (mkHeaderPage (header_at l) (u64_at kSequence l) n (records_at l)).
Proof.
  intros Hf Hok Hn Hself. pose proof (ho_room _ (hk_family _ _ Hf)) as Hroom.
  assert (Hc : confined kNextPage 8 l (stored kNextPage (le_bytes 8 n) l)).
  { apply stored_confined; rewrite ?length_le_bytes; unfold kNextPage; lia. }
  assert (Hat : u64_at kNextPage (stored kNextPage (le_bytes 8 n) l) = n).
  { unfold u64_at. pose proof (slice_stored_same kNextPage (le_bytes 8 n) l) as Hs. rewrite length_le_bytes in Hs.
    rewrite Hs by (unfold kNextPage; lia). by apply u64_of_bytes. }
  apply header_page_of_iff. split; [apply (link_frame _ _ Hc); [done|by rewrite Hat]|]. split; [by apply (link_slots _ _ Hc)|].
  unfold header_page_at. by rewrite Hat, (link_same_header _ _ Hc), (link_same_records _ _ Hc), (off_link_u64 _ _ Hc) by (unfold kSequence; lia).
Qed.

(** ** Each edit against its meaning *)

Definition header_outcome (r : TipPageError + header_page) (edit : TipPageEdit) (l l' : list N) : Prop :=
  match r with
  | inl e => te_error edit = e /\ e <> tpe_none /\ te_changed edit = false /\ l' = l
  | inr p => te_error edit = tpe_none /\ header_page_of l' = Some p /\ in_unit edit l l' /\ Forall is_byte l'
  end.

Lemma header_refused_outcome e l : e <> tpe_none -> header_outcome (inl e) (RefuseEdit e) l l.
Proof. done. Qed.

Ltac refuse_header := do 2 eexists; split; [reflexivity|]; by apply header_refused_outcome.

Lemma header_units l : header_family_ok l -> (length l mod 512 = 0)%nat.
Proof.
  intros [_ Hs Hl _ _ _ _ _ _]. destruct (header_slots_per_page _ Hs) as [_ Hm]. rewrite <- Hl in Hm.
  apply (f_equal N.to_nat) in Hm. rewrite N2Nat.inj_mod, Nat2N.id in Hm. done.
Qed.

Lemma record_offset_unit slot : (RecordOffset slot mod 512 + 256 <= 512)%nat.
Proof.
  rewrite record_offset. pose proof (Nat.Div0.div_mod (512 + 256 * N.to_nat slot) 512) as Hd.
  pose proof (Nat.mod_upper_bound (512 + 256 * N.to_nat slot) 512 ltac:(lia)) as Hb. lia.
Qed.

Lemma with_header_family_ok l f : header_family_ok l -> with_header_family l f = f (header_family_at l).
Proof.
  intros Hf. unfold with_header_family. destruct (header_family_iff l) as (r & -> & Hr). cbn [mbind option_bind].
  rewrite (proj2 (Hr (header_family_at l)) (conj Hf eq_refl)). done.
Qed.

Lemma header_database_at l : ph_database_uuid (header_at l) = mkUuid (slice 24 16 l).
Proof. unfold header_at, header_of. cbn [ph_database_uuid]. by rewrite slice_prefix by lia. Qed.

Lemma encode_record_alone r :
  record_sized r ->
  EncodeTransactionHeaderRecord r (replicate kTransactionHeaderRecordBytes 0) =
  Some (if decide (ValidateTransactionHeaderRecord r <> the_none) then (ValidateTransactionHeaderRecord r, replicate 256 0)
        else (the_none, record_image r)).
Proof.
  intros Hz. rewrite encode_record by done. do 2 f_equal. case_decide; [done|]. rewrite length_replicate, decide_False by (unfold kTransactionHeaderRecordBytes; lia).
  by rewrite app_nil_r.
Qed.

(** A record is its fixed fields and its mutable ones. *)
Lemma fixed_and_mutable r :
  r = with_completion (with_intent (fixed_fields r) (hr_intent r) (hr_intent_generation r))
        (hr_final_state r) (hr_commit_time_utc_ns r) (hr_completed_at_utc_ns r).
Proof. by destruct r. Qed.

Lemma moves_forward_iff old r :
  SameFixedFields old r = true ->
  moves_forward old r <->
  ~ (hr_final_state old <> tip_unused /\
      (hr_final_state r <> hr_final_state old \/ hr_commit_time_utc_ns r <> hr_commit_time_utc_ns old \/
       hr_completed_at_utc_ns r <> hr_completed_at_utc_ns old \/ hr_intent r <> hr_intent old \/
       hr_intent_generation r <> hr_intent_generation old)) /\
  ~ (hr_intent_generation r < hr_intent_generation old \/
      (hr_intent_generation r = hr_intent_generation old /\ hr_intent r <> hr_intent old)).
Proof.
  unfold SameFixedFields. rewrite bool_decide_eq_true. intros Hfix. unfold moves_forward. split.
  - intros (_ & H1 & H2). split; [|lia]. intros [H3 H4]. rewrite (H1 H3) in H4. tauto.
  - intros [H1 H2]. split; [done|]. split; [|lia]. intros H3.
    assert (hr_final_state r = hr_final_state old) as E1 by (apply dec_stable; tauto).
    assert (hr_commit_time_utc_ns r = hr_commit_time_utc_ns old) as E2 by (apply dec_stable; tauto).
    assert (hr_completed_at_utc_ns r = hr_completed_at_utc_ns old) as E3 by (apply dec_stable; tauto).
    assert (hr_intent r = hr_intent old) as E4 by (apply dec_stable; tauto).
    assert (hr_intent_generation r = hr_intent_generation old) as E5 by (apply dec_stable; tauto).
    by rewrite (fixed_and_mutable r), (fixed_and_mutable old), Hfix, E1, E2, E3, E4, E5.
Qed.

Lemma fixed_database old r : fixed_fields old = fixed_fields r -> hr_database_uuid r = hr_database_uuid old.
Proof. intros H. by apply (f_equal hr_database_uuid) in H. Qed.

Section header_page_edits.
Context (l : list N) (Hb : Forall is_byte l) (Hf : header_frame_ok None l) (Hok : slots_ok l).
Let first := u64_at kSequence l * header_slots_at l.
Let Hfam : header_family_ok l := hk_family _ _ Hf.

Lemma on_page_iff r :
  on_page (header_page_at l) r <->
  ~ (hr_transaction_order r < first \/ header_slots_at l <= hr_transaction_order r - first).
Proof.
  unfold on_page, header_first. cbn [hp_slots hp_sequence header_page_at]. rewrite length_records_at, N2Nat.id. fold first. lia.
Qed.

Lemma slot_lookup r :
  on_page (header_page_at l) r ->
  hr_transaction_order r - first < header_slots_at l /\
  hp_slots (header_page_at l) !! slot_of (header_page_at l) r = Some (record_at l (hr_transaction_order r - first)).
Proof.
  intros Hon. apply on_page_iff in Hon. unfold slot_of, header_first. cbn [hp_slots hp_sequence header_page_at].
  rewrite length_records_at, N2Nat.id. fold first. split; [lia|]. apply lookup_records_at. lia.
Qed.

(** Storing a record inside its unit. *)
Lemma store_record_outcome r :
  record_sized r -> ValidateTransactionHeaderRecord r = the_none ->
  on_page (header_page_at l) r -> hr_database_uuid r = ph_database_uuid (header_at l) ->
  let slot := hr_transaction_order r - first in
  exists edit, Begin l (RecordOffset slot) = Some edit /\
    (slot_bytes l slot = record_image r -> header_outcome (inr (set_record (header_page_at l) r)) edit l l) /\
    (slot_bytes l slot <> record_image r ->
       store_bytes (RecordOffset slot) (record_image r) l = Some (stored (RecordOffset slot) (record_image r) l) /\
       header_outcome (inr (set_record (header_page_at l) r)) (changed edit) l (stored (RecordOffset slot) (record_image r) l)).
Proof.
  intros Hz Hv Hon Hdb slot. destruct (slot_lookup r Hon) as [Hs _]. fold slot in Hs.
  pose proof (record_room l slot Hfam Hs) as Hroom. pose proof (length_record_image r Hz) as Hlen.
  pose proof (store_record_page l r Hb Hf Hok Hz Hv Hon Hdb) as Hpage. fold first slot in Hpage.
  pose proof (stored_bytes (RecordOffset slot) _ l (record_image_bytes r Hz) Hb) as Hbytes.
  pose proof (stored_same_iff (RecordOffset slot) (record_image r) l) as Hsame. rewrite Hlen in Hsame.
  destruct (finish_edit l (RecordOffset slot) (record_image r)) as (edit & HB & He & F1 & F2);
    rewrite ?Hlen; [by apply header_units|lia|lia|apply record_offset_unit|].
  rewrite Hlen in F1, F2. exists edit. split; [done|]. unfold slot_bytes. split; intros E.
  - pose proof (F1 E) as Hi. apply Hsame in E; [|lia]. rewrite E in Hi, Hpage. by split_and!.
  - split; [apply store_bytes_some; lia|]. split_and!; try done. by apply F2.
Qed.

Lemma write_refines r :
  record_sized r ->
  exists edit l', WriteTransactionHeader l r = Some (edit, l') /\
    header_outcome (apply_header_edit (header_write r) (header_page_at l)) edit l l'.
Proof.
  intros Hz. pose proof (ho_room _ Hfam) as Hroom. unfold WriteTransactionHeader, apply_header_edit.
  rewrite with_header_family_ok by done. unfold GetUuid. rewrite (load_bytes_some 24) by lia.
  cbn [fmap option_fmap option_map mbind option_bind fm_first_number fm_slots header_family_at hp_header header_page_at].
  fold first. rewrite <- header_database_at. pose proof (on_page_iff r) as Hon. fold (header_page_at l).
  case_decide as H1; [rewrite decide_True by tauto; refuse_header|].
  rewrite decide_False by tauto. assert (Hp : on_page (header_page_at l) r) by tauto.
  assert (Hdb : hr_database_uuid r = ph_database_uuid (header_at l)) by (apply dec_stable; tauto).
  rewrite encode_record_alone by done. cbn [mbind option_bind].
  destruct (decide (ValidateTransactionHeaderRecord r <> the_none)) as [Hv|Hv].
  { rewrite decide_True by done. refuse_header. }
  rewrite decide_False by tauto. apply dec_stable in Hv.
  destruct (slot_lookup r Hp) as [Hs Hl]. change (records_at l) with (hp_slots (header_page_at l)). rewrite Hl.
  destruct (store_record_outcome r Hz Hv Hp Hdb) as (edit & -> & O1 & O2). set (slot := hr_transaction_order r - first) in *.
  cbn [mbind option_bind]. unfold kTransactionHeaderRecordBytes.
  rewrite load_bytes_some by (by apply record_room). cbn [mbind option_bind]. fold (slot_bytes l slot).
  destruct (slot_cases l slot Hb Hfam Hs (Hok slot Hs)) as [[Hr Hz0]|(old & Hr & Hi & Hzo & _)]; rewrite Hr.
  - rewrite decide_False. 2: { intros E. rewrite Hz0 in E. pose proof (record_image_used r Hz) as Hu. rewrite E in Hu. done. }
    rewrite Hz0 in *. cbn [all_zero]. rewrite all_zero_replicate. cbn [negb].
    destruct O2 as [-> O2]. { intros E. pose proof (record_image_used r Hz) as Hu. rewrite <- E in Hu. done. }
    cbn [mbind option_bind]. eauto.
  - destruct (decide (old = r)) as [->|Hne].
    + rewrite decide_True by done. do 2 eexists. split; [done|].
      replace (header_page_at l) with (set_record (header_page_at l) r); [by apply O1|].
      unfold set_record. rewrite list_insert_id by (rewrite Hl, Hr; done). done.
    + rewrite decide_False by (rewrite Hi; intros E; apply Hne; symmetry; by apply record_image_inj).
      rewrite Hi, record_image_used by done. cbn [negb]. refuse_header.
Qed.

Lemma update_refines r :
  record_sized r ->
  exists edit l', UpdateTransactionHeader l r = Some (edit, l') /\
    header_outcome (apply_header_edit (header_update r) (header_page_at l)) edit l l'.
Proof.
  intros Hz. unfold UpdateTransactionHeader, apply_header_edit.
  rewrite with_header_family_ok by done. cbn [fm_first_number fm_slots header_family_at].
  fold first. pose proof (on_page_iff r) as Hon.
  case_decide as H1; [rewrite decide_True by tauto; refuse_header|].
  rewrite decide_False by tauto. assert (Hp : on_page (header_page_at l) r) by tauto.
  destruct (slot_lookup r Hp) as [Hs Hl]. rewrite Hl. set (slot := hr_transaction_order r - first) in *.
  change (load_bytes _ kTransactionHeaderRecordBytes l) with (load_bytes (RecordOffset slot) 256 l). rewrite load_bytes_some by (by apply record_room). cbn [mbind option_bind]. fold (slot_bytes l slot).
  destruct (slot_cases l slot Hb Hfam Hs (Hok slot Hs)) as [[Hr Hz0]|(old & Hr & Hi & Hzo & Hvo & _ & Hdo)]; rewrite Hr.
  { destruct (decode_record_iff (slot_bytes l slot)) as (res & -> & Hres). cbn [mbind option_bind].
    destruct res as [e|old]; [refuse_header|]. exfalso. destruct (proj1 (Hres old) eq_refl) as ([_ Hv _ _ _ _ _] & _).
    rewrite Hz0 in Hv. by vm_compute in Hv. }
  rewrite Hi, (proj2 (decode_record _ old (record_image_bytes old Hzo)) (conj Hzo (conj Hvo eq_refl))). cbn [mbind option_bind].
  destruct (SameFixedFields old r) eqn:Hfix; cbn [negb].
  2: { rewrite decide_True; [refuse_header|]. intros [H _]. unfold SameFixedFields in Hfix. by apply bool_decide_eq_false in Hfix. }
  pose proof (moves_forward_iff old r Hfix) as Hmove.
  case_decide as H2; [rewrite decide_True by tauto; refuse_header|].
  case_decide as H3; [rewrite decide_True by tauto; refuse_header|].
  rewrite decide_False by tauto. apply bool_decide_eq_true, fixed_database in Hfix.
  rewrite encode_record_alone by done. cbn [mbind option_bind].
  destruct (decide (ValidateTransactionHeaderRecord r <> the_none)) as [Hv|Hv].
  { rewrite decide_True by done. refuse_header. }
  rewrite decide_False by tauto. apply dec_stable in Hv.
  destruct (store_record_outcome r Hz Hv Hp ltac:(congruence)) as (edit & HB & O1 & O2). fold slot in HB, O1, O2. rewrite HB.
  cbn [mbind option_bind]. rewrite Hi in O1, O2. case_decide as E; [eauto|].
  destruct O2 as [-> O2]; [done|]. cbn [mbind option_bind]. eauto.
Qed.

Lemma link_refines n :
  is_u64 n ->
  exists edit l', SetTransactionHeaderNextPage l n = Some (edit, l') /\
    header_outcome (apply_header_edit (header_link n) (header_page_at l)) edit l l'.
Proof.
  intros Hz. pose proof (ho_room _ Hfam) as Hroom. unfold SetTransactionHeaderNextPage, apply_header_edit.
  rewrite with_header_family_ok by done. unfold LoadLittle64. rewrite (load_bytes_some 72), (load_bytes_some kNextPage) by (unfold kNextPage; lia).
  cbn [fmap option_fmap option_map mbind option_bind hp_header hp_next_page header_page_at].
  rewrite header_number_at. fold (u64_at 72 l) (u64_at kNextPage l).
  case_decide as H1; [rewrite decide_True by tauto; refuse_header|].
  case_decide as H2; [rewrite decide_True by tauto; refuse_header|].
  rewrite decide_False by tauto.
  destruct (finish_edit l kNextPage (le_bytes 8 n)) as (edit & -> & He & F1 & F2);
    [by apply header_units|rewrite length_le_bytes; unfold kNextPage; lia|rewrite length_le_bytes; lia
    |rewrite length_le_bytes; cbn; lia|].
  rewrite length_le_bytes in F1, F2. cbn [mbind option_bind].
  pose proof (store_next_page l n Hf Hok Hz ltac:(rewrite header_number_at; tauto)) as Hpage.
  assert (Hsame : u64_at kNextPage l = n <-> slice kNextPage 8 l = le_bytes 8 n).
  { unfold u64_at. split; intros E; [apply slice_constant; [done|unfold kNextPage; lia|done]|]. rewrite E. by apply u64_of_bytes. }
  pose proof (stored_bytes kNextPage _ l (le_bytes_bytes 8 n) Hb) as Hbytes.
  case_decide as E.
  - exists edit, (stored kNextPage (le_bytes 8 n) l). apply Hsame in E. split; [|by split_and!; auto].
    do 2 f_equal. symmetry. apply stored_same_iff; rewrite length_le_bytes; [unfold kNextPage; lia|done].
  - unfold StoreLittle64. rewrite store_bytes_some by (rewrite length_le_bytes; unfold kNextPage; lia). cbn [mbind option_bind].
    do 2 eexists. split; [done|]. split_and!; try done. apply F2. by rewrite <- Hsame.
Qed.
End header_page_edits.

Lemma run_header_edit_refines e l p :
  Forall is_byte l -> header_page_of l = Some p -> header_edit_sized e ->
  exists edit l', run_header_edit e l = Some (edit, l') /\ header_outcome (apply_header_edit e p) edit l l'.
Proof.
  intros Hb Hp Hz. apply header_page_of_iff in Hp as (Hf & Hok & ->). destruct e as [r|r|n]; cbn [run_header_edit header_edit_sized] in *.
  - by apply write_refines.
  - by apply update_refines.
  - by apply link_refines.
Qed.

(** ** Records *)

(** Header records and their 256 bytes correspond one to one.  Bytes decode to a
    record exactly when the record encodes to them.  Encoding is total: it succeeds
    exactly for a valid record and a buffer with room, and then writes only the first 256
    bytes, which decode to the record; a refusal leaves the buffer as it was. *)
Theorem header_record_canonical (b output : list N) (r : TransactionHeaderRecord) (Hb : Forall is_byte b) :
  (DecodeTransactionHeaderRecord b = Some (inr r) <->
   record_sized r /\ EncodeTransactionHeaderRecord r (replicate 256 0) = Some (the_none, b)) /\
  (record_sized r -> exists e output', EncodeTransactionHeaderRecord r output = Some (e, output') /\
     (e = the_none <-> ValidateTransactionHeaderRecord r = the_none /\ (256 <= length output)%nat) /\
     (e <> the_none -> output' = output) /\
     (e = the_none -> drop 256 output' = drop 256 output /\ DecodeTransactionHeaderRecord (take 256 output') = Some (inr r))).
Proof.
  change (replicate 256 0) with (replicate kTransactionHeaderRecordBytes 0). split.
  - rewrite decode_record by done. split.
    + intros (Hz & Hv & ->). split; [done|]. rewrite (encode_record_alone r Hz), decide_False by tauto. done.
    + intros [Hz He]. rewrite (encode_record_alone r Hz) in He. apply (inj Some) in He. case_decide as Hv.
      * by apply (f_equal fst) in He.
      * apply (f_equal snd) in He. cbn in He. done.
  - intros Hz. rewrite encode_record by done. pose proof (length_record_image r Hz) as Hlen.
    case_decide as Hv; [do 2 eexists; split; [done|]; split; [tauto|done]|].
    case_decide as Hl; [do 2 eexists; split; [done|]; split; [split; [done|lia]|done]|].
    do 2 eexists. split; [done|]. split; [split; [split; [done|lia]|done]|]. split; [done|]. intros _.
    rewrite drop_app_length', take_app_length' by done. split; [done|]. apply decode_record; [by apply record_image_bytes|done].
Qed.

(** What a header needs before its completion and its intent are looked at. *)
Definition identity_error (r : TransactionHeaderRecord) : TransactionHeaderError :=
  ValidateTransactionHeaderRecord (fixed_fields r).

Lemma validate_parts r :
  ValidateTransactionHeaderRecord r = the_none <->
  identity_error r = the_none /\ hr_intent r <= kTipIntentMax /\
  (if decide (hr_final_state r = tip_unused) then hr_commit_time_utc_ns r = 0 /\ hr_completed_at_utc_ns r = 0
   else FinalState (hr_final_state r) = true /\ hr_completed_at_utc_ns r <> 0 /\
        hr_commit_time_utc_ns r = if decide (hr_final_state r = tip_committed) then hr_completed_at_utc_ns r else 0).
Proof.
  unfold identity_error, fixed_fields, ValidateTransactionHeaderRecord, UuidFields. cbn [with_completion with_intent hr_transaction_order
    hr_database_uuid hr_transaction_uuid hr_engine_instance_uuid hr_principal_or_agent_uuid hr_attachment_uuid hr_session_uuid hr_policy_snapshot_uuid
    hr_security_snapshot_uuid hr_start_snapshot_uuid hr_durable_operation_uuid hr_recovery_attempt_uuid hr_cluster_uuid hr_cluster_transaction_uuid
    hr_cluster_epoch hr_authority hr_intent hr_final_state hr_commit_time_utc_ns hr_completed_at_utc_ns].
  pose proof (authority_byte_small (hr_authority r)) as Ha.
  destruct (decide (hr_transaction_order r = 0)); [split; [done|by intros [? _]]|].
  destruct (negb (IsEngineIdentityUuid (hr_database_uuid r)) || negb (IsEngineIdentityUuid (hr_transaction_uuid r))); [split; [done|by intros [? _]]|].
  destruct (negb (forallb _ _)); [split; [done|by intros [? _]]|].
  destruct (uuid_is_nil (hr_cluster_uuid r) && _); [split; [done|by intros [? _]]|].
  rewrite (decide_False (P := 2 < _ \/ kTipIntentMax < 0)) by lia. rewrite (decide_True (P := tip_unused = tip_unused)) by done.
  rewrite (decide_False (P := (0 <> 0) \/ _)) by lia.
  destruct (decide (2 < _ \/ kTipIntentMax < hr_intent r)); [split; [done|]; lia|].
  destruct (decide (hr_final_state r = tip_unused)) as [Eu|Eu].
  - destruct (decide (_ \/ _)) as [H|H]; (split; [try done|]); try lia; try done; intros _; split; [done|split; lia].
  - destruct (FinalState (hr_final_state r)); cbn [negb orb]; [|split; [done|]; by intros (_ & _ & ? & _)].
    destruct (bool_decide (hr_completed_at_utc_ns r = 0)) eqn:E0; [apply bool_decide_eq_true in E0; split; [done|]; by intros (_ & _ & _ & ? & _)|].
    apply bool_decide_eq_false in E0.
    destruct (decide (hr_final_state r = tip_committed)); (destruct (bool_decide _) eqn:E1; [apply bool_decide_eq_true in E1|apply bool_decide_eq_false in E1]);
      (split; [try done|]); try (intros (_ & _ & _ & _ & ?); tauto); intros _; split_and!; try done; try lia; by apply dec_stable.
Qed.

Lemma completion_valid r s t :
  ValidateTransactionHeaderRecord r = the_none -> FinalState s = true -> t <> 0 ->
  ValidateTransactionHeaderRecord (with_completion r s (if decide (s = tip_committed) then t else 0) t) = the_none.
Proof.
  intros Hv Hs Ht. apply validate_parts in Hv as (H1 & H2 & _). apply validate_parts. split; [exact H1|]. split; [exact H2|].
  cbn [with_completion hr_final_state hr_commit_time_utc_ns hr_completed_at_utc_ns]. by rewrite decide_False by by destruct s.
Qed.

Lemma intent_valid r i g :
  ValidateTransactionHeaderRecord r = the_none -> i <= kTipIntentMax -> ValidateTransactionHeaderRecord (with_intent r i g) = the_none.
Proof.
  intros Hv Hi. apply validate_parts in Hv as (H1 & _ & H3). apply validate_parts. split; [exact H1|]. split; [exact Hi|exact H3].
Qed.

(** Completing a valid header succeeds exactly once: when it is not complete, the
    state is one of the three final ones and the time is not zero; upgrading the intent
    succeeds exactly while it is not complete, for another intent in range, below the last
    generation.  Both write only their own fields, the result is a valid header that an
    update of the page accepts, and a refusal changes nothing. *)
Theorem header_transforms_exact (r : TransactionHeaderRecord) (s : TipStateCode) (t intent : N)
    (Hv : ValidateTransactionHeaderRecord r = the_none) (Hz : record_sized r) :
  (let '(e, r') := CompleteTransactionHeader r s t in
   (e = the_none <-> hr_final_state r = tip_unused /\ FinalState s = true /\ t <> 0) /\
   (hr_final_state r <> tip_unused -> e = the_already_complete) /\
   r' = (if decide (e = the_none) then with_completion r s (if decide (s = tip_committed) then t else 0) t else r) /\
   ValidateTransactionHeaderRecord r' = the_none /\ moves_forward r r') /\
  (let '(e, r') := UpgradeTransactionHeaderIntent r intent in
   (e = the_none <-> hr_final_state r = tip_unused /\ intent <= kTipIntentMax /\ intent <> hr_intent r /\
                     hr_intent_generation r < 2 ^ 32 - 1) /\
   (hr_final_state r <> tip_unused -> e = the_already_complete) /\
   r' = (if decide (e = the_none) then with_intent r intent (hr_intent_generation r + 1) else r) /\
   ValidateTransactionHeaderRecord r' = the_none /\ moves_forward r r').
Proof.
  assert (Hrefl : moves_forward r r) by (split_and!; [done|done|by right]). pose proof (rz_generation r Hz) as Hg. split.
  - unfold CompleteTransactionHeader. case_decide as H1; [split_and!; try done; split; [done|tauto]|].
    destruct (FinalState s) eqn:Hs; cbn [negb orb]; [|split_and!; try done; split; [done|]; by intros (_ & ? & _)].
    destruct (bool_decide (t = 0)) eqn:Ht; [apply bool_decide_eq_true in Ht|apply bool_decide_eq_false in Ht];
      [split_and!; try done; split; [done|]; by intros (_ & _ & ?)|].
    pose proof (completion_valid r s t Hv Hs Ht) as Hok. rewrite decide_False by (intros E; by apply E).
    split_and!; try done. split_and!; [done| |by right]. by rewrite H1.
  - unfold UpgradeTransactionHeaderIntent. case_decide as H1; [split_and!; try done; split; [done|tauto]|].
    case_decide as H2; [split_and!; try done; split; [done|]; lia|].
    case_decide as H3; [split_and!; try done; split; [done|]; lia|].
    pose proof (intent_valid r intent (hr_intent_generation r + 1) Hv ltac:(lia)) as Hok. rewrite decide_False by (intros E; by apply E).
    split_and!; try done.
    + split; [intros _; split_and!; try done; lia|done].
    + split_and!; [done|by rewrite H1|left; cbn; lia].
Qed.

(** ** Edits and histories of edits *)

(** C18: on a header page the decoder accepts, every edit is total and does on the image
    exactly what it means on the abstract page: it refuses with the error of the meaning
    and leaves the image, or the new image decodes to the new page, the change lies inside
    the one aligned 512-byte unit that is reported with its old bytes, and the edit says
    whether anything changed. *)
Theorem header_edits_refine (l : list N) (p : header_page) (e : header_edit)
    (Hb : Forall is_byte l) (Hp : header_page_of l = Some p) (He : header_edit_sized e) :
  exists edit l', run_header_edit e l = Some (edit, l') /\
    match apply_header_edit e p with
    | inl error => te_error edit = error /\ error <> tpe_none /\ te_changed edit = false /\ l' = l
    | inr p' => te_error edit = tpe_none /\ header_page_of l' = Some p' /\ in_unit edit l l' /\ Forall is_byte l'
    end.
Proof. exact (run_header_edit_refines e l p Hb Hp He). Qed.

(** [p'] continues [p]. *)
Record header_continues (p p' : header_page) : Prop := {
  hc_header : hp_header p' = hp_header p;
  hc_sequence : hp_sequence p' = hp_sequence p;
  hc_link : hp_next_page p <> 0 -> hp_next_page p' = hp_next_page p;
  hc_slots : length (hp_slots p') = length (hp_slots p);
  hc_records : forall i r, hp_slots p !! i = Some (Some r) -> exists r', hp_slots p' !! i = Some (Some r') /\ moves_forward r r' }.

Lemma moves_forward_refl r : moves_forward r r.
Proof. split_and!; [done|done|by right]. Qed.

Lemma moves_forward_trans a b c : moves_forward a b -> moves_forward b c -> moves_forward a c.
Proof.
  intros (A1 & A2 & A3) (B1 & B2 & B3). split_and!; [congruence| |lia].
  intros H. pose proof (A2 H) as E. subst b. by apply B2.
Qed.

Lemma header_continues_refl p : header_continues p p.
Proof. split; try done. eauto using moves_forward_refl. Qed.

Lemma header_continues_trans p q r : header_continues p q -> header_continues q r -> header_continues p r.
Proof.
  intros [H1 H2 H3 H4 H5] [G1 G2 G3 G4 G5]. split; try congruence.
  - intros H. rewrite G3, H3; [done..|]. by rewrite H3.
  - intros i a Hi. destruct (H5 i a Hi) as (b & Hb & Hab). destruct (G5 i b Hb) as (c & Hc & Hbc). eauto using moves_forward_trans.
Qed.

Lemma set_record_continues p r :
  (forall old, hp_slots p !! slot_of p r = Some (Some old) -> moves_forward old r) -> header_continues p (set_record p r).
Proof.
  intros Hold. split; try done; cbn [set_record hp_slots]; [apply length_insert|].
  intros i a Hi. destruct (decide (i = slot_of p r)) as [->|Hne].
  - exists r. split; [by eapply list_lookup_insert_eq, lookup_lt_Some|by apply Hold].
  - exists a. rewrite list_lookup_insert_ne by done. eauto using moves_forward_refl.
Qed.

Lemma apply_header_edit_continues e p p' : apply_header_edit e p = inr p' -> header_continues p p'.
Proof.
  destruct e as [r|r|n]; cbn [apply_header_edit]; intros H.
  - do 2 (case_decide; [done|]). destruct (hp_slots p !! slot_of p r) as [[old|]|] eqn:E; [case_decide; [|done]| |done];
      apply (inj inr) in H as <-; [apply header_continues_refl|]. apply set_record_continues. by rewrite E.
  - case_decide; [done|]. destruct (hp_slots p !! slot_of p r) as [[old|]|] eqn:E; try done. case_decide as Hm; [done|]. case_decide; [done|].
    apply (inj inr) in H as <-. apply set_record_continues. rewrite E. intros o [= ->]. done.
  - case_decide as Hn; [done|]. apply (inj inr) in H as <-. split; try done; cbn; [|eauto using moves_forward_refl].
    intros H0. destruct (decide (hp_next_page p = n)) as [E|E]; [done|]. exfalso. apply Hn. tauto.
Qed.

Fixpoint run_header_edits (es : list header_edit) (image : list N) : option (list N) :=
  match es with
  | [] => Some image
  | e :: es => r ← run_header_edit e image; run_header_edits es r.2
  end.

(** What a history means: a refused edit changes nothing. *)
Fixpoint apply_header_edits (es : list header_edit) (p : header_page) : header_page :=
  match es with
  | [] => p
  | e :: es => apply_header_edits es (match apply_header_edit e p with inl _ => p | inr p' => p' end)
  end.

Lemma run_header_edits_refine es l p :
  Forall is_byte l -> header_page_of l = Some p -> Forall header_edit_sized es ->
  exists l', run_header_edits es l = Some l' /\ header_page_of l' = Some (apply_header_edits es p) /\ Forall is_byte l'.
Proof.
  intros Hb Hp Hes. revert l p Hb Hp. induction Hes as [|e es He _ IH]; intros l p Hb Hp; cbn [run_header_edits apply_header_edits]; [by exists l|].
  destruct (run_header_edit_refines e l p Hb Hp He) as (edit & l1 & -> & Ho). cbn [mbind option_bind snd].
  destruct (apply_header_edit e p) as [error|p1]; [destruct Ho as (_ & _ & _ & ->)|destruct Ho as (_ & ? & _ & ?)]; by apply IH.
Qed.

Lemma apply_header_edits_continue es p : header_continues p (apply_header_edits es p).
Proof.
  revert p. induction es as [|e es IH]; intros p; cbn [apply_header_edits]; [apply header_continues_refl|].
  destruct (apply_header_edit e p) as [error|p1] eqn:Ha; [apply IH|]. apply header_continues_trans with p1; [by apply (apply_header_edit_continues e)|apply IH].
Qed.

(** C17: a header outlives every history of edits, accepted or refused in any order.  The
    page stays one the decoder accepts, with its header, sequence and written link; a
    header that was there is still there with its identity, its fixed fields and an
    intent generation that has not decreased; and a complete header is the same header,
    with the same outcome and times. *)
Theorem header_history_forward (l : list N) (p : header_page) (es : list header_edit)
    (Hb : Forall is_byte l) (Hp : header_page_of l = Some p) (Hes : Forall header_edit_sized es) :
  exists l' p', run_header_edits es l = Some l' /\ header_page_of l' = Some p' /\ Forall is_byte l' /\ header_continues p p'.
Proof.
  destruct (run_header_edits_refine es l p Hb Hp Hes) as (l' & H1 & H2 & H3). exists l', (apply_header_edits es p). split_and!; try done.
  apply apply_header_edits_continue.
Qed.

(** ** Formatting a header page *)

Record header_format_legal (f : TransactionHeaderPageFormat) : Prop := {
  hl_slots : TransactionHeaderSlotsPerPage (ph_page_size_bytes (hf_header f)) <> 0;
  hl_type : ph_page_type (hf_header f) = kTransactionStatePageType;
  hl_flags : ph_flags (hf_header f) = 0;
  hl_header : encode_error (hf_header f) = phe_none;
  hl_sequence : hf_sequence f <= u64_max / TransactionHeaderSlotsPerPage (ph_page_size_bytes (hf_header f));
  hl_link : hf_next_page f <> ph_page_number (hf_header f) }.

Record header_format_sized (f : TransactionHeaderPageFormat) : Prop := {
  hz_header : header_sized (hf_header f);
  hz_sequence : is_u64 (hf_sequence f);
  hz_next : is_u64 (hf_next_page f) }.

Lemma header_format_error_iff f h :
  encode_error (hf_header f) = phe_none -> header_format_error f (inr h) = tpe_none <-> header_format_legal f.
Proof.
  intros He. unfold header_format_error. split.
  - repeat (case_decide; [done|]). intros _. split; try done; try lia; apply dec_stable; tauto.
  - intros [F1 F2 F3 F4 F5 F6]. rewrite decide_False by done. rewrite decide_False by tauto. rewrite decide_False by lia.
    by rewrite decide_False.
Qed.

(** The fields of a freshly formatted page, and what follows the page in the buffer. *)
Definition header_layout (f : TransactionHeaderPageFormat) (records : nat) (rest : list N) : list (list N) :=
  let slots := TransactionHeaderSlotsPerPage (ph_page_size_bytes (hf_header f)) in
  [header_image (hf_header f); kTransactionHeaderPageMagic; le_bytes 2 1; le_bytes 2 256; le_bytes 4 slots;
   le_bytes 8 (hf_sequence f); le_bytes 8 (hf_sequence f * slots); replicate 96 0; le_bytes 8 (hf_next_page f);
   replicate 248 0; replicate records 0; rest].

Lemma header_format_stores f records output :
  header_sized (hf_header f) -> N.to_nat (ph_page_size_bytes (hf_header f)) = (512 + records)%nat -> (512 + records <= length output)%nat ->
  (p ← store_bytes 0 (replicate (N.to_nat (ph_page_size_bytes (hf_header f))) 0) output;
   p ← store_bytes 0 (header_image (hf_header f)) p;
   p ← store_bytes kMagic kTransactionHeaderPageMagic p;
   p ← StoreLittle16 kVersion kTransactionHeaderPageVersion p;
   p ← StoreLittle16 kWordBytes (N.of_nat kTransactionHeaderRecordBytes) p;
   p ← StoreLittle32 kSlots (TransactionHeaderSlotsPerPage (ph_page_size_bytes (hf_header f))) p;
   p ← StoreLittle64 kSequence (hf_sequence f) p;
   p ← StoreLittle64 kFirstNumber (hf_sequence f * TransactionHeaderSlotsPerPage (ph_page_size_bytes (hf_header f))) p;
   p ← StoreLittle64 kNextPage (hf_next_page f) p;
   Some (tpe_none, p)) =
  Some (tpe_none, mjoin (header_layout f records (drop (512 + records) output))).
Proof.
  intros Hz Hp Ho. rewrite Hp. pose proof (hf_length _ (proj1 (header_image_framed _ Hz))) as Hh.
  pose proof (eq_refl : length kTransactionHeaderPageMagic = 8%nat) as Hm.
  rewrite store_bytes_some by (rewrite length_replicate; lia). cbn [mbind option_bind].
  assert (Hzero : stored 0 (replicate (512 + records) 0) output =
    mjoin (zero_chunks [128; 8; 2; 2; 4; 8; 8; 96; 8; 248; records]%nat ++ [drop (512 + records) output])).
  { rewrite join_app, replicate_chunks. unfold stored. rewrite length_replicate. change (0 + (512 + records))%nat with (512 + records)%nat.
    rewrite take_0. cbn [app mjoin list_join]. rewrite app_nil_r. f_equal. f_equal. cbn [sum_list_with]. unfold id. lia. }
  rewrite Hzero. unfold StoreLittle16, StoreLittle32, StoreLittle64, kMagic, kVersion, kWordBytes, kSlots, kSequence, kFirstNumber, kNextPage.
  unfold zero_chunks. cbn [fmap list_fmap app].
  generalize (drop (512 + records) output) as rest. intros rest.
  store_field 0%nat. store_field 1%nat. store_field 2%nat. store_field 3%nat. store_field 4%nat. store_field 5%nat.
  store_field 6%nat. store_field 8%nat.
  change (N.of_nat kTransactionHeaderRecordBytes) with 256. unfold kTransactionHeaderPageVersion. reflexivity.
Qed.

Section formatted_headers.
Context (f : TransactionHeaderPageFormat) (Hz : header_format_sized f) (Hl : header_format_legal f).
Let slots := TransactionHeaderSlotsPerPage (ph_page_size_bytes (hf_header f)).
Let records := (256 * N.to_nat slots)%nat.
Let page := mjoin (header_layout f records []).

Lemma header_format_size : ph_page_size_bytes (hf_header f) = 512 + 256 * slots.
Proof. apply (header_slots_per_page _ (hl_slots _ Hl)). Qed.

Lemma header_format_length : length (header_image (hf_header f)) = 128%nat.
Proof. apply (hf_length _ (proj1 (header_image_framed _ (hz_header _ Hz)))). Qed.

Lemma length_header_formatted : length page = (512 + records)%nat.
Proof.
  pose proof header_format_length. unfold page, header_layout, kTransactionHeaderPageMagic.
  cbn [mjoin list_join]. rewrite !length_app, !length_le_bytes, !length_replicate. cbn [length]. lia.
Qed.

Lemma header_chunk i c off n :
  header_layout f records [] !! i = Some c -> off = chunk_offset i (header_layout f records []) -> n = length c -> slice off n page = c.
Proof. apply chunk_slice. Qed.

Ltac header_field i :=
  pose proof header_format_length; pose proof (eq_refl : length kTransactionHeaderPageMagic = 8%nat);
  apply (header_chunk i); [reflexivity| |];
  unfold header_layout, kMagic, kVersion, kWordBytes, kSlots, kSequence, kFirstNumber, kNextPage, kHeaderFamilyEnd, kLinkEnd; layout_size.

Lemma header_formatted_header : slice 0 128 page = header_image (hf_header f).
Proof. header_field 0%nat. Qed.
Lemma header_formatted_at : header_at page = hf_header f.
Proof. unfold header_at. rewrite header_formatted_header. apply header_image_framed, (hz_header _ Hz). Qed.
Lemma header_formatted_size : page_size_at page = ph_page_size_bytes (hf_header f).
Proof. by rewrite <- header_size_at, header_formatted_at. Qed.
Lemma header_formatted_slots : header_slots_at page = slots.
Proof. unfold header_slots_at. by rewrite header_formatted_size. Qed.

Lemma header_first_number : is_u64 (hf_sequence f * slots).
Proof.
  pose proof (hl_sequence _ Hl) as H. fold slots in H.
  unfold is_u64. apply (N.le_lt_trans _ (slots * (u64_max / slots))); [rewrite N.mul_comm; by apply N.mul_le_mono_l|].
  apply (N.le_lt_trans _ u64_max); [apply N.Div0.mul_div_le|done].
Qed.

Lemma header_formatted_sequence : u64_at kSequence page = hf_sequence f.
Proof. unfold u64_at. replace (slice kSequence 8 page) with (le_bytes 8 (hf_sequence f)); [apply u64_of_bytes, Hz|]. symmetry. header_field 5%nat. Qed.
Lemma header_formatted_first : u64_at kFirstNumber page = hf_sequence f * slots.
Proof. unfold u64_at. replace (slice kFirstNumber 8 page) with (le_bytes 8 (hf_sequence f * slots)); [apply u64_of_bytes, header_first_number|]. symmetry. header_field 6%nat. Qed.
Lemma header_formatted_next : u64_at kNextPage page = hf_next_page f.
Proof. unfold u64_at. replace (slice kNextPage 8 page) with (le_bytes 8 (hf_next_page f)); [apply u64_of_bytes, Hz|]. symmetry. header_field 8%nat. Qed.

Lemma header_formatted_family : header_family_ok page.
Proof.
  pose proof length_header_formatted as Hlen. pose proof header_format_size as Hp. pose proof (hl_slots _ Hl) as Hs. fold slots in Hs.
  assert (Hsmall : slots < 2 ^ 32) by (pose proof (header_page_size _ (hl_header _ Hl)); lia).
  split; rewrite ?header_formatted_slots, ?header_formatted_size, ?header_formatted_sequence, ?header_formatted_first; try done; try lia.
  - header_field 1%nat.
  - replace (slice kVersion 2 page) with (le_bytes 2 1); [by apply u16_of_bytes|]. symmetry. header_field 2%nat.
  - replace (slice kWordBytes 2 page) with (le_bytes 2 256); [by apply u16_of_bytes|]. symmetry. header_field 3%nat.
  - replace (slice kSlots 4 page) with (le_bytes 4 slots); [by apply u32_of_bytes|]. symmetry. header_field 4%nat.
  - apply (hl_sequence _ Hl).
Qed.

Lemma header_formatted_frame : header_frame_ok None page.
Proof.
  destruct (header_image_framed _ (hz_header _ Hz)) as [Hframed _].
  split; rewrite ?header_formatted_at, ?header_formatted_header, ?header_formatted_next.
  - split; [done|]. apply header_error_none, (hl_header _ Hl).
  - apply (hl_type _ Hl).
  - apply (hl_flags _ Hl).
  - apply header_formatted_family.
  - header_field 7%nat.
  - apply (hl_link _ Hl).
  - header_field 9%nat.
Qed.

Lemma header_formatted_slot slot : slot < slots -> slot_bytes page slot = replicate 256 0.
Proof.
  intros Hs. assert (Hrec : slice 512 records page = replicate records 0).
  { pose proof header_format_length. apply (header_chunk 10); [reflexivity| |by rewrite length_replicate].
    unfold header_layout. pose proof (eq_refl : length kTransactionHeaderPageMagic = 8%nat). layout_size. }
  unfold slot_bytes. rewrite record_offset. unfold slice in *. rewrite <- drop_drop, <- (take_drop records (drop 512 page)), Hrec.
  rewrite drop_app_le by (rewrite length_replicate; unfold records; lia).
  rewrite drop_replicate, take_app_le by (rewrite length_replicate; unfold records; lia).
  rewrite take_replicate. f_equal. unfold records. lia.
Qed.

Lemma header_formatted_page :
  header_page_of page = Some (mkHeaderPage (hf_header f) (hf_sequence f) (hf_next_page f) (replicate (N.to_nat slots) None)).
Proof.
  apply header_page_of_iff. split; [apply header_formatted_frame|]. split.
  - intros slot Hs. rewrite header_formatted_slots in Hs. left. rewrite header_formatted_slot by done. apply all_zero_replicate.
  - unfold header_page_at. rewrite header_formatted_at, header_formatted_sequence, header_formatted_next. f_equal.
    unfold records_at. rewrite header_formatted_slots. symmetry. apply list_eq. intros i. rewrite list_lookup_fmap.
    destruct (decide (i < N.to_nat slots)%nat) as [Hi|Hi].
    + rewrite lookup_seq_lt, lookup_replicate_2 by lia. cbn [fmap option_fmap option_map Nat.add]. unfold record_at.
      by rewrite header_formatted_slot, all_zero_replicate by lia.
    + rewrite lookup_seq_ge, !lookup_ge_None_2 by (rewrite ?length_replicate; lia). done.
Qed.
End formatted_headers.

(** Formatting is total; it succeeds exactly for a legal format with room for the page,
    and then writes only the page, which decodes to the fields of the format with every
    slot empty.  A refusal leaves the buffer as it was. *)
Theorem header_format_exact (f : TransactionHeaderPageFormat) (output : list N) (Hz : header_format_sized f) :
  exists e output', FormatTransactionHeaderPage f output = Some (e, output') /\
    (e = tpe_none <-> header_format_legal f /\ ph_page_size_bytes (hf_header f) <= N.of_nat (length output)) /\
    (e <> tpe_none -> output' = output) /\
    (e = tpe_none ->
       let size := N.to_nat (ph_page_size_bytes (hf_header f)) in
       length output' = length output /\ drop size output' = drop size output /\
       header_page_of (take size output') =
         Some (mkHeaderPage (hf_header f) (hf_sequence f) (hf_next_page f)
                 (replicate (N.to_nat (TransactionHeaderSlotsPerPage (ph_page_size_bytes (hf_header f)))) None))).
Proof.
  unfold FormatTransactionHeaderPage. rewrite encode_header by apply Hz. destruct (decide (encode_error (hf_header f) <> phe_none)) as [He|He].
  { cbn [mbind option_bind]. assert (Hn : header_format_error f (inl (encode_error (hf_header f))) <> tpe_none).
    { unfold header_format_error. by repeat case_decide. }
    destruct (header_format_error f _) eqn:E; try done; do 2 eexists; (split; [done|]); (split; [|done]); (split; [done|]); intros [[] _]; done. }
  apply dec_stable in He. cbn [mbind option_bind]. pose proof (header_format_error_iff f (header_image (hf_header f)) He) as Hiff.
  destruct (header_format_error f (inr (header_image (hf_header f)))) eqn:E.
  2-10: do 2 eexists; (split; [done|]); (split; [|done]); (split; [done|]); intros [Hl _]; by apply Hiff in Hl.
  pose proof (proj1 Hiff eq_refl) as Hl. case_decide as Hroom.
  { do 2 eexists. split; [done|]. split; [|done]. split; [done|]. intros [_ Hr]. lia. }
  pose proof (header_format_size f Hl) as Hsize.
  rewrite (header_format_stores f (256 * N.to_nat (TransactionHeaderSlotsPerPage (ph_page_size_bytes (hf_header f)))) output) by (apply Hz || lia).
  set (slots := TransactionHeaderSlotsPerPage (ph_page_size_bytes (hf_header f))) in *.
  do 2 eexists. split; [done|]. split; [split; [split; [done|lia]|done]|]. split; [done|]. intros _.
  assert (Hs : N.to_nat (ph_page_size_bytes (hf_header f)) = (512 + 256 * N.to_nat slots)%nat) by lia. rewrite Hs.
  pose proof (length_header_formatted f Hz) as Hlen. pose proof (header_formatted_page f Hz Hl) as Hpage. fold slots in Hlen, Hpage.
  assert (Hsplit : forall rest, mjoin (header_layout f (256 * N.to_nat slots) rest) = mjoin (header_layout f (256 * N.to_nat slots) []) ++ rest).
  { intros rest. unfold header_layout. cbn [mjoin list_join]. by rewrite <- !app_assoc, !app_nil_r. }
  rewrite Hsplit. split_and!.
  - rewrite length_app, Hlen, length_drop. lia.
  - by rewrite drop_app_length'.
  - by rewrite take_app_length'.
Qed.

(** ** Sample headers *)

Definition no_uuid : Uuid := mkUuid (replicate 16 0).

Definition sample_record (order : N) : TransactionHeaderRecord :=
  mkHeaderRecord tau_local 1 2 false order (ph_database_uuid sample_header) (ph_database_uuid sample_header)
    no_uuid no_uuid no_uuid no_uuid no_uuid no_uuid no_uuid no_uuid no_uuid no_uuid no_uuid 0 0 tip_unused 0 0.

Definition completed_record (order : N) : TransactionHeaderRecord := snd (CompleteTransactionHeader (sample_record order) tip_committed 77).

Definition sample_header_image : list N :=
  match FormatTransactionHeaderPage (mkHeaderFormat sample_header 0 0) (replicate (N.to_nat 8192) 0) with Some (_, l) => l | None => [] end.
Definition sample_header_page : header_page := mkHeaderPage sample_header 0 0 (replicate 30 None).

Lemma sample_header_page_decodes : header_page_of sample_header_image = Some sample_header_page.
Proof. vm_compute. reflexivity. Qed.
Lemma sample_header_image_bytes : Forall is_byte sample_header_image.
Proof. apply bytes_by_check. vm_compute. reflexivity. Qed.

Ltac sized_by_check := split; try done; repeat constructor.
Lemma sample_record_sized : record_sized (sample_record 3).
Proof. sized_by_check. Qed.
Lemma completed_record_sized : record_sized (completed_record 3).
Proof. sized_by_check. Qed.

Lemma header_record_canonical_witness :
  DecodeTransactionHeaderRecord (record_image (completed_record 3)) = Some (inr (completed_record 3)).
Proof.
  apply (proj1 (header_record_canonical (record_image (completed_record 3)) [] (completed_record 3)
    (record_image_bytes _ completed_record_sized))).
  split; [exact completed_record_sized|]. vm_compute. reflexivity.
Defined.

Lemma header_transforms_exact_witness :
  let '(e, r') := CompleteTransactionHeader (sample_record 3) tip_committed 77 in
  e = the_none /\ ValidateTransactionHeaderRecord r' = the_none /\ moves_forward (sample_record 3) r'.
Proof.
  pose proof (header_transforms_exact (sample_record 3) tip_committed 77 5 eq_refl sample_record_sized) as [(H1 & _ & _ & H2 & H3) _].
  split; [apply H1; split; [reflexivity|split; [reflexivity|discriminate]]|]. split; [exact H2|exact H3].
Defined.

Lemma header_edits_refine_witness :
  exists edit l', run_header_edit (header_write (sample_record 3)) sample_header_image = Some (edit, l') /\
    header_outcome (apply_header_edit (header_write (sample_record 3)) sample_header_page) edit sample_header_image l'.
Proof.
  exact (header_edits_refine sample_header_image sample_header_page (header_write (sample_record 3))
    sample_header_image_bytes sample_header_page_decodes sample_record_sized).
Defined.

Lemma header_history_forward_witness :
  exists l' p', run_header_edits [header_write (sample_record 3); header_update (completed_record 3); header_link 9] sample_header_image = Some l' /\
    header_page_of l' = Some p' /\ header_continues sample_header_page p'.
Proof.
  destruct (header_history_forward sample_header_image sample_header_page
    [header_write (sample_record 3); header_update (completed_record 3); header_link 9]
    sample_header_image_bytes sample_header_page_decodes) as (l' & p' & H1 & H2 & _ & H3).
  { repeat constructor. }
  exists l', p'. split; [exact H1|]. split; [exact H2|exact H3].
Defined.
