(* ===== verification/InventoryReader.v ===== *)
(** * Reading the in-place transaction inventory

    Models [storage/page/transaction_inventory_reader.{hpp,cpp}]: the check of the chains
    of state and header pages against each other, the inventory built from checked
    images, and the reads that bring the images in.  A span that would be left gives
    [None], as does reading through an empty optional and the end of the fuel of the walk.
    A file is named by a number, as the code compares device addresses, and what its reads
    answer is an argument; the allocator always answers. *)

From S2P Require Import Prelude Platform Uuid TransactionState Inventory Horizon Bytes PageFrame NativeInventoryPage.
From S2P Require Import FilespacePageZero TipPage TransactionHeader InventoryChain.

(** ** Findings *)

Inductive TransactionInventoryReadStage := rs_none | rs_request | rs_state_chain | rs_header_chain | rs_cross_check.

#[export] Instance TransactionInventoryReadStage_eq_dec : EqDecision TransactionInventoryReadStage.
Proof. solve_decision. Defined.

Definition TipCounters_default : TipCounters := mkTipCounters 1 (mkTipHorizons 1 1 1 1 1 1).

Record TransactionInventoryCheck := mkInventoryCheck {
  ic_error : TipPageError;
  ic_stage : TransactionInventoryReadStage;
  ic_page_index : nat;
  ic_transaction_order : option N;
  ic_counters : TipCounters }.

Definition Finding (error : TipPageError) (stage : TransactionInventoryReadStage) (page_index : nat) (order : option N)
    : TransactionInventoryCheck :=
  mkInventoryCheck error stage page_index order TipCounters_default.

Definition ic_ok (c : TransactionInventoryCheck) : bool := bool_decide (ic_error c = tpe_none).

Definition SamePlace (a b : NativeCommonPageHeader) : bool :=
  bool_decide (ph_database_uuid a = ph_database_uuid b) && bool_decide (ph_filespace_uuid a = ph_filespace_uuid b) &&
  bool_decide (ph_page_size_profile_uuid a = ph_page_size_profile_uuid b) && bool_decide (ph_page_size_bytes a = ph_page_size_bytes b).

(** Page [i] of a run of images. *)
Definition page_image_at (page_size : N) (images : list N) (i : nat) : option (list N) :=
  load_bytes (i * N.to_nat page_size) (N.to_nat page_size) images.

(** The record of a number in the header chain. *)
Definition HeaderOf (header_images : list N) (page_size slots n : N) : option (option TransactionHeaderRecord) :=
  if decide (slots = 0 \/ page_size = 0) then None
  else
  let page := n / slots in
  if decide (N.of_nat (length header_images) / page_size <= page) then Some None
  else
  let at_ := page * page_size + N.of_nat kTransactionHeaderPageRecordsOffset + N.of_nat kTransactionHeaderRecordBytes * (n mod slots) in
  bytes ← load_bytes (N.to_nat at_) kTransactionHeaderRecordBytes header_images;
  if all_zero bytes then Some None
  else
  record ← DecodeTransactionHeaderRecord bytes;
  match record with inl _ => Some None | inr r => Some (Some r) end.

(** ** The check *)

(** The state chain from page [i] on, [last] the page before. *)
Fixpoint check_state_chain (page_size : N) (images : list N) (head : TipPageView) (next : N) (i count : nat) (last : TipPageView)
    : option (TransactionInventoryCheck + TipPageView) :=
  match count with
  | O => Some (inr last)
  | S count =>
    image ← page_image_at page_size images i;
    d ← DecodeTransactionStatePage image None;
    match d with
    | inl (e, _) => Some (inl (Finding e rs_state_chain i None))
    | inr v =>
      if decide (tv_tip_sequence v <> N.of_nat i \/ SamePlace (tv_header v) (tv_header head) = false)
      then Some (inl (Finding tpe_invalid_link rs_state_chain i None))
      else if decide (i = 0%nat) then check_state_chain page_size images head next (S i) count v
      else if decide (tv_next_tip_page last <> ph_page_number (tv_header v))
      then Some (inl (Finding tpe_invalid_link rs_state_chain i None))
      else
      below ← CheckTransactionStateSlotsBelowNext v next;
      match below with
      | inl (e, slot) => slot ← slot; Some (inl (Finding e rs_state_chain i (Some (u64_add (tv_first_number v) slot))))
      | inr _ => check_state_chain page_size images head next (S i) count v
      end
    end
  end.

(** The first slot at or beyond [Next] that has a header. *)
Fixpoint header_beyond (v : TransactionHeaderPageView) (next slot : N) (count : nat) : option (option N) :=
  match count with
  | O => Some None
  | S count =>
    if decide (u64_add (hv_first_number v) slot < next) then header_beyond v next (slot + 1) count
    else
    header ← TransactionHeaderAt v slot;
    match header with
    | Some _ => Some (Some slot)
    | None => header_beyond v next (slot + 1) count
    end
  end.

(** The header chain from page [i] on: the slots of its pages and the last link. *)
Fixpoint check_header_chain (page_size : N) (images : list N) (head : TipPageView) (next : N) (i count : nat) (slots link : N)
    : option (TransactionInventoryCheck + N * N) :=
  match count with
  | O => Some (inr (slots, link))
  | S count =>
    image ← page_image_at page_size images i;
    d ← DecodeTransactionHeaderPage image None;
    match d with
    | inl (e, _) => Some (inl (Finding e rs_header_chain i None))
    | inr v =>
      if decide (hv_sequence v <> N.of_nat i \/ SamePlace (hv_header v) (tv_header head) = false \/ ph_page_number (hv_header v) <> link)
      then Some (inl (Finding tpe_invalid_link rs_header_chain i None))
      else
      beyond ← header_beyond v next 0 (N.to_nat (hv_slots v));
      match beyond with
      | Some slot => Some (inl (Finding tpe_invalid_slot rs_cross_check i (Some (u64_add (hv_first_number v) slot))))
      | None => check_header_chain page_size images head next (S i) count (hv_slots v) (hv_next_page v)
      end
    end
  end.

(** A used word against its header. *)
Definition slot_agrees (word : TipStateWord) (header : option TransactionHeaderRecord) : bool :=
  let final_state := match header with Some h => hr_final_state h | None => tip_unused end in
  let has := bool_decide (is_Some header) in
  let ok := negb (negb has && (bool_decide (N.land (tw_flags word) kTipFlagHasDetailRecord <> 0) || bool_decide (tw_state word <> tip_dead))) in
  match tw_state word with
  | tip_committed | tip_rolled_back => ok && has && bool_decide (final_state = tw_state word)
  | tip_archived => ok && has && bool_decide (final_state <> tip_unused)
  | tip_prepared | tip_limbo => ok && has && bool_decide (final_state = tip_unused)
  | _ => ok
  end.

(** The slots of one page below [Next]; the first number that does not agree. *)
Fixpoint cross_check_slots (page_size : N) (header_images : list N) (header_slots : N) (v : TipPageView) (slot : N) (count : nat)
    : option (option N) :=
  match count with
  | O => Some None
  | S count =>
    match TipWordAt v slot with
    | None => cross_check_slots page_size header_images header_slots v (slot + 1) count
    | Some word =>
      if decide (tw_state word = tip_unused) then cross_check_slots page_size header_images header_slots v (slot + 1) count
      else
      let n := u64_add (tv_first_number v) slot in
      header ← HeaderOf header_images page_size header_slots n;
      if slot_agrees word header then cross_check_slots page_size header_images header_slots v (slot + 1) count else Some (Some n)
    end
  end.

Definition slot_limit (v : TipPageView) (next : N) : N :=
  N.min (tv_slots v) (if decide (tv_first_number v < next) then next - tv_first_number v else 0).

Fixpoint cross_check_pages (page_size : N) (state_images header_images : list N) (header_slots next : N) (i count : nat)
    : option (option TransactionInventoryCheck) :=
  match count with
  | O => Some None
  | S count =>
    image ← page_image_at page_size state_images i;
    d ← DecodeTransactionStatePage image None;
    match d with
    | inl _ => None
    | inr v =>
      bad ← cross_check_slots page_size header_images header_slots v 0 (N.to_nat (slot_limit v next));
      match bad with
      | Some n => Some (Some (Finding tpe_invalid_slot rs_cross_check i (Some n)))
      | None => cross_check_pages page_size state_images header_images header_slots next (S i) count
      end
    end
  end.

(** The whole state chain: its head and counters. *)
Definition check_state_side (page_size : N) (state_images : list N) (state_count : nat)
    : option (TransactionInventoryCheck + TipPageView * TipCounters) :=
  image ← page_image_at page_size state_images 0;
  first ← DecodeTransactionStatePage image None;
  match first with
  | inl (e, _) => Some (inl (Finding e rs_state_chain 0 None))
  | inr head =>
    if decide (tv_tip_sequence head <> 0) then Some (inl (Finding tpe_invalid_link rs_state_chain 0 None))
    else
    counters ← tv_counters head;
    let next := tc_next_transaction counters in
    walked ← check_state_chain page_size state_images head next 0 state_count head;
    match walked with
    | inl finding => Some (inl finding)
    | inr last =>
      if decide (tv_next_tip_page last <> 0) then Some (inl (Finding tpe_invalid_link rs_state_chain (state_count - 1) None))
      else if decide (u64_add (tv_first_number last) (tv_slots last) < next)
      then Some (inl (Finding tpe_invalid_counters rs_state_chain (state_count - 1) None))
      else Some (inr (head, counters))
    end
  end.

(** The whole header chain: the slots of its pages. *)
Definition check_header_side (page_size : N) (header_images : list N) (header_count : nat) (head : TipPageView) (next : N)
    : option (TransactionInventoryCheck + N) :=
  headers ← check_header_chain page_size header_images head next 0 header_count 0 (tv_header_chain_page head);
  match headers with
  | inl finding => Some (inl finding)
  | inr (header_slots, link) =>
    if decide (link <> 0) then Some (inl (Finding tpe_invalid_link rs_header_chain (header_count - 1) None))
    else Some (inr header_slots)
  end.

Definition CheckTransactionInventoryImages (page_size : N) (state_images header_images : list N) : option TransactionInventoryCheck :=
  let whole (images : list N) := bool_decide (images <> []) && bool_decide (N.of_nat (length images) mod page_size = 0) in
  if bool_decide (page_size = 0) || negb (whole state_images) || negb (whole header_images)
  then Some (Finding tpe_invalid_page_size rs_request 0 None)
  else
  let state_count := N.to_nat (N.of_nat (length state_images) / page_size) in
  let header_count := N.to_nat (N.of_nat (length header_images) / page_size) in
  state ← check_state_side page_size state_images state_count;
  match state with
  | inl finding => Some finding
  | inr (head, counters) =>
    let next := tc_next_transaction counters in
    headers ← check_header_side page_size header_images header_count head next;
    match headers with
    | inl finding => Some finding
    | inr header_slots =>
      crossed ← cross_check_pages page_size state_images header_images header_slots next 0 state_count;
      match crossed with
      | Some finding => Some finding
      | None => Some (mkInventoryCheck tpe_none rs_none 0 None counters)
      end
    end
  end.

(** ** The inventory of checked images *)

(** The caller's scratch: the number of elements of each span, and whether the spans are
    apart as the validator asks. *)
Record TransactionInventoryBuildScratch := mkBuildScratch {
  bs_entries : N;
  bs_commits : N;
  bs_indices : N;
  bs_markers : N;
  bs_sound : bool }.

Record TransactionInventoryBuildView := mkBuildView {
  bv_error : TipPageError;
  bv_transaction_order : option N;
  bv_next_local_transaction_id : N;
  bv_next_commit_sequence : N;
  bv_entries : list TransactionInventoryEntry }.

Definition bv_ok (v : TransactionInventoryBuildView) : bool := bool_decide (bv_error v = tpe_none).

Definition refused_build (e : TipPageError) (order : option N) : TransactionInventoryBuildView := mkBuildView e order 0 0 [].

(** What the loop has written: the entries, and the commit time and entry of each commit. *)
Record build_state := mkBuildState { bd_entries : list TransactionInventoryEntry; bd_commits : list (N * nat) }.

Definition built_entry (n : N) (state : TransactionState) (header : TransactionHeaderRecord) : TransactionInventoryEntry :=
  let begun := ExtractUuidV7TimePrefix (hr_transaction_uuid header) in
  mkEntry
    (mkTransactionIdentity (MakeLocalTransactionId n) (mkTypedUuid uk_transaction (hr_transaction_uuid header))
       (if decide (hr_authority header = tau_cluster) then scope_cluster_global else scope_local_node))
    state
    (if decide (state = ts_archived) then default ts_none (InMemoryTransactionState (hr_final_state header)) else ts_none)
    (if tp_ok begun then tp_unix_epoch_millis begun else 0)
    (hr_completed_at_utc_ns header / 1000000)
    kInvalidLocalTransactionId 0 0 true
    (bool_decide (hr_final_state header <> tip_unused))
    false false.

Fixpoint build_slots (page_size : N) (header_images : list N) (header_slots capacity : N) (v : TipPageView) (slot : N) (count : nat)
    (st : build_state) : option (TransactionInventoryBuildView + build_state) :=
  match count with
  | O => Some (inr st)
  | S count =>
    match TipWordAt v slot with
    | None => build_slots page_size header_images header_slots capacity v (slot + 1) count st
    | Some word =>
      if decide (tw_state word = tip_unused) then build_slots page_size header_images header_slots capacity v (slot + 1) count st
      else
      let n := u64_add (tv_first_number v) slot in
      header ← HeaderOf header_images page_size header_slots n;
      match header with
      | None => build_slots page_size header_images header_slots capacity v (slot + 1) count st
      | Some header =>
        match InMemoryTransactionState (tw_state word) with
        | None => Some (inl (refused_build tpe_invalid_word (Some n)))
        | Some state =>
          if decide (capacity <= N.of_nat (length (bd_entries st))) then Some (inl (refused_build tpe_invalid_word (Some n)))
          else
          let e := built_entry n state header in
          let commits := if HasCommittedInventoryOutcome e
                         then bd_commits st ++ [(hr_commit_time_utc_ns header, length (bd_entries st))] else bd_commits st in
          build_slots page_size header_images header_slots capacity v (slot + 1) count (mkBuildState (bd_entries st ++ [e]) commits)
        end
      end
    end
  end.

Fixpoint build_pages (page_size : N) (state_images header_images : list N) (header_slots capacity next : N) (i count : nat)
    (st : build_state) : option (TransactionInventoryBuildView + build_state) :=
  match count with
  | O => Some (inr st)
  | S count =>
    image ← page_image_at page_size state_images i;
    d ← DecodeTransactionStatePage image None;
    match d with
    | inl _ => None
    | inr v =>
      built ← build_slots page_size header_images header_slots capacity v 0 (N.to_nat (slot_limit v next)) st;
      match built with
      | inl refused => Some (inl refused)
      | inr st => build_pages page_size state_images header_images header_slots capacity next (S i) count st
      end
    end
  end.

(** The order of [std::pair]. *)
Definition commit_le (a b : N * nat) : Prop := a.1 < b.1 \/ (a.1 = b.1 /\ (a.2 <= b.2)%nat).
#[export] Instance commit_le_dec : RelDecision commit_le.
Proof. intros a b. unfold commit_le. apply _. Defined.

Definition with_commit_sequence (e : TransactionInventoryEntry) (k : N) : TransactionInventoryEntry :=
  mkEntry (e_identity e) (e_state e) (e_archived_from_state e) (e_begin_unix_epoch_millis e) (e_final_unix_epoch_millis e)
    (e_begin_visible_through_local_transaction_id e) (e_begin_visible_through_commit_sequence e) k
    (e_evidence_record_required e) (e_evidence_record_written e) (e_rollback_only e) (e_stable_snapshot e).

(** Commit sequences from [k] on in the order of the commits. *)
Fixpoint number_commits (k : N) (commits : list (N * nat)) (es : list TransactionInventoryEntry) : list TransactionInventoryEntry :=
  match commits with
  | [] => es
  | (_, i) :: commits => number_commits (k + 1) commits (alter (fun e => with_commit_sequence e k) i es)
  end.

Definition BuildLocalTransactionInventoryInto (page_size : N) (state_images header_images : list N) (scratch : TransactionInventoryBuildScratch)
    : option TransactionInventoryBuildView :=
  check ← CheckTransactionInventoryImages page_size state_images header_images;
  if negb (ic_ok check) then Some (refused_build (ic_error check) (ic_transaction_order check))
  else
  let next := tc_next_transaction (ic_counters check) in
  let capacity := u64_sub next 1 in
  if decide (bs_entries scratch < capacity \/ bs_commits scratch < capacity \/ bs_indices scratch < capacity \/ bs_markers scratch < capacity)
  then Some (refused_build tpe_short_buffer None)
  else
  let header_slots := TransactionHeaderSlotsPerPage page_size in
  built ← build_pages page_size state_images header_images header_slots capacity next 0
            (N.to_nat (N.of_nat (length state_images) / page_size)) (mkBuildState [] []);
  match built with
  | inl refused => Some refused
  | inr st =>
    let committed := N.of_nat (length (bd_commits st)) in
    let entries := number_commits 1 (merge_sort commit_le (bd_commits st)) (bd_entries st) in
    let count := N.of_nat (length entries) in
    let valid := ValidateNativeTransactionInventoryConstView (mkInventory next (committed + 1) entries None)
                   (mkBacking (bs_sound scratch) 0 count count 0) in
    if decide (valid.1 <> nie_none) then Some (mkBuildView tpe_invalid_word None next (committed + 1) [])
    else Some (mkBuildView tpe_none None next (committed + 1) entries)
  end.

Record TransactionInventoryBuild := mkInventoryBuild {
  ib_error : TipPageError;
  ib_transaction_order : option N;
  ib_inventory : LocalTransactionInventory }.

Definition BuildLocalTransactionInventoryFromImages (page_size : N) (state_images header_images : list N) : option TransactionInventoryBuild :=
  check ← CheckTransactionInventoryImages page_size state_images header_images;
  if negb (ic_ok check) then Some (mkInventoryBuild (ic_error check) (ic_transaction_order check) LocalTransactionInventory_default)
  else
  let capacity := u64_sub (tc_next_transaction (ic_counters check)) 1 in
  built ← BuildLocalTransactionInventoryInto page_size state_images header_images (mkBuildScratch capacity capacity capacity capacity true);
  Some (mkInventoryBuild (bv_error built) (bv_transaction_order built)
          (if bv_ok built then mkInventory (bv_next_local_transaction_id built) (bv_next_commit_sequence built) (bv_entries built) None
           else LocalTransactionInventory_default)).

(** ** Reading the chains from the files *)

(** The outcome of a bounded read: whether it reported no error, and the bytes it
    transferred. *)
Record BoundedIoResult := mkBoundedIo { io_ok : bool; io_bytes : list N }.

Record TransactionInventoryReadRequest := mkReadRequest {
  rr_database_uuid : Uuid;
  rr_state_root : FilespaceRootReference;
  rr_files : list NativeFilespaceDevice;
  rr_batches : list (option nat);
  rr_backing : N }.

(** [ir_io] is the failing read; [ir_images] the pages read so far, at the front of the
    backing. *)
Record TransactionInventoryRead := mkInventoryRead {
  ir_check : TransactionInventoryCheck;
  ir_io : option BoundedIoResult;
  ir_page_size : N;
  ir_state_pages : nat;
  ir_header_pages : nat;
  ir_physical_bytes_read : N;
  ir_images : list N }.

Definition ir_ok (r : TransactionInventoryRead) : bool := bool_decide (ir_io r = None) && ic_ok (ir_check r).

(** Every file with its device and a batch on that device. *)
Definition files_bound (files : list NativeFilespaceDevice) (batches : list (option nat)) : bool :=
  bool_decide (batches = nf_device <$> files) && forallb (fun fs => bool_decide (is_Some (nf_device fs))) files.

(** The file of the root and its page size. *)
Definition place_root (files : list NativeFilespaceDevice) (root : FilespaceRootReference) : option (nat * N) :=
  fs ← last (filter (fun fs => nf_filespace_uuid fs = rt_filespace_uuid root) files);
  if decide (nf_page_size_profile_uuid fs <> rt_page_size_profile_uuid root) then None
  else
  profile ← FindCanonicalFilespacePageProfile (rt_page_size_profile_uuid root);
  device ← nf_device fs;
  Some (device, cfp_page_size_bytes profile).

Definition request_place (r : TransactionInventoryReadRequest) : option (nat * N) :=
  let root := rr_state_root r in
  if bool_decide (rr_files r = []) || bool_decide (length (rr_batches r) <> length (rr_files r)) ||
     bool_decide (rt_page_type root <> kTransactionStatePageType) || bool_decide (rt_kind root <> 4) ||
     bool_decide (rt_page_number root = 0) || bool_decide (rt_page_generation root = 0) ||
     negb (files_bound (rr_files r) (rr_batches r))
  then None else place_root (rr_files r) root.

(** The pages in the backing and the bytes transferred. *)
Record read_state := mkReadState { rd_images : list (list N); rd_physical : N }.

Definition read_refusal : Type := TransactionInventoryCheck * option BoundedIoResult.

Section read.
Context (read_at : nat -> N -> nat -> BoundedIoResult).

Section walk.
Context (device : nat) (page_size backing : N).

Definition read_chain_page (number : N) (stage : TransactionInventoryReadStage) (index : nat) (st : read_state)
    : (read_refusal + list N) * read_state :=
  if decide (backing / page_size <= N.of_nat (length (rd_images st))) then (inl (Finding tpe_short_buffer stage index None, None), st)
  else if decide (u64_max / page_size < number) then (inl (Finding tpe_invalid_link stage index None, None), st)
  else
  let io := read_at device (number * page_size) (N.to_nat page_size) in
  let physical := u64_add (rd_physical st) (N.of_nat (length (io_bytes io))) in
  if decide (io_ok io = false \/ N.of_nat (length (io_bytes io)) <> page_size)
  then (inl (Finding tpe_invalid_header stage index None, Some io), mkReadState (rd_images st) physical)
  else (inr (io_bytes io), mkReadState (rd_images st ++ [io_bytes io]) physical).

(** A chain from page [number] on, page [i] of the chain, with the views of its pages. *)
Fixpoint walk_pages {V} (stage : TransactionInventoryReadStage) (decode : nat -> list N -> option (tip_refusal + V))
    (sequence link : V -> N) (fuel i : nat) (number : N) (st : read_state) : option ((read_refusal + list V) * read_state) :=
  if decide (number = 0) then Some (inr [], st)
  else match fuel with
  | O => None
  | S fuel =>
    match read_chain_page number stage i st with
    | (inl refusal, st) => Some (inl refusal, st)
    | (inr image, st) =>
      d ← decode i image;
      match d with
      | inl (e, _) => Some (inl (Finding e stage i None, None), st)
      | inr v =>
        if decide (sequence v <> N.of_nat i) then Some (inl (Finding tpe_invalid_link stage i None, None), st)
        else
        rest ← walk_pages stage decode sequence link fuel (S i) (link v) st;
        match rest with
        | (inl refusal, st) => Some (inl refusal, st)
        | (inr views, st) => Some (inr (v :: views), st)
        end
      end
    end
  end.
End walk.

Definition root_binding (r : TransactionInventoryReadRequest) : NativeCommonPageHeaderBinding :=
  let root := rr_state_root r in
  mkHeaderBinding (mkBootstrapBinding (rr_database_uuid r) (rt_filespace_uuid root) (rt_page_size_profile_uuid root))
    (rt_page_number root) (rt_page_generation root) kTransactionStatePageType None.

Definition decode_state (r : TransactionInventoryReadRequest) (i : nat) (image : list N) : option (tip_refusal + TipPageView) :=
  DecodeTransactionStatePage image (if decide (i = 0%nat) then Some (root_binding r) else None).

Definition decode_header_view (i : nat) (image : list N) : option (tip_refusal + TransactionHeaderPageView) :=
  DecodeTransactionHeaderPage image None.

(** Every page read takes a page of the backing. *)
Definition read_fuel (page_size backing : N) : nat := S (N.to_nat (backing / page_size)).

Definition ReadTransactionInventory (r : TransactionInventoryReadRequest) : option TransactionInventoryRead :=
  match request_place r with
  | None => Some (mkInventoryRead (Finding tpe_invalid_header rs_request 0 None) None 0 0 0 0 [])
  | Some (device, page_size) =>
    let fuel := read_fuel page_size (rr_backing r) in
    walked ← walk_pages device page_size (rr_backing r) rs_state_chain (decode_state r) tv_tip_sequence tv_next_tip_page fuel 0
               (rt_page_number (rr_state_root r)) (mkReadState [] 0);
    match walked with
    | (inl (check, io), st) => Some (mkInventoryRead check io page_size 0 0 (rd_physical st) (mjoin (rd_images st)))
    | (inr views, st) =>
      let state_pages := length (rd_images st) in
      let header_chain := match head views with Some v => tv_header_chain_page v | None => 0 end in
      walked ← walk_pages device page_size (rr_backing r) rs_header_chain decode_header_view hv_sequence hv_next_page fuel 0 header_chain st;
      match walked with
      | (inl (check, io), st) => Some (mkInventoryRead check io page_size state_pages 0 (rd_physical st) (mjoin (rd_images st)))
      | (inr _, st) =>
        let header_pages := (length (rd_images st) - state_pages)%nat in
        let images := mjoin (rd_images st) in
        state_images ← load_bytes 0 (state_pages * N.to_nat page_size) images;
        header_images ← load_bytes (state_pages * N.to_nat page_size) (header_pages * N.to_nat page_size) images;
        check ← CheckTransactionInventoryImages page_size state_images header_images;
        Some (mkInventoryRead check None page_size state_pages header_pages (rd_physical st) images)
      end
    end
  end.

(** ** The in-place inventory in the shape of a chain view *)

(** [pi_io] is the failing read. *)
Record NativeInPlaceInventoryRead := mkInPlaceRead {
  pi_handled : bool;
  pi_chain : NativeInventoryError + NativeInventoryChainView;
  pi_io : option BoundedIoResult;
  pi_physical_bytes_read : N;
  pi_counters : option TipCounters }.

Definition not_handled : NativeInPlaceInventoryRead := mkInPlaceRead false (inl nie_invalid_reference) None 0 None.

(** A refusal after [physical] bytes were read. *)
Definition in_place_refused (e : NativeInventoryError) (io : option BoundedIoResult) (physical : N) : NativeInPlaceInventoryRead :=
  mkInPlaceRead true (inl e) io physical None.

(** The views of the pages, state pages first. *)
Fixpoint page_views (database object : Uuid) (page_size : N) (images : list N) (n count : nat)
    : option (NativeInventoryError + list NativeInventoryChainPageView) :=
  match count with
  | O => Some (inr [])
  | S count =>
    image ← page_image_at page_size images n;
    prefix ← load_bytes 0 128 image;
    header ← DecodeNativeCommonPageHeader prefix None;
    match header with
    | inl _ => Some (inl nie_binding_mismatch)
    | inr header =>
      if decide (ph_database_uuid header <> database) then Some (inl nie_binding_mismatch)
      else if decide (N.land (ph_flags header) 1 <> 0) then Some (inl nie_encrypted_requires_crypto_authority)
      else
      rest ← page_views database object page_size images (S n) count;
      Some (match rest with
            | inl e => inl e
            | inr views => inr (mkChainPage (mkNativePage header object 1 None None LocalTransactionInventory_default) image :: views)
            end)
    end
  end.

(** The number of pages to make room for, from the [Next] of the probe. *)
Definition pages_allowed (page_size next maximum : N) : NativeInventoryError + N :=
  let state_slots := TipSlotsPerPage page_size in
  let header_slots := TransactionHeaderSlotsPerPage page_size in
  if decide (next = 0 \/ state_slots = 0 \/ header_slots = 0) then inl nie_invalid_inventory
  else
  let fewest := ((next - 1) / state_slots + 1) + ((next - 1) / header_slots + 1) in
  let allowed := maximum / page_size in
  if decide (allowed < fewest) then inl nie_resource_exhausted
  else
  let pages := N.min (fewest + 2) allowed in
  if decide (u64_max / page_size < pages) then inl nie_resource_exhausted else inr pages.

(** What the head must be: the bytes probed, and the caller's image when there is one. *)
Definition head_unchanged (probe : list N) (head_image : option (list N)) (images : list N) : bool :=
  bool_decide (take (length probe) images = probe) &&
  match head_image with None => true | Some image => bool_decide (take (length image) images = image) end.

(** From the images of a successful read to the chain view. *)
Definition in_place_view (database : Uuid) (root : FilespaceRootReference) (next : N) (read : TransactionInventoryRead)
    : option (NativeInventoryError + NativeInventoryChainView) :=
  let page_size := ir_page_size read in
  let count := (ir_state_pages read + ir_header_pages read)%nat in
  state_images ← load_bytes 0 (ir_state_pages read * N.to_nat page_size) (ir_images read);
  header_images ← load_bytes (ir_state_pages read * N.to_nat page_size) (ir_header_pages read * N.to_nat page_size) (ir_images read);
  let capacity := u64_sub next 1 in
  built ← BuildLocalTransactionInventoryInto page_size state_images header_images (mkBuildScratch capacity capacity capacity capacity true);
  if negb (bv_ok built) then Some (inl nie_invalid_inventory)
  else
  let inventory := mkInventory (bv_next_local_transaction_id built) (bv_next_commit_sequence built) (bv_entries built) None in
  match ProjectValidatedLocalHorizons inventory [] with
  | inl _ => Some (inl nie_invalid_inventory)
  | inr horizons =>
    views ← page_views database (rt_object_uuid root) page_size (ir_images read) 0 count;
    Some (match views with
          | inl e => inl e
          | inr views => inr (mkChainView views inventory horizons ((N.of_nat count * page_size) mod u64_modulus))
          end)
  end.

(** [probe_at] is what the probe of the head is answered, before the chain is read; a head
    image the caller hands over stands in for it. *)
Context (probe_at : nat -> N -> nat -> BoundedIoResult).

(** The probe: the head's first 512 bytes and the bytes read for them. *)
Definition probe_head (device : nat) (page_size : N) (root : FilespaceRootReference) (head_image : option (list N))
    : NativeInPlaceInventoryRead + list N * N :=
  match head_image with
  | Some image =>
    if decide (N.of_nat (length image) <> page_size) then inl not_handled else inr (take kTransactionStateWordsOffset image, 0)
  | None =>
    let io := probe_at device (rt_page_number root * page_size) kTransactionStateWordsOffset in
    let physical := N.of_nat (length (io_bytes io)) in
    if decide (io_ok io = false \/ length (io_bytes io) <> kTransactionStateWordsOffset)
    then inl (in_place_refused nie_io_failure (Some io) physical) else inr (io_bytes io, physical)
  end.

Definition ReadNativeInPlaceInventoryBacked (database : Uuid) (files : list NativeFilespaceDevice) (root : FilespaceRootReference)
    (maximum : N) (batches : list (option nat)) (head_image : option (list N)) : option NativeInPlaceInventoryRead :=
  if bool_decide (files = []) || bool_decide (length batches <> length files) || bool_decide (rt_kind root <> 4) ||
     bool_decide (rt_page_type root <> kTransactionStatePageType) || negb (files_bound files batches)
  then Some not_handled
  else match place_root files root with
  | None => Some not_handled
  | Some (device, page_size) =>
    if decide (u64_max / page_size < rt_page_number root) then Some not_handled
    else match probe_head device page_size root head_image with
    | inl answer => Some answer
    | inr (probe, probed) =>
      magic ← load_bytes kMagic 8 probe;
      if decide (magic <> kTransactionStatePageMagic) then Some (mkInPlaceRead false (inl nie_invalid_reference) None probed None)
      else
      prefix ← load_bytes 0 128 probe;
      first ← DecodeNativeCommonPageHeader prefix None;
      match first with
      | inl _ => Some (in_place_refused nie_invalid_header None probed)
      | inr first =>
        if decide (N.land (ph_flags first) 1 <> 0) then Some (in_place_refused nie_encrypted_requires_crypto_authority None probed)
        else
        next ← LoadLittle64 kNext probe;
        match pages_allowed page_size next maximum with
        | inl e => Some (in_place_refused e None probed)
        | inr pages =>
          read ← ReadTransactionInventory (mkReadRequest database root files batches (pages * page_size));
          let physical := u64_add probed (ir_physical_bytes_read read) in
          match ir_io read with
          | Some io => Some (in_place_refused nie_io_failure (Some io) physical)
          | None =>
            if negb (ir_ok read)
            then Some (in_place_refused (if decide (ic_error (ir_check read) = tpe_short_buffer) then nie_resource_exhausted else nie_invalid_inventory) None physical)
            else if negb (head_unchanged probe head_image (ir_images read)) then Some (in_place_refused nie_binding_mismatch None physical)
            else
            view ← in_place_view database root next read;
            Some (match view with
                  | inl e => in_place_refused e None physical
                  | inr view => mkInPlaceRead true (inr view) None physical (Some (ic_counters (ir_check read)))
                  end)
          end
        end
      end
    end
  end.
End read.
