(* ===== verification/InventoryReaderFacts.v ===== *)
(** * Facts about reading the in-place inventory

    What the check of the two chains accepts, as a property of the pages the images hold. *)

From S2P Require Import Prelude Platform Uuid TransactionState Inventory Bytes PageFrame PageFrameFacts NativeInventoryPage.
From S2P Require Import TipPage TipPageFacts TipEdits TipRestart TransactionHeader TransactionHeaderFacts TransactionHeaderClaims.
From S2P Require Import FilespacePageZero InventoryChain InventoryReader.

(** ** The inventory as pages *)

(** The images are those of the pages, one after another. *)
Definition images_of {A} (decode : list N -> option A) (page_size : N) (images : list N) (xs : list A) : Prop :=
  length images = (length xs * N.to_nat page_size)%nat /\
  forall i x, xs !! i = Some x -> decode (slice (i * N.to_nat page_size) (N.to_nat page_size) images) = Some x.

(** Each page is the one its predecessor links to, and the last links to none. *)
Fixpoint linked (link : N) (chain : list (N * N)) : Prop :=
  match chain with
  | [] => link = 0
  | (number, next) :: chain => number = link /\ linked next chain
  end.

Definition state_link (p : tip_page) : N * N := (ph_page_number (tp_header p), tp_next_page p).
Definition header_link_of (h : header_page) : N * N := (ph_page_number (hp_header h), hp_next_page h).

(** The header of a number. *)
Definition header_of_number (headers : list header_page) (n : N) : option TransactionHeaderRecord :=
  first ← head headers;
  let slots := N.of_nat (length (hp_slots first)) in
  page ← headers !! N.to_nat (n / slots);
  mjoin (hp_slots page !! N.to_nat (n mod slots)).

(** A used word and the header of its number tell the same story. *)
Record agrees (w : TipStateWord) (h : option TransactionHeaderRecord) : Prop := {
  ag_missing : h = None -> tw_state w = tip_dead /\ N.land (tw_flags w) kTipFlagHasDetailRecord = 0;
  ag_final : tw_state w = tip_committed \/ tw_state w = tip_rolled_back -> exists r, h = Some r /\ hr_final_state r = tw_state w;
  ag_archived : tw_state w = tip_archived -> exists r, h = Some r /\ hr_final_state r <> tip_unused;
  ag_undecided : tw_state w = tip_prepared \/ tw_state w = tip_limbo -> exists r, h = Some r /\ hr_final_state r = tip_unused }.

(** The first number of slot [i] of a header page. *)
Definition header_number (h : header_page) (i : nat) : N := header_first h + N.of_nat i.

(** The state chain: sequences from zero on, one place, linked to its end, nothing at or
    beyond [Next], every number below [Next] on a page. *)
Record state_legal (pages : list tip_page) (c : TipCounters) : Prop := {
  sl_counters : tp_counters <$> head pages = Some (Some c);
  sl_sequences : forall i p, pages !! i = Some p -> tp_sequence p = N.of_nat i;
  sl_place : forall p first, p ∈ pages -> head pages = Some first -> SamePlace (tp_header p) (tp_header first) = true;
  sl_linked : forall first, head pages = Some first -> linked (ph_page_number (tp_header first)) (state_link <$> pages);
  sl_below : Forall (below_next (tc_next_transaction c)) (tail pages);
  sl_covered : forall p, last pages = Some p -> tc_next_transaction c <= number_of p (length (tp_words p)) }.

(** No header at or beyond [Next]. *)
Definition headers_below (next : N) (h : header_page) : Prop :=
  forall i r, hp_slots h !! i = Some (Some r) -> header_number h i < next.

(** The header chain the first state page points to. *)
Record headers_legal (first : tip_page) (next : N) (headers : list header_page) : Prop := {
  hs_some : headers <> [];
  hs_sequences : forall i h, headers !! i = Some h -> hp_sequence h = N.of_nat i;
  hs_place : forall h, h ∈ headers -> SamePlace (hp_header h) (tp_header first) = true;
  hs_linked : linked (tp_header_chain first) (header_link_of <$> headers);
  hs_below : forall h, h ∈ headers -> headers_below next h }.

Record inventory_legal (pages : list tip_page) (headers : list header_page) (c : TipCounters) : Prop := {
  lg_state : state_legal pages c;
  lg_headers : forall first, head pages = Some first -> headers_legal first (tc_next_transaction c) headers;
  lg_agree : forall p i w, p ∈ pages -> tp_words p !! i = Some w -> tw_state w <> tip_unused -> number_of p i < tc_next_transaction c ->
               agrees w (header_of_number headers (number_of p i)) }.

Lemma slot_agrees_iff w h : slot_agrees w h = true <-> agrees w h.
Proof.
  unfold slot_agrees. destruct h as [r|]; cbn [bool_decide]; rewrite ?bool_decide_eq_true_2, ?bool_decide_eq_false_2 by (by eexists || by intros []); cbn [negb andb].
  - split.
    + intros H. split; [done|..]; intros E; try destruct E as [E|E]; rewrite E in H; try apply bool_decide_eq_true in H; exists r; rewrite ?E; done.
    + intros [_ H2 H3 H4]. destruct (tw_state w); try done; apply bool_decide_eq_true.
      * by destruct H4 as (? & [= <-] & ?); [by left|].
      * by destruct H2 as (? & [= <-] & ?); [by left|].
      * by destruct H2 as (? & [= <-] & ?); [by right|].
      * by destruct H4 as (? & [= <-] & ?); [by right|].
      * by destruct H3 as (? & [= <-] & ?).
  - split.
    + intros H. assert (Hok : tw_state w = tip_dead /\ N.land (tw_flags w) kTipFlagHasDetailRecord = 0).
      { destruct (bool_decide (N.land _ _ <> 0)) eqn:E1; cbn in H; [by destruct (tw_state w)|].
        apply bool_decide_eq_false in E1. apply dec_stable in E1. split; [|done].
        destruct (bool_decide (tw_state w <> tip_dead)) eqn:E2; [by destruct (tw_state w)|]. apply bool_decide_eq_false in E2. by apply dec_stable. }
      split; [done|..]; destruct Hok as [E _]; rewrite E; naive_solver.
    + intros [H1 _ _ _]. destruct (H1 eq_refl) as [E1 E2]. rewrite E1, E2. done.
Qed.

(** ** Pages of a run of images *)

Definition page_slice (page_size : N) (images : list N) (i : nat) : list N :=
  slice (i * N.to_nat page_size) (N.to_nat page_size) images.

Lemma page_image_some page_size images n i :
  length images = (n * N.to_nat page_size)%nat -> (i < n)%nat -> page_image_at page_size images i = Some (page_slice page_size images i).
Proof.
  intros Hl Hi. unfold page_image_at. apply load_bytes_some. rewrite Hl.
  replace (i * N.to_nat page_size + N.to_nat page_size)%nat with (S i * N.to_nat page_size)%nat by lia. apply Nat.mul_le_mono_r. lia.
Qed.

Lemma page_slice_bytes page_size images i : Forall is_byte images -> Forall is_byte (page_slice page_size images i).
Proof. apply slice_bytes. Qed.

Lemma sequence_fits l p i : page_of l = Some p -> tp_sequence p = N.of_nat i -> N.of_nat i < 2 ^ 48 -> numbers_fit p.
Proof.
  intros H1 H2 Hi. pose proof (page_words_small _ _ H1). unfold numbers_fit, is_u64, number_of. rewrite u64_modulus_val, H2.
  assert (N.of_nat i * N.of_nat (length (tp_words p)) <= 2 ^ 48 * 32768) by (apply N.mul_le_mono; lia). lia.
Qed.

(** ** The state chain *)

Section state_chain_check.
Context (page_size : N) (images : list N) (n : nat).
Context (Hb : Forall is_byte images) (Hlen : length images = (n * N.to_nat page_size)%nat) (Hn : N.of_nat n < 2 ^ 48).
Context (head_view : TipPageView) (next : N) (Hnext : next <> 0).

(** The pages from [i] on, [link] the link of the page before. *)
Fixpoint state_run (i : nat) (link : option N) (pages : list tip_page) : Prop :=
  match pages with
  | [] => True
  | p :: pages =>
    page_of (page_slice page_size images i) = Some p /\ tp_sequence p = N.of_nat i /\
    SamePlace (tp_header p) (tv_header head_view) = true /\
    match link with None => True | Some l => l = ph_page_number (tp_header p) /\ below_next next p end /\
    state_run (S i) (Some (tp_next_page p)) pages
  end.

Definition link_before (i : nat) (last : TipPageView) : option N := if decide (i = 0%nat) then None else Some (tv_next_tip_page last).

Lemma check_state_chain_spec count i last :
  (i + count = n)%nat ->
  exists r, check_state_chain page_size images head_view next i count last = Some r /\
    match r with
    | inl f => ic_error f <> tpe_none /\ forall pages, length pages = count -> ~ state_run i (link_before i last) pages
    | inr v => (exists pages, length pages = count /\ state_run i (link_before i last) pages) /\
               v = match count with O => last | S _ => tip_view (page_slice page_size images (n - 1)) end
    end.
Proof.
  revert i last. induction count as [|count IH]; intros i last Hi; cbn [check_state_chain].
  { exists (inr last). split; [done|]. split; [by exists []|done]. }
  rewrite (page_image_some page_size images n) by (done || lia). cbn [mbind option_bind].
  pose proof (page_slice_bytes page_size images i Hb) as Hbi.
  destruct (decode_page (page_slice page_size images i)) as (r & -> & Hr). cbn [mbind option_bind]. destruct r as [[e s]|v].
  { eexists. split; [done|]. split; [apply Hr|]. intros [|p pages] Hc H; [done|]. cbn in H. destruct Hr as [_ Hr]. rewrite Hr in H. by destruct H. }
  destruct Hr as [-> [p Hp]]. destruct (view_page _ _ Hp) as (-> & -> & Hnp & _).
  assert (Hstep : forall pages link, state_run i link pages -> match pages with [] => True | q :: _ => q = p end).
  { intros [|q pages] link H; [done|]. cbn in H. rewrite Hp in H. by destruct H as ([= <-] & _). }
  case_decide as H1.
  { eexists. split; [done|]. split; [done|]. intros [|q pages] Hc H; [done|]. pose proof (Hstep _ _ H) as ->. cbn in H. destruct H as (_ & H2 & H3 & _).
    destruct H1 as [H1|H1]; congruence. }
  apply Decidable.not_or in H1 as [H1 H1']. apply dec_stable in H1. apply not_false_iff_true in H1'.
  assert (Hfit : numbers_fit p) by (apply (sequence_fits _ _ _ Hp H1); lia).
  assert (Hcont : match link_before i last with None => True | Some l => l = ph_page_number (tp_header p) /\ below_next next p end ->
    exists r, check_state_chain page_size images head_view next (S i) count (tip_view (page_slice page_size images i)) = Some r /\
    match r with
    | inl f => ic_error f <> tpe_none /\ forall pages, length pages = S count -> ~ state_run i (link_before i last) pages
    | inr v => (exists pages, length pages = S count /\ state_run i (link_before i last) pages) /\
               v = tip_view (page_slice page_size images (n - 1))
    end).
  { intros Hlink. destruct (IH (S i) (tip_view (page_slice page_size images i))) as (r & -> & Hr); [lia|]. exists r. split; [done|].
    unfold link_before in Hr at 1 2. rewrite (decide_False (P := S i = 0%nat)) in Hr by done. rewrite Hnp in Hr. destruct r as [f|v].
    - split; [apply Hr|]. intros [|q pages] Hc H; [done|]. pose proof (Hstep _ _ H) as ->. cbn in H. destruct H as (_ & _ & _ & _ & H).
      apply (proj2 Hr pages); [by injection Hc|done].
    - destruct Hr as [(pages & Hc & H) Hv]. split.
      + exists (p :: pages). split; [cbn; by rewrite Hc|]. by cbn.
      + rewrite Hv. destruct count; [|done]. by replace (n - 1)%nat with i by lia. }
  destruct (decide (i = 0%nat)) as [Hz|Hz]; [apply Hcont; unfold link_before; by rewrite decide_True|].
  assert (Hlb : link_before i last = Some (tv_next_tip_page last)) by (unfold link_before; by rewrite decide_False).
  case_decide as H2.
  { eexists. split; [done|]. split; [done|]. intros [|q pages] Hc H; [done|]. pose proof (Hstep _ _ H) as ->. rewrite Hlb in H. cbn in H.
    by destruct H as (_ & _ & _ & [? _] & _). }
  destruct (slots_below_spec _ p next Hbi Hp Hfit Hnext) as (r & -> & Hr). cbn [mbind option_bind]. destruct r as [[e s]|v].
  - destruct Hr as (-> & [slot ->] & Hr). cbn [mbind option_bind]. eexists. split; [done|]. split; [done|].
    intros [|q pages] Hc H; [done|]. pose proof (Hstep _ _ H) as ->. rewrite Hlb in H. cbn in H. by destruct H as (_ & _ & _ & [_ ?] & _).
  - apply Hcont. by rewrite Hlb.
Qed.

Lemma state_run_unique i link pages pages' :
  length pages = length pages' -> state_run i link pages -> state_run i link pages' -> pages = pages'.
Proof.
  clear Hb Hlen Hn Hnext n.
  revert i link pages'. induction pages as [|p pages IH]; intros i link [|p' pages'] Hc H H'; try done. cbn in H, H'.
  destruct H as (H1 & _ & _ & _ & H). destruct H' as (H1' & _ & _ & _ & H'). rewrite H1 in H1'. apply (inj Some) in H1' as ->.
  f_equal. by eapply IH; [injection Hc| |].
Qed.

Lemma state_run_iff i link pages :
  state_run i link pages <->
  (forall k p, pages !! k = Some p -> page_of (page_slice page_size images (i + k)) = Some p /\ tp_sequence p = N.of_nat (i + k) /\
     SamePlace (tp_header p) (tv_header head_view) = true) /\
  (forall k p q, pages !! k = Some p -> pages !! S k = Some q -> tp_next_page p = ph_page_number (tp_header q)) /\
  (forall l p, link = Some l -> head pages = Some p -> l = ph_page_number (tp_header p)) /\
  Forall (below_next next) (match link with Some _ => pages | None => tail pages end).
Proof.
  clear Hb Hlen Hn Hnext n.
  revert i link. induction pages as [|p pages IH]; intros i link; cbn [state_run].
  { split; [|done]. intros _. split_and!; try done. destruct link; constructor. }
  rewrite IH. split.
  - intros (H1 & H2 & H3 & H4 & H5 & H6 & H7 & H8). split_and!.
    + intros [|k] q Hk; [injection Hk as <-; by rewrite Nat.add_0_r|]. cbn in Hk. destruct (H5 k q Hk) as (? & ? & ?).
      by replace (i + S k)%nat with (S i + k)%nat by lia.
    + intros [|k] q q' Hk Hk'; [|by apply (H6 k)]. injection Hk as <-. cbn in Hk'. apply (H7 _ q' eq_refl).
      destruct pages; [done|]. by injection Hk' as ->.
    + intros l q -> [= <-]. by destruct H4.
    + destruct link; cbn [tail]; [constructor; [apply H4|done]|done].
  - intros (H1 & H2 & H3 & H4). destruct (H1 0%nat p eq_refl) as (G1 & G2 & G3). rewrite Nat.add_0_r in G1, G2. split_and!; try done.
    + destruct link as [l|]; [|done]. split; [by apply (H3 l p)|]. by apply Forall_cons in H4 as [? _].
    + intros k q Hk. destruct (H1 (S k) q Hk) as (? & ? & ?). by replace (S i + k)%nat with (i + S k)%nat by lia.
    + intros k q q' Hk Hk'. by apply (H2 (S k)).
    + intros l q [= <-] Hq. apply (H2 0%nat); [done|]. destruct pages; [done|]. by injection Hq as ->.
    + destruct link; [by apply Forall_cons in H4 as [_ ?]|done].
Qed.
End state_chain_check.

(** ** The header chain *)

Lemma decode_header_image l :
  exists r, DecodeTransactionHeaderPage l None = Some r /\
    match r with inl (e, _) => e <> tpe_none /\ header_page_of l = None | inr v => v = header_view l /\ exists h, header_page_of l = Some h end.
Proof.
  destruct (decode_header_page_iff l None) as (r & Hd & He & Hr). exists r. split; [done|]. destruct r as [[e s]|v].
  - split; [done|]. unfold header_page_of. by rewrite Hd.
  - destruct (proj1 (Hr v) eq_refl) as [[H1 H2] ->]. split; [done|]. exists (header_page_at l). by apply header_page_of_iff.
Qed.

Definition header_numbers_fit (h : header_page) : Prop := is_u64 (header_number h (length (hp_slots h))).

Lemma header_view_page l h :
  header_page_of l = Some h ->
  hv_sequence (header_view l) = hp_sequence h /\ hv_header (header_view l) = hp_header h /\ hv_next_page (header_view l) = hp_next_page h /\
  hv_slots (header_view l) = N.of_nat (length (hp_slots h)) /\ hv_first_number (header_view l) = header_first h /\
  forall i r, hp_slots h !! i = Some r -> TransactionHeaderAt (header_view l) (N.of_nat i) = Some r.
Proof.
  intros H. apply header_page_of_iff in H as (Hf & Hok & ->). cbn [hp_sequence hp_header hp_next_page hp_slots header_page_at].
  unfold header_first. cbn [hp_sequence hp_slots header_page_at]. rewrite length_records_at, N2Nat.id. split_and!; try done.
  intros i r Hi. assert (Hs : N.of_nat i < header_slots_at l) by (apply lookup_lt_Some in Hi; rewrite length_records_at in Hi; lia).
  rewrite header_at_view by (done || apply (hk_family _ _ Hf)). pose proof (lookup_records_at l _ Hs) as Hr. rewrite Nat2N.id, Hi in Hr. congruence.
Qed.

Lemma header_slots_small l h : header_page_of l = Some h -> 0 < N.of_nat (length (hp_slots h)) < 2 ^ 14.
Proof.
  intros H. apply header_page_of_iff in H as (Hf & _ & ->). cbn [hp_slots header_page_at]. rewrite length_records_at, N2Nat.id.
  pose proof (ho_slots _ (hk_family _ _ Hf)) as Hs. destruct (header_slots_per_page _ Hs) as [Hp _]. fold (header_slots_at l) in Hp.
  destruct (hk_header _ _ Hf) as [_ He]. pose proof (header_page_size _ (header_error_encodes _ _ He)) as Hsz. rewrite header_size_at in Hsz. lia.
Qed.

Lemma header_sequence_fits l h i : header_page_of l = Some h -> hp_sequence h = N.of_nat i -> N.of_nat i < 2 ^ 48 -> header_numbers_fit h.
Proof.
  intros H1 H2 Hi. pose proof (header_slots_small _ _ H1). unfold header_numbers_fit, is_u64, header_number, header_first. rewrite u64_modulus_val, H2.
  assert (N.of_nat i * N.of_nat (length (hp_slots h)) <= 2 ^ 48 * 2 ^ 14) by (apply N.mul_le_mono; lia). lia.
Qed.

Lemma header_beyond_spec l h next count i :
  header_page_of l = Some h -> header_numbers_fit h -> (i + count = length (hp_slots h))%nat ->
  exists r, header_beyond (header_view l) next (N.of_nat i) count = Some r /\
    (r = None <-> forall k x, (i <= k)%nat -> hp_slots h !! k = Some (Some x) -> header_number h k < next).
Proof.
  intros Hp Hfit. destruct (header_view_page _ _ Hp) as (_ & _ & _ & _ & Hfirst & Hat). revert i.
  induction count as [|count IH]; intros i Hi; cbn [header_beyond].
  { exists None. split; [done|]. split; [|done]. intros _ k x Hk Hx. apply lookup_lt_Some in Hx. lia. }
  assert (Hadd : u64_add (hv_first_number (header_view l)) (N.of_nat i) = header_number h i).
  { rewrite Hfirst. apply u64_add_small. unfold header_numbers_fit, is_u64, header_number in Hfit. lia. }
  rewrite Hadd. replace (N.of_nat i + 1) with (N.of_nat (S i)) by lia. destruct (IH (S i)) as (r & Hr & Hiff); [lia|].
  destruct (hp_slots h !! i) as [x|] eqn:Hx; [|apply lookup_ge_None in Hx; lia].
  assert (Hstep : (header_number h i < next \/ x = None) ->
    ((forall k y, (S i <= k)%nat -> hp_slots h !! k = Some (Some y) -> header_number h k < next) <->
     (forall k y, (i <= k)%nat -> hp_slots h !! k = Some (Some y) -> header_number h k < next))).
  { intros Hc. split; intros H k y Hk Hy; [|apply (H k y); [lia|done]]. destruct (decide (k = i)) as [->|Hne]; [|apply (H k y); [lia|done]].
    rewrite Hx in Hy. injection Hy as ->. by destruct Hc. }
  case_decide as Hlt; [exists r; split; [done|]; rewrite Hiff; apply Hstep; by left|].
  rewrite (Hat i x Hx). cbn [mbind option_bind]. destruct x as [y|].
  - eexists. split; [done|]. split; [done|]. intros H. exfalso. by apply Hlt, (H i y).
  - exists r. split; [done|]. rewrite Hiff. apply Hstep. by right.
Qed.

Section header_chain_check.
Context (page_size : N) (images : list N) (n : nat).
Context (Hlen : length images = (n * N.to_nat page_size)%nat) (Hn : N.of_nat n < 2 ^ 48).
Context (head_view : TipPageView) (next : N).

Fixpoint header_run (i : nat) (link : N) (headers : list header_page) : Prop :=
  match headers with
  | [] => True
  | h :: headers =>
    header_page_of (page_slice page_size images i) = Some h /\ hp_sequence h = N.of_nat i /\
    SamePlace (hp_header h) (tv_header head_view) = true /\ ph_page_number (hp_header h) = link /\ headers_below next h /\
    header_run (S i) (hp_next_page h) headers
  end.

Definition last_slots (slots : N) (headers : list header_page) : N :=
  match last headers with Some h => N.of_nat (length (hp_slots h)) | None => slots end.
Definition last_link (link : N) (headers : list header_page) : N :=
  match last headers with Some h => hp_next_page h | None => link end.

Lemma check_header_chain_spec count i slots link :
  (i + count = n)%nat ->
  exists r, check_header_chain page_size images head_view next i count slots link = Some r /\
    match r with
    | inl f => ic_error f <> tpe_none /\ forall headers, length headers = count -> ~ header_run i link headers
    | inr (s, k) => exists headers, length headers = count /\ header_run i link headers /\ s = last_slots slots headers /\ k = last_link link headers
    end.
Proof.
  revert i slots link. induction count as [|count IH]; intros i slots link Hi; cbn [check_header_chain].
  { exists (inr (slots, link)). split; [done|]. by exists []. }
  rewrite (page_image_some page_size images n) by (done || lia). cbn [mbind option_bind].
  destruct (decode_header_image (page_slice page_size images i)) as (r & -> & Hr). cbn [mbind option_bind]. destruct r as [[e s]|v].
  { eexists. split; [done|]. split; [apply Hr|]. intros [|h headers] Hc H; [done|]. cbn in H. destruct Hr as [_ Hr]. rewrite Hr in H. by destruct H. }
  destruct Hr as [-> [h Hp]]. destruct (header_view_page _ _ Hp) as (-> & -> & Hnp & Hsl & Hfirst & _).
  assert (Hstep : forall headers k, header_run i k headers -> match headers with [] => True | q :: _ => q = h end).
  { intros [|q headers] k H; [done|]. cbn in H. rewrite Hp in H. by destruct H as ([= <-] & _). }
  case_decide as H1.
  { eexists. split; [done|]. split; [done|]. intros [|q headers] Hc H; [done|]. pose proof (Hstep _ _ H) as ->. cbn in H. destruct H as (_ & H2 & H3 & H4 & _).
    destruct H1 as [H1|[H1|H1]]; congruence. }
  apply Decidable.not_or in H1 as [H1 H1']. apply Decidable.not_or in H1' as [H2 H3]. apply dec_stable in H1, H3. apply not_false_iff_true in H2.
  assert (Hfit : header_numbers_fit h) by (apply (header_sequence_fits _ _ _ Hp H1); lia).
  rewrite Hsl, Hnp, Nat2N.id. change 0 with (N.of_nat 0).
  destruct (header_beyond_spec _ h next (length (hp_slots h)) 0 Hp Hfit eq_refl) as (r & -> & Hr).
  cbn [mbind option_bind]. destruct r as [slot|].
  - eexists. split; [done|]. split; [done|]. intros [|q headers] Hc H; [done|]. pose proof (Hstep _ _ H) as ->. cbn in H.
    destruct H as (_ & _ & _ & _ & H & _). discriminate (proj2 Hr). intros k x _. apply H.
  - assert (Hbelow : headers_below next h) by (intros k x; apply (proj1 Hr eq_refl); lia).
    destruct (IH (S i) (N.of_nat (length (hp_slots h))) (hp_next_page h)) as (r & -> & Hrest); [lia|]. exists r. split; [done|].
    destruct r as [f|[s k]].
    + split; [apply Hrest|]. intros [|q headers] Hc H; [done|]. pose proof (Hstep _ _ H) as ->. cbn in H. destruct H as (_ & _ & _ & _ & _ & H).
      apply (proj2 Hrest headers); [by injection Hc|done].
    + destruct Hrest as (headers & Hc & H & -> & ->). exists (h :: headers). split; [cbn; by rewrite Hc|]. split; [by cbn|].
      unfold last_slots, last_link. rewrite last_cons. by destruct (last headers).
Qed.

Lemma header_run_iff i link headers :
  header_run i link headers /\ last_link link headers = 0 <->
  (forall k h, headers !! k = Some h -> header_page_of (page_slice page_size images (i + k)) = Some h /\ hp_sequence h = N.of_nat (i + k) /\
     SamePlace (hp_header h) (tv_header head_view) = true /\ headers_below next h) /\
  linked link (header_link_of <$> headers).
Proof.
  clear Hlen Hn n.
  revert i link. induction headers as [|h headers IH]; intros i link; cbn [header_run fmap list_fmap linked].
  { unfold last_link. cbn. split; [by intros [_ ?]|by intros [_ ?]]. }
  assert (Hlast : last_link link (h :: headers) = last_link (hp_next_page h) headers).
  { unfold last_link. rewrite last_cons. by destruct (last headers). }
  rewrite Hlast. cbn [header_link_of]. split.
  - intros [(H1 & H2 & H3 & H4 & H5 & H6) H7]. destruct (proj1 (IH (S i) (hp_next_page h)) (conj H6 H7)) as [G1 G2]. split; [|done].
    intros [|k] q Hk; [injection Hk as <-; by rewrite Nat.add_0_r|]. cbn in Hk. replace (i + S k)%nat with (S i + k)%nat by lia. by apply G1.
  - intros [H1 [H2 H3]]. destruct (H1 0%nat h eq_refl) as (G1 & G2 & G3 & G4). rewrite Nat.add_0_r in G1, G2.
    assert (Hrest : header_run (S i) (hp_next_page h) headers /\ last_link (hp_next_page h) headers = 0).
    { apply IH. split; [|done]. intros k q Hk. replace (S i + k)%nat with (i + S k)%nat by lia. by apply (H1 (S k)). }
    destruct Hrest. by split_and!.
Qed.
End header_chain_check.

(** ** The header of a number *)

Lemma slice_within a m b k (l : list N) : (b + k <= m)%nat -> slice b k (slice a m l) = slice (a + b) k l.
Proof. intros H. unfold slice. rewrite skipn_firstn_comm, take_take, drop_drop. f_equal. lia. Qed.

Lemma images_of_page {A} (decode : list N -> option A) page_size images xs i x :
  images_of decode page_size images xs -> xs !! i = Some x ->
  decode (page_slice page_size images i) = Some x /\ length (page_slice page_size images i) = N.to_nat page_size.
Proof.
  intros [Hl Hx] Hi. split; [by apply Hx|]. unfold page_slice. apply length_slice. rewrite Hl. apply lookup_lt_Some in Hi.
  replace (i * N.to_nat page_size + N.to_nat page_size)%nat with (S i * N.to_nat page_size)%nat by lia. apply Nat.mul_le_mono_r. lia.
Qed.

(** All pages have the size of the run. *)
Lemma header_page_slots l h : header_page_of l = Some h -> N.of_nat (length (hp_slots h)) = TransactionHeaderSlotsPerPage (N.of_nat (length l)).
Proof.
  intros H. apply header_page_of_iff in H as (Hf & _ & ->). cbn [hp_slots header_page_at]. rewrite length_records_at, N2Nat.id.
  by rewrite (ho_length _ (hk_family _ _ Hf)).
Qed.
Lemma state_page_slots l p : page_of l = Some p -> N.of_nat (length (tp_words p)) = TipSlotsPerPage (N.of_nat (length l)).
Proof.
  intros H. apply page_of_iff in H as (Hf & _ & ->). cbn [tp_words page_at]. rewrite length_words_at, N2Nat.id.
  by rewrite (fo_length _ (fk_family _ _ Hf)).
Qed.

Section header_numbers.
Context (page_size : N) (images : list N) (headers : list header_page).
Context (Him : images_of header_page_of page_size images headers) (Hne : headers <> []).
Let slots := TransactionHeaderSlotsPerPage page_size.

Lemma headers_slots h : h ∈ headers -> N.of_nat (length (hp_slots h)) = slots.
Proof.
  intros Hh. apply list_elem_of_lookup in Hh as [i Hi]. destruct (images_of_page _ _ _ _ _ _ Him Hi) as [H1 H2].
  rewrite (header_page_slots _ _ H1), H2, N2Nat.id. done.
Qed.

Lemma header_slots_positive : 0 < slots /\ 0 < page_size.
Proof.
  destruct headers as [|h hs]; [done|]. destruct (images_of_page _ _ _ _ 0%nat h Him eq_refl) as [H1 H2].
  pose proof (header_slots_small _ _ H1) as Hs. rewrite (header_page_slots _ _ H1), H2, N2Nat.id in Hs. fold slots in Hs.
  split; [lia|]. destruct (decide (page_size = 0)) as [->|]; [|lia]. exfalso. by vm_compute in Hs.
Qed.

Lemma headers_count : N.of_nat (length images) / page_size = N.of_nat (length headers).
Proof. destruct header_slots_positive. rewrite (proj1 Him), Nat2N.inj_mul, N2Nat.id. apply N.div_mul. lia. Qed.

Lemma header_of_number_lookup n :
  header_of_number headers n =
  (h ← headers !! N.to_nat (n / slots); mjoin (hp_slots h !! N.to_nat (n mod slots))).
Proof.
  assert (Hh : exists h, head headers = Some h /\ h ∈ headers) by (destruct headers as [|h hs]; [done|exists h; set_solver]).
  destruct Hh as (h & Hh & Hin). unfold header_of_number. rewrite Hh. cbn [mbind option_bind]. by rewrite (headers_slots h Hin).
Qed.

Lemma header_of_spec n : HeaderOf images page_size slots n = Some (header_of_number headers n).
Proof.
  destruct header_slots_positive as [Hs Hps]. unfold HeaderOf. rewrite decide_False by lia. rewrite headers_count, header_of_number_lookup.
  pose proof (N.mod_lt n slots ltac:(lia)) as Hm. case_decide as Hlt.
  { rewrite lookup_ge_None_2 by lia. done. }
  destruct (lookup_lt_is_Some_2 headers (N.to_nat (n / slots))) as [h Hh]; [lia|]. rewrite Hh. cbn [mbind option_bind].
  destruct (images_of_page _ _ _ _ _ _ Him Hh) as [H1 H2]. pose proof (headers_slots h ltac:(by apply list_elem_of_lookup_2 in Hh)) as Hc.
  destruct (header_view_page _ _ H1) as (_ & _ & _ & Hvs & _ & Hat).
  destruct (lookup_lt_is_Some_2 (hp_slots h) (N.to_nat (n mod slots))) as [r Hr]; [lia|]. rewrite Hr. cbn [mjoin option_join].
  specialize (Hat _ _ Hr). rewrite N2Nat.id in Hat. unfold TransactionHeaderAt in Hat. cbn [hv_slots hv_image header_view] in Hat.
  apply header_page_of_iff in H1 as (Hf & _ & _). pose proof (hk_family _ _ Hf) as Hfam.
  assert (Hslot : n mod slots < header_slots_at (page_slice page_size images (N.to_nat (n / slots)))).
  { cbn [header_view hv_slots] in Hvs. rewrite Hvs. lia. }
  pose proof (record_room _ _ Hfam Hslot) as Hroom. rewrite H2 in Hroom.
  rewrite decide_False in Hat by (unfold kTransactionHeaderRecordBytes; lia). 
  rewrite load_bytes_some in Hat by (unfold kTransactionHeaderRecordBytes; lia). cbn [mbind option_bind] in Hat.
  unfold page_slice in Hat. rewrite slice_within in Hat by (unfold kTransactionHeaderRecordBytes; lia).
  assert (Hoff : (N.to_nat (n / slots) * N.to_nat page_size + RecordOffset (n mod slots))%nat =
    N.to_nat (n / slots * page_size + N.of_nat kTransactionHeaderPageRecordsOffset + N.of_nat kTransactionHeaderRecordBytes * (n mod slots))).
  { unfold RecordOffset. lia. }
  rewrite Hoff in Hat. rewrite load_bytes_some; [exact Hat|]. rewrite <- Hoff, (proj1 Him).
  apply lookup_lt_Some in Hh. unfold kTransactionHeaderRecordBytes.
  transitivity (S (N.to_nat (n / slots)) * N.to_nat page_size)%nat; [lia|]. apply Nat.mul_le_mono_r. lia.
Qed.
End header_numbers.

(** ** The cross-check *)

Section cross_check.
Context (page_size : N) (header_images : list N) (headers : list header_page).
Context (Him : images_of header_page_of page_size header_images headers) (Hne : headers <> []).
Let slots := TransactionHeaderSlotsPerPage page_size.

Lemma cross_check_slots_spec l p count i :
  page_of l = Some p -> numbers_fit p -> (i + count <= length (tp_words p))%nat ->
  exists r, cross_check_slots page_size header_images slots (tip_view l) (N.of_nat i) count = Some r /\
    (r = None <-> forall k w, (i <= k < i + count)%nat -> tp_words p !! k = Some w -> tw_state w <> tip_unused ->
       agrees w (header_of_number headers (number_of p k))).
Proof.
  intros Hp Hfit. destruct (view_numbers _ _ Hp Hfit) as (_ & _ & Hnum). revert i. induction count as [|count IH]; intros i Hi; cbn [cross_check_slots].
  { exists None. split; [done|]. split; [|done]. intros _ k w Hk. lia. }
  destruct (lookup_lt_is_Some_2 (tp_words p) i) as [w Hw]; [lia|]. rewrite (view_word l p i w Hp Hw).
  replace (N.of_nat i + 1) with (N.of_nat (S i)) by lia. destruct (IH (S i)) as (r & Hr & Hiff); [lia|].
  assert (Hstep : (tw_state w <> tip_unused -> agrees w (header_of_number headers (number_of p i))) ->
    (r = None <-> forall k w', (i <= k < i + S count)%nat -> tp_words p !! k = Some w' -> tw_state w' <> tip_unused ->
       agrees w' (header_of_number headers (number_of p k)))).
  { intros Ha. rewrite Hiff. split; intros H k w' Hk Hw' Hu; [|apply H; [lia|done..]].
    destruct (decide (k = i)) as [->|Hki]; [|apply H; [lia|done..]]. rewrite Hw in Hw'. injection Hw' as <-. by apply Ha. }
  case_decide as Hu; [exists r; split; [done|]; by apply Hstep|].
  rewrite Hnum by lia. rewrite (header_of_spec _ _ _ Him Hne). cbn [mbind option_bind].
  destruct (slot_agrees w (header_of_number headers (number_of p i))) eqn:Ha.
  - apply slot_agrees_iff in Ha. exists r. split; [done|]. by apply Hstep.
  - eexists. split; [done|]. split; [done|]. intros H. specialize (H i w ltac:(lia) Hw Hu). apply slot_agrees_iff in H. congruence.
Qed.

Lemma slot_limit_range l p next i :
  page_of l = Some p -> numbers_fit p -> (i < length (tp_words p))%nat ->
  (i < N.to_nat (slot_limit (tip_view l) next))%nat <-> number_of p i < next.
Proof.
  intros Hp Hfit Hi. destruct (view_numbers _ _ Hp Hfit) as (Hv1 & Hv2 & _). unfold slot_limit. rewrite Hv1, Hv2. unfold number_of.
  case_decide; lia.
Qed.

Context (state_images : list N) (pages : list tip_page) (next : N).
Context (Hsm : images_of page_of page_size state_images pages).
Context (Hseq : forall i p, pages !! i = Some p -> tp_sequence p = N.of_nat i) (Hn : N.of_nat (length pages) < 2 ^ 48).

Lemma pages_fit i p : pages !! i = Some p -> numbers_fit p.
Proof.
  intros Hi. destruct (images_of_page _ _ _ _ _ _ Hsm Hi) as [H1 _]. apply (sequence_fits _ _ i H1); [by apply Hseq|].
  apply lookup_lt_Some in Hi. lia.
Qed.

Lemma cross_check_pages_spec count i :
  (i + count = length pages)%nat ->
  exists r, cross_check_pages page_size state_images header_images slots next i count = Some r /\
    (forall f, r = Some f -> ic_error f <> tpe_none) /\
    (r = None <-> forall k p j w, (i <= k)%nat -> pages !! k = Some p -> tp_words p !! j = Some w -> tw_state w <> tip_unused ->
       number_of p j < next -> agrees w (header_of_number headers (number_of p j))).
Proof.
  revert i. induction count as [|count IH]; intros i Hi; cbn [cross_check_pages].
  { exists None. split; [done|]. split; [done|]. split; [|done]. intros _ k p j w Hk Hp. apply lookup_lt_Some in Hp. lia. }
  rewrite (page_image_some page_size state_images (length pages)) by (apply Hsm || lia). cbn [mbind option_bind].
  destruct (lookup_lt_is_Some_2 pages i) as [p Hp]; [lia|]. destruct (images_of_page _ _ _ _ _ _ Hsm Hp) as [Hpage _].
  rewrite (page_of_view _ _ Hpage). cbn [mbind option_bind]. pose proof (pages_fit i p Hp) as Hfit.
  assert (Hlim : (N.to_nat (slot_limit (tip_view (page_slice page_size state_images i)) next) <= length (tp_words p))%nat).
  { destruct (view_numbers _ _ Hpage Hfit) as (_ & Hv2 & _). unfold slot_limit. rewrite Hv2. lia. }
  change 0 with (N.of_nat 0).
  destruct (cross_check_slots_spec _ p _ 0 Hpage Hfit Hlim) as (r & -> & Hr). cbn [mbind option_bind].
  assert (Hthis : r = None <-> forall j w, tp_words p !! j = Some w -> tw_state w <> tip_unused -> number_of p j < next ->
    agrees w (header_of_number headers (number_of p j))).
  { rewrite Hr. split; intros H j w Hj; [intros Hu Hlt|intros Hw Hu].
    - apply H; [|done..]. apply (slot_limit_range _ _ next j Hpage Hfit (lookup_lt_Some _ _ _ Hj)) in Hlt. lia.
    - pose proof (lookup_lt_Some _ _ _ Hw) as Hl. apply H; [done..|]. apply (slot_limit_range _ _ next j Hpage Hfit Hl). lia. }
  destruct r as [m|].
  - eexists. split; [done|]. split; [by intros f [= <-]|]. split; [done|]. intros H. discriminate (proj2 Hthis). intros j w Hj Hu Hlt. by apply (H i p).
  - destruct (IH (S i)) as (r & Hrun & Hf & Hiff); [lia|]. exists r. split; [done|]. split; [done|]. rewrite Hiff. split.
    + intros H k q j w Hk Hq. destruct (decide (k = i)) as [->|Hki]; [|apply (H k q j w); [lia|done]].
      rewrite Hp in Hq. apply (inj Some) in Hq as <-. by apply (proj1 Hthis eq_refl).
    + intros H k q j w Hk. apply (H k q j w). lia.
Qed.
End cross_check.

(** ** The whole check *)

Record checked (page_size : N) (state_images header_images : list N) (pages : list tip_page) (headers : list header_page) (c : TipCounters)
    : Prop := {
  ch_state : images_of page_of page_size state_images pages;
  ch_header : images_of header_page_of page_size header_images headers;
  ch_legal : inventory_legal pages headers c }.

Lemma linked_pages first pages :
  head pages = Some first ->
  linked (ph_page_number (tp_header first)) (state_link <$> pages) <->
  (forall k p q, pages !! k = Some p -> pages !! S k = Some q -> tp_next_page p = ph_page_number (tp_header q)) /\
  (forall p, last pages = Some p -> tp_next_page p = 0).
Proof.
  revert first. induction pages as [|p pages IH]; intros first H; [done|]. injection H as ->. cbn [fmap list_fmap linked state_link].
  destruct pages as [|q pages].
  - cbn [fmap list_fmap linked]. split.
    + intros [_ H]. split; [by intros [|k]|]. by intros p [= <-].
    + intros [_ H]. split; [done|]. by apply H.
  - specialize (IH q eq_refl). split.
    + intros [_ H]. pose proof H as [Hq _]. cbn in Hq. rewrite <- Hq in H. apply IH in H as [H1 H2]. split.
      * intros [|k] a b Ha Hb; [|by apply (H1 k)]. injection Ha as <-. injection Hb as <-. by symmetry.
      * intros a Ha. apply H2. by rewrite last_cons_cons in Ha.
    + intros [H1 H2]. split; [done|]. rewrite (H1 0%nat first q eq_refl eq_refl). apply IH. split.
      * intros k a b Ha Hb. by apply (H1 (S k)).
      * intros a Ha. apply H2. by rewrite last_cons_cons.
Qed.

(** The number of pages of a run. *)
Lemma whole_run page_size (images : list N) :
  page_size <> 0 -> N.of_nat (length images) mod page_size = 0 ->
  length images = (N.to_nat (N.of_nat (length images) / page_size) * N.to_nat page_size)%nat.
Proof. intros H Hm. pose proof (N.div_mod' (N.of_nat (length images)) page_size) as Hd. rewrite Hm in Hd. lia. Qed.

Lemma run_count page_size (images : list N) n :
  page_size <> 0 -> length images = (n * N.to_nat page_size)%nat ->
  N.of_nat (length images) mod page_size = 0 /\ N.to_nat (N.of_nat (length images) / page_size) = n.
Proof.
  intros H ->. rewrite Nat2N.inj_mul, N2Nat.id. split; [apply N.Div0.mod_mul|]. rewrite N.div_mul by done. apply Nat2N.id.
Qed.

Lemma count_small page_size (images : list N) n :
  page_size <> 0 -> length images = (n * N.to_nat page_size)%nat -> N.of_nat (length images) < 2 ^ 48 -> N.of_nat n < 2 ^ 48.
Proof. intros H Hl Hi. assert (n <= n * N.to_nat page_size)%nat by nia. lia. Qed.

Lemma images_of_unique {A} (decode : list N -> option A) page_size images xs ys :
  page_size <> 0 -> images_of decode page_size images xs -> images_of decode page_size images ys -> xs = ys.
Proof.
  intros Hps [Hl Hx] [Hl' Hy]. assert (Hlen : length xs = length ys) by nia. apply list_eq. intros i.
  destruct (xs !! i) as [x|] eqn:E.
  - destruct (lookup_lt_is_Some_2 ys i) as [y E']; [apply lookup_lt_Some in E; lia|]. rewrite E'. apply Hx in E. apply Hy in E'. congruence.
  - apply lookup_ge_None in E. symmetry. apply lookup_ge_None. lia.
Qed.

(** *** The state side *)

Section state_side.
Context (page_size : N) (images : list N) (n : nat) (Hps : page_size <> 0).
Context (Hb : Forall is_byte images) (Hlen : length images = (n * N.to_nat page_size)%nat) (Hn : N.of_nat n < 2 ^ 48) (Hn0 : (0 < n)%nat).

Definition state_side (pages : list tip_page) (c : TipCounters) : Prop := images_of page_of page_size images pages /\ state_legal pages c.

Lemma state_side_first pages c :
  state_side pages c -> exists first, head pages = Some first /\ pages !! 0%nat = Some first /\
    page_of (page_slice page_size images 0) = Some first /\ tp_counters first = Some c /\ tp_sequence first = 0.
Proof.
  intros [Him Hl]. pose proof (sl_counters _ _ Hl) as Hc. destruct pages as [|first rest]; [done|]. exists first. injection Hc as Hc.
  split_and!; try done; [by apply (proj2 Him 0%nat)|by apply (sl_sequences _ _ Hl 0%nat)].
Qed.

Lemma state_side_run first c :
  page_of (page_slice page_size images 0) = Some first -> tp_counters first = Some c -> forall pages,
  state_side pages c <->
  length pages = n /\ state_run page_size images (tip_view (page_slice page_size images 0)) (tc_next_transaction c) 0 None pages /\
  (forall p, last pages = Some p -> tp_next_page p = 0 /\ tc_next_transaction c <= number_of p (length (tp_words p))).
Proof.
  intros Hp0 Hc pages. destruct (view_page _ _ Hp0) as (_ & Hvh & _ & _). rewrite state_run_iff, Hvh. cbn [Nat.add]. split.
  - intros Hs. destruct (state_side_first _ _ Hs) as (f & Hh & _ & Hf & _). rewrite Hp0 in Hf. apply (inj Some) in Hf as <-.
    destruct Hs as [[Hl Him] Hg]. pose proof (proj1 (linked_pages _ _ Hh) (sl_linked _ _ Hg _ Hh)) as [K1 K2].
    split; [nia|]. split; [|intros p Hp; split; [by apply K2|by apply (sl_covered _ _ Hg)]]. split_and!; [|done|done|apply (sl_below _ _ Hg)].
    intros k p Hk. split; [by apply Him|]. split; [by apply (sl_sequences _ _ Hg)|]. apply (sl_place _ _ Hg); [by apply list_elem_of_lookup_2 in Hk|done].
  - intros (Hl & (R1 & R2 & _ & R4) & Hlast). assert (Hh : head pages = Some first).
    { destruct pages as [|q qs]; [cbn in Hl; lia|]. destruct (R1 0%nat q eq_refl) as (Hq & _). rewrite Hp0 in Hq. by apply (inj Some) in Hq as ->. }
    split; [split; [by rewrite Hl|intros i p Hi; by apply (R1 i p Hi)]|]. split.
    + rewrite Hh. cbn. by rewrite Hc.
    + intros i p Hi. by apply (R1 i p Hi).
    + intros p f Hin Hf. rewrite Hh in Hf. apply (inj Some) in Hf as <-. apply list_elem_of_lookup in Hin as [k Hk]. by apply (R1 k p Hk).
    + intros f Hf. apply (linked_pages _ _ Hf). split; [done|]. intros p Hp. by apply Hlast.
    + exact R4.
    + intros p Hp. by apply Hlast.
Qed.

Lemma check_state_side_spec :
  exists r, check_state_side page_size images n = Some r /\
    match r with
    | inl f => ic_error f <> tpe_none /\ forall pages c, ~ state_side pages c
    | inr (v, c) => v = tip_view (page_slice page_size images 0) /\ exists pages, state_side pages c
    end.
Proof.
  unfold check_state_side. rewrite (page_image_some page_size images n) by done. cbn [mbind option_bind].
  destruct (decode_page (page_slice page_size images 0)) as (r & -> & Hr). cbn [mbind option_bind]. destruct r as [[e s]|v].
  { eexists. split; [done|]. split; [apply Hr|]. intros pages c Hs. destruct (state_side_first _ _ Hs) as (f & _ & _ & Hf & _). destruct Hr. congruence. }
  destruct Hr as [-> [first Hp0]]. destruct (view_page _ _ Hp0) as (-> & _ & _ & ->).
  assert (Hfirst : forall pages c, state_side pages c -> tp_counters first = Some c /\ tp_sequence first = 0).
  { intros pages c Hs. destruct (state_side_first _ _ Hs) as (f & _ & _ & Hf & ?). rewrite Hp0 in Hf. by apply (inj Some) in Hf as <-. }
  case_decide as Hseq; [eexists; split; [done|]; split; [done|]; intros pages c Hs; by apply Hseq, (Hfirst pages c)|].
  destruct (page_counters _ _ Hp0) as [Hcs Hcv]. destruct (proj2 Hcs Hseq) as [c Hc]. rewrite Hc. cbn [mbind option_bind].
  pose proof (proj1 (proj1 (andb_true_iff _ _) (Hcv c Hc))) as Hnext. apply bool_decide_eq_true in Hnext.
  pose proof (state_side_run first c Hp0 Hc) as Hiff.
  assert (Hcc : forall pages c', state_side pages c' -> c' = c) by (intros pages c' Hs; destruct (Hfirst _ _ Hs); congruence).
  destruct (check_state_chain_spec page_size images n Hb Hlen Hn (tip_view (page_slice page_size images 0)) (tc_next_transaction c) Hnext n 0
    (tip_view (page_slice page_size images 0)) ltac:(lia)) as (r & -> & Hr). cbn [mbind option_bind].
  destruct r as [f|lastv].
  { eexists. split; [done|]. split; [apply Hr|]. intros pages c' Hs. pose proof (Hcc _ _ Hs) as ->. apply Hiff in Hs as (H1 & H2 & _). by apply (proj2 Hr pages). }
  destruct Hr as [(pages & Hl & Hrun) Hlv]. replace lastv with (tip_view (page_slice page_size images (n - 1))) by (by destruct n; [lia|]). clear Hlv.
  assert (Hpages : forall pages' c', state_side pages' c' -> pages' = pages /\ c' = c).
  { intros pages' c' Hs. pose proof (Hcc _ _ Hs) as ->. apply Hiff in Hs as (H1 & H2 & _). split; [|done]. by eapply state_run_unique; [congruence| |]. }
  destruct (lookup_lt_is_Some_2 pages (n - 1)) as [lastp Hlast]; [lia|].
  destruct (proj1 (proj1 (state_run_iff _ _ _ _ _ _ _) Hrun) _ _ Hlast) as (Hlp & Hls & _). cbn [Nat.add] in Hlp, Hls.
  assert (Hlastp : last pages = Some lastp) by (rewrite last_lookup, Hl; by replace (pred n) with (n - 1)%nat by lia).
  destruct (view_page _ _ Hlp) as (_ & _ & -> & _). assert (Hfit : numbers_fit lastp) by (apply (sequence_fits _ _ _ Hlp Hls); lia).
  destruct (view_numbers _ _ Hlp Hfit) as (_ & Hlv2 & Hlv3).
  case_decide as Hend.
  { eexists. split; [done|]. split; [done|]. intros pages' c' Hs. destruct (Hpages _ _ Hs) as [-> ->]. apply Hiff in Hs as (_ & _ & Hx). by apply Hend, Hx. }
  rewrite Hlv2, Hlv3 by lia. case_decide as Hcov.
  { eexists. split; [done|]. split; [done|]. intros pages' c' Hs. destruct (Hpages _ _ Hs) as [-> ->]. apply Hiff in Hs as (_ & _ & Hx).
    destruct (Hx lastp Hlastp). lia. }
  eexists. split; [done|]. split; [done|]. exists pages. apply Hiff. split_and!; try done. intros p Hp. rewrite Hlastp in Hp. apply (inj Some) in Hp as <-.
  split; [done|lia].
Qed.
End state_side.

(** *** The header side *)

Section header_side.
Context (page_size : N) (images : list N) (n : nat) (Hps : page_size <> 0).
Context (Hlen : length images = (n * N.to_nat page_size)%nat) (Hn : N.of_nat n < 2 ^ 48) (Hn0 : (0 < n)%nat).
Context (l : list N) (first : tip_page) (Hp0 : page_of l = Some first) (next : N).

Definition header_side (headers : list header_page) : Prop :=
  images_of header_page_of page_size images headers /\ headers_legal first next headers.

Lemma header_side_run headers :
  header_side headers <->
  length headers = n /\ header_run page_size images (tip_view l) next 0 (tp_header_chain first) headers /\ last_link (tp_header_chain first) headers = 0.
Proof.
  destruct (view_page _ _ Hp0) as (_ & Hvh & _ & _). rewrite header_run_iff, Hvh. cbn [Nat.add]. split.
  - intros [[Hl Him] [G1 G2 G3 G4 G5]]. split; [nia|]. split; [|done]. intros k h Hk. pose proof (list_elem_of_lookup_2 _ _ _ Hk) as Hin.
    split_and!; [by apply Him|by apply G2|by apply G3|by apply G5].
  - intros (Hl & R1 & R2). split; [split; [by rewrite Hl|intros i h Hi; by apply (R1 i h Hi)]|]. split.
    + intros ->. cbn in Hl. lia.
    + intros i h Hi. by apply (R1 i h Hi).
    + intros h Hin. apply list_elem_of_lookup in Hin as [k Hk]. by apply (R1 k h Hk).
    + done.
    + intros h Hin. apply list_elem_of_lookup in Hin as [k Hk]. by apply (R1 k h Hk).
Qed.

Lemma check_header_side_spec :
  exists r, check_header_side page_size images n (tip_view l) next = Some r /\
    match r with
    | inl f => ic_error f <> tpe_none /\ forall headers, ~ header_side headers
    | inr slots => slots = TransactionHeaderSlotsPerPage page_size /\ exists headers, header_side headers
    end.
Proof.
  unfold check_header_side. assert (Hch : tv_header_chain_page (tip_view l) = tp_header_chain first) by (by apply page_of_iff in Hp0 as (_ & _ & ->)).
  rewrite Hch. destruct (check_header_chain_spec page_size images n Hlen Hn (tip_view l) next n 0 0 (tp_header_chain first) ltac:(lia)) as (r & -> & Hr).
  cbn [mbind option_bind]. destruct r as [f|[slots link]].
  { eexists. split; [done|]. split; [apply Hr|]. intros headers Hs. apply header_side_run in Hs as (H1 & H2 & _). by apply (proj2 Hr headers). }
  destruct Hr as (headers & Hl & Hrun & -> & ->). case_decide as Hlk.
  - eexists. split; [done|]. split; [done|]. intros headers' Hs. apply header_side_run in Hs as (H1 & H2 & H3). apply Hlk.
    assert (Hsame : headers' = headers); [|congruence]. clear H3 Hlk. revert H2 Hrun. generalize 0%nat as i. generalize (tp_header_chain first) as k.
    assert (Hll : length headers' = length headers) by lia. clear H1 Hl. revert headers Hll.
    induction headers' as [|h' hs' IH]; intros [|h hs] Hll k i H1 H2; try done. cbn in H1, H2.
    destruct H1 as (A1 & _ & _ & _ & _ & A2). destruct H2 as (B1 & _ & _ & _ & _ & B2). rewrite A1 in B1. apply (inj Some) in B1 as ->.
    f_equal. eapply IH; [by injection Hll|exact A2|exact B2].
  - assert (Hs : header_side headers) by by apply header_side_run. eexists. split; [done|]. split; [|eauto].
    unfold last_slots. destruct (last headers) as [h|] eqn:Hh; [|apply last_None in Hh; rewrite Hh in Hl; cbn in Hl; lia].
    apply (headers_slots page_size images headers (proj1 Hs)). by eapply last_Some_elem_of.
Qed.
End header_side.

(** *** Both sides *)

Lemma images_nonempty {A} (decode : list N -> option A) page_size images x xs :
  decode [] = None -> images_of decode page_size images (x :: xs) -> page_size <> 0 /\ images <> [].
Proof.
  intros Hd [Hl Hx]. specialize (Hx 0%nat x eq_refl). assert (Hps : page_size <> 0).
  { intros ->. unfold slice in Hx. rewrite take_0 in Hx. congruence. }
  split; [done|]. intros ->. cbn in Hl. lia.
Qed.

Section check.
Context (page_size : N) (state_images header_images : list N) (Hb : Forall is_byte state_images).
Context (Hsn : N.of_nat (length state_images) < 2 ^ 48) (Hhn : N.of_nat (length header_images) < 2 ^ 48).

Lemma checked_shape pages headers c :
  checked page_size state_images header_images pages headers c ->
  page_size <> 0 /\ state_images <> [] /\ header_images <> [] /\
  N.of_nat (length state_images) mod page_size = 0 /\ N.of_nat (length header_images) mod page_size = 0 /\
  exists first, head pages = Some first /\ headers_legal first (tc_next_transaction c) headers.
Proof.
  intros [H1 H2 [L1 L2 _]]. pose proof (sl_counters _ _ L1) as Hc. destruct pages as [|first rest]; [done|].
  pose proof (L2 first eq_refl) as Hh. pose proof (hs_some _ _ _ Hh) as Hne. destruct headers as [|h hs]; [done|].
  destruct (images_nonempty page_of page_size state_images first rest eq_refl H1) as [G1 G2].
  destruct (images_nonempty header_page_of page_size header_images h hs eq_refl H2) as [_ G3].
  split_and!; try done; [apply (run_count _ _ _ G1 (proj1 H1))|apply (run_count _ _ _ G1 (proj1 H2))|eauto].
Qed.

Lemma check_images_spec :
  exists check, CheckTransactionInventoryImages page_size state_images header_images = Some check /\
    (ic_error check = tpe_none -> check = mkInventoryCheck tpe_none rs_none 0 None (ic_counters check) /\
       exists pages headers, checked page_size state_images header_images pages headers (ic_counters check)) /\
    (ic_error check <> tpe_none -> forall pages headers c, ~ checked page_size state_images header_images pages headers c).
Proof.
  unfold CheckTransactionInventoryImages. cbv zeta. destruct (bool_decide (page_size = 0) || _ || _) eqn:Hreq.
  { eexists. split; [done|]. split; [done|]. intros _ pages headers c Hc. pose proof (checked_shape _ _ _ Hc).
    rewrite !orb_true_iff, !negb_true_iff, !andb_false_iff, bool_decide_eq_true, !bool_decide_eq_false in Hreq. tauto. }
  rewrite !orb_false_iff, !negb_false_iff, !andb_true_iff, bool_decide_eq_false, !bool_decide_eq_true in Hreq.
  destruct Hreq as [[Hps [Hs0 Hsm]] [Hh0 Hhm]]. pose proof (whole_run _ _ Hps Hsm) as Hsl. pose proof (whole_run _ _ Hps Hhm) as Hhl.
  set (sn := N.to_nat (N.of_nat (length state_images) / page_size)) in *. set (hn := N.to_nat (N.of_nat (length header_images) / page_size)) in *.
  assert (Hsn0 : (0 < sn)%nat) by (destruct sn; [by apply nil_length_inv in Hsl|lia]).
  assert (Hhn0 : (0 < hn)%nat) by (destruct hn; [by apply nil_length_inv in Hhl|lia]).
  pose proof (count_small _ _ _ Hps Hsl Hsn) as Hsc. pose proof (count_small _ _ _ Hps Hhl Hhn) as Hhc.
  destruct (check_state_side_spec page_size state_images sn Hps Hb Hsl Hsc Hsn0) as (r & -> & Hr). cbn [mbind option_bind].
  destruct r as [f|[v c]].
  { eexists. split; [done|]. split; [intros E; by destruct Hr|]. intros _ pages headers c [H1 _ H3]. apply (proj2 Hr pages c). split; [done|apply H3]. }
  destruct Hr as [-> [pages Hss]]. destruct (state_side_first page_size state_images pages c Hss) as (first & Hh & _ & Hp0 & _).
  assert (Hpages : forall pages' headers c', checked page_size state_images header_images pages' headers c' -> pages' = pages /\ c' = c).
  { intros pages' headers c' [H1 _ [L1 _ _]]. assert (pages' = pages) as -> by exact (images_of_unique _ _ _ _ _ Hps H1 (proj1 Hss)). split; [done|].
    pose proof (sl_counters _ _ L1) as E1. pose proof (sl_counters _ _ (proj2 Hss)) as E2. congruence. }
  destruct (check_header_side_spec page_size header_images hn Hps Hhl Hhc Hhn0 _ first Hp0 (tc_next_transaction c)) as (r & -> & Hr). cbn [mbind option_bind].
  destruct r as [f|slots].
  { eexists. split; [done|]. split; [intros E; by destruct Hr|]. intros _ pages' headers c' Hc. destruct (Hpages _ _ _ Hc) as [-> ->].
    apply (proj2 Hr headers). split; [apply Hc|]. by apply (lg_headers _ _ _ (ch_legal _ _ _ _ _ _ Hc)). }
  destruct Hr as [-> [headers Hhs]].
  destruct (cross_check_pages_spec page_size header_images headers (proj1 Hhs) (hs_some _ _ _ (proj2 Hhs)) state_images pages (tc_next_transaction c)
    (proj1 Hss) (sl_sequences _ _ (proj2 Hss)) ltac:(pose proof (proj1 (proj1 Hss)); nia) sn 0) as (r & -> & Hf & Hr).
  { pose proof (proj1 (proj1 Hss)). nia. }
  cbn [mbind option_bind]. destruct r as [f|].
  - eexists. split; [done|]. split; [intros E; by destruct (Hf f eq_refl)|]. intros _ pages' headers' c' Hc. destruct (Hpages _ _ _ Hc) as [-> ->].
    assert (headers' = headers) as -> by exact (images_of_unique _ _ _ _ _ Hps (ch_header _ _ _ _ _ _ Hc) (proj1 Hhs)).
    discriminate (proj2 Hr). intros k p j w _ Hk. apply (lg_agree _ _ _ (ch_legal _ _ _ _ _ _ Hc)). by apply list_elem_of_lookup_2 in Hk.
  - eexists. split; [done|]. split; [|done]. intros _. split; [done|]. exists pages, headers. cbn [ic_counters]. split; [apply Hss|apply Hhs|].
    split; [apply Hss|intros f Hf'; rewrite Hh in Hf'; apply (inj Some) in Hf' as <-; apply Hhs|].
    intros p i w Hin. apply list_elem_of_lookup in Hin as [k Hk]. apply (proj1 Hr eq_refl k p i w); [lia|done].
Qed.

Lemma checked_accepted pages headers c :
  checked page_size state_images header_images pages headers c ->
  CheckTransactionInventoryImages page_size state_images header_images = Some (mkInventoryCheck tpe_none rs_none 0 None c).
Proof.
  intros Hc. destruct check_images_spec as (check & -> & H1 & H2). f_equal. destruct (decide (ic_error check = tpe_none)) as [E|E].
  - destruct (H1 E) as [-> (pages' & headers' & Hc')]. f_equal. cbn [ic_counters] in Hc' |- *.
    destruct (checked_shape _ _ _ Hc) as (Hps & _). destruct Hc as [G1 _ [L1 _ _]], Hc' as [G1' _ [L1' _ _]].
    assert (pages' = pages) as -> by exact (images_of_unique _ _ _ _ _ Hps G1' G1).
    pose proof (sl_counters _ _ L1). pose proof (sl_counters _ _ L1'). congruence.
  - by destruct (H2 E pages headers c).
Qed.

Lemma checked_unique pages headers c pages' headers' c' :
  checked page_size state_images header_images pages headers c -> checked page_size state_images header_images pages' headers' c' ->
  pages' = pages /\ headers' = headers /\ c' = c.
Proof.
  intros H H'. destruct (checked_shape _ _ _ H) as (Hps & _). destruct H as [H1 H2 [L1 _ _]], H' as [H1' H2' [L1' _ _]].
  assert (pages' = pages) as -> by exact (images_of_unique _ _ _ _ _ Hps H1' H1). split; [done|].
  split; [exact (images_of_unique _ _ _ _ _ Hps H2' H2)|]. pose proof (sl_counters _ _ L1). pose proof (sl_counters _ _ L1'). congruence.
Qed.
End check.

(** ** Reading the chains from the files *)

Lemma join_images {A} (decode : list N -> option A) page_size (ms : list (list N)) (xs : list A) :
  Forall2 (fun m x => decode m = Some x /\ length m = N.to_nat page_size) ms xs -> images_of decode page_size (mjoin ms) xs.
Proof.
  induction 1 as [|m p ms ps [Hp Hm] _ [IH1 IH2]]; [done|]. change (mjoin (m :: ms)) with (m ++ mjoin ms). split; [rewrite length_app, IH1, Hm; cbn; lia|].
  intros [|i] x Hi.
  - injection Hi as <-. cbn [Nat.mul]. unfold slice. by rewrite drop_0, take_app_length' by done.
  - cbn in Hi. rewrite slice_app_r by lia. replace (S i * N.to_nat page_size - length m)%nat with (i * N.to_nat page_size)%nat by lia. by apply IH2.
Qed.

Lemma images_joined {A} (decode : list N -> option A) page_size (ms : list (list N)) (xs : list A) :
  page_size <> 0 -> Forall (fun m => length m = N.to_nat page_size) ms -> images_of decode page_size (mjoin ms) xs -> Forall2 (fun m x => decode m = Some x) ms xs.
Proof.
  intros Hps Hms. revert xs. induction Hms as [|m ms Hm _ IH]; intros xs [H1 H2].
  { cbn in H1. destruct xs; [constructor|cbn in H1; lia]. }
  change (mjoin (m :: ms)) with (m ++ mjoin ms) in *. rewrite length_app, Hm in H1. destruct xs as [|x xs]; [cbn in H1; lia|].
  constructor.
  - pose proof (H2 0%nat x eq_refl) as H. cbn [Nat.mul] in H. unfold slice in H. by rewrite drop_0, take_app_length' in H by done.
  - apply IH. split; [cbn in H1; lia|]. intros i y Hi. pose proof (H2 (S i) y Hi) as H. rewrite slice_app_r in H by lia.
    by replace (S i * N.to_nat page_size - length m)%nat with (i * N.to_nat page_size)%nat in H by lia.
Qed.

Section walk_facts.
Context (read_at : nat -> N -> nat -> BoundedIoResult) (device : nat) (page_size backing : N) (Hps : page_size <> 0).
Context (Hbacking : backing < u64_modulus).
Let capacity : nat := N.to_nat (backing / page_size).

(** The page of a number on the file. *)
Record page_on (number : N) (image : list N) : Prop := {
  po_offset : number <= u64_max / page_size;
  po_ok : io_ok (read_at device (number * page_size) (N.to_nat page_size)) = true;
  po_bytes : io_bytes (read_at device (number * page_size) (N.to_nat page_size)) = image;
  po_length : length image = N.to_nat page_size }.

(** The bytes transferred are those of the pages. *)
Definition counted (st : read_state) : Prop := rd_physical st = N.of_nat (length (rd_images st)) * page_size.

Lemma counted_app st image :
  counted st -> length image = N.to_nat page_size -> (length (rd_images st) < capacity)%nat ->
  counted (mkReadState (rd_images st ++ [image]) (u64_add (rd_physical st) (N.of_nat (length image)))).
Proof.
  unfold counted. cbn [rd_images rd_physical]. intros -> -> Hlt. rewrite length_app. cbn [length]. unfold u64_add. rewrite N.mod_small; [lia|].
  assert (N.of_nat (S (length (rd_images st))) * page_size <= backing / page_size * page_size) by (apply N.mul_le_mono_r; lia).
  pose proof (N.Div0.mul_div_le backing page_size). lia.
Qed.

Lemma read_chain_page_spec number stage i st :
  exists r st', read_chain_page read_at device page_size backing number stage i st = (r, st') /\
    match r with
    | inl (f, io) => ic_error f <> tpe_none /\ forall image, (length (rd_images st) < capacity)%nat -> ~ page_on number image
    | inr image => page_on number image /\ (length (rd_images st) < capacity)%nat /\ rd_images st' = rd_images st ++ [image] /\
                   (counted st -> counted st')
    end.
Proof.
  unfold read_chain_page. case_decide as Hr; [eexists _, _; split; [done|]; split; [done|lia]|].
  case_decide as Ho; [eexists _, _; split; [done|]; split; [done|]; intros image _ [H _ _ _]; lia|].
  cbv zeta. case_decide as Hio; eexists _, _; (split; [done|]).
  - split; [done|]. intros image _ [_ H1 H2 H3]. destruct Hio as [H|H]; [congruence|]. rewrite H2, H3 in H. lia.
  - apply Decidable.not_or in Hio as [H1 H2]. apply not_false_is_true in H1. apply dec_stable in H2.
    assert (Hl : length (io_bytes (read_at device (number * page_size) (N.to_nat page_size))) = N.to_nat page_size) by lia.
    split_and!; [split; try done; lia|lia|done|]. intros Hc. apply counted_app; [done|done|lia].
Qed.

Section generic.
Context {V : Type} (stage : TransactionInventoryReadStage) (decode : nat -> list N -> option (tip_refusal + V)) (sequence link : V -> N).
Context (Hdecode : forall i image, exists r, decode i image = Some r /\ match r with inl (e, _) => e <> tpe_none | inr _ => True end).

(** The pages from page [number] on as the file holds them. *)
Fixpoint chain_on (i : nat) (number : N) (images : list (list N)) (views : list V) : Prop :=
  match images, views with
  | [], [] => number = 0
  | image :: images, v :: views =>
    number <> 0 /\ page_on number image /\ decode i image = Some (inr v) /\ sequence v = N.of_nat i /\ chain_on (S i) (link v) images views
  | _, _ => False
  end.

Lemma chain_on_unique i number images views images' views' :
  chain_on i number images views -> chain_on i number images' views' -> images' = images /\ views' = views.
Proof.
  revert i number views images' views'. induction images as [|l images IH]; intros i number [|v views] [|l' images'] [|v' views'] H H'; try done;
    cbn [chain_on] in H, H'; try (destruct H; done) || (destruct H'; done).
  destruct H as (_ & [_ _ P _] & D & _ & H), H' as (_ & [_ _ P' _] & D' & _ & H'). assert (l' = l) as -> by congruence.
  assert (v' = v) as -> by congruence. by destruct (IH _ _ _ _ _ H H') as [-> ->].
Qed.

Lemma chain_on_images i number images views : chain_on i number images views -> Forall (fun m => length m = N.to_nat page_size) images /\ length images = length views.
Proof.
  clear Hdecode Hps Hbacking capacity. revert i number views. induction images as [|l images IH]; intros i number [|v views] H; try done.
  destruct H as (_ & P & _ & _ & H). destruct (IH _ _ _ H) as [H1 H2]. split; [constructor; [apply P|done]|cbn; lia].
Qed.

Lemma walk_pages_spec fuel i number st :
  (capacity < fuel + length (rd_images st))%nat -> (length (rd_images st) <= capacity)%nat ->
  exists r st', walk_pages read_at device page_size backing stage decode sequence link fuel i number st = Some (r, st') /\
    match r with
    | inl (f, io) => ic_error f <> tpe_none /\
        forall images views, (length (rd_images st) + length images <= capacity)%nat -> ~ chain_on i number images views
    | inr views => exists images, chain_on i number images views /\ rd_images st' = rd_images st ++ images /\ (length (rd_images st') <= capacity)%nat /\
                   (counted st -> counted st')
    end.
Proof.
  revert i number st. induction fuel as [|fuel IH]; intros i number st Hf Hc; cbn [walk_pages]; destruct (decide (number = 0)) as [->|Hn].
  1, 3: eexists _, _; (split; [done|]); exists []; rewrite app_nil_r; done.
  { lia. }
  assert (Hnil : forall images views, chain_on i number images views -> exists l v ls vs, images = l :: ls /\ views = v :: vs).
  { intros [|l ls] [|v vs] H; try done. by exists l, v, ls, vs. }
  destruct (read_chain_page_spec number stage i st) as (r & st1 & -> & Hr). destruct r as [[f io]|image].
  { eexists _, _. split; [done|]. split; [apply Hr|]. intros images views Hle H. destruct (Hnil _ _ H) as (l & v & ls & vs & -> & ->).
    destruct H as (_ & P & _). cbn in Hle. by apply (proj2 Hr l); [lia|]. }
  destruct Hr as (Hp & Hlt & Hi & Hcnt). destruct (Hdecode i image) as (r & Hd & He). rewrite Hd. cbn [mbind option_bind].
  assert (Hsame : forall l ls v vs, chain_on i number (l :: ls) (v :: vs) -> r = inr v /\ sequence v = N.of_nat i /\ chain_on (S i) (link v) ls vs).
  { intros l ls v vs (_ & P & D & S & H). assert (l = image) as -> by (destruct Hp, P; congruence). split_and!; [congruence|done|done]. }
  destruct r as [[e slot]|v].
  { eexists _, _. split; [done|]. split; [done|]. intros images views _ H. destruct (Hnil _ _ H) as (l & v & ls & vs & -> & ->). by destruct (Hsame _ _ _ _ H). }
  destruct (decide (sequence v <> N.of_nat i)) as [Hs|Hs].
  { eexists _, _. split; [done|]. split; [done|]. intros images views _ H. destruct (Hnil _ _ H) as (l & w & ls & vs & -> & ->).
    destruct (Hsame _ _ _ _ H) as ([= ->] & ? & _). done. }
  apply dec_stable in Hs. assert (Hl1 : length (rd_images st1) = S (length (rd_images st))) by (rewrite Hi, length_app; cbn; lia).
  destruct (IH (S i) (link v) st1) as (r & st' & -> & Hr); [lia|lia|]. cbn [mbind option_bind]. destruct r as [[f io]|views]; eexists _, _; (split; [done|]).
  - split; [apply Hr|]. intros images views Hle H. destruct (Hnil _ _ H) as (l & w & ls & vs & -> & ->). destruct (Hsame _ _ _ _ H) as ([= ->] & _ & H').
    apply (proj2 Hr ls vs); [cbn in Hle; lia|done].
  - destruct Hr as (images & H1 & H2 & H3 & H4). exists (image :: images). split; [by split_and!|]. split; [by rewrite H2, Hi, <- app_assoc|]. split; [done|]. tauto.
Qed.

(** The same pages, named by what they are. *)
Context {P : Type} (page : list N -> option P) (view : list N -> V) (place : P -> N * N) (page_sequence : P -> N) (bound : nat -> P -> Prop).
Context (Hview : forall i image v, decode i image = Some (inr v) <-> v = view image /\ exists p, page image = Some p /\ bound i p).
Context (Hpage : forall image p, page image = Some p ->
  sequence (view image) = page_sequence p /\ link (view image) = (place p).2 /\ (place p).1 <> 0).

(** A page in its own place. *)
Definition in_place (image : list N) (p : P) : Prop := page_on (place p).1 image /\ page image = Some p.

Lemma chain_on_pages i number images views pages :
  chain_on i number images views -> Forall2 (fun m p => page m = Some p) images pages -> linked number (place <$> pages) ->
  Forall2 in_place images pages /\ views = view <$> images /\ forall k p, pages !! k = Some p -> bound (i + k) p.
Proof.
  intros H Hp. revert i number views H. induction Hp as [|l p images pages Hp _ IH]; intros i number [|v views] H Hl; try done.
  cbn [fmap list_fmap linked] in Hl. destruct (place p) as [here next] eqn:E. destruct Hl as [-> Hl].
  destruct H as (_ & P1 & D & _ & H). apply Hview in D as [-> (p' & Hp' & Hb)]. rewrite Hp in Hp'. apply (inj Some) in Hp' as <-.
  destruct (Hpage _ _ Hp) as (_ & Hn & _). rewrite E in Hn. cbn in Hn. rewrite Hn in H.
  destruct (IH (S i) next views H Hl) as (H1 & -> & H3). split_and!; [constructor; [by split; rewrite ?E|done]|done|].
  intros [|k] q Hq; [injection Hq as <-; by rewrite Nat.add_0_r|]. rewrite <- Nat.add_succ_comm. by apply H3.
Qed.

Lemma pages_chain_on i number images pages :
  Forall2 in_place images pages -> linked number (place <$> pages) ->
  (forall k p, pages !! k = Some p -> page_sequence p = N.of_nat (i + k) /\ bound (i + k) p) ->
  chain_on i number images (view <$> images).
Proof.
  intros Hp. revert i number. induction Hp as [|l p images pages [P1 Hp] _ IH]; intros i number Hl Hs; [done|].
  cbn [fmap list_fmap linked] in Hl. destruct (place p) as [here next] eqn:E. destruct Hl as [-> Hl]. cbn [fst] in P1.
  destruct (Hpage _ _ Hp) as (H1 & H2 & H3). rewrite E in H2, H3. destruct (Hs 0%nat p eq_refl) as [S1 B1]. rewrite Nat.add_0_r in S1, B1.
  cbn [fmap list_fmap chain_on]. split_and!; [done|done|apply Hview; eauto|congruence|]. rewrite H2. apply IH; [done|].
  intros k q Hk. rewrite Nat.add_succ_comm. by apply (Hs (S k)).
Qed.
End generic.
End walk_facts.

(** *** The two chains *)

Lemma page_number_nonzero h : header_error h None = phe_none -> ph_page_type h = kTransactionStatePageType -> ph_page_number h <> 0.
Proof.
  intros H Ht E. assert (Hl : ValidateLayout h = phe_invalid_page_number) by (unfold ValidateLayout; rewrite Ht, E; reflexivity).
  unfold header_error in H. cbv zeta in H. rewrite Hl in H. destruct (ValidateIdentity h); vm_compute in H; done.
Qed.

Lemma decode_state_view r i image v :
  decode_state r i image = Some (inr v) <->
  v = tip_view image /\ exists p, page_of image = Some p /\ (i = 0%nat -> header_bound (tp_header p) (root_binding r)).
Proof.
  unfold decode_state. destruct (decode_tip_iff image (if decide (i = 0%nat) then Some (root_binding r) else None)) as (d & -> & Hd).
  split.
  - intros [= ->]. destruct (proj1 (Hd v) eq_refl) as [[Hf Hw] ->]. split; [done|]. exists (page_at image).
    destruct (decide (i = 0%nat)) as [Hi|Hi]; [|split; [by apply page_of_iff|done]]. destruct Hf as [[F1 F2] F3 F4 F5 F6 F7 F8 F9 F10].
    apply header_error_bound in F2 as [F2 Hb]. split; [apply page_of_iff; by split_and!|done].
  - intros [-> (p & Hp & Hb)]. f_equal. apply page_of_iff in Hp as (Hf & Hw & ->). apply Hd. split; [|done]. split; [|done].
    destruct (decide (i = 0%nat)) as [Hi|Hi]; [|done]. destruct Hf as [[F1 F2] F3 F4 F5 F6 F7 F8 F9 F10].
    split; try done. split; [done|]. apply header_error_bound. split; [done|by apply Hb].
Qed.

Lemma decode_header_view_iff i image v :
  decode_header_view i image = Some (inr v) <-> v = header_view image /\ exists p, header_page_of image = Some p /\ True.
Proof.
  unfold decode_header_view. destruct (decode_header_page_iff image None) as (d & -> & _ & Hd). split.
  - intros [= ->]. destruct (proj1 (Hd v) eq_refl) as [[Hf Hw] ->]. split; [done|]. exists (header_page_at image). split; [by apply header_page_of_iff|done].
  - intros [-> (p & Hp & _)]. f_equal. apply header_page_of_iff in Hp as (Hf & Hw & ->). by apply Hd.
Qed.

Lemma decode_state_total r i image :
  exists d, decode_state r i image = Some d /\ match d with inl (e, _) => e <> tpe_none | inr _ => True end.
Proof.
  unfold decode_state. destruct (decode_tip_iff image (if decide (i = 0%nat) then Some (root_binding r) else None)) as (d & Hd & _).
  exists d. split; [done|]. destruct d as [[e s]|v]; [|done]. eapply decode_tip_error, Hd.
Qed.

Lemma decode_header_total i image :
  exists d, decode_header_view i image = Some d /\ match d with inl (e, _) => e <> tpe_none | inr _ => True end.
Proof. destruct (decode_header_page_iff image None) as (d & Hd & He & _). by exists d. Qed.

Lemma state_page_place image p : page_of image = Some p ->
  tv_tip_sequence (tip_view image) = tp_sequence p /\ tv_next_tip_page (tip_view image) = (state_link p).2 /\ (state_link p).1 <> 0.
Proof.
  intros H. destruct (view_page _ _ H) as (H1 & _ & H3 & _). split_and!; [done|done|]. apply page_of_iff in H as (Hf & _ & ->).
  apply page_number_nonzero; apply Hf.
Qed.

Lemma header_page_place image h : header_page_of image = Some h ->
  hv_sequence (header_view image) = hp_sequence h /\ hv_next_page (header_view image) = (header_link_of h).2 /\ (header_link_of h).1 <> 0.
Proof.
  intros H. destruct (header_view_page _ _ H) as (H1 & _ & H3 & _). split_and!; [done|done|]. apply header_page_of_iff in H as (Hf & _ & ->).
  apply page_number_nonzero; apply Hf.
Qed.

(** *** The whole read *)

Section read_facts.
Context (read_at : nat -> N -> nat -> BoundedIoResult) (r : TransactionInventoryReadRequest).

(** An inventory on the file of the request: every page of both chains in its own place,
    the first one the root, all of them with room in the backing. *)
Record on_file (device : nat) (page_size : N) (state_images header_images : list (list N))
    (pages : list tip_page) (headers : list header_page) (c : TipCounters) : Prop := {
  of_place : request_place r = Some (device, page_size);
  of_state : Forall2 (in_place read_at device page_size page_of state_link) state_images pages;
  of_header : Forall2 (in_place read_at device page_size header_page_of header_link_of) header_images headers;
  of_legal : inventory_legal pages headers c;
  of_root : forall first, head pages = Some first -> header_bound (tp_header first) (root_binding r);
  of_room : (length pages + length headers <= N.to_nat (rr_backing r / page_size))%nat }.

Context (Hbytes : forall device offset count, Forall is_byte (io_bytes (read_at device offset count))).
Context (Hbacking : rr_backing r < 2 ^ 48).

Lemma placed_size device page_size : request_place r = Some (device, page_size) -> page_size <> 0.
Proof. clear Hbytes Hbacking.
  unfold request_place, place_root. cbv zeta. case_match; [done|]. intros E. apply bind_Some in E as (fs & _ & E). case_decide; [done|].
  apply bind_Some in E as (profile & Hp & E). apply bind_Some in E as (d & _ & E). injection E as _ <-. pose proof (profile_size _ _ Hp). lia.
Qed.

Lemma in_place_image {P} device page_size (page : list N -> option P) place images pages :
  Forall2 (in_place read_at device page_size page place) images pages ->
  images_of page page_size (mjoin images) pages /\ Forall (fun m => length m = N.to_nat page_size) images /\ length images = length pages.
Proof. clear Hbytes Hbacking.
  intros H. split_and!; [apply join_images|..|by apply Forall2_length in H].
  - eapply Forall2_impl; [exact H|]. intros m p [[_ _ _ H1] H2]. done.
  - clear -H. induction H as [|m p ms ps [[_ _ _ H1] _] _ IH]; by constructor.
Qed.

Lemma join_length page_size (ms : list (list N)) : Forall (fun m => length m = N.to_nat page_size) ms -> length (mjoin ms) = (length ms * N.to_nat page_size)%nat.
Proof. clear Hbytes Hbacking. induction 1 as [|m ms Hm _ IH]; [done|]. change (mjoin (m :: ms)) with (m ++ mjoin ms). rewrite length_app, IH, Hm. cbn. lia. Qed.

Lemma mjoin_app {A} (xs ys : list (list A)) : mjoin (xs ++ ys) = mjoin xs ++ mjoin ys.
Proof. induction xs as [|x xs IH]; [done|]. change (x ++ mjoin (xs ++ ys) = (x ++ mjoin xs) ++ mjoin ys). by rewrite IH, app_assoc. Qed.

Lemma chain_bytes {V} decode (sequence link : V -> N) device page_size i number images views :
  chain_on read_at device page_size decode sequence link i number images views -> Forall is_byte (mjoin images).
Proof.
  clear Hbacking. revert i number views. induction images as [|l images IH]; intros i number [|v views] H; try done.
  destruct H as (_ & [_ _ P _] & _ & _ & H). change (mjoin (l :: images)) with (l ++ mjoin images). apply Forall_app. split; [rewrite <- P; apply Hbytes|by eapply IH].
Qed.

(** The images of both chains, back from the backing. *)
Lemma split_images page_size (si hi : list (list N)) :
  Forall (fun m => length m = N.to_nat page_size) si -> Forall (fun m => length m = N.to_nat page_size) hi ->
  load_bytes 0 (length si * N.to_nat page_size) (mjoin (si ++ hi)) = Some (mjoin si) /\
  load_bytes (length si * N.to_nat page_size) ((length (si ++ hi) - length si) * N.to_nat page_size) (mjoin (si ++ hi)) = Some (mjoin hi).
Proof. clear Hbytes Hbacking.
  intros H1 H2. pose proof (join_length _ _ H1) as L1. pose proof (join_length _ _ H2) as L2. rewrite length_app, Nat.add_comm, Nat.add_sub, mjoin_app.
  split; rewrite load_bytes_some by (rewrite length_app; lia); f_equal; unfold slice.
  - rewrite drop_0. by apply take_app_length'.
  - rewrite drop_app_length' by done. apply take_ge. lia.
Qed.

Local Abbreviation state_chain_on device page_size := (chain_on read_at device page_size (decode_state r) tv_tip_sequence tv_next_tip_page).
Local Abbreviation header_chain_on device page_size := (chain_on read_at device page_size decode_header_view hv_sequence hv_next_page).

(** The header chain the views of the state pages point to. *)
Definition header_root (views : list TipPageView) : N := match head views with Some v => tv_header_chain_page v | None => 0 end.

Lemma view_header_chain l p : page_of l = Some p -> tv_header_chain_page (tip_view l) = tp_header_chain p.
Proof. intros H. by apply page_of_iff in H as (_ & _ & ->). Qed.

Lemma on_file_chains device page_size si hi pages headers c :
  on_file device page_size si hi pages headers c ->
  state_chain_on device page_size 0 (rt_page_number (rr_state_root r)) si (tip_view <$> si) /\
  header_chain_on device page_size 0 (header_root (tip_view <$> si)) hi (header_view <$> hi) /\
  checked page_size (mjoin si) (mjoin hi) pages headers c /\ (length si + length hi <= N.to_nat (rr_backing r / page_size))%nat.
Proof. clear Hbytes Hbacking.
  intros [_ H1 H2 H3 H4 H5]. destruct (in_place_image _ _ _ _ _ _ H1) as (G1 & _ & L1), (in_place_image _ _ _ _ _ _ H2) as (G2 & _ & L2).
  pose proof (lg_state _ _ _ H3) as Hl. pose proof (sl_counters _ _ Hl) as Hc. destruct (head pages) as [first|] eqn:Eh; [|done].
  pose proof (lg_headers _ _ _ H3 first Eh) as Hh. pose proof (H4 first eq_refl) as Hb. split_and!.
  - apply (pages_chain_on _ _ _ _ _ _ page_of tip_view state_link tp_sequence (fun i p => i = 0%nat -> header_bound (tp_header p) (root_binding r))
      (decode_state_view r) state_page_place _ _ _ pages); [done| |].
    + rewrite <- (hbd_number _ _ Hb : ph_page_number (tp_header first) = rt_page_number (rr_state_root r)). by apply (sl_linked _ _ Hl).
    + intros k p Hk. split; [by apply (sl_sequences _ _ Hl)|]. cbn. intros ->. destruct pages as [|q pages]; [done|]. cbn in Hk, Eh. congruence.
  - assert (header_root (tip_view <$> si) = tp_header_chain first) as ->.
    { destruct pages as [|q pages]; [done|]. injection Eh as ->. destruct si as [|l si]; [by apply Forall2_nil_inv_l in H1|].
      apply Forall2_cons_1 in H1 as [[_ Hp] _]. by apply view_header_chain. }
    apply (pages_chain_on _ _ _ _ _ _ header_page_of header_view header_link_of hp_sequence (fun _ _ => True) decode_header_view_iff header_page_place _ _ _ headers);
      [done|apply Hh|]. intros k h Hk. split; [by apply (hs_sequences _ _ _ Hh)|done].
  - by split.
  - lia.
Qed.

Lemma chains_on_file device page_size si hi views hviews pages headers c :
  request_place r = Some (device, page_size) ->
  state_chain_on device page_size 0 (rt_page_number (rr_state_root r)) si views ->
  header_chain_on device page_size 0 (header_root views) hi hviews ->
  checked page_size (mjoin si) (mjoin hi) pages headers c -> (length si + length hi <= N.to_nat (rr_backing r / page_size))%nat ->
  on_file device page_size si hi pages headers c.
Proof. clear Hbytes Hbacking.
  intros Hplace H1 H2 [G1 G2 G3] Hroom. pose proof (placed_size _ _ Hplace) as Hps.
  destruct (chain_on_images _ _ _ _ _ _ _ _ _ _ H1) as [L1 _], (chain_on_images _ _ _ _ _ _ _ _ _ _ H2) as [L2 _].
  pose proof (images_joined _ _ _ _ Hps L1 G1) as F1. pose proof (images_joined _ _ _ _ Hps L2 G2) as F2.
  pose proof (lg_state _ _ _ G3) as Hl. pose proof (sl_counters _ _ Hl) as Hc. destruct pages as [|first pages]; [done|].
  pose proof (lg_headers _ _ _ G3 first eq_refl) as Hh. pose proof (sl_linked _ _ Hl first eq_refl) as Hlk.
  assert (Hb : header_bound (tp_header first) (root_binding r) /\ header_root views = tp_header_chain first).
  { inversion F1 as [|l p ls ps Hp _ E1 E2]. subst. destruct views as [|v views]; [done|]. destruct H1 as (_ & _ & D & _).
    apply decode_state_view in D as [-> (p & Hp' & Hb)]. rewrite Hp in Hp'. apply (inj Some) in Hp' as <-. split; [by apply Hb|by apply view_header_chain]. }
  destruct Hb as [Hb Hroot]. rewrite Hroot in H2. rewrite (hbd_number _ _ Hb : _ = rt_page_number (rr_state_root r)) in Hlk.
  destruct (chain_on_pages _ _ _ _ _ _ page_of tip_view state_link tp_sequence (fun i p => i = 0%nat -> header_bound (tp_header p) (root_binding r))
    (decode_state_view r) state_page_place _ _ _ _ _ H1 F1 Hlk) as (E1 & _ & _).
  destruct (chain_on_pages _ _ _ _ _ _ header_page_of header_view header_link_of hp_sequence (fun _ _ => True) decode_header_view_iff header_page_place
    _ _ _ _ _ H2 F2 (hs_linked _ _ _ Hh)) as (E2 & _ & _).
  split; try done; [by intros ? [= <-]|]. apply Forall2_length in F1, F2. lia.
Qed.

Lemma read_inventory_spec :
  exists read, ReadTransactionInventory read_at r = Some read /\
    (ir_ok read = true -> exists device page_size si hi pages headers c, on_file device page_size si hi pages headers c /\
       read = mkInventoryRead (mkInventoryCheck tpe_none rs_none 0 None c) None page_size (length si) (length hi)
                (N.of_nat (length (si ++ hi)) * page_size) (mjoin (si ++ hi))) /\
    (ir_ok read = false -> forall device page_size si hi pages headers c, ~ on_file device page_size si hi pages headers c).
Proof.
  unfold ReadTransactionInventory. destruct (request_place r) as [[device page_size]|] eqn:Hplace.
  2: { eexists. split; [done|]. split; [done|]. intros _ device page_size si hi pages headers c [H _ _ _ _ _]. congruence. }
  pose proof (placed_size _ _ Hplace) as Hps. cbv zeta. unfold read_fuel.
  assert (Hu : rr_backing r < u64_modulus) by (rewrite u64_modulus_val; lia).
  assert (Hsame : forall d s si hi pages headers c, on_file d s si hi pages headers c -> d = device /\ s = page_size).
  { intros d s si hi pages headers c [H _ _ _ _ _]. rewrite Hplace in H. by injection H as -> ->. }
  destruct (walk_pages_spec read_at device page_size (rr_backing r) Hps Hu rs_state_chain (decode_state r) tv_tip_sequence tv_next_tip_page
    (decode_state_total r) (S (N.to_nat (rr_backing r / page_size))) 0 (rt_page_number (rr_state_root r)) (mkReadState [] 0))
    as (w & st & -> & Hw); [cbn [rd_images length]; lia|apply Nat.le_0_l|]. cbn [mbind option_bind].
  destruct w as [[f io]|views].
  { eexists. split; [done|]. split.
    - unfold ir_ok, ic_ok. cbn [ir_io ir_check]. rewrite andb_true_iff, !bool_decide_eq_true. intros [_ E]. by destruct Hw.
    - intros _ d s si hi pages headers c Hof. destruct (Hsame _ _ _ _ _ _ _ Hof) as [-> ->]. destruct (on_file_chains _ _ _ _ _ _ _ Hof) as (H1 & _ & _ & H4).
      apply (proj2 Hw si (tip_view <$> si)); [cbn [rd_images length]; lia|done]. }
  destruct Hw as (si & Hs & Hi & Hle & Hcnt). cbn [rd_images app] in Hi. fold (header_root views).
  destruct (walk_pages_spec read_at device page_size (rr_backing r) Hps Hu rs_header_chain decode_header_view hv_sequence hv_next_page
    decode_header_total (S (N.to_nat (rr_backing r / page_size))) 0 (header_root views) st) as (w & st' & -> & Hw); [lia|lia|]. cbn [mbind option_bind].
  destruct w as [[f io]|hviews].
  { eexists. split; [done|]. split.
    - unfold ir_ok, ic_ok. cbn [ir_io ir_check]. rewrite andb_true_iff, !bool_decide_eq_true. intros [_ E]. by destruct Hw.
    - intros _ d s si' hi pages headers c Hof. destruct (Hsame _ _ _ _ _ _ _ Hof) as [-> ->]. destruct (on_file_chains _ _ _ _ _ _ _ Hof) as (H1 & H2 & _ & H4).
      destruct (chain_on_unique _ _ _ _ _ _ _ _ _ _ _ _ Hs H1) as [-> <-]. apply (proj2 Hw hi (header_view <$> hi)); [by rewrite Hi|done]. }
  destruct Hw as (hi & Hh & Hi' & Hle' & Hcnt'). rewrite Hi', Hi.
  destruct (chain_on_images _ _ _ _ _ _ _ _ _ _ Hs) as [L1 _], (chain_on_images _ _ _ _ _ _ _ _ _ _ Hh) as [L2 _].
  destruct (split_images page_size si hi L1 L2) as [-> ->]. cbn [mbind option_bind].
  assert (Hroom : (length si + length hi <= N.to_nat (rr_backing r / page_size))%nat) by (rewrite Hi', Hi, length_app in Hle'; lia).
  assert (Hcap : N.of_nat (length si + length hi) * page_size < 2 ^ 48).
  { assert (N.of_nat (length si + length hi) * page_size <= rr_backing r / page_size * page_size) by (apply N.mul_le_mono_r; lia).
    pose proof (N.Div0.mul_div_le (rr_backing r) page_size). lia. }
  destruct (check_images_spec page_size (mjoin si) (mjoin hi) (chain_bytes _ _ _ _ _ _ _ _ _ Hs)) as (check & -> & C1 & C2);
    [rewrite (join_length _ _ L1); nia|rewrite (join_length _ _ L2); nia|]. cbn [mbind option_bind].
  eexists. split; [done|]. unfold ir_ok, ic_ok. cbn [ir_io ir_check]. rewrite bool_decide_eq_true_2 by done. cbn [andb]. split.
  - rewrite bool_decide_eq_true. intros E. destruct (C1 E) as [-> (pages & headers & Hc)]. cbn [ic_counters] in Hc |- *.
    exists device, page_size, si, hi, pages, headers, (ic_counters check). split; [by eapply chains_on_file|]. f_equal.
    + rewrite length_app. lia.
    + rewrite (Hcnt' (Hcnt eq_refl) : rd_physical st' = _), Hi', Hi. done.
  - rewrite bool_decide_eq_false. intros E d s si' hi' pages headers c Hof. destruct (Hsame _ _ _ _ _ _ _ Hof) as [-> ->].
    destruct (on_file_chains _ _ _ _ _ _ _ Hof) as (H1 & H2 & H3 & _). destruct (chain_on_unique _ _ _ _ _ _ _ _ _ _ _ _ Hs H1) as [-> <-].
    destruct (chain_on_unique _ _ _ _ _ _ _ _ _ _ _ _ Hh H2) as [-> <-]. by apply (C2 E pages headers c).
Qed.

Lemma on_file_read device page_size si hi pages headers c :
  on_file device page_size si hi pages headers c ->
  ReadTransactionInventory read_at r =
    Some (mkInventoryRead (mkInventoryCheck tpe_none rs_none 0 None c) None page_size (length si) (length hi)
            (N.of_nat (length (si ++ hi)) * page_size) (mjoin (si ++ hi))).
Proof.
  intros Hof. destruct read_inventory_spec as (read & -> & H1 & H2). f_equal. destruct (ir_ok read) eqn:E; [|by destruct (H2 eq_refl _ _ _ _ _ _ _ Hof)].
  destruct (H1 eq_refl) as (d & s & si' & hi' & pages' & headers' & c' & Hof' & ->).
  assert (d = device /\ s = page_size) as [-> ->] by (destruct Hof as [H _ _ _ _ _], Hof' as [H' _ _ _ _ _]; rewrite H in H'; by injection H' as -> ->).
  destruct (on_file_chains _ _ _ _ _ _ _ Hof) as (A1 & A2 & A3 & A4), (on_file_chains _ _ _ _ _ _ _ Hof') as (B1 & B2 & B3 & _).
  destruct (chain_on_unique _ _ _ _ _ _ _ _ _ _ _ _ A1 B1) as [-> _]. destruct (chain_on_unique _ _ _ _ _ _ _ _ _ _ _ _ A2 B2) as [-> _].
  destruct (checked_unique _ _ _ _ _ _ _ _ _ A3 B3) as (_ & _ & ->). done.
Qed.
End read_facts.
