(* ===== verification/InventoryReaderClaims.v ===== *)
(** * Correctness of the in-place inventory

    The check is exact, restart keeps a checked inventory checked however far it got, and
    the inventory built from checked images is the one the slots and headers describe. *)

From S2P Require Import Prelude Platform Uuid TransactionState Inventory Bytes PageFrame PageFrameFacts NativeInventoryPage BorrowedFacts.
From S2P Require Import TipPage TipPageFacts TipEdits TipRestart TipClaims TipRestartClaims.
From S2P Require Import Horizon NativeInventoryPageFacts FilespacePageZero FilespacePageZeroFacts InventoryChain.
From S2P Require Import TransactionHeader TransactionHeaderFacts TransactionHeaderClaims InventoryReader InventoryReaderFacts.

(** C10: the check of the in-place inventory is total and exact.  Two runs of page images
    pass exactly when they are the pages of a state chain and of the header chain it
    points to, each from sequence zero on, linked to its end, in one filespace and
    database; every number below [Next] has a slot; nothing at or beyond [Next] has a used
    slot or a header; and every used slot agrees with its header: only a dead number may
    lack one, a committed or rolled back number has a header completed the same way, an
    archived one a completed header, a prepared or limbo one an incomplete header.  The
    counters reported are those of the first page. *)
Theorem inventory_check_exact (page_size : N) (state_images header_images : list N)
    (Hb : Forall is_byte state_images)
    (Hs : N.of_nat (length state_images) < 2 ^ 48) (Hh : N.of_nat (length header_images) < 2 ^ 48) :
  exists check, CheckTransactionInventoryImages page_size state_images header_images = Some check /\
    (ic_error check = tpe_none <->
     exists pages headers c, images_of page_of page_size state_images pages /\ images_of header_page_of page_size header_images headers /\
       inventory_legal pages headers c) /\
    (forall pages headers c, images_of page_of page_size state_images pages -> images_of header_page_of page_size header_images headers ->
       inventory_legal pages headers c -> ic_counters check = c).
Proof.
  destruct (check_images_spec page_size state_images header_images Hb Hs Hh) as (check & Hrun & H1 & H2). exists check. split; [done|]. split.
  - split.
    + intros E. destruct (H1 E) as [_ (pages & headers & [G1 G2 G3])]. by exists pages, headers, (ic_counters check).
    + intros (pages & headers & c & G1 & G2 & G3). destruct (decide (ic_error check = tpe_none)) as [E|E]; [done|].
      by destruct (H2 E pages headers c).
  - intros pages headers c G1 G2 G3. rewrite (checked_accepted page_size state_images header_images Hb Hs Hh pages headers c) in Hrun by done.
    by apply (inj Some) in Hrun as <-.
Qed.

(** ** Restart of a checked inventory *)

(** The chain of state pages as restart takes it. *)
Definition restart_chain (page_size : N) (images : list N) : list TipChainPage :=
  (fun i => mkTipChainPage (u64_at 72 (page_slice page_size images i)) (page_slice page_size images i)) <$>
  seq 0 (length images / N.to_nat page_size).

Lemma restart_chain_lookup page_size images pages i g :
  page_size <> 0 -> images_of page_of page_size images pages -> restart_chain page_size images !! i = Some g ->
  exists p, pages !! i = Some p /\ page_of (cg_image g) = Some p /\ cg_image g = page_slice page_size images i /\
    cg_page_number g = ph_page_number (tp_header p).
Proof.
  intros Hps Him Hg. unfold restart_chain in Hg. rewrite list_lookup_fmap in Hg.
  assert (Hcount : (length images / N.to_nat page_size = length pages)%nat) by (rewrite (proj1 Him); apply Nat.div_mul; lia).
  rewrite Hcount in Hg. destruct (decide (i < length pages)%nat) as [Hi|Hi]; [|by rewrite lookup_seq_ge in Hg by lia].
  rewrite lookup_seq_lt in Hg by done. apply (inj Some) in Hg as <-. destruct (lookup_lt_is_Some_2 pages i Hi) as [p Hp]. exists p.
  destruct (images_of_page _ _ _ _ _ _ Him Hp) as [H1 _]. split_and!; try done. cbn [cg_page_number Nat.add].
  apply page_of_iff in H1 as (_ & _ & ->). cbn [tp_header page_at]. by rewrite header_number_at.
Qed.

Lemma restart_chain_length page_size images pages :
  page_size <> 0 -> images_of page_of page_size images pages -> length (restart_chain page_size images) = length pages.
Proof. intros Hps Him. unfold restart_chain. rewrite length_fmap, length_seq, (proj1 Him). apply Nat.div_mul. lia. Qed.

Lemma chain_of_pages i chain pages :
  length chain = length pages ->
  (forall k g, chain !! k = Some g -> exists p, pages !! k = Some p /\ page_of (cg_image g) = Some p /\ cg_page_number g = ph_page_number (tp_header p)) ->
  (forall k p, pages !! k = Some p -> tp_sequence p = i + N.of_nat k) ->
  (forall k p q, pages !! k = Some p -> pages !! S k = Some q -> tp_next_page p = ph_page_number (tp_header q)) ->
  state_chain i chain pages.
Proof.
  revert i pages. induction chain as [|g chain IH]; intros i [|p pages] Hl Hg Hs Hn; try done. cbn [state_chain].
  destruct (Hg 0%nat g eq_refl) as (p' & [= <-] & H1 & H2). split; [done|]. split; [rewrite (Hs 0%nat p eq_refl); lia|]. split; [done|]. split.
  - destruct chain as [|g' chain]; [done|]. destruct (Hg 1%nat g' eq_refl) as (q & Hq & _ & ->). by apply (Hn 0%nat).
  - apply IH; [by injection Hl|intros k; apply (Hg (S k))| |intros k; apply (Hn (S k))].
    intros k q Hk. rewrite (Hs (S k) q Hk). lia.
Qed.

Section restart.
Context (page_size : N) (state_images header_images : list N) (pages : list tip_page) (headers : list header_page) (c : TipCounters).
Context (Hb : Forall is_byte state_images) (Hc : checked page_size state_images header_images pages headers c).
Let chain := restart_chain page_size state_images.

Lemma checked_size : page_size <> 0.
Proof. apply (checked_shape _ _ _ _ _ _ Hc). Qed.

Lemma checked_restartable : restartable chain pages c.
Proof.
  pose proof (lg_state _ _ _ (ch_legal _ _ _ _ _ _ Hc)) as Hl. pose proof (ch_state _ _ _ _ _ _ Hc) as Him. split.
  - apply chain_of_pages; [apply restart_chain_length; [apply checked_size|done]| |intros k p Hk; by rewrite (sl_sequences _ _ Hl k p Hk)|].
    + intros k g Hg. destruct (restart_chain_lookup _ _ _ _ _ checked_size Him Hg) as (p & ? & ? & _ & ?). eauto.
    + pose proof (sl_counters _ _ Hl) as Hh. destruct (head pages) as [first|] eqn:E; [|done].
      by apply (linked_pages first pages E), (sl_linked _ _ Hl).
  - pose proof (sl_counters _ _ Hl) as Hh. destruct pages as [|first rest]; [done|]. injection Hh as Hh. by exists first, rest.
  - apply (sl_below _ _ Hl).
  - apply (sl_covered _ _ Hl).
Qed.

Lemma restart_chain_bytes : Forall (fun g => Forall is_byte (cg_image g)) chain.
Proof.
  apply Forall_lookup. intros i g Hg. destruct (restart_chain_lookup _ _ _ _ _ checked_size (ch_state _ _ _ _ _ _ Hc) Hg) as (_ & _ & _ & -> & _). by apply slice_bytes.
Qed.

(** A word of a page, with its page's bytes legal. *)
Lemma checked_word p i w : p ∈ pages -> tp_words p !! i = Some w -> word_legal w.
Proof.
  intros Hin Hw. apply list_elem_of_lookup in Hin as [k Hk]. destruct (images_of_page _ _ _ _ _ _ (ch_state _ _ _ _ _ _ Hc) Hk) as [Hp _].
  pose proof (page_slice_bytes page_size state_images k Hb) as Hbk. apply page_of_iff in Hp as (Hf & Hwo & ->). cbn [tp_words page_at] in Hw.
  assert (Hs : N.of_nat i < slots_at (page_slice page_size state_images k)) by (apply lookup_lt_Some in Hw; rewrite length_words_at in Hw; lia).
  destruct (lookup_words_at _ (N.of_nat i) Hwo Hs) as (w' & H1 & H2 & _). rewrite Nat2N.id, Hw in H1. apply (inj Some) in H1 as <-.
  by apply (word_bytes_at _ (N.of_nat i) w Hbk H2).
Qed.

(** Marking keeps a word in agreement with its header. *)
Lemma mark_agrees w h :
  word_legal w -> (tw_state w <> tip_unused -> agrees w h) -> MarkDead (tw_state w) = true -> agrees (with_state tip_dead w) h.
Proof.
  intros (_ & _ & _ & Hu) Ha Hm. split; cbn [with_state tw_state tw_flags]; try (intros; destruct_or?; done).
  intros ->. split; [done|]. destruct (decide (tw_state w = tip_unused)) as [E|E]; [by rewrite (Hu E)|].
  destruct (Ha E) as [H1 _ _ _]. destruct (H1 eq_refl) as [E' _]. by rewrite E' in Hm.
Qed.

(** However much of the restart was written, the pages are legal. *)
Lemma partly_legal pages' :
  Forall2 (partly_marked (scan_from c) (tc_next_transaction c)) pages pages' -> inventory_legal pages' headers c.
Proof.
  intros H2. pose proof (ch_legal _ _ _ _ _ _ Hc) as [[L1 L2 L3 L4 L5 L6] Hh Ha].
  assert (Hpage : forall i p', pages' !! i = Some p' -> exists p, pages !! i = Some p /\ partly_marked (scan_from c) (tc_next_transaction c) p p').
  { intros i p' Hi. by eapply Forall2_lookup_r in H2 as (p & ? & ?); [|exact Hi]; eauto. }
  assert (Hhead : forall f', head pages' = Some f' -> exists f, head pages = Some f /\ partly_marked (scan_from c) (tc_next_transaction c) f f').
  { intros f' Hf. destruct (Hpage 0%nat f') as (f & Hf0 & ?); [by destruct pages'|]. exists f. by destruct pages. }
  assert (Hframe : forall p p', partly_marked (scan_from c) (tc_next_transaction c) p p' ->
    tp_header p' = tp_header p /\ tp_sequence p' = tp_sequence p /\ tp_counters p' = tp_counters p /\ tp_next_page p' = tp_next_page p /\
    tp_header_chain p' = tp_header_chain p) by (intros p p' [-> _]; done).
  assert (Hlink : state_link <$> pages' = state_link <$> pages).
  { clear -H2 Hframe. induction H2 as [|p p' ps ps' Hp _ IH]; [done|]. cbn. rewrite IH. f_equal. unfold state_link. by destruct (Hframe _ _ Hp) as (-> & _ & _ & -> & _). }
  split; [split| |].
  - destruct H2 as [|p p' ps ps' Hp _]; [done|]. cbn in *. by destruct (Hframe _ _ Hp) as (_ & _ & -> & _).
  - intros i p' Hi. destruct (Hpage i p' Hi) as (p & Hp & Hm). destruct (Hframe _ _ Hm) as (_ & -> & _). by apply L2.
  - intros p' f' Hin Hf. apply list_elem_of_lookup in Hin as [k Hk]. destruct (Hpage k p' Hk) as (p & Hp & Hm). destruct (Hhead f' Hf) as (f & Hf0 & Hmf).
    destruct (Hframe _ _ Hm) as (-> & _). destruct (Hframe _ _ Hmf) as (-> & _). apply L3; [by apply list_elem_of_lookup_2 in Hp|done].
  - intros f' Hf. destruct (Hhead f' Hf) as (f & Hf0 & Hmf). destruct (Hframe _ _ Hmf) as (-> & _). rewrite Hlink. by apply L4.
  - apply Forall_lookup. intros i p' Hi i' Hi' Hge. rewrite lookup_tail in Hi. destruct (Hpage (S i) p' Hi) as (p & Hp & Hm).
    rewrite (partly_length _ _ _ _ Hm) in Hi'. rewrite (partly_number _ _ _ _ i' Hm) in Hge.
    destruct (partly_state _ _ _ _ i' Hm) as [->|(Hx & _)]; [|lia]. eapply Forall_lookup_1 in L5; [by apply L5|]. by rewrite lookup_tail.
  - intros p' Hl'. rewrite last_lookup, <- (Forall2_length _ _ _ H2) in Hl'. destruct (Hpage _ p' Hl') as (p & Hp & Hm).
    rewrite (partly_number _ _ _ _ _ Hm), (partly_length _ _ _ _ Hm). apply L6. by rewrite last_lookup.
  - intros f' Hf. destruct (Hhead f' Hf) as (f & Hf0 & Hmf). destruct (Hframe _ _ Hmf) as (E1 & _ & _ & _ & E2). destruct (Hh f Hf0) as [G1 G2 G3 G4 G5].
    split; rewrite ?E1, ?E2; done.
  - intros p' i w' Hin Hw' Hu Hlt. apply list_elem_of_lookup in Hin as [k Hk]. destruct (Hpage k p' Hk) as (p & Hp & Hm).
    rewrite (partly_number _ _ _ _ i Hm) in Hlt |- *. pose proof (list_elem_of_lookup_2 _ _ _ Hp) as Hin.
    destruct (pm_word _ _ _ _ Hm i) as [E|E]; rewrite E in Hw'; [by apply Ha|]. rewrite restarted_lookup in Hw'.
    destruct (tp_words p !! i) as [w|] eqn:Hw; [|done]. apply (inj Some) in Hw' as <-. case_decide as Hr; [|by apply Ha].
    unfold mark_word in *. destruct (MarkDead (tw_state w)) eqn:Hmd; [|by apply Ha]. apply mark_agrees; [by apply (checked_word p i)| |done].
    intros Hne. by apply Ha.
Qed.

(** *** The images of a chain *)

Lemma joined_chain i (g : list TipChainPage) ps :
  state_chain i g ps -> Forall (fun x => length (cg_image x) = N.to_nat page_size) g ->
  images_of page_of page_size (mjoin (cg_image <$> g)) ps.
Proof.
  intros Hch Hlen. apply join_images. revert i ps Hch. induction Hlen as [|x g Hx _ IH]; intros i [|p ps] Hch; try done.
  cbn [state_chain] in Hch. destruct Hch as (H1 & _ & _ & _ & H2). constructor; [done|by apply (IH (i + 1))].
Qed.

Lemma restart_chain_sizes : Forall (fun g => length (cg_image g) = N.to_nat page_size) chain.
Proof.
  apply Forall_lookup. intros i g Hg. destruct (restart_chain_lookup _ _ _ _ _ checked_size (ch_state _ _ _ _ _ _ Hc) Hg) as (p & Hp & _ & -> & _).
  by apply (images_of_page _ _ _ _ _ _ (ch_state _ _ _ _ _ _ Hc) Hp).
Qed.

(** A chain of as many pages, some of them restarted, is checked with the same headers. *)
Lemma partly_checked g pages' :
  restartable g pages' c -> Forall2 (partly_marked (scan_from c) (tc_next_transaction c)) pages pages' ->
  Forall (fun x => length (cg_image x) = N.to_nat page_size) g ->
  checked page_size (mjoin (cg_image <$> g)) header_images pages' headers c.
Proof. intros Hr Hp Hl. split; [by apply (joined_chain 0 g), Hl; apply Hr|apply Hc|by apply partly_legal]. Qed.
End restart.

Lemma crashed_images chain crashed :
  length crashed = length chain -> cg_image <$> crashed_chain chain crashed = crashed.
Proof.
  revert crashed. induction chain as [|g chain IH]; intros [|m crashed] H; try done. cbn. f_equal. apply IH. by injection H.
Qed.

Lemma crashed_sizes size chain images crashed :
  Forall (fun g => length (cg_image g) = size) chain -> length images = length chain ->
  Forall2 (fun gl m => torn (cg_image gl.1) gl.2 m) (zip chain images) crashed ->
  Forall (fun g => length (cg_image g) = size) (crashed_chain chain crashed) /\ length crashed = length chain.
Proof.
  intros Hs. revert images crashed. induction Hs as [|g chain Hg _ IH]; intros [|l images] crashed Hl Ht; try done.
  - apply Forall2_nil_inv_l in Ht as ->. split; [constructor|done].
  - cbn [zip_with] in Ht. apply Forall2_cons_inv_l in Ht as (m & crashed' & [Hm _] & Ht & ->). destruct (IH images crashed') as [H1 H2]; [by injection Hl|done|].
    split; [constructor; [cbn in *; lia|done]|cbn; by rewrite H2].
Qed.

Lemma restarted_images page_size chain images ps :
  Forall2 (fun l p => Forall is_byte l /\ page_of l = Some p) images ps -> Forall2 (fun g l => same_frame (cg_image g) l) chain images ->
  Forall (fun g => length (cg_image g) = N.to_nat page_size) chain -> images_of page_of page_size (mjoin images) ps.
Proof.
  intros W1 W2 Hs. apply join_images. revert chain W2 Hs. induction W1 as [|l p ls ps [_ Hp] _ IH]; intros chain W2 Hs; [constructor|].
  inversion W2 as [|g ? chain' ? [Hl _] W2']; subst. inversion Hs; subst. constructor; [split; [done|lia]|by apply (IH chain')].
Qed.

Lemma torn_new chain images :
  Forall2 (fun g l => same_frame (cg_image g) l) chain images ->
  Forall2 (fun gl m => torn (cg_image gl.1) gl.2 m) (zip chain images) images.
Proof. induction 1 as [|g l chain images [Hl _] _ IH]; [constructor|]. cbn. constructor; [|done]. split; [done|]. intros k. by right. Qed.

(** C12: restart and the check agree.  On an inventory the check accepts, restart of the
    state chain is accepted; and whatever part of its writes a crash lets through, each
    512-byte unit old or new, the check accepts the state pages with the same header pages
    and reports the same counters.  When every write has gone through, no number from the
    lower of OIT and OAT up to [Next] is left in progress. *)
Theorem restart_keeps_inventory (page_size : N) (state_images header_images : list N) (check : TransactionInventoryCheck)
    (Hb : Forall is_byte state_images)
    (Hs : N.of_nat (length state_images) < 2 ^ 48) (Hh : N.of_nat (length header_images) < 2 ^ 48)
    (Hcheck : CheckTransactionInventoryImages page_size state_images header_images = Some check) (Hok : ic_error check = tpe_none) :
  exists plan images, PlanTransactionStateRestart (restart_chain page_size state_images) = Some (plan, images) /\ rp_error plan = tpe_none /\
    (forall crashed, Forall2 (fun gl m => torn (cg_image gl.1) gl.2 m) (zip (restart_chain page_size state_images) images) crashed ->
       CheckTransactionInventoryImages page_size (mjoin crashed) header_images = Some check) /\
    CheckTransactionInventoryImages page_size (mjoin images) header_images = Some check /\
    (forall pages p i, images_of page_of page_size (mjoin images) pages -> p ∈ pages -> (i < length (tp_words p))%nat ->
       scan_from (ic_counters check) <= number_of p i < tc_next_transaction (ic_counters check) -> MarkDead (state_of p i) = false).
Proof.
  destruct (check_images_spec page_size state_images header_images Hb Hs Hh) as (check' & Hrun & H1 & _). rewrite Hrun in Hcheck.
  apply (inj Some) in Hcheck as ->. destruct (H1 Hok) as [Heq (pages & headers & Hc)]. set (c := ic_counters check) in *.
  pose proof (checked_size _ _ _ _ _ _ Hc) as Hps. pose proof (checked_restartable _ _ _ _ _ _ Hc) as Hr.
  pose proof (restart_chain_bytes _ _ _ _ _ _ Hb Hc) as Hcb. pose proof (restart_chain_sizes _ _ _ _ _ _ Hc) as Hcs.
  pose proof (restart_chain_length _ _ _ Hps (ch_state _ _ _ _ _ _ Hc)) as Hcl.
  pose proof (count_small _ _ _ Hps (proj1 (ch_state _ _ _ _ _ _ Hc)) Hs) as Hcn. set (chain := restart_chain page_size state_images) in *.
  destruct (plan_accepted chain Hcb ltac:(rewrite Hcl; exact Hcn) pages c Hr) as (works & Hplan & Hw). rewrite Hplan.
  destruct (works_images _ _ _ _ _ (state_chain_length _ _ _ (ra_chain _ _ _ Hr)) Hw) as (W1 & W2 & _ & _).
  set (images := zip_with (fun g work => default (cg_image g) work) chain works) in *.
  assert (Hcrash : forall crashed, Forall2 (fun gl m => torn (cg_image gl.1) gl.2 m) (zip chain images) crashed ->
    CheckTransactionInventoryImages page_size (mjoin crashed) header_images = Some check).
  { intros crashed Ht. destruct (crashed_restartable chain pages c images crashed Hr Hcb W1 W2 Ht) as (pages' & Hr' & Hpart & Hb' & _).
    destruct (crashed_sizes _ chain images crashed Hcs ltac:(symmetry; by apply (Forall2_length _ _ _ W2)) Ht) as [Hsz Hlen].
    pose proof (partly_checked _ _ _ _ _ _ Hb Hc _ _ Hr' Hpart Hsz) as Hck. rewrite crashed_images in Hck by done. rewrite Heq. fold c.
    apply (checked_accepted _ _ _) with pages' headers; [..|done].
    - rewrite <- (crashed_images chain crashed Hlen). clear -Hb'. induction Hb'; [constructor|]. cbn. by apply Forall_app.
    - rewrite (proj1 (ch_state _ _ _ _ _ _ Hck)), <- (Forall2_length _ _ _ Hpart), <- (proj1 (ch_state _ _ _ _ _ _ Hc)). done.
    - done. }
  do 2 eexists. split; [done|]. split; [done|]. split; [done|]. split; [apply Hcrash, torn_new, W2|].
  intros pages' p i Him Hin Hi Hrange.
  assert (Hpages : images_of page_of page_size (mjoin images) (restarted (scan_from c) (tc_next_transaction c) <$> pages)).
  { by apply (restarted_images page_size chain). }
  pose proof (images_of_unique _ _ _ _ _ Hps Him Hpages) as ->. apply list_elem_of_fmap in Hin as (q & -> & _).
  unfold state_of. rewrite restarted_lookup. unfold restarted in Hi, Hrange. cbn [tp_words with_words] in Hi. rewrite length_imap in Hi.
  destruct (lookup_lt_is_Some_2 (tp_words q) i Hi) as [w Hq]. rewrite Hq. cbn.
  assert (Hnum : number_of (with_words q (imap (fun i w => if decide (scan_from c <= number_of q i < tc_next_transaction c) then mark_word w else w) (tp_words q))) i
    = number_of q i) by (unfold number_of; cbn [tp_sequence tp_words with_words]; by rewrite length_imap).
  rewrite Hnum in Hrange. rewrite decide_True by done. unfold mark_word. destruct (MarkDead (tw_state w)) eqn:E; [done|exact E].
Qed.

(** ** The numbers of a checked inventory *)

Definition word_of_number (pages : list tip_page) (n : N) : option TipStateWord :=
  first ← head pages;
  let slots := N.of_nat (length (tp_words first)) in
  page ← pages !! N.to_nat (n / slots);
  tp_words page !! N.to_nat (n mod slots).

(** A transaction of the inventory: its number, state and header. *)
Record inventory_row := mkRow { row_number : N; row_state : TipStateCode; row_header : TransactionHeaderRecord }.

Definition row_of (pages : list tip_page) (headers : list header_page) (n : N) : option inventory_row :=
  w ← word_of_number pages n;
  if decide (tw_state w = tip_unused) then None
  else r ← header_of_number headers n; Some (mkRow n (tw_state w) r).

(** The rows of [count] numbers from [a] on. *)
Definition rows_from (pages : list tip_page) (headers : list header_page) (a : N) (count : nat) : list inventory_row :=
  omap (fun k => row_of pages headers (a + N.of_nat k)) (seq 0 count).

(** The transactions below [Next]. *)
Definition inventory_rows (pages : list tip_page) (headers : list header_page) (next : N) : list inventory_row :=
  rows_from pages headers 0 (N.to_nat next).

Definition row_entry (r : inventory_row) : TransactionInventoryEntry :=
  built_entry (row_number r) (default ts_none (InMemoryTransactionState (row_state r))) (row_header r).
Definition row_committed (r : inventory_row) : bool := HasCommittedInventoryOutcome (row_entry r).

(** The commit time and place of each committed row. *)
Definition commits_of (rows : list inventory_row) : list (N * nat) :=
  omap (fun x : nat * inventory_row => if row_committed x.2 then Some (hr_commit_time_utc_ns (row_header x.2), x.1) else None)
    (imap pair rows).

Definition build_of (rows : list inventory_row) : build_state := mkBuildState (row_entry <$> rows) (commits_of rows).

Lemma omap_app {A B} (f : A -> option B) (l k : list A) : omap f (l ++ k) = omap f l ++ omap f k.
Proof. induction l as [|x l IH]; [done|]. cbn. destruct (f x); cbn; by rewrite IH. Qed.

Lemma commits_of_snoc rows r :
  commits_of (rows ++ [r]) = commits_of rows ++ (if row_committed r then [(hr_commit_time_utc_ns (row_header r), length rows)] else []).
Proof. unfold commits_of. rewrite imap_app, omap_app. cbn. rewrite Nat.add_0_r. by destruct (row_committed r). Qed.

Definition row_list (o : option inventory_row) : list inventory_row := match o with Some r => [r] | None => [] end.

Lemma rows_from_S pages headers a count :
  rows_from pages headers a (S count) = row_list (row_of pages headers a) ++ rows_from pages headers (a + 1) count.
Proof.
  unfold rows_from. cbn [seq]. rewrite <- (fmap_S_seq 0). cbn [omap list_omap]. rewrite N.add_0_r.
  assert (E : omap (fun k => row_of pages headers (a + N.of_nat k)) (S <$> seq 0 count) =
              omap (fun k => row_of pages headers (a + 1 + N.of_nat k)) (seq 0 count)).
  { generalize (seq 0 count). induction l as [|k l IH]; [done|]. cbn. replace (a + N.of_nat (S k)) with (a + 1 + N.of_nat k) by lia.
    destruct (row_of pages headers (a + 1 + N.of_nat k)); by rewrite IH. }
  change (omap _ (S <$> seq 0 count)) with (omap (fun k => row_of pages headers (a + N.of_nat k)) (S <$> seq 0 count)).
  by destruct (row_of pages headers a); cbn; rewrite E.
Qed.

Lemma rows_from_app pages headers a m k :
  rows_from pages headers a (m + k) = rows_from pages headers a m ++ rows_from pages headers (a + N.of_nat m) k.
Proof.
  revert a. induction m as [|m IH]; intros a; [cbn; by rewrite N.add_0_r|]. cbn [Nat.add]. rewrite !rows_from_S, IH, <- app_assoc.
  do 3 f_equal. lia.
Qed.

Lemma rows_from_length pages headers a count : (length (rows_from pages headers a count) <= count)%nat.
Proof.
  revert a. induction count as [|count IH]; intros a; [done|]. rewrite rows_from_S, length_app. specialize (IH (a + 1)).
  destruct (row_of pages headers a) as [x|]; cbn [row_list length]; lia.
Qed.

Lemma rows_from_elem pages headers a count r :
  r ∈ rows_from pages headers a count <-> a <= row_number r < a + N.of_nat count /\ row_of pages headers (row_number r) = Some r.
Proof.
  assert (Hnum : forall n x, row_of pages headers n = Some x -> row_number x = n).
  { intros n x H. unfold row_of in H. destruct (word_of_number pages n); [|done]. cbn in H. case_decide; [done|].
    destruct (header_of_number headers n); [|done]. cbn in H. by apply (inj Some) in H as <-. }
  revert a. induction count as [|count IH]; intros a.
  { split; [intros H; by apply not_elem_of_nil in H|lia]. }
  rewrite rows_from_S, elem_of_app, IH. destruct (row_of pages headers a) as [x|] eqn:E; cbn [row_list].
  - rewrite list_elem_of_singleton. pose proof (Hnum _ _ E) as Hx. split.
    + intros [->|[H1 H2]]; [split; [lia|by rewrite Hx]|split; [lia|done]].
    + intros [H1 H2]. destruct (decide (row_number r = a)) as [Ea|]; [left|right; split; [lia|done]]. rewrite Ea, E in H2. by apply (inj Some) in H2.
  - split; [intros [H|[H1 H2]]; [by apply not_elem_of_nil in H|split; [lia|done]]|].
    intros [H1 H2]. right. split; [|done]. destruct (decide (row_number r = a)) as [Ea|]; [|lia]. congruence.
Qed.

Lemma rows_from_numbers pages headers a count : NoDup (row_number <$> rows_from pages headers a count).
Proof.
  revert a. induction count as [|count IH]; intros a; [constructor|]. rewrite rows_from_S, fmap_app.
  destruct (row_of pages headers a) as [x|] eqn:E; cbn [row_list fmap list_fmap app]; [|apply IH]. constructor; [|apply IH].
  intros H. apply list_elem_of_fmap in H as (y & H1 & H2). apply rows_from_elem in H2 as [H2 _].
  unfold row_of in E. destruct (word_of_number pages a); [|done]. cbn in E. case_decide; [done|].
  destruct (header_of_number headers a); [|done]. cbn in E. apply (inj Some) in E as <-. cbn in H1. lia.
Qed.

(** ** The loop of the build *)

Section build.
Context (page_size : N) (state_images header_images : list N) (pages : list tip_page) (headers : list header_page) (c : TipCounters).
Context (Hc : checked page_size state_images header_images pages headers c) (Hs : N.of_nat (length state_images) < 2 ^ 48).
Let next := tc_next_transaction c.
Let slots := TipSlotsPerPage page_size.

Lemma checked_page i p :
  pages !! i = Some p ->
  page_of (page_slice page_size state_images i) = Some p /\ tp_sequence p = N.of_nat i /\ N.of_nat (length (tp_words p)) = slots /\ numbers_fit p.
Proof.
  intros Hi. destruct (images_of_page _ _ _ _ _ _ (ch_state _ _ _ _ _ _ Hc) Hi) as [H1 H2].
  pose proof (sl_sequences _ _ (lg_state _ _ _ (ch_legal _ _ _ _ _ _ Hc)) i p Hi) as H3.
  split; [done|]. split; [done|]. split; [rewrite (state_page_slots _ _ H1), H2, N2Nat.id; done|]. apply (sequence_fits _ _ i H1 H3).
  pose proof (count_small _ _ _ (checked_size _ _ _ _ _ _ Hc) (proj1 (ch_state _ _ _ _ _ _ Hc)) Hs). apply lookup_lt_Some in Hi. lia.
Qed.

Lemma state_slots_positive : 0 < slots.
Proof.
  pose proof (sl_counters _ _ (lg_state _ _ _ (ch_legal _ _ _ _ _ _ Hc))) as Hh. assert (Hp : exists p, pages !! 0%nat = Some p) by (destruct pages; [done|eauto]).
  destruct Hp as [p Hp]. destruct (checked_page 0 p Hp) as (H1 & _ & H3 & _). rewrite <- H3.
  apply page_of_iff in H1 as (Hf & _ & ->). cbn [tp_words page_at]. rewrite length_words_at. pose proof (fo_slots _ (fk_family _ _ Hf)). lia.
Qed.

Lemma word_of_number_at i p j :
  pages !! i = Some p -> (j < length (tp_words p))%nat -> word_of_number pages (number_of p j) = tp_words p !! j.
Proof.
  intros Hi Hj. destruct (checked_page i p Hi) as (_ & H2 & H3 & _). pose proof state_slots_positive.
  assert (Hh : exists f, head pages = Some f /\ pages !! 0%nat = Some f) by (destruct pages; [done|eauto]). destruct Hh as (f & Hf & Hf0).
  destruct (checked_page 0 f Hf0) as (_ & _ & H4 & _). unfold word_of_number. rewrite Hf. cbn [mbind option_bind]. rewrite H4. unfold number_of. rewrite H2, H3.
  replace (N.of_nat i * slots + N.of_nat j) with (N.of_nat j + N.of_nat i * slots) by lia.
  rewrite N.div_add, N.Div0.mod_add, N.div_small, N.mod_small by lia. by rewrite N.add_0_l, !Nat2N.id, Hi.
Qed.

Lemma memory_state s : exists m, InMemoryTransactionState s = Some m.
Proof. by destruct s; eexists. Qed.

(** One page, from slot [j] on. *)
Lemma build_slots_spec i p capacity count j rows :
  pages !! i = Some p -> (j + count <= length (tp_words p))%nat ->
  N.of_nat (length (rows ++ rows_from pages headers (number_of p j) count)) <= capacity ->
  build_slots page_size header_images (TransactionHeaderSlotsPerPage page_size) capacity (tip_view (page_slice page_size state_images i)) (N.of_nat j) count (build_of rows) =
  Some (inr (build_of (rows ++ rows_from pages headers (number_of p j) count))).
Proof.
  intros Hi. destruct (checked_page i p Hi) as (Hp & _ & _ & Hfit). destruct (view_numbers _ _ Hp Hfit) as (_ & _ & Hnum).
  revert j rows. induction count as [|count IH]; intros j rows Hj Hcap; cbn [build_slots]; [by rewrite app_nil_r|].
  destruct (lookup_lt_is_Some_2 (tp_words p) j) as [w Hw]; [lia|]. rewrite (view_word _ p j w Hp Hw).
  replace (N.of_nat j + 1) with (N.of_nat (S j)) by lia. rewrite rows_from_S in *.
  assert (Hnext : number_of p j + 1 = number_of p (S j)) by (unfold number_of; lia). rewrite Hnext in *.
  assert (Hrow : row_of pages headers (number_of p j) = if decide (tw_state w = tip_unused) then None
    else r ← header_of_number headers (number_of p j); Some (mkRow (number_of p j) (tw_state w) r)).
  { unfold row_of. rewrite (word_of_number_at i p j Hi), Hw by lia. done. }
  rewrite Hrow in *. destruct (decide (tw_state w = tip_unused)) as [Hu|Hu]; [apply IH; [lia|done]|].
  destruct (checked_shape _ _ _ _ _ _ Hc) as (_ & _ & _ & _ & _ & first & _ & Hhl).
  rewrite Hnum by lia. rewrite (header_of_spec _ _ _ (ch_header _ _ _ _ _ _ Hc) (hs_some _ _ _ Hhl)). cbn [mbind option_bind] in *.
  destruct (header_of_number headers (number_of p j)) as [r|]; cbn [mbind option_bind row_list] in *; [|apply IH; [lia|done]].
  destruct (memory_state (tw_state w)) as [m Hm]. rewrite Hm. cbn [bd_entries bd_commits build_of].
  rewrite length_fmap, decide_False by (rewrite !length_app in Hcap; cbn [length] in Hcap; lia).
  assert (Hentry : built_entry (number_of p j) m r = row_entry (mkRow (number_of p j) (tw_state w) r)) by (unfold row_entry; cbn [row_state row_number row_header]; by rewrite Hm).
  rewrite Hentry. fold (row_committed (mkRow (number_of p j) (tw_state w) r)). set (row := mkRow (number_of p j) (tw_state w) r) in *.
  assert (Hst : mkBuildState ((row_entry <$> rows) ++ [row_entry row])
    (if row_committed row then commits_of rows ++ [(hr_commit_time_utc_ns r, length rows)] else commits_of rows) = build_of (rows ++ [row])).
  { unfold build_of. rewrite fmap_app, commits_of_snoc. cbn [fmap list_fmap]. destruct (row_committed row); [done|by rewrite app_nil_r]. }
  rewrite Hst, (app_assoc rows). cbn [app]. apply IH; [lia|]. by rewrite <- app_assoc.
Qed.

(** The numbers below the limit of each page, page after page. *)
Lemma build_pages_spec capacity count i :
  (i + count = length pages)%nat ->
  (forall m, (m <= N.to_nat next)%nat -> N.of_nat (length (rows_from pages headers 0 m)) <= capacity) ->
  build_pages page_size state_images header_images (TransactionHeaderSlotsPerPage page_size) capacity next i count
    (build_of (rows_from pages headers 0 (N.to_nat (N.min next (N.of_nat i * slots))))) =
  Some (inr (build_of (rows_from pages headers 0 (N.to_nat (N.min next (N.of_nat (length pages) * slots)))))).
Proof.
  intros Hi Hcap. revert i Hi. induction count as [|count IH]; intros i Hi; cbn [build_pages]; [by replace (length pages) with i by lia|].
  rewrite (page_image_some page_size state_images (length pages)) by (apply (ch_state _ _ _ _ _ _ Hc) || lia). cbn [mbind option_bind].
  destruct (lookup_lt_is_Some_2 pages i) as [p Hp]; [lia|]. destruct (checked_page i p Hp) as (Hpage & Hseq & Hlen & Hfit).
  rewrite (page_of_view _ _ Hpage). cbn [mbind option_bind]. destruct (view_numbers _ _ Hpage Hfit) as (Hv1 & Hv2 & _).
  assert (Hn0 : number_of p 0 = N.of_nat i * slots) by (unfold number_of; rewrite Hseq, Hlen; lia).
  assert (Hlim : slot_limit (tip_view (page_slice page_size state_images i)) next = N.min next (N.of_nat (S i) * slots) - N.min next (N.of_nat i * slots)).
  { unfold slot_limit. rewrite Hv1, Hv2, Hn0, Hlen. case_decide; lia. }
  assert (Hrows : rows_from pages headers 0 (N.to_nat (N.min next (N.of_nat i * slots))) ++
    rows_from pages headers (number_of p 0) (N.to_nat (slot_limit (tip_view (page_slice page_size state_images i)) next)) =
    rows_from pages headers 0 (N.to_nat (N.min next (N.of_nat (S i) * slots)))).
  { rewrite Hlim, Hn0. destruct (decide (N.of_nat i * slots <= next)) as [Hle|Hgt].
    - replace (N.to_nat (N.min next (N.of_nat (S i) * slots))) with (N.to_nat (N.min next (N.of_nat i * slots)) +
        N.to_nat (N.min next (N.of_nat (S i) * slots) - N.min next (N.of_nat i * slots)))%nat by lia.
      rewrite rows_from_app. do 2 f_equal. lia.
    - replace (N.min next (N.of_nat (S i) * slots) - N.min next (N.of_nat i * slots)) with 0 by lia. rewrite app_nil_r. f_equal. lia. }
  change 0 with (N.of_nat 0) at 1. rewrite (build_slots_spec i p); [|done|rewrite Hlim; cbn [Nat.add]; lia|rewrite Hrows; apply Hcap; lia].
  cbn [mbind option_bind]. rewrite Hrows. apply IH. lia.
Qed.
End build.

(** ** Commit sequences *)

(** How many commits come no later than this one. *)
Definition commit_rank (rows : list inventory_row) (x : N * nat) : N :=
  N.of_nat (length (filter (fun y => commit_le y x) (commits_of rows))).

(** The entries with their commit sequences: the place of the commit in the order of commit
    times, ties by number. *)
Definition built_entries (rows : list inventory_row) : list TransactionInventoryEntry :=
  imap (fun i r => with_commit_sequence (row_entry r)
          (if row_committed r then commit_rank rows (hr_commit_time_utc_ns (row_header r), i) else 0)) rows.

#[export] Instance commit_le_trans : Transitive commit_le.
Proof. intros [a i] [b j] [d k]. unfold commit_le. cbn. lia. Qed.
#[export] Instance commit_le_total : Total commit_le.
Proof. intros [a i] [b j]. unfold commit_le. cbn. lia. Qed.

Lemma sorted_rank {A} (R : A -> A -> Prop) `{!RelDecision R} (l : list A) j x :
  (forall a, R a a) -> (forall a b, R a b -> R b a -> a = b) -> StronglySorted R l -> NoDup l -> l !! j = Some x ->
  length (filter (fun y => R y x) l) = S j.
Proof.
  intros Hrefl Hanti Hsort. revert j. induction Hsort as [|a l Hsort IH Ha]; intros j Hnd Hj; [done|].
  apply NoDup_cons in Hnd as [Hnot Hnd]. rewrite Forall_forall in Ha. rewrite filter_cons. destruct j as [|j].
  - injection Hj as ->. rewrite decide_True by done. cbn [length]. f_equal.
    assert (Hnone : forall l', (forall y, y ∈ l' -> R x y /\ y <> x) -> filter (fun y => R y x) l' = []).
    { induction l' as [|y l' IHl]; intros H; [done|]. rewrite filter_cons, decide_False.
      - apply IHl. intros z Hz. apply H. set_solver.
      - intros Hy. destruct (H y) as [H1 H2]; [set_solver|]. by apply H2, Hanti. }
    rewrite Hnone; [done|]. intros y Hy. split; [by apply Ha|]. by intros ->.
  - cbn in Hj. rewrite decide_True by (apply Ha; by apply list_elem_of_lookup_2 in Hj). cbn [length]. f_equal. by apply IH.
Qed.

Lemma length_number_commits k cs es : length (number_commits k cs es) = length es.
Proof. revert k es. induction cs as [|[t i] cs IH]; intros k es; [done|]. cbn. by rewrite IH, length_alter. Qed.

Lemma number_commits_other k cs es i : i ∉ cs.*2 -> number_commits k cs es !! i = es !! i.
Proof.
  revert k es. induction cs as [|[t j] cs IH]; intros k es Hi; [done|]. cbn in Hi |- *. apply not_elem_of_cons in Hi as [H1 H2].
  rewrite IH by done. by apply list_lookup_alter_ne.
Qed.

Lemma number_commits_at k cs es j t i :
  NoDup (cs.*2) -> cs !! j = Some (t, i) -> number_commits k cs es !! i = (fun e => with_commit_sequence e (k + N.of_nat j)) <$> es !! i.
Proof.
  revert k es j. induction cs as [|[t' i'] cs IH]; intros k es j Hnd Hj; [done|]. cbn in Hnd |- *. apply NoDup_cons in Hnd as [H1 H2]. destruct j as [|j].
  - injection Hj as -> ->. rewrite number_commits_other by done. rewrite list_lookup_alter_eq. by replace (k + N.of_nat 0) with k by lia.
  - cbn in Hj. rewrite (IH _ _ j H2 Hj). assert (Hne : i' <> i).
    { intros ->. apply H1. apply list_elem_of_fmap. exists (t, i). split; [done|]. by apply list_elem_of_lookup_2 in Hj. }
    rewrite list_lookup_alter_ne by done. by replace (k + N.of_nat (S j)) with (k + 1 + N.of_nat j) by lia.
Qed.

Lemma commits_elem rows t i :
  (t, i) ∈ commits_of rows <-> exists r, rows !! i = Some r /\ row_committed r = true /\ t = hr_commit_time_utc_ns (row_header r).
Proof.
  unfold commits_of. rewrite list_elem_of_omap. split.
  - intros ([k r] & Hx & Hf). cbn in Hf. apply elem_of_lookup_imap in Hx as (k' & r' & [= -> ->] & Hl).
    destruct (row_committed r') eqn:E; [|done]. injection Hf as <- <-. eauto.
  - intros (r & Hl & Hcm & ->). exists (i, r). cbn. rewrite Hcm. split; [|done]. apply elem_of_lookup_imap. eauto.
Qed.

Lemma commits_indices rows : NoDup ((commits_of rows).*2).
Proof.
  induction rows as [|r rows IH] using rev_ind; [constructor|]. rewrite commits_of_snoc, fmap_app. destruct (row_committed r); [|by rewrite app_nil_r].
  apply NoDup_app. split; [done|]. split; [|apply NoDup_singleton]. intros i Hi H. cbn in H. apply list_elem_of_singleton in H as ->.
  apply list_elem_of_fmap in Hi as ([t k] & Hk & Hin). cbn in Hk. apply commits_elem in Hin as (x & Hx & _). apply lookup_lt_Some in Hx. lia.
Qed.

Section sorted_commits.
Context (rows : list inventory_row).
Let sorted := merge_sort commit_le (commits_of rows).

Lemma sorted_permutation : sorted ≡ₚ commits_of rows.
Proof. apply merge_sort_Permutation. Qed.
Lemma sorted_indices_nodup : NoDup (sorted.*2).
Proof. rewrite sorted_permutation. apply commits_indices. Qed.

Lemma commit_position r i :
  rows !! i = Some r -> row_committed r = true ->
  exists j, sorted !! j = Some (hr_commit_time_utc_ns (row_header r), i) /\
    commit_rank rows (hr_commit_time_utc_ns (row_header r), i) = N.of_nat (S j).
Proof.
  intros Hi Hr. assert (Hin : (hr_commit_time_utc_ns (row_header r), i) ∈ sorted) by (rewrite sorted_permutation; apply commits_elem; eauto).
  apply list_elem_of_lookup in Hin as [j Hj]. exists j. split; [done|]. unfold commit_rank. rewrite <- sorted_permutation. f_equal.
  apply (sorted_rank commit_le); [|..|done].
  - intros [a k]. unfold commit_le. cbn. lia.
  - intros [a k] [b m]. unfold commit_le. cbn. intros H1 H2. f_equal; lia.
  - apply StronglySorted_merge_sort; apply _.
  - eapply NoDup_fmap_1. apply sorted_indices_nodup.
Qed.

Lemma number_commits_built : number_commits 1 sorted (row_entry <$> rows) = built_entries rows.
Proof.
  apply list_eq. intros i. unfold built_entries. rewrite list_lookup_imap. destruct (rows !! i) as [r|] eqn:Hi.
  2: { cbn. apply lookup_ge_None. rewrite length_number_commits, length_fmap. by apply lookup_ge_None. }
  cbn. destruct (row_committed r) eqn:Hr.
  - destruct (commit_position r i Hi Hr) as (j & Hj & ->). rewrite (number_commits_at _ _ _ _ _ _ sorted_indices_nodup Hj), list_lookup_fmap, Hi.
    cbn. do 2 f_equal. lia.
  - rewrite number_commits_other, list_lookup_fmap, Hi; [done|]. intros H. apply list_elem_of_fmap in H as ([t k] & Hk & Hin). cbn in Hk. subst k.
    rewrite sorted_permutation in Hin. apply commits_elem in Hin as (r' & Hr' & Hc & _). congruence.
Qed.

Lemma commit_rank_bounds r i :
  rows !! i = Some r -> row_committed r = true ->
  0 < commit_rank rows (hr_commit_time_utc_ns (row_header r), i) <= N.of_nat (length (commits_of rows)).
Proof.
  intros Hi Hr. destruct (commit_position r i Hi Hr) as (j & Hj & ->). apply lookup_lt_Some in Hj. rewrite sorted_permutation in Hj. lia.
Qed.

Lemma commit_rank_inj r i r' i' :
  rows !! i = Some r -> row_committed r = true -> rows !! i' = Some r' -> row_committed r' = true ->
  commit_rank rows (hr_commit_time_utc_ns (row_header r), i) = commit_rank rows (hr_commit_time_utc_ns (row_header r'), i') -> i = i'.
Proof.
  intros Hi Hr Hi' Hr' E. destruct (commit_position r i Hi Hr) as (j & Hj & Ej). destruct (commit_position r' i' Hi' Hr') as (j' & Hj' & Ej').
  rewrite Ej, Ej' in E. assert (j = j') as -> by lia. rewrite Hj in Hj'. by injection Hj'.
Qed.
End sorted_commits.

(** ** The inventory built *)

Definition built_inventory (next : N) (rows : list inventory_row) : LocalTransactionInventory :=
  mkInventory next (N.of_nat (length (commits_of rows)) + 1) (built_entries rows) None.

(** What is known of a transaction of a checked inventory. *)
Record row_sound (next : N) (r : inventory_row) : Prop := {
  rw_number : 0 < row_number r < next;
  rw_state : row_state r <> tip_unused;
  rw_valid : ValidateTransactionHeaderRecord (row_header r) = the_none;
  rw_archived : row_state r = tip_archived -> hr_final_state (row_header r) <> tip_unused }.

Lemma built_lookup rows i e :
  built_entries rows !! i = Some e -> exists r, rows !! i = Some r /\
    e = with_commit_sequence (row_entry r) (if row_committed r then commit_rank rows (hr_commit_time_utc_ns (row_header r), i) else 0).
Proof. unfold built_entries. rewrite list_lookup_imap. destruct (rows !! i) as [r|]; [|done]. cbn. intros H. apply (inj Some) in H as <-. eauto. Qed.

Lemma outcome_sequence e k : HasCommittedInventoryOutcome (with_commit_sequence e k) = HasCommittedInventoryOutcome e.
Proof. done. Qed.

Lemma valid_identity r : ValidateTransactionHeaderRecord r = the_none -> IsEngineIdentityUuid (hr_transaction_uuid r) = true.
Proof.
  unfold ValidateTransactionHeaderRecord. case_decide; [done|]. destruct (IsEngineIdentityUuid (hr_database_uuid r)); [|done].
  by destruct (IsEngineIdentityUuid (hr_transaction_uuid r)).
Qed.

Lemma built_entry_ok next rows i r :
  rows !! i = Some r -> row_sound next r ->
  entry_ok (built_inventory next rows)
    (with_commit_sequence (row_entry r) (if row_committed r then commit_rank rows (hr_commit_time_utc_ns (row_header r), i) else 0)).
Proof.
  intros Hi [R1 R2 R3 R4]. pose proof (valid_identity _ R3) as Hid. pose proof (engine_identity_not_nil _ Hid) as Hnil.
  split; unfold row_entry; cbn [with_commit_sequence built_entry e_begin_visible_through_commit_sequence e_state e_archived_from_state e_commit_sequence
    e_identity inv_next_commit_sequence inv_next_local_transaction_id built_inventory].
  - lia.
  - by destruct (row_state r).
  - intros E. rewrite E. rewrite decide_True by done. assert (Ea : row_state r = tip_archived) by (by destruct (row_state r)).
    apply validate_parts in R3 as (_ & _ & R3). rewrite decide_False in R3 by (by apply R4). destruct R3 as [R3 _].
    destruct (hr_final_state (row_header r)); try done; cbn; set_solver.
  - intros E. by rewrite decide_False.
  - intros E. rewrite outcome_sequence in E. fold (row_entry r) in E. fold (row_committed r) in E. rewrite E.
    pose proof (commit_rank_bounds rows r i Hi E). lia.
  - intros E. rewrite outcome_sequence in E. fold (row_entry r) in E. fold (row_committed r) in E. by rewrite E.
  - unfold transaction_identity_valid. cbn [ti_local_id ti_transaction_uuid ti_scope]. unfold local_id_valid, typed_uuid_valid, MakeLocalTransactionId. cbn [tu_kind tu_value].
    rewrite Hnil, !bool_decide_eq_true_2; try done; [by case_decide|unfold kInvalidLocalTransactionId; lia].
  - exact Hid.
  - unfold e_local_id. cbn [with_commit_sequence built_entry e_identity ti_local_id]. unfold MakeLocalTransactionId. apply R1.
Qed.

Lemma NoDup_by_index {A B} (f : A -> B) (l : list A) :
  (forall i j x y, l !! i = Some x -> l !! j = Some y -> f x = f y -> i = j) -> NoDup (f <$> l).
Proof.
  intros H. apply NoDup_alt. intros i j b Hi Hj. rewrite list_lookup_fmap in Hi, Hj.
  destruct (l !! i) as [x|] eqn:Ex; [|done]. destruct (l !! j) as [y|] eqn:Ey; [|done]. apply (inj Some) in Hi, Hj. by apply (H i j x y); congruence.
Qed.

Lemma filter_fmap_index {A B} (P : A -> Prop) `{!forall x, Decision (P x)} (f : A -> B) (l : list A) :
  (forall i j x y, l !! i = Some x -> l !! j = Some y -> P x -> P y -> f x = f y -> i = j) -> NoDup (f <$> filter P l).
Proof.
  induction l as [|a l IH]; intros Hidx; [constructor|]. assert (Hl : NoDup (f <$> filter P l)) by (apply IH; intros i j x y Hi Hj Px Py E; by apply (inj S), (Hidx (S i) (S j) x y)).
  rewrite filter_cons. case_decide as Ha; [|done]. cbn. constructor; [|done]. intros Hin. apply list_elem_of_fmap in Hin as (y & Hy & Hin).
  apply list_elem_of_filter in Hin as [Py Hin]. apply list_elem_of_lookup in Hin as [j Hj]. by discriminate (Hidx 0%nat (S j) a y eq_refl Hj Ha Py Hy).
Qed.

Lemma built_uuids rows : (uuid_bytes ∘ e_uuid) <$> built_entries rows = (fun r => uuid_bytes (hr_transaction_uuid (row_header r))) <$> rows.
Proof.
  apply list_eq. intros i. rewrite !list_lookup_fmap. unfold built_entries. rewrite list_lookup_imap. by destruct (rows !! i).
Qed.

Lemma built_structure next rows :
  next <> 0 -> Forall (row_sound next) rows -> NoDup (row_number <$> rows) ->
  structure_ok (built_inventory next rows) <-> NoDup ((fun r => uuid_bytes (hr_transaction_uuid (row_header r))) <$> rows).
Proof.
  intros Hnext Hrows Hnum. split; [intros Hs; rewrite <- built_uuids; apply (so_uuids _ Hs)|]. intros Hu. split; cbn [built_inventory inv_next_local_transaction_id inv_next_commit_sequence inv_entries].
  - done.
  - lia.
  - apply Forall_lookup. intros i e He. apply built_lookup in He as (r & Hr & ->). apply built_entry_ok; [done|]. by eapply Forall_lookup_1 in Hrows.
  - apply filter_fmap_index. intros i j x y Hx Hy Px Py E. apply built_lookup in Hx as (r & Hr & ->). apply built_lookup in Hy as (r' & Hr' & ->).
    rewrite outcome_sequence in Px, Py. fold (row_committed r) in Px. fold (row_committed r') in Py. cbn [e_commit_sequence with_commit_sequence] in E. rewrite Px, Py in E.
    by apply (commit_rank_inj rows r i r' j).
  - assert (E : e_local_id <$> built_entries rows = row_number <$> rows); [|by rewrite E].
    apply list_eq. intros i. rewrite !list_lookup_fmap. unfold built_entries. rewrite list_lookup_imap. by destruct (rows !! i).
  - by rewrite built_uuids.
Qed.

(** ** The rows of a checked inventory *)

Lemma header_record_valid l h i r :
  header_page_of l = Some h -> hp_slots h !! i = Some (Some r) -> ValidateTransactionHeaderRecord r = the_none.
Proof.
  intros H Hi. apply header_page_of_iff in H as (_ & _ & ->). cbn [hp_slots header_page_at] in Hi.
  assert (Hs : N.of_nat i < header_slots_at l) by (apply lookup_lt_Some in Hi; rewrite length_records_at in Hi; lia).
  pose proof (lookup_records_at l _ Hs) as Hr. rewrite Nat2N.id, Hi in Hr. apply (inj Some) in Hr. unfold record_at in Hr.
  destruct (all_zero _); [done|]. destruct (decode_record_iff (slot_bytes l (N.of_nat i))) as (res & Hd & Hiff). rewrite Hd in Hr.
  destruct res as [e|r']; [done|]. apply (inj Some) in Hr as <-. by apply Hiff.
Qed.

Section rows.
Context (page_size : N) (state_images header_images : list N) (pages : list tip_page) (headers : list header_page) (c : TipCounters).
Context (Hb : Forall is_byte state_images).
Context (Hc : checked page_size state_images header_images pages headers c) (Hs : N.of_nat (length state_images) < 2 ^ 48).
Let next := tc_next_transaction c.
Let rows := inventory_rows pages headers next.

Lemma header_of_number_valid n r : header_of_number headers n = Some r -> ValidateTransactionHeaderRecord r = the_none.
Proof.
  unfold header_of_number. destruct (head headers) as [f|]; [|done]. cbn. destruct (headers !! _) as [h|] eqn:Hh; [|done]. cbn.
  destruct (hp_slots h !! _) as [o|] eqn:Ho; [|done]. cbn. intros ->. destruct (images_of_page _ _ _ _ _ _ (ch_header _ _ _ _ _ _ Hc) Hh) as [H1 _].
  by apply (header_record_valid _ _ _ _ H1 Ho).
Qed.

(** The page and slot of a number. *)
Lemma number_place n w :
  word_of_number pages n = Some w -> exists i p j, pages !! i = Some p /\ tp_words p !! j = Some w /\ number_of p j = n.
Proof.
  intros Hn. unfold word_of_number in Hn. destruct (head pages) as [f|] eqn:Hf; [|done]. cbn in Hn.
  assert (Hf0 : pages !! 0%nat = Some f) by (by destruct pages). destruct (checked_page _ _ _ _ _ _ Hc Hs 0 f Hf0) as (_ & _ & Hfl & _). rewrite Hfl in Hn.
  destruct (pages !! N.to_nat _) as [p|] eqn:Hp; [|done]. cbn in Hn. destruct (checked_page _ _ _ _ _ _ Hc Hs _ p Hp) as (_ & Hsq & Hpl & _).
  exists (N.to_nat (n / TipSlotsPerPage page_size)), p, (N.to_nat (n mod TipSlotsPerPage page_size)). split; [done|]. split; [done|].
  unfold number_of. rewrite Hsq, Hpl, !N2Nat.id. pose proof (N.div_mod' n (TipSlotsPerPage page_size)). lia.
Qed.

Lemma zero_unused w : word_of_number pages 0 = Some w -> tw_state w = tip_unused.
Proof.
  intros Hw. destruct (number_place 0 w Hw) as (i & p & j & Hi & Hj & Hn). destruct (checked_page _ _ _ _ _ _ Hc Hs i p Hi) as (Hp & Hsq & Hpl & _).
  pose proof (state_slots_positive _ _ _ _ _ _ Hc Hs) as Hpos. unfold number_of in Hn. rewrite Hsq, Hpl in Hn.
  assert (i = 0%nat /\ j = 0%nat) as [-> ->] by nia. apply page_of_iff in Hp as (Hf & Hwo & ->). cbn [tp_sequence tp_words page_at] in Hsq, Hj.
  assert (Hs0 : 0 < slots_at (page_slice page_size state_images 0)) by (apply lookup_lt_Some in Hj; rewrite length_words_at in Hj; lia).
  destruct (lookup_words_at _ 0 Hwo Hs0) as (w' & H1 & _ & Hpl'). change (N.to_nat 0) with 0%nat in H1. rewrite Hj in H1. apply (inj Some) in H1 as <-.
  destruct Hpl' as [E|E]; [done|]. unfold first_page in E. rewrite Hsq in E. by destruct E as [? _].
Qed.

Lemma rows_sound : Forall (row_sound next) rows.
Proof.
  apply Forall_forall. intros r Hr. apply rows_from_elem in Hr as [Hn Hr]. unfold row_of in Hr.
  destruct (word_of_number pages (row_number r)) as [w|] eqn:Hw; [|done]. cbn in Hr. case_decide as Hu; [done|].
  destruct (header_of_number headers (row_number r)) as [h|] eqn:Hh; [|done]. cbn in Hr. apply (inj Some) in Hr.
  assert (Hne : row_number r <> 0) by (intros E; rewrite E in Hw; by apply Hu, zero_unused).
  destruct (number_place _ _ Hw) as (i & p & j & Hi & Hj & Hnum). rewrite <- Hr. cbn [row_number row_state row_header]. split; cbn [row_number row_state row_header].
  - lia.
  - done.
  - by apply (header_of_number_valid (row_number r)).
  - intros E. assert (Ha : agrees w (header_of_number headers (number_of p j))).
    { apply (lg_agree _ _ _ (ch_legal _ _ _ _ _ _ Hc) p j w); [by apply list_elem_of_lookup_2 in Hi|done|done|]. rewrite Hnum. fold next. lia. }
    rewrite Hnum, Hh in Ha. destruct (ag_archived _ _ Ha E) as (h' & [= <-] & ?). done.
Qed.

(** Fewer rows than numbers, since zero is none. *)
Lemma rows_room m : (length (rows_from pages headers 0 m) <= m - 1)%nat.
Proof.
  destruct m as [|m]; [done|]. rewrite rows_from_S. assert (H0 : row_of pages headers 0 = None).
  { unfold row_of. destruct (word_of_number pages 0) as [w|] eqn:Hw; [|done]. cbn. by rewrite decide_True by by apply zero_unused. }
  rewrite H0. cbn [row_list app]. pose proof (rows_from_length pages headers (0 + 1) m). lia.
Qed.

Lemma next_covered : next <= N.of_nat (length pages) * TipSlotsPerPage page_size.
Proof.
  pose proof (lg_state _ _ _ (ch_legal _ _ _ _ _ _ Hc)) as Hl. destruct (last pages) as [p|] eqn:Hp.
  - pose proof (sl_covered _ _ Hl p Hp) as Hcov. rewrite last_lookup in Hp. destruct (checked_page _ _ _ _ _ _ Hc Hs _ p Hp) as (_ & Hsq & Hpl & _).
    unfold number_of in Hcov. rewrite Hsq, Hpl in Hcov. fold next in Hcov. pose proof (lookup_lt_Some _ _ _ Hp). nia.
  - apply last_None in Hp. pose proof (sl_counters _ _ Hl) as Hh. by rewrite Hp in Hh.
Qed.

Lemma next_range : 0 < next < u64_modulus.
Proof.
  pose proof (sl_counters _ _ (lg_state _ _ _ (ch_legal _ _ _ _ _ _ Hc))) as Hh. destruct (head pages) as [f|] eqn:Hf; [|done]. apply (inj Some) in Hh.
  assert (Hf0 : pages !! 0%nat = Some f) by (by destruct pages). destruct (checked_page _ _ _ _ _ _ Hc Hs 0 f Hf0) as (Hp & _).
  destruct (page_counters _ _ Hp) as [_ Hv]. pose proof (Hv c Hh) as Hok. unfold HorizonsValid in Hok. apply andb_true_iff in Hok as [Hok _]. apply bool_decide_eq_true in Hok.
  apply page_of_iff in Hp as (Hfr & _ & ->). cbn [tp_counters page_at] in Hh. unfold stored_counters in Hh. destruct (first_page _); [|done]. apply (inj Some) in Hh.
  assert (Hn : next = u64_at kNext (page_slice page_size state_images 0)) by (unfold next; by rewrite <- Hh).
  fold next in Hok. split; [lia|]. rewrite Hn. unfold u64_at. apply (le_slice_bound 8); [by apply page_slice_bytes|].
  pose proof (fo_room _ (fk_family _ _ Hfr)). unfold kNext. lia.
Qed.
End rows.

(** An earlier commit has the lower sequence. *)
Lemma commit_rank_monotone rows r i r' i' :
  rows !! i = Some r -> row_committed r = true -> rows !! i' = Some r' -> row_committed r' = true ->
  commit_le (hr_commit_time_utc_ns (row_header r), i) (hr_commit_time_utc_ns (row_header r'), i') -> i <> i' ->
  commit_rank rows (hr_commit_time_utc_ns (row_header r), i) < commit_rank rows (hr_commit_time_utc_ns (row_header r'), i').
Proof.
  intros Hi Hr Hi' Hr' Hle Hne. destruct (commit_position rows r i Hi Hr) as (j & Hj & ->). destruct (commit_position rows r' i' Hi' Hr') as (j' & Hj' & ->).
  destruct (decide (j < j')%nat) as [Hlt|Hge]; [lia|]. exfalso. destruct (decide (j = j')) as [->|Hjj]; [congruence|].
  set (sorted := merge_sort commit_le (commits_of rows)) in *.
  assert (Hback : commit_le (hr_commit_time_utc_ns (row_header r'), i') (hr_commit_time_utc_ns (row_header r), i)).
  { assert (Hsrt : StronglySorted commit_le (take j sorted ++ drop j sorted)) by (rewrite take_drop; apply StronglySorted_merge_sort; apply _).
    apply StronglySorted_app in Hsrt as (Hx & _ & _). apply Hx.
    - apply list_elem_of_lookup. exists j'. rewrite lookup_take, decide_True by lia. done.
    - apply list_elem_of_lookup. exists 0%nat. by rewrite lookup_drop, Nat.add_0_r. }
  unfold commit_le in *. cbn [fst snd] in *. lia.
Qed.

Section build_inventory.
Context (page_size : N) (state_images header_images : list N) (pages : list tip_page) (headers : list header_page) (c : TipCounters).
Context (Hb : Forall is_byte state_images).
Context (Hs : N.of_nat (length state_images) < 2 ^ 48) (Hh : N.of_nat (length header_images) < 2 ^ 48).
Context (Hc : checked page_size state_images header_images pages headers c).
Let next := tc_next_transaction c.
Let rows := inventory_rows pages headers next.
Let distinct := NoDup ((fun r => uuid_bytes (hr_transaction_uuid (row_header r))) <$> rows).

Lemma checked_build :
  build_pages page_size state_images header_images (TransactionHeaderSlotsPerPage page_size) (u64_sub next 1) next 0
    (N.to_nat (N.of_nat (length state_images) / page_size)) (mkBuildState [] []) = Some (inr (build_of rows)).
Proof.
  pose proof (checked_size _ _ _ _ _ _ Hc) as Hps. destruct (run_count _ _ _ Hps (proj1 (ch_state _ _ _ _ _ _ Hc))) as [_ ->].
  destruct (next_range _ _ _ _ _ _ Hb Hc Hs) as [Hn1 Hn2]. fold next in Hn1, Hn2.
  assert (Hcap : forall m, (m <= N.to_nat next)%nat -> N.of_nat (length (rows_from pages headers 0 m)) <= u64_sub next 1).
  { intros m Hm. rewrite u64_sub_small by lia. pose proof (rows_room _ _ _ _ _ _ Hc Hs m). lia. }
  pose proof (build_pages_spec _ _ _ _ _ _ Hc Hs (u64_sub next 1) (length pages) 0 eq_refl Hcap) as Hrun.
  pose proof (next_covered _ _ _ _ _ _ Hc Hs) as Hcov. fold next in Hcov, Hrun.
  replace (N.to_nat (N.min next (N.of_nat 0 * TipSlotsPerPage page_size))) with 0%nat in Hrun by lia.
  rewrite N.min_l in Hrun by done. exact Hrun.
Qed.

Lemma built_valid : ValidateBorrowed (built_inventory next rows) = ""%string <-> distinct.
Proof.
  rewrite validate_borrowed, validate_structure_iff. pose proof (next_range _ _ _ _ _ _ Hb Hc Hs) as Hn. fold next in Hn.
  apply built_structure; [lia|by apply (rows_sound page_size state_images header_images)|apply rows_from_numbers].
Qed.

(** The build into the caller's scratch. *)
Lemma build_into_spec scratch :
  BuildLocalTransactionInventoryInto page_size state_images header_images scratch =
  Some (if decide (bs_entries scratch < next - 1 \/ bs_commits scratch < next - 1 \/ bs_indices scratch < next - 1 \/ bs_markers scratch < next - 1)
        then refused_build tpe_short_buffer None
        else if decide (bs_sound scratch = true /\ distinct)
        then mkBuildView tpe_none None next (inv_next_commit_sequence (built_inventory next rows)) (inv_entries (built_inventory next rows))
        else mkBuildView tpe_invalid_word None next (inv_next_commit_sequence (built_inventory next rows)) []).
Proof.
  unfold BuildLocalTransactionInventoryInto. rewrite (checked_accepted _ _ _ Hb Hs Hh _ _ _ Hc). cbn [mbind option_bind].
  unfold ic_ok. cbn [ic_error ic_counters]. rewrite bool_decide_eq_true_2 by done. cbn [negb]. fold next.
  destruct (next_range _ _ _ _ _ _ Hb Hc Hs) as [Hn1 Hn2]. fold next in Hn1, Hn2.
  assert (Hsub : u64_sub next 1 = next - 1) by (apply u64_sub_small; lia). pose proof checked_build as Hbuild. rewrite Hsub in Hbuild |- *.
  destruct (decide (_ \/ _)) as [Hshort|Hroom]; [done|]. rewrite Hbuild. cbn [mbind option_bind bd_entries bd_commits build_of].
  rewrite number_commits_built. fold (built_inventory next rows). unfold ValidateNativeTransactionInventoryConstView, ValidateInventoryView.
  cbn [bk_sound bk_indices bk_markers]. destruct (bs_sound scratch); cbn [negb].
  - rewrite (decide_False (P := _ < _ \/ _)) by (cbn [built_inventory inv_entries]; lia). pose proof built_valid as Hv.
    destruct (decide (ValidateBorrowed (built_inventory next rows) <> ""%string)) as [Hw|Hw]; cbn [fst].
    + rewrite decide_True by done. rewrite decide_False by tauto. done.
    + apply dec_stable, Hv in Hw. rewrite decide_False by tauto. rewrite decide_True by done. done.
  - cbn [fst]. rewrite decide_True by done. rewrite decide_False by (intros [? _]; done). done.
Qed.
End build_inventory.

(** C19: the inventory built from checked images is the one they describe.  It has one entry
    for every number from one up to [Next] whose slot is used and whose header is there, in
    order, with the state of the slot, the identity and the times of the header; committed
    entries are numbered from one in the order of their commit times, ties by number, and
    no other entry has a commit sequence.  The build is refused exactly when two headers
    carry one transaction UUID, and every inventory built is well-formed in the sense of
    the inventory's own validator. *)
Theorem inventory_build_exact (page_size : N) (state_images header_images : list N)
    (pages : list tip_page) (headers : list header_page) (c : TipCounters)
    (Hb : Forall is_byte state_images)
    (Hs : N.of_nat (length state_images) < 2 ^ 48) (Hh : N.of_nat (length header_images) < 2 ^ 48)
    (Hc : checked page_size state_images header_images pages headers c) :
  let next := tc_next_transaction c in
  let rows := inventory_rows pages headers next in
  let distinct := NoDup ((fun r => uuid_bytes (hr_transaction_uuid (row_header r))) <$> rows) in
  BuildLocalTransactionInventoryFromImages page_size state_images header_images =
    Some (if decide distinct then mkInventoryBuild tpe_none None (built_inventory next rows)
          else mkInventoryBuild tpe_invalid_word None LocalTransactionInventory_default) /\
  (distinct -> structure_ok (built_inventory next rows)) /\
  (forall r, r ∈ rows <-> row_number r < next /\ row_of pages headers (row_number r) = Some r) /\
  NoDup (row_number <$> rows) /\
  (forall i r, rows !! i = Some r -> built_entries rows !! i =
     Some (with_commit_sequence (row_entry r) (if row_committed r then commit_rank rows (hr_commit_time_utc_ns (row_header r), i) else 0))) /\
  (forall i r i' r', rows !! i = Some r -> row_committed r = true -> rows !! i' = Some r' -> row_committed r' = true -> i <> i' ->
     commit_le (hr_commit_time_utc_ns (row_header r), i) (hr_commit_time_utc_ns (row_header r'), i') ->
     commit_rank rows (hr_commit_time_utc_ns (row_header r), i) < commit_rank rows (hr_commit_time_utc_ns (row_header r'), i')).
Proof.
  intros next rows distinct. destruct (next_range _ _ _ _ _ _ Hb Hc Hs) as [Hn1 Hn2]. fold next in Hn1, Hn2. split_and!.
  - unfold BuildLocalTransactionInventoryFromImages. rewrite (checked_accepted _ _ _ Hb Hs Hh _ _ _ Hc). cbn [mbind option_bind].
    unfold ic_ok. cbn [ic_error ic_counters]. rewrite bool_decide_eq_true_2 by done. cbn [negb]. fold next. rewrite u64_sub_small by lia.
    rewrite (build_into_spec _ _ _ _ _ _ Hb Hs Hh Hc). cbn [bs_entries bs_commits bs_indices bs_markers bs_sound]. fold next rows distinct.
    rewrite decide_False by lia. destruct (decide distinct) as [Hd|Hd].
    + by rewrite decide_True by done.
    + by rewrite decide_False by tauto.
  - intros Hd. rewrite <- validate_structure_iff, <- validate_borrowed. by apply (built_valid page_size state_images header_images).
  - intros r. unfold rows, inventory_rows. rewrite rows_from_elem. split; intros [H1 H2]; (split; [lia|done]).
  - apply rows_from_numbers.
  - intros i r Hr. unfold built_entries. rewrite list_lookup_imap, Hr. done.
  - intros. by apply commit_rank_monotone.
Qed.

(** ** A sample inventory: number 1 committed, 2 active, 3 prepared, 4 allocated *)

(** ** Reading the inventory from the file *)

(** C11: the read of the in-place inventory always returns, whatever the links on the file,
    and is exact.  It succeeds exactly when, starting at the root and following the
    links, every page of both chains lies in the place its own header names, the first
    page is the root the request asked for, the two chains are a sound inventory and
    they fit the backing.  It then hands over the images of those pages, state pages
    first, with the counters of the first page, and counts exactly their bytes. *)
Theorem inventory_read_exact (read_at : nat -> N -> nat -> BoundedIoResult) (r : TransactionInventoryReadRequest)
    (Hbytes : forall device offset count, Forall is_byte (io_bytes (read_at device offset count)))
    (Hbacking : rr_backing r < 2 ^ 48) :
  exists read, ReadTransactionInventory read_at r = Some read /\
    (ir_ok read = true <-> exists device page_size si hi pages headers c, on_file read_at r device page_size si hi pages headers c) /\
    (forall device page_size si hi pages headers c, on_file read_at r device page_size si hi pages headers c ->
       ir_images read = mjoin (si ++ hi) /\ ic_counters (ir_check read) = c /\ ir_page_size read = page_size /\
       ir_state_pages read = length pages /\ ir_header_pages read = length headers /\
       ir_physical_bytes_read read = N.of_nat (length (si ++ hi)) * page_size).
Proof.
  destruct (read_inventory_spec read_at r Hbytes Hbacking) as (read & Hrun & H1 & H2). exists read. split; [done|]. split.
  - split; [intros E; destruct (H1 E) as (d & s & si & hi & pages & headers & c & H & _); by exists d, s, si, hi, pages, headers, c|].
    intros (d & s & si & hi & pages & headers & c & H). destruct (ir_ok read) eqn:E; [done|by destruct (H2 eq_refl _ _ _ _ _ _ _ H)].
  - intros d s si hi pages headers c H. rewrite (on_file_read read_at r Hbytes Hbacking _ _ _ _ _ _ _ H) in Hrun. apply (inj Some) in Hrun as <-.
    destruct H as [_ H3 H4 _ _ _]. apply Forall2_length in H3, H4. split_and!; done.
Qed.

(** *** The chain view of an in-place inventory *)




Section in_place.
Context (read_at probe_at : nat -> N -> nat -> BoundedIoResult) (database : Uuid) (files : list NativeFilespaceDevice).
Context (root : FilespaceRootReference) (maximum : N) (batches : list (option nat)) (head_image : option (list N)).

Definition in_place_request (room page_size : N) : TransactionInventoryReadRequest := mkReadRequest database root files batches (room * page_size).







Context (Hbytes : forall device offset count, Forall is_byte (io_bytes (read_at device offset count))) (Hmax : maximum < 2 ^ 48).





Section stored.
Context (device : nat) (page_size room : N) (si hi : list (list N)) (pages : list tip_page) (headers : list header_page) (c : TipCounters).
Context (Hallowed : pages_allowed page_size (tc_next_transaction c) maximum = inr room).
Context (Hof : on_file read_at (in_place_request room page_size) device page_size si hi pages headers c).








End stored.

(** *** The guarded read *)







End in_place.



Definition sample_header_nine : NativeCommonPageHeader :=
  mkPageHeader 8192 769 (frame_uuid 1) (frame_uuid 2) (frame_uuid 4) 9 1 0 (profile_uuid 0 129 146).

Definition inventory_record (order : N) : TransactionHeaderRecord :=
  mkHeaderRecord tau_local 1 2 false order (frame_uuid 1) (frame_uuid (10 + order))
    no_uuid no_uuid no_uuid no_uuid no_uuid no_uuid no_uuid no_uuid no_uuid no_uuid no_uuid 0 0 tip_unused 0 0.

Definition sample_state_edits : list tip_edit := [edit_code 1 tip_committed; edit_code 2 tip_active; edit_code 3 tip_prepared].
Definition sample_state_images : list N := default [] (run_edits sample_state_edits sample_tip).
Definition sample_state_page : tip_page := apply_edits sample_state_edits sample_tip_page.

Definition sample_header_edits : list header_edit :=
  [header_write (inventory_record 1); header_update (snd (CompleteTransactionHeader (inventory_record 1) tip_committed 77));
   header_write (inventory_record 2); header_write (inventory_record 3)].
Definition empty_header_images : list N :=
  match FormatTransactionHeaderPage (mkHeaderFormat sample_header_nine 0 0) (replicate (N.to_nat 8192) 0) with Some (_, l) => l | None => [] end.
Definition sample_header_images : list N := default [] (run_header_edits sample_header_edits empty_header_images).
Definition sample_headers_page : header_page := apply_header_edits sample_header_edits (mkHeaderPage sample_header_nine 0 0 (replicate 30 None)).

Definition sample_check : TransactionInventoryCheck := mkInventoryCheck tpe_none rs_none 0 None (sample_tip_counters 5).

Lemma sample_state_decodes : page_of sample_state_images = Some sample_state_page /\ Forall is_byte sample_state_images.
Proof.
  destruct (run_edits_refine sample_state_edits sample_tip sample_tip_page sample_tip_bytes sample_tip_decodes) as (l & H1 & H2 & H3); [repeat constructor|].
  unfold sample_state_images. rewrite H1. exact (conj H2 H3).
Qed.

Lemma sample_headers_decode : header_page_of sample_header_images = Some sample_headers_page /\ Forall is_byte sample_header_images.
Proof.
  assert (H0 : header_page_of empty_header_images = Some (mkHeaderPage sample_header_nine 0 0 (replicate 30 None))) by (vm_compute; reflexivity).
  assert (Hb : Forall is_byte empty_header_images) by (apply bytes_by_check; vm_compute; reflexivity).
  destruct (run_header_edits_refine sample_header_edits empty_header_images _ Hb H0) as (l & H1 & H2 & H3).
  { repeat constructor. }
  unfold sample_header_images. rewrite H1. exact (conj H2 H3).
Qed.

Lemma sample_state_words :
  tp_words sample_state_page = [unused_word; with_state tip_committed unused_word; with_state tip_active unused_word; with_state tip_prepared unused_word]
    ++ replicate (N.to_nat 1916) unused_word.
Proof. vm_compute. reflexivity. Qed.

Lemma sample_header_slots :
  hp_slots sample_headers_page =
  [None; Some (snd (CompleteTransactionHeader (inventory_record 1) tip_committed 77)); Some (inventory_record 2); Some (inventory_record 3)]
    ++ replicate 26 None.
Proof. vm_compute. reflexivity. Qed.

Lemma sample_inventory_legal : inventory_legal [sample_state_page] [sample_headers_page] (sample_tip_counters 5).
Proof.
  assert (Hone : forall {A} (a : A) i x, [a] !! i = Some x -> i = 0%nat /\ x = a) by (intros A a [|i] x H; [by injection H as ->|done]).
  split; [split| |].
  - reflexivity.
  - intros i p H. apply Hone in H as [-> ->]. reflexivity.
  - intros p f Hp Hf. apply list_elem_of_singleton in Hp as ->. apply (inj Some) in Hf as <-. reflexivity.
  - intros f Hf. apply (inj Some) in Hf as <-. split; reflexivity.
  - constructor.
  - intros p Hp. apply (inj Some) in Hp as <-. unfold number_of. rewrite sample_state_words, length_app, length_replicate. cbn [length].
    change (tc_next_transaction (sample_tip_counters 5)) with 5. change (tp_sequence sample_state_page) with 0. lia.
  - intros f Hf. apply (inj Some) in Hf as <-. split; [done| | |split; reflexivity|].
    + intros i h H. apply Hone in H as [-> ->]. reflexivity.
    + intros h Hh. apply list_elem_of_singleton in Hh as ->. reflexivity.
    + intros h Hh i r Hr. apply list_elem_of_singleton in Hh as ->. rewrite sample_header_slots in Hr.
      assert (Hi : (i < 4)%nat).
      { destruct (decide (i < 4)%nat) as [Hi|Hi]; [done|]. rewrite lookup_app_r in Hr by (cbn [length]; lia). apply lookup_replicate in Hr as [Hr _]. done. }
      unfold header_number, header_first. change (hp_sequence sample_headers_page) with 0. change (tc_next_transaction (sample_tip_counters 5)) with 5. lia.
  - intros p i w Hp Hw Hu Hn. apply list_elem_of_singleton in Hp as ->. unfold number_of in *. change (tp_sequence sample_state_page) with 0 in *.
    change (tc_next_transaction (sample_tip_counters 5)) with 5 in Hn. rewrite N.mul_0_l, N.add_0_l in *. rewrite sample_state_words in Hw.
    assert (Hi : (i < 4)%nat).
    { destruct (decide (i < 4)%nat) as [Hi|Hi]; [done|]. rewrite lookup_app_r in Hw by (cbn [length]; lia). apply lookup_replicate in Hw as [-> _]. done. }
    rewrite lookup_app_l in Hw by (cbn [length]; lia). apply slot_agrees_iff.
    do 4 (destruct i as [|i]; [apply (inj Some) in Hw as <-; first [by destruct Hu|vm_compute; reflexivity]|]). lia.
Qed.

Lemma single_page {A} (decode : list N -> option A) page_size images x :
  length images = N.to_nat page_size -> decode images = Some x -> images_of decode page_size images [x].
Proof.
  intros Hl Hd. split; [cbn [length]; lia|]. intros [|i] y H; [|done]. apply (inj Some) in H as <-. cbn [Nat.mul]. unfold slice.
  by rewrite drop_0, take_ge by lia.
Qed.

Lemma state_image_length l p : page_of l = Some p -> N.of_nat (length l) = ph_page_size_bytes (tp_header p).
Proof. intros H. apply page_of_iff in H as (Hf & _ & ->). cbn [tp_header page_at]. rewrite header_size_at. apply (fo_length _ (fk_family _ _ Hf)). Qed.
Lemma header_image_length l h : header_page_of l = Some h -> N.of_nat (length l) = ph_page_size_bytes (hp_header h).
Proof. intros H. apply header_page_of_iff in H as (Hf & _ & ->). cbn [hp_header header_page_at]. rewrite header_size_at. apply (ho_length _ (hk_family _ _ Hf)). Qed.

Lemma sample_sizes : length sample_state_images = N.to_nat 8192 /\ length sample_header_images = N.to_nat 8192.
Proof.
  pose proof (state_image_length _ _ (proj1 sample_state_decodes)) as H1. pose proof (header_image_length _ _ (proj1 sample_headers_decode)) as H2.
  change (ph_page_size_bytes (tp_header sample_state_page)) with 8192 in H1. change (ph_page_size_bytes (hp_header sample_headers_page)) with 8192 in H2. lia.
Qed.

Lemma sample_checked : checked 8192 sample_state_images sample_header_images [sample_state_page] [sample_headers_page] (sample_tip_counters 5).
Proof.
  split; [exact (single_page page_of 8192 _ _ (proj1 sample_sizes) (proj1 sample_state_decodes))
         |exact (single_page header_page_of 8192 _ _ (proj2 sample_sizes) (proj1 sample_headers_decode))|exact sample_inventory_legal].
Qed.

Lemma sample_small : N.of_nat (length sample_state_images) < 2 ^ 48 /\ N.of_nat (length sample_header_images) < 2 ^ 48.
Proof. destruct sample_sizes as [-> ->]. rewrite N2Nat.id. done. Qed.

Lemma sample_inventory_checked : CheckTransactionInventoryImages 8192 sample_state_images sample_header_images = Some sample_check.
Proof. exact (checked_accepted _ _ _ (proj2 sample_state_decodes) (proj1 sample_small) (proj2 sample_small) _ _ _ sample_checked). Qed.

(** The transactions of the sample. *)
Example sample_inventory_rows :
  (fun r => (row_number r, row_state r, row_committed r)) <$> inventory_rows [sample_state_page] [sample_headers_page] 5 =
  [(1, tip_committed, true); (2, tip_active, false); (3, tip_prepared, false)].
Proof. vm_compute. reflexivity. Qed.

Lemma inventory_check_exact_witness :
  exists pages headers c, images_of page_of 8192 sample_state_images pages /\ images_of header_page_of 8192 sample_header_images headers /\
    inventory_legal pages headers c.
Proof.
  destruct (inventory_check_exact 8192 sample_state_images sample_header_images (proj2 sample_state_decodes) (proj1 sample_small) (proj2 sample_small))
    as (check & H1 & H2 & _).
  rewrite sample_inventory_checked in H1. apply (inj Some) in H1. rewrite <- H1 in H2. exact (proj1 H2 eq_refl).
Defined.

Lemma restart_keeps_inventory_witness :
  exists plan images, PlanTransactionStateRestart (restart_chain 8192 sample_state_images) = Some (plan, images) /\
    CheckTransactionInventoryImages 8192 (mjoin images) sample_header_images = Some sample_check.
Proof.
  destruct (restart_keeps_inventory 8192 sample_state_images sample_header_images sample_check (proj2 sample_state_decodes)
    (proj1 sample_small) (proj2 sample_small) sample_inventory_checked eq_refl) as (plan & images & H1 & _ & _ & H2 & _).
  exists plan, images. split; [exact H1|exact H2].
Defined.

Lemma inventory_build_exact_witness :
  BuildLocalTransactionInventoryFromImages 8192 sample_state_images sample_header_images =
  Some (mkInventoryBuild tpe_none None (built_inventory 5 (inventory_rows [sample_state_page] [sample_headers_page] 5))).
Proof.
  destruct (inventory_build_exact 8192 sample_state_images sample_header_images [sample_state_page] [sample_headers_page] (sample_tip_counters 5)
    (proj2 sample_state_decodes) (proj1 sample_small) (proj2 sample_small) sample_checked) as (H & _).
  rewrite decide_True in H; [exact H|]. apply (bool_decide_unpack _). vm_compute. exact I.
Defined.

(** *** The sample on a file: the state page at seven, the header page at nine *)

Definition sample_read_at (device : nat) (offset : N) (count : nat) : BoundedIoResult :=
  if decide (offset = 7 * 8192) then mkBoundedIo true (take count sample_state_images)
  else if decide (offset = 9 * 8192) then mkBoundedIo true (take count sample_header_images)
  else mkBoundedIo false [].

Definition sample_files : list NativeFilespaceDevice := [mkFilespaceDevice (frame_uuid 2) (profile_uuid 0 129 146) (Some 0%nat)].
Definition sample_root : FilespaceRootReference := mkRoot 4 769 (frame_uuid 2) 7 1 (profile_uuid 0 129 146) (frame_uuid 5).

Lemma sample_read_bytes device offset count : Forall is_byte (io_bytes (sample_read_at device offset count)).
Proof.
  unfold sample_read_at. destruct (decide (offset = 7 * 8192)) as [_|_]; [exact (Forall_take _ _ _ (proj2 sample_state_decodes))|].
  destruct (decide (offset = 9 * 8192)) as [_|_]; [exact (Forall_take _ _ _ (proj2 sample_headers_decode))|constructor].
Qed.

Lemma sample_on_file room : 2 <= room ->
  on_file sample_read_at (in_place_request (frame_uuid 1) sample_files sample_root [Some 0%nat] room 8192) 0 8192
    [sample_state_images] [sample_header_images] [sample_state_page] [sample_headers_page] (sample_tip_counters 5).
Proof.
  intros Hr. split.
  - vm_compute. reflexivity.
  - constructor; [|constructor]. split; [|exact (proj1 sample_state_decodes)]. change (state_link sample_state_page).1 with 7.
    assert (Hread : sample_read_at 0 (7 * 8192) (N.to_nat 8192) = mkBoundedIo true sample_state_images).
    { unfold sample_read_at. rewrite decide_True by reflexivity. rewrite take_ge by (rewrite (proj1 sample_sizes); apply Nat.le_refl). reflexivity. }
    split; [vm_compute; discriminate|rewrite Hread; reflexivity|rewrite Hread; reflexivity|exact (proj1 sample_sizes)].
  - constructor; [|constructor]. split; [|exact (proj1 sample_headers_decode)]. change (header_link_of sample_headers_page).1 with 9.
    assert (Hread : sample_read_at 0 (9 * 8192) (N.to_nat 8192) = mkBoundedIo true sample_header_images).
    { unfold sample_read_at. rewrite decide_False by discriminate. rewrite decide_True by reflexivity.
      rewrite take_ge by (rewrite (proj2 sample_sizes); apply Nat.le_refl). reflexivity. }
    split; [vm_compute; discriminate|rewrite Hread; reflexivity|rewrite Hread; reflexivity|exact (proj2 sample_sizes)].
  - exact sample_inventory_legal.
  - intros first Hf. apply (inj Some) in Hf as <-. split; try reflexivity. intros u Hu. discriminate Hu.
  - cbn [length rr_backing in_place_request]. rewrite N.div_mul by discriminate. lia.
Qed.


Lemma inventory_read_exact_witness :
  exists read, ReadTransactionInventory sample_read_at (in_place_request (frame_uuid 1) sample_files sample_root [Some 0%nat] 2 8192) = Some read /\
    ir_ok read = true /\ ir_images read = mjoin [sample_state_images; sample_header_images] /\ ir_physical_bytes_read read = 16384.
Proof.
  destruct (inventory_read_exact sample_read_at (in_place_request (frame_uuid 1) sample_files sample_root [Some 0%nat] 2 8192) sample_read_bytes eq_refl)
    as (read & H1 & H2 & H3).
  pose proof (sample_on_file 2 (N.le_refl 2)) as Hof. exists read. split; [exact H1|]. destruct (H3 _ _ _ _ _ _ _ Hof) as (H4 & _ & _ & _ & _ & H5).
  split; [apply H2; do 7 eexists; exact Hof|]. split; [exact H4|exact H5].
Defined.

